(* ===== verification/_CoqProject ===== *)
-Q . S2P
Prelude.v
Codec.v
Proto.v
Transport.v
Core.v
ObjectTable.v
Regions.v
Response.v
Decoder.v
DecoderSpec.v
Frame.v
State.v
TableFacts.v
ChildInv.v
StateInv.v
StateEvents.v
StateFacts.v
Engine.v
EngineFacts.v
ResetFacts.v
ResetLive.v
Settled.v
EngineProps.v
ResetProps.v
EngineDemo.v
Chain.v
ChainSpec.v
SplitQueue.v
QueueInv.v
QueueSpec.v
QueueProps.v
DriverPorts.v
GuestTypes.v
GuestClient.v
GuestTrace.v
GuestFrames.v
GuestResponses.v
GuestDevice.v
SplitDriver.v
Mock.v
GuestProps.v
MockFacts.v
MockProps.v
Fault.v
Ownership.v
FaultFacts.v
FaultSpec.v
AuditedEngine.v
FaultProps.v
TosaTypes.v
TosaNumeric.v
TosaArtifact.v
TosaSpecialize.v
TosaWire.v
TosaValidate.v
TosaGraph.v
TosaView.v
TosaSemantic.v
TosaTypeProfile.v
TosaAttrCheck.v
TosaShapes.v
TosaFlow.v
TosaDataflow.v
TosaNesting.v
TosaShapeProps.v
TosaAnalysis.v
TosaPlanOrder.v
TosaPlanLive.v
TosaPlanProps.v
TosaRuntime.v
TosaCapability.v
BackendArtifact.v
VulkanShader.v
VulkanLower.v
VulkanAccess.v
VulkanGeometry.v
VulkanMemory.v
VulkanKeeps.v
VulkanProps.v
