(* ===== verification/Prelude.v ===== *)
(** * virtio-accel: a verification library for the protocol and its device

    virtio-accel exposes an accelerator to a guest: the guest puts command
    frames into descriptor chains, the device decodes them, keeps a graph of
    contexts, buffers, programs, queues and events, calls a backend that owns
    the native objects, and answers every frame.  This library models the
    Rust crates that carry this logic and proves what they promise.

    ** How the parts fit together

    The driver builds a chain of descriptors ([Chain]) and publishes it on a
    split queue ([SplitQueue]); the device pops it, answers, and completes it.
    A chain arrives as a list of region lengths and two byte ports
    ([Transport]).  [Frame.preflight_command_frame] validates the layout and
    lets [Decoder.FrameDecoder_decode] read the request through the ports of
    [Regions], in the wire layouts of [Proto].  [Engine.process] dispatches
    the decoded request; its handlers drive the object graph of [State],
    whose five tables are [ObjectTable]s, call the backend, an instance of the
    class [Core.Accelerator], and answer through [Response].
    [Engine.reset] tears the graph down, children before parents.  At the other
    end of the chains the guest's driver ([GuestClient]) writes request frames
    and reads the answers, over any queue that keeps the contracts of
    [DriverPorts].  [Mock] is the reference backend, and [Fault] wraps any
    backend with scripted faults and an audit of who owns which resource.

    Programs for the native backends are TOSA graphs.  Their bytes are parsed
    and checked structurally ([TosaValidate]), checked against a target
    ([TosaFlow]) and turned into an execution plan ([TosaAnalysis]); shapes
    known only at run time are checked before each specialization
    ([TosaRuntime]), and compiled specializations are cached
    ([TosaSpecialize]).  The Vulkan backend lowers a plan to memory regions and
    kernel dispatches ([VulkanLower]).  Backends that load precompiled programs
    have containers of their own ([BackendArtifact]).

    ** Files

    - [Prelude]: [result] and the [let?] notation for [?]; machine integers as
      [Z] with their checked, saturating and wrapping operations written out;
      byte strings as [list Z] with [slice] and [splice]; shared lemmas and
      tactics.
    - [Codec], [Proto] (crates/virtio-accel-proto): byte layouts built from
      field layouts, the class [Wire], the wire structures, opcodes, status
      codes and [WireConfig_validate].
    - [Transport] (crates/virtio-accel-transport): chain layouts, byte ports,
      queue value types.
    - [Core] (crates/virtio-accel-core): descriptors, limits and their checks,
      the byte ports [ByteSource] (a record of observations) and [ByteSink] (a
      class over a state), binding validation, and the backend contract
      [Accelerator] over an explicit world.  [ByteSinkSpec] is what a sink
      promises; clients are proved against it and [slice_sink],
      [SegmentedSink] and [WritableRegion] discharge it.
    - [ObjectTable] (device/src/object_table.rs): generational slots, with the
      refinement to a finite map and the staleness of removed identifiers.
    - [Regions], [Response], [Decoder], [Frame] (the files of the same names
      in device/src): byte ports over segments and subregions, the response
      writer, the frame decoder, the preflight.  [DecoderSpec] gives the
      abstract syntax of requests with their encoding [frame_of] and shows the
      decoder sound and complete for it.
    - [State] (device/src/state.rs): the object graph with two-phase release.
      [TableFacts], [ChildInv], [StateInv], [StateEvents] and [StateFacts]
      build its invariant [state_inv] and the properties of every state
      reachable by [state_step].
    - [Engine] (device/src/engine.rs): the command processor and reset.
      [EngineFacts] (every handler moves the processor as allowed and answers
      once), [Settled] (no release is left half done, and submissions),
      [ResetFacts] (accounting of a reset pass), [ResetLive] (its loops end,
      and empty the tables when the backend cooperates), [EngineProps] and
      [ResetProps] (the properties, over the step relation [processor_step]),
      [EngineDemo] (a backend and a history of wire commands on which the
      properties are applied).

    - [Chain] (split-queue/src/chain.rs): descriptors over a shared heap, chain
      analysis, the ports of a chain.  [ChainSpec]: the copy loops act on the
      concatenation of the buffers, what analysis accepts, the direct builder.
    - [SplitQueue] (split-queue/src/queue.rs): ring storage, the descriptor
      allocator, the driver, device and configuration operations.
      [QueueInv] (masks, scans, table updates, and the relation [ring_rel] to an
      abstract queue), [QueueSpec] (the specification
      [spec_step] and the refinement of every operation) and [QueueProps]
      (histories, with the chains the device holds, and the properties).
    - [DriverPorts] (transport/src/bytes.rs, queue.rs): the driver's ports as
      classes of operations, with the contracts [ChainContract] and
      [QueueContract] their documentation states; [SplitDriver] shows that the
      split queue keeps them.
    - [GuestTypes], [GuestClient] (crates/virtio-accel-guest): request values,
      handles, the trait [Operation] with its fifteen instances, and every
      call of the client.  [GuestTrace] (slots, request identifiers, frame
      writing, histories and the slot invariant), [GuestFrames]
      (the frame of each request against [frame_of]), [GuestResponses] (which
      answers are accepted), [GuestDevice] (the client against the engine),
      [GuestProps] (the properties).
    - [Mock] (mock/src/lib.rs, reference.rs): the reference backend, with the
      shared bytes of its buffers and the reference artifacts; [MockFacts],
      [MockProps].
    - [Fault] (mock/src/fault.rs): fault scripts, the audit and the wrapper, an
      [Accelerator] over every [Accelerator], in a monad with panics.
      [Ownership] abstracts a device state to its ownership graph and says how
      every operation of the state changes it; [FaultFacts] couples the graph
      with the audit; [FaultSpec] gives triples for the wrapper's methods;
      [AuditedEngine] states what an auditing backend promises to its client (the
      class [Audited]) and proves that the engine is such a client;
      [FaultProps] makes the wrapper an instance and draws the conclusions.

    The files from here on model crates/virtio-accel-tosa, but for those of the
    last two items.

    - [TosaTypes], [TosaNumeric], [TosaArtifact] (types.rs, integer.rs,
      numeric.rs, artifact.rs): versions, operators and types, fixed-point
      arithmetic, 4-bit and 8-bit encodings, targets and their identities.
    - [TosaSpecialize] (specialize.rs): keys of specializations and the cache,
      with the refinement to a least-recently-used list.
    - [TosaWire] (the tables that generated.rs delivers, attribute.rs),
      [TosaValidate] (validate.rs), [TosaGraph] (what a well-formed graph is),
      [TosaView] (view.rs): parsing accepts exactly the well-formed graphs
      within the limits, and no accessor of an accepted model panics.
    - [TosaSemantic], [TosaTypeProfile], [TosaAttrCheck], [TosaShapes],
      [TosaFlow] (semantic.rs): operands, types, attributes, shape rules, data
      flow, nesting, and the whole of [validate_semantics].  [TosaDataflow]
      (the data-flow check decides whether a schedule exists), [TosaNesting]
      (the nesting check decides whether chains of calls are short enough),
      [TosaShapeProps] (the shape rules against integer relations).
    - [TosaAnalysis] (analysis.rs): the plan and its builder.  [TosaPlanOrder]
      (values, operators, conditions and the order), [TosaPlanLive] (uses,
      lifetimes and dead operators), [TosaPlanProps] (a planned block).
    - [TosaRuntime] (runtime.rs): values supplied at run time, with the
      exactness of their checks.  [TosaCapability] (capability.rs): what a
      provider admits.
    - [BackendArtifact] (virtio-accel-xdna/src/artifact.rs and
      virtio-accel-coreml/src/artifact.rs): UTF-8 validation, the XDNA
      container and the Core ML path artifact.
    - [VulkanShader] (virtio-accel-vulkan/src/shader.rs, the part that runs on
      the host): storages, kernel variants, specialization words, workgroups.
      [VulkanLower] (lower.rs): targets, capabilities and the whole lowering
      of an analysis to slots, an arena, constants and dispatches.
      [VulkanAccess] (the assemblers of shader.rs): which elements a kernel
      loads and stores.  [VulkanGeometry] (each kind of dispatch stays within
      its tensors), [VulkanMemory] (words, descriptors, the invariant
      [lowering_ok] of the state), [VulkanKeeps] (every lowering function
      keeps it), [VulkanProps] (the properties).

    ** What the theorems show

    - Wire: structures are canonical ([Proto.wire_canonical]), the
      configuration check enforces the bounds, decoding and encoding of
      requests are inverse ([DecoderSpec.decode_sound], [decode_complete]).
    - Ports: segmented ports refine the concatenation, regions and payload
      guards confine writes, a response is one frame.
    - Objects: the table refines a map, identifiers are never reissued and
      never revive; every reachable graph keeps exact child and in-flight
      counts, quotas and byte accounts; events never dangle; releases wait for
      references, begun releases commit, rejected ones are undone; failed
      creations change nothing.
    - Engine: every frame is answered once within the reserved bytes; the
      invariant holds on every reachable processor; malformed frames and lost
      devices are inert; the backend sees only validated submissions; objects
      of unknown fate are quarantined.
    - Queue: a chain is accepted exactly when its links and layout are legal,
      its ports are concatenations of its buffers; the ring refines a FIFO
      queue with exact descriptor accounting; no chain is lost or duplicated,
      the queue's tables never disagree, a command and its answer travel
      intact, and a reset revokes the device's access.
    - Reset: nothing is lost from the accounts, loops end, success renews the
      namespace so that old identifiers stay dead, discarding is final, and a
      cooperating backend always yields a running device.  Finding: only the
      loop over events heeds the mark of a lost device.
    - Guest: the slots mirror the queue on every history and no chain is lost;
      request identifiers are distinct; a completion reaches its own request; a
      started request decodes at the device to what was asked, the engine's
      answer is accepted (discovery needs one condition that the device does
      not check, a finding), accepted answers are canonical, and a reset makes
      older handles and requests stale on every history that follows it.
    - Mock: artifacts decode exactly when built, transfers round trip, a
      completed submission changes the bytes as its operation says, and a
      device over it resets.
    - Ownership: over any backend and under any fault script the device never
      uses or releases a handle it does not own, nothing leaks, and a reset
      that succeeds returns every resource unless the wrapper itself failed a
      rollback before.
    - TOSA: parsing, the data-flow check, the nesting check and the static and
      dynamic shape checks accept exactly what their relational specifications
      admit, and return on every input; the planner orders every block of a
      model that validation accepts, links values to producers and readers and
      finds the dead operators; the cache behaves as an LRU list until its clock
      is used up; fixed-point scaling and the 8-bit floats are exact.  Findings:
      without the bound of a level the static shape rules are exact only modulo
      2^64, the cache renumbers under a lookup, what computes a variable is
      dead.
    - Containers: the parsers of the precompiled containers accept exactly
      the encoder's outputs.
    - Vulkan: the dispatches of an accepted plan address only words behind
      their descriptors, with one exception that is a finding (a cast to a
      narrower type may load past a slot); constants are uploaded inside the
      arena; a load and a store of one word are always separated by a barrier.

    ** Modelling choices

    - A [&mut self] method is a function from the old state to the new one
      with its result; an early return is a branch.  [&mut dyn ByteSink] is a
      state [S] with the class [ByteSink]; the fast path [as_contiguous_mut],
      which hands out a borrow, is not a method of the class.  What a backend
      does to a sink while it reads a buffer is a [SinkProgram], the sequence
      of its writes.
    - Allocation can fail where the source uses [try_reserve]: each such place
      takes a boolean, for the engine the record [CommandMemory].
    - The five tables' child kinds include [ChildEvent], which the source
      counts without naming it in [ChildKind].
    - Arithmetic on counters wraps as in a release build; theorems show that
      it never does.
    - Bytes that driver and device share ([Rc<RefCell>]) live in a heap of
      buffers, and the shared epoch cell is an argument of the ports.  A device
      chain is not copyable: [queue_step] consumes it at completion.
    - [slice::partition_point] counts the leading elements that satisfy its
      predicate; [ChainSpec.first_touched_split] shows the spans partitioned.
    - Loops with a cursor take fuel: the number of slots and one, which
      [ResetProps.reset_loops_terminate] proves to be enough.
    - [BackendTyped] says that a backend's answers have the widths of their
      types; nothing else is assumed of a backend, except in the liveness
      theorem, which asks for one that cooperates ([cooperative], with the
      worlds in which it does).  Between two calls a backend may change its
      world at will ([system_step]).
    - Atomics of the mock are plain cells, each method one step.  A panic of
      the fault wrapper marks its world; the theorems are about worlds without
      the mark.

    - The FlatBuffers verifier and the generated accessors are a parameter
      [root] that yields records ([WireGraph] and below), constrained by
      [graph_typed] to the widths of their types.  Names are byte lists.
    - In the TOSA files [None] is a panic (a failed [expect], an index out of
      range, [unreachable!]); theorems show that accepted models never reach
      one.  Whether a reservation succeeds is an oracle on its site.
      Unchecked [i64] arithmetic wraps as in a release build.
    - An [f32] is its bit pattern; the products of the source are those of the
      Standard Library's [SpecFloat].
    - Depth-first search over regions takes the nesting limit plus two as
      fuel, the ready loop the number of operators; both are proved enough by
      the equivalences, which state that the checks return.
    - A Vulkan kernel is its loads and stores as a predicate on its
      specialization words: its loop body runs for every index of the iteration
      space, so the workgroup count does not matter to it.

    ** Not modelled

    Formatting and [Debug] implementations.  The native backends
    (virtio-accel-coreml, -openvino, -xdna, -hexagon and -vulkan) apart from
    their artifact containers and the Vulkan lowering: they call vendor runtimes through foreign
    functions, emit programs for those runtimes, and meet the device through
    the contract [Accelerator], which is all that the theorems about the
    engine assume.  The TOSA builder and generated.rs, which are FlatBuffers
    code; conformance vectors and tolerances; the vAccel adapter. *)

From Stdlib Require Import ZArith Lia.
From stdpp Require Import prelude list sorting.

#[global] Open Scope Z_scope.

(** ** Rust's [Result] *)

Inductive result (A E : Type) : Type :=
  | Ok (a : A)
  | Err (e : E).
Arguments Ok {A E} _.
Arguments Err {A E} _.

#[global] Instance result_eq_dec `{EqDecision A, EqDecision E} : EqDecision (result A E).
Proof. solve_decision. Defined.

(** [Result::map_err], [Result::map], [Option::ok_or], [Result::is_ok]. *)
Definition map_err {A E F} (f : E -> F) (r : result A E) : result A F :=
  match r with Ok a => Ok a | Err e => Err (f e) end.

Definition result_map {A B E} (f : A -> B) (r : result A E) : result B E :=
  match r with Ok a => Ok (f a) | Err e => Err e end.

Definition ok_or {A E} (o : option A) (e : E) : result A E :=
  match o with Some a => Ok a | None => Err e end.

Definition is_ok {A E} (r : result A E) : bool :=
  match r with Ok _ => true | Err _ => false end.

Declare Scope rust_scope.
Delimit Scope rust_scope with rust.
#[global] Open Scope rust_scope.

(** The [?] operator: [let? x := r in k] returns the error of [r] unchanged;
    [let? x := r or h in k] builds the early return value with [h]. *)
Notation "'let?' x ':=' r 'in' k" :=
  (match r with Ok x => k | Err err__ => Err err__ end)
  (at level 10, x pattern, r at level 100, k at level 200,
   format "'[v' 'let?'  x  ':='  r  'in' '/' k ']'") : rust_scope.

Notation "'let?' x ':=' r 'or' h 'in' k" :=
  (match r with Ok x => k | Err err__ => h err__ end)
  (at level 10, x pattern, r at level 100, h at level 100, k at level 200,
   format "'[v' 'let?'  x  ':='  r  'or'  h  'in' '/' k ']'") : rust_scope.

(** ** Machine integers

    A [w]-bit unsigned integer is a [Z]; the width is a range hypothesis where
    a theorem needs it and an explicit check or wrap where the code has one. *)

Abbreviation U8_MAX := 255.
Abbreviation U16_MAX := 65535.
Abbreviation U32_MAX := 4294967295.
Abbreviation U64_MAX := 18446744073709551615.
Abbreviation U128_MAX := 340282366920938463463374607431768211455.
(** [usize] on the 64-bit hosts. *)
Abbreviation USIZE_MAX := U64_MAX.

Abbreviation is_u8 x := (0 <= x <= U8_MAX).
Abbreviation is_u16 x := (0 <= x <= U16_MAX).
Abbreviation is_u32 x := (0 <= x <= U32_MAX).
Abbreviation is_u64 x := (0 <= x <= U64_MAX).
Abbreviation is_u128 x := (0 <= x <= U128_MAX).

Definition checked_add (max a b : Z) : option Z :=
  if a + b <=? max then Some (a + b) else None.

Definition checked_mul (max a b : Z) : option Z :=
  if a * b <=? max then Some (a * b) else None.

Definition checked_sub (a b : Z) : option Z :=
  if b <=? a then Some (a - b) else None.

Definition saturating_add (max a b : Z) : Z := Z.min max (a + b).

Definition wrapping_add (max a b : Z) : Z := (a + b) mod (max + 1).

Definition wrapping_sub (max a b : Z) : Z := (a - b) mod (max + 1).

(** [T::try_from] between unsigned widths: only the upper bound can fail. *)
Definition try_from (max v : Z) : option Z :=
  if v <=? max then Some v else None.

(** [u64::is_power_of_two]: exactly one bit set. *)
Definition is_power_of_two (v : Z) : bool := (0 <? v) && (v =? 2 ^ Z.log2 v).

(** [NonZeroU64::new] and its siblings. *)
Definition nonzero (v : Z) : option Z := if v =? 0 then None else Some v.

(** [(lo..=hi).contains(&v)] *)
Definition in_range (lo hi v : Z) : bool := (lo <=? v) && (v <=? hi).

(** The [bitflags] queries the code uses, on the raw bits. *)
Definition bits_contains (flags other : Z) : bool := Z.land flags other =? other.
Definition bits_intersects (flags other : Z) : bool := negb (Z.land flags other =? 0).

(** ** Byte strings *)

(** [&l[off .. off + len]] *)
Definition slice {A} (off len : Z) (l : list A) : list A :=
  take (Z.to_nat len) (drop (Z.to_nat off) l).

(** [l[off .. off + src.len()].copy_from_slice(src)] *)
Definition splice {A} (off : Z) (src l : list A) : list A :=
  take (Z.to_nat off) l ++ src ++ drop (Z.to_nat off + length src) l.

Definition zlen {A} (l : list A) : Z := Z.of_nat (length l).

Definition is_bytes (l : list Z) : Prop := Forall (fun b => is_u8 b) l.

Fixpoint le_bytes (n : nat) (v : Z) : list Z :=
  match n with
  | O => []
  | S n => v mod 256 :: le_bytes n (v / 256)
  end.

Fixpoint le_value (bs : list Z) : Z :=
  match bs with
  | [] => 0
  | b :: bs => b + 256 * le_value bs
  end.

(** ** Sums over lists *)

Definition sum_by {A} (f : A -> Z) (l : list A) : Z := foldr (fun x acc => f x + acc) 0 l.

(** ** Tactics and hints *)

Create HintDb va.

(** Split every [match] of the goal and of a hypothesis [H], closing the
    contradictory branches. *)
Ltac split_match_in H :=
  repeat match type of H with
         | context [match ?x with _ => _ end] => destruct x eqn:?; simplify_eq
         end.

Ltac bool_to_prop :=
  repeat match goal with
         | H : (_ && _)%bool = true |- _ => apply andb_true_iff in H as [? ?]
         | H : (_ || _)%bool = false |- _ => apply orb_false_iff in H as [? ?]
         | H : negb _ = true |- _ => apply negb_true_iff in H
         | H : negb _ = false |- _ => apply negb_false_iff in H
         | H : (_ <=? _) = true |- _ => apply Z.leb_le in H
         | H : (_ <=? _) = false |- _ => apply Z.leb_gt in H
         | H : (_ <? _) = true |- _ => apply Z.ltb_lt in H
         | H : (_ <? _) = false |- _ => apply Z.ltb_ge in H
         | H : (_ =? _) = true |- _ => apply Z.eqb_eq in H
         | H : (_ =? _) = false |- _ => apply Z.eqb_neq in H
         end.

(** Decide the integer comparisons of the goal whose answer [lia] can prove. *)
Ltac zcmp :=
  repeat (match goal with
          | |- context [?a <=? ?b] =>
              first [ rewrite (proj2 (Z.leb_le a b)) by lia | rewrite (proj2 (Z.leb_gt a b)) by lia ]
          | |- context [?a <? ?b] =>
              first [ rewrite (proj2 (Z.ltb_lt a b)) by lia | rewrite (proj2 (Z.ltb_ge a b)) by lia ]
          | |- context [?a =? ?b] =>
              first [ rewrite (proj2 (Z.eqb_eq a b)) by lia | rewrite (proj2 (Z.eqb_neq a b)) by lia ]
          end; simpl).

(** ** Lemmas on machine integers *)

Lemma checked_add_Some max a b c :
  checked_add max a b = Some c <-> c = a + b /\ a + b <= max.
Proof. unfold checked_add. case_match; bool_to_prop; split; intros; destruct_and?; simplify_eq; auto; lia. Qed.

Lemma checked_add_None max a b : checked_add max a b = None <-> max < a + b.
Proof. unfold checked_add. case_match; bool_to_prop; split; try done; lia. Qed.

Lemma in_range_spec lo hi v : in_range lo hi v = true <-> lo <= v <= hi.
Proof. unfold in_range. rewrite andb_true_iff, !Z.leb_le. done. Qed.

Lemma is_power_of_two_spec v :
  is_power_of_two v = true <-> exists k, 0 <= k /\ v = 2 ^ k.
Proof.
  unfold is_power_of_two. rewrite andb_true_iff, Z.ltb_lt, Z.eqb_eq. split.
  - intros [? ?]. exists (Z.log2 v). split; [apply Z.log2_nonneg | done].
  - intros (k & ? & ->). split; [by apply Z.pow_pos_nonneg |].
    by rewrite Z.log2_pow2.
Qed.

(** ** Lemmas on byte strings *)

Lemma zlen_nonneg {A} (l : list A) : 0 <= zlen l.
Proof. unfold zlen. lia. Qed.

Lemma zlen_0 {A} (l : list A) : zlen l = 0 <-> l = [].
Proof. unfold zlen. destruct l; simpl; split; intros; try done; lia. Qed.

Lemma zlen_app {A} (l k : list A) : zlen (l ++ k) = zlen l + zlen k.
Proof. unfold zlen. rewrite length_app. lia. Qed.

#[export] Hint Resolve zlen_nonneg : va.

Lemma zlen_slice {A} off len (l : list A) :
  0 <= off -> 0 <= len -> off + len <= zlen l -> zlen (slice off len l) = len.
Proof. unfold zlen, slice. intros. rewrite length_take, length_drop. lia. Qed.

Lemma zlen_splice {A} off (src l : list A) :
  0 <= off -> off + zlen src <= zlen l -> zlen (splice off src l) = zlen l.
Proof.
  unfold zlen, splice. intros.
  rewrite !length_app, length_take, length_drop. lia.
Qed.

Lemma slice_splice_eq {A} off (src l : list A) :
  0 <= off -> off + zlen src <= zlen l -> slice off (zlen src) (splice off src l) = src.
Proof.
  unfold zlen, slice, splice. intros.
  rewrite drop_app_length' by (rewrite length_take; lia).
  rewrite take_app_length' by lia. done.
Qed.

Lemma slice_all {A} (l : list A) : slice 0 (zlen l) l = l.
Proof. unfold slice, zlen. rewrite Nat2Z.id. by apply take_ge. Qed.

Lemma splice_nil {A} off (l : list A) : splice off [] l = l.
Proof. unfold splice. simpl. rewrite Nat.add_0_r. apply take_drop. Qed.

Lemma lookup_splice {A} off (src l : list A) (i : nat) :
  0 <= off -> off + zlen src <= zlen l ->
  splice off src l !! i =
    if decide (off <= Z.of_nat i < off + zlen src)
    then src !! (i - Z.to_nat off)%nat else l !! i.
Proof.
  unfold zlen, splice. intros Hoff Hlen.
  assert (Z.to_nat off <= length l)%nat by lia.
  case_decide.
  - rewrite lookup_app_r by (rewrite length_take; lia).
    rewrite length_take, lookup_app_l by lia. f_equal. lia.
  - destruct (decide (i < Z.to_nat off)%nat).
    + rewrite lookup_app_l by (rewrite length_take; lia).
      by rewrite lookup_take_lt.
    + rewrite lookup_app_r, length_take by (rewrite length_take; lia).
      rewrite lookup_app_r by lia. rewrite lookup_drop. f_equal. lia.
Qed.

(** Two adjacent writes are one write of the concatenation. *)
Lemma splice_app {A} off (a b l : list A) :
  0 <= off -> off + zlen a + zlen b <= zlen l ->
  splice (off + zlen a) b (splice off a l) = splice off (a ++ b) l.
Proof.
  intros. pose proof (zlen_nonneg a). pose proof (zlen_nonneg b).
  apply list_eq. intros i.
  rewrite !lookup_splice; rewrite ?zlen_splice, ?zlen_app; try lia.
  unfold zlen in *. repeat case_decide; try lia; try done.
  - rewrite lookup_app_r by lia. f_equal. lia.
  - rewrite lookup_app_l by lia. done.
Qed.

Lemma take_plus {A} n m (l : list A) : take (n + m) l = take n l ++ take m (drop n l).
Proof. revert l. induction n as [|n IH]; intros [|x l]; simpl; try done; [by rewrite take_nil|]. by rewrite IH. Qed.

(** Adjacent slices concatenate. *)
Lemma slice_app {A} off n m (l : list A) :
  0 <= off -> 0 <= n -> 0 <= m ->
  slice off n l ++ slice (off + n) m l = slice off (n + m) l.
Proof.
  unfold slice. intros.
  rewrite (Z2Nat.inj_add off n), (Z2Nat.inj_add n m) by lia.
  by rewrite <- drop_drop, take_plus.
Qed.

Lemma slice_slice {A} off n o m (l : list A) :
  0 <= off -> 0 <= o -> 0 <= m -> o + m <= n ->
  slice o m (slice off n l) = slice (off + o) m l.
Proof.
  unfold slice. intros. rewrite skipn_firstn_comm, take_take, drop_drop.
  f_equal; [lia|]. f_equal. lia.
Qed.

Lemma slice_app_l {A} off len (l k : list A) :
  0 <= off -> 0 <= len -> off + len <= zlen l -> slice off len (l ++ k) = slice off len l.
Proof.
  unfold slice, zlen. intros.
  rewrite drop_app_le by lia. rewrite take_app_le; [done|]. rewrite length_drop. lia.
Qed.

Lemma slice_app_r {A} off len (l k : list A) :
  zlen l <= off -> slice off len (l ++ k) = slice (off - zlen l) len k.
Proof.
  unfold slice, zlen. intros. rewrite drop_app_ge by lia. do 2 f_equal. lia.
Qed.

Lemma slice_prefix {A} (l k : list A) : slice 0 (zlen l) (l ++ k) = l.
Proof. unfold slice, zlen. rewrite Nat2Z.id. apply (take_app_length l k). Qed.

(** A write outside a range leaves the slice of that range unchanged. *)
Lemma slice_splice_ne {A} off len o (src l : list A) :
  0 <= off -> 0 <= len -> 0 <= o -> o + zlen src <= zlen l ->
  off + len <= o \/ o + zlen src <= off ->
  slice off len (splice o src l) = slice off len l.
Proof.
  intros. apply list_eq. intros i. unfold slice.
  destruct (decide (i < Z.to_nat len)%nat).
  - rewrite !lookup_take_lt, !lookup_drop, lookup_splice by lia.
    case_decide; [lia | done].
  - by rewrite !lookup_take_ge by lia.
Qed.

(** A write into one half of a concatenation. *)
Lemma splice_app_l {A} off (src l k : list A) :
  0 <= off -> off + zlen src <= zlen l -> splice off src (l ++ k) = splice off src l ++ k.
Proof.
  unfold splice, zlen. intros.
  rewrite take_app_le, drop_app_le by lia. by rewrite <- !app_assoc.
Qed.

Lemma splice_app_r {A} off (src l k : list A) :
  zlen l <= off -> splice off src (l ++ k) = l ++ splice (off - zlen l) src k.
Proof.
  unfold splice, zlen. intros.
  rewrite take_app_ge, drop_app_ge by lia. rewrite <- app_assoc. do 3 f_equal; [lia|]. f_equal. lia.
Qed.

Lemma zlen_concat_cons {A} (l : list A) ls : zlen (concat (l :: ls)) = zlen l + zlen (concat ls).
Proof. simpl. apply zlen_app. Qed.

Lemma is_bytes_app l k : is_bytes (l ++ k) <-> is_bytes l /\ is_bytes k.
Proof. apply Forall_app. Qed.

Lemma is_bytes_slice off len l : is_bytes l -> is_bytes (slice off len l).
Proof. intros. by apply Forall_take, Forall_drop. Qed.

Lemma is_bytes_splice off src l : is_bytes src -> is_bytes l -> is_bytes (splice off src l).
Proof.
  intros. unfold splice, is_bytes. rewrite !Forall_app.
  split_and!; auto using Forall_take, Forall_drop.
Qed.

#[export] Hint Resolve is_bytes_slice is_bytes_splice : va.

(** ** Little-endian integers *)

Lemma length_le_bytes n v : length (le_bytes n v) = n.
Proof. revert v. induction n; intros; simpl; auto. Qed.

Lemma le_bytes_is_bytes n v : is_bytes (le_bytes n v).
Proof.
  revert v. induction n as [|n IH]; intros v; simpl; constructor; auto.
  - pose proof (Z.mod_pos_bound v 256). lia.
  - apply IH.
Qed.

Lemma le_value_bytes n v : 0 <= v < 256 ^ Z.of_nat n -> le_value (le_bytes n v) = v.
Proof.
  revert v. induction n as [|n IH]; intros v Hv; simpl.
  - simpl in Hv. lia.
  - rewrite Nat2Z.inj_succ, Z.pow_succ_r in Hv by lia.
    rewrite IH; [pose proof (Z.div_mod v 256); lia|].
    split; [apply Z.div_pos; lia | apply Z.div_lt_upper_bound; lia].
Qed.

Lemma le_value_bound bs : is_bytes bs -> 0 <= le_value bs < 256 ^ Z.of_nat (length bs).
Proof.
  induction 1 as [|b bs Hb _ IH]; simpl; [lia|].
  rewrite Nat2Z.inj_succ, Z.pow_succ_r by lia. lia.
Qed.

Lemma le_bytes_value bs : is_bytes bs -> le_bytes (length bs) (le_value bs) = bs.
Proof.
  induction 1 as [|b bs Hb Hbs IH]; simpl; [done|].
  rewrite (Z.mul_comm 256), Z_mod_plus_full, Z.mod_small by lia.
  by rewrite Z.div_add, Z.div_small, Z.add_0_l, IH by lia.
Qed.

#[export] Hint Resolve le_bytes_is_bytes : va.

(** ** Lemmas on sums *)

Lemma sum_by_app {A} (f : A -> Z) l k : sum_by f (l ++ k) = sum_by f l + sum_by f k.
Proof. unfold sum_by. induction l as [|x l IH]; simpl; lia. Qed.

Lemma sum_by_ext {A} (f g : A -> Z) l :
  (forall x, x ∈ l -> f x = g x) -> sum_by f l = sum_by g l.
Proof.
  unfold sum_by. induction l as [|x l IH]; intros H; simpl; [done|].
  rewrite (H x), IH; set_solver.
Qed.

Lemma sum_by_nonneg {A} (f : A -> Z) l : (forall x, 0 <= f x) -> 0 <= sum_by f l.
Proof. intros H. unfold sum_by. induction l as [|x l IH]; simpl; [|specialize (H x)]; lia. Qed.

Lemma sum_by_add {A} (f g : A -> Z) l :
  sum_by (fun x => f x + g x) l = sum_by f l + sum_by g l.
Proof. unfold sum_by. induction l as [|x l IH]; simpl; lia. Qed.

Lemma sum_by_insert {A} (f : A -> Z) l (i : nat) x y :
  l !! i = Some x -> sum_by f (<[i := y]> l) = sum_by f l - f x + f y.
Proof.
  unfold sum_by. revert i. induction l as [|z l IH]; intros [|i] H; simpl in *; simplify_eq; [lia|].
  rewrite (IH i) by done. lia.
Qed.

Lemma sum_by_elem {A} (f : A -> Z) l x :
  (forall x, 0 <= f x) -> x ∈ l -> f x <= sum_by f l.
Proof.
  intros Hf. induction 1 as [y l | y z l _ IH]; unfold sum_by in *; simpl;
    [pose proof (sum_by_nonneg f l Hf); unfold sum_by in *|pose proof (Hf z)]; lia.
Qed.

Lemma sum_by_zero {A} (f : A -> Z) l : (forall x, x ∈ l -> f x = 0) -> sum_by f l = 0.
Proof.
  unfold sum_by. induction l as [|x l IH]; intros H; simpl; [done|].
  rewrite (H x), IH; set_solver.
Qed.

Lemma sum_by_le {A} (f g : A -> Z) l :
  (forall x, f x <= g x) -> sum_by f l <= sum_by g l.
Proof. intros H. unfold sum_by. induction l as [|x l IH]; simpl; [|specialize (H x)]; lia. Qed.
