(* ===== verification/Codec.v ===== *)
(** * Byte layouts of pointer-free wire structures

    The wire structures of [virtio-accel-proto] are [#[repr(C)]] records whose
    fields are byte arrays and little-endian integers of alignment one, so a
    value is the concatenation of its fields in declaration order with no
    padding.  [codec] is such a layout; the combinators build the layout of a
    record from the layouts of its fields, and [codec_ok] says that encoding
    and decoding are inverse on byte strings of the exact size.  The class
    [Wire] is the interface the decoder and the response writer use
    ([FromBytes]/[IntoBytes] of the crate that derives the conversions). *)

From Stdlib Require Import ZArith Lia.
From stdpp Require Import prelude list.
From S2P Require Import Prelude.

Record codec (T : Type) := Codec {
  c_size : nat;
  c_wf : T -> Prop;
  c_encode : T -> list Z;
  c_decode : list Z -> T;
}.
Arguments Codec {T}.
Arguments c_size {T}.
Arguments c_wf {T}.
Arguments c_encode {T}.
Arguments c_decode {T}.

(** What a layout promises: an encoded value has the fixed size and decodes to
    itself, and every byte string of the size is the encoding of a value. *)
Record codec_ok {T} (c : codec T) : Prop := {
  c_length : forall x, c_wf c x -> length (c_encode c x) = c_size c;
  c_bytes : forall x, c_wf c x -> is_bytes (c_encode c x);
  c_dec_enc : forall x, c_wf c x -> c_decode c (c_encode c x) = x;
  c_dec_wf : forall bs, is_bytes bs -> length bs = c_size c -> c_wf c (c_decode c bs);
  c_enc_dec : forall bs, is_bytes bs -> length bs = c_size c ->
    c_encode c (c_decode c bs) = bs;
}.

(** An unsigned little-endian integer of [n] bytes. *)
Definition le (n : nat) : codec Z := {|
  c_size := n;
  c_wf := fun v => 0 <= v < 256 ^ Z.of_nat n;
  c_encode := le_bytes n;
  c_decode := le_value;
|}.

(** A raw [[u8; n]]. *)
Definition raw (n : nat) : codec (list Z) := {|
  c_size := n;
  c_wf := fun bs => is_bytes bs /\ length bs = n;
  c_encode := fun bs => bs;
  c_decode := fun bs => bs;
|}.

(** Two consecutive fields. *)
Definition cpair {A B} (a : codec A) (b : codec B) : codec (A * B) := {|
  c_size := c_size a + c_size b;
  c_wf := fun p => c_wf a p.1 /\ c_wf b p.2;
  c_encode := fun p => c_encode a p.1 ++ c_encode b p.2;
  c_decode := fun bs => (c_decode a (take (c_size a) bs), c_decode b (drop (c_size a) bs));
|}.

(** A fixed-length array [[T; n]]. *)
Fixpoint array_decode {A} (a : codec A) (n : nat) (bs : list Z) : list A :=
  match n with
  | O => []
  | S n => c_decode a (take (c_size a) bs) :: array_decode a n (drop (c_size a) bs)
  end.

Definition array {A} (n : nat) (a : codec A) : codec (list A) := {|
  c_size := n * c_size a;
  c_wf := fun l => length l = n /\ Forall (c_wf a) l;
  c_encode := fun l => concat (map (c_encode a) l);
  c_decode := array_decode a n;
|}.

(** A record with the same fields as a tuple. *)
Definition cmap {A B} (f : A -> B) (g : B -> A) (a : codec A) : codec B := {|
  c_size := c_size a;
  c_wf := fun x => c_wf a (g x);
  c_encode := fun x => c_encode a (g x);
  c_decode := fun bs => f (c_decode a bs);
|}.

Declare Scope codec_scope.
Delimit Scope codec_scope with codec.
Infix "⊗" := cpair (at level 40, left associativity) : codec_scope.
#[global] Open Scope codec_scope.

Lemma le_ok n : codec_ok (le n).
Proof.
  split; simpl; intros.
  - apply length_le_bytes.
  - apply le_bytes_is_bytes.
  - by apply le_value_bytes.
  - subst. by apply le_value_bound.
  - subst. by apply le_bytes_value.
Qed.

Lemma raw_ok n : codec_ok (raw n).
Proof. split; simpl; intros; destruct_and?; auto. Qed.

Lemma cpair_ok {A B} (a : codec A) (b : codec B) :
  codec_ok a -> codec_ok b -> codec_ok (a ⊗ b).
Proof.
  intros Ha Hb. split; simpl.
  - intros [x y] [? ?]; simpl in *. by rewrite length_app, (c_length a), (c_length b).
  - intros [x y] [? ?]; simpl in *. apply is_bytes_app. by eauto using c_bytes.
  - intros [x y] [? ?]; simpl in *.
    rewrite take_app_length', drop_app_length' by by rewrite (c_length a).
    by rewrite (c_dec_enc a), (c_dec_enc b).
  - intros bs Hbs Hlen.
    split; apply c_dec_wf; auto using Forall_take, Forall_drop;
      rewrite ?length_take, ?length_drop; unfold is_bytes in *; try lia;
      auto using Forall_take, Forall_drop.
  - intros bs Hbs Hlen.
    rewrite (c_enc_dec a), (c_enc_dec b); rewrite ?take_drop, ?length_take, ?length_drop;
      unfold is_bytes; auto using Forall_take, Forall_drop; lia.
Qed.

Lemma array_ok {A} n (a : codec A) : codec_ok a -> codec_ok (array n a).
Proof.
  intros Ha. split; simpl.
  - intros l [<- Hl]. induction Hl as [|x l Hx _ IH]; simpl; [done|].
    by rewrite length_app, (c_length a), IH.
  - intros l [_ Hl]. induction Hl as [|x l Hx _ IH]; simpl; [constructor|].
    apply is_bytes_app. eauto using c_bytes.
  - intros l [<- Hl]. induction Hl as [|x l Hx _ IH]; simpl; [done|].
    rewrite take_app_length', drop_app_length' by by rewrite (c_length a).
    by rewrite (c_dec_enc a), IH.
  - induction n as [|n IH]; intros bs Hbs Hlen; simpl in *; [done|].
    destruct (IH (drop (c_size a) bs)) as [? ?].
    { by apply Forall_drop. }
    { rewrite length_drop. lia. }
    split; [by f_equal|]. constructor; [|done].
    apply (c_dec_wf a); [done| |]; [by apply Forall_take|rewrite length_take; lia].
  - induction n as [|n IH]; intros bs Hbs Hlen; simpl in *; [by destruct bs|].
    rewrite (c_enc_dec a), IH; rewrite ?take_drop, ?length_take, ?length_drop;
      unfold is_bytes; auto using Forall_take, Forall_drop; lia.
Qed.

Lemma cmap_ok {A B} (f : A -> B) (g : B -> A) (a : codec A) :
  (forall x, g (f x) = x) -> (forall y, f (g y) = y) -> codec_ok a -> codec_ok (cmap f g a).
Proof.
  intros Hgf Hfg Ha. split; simpl; intros.
  - by apply c_length.
  - by apply c_bytes.
  - by rewrite (c_dec_enc a), Hfg.
  - rewrite Hgf. by apply c_dec_wf.
  - rewrite Hgf. by apply c_enc_dec.
Qed.

Create HintDb codec.
#[export] Hint Resolve le_ok raw_ok cpair_ok array_ok : codec.

(** ** The interface to decoding and encoding *)

Class Wire (T : Type) := {
  wire : codec T;
  wire_ok : codec_ok wire;
}.

(** [core::mem::size_of::<T>()] *)
Definition size_of (T : Type) `{Wire T} : Z := Z.of_nat (c_size (wire (T := T))).

(** [IntoBytes::as_bytes] *)
Definition as_bytes {T} `{Wire T} (x : T) : list Z := c_encode wire x.

#[global] Arguments as_bytes : simpl never.
#[global] Arguments size_of : simpl never.

(** [FromBytes::read_from_bytes]: exactly [size_of T] bytes. *)
Definition read_from_bytes (T : Type) `{Wire T} (bs : list Z) : option T :=
  if decide (length bs = c_size (wire (T := T))) then Some (c_decode wire bs) else None.

(** Every field of the value is in range. *)
Definition wire_wf {T} `{Wire T} (x : T) : Prop := c_wf wire x.

Lemma zlen_as_bytes {T} `{Wire T} (x : T) : wire_wf x -> zlen (as_bytes x) = size_of T.
Proof. intros. unfold zlen, as_bytes, size_of. by rewrite (c_length wire wire_ok). Qed.

Lemma as_bytes_is_bytes {T} `{Wire T} (x : T) : wire_wf x -> is_bytes (as_bytes x).
Proof. apply (c_bytes wire wire_ok). Qed.

Lemma read_as_bytes {T} `{Wire T} (x : T) :
  wire_wf x -> read_from_bytes T (as_bytes x) = Some x.
Proof.
  intros. unfold read_from_bytes, as_bytes.
  rewrite decide_True by by apply (c_length wire wire_ok).
  by rewrite (c_dec_enc wire wire_ok).
Qed.

Lemma read_from_bytes_Some {T} `{Wire T} bs (x : T) :
  is_bytes bs -> read_from_bytes T bs = Some x ->
  wire_wf x /\ bs = as_bytes x /\ zlen bs = size_of T.
Proof.
  intros Hbs. unfold read_from_bytes. case_decide; intros; simplify_eq. split_and!.
  - by apply (c_dec_wf wire wire_ok).
  - symmetry. by apply (c_enc_dec wire wire_ok).
  - unfold zlen, size_of. lia.
Qed.

Lemma read_from_bytes_is_Some {T} `{Wire T} bs :
  zlen bs = size_of T -> exists x, read_from_bytes T bs = Some x.
Proof.
  unfold zlen, size_of, read_from_bytes. intros. rewrite decide_True by lia. by eexists.
Qed.

Lemma size_of_nonneg {T} `{Wire T} : 0 <= size_of T.
Proof. unfold size_of. lia. Qed.

#[export] Hint Resolve as_bytes_is_bytes zlen_as_bytes size_of_nonneg : va.

(** Solves [Wire] instances built with [cmap] over a tuple layout. *)
Ltac solve_wire := apply cmap_ok; [ by intuition | by intros [] | eauto 30 with codec ].
