(* ===== verification/Proto.v ===== *)
(** * Wire structures of protocol 1.0 ([crates/virtio-accel-proto/src/lib.rs])

    Constants, opcodes, status codes and the fixed little-endian structures,
    with their byte layouts ([Wire] instances), [WireConfig::validate] and the
    two byte helpers [read_exact] and [checked_array_bytes]. *)

From Stdlib Require Import ZArith Lia.
From stdpp Require Import prelude list.
From S2P Require Import Prelude Codec.

(** ** Constants *)

Definition PROTOCOL_MAJOR : Z := 1.
Definition PROTOCOL_MINOR : Z := 0.
Definition COMMAND_QUEUE : Z := 0.
Definition BASELINE_COMMAND_QUEUES : Z := 1.
Definition HARD_MAX_CHAIN_DESCRIPTORS : Z := 256.
Definition HARD_MAX_REQUEST_BYTES : Z := 16 * 1024 * 1024.
Definition HARD_MAX_RESPONSE_BYTES : Z := 16 * 1024 * 1024.
Definition HARD_MAX_BINDINGS : Z := 4096.
Definition MIN_MAX_REQUEST_BYTES : Z := 97.
Definition MIN_MAX_RESPONSE_BYTES : Z := 92.
Definition KNOWN_BUFFER_USAGE_BITS : Z := 0x1f.
Definition KNOWN_REQUEST_FLAG_BITS : Z := 0.

(** [FeatureBits] and the two derived sets. *)
Definition MULTI_QUEUE : Z := Z.shiftl 1 0.
Definition EVENT_QUEUE : Z := Z.shiftl 1 1.
Definition FEATURE_EXTERNAL_MEMORY : Z := Z.shiftl 1 2.
Definition TIMELINE_FENCES : Z := Z.shiftl 1 3.
Definition FEATURE_SECURE_CONTEXTS : Z := Z.shiftl 1 4.
Definition BASELINE_FEATURES : Z := 0.
Definition RESERVED_FEATURES : Z :=
  Z.lor (Z.lor (Z.lor (Z.lor MULTI_QUEUE EVENT_QUEUE) FEATURE_EXTERNAL_MEMORY)
    TIMELINE_FENCES) FEATURE_SECURE_CONTEXTS.

(** ** Opcodes *)

Inductive KnownOpcode :=
  | OpGetDeviceInfo
  | OpCreateContext
  | OpDestroyContext
  | OpAllocateBuffer
  | OpFreeBuffer
  | OpWriteBuffer
  | OpReadBuffer
  | OpLoadProgram
  | OpUnloadProgram
  | OpCreateQueue
  | OpDestroyQueue
  | OpSubmit
  | OpPollEvent
  | OpCancelEvent
  | OpDestroyEvent.

#[global] Instance KnownOpcode_eq_dec : EqDecision KnownOpcode.
Proof. solve_decision. Defined.

(** [opcode as u16] *)
Definition opcode_as_u16 (op : KnownOpcode) : Z :=
  match op with
  | OpGetDeviceInfo => 0x0001
  | OpCreateContext => 0x0100
  | OpDestroyContext => 0x0101
  | OpAllocateBuffer => 0x0200
  | OpFreeBuffer => 0x0201
  | OpWriteBuffer => 0x0202
  | OpReadBuffer => 0x0203
  | OpLoadProgram => 0x0300
  | OpUnloadProgram => 0x0301
  | OpCreateQueue => 0x0400
  | OpDestroyQueue => 0x0401
  | OpSubmit => 0x0500
  | OpPollEvent => 0x0501
  | OpCancelEvent => 0x0502
  | OpDestroyEvent => 0x0503
  end.

Inductive UnknownOpcode := MkUnknownOpcode (value : Z).

(** [impl TryFrom<u16> for KnownOpcode] *)
Definition KnownOpcode_try_from (value : Z) : result KnownOpcode UnknownOpcode :=
  if value =? 0x0001 then Ok OpGetDeviceInfo
  else if value =? 0x0100 then Ok OpCreateContext
  else if value =? 0x0101 then Ok OpDestroyContext
  else if value =? 0x0200 then Ok OpAllocateBuffer
  else if value =? 0x0201 then Ok OpFreeBuffer
  else if value =? 0x0202 then Ok OpWriteBuffer
  else if value =? 0x0203 then Ok OpReadBuffer
  else if value =? 0x0300 then Ok OpLoadProgram
  else if value =? 0x0301 then Ok OpUnloadProgram
  else if value =? 0x0400 then Ok OpCreateQueue
  else if value =? 0x0401 then Ok OpDestroyQueue
  else if value =? 0x0500 then Ok OpSubmit
  else if value =? 0x0501 then Ok OpPollEvent
  else if value =? 0x0502 then Ok OpCancelEvent
  else if value =? 0x0503 then Ok OpDestroyEvent
  else Err (MkUnknownOpcode value).

(** ** Status codes: a transparent wrapper over [u16] *)

Definition StatusCode : Type := Z.
Definition STATUS_OK : StatusCode := 0.
Definition STATUS_UNSUPPORTED : StatusCode := 1.
Definition STATUS_INCOMPATIBLE : StatusCode := 2.
Definition STATUS_INVALID_ARGUMENT : StatusCode := 3.
Definition STATUS_OUT_OF_BOUNDS : StatusCode := 4.
Definition STATUS_BUSY : StatusCode := 5.
Definition STATUS_OUT_OF_MEMORY : StatusCode := 6.
Definition STATUS_RESOURCE_LIMIT : StatusCode := 7.
Definition STATUS_DEADLINE_EXPIRED : StatusCode := 8.
Definition STATUS_DEVICE_LOST : StatusCode := 9.
Definition STATUS_PERMISSION_DENIED : StatusCode := 10.
Definition STATUS_STALE_OBJECT : StatusCode := 11.
Definition STATUS_INTERNAL_ERROR : StatusCode := 0xffff.

Definition StatusCode_is_known (s : StatusCode) : bool := in_range 0 11 s || (s =? 0xffff).
Definition StatusCode_is_success (s : StatusCode) : bool := s =? STATUS_OK.

Inductive KnownEventState := EvPending | EvComplete | EvFailed | EvCancelled.

Definition event_state_as_u16 (s : KnownEventState) : Z :=
  match s with EvPending => 0 | EvComplete => 1 | EvFailed => 2 | EvCancelled => 3 end.

Inductive UnknownEventState := MkUnknownEventState (value : Z).

(** [impl TryFrom<u16> for KnownEventState] *)
Definition KnownEventState_try_from (value : Z) : result KnownEventState UnknownEventState :=
  if value =? 0 then Ok EvPending
  else if value =? 1 then Ok EvComplete
  else if value =? 2 then Ok EvFailed
  else if value =? 3 then Ok EvCancelled
  else Err (MkUnknownEventState value).

(** ** Wire structures *)

Record WireConfig := {
  wc_protocol_major : Z;
  wc_protocol_minor : Z;
  wc_command_queue_count : Z;
  wc_max_chain_descriptors : Z;
  wc_max_request_bytes : Z;
  wc_max_response_bytes : Z;
}.

#[global, refine] Instance WireConfig_wire : Wire WireConfig := {|
  wire := cmap
    (fun '(a, b, c, d, e, f) => Build_WireConfig a b c d e f)
    (fun r => (wc_protocol_major r, wc_protocol_minor r, wc_command_queue_count r,
       wc_max_chain_descriptors r, wc_max_request_bytes r, wc_max_response_bytes r))
    (le 2 ⊗ le 2 ⊗ le 2 ⊗ le 2 ⊗ le 4 ⊗ le 4) |}.
Proof. solve_wire. Defined.

Record RequestHeader := {
  rq_opcode : Z;
  rq_flags : Z;
  rq_payload_bytes : Z;
  rq_request_id : Z;
}.

#[global, refine] Instance RequestHeader_wire : Wire RequestHeader := {|
  wire := cmap
    (fun '(a, b, c, d) => Build_RequestHeader a b c d)
    (fun r => (rq_opcode r, rq_flags r, rq_payload_bytes r, rq_request_id r))
    (le 2 ⊗ le 2 ⊗ le 4 ⊗ le 8) |}.
Proof. solve_wire. Defined.

Record ResponseHeader := {
  rs_status : Z;
  rs_flags : Z;
  rs_payload_bytes : Z;
  rs_request_id : Z;
}.

#[global, refine] Instance ResponseHeader_wire : Wire ResponseHeader := {|
  wire := cmap
    (fun '(a, b, c, d) => Build_ResponseHeader a b c d)
    (fun r => (rs_status r, rs_flags r, rs_payload_bytes r, rs_request_id r))
    (le 2 ⊗ le 2 ⊗ le 4 ⊗ le 8) |}.
Proof. solve_wire. Defined.

Record WireDeviceInfo := {
  wd_uuid : list Z;
  wd_class : Z;
  wd_reserved : Z;
  wd_vendor_id : Z;
  wd_device_id : Z;
  wd_capabilities : Z;
  wd_max_contexts : Z;
  wd_max_buffers_per_context : Z;
  wd_max_programs_per_context : Z;
  wd_max_queues_per_context : Z;
  wd_max_events_per_context : Z;
  wd_max_bindings_per_submission : Z;
  wd_max_buffer_bytes : Z;
  wd_max_artifact_bytes : Z;
}.

#[global, refine] Instance WireDeviceInfo_wire : Wire WireDeviceInfo := {|
  wire := cmap
    (fun '(a, b, c, d, e, f, g, h, i, j, k, l, m, n) =>
       Build_WireDeviceInfo a b c d e f g h i j k l m n)
    (fun r => (wd_uuid r, wd_class r, wd_reserved r, wd_vendor_id r, wd_device_id r,
       wd_capabilities r, wd_max_contexts r, wd_max_buffers_per_context r,
       wd_max_programs_per_context r, wd_max_queues_per_context r,
       wd_max_events_per_context r, wd_max_bindings_per_submission r,
       wd_max_buffer_bytes r, wd_max_artifact_bytes r))
    (raw 16 ⊗ le 2 ⊗ le 2 ⊗ le 4 ⊗ le 4 ⊗ le 8 ⊗ le 4 ⊗ le 4 ⊗ le 4 ⊗ le 4 ⊗ le 4
       ⊗ le 4 ⊗ le 8 ⊗ le 8) |}.
Proof. solve_wire. Defined.

Record CreateContextRequest := {
  cc_flags : Z;
  cc_reserved : Z;
}.

#[global, refine] Instance CreateContextRequest_wire : Wire CreateContextRequest := {|
  wire := cmap
    (fun '(a, b) => Build_CreateContextRequest a b)
    (fun r => (cc_flags r, cc_reserved r))
    (le 4 ⊗ le 4) |}.
Proof. solve_wire. Defined.

Record ObjectPayload := {
  op_object_id : Z;
}.

#[global, refine] Instance ObjectPayload_wire : Wire ObjectPayload := {|
  wire := cmap (fun a => Build_ObjectPayload a) op_object_id (le 8) |}.
Proof. solve_wire. Defined.

Record AllocateBufferRequest := {
  ab_context_id : Z;
  ab_bytes : Z;
  ab_alignment : Z;
  ab_memory_domain : Z;
  ab_reserved0 : list Z;
  ab_usage : Z;
  ab_reserved1 : Z;
}.

#[global, refine] Instance AllocateBufferRequest_wire : Wire AllocateBufferRequest := {|
  wire := cmap
    (fun '(a, b, c, d, e, f, g) => Build_AllocateBufferRequest a b c d e f g)
    (fun r => (ab_context_id r, ab_bytes r, ab_alignment r, ab_memory_domain r,
       ab_reserved0 r, ab_usage r, ab_reserved1 r))
    (le 8 ⊗ le 8 ⊗ le 8 ⊗ le 1 ⊗ raw 7 ⊗ le 4 ⊗ le 4) |}.
Proof. solve_wire. Defined.

Record TransferBufferRequest := {
  tb_buffer_id : Z;
  tb_offset : Z;
  tb_bytes : Z;
}.

#[global, refine] Instance TransferBufferRequest_wire : Wire TransferBufferRequest := {|
  wire := cmap
    (fun '(a, b, c) => Build_TransferBufferRequest a b c)
    (fun r => (tb_buffer_id r, tb_offset r, tb_bytes r))
    (le 8 ⊗ le 8 ⊗ le 8) |}.
Proof. solve_wire. Defined.

Record LoadProgramRequest := {
  lp_context_id : Z;
  lp_format : Z;
  lp_flags : Z;
  lp_target : list Z;
  lp_payload_bytes : Z;
  lp_resident_bytes : Z;
}.

#[global, refine] Instance LoadProgramRequest_wire : Wire LoadProgramRequest := {|
  wire := cmap
    (fun '(a, b, c, d, e, f) => Build_LoadProgramRequest a b c d e f)
    (fun r => (lp_context_id r, lp_format r, lp_flags r, lp_target r,
       lp_payload_bytes r, lp_resident_bytes r))
    (le 8 ⊗ le 4 ⊗ le 4 ⊗ array 12 (le 4) ⊗ le 8 ⊗ le 8) |}.
Proof. solve_wire. Defined.

Record CreateQueueRequest := {
  cq_context_id : Z;
  cq_flags : Z;
  cq_reserved : Z;
}.

#[global, refine] Instance CreateQueueRequest_wire : Wire CreateQueueRequest := {|
  wire := cmap
    (fun '(a, b, c) => Build_CreateQueueRequest a b c)
    (fun r => (cq_context_id r, cq_flags r, cq_reserved r))
    (le 8 ⊗ le 4 ⊗ le 4) |}.
Proof. solve_wire. Defined.

Record SubmitRequest := {
  sr_queue_id : Z;
  sr_program_id : Z;
  sr_binding_count : Z;
  sr_flags : Z;
  sr_timeout_ns : Z;
}.

#[global, refine] Instance SubmitRequest_wire : Wire SubmitRequest := {|
  wire := cmap
    (fun '(a, b, c, d, e) => Build_SubmitRequest a b c d e)
    (fun r => (sr_queue_id r, sr_program_id r, sr_binding_count r, sr_flags r, sr_timeout_ns r))
    (le 8 ⊗ le 8 ⊗ le 4 ⊗ le 4 ⊗ le 8) |}.
Proof. solve_wire. Defined.

Record WireBinding := {
  wb_buffer_id : Z;
  wb_offset : Z;
  wb_bytes : Z;
  wb_slot : Z;
  wb_access : Z;
  wb_reserved : list Z;
}.

#[global, refine] Instance WireBinding_wire : Wire WireBinding := {|
  wire := cmap
    (fun '(a, b, c, d, e, f) => Build_WireBinding a b c d e f)
    (fun r => (wb_buffer_id r, wb_offset r, wb_bytes r, wb_slot r, wb_access r, wb_reserved r))
    (le 8 ⊗ le 8 ⊗ le 8 ⊗ le 4 ⊗ le 1 ⊗ raw 3) |}.
Proof. solve_wire. Defined.

Record SubmitResponse := {
  sp_event_id : Z;
}.

#[global, refine] Instance SubmitResponse_wire : Wire SubmitResponse := {|
  wire := cmap (fun a => Build_SubmitResponse a) sp_event_id (le 8) |}.
Proof. solve_wire. Defined.

Record WireEventState := {
  we_state : Z;
  we_error : Z;
  we_reserved : Z;
}.

#[global, refine] Instance WireEventState_wire : Wire WireEventState := {|
  wire := cmap
    (fun '(a, b, c) => Build_WireEventState a b c)
    (fun r => (we_state r, we_error r, we_reserved r))
    (le 2 ⊗ le 2 ⊗ le 4) |}.
Proof. solve_wire. Defined.

(** ** Operations *)

Inductive ConfigError :=
  | CfgVersion
  | CfgCommandQueueCount
  | CfgChainDescriptorLimit
  | CfgRequestByteLimit
  | CfgResponseByteLimit.

Definition WireConfig_validate (self : WireConfig) : result unit ConfigError :=
  if negb (wc_protocol_major self =? PROTOCOL_MAJOR) then Err CfgVersion
  else if negb (wc_command_queue_count self =? BASELINE_COMMAND_QUEUES) then
    Err CfgCommandQueueCount
  else if negb (in_range 2 HARD_MAX_CHAIN_DESCRIPTORS (wc_max_chain_descriptors self)) then
    Err CfgChainDescriptorLimit
  else if negb (in_range MIN_MAX_REQUEST_BYTES HARD_MAX_REQUEST_BYTES
                  (wc_max_request_bytes self)) then Err CfgRequestByteLimit
  else if negb (in_range MIN_MAX_RESPONSE_BYTES HARD_MAX_RESPONSE_BYTES
                  (wc_max_response_bytes self)) then Err CfgResponseByteLimit
  else Ok tt.

(** [RequestFlags] has no bits, so a value of it is [0]. *)
Definition RequestHeader_new (opcode : KnownOpcode) (flags payload_bytes request_id : Z) :
    RequestHeader := {|
  rq_opcode := opcode_as_u16 opcode;
  rq_flags := flags;
  rq_payload_bytes := payload_bytes;
  rq_request_id := request_id;
|}.

Definition RequestHeader_known_opcode (self : RequestHeader) : result KnownOpcode UnknownOpcode :=
  KnownOpcode_try_from (rq_opcode self).

Definition ResponseHeader_new (status : StatusCode) (payload_bytes request_id : Z) :
    ResponseHeader := {|
  rs_status := status;
  rs_flags := 0;
  rs_payload_bytes := payload_bytes;
  rs_request_id := request_id;
|}.

Definition WireEventState_known_state (self : WireEventState) :
    result KnownEventState UnknownEventState :=
  KnownEventState_try_from (we_state self).

Inductive DecodeError := DecodeSize | DecodeCountOverflow.

Definition read_exact (T : Type) `{Wire T} (bs : list Z) : result T DecodeError :=
  ok_or (read_from_bytes T bs) DecodeSize.

Definition checked_array_bytes (T : Type) `{Wire T} (count : Z) : result Z DecodeError :=
  ok_or (checked_mul USIZE_MAX (size_of T) count) DecodeCountOverflow.

(** ** Lemmas *)

Lemma opcode_roundtrip op : KnownOpcode_try_from (opcode_as_u16 op) = Ok op.
Proof. by destruct op. Qed.

Lemma KnownOpcode_try_from_Ok v op : KnownOpcode_try_from v = Ok op -> v = opcode_as_u16 op.
Proof. unfold KnownOpcode_try_from. intros. repeat case_match; bool_to_prop; by simplify_eq. Qed.

Lemma opcode_is_u16 op : is_u16 (opcode_as_u16 op).
Proof. destruct op; simpl; lia. Qed.

Lemma read_exact_as_bytes {T} `{Wire T} (x : T) :
  wire_wf x -> read_exact T (as_bytes x) = Ok x.
Proof. intros. unfold read_exact. by rewrite read_as_bytes. Qed.

Lemma read_exact_Ok {T} `{Wire T} bs (x : T) :
  is_bytes bs -> read_exact T bs = Ok x ->
  wire_wf x /\ bs = as_bytes x /\ zlen bs = size_of T.
Proof.
  unfold read_exact, ok_or. intros. case_match; simplify_eq. by apply read_from_bytes_Some.
Qed.

(** Byte size of every wire structure. *)
Lemma sizes :
  (size_of WireConfig = 16 /\ size_of RequestHeader = 16 /\ size_of ResponseHeader = 16 /\
   size_of WireDeviceInfo = 76 /\ size_of CreateContextRequest = 8) /\
  (size_of ObjectPayload = 8 /\ size_of AllocateBufferRequest = 40 /\
   size_of TransferBufferRequest = 24 /\ size_of LoadProgramRequest = 80 /\
   size_of CreateQueueRequest = 16) /\
  (size_of SubmitRequest = 32 /\ size_of WireBinding = 32 /\ size_of SubmitResponse = 8 /\
   size_of WireEventState = 8).
Proof. repeat split; reflexivity. Qed.

Lemma WireConfig_validate_Ok c :
  WireConfig_validate c = Ok tt <->
  wc_protocol_major c = 1 /\ wc_command_queue_count c = 1 /\
  2 <= wc_max_chain_descriptors c <= 256 /\
  97 <= wc_max_request_bytes c <= 16777216 /\
  92 <= wc_max_response_bytes c <= 16777216.
Proof.
  unfold WireConfig_validate, in_range. split.
  - intros. repeat case_match; bool_to_prop; simplify_eq;
      unfold PROTOCOL_MAJOR, BASELINE_COMMAND_QUEUES, HARD_MAX_CHAIN_DESCRIPTORS,
        MIN_MAX_REQUEST_BYTES, HARD_MAX_REQUEST_BYTES, MIN_MAX_RESPONSE_BYTES,
        HARD_MAX_RESPONSE_BYTES in *; lia.
  - intros (-> & -> & ? & ? & ?). simpl.
    unfold HARD_MAX_CHAIN_DESCRIPTORS, MIN_MAX_REQUEST_BYTES, HARD_MAX_REQUEST_BYTES,
      MIN_MAX_RESPONSE_BYTES, HARD_MAX_RESPONSE_BYTES.
    repeat (case_match; bool_to_prop; try done);
      match goal with H : (_ && _)%bool = false |- _ =>
        apply andb_false_iff in H as [H|H]; bool_to_prop; lia end.
Qed.

(** Wire structures are canonical.  Decoding accepts exactly the encodings
    of well-formed values: [read_exact] inverts [as_bytes], every byte string
    it accepts is the unique encoding of its result, and it rejects nothing
    but a wrong length. *)
Theorem wire_canonical {T} `{Wire T} bs :
  is_bytes bs ->
  (forall x : T, read_exact T bs = Ok x <-> wire_wf x /\ bs = as_bytes x) /\
  (read_exact T bs = Err DecodeSize <-> zlen bs <> size_of T).
Proof.
  intros Hbs. split.
  - intros x. split; [|intros [Hwf ->]; by apply read_exact_as_bytes].
    intros Hr. apply read_exact_Ok in Hr as (? & ? & _); done.
  - unfold read_exact, ok_or. split.
    + intros He Hl. destruct (read_from_bytes_is_Some (T := T) bs Hl) as [x Hx]. by rewrite Hx in He.
    + intros Hl. destruct (read_from_bytes T bs) eqn:Hr; [|done].
      by apply read_from_bytes_Some in Hr as (_ & _ & ?).
Qed.

Lemma wire_canonical_witness :
  read_exact RequestHeader (as_bytes (RequestHeader_new OpSubmit 0 48 7)) =
    Ok (RequestHeader_new OpSubmit 0 48 7) /\
  read_exact RequestHeader [1; 2; 3] = Err DecodeSize.
Proof.
  assert (Hwf : wire_wf (RequestHeader_new OpSubmit 0 48 7)) by (vm_compute; intuition discriminate).
  assert (Hb : is_bytes [1; 2; 3]) by (repeat constructor; discriminate).
  split.
  - apply (wire_canonical (as_bytes (RequestHeader_new OpSubmit 0 48 7)) (as_bytes_is_bytes _ Hwf)). split; [exact Hwf|reflexivity].
  - apply (wire_canonical [1; 2; 3] Hb). vm_compute. discriminate.
Defined.

(** The configuration check enforces the protocol's bounds.  It accepts
    exactly version 1 with one command queue, 2 to 256 descriptors, and
    request and response limits between the smallest frame that must fit and
    16 MiB, and otherwise names the first bound that is broken. *)
Theorem config_bounds c :
  (WireConfig_validate c = Ok tt <->
     wc_protocol_major c = 1 /\ wc_command_queue_count c = 1 /\ 2 <= wc_max_chain_descriptors c <= 256 /\
     size_of RequestHeader + size_of LoadProgramRequest + 1 <= wc_max_request_bytes c <= 16 * 1024 * 1024 /\
     size_of ResponseHeader + size_of WireDeviceInfo <= wc_max_response_bytes c <= 16 * 1024 * 1024) /\
  (WireConfig_validate c = Err CfgVersion <-> wc_protocol_major c <> 1) /\
  (WireConfig_validate c = Err CfgResponseByteLimit ->
     wc_protocol_major c = 1 /\ wc_command_queue_count c = 1 /\ 2 <= wc_max_chain_descriptors c <= 256 /\
     97 <= wc_max_request_bytes c <= 16777216).
Proof.
  split; [exact (WireConfig_validate_Ok c)|]. unfold WireConfig_validate, in_range. split.
  - destruct (Z.eqb_spec (wc_protocol_major c) PROTOCOL_MAJOR) as [->|Hm]; simpl; [|done].
    split; [|done]. intros. by repeat case_match.
  - intros He. repeat case_match; bool_to_prop; simplify_eq. unfold PROTOCOL_MAJOR, BASELINE_COMMAND_QUEUES,
      HARD_MAX_CHAIN_DESCRIPTORS, MIN_MAX_REQUEST_BYTES, HARD_MAX_REQUEST_BYTES in *. lia.
Qed.
