(* ===== verification/Transport.v ===== *)
(** * Transport ports ([crates/virtio-accel-transport/src])

    [regions.rs]: flattened descriptor metadata and [validate_chain_layout];
    [bytes.rs]: the byte-port traits and their slice implementations;
    [queue.rs]: the value types of the queue ports (sizes, epochs, chain
    identities, lifecycle snapshots). *)

From Stdlib Require Import ZArith Lia.
From stdpp Require Import prelude list.
From S2P Require Import Prelude.

(** ** [regions.rs] *)

Inductive RegionDirection := DeviceReadable | DeviceWritable.

#[global] Instance RegionDirection_eq_dec : EqDecision RegionDirection.
Proof. solve_decision. Defined.

Record ChainRegion := {
  cr_direction : RegionDirection;
  cr_bytes : Z;
}.

Definition ChainRegion_readable (bytes : Z) : ChainRegion :=
  {| cr_direction := DeviceReadable; cr_bytes := bytes |}.
Definition ChainRegion_writable (bytes : Z) : ChainRegion :=
  {| cr_direction := DeviceWritable; cr_bytes := bytes |}.

Inductive ChainLayoutError :=
  | LayoutDescriptorCount
  | LayoutZeroLength
  | LayoutDirection
  | LayoutLengthOverflow
  | LayoutPortLengthMismatch.

Record ChainLayout := {
  cl_descriptor_count : Z;
  cl_readable_descriptors : Z;
  cl_writable_descriptors : Z;
  cl_readable_bytes : Z;
  cl_writable_bytes : Z;
}.

Definition ChainLayout_validate_port_lengths (self : ChainLayout)
    (request_bytes response_bytes : Z) : result unit ChainLayoutError :=
  if negb (request_bytes =? cl_readable_bytes self)
     || negb (response_bytes =? cl_writable_bytes self)
  then Err LayoutPortLengthMismatch
  else Ok tt.

(** The locals of the [for] loop of [validate_chain_layout]. *)
Record LayoutAcc := {
  la_readable_descriptors : Z;
  la_writable_descriptors : Z;
  la_readable_bytes : Z;
  la_writable_bytes : Z;
  la_saw_writable : bool;
}.

(** One iteration of the loop. *)
Definition layout_step (acc : LayoutAcc) (region : ChainRegion) :
    result LayoutAcc ChainLayoutError :=
  if cr_bytes region =? 0 then Err LayoutZeroLength
  else match cr_direction region with
  | DeviceReadable =>
      if la_saw_writable acc then Err LayoutDirection
      else
        let? total := ok_or (checked_add U64_MAX (la_readable_bytes acc) (cr_bytes region))
                        LayoutLengthOverflow in
        Ok {| la_readable_descriptors := la_readable_descriptors acc + 1;
              la_writable_descriptors := la_writable_descriptors acc;
              la_readable_bytes := total;
              la_writable_bytes := la_writable_bytes acc;
              la_saw_writable := la_saw_writable acc |}
  | DeviceWritable =>
      let? total := ok_or (checked_add U64_MAX (la_writable_bytes acc) (cr_bytes region))
                      LayoutLengthOverflow in
      Ok {| la_readable_descriptors := la_readable_descriptors acc;
            la_writable_descriptors := la_writable_descriptors acc + 1;
            la_readable_bytes := la_readable_bytes acc;
            la_writable_bytes := total;
            la_saw_writable := true |}
  end.

Fixpoint layout_loop (acc : LayoutAcc) (regions : list ChainRegion) :
    result LayoutAcc ChainLayoutError :=
  match regions with
  | [] => Ok acc
  | region :: rest => let? acc := layout_step acc region in layout_loop acc rest
  end.

Definition validate_chain_layout (regions : list ChainRegion) (max_descriptors : Z) :
    result ChainLayout ChainLayoutError :=
  if (zlen regions <? 2) || (max_descriptors <? zlen regions) then Err LayoutDescriptorCount
  else
    let? acc := layout_loop {| la_readable_descriptors := 0; la_writable_descriptors := 0;
                               la_readable_bytes := 0; la_writable_bytes := 0;
                               la_saw_writable := false |} regions in
    if (la_readable_descriptors acc =? 0) || (la_writable_descriptors acc =? 0)
    then Err LayoutDirection
    else Ok {| cl_descriptor_count := zlen regions;
               cl_readable_descriptors := la_readable_descriptors acc;
               cl_writable_descriptors := la_writable_descriptors acc;
               cl_readable_bytes := la_readable_bytes acc;
               cl_writable_bytes := la_writable_bytes acc |}.

(** ** [bytes.rs] *)

Inductive ByteAccessError := AccessOutOfBounds | AccessBusy | AccessReset | AccessFailed.

(** A [&dyn ReadableBytes]: reading does not change the port. *)
Record ReadableBytes := {
  rb_len : Z;
  rb_read_at : Z -> Z -> result (list Z) ByteAccessError;
  rb_as_contiguous : option (list Z);
}.

(** A [WritableBytes] implementation over a state [S]. *)
Class WritableBytes (S : Type) := {
  wb_len : S -> Z;
  wb_write_at : Z -> list Z -> S -> S * result unit ByteAccessError;
}.

(** [impl ReadableBytes for [u8]]; [n] is [target.len()]. *)
Definition slice_readable (self : list Z) : ReadableBytes := {|
  rb_len := zlen self;
  rb_read_at := fun offset n =>
    let? start := ok_or (try_from USIZE_MAX offset) AccessOutOfBounds in
    let? stop := ok_or (checked_add USIZE_MAX start n) AccessOutOfBounds in
    if stop <=? zlen self then Ok (slice start n self) else Err AccessOutOfBounds;
  rb_as_contiguous := Some self;
|}.

(** [impl WritableBytes for [u8]] *)
Definition slice_write_at (offset : Z) (source : list Z) (self : list Z) :
    list Z * result unit ByteAccessError :=
  match try_from USIZE_MAX offset with
  | None => (self, Err AccessOutOfBounds)
  | Some start =>
      match checked_add USIZE_MAX start (zlen source) with
      | None => (self, Err AccessOutOfBounds)
      | Some stop =>
          if stop <=? zlen self then (splice start source self, Ok tt)
          else (self, Err AccessOutOfBounds)
      end
  end.

#[global] Instance slice_writable : WritableBytes (list Z) := {|
  wb_len := fun self => zlen self;
  wb_write_at := slice_write_at;
|}.

(** ** [queue.rs]: value types *)

Definition MAX_SPLIT_QUEUE_SIZE : Z := 32768.

(** [QueueSize::new]: a power of two up to the split-ring maximum. *)
Definition QueueSize_new (value : Z) : option Z :=
  if is_power_of_two value && (value <=? MAX_SPLIT_QUEUE_SIZE) then nonzero value else None.

Definition QueueEpoch_INITIAL : Z := 1.
Definition QueueEpoch_new (value : Z) : option Z := nonzero value.

Definition QueueEpoch_checked_next (self : Z) : option Z :=
  match checked_add U64_MAX self 1 with
  | Some value => QueueEpoch_new value
  | None => None
  end.

Record ChainId := {
  ci_epoch : Z;
  ci_token : Z;
}.

#[global] Instance ChainId_eq_dec : EqDecision ChainId.
Proof. solve_decision. Defined.

Inductive QueueConfigError := SizeExceedsMaximum | ReadyWithoutSize | NonIncreasingEpoch.

Record QueueState := {
  qs_max_size : Z;
  qs_size : option Z;
  qs_ready : bool;
  qs_epoch : Z;
}.

Definition QueueState_unconfigured (max_size epoch : Z) : QueueState :=
  {| qs_max_size := max_size; qs_size := None; qs_ready := false; qs_epoch := epoch |}.

Definition QueueState_new (max_size : Z) (size : option Z) (ready : bool) (epoch : Z) :
    result QueueState QueueConfigError :=
  match size with
  | Some s =>
      if max_size <? s then Err SizeExceedsMaximum
      else Ok {| qs_max_size := max_size; qs_size := size; qs_ready := ready; qs_epoch := epoch |}
  | None =>
      if ready then Err ReadyWithoutSize
      else Ok {| qs_max_size := max_size; qs_size := None; qs_ready := ready; qs_epoch := epoch |}
  end.

Inductive QueueError (E : Type) :=
  | QueueNotReady
  | QueueInvalidConfiguration (error : QueueConfigError)
  | QueueResetRace (operation current : Z)
  | QueueUsedLengthExceeded (used capacity : Z)
  | QueueTransport (error : E).
Arguments QueueNotReady {E}.
Arguments QueueInvalidConfiguration {E} _.
Arguments QueueResetRace {E} _ _.
Arguments QueueUsedLengthExceeded {E} _ _.
Arguments QueueTransport {E} _.

Inductive MalformedChain :=
  | DescriptorLoop
  | DescriptorIndex
  | DescriptorFlags
  | DescriptorCount
  | ZeroLength
  | Direction
  | LengthOverflow
  | PortLengthMismatch
  | IndirectUnsupported
  | IndirectMalformed
  | Address.

(** [impl From<ChainLayoutError> for MalformedChain] *)
Definition MalformedChain_from (error : ChainLayoutError) : MalformedChain :=
  match error with
  | LayoutDescriptorCount => DescriptorCount
  | LayoutZeroLength => ZeroLength
  | LayoutDirection => Direction
  | LayoutLengthOverflow => LengthOverflow
  | LayoutPortLengthMismatch => PortLengthMismatch
  end.

Inductive ChainError (E : Type) :=
  | ChainMalformed (error : MalformedChain)
  | ChainResetRace (chain current : Z)
  | ChainTransport (error : E).
Arguments ChainMalformed {E} _.
Arguments ChainResetRace {E} _ _.
Arguments ChainTransport {E} _.

Inductive NotificationHint := Suppressed | Notify.
Inductive NotificationRecheck := Idle | WorkPending.

Record PublishedChain := {
  pc_id : ChainId;
  pc_notification : NotificationHint;
}.

Inductive PublishErrorKind (E : Type) :=
  | PublishNotReady
  | PublishQueueFull
  | PublishInsufficientDescriptors
  | PublishResetRace (operation current : Z)
  | PublishTransport (error : E).
Arguments PublishNotReady {E}.
Arguments PublishQueueFull {E}.
Arguments PublishInsufficientDescriptors {E}.
Arguments PublishResetRace {E} _ _.
Arguments PublishTransport {E} _.

Record PublishError (C E : Type) := {
  pe_chain : C;
  pe_kind : PublishErrorKind E;
}.
Arguments Build_PublishError {C E} _ _.
Arguments pe_chain {C E} _.
Arguments pe_kind {C E} _.

Record UsedChain (C : Type) := {
  uc_id : ChainId;
  uc_used : Z;
  uc_chain : C;
}.
Arguments Build_UsedChain {C} _ _ _.
Arguments uc_id {C} _.
Arguments uc_used {C} _.
Arguments uc_chain {C} _.

Record ReclaimedChain (C : Type) := {
  rc_id : ChainId;
  rc_chain : C;
}.
Arguments Build_ReclaimedChain {C} _ _.
Arguments rc_id {C} _.
Arguments rc_chain {C} _.

(** ** The layout that [validate_chain_layout] accepts *)

Definition region_is (d : RegionDirection) (r : ChainRegion) : bool :=
  match cr_direction r, d with
  | DeviceReadable, DeviceReadable | DeviceWritable, DeviceWritable => true
  | _, _ => false
  end.

(** Number and total length of the regions of one direction. *)
Definition dir_count (d : RegionDirection) (rs : list ChainRegion) : Z :=
  sum_by (fun r => if region_is d r then 1 else 0) rs.
Definition dir_bytes (d : RegionDirection) (rs : list ChainRegion) : Z :=
  sum_by (fun r => if region_is d r then cr_bytes r else 0) rs.

(** Readable regions before writable ones, at least one of each, none empty. *)
Definition chain_shape (rs : list ChainRegion) : Prop :=
  exists rd wr, rs = rd ++ wr /\ rd <> [] /\ wr <> [] /\
    Forall (fun r => cr_direction r = DeviceReadable) rd /\
    Forall (fun r => cr_direction r = DeviceWritable) wr /\
    Forall (fun r => cr_bytes r <> 0) rs.

Lemma dir_count_app d rs ss : dir_count d (rs ++ ss) = dir_count d rs + dir_count d ss.
Proof. apply sum_by_app. Qed.

Lemma dir_bytes_app d rs ss : dir_bytes d (rs ++ ss) = dir_bytes d rs + dir_bytes d ss.
Proof. apply sum_by_app. Qed.

Lemma dir_bytes_single d r : dir_bytes d [r] = if region_is d r then cr_bytes r else 0.
Proof. unfold dir_bytes, sum_by. simpl. lia. Qed.

Lemma dir_count_nonneg d rs : 0 <= dir_count d rs.
Proof. apply sum_by_nonneg. intros. case_match; lia. Qed.

Lemma layout_step_Ok acc r acc' :
  layout_step acc r = Ok acc' ->
  cr_bytes r <> 0 /\
  (cr_direction r = DeviceReadable -> la_saw_writable acc = false) /\
  la_saw_writable acc' = la_saw_writable acc || region_is DeviceWritable r /\
  la_readable_descriptors acc' = la_readable_descriptors acc + dir_count DeviceReadable [r] /\
  la_writable_descriptors acc' = la_writable_descriptors acc + dir_count DeviceWritable [r] /\
  la_readable_bytes acc' = la_readable_bytes acc + dir_bytes DeviceReadable [r] /\
  la_writable_bytes acc' = la_writable_bytes acc + dir_bytes DeviceWritable [r] /\
  (la_readable_bytes acc <= U64_MAX -> la_readable_bytes acc' <= U64_MAX) /\
  (la_writable_bytes acc <= U64_MAX -> la_writable_bytes acc' <= U64_MAX).
Proof.
  unfold layout_step, dir_count, dir_bytes, region_is, sum_by; simpl. intros H.
  case_match; [done|]. bool_to_prop.
  destruct (cr_direction r) eqn:Hd; rewrite ?Hd; simpl.
  - case_match; [done|].
    destruct (checked_add _ _ _) as [t|] eqn:E; simpl in H; simplify_eq; simpl.
    apply checked_add_Some in E as [-> ?]. split_and!; auto; lia.
  - destruct (checked_add _ _ _) as [t|] eqn:E; simpl in H; simplify_eq; simpl.
    apply checked_add_Some in E as [-> ?]. rewrite orb_true_r. split_and!; auto; try lia; done.
Qed.

(** The loop from an accumulator: what a successful run implies. *)
Lemma layout_loop_Ok acc rs acc' :
  layout_loop acc rs = Ok acc' ->
  la_readable_descriptors acc' = la_readable_descriptors acc + dir_count DeviceReadable rs /\
  la_writable_descriptors acc' = la_writable_descriptors acc + dir_count DeviceWritable rs /\
  la_readable_bytes acc' = la_readable_bytes acc + dir_bytes DeviceReadable rs /\
  la_writable_bytes acc' = la_writable_bytes acc + dir_bytes DeviceWritable rs /\
  (la_readable_bytes acc <= U64_MAX -> la_readable_bytes acc' <= U64_MAX) /\
  (la_writable_bytes acc <= U64_MAX -> la_writable_bytes acc' <= U64_MAX) /\
  Forall (fun r => cr_bytes r <> 0) rs /\
  exists rd wr, rs = rd ++ wr /\ (la_saw_writable acc = true -> rd = []) /\
    Forall (fun r => cr_direction r = DeviceReadable) rd /\
    Forall (fun r => cr_direction r = DeviceWritable) wr.
Proof.
  revert acc. induction rs as [|r rs IH]; intros acc H; simpl in H.
  - simplify_eq. unfold dir_count, dir_bytes, sum_by; simpl.
    split_and!; auto; try lia. exists [], []. by split_and!.
  - destruct (layout_step acc r) as [acc1|] eqn:E; [|done].
    apply layout_step_Ok in E as (Hnz & Hdir & Hsaw & E1 & E2 & E3 & E4 & E5 & E6).
    apply IH in H as (H1 & H2 & H3 & H4 & H5 & H6 & H7 & rd & wr & -> & Hrd & Hrds & Hwrs).
    change (r :: rd ++ wr) with ([r] ++ (rd ++ wr)).
    rewrite !(dir_count_app _ [r]), !(dir_bytes_app _ [r]).
    split_and!; try lia; auto.
    { by constructor. }
    destruct (cr_direction r) eqn:Hd.
    + exists (r :: rd), wr. split_and!; auto. intros. rewrite Hdir in *; done.
    + assert (rd = []) as -> by
        (apply Hrd; rewrite Hsaw; unfold region_is; rewrite Hd; by rewrite orb_true_r).
      exists [], (r :: wr). split_and!; auto.
Qed.

(** A chain of the right shape whose totals fit is accepted by the loop. *)
Lemma layout_loop_complete acc rd wr :
  (la_saw_writable acc = true -> rd = []) ->
  Forall (fun r => cr_direction r = DeviceReadable) rd ->
  Forall (fun r => cr_direction r = DeviceWritable) wr ->
  Forall (fun r => cr_bytes r <> 0) (rd ++ wr) ->
  Forall (fun r => 0 <= cr_bytes r) (rd ++ wr) ->
  la_readable_bytes acc + dir_bytes DeviceReadable (rd ++ wr) <= U64_MAX ->
  la_writable_bytes acc + dir_bytes DeviceWritable (rd ++ wr) <= U64_MAX ->
  exists acc', layout_loop acc (rd ++ wr) = Ok acc'.
Proof.
  assert (Hpos : forall d rs, Forall (fun r => 0 <= cr_bytes r) rs -> 0 <= dir_bytes d rs).
  { intros d rs. unfold dir_bytes, sum_by. induction 1; simpl; [lia|]. case_match; lia. }
  revert acc. remember (rd ++ wr) as rs eqn:Hrs. revert rd wr Hrs.
  induction rs as [|r rs IH]; intros rd wr Hrs acc Hsaw Hrd Hwr Hnz Hge Hb1 Hb2; [by eexists|].
  inversion Hnz; subst. inversion Hge; subst.
  change (r :: rs) with ([r] ++ rs) in Hb1, Hb2. rewrite dir_bytes_app in Hb1, Hb2.
  pose proof (Hpos DeviceReadable rs ltac:(done)). pose proof (Hpos DeviceWritable rs ltac:(done)).
  rewrite dir_bytes_single in Hb1, Hb2. unfold region_is in Hb1, Hb2.
  simpl. unfold layout_step. destruct (Z.eqb_spec (cr_bytes r) 0) as [|_]; [done|].
  destruct rd as [|r' rd]; simpl in Hrs.
  - subst wr. inversion Hwr as [|? ? Hd]; subst. rewrite Hd in *. simpl in *.
    unfold checked_add. rewrite (proj2 (Z.leb_le _ _)) by lia. simpl.
    apply (IH [] rs); simpl; auto; lia.
  - injection Hrs as -> ->. inversion Hrd as [|? ? Hd]; subst. rewrite Hd in *. simpl in *.
    destruct (la_saw_writable acc) eqn:Hs; [by discriminate (Hsaw eq_refl)|].
    unfold checked_add. rewrite (proj2 (Z.leb_le _ _)) by lia. simpl.
    apply (IH rd wr); simpl; auto; lia.
Qed.

Lemma dir_count_all d rs : Forall (fun r => cr_direction r = d) rs -> dir_count d rs = zlen rs.
Proof.
  induction 1 as [|r rs Hr _ IH]; [done|]. change (r :: rs) with ([r] ++ rs). rewrite dir_count_app, IH, zlen_app.
  unfold dir_count, sum_by, region_is. simpl. rewrite Hr. destruct d; unfold zlen; simpl; lia.
Qed.

Lemma dir_count_none d d' rs : d <> d' -> Forall (fun r => cr_direction r = d') rs -> dir_count d rs = 0.
Proof.
  intros Hd. induction 1 as [|r rs Hr _ IH]; [done|]. change (r :: rs) with ([r] ++ rs). rewrite dir_count_app, IH.
  unfold dir_count, sum_by, region_is. simpl. rewrite Hr. by destruct d, d'.
Qed.

Lemma dir_counts_split rd wr :
  Forall (fun r => cr_direction r = DeviceReadable) rd -> Forall (fun r => cr_direction r = DeviceWritable) wr ->
  dir_count DeviceReadable (rd ++ wr) = zlen rd /\ dir_count DeviceWritable (rd ++ wr) = zlen wr.
Proof.
  intros Hr Hw. rewrite !dir_count_app, (dir_count_all _ _ Hr), (dir_count_all _ _ Hw).
  rewrite (dir_count_none DeviceReadable DeviceWritable wr), (dir_count_none DeviceWritable DeviceReadable rd) by done. lia.
Qed.

(** Chain validation is exact.  A flattened chain is accepted if and only
    if it has at most the allowed descriptors, readable regions come before
    writable ones with at least one of each, no region is empty and neither
    total overflows 64 bits; the layout then reports exactly those totals. *)
Theorem chain_layout_exact regions max_descriptors layout :
  Forall (fun r => 0 <= cr_bytes r) regions ->
  validate_chain_layout regions max_descriptors = Ok layout <->
  chain_shape regions /\ zlen regions <= max_descriptors /\
  dir_bytes DeviceReadable regions <= U64_MAX /\ dir_bytes DeviceWritable regions <= U64_MAX /\
  layout = {| cl_descriptor_count := zlen regions;
              cl_readable_descriptors := dir_count DeviceReadable regions;
              cl_writable_descriptors := dir_count DeviceWritable regions;
              cl_readable_bytes := dir_bytes DeviceReadable regions;
              cl_writable_bytes := dir_bytes DeviceWritable regions |}.
Proof.
  intros Hge. unfold validate_chain_layout, chain_shape. set (acc0 := Build_LayoutAcc _ _ _ _ _). split.
  - destruct (_ || _) eqn:Hn; [done|]. bool_to_prop.
    destruct (layout_loop acc0 regions) as [acc|] eqn:Hl; [|done].
    apply layout_loop_Ok in Hl as (H1 & H2 & H3 & H4 & H5 & H6 & Hz & rd & wr & -> & _ & Hrd & Hwr).
    destruct (dir_counts_split rd wr Hrd Hwr) as [Cr Cw].
    simpl in H1, H2, H3, H4, H5, H6. destruct (_ || _) eqn:Hd; [done|]. bool_to_prop. intros [= <-].
    rewrite H1, H2, H3, H4 in *. split_and!; try done; [|by apply H5|by apply H6].
    exists rd, wr. split_and!; try done; intros ->; [rewrite Cr in *|rewrite Cw in *]; done.
  - intros ((rd & wr & -> & Hr & Hw & Hrd & Hwr & Hz) & Hm & Hb1 & Hb2 & ->).
    destruct (dir_counts_split rd wr Hrd Hwr) as [Cr Cw].
    assert (0 < zlen rd /\ 0 < zlen wr) by (destruct rd, wr; try done; unfold zlen; simpl; lia).
    rewrite zlen_app in *. rewrite (proj2 (Z.ltb_ge _ _)), (proj2 (Z.ltb_ge _ _)) by lia. simpl.
    destruct (layout_loop_complete acc0 rd wr) as [acc Hl]; try done. rewrite Hl.
    apply layout_loop_Ok in Hl as (H1 & H2 & H3 & H4 & _). simpl in H1, H2, H3, H4.
    rewrite H1, H2, H3, H4, Cr, Cw. by rewrite !(proj2 (Z.eqb_neq _ _)) by lia.
Qed.

Lemma chain_layout_exact_witness :
  Forall (fun r => 0 <= cr_bytes r) [ChainRegion_readable 16; ChainRegion_writable 24] /\
  chain_shape [ChainRegion_readable 16; ChainRegion_writable 24].
Proof.
  assert (Hge : Forall (fun r => 0 <= cr_bytes r) [ChainRegion_readable 16; ChainRegion_writable 24])
    by (repeat constructor; simpl; lia).
  split; [exact Hge|].
  apply (chain_layout_exact _ 4 {| cl_descriptor_count := 2; cl_readable_descriptors := 1;
    cl_writable_descriptors := 1; cl_readable_bytes := 16; cl_writable_bytes := 24 |} Hge). reflexivity.
Defined.
