(* ===== verification/Core.v ===== *)
(** * Accelerator semantics ([crates/virtio-accel-core/src/lib.rs])

    Transport-independent value types with their validating constructors,
    the byte ports [ByteSource] and [ByteSink] with their slice
    implementations and transport adapters, the binding checks, and the
    [Accelerator] trait as a class.  A backend is a parameter of the model:
    every later theorem holds for every instance of the class. *)

From Stdlib Require Import ZArith Lia Sorted.
From stdpp Require Import prelude list.
From S2P Require Import Prelude Transport.

(** ** Errors, classes, capabilities *)

Inductive BackendError :=
  | BeUnsupported
  | BeIncompatible
  | BeInvalidArgument
  | BeOutOfBounds
  | BeBusy
  | BeOutOfMemory
  | BeResourceLimit
  | BeDeadlineExpired
  | BeDeviceLost
  | BePermissionDenied
  | BeExternal (domain code : Z).

#[global] Instance BackendError_eq_dec : EqDecision BackendError.
Proof. solve_decision. Defined.

(** [AcceleratorClass] is a transparent [u16]. *)
Definition CLASS_OTHER : Z := 0.
Definition CLASS_NPU : Z := 1.
Definition CLASS_GPU : Z := 2.
Definition CLASS_DSP : Z := 3.

(** [Capabilities] *)
Definition HOST_VISIBLE_MEMORY : Z := Z.shiftl 1 0.
Definition DEVICE_LOCAL_MEMORY : Z := Z.shiftl 1 1.
Definition EVENT_CANCELLATION : Z := Z.shiftl 1 2.
Definition EXTERNAL_MEMORY : Z := Z.shiftl 1 3.
Definition SECURE_CONTEXTS : Z := Z.shiftl 1 4.
Definition SHARED_MEMORY : Z := Z.shiftl 1 5.
Definition MEMORY_DOMAINS : Z :=
  Z.lor (Z.lor HOST_VISIBLE_MEMORY DEVICE_LOCAL_MEMORY) SHARED_MEMORY.
Definition CAP_RESERVED : Z := Z.lor EXTERNAL_MEMORY SECURE_CONTEXTS.

Inductive MemoryDomain := DomainHost | DomainDevice | DomainShared.

#[global] Instance MemoryDomain_eq_dec : EqDecision MemoryDomain.
Proof. solve_decision. Defined.

(** [domain as u8] and [impl TryFrom<u8> for MemoryDomain] *)
Definition MemoryDomain_as_u8 (d : MemoryDomain) : Z :=
  match d with DomainHost => 1 | DomainDevice => 2 | DomainShared => 3 end.

Definition MemoryDomain_try_from (value : Z) : result MemoryDomain BackendError :=
  if value =? 1 then Ok DomainHost
  else if value =? 2 then Ok DomainDevice
  else if value =? 3 then Ok DomainShared
  else Err BeInvalidArgument.

Definition supports_memory_domain (self : Z) (domain : MemoryDomain) : bool :=
  match domain with
  | DomainHost => bits_contains self HOST_VISIBLE_MEMORY
  | DomainDevice => bits_contains self DEVICE_LOCAL_MEMORY
  | DomainShared => bits_contains self SHARED_MEMORY
  end.

Record DeviceIdentity := {
  di_uuid : list Z;
  di_class : Z;
  di_vendor_id : Z;
  di_device_id : Z;
}.

Record DeviceLimits := {
  max_contexts : Z;
  max_buffers_per_context : Z;
  max_programs_per_context : Z;
  max_queues_per_context : Z;
  max_events_per_context : Z;
  max_bindings_per_submission : Z;
  max_buffer_bytes : Z;
  max_artifact_bytes : Z;
}.

Record DeviceInfo := {
  info_identity : DeviceIdentity;
  info_capabilities : Z;
  info_limits : DeviceLimits;
}.

Inductive DeviceInfoError := InfoReservedCapabilities | InfoMissingMemoryDomain | InfoZeroLimit.

(** ** Buffers *)

(** [BufferUsage] *)
Definition TRANSFER_SOURCE : Z := Z.shiftl 1 0.
Definition TRANSFER_DESTINATION : Z := Z.shiftl 1 1.
Definition PROGRAM_INPUT : Z := Z.shiftl 1 2.
Definition PROGRAM_OUTPUT : Z := Z.shiftl 1 3.
Definition MUTABLE_STATE : Z := Z.shiftl 1 4.
Definition BufferUsage_all : Z :=
  Z.lor (Z.lor (Z.lor (Z.lor TRANSFER_SOURCE TRANSFER_DESTINATION) PROGRAM_INPUT)
    PROGRAM_OUTPUT) MUTABLE_STATE.

(** [BufferUsage::from_bits]: [None] when an unassigned bit is set. *)
Definition BufferUsage_from_bits (bits : Z) : option Z :=
  if Z.land bits (Z.lnot BufferUsage_all) =? 0 then Some bits else None.

Record BufferDesc := {
  bd_bytes : Z;
  bd_alignment : Z;
  bd_domain : MemoryDomain;
  bd_usage : Z;
}.

#[global] Instance BufferDesc_eq_dec : EqDecision BufferDesc.
Proof. solve_decision. Defined.

Definition BufferDesc_new (bytes alignment : Z) (domain : MemoryDomain) (usage : Z) :
    result BufferDesc BackendError :=
  let? bytes := ok_or (nonzero bytes) BeInvalidArgument in
  let? alignment := ok_or (nonzero alignment) BeInvalidArgument in
  if negb (is_power_of_two alignment) || (usage =? 0) || negb (bits_contains BufferUsage_all usage)
  then Err BeInvalidArgument
  else Ok {| bd_bytes := bytes; bd_alignment := alignment; bd_domain := domain;
             bd_usage := usage |}.

Inductive AccessMode := AccessRead | AccessWrite | AccessReadWrite.

#[global] Instance AccessMode_eq_dec : EqDecision AccessMode.
Proof. solve_decision. Defined.

Definition AccessMode_as_u8 (a : AccessMode) : Z :=
  match a with AccessRead => 1 | AccessWrite => 2 | AccessReadWrite => 3 end.

Definition AccessMode_try_from (value : Z) : result AccessMode BackendError :=
  if value =? 1 then Ok AccessRead
  else if value =? 2 then Ok AccessWrite
  else if value =? 3 then Ok AccessReadWrite
  else Err BeInvalidArgument.

Definition allows_access (self : BufferDesc) (access : AccessMode) : bool :=
  match access with
  | AccessRead => bits_intersects (bd_usage self) (Z.lor PROGRAM_INPUT MUTABLE_STATE)
  | AccessWrite => bits_intersects (bd_usage self) (Z.lor PROGRAM_OUTPUT MUTABLE_STATE)
  | AccessReadWrite => bits_contains (bd_usage self) MUTABLE_STATE
  end.

Definition is_program_visible (self : BufferDesc) : bool :=
  bits_intersects (bd_usage self) (Z.lor (Z.lor PROGRAM_INPUT PROGRAM_OUTPUT) MUTABLE_STATE).

(** [BufferProperties] *)
Definition HOST_VISIBLE : Z := Z.shiftl 1 0.
Definition DEVICE_LOCAL : Z := Z.shiftl 1 1.
Definition DIRECT_BINDING : Z := Z.shiftl 1 2.
Definition BufferProperties_all : Z := Z.lor (Z.lor HOST_VISIBLE DEVICE_LOCAL) DIRECT_BINDING.

Record BufferInfo := {
  bi_desc : BufferDesc;
  bi_allocation_bytes : Z;
  bi_alignment : Z;
  bi_properties : Z;
}.

#[global] Instance BufferInfo_eq_dec : EqDecision BufferInfo.
Proof. solve_decision. Defined.

Definition BufferInfo_new (desc : BufferDesc) (allocation_bytes alignment properties : Z) :
    result BufferInfo BackendError :=
  let? allocation_bytes := ok_or (nonzero allocation_bytes) BeInvalidArgument in
  let? alignment := ok_or (nonzero alignment) BeInvalidArgument in
  if negb (bits_contains BufferProperties_all properties) then Err BeInvalidArgument
  else if (allocation_bytes <? bd_bytes desc) || negb (is_power_of_two alignment)
          || (alignment <? bd_alignment desc) then Err BeIncompatible
  else
    let required :=
      match bd_domain desc with
      | DomainHost => HOST_VISIBLE
      | DomainDevice => DEVICE_LOCAL
      | DomainShared => Z.lor HOST_VISIBLE DIRECT_BINDING
      end in
    if negb (bits_contains properties required)
       || (is_program_visible desc && negb (bits_contains properties DIRECT_BINDING))
    then Err BeIncompatible
    else Ok {| bi_desc := desc; bi_allocation_bytes := allocation_bytes;
               bi_alignment := alignment; bi_properties := properties |}.

Record BufferRange := {
  br_offset : Z;
  br_bytes : Z;
}.

Definition BufferRange_new (offset bytes : Z) : result BufferRange BackendError :=
  let? bytes := ok_or (nonzero bytes) BeInvalidArgument in
  let? _ := ok_or (checked_add U64_MAX offset bytes) BeOutOfBounds in
  Ok {| br_offset := offset; br_bytes := bytes |}.

Definition BufferRange_end (self : BufferRange) : Z := br_offset self + br_bytes self.

(** ** Device information checks *)

Definition DeviceInfo_validate (self : DeviceInfo) : result unit DeviceInfoError :=
  let limits := info_limits self in
  if bits_intersects (info_capabilities self) CAP_RESERVED then Err InfoReservedCapabilities
  else if negb (bits_intersects (info_capabilities self) MEMORY_DOMAINS) then
    Err InfoMissingMemoryDomain
  else if (max_contexts limits =? 0) || (max_buffers_per_context limits =? 0)
    || (max_programs_per_context limits =? 0) || (max_queues_per_context limits =? 0)
    || (max_events_per_context limits =? 0) || (max_bindings_per_submission limits =? 0)
    || (max_buffer_bytes limits =? 0) || (max_artifact_bytes limits =? 0) then
    Err InfoZeroLimit
  else Ok tt.

(** [ContextDesc] and [QueueDesc] hold one flag word each. *)
Record ContextDesc := { cd_flags : Z }.
Record QueueDesc := { qd_flags : Z }.

Definition validate_context_desc (self : DeviceInfo) (desc : ContextDesc) :
    result unit BackendError :=
  if cd_flags desc =? 0 then Ok tt else Err BeUnsupported.

Definition validate_buffer_desc (self : DeviceInfo) (desc : BufferDesc) :
    result unit BackendError :=
  if max_buffer_bytes (info_limits self) <? bd_bytes desc then Err BeResourceLimit
  else if negb (supports_memory_domain (info_capabilities self) (bd_domain desc)) then
    Err BeUnsupported
  else Ok tt.

Definition validate_buffer_info (self : DeviceInfo) (requested : BufferDesc)
    (actual : BufferInfo) : result unit BackendError :=
  let? _ := validate_buffer_desc self requested in
  if decide (bi_desc actual = requested) then Ok tt else Err BeIncompatible.

Definition validate_queue_desc (self : DeviceInfo) (desc : QueueDesc) :
    result unit BackendError :=
  if qd_flags desc =? 0 then Ok tt else Err BeUnsupported.

Definition validate_event_cancellation (self : DeviceInfo) : result unit BackendError :=
  if bits_contains (info_capabilities self) EVENT_CANCELLATION then Ok tt else Err BeUnsupported.

(** ** Byte ports *)

(** A [&dyn ByteSource]: [read_at offset n] fills a target of [n] bytes. *)
Record ByteSource := {
  src_len : Z;
  src_read_at : Z -> Z -> result (list Z) BackendError;
  src_as_contiguous : option (list Z);
}.

(** A [ByteSink] implementation over a state [S]. *)
Class ByteSink (S : Type) := {
  sink_len : S -> Z;
  sink_write_at : Z -> list Z -> S -> S * result unit BackendError;
}.

Definition backend_error_from_byte_access (error : ByteAccessError) : BackendError :=
  match error with
  | AccessOutOfBounds => BeOutOfBounds
  | AccessBusy | AccessReset => BeBusy
  | AccessFailed => BeDeviceLost
  end.

(** [TransportByteSource] and [TransportByteSink] *)
Definition TransportByteSource (inner : ReadableBytes) : ByteSource := {|
  src_len := rb_len inner;
  src_read_at := fun offset n =>
    map_err backend_error_from_byte_access (rb_read_at inner offset n);
  src_as_contiguous := rb_as_contiguous inner;
|}.

Record TransportByteSink (S : Type) := MkTransportByteSink { tbs_inner : S }.
Arguments MkTransportByteSink {S}.
Arguments tbs_inner {S}.

#[global] Instance TransportByteSink_sink {S} `{WritableBytes S} : ByteSink (TransportByteSink S) := {|
  sink_len := fun self => wb_len (tbs_inner self);
  sink_write_at := fun offset source self =>
    let '(inner, r) := wb_write_at offset source (tbs_inner self) in
    (MkTransportByteSink inner, map_err backend_error_from_byte_access r);
|}.

(** [impl ByteSource for [u8]] *)
Definition slice_source (self : list Z) : ByteSource := {|
  src_len := zlen self;
  src_read_at := fun offset n =>
    let? start := ok_or (try_from USIZE_MAX offset) BeOutOfBounds in
    match checked_add USIZE_MAX start n with
    | Some stop => if stop <=? zlen self then Ok (slice start n self) else Err BeOutOfBounds
    | None => Err BeOutOfBounds
    end;
  src_as_contiguous := Some self;
|}.

(** [impl ByteSink for [u8]] *)
Definition slice_sink_write_at (offset : Z) (source : list Z) (self : list Z) :
    list Z * result unit BackendError :=
  match try_from USIZE_MAX offset with
  | None => (self, Err BeOutOfBounds)
  | Some start =>
      match checked_add USIZE_MAX start (zlen source) with
      | None => (self, Err BeOutOfBounds)
      | Some stop =>
          if stop <=? zlen self then (splice start source self, Ok tt)
          else (self, Err BeOutOfBounds)
      end
  end.

#[global] Instance slice_sink : ByteSink (list Z) := {|
  sink_len := fun self => zlen self;
  sink_write_at := slice_sink_write_at;
|}.

(** ** Artifacts, queues, submissions *)

Definition ArtifactFormat_new (value : Z) : option Z := nonzero value.

Record ArtifactRef := {
  ar_format : Z;
  ar_target : list Z;
  ar_payload : ByteSource;
  ar_resident_bytes : Z;
}.

Inductive Timeout := TimeoutInfinite | TimeoutAfterNs (ns : Z).

Definition Timeout_from_wire_ns (value : Z) : Timeout :=
  match nonzero value with
  | Some value => TimeoutAfterNs value
  | None => TimeoutInfinite
  end.

Definition Timeout_to_wire_ns (self : Timeout) : Z :=
  match self with
  | TimeoutInfinite => 0
  | TimeoutAfterNs value => value
  end.

Record BindingRef (B : Type) := {
  bref_slot : Z;
  bref_buffer : B;
  bref_range : BufferRange;
  bref_access : AccessMode;
}.
Arguments Build_BindingRef {B}.
Arguments bref_slot {B}.
Arguments bref_buffer {B}.
Arguments bref_range {B}.
Arguments bref_access {B}.

(** [items.windows(2).all(f)] *)
Fixpoint windows2_all {A} (f : A -> A -> bool) (l : list A) : bool :=
  match l with
  | a :: (b :: _) as rest => f a b && windows2_all f rest
  | _ => true
  end.

(** The prefix scan of [validate_bindings]: [prior] are the bindings already
    visited. *)
Fixpoint slot_scan {B} (prior rest : list (BindingRef B)) : result unit BackendError :=
  match rest with
  | [] => Ok tt
  | b :: rest' =>
      if existsb (fun p => bref_slot p =? bref_slot b) prior then Err BeInvalidArgument
      else slot_scan (prior ++ [b]) rest'
  end.

Definition validate_bindings {B} (bindings : list (BindingRef B)) (max_bindings : Z) :
    result unit BackendError :=
  if (zlen bindings =? 0) || (max_bindings <? zlen bindings) then Err BeResourceLimit
  else if windows2_all (fun p q => bref_slot p <? bref_slot q) bindings then Ok tt
  else slot_scan [] bindings.

(** The [zip] loop of [validate_for_submit]. *)
Fixpoint access_scan {B} (bindings : list (BindingRef B)) (descs : list BufferDesc) :
    result unit BackendError :=
  match bindings, descs with
  | binding :: bs, desc :: ds =>
      if negb (allows_access desc (bref_access binding)) then Err BePermissionDenied
      else access_scan bs ds
  | _, _ => Ok tt
  end.

Definition validate_for_submit {B} (bindings : list (BindingRef B)) (descs : list BufferDesc)
    (max_bindings : Z) : result unit BackendError :=
  let? _ := validate_bindings bindings max_bindings in
  if negb (zlen bindings =? zlen descs) then Err BeInvalidArgument
  else access_scan bindings descs.

Inductive EventState :=
  | EventPending
  | EventComplete
  | EventFailed (error : BackendError)
  | EventCancelled.

#[global] Instance EventState_eq_dec : EqDecision EventState.
Proof. solve_decision. Defined.

Inductive SubmitFailure (E : Type) :=
  | SubmitRejected (error : BackendError)
  | SubmitIndeterminate (error : BackendError) (event : E).
Arguments SubmitRejected {E}.
Arguments SubmitIndeterminate {E}.

Inductive ReleaseFailure (R : Type) :=
  | ReleaseRejected (error : BackendError) (resource : R)
  | ReleaseIndeterminate (error : BackendError).
Arguments ReleaseRejected {R}.
Arguments ReleaseIndeterminate {R}.

(** What a backend does with a [&mut dyn ByteSink]: finitely many writes, each
    chosen after the outcome of the previous one, then a result.  The offset
    is unsigned. *)
Inductive SinkProgram (A : Type) :=
  | SinkReturn (a : A)
  | SinkWrite (offset : N) (source : list Z) (k : result unit BackendError -> SinkProgram A).
Arguments SinkReturn {A}.
Arguments SinkWrite {A}.

Fixpoint run_sink {A S} `{ByteSink S} (p : SinkProgram A) (s : S) : S * A :=
  match p with
  | SinkReturn a => (s, a)
  | SinkWrite offset source k =>
      let '(s, r) := sink_write_at (Z.of_N offset) source s in run_sink (k r) s
  end.

(** [trait Accelerator].  The provider's own state is [World]; [&self] methods
    read and change it.  A destructive method consumes its handle, a buffer
    write replaces the borrowed handle. *)
Class Accelerator := {
  World : Type;
  Context : Type;
  Buffer : Type;
  Program : Type;
  Queue : Type;
  Event : Type;
  acc_device_info : World -> World * result DeviceInfo BackendError;
  acc_create_context : ContextDesc -> World -> World * result Context BackendError;
  acc_destroy_context : Context -> World -> World * result unit (ReleaseFailure Context);
  acc_allocate_buffer : Context -> BufferDesc -> World ->
    World * result (Buffer * BufferInfo) BackendError;
  acc_write_buffer : Buffer -> Z -> ByteSource -> World ->
    World * (Buffer * result unit BackendError);
  acc_read_buffer : Buffer -> Z -> Z -> World ->
    SinkProgram (World * result unit BackendError);
  acc_free_buffer : Buffer -> World -> World * result unit (ReleaseFailure Buffer);
  acc_load_program : Context -> ArtifactRef -> World -> World * result Program BackendError;
  acc_unload_program : Program -> World -> World * result unit (ReleaseFailure Program);
  acc_create_queue : Context -> QueueDesc -> World -> World * result Queue BackendError;
  acc_destroy_queue : Queue -> World -> World * result unit (ReleaseFailure Queue);
  acc_submit : Queue -> Program -> list (BindingRef Buffer) -> Timeout -> World ->
    World * result Event (SubmitFailure Event);
  acc_poll_event : Event -> World -> World * result EventState BackendError;
  acc_cancel_event : Event -> World -> World * result unit BackendError;
  acc_destroy_event : Event -> World -> World * result unit (ReleaseFailure Event);
}.

(** ** What a byte port promises *)

(** A source over the byte string [content]: stable length, every range
    inside it readable, and the contiguous view, if any, is the content. *)
Record source_of (s : ByteSource) (content : list Z) : Prop := {
  so_len : src_len s = zlen content;
  so_bytes : is_bytes content;
  so_fits : zlen content <= U64_MAX;
  so_read : forall offset n, 0 <= offset -> 0 <= n -> offset + n <= zlen content ->
    src_read_at s offset n = Ok (slice offset n content);
  so_contiguous : forall c, src_as_contiguous s = Some c -> c = content;
}.

(** A sink whose state [s] holds the byte string [sink_content s]: a write
    inside the length replaces exactly that range, any other fails and
    changes nothing. *)
Class ByteSinkSpec (S : Type) `{ByteSink S} := {
  sink_content : S -> list Z;
  sink_inv : S -> Prop;
  sink_len_spec : forall s, sink_inv s -> sink_len s = zlen (sink_content s);
  sink_fits : forall s, sink_inv s -> zlen (sink_content s) <= U64_MAX;
  sink_write_ok : forall offset src s, sink_inv s -> 0 <= offset ->
    offset + zlen src <= zlen (sink_content s) ->
    exists s', sink_write_at offset src s = (s', Ok tt) /\ sink_inv s' /\
      sink_content s' = splice offset src (sink_content s);
  sink_write_err : forall offset src s, sink_inv s -> 0 <= offset ->
    zlen (sink_content s) < offset + zlen src ->
    sink_write_at offset src s = (s, Err BeOutOfBounds);
}.

(** ** Ports over slices and over transport ports *)

Lemma slice_source_of bs : is_bytes bs -> zlen bs <= U64_MAX -> source_of (slice_source bs) bs.
Proof.
  intros Hbs Hlen. split; simpl; auto; try congruence.
  intros offset n Ho Hn Hle. unfold try_from, checked_add.
  by zcmp.
Qed.

Lemma slice_readable_source_of bs :
  is_bytes bs -> zlen bs <= U64_MAX -> source_of (TransportByteSource (slice_readable bs)) bs.
Proof.
  intros Hbs Hlen. split; simpl; auto; try congruence.
  intros offset n Ho Hn Hle. unfold try_from, checked_add. by zcmp.
Qed.

Lemma slice_sink_write_at_spec offset src l :
  0 <= offset -> zlen l <= U64_MAX ->
  slice_sink_write_at offset src l =
    if offset + zlen src <=? zlen l then (splice offset src l, Ok tt) else (l, Err BeOutOfBounds).
Proof.
  intros. pose proof (zlen_nonneg src). unfold slice_sink_write_at, try_from, checked_add.
  destruct (Z.leb_spec offset U64_MAX); [|by zcmp].
  destruct (Z.leb_spec (offset + zlen src) U64_MAX); [done|by zcmp].
Qed.

#[global, refine] Instance slice_sink_spec : ByteSinkSpec (list Z) := {|
  sink_content := fun s => s;
  sink_inv := fun s => zlen s <= U64_MAX;
|}.
Proof.
  - done.
  - done.
  - intros offset src s Hs Ho Hle. simpl. rewrite slice_sink_write_at_spec by done.
    zcmp. eexists. split_and!; [done| |done]. by rewrite zlen_splice.
  - intros offset src s Hs Ho Hgt. simpl. rewrite slice_sink_write_at_spec by done.
    by zcmp.
Defined.

(** ** Bindings *)

Definition slots_of {B} (bs : list (BindingRef B)) : list Z := map bref_slot bs.

Lemma windows2_all_cons {A} (f : A -> A -> bool) a l :
  windows2_all f (a :: l) = match l with [] => true | b :: _ => f a b && windows2_all f l end.
Proof. by destruct l. Qed.

Lemma windows2_ltb_NoDup {A} (key : A -> Z) l :
  windows2_all (fun p q => key p <? key q) l = true -> NoDup (map key l).
Proof.
  intros H. enough (Hs : Sorted Z.lt (map key l)).
  { apply Sorted_StronglySorted in Hs; [|intros ???; lia].
    induction Hs as [|x xs _ IH Hall]; constructor; auto.
    intros Hin. rewrite Forall_forall in Hall.
    specialize (Hall x Hin). lia. }
  induction l as [|a l IH]; simpl; [constructor|].
  rewrite windows2_all_cons in H. constructor.
  - apply IH. destruct l; [done|]. by apply andb_true_iff in H as [_ ?].
  - destruct l; simpl; constructor. apply andb_true_iff in H as [? _]. by apply Z.ltb_lt.
Qed.

Lemma slot_scan_spec {B} (prior rest : list (BindingRef B)) :
  NoDup (slots_of prior) ->
  slot_scan prior rest =
    if decide (NoDup (slots_of (prior ++ rest))) then Ok tt else Err BeInvalidArgument.
Proof.
  revert prior. induction rest as [|b rest IH]; intros prior Hp; simpl.
  - rewrite app_nil_r, decide_True by done. done.
  - destruct (existsb _ prior) eqn:E.
    + rewrite decide_False; [done|].
      apply existsb_exists in E as (p & Hp' & Heq). bool_to_prop.
      unfold slots_of. rewrite map_app. simpl. intros Hnd.
      apply NoDup_app in Hnd as (_ & Hdis & _). apply (Hdis (bref_slot p)).
      * apply list_elem_of_In. by apply in_map.
      * rewrite Heq. set_solver.
    + rewrite IH; [|].
      * by rewrite <- app_assoc.
      * unfold slots_of in *. rewrite map_app. simpl.
        apply NoDup_app. split_and!; [done| |apply NoDup_singleton].
        intros x Hx ->%list_elem_of_singleton.
        apply list_elem_of_In, in_map_iff in Hx as (p & Heq & Hin).
        assert (existsb (fun p => bref_slot p =? bref_slot b) prior = true); [|congruence].
        apply existsb_exists. exists p. split; [done|]. by apply Z.eqb_eq.
Qed.

(** The order-independent meaning of [validate_bindings]; the linear fast path
    and the quadratic scan agree with it. *)
Lemma validate_bindings_spec {B} (bs : list (BindingRef B)) max :
  validate_bindings bs max =
    if decide (bs = [] \/ max < zlen bs) then Err BeResourceLimit
    else if decide (NoDup (slots_of bs)) then Ok tt
    else Err BeInvalidArgument.
Proof.
  unfold validate_bindings.
  destruct (Z.eqb_spec (zlen bs) 0) as [H0|H0]; simpl.
  { destruct bs; [|done]. by rewrite decide_True by auto. }
  destruct (Z.ltb_spec max (zlen bs)); [by rewrite decide_True by auto|].
  rewrite decide_False by (intros [->|]; [done|lia]).
  case_match eqn:Hw.
  - apply windows2_ltb_NoDup in Hw. by rewrite decide_True.
  - by rewrite slot_scan_spec by constructor.
Qed.

(** ** Constructors establish their invariants *)

Lemma BufferRange_new_Ok off n r :
  BufferRange_new off n = Ok r <->
  r = {| br_offset := off; br_bytes := n |} /\ n <> 0 /\ off + n <= U64_MAX.
Proof.
  unfold BufferRange_new, nonzero, checked_add, ok_or.
  destruct (Z.eqb_spec n 0); [naive_solver|].
  destruct (Z.leb_spec (off + n) U64_MAX); naive_solver lia.
Qed.

Lemma BufferDesc_new_Ok bytes align dom usage d :
  BufferDesc_new bytes align dom usage = Ok d <->
  d = {| bd_bytes := bytes; bd_alignment := align; bd_domain := dom; bd_usage := usage |} /\
  bytes <> 0 /\ is_power_of_two align = true /\ usage <> 0 /\
  bits_contains BufferUsage_all usage = true.
Proof.
  unfold BufferDesc_new, nonzero, ok_or.
  destruct (Z.eqb_spec bytes 0); [naive_solver|].
  destruct (Z.eqb_spec align 0); [subst; naive_solver|].
  destruct (is_power_of_two align); simpl; [|naive_solver].
  destruct (Z.eqb_spec usage 0); simpl; [naive_solver|].
  destruct (bits_contains BufferUsage_all usage); simpl; naive_solver.
Qed.

Lemma MemoryDomain_roundtrip d : MemoryDomain_try_from (MemoryDomain_as_u8 d) = Ok d.
Proof. by destruct d. Qed.

Lemma AccessMode_roundtrip a : AccessMode_try_from (AccessMode_as_u8 a) = Ok a.
Proof. by destruct a. Qed.

Lemma Timeout_roundtrip ns : 0 <= ns -> Timeout_to_wire_ns (Timeout_from_wire_ns ns) = ns.
Proof. unfold Timeout_from_wire_ns, nonzero. destruct (Z.eqb_spec ns 0); simpl; auto. Qed.

Lemma access_scan_spec {B} (bs : list (BindingRef B)) ds :
  length bs = length ds ->
  access_scan bs ds = Ok tt <-> Forall2 (fun b d => allows_access d (bref_access b) = true) bs ds.
Proof.
  revert ds. induction bs as [|b bs IH]; intros [|d ds] Hl; simpl; try done.
  destruct (allows_access d (bref_access b)) eqn:Ha; simpl.
  - rewrite IH by (simpl in Hl; lia). split; [by constructor|by inversion 1].
  - split; [done|]. inversion 1. congruence.
Qed.

(** Admission of bindings means what it says.  The check with its linear
    fast path and its quadratic scan accepts exactly when there is a binding,
    not more than allowed, no slot is bound twice, and each buffer's usage
    permits the requested access. *)
Theorem validate_for_submit_exact {B} (bindings : list (BindingRef B)) descs max_bindings :
  validate_for_submit bindings descs max_bindings = Ok tt <->
  bindings <> [] /\ zlen bindings <= max_bindings /\ NoDup (slots_of bindings) /\
  Forall2 (fun b d => allows_access d (bref_access b) = true) bindings descs.
Proof.
  unfold validate_for_submit. rewrite validate_bindings_spec.
  destruct (decide (bindings = [] \/ _)) as [Hbad|Hgood].
  { split; [done|]. intros (? & ? & _). destruct Hbad; [done|lia]. }
  assert (bindings <> [] /\ zlen bindings <= max_bindings) as [Hne Hle].
  { split; [by intros ->; apply Hgood; left|]. apply Z.nlt_ge. intros ?. apply Hgood. by right. }
  destruct (decide (NoDup (slots_of bindings))) as [Hnd|]; [|split; [done|by intros (_ & _ & ? & _)]].
  unfold zlen in *. destruct (Z.eqb_spec (Z.of_nat (length bindings)) (Z.of_nat (length descs))) as [Hl|Hl]; simpl.
  - rewrite access_scan_spec by lia. naive_solver.
  - split; [done|]. intros (_ & _ & _ & Hf). apply Forall2_length in Hf. lia.
Qed.

Lemma powers_divide a b : is_power_of_two a = true -> is_power_of_two b = true -> a <= b -> (a | b).
Proof.
  intros (i & Hi & ->)%is_power_of_two_spec (j & Hj & ->)%is_power_of_two_spec Hle.
  exists (2 ^ (j - i)). rewrite <- Z.pow_add_r; [f_equal; lia| |done].
  destruct (Z.le_gt_cases i j); [lia|]. exfalso. pose proof (Z.pow_lt_mono_r 2 j i). lia.
Qed.

Lemma bits_contains_lor p a b : bits_contains p (Z.lor a b) = true -> bits_contains p a = true.
Proof.
  unfold bits_contains. rewrite !Z.eqb_eq. intros Hl. apply Z.bits_inj'. intros n Hn.
  apply (f_equal (fun z => Z.testbit z n)) in Hl. rewrite Z.land_spec, Z.lor_spec in *.
  destruct (Z.testbit a n); simpl in *; [|by rewrite andb_false_r]. by rewrite andb_true_r in *.
Qed.

(** A backend cannot report less than was asked for.  The buffer
    information a backend builds for a valid descriptor covers its size,
    keeps its alignment, offers the memory domain it was asked for, and
    supports direct binding whenever a program can see the buffer. *)
Theorem buffer_info_covers_request bytes align domain usage desc allocation alignment properties info :
  BufferDesc_new bytes align domain usage = Ok desc ->
  BufferInfo_new desc allocation alignment properties = Ok info ->
  bi_desc info = desc /\ bytes <= bi_allocation_bytes info /\ (align | bi_alignment info) /\
  (domain <> DomainDevice -> bits_contains properties HOST_VISIBLE = true) /\
  (domain = DomainDevice -> bits_contains properties DEVICE_LOCAL = true) /\
  (is_program_visible desc = true -> bits_contains properties DIRECT_BINDING = true).
Proof.
  intros (-> & _ & Ha & _)%BufferDesc_new_Ok. unfold BufferInfo_new, nonzero.
  destruct (allocation =? 0); [done|]. destruct (alignment =? 0); [done|]. cbn [ok_or].
  destruct (negb (bits_contains BufferProperties_all properties)); [done|].
  destruct (_ || _) eqn:Hsize; [done|]. cbn [bd_domain bd_bytes bd_alignment] in *. bool_to_prop.
  destruct (_ || _) eqn:Hreq; [done|]. apply orb_false_iff in Hreq as [Hreq Hvis]. bool_to_prop.
  intros [= <-]. cbn [bi_desc bi_allocation_bytes bi_alignment]. split_and!; try done; [by apply powers_divide|..].
  - intros Hd. destruct domain; [done|done|by eapply bits_contains_lor].
  - by intros ->.
  - intros Hv. rewrite Hv in Hvis. by apply negb_false_iff in Hvis.
Qed.

Lemma buffer_info_covers_request_witness :
  exists desc info, BufferDesc_new 100 16 DomainShared 4 = Ok desc /\ BufferInfo_new desc 128 64 5 = Ok info /\
    100 <= bi_allocation_bytes info /\ (16 | bi_alignment info).
Proof.
  destruct (BufferDesc_new 100 16 DomainShared 4) as [desc|] eqn:Hd; [|discriminate Hd].
  destruct (BufferInfo_new desc 128 64 5) as [info|] eqn:Hi.
  - exists desc, info. destruct (buffer_info_covers_request _ _ _ _ _ _ _ _ _ Hd Hi) as (_ & Hb & Ha & _).
    split; [reflexivity|]. split; [exact Hi|]. split; [exact Hb|exact Ha].
  - exfalso. vm_compute in Hd. injection Hd as <-. vm_compute in Hi. discriminate Hi.
Defined.
