(* ===== verification/ObjectTable.v ===== *)
(** * Generational object table
      ([crates/virtio-accel-device/src/object_table.rs])

    Guest-visible identifiers pack a device namespace, a generation, a kind
    tag and a slot number; a table resolves an identifier only while the slot
    holds the generation it was issued for.  The theorems: identifiers decode
    to what they were built from, the table refines a finite map keyed by
    identifiers, and an identifier that was removed never resolves again. *)

From Stdlib Require Import ZArith Lia.
From stdpp Require Import prelude list gmap relations.
From S2P Require Import Prelude.

(** ** Identifiers *)

Definition KIND_MASK : Z := 7.
Definition GENERATION_BITS : Z := 13.
Definition GENERATION_MASK : Z := Z.shiftl 1 GENERATION_BITS - 1.
Definition GENERATION_SHIFT : Z := 3.
Definition NAMESPACE_SHIFT : Z := GENERATION_SHIFT + GENERATION_BITS.

Inductive ObjectKind := KindContext | KindBuffer | KindProgram | KindQueue | KindEvent.

Definition ObjectKind_tag (self : ObjectKind) : Z :=
  match self with
  | KindContext => 1
  | KindBuffer => 2
  | KindProgram => 3
  | KindQueue => 4
  | KindEvent => 5
  end.

(** [ObjectNamespace::new]; a namespace is its nonzero [u16]. *)
Definition ObjectNamespace_new (value : Z) : option Z := nonzero value.

(** An [ObjectId] is its raw nonzero [u64]. *)
Definition ObjectId : Type := Z.

#[global] Instance ObjectId_eq_dec : EqDecision ObjectId := Z.eq_dec.

Definition ObjectId_from_raw (raw : Z) : option ObjectId := nonzero raw.

(** [ObjectId::new]; the fields are narrower than the word they are shifted
    in, so no bit is lost. *)
Definition ObjectId_new (index namespace generation : Z) (kind : ObjectKind) : ObjectId :=
  let token := Z.lor (Z.lor (Z.shiftl namespace NAMESPACE_SHIFT)
                        (Z.shiftl generation GENERATION_SHIFT)) (ObjectKind_tag kind) in
  Z.lor (Z.shiftl token 32) (index + 1).

(** ** The table *)

Inductive ObjectTableError :=
  | InvalidId
  | WrongKind
  | StaleId
  | Full
  | AllocationFailed.

#[global] Instance ObjectTableError_eq_dec : EqDecision ObjectTableError.
Proof. solve_decision. Defined.

Record Slot (T : Type) := {
  sl_generation : Z;
  sl_value : option T;
  sl_retired : bool;
}.
Arguments Build_Slot {T}.
Arguments sl_generation {T}.
Arguments sl_value {T}.
Arguments sl_retired {T}.

(** [ot_free] is the free [Vec] with its top, the end [pop] takes from, first. *)
Record ObjectTable (T : Type) := {
  ot_kind : ObjectKind;
  ot_namespace : Z;
  ot_max_slots : Z;
  ot_live : Z;
  ot_slots : list (Slot T);
  ot_free : list nat;
}.
Arguments Build_ObjectTable {T}.
Arguments ot_kind {T}.
Arguments ot_namespace {T}.
Arguments ot_max_slots {T}.
Arguments ot_live {T}.
Arguments ot_slots {T}.
Arguments ot_free {T}.

Section Table.
Context {T : Type}.
Implicit Types (t : ObjectTable T) (id : ObjectId) (i : nat) (s : Slot T) (v : T).

Definition ObjectTable_new (kind : ObjectKind) (max_slots : Z) : ObjectTable T := {|
  ot_kind := kind;
  ot_namespace := 0;
  ot_max_slots := max_slots;
  ot_live := 0;
  ot_slots := [];
  ot_free := [];
|}.

Definition ObjectTable_with_namespace (kind : ObjectKind) (max_slots namespace : Z) :
    ObjectTable T := {|
  ot_kind := kind;
  ot_namespace := namespace;
  ot_max_slots := max_slots;
  ot_live := 0;
  ot_slots := [];
  ot_free := [];
|}.

Definition ObjectTable_len t : Z := ot_live t.
Definition ObjectTable_is_empty t : bool := ot_live t =? 0.

(** The identifier of slot [i] in its current generation. *)
Definition slot_id t i s : ObjectId :=
  ObjectId_new (Z.of_nat i) (ot_namespace t) (sl_generation s) (ot_kind t).

(** [ids]: the occupied identities in slot order, from slot [i] on. *)
Fixpoint ids_from t i (slots : list (Slot T)) : list ObjectId :=
  match slots with
  | [] => []
  | s :: rest =>
      match sl_value s with
      | Some _ => slot_id t i s :: ids_from t (S i) rest
      | None => ids_from t (S i) rest
      end
  end.

Definition ObjectTable_ids t : list ObjectId := ids_from t 0 (ot_slots t).

(** [mem] says whether the reservations of this call succeed. *)
Definition try_reserve_insert (mem : bool) t : result unit ObjectTableError :=
  match ot_free t with
  | _ :: _ => Ok tt
  | [] =>
      if ot_max_slots t <=? zlen (ot_slots t) then Err Full
      else if mem then Ok tt else Err AllocationFailed
  end.

(** Write [slots], [free] and [live] of a table. *)
Definition with_slots t (live : Z) (slots : list (Slot T)) (free : list nat) : ObjectTable T := {|
  ot_kind := ot_kind t;
  ot_namespace := ot_namespace t;
  ot_max_slots := ot_max_slots t;
  ot_live := live;
  ot_slots := slots;
  ot_free := free;
|}.

(** The indexing panic of [self.slots[index]] is the last branch; it is not
    reachable from a well-formed table ([insert_prepared_spec]). *)
Definition insert_prepared v t : ObjectTable T * ObjectId :=
  match ot_free t with
  | index :: free =>
      match ot_slots t !! index with
      | Some slot =>
          let slot' := {| sl_generation := sl_generation slot; sl_value := Some v;
                          sl_retired := sl_retired slot |} in
          (with_slots t (ot_live t + 1) (<[index := slot']> (ot_slots t)) free,
           ObjectId_new (Z.of_nat index) (ot_namespace t) (sl_generation slot) (ot_kind t))
      | None => (t, 0)
      end
  | [] =>
      let index := length (ot_slots t) in
      let generation := 0 in
      (with_slots t (ot_live t + 1)
         (ot_slots t ++ [{| sl_generation := generation; sl_value := Some v;
                            sl_retired := false |}]) [],
       ObjectId_new (Z.of_nat index) (ot_namespace t) generation (ot_kind t))
  end.

Definition ObjectTable_insert (mem : bool) v t : ObjectTable T * result ObjectId ObjectTableError :=
  match try_reserve_insert mem t with
  | Err e => (t, Err e)
  | Ok _ => let '(t, id) := insert_prepared v t in (t, Ok id)
  end.

(** The casts [as u32] and [as u16] of the token fields keep every bit of a
    [u64]; [raw as u32] is the low half. *)
Definition locate t id : result nat ObjectTableError :=
  let raw := id in
  let slot_number := Z.land raw U32_MAX in
  if slot_number =? 0 then Err InvalidId
  else
    let token := Z.shiftr raw 32 in
    if negb (Z.land token KIND_MASK =? ObjectKind_tag (ot_kind t)) then Err WrongKind
    else if negb (Z.shiftr token NAMESPACE_SHIFT =? ot_namespace t) then Err StaleId
    else
      let generation := Z.land (Z.shiftr token GENERATION_SHIFT) GENERATION_MASK in
      let index := Z.to_nat (slot_number - 1) in
      match ot_slots t !! index with
      | None => Err StaleId
      | Some slot =>
          if negb (sl_generation slot =? generation) || sl_retired slot
             || (match sl_value slot with None => true | Some _ => false end)
          then Err StaleId
          else Ok index
      end.

Definition ObjectTable_get id t : result T ObjectTableError :=
  let? index := locate t id in
  match ot_slots t !! index with
  | Some slot => ok_or (sl_value slot) StaleId
  | None => Err StaleId
  end.

(** Store a value through a reference to slot [i]. *)
Definition table_put i v t : ObjectTable T :=
  match ot_slots t !! i with
  | Some slot =>
      with_slots t (ot_live t)
        (<[i := {| sl_generation := sl_generation slot; sl_value := Some v;
                   sl_retired := sl_retired slot |}]> (ot_slots t)) (ot_free t)
  | None => t
  end.

(** [get_mut]: the value behind the reference and what a store through it
    does to the table. *)
Definition ObjectTable_get_mut id t : result (T * (T -> ObjectTable T)) ObjectTableError :=
  let? index := locate t id in
  match ot_slots t !! index with
  | Some slot =>
      let? value := ok_or (sl_value slot) StaleId in
      Ok (value, fun v' => table_put index v' t)
  | None => Err StaleId
  end.

Definition ObjectTable_remove id t : ObjectTable T * result T ObjectTableError :=
  match locate t id with
  | Err e => (t, Err e)
  | Ok index =>
      match ot_slots t !! index with
      | Some slot =>
          match sl_value slot with
          | None => (t, Err StaleId)
          | Some value =>
              if sl_generation slot =? GENERATION_MASK then
                (with_slots t (ot_live t - 1)
                   (<[index := {| sl_generation := sl_generation slot; sl_value := None;
                                  sl_retired := true |}]> (ot_slots t)) (ot_free t), Ok value)
              else
                (with_slots t (ot_live t - 1)
                   (<[index := {| sl_generation := sl_generation slot + 1; sl_value := None;
                                  sl_retired := sl_retired slot |}]> (ot_slots t))
                   (index :: ot_free t), Ok value)
          end
      | None => (t, Err StaleId)
      end
  end.

(** The [find_map] of [next_id_from] over the slots from index [i] on. *)
Fixpoint find_id t i (slots : list (Slot T)) : option (nat * ObjectId) :=
  match slots with
  | [] => None
  | s :: rest =>
      if sl_retired s || (match sl_value s with None => true | Some _ => false end)
      then find_id t (S i) rest
      else Some (S i, slot_id t i s)
  end.

Definition next_id_from (start : nat) t : option (nat * ObjectId) :=
  find_id t start (drop start (ot_slots t)).

(** ** Invariant *)

Definition occupied s : Z := match sl_value s with Some _ => 1 | None => 0 end.

Record table_wf t : Prop := {
  tw_namespace : is_u16 (ot_namespace t);
  tw_max : is_u32 (ot_max_slots t);
  tw_len : zlen (ot_slots t) <= ot_max_slots t;
  tw_gen : forall i s, ot_slots t !! i = Some s -> 0 <= sl_generation s <= GENERATION_MASK;
  tw_retired : forall i s, ot_slots t !! i = Some s -> sl_retired s = true ->
    sl_value s = None /\ sl_generation s = GENERATION_MASK;
  tw_free : forall i, i ∈ ot_free t <->
    exists s, ot_slots t !! i = Some s /\ sl_value s = None /\ sl_retired s = false;
  tw_free_nodup : NoDup (ot_free t);
  tw_live : ot_live t = sum_by occupied (ot_slots t);
}.

(** Sum of [f] over the live values. *)
Definition table_sum (f : T -> Z) t : Z :=
  sum_by (fun s => match sl_value s with Some v => f v | None => 0 end) (ot_slots t).

(** The finite map the table represents: its live entries. *)
Fixpoint entries_from t i (slots : list (Slot T)) : list (ObjectId * T) :=
  match slots with
  | [] => []
  | s :: rest =>
      match sl_value s with
      | Some v => (slot_id t i s, v) :: entries_from t (S i) rest
      | None => entries_from t (S i) rest
      end
  end.

Definition to_map t : gmap Z T := list_to_map (entries_from t 0 (ot_slots t)).

(** The value behind an identifier. *)
Definition lookup_id id t : option T :=
  match ObjectTable_get id t with Ok v => Some v | Err _ => None end.

End Table.

(** ** Identifier arithmetic *)

Lemma lor_shiftl_add a b n : 0 <= n -> 0 <= b < 2 ^ n -> Z.lor (Z.shiftl a n) b = a * 2 ^ n + b.
Proof.
  intros Hn Hb. rewrite <- Z.shiftl_mul_pow2 by done.
  assert (Hdis : Z.land (Z.shiftl a n) b = 0).
  { apply Z.bits_inj_0. intros m. rewrite Z.land_spec. destruct (Z.ltb_spec m n).
    - destruct (Z.ltb_spec m 0); [by rewrite (Z.testbit_neg_r _ m)|].
      by rewrite Z.shiftl_spec_low.
    - destruct (Z.eq_dec b 0) as [->|]; [by rewrite Z.testbit_0_l, andb_false_r|].
      assert (Z.log2 b < n) by (apply Z.log2_lt_pow2; lia).
      rewrite (Z.bits_above_log2 b), andb_false_r; [done|lia|lia]. }
  by rewrite <- Z.lxor_lor, Z.add_nocarry_lxor.
Qed.

Lemma tag_range k : 1 <= ObjectKind_tag k <= 5.
Proof. destruct k; simpl; lia. Qed.

Lemma ObjectKind_tag_inj k1 k2 : ObjectKind_tag k1 = ObjectKind_tag k2 -> k1 = k2.
Proof. by destruct k1, k2. Qed.

(** The packing as a number in mixed radix. *)
Lemma ObjectId_new_value index namespace generation kind :
  0 <= index < U32_MAX -> 0 <= generation <= GENERATION_MASK ->
  ObjectId_new index namespace generation kind =
    (namespace * 65536 + generation * 8 + ObjectKind_tag kind) * 4294967296 + (index + 1).
Proof.
  intros Hi Hg. pose proof (tag_range kind).
  assert (GENERATION_MASK = 8191) by reflexivity.
  unfold ObjectId_new, NAMESPACE_SHIFT, GENERATION_SHIFT, GENERATION_BITS.
  change (3 + 13) with 16.
  assert (Z.shiftl generation 3 = generation * 8) as Hsg by (by rewrite Z.shiftl_mul_pow2 by lia).
  rewrite (lor_shiftl_add namespace) by (rewrite ?Hsg; lia).
  replace (namespace * 2 ^ 16 + Z.shiftl generation 3)
    with (Z.shiftl (namespace * 8192 + generation) 3)
    by (rewrite Hsg, Z.shiftl_mul_pow2 by lia; lia).
  rewrite lor_shiftl_add by lia. rewrite lor_shiftl_add by lia. lia.
Qed.

(** The fields [locate] extracts, as quotients and remainders. *)
Lemma locate_fields raw :
  Z.land raw U32_MAX = raw mod 4294967296 /\
  Z.land (Z.shiftr raw 32) KIND_MASK = (raw / 4294967296) mod 8 /\
  Z.shiftr (Z.shiftr raw 32) NAMESPACE_SHIFT = raw / 4294967296 / 65536 /\
  Z.land (Z.shiftr (Z.shiftr raw 32) GENERATION_SHIFT) GENERATION_MASK =
    (raw / 4294967296 / 8) mod 8192.
Proof.
  unfold NAMESPACE_SHIFT, GENERATION_SHIFT, GENERATION_BITS, KIND_MASK.
  change (3 + 13) with 16. change GENERATION_MASK with (Z.ones 13).
  change U32_MAX with (Z.ones 32). change 7 with (Z.ones 3).
  rewrite !Z.land_ones, !Z.shiftr_div_pow2 by lia. done.
Qed.

(** An identifier is determined by its fields. *)
Lemma ObjectId_fields raw index namespace generation kind :
  0 <= index < U32_MAX -> 0 <= generation <= GENERATION_MASK ->
  (raw = ObjectId_new index namespace generation kind <->
   Z.land raw U32_MAX = index + 1 /\
   Z.land (Z.shiftr raw 32) KIND_MASK = ObjectKind_tag kind /\
   Z.shiftr (Z.shiftr raw 32) NAMESPACE_SHIFT = namespace /\
   Z.land (Z.shiftr (Z.shiftr raw 32) GENERATION_SHIFT) GENERATION_MASK = generation).
Proof.
  intros Hi Hg. rewrite ObjectId_new_value by done.
  destruct (locate_fields raw) as (-> & -> & -> & ->).
  assert (GENERATION_MASK = 8191) by reflexivity.
  pose proof (tag_range kind). set (k := ObjectKind_tag kind) in *.
  Z.div_mod_to_equations. lia.
Qed.

Section Facts.
Context {T : Type}.
Implicit Types (t : ObjectTable T) (id : ObjectId) (i j : nat) (s : Slot T) (v : T).

Lemma wf_index t i s : table_wf t -> ot_slots t !! i = Some s -> 0 <= Z.of_nat i < U32_MAX.
Proof.
  intros Hwf Hi. apply lookup_lt_Some in Hi.
  pose proof (tw_len t Hwf). pose proof (tw_max t Hwf). unfold zlen in *. lia.
Qed.

(** [locate] finds exactly the occupied slots, under their current identity. *)
Lemma locate_Ok t id i :
  table_wf t ->
  (locate t id = Ok i <->
   exists s v, ot_slots t !! i = Some s /\ sl_value s = Some v /\ id = slot_id t i s).
Proof.
  intros Hwf. unfold locate, slot_id. split.
  - intros H. case_match eqn:H0; [done|]. case_match eqn:Hk; [done|].
    case_match eqn:Hn; [done|].
    destruct (ot_slots t !! Z.to_nat (Z.land id U32_MAX - 1)) as [s|] eqn:Hs; [|done].
    case_match eqn:Hc; [done|]. bool_to_prop. simplify_eq.
    destruct (sl_value s) as [v|] eqn:Hv; [|done].
    exists s, v. split_and!; [done..|].
    pose proof (wf_index _ _ _ Hwf Hs).
    apply ObjectId_fields; [done|by eapply tw_gen|].
    split_and!; try done.
    destruct (locate_fields id) as (Hl & _).
    pose proof (Z.mod_pos_bound id 4294967296). lia.
  - intros (s & v & Hs & Hv & ->).
    pose proof (wf_index _ _ _ Hwf Hs). pose proof (tw_gen t Hwf _ _ Hs).
    destruct (proj1 (ObjectId_fields
      (ObjectId_new (Z.of_nat i) (ot_namespace t) (sl_generation s) (ot_kind t))
      _ _ _ _ ltac:(done) ltac:(done)) eq_refl) as (H1 & H2 & H3 & H4).
    rewrite H1, H2, H3, H4, !Z.eqb_refl. simpl. zcmp.
    replace (Z.to_nat (Z.of_nat i + 1 - 1)) with i by lia.
    rewrite Hs, Z.eqb_refl, Hv. simpl.
    destruct (sl_retired s) eqn:Hr; [|done].
    destruct (tw_retired t Hwf i s Hs Hr). congruence.
Qed.

Lemma get_Ok t id v :
  table_wf t ->
  (ObjectTable_get id t = Ok v <->
   exists i s, ot_slots t !! i = Some s /\ sl_value s = Some v /\ id = slot_id t i s).
Proof.
  intros Hwf. unfold ObjectTable_get. split.
  - destruct (locate t id) as [i|] eqn:Hl; [|done].
    apply locate_Ok in Hl as (s & v' & Hs & Hv & ->); [|done].
    rewrite Hs, Hv. simpl. intros. simplify_eq. eauto.
  - intros (i & s & Hs & Hv & ->).
    assert (locate t (slot_id t i s) = Ok i) as -> by (apply locate_Ok; eauto).
    by rewrite Hs, Hv.
Qed.

(** The slot and the generation of an identifier are unique. *)
Lemma slot_id_inj t i s j s' :
  table_wf t -> ot_slots t !! i = Some s -> ot_slots t !! j = Some s' ->
  slot_id t i s = slot_id t j s' -> i = j /\ s = s'.
Proof.
  intros Hwf Hi Hj Heq. pose proof (wf_index _ _ _ Hwf Hi). pose proof (wf_index _ _ _ Hwf Hj).
  pose proof (tw_gen t Hwf _ _ Hi). pose proof (tw_gen t Hwf _ _ Hj).
  assert (GENERATION_MASK = 8191) by reflexivity. pose proof (tag_range (ot_kind t)).
  unfold slot_id in Heq. rewrite !ObjectId_new_value in Heq by done.
  assert (i = j) as -> by lia. split; [done|]. congruence.
Qed.

(** The error of a failed lookup depends on the identifier and on the kind and
    namespace of the table only, unless it is [StaleId]. *)
Definition static_error t id : option ObjectTableError :=
  if Z.land id U32_MAX =? 0 then Some InvalidId
  else if negb (Z.land (Z.shiftr id 32) KIND_MASK =? ObjectKind_tag (ot_kind t)) then Some WrongKind
  else if negb (Z.shiftr (Z.shiftr id 32) NAMESPACE_SHIFT =? ot_namespace t) then Some StaleId
  else None.

Lemma get_alt t id :
  ObjectTable_get id t =
    match lookup_id id t with
    | Some v => Ok v
    | None => Err (default StaleId (static_error t id))
    end.
Proof.
  unfold lookup_id. destruct (ObjectTable_get id t) as [v|e] eqn:H; [done|]. f_equal.
  unfold ObjectTable_get, locate, static_error in *.
  destruct (Z.land id U32_MAX =? 0); [by simplify_eq/=|].
  destruct (negb (_ =? ObjectKind_tag _)); [by simplify_eq/=|].
  destruct (negb (_ =? ot_namespace t)); [by simplify_eq/=|]. simpl.
  destruct (ot_slots t !! _) as [s|] eqn:Hs; [|by simplify_eq/=].
  destruct (_ || _); [by simplify_eq/=|].
  rewrite Hs in H. by destruct (sl_value s); simplify_eq/=.
Qed.

(** Two tables of the same kind and namespace that resolve an identifier alike
    answer alike, errors included. *)
Lemma get_ext t t' id :
  ot_kind t' = ot_kind t -> ot_namespace t' = ot_namespace t ->
  lookup_id id t' = lookup_id id t -> ObjectTable_get id t' = ObjectTable_get id t.
Proof. intros Hk Hn Hl. rewrite !get_alt, Hl. unfold static_error. by rewrite Hk, Hn. Qed.

Lemma lookup_id_Some t id v :
  lookup_id id t = Some v <-> ObjectTable_get id t = Ok v.
Proof. unfold lookup_id. case_match; naive_solver. Qed.

Lemma lookup_id_spec t id v :
  table_wf t ->
  (lookup_id id t = Some v <->
   exists i s, ot_slots t !! i = Some s /\ sl_value s = Some v /\ id = slot_id t i s).
Proof. intros. rewrite lookup_id_Some. by apply get_Ok. Qed.

Lemma get_mut_Ok t id v put :
  ObjectTable_get_mut id t = Ok (v, put) ->
  ObjectTable_get id t = Ok v /\
  exists i, locate t id = Ok i /\ put = (fun v' => table_put i v' t).
Proof.
  unfold ObjectTable_get_mut, ObjectTable_get. intros H.
  destruct (locate t id) as [i|] eqn:Hl; [|done].
  destruct (ot_slots t !! i) as [s|]; [|done].
  destruct (sl_value s) as [w|]; simpl in *; simplify_eq. split; [done|]. by exists i.
Qed.

Lemma get_mut_Err t id e : ObjectTable_get_mut id t = Err e <-> ObjectTable_get id t = Err e.
Proof.
  unfold ObjectTable_get_mut, ObjectTable_get.
  destruct (locate t id) as [i|]; [|naive_solver].
  destruct (ot_slots t !! i) as [s|]; [|naive_solver]. destruct (sl_value s); simpl; naive_solver.
Qed.

(** ** Storing through a reference, inserting, removing *)

Lemma with_slots_id t l slots free i s :
  slot_id (with_slots t l slots free) i s = slot_id t i s.
Proof. done. Qed.

(** How a table that replaces slot [i] resolves identifiers. *)
Lemma lookup_replace t t' i s s' :
  table_wf t -> table_wf t' ->
  ot_kind t' = ot_kind t -> ot_namespace t' = ot_namespace t ->
  ot_slots t !! i = Some s -> ot_slots t' = <[i := s']> (ot_slots t) ->
  forall id, id <> slot_id t i s -> id <> slot_id t i s' ->
  lookup_id id t' = lookup_id id t.
Proof.
  intros Hwf Hwf' Hk Hn Hi Hslots id Hne Hne'. apply option_eq. intros v.
  rewrite !lookup_id_spec by done.
  assert (Hid : forall j x, slot_id t' j x = slot_id t j x)
    by (intros; unfold slot_id; by rewrite Hk, Hn).
  rewrite Hslots. split; intros (j & x & Hj & Hv & ->); rewrite ?Hid in *.
  - apply list_lookup_insert_Some in Hj as [(-> & <- & _)|[? Hj]]; [done|]. by exists j, x.
  - exists j, x. rewrite Hid. split_and!; try done.
    rewrite list_lookup_insert_ne; [done|]. intros ->. by simplify_eq.
Qed.

Lemma put_wf t id i v :
  table_wf t -> locate t id = Ok i -> table_wf (table_put i v t).
Proof.
  intros Hwf Hl. apply locate_Ok in Hl as (s & w & Hs & Hw & ->); [|done].
  assert (sl_retired s = false) as Hr.
  { destruct (sl_retired s) eqn:Hr; [|done]. destruct (tw_retired t Hwf i s Hs Hr). congruence. }
  unfold table_put. rewrite Hs. destruct Hwf. split; simpl; auto.
  - unfold zlen in *. by rewrite length_insert.
  - intros j x [(-> & <- & _)|[? Hj]]%list_lookup_insert_Some; simpl; eauto.
  - intros j x [(-> & <- & _)|[? Hj]]%list_lookup_insert_Some; simpl; [congruence|eauto].
  - intros j. rewrite tw_free0. split; intros (x & Hx & Hv & Hr').
    + exists x. rewrite list_lookup_insert_ne; [done|]. intros ->. congruence.
    + apply list_lookup_insert_Some in Hx as [(-> & <- & _)|[? Hj]]; simpl in *; [done|eauto].
  - rewrite tw_live0. erewrite sum_by_insert by done.
    unfold occupied. rewrite Hw. simpl. lia.
Qed.

Lemma put_get_eq t id i v :
  table_wf t -> locate t id = Ok i -> ObjectTable_get id (table_put i v t) = Ok v.
Proof.
  intros Hwf Hl. pose proof (put_wf t id i v Hwf Hl).
  apply locate_Ok in Hl as (s & w & Hs & Hw & ->); [|done].
  apply get_Ok; [done|]. unfold table_put. rewrite Hs. simpl.
  do 2 eexists. rewrite list_lookup_insert_eq by by eapply lookup_lt_Some. done.
Qed.

Lemma put_get_ne t id i v id' :
  table_wf t -> locate t id = Ok i -> id' <> id ->
  ObjectTable_get id' (table_put i v t) = ObjectTable_get id' t.
Proof.
  intros Hwf Hl Hne. pose proof (put_wf t id i v Hwf Hl) as Hwf'.
  apply locate_Ok in Hl as (s & w & Hs & Hw & ->); [|done].
  unfold table_put in *. rewrite Hs in *. apply get_ext; [done..|].
  by eapply lookup_replace.
Qed.

Lemma put_sum t id i v w f :
  table_wf t -> locate t id = Ok i -> ObjectTable_get id t = Ok w ->
  table_sum f (table_put i v t) = table_sum f t - f w + f v.
Proof.
  intros Hwf Hl Hg. unfold ObjectTable_get in Hg. rewrite Hl in Hg.
  unfold table_sum, table_put. destruct (ot_slots t !! i) as [s|] eqn:Hs; [|done]. simpl.
  erewrite sum_by_insert by done. simpl. destruct (sl_value s); simplify_eq/=. done.
Qed.

(** There is a slot for the next insertion. *)
Definition has_room t : Prop := ot_free t <> [] \/ zlen (ot_slots t) < ot_max_slots t.

Lemma try_reserve_insert_Ok mem t : try_reserve_insert mem t = Ok tt -> has_room t.
Proof.
  unfold try_reserve_insert, has_room. destruct (ot_free t) eqn:?; [|by left].
  destruct (Z.leb_spec (ot_max_slots t) (zlen (ot_slots t))); [done|]. intros. right. lia.
Qed.

(** The slot an insertion fills and the generation it gives the identifier. *)
Lemma insert_prepared_cases t v t' id :
  table_wf t -> has_room t -> insert_prepared v t = (t', id) ->
  (exists i s free, ot_free t = i :: free /\ ot_slots t !! i = Some s /\
     sl_value s = None /\ sl_retired s = false /\ id = slot_id t i s /\
     t' = with_slots t (ot_live t + 1)
            (<[i := {| sl_generation := sl_generation s; sl_value := Some v;
                       sl_retired := false |}]> (ot_slots t)) free) \/
  (ot_free t = [] /\ zlen (ot_slots t) < ot_max_slots t /\
   id = ObjectId_new (zlen (ot_slots t)) (ot_namespace t) 0 (ot_kind t) /\
   t' = with_slots t (ot_live t + 1)
          (ot_slots t ++ [{| sl_generation := 0; sl_value := Some v; sl_retired := false |}]) []).
Proof.
  intros Hwf Hroom. unfold insert_prepared. destruct (ot_free t) as [|i free] eqn:Hf.
  - intros. simplify_eq. right. destruct Hroom; [done|]. unfold zlen in *. by split_and!.
  - assert (i ∈ ot_free t) as Hin by (rewrite Hf; set_solver).
    apply (tw_free t Hwf) in Hin as (s & Hs & Hv & Hr).
    rewrite Hs, Hr. intros. simplify_eq. left. by exists i, s, free.
Qed.

Lemma insert_prepared_wf t v t' id :
  table_wf t -> has_room t -> insert_prepared v t = (t', id) -> table_wf t'.
Proof.
  intros Hwf Hroom H. apply insert_prepared_cases in H
    as [(i & s & free & Hf & Hs & Hv & Hr & -> & ->)|(Hf & Hlen & -> & ->)]; [| |done..].
  - pose proof (tw_free t Hwf) as Hfree. pose proof (tw_free_nodup t Hwf) as Hnd.
    rewrite Hf in Hfree, Hnd. inversion Hnd as [|? ? Hni Hnd']; subst.
    destruct Hwf. split; simpl; auto.
    + unfold zlen in *. by rewrite length_insert.
    + intros j x [(-> & <- & _)|[? Hj]]%list_lookup_insert_Some; simpl; eauto.
    + intros j x [(-> & <- & _)|[? Hj]]%list_lookup_insert_Some; simpl; [congruence|eauto].
    + intros j. destruct (decide (j = i)) as [->|Hne].
      * split; [done|]. rewrite list_lookup_insert_eq by by eapply lookup_lt_Some.
        intros (x & ? & ? & ?). by simplify_eq.
      * rewrite list_lookup_insert_ne by done. rewrite <- Hfree. set_solver.
    + rewrite tw_live0. erewrite sum_by_insert by done.
      unfold occupied. rewrite Hv. simpl. lia.
  - pose proof (tw_free t Hwf) as Hfree. rewrite Hf in Hfree.
    assert (0 <= GENERATION_MASK) by (by vm_compute).
    destruct Hwf. split; simpl; auto.
    + rewrite zlen_app. unfold zlen in *. simpl. lia.
    + intros j x [Hj|[_ Hj]]%lookup_app_Some; [eauto|].
      apply list_lookup_singleton_Some in Hj as [_ <-]. simpl. lia.
    + intros j x [Hj|[_ Hj]]%lookup_app_Some; [eauto|].
      apply list_lookup_singleton_Some in Hj as [_ <-]. done.
    + intros j. rewrite Hfree. split; intros (x & Hx & Hv & Hr).
      * exists x. by rewrite lookup_app_l_Some with (x := x).
      * apply lookup_app_Some in Hx as [Hx|[_ Hx]]; [eauto|].
        apply list_lookup_singleton_Some in Hx as [_ <-]. done.
    + constructor.
    + rewrite tw_live0, sum_by_app. unfold occupied at 3. unfold sum_by at 3. simpl. lia.
Qed.

Lemma insert_prepared_same t v t' id :
  insert_prepared v t = (t', id) ->
  ot_kind t' = ot_kind t /\ ot_namespace t' = ot_namespace t /\ ot_max_slots t' = ot_max_slots t.
Proof. unfold insert_prepared. intros. repeat case_match; by simplify_eq. Qed.

Lemma insert_get_eq t v t' id :
  table_wf t -> has_room t -> insert_prepared v t = (t', id) -> ObjectTable_get id t' = Ok v.
Proof.
  intros Hwf Hroom H. pose proof (insert_prepared_wf _ _ _ _ Hwf Hroom H) as Hwf'.
  apply get_Ok; [done|]. apply insert_prepared_cases in H
    as [(i & s & free & Hf & Hs & Hv & Hr & -> & ->)|(Hf & Hlen & -> & ->)]; [| |done..]; simpl.
  - do 2 eexists. rewrite list_lookup_insert_eq by by eapply lookup_lt_Some. done.
  - exists (length (ot_slots t)). eexists. rewrite lookup_app_r, Nat.sub_diag by lia. done.
Qed.

(** The identifier of an insertion is fresh: it resolved to nothing before. *)
Lemma insert_fresh t v t' id :
  table_wf t -> has_room t -> insert_prepared v t = (t', id) -> ObjectTable_get id t = Err StaleId.
Proof.
  intros Hwf Hroom H. rewrite get_alt.
  assert (static_error t id = None) as Hst.
  { pose proof (insert_get_eq _ _ _ _ Hwf Hroom H) as Hg.
    destruct (insert_prepared_same _ _ _ _ H) as (Hk & Hn & _).
    unfold static_error. rewrite <- Hk, <- Hn. unfold ObjectTable_get, locate in Hg.
    repeat case_match; by simplify_eq. }
  rewrite Hst. destruct (lookup_id id t) as [w|] eqn:Hl; [|done]. exfalso.
  apply lookup_id_spec in Hl as (j & x & Hj & Hx & Hid); [|done].
  apply insert_prepared_cases in H
    as [(i & s & free & Hf & Hs & Hv & Hr & -> & ->)|(Hf & Hlen & -> & ->)]; [| |done..].
  - apply slot_id_inj in Hid as [-> ->]; [|done..]. congruence.
  - unfold slot_id in Hid. pose proof (wf_index _ _ _ Hwf Hj). pose proof (tw_gen t Hwf _ _ Hj).
    pose proof (zlen_nonneg (ot_slots t)). pose proof (tw_max t Hwf).
    assert (0 <= 0 <= GENERATION_MASK) by (vm_compute; done).
    rewrite !ObjectId_new_value in Hid by lia.
    assert (GENERATION_MASK = 8191) by reflexivity. pose proof (tag_range (ot_kind t)).
    apply lookup_lt_Some in Hj. unfold zlen in *. lia.
Qed.

Lemma insert_get_ne t v t' id id' :
  table_wf t -> has_room t -> insert_prepared v t = (t', id) -> id' <> id ->
  ObjectTable_get id' t' = ObjectTable_get id' t.
Proof.
  intros Hwf Hroom H Hne. pose proof (insert_prepared_wf _ _ _ _ Hwf Hroom H) as Hwf'.
  destruct (insert_prepared_same _ _ _ _ H) as (Hk & Hn & _). apply get_ext; [done..|].
  apply insert_prepared_cases in H
    as [(i & s & free & Hf & Hs & Hv & Hr & -> & ->)|(Hf & Hlen & -> & ->)]; [| |done..].
  - by eapply lookup_replace.
  - apply option_eq. intros w. rewrite !lookup_id_spec by done. simpl.
    split; intros (j & x & Hj & Hx & ->).
    + apply lookup_app_Some in Hj as [Hj|[Hge Hj]]; [by exists j, x|].
      apply list_lookup_singleton_Some in Hj as [Hz <-]. exfalso. apply Hne.
      unfold slot_id, zlen. simpl. f_equal. lia.
    + exists j, x. by rewrite lookup_app_l_Some with (x := x).
Qed.

Lemma insert_sum t v t' id f :
  table_wf t -> has_room t -> insert_prepared v t = (t', id) ->
  table_sum f t' = table_sum f t + f v.
Proof.
  intros Hwf Hroom H. unfold table_sum. apply insert_prepared_cases in H
    as [(i & s & free & Hf & Hs & Hv & Hr & -> & ->)|(Hf & Hlen & -> & ->)]; [| |done..]; simpl.
  - erewrite sum_by_insert by done. rewrite Hv. simpl. lia.
  - rewrite sum_by_app. unfold sum_by at 2. simpl. lia.
Qed.

Lemma remove_cases t id t' r :
  table_wf t -> ObjectTable_remove id t = (t', r) ->
  (exists i s v, ot_slots t !! i = Some s /\ sl_value s = Some v /\ id = slot_id t i s /\
     r = Ok v /\ ObjectTable_get id t = Ok v /\
     ((sl_generation s = GENERATION_MASK /\
       t' = with_slots t (ot_live t - 1)
              (<[i := {| sl_generation := sl_generation s; sl_value := None;
                         sl_retired := true |}]> (ot_slots t)) (ot_free t)) \/
      (sl_generation s < GENERATION_MASK /\
       t' = with_slots t (ot_live t - 1)
              (<[i := {| sl_generation := sl_generation s + 1; sl_value := None;
                         sl_retired := false |}]> (ot_slots t)) (i :: ot_free t)))) \/
  (exists e, r = Err e /\ ObjectTable_get id t = Err e /\ t' = t).
Proof.
  intros Hwf. unfold ObjectTable_remove. destruct (locate t id) as [i|e] eqn:Hl.
  - pose proof Hl as Hl'. apply locate_Ok in Hl' as (s & v & Hs & Hv & ->); [|done].
    assert (sl_retired s = false) as Hr.
    { destruct (sl_retired s) eqn:Hr; [|done]. destruct (tw_retired t Hwf i s Hs Hr). congruence. }
    rewrite Hs, Hv, Hr. intros H. left. exists i, s, v.
    unfold ObjectTable_get. rewrite Hl, Hs, Hv. pose proof (tw_gen t Hwf _ _ Hs).
    destruct (Z.eqb_spec (sl_generation s) GENERATION_MASK); simplify_eq;
      (split_and!; [done..|]); [left|right; split; [lia|]]; done.
  - intros. simplify_eq. right. exists e. unfold ObjectTable_get. by rewrite Hl.
Qed.

Lemma remove_same t id t' r :
  ObjectTable_remove id t = (t', r) ->
  ot_kind t' = ot_kind t /\ ot_namespace t' = ot_namespace t /\ ot_max_slots t' = ot_max_slots t.
Proof. unfold ObjectTable_remove. intros. repeat case_match; by simplify_eq. Qed.

Lemma remove_wf t id t' r : table_wf t -> ObjectTable_remove id t = (t', r) -> table_wf t'.
Proof.
  intros Hwf H. apply remove_cases in H as [(i & s & v & Hs & Hv & -> & -> & Hg & Hc)|(e & -> & Hg & ->)];
    [|done|done].
  assert (i ∉ ot_free t) as Hni by (rewrite (tw_free t Hwf); intros (x & ? & ? & _); congruence).
  destruct Hc as [[Hgen ->]|[Hgen ->]]; destruct Hwf; split; simpl; auto;
    try (unfold zlen in *; by rewrite length_insert).
  1, 5: intros j x [(-> & <- & _)|[? Hj]]%list_lookup_insert_Some; simpl; eauto;
    specialize (tw_gen0 _ _ Hs); lia.
  1, 4: intros j x [(-> & <- & _)|[? Hj]]%list_lookup_insert_Some; simpl; [done|eauto].
  2, 5: rewrite tw_live0; erewrite sum_by_insert by done; unfold occupied; rewrite Hv; simpl; lia.
  - intros j. rewrite tw_free0. destruct (decide (j = i)) as [->|Hne].
    + rewrite list_lookup_insert_eq by by eapply lookup_lt_Some. naive_solver.
    + by rewrite list_lookup_insert_ne by done.
  - intros j. rewrite elem_of_cons, tw_free0. destruct (decide (j = i)) as [->|Hne].
    + rewrite list_lookup_insert_eq by by eapply lookup_lt_Some.
      split; [|by left]. intros _. by eexists.
    + rewrite list_lookup_insert_ne by done. naive_solver.
  - by constructor.
Qed.

Lemma remove_get_ne t id t' v id' :
  table_wf t -> ObjectTable_remove id t = (t', Ok v) -> id' <> id ->
  ObjectTable_get id' t' = ObjectTable_get id' t.
Proof.
  intros Hwf H Hne. pose proof (remove_wf _ _ _ _ Hwf H) as Hwf'.
  destruct (remove_same _ _ _ _ H) as (Hk & Hn & _). apply get_ext; [done..|].
  apply option_eq. intros w. rewrite !lookup_id_spec by done.
  apply remove_cases in H as [(i & s & v' & Hs & Hv & -> & ? & Hg & Hc)|(e & ? & Hg & ->)];
    [|done|done].
  destruct Hc as [[Hgen ->]|[Hgen ->]]; simpl; split; intros (j & x & Hj & Hx & ->);
    try (apply list_lookup_insert_Some in Hj as [(-> & <- & _)|[? Hj]]; [done|]; by exists j, x);
    (exists j, x; rewrite list_lookup_insert_ne; [done|]; intros ->; by simplify_eq).
Qed.

Lemma remove_get_eq t id t' v :
  table_wf t -> ObjectTable_remove id t = (t', Ok v) -> ObjectTable_get id t' = Err StaleId.
Proof.
  intros Hwf H. pose proof (remove_wf _ _ _ _ Hwf H) as Hwf'. rewrite get_alt.
  destruct (remove_same _ _ _ _ H) as (Hk & Hn & _).
  apply remove_cases in H as [(i & s & v' & Hs & Hv & -> & ? & Hg & Hc)|(e & ? & Hg & ->)];
    [|done|done].
  assert (static_error t' (slot_id t i s) = None) as ->.
  { unfold static_error. rewrite Hk, Hn. unfold ObjectTable_get, locate in Hg.
    repeat case_match; by simplify_eq. }
  destruct (lookup_id _ t') as [w|] eqn:Hl; [|done]. exfalso.
  apply lookup_id_spec in Hl as (j & x & Hj & Hx & Hid); [|done].
  assert (Hij : j = i /\ sl_generation x = sl_generation s).
  { unfold slot_id in Hid. rewrite Hk, Hn in Hid.
    pose proof (wf_index _ _ _ Hwf Hs). pose proof (wf_index _ _ _ Hwf' Hj).
    pose proof (tw_gen t Hwf _ _ Hs). pose proof (tw_gen t' Hwf' _ _ Hj).
    rewrite !ObjectId_new_value in Hid by done. pose proof (tag_range (ot_kind t)).
    assert (GENERATION_MASK = 8191) by reflexivity. lia. }
  destruct Hij as [-> Hgen'].
  destruct Hc as [[Hgen ->]|[Hgen ->]]; simpl in Hj;
    rewrite list_lookup_insert_eq in Hj by (by eapply lookup_lt_Some); by simplify_eq.
Qed.

Lemma remove_sum t id t' v f :
  table_wf t -> ObjectTable_remove id t = (t', Ok v) -> table_sum f t' = table_sum f t - f v.
Proof.
  intros Hwf H. unfold table_sum.
  apply remove_cases in H as [(i & s & v' & Hs & Hv & -> & ? & Hg & Hc)|(e & ? & Hg & ->)];
    [|done|done]. simplify_eq.
  destruct Hc as [[Hgen ->]|[Hgen ->]]; simpl; erewrite sum_by_insert by done; rewrite Hv; simpl; lia.
Qed.

(** ** Refinement to a finite map *)

Lemma elem_of_entries t i slots id v :
  (id, v) ∈ entries_from t i slots <->
  exists j s, slots !! j = Some s /\ sl_value s = Some v /\ id = slot_id t (i + j) s.
Proof.
  revert i. induction slots as [|s rest IH]; intros i; simpl.
  - split; [by intros ?%not_elem_of_nil|]. by intros (? & ? & ? & _).
  - destruct (sl_value s) as [w|] eqn:Hv.
    + rewrite elem_of_cons, IH. split.
      * intros [?|(j & x & Hj & Hx & ->)]; simplify_eq.
        -- exists O, s. by rewrite Nat.add_0_r.
        -- exists (S j), x. by rewrite <- Nat.add_succ_comm.
      * intros ([|j] & x & Hj & Hx & ->); simplify_eq/=; [left; by rewrite Nat.add_0_r|].
        right. exists j, x. by rewrite Nat.add_succ_r.
    + rewrite IH. split.
      * intros (j & x & Hj & Hx & ->). exists (S j), x. by rewrite <- Nat.add_succ_comm.
      * intros ([|j] & x & Hj & Hx & ->); simplify_eq/=.
        exists j, x. by rewrite Nat.add_succ_r.
Qed.

Lemma entries_lookup t id v :
  table_wf t -> (id, v) ∈ entries_from t 0 (ot_slots t) <-> lookup_id id t = Some v.
Proof. intros Hwf. by rewrite elem_of_entries, lookup_id_spec. Qed.

(** The identifiers of the entries are the enumerated ones, without repetition. *)
Lemma ids_entries t i slots : ids_from t i slots = (entries_from t i slots).*1.
Proof.
  revert i. induction slots as [|s rest IH]; intros i; simpl; [done|].
  destruct (sl_value s); csimpl; by rewrite IH.
Qed.

Lemma ids_NoDup t : table_wf t -> NoDup (ObjectTable_ids t).
Proof.
  intros Hwf. unfold ObjectTable_ids. rewrite ids_entries.
  enough (forall slots i, (forall j s, slots !! j = Some s -> ot_slots t !! (i + j)%nat = Some s) ->
    NoDup (entries_from t i slots).*1) as H by (by apply H).
  induction slots as [|s rest IH]; intros i Hsub; simpl; [constructor|].
  assert (Hrest : forall j x, rest !! j = Some x -> ot_slots t !! (S i + j)%nat = Some x).
  { intros j x Hj. rewrite Nat.add_succ_comm. by apply Hsub. }
  destruct (sl_value s) as [v|] eqn:Hv; csimpl; [|by apply IH].
  constructor; [|by apply IH].
  intros ((id & w) & Heq & Hin)%list_elem_of_fmap. simpl in Heq. subst id.
  apply elem_of_entries in Hin as (j & x & Hj & Hx & Hid).
  apply slot_id_inj in Hid; [lia|done| |by apply Hrest].
  specialize (Hsub O s eq_refl). by rewrite Nat.add_0_r in Hsub.
Qed.

Lemma lookup_to_map t id : table_wf t -> to_map t !! id = lookup_id id t.
Proof.
  intros Hwf. apply option_eq. intros v. rewrite <- entries_lookup by done. symmetry.
  apply elem_of_list_to_map. rewrite <- ids_entries. by apply ids_NoDup.
Qed.

(** The cursor walk of the reset passes finds the next occupied slot. *)
Lemma find_id_Some t i slots n id :
  find_id t i slots = Some (n, id) ->
  exists j s v, slots !! j = Some s /\ sl_value s = Some v /\
    n = S (i + j) /\ id = slot_id t (i + j) s.
Proof.
  revert i. induction slots as [|s rest IH]; intros i H; simpl in H; [done|].
  destruct (sl_retired s || _) eqn:Hc.
  - apply IH in H as (j & x & v & Hj & Hx & -> & ->).
    exists (S j), x, v. by rewrite <- Nat.add_succ_comm.
  - destruct (sl_value s) as [v|] eqn:Hv; [|by rewrite orb_true_r in Hc].
    simplify_eq. exists O, s, v. by rewrite Nat.add_0_r.
Qed.

Lemma next_id_from_Some t start n id :
  table_wf t -> next_id_from start t = Some (n, id) ->
  (start < n <= length (ot_slots t))%nat /\
  exists v, ObjectTable_get id t = Ok v /\ locate t id = Ok (n - 1)%nat.
Proof.
  intros Hwf H. apply find_id_Some in H as (j & s & v & Hj & Hv & -> & ->).
  rewrite lookup_drop in Hj. pose proof (lookup_lt_Some _ _ _ Hj). split; [lia|].
  exists v. split; [apply get_Ok; eauto|]. apply locate_Ok; [done|].
  replace (S (start + j) - 1)%nat with (start + j)%nat by lia. eauto.
Qed.

Lemma find_id_None t i slots :
  find_id t i slots = None ->
  forall j s, slots !! j = Some s -> sl_value s = None \/ sl_retired s = true.
Proof.
  revert i. induction slots as [|x rest IH]; intros i H j s Hj; simpl in H; [done|].
  destruct (sl_retired x || _) eqn:Hc; [|done].
  destruct j as [|j]; simpl in Hj; simplify_eq; [|by eapply IH].
  destruct (sl_value s); [|by left]. rewrite orb_false_r in Hc. by right.
Qed.

(** ** Identifiers over the life of a table *)

(** A table with the identifiers it has issued, newest first, and the steps a
    client can take: insert, store through a reference, remove. *)
Inductive table_step : ObjectTable T * list ObjectId -> ObjectTable T * list ObjectId -> Prop :=
  | step_insert mem v t t' id issued :
      ObjectTable_insert mem v t = (t', Ok id) -> table_step (t, issued) (t', id :: issued)
  | step_put id v w put t issued :
      ObjectTable_get_mut id t = Ok (w, put) -> table_step (t, issued) (put v, issued)
  | step_remove id v t t' issued :
      ObjectTable_remove id t = (t', Ok v) -> table_step (t, issued) (t', issued).

(** Identifier [id] names slot [i] in a generation that is over: past, or the
    last one of a retired slot. *)
Definition dead t id : Prop :=
  exists i s g, ot_slots t !! i = Some s /\
    id = ObjectId_new (Z.of_nat i) (ot_namespace t) g (ot_kind t) /\
    0 <= g <= sl_generation s /\ (g = sl_generation s -> sl_retired s = true).

Definition alive t id : Prop := is_Some (lookup_id id t).

Lemma dead_get t id : table_wf t -> dead t id -> ObjectTable_get id t = Err StaleId.
Proof.
  intros Hwf (i & s & g & Hs & -> & Hg & Hret).
  pose proof (wf_index _ _ _ Hwf Hs). pose proof (tw_gen t Hwf _ _ Hs).
  assert (0 <= g <= GENERATION_MASK) as Hg' by lia.
  destruct (proj1 (ObjectId_fields (ObjectId_new (Z.of_nat i) (ot_namespace t) g (ot_kind t))
    _ _ _ _ ltac:(done) Hg') eq_refl) as (H1 & H2 & H3 & H4).
  unfold ObjectTable_get, locate. rewrite H1, H2, H3, H4, !Z.eqb_refl. simpl. zcmp.
  replace (Z.to_nat (Z.of_nat i + 1 - 1)) with i by lia. rewrite Hs.
  destruct (Z.eqb_spec (sl_generation s) g) as [<-|]; [|done]. by rewrite Hret.
Qed.

Lemma alive_not_dead t id : table_wf t -> alive t id -> ~ dead t id.
Proof.
  intros Hwf [v Hv] Hd. apply dead_get in Hd; [|done].
  apply lookup_id_Some in Hv. congruence.
Qed.

Lemma insert_Ok_prepared mem v t t' id :
  ObjectTable_insert mem v t = (t', Ok id) -> has_room t /\ insert_prepared v t = (t', id).
Proof.
  unfold ObjectTable_insert. destruct (try_reserve_insert mem t) as [[]|] eqn:Hr; [|done].
  apply try_reserve_insert_Ok in Hr. destruct (insert_prepared v t). by intros [= -> ->].
Qed.

(** What a step does to the well-formedness, to the slots and to every dead
    identifier. *)
Lemma step_wf t l t' l' : table_wf t -> table_step (t, l) (t', l') -> table_wf t'.
Proof.
  intros Hwf H. inversion H as [mem v ? ? id ? Hi|id v w put ? ? Hp|id v ? ? ? Hr]; subst.
  - apply insert_Ok_prepared in Hi as [? ?]. by eapply insert_prepared_wf.
  - apply get_mut_Ok in Hp as [_ (i & ? & ->)]. by eapply put_wf.
  - by eapply remove_wf.
Qed.

(** Dead identifiers survive a replacement of slots that does not lower a
    generation or revive a retired slot. *)
Lemma dead_mono t t' id :
  ot_kind t' = ot_kind t -> ot_namespace t' = ot_namespace t ->
  (forall i s, ot_slots t !! i = Some s -> exists s', ot_slots t' !! i = Some s' /\
     sl_generation s <= sl_generation s' /\
     (sl_generation s' = sl_generation s -> sl_retired s = true -> sl_retired s' = true)) ->
  dead t id -> dead t' id.
Proof.
  intros Hk Hn Hmono (i & s & g & Hs & -> & Hg & Hret).
  destruct (Hmono _ _ Hs) as (s' & Hs' & Hle & Hr). exists i, s', g. rewrite Hk, Hn.
  split_and!; [done..|lia|lia|]. intros ->. apply Hr; [lia|]. apply Hret. lia.
Qed.

Ltac slot_mono i s' :=
  intros j x Hj; destruct (decide (j = i)) as [->|];
    [ exists s'; rewrite list_lookup_insert_eq by (by eapply lookup_lt_Some);
      simplify_eq/=; repeat split; auto; try lia
    | exists x; rewrite list_lookup_insert_ne by done; repeat split; auto; lia ].

Lemma step_dead t l t' l' id :
  table_wf t -> table_step (t, l) (t', l') -> dead t id -> dead t' id.
Proof.
  intros Hwf H. inversion H as [mem v ? ? id' ? Hi|id' v w put ? ? Hp|id' v ? ? ? Hr]; subst.
  - apply insert_Ok_prepared in Hi as [Hroom Hi].
    destruct (insert_prepared_same _ _ _ _ Hi) as (Hk & Hn & _). apply dead_mono; [done..|].
    apply insert_prepared_cases in Hi
      as [(i & s & free & Hf & Hs & Hv & Hr & -> & ->)|(Hf & Hlen & -> & ->)]; [| |done..]; simpl.
    + slot_mono i {| sl_generation := sl_generation s; sl_value := Some v; sl_retired := false |}.
      congruence.
    + intros j x Hj. exists x. rewrite lookup_app_l_Some with (x := x) by done. repeat split; auto. lia.
  - apply get_mut_Ok in Hp as [_ (i & Hl & ->)].
    apply locate_Ok in Hl as (s & w' & Hs & Hw & ->); [|done].
    unfold table_put. rewrite Hs. apply dead_mono; [done..|]. simpl.
    slot_mono i {| sl_generation := sl_generation s; sl_value := Some v;
                   sl_retired := sl_retired s |}.
  - destruct (remove_same _ _ _ _ Hr) as (Hk & Hn & _). apply dead_mono; [done..|].
    apply remove_cases in Hr as [(i & s & v' & Hs & Hv & -> & ? & Hg & Hc)|(e & ? & Hg & ->)];
      [|done|done].
    destruct Hc as [[Hgen ->]|[Hgen ->]]; simpl.
    + slot_mono i {| sl_generation := sl_generation s; sl_value := @None T; sl_retired := true |}.
    + slot_mono i {| sl_generation := sl_generation s + 1; sl_value := @None T;
                     sl_retired := false |}.
Qed.

(** Removal kills the identifier. *)
Lemma remove_dead t id t' v : table_wf t -> ObjectTable_remove id t = (t', Ok v) -> dead t' id.
Proof.
  intros Hwf H. destruct (remove_same _ _ _ _ H) as (Hk & Hn & _).
  apply remove_cases in H as [(i & s & v' & Hs & Hv & -> & ? & Hg & Hc)|(e & ? & Hg & ->)];
    [|done|done].
  pose proof (tw_gen t Hwf _ _ Hs).
  unfold dead, slot_id. rewrite Hk, Hn.
  destruct Hc as [[Hgen ->]|[Hgen ->]]; simpl; do 3 eexists;
    (split; [rewrite list_lookup_insert_eq by (by eapply lookup_lt_Some); done|]);
    (split; [done|]); simpl; split; (try lia); done.
Qed.

(** Every issued identifier is alive or dead. *)
Record history_ok t (issued : list ObjectId) : Prop := {
  ho_wf : table_wf t;
  ho_nodup : NoDup issued;
  ho_status : forall id, id ∈ issued -> alive t id \/ dead t id;
}.

Lemma step_alive t l t' l' id :
  table_wf t -> table_step (t, l) (t', l') -> alive t id -> alive t' id \/ dead t' id.
Proof.
  intros Hwf H [v Hv]. unfold alive.
  inversion H as [mem v' ? ? id' ? Hi|id' v' w put ? ? Hp|id' v' ? ? ? Hr]; subst.
  - apply insert_Ok_prepared in Hi as [Hroom Hi]. left.
    assert (id <> id') as Hne.
    { intros ->. apply lookup_id_Some in Hv. by rewrite (insert_fresh _ _ _ _ Hwf Hroom Hi) in Hv. }
    unfold lookup_id in *. rewrite (insert_get_ne _ _ _ _ _ Hwf Hroom Hi Hne). by rewrite Hv.
  - apply get_mut_Ok in Hp as [_ (i & Hl & ->)]. left. unfold lookup_id in *.
    destruct (decide (id = id')) as [->|Hne].
    + by rewrite (put_get_eq _ _ _ _ Hwf Hl).
    + rewrite (put_get_ne _ _ _ _ _ Hwf Hl Hne). by rewrite Hv.
  - destruct (decide (id = id')) as [->|Hne]; [right; by eapply remove_dead|]. left.
    unfold lookup_id in *. rewrite (remove_get_ne _ _ _ _ _ Hwf Hr Hne). by rewrite Hv.
Qed.

Lemma step_history t l t' l' :
  history_ok t l -> table_step (t, l) (t', l') -> history_ok t' l'.
Proof.
  intros [Hwf Hnd Hst] H. pose proof (step_wf _ _ _ _ Hwf H) as Hwf'.
  assert (Hold : forall id, id ∈ l -> alive t' id \/ dead t' id).
  { intros id [?|?]%Hst; [by apply (step_alive _ _ _ _ _ Hwf H)|].
    right. by apply (step_dead _ _ _ _ _ Hwf H). }
  inversion H as [mem v' ? ? id' ? Hi|id' v' w put ? ? Hp|id' v' ? ? ? Hr]; subst;
    try (by split).
  apply insert_Ok_prepared in Hi as [Hroom Hi]. split; [done| |].
  - constructor; [|done]. intros [Ha|Hd]%Hst.
    + destruct Ha as [w Hw]. apply lookup_id_Some in Hw.
      by rewrite (insert_fresh _ _ _ _ Hwf Hroom Hi) in Hw.
    + apply (step_dead _ _ _ _ _ Hwf H) in Hd.
      eapply alive_not_dead; [exact Hwf'| |exact Hd]. unfold alive, lookup_id.
      by rewrite (insert_get_eq _ _ _ _ Hwf Hroom Hi).
  - intros id [->|Hin]%elem_of_cons; [|by apply Hold]. left. unfold alive, lookup_id.
    by rewrite (insert_get_eq _ _ _ _ Hwf Hroom Hi).
Qed.

Lemma steps_history c c' :
  rtc table_step c c' -> history_ok c.1 c.2 -> history_ok c'.1 c'.2.
Proof.
  induction 1 as [|[t l] [t' l'] c' Hs _ IH]; [done|]. intros. apply IH. by eapply step_history.
Qed.

Lemma steps_dead c c' id :
  rtc table_step c c' -> table_wf c.1 -> dead c.1 id -> table_wf c'.1 /\ dead c'.1 id.
Proof.
  induction 1 as [|[t l] [t' l'] c' Hs _ IH]; [done|]. intros. simpl in *.
  apply IH; [by eapply step_wf|by eapply step_dead].
Qed.

Lemma with_namespace_wf kind max_slots namespace :
  is_u32 max_slots -> is_u16 namespace ->
  table_wf (ObjectTable_with_namespace (T := T) kind max_slots namespace).
Proof.
  intros. split; simpl; auto; try done; try (by constructor).
  - unfold zlen. simpl. lia.
  - intros i. split; [by intros ?%not_elem_of_nil|]. by intros (? & ? & _).
Qed.

Lemma with_namespace_history kind max_slots namespace :
  is_u32 max_slots -> is_u16 namespace ->
  history_ok (ObjectTable_with_namespace (T := T) kind max_slots namespace) [].
Proof. intros. split; [by apply with_namespace_wf|constructor|]. by intros ? ?%not_elem_of_nil. Qed.

End Facts.

(** ** Properties *)

(** The four fields packed into an identifier are recovered exactly by the
    shifts and masks of [locate], and the identifier is a nonzero [u64]. *)
Theorem ObjectId_roundtrip index namespace generation kind :
  0 <= index < U32_MAX -> is_u16 namespace -> 0 <= generation <= GENERATION_MASK ->
  let raw := ObjectId_new index namespace generation kind in
  Z.land raw U32_MAX = index + 1 /\
  Z.land (Z.shiftr raw 32) KIND_MASK = ObjectKind_tag kind /\
  Z.shiftr (Z.shiftr raw 32) NAMESPACE_SHIFT = namespace /\
  Z.land (Z.shiftr (Z.shiftr raw 32) GENERATION_SHIFT) GENERATION_MASK = generation /\
  is_u64 raw /\ ObjectId_from_raw raw = Some raw.
Proof.
  intros Hi Hn Hg raw.
  destruct (proj1 (ObjectId_fields raw _ _ _ _ Hi Hg) eq_refl) as (H1 & H2 & H3 & H4).
  assert (GENERATION_MASK = 8191) by reflexivity. pose proof (tag_range kind).
  pose proof (ObjectId_new_value index namespace generation kind Hi Hg) as Hv.
  fold raw in Hv. split_and!; [done..|lia|lia|].
  unfold ObjectId_from_raw, nonzero. by zcmp.
Qed.

Lemma ObjectId_roundtrip_witness :
  Z.land (ObjectId_new 4294967294 65535 8191 KindEvent) U32_MAX = 4294967295.
Proof. apply (ObjectId_roundtrip 4294967294 65535 8191 KindEvent); [lia|lia|vm_compute; done]. Defined.

(** C9: the table implements a finite map keyed by identifiers: lookup reads
    the map, an insertion binds an identifier that was unbound, a store through
    a reference rebinds, a removal unbinds, a refused removal changes nothing,
    and each keeps the table well formed. *)
Theorem table_refines_map {T} (t : ObjectTable T) :
  table_wf t ->
  (forall id, ObjectTable_get id t =
     match to_map t !! id with
     | Some v => Ok v
     | None => Err (default StaleId (static_error t id))
     end) /\
  (forall mem v t' id, ObjectTable_insert mem v t = (t', Ok id) ->
     table_wf t' /\ to_map t !! id = None /\ to_map t' = <[id := v]> (to_map t)) /\
  (forall id w put v, ObjectTable_get_mut id t = Ok (w, put) ->
     table_wf (put v) /\ to_map t !! id = Some w /\ to_map (put v) = <[id := v]> (to_map t)) /\
  (forall id t' v, ObjectTable_remove id t = (t', Ok v) ->
     table_wf t' /\ to_map t !! id = Some v /\ to_map t' = delete id (to_map t)) /\
  (forall id t' e, ObjectTable_remove id t = (t', Err e) ->
     t' = t /\ ObjectTable_get id t = Err e).
Proof.
  intros Hwf. split_and!.
  - intros id. rewrite lookup_to_map by done. apply get_alt.
  - intros mem v t' id [Hroom Hi]%insert_Ok_prepared.
    pose proof (insert_prepared_wf _ _ _ _ Hwf Hroom Hi) as Hwf'. split_and!; [done| |].
    + rewrite lookup_to_map by done. unfold lookup_id.
      by rewrite (insert_fresh _ _ _ _ Hwf Hroom Hi).
    + apply map_eq. intros k. rewrite lookup_to_map by done. unfold lookup_id.
      destruct (decide (k = id)) as [->|Hne].
      * by rewrite lookup_insert_eq, (insert_get_eq _ _ _ _ Hwf Hroom Hi).
      * by rewrite lookup_insert_ne, lookup_to_map, (insert_get_ne _ _ _ _ _ Hwf Hroom Hi Hne).
  - intros id w put v [Hg (i & Hl & ->)]%get_mut_Ok.
    pose proof (put_wf _ _ _ v Hwf Hl). split_and!; [done| |].
    + rewrite lookup_to_map by done. by apply lookup_id_Some.
    + apply map_eq. intros k. rewrite lookup_to_map by done. unfold lookup_id.
      destruct (decide (k = id)) as [->|Hne].
      * by rewrite lookup_insert_eq, (put_get_eq _ _ _ _ Hwf Hl).
      * by rewrite lookup_insert_ne, lookup_to_map, (put_get_ne _ _ _ _ _ Hwf Hl Hne).
  - intros id t' v Hr. pose proof (remove_wf _ _ _ _ Hwf Hr). split_and!; [done| |].
    + rewrite lookup_to_map by done. apply lookup_id_Some.
      by apply remove_cases in Hr as [(? & ? & ? & ? & ? & ? & ? & ? & _)|(? & ? & _)]; simplify_eq.
    + apply map_eq. intros k. rewrite lookup_to_map by done. unfold lookup_id.
      destruct (decide (k = id)) as [->|Hne].
      * by rewrite lookup_delete_eq, (remove_get_eq _ _ _ _ Hwf Hr).
      * by rewrite lookup_delete_ne, lookup_to_map, (remove_get_ne _ _ _ _ _ Hwf Hr Hne).
  - intros id t' e Hr.
    by apply remove_cases in Hr as [(? & ? & ? & ? & ? & ? & ? & _)|(? & ? & ? & ->)]; simplify_eq.
Qed.

Lemma table_refines_map_witness :
  let t := ObjectTable_with_namespace (T := Z) KindBuffer 2 1 in
  table_wf t /\ forall t' id, ObjectTable_insert true 7 t = (t', Ok id) -> to_map t' = {[ id := 7 ]}.
Proof.
  intros t. assert (Hwf : table_wf t) by (apply with_namespace_wf; lia). split; [done|].
  intros t' id H. by apply (table_refines_map t Hwf) in H as (_ & _ & ->).
Defined.

(** An identifier that was removed never resolves again: whatever
    insertions, stores and removals follow, looking it up is [StaleId]. *)
Theorem removed_id_stays_stale {T} (t t' : ObjectTable T) id v issued c :
  table_wf t -> ObjectTable_remove id t = (t', Ok v) ->
  rtc table_step (t', issued) c -> ObjectTable_get id c.1 = Err StaleId.
Proof.
  intros Hwf Hr Hc. eapply steps_dead in Hc as [? ?]; simpl.
  - by apply dead_get.
  - by eapply remove_wf.
  - by eapply remove_dead.
Qed.

Lemma removed_id_stays_stale_witness :
  let t := (ObjectTable_insert true 7 (ObjectTable_with_namespace (T := Z) KindBuffer 2 1)).1 in
  let id := ObjectId_new 0 1 0 KindBuffer in
  let t1 := (ObjectTable_remove id t).1 in
  let t2 := (ObjectTable_insert true 8 t1).1 in
  let c := (t2, [ObjectId_new 0 1 1 KindBuffer]) in
  ObjectTable_get (ObjectId_new 0 1 1 KindBuffer) c.1 = Ok 8 /\
  ObjectTable_get id c.1 = Err StaleId.
Proof.
  intros t id t1 t2 c.
  assert (Hwf : table_wf t).
  { apply (step_wf (ObjectTable_with_namespace (T := Z) KindBuffer 2 1) [] t [id]);
      [apply with_namespace_wf; lia|]. apply (step_insert true 7). by vm_compute. }
  assert (Hr : ObjectTable_remove id t = (t1, Ok 7)) by (by vm_compute).
  assert (Hc : rtc table_step (t1, []) c).
  { apply rtc_once. apply (step_insert true 8). by vm_compute. }
  split; [by vm_compute|]. exact (removed_id_stays_stale t t1 id 7 [] c Hwf Hr Hc).
Defined.

(** A table never issues the same identifier twice: along every run from
    an empty table the issued identifiers are pairwise distinct, also across
    slot reuse and generation exhaustion. *)
Theorem issued_ids_distinct {T} kind max_slots namespace (c : ObjectTable T * list ObjectId) :
  is_u32 max_slots -> is_u16 namespace ->
  rtc table_step (ObjectTable_with_namespace kind max_slots namespace, []) c ->
  NoDup c.2 /\ table_wf c.1.
Proof.
  intros Hm Hn Hc. apply steps_history in Hc as [? ? _]; [done|].
  by apply with_namespace_history.
Qed.

Lemma issued_ids_distinct_witness :
  let t0 := ObjectTable_with_namespace (T := Z) KindQueue 1 3 in
  let t1 := (ObjectTable_insert true 7 t0).1 in
  let t2 := (ObjectTable_remove (ObjectId_new 0 3 0 KindQueue) t1).1 in
  let t3 := (ObjectTable_insert true 8 t2).1 in
  let c := (t3, [ObjectId_new 0 3 1 KindQueue; ObjectId_new 0 3 0 KindQueue]) in
  NoDup c.2 /\ table_wf c.1.
Proof.
  intros t0 t1 t2 t3 c. apply (issued_ids_distinct KindQueue 1 3 c); [lia|lia|].
  apply (rtc_l _ _ (t1, [ObjectId_new 0 3 0 KindQueue]));
    [apply (step_insert true 7); by vm_compute|].
  apply (rtc_l _ _ (t2, [ObjectId_new 0 3 0 KindQueue]));
    [apply (step_remove (ObjectId_new 0 3 0 KindQueue) 7); by vm_compute|].
  apply rtc_once. apply (step_insert true 8). by vm_compute.
Defined.
