(* ===== verification/Regions.v ===== *)
(** * Segmented byte ports ([crates/virtio-accel-device/src/regions.rs])

    A descriptor chain reaches the device as a list of segments.  The
    segmented source and sink present such a list as one byte string, and the
    readable and writable regions restrict a port to a subrange.  The theorems
    say that each of them is the port over the flat byte string it stands for. *)

From Stdlib Require Import ZArith Lia.
From stdpp Require Import prelude list.
From S2P Require Import Prelude Core.

Inductive SegmentedRegionError := SegEmpty | SegZeroLength | SegLengthOverflow.

Definition checked_range_u64 (offset bytes len : Z) : result unit BackendError :=
  let? stop := ok_or (checked_add U64_MAX offset bytes) BeOutOfBounds in
  if len <? stop then Err BeOutOfBounds else Ok tt.

Definition checked_range (offset bytes len : Z) : result unit BackendError :=
  let? bytes := ok_or (try_from U64_MAX bytes) BeOutOfBounds in
  checked_range_u64 offset bytes len.

(** The loop of [checked_segment_len] with its [count] and [total]. *)
Fixpoint segment_len_loop (count total : Z) (lengths : list Z) : result (Z * Z) SegmentedRegionError :=
  match lengths with
  | [] => Ok (count, total)
  | len :: rest =>
      if len =? 0 then Err SegZeroLength
      else
        let? total := ok_or (checked_add U64_MAX total len) SegLengthOverflow in
        segment_len_loop (count + 1) total rest
  end.

Definition checked_segment_len (lengths : list Z) : result Z SegmentedRegionError :=
  let? (count, total) := segment_len_loop 0 0 lengths in
  if count =? 0 then Err SegEmpty else Ok total.

(** ** [SegmentedSource] *)

Record SegmentedSource := {
  ss_segments : list (list Z);
  ss_len : Z;
}.

Definition SegmentedSource_new (segments : list (list Z)) :
    result SegmentedSource SegmentedRegionError :=
  let? len := checked_segment_len (map zlen segments) in
  Ok {| ss_segments := segments; ss_len := len |}.

(** The copy loop: [written] is the part of the target already filled, [n] the
    length of the target. *)
Fixpoint segmented_read (segments : list (list Z)) (skip : Z) (written : list Z) (n : Z) :
    result (list Z) BackendError :=
  match segments with
  | [] => Err BeOutOfBounds
  | segment :: rest =>
      let segment_len := zlen segment in
      if segment_len <=? skip then segmented_read rest (skip - segment_len) written n
      else
        let start := skip in
        let count := Z.min (zlen segment - start) (n - zlen written) in
        let written := written ++ slice start count segment in
        if zlen written =? n then Ok written else segmented_read rest 0 written n
  end.

Definition SegmentedSource_port (self : SegmentedSource) : ByteSource := {|
  src_len := ss_len self;
  src_read_at := fun offset n =>
    let? _ := checked_range offset n (ss_len self) in
    if n =? 0 then Ok [] else segmented_read (ss_segments self) offset [] n;
  src_as_contiguous :=
    match ss_segments self with
    | [segment] => Some segment
    | _ => None
    end;
|}.

(** ** [SegmentedSink] *)

Record SegmentedSink := {
  sk_segments : list (list Z);
  sk_len : Z;
}.

Definition SegmentedSink_new (segments : list (list Z)) :
    result SegmentedSink SegmentedRegionError :=
  let? len := checked_segment_len (map zlen segments) in
  Ok {| sk_segments := segments; sk_len := len |}.

Fixpoint segmented_write (segments : list (list Z)) (skip read : Z) (source : list Z) :
    list (list Z) * result unit BackendError :=
  match segments with
  | [] => ([], Err BeOutOfBounds)
  | segment :: rest =>
      let segment_len := zlen segment in
      if segment_len <=? skip then
        let '(rest, r) := segmented_write rest (skip - segment_len) read source in
        (segment :: rest, r)
      else
        let start := skip in
        let count := Z.min (zlen segment - start) (zlen source - read) in
        let segment := splice start (slice read count source) segment in
        let read := read + count in
        if read =? zlen source then (segment :: rest, Ok tt)
        else
          let '(rest, r) := segmented_write rest 0 read source in
          (segment :: rest, r)
  end.

Definition SegmentedSink_write_at (offset : Z) (source : list Z) (self : SegmentedSink) :
    SegmentedSink * result unit BackendError :=
  match checked_range offset (zlen source) (sk_len self) with
  | Err e => (self, Err e)
  | Ok _ =>
      if zlen source =? 0 then (self, Ok tt)
      else
        let '(segments, r) := segmented_write (sk_segments self) offset 0 source in
        ({| sk_segments := segments; sk_len := sk_len self |}, r)
  end.

#[global] Instance SegmentedSink_sink : ByteSink SegmentedSink := {|
  sink_len := sk_len;
  sink_write_at := SegmentedSink_write_at;
|}.

(** ** [ReadableRegion] *)

Record ReadableRegion := {
  rr_source : ByteSource;
  rr_offset : Z;
  rr_len : Z;
}.

Definition ReadableRegion_new (source : ByteSource) (offset len : Z) :
    result ReadableRegion BackendError :=
  let? _ := checked_range_u64 offset len (src_len source) in
  Ok {| rr_source := source; rr_offset := offset; rr_len := len |}.

Definition ReadableRegion_port (self : ReadableRegion) : ByteSource := {|
  src_len := rr_len self;
  src_read_at := fun offset n =>
    let? _ := checked_range offset n (rr_len self) in
    let? source_offset := ok_or (checked_add U64_MAX (rr_offset self) offset) BeOutOfBounds in
    src_read_at (rr_source self) source_offset n;
  src_as_contiguous :=
    match try_from USIZE_MAX (rr_offset self), try_from USIZE_MAX (rr_len self) with
    | Some start, Some len =>
        match checked_add USIZE_MAX start len, src_as_contiguous (rr_source self) with
        | Some stop, Some bytes => if stop <=? zlen bytes then Some (slice start len bytes) else None
        | _, _ => None
        end
    | _, _ => None
    end;
|}.

(** ** [WritableRegion] *)

Record WritableRegion (S : Type) := {
  wr_sink : S;
  wr_offset : Z;
  wr_len : Z;
}.
Arguments Build_WritableRegion {S}.
Arguments wr_sink {S}.
Arguments wr_offset {S}.
Arguments wr_len {S}.

Definition WritableRegion_new {S} `{ByteSink S} (sink : S) (offset len : Z) :
    result (WritableRegion S) BackendError :=
  let? _ := checked_range_u64 offset len (sink_len sink) in
  Ok {| wr_sink := sink; wr_offset := offset; wr_len := len |}.

Definition WritableRegion_write_at {S} `{ByteSink S} (offset : Z) (source : list Z)
    (self : WritableRegion S) : WritableRegion S * result unit BackendError :=
  match checked_range offset (zlen source) (wr_len self) with
  | Err e => (self, Err e)
  | Ok _ =>
      match checked_add U64_MAX (wr_offset self) offset with
      | None => (self, Err BeOutOfBounds)
      | Some sink_offset =>
          let '(sink, r) := sink_write_at sink_offset source (wr_sink self) in
          ({| wr_sink := sink; wr_offset := wr_offset self; wr_len := wr_len self |}, r)
      end
  end.

#[global] Instance WritableRegion_sink {S} `{ByteSink S} : ByteSink (WritableRegion S) := {|
  sink_len := wr_len;
  sink_write_at := WritableRegion_write_at;
|}.

(** ** Lemmas *)

Lemma checked_range_u64_spec offset bytes len :
  len <= U64_MAX ->
  checked_range_u64 offset bytes len =
    if offset + bytes <=? len then Ok tt else Err BeOutOfBounds.
Proof.
  intros. unfold checked_range_u64, checked_add.
  destruct (Z.leb_spec (offset + bytes) U64_MAX); simpl; [|by zcmp].
  destruct (Z.ltb_spec len (offset + bytes)); by zcmp.
Qed.

Lemma checked_range_spec offset bytes len :
  0 <= offset -> len <= U64_MAX ->
  checked_range offset bytes len = if offset + bytes <=? len then Ok tt else Err BeOutOfBounds.
Proof.
  intros. unfold checked_range, try_from.
  destruct (Z.leb_spec bytes U64_MAX); simpl; [by apply checked_range_u64_spec|by zcmp].
Qed.

Lemma segment_len_loop_spec lengths count total :
  Forall (fun n => 0 <= n) lengths -> 0 <= total <= U64_MAX ->
  match segment_len_loop count total lengths with
  | Ok (c, t) => c = count + zlen lengths /\ t = total + sum_by (fun n => n) lengths /\ t <= U64_MAX /\
      Forall (fun n => n <> 0) lengths
  | Err _ => U64_MAX < total + sum_by (fun n => n) lengths \/ Exists (fun n => n = 0) lengths
  end.
Proof.
  intros Hpos. revert count total. unfold sum_by.
  induction Hpos as [|n ns Hn Hns IH]; intros count total Ht; simpl.
  { unfold zlen. simpl. repeat split; auto; lia. }
  assert (0 <= foldr (fun x acc => x + acc) 0 ns).
  { clear -Hns. induction Hns; simpl; lia. }
  destruct (Z.eqb_spec n 0) as [->|Hnz]; [right; by constructor|].
  unfold checked_add. destruct (Z.leb_spec (total + n) U64_MAX); simpl; [|left; lia].
  specialize (IH (count + 1) (total + n) ltac:(lia)).
  destruct (segment_len_loop _ _ _) as [[c t]|].
  - destruct IH as (-> & -> & ? & ?). unfold zlen in *. simpl.
    repeat split; auto; lia.
  - destruct IH; [left; lia|right; by constructor 2].
Qed.

Lemma sum_zlen_concat {A} (ls : list (list A)) : sum_by (fun n => n) (map zlen ls) = zlen (concat ls).
Proof.
  unfold sum_by. induction ls as [|l ls IH]; simpl; [done|]. rewrite zlen_app, IH. done.
Qed.

Lemma zlen_Forall_nonneg {A} (ls : list (list A)) : Forall (fun n => 0 <= n) (map zlen ls).
Proof. apply Forall_map, Forall_true. intros. apply zlen_nonneg. Qed.

Lemma checked_segment_len_Ok {A} (ls : list (list A)) n :
  checked_segment_len (map zlen ls) = Ok n ->
  n = zlen (concat ls) /\ n <= U64_MAX /\ ls <> [] /\ Forall (fun l => l <> []) ls.
Proof.
  unfold checked_segment_len. intros H.
  pose proof (segment_len_loop_spec (map zlen ls) 0 0 (zlen_Forall_nonneg ls) ltac:(lia)) as Hs.
  destruct (segment_len_loop 0 0 _) as [[c t]|]; [|done].
  destruct Hs as (-> & -> & Ht & Hnz). destruct (Z.eqb_spec (0 + zlen (map zlen ls)) 0) as [|Hc]; [done|].
  simplify_eq. rewrite sum_zlen_concat in *. rewrite Forall_map in Hnz.
  split_and!; [lia|lia|by intros ->|]. eapply Forall_impl; [exact Hnz|]. by intros l ? ->.
Qed.

Lemma segmented_read_spec segments skip written n :
  0 <= skip -> zlen written < n ->
  skip + (n - zlen written) <= zlen (concat segments) ->
  segmented_read segments skip written n =
    Ok (written ++ slice skip (n - zlen written) (concat segments)).
Proof.
  revert skip written. induction segments as [|seg rest IH]; intros skip written Hs Hw Hle.
  { unfold zlen in Hle. simpl in Hle. unfold zlen in *. lia. }
  rewrite zlen_concat_cons in Hle. pose proof (zlen_nonneg seg). simpl.
  destruct (Z.leb_spec (zlen seg) skip).
  { rewrite IH by lia. by rewrite slice_app_r by done. }
  destruct (Z.le_gt_cases (n - zlen written) (zlen seg - skip)).
  - rewrite Z.min_r by lia. rewrite zlen_app, zlen_slice by lia. zcmp.
    by rewrite slice_app_l by lia.
  - rewrite Z.min_l by lia. rewrite zlen_app, zlen_slice by lia. zcmp.
    rewrite IH by (rewrite ?zlen_app, ?zlen_slice; lia).
    rewrite zlen_app, zlen_slice, <- app_assoc by lia. do 2 f_equal.
    rewrite <- (slice_app_l skip (zlen seg - skip) seg (concat rest)) by lia.
    replace (slice 0 (n - (zlen written + (zlen seg - skip))) (concat rest))
      with (slice (skip + (zlen seg - skip)) (n - zlen written - (zlen seg - skip)) (seg ++ concat rest))
      by (rewrite slice_app_r by lia; f_equal; lia).
    rewrite slice_app by lia. f_equal. lia.
Qed.

Lemma segmented_write_spec segments skip read source :
  0 <= skip -> 0 <= read < zlen source ->
  skip + (zlen source - read) <= zlen (concat segments) ->
  exists segments', segmented_write segments skip read source = (segments', Ok tt) /\
    concat segments' = splice skip (slice read (zlen source - read) source) (concat segments) /\
    map zlen segments' = map zlen segments.
Proof.
  revert skip read. induction segments as [|seg rest IH]; intros skip read Hs Hr Hle.
  { unfold zlen in *. simpl in *. lia. }
  rewrite zlen_concat_cons in Hle. pose proof (zlen_nonneg seg). simpl.
  destruct (Z.leb_spec (zlen seg) skip).
  { destruct (IH (skip - zlen seg) read) as (rest' & -> & Hc & Hl); [lia..|].
    eexists. split_and!; [done| |simpl; by rewrite Hl].
    simpl. by rewrite Hc, splice_app_r. }
  destruct (Z.le_gt_cases (zlen source - read) (zlen seg - skip)).
  - rewrite Z.min_r by lia. rewrite (proj2 (Z.eqb_eq _ _)) by lia. eexists. split_and!; [done| |].
    + simpl. rewrite splice_app_l; [done|lia|]. rewrite zlen_slice; lia.
    + simpl. rewrite zlen_splice; [done|lia|]. rewrite zlen_slice; lia.
  - rewrite Z.min_l by lia. rewrite (proj2 (Z.eqb_neq _ _)) by lia.
    destruct (IH 0 (read + (zlen seg - skip))) as (rest' & -> & Hc & Hl); [lia..|].
    set (c := zlen seg - skip) in *.
    assert (Hsl : zlen (slice read c source) = c) by (apply zlen_slice; lia).
    eexists. split_and!; [done| |].
    + simpl. rewrite Hc.
      replace (slice read (zlen source - read) source)
        with (slice read c source ++ slice (read + c) (zlen source - read - c) source)
        by (rewrite slice_app by lia; f_equal; lia).
      assert (zlen (slice (read + c) (zlen source - read - c) source) = zlen source - read - c)
        by (apply zlen_slice; lia).
      rewrite <- splice_app by (rewrite ?zlen_app; lia).
      rewrite Hsl, splice_app_l by lia.
      rewrite splice_app_r by (rewrite zlen_splice; lia). rewrite zlen_splice by lia.
      f_equal. f_equal; [lia|]. f_equal; lia.
    + simpl. rewrite zlen_splice by lia. by rewrite Hl.
Qed.

Definition SegmentedSink_inv (s : SegmentedSink) : Prop :=
  sk_len s = zlen (concat (sk_segments s)) /\ sk_len s <= U64_MAX.

Lemma SegmentedSink_write_at_spec offset src s :
  SegmentedSink_inv s -> 0 <= offset ->
  if offset + zlen src <=? zlen (concat (sk_segments s))
  then exists s', SegmentedSink_write_at offset src s = (s', Ok tt) /\ SegmentedSink_inv s' /\
    concat (sk_segments s') = splice offset src (concat (sk_segments s)) /\
    map zlen (sk_segments s') = map zlen (sk_segments s)
  else SegmentedSink_write_at offset src s = (s, Err BeOutOfBounds).
Proof.
  intros [Hlen Hmax] Ho. unfold SegmentedSink_write_at.
  rewrite checked_range_spec, Hlen by lia. pose proof (zlen_nonneg src).
  destruct (Z.leb_spec (offset + zlen src) (zlen (concat (sk_segments s)))); [|done].
  destruct (Z.eqb_spec (zlen src) 0) as [Hz|Hz].
  - exists s. split_and!; try done. destruct src; [by rewrite splice_nil|done].
  - destruct (segmented_write_spec (sk_segments s) offset 0 src) as (segs & -> & Hc & Hl); [lia..|].
    rewrite Z.sub_0_r, slice_all in Hc. eexists. split_and!; try done.
    split; simpl; [|lia]. rewrite Hc, zlen_splice by lia. done.
Qed.

#[global, refine] Instance SegmentedSink_spec : ByteSinkSpec SegmentedSink := {|
  sink_content := fun s => concat (sk_segments s);
  sink_inv := SegmentedSink_inv;
|}.
Proof.
  - by intros s [? ?].
  - intros s [? ?]. lia.
  - intros offset src s Hs Ho Hle. pose proof (SegmentedSink_write_at_spec offset src s Hs Ho) as H.
    rewrite (proj2 (Z.leb_le _ _)) in H by lia. destruct H as (s' & ? & ? & ? & _). by exists s'.
  - intros offset src s Hs Ho Hle. pose proof (SegmentedSink_write_at_spec offset src s Hs Ho) as H.
    by rewrite (proj2 (Z.leb_gt _ _)) in H by lia.
Defined.

Lemma ReadableRegion_port_source source content offset len r :
  source_of source content -> 0 <= offset -> 0 <= len ->
  ReadableRegion_new source offset len = Ok r ->
  source_of (ReadableRegion_port r) (slice offset len content) /\ offset + len <= zlen content.
Proof.
  intros [Hl Hb Hf Hr Hc] Ho Hn. unfold ReadableRegion_new.
  rewrite checked_range_u64_spec, Hl by lia.
  destruct (Z.leb_spec (offset + len) (zlen content)); [|done]. intros [= <-].
  split; [|done]. split; simpl.
  - by rewrite zlen_slice.
  - by apply is_bytes_slice.
  - rewrite zlen_slice; lia.
  - intros o n Ho' Hn' Hle. rewrite zlen_slice in Hle by lia.
    rewrite checked_range_spec by lia. zcmp. unfold checked_add. zcmp.
    rewrite Hr by lia. by rewrite slice_slice by lia.
  - intros c. unfold try_from, checked_add. zcmp.
    destruct (src_as_contiguous source) as [bytes|] eqn:E; [|done].
    rewrite (Hc _ eq_refl). zcmp. by intros [= <-].
Qed.

Section Writable.
Context {S : Type} `{ByteSinkSpec S}.

Definition WritableRegion_inv (w : WritableRegion S) : Prop :=
  sink_inv (wr_sink w) /\ 0 <= wr_offset w /\ 0 <= wr_len w /\
  wr_offset w + wr_len w <= zlen (sink_content (wr_sink w)).

(** A write through the region is the write at the shifted offset of the sink,
    and nothing outside the region changes. *)
Lemma WritableRegion_write_at_spec offset src w :
  WritableRegion_inv w -> 0 <= offset ->
  if offset + zlen src <=? wr_len w
  then exists w', WritableRegion_write_at offset src w = (w', Ok tt) /\ WritableRegion_inv w' /\
    wr_offset w' = wr_offset w /\ wr_len w' = wr_len w /\
    sink_content (wr_sink w') = splice (wr_offset w + offset) src (sink_content (wr_sink w))
  else WritableRegion_write_at offset src w = (w, Err BeOutOfBounds).
Proof.
  intros (Hi & Ho & Hn & Hle) Hoff. pose proof (sink_fits _ Hi). pose proof (zlen_nonneg src).
  unfold WritableRegion_write_at. rewrite checked_range_spec by lia.
  destruct (Z.leb_spec (offset + zlen src) (wr_len w)); [|done].
  unfold checked_add. zcmp.
  destruct (sink_write_ok (wr_offset w + offset) src (wr_sink w)) as (s' & -> & Hi' & Hc);
    [done|lia|lia|]. eexists. split_and!; try done. unfold WritableRegion_inv. simpl.
  rewrite Hc, zlen_splice by lia. auto.
Qed.

End Writable.

#[global, refine] Instance WritableRegion_spec {S} `{ByteSinkSpec S} : ByteSinkSpec (WritableRegion S) := {|
  sink_content := fun w => slice (wr_offset w) (wr_len w) (sink_content (wr_sink w));
  sink_inv := WritableRegion_inv;
|}.
Proof.
  - intros w (Hi & Ho & Hn & Hle). simpl. rewrite zlen_slice; lia.
  - intros w (Hi & Ho & Hn & Hle). rewrite zlen_slice by lia. pose proof (sink_fits _ Hi). lia.
  - intros offset src w Hw Ho Hle. pose proof Hw as (_ & ? & ? & ?). pose proof (zlen_nonneg src).
    rewrite zlen_slice in Hle by lia.
    pose proof (WritableRegion_write_at_spec offset src w Hw Ho) as Hs.
    rewrite (proj2 (Z.leb_le _ _)) in Hs by lia. destruct Hs as (w' & ? & ? & Ho' & Hl' & Hc).
    exists w'. split_and!; try done. rewrite Ho', Hl', Hc.
    apply list_eq. intros i. unfold slice.
    assert (Hlen : zlen (take (Z.to_nat (wr_len w))
      (drop (Z.to_nat (wr_offset w)) (sink_content (wr_sink w)))) = wr_len w)
      by (unfold zlen in *; rewrite length_take, length_drop; lia).
    rewrite lookup_splice by lia.
    destruct (decide (i < Z.to_nat (wr_len w))%nat).
    + rewrite !lookup_take_lt, !lookup_drop, lookup_splice by lia.
      repeat case_decide; try lia; try done. f_equal. lia.
    + rewrite !lookup_take_ge by lia. rewrite decide_False by lia. done.
  - intros offset src w Hw Ho Hgt. pose proof Hw as (_ & ? & ? & ?).
    rewrite zlen_slice in Hgt by lia.
    pose proof (WritableRegion_write_at_spec offset src w Hw Ho) as Hs.
    by rewrite (proj2 (Z.leb_gt _ _)) in Hs by lia.
Defined.

(** ** Properties *)

(** Reading a segmented source is reading the concatenation of its
    segments: a range inside it is returned whole, also across segment
    boundaries, any other range is refused, and a contiguous view, when there
    is one, is the whole content. *)
Theorem SegmentedSource_refines_concat segments s :
  Forall is_bytes segments -> SegmentedSource_new segments = Ok s ->
  source_of (SegmentedSource_port s) (concat segments) /\
  (forall offset n, 0 <= offset -> 0 <= n -> zlen (concat segments) < offset + n ->
     src_read_at (SegmentedSource_port s) offset n = Err BeOutOfBounds).
Proof.
  unfold SegmentedSource_new. intros Hb H.
  destruct (checked_segment_len _) as [len|] eqn:E; simplify_eq.
  apply checked_segment_len_Ok in E as (-> & Hmax & Hne & _). split; [split; simpl|simpl].
  - done.
  - clear -Hb. induction Hb; simpl; [constructor|]. by apply is_bytes_app.
  - done.
  - intros offset n Ho Hn Hle. rewrite checked_range_spec by lia. zcmp.
    destruct (Z.eqb_spec n 0) as [->|]; [done|].
    assert (zlen (@nil Z) = 0) as Hnil by done.
    rewrite segmented_read_spec by (rewrite ?Hnil; lia). by rewrite Hnil, Z.sub_0_r.
  - intros c. destruct segments as [|seg [|]]; try done. simpl. rewrite app_nil_r. congruence.
  - intros offset n Ho Hn Hgt. rewrite checked_range_spec by lia. by zcmp.
Qed.

Lemma SegmentedSource_refines_concat_witness :
  match SegmentedSource_new [[1; 2; 3]; [4; 5]] with
  | Ok s => src_read_at (SegmentedSource_port s) 1 3 = Ok [2; 3; 4]
  | Err _ => False
  end.
Proof.
  assert (H : SegmentedSource_new [[1; 2; 3]; [4; 5]] =
    Ok {| ss_segments := [[1; 2; 3]; [4; 5]]; ss_len := 5 |}) by reflexivity.
  rewrite H. destruct (SegmentedSource_refines_concat [[1; 2; 3]; [4; 5]] _
    ltac:(repeat constructor; lia) H) as [Hs _].
  rewrite (so_read _ _ Hs); [reflexivity|lia|lia|]. unfold zlen; simpl; lia.
Defined.

(** Writing a segmented sink is writing the concatenation of its segments:
    an access inside it replaces exactly that range and keeps the segment
    boundaries, any other is refused and changes nothing. *)
Theorem SegmentedSink_refines_concat segments s offset src :
  SegmentedSink_new segments = Ok s -> 0 <= offset ->
  if offset + zlen src <=? zlen (concat segments)
  then exists s', sink_write_at offset src s = (s', Ok tt) /\
    concat (sk_segments s') = splice offset src (concat segments) /\
    map zlen (sk_segments s') = map zlen segments
  else sink_write_at offset src s = (s, Err BeOutOfBounds).
Proof.
  unfold SegmentedSink_new. intros H Ho.
  destruct (checked_segment_len _) as [len|] eqn:E; simplify_eq.
  apply checked_segment_len_Ok in E as (-> & Hmax & _).
  pose proof (SegmentedSink_write_at_spec offset src
    {| sk_segments := segments; sk_len := zlen (concat segments) |} ltac:(done) Ho) as Hs.
  simpl in *. case_match; [|done]. destruct Hs as (s' & ? & ? & ? & ?). by exists s'.
Qed.

Lemma SegmentedSink_refines_concat_witness :
  match SegmentedSink_new [[0; 0]; [0; 0]] with
  | Ok s => exists s', sink_write_at 1 [7; 8] s = (s', Ok tt) /\ concat (sk_segments s') = [0; 7; 8; 0]
  | Err _ => False
  end.
Proof.
  destruct (SegmentedSink_new [[0; 0]; [0; 0]]) as [s|] eqn:E; [|done].
  destruct (SegmentedSink_refines_concat _ s 1 [7; 8] E ltac:(lia)) as (s' & ? & ? & _).
  by exists s'.
Defined.

(** A writable region confines every write to its range: inside it the
    sink changes exactly there, an access that leaves the range is refused and
    changes nothing, and the bytes before and after the region never change. *)
Theorem WritableRegion_confined {S} `{ByteSinkSpec S} (sink : S) offset len w o src w' r :
  sink_inv sink -> 0 <= offset -> 0 <= len -> 0 <= o ->
  WritableRegion_new sink offset len = Ok w -> sink_write_at o src w = (w', r) ->
  r = (if o + zlen src <=? len then Ok tt else Err BeOutOfBounds) /\
  slice 0 offset (sink_content (wr_sink w')) = slice 0 offset (sink_content sink) /\
  slice (offset + len) (zlen (sink_content sink) - (offset + len)) (sink_content (wr_sink w')) =
    slice (offset + len) (zlen (sink_content sink) - (offset + len)) (sink_content sink) /\
  (r = Ok tt -> slice offset len (sink_content (wr_sink w')) =
     splice o src (slice offset len (sink_content sink))).
Proof.
  intros Hi Ho Hn Hoo Hnew Hw. unfold WritableRegion_new in Hnew.
  pose proof (sink_fits _ Hi). rewrite (sink_len_spec _ Hi), checked_range_u64_spec in Hnew by lia.
  destruct (Z.leb_spec (offset + len) (zlen (sink_content sink))); simplify_eq.
  set (w := {| wr_sink := sink; wr_offset := offset; wr_len := len |}) in *.
  assert (Hinv : WritableRegion_inv w) by (by split_and!).
  pose proof (WritableRegion_write_at_spec o src w Hinv Hoo) as Hs. pose proof (zlen_nonneg src).
  simpl in *. destruct (Z.leb_spec (o + zlen src) len).
  - destruct Hs as (w2 & Hw2 & Hinv2 & Ho2 & Hl2 & Hc). rewrite Hw2 in Hw. simplify_eq.
    rewrite Hc. split_and!; [done|rewrite slice_splice_ne by lia; done
      |rewrite slice_splice_ne by lia; done|]. intros _.
    destruct (sink_write_ok o src w) as (w3 & Hw3 & _ & Hc3); [exact Hinv|done| |].
    { simpl. rewrite zlen_slice by lia. done. }
    simpl in Hw3, Hc3. rewrite Hw2 in Hw3. injection Hw3 as <-. by rewrite Hc in Hc3.
  - rewrite Hs in Hw. by simplify_eq.
Qed.

Lemma WritableRegion_confined_witness :
  exists w w', WritableRegion_new [1; 2; 3; 4; 5] 1 3 = Ok w /\ sink_write_at 1 [7; 8] w = (w', Ok tt) /\
    slice 1 3 (wr_sink w') = [2; 7; 8] /\ slice 0 1 (wr_sink w') = [1].
Proof.
  destruct (WritableRegion_new [1; 2; 3; 4; 5] 1 3) as [w|] eqn:E; [|done].
  destruct (sink_write_at 1 [7; 8] w) as [w' r] eqn:Hw.
  assert (Hr : r = Ok tt) by (injection E as <-; vm_compute in Hw; by injection Hw as <- <-).
  destruct (WritableRegion_confined [1; 2; 3; 4; 5] 1 3 w 1 [7; 8] w' r) as (_ & H1 & _ & H2);
    try done; try lia.
  exists w, w'. split; [reflexivity|]. split; [by rewrite Hw, Hr|]. split; [exact (H2 Hr)|exact H1].
Defined.
