(* ===== verification/Response.v ===== *)
(** * Response framing ([crates/virtio-accel-device/src/response.rs])

    A response is a 16-byte header followed by a payload.  The writer checks
    the frame length against the configured maximum and the capacity before it
    writes, exposes exactly the payload range to its caller, and writes the
    header last. *)

From Stdlib Require Import ZArith Lia.
From stdpp Require Import prelude list.
From S2P Require Import Prelude Codec Proto Core.

Definition RESPONSE_HEADER_BYTES : Z := size_of ResponseHeader.

Inductive ResponseWriteError :=
  | FrameTooLarge
  | InsufficientCapacity
  | SourceAccess
  | SinkAccess.

#[global] Instance ResponseWriteError_eq_dec : EqDecision ResponseWriteError.
Proof. solve_decision. Defined.

Record ResponseWriter (S : Type) := {
  rw_sink : S;
  rw_max_response_bytes : Z;
}.
Arguments Build_ResponseWriter {S}.
Arguments rw_sink {S}.
Arguments rw_max_response_bytes {S}.

(** The guard over the payload range of a preflighted frame. *)
Record ResponsePayload (S : Type) := {
  rp_sink : S;
  rp_payload_bytes : Z;
  rp_used : Z;
}.
Arguments Build_ResponsePayload {S}.
Arguments rp_sink {S}.
Arguments rp_payload_bytes {S}.
Arguments rp_used {S}.

Section Writer.
Context {S : Type} `{ByteSink S}.

(** [ResponseWriter::new] *)
Definition ResponseWriter_new (sink : S) (max_response_bytes : Z) : ResponseWriter S :=
  {| rw_sink := sink; rw_max_response_bytes := max_response_bytes |}.

Definition ResponseWriter_preflight (payload_bytes : Z) (self : ResponseWriter S) :
    result Z ResponseWriteError :=
  let? total := ok_or (checked_add U64_MAX RESPONSE_HEADER_BYTES payload_bytes) FrameTooLarge in
  if (rw_max_response_bytes self <? total) || (U32_MAX <? total) then Err FrameTooLarge
  else if sink_len (rw_sink self) <? total then Err InsufficientCapacity
  else Ok total.

Definition ResponseWriter_payload (payload_bytes : Z) (self : ResponseWriter S) :
    result (ResponsePayload S) ResponseWriteError :=
  let? used := ResponseWriter_preflight payload_bytes self in
  let? payload_bytes := ok_or (try_from U32_MAX payload_bytes) FrameTooLarge in
  Ok {| rp_sink := rw_sink self; rp_payload_bytes := payload_bytes; rp_used := used |}.

Definition write_header (status : StatusCode) (request_id payload_bytes : Z) (sink : S) :
    S * result unit ResponseWriteError :=
  let header := ResponseHeader_new status payload_bytes request_id in
  let '(sink, r) := sink_write_at 0 (as_bytes header) sink in
  (sink, map_err (fun _ => SinkAccess) r).

(** [commit] consumes the guard; the sink goes back to the owner of the writer. *)
Definition ResponsePayload_commit (status : StatusCode) (request_id : Z)
    (self : ResponsePayload S) : S * result Z ResponseWriteError :=
  let '(sink, r) := write_header status request_id (rp_payload_bytes self) (rp_sink self) in
  (sink, let? _ := r in Ok (rp_used self)).

Definition ResponsePayload_write_at (offset : Z) (source : list Z) (self : ResponsePayload S) :
    ResponsePayload S * result unit BackendError :=
  match try_from U64_MAX (zlen source) with
  | None => (self, Err BeOutOfBounds)
  | Some bytes =>
      match checked_add U64_MAX offset bytes with
      | None => (self, Err BeOutOfBounds)
      | Some stop =>
          if rp_payload_bytes self <? stop then (self, Err BeOutOfBounds)
          else
            let '(sink, r) := sink_write_at (RESPONSE_HEADER_BYTES + offset) source (rp_sink self) in
            ({| rp_sink := sink; rp_payload_bytes := rp_payload_bytes self;
                rp_used := rp_used self |}, r)
      end
  end.

#[global] Instance ResponsePayload_sink : ByteSink (ResponsePayload S) := {|
  sink_len := rp_payload_bytes;
  sink_write_at := ResponsePayload_write_at;
|}.

Definition SCRATCH_BYTES : Z := 4096.

(** The [while] loop of [write_response]; [fuel] bounds the iterations and is
    enough when [4096 * fuel] covers the bytes left. *)
Fixpoint copy_loop (fuel : nat) (payload : ByteSource) (payload_bytes offset : Z)
    (destination : ResponsePayload S) : ResponsePayload S * result unit ResponseWriteError :=
  if payload_bytes <=? offset then (destination, Ok tt)
  else
    match fuel with
    | O => (destination, Err SourceAccess)
    | Datatypes.S fuel =>
        let remaining := payload_bytes - offset in
        match try_from USIZE_MAX (Z.min remaining SCRATCH_BYTES) with
        | None => (destination, Err FrameTooLarge)
        | Some count =>
            match src_read_at payload offset count with
            | Err _ => (destination, Err SourceAccess)
            | Ok scratch =>
                let '(destination, r) := sink_write_at offset scratch destination in
                match r with
                | Err _ => (destination, Err SinkAccess)
                | Ok _ => copy_loop fuel payload payload_bytes (offset + count) destination
                end
            end
        end
    end.

Definition ResponseWriter_write_response (status : StatusCode) (request_id : Z)
    (payload : ByteSource) (self : ResponseWriter S) : S * result Z ResponseWriteError :=
  let payload_bytes := src_len payload in
  match ResponseWriter_payload payload_bytes self with
  | Err e => (rw_sink self, Err e)
  | Ok destination =>
      let '(destination, r) :=
        match src_as_contiguous payload with
        | Some contiguous =>
            let '(destination, r) := sink_write_at 0 contiguous destination in
            (destination, map_err (fun _ => SinkAccess) r)
        | None =>
            copy_loop (Datatypes.S (Z.to_nat (payload_bytes / SCRATCH_BYTES)))
              payload payload_bytes 0 destination
        end in
      match r with
      | Err e => (rp_sink destination, Err e)
      | Ok _ => ResponsePayload_commit status request_id destination
      end
  end.

Definition ResponseWriter_write_empty (status : StatusCode) (request_id : Z)
    (self : ResponseWriter S) : S * result Z ResponseWriteError :=
  match ResponseWriter_preflight 0 self with
  | Err e => (rw_sink self, Err e)
  | Ok used =>
      let '(sink, r) := write_header status request_id 0 (rw_sink self) in
      (sink, let? _ := r in Ok used)
  end.

End Writer.

(** ** The frame on the wire *)

Definition response_frame (status request_id : Z) (payload : list Z) : list Z :=
  as_bytes (ResponseHeader_new status (zlen payload) request_id) ++ payload.

(** The result of the length checks. *)
Definition frame_check (max capacity payload_bytes : Z) : result Z ResponseWriteError :=
  if (max <? 16 + payload_bytes) || (U32_MAX <? 16 + payload_bytes) then Err FrameTooLarge
  else if capacity <? 16 + payload_bytes then Err InsufficientCapacity
  else Ok (16 + payload_bytes).

Lemma zlen_header status request_id n :
  zlen (as_bytes (ResponseHeader_new status n request_id)) = 16.
Proof. unfold zlen, as_bytes. simpl. done. Qed.

Lemma zlen_response_frame status request_id payload :
  zlen (response_frame status request_id payload) = 16 + zlen payload.
Proof. unfold response_frame. by rewrite zlen_app, zlen_header. Qed.

Section Facts.
Context {S : Type} `{ByteSinkSpec S}.
Implicit Types (s : S) (p : ResponsePayload S).

Lemma preflight_spec s max n :
  sink_inv s -> 0 <= n ->
  ResponseWriter_preflight n (ResponseWriter_new s max) =
    frame_check max (zlen (sink_content s)) n.
Proof.
  intros Hs Hn. unfold ResponseWriter_preflight, frame_check. simpl.
  rewrite (sink_len_spec s Hs). change RESPONSE_HEADER_BYTES with 16. unfold checked_add.
  destruct (Z.leb_spec (16 + n) U64_MAX); simpl; [done|].
  rewrite (proj2 (Z.ltb_lt U32_MAX (16 + n))), orb_true_r by lia. done.
Qed.

(** The guard's view: the payload range lies inside the sink. *)
Definition payload_inv p : Prop :=
  sink_inv (rp_sink p) /\ 0 <= rp_payload_bytes p <= U32_MAX /\
  rp_used p = 16 + rp_payload_bytes p /\ rp_used p <= zlen (sink_content (rp_sink p)).

Lemma payload_spec s max n :
  sink_inv s -> 0 <= n ->
  match ResponseWriter_payload n (ResponseWriter_new s max) with
  | Ok p => frame_check max (zlen (sink_content s)) n = Ok (16 + n) /\ payload_inv p /\
      p = {| rp_sink := s; rp_payload_bytes := n; rp_used := 16 + n |}
  | Err e => frame_check max (zlen (sink_content s)) n = Err e
  end.
Proof.
  intros Hs Hn. unfold ResponseWriter_payload. rewrite preflight_spec by done.
  destruct (frame_check _ _ _) as [u|e] eqn:E; [|done].
  assert (u = 16 + n /\ 16 + n <= U32_MAX /\ 16 + n <= zlen (sink_content s)) as (-> & ? & ?).
  { unfold frame_check in E. repeat case_match; bool_to_prop; simplify_eq. lia. }
  unfold try_from. zcmp. split_and!; [done| |done]. split_and!; simpl; auto; lia.
Qed.

Lemma write_header_spec status request_id n s :
  sink_inv s -> 16 <= zlen (sink_content s) ->
  exists s', write_header status request_id n s = (s', Ok tt) /\ sink_inv s' /\
    sink_content s' = splice 0 (as_bytes (ResponseHeader_new status n request_id)) (sink_content s).
Proof.
  intros Hs Hlen. unfold write_header.
  destruct (sink_write_ok 0 (as_bytes (ResponseHeader_new status n request_id)) s)
    as (s' & -> & Hs' & Hc); [done|lia|rewrite zlen_header; lia|]. by exists s'.
Qed.

(** A write through the guard lands after the header. *)
Lemma payload_write_spec offset src p :
  payload_inv p -> 0 <= offset ->
  if offset + zlen src <=? rp_payload_bytes p
  then exists p', sink_write_at offset src p = (p', Ok tt) /\ payload_inv p' /\
    rp_payload_bytes p' = rp_payload_bytes p /\
    sink_content (rp_sink p') = splice (16 + offset) src (sink_content (rp_sink p))
  else sink_write_at offset src p = (p, Err BeOutOfBounds).
Proof.
  intros (Hs & Hb & Hu & Hle) Ho. simpl. unfold ResponsePayload_write_at, try_from, checked_add.
  pose proof (sink_fits _ Hs). pose proof (zlen_nonneg src).
  destruct (Z.leb_spec (zlen src) U64_MAX); [|by zcmp].
  destruct (Z.leb_spec (offset + zlen src) U64_MAX); [|by zcmp].
  destruct (Z.leb_spec (offset + zlen src) (rp_payload_bytes p)); zcmp; [|done].
  change RESPONSE_HEADER_BYTES with 16.
  destruct (sink_write_ok (16 + offset) src (rp_sink p)) as (s' & -> & Hs' & Hc); [done|lia|lia|].
  eexists. split_and!; try done. split_and!; simpl; auto; [lia|lia|]. rewrite Hc, zlen_splice; lia.
Qed.

Lemma commit_spec status request_id p :
  payload_inv p ->
  exists s', ResponsePayload_commit status request_id p = (s', Ok (rp_used p)) /\ sink_inv s' /\
    sink_content s' =
      splice 0 (as_bytes (ResponseHeader_new status (rp_payload_bytes p) request_id))
        (sink_content (rp_sink p)).
Proof.
  intros (Hs & Hb & Hu & Hle). unfold ResponsePayload_commit.
  destruct (write_header_spec status request_id (rp_payload_bytes p) (rp_sink p))
    as (s' & -> & Hs' & Hc); [done|lia|]. by exists s'.
Qed.

(** Payload first, header second is one write of the frame. *)
Lemma splice_frame status request_id payload (l : list Z) :
  16 + zlen payload <= zlen l ->
  splice 0 (as_bytes (ResponseHeader_new status (zlen payload) request_id))
    (splice 16 payload l) = splice 0 (response_frame status request_id payload) l.
Proof.
  intros. pose proof (zlen_nonneg payload). unfold response_frame.
  set (h := as_bytes _). assert (Hh : zlen h = 16) by apply zlen_header.
  apply list_eq. intros i.
  rewrite !lookup_splice; rewrite ?zlen_app, ?zlen_splice; try lia.
  rewrite Hh. unfold zlen in *. repeat case_decide; try lia; try done.
  - rewrite lookup_app_l by lia. done.
  - rewrite lookup_app_r by lia. f_equal. lia.
Qed.

(** A bounded copy: each iteration moves at most 4096 bytes, and the fuel
    suffices for the whole payload. *)
Lemma copy_loop_spec content payload fuel offset p :
  source_of payload content -> payload_inv p -> rp_payload_bytes p = zlen content ->
  0 <= offset <= zlen content -> zlen content - offset <= 4096 * Z.of_nat fuel ->
  exists p', copy_loop fuel payload (zlen content) offset p = (p', Ok tt) /\ payload_inv p' /\
    rp_payload_bytes p' = zlen content /\
    sink_content (rp_sink p') =
      splice (16 + offset) (slice offset (zlen content - offset) content) (sink_content (rp_sink p)).
Proof.
  assert (Hnil : forall l : list Z, splice (16 + zlen content) (slice (zlen content) 0 content) l = l).
  { intros l. unfold slice. rewrite take_0. apply splice_nil. }
  intros Hsrc. revert offset p. induction fuel as [|fuel IH]; intros offset p Hp Hn Ho Hf; simpl.
  { exists p. assert (offset = zlen content) as -> by lia.
    rewrite Z.sub_diag, Hnil, (proj2 (Z.leb_le _ _)) by lia. done. }
  destruct (Z.leb_spec (zlen content) offset) as [Hge|Hlt].
  { exists p. assert (offset = zlen content) as -> by lia. by rewrite Z.sub_diag, Hnil. }
  pose proof (so_fits _ _ Hsrc). unfold try_from. change SCRATCH_BYTES with 4096.
  set (c := Z.min (zlen content - offset) 4096).
  assert (0 < c <= 4096) as Hc by lia. zcmp. rewrite (so_read _ _ Hsrc) by lia.
  assert (Hsl : zlen (slice offset c content) = c) by (apply zlen_slice; lia).
  pose proof (payload_write_spec offset (slice offset c content) p Hp ltac:(lia)) as Hw.
  rewrite Hsl, (proj2 (Z.leb_le _ _)) in Hw by lia.
  destruct Hw as (p1 & Hw1 & Hp1 & Hn1 & Hc1). simpl in Hw1. rewrite Hw1.
  destruct (IH (offset + c) p1 Hp1) as (p' & -> & Hp' & Hn' & Hc'); [lia|lia| |].
  { lia. }
  exists p'. split_and!; try done. rewrite Hc', Hc1.
  destruct Hp as (Hs & _ & Hu & Hle).
  rewrite Z.add_assoc, <- Hsl at 1. rewrite splice_app.
  - rewrite slice_app by lia. do 2 f_equal. lia.
  - lia.
  - rewrite Hsl, zlen_slice by lia. lia.
Qed.

(** What [write_empty] does. *)
Lemma write_empty_spec status request_id max s :
  sink_inv s ->
  match ResponseWriter_write_empty status request_id (ResponseWriter_new s max) with
  | (s', Ok used) => frame_check max (zlen (sink_content s)) 0 = Ok 16 /\ used = 16 /\
      sink_inv s' /\ sink_content s' = splice 0 (response_frame status request_id []) (sink_content s)
  | (s', Err e) => frame_check max (zlen (sink_content s)) 0 = Err e /\ s' = s
  end.
Proof.
  intros Hs. unfold ResponseWriter_write_empty. rewrite preflight_spec by (done || lia).
  destruct (frame_check _ _ _) as [u|e] eqn:E; [|done].
  assert (u = 16 /\ 16 <= zlen (sink_content s)) as (-> & ?).
  { unfold frame_check in E. repeat case_match; bool_to_prop; simplify_eq. lia. }
  simpl. destruct (write_header_spec status request_id 0 s) as (s' & -> & Hs' & Hc); [done|done|].
  by split_and!.
Qed.

(** Payload and commit of a byte string. *)
Lemma payload_commit_spec status request_id payload p :
  payload_inv p -> rp_payload_bytes p = zlen payload ->
  exists p' s', sink_write_at 0 payload p = (p', Ok tt) /\
    ResponsePayload_commit status request_id p' = (s', Ok (16 + zlen payload)) /\ sink_inv s' /\
    sink_content s' = splice 0 (response_frame status request_id payload) (sink_content (rp_sink p)).
Proof.
  intros Hp Hn. pose proof (payload_write_spec 0 payload p Hp ltac:(lia)) as Hw.
  rewrite (proj2 (Z.leb_le _ _)) in Hw by lia. destruct Hw as (p' & Hw & Hp' & Hn' & Hc).
  destruct (commit_spec status request_id p' Hp') as (s' & Hcm & Hs' & Hc').
  exists p', s'. pose proof Hp' as (_ & _ & Hu' & _). pose proof Hp as (_ & _ & Hu & Hle).
  split_and!; try done.
  - rewrite Hcm. do 2 f_equal. lia.
  - rewrite Hc', Hn', Hn, Hc. apply splice_frame. lia.
Qed.

(** Whatever a backend writes through the guard stays in the payload range. *)
Lemma run_sink_payload {A} (prog : SinkProgram A) p p' a :
  payload_inv p -> run_sink prog p = (p', a) ->
  payload_inv p' /\ rp_payload_bytes p' = rp_payload_bytes p /\
  zlen (sink_content (rp_sink p')) = zlen (sink_content (rp_sink p)) /\
  (forall o n, 0 <= o -> 0 <= n -> o + n <= 16 \/ 16 + rp_payload_bytes p <= o ->
     slice o n (sink_content (rp_sink p')) = slice o n (sink_content (rp_sink p))).
Proof.
  revert p. induction prog as [b|offset src k IH]; intros p Hp Hrun; simpl in Hrun.
  { by simplify_eq. }
  destruct (ResponsePayload_write_at (Z.of_N offset) src p) as [p1 r] eqn:Hw.
  pose proof (payload_write_spec (Z.of_N offset) src p Hp ltac:(lia)) as Hspec. simpl in Hspec.
  pose proof (zlen_nonneg src). pose proof Hp as (_ & _ & Hu & Hle).
  destruct (Z.leb_spec (Z.of_N offset + zlen src) (rp_payload_bytes p)).
  - destruct Hspec as (p2 & Hw2 & Hp2 & Hn2 & Hc2). rewrite Hw2 in Hw. simplify_eq.
    destruct (IH _ _ Hp2 Hrun) as (Hp' & Hn' & Hl' & Hsl). split_and!; [done|lia| |].
    + rewrite Hl', Hc2, zlen_splice; lia.
    + intros o n Ho Hn Hout. rewrite Hsl, Hc2 by lia. apply slice_splice_ne; lia.
  - rewrite Hspec in Hw. simplify_eq. by apply (IH _ _ Hp Hrun).
Qed.

End Facts.

(** ** Properties *)

(** [write_response] puts exactly the frame, header then payload, at the
    start of the response and reports its length; a frame that exceeds the
    configured maximum or the capacity is refused with the sink unchanged.
    The chunked copy through the 4096-byte scratch buffer and the contiguous
    fast path have the same outcome. *)
Theorem write_response_correct {S} `{ByteSinkSpec S} (s : S) max status request_id payload content s' r :
  sink_inv s -> source_of payload content ->
  ResponseWriter_write_response status request_id payload (ResponseWriter_new s max) = (s', r) ->
  r = frame_check max (zlen (sink_content s)) (zlen content) /\
  match r with
  | Ok used => used = 16 + zlen content /\
      sink_content s' = splice 0 (response_frame status request_id content) (sink_content s)
  | Err _ => s' = s
  end.
Proof.
  intros Hs Hsrc. unfold ResponseWriter_write_response. rewrite (so_len _ _ Hsrc).
  pose proof (zlen_nonneg content) as Hnn.
  pose proof (payload_spec s max (zlen content) Hs Hnn) as Hp.
  destruct (ResponseWriter_payload _ _) as [p|e]; [|intros; simplify_eq; by rewrite Hp].
  destruct Hp as (Hchk & Hp & Hpeq). rewrite Hchk.
  assert (Hn : rp_payload_bytes p = zlen content) by (by rewrite Hpeq).
  assert (Hsk : rp_sink p = s) by (by rewrite Hpeq).
  destruct (src_as_contiguous payload) as [c|] eqn:Hc.
  - apply (so_contiguous _ _ Hsrc) in Hc as ->.
    destruct (payload_commit_spec status request_id content p Hp Hn) as (p' & s1 & -> & Hcm & Hs1 & Hcont).
    simpl. rewrite Hcm. intros [= <- <-]. by rewrite <- Hsk.
  - destruct (copy_loop_spec content payload
      (Datatypes.S (Z.to_nat (zlen content / SCRATCH_BYTES))) 0 p Hsrc Hp Hn) as (p' & -> & Hp' & Hn' & Hc');
      [lia| |].
    { change SCRATCH_BYTES with 4096.
      pose proof (Z.div_pos (zlen content) 4096 ltac:(lia) ltac:(lia)).
      pose proof (Z.mul_succ_div_gt (zlen content) 4096 ltac:(lia)). lia. }
    destruct (commit_spec status request_id p' Hp') as (s1 & -> & Hs1 & Hcont).
    intros [= <- <-]. pose proof Hp' as (_ & _ & Hu' & _). pose proof Hp as (_ & _ & Hu & Hle).
    split; [f_equal; lia|]. split; [lia|].
    rewrite Hcont, Hc', Hn', Z.sub_0_r, slice_all, <- Hsk. apply splice_frame. lia.
Qed.

Lemma write_response_correct_witness :
  let '(s', r) := ResponseWriter_write_response STATUS_OK 9 (slice_source [7; 8])
                    (ResponseWriter_new (repeat 0 20) 64) in
  r = Ok 18 /\ s' = splice 0 (response_frame STATUS_OK 9 [7; 8]) (repeat 0 20).
Proof.
  destruct (ResponseWriter_write_response _ _ _ _) as [s' r] eqn:E.
  destruct (write_response_correct (repeat 0 20) 64 STATUS_OK 9 (slice_source [7; 8]) [7; 8] s' r)
    as [Hr Hm]; [vm_compute; done| |exact E|].
  - apply slice_source_of; [repeat constructor; lia|vm_compute; done].
  - change (frame_check 64 _ _) with (@Ok Z ResponseWriteError 18) in Hr. subst r. tauto.
Defined.

(** Whatever sequence of writes a backend performs through the payload
    guard, the header bytes and the bytes after the advertised payload keep
    their values, and the guard still commits the length that was preflighted. *)
Theorem payload_guard_confines {S A} `{ByteSinkSpec S} (s : S) max n p (prog : SinkProgram A) p' a :
  sink_inv s -> 0 <= n ->
  ResponseWriter_payload n (ResponseWriter_new s max) = Ok p -> run_sink prog p = (p', a) ->
  slice 0 16 (sink_content (rp_sink p')) = slice 0 16 (sink_content s) /\
  slice (16 + n) (zlen (sink_content s) - (16 + n)) (sink_content (rp_sink p')) =
    slice (16 + n) (zlen (sink_content s) - (16 + n)) (sink_content s) /\
  forall status request_id, exists s',
    ResponsePayload_commit status request_id p' = (s', Ok (16 + n)) /\
    slice 0 16 (sink_content s') = as_bytes (ResponseHeader_new status n request_id) /\
    slice 16 n (sink_content s') = slice 16 n (sink_content (rp_sink p')).
Proof.
  intros Hs Hn Hpay Hrun. pose proof (payload_spec s max n Hs Hn) as Hp. rewrite Hpay in Hp.
  destruct Hp as (Hchk & Hp & Hpeq).
  destruct (run_sink_payload prog p p' a Hp Hrun) as (Hp' & Hn' & Hl' & Hsl).
  assert (Hle : 16 + n <= zlen (sink_content s)) by (destruct Hp as (_ & _ & ? & ?); subst p; simpl in *; lia).
  rewrite Hpeq in Hsl, Hl', Hn'. simpl in *. split_and!.
  - apply Hsl; lia.
  - apply Hsl; lia.
  - intros status request_id. destruct (commit_spec status request_id p' Hp') as (s' & Hcm & _ & Hc).
    pose proof Hp' as (_ & _ & Hu' & _).
    exists s'. rewrite Hcm, Hc, Hn'. split_and!.
    + do 2 f_equal. lia.
    + rewrite <- (zlen_header status request_id n) at 1.
      apply slice_splice_eq; rewrite ?zlen_header; lia.
    + apply slice_splice_ne; rewrite ?zlen_header; lia.
Qed.

Lemma payload_guard_confines_witness :
  exists p p' a, ResponseWriter_payload 2 (ResponseWriter_new (repeat 5 20) 64) = Ok p /\
    run_sink (SinkWrite 1 [9; 9] (fun _ => SinkWrite 0 [7] (fun r => SinkReturn r))) p = (p', a) /\
    slice 0 16 (sink_content (rp_sink p')) = slice 0 16 (sink_content (repeat 5 20)).
Proof.
  destruct (ResponseWriter_payload 2 _) as [p|] eqn:E; [|done].
  destruct (run_sink (SinkWrite 1 [9; 9] (fun _ => SinkWrite 0 [7] (fun r => SinkReturn r))) p) as [p' a] eqn:Hrun.
  assert (Hs : sink_inv (S := list Z) (repeat 5 20)) by (vm_compute; done).
  exists p, p', a. split; [reflexivity|]. split; [exact Hrun|].
  exact (proj1 (payload_guard_confines (repeat 5 20) 64 2 p _ p' a Hs ltac:(lia) E Hrun)).
Defined.
