(* ===== verification/Decoder.v ===== *)
(** * Request decoder ([crates/virtio-accel-device/src/decoder.rs])

    Decoding of one untrusted command frame: length and limit checks, the
    fixed wire structures, the borrowed transfer and artifact tails, and the
    bindings of a submission, sorted by slot. *)

From Stdlib Require Import ZArith Lia.
From stdpp Require Import prelude list sorting.
From S2P Require Import Prelude Codec Proto Core ObjectTable Regions.

Definition REQUEST_HEADER_BYTES : Z := size_of RequestHeader.
Definition MAX_FIXED_PREFIX_BYTES : Z := size_of LoadProgramRequest.
(** [RESPONSE_HEADER_BYTES] of this module. *)
Definition DECODER_RESPONSE_HEADER_BYTES : Z := size_of ResponseHeader.

Inductive DecoderLimitsError :=
  | LimitsConfig (error : ConfigError)
  | LimitsBindingLimit
  | LimitsBufferLimit
  | LimitsArtifactLimit.

Record DecoderLimits := {
  dl_max_chain_descriptors : Z;
  dl_max_request_bytes : Z;
  dl_max_response_bytes : Z;
  dl_max_bindings : Z;
  dl_max_buffer_bytes : Z;
  dl_max_artifact_bytes : Z;
  dl_capabilities : Z;
}.

Definition DecoderLimits_new (config : WireConfig) (info : DeviceInfo) :
    result DecoderLimits DecoderLimitsError :=
  let? _ := map_err LimitsConfig (WireConfig_validate config) in
  let limits := info_limits info in
  if negb (in_range 1 HARD_MAX_BINDINGS (max_bindings_per_submission limits)) then
    Err LimitsBindingLimit
  else if max_buffer_bytes limits =? 0 then Err LimitsBufferLimit
  else if max_artifact_bytes limits =? 0 then Err LimitsArtifactLimit
  else Ok {|
    dl_max_chain_descriptors := wc_max_chain_descriptors config;
    dl_max_request_bytes := wc_max_request_bytes config;
    dl_max_response_bytes := wc_max_response_bytes config;
    dl_max_bindings := max_bindings_per_submission limits;
    dl_max_buffer_bytes := max_buffer_bytes limits;
    dl_max_artifact_bytes := max_artifact_bytes limits;
    dl_capabilities := info_capabilities info;
  |}.

Inductive UnrecoverableDecodeError :=
  | UnrecRequestHeader
  | UnrecRequestAccess
  | UnrecResponseHeader.

Inductive FrameDecodeError :=
  | DecodeUnrecoverable (error : UnrecoverableDecodeError)
  | DecodeProtocol (request_id : Z) (status : StatusCode)
  | DecodeInsufficientResponse (request_id required available : Z).

Record DecodedBinding := {
  db_buffer_id : ObjectId;
  db_range : BufferRange;
  db_slot : Z;
  db_access : AccessMode;
}.

Inductive DecodedRequestBody :=
  | ReqGetDeviceInfo
  | ReqCreateContext (desc : ContextDesc)
  | ReqDestroyContext (context_id : ObjectId)
  | ReqAllocateBuffer (context_id : ObjectId) (desc : BufferDesc)
  | ReqFreeBuffer (buffer_id : ObjectId)
  | ReqWriteBuffer (buffer_id : ObjectId) (range : BufferRange) (data : ReadableRegion)
  | ReqReadBuffer (buffer_id : ObjectId) (range : BufferRange)
  | ReqLoadProgram (context_id : ObjectId) (format : Z) (target : list Z)
      (payload : ReadableRegion) (resident_bytes : Z)
  | ReqUnloadProgram (program_id : ObjectId)
  | ReqCreateQueue (context_id : ObjectId) (desc : QueueDesc)
  | ReqDestroyQueue (queue_id : ObjectId)
  | ReqSubmit (queue_id program_id : ObjectId) (bindings : list DecodedBinding) (timeout : Timeout)
  | ReqPollEvent (event_id : ObjectId)
  | ReqCancelEvent (event_id : ObjectId)
  | ReqDestroyEvent (event_id : ObjectId).

Definition DecodedRequestBody_opcode (self : DecodedRequestBody) : KnownOpcode :=
  match self with
  | ReqGetDeviceInfo => OpGetDeviceInfo
  | ReqCreateContext _ => OpCreateContext
  | ReqDestroyContext _ => OpDestroyContext
  | ReqAllocateBuffer _ _ => OpAllocateBuffer
  | ReqFreeBuffer _ => OpFreeBuffer
  | ReqWriteBuffer _ _ _ => OpWriteBuffer
  | ReqReadBuffer _ _ => OpReadBuffer
  | ReqLoadProgram _ _ _ _ _ => OpLoadProgram
  | ReqUnloadProgram _ => OpUnloadProgram
  | ReqCreateQueue _ _ => OpCreateQueue
  | ReqDestroyQueue _ => OpDestroyQueue
  | ReqSubmit _ _ _ _ => OpSubmit
  | ReqPollEvent _ => OpPollEvent
  | ReqCancelEvent _ => OpCancelEvent
  | ReqDestroyEvent _ => OpDestroyEvent
  end.

Record DecodedRequest := {
  dr_request_id : Z;
  dr_required_response_bytes : Z;
  dr_body : DecodedRequestBody;
}.

(** [FrameDecoder] holds its limits and nothing else. *)
Record FrameDecoder := { fd_limits : DecoderLimits }.

Inductive BodyDecodeError :=
  | BodyProtocol (status : StatusCode)
  | BodyAccess.

Definition protocol (request_id : Z) (status : StatusCode) : FrameDecodeError :=
  DecodeProtocol request_id status.
Definition invalid : BodyDecodeError := BodyProtocol STATUS_INVALID_ARGUMENT.
Definition resource_limit : BodyDecodeError := BodyProtocol STATUS_RESOURCE_LIMIT.

Definition expect_payload_bytes (payload_bytes expected : Z) : result unit BodyDecodeError :=
  if negb (payload_bytes =? expected) then Err invalid else Ok tt.

(** [read_wire] with [bytes = size_of::<T>()] and [decode = read_exact::<T>],
    as at every call. *)
Definition read_wire (T : Type) `{Wire T} (source : ByteSource) (offset : Z) :
    result T BodyDecodeError :=
  if MAX_FIXED_PREFIX_BYTES <? size_of T then Err (BodyProtocol STATUS_INTERNAL_ERROR)
  else
    let? scratch := map_err (fun _ => BodyAccess) (src_read_at source offset (size_of T)) in
    map_err (fun _ => invalid) (read_exact T scratch).

Definition read_payload (T : Type) `{Wire T} (request : ByteSource) : result T BodyDecodeError :=
  read_wire T request REQUEST_HEADER_BYTES.

Definition object_id (raw : Z) : result ObjectId BodyDecodeError :=
  ok_or (ObjectId_from_raw raw) invalid.

Definition decode_object (request : ByteSource) (payload_bytes : Z) :
    result ObjectId BodyDecodeError :=
  let? _ := expect_payload_bytes payload_bytes (size_of ObjectPayload) in
  let? value := read_payload ObjectPayload request in
  object_id (op_object_id value).

Definition decode_transfer (request : ByteSource) (payload_bytes : Z) (has_data : bool) :
    result (ObjectId * BufferRange) BodyDecodeError :=
  if payload_bytes <? size_of TransferBufferRequest then Err invalid
  else
    let? value := read_payload TransferBufferRequest request in
    let bytes := tb_bytes value in
    if (bytes =? 0) || negb (is_ok (ok_or (checked_add U64_MAX (tb_offset value) bytes) tt)) then
      Err invalid
    else
      let? expected :=
        if has_data
        then ok_or (checked_add U64_MAX (size_of TransferBufferRequest) bytes) resource_limit
        else Ok (size_of TransferBufferRequest) in
      if negb (expected =? payload_bytes) then Err invalid
      else
        let? id := object_id (tb_buffer_id value) in
        let? range := map_err (fun _ => invalid) (BufferRange_new (tb_offset value) bytes) in
        Ok (id, range).

(** One binding of the loop in [decode_submit]. *)
Definition decode_binding (binding : WireBinding) : result DecodedBinding BodyDecodeError :=
  if negb (bool_decide (wb_reserved binding = [0; 0; 0])) then Err invalid
  else
    let bytes := wb_bytes binding in
    if (bytes =? 0) || negb (is_ok (ok_or (checked_add U64_MAX (wb_offset binding) bytes) tt)) then
      Err invalid
    else
      let? range := map_err (fun _ => invalid) (BufferRange_new (wb_offset binding) bytes) in
      let? access := map_err (fun _ => invalid) (AccessMode_try_from (wb_access binding)) in
      let? id := object_id (wb_buffer_id binding) in
      Ok {| db_buffer_id := id; db_range := range; db_slot := wb_slot binding;
            db_access := access |}.

(** [for index in 0..count], from [index] with [n] iterations left. *)
Fixpoint decode_bindings (request : ByteSource) (binding_base : Z) (index : Z) (n : nat) :
    result (list DecodedBinding) BodyDecodeError :=
  match n with
  | O => Ok []
  | S n =>
      let offset := binding_base + index * size_of WireBinding in
      let? wire_binding := read_wire WireBinding request offset in
      let? binding := decode_binding wire_binding in
      let? rest := decode_bindings request binding_base (index + 1) n in
      Ok (binding :: rest)
  end.

Definition slot_le (a b : DecodedBinding) : Prop := db_slot a <= db_slot b.

#[global] Instance slot_le_dec a b : Decision (slot_le a b).
Proof. unfold slot_le. apply _. Defined.

(** [sort_unstable_by_key]: the keys of an accepted request are distinct, so
    its result does not depend on the algorithm. *)
Definition sort_by_slot (bindings : list DecodedBinding) : list DecodedBinding :=
  merge_sort slot_le bindings.

(** [windows(2).any(|w| w[0].slot == w[1].slot)] *)
Fixpoint adjacent_equal_slot (bindings : list DecodedBinding) : bool :=
  match bindings with
  | a :: (b :: _) as rest => (db_slot a =? db_slot b) || adjacent_equal_slot rest
  | _ => false
  end.

(** [mem]: whether the reservation of the binding vector succeeds. *)
Definition decode_submit (mem : bool) (self : FrameDecoder) (request : ByteSource)
    (payload_bytes : Z) :
    result (ObjectId * ObjectId * list DecodedBinding * Timeout) BodyDecodeError :=
  if payload_bytes <? size_of SubmitRequest then Err invalid
  else
    let? value := read_payload SubmitRequest request in
    if negb (sr_flags value =? 0) then Err (BodyProtocol STATUS_UNSUPPORTED)
    else
      let binding_count := sr_binding_count value in
      if binding_count =? 0 then Err invalid
      else if (dl_max_bindings (fd_limits self) <? binding_count)
              || (HARD_MAX_BINDINGS <? binding_count) then
        Err (BodyProtocol STATUS_RESOURCE_LIMIT)
      else
        let? binding_bytes :=
          ok_or (checked_mul U64_MAX binding_count (size_of WireBinding)) resource_limit in
        let? expected :=
          ok_or (checked_add U64_MAX (size_of SubmitRequest) binding_bytes) resource_limit in
        if negb (expected =? payload_bytes) then Err invalid
        else if negb mem then Err (BodyProtocol STATUS_OUT_OF_MEMORY)
        else
          let binding_base := REQUEST_HEADER_BYTES + size_of SubmitRequest in
          let? bindings := decode_bindings request binding_base 0 (Z.to_nat binding_count) in
          let bindings := sort_by_slot bindings in
          if adjacent_equal_slot bindings then Err invalid
          else
            let? queue_id := object_id (sr_queue_id value) in
            let? program_id := object_id (sr_program_id value) in
            Ok (queue_id, program_id, bindings, Timeout_from_wire_ns (sr_timeout_ns value)).

Definition decode_body (mem : bool) (self : FrameDecoder) (request : ByteSource)
    (payload_bytes : Z) (opcode : KnownOpcode) : result (DecodedRequestBody * Z) BodyDecodeError :=
  let header := DECODER_RESPONSE_HEADER_BYTES in
  match opcode with
  | OpGetDeviceInfo =>
      let? _ := expect_payload_bytes payload_bytes 0 in
      Ok (ReqGetDeviceInfo, header + size_of WireDeviceInfo)
  | OpCreateContext =>
      let? _ := expect_payload_bytes payload_bytes (size_of CreateContextRequest) in
      let? value := read_payload CreateContextRequest request in
      if negb (cc_flags value =? 0) then Err (BodyProtocol STATUS_UNSUPPORTED)
      else if negb (cc_reserved value =? 0) then Err invalid
      else Ok (ReqCreateContext {| cd_flags := 0 |}, header + size_of ObjectPayload)
  | OpDestroyContext =>
      let? context_id := decode_object request payload_bytes in
      Ok (ReqDestroyContext context_id, header)
  | OpAllocateBuffer =>
      let? _ := expect_payload_bytes payload_bytes (size_of AllocateBufferRequest) in
      let? value := read_payload AllocateBufferRequest request in
      let? context_id := object_id (ab_context_id value) in
      if negb (bool_decide (ab_reserved0 value = [0; 0; 0; 0; 0; 0; 0]))
         || negb (ab_reserved1 value =? 0) then Err invalid
      else
        let? domain := map_err (fun _ => invalid) (MemoryDomain_try_from (ab_memory_domain value)) in
        let? usage := ok_or (BufferUsage_from_bits (ab_usage value)) (BodyProtocol STATUS_UNSUPPORTED) in
        if usage =? 0 then Err invalid
        else
          let? desc := map_err (fun _ => invalid)
            (BufferDesc_new (ab_bytes value) (ab_alignment value) domain usage) in
          if dl_max_buffer_bytes (fd_limits self) <? bd_bytes desc then
            Err (BodyProtocol STATUS_RESOURCE_LIMIT)
          else if negb (supports_memory_domain (dl_capabilities (fd_limits self)) domain) then
            Err (BodyProtocol STATUS_UNSUPPORTED)
          else Ok (ReqAllocateBuffer context_id desc, header + size_of ObjectPayload)
  | OpFreeBuffer =>
      let? buffer_id := decode_object request payload_bytes in
      Ok (ReqFreeBuffer buffer_id, header)
  | OpWriteBuffer =>
      let? (buffer_id, range) := decode_transfer request payload_bytes true in
      let? data := map_err (fun _ => BodyAccess)
        (ReadableRegion_new request (REQUEST_HEADER_BYTES + size_of TransferBufferRequest)
           (br_bytes range)) in
      Ok (ReqWriteBuffer buffer_id range data, header)
  | OpReadBuffer =>
      let? (buffer_id, range) := decode_transfer request payload_bytes false in
      let? required := ok_or (checked_add U64_MAX header (br_bytes range)) resource_limit in
      Ok (ReqReadBuffer buffer_id range, required)
  | OpLoadProgram =>
      if payload_bytes <? size_of LoadProgramRequest then Err invalid
      else
        let? value := read_payload LoadProgramRequest request in
        if negb (lp_flags value =? 0) then Err (BodyProtocol STATUS_UNSUPPORTED)
        else
          let? context_id := object_id (lp_context_id value) in
          let? format := ok_or (ArtifactFormat_new (lp_format value)) invalid in
          let payload_len := lp_payload_bytes value in
          if (payload_len =? 0) || (lp_resident_bytes value =? 0) then Err invalid
          else
            let? expected :=
              ok_or (checked_add U64_MAX (size_of LoadProgramRequest) payload_len) resource_limit in
            if negb (expected =? payload_bytes) then Err invalid
            else if dl_max_artifact_bytes (fd_limits self) <? payload_len then
              Err (BodyProtocol STATUS_RESOURCE_LIMIT)
            else
              let? payload := map_err (fun _ => BodyAccess)
                (ReadableRegion_new request (REQUEST_HEADER_BYTES + size_of LoadProgramRequest)
                   payload_len) in
              Ok (ReqLoadProgram context_id format (lp_target value) payload
                    (lp_resident_bytes value), header + size_of ObjectPayload)
  | OpUnloadProgram =>
      let? program_id := decode_object request payload_bytes in
      Ok (ReqUnloadProgram program_id, header)
  | OpCreateQueue =>
      let? _ := expect_payload_bytes payload_bytes (size_of CreateQueueRequest) in
      let? value := read_payload CreateQueueRequest request in
      if negb (cq_flags value =? 0) then Err (BodyProtocol STATUS_UNSUPPORTED)
      else if negb (cq_reserved value =? 0) then Err invalid
      else
        let? context_id := object_id (cq_context_id value) in
        Ok (ReqCreateQueue context_id {| qd_flags := 0 |}, header + size_of ObjectPayload)
  | OpDestroyQueue =>
      let? queue_id := decode_object request payload_bytes in
      Ok (ReqDestroyQueue queue_id, header)
  | OpSubmit =>
      let? (queue_id, program_id, bindings, timeout) := decode_submit mem self request payload_bytes in
      Ok (ReqSubmit queue_id program_id bindings timeout, header + size_of SubmitResponse)
  | OpPollEvent =>
      let? event_id := decode_object request payload_bytes in
      Ok (ReqPollEvent event_id, header + size_of WireEventState)
  | OpCancelEvent =>
      let? event_id := decode_object request payload_bytes in
      Ok (ReqCancelEvent event_id, header)
  | OpDestroyEvent =>
      let? event_id := decode_object request payload_bytes in
      Ok (ReqDestroyEvent event_id, header)
  end.

Definition FrameDecoder_decode (mem : bool) (self : FrameDecoder) (request : ByteSource)
    (response_capacity : Z) : result DecodedRequest FrameDecodeError :=
  if response_capacity <? DECODER_RESPONSE_HEADER_BYTES then
    Err (DecodeUnrecoverable UnrecResponseHeader)
  else if src_len request <? REQUEST_HEADER_BYTES then
    Err (DecodeUnrecoverable UnrecRequestHeader)
  else
    let? header := map_err (fun _ => DecodeUnrecoverable UnrecRequestAccess)
      (read_wire RequestHeader request 0) in
    let request_id := rq_request_id header in
    let expected_frame_bytes := REQUEST_HEADER_BYTES + rq_payload_bytes header in
    if dl_max_request_bytes (fd_limits self) <? src_len request then
      Err (protocol request_id STATUS_RESOURCE_LIMIT)
    else if negb (src_len request =? expected_frame_bytes) then
      Err (protocol request_id STATUS_INVALID_ARGUMENT)
    else if request_id =? 0 then Err (protocol request_id STATUS_INVALID_ARGUMENT)
    else if negb (rq_flags header =? 0) then Err (protocol request_id STATUS_UNSUPPORTED)
    else
      let? opcode := map_err (fun _ => protocol request_id STATUS_UNSUPPORTED)
        (RequestHeader_known_opcode header) in
      let? (body, required_response_bytes) :=
        map_err (fun error =>
          match error with
          | BodyProtocol status => protocol request_id status
          | BodyAccess => DecodeUnrecoverable UnrecRequestAccess
          end) (decode_body mem self request (rq_payload_bytes header) opcode) in
      if dl_max_response_bytes (fd_limits self) <? required_response_bytes then
        Err (protocol request_id STATUS_RESOURCE_LIMIT)
      else if response_capacity <? required_response_bytes then
        Err (DecodeInsufficientResponse request_id required_response_bytes response_capacity)
      else Ok {| dr_request_id := request_id;
                 dr_required_response_bytes := required_response_bytes;
                 dr_body := body |}.
