(* ===== verification/DecoderSpec.v ===== *)
(** * What the decoder accepts

    The protocol's requests as data ([WireRequest]), their frames as byte
    strings built from the structures of [Proto] ([frame_of]), and when a
    request is within the limits of a device ([request_ok]).  The decoder
    accepts exactly the frames of such requests and returns what they say. *)

From Stdlib Require Import ZArith Lia.
From stdpp Require Import prelude list sorting.
From S2P Require Import Prelude Codec Proto Core ObjectTable Regions Decoder.

Inductive WireRequest :=
  | WqGetDeviceInfo
  | WqCreateContext
  | WqObject (op : KnownOpcode) (id : Z)
  | WqAllocateBuffer (context_id : Z) (desc : BufferDesc)
  | WqWriteBuffer (buffer_id offset : Z) (data : list Z)
  | WqReadBuffer (buffer_id offset bytes : Z)
  | WqLoadProgram (context_id format : Z) (target payload : list Z) (resident_bytes : Z)
  | WqCreateQueue (context_id : Z)
  | WqSubmit (queue_id program_id : Z) (bindings : list DecodedBinding) (timeout_ns : Z).

(** The commands whose payload is one identifier, with the decoded form. *)
Definition object_body (op : KnownOpcode) (id : Z) : option DecodedRequestBody :=
  match op with
  | OpDestroyContext => Some (ReqDestroyContext id)
  | OpFreeBuffer => Some (ReqFreeBuffer id)
  | OpUnloadProgram => Some (ReqUnloadProgram id)
  | OpDestroyQueue => Some (ReqDestroyQueue id)
  | OpPollEvent => Some (ReqPollEvent id)
  | OpCancelEvent => Some (ReqCancelEvent id)
  | OpDestroyEvent => Some (ReqDestroyEvent id)
  | _ => None
  end.

Definition wire_opcode (w : WireRequest) : KnownOpcode :=
  match w with
  | WqGetDeviceInfo => OpGetDeviceInfo
  | WqCreateContext => OpCreateContext
  | WqObject op _ => op
  | WqAllocateBuffer _ _ => OpAllocateBuffer
  | WqWriteBuffer _ _ _ => OpWriteBuffer
  | WqReadBuffer _ _ _ => OpReadBuffer
  | WqLoadProgram _ _ _ _ _ => OpLoadProgram
  | WqCreateQueue _ => OpCreateQueue
  | WqSubmit _ _ _ _ => OpSubmit
  end.

Definition binding_wire (b : DecodedBinding) : WireBinding := {|
  wb_buffer_id := db_buffer_id b;
  wb_offset := br_offset (db_range b);
  wb_bytes := br_bytes (db_range b);
  wb_slot := db_slot b;
  wb_access := AccessMode_as_u8 (db_access b);
  wb_reserved := [0; 0; 0];
|}.

Definition wire_payload (w : WireRequest) : list Z :=
  match w with
  | WqGetDeviceInfo => []
  | WqCreateContext => as_bytes {| cc_flags := 0; cc_reserved := 0 |}
  | WqObject _ id => as_bytes {| op_object_id := id |}
  | WqAllocateBuffer context_id desc =>
      as_bytes {| ab_context_id := context_id; ab_bytes := bd_bytes desc;
                  ab_alignment := bd_alignment desc;
                  ab_memory_domain := MemoryDomain_as_u8 (bd_domain desc);
                  ab_reserved0 := [0; 0; 0; 0; 0; 0; 0];
                  ab_usage := bd_usage desc; ab_reserved1 := 0 |}
  | WqWriteBuffer id offset data =>
      as_bytes {| tb_buffer_id := id; tb_offset := offset; tb_bytes := zlen data |} ++ data
  | WqReadBuffer id offset bytes =>
      as_bytes {| tb_buffer_id := id; tb_offset := offset; tb_bytes := bytes |}
  | WqLoadProgram context_id format target payload resident_bytes =>
      as_bytes {| lp_context_id := context_id; lp_format := format; lp_flags := 0;
                  lp_target := target; lp_payload_bytes := zlen payload;
                  lp_resident_bytes := resident_bytes |} ++ payload
  | WqCreateQueue context_id =>
      as_bytes {| cq_context_id := context_id; cq_flags := 0; cq_reserved := 0 |}
  | WqSubmit queue_id program_id bindings timeout_ns =>
      as_bytes {| sr_queue_id := queue_id; sr_program_id := program_id;
                  sr_binding_count := zlen bindings; sr_flags := 0;
                  sr_timeout_ns := timeout_ns |}
      ++ concat (map (fun b => as_bytes (binding_wire b)) bindings)
  end.

Definition frame_of (request_id : Z) (w : WireRequest) : list Z :=
  as_bytes (RequestHeader_new (wire_opcode w) 0 (zlen (wire_payload w)) request_id)
  ++ wire_payload w.

(** The decoded form of a request that arrived through [request]. *)
Definition body_of (request : ByteSource) (w : WireRequest) : DecodedRequestBody :=
  match w with
  | WqGetDeviceInfo => ReqGetDeviceInfo
  | WqCreateContext => ReqCreateContext {| cd_flags := 0 |}
  | WqObject op id => default ReqGetDeviceInfo (object_body op id)
  | WqAllocateBuffer context_id desc => ReqAllocateBuffer context_id desc
  | WqWriteBuffer id offset data =>
      ReqWriteBuffer id {| br_offset := offset; br_bytes := zlen data |}
        {| rr_source := request; rr_offset := 40; rr_len := zlen data |}
  | WqReadBuffer id offset bytes =>
      ReqReadBuffer id {| br_offset := offset; br_bytes := bytes |}
  | WqLoadProgram context_id format target payload resident_bytes =>
      ReqLoadProgram context_id format target
        {| rr_source := request; rr_offset := 96; rr_len := zlen payload |} resident_bytes
  | WqCreateQueue context_id => ReqCreateQueue context_id {| qd_flags := 0 |}
  | WqSubmit queue_id program_id bindings timeout_ns =>
      ReqSubmit queue_id program_id (sort_by_slot bindings) (Timeout_from_wire_ns timeout_ns)
  end.

(** Bytes of the largest success response. *)
Definition success_bytes (w : WireRequest) : Z :=
  match w with
  | WqGetDeviceInfo => 92
  | WqCreateContext | WqAllocateBuffer _ _ | WqLoadProgram _ _ _ _ _ | WqCreateQueue _
  | WqSubmit _ _ _ _ => 24
  | WqObject op _ => if decide (op = OpPollEvent) then 24 else 16
  | WqWriteBuffer _ _ _ => 16
  | WqReadBuffer _ _ bytes => 16 + bytes
  end.

Definition id_ok (id : Z) : Prop := 0 < id <= U64_MAX.

Definition range_ok (r : BufferRange) : Prop :=
  0 <= br_offset r /\ 0 < br_bytes r /\ br_offset r + br_bytes r <= U64_MAX.

Definition binding_ok (b : DecodedBinding) : Prop :=
  id_ok (db_buffer_id b) /\ range_ok (db_range b) /\ is_u32 (db_slot b).

(** Every field in range, reserved bits clear, sizes within the limits. *)
Definition request_ok (l : DecoderLimits) (w : WireRequest) : Prop :=
  match w with
  | WqGetDeviceInfo | WqCreateContext => True
  | WqObject op id => is_Some (object_body op id) /\ id_ok id
  | WqAllocateBuffer context_id desc =>
      id_ok context_id /\ 0 < bd_bytes desc <= U64_MAX /\ bd_bytes desc <= dl_max_buffer_bytes l /\
      is_u64 (bd_alignment desc) /\ is_power_of_two (bd_alignment desc) = true /\
      0 < bd_usage desc <= 31 /\ supports_memory_domain (dl_capabilities l) (bd_domain desc) = true
  | WqWriteBuffer id offset data =>
      id_ok id /\ range_ok {| br_offset := offset; br_bytes := zlen data |} /\ is_bytes data
  | WqReadBuffer id offset bytes =>
      id_ok id /\ range_ok {| br_offset := offset; br_bytes := bytes |} /\ 16 + bytes <= U64_MAX
  | WqLoadProgram context_id format target payload resident_bytes =>
      id_ok context_id /\ 0 < format <= U32_MAX /\
      length target = 12%nat /\ Forall (fun x => is_u32 x) target /\
      payload <> [] /\ is_bytes payload /\ zlen payload <= dl_max_artifact_bytes l /\
      0 < resident_bytes <= U64_MAX
  | WqCreateQueue context_id => id_ok context_id
  | WqSubmit queue_id program_id bindings timeout_ns =>
      id_ok queue_id /\ id_ok program_id /\ bindings <> [] /\
      zlen bindings <= dl_max_bindings l /\ zlen bindings <= 4096 /\
      Forall binding_ok bindings /\ NoDup (map db_slot bindings) /\ is_u64 timeout_ns
  end.

(** ** Reading structures out of a frame *)

Section Reading.
Context {request : ByteSource} {bytes : list Z} (Hsrc : source_of request bytes).

Lemma read_wire_total T `{Wire T} offset :
  size_of T <= 80 -> 0 <= offset -> offset + size_of T <= zlen bytes ->
  exists v, read_wire T request offset = Ok v /\ wire_wf v /\
    slice offset (size_of T) bytes = as_bytes v.
Proof.
  intros Hsz Ho Hle. unfold read_wire. change MAX_FIXED_PREFIX_BYTES with 80. zcmp.
  rewrite (so_read _ _ Hsrc) by (try apply size_of_nonneg; lia). simpl.
  destruct (read_from_bytes_is_Some (T := T) (slice offset (size_of T) bytes)) as [v Hv].
  { apply zlen_slice; [lia|apply size_of_nonneg|lia]. }
  unfold read_exact. rewrite Hv. simpl. exists v.
  apply read_from_bytes_Some in Hv as (? & ? & _); [done|].
  apply is_bytes_slice, (so_bytes _ _ Hsrc).
Qed.

Lemma read_wire_value T `{Wire T} offset v :
  size_of T <= 80 -> 0 <= offset -> offset + size_of T <= zlen bytes -> wire_wf v ->
  slice offset (size_of T) bytes = as_bytes v -> read_wire T request offset = Ok v.
Proof.
  intros Hsz Ho Hle Hwf Hs. destruct (read_wire_total T offset) as (v' & -> & Hwf' & Hs'); [done..|].
  f_equal. apply read_as_bytes in Hwf, Hwf'. rewrite <- Hs in Hwf. rewrite <- Hs' in Hwf'.
  congruence.
Qed.

(** The frame split after its header. *)
Context {header payload : list Z} (Hframe : bytes = header ++ payload) (Hheader : zlen header = 16).

Lemma payload_slice offset n :
  16 <= offset -> slice offset n bytes = slice (offset - 16) n payload.
Proof. intros. rewrite Hframe, slice_app_r by lia. by rewrite Hheader. Qed.

Lemma read_payload_total T `{Wire T} :
  size_of T <= 80 -> size_of T <= zlen payload ->
  exists v, read_payload T request = Ok v /\ wire_wf v /\
    payload = as_bytes v ++ slice (size_of T) (zlen payload - size_of T) payload.
Proof.
  intros Hsz Hle. unfold read_payload. change REQUEST_HEADER_BYTES with 16.
  destruct (read_wire_total T 16) as (v & Hv & Hwf & Hs); [done|lia| |].
  { rewrite Hframe, zlen_app. lia. }
  exists v. split_and!; [done..|]. rewrite <- Hs, payload_slice by lia.
  rewrite Z.sub_diag, slice_app by (try apply size_of_nonneg; lia).
  rewrite <- (slice_all payload) at 1. f_equal. lia.
Qed.

Lemma read_payload_value T `{Wire T} v rest :
  size_of T <= 80 -> wire_wf v -> payload = as_bytes v ++ rest -> read_payload T request = Ok v.
Proof.
  intros Hsz Hwf Hp. unfold read_payload. change REQUEST_HEADER_BYTES with 16.
  pose proof (zlen_as_bytes v Hwf) as Hz. pose proof (zlen_nonneg rest).
  apply read_wire_value; [done|lia| |done|].
  - rewrite Hframe, zlen_app, Hp, zlen_app. lia.
  - rewrite payload_slice, Z.sub_diag, Hp, <- Hz by lia. apply slice_prefix.
Qed.

(** A payload of exactly the size of one structure. *)
Lemma exact_payload_total T `{Wire T} :
  size_of T <= 80 -> zlen payload = size_of T ->
  exists v, read_payload T request = Ok v /\ wire_wf v /\ payload = as_bytes v.
Proof.
  intros Hsz Hlen. destruct (read_payload_total T) as (v & Hv & Hwf & Hp); [lia|lia|].
  exists v. split_and!; [done..|]. rewrite Hlen, Z.sub_diag in Hp.
  rewrite Hp. unfold slice. by rewrite take_0, app_nil_r.
Qed.

End Reading.

(** The field ranges of a structure, as literals. *)
Ltac wire_bounds :=
  unfold wire_wf in *; cbn [wire c_wf cmap cpair le raw array fst snd] in *;
  repeat match goal with
         | H : context [256 ^ ?e] |- _ =>
             let v := eval vm_compute in (256 ^ e) in change (256 ^ e) with v in H
         | |- context [256 ^ ?e] =>
             let v := eval vm_compute in (256 ^ e) in change (256 ^ e) with v
         end.

(** ** Bindings *)

Lemma AccessMode_try_from_Ok v a : AccessMode_try_from v = Ok a -> v = AccessMode_as_u8 a.
Proof. unfold AccessMode_try_from. intros. repeat case_match; bool_to_prop; by simplify_eq. Qed.

Lemma MemoryDomain_try_from_Ok v d : MemoryDomain_try_from v = Ok d -> v = MemoryDomain_as_u8 d.
Proof. unfold MemoryDomain_try_from. intros. repeat case_match; bool_to_prop; by simplify_eq. Qed.

Lemma object_id_Ok raw id : is_u64 raw -> object_id raw = Ok id <-> id = raw /\ id_ok id.
Proof.
  intros. unfold object_id, ObjectId_from_raw, nonzero, id_ok.
  destruct (Z.eqb_spec raw 0); simpl; naive_solver lia.
Qed.

Lemma decode_binding_sound w b :
  wire_wf w -> decode_binding w = Ok b -> binding_ok b /\ w = binding_wire b.
Proof.
  destruct w as [id off n slot access reserved]. intros Hwf. unfold decode_binding. simpl.
  unfold WireBinding_wire in Hwf. wire_bounds. simpl in Hwf.
  destruct Hwf as (((((Hid & Hoff) & Hn) & Hslot) & _) & _).
  destruct (bool_decide_reflect (reserved = [0; 0; 0])) as [->|]; [|done]. simpl.
  unfold checked_add. destruct (Z.eqb_spec n 0); [done|]. simpl.
  destruct (Z.leb_spec (off + n) U64_MAX); [|done]. simpl.
  destruct (BufferRange_new off n) as [r|] eqn:Hr; [|done]. simpl.
  apply BufferRange_new_Ok in Hr as (-> & _ & _).
  destruct (AccessMode_try_from access) as [a|] eqn:Ha; [|done]. simpl.
  apply AccessMode_try_from_Ok in Ha as ->.
  destruct (object_id id) as [i|] eqn:Hi; [|done]. apply object_id_Ok in Hi as [-> ?]; [|lia].
  intros [= <-]. split; [|done]. unfold binding_ok, range_ok, id_ok in *. simpl. lia.
Qed.

Lemma binding_wire_wf b : binding_ok b -> wire_wf (binding_wire b).
Proof.
  intros (Hid & (? & ? & ?) & Hs). unfold id_ok in *. unfold WireBinding_wire. wire_bounds. simpl.
  split_and!; try lia; try done; try (destruct (db_access b); simpl; lia). all: repeat constructor; lia.
Qed.

Lemma decode_binding_complete b : binding_ok b -> decode_binding (binding_wire b) = Ok b.
Proof.
  intros (Hid & (? & ? & ?) & Hs). unfold decode_binding. simpl. unfold checked_add.
  zcmp. destruct (BufferRange_new _ _) as [r|] eqn:Hr.
  2:{ exfalso. pose proof (BufferRange_new_Ok (br_offset (db_range b)) (br_bytes (db_range b))
        (db_range b)) as [_ Hc]. rewrite Hc in Hr; [done|].
      split_and!; [by destruct (db_range b)|lia|lia]. }
  apply BufferRange_new_Ok in Hr as (-> & _ & _). simpl. rewrite AccessMode_roundtrip. simpl.
  unfold id_ok in Hid.
  rewrite (proj2 (object_id_Ok (db_buffer_id b) (db_buffer_id b) ltac:(lia))) by done.
  by destruct b as [? [] ? ?].
Qed.

Lemma size_of_WireBinding : size_of WireBinding = 32.
Proof. reflexivity. Qed.

Section Bindings.
Context {request : ByteSource} {bytes : list Z} (Hsrc : source_of request bytes).

Lemma decode_bindings_sound base n index bs :
  0 <= base -> 0 <= index -> base + (index + Z.of_nat n) * 32 <= zlen bytes ->
  decode_bindings request base index n = Ok bs ->
  length bs = n /\ Forall binding_ok bs /\
  slice (base + index * 32) (Z.of_nat n * 32) bytes =
    concat (map (fun b => as_bytes (binding_wire b)) bs).
Proof.
  revert index bs. induction n as [|n IH]; intros index bs Hb Hi Hle H; simpl in H.
  { simplify_eq. split_and!; [done|constructor|]. unfold slice. by rewrite take_0. }
  rewrite size_of_WireBinding in H.
  destruct (read_wire_total Hsrc WireBinding (base + index * 32)) as (w & Hw & Hwf & Hs);
    rewrite ?size_of_WireBinding; [lia..|].
  rewrite Hw in H. destruct (decode_binding w) as [b|] eqn:Hd; [|done].
  destruct (decode_bindings _ _ _ n) as [rest|] eqn:Hr; [|done]. simplify_eq.
  apply decode_binding_sound in Hd as [Hok ->]; [|done].
  apply IH in Hr as (<- & Hoks & Hsl); [|lia..].
  split_and!; [done|by constructor|]. cbn [map concat]. rewrite <- Hs, <- Hsl, size_of_WireBinding.
  replace (base + (index + 1) * 32) with (base + index * 32 + 32) by lia.
  rewrite slice_app by lia. f_equal. lia.
Qed.

Lemma decode_bindings_complete base index bs :
  0 <= base -> 0 <= index -> base + (index + zlen bs) * 32 <= zlen bytes ->
  Forall binding_ok bs ->
  slice (base + index * 32) (zlen bs * 32) bytes =
    concat (map (fun b => as_bytes (binding_wire b)) bs) ->
  decode_bindings request base index (length bs) = Ok bs.
Proof.
  intros Hb Hi Hle Hoks. revert index Hi Hle.
  induction Hoks as [|b bs Hok Hoks IH]; intros index Hi Hle Hsl; simpl; [done|].
  rewrite size_of_WireBinding. pose proof (binding_wire_wf b Hok) as Hwf.
  pose proof (zlen_as_bytes _ Hwf) as Hz. rewrite size_of_WireBinding in Hz.
  assert (zlen (b :: bs) = 1 + zlen bs) as Hlen by (unfold zlen; simpl; lia).
  pose proof (zlen_nonneg bs). rewrite Hlen in *. cbn [map concat] in Hsl.
  replace ((1 + zlen bs) * 32) with (32 + zlen bs * 32) in Hsl by lia.
  rewrite <- slice_app in Hsl by lia.
  apply app_inj_1 in Hsl as [H1 H2].
  2:{ apply Nat2Z.inj. fold (zlen (slice (base + index * 32) 32 bytes)).
      fold (zlen (as_bytes (binding_wire b))). rewrite Hz. apply zlen_slice; lia. }
  rewrite (read_wire_value Hsrc WireBinding _ (binding_wire b));
    rewrite ?size_of_WireBinding; try done; try lia.
  rewrite decode_binding_complete by done.
  rewrite IH; [done|lia|lia|]. rewrite <- H2. f_equal. lia.
Qed.

End Bindings.

Lemma adjacent_equal_slot_sorted l :
  Sorted slot_le l -> adjacent_equal_slot l = false <-> NoDup (map db_slot l).
Proof.
  intros Hs. split.
  - intros H. apply windows2_ltb_NoDup. induction Hs as [|a l Hs IH Hhd]; [done|].
    rewrite windows2_all_cons. destruct l as [|b l]; [done|]. simpl in H.
    apply orb_false_iff in H as [Hne H]. rewrite IH, andb_true_r by done.
    inversion Hhd; subst. unfold slot_le in *. bool_to_prop. apply Z.ltb_lt. lia.
  - clear Hs. induction l as [|a l IH]; intros Hnd; [done|].
    inversion Hnd as [|? ? Hni Hnd']; subst. destruct l as [|b l]; [done|].
    simpl. rewrite orb_false_iff. split; [|by apply IH].
    apply Z.eqb_neq. intros Heq. apply Hni. rewrite Heq. simpl. by left.
Qed.

#[global] Instance slot_le_total : Total slot_le.
Proof. intros a b. unfold slot_le. lia. Qed.

Lemma adjacent_equal_sort bs :
  adjacent_equal_slot (sort_by_slot bs) = false <-> NoDup (map db_slot bs).
Proof.
  unfold sort_by_slot. rewrite adjacent_equal_slot_sorted by apply Sorted_merge_sort, _.
  assert (merge_sort slot_le bs ≡ₚ bs) as Hp by apply merge_sort_Permutation.
  by rewrite Hp.
Qed.

(** ** Bodies *)

Lemma BufferUsage_from_bits_Some bits u :
  0 <= bits -> BufferUsage_from_bits bits = Some u <-> u = bits /\ bits <= 31.
Proof.
  intros Hb. unfold BufferUsage_from_bits. change BufferUsage_all with (Z.ones 5).
  rewrite <- Z.ldiff_land, Z.ldiff_ones_r, Z.shiftl_mul_pow2, Z.shiftr_div_pow2 by lia.
  change (2 ^ 5) with 32. pose proof (Z.div_mod bits 32).
  pose proof (Z.mod_pos_bound bits 32). pose proof (Z.div_pos bits 32).
  destruct (Z.eqb_spec (bits / 32 * 32) 0); naive_solver lia.
Qed.

Lemma usage_contained u : 0 <= u <= 31 -> bits_contains BufferUsage_all u = true.
Proof.
  intros. unfold bits_contains. change BufferUsage_all with (Z.ones 5).
  rewrite Z.land_comm, Z.land_ones, Z.mod_small by lia. apply Z.eqb_refl.
Qed.

Lemma expect_payload_bytes_Ok n m u : expect_payload_bytes n m = Ok u <-> n = m.
Proof. destruct u. unfold expect_payload_bytes. destruct (Z.eqb_spec n m); simpl; naive_solver. Qed.

(** Take one step of a decoder chain in hypothesis [H]. *)
Ltac dstep H :=
  match type of H with
  | (match (if ?c then _ else _) with _ => _ end) = Ok _ => destruct c eqn:?; [discriminate H|]
  | (if ?c then Err _ else _) = Ok _ => destruct c eqn:?; [discriminate H|]
  | (match map_err _ ?r with _ => _ end) = Ok _ => destruct r eqn:?; [|discriminate H]; simpl in H
  | (match ok_or ?r _ with _ => _ end) = Ok _ => destruct r eqn:?; [|discriminate H]; simpl in H
  | (match ?r with Ok _ => _ | Err _ => _ end) = Ok _ => destruct r eqn:?; [|discriminate H]
  end.

Section Bodies.
Context {request : ByteSource} {bytes : list Z} (Hsrc : source_of request bytes).
Context {header payload : list Z} (Hframe : bytes = header ++ payload) (Hheader : zlen header = 16).
Context (d : FrameDecoder) (mem : bool).

Lemma decode_object_sound id :
  decode_object request (zlen payload) = Ok id ->
  payload = as_bytes {| op_object_id := id |} /\ id_ok id.
Proof.
  unfold decode_object. intros H. dstep H. apply expect_payload_bytes_Ok in Heqr.
  destruct (exact_payload_total Hsrc Hframe Hheader ObjectPayload) as ([raw] & Hv & Hwf & Hp);
    [by vm_compute|done|]. rewrite Hv in H. simpl in H.
  unfold ObjectPayload_wire in Hwf. wire_bounds. simpl in Hwf.
  by apply object_id_Ok in H as [-> ?]; [|lia].
Qed.

Lemma decode_object_complete id :
  id_ok id -> payload = as_bytes {| op_object_id := id |} ->
  decode_object request (zlen payload) = Ok id.
Proof.
  intros Hid Hp. assert (Hwf : wire_wf {| op_object_id := id |}).
  { unfold ObjectPayload_wire. wire_bounds. unfold id_ok in Hid. simpl. lia. }
  unfold decode_object.
  rewrite (proj2 (expect_payload_bytes_Ok _ _ tt)) by (rewrite Hp; by apply zlen_as_bytes).
  rewrite (read_payload_value Hsrc Hframe Hheader ObjectPayload {| op_object_id := id |} []);
    [|by vm_compute|done|by rewrite app_nil_r].
  apply object_id_Ok; [unfold id_ok in Hid; simpl; lia|done].
Qed.

Lemma decode_transfer_sound has_data id r :
  decode_transfer request (zlen payload) has_data = Ok (id, r) ->
  id_ok id /\ range_ok r /\
  zlen payload = 24 + (if has_data then br_bytes r else 0) /\
  payload = as_bytes {| tb_buffer_id := id; tb_offset := br_offset r; tb_bytes := br_bytes r |}
            ++ slice 24 (zlen payload - 24) payload.
Proof.
  unfold decode_transfer. intros H. change (size_of TransferBufferRequest) with 24 in H.
  dstep H. bool_to_prop.
  destruct (read_payload_total Hsrc Hframe Hheader TransferBufferRequest)
    as ([raw off n] & Hv & Hwf & Hp); [by vm_compute|done|]. rewrite Hv in H. simpl in H.
  change (size_of TransferBufferRequest) with 24 in Hp.
  unfold TransferBufferRequest_wire in Hwf. wire_bounds. simpl in Hwf.
  unfold checked_add in H.
  destruct (Z.eqb_spec n 0); [done|]. destruct (Z.leb_spec (off + n) U64_MAX); [|done]. simpl in H.
  destruct (if has_data then _ else _) as [expected|] eqn:He; [|done].
  assert (expected = 24 + (if has_data then n else 0)) as ->.
  { destruct has_data; [|by injection He as <-].
    destruct (24 + n <=? U64_MAX); simpl in He; [|done]. by injection He as <-. }
  destruct (Z.eqb_spec (24 + (if has_data then n else 0)) (zlen payload)); [|done]. simpl in H.
  destruct (object_id raw) as [i|] eqn:Hi; [|done]. apply object_id_Ok in Hi as [-> Hid]; [|lia].
  destruct (BufferRange_new off n) as [r'|] eqn:Hr; [|done]. simpl in H. simplify_eq.
  apply BufferRange_new_Ok in Hr as (-> & _ & _). simpl. unfold range_ok. simpl.
  split_and!; [done|lia..|done].
Qed.

Lemma decode_transfer_complete (has_data : bool) id r rest :
  id_ok id -> range_ok r -> (has_data = true -> 24 + br_bytes r <= U64_MAX) ->
  zlen rest = (if has_data then br_bytes r else 0) ->
  payload = as_bytes {| tb_buffer_id := id; tb_offset := br_offset r; tb_bytes := br_bytes r |}
            ++ rest ->
  decode_transfer request (zlen payload) has_data = Ok (id, r).
Proof.
  intros Hid (Ho & Hn & Hle) H24 Hrest Hp. set (v := Build_TransferBufferRequest _ _ _) in Hp.
  assert (Hwf : wire_wf v).
  { unfold TransferBufferRequest_wire. wire_bounds. unfold id_ok in Hid. simpl. lia. }
  pose proof (zlen_as_bytes v Hwf) as Hz. change (size_of TransferBufferRequest) with 24 in Hz.
  assert (zlen payload = 24 + zlen rest) as Hlen by (rewrite Hp, zlen_app; lia).
  pose proof (zlen_nonneg rest).
  unfold decode_transfer. change (size_of TransferBufferRequest) with 24.
  rewrite (proj2 (Z.ltb_ge _ _)) by lia.
  rewrite (read_payload_value Hsrc Hframe Hheader TransferBufferRequest v rest);
    [|by vm_compute|done|done].
  subst v. cbn [tb_bytes tb_offset tb_buffer_id].
  assert ((if has_data then ok_or (checked_add U64_MAX 24 (br_bytes r)) resource_limit else Ok 24)
    = Ok (zlen payload)) as ->.
  { rewrite Hlen, Hrest. destruct has_data; [|done]. specialize (H24 eq_refl).
    unfold checked_add. by zcmp. }
  unfold checked_add. zcmp.
  rewrite (proj2 (object_id_Ok id id ltac:(unfold id_ok in Hid; lia))) by done.
  rewrite (proj2 (BufferRange_new_Ok _ _ r)); [done|].
  split_and!; [by destruct r|lia|lia].
Qed.

Lemma decode_submit_sound q p bs t :
  decode_submit mem d request (zlen payload) = Ok (q, p, bs, t) ->
  exists wire_bs timeout_ns,
    let w := WqSubmit q p wire_bs timeout_ns in
    payload = wire_payload w /\ request_ok (fd_limits d) w /\
    bs = sort_by_slot wire_bs /\ t = Timeout_from_wire_ns timeout_ns.
Proof.
  unfold decode_submit. intros H. change (size_of SubmitRequest) with 32 in H.
  change (size_of WireBinding) with 32 in H. change HARD_MAX_BINDINGS with 4096 in H.
  dstep H. bool_to_prop.
  destruct (read_payload_total Hsrc Hframe Hheader SubmitRequest)
    as ([rq rp cnt fl tmo] & Hv & Hwf & Hp); [by vm_compute|done|]. rewrite Hv in H. simpl in H.
  change (size_of SubmitRequest) with 32 in Hp.
  unfold SubmitRequest_wire in Hwf. wire_bounds. simpl in Hwf.
  destruct (Z.eqb_spec fl 0) as [->|]; [|done]. simpl in H.
  destruct (Z.eqb_spec cnt 0); [done|]. dstep H. bool_to_prop.
  unfold checked_mul, checked_add in H.
  destruct (Z.leb_spec (cnt * 32) U64_MAX); [|done]. simpl in H.
  destruct (Z.leb_spec (32 + cnt * 32) U64_MAX); [|done]. simpl in H.
  destruct (Z.eqb_spec (32 + cnt * 32) (zlen payload)) as [Hlen|]; [|done]. simpl in H.
  destruct mem; [|done]. simpl in H. change (REQUEST_HEADER_BYTES + 32) with 48 in H.
  destruct (decode_bindings _ _ _ _) as [wbs|] eqn:Hb; [|done].
  apply (decode_bindings_sound Hsrc) in Hb as (Hl & Hoks & Hsl);
    [|lia|lia|rewrite Hframe, zlen_app; lia].
  rewrite (payload_slice Hframe Hheader) in Hsl by lia.
  rewrite Z2Nat.id in Hsl by lia. change (48 + 0 * 32 - 16) with 32 in Hsl.
  destruct (adjacent_equal_slot _) eqn:Hadj; [done|]. apply adjacent_equal_sort in Hadj.
  destruct (object_id rq) as [q'|] eqn:Hq; [|done]. apply object_id_Ok in Hq as [-> Hq]; [|lia].
  destruct (object_id rp) as [p'|] eqn:Hpp; [|done]. apply object_id_Ok in Hpp as [-> Hpp]; [|lia].
  simplify_eq. assert (zlen wbs = cnt) as Hcnt by (unfold zlen; lia).
  exists wbs, tmo. cbn [wire_payload request_ok]. split_and!; try done; try lia.
  - rewrite Hp at 1. rewrite Hcnt. f_equal. rewrite <- Hsl. f_equal. lia.
  - intros ->. unfold zlen in Hcnt. simpl in Hcnt. lia.
Qed.

Lemma decode_submit_complete q p bs timeout_ns :
  let w := WqSubmit q p bs timeout_ns in
  mem = true -> request_ok (fd_limits d) w -> payload = wire_payload w ->
  decode_submit mem d request (zlen payload) =
    Ok (q, p, sort_by_slot bs, Timeout_from_wire_ns timeout_ns).
Proof.
  intros w -> (Hq & Hpp & Hne & Hmax & Hhard & Hoks & Hnd & Ht) Hp. cbn [wire_payload w] in Hp.
  set (v := Build_SubmitRequest _ _ _ _ _) in Hp. set (rest := concat _) in Hp.
  assert (Hwf : wire_wf v).
  { unfold SubmitRequest_wire. wire_bounds. unfold id_ok in *. pose proof (zlen_nonneg bs). simpl. lia. }
  pose proof (zlen_as_bytes v Hwf) as Hz. change (size_of SubmitRequest) with 32 in Hz.
  assert (0 < zlen bs) by (destruct bs; [done|]; unfold zlen; simpl; lia).
  assert (Hrest : zlen rest = zlen bs * 32).
  { subst rest. clear -Hoks. induction Hoks as [|b bs Hb _ IH]; [done|]. cbn [map concat].
    rewrite zlen_app, IH, zlen_as_bytes by by apply binding_wire_wf.
    rewrite size_of_WireBinding. unfold zlen. simpl. lia. }
  assert (zlen payload = 32 + zlen bs * 32) as Hlen by (rewrite Hp, zlen_app; lia).
  unfold decode_submit. change (size_of SubmitRequest) with 32.
  change (size_of WireBinding) with 32. change HARD_MAX_BINDINGS with 4096.
  rewrite (proj2 (Z.ltb_ge _ _)) by lia.
  rewrite (read_payload_value Hsrc Hframe Hheader SubmitRequest v rest);
    [|by vm_compute|done|done].
  subst v. cbn [sr_flags sr_binding_count sr_queue_id sr_program_id sr_timeout_ns].
  unfold checked_mul, checked_add. simpl. zcmp.
  change (REQUEST_HEADER_BYTES + 32) with 48.
  replace (Z.to_nat (zlen bs)) with (length bs) by (unfold zlen; lia).
  rewrite (decode_bindings_complete Hsrc); [|lia|lia| |done|].
  2:{ rewrite Hframe, zlen_app. lia. }
  2:{ rewrite (payload_slice Hframe Hheader), Hp by lia. change (48 + 0 * 32 - 16) with 32.
      rewrite slice_app_r by lia. rewrite Hz, Z.sub_diag, <- Hrest. apply slice_all. }
  rewrite (proj2 (adjacent_equal_sort bs)) by done. unfold id_ok in *.
  rewrite (proj2 (object_id_Ok q q ltac:(lia))), (proj2 (object_id_Ok p p ltac:(lia)))
    by (split; unfold id_ok; done || lia). done.
Qed.

Lemma payload_is_bytes : is_bytes payload.
Proof.
  pose proof (so_bytes _ _ Hsrc) as Hb. rewrite Hframe in Hb. by apply is_bytes_app in Hb as [_ ?].
Qed.

(** A decoded body comes from a request with that payload. *)
Definition body_from (op : KnownOpcode) (body : DecodedRequestBody) (required : Z) : Prop :=
  exists w, wire_opcode w = op /\ payload = wire_payload w /\ request_ok (fd_limits d) w /\
    body = body_of request w /\ required = success_bytes w.

Lemma object_body_from op id body required :
  object_body op id = Some body -> decode_object request (zlen payload) = Ok id ->
  required = success_bytes (WqObject op id) -> body_from op body required.
Proof.
  intros Hop [Hp Hid]%decode_object_sound ->. exists (WqObject op id).
  split_and!; try done; cbn [request_ok body_of]; rewrite Hop; done.
Qed.

Lemma load_body_sound body required :
  decode_body mem d request (zlen payload) OpLoadProgram = Ok (body, required) ->
  body_from OpLoadProgram body required.
Proof.
  pose proof payload_is_bytes as Hpb.
  intros H. cbn [decode_body] in H. change (size_of LoadProgramRequest) with 80 in H.
  destruct (Z.ltb_spec (zlen payload) 80); [done|].
  destruct (read_payload_total Hsrc Hframe Hheader LoadProgramRequest)
    as ([ctx fmt fl tgt n res] & Hv & Hwf & Hp); [by vm_compute|done|]. rewrite Hv in H.
  cbn [lp_flags lp_context_id lp_format lp_target lp_payload_bytes lp_resident_bytes] in H.
  change (size_of LoadProgramRequest) with 80 in Hp.
  unfold LoadProgramRequest_wire in Hwf. wire_bounds. simpl in Hwf.
  destruct Hwf as (((((Hctx & Hfmt) & _) & [Htl Htf]) & Hn) & Hres).
  destruct (Z.eqb_spec fl 0) as [->|]; [|done]. simpl in H.
  destruct (object_id ctx) as [c|] eqn:Hc; [|done]. apply object_id_Ok in Hc as [-> Hc]; [|lia].
  unfold ArtifactFormat_new, nonzero in H. destruct (Z.eqb_spec fmt 0); [done|]. simpl in H.
  destruct (Z.eqb_spec n 0); [done|]. destruct (Z.eqb_spec res 0); [done|]. simpl in H.
  unfold checked_add in H. destruct (Z.leb_spec (80 + n) U64_MAX); [|done]. simpl in H.
  destruct (Z.eqb_spec (80 + n) (zlen payload)) as [Hlen|]; [|done]. simpl in H.
  destruct (Z.ltb_spec (dl_max_artifact_bytes (fd_limits d)) n); [done|].
  unfold ReadableRegion_new in H. dstep H. simpl in H. destruct (checked_range_u64 _ _ _); simplify_eq.
  set (data := slice 80 (zlen payload - 80) payload) in *.
  assert (Hd : zlen data = n) by (subst data; rewrite zlen_slice; lia).
  exists (WqLoadProgram ctx fmt tgt data res).
  cbn [wire_opcode wire_payload request_ok body_of success_bytes]. rewrite Hd.
  split_and!; try done; try lia.
  - eapply Forall_impl; [exact Htf|]. simpl. intros. lia.
  - intros He. rewrite He in Hd. unfold zlen in Hd. simpl in Hd. lia.
  - by apply is_bytes_slice.
Qed.

Lemma allocate_body_sound body required :
  decode_body mem d request (zlen payload) OpAllocateBuffer = Ok (body, required) ->
  body_from OpAllocateBuffer body required.
Proof.
  intros H. cbn [decode_body] in H. dstep H. apply expect_payload_bytes_Ok in Heqr.
  destruct (exact_payload_total Hsrc Hframe Hheader AllocateBufferRequest)
    as ([ctx n al dom r0 us r1] & Hv & Hwf & Hp); [by vm_compute|done|]. rewrite Hv in H.
  cbn [ab_context_id ab_bytes ab_alignment ab_memory_domain ab_reserved0 ab_usage ab_reserved1] in H.
  unfold AllocateBufferRequest_wire in Hwf. wire_bounds. simpl in Hwf.
  destruct Hwf as ((((((Hctx & Hnb) & Hab) & _) & _) & Hub) & _).
  destruct (object_id ctx) as [c|] eqn:Hc; [|done]. apply object_id_Ok in Hc as [-> Hc]; [|lia].
  destruct (bool_decide_reflect (r0 = [0; 0; 0; 0; 0; 0; 0])) as [->|]; [|done]. simpl in H.
  destruct (Z.eqb_spec r1 0) as [->|]; [|done]. simpl in H.
  destruct (MemoryDomain_try_from dom) as [domain|] eqn:Hdom; [|done]. simpl in H.
  apply MemoryDomain_try_from_Ok in Hdom as ->.
  destruct (BufferUsage_from_bits us) as [u|] eqn:Hu; [|done]. simpl in H.
  apply BufferUsage_from_bits_Some in Hu as [-> Hu]; [|lia].
  destruct (Z.eqb_spec us 0); [done|].
  destruct (BufferDesc_new n al domain us) as [desc|] eqn:Hd; [|done]. simpl in H.
  apply BufferDesc_new_Ok in Hd as (-> & Hn & Hal & _). simpl in H.
  destruct (Z.ltb_spec (dl_max_buffer_bytes (fd_limits d)) n); [done|].
  destruct (supports_memory_domain _ domain) eqn:Hsup; [|done]. simpl in H. simplify_eq.
  eexists (WqAllocateBuffer ctx (Build_BufferDesc n al domain us)).
  cbn [wire_opcode wire_payload request_ok body_of success_bytes bd_bytes bd_alignment bd_usage bd_domain].
  split_and!; try done; lia.
Qed.

Lemma decode_body_sound op body required :
  decode_body mem d request (zlen payload) op = Ok (body, required) -> body_from op body required.
Proof.
  pose proof payload_is_bytes as Hpb.
  destruct op; intros H; try (by apply load_body_sound in H); try (by apply allocate_body_sound in H);
    cbn [decode_body] in H;
    try (destruct (decode_object request (zlen payload)) as [id|] eqn:Hid; [|done];
         injection H as <- <-; by eapply object_body_from).
  - dstep H. apply expect_payload_bytes_Ok in Heqr. simplify_eq. exists WqGetDeviceInfo.
    split_and!; try done. destruct payload; [done|]. unfold zlen in Heqr. simpl in Heqr. lia.
  - dstep H. apply expect_payload_bytes_Ok in Heqr.
    destruct (exact_payload_total Hsrc Hframe Hheader CreateContextRequest) as ([fl rv] & Hv & _ & Hp);
      [by vm_compute|done|]. rewrite Hv in H. cbn [cc_flags cc_reserved] in H.
    destruct (Z.eqb_spec fl 0) as [->|]; [|done]. simpl in H.
    destruct (Z.eqb_spec rv 0) as [Hrv|]; [subst rv|done]. simpl in H. simplify_eq. by exists WqCreateContext.
  - destruct (decode_transfer _ _ _) as [[id r]|] eqn:Ht; [|done].
    apply decode_transfer_sound in Ht as (Hid & Hr & Hlen & Hp).
    dstep H. simplify_eq. unfold ReadableRegion_new in *.
    destruct (checked_range_u64 _ _ _); simplify_eq.
    set (data := slice 24 (zlen payload - 24) payload) in *.
    assert (Hd : zlen data = br_bytes r) by (destruct Hr as (? & ? & ?); subst data; rewrite zlen_slice; lia).
    exists (WqWriteBuffer id (br_offset r) data).
    cbn [wire_opcode wire_payload request_ok body_of success_bytes]. rewrite Hd.
    destruct r as [off n]. split_and!; try done. by apply is_bytes_slice.
  - destruct (decode_transfer _ _ _) as [[id r]|] eqn:Ht; [|done].
    apply decode_transfer_sound in Ht as (Hid & Hr & Hlen & Hp).
    dstep H. simplify_eq. apply checked_add_Some in Heqo as [-> ?].
    change DECODER_RESPONSE_HEADER_BYTES with 16 in *.
    exists (WqReadBuffer id (br_offset r) (br_bytes r)).
    cbn [wire_opcode wire_payload request_ok body_of success_bytes].
    destruct r as [off n]. split_and!; try done. rewrite Hp, Hlen. rewrite Z.add_0_r, Z.sub_diag.
    unfold slice. by rewrite take_0, app_nil_r.
  - dstep H. apply expect_payload_bytes_Ok in Heqr.
    destruct (exact_payload_total Hsrc Hframe Hheader CreateQueueRequest) as ([ctx fl rv] & Hv & Hwf & Hp);
      [by vm_compute|done|]. rewrite Hv in H. cbn [cq_flags cq_reserved cq_context_id] in H.
    unfold CreateQueueRequest_wire in Hwf. wire_bounds. simpl in Hwf.
    destruct (Z.eqb_spec fl 0) as [->|]; [|done]. simpl in H.
    destruct (Z.eqb_spec rv 0) as [Hrv|]; [subst rv|done]. simpl in H.
    destruct (object_id ctx) as [c|] eqn:Hc; [|done]. apply object_id_Ok in Hc as [-> Hc]; [|lia].
    simplify_eq. by exists (WqCreateQueue ctx).
  - destruct (decode_submit _ _ _ _) as [[[[q p] bs] t]|] eqn:Ht; [|done].
    apply decode_submit_sound in Ht as (wbs & tmo & Hp & Hok & -> & ->).
    simplify_eq. by exists (WqSubmit q p wbs tmo).
Qed.

Lemma bytes_fit : 16 + zlen payload <= U64_MAX.
Proof. pose proof (so_fits _ _ Hsrc) as Hf. rewrite Hframe, zlen_app in Hf. lia. Qed.

Lemma region_complete offset n :
  16 <= offset -> 0 <= n -> offset + n <= 16 + zlen payload ->
  ReadableRegion_new request offset n =
    Ok {| rr_source := request; rr_offset := offset; rr_len := n |}.
Proof.
  intros Ho Hn Hle. unfold ReadableRegion_new. rewrite (so_len _ _ Hsrc).
  pose proof (so_fits _ _ Hsrc). rewrite checked_range_u64_spec by done.
  rewrite Hframe, zlen_app. by zcmp.
Qed.

Lemma load_body_complete ctx fmt tgt data res :
  let w := WqLoadProgram ctx fmt tgt data res in
  request_ok (fd_limits d) w -> payload = wire_payload w ->
  decode_body mem d request (zlen payload) OpLoadProgram = Ok (body_of request w, success_bytes w).
Proof.
  intros w (Hc & Hf & Htl & Htf & Hne & Hb & Hmax & Hres) Hp. pose proof bytes_fit as Hfit.
  cbn [wire_payload w] in Hp. set (v := Build_LoadProgramRequest _ _ _ _ _ _) in Hp.
  assert (0 < zlen data) by (destruct data; [done|]; unfold zlen; simpl; lia).
  assert (Hwf : wire_wf v).
  { unfold LoadProgramRequest_wire. wire_bounds. unfold id_ok in *. simpl.
    rewrite Hp, zlen_app in Hfit. pose proof (zlen_nonneg (as_bytes v)).
    split_and!; try lia. eapply Forall_impl; [exact Htf|]. simpl. intros. lia. }
  pose proof (zlen_as_bytes v Hwf) as Hz. change (size_of LoadProgramRequest) with 80 in Hz.
  assert (zlen payload = 80 + zlen data) as Hlen by (rewrite Hp, zlen_app; lia).
  cbn [decode_body]. change (size_of LoadProgramRequest) with 80.
  rewrite (proj2 (Z.ltb_ge _ _)) by lia.
  rewrite (read_payload_value Hsrc Hframe Hheader LoadProgramRequest v data);
    [|by vm_compute|done|done].
  subst v. cbn [lp_flags lp_context_id lp_format lp_target lp_payload_bytes lp_resident_bytes].
  unfold id_ok in Hc.
  rewrite (proj2 (object_id_Ok ctx ctx ltac:(lia))) by (split; unfold id_ok; done || lia).
  unfold ArtifactFormat_new, nonzero, checked_add. simpl. zcmp.
  rewrite region_complete; [done|by vm_compute|lia|]. change (REQUEST_HEADER_BYTES + 80) with 96. lia.
Qed.

Lemma allocate_body_complete ctx desc :
  let w := WqAllocateBuffer ctx desc in
  request_ok (fd_limits d) w -> payload = wire_payload w ->
  decode_body mem d request (zlen payload) OpAllocateBuffer = Ok (body_of request w, success_bytes w).
Proof.
  intros w (Hc & Hn & Hmax & Hal & Hpow & Hu & Hsup) Hp. destruct desc as [n al dom us]. simpl in *.
  cbn [wire_payload w] in Hp. set (v := Build_AllocateBufferRequest _ _ _ _ _ _ _) in Hp.
  assert (Hwf : wire_wf v).
  { unfold AllocateBufferRequest_wire. wire_bounds. unfold id_ok in *. simpl.
    split_and!; try lia; try done; try (destruct dom; simpl; lia). repeat constructor; lia. }
  cbn [decode_body].
  rewrite (proj2 (expect_payload_bytes_Ok _ _ tt)) by (rewrite Hp; by apply zlen_as_bytes).
  rewrite (read_payload_value Hsrc Hframe Hheader AllocateBufferRequest v []);
    [|by vm_compute|done|by rewrite app_nil_r].
  subst v.
  cbn [ab_context_id ab_bytes ab_alignment ab_memory_domain ab_reserved0 ab_usage ab_reserved1
       bd_bytes bd_alignment bd_domain bd_usage].
  unfold id_ok in Hc.
  rewrite (proj2 (object_id_Ok ctx ctx ltac:(lia))) by (split; unfold id_ok; done || lia). simpl.
  rewrite MemoryDomain_roundtrip. simpl.
  rewrite (proj2 (BufferUsage_from_bits_Some us us ltac:(lia))) by lia. simpl.
  rewrite (proj2 (Z.eqb_neq us 0)) by lia.
  rewrite (proj2 (BufferDesc_new_Ok n al dom us (Build_BufferDesc n al dom us))).
  - simpl. zcmp. by rewrite Hsup.
  - split_and!; [done|lia|done|lia|]. apply usage_contained. lia.
Qed.

Lemma decode_body_complete w :
  mem = true -> request_ok (fd_limits d) w -> payload = wire_payload w ->
  decode_body mem d request (zlen payload) (wire_opcode w) = Ok (body_of request w, success_bytes w).
Proof.
  intros Hmem Hok Hp. pose proof bytes_fit as Hfit.
  destruct w as [| |op id|ctx desc|id off data|id off n|ctx fmt tgt data res|ctx|q p bs tmo];
    cbn [wire_opcode].
  - subst payload. done.
  - cbn [decode_body].
    rewrite (proj2 (expect_payload_bytes_Ok _ _ tt)) by (rewrite Hp; done).
    rewrite (read_payload_value Hsrc Hframe Hheader CreateContextRequest
      {| cc_flags := 0; cc_reserved := 0 |} []); [done|by vm_compute|by vm_compute|done].
  - destruct Hok as [[body Hbody] Hid].
    pose proof (decode_object_complete id Hid Hp) as Hd.
    destruct op; simpl in Hbody; simplify_eq; cbn [decode_body]; by rewrite Hd.
  - by apply allocate_body_complete.
  - destruct Hok as (Hid & Hr & Hb). cbn [wire_payload] in Hp. pose proof (zlen_nonneg data).
    assert (Hlen : zlen payload = 24 + zlen data).
    { rewrite Hp, zlen_app, zlen_as_bytes; [done|]. destruct Hr as (? & ? & ?).
      unfold TransferBufferRequest_wire. wire_bounds. unfold id_ok in Hid. simpl in *. lia. }
    cbn [decode_body].
    rewrite (decode_transfer_complete true id
      {| br_offset := off; br_bytes := zlen data |} data); [|done|done|simpl; intros; lia|done|done].
    cbn [br_bytes]. rewrite region_complete; [done|by vm_compute|lia|].
    change (REQUEST_HEADER_BYTES + size_of TransferBufferRequest) with 40. lia.
  - destruct Hok as (Hid & Hr & Hb). cbn [wire_payload] in Hp. cbn [decode_body].
    destruct Hr as (? & ? & ?). simpl in *.
    rewrite (decode_transfer_complete false id
      {| br_offset := off; br_bytes := n |} []); [|done|done|done|done|by rewrite app_nil_r].
    cbn [br_bytes].
    change DECODER_RESPONSE_HEADER_BYTES with 16. unfold checked_add. by zcmp.
  - by apply load_body_complete.
  - cbn [decode_body]. simpl in Hok. cbn [wire_payload] in Hp.
    assert (Hwf : wire_wf {| cq_context_id := ctx; cq_flags := 0; cq_reserved := 0 |}).
    { unfold CreateQueueRequest_wire. wire_bounds. unfold id_ok in Hok. simpl. lia. }
    rewrite (proj2 (expect_payload_bytes_Ok _ _ tt)) by (rewrite Hp; by apply zlen_as_bytes).
    rewrite (read_payload_value Hsrc Hframe Hheader CreateQueueRequest
      {| cq_context_id := ctx; cq_flags := 0; cq_reserved := 0 |} []);
      [|by vm_compute|done|by rewrite app_nil_r]. simpl.
    unfold id_ok in Hok.
    rewrite (proj2 (object_id_Ok ctx ctx ltac:(lia))) by (split; unfold id_ok; done || lia). done.
  - cbn [decode_body].
    rewrite (decode_submit_complete q p bs tmo Hmem Hok Hp). done.
Qed.

End Bodies.

(** ** Frames *)

Lemma zlen_request_header (h : RequestHeader) : zlen (as_bytes h) = 16.
Proof. unfold zlen, as_bytes. done. Qed.

Lemma zlen_frame_of id w : zlen (frame_of id w) = 16 + zlen (wire_payload w).
Proof. unfold frame_of. by rewrite zlen_app, zlen_request_header. Qed.

(** Everything the checks of [decode] establish besides the body. *)
Definition frame_ok (l : DecoderLimits) (capacity request_id : Z) (w : WireRequest) : Prop :=
  0 < request_id <= U64_MAX /\ request_ok l w /\
  16 + zlen (wire_payload w) <= dl_max_request_bytes l /\
  success_bytes w <= dl_max_response_bytes l /\ success_bytes w <= capacity.

Lemma decode_frame_sound mem d request bytes capacity r :
  source_of request bytes -> FrameDecoder_decode mem d request capacity = Ok r ->
  exists w, bytes = frame_of (dr_request_id r) w /\
    frame_ok (fd_limits d) capacity (dr_request_id r) w /\
    dr_body r = body_of request w /\ dr_required_response_bytes r = success_bytes w.
Proof.
  intros Hsrc H. unfold FrameDecoder_decode in H.
  change DECODER_RESPONSE_HEADER_BYTES with 16 in H. change REQUEST_HEADER_BYTES with 16 in H.
  rewrite (so_len _ _ Hsrc) in H. dstep H. destruct (Z.ltb_spec (zlen bytes) 16); [done|].
  destruct (read_wire_total Hsrc RequestHeader 0) as ([op fl n id] & Hh & Hwf & Hs);
    [by vm_compute|lia|done|]. rewrite Hh in H. cbn [map_err rq_request_id rq_payload_bytes rq_flags] in H.
  unfold RequestHeader_wire in Hwf. wire_bounds. simpl in Hwf.
  destruct (Z.ltb_spec (dl_max_request_bytes (fd_limits d)) (zlen bytes)); [done|].
  destruct (Z.eqb_spec (zlen bytes) (16 + n)) as [Hlen|]; [|done]. cbn [negb] in H.
  destruct (Z.eqb_spec id 0); [done|].
  destruct (Z.eqb_spec fl 0) as [->|]; [|done]. cbn [negb] in H.
  unfold RequestHeader_known_opcode in H. cbn [rq_opcode] in H.
  destruct (KnownOpcode_try_from op) as [k|] eqn:Hop; [|done]. simpl in H.
  apply KnownOpcode_try_from_Ok in Hop as ->.
  set (payload := slice 16 n bytes).
  set (header := as_bytes {| rq_opcode := opcode_as_u16 k; rq_flags := 0; rq_payload_bytes := n;
                             rq_request_id := id |}) in *.
  assert (Hframe : bytes = header ++ payload).
  { rewrite <- Hs. unfold payload. change (size_of RequestHeader) with 16.
    rewrite (slice_app 0 16 n) by lia. rewrite <- (slice_all bytes) at 1. f_equal. lia. }
  assert (Hheader : zlen header = 16) by apply zlen_request_header.
  assert (Hpl : zlen payload = n) by (unfold payload; rewrite zlen_slice; lia).
  rewrite <- Hpl in H at 1.
  destruct (decode_body mem d request (zlen payload) k) as [[body required]|[]] eqn:Hb; try done.
  simpl in H. dstep H. dstep H. bool_to_prop. injection H as <-. simpl.
  apply (decode_body_sound Hsrc Hframe Hheader d mem) in Hb as (w & Hwop & Hwp & Hok & -> & ->).
  exists w. split_and!; try done.
  - rewrite Hframe. unfold frame_of. rewrite <- Hwp, Hwop, Hpl. done.
  - unfold frame_ok. rewrite <- Hwp. split_and!; try done; lia.
Qed.

Lemma decode_frame_complete d request capacity request_id w :
  source_of request (frame_of request_id w) -> frame_ok (fd_limits d) capacity request_id w ->
  dl_max_request_bytes (fd_limits d) <= U32_MAX -> 16 <= capacity ->
  FrameDecoder_decode true d request capacity =
    Ok {| dr_request_id := request_id; dr_required_response_bytes := success_bytes w;
          dr_body := body_of request w |}.
Proof.
  intros Hsrc (Hid & Hok & Hreq & Hresp & Hcap) Hmax H16. pose proof (zlen_nonneg (wire_payload w)).
  set (h := RequestHeader_new (wire_opcode w) 0 (zlen (wire_payload w)) request_id).
  assert (Hwf : wire_wf h).
  { unfold RequestHeader_wire. wire_bounds. pose proof (opcode_is_u16 (wire_opcode w)). simpl. lia. }
  unfold FrameDecoder_decode. change DECODER_RESPONSE_HEADER_BYTES with 16.
  change REQUEST_HEADER_BYTES with 16. rewrite (so_len _ _ Hsrc), zlen_frame_of.
  rewrite (proj2 (Z.ltb_ge _ _)) by lia. rewrite (proj2 (Z.ltb_ge _ _)) by lia.
  rewrite (read_wire_value Hsrc RequestHeader 0 h); [|by vm_compute|lia| |done|].
  2:{ rewrite zlen_frame_of. change (size_of RequestHeader) with 16. lia. }
  2:{ unfold frame_of. fold h. change (size_of RequestHeader) with 16.
      rewrite <- (zlen_request_header h). apply slice_prefix. }
  cbn [map_err h RequestHeader_new rq_request_id rq_payload_bytes rq_flags]. subst h.
  rewrite (proj2 (Z.ltb_ge _ _)) by lia. rewrite Z.eqb_refl. cbn [negb].
  rewrite (proj2 (Z.eqb_neq _ _)) by lia. cbn [negb Z.eqb].
  unfold RequestHeader_known_opcode. cbn [rq_opcode RequestHeader_new]. rewrite opcode_roundtrip. simpl.
  rewrite (decode_body_complete Hsrc eq_refl (zlen_request_header _) d true w); [|done..]. simpl.
  by zcmp.
Qed.

(** ** Properties *)

(** C8: an accepted frame is exactly the encoding of a well-formed request
    within the device's limits: the byte string is the canonical frame of that
    request, the decoded body is the request, and the response capacity covers
    its largest success response.  Nothing else is accepted. *)
Theorem decode_sound mem d request bytes capacity r :
  source_of request bytes -> FrameDecoder_decode mem d request capacity = Ok r ->
  exists w, bytes = frame_of (dr_request_id r) w /\
    frame_ok (fd_limits d) capacity (dr_request_id r) w /\
    dr_body r = body_of request w /\ dr_required_response_bytes r = success_bytes w.
Proof. apply decode_frame_sound. Qed.

Definition example_limits : DecoderLimits := {|
  dl_max_chain_descriptors := 8; dl_max_request_bytes := 4096; dl_max_response_bytes := 4096;
  dl_max_bindings := 4; dl_max_buffer_bytes := 1024; dl_max_artifact_bytes := 1024;
  dl_capabilities := 3;
|}.

Definition example_submit : WireRequest :=
  WqSubmit 5 6
    [ {| db_buffer_id := 8; db_range := {| br_offset := 0; br_bytes := 4 |}; db_slot := 9;
         db_access := AccessWrite |};
      {| db_buffer_id := 7; db_range := {| br_offset := 2; br_bytes := 4 |}; db_slot := 1;
         db_access := AccessRead |} ] 0.

Lemma example_source w id :
  is_bytes (frame_of id w) -> zlen (frame_of id w) <= U64_MAX ->
  source_of (slice_source (frame_of id w)) (frame_of id w).
Proof. apply slice_source_of. Qed.

Lemma example_frame_bytes : is_bytes (frame_of 3 example_submit).
Proof. apply (bool_decide_unpack _). by vm_compute. Qed.

Lemma decode_sound_witness :
  exists w, frame_of 3 example_submit = frame_of 3 w /\
    frame_ok example_limits 64 3 w.
Proof.
  destruct (FrameDecoder_decode true {| fd_limits := example_limits |}
    (slice_source (frame_of 3 example_submit)) 64) as [r|] eqn:E; [|by vm_compute in E].
  assert (Hid : dr_request_id r = 3) by (vm_compute in E; by injection E as <-).
  destruct (decode_sound true {| fd_limits := example_limits |}
    (slice_source (frame_of 3 example_submit)) (frame_of 3 example_submit) 64 r)
    as (w & Hw & Hok & _); [|done|].
  - apply example_source; [apply example_frame_bytes|by vm_compute].
  - exists w. by rewrite Hid in *.
Defined.

(** C7: every well-formed request within the limits is accepted: decoding its
    frame returns its identifier, its body (bindings sorted by slot) and the
    capacity its success response needs. *)
Theorem decode_complete d request capacity request_id w :
  source_of request (frame_of request_id w) -> frame_ok (fd_limits d) capacity request_id w ->
  dl_max_request_bytes (fd_limits d) <= U32_MAX -> 16 <= capacity ->
  FrameDecoder_decode true d request capacity =
    Ok {| dr_request_id := request_id; dr_required_response_bytes := success_bytes w;
          dr_body := body_of request w |}.
Proof. apply decode_frame_complete. Qed.

Lemma example_submit_ok : request_ok example_limits example_submit.
Proof.
  unfold example_submit, request_ok, id_ok.
  split; [lia|]. split; [lia|]. split; [discriminate|].
  split; [vm_compute; discriminate|]. split; [vm_compute; discriminate|].
  split; [|split; [|lia]].
  - repeat constructor; simpl; unfold id_ok; lia.
  - apply (bool_decide_unpack _). by vm_compute.
Qed.

Lemma decode_complete_witness :
  FrameDecoder_decode true {| fd_limits := example_limits |}
    (slice_source (frame_of 3 example_submit)) 24 =
  Ok {| dr_request_id := 3; dr_required_response_bytes := 24;
        dr_body := body_of (slice_source (frame_of 3 example_submit)) example_submit |}.
Proof.
  apply (decode_complete {| fd_limits := example_limits |} _ 24 3 example_submit); [|unfold frame_ok; split_and!|vm_compute; done|lia].
  - apply example_source; [apply example_frame_bytes|by vm_compute].
  - lia.
  - lia.
  - exact example_submit_ok.
  - by vm_compute.
  - by vm_compute.
  - by vm_compute.
Defined.
