(* ===== verification/Frame.v ===== *)
(** * Frame preflight ([crates/virtio-accel-device/src/frame.rs])

    The byte-oriented entry point of the command engine: chain layout, port
    lengths, decoding, and the error response of a recoverable protocol error.
    Also the status codes of backend and table errors ([lib.rs]). *)

From Stdlib Require Import ZArith Lia.
From stdpp Require Import prelude list.
From S2P Require Import Prelude Codec Proto Transport Core ObjectTable Regions Response Decoder DecoderSpec.

(** ** [lib.rs]: status codes *)

Definition status_from_backend_error (error : BackendError) : StatusCode :=
  match error with
  | BeUnsupported => STATUS_UNSUPPORTED
  | BeIncompatible => STATUS_INCOMPATIBLE
  | BeInvalidArgument => STATUS_INVALID_ARGUMENT
  | BeOutOfBounds => STATUS_OUT_OF_BOUNDS
  | BeBusy => STATUS_BUSY
  | BeOutOfMemory => STATUS_OUT_OF_MEMORY
  | BeResourceLimit => STATUS_RESOURCE_LIMIT
  | BeDeadlineExpired => STATUS_DEADLINE_EXPIRED
  | BeDeviceLost => STATUS_DEVICE_LOST
  | BePermissionDenied => STATUS_PERMISSION_DENIED
  | BeExternal _ _ => STATUS_INTERNAL_ERROR
  end.

Definition status_from_object_table_error (error : ObjectTableError) : StatusCode :=
  match error with
  | InvalidId => STATUS_INVALID_ARGUMENT
  | WrongKind | StaleId => STATUS_STALE_OBJECT
  | Full => STATUS_RESOURCE_LIMIT
  | AllocationFailed => STATUS_OUT_OF_MEMORY
  end.

(** ** [frame.rs] *)

Inductive UnusableFrame :=
  | UnusableChainLayout (error : ChainLayoutError)
  | UnusableRequest (error : UnrecoverableDecodeError)
  | UnusableInsufficientResponse (request_id required available : Z).

Inductive FramePreflight :=
  | PreflightReady (request : DecodedRequest)
  | PreflightRejected (request_id : Z) (status : StatusCode) (used : Z)
  | PreflightUnusable (error : UnusableFrame).

Inductive FramePreflightError := PreflightResponseWrite (error : ResponseWriteError).

Definition preflight_command_frame {S} `{ByteSink S} (mem : bool) (decoder : FrameDecoder)
    (regions : list ChainRegion) (request : ByteSource) (response : S) :
    S * result FramePreflight FramePreflightError :=
  match validate_chain_layout regions (dl_max_chain_descriptors (fd_limits decoder)) with
  | Err error => (response, Ok (PreflightUnusable (UnusableChainLayout error)))
  | Ok layout =>
      match ChainLayout_validate_port_lengths layout (src_len request) (sink_len response) with
      | Err error => (response, Ok (PreflightUnusable (UnusableChainLayout error)))
      | Ok _ =>
          match FrameDecoder_decode mem decoder request (sink_len response) with
          | Ok request => (response, Ok (PreflightReady request))
          | Err (DecodeProtocol request_id status) =>
              let '(response, r) :=
                ResponseWriter_write_empty status request_id
                  (ResponseWriter_new response (dl_max_response_bytes (fd_limits decoder))) in
              (response,
               let? used := map_err PreflightResponseWrite r in
               Ok (PreflightRejected request_id status used))
          | Err (DecodeUnrecoverable error) =>
              (response, Ok (PreflightUnusable (UnusableRequest error)))
          | Err (DecodeInsufficientResponse request_id required available) =>
              (response,
               Ok (PreflightUnusable (UnusableInsufficientResponse request_id required available)))
          end
      end
  end.

(** ** Lemmas *)

(** Statuses the device sends are distinguishable codes of the protocol. *)
Lemma backend_status_known e : StatusCode_is_known (status_from_backend_error e) = true.
Proof. by destruct e. Qed.

Lemma backend_status_not_ok e : status_from_backend_error e <> STATUS_OK.
Proof. by destruct e. Qed.

(** A protocol error is only reported once the response header fits. *)
Lemma decode_protocol_capacity mem d request capacity request_id status :
  FrameDecoder_decode mem d request capacity = Err (DecodeProtocol request_id status) ->
  16 <= capacity.
Proof.
  unfold FrameDecoder_decode. change DECODER_RESPONSE_HEADER_BYTES with 16.
  destruct (Z.ltb_spec capacity 16); [done|]. done.
Qed.

Section Preflight.
Context {S : Type} `{ByteSinkSpec S}.

Lemma preflight_spec_all mem d regions request (response : S) response' r :
  sink_inv response -> 16 <= dl_max_response_bytes (fd_limits d) ->
  preflight_command_frame mem d regions request response = (response', r) ->
  sink_inv response' /\
  match r with
  | Ok (PreflightReady req) => response' = response /\
      FrameDecoder_decode mem d request (zlen (sink_content response)) = Ok req /\
      (exists layout, validate_chain_layout regions (dl_max_chain_descriptors (fd_limits d)) = Ok layout /\
         cl_readable_bytes layout = src_len request /\
         cl_writable_bytes layout = zlen (sink_content response))
  | Ok (PreflightUnusable _) => response' = response
  | Ok (PreflightRejected request_id status used) => used = 16 /\
      FrameDecoder_decode mem d request (zlen (sink_content response)) =
        Err (DecodeProtocol request_id status) /\
      sink_content response' = splice 0 (response_frame status request_id []) (sink_content response)
  | Err _ => False
  end.
Proof.
  intros Hs Hmax. unfold preflight_command_frame. rewrite (sink_len_spec _ Hs).
  destruct (validate_chain_layout _ _) as [layout|] eqn:Hl; [|by intros [= <- <-]].
  unfold ChainLayout_validate_port_lengths.
  destruct (Z.eqb_spec (src_len request) (cl_readable_bytes layout)); simpl; [|by intros [= <- <-]].
  destruct (Z.eqb_spec (zlen (sink_content response)) (cl_writable_bytes layout)); simpl;
    [|by intros [= <- <-]].
  destruct (FrameDecoder_decode _ _ _ _) as [req|[u|id st|id rq av]] eqn:Hd.
  - intros [= <- <-]. split_and!; try done. by exists layout.
  - by intros [= <- <-].
  - pose proof (decode_protocol_capacity _ _ _ _ _ _ Hd) as Hcap.
    pose proof (write_empty_spec st id (dl_max_response_bytes (fd_limits d)) response Hs) as Hw.
    destruct (ResponseWriter_write_empty _ _ _) as [s' [used|we]].
    + destruct Hw as (_ & -> & Hs' & Hc). by intros [= <- <-].
    + exfalso. destruct Hw as [Hw _]. unfold frame_check in Hw.
      rewrite (proj2 (Z.ltb_ge _ _)), (proj2 (Z.ltb_ge _ _)) in Hw by lia. simpl in Hw.
      by rewrite (proj2 (Z.ltb_ge _ _)) in Hw by lia.
  - by intros [= <- <-].
Qed.

End Preflight.

(** ** Properties *)

(** Preflight touches the response only when it rejects: a ready or an
    unusable frame leaves every response byte as it was, a rejected one writes
    exactly the 16-byte error header with its status and identifier, and
    writing that header cannot fail. *)
Theorem preflight_response_effect {S} `{ByteSinkSpec S} mem d regions request (response : S) response' r :
  sink_inv response -> 16 <= dl_max_response_bytes (fd_limits d) ->
  preflight_command_frame mem d regions request response = (response', r) ->
  match r with
  | Ok (PreflightReady _) | Ok (PreflightUnusable _) => response' = response
  | Ok (PreflightRejected request_id status used) => used = 16 /\
      sink_content response' = splice 0 (response_frame status request_id []) (sink_content response)
  | Err _ => False
  end.
Proof.
  intros Hs Hmax Hp. apply preflight_spec_all in Hp as [_ Hp]; [|done..].
  destruct r as [[]|]; naive_solver.
Qed.

Lemma preflight_response_effect_witness :
  let '(s, r) := preflight_command_frame true {| fd_limits := example_limits |}
    [ChainRegion_readable 25; ChainRegion_writable 24]
    (slice_source (frame_of 9 WqCreateContext ++ [0])) (repeat 5 24) in
  r = Ok (PreflightRejected 9 STATUS_INVALID_ARGUMENT 16) /\
  s = splice 0 (response_frame STATUS_INVALID_ARGUMENT 9 []) (repeat 5 24).
Proof.
  destruct (preflight_command_frame _ _ _ _ _) as [s r] eqn:E.
  assert (Hs : sink_inv (S := list Z) (repeat 5 24)) by (vm_compute; done).
  assert (Hm : 16 <= dl_max_response_bytes (fd_limits {| fd_limits := example_limits |}))
    by (vm_compute; done).
  pose proof (preflight_response_effect true {| fd_limits := example_limits |} _ _ _ s r Hs Hm E) as H.
  assert (Hr : r = Ok (PreflightRejected 9 STATUS_INVALID_ARGUMENT 16))
    by (vm_compute in E; by injection E as <- <-).
  subst r. destruct H as [_ H]. split; [reflexivity|exact H].
Defined.
