(* ===== verification/State.v ===== *)
(** * Device state ([crates/virtio-accel-device/src/state.rs])

    The typed object graph of one device: five object tables, the child counts
    of contexts, the in-flight reference counts of queues, programs and
    buffers, the retained bytes, and the release transitions
    [Live -> Releasing -> (restored | removed)].

    An operation takes the state and returns the new one with its result; an
    operation that calls a provider closure also threads the provider's world
    [W].  [mem] arguments say whether a reservation of memory succeeds. *)

From Stdlib Require Import ZArith Lia.
From stdpp Require Import prelude list sorting.
From S2P Require Import Prelude Proto Core ObjectTable.

Inductive DeviceStateConfigError :=
  | CfgZeroLimit
  | CfgBindingLimit
  | CfgCountOverflow
  | CfgReferenceCountOverflow.

Inductive DeviceStateError :=
  | DsInvalidArgument
  | DsInvalidObject
  | DsStaleObject
  | DsContextMismatch
  | DsBusy
  | DsResourceLimit
  | DsOutOfMemory
  | DsReleasing
  | DsInvalidTransition
  | DsReferenceCountOverflow.

#[global] Instance DeviceStateError_eq_dec : EqDecision DeviceStateError.
Proof. solve_decision. Defined.

Definition map_table_error (error : ObjectTableError) : DeviceStateError :=
  match error with
  | InvalidId => DsInvalidObject
  | WrongKind | StaleId => DsStaleObject
  | Full => DsResourceLimit
  | AllocationFailed => DsOutOfMemory
  end.

Inductive CreateError (E : Type) :=
  | CreateState (error : DeviceStateError)
  | CreateProvider (error : E).
Arguments CreateState {E}.
Arguments CreateProvider {E}.

Inductive BufferCreateOutcome :=
  | BufferAdmitted (id : ObjectId)
  | BufferCleanupRequired (id : ObjectId) (error : BackendError).

Record RestoreError (R : Type) := {
  re_error : DeviceStateError;
  re_resource : R;
}.
Arguments Build_RestoreError {R}.
Arguments re_error {R}.
Arguments re_resource {R}.

(** ** Resource slots *)

Inductive ReleaseState := Live | Releasing.

Record ResourceSlot (R : Type) := {
  slot_resource : option R;
  slot_release : ReleaseState;
}.
Arguments Build_ResourceSlot {R}.
Arguments slot_resource {R}.
Arguments slot_release {R}.

Definition ResourceSlot_new {R} (resource : R) : ResourceSlot R :=
  {| slot_resource := Some resource; slot_release := Live |}.

(** [get]; [get_mut] has the same answer, the store through it is
    [ResourceSlot_put]. *)
Definition ResourceSlot_get {R} (self : ResourceSlot R) : result R DeviceStateError :=
  ok_or (slot_resource self) DsReleasing.

Definition ResourceSlot_put {R} (resource : R) (self : ResourceSlot R) : ResourceSlot R :=
  {| slot_resource := Some resource; slot_release := slot_release self |}.

Definition ResourceSlot_begin_release {R} (self : ResourceSlot R) :
    ResourceSlot R * result R DeviceStateError :=
  match slot_release self with
  | Releasing => (self, Err DsReleasing)
  | Live =>
      match slot_resource self with
      | None => (self, Err DsReleasing)
      | Some resource => ({| slot_resource := None; slot_release := Releasing |}, Ok resource)
      end
  end.

Definition ResourceSlot_restore {R} (resource : R) (self : ResourceSlot R) :
    ResourceSlot R * result unit (RestoreError R) :=
  match slot_release self, slot_resource self with
  | Releasing, None => ({| slot_resource := Some resource; slot_release := Live |}, Ok tt)
  | _, _ => (self, Err {| re_error := DsInvalidTransition; re_resource := resource |})
  end.

(** ** Counters and policy *)

Record ChildCounts := {
  ch_buffers : Z;
  ch_programs : Z;
  ch_queues : Z;
  ch_events : Z;
}.

Definition ChildCounts_default : ChildCounts :=
  {| ch_buffers := 0; ch_programs := 0; ch_queues := 0; ch_events := 0 |}.

Definition ChildCounts_is_empty (self : ChildCounts) : bool :=
  (ch_buffers self =? 0) && (ch_programs self =? 0) && (ch_queues self =? 0)
  && (ch_events self =? 0).

Record ResourceCounts := {
  rc_contexts : Z;
  rc_buffers : Z;
  rc_programs : Z;
  rc_queues : Z;
  rc_events : Z;
}.

Definition ResourceCounts_default : ResourceCounts :=
  {| rc_contexts := 0; rc_buffers := 0; rc_programs := 0; rc_queues := 0; rc_events := 0 |}.

Definition ResourceCounts_is_empty (self : ResourceCounts) : bool :=
  (rc_contexts self =? 0) && (rc_buffers self =? 0) && (rc_programs self =? 0)
  && (rc_queues self =? 0) && (rc_events self =? 0).

Definition ResourceCounts_total (self : ResourceCounts) : Z :=
  let add := saturating_add U64_MAX in
  add (add (add (add (rc_contexts self) (rc_buffers self)) (rc_programs self)) (rc_queues self))
    (rc_events self).

Definition ResourceCounts_saturating_add (self other : ResourceCounts) : ResourceCounts :=
  let add := saturating_add U64_MAX in {|
  rc_contexts := add (rc_contexts self) (rc_contexts other);
  rc_buffers := add (rc_buffers self) (rc_buffers other);
  rc_programs := add (rc_programs self) (rc_programs other);
  rc_queues := add (rc_queues self) (rc_queues other);
  rc_events := add (rc_events self) (rc_events other);
|}.

Record ResourcePolicy := {
  rp_max_buffer_backing_bytes : Z;
  rp_max_program_resident_bytes : Z;
}.

Definition ResourcePolicy_new (max_buffer_backing_bytes max_program_resident_bytes : Z) :
    option ResourcePolicy :=
  match nonzero max_buffer_backing_bytes, nonzero max_program_resident_bytes with
  | Some b, Some p =>
      Some {| rp_max_buffer_backing_bytes := b; rp_max_program_resident_bytes := p |}
  | _, _ => None
  end.

Record RetainedBytes := {
  rb_buffer_backing : Z;
  rb_program_resident : Z;
}.

Definition RetainedBytes_default : RetainedBytes :=
  {| rb_buffer_backing := 0; rb_program_resident := 0 |}.

Definition RetainedBytes_is_empty (self : RetainedBytes) : bool :=
  (rb_buffer_backing self =? 0) && (rb_program_resident self =? 0).

Definition RetainedBytes_saturating_add (self other : RetainedBytes) : RetainedBytes := {|
  rb_buffer_backing := saturating_add U128_MAX (rb_buffer_backing self) (rb_buffer_backing other);
  rb_program_resident :=
    saturating_add U128_MAX (rb_program_resident self) (rb_program_resident other);
|}.

(** ** Records *)

Record ContextRecord (C : Type) := {
  ctx_slot : ResourceSlot C;
  ctx_children : ChildCounts;
}.
Arguments Build_ContextRecord {C}.
Arguments ctx_slot {C}.
Arguments ctx_children {C}.

Record BufferRecord (B : Type) := {
  buf_slot : ResourceSlot B;
  buf_context_id : ObjectId;
  buf_info : BufferInfo;
  buf_in_flight : Z;
}.
Arguments Build_BufferRecord {B}.
Arguments buf_slot {B}.
Arguments buf_context_id {B}.
Arguments buf_info {B}.
Arguments buf_in_flight {B}.

Record ProgramRecord (P : Type) := {
  prg_slot : ResourceSlot P;
  prg_context_id : ObjectId;
  prg_resident_bytes : Z;
  prg_in_flight : Z;
}.
Arguments Build_ProgramRecord {P}.
Arguments prg_slot {P}.
Arguments prg_context_id {P}.
Arguments prg_resident_bytes {P}.
Arguments prg_in_flight {P}.

Record QueueRecord (Q : Type) := {
  que_slot : ResourceSlot Q;
  que_context_id : ObjectId;
  que_in_flight : Z;
}.
Arguments Build_QueueRecord {Q}.
Arguments que_slot {Q}.
Arguments que_context_id {Q}.
Arguments que_in_flight {Q}.

Record EventRecord (E : Type) := {
  evt_slot : ResourceSlot E;
  evt_context_id : ObjectId;
  evt_queue_id : ObjectId;
  evt_program_id : ObjectId;
  evt_sequence_program_ids : option (list ObjectId);
  evt_buffer_ids : list ObjectId;
}.
Arguments Build_EventRecord {E}.
Arguments evt_slot {E}.
Arguments evt_context_id {E}.
Arguments evt_queue_id {E}.
Arguments evt_program_id {E}.
Arguments evt_sequence_program_ids {E}.
Arguments evt_buffer_ids {E}.

(** [EventRecord::program_ids] *)
Definition evt_program_ids {E} (self : EventRecord E) : list ObjectId :=
  match evt_sequence_program_ids self with
  | Some ids => ids
  | None => [evt_program_id self]
  end.

(** The traits [ResourceRecord] and [ReleasableRecord]: access to the slot. *)
Class ResourceRecord (Rec R : Type) := {
  rec_slot : Rec -> ResourceSlot R;
  rec_with_slot : ResourceSlot R -> Rec -> Rec;
}.

#[global] Instance ContextRecord_resource {C} : ResourceRecord (ContextRecord C) C := {|
  rec_slot := ctx_slot;
  rec_with_slot := fun s r => {| ctx_slot := s; ctx_children := ctx_children r |};
|}.

#[global] Instance BufferRecord_resource {B} : ResourceRecord (BufferRecord B) B := {|
  rec_slot := buf_slot;
  rec_with_slot := fun s r =>
    {| buf_slot := s; buf_context_id := buf_context_id r; buf_info := buf_info r;
       buf_in_flight := buf_in_flight r |};
|}.

#[global] Instance ProgramRecord_resource {P} : ResourceRecord (ProgramRecord P) P := {|
  rec_slot := prg_slot;
  rec_with_slot := fun s r =>
    {| prg_slot := s; prg_context_id := prg_context_id r;
       prg_resident_bytes := prg_resident_bytes r; prg_in_flight := prg_in_flight r |};
|}.

#[global] Instance QueueRecord_resource {Q} : ResourceRecord (QueueRecord Q) Q := {|
  rec_slot := que_slot;
  rec_with_slot := fun s r =>
    {| que_slot := s; que_context_id := que_context_id r; que_in_flight := que_in_flight r |};
|}.

#[global] Instance EventRecord_resource {E} : ResourceRecord (EventRecord E) E := {|
  rec_slot := evt_slot;
  rec_with_slot := fun s r =>
    {| evt_slot := s; evt_context_id := evt_context_id r; evt_queue_id := evt_queue_id r;
       evt_program_id := evt_program_id r;
       evt_sequence_program_ids := evt_sequence_program_ids r;
       evt_buffer_ids := evt_buffer_ids r |};
|}.

(** [record.resource()] and [ensure_releasing] *)
Definition record_resource {Rec R} `{ResourceRecord Rec R} (r : Rec) : result R DeviceStateError :=
  ResourceSlot_get (rec_slot r).

Definition ensure_releasing {Rec R} `{ResourceRecord Rec R} (r : Rec) :
    result unit DeviceStateError :=
  match slot_release (rec_slot r) with
  | Releasing => Ok tt
  | Live => Err DsInvalidTransition
  end.

Definition restore_resource {Rec R} `{ResourceRecord Rec R} (id : ObjectId) (resource : R)
    (table : ObjectTable Rec) : ObjectTable Rec * result unit (RestoreError R) :=
  match ObjectTable_get_mut id table with
  | Err error => (table, Err {| re_error := map_table_error error; re_resource := resource |})
  | Ok (record, put) =>
      let '(slot, r) := ResourceSlot_restore resource (rec_slot record) in
      (put (rec_with_slot slot record), r)
  end.

(** [table.get_mut(id).map_err(map_table_error)?] followed by a store of [f]
    of the record. *)
Definition table_update {Rec} (id : ObjectId) (f : Rec -> Rec) (table : ObjectTable Rec) :
    result (ObjectTable Rec) DeviceStateError :=
  let? (record, put) := map_err map_table_error (ObjectTable_get_mut id table) in
  Ok (put (f record)).

Definition table_get {Rec} (id : ObjectId) (table : ObjectTable Rec) : result Rec DeviceStateError :=
  map_err map_table_error (ObjectTable_get id table).

(** [for id in ids { table.get_mut(id)?.. }]: the updates before a failing one
    stay. *)
Fixpoint table_update_all {Rec} (ids : list ObjectId) (f : Rec -> Rec) (table : ObjectTable Rec) :
    ObjectTable Rec * result unit DeviceStateError :=
  match ids with
  | [] => (table, Ok tt)
  | id :: rest =>
      match table_update id f table with
      | Err e => (table, Err e)
      | Ok table => table_update_all rest f table
      end
  end.

(** Guarded [begin_release] of one record. *)
Definition begin_release_in {Rec R} `{ResourceRecord Rec R} (busy : Rec -> bool) (id : ObjectId)
    (table : ObjectTable Rec) : ObjectTable Rec * result R DeviceStateError :=
  match ObjectTable_get_mut id table with
  | Err e => (table, Err (map_table_error e))
  | Ok (record, put) =>
      if busy record then (table, Err DsBusy)
      else
        let '(slot, r) := ResourceSlot_begin_release (rec_slot record) in
        (put (rec_with_slot slot record), r)
  end.

(** Reference and child counters. *)
Definition add_buffer_ref {B} (r : BufferRecord B) : BufferRecord B :=
  {| buf_slot := buf_slot r; buf_context_id := buf_context_id r; buf_info := buf_info r;
     buf_in_flight := wrapping_add U32_MAX (buf_in_flight r) 1 |}.
Definition drop_buffer_ref {B} (r : BufferRecord B) : BufferRecord B :=
  {| buf_slot := buf_slot r; buf_context_id := buf_context_id r; buf_info := buf_info r;
     buf_in_flight := wrapping_sub U32_MAX (buf_in_flight r) 1 |}.
Definition add_program_ref {P} (r : ProgramRecord P) : ProgramRecord P :=
  {| prg_slot := prg_slot r; prg_context_id := prg_context_id r;
     prg_resident_bytes := prg_resident_bytes r;
     prg_in_flight := wrapping_add U32_MAX (prg_in_flight r) 1 |}.
Definition drop_program_ref {P} (r : ProgramRecord P) : ProgramRecord P :=
  {| prg_slot := prg_slot r; prg_context_id := prg_context_id r;
     prg_resident_bytes := prg_resident_bytes r;
     prg_in_flight := wrapping_sub U32_MAX (prg_in_flight r) 1 |}.
Definition add_queue_ref {Q} (r : QueueRecord Q) : QueueRecord Q :=
  {| que_slot := que_slot r; que_context_id := que_context_id r;
     que_in_flight := wrapping_add U32_MAX (que_in_flight r) 1 |}.
Definition drop_queue_ref {Q} (r : QueueRecord Q) : QueueRecord Q :=
  {| que_slot := que_slot r; que_context_id := que_context_id r;
     que_in_flight := wrapping_sub U32_MAX (que_in_flight r) 1 |}.

Definition with_children {C} (f : ChildCounts -> ChildCounts) (r : ContextRecord C) :
    ContextRecord C := {| ctx_slot := ctx_slot r; ctx_children := f (ctx_children r) |}.

(** The counters of a context; [ChildEvent] is the one the source names by its
    field only. *)
Inductive ChildKind := ChildBuffer | ChildProgram | ChildQueue | ChildEvent.

#[global] Instance ChildKind_eq_dec : EqDecision ChildKind.
Proof. solve_decision. Defined.

Definition child_count (k : ChildKind) (c : ChildCounts) : Z :=
  match k with
  | ChildBuffer => ch_buffers c
  | ChildProgram => ch_programs c
  | ChildQueue => ch_queues c
  | ChildEvent => ch_events c
  end.

Definition set_child (k : ChildKind) (n : Z) (c : ChildCounts) : ChildCounts := {|
  ch_buffers := match k with ChildBuffer => n | _ => ch_buffers c end;
  ch_programs := match k with ChildProgram => n | _ => ch_programs c end;
  ch_queues := match k with ChildQueue => n | _ => ch_queues c end;
  ch_events := match k with ChildEvent => n | _ => ch_events c end;
|}.

(** [context.children.<kind> += 1] and [-= 1] *)
Definition add_child {C} (k : ChildKind) : ContextRecord C -> ContextRecord C :=
  with_children (fun c => set_child k (wrapping_add U32_MAX (child_count k c) 1) c).
Definition drop_child {C} (k : ChildKind) : ContextRecord C -> ContextRecord C :=
  with_children (fun c => set_child k (wrapping_sub U32_MAX (child_count k c) 1) c).

(** ** The object graph *)

Record DeviceState (C B P Q E : Type) := {
  ds_namespace : Z;
  ds_limits : DeviceLimits;
  ds_policy : ResourcePolicy;
  ds_retained : RetainedBytes;
  ds_contexts : ObjectTable (ContextRecord C);
  ds_buffers : ObjectTable (BufferRecord B);
  ds_programs : ObjectTable (ProgramRecord P);
  ds_queues : ObjectTable (QueueRecord Q);
  ds_events : ObjectTable (EventRecord E);
}.
Arguments Build_DeviceState {C B P Q E}.
Arguments ds_namespace {C B P Q E}.
Arguments ds_limits {C B P Q E}.
Arguments ds_policy {C B P Q E}.
Arguments ds_retained {C B P Q E}.
Arguments ds_contexts {C B P Q E}.
Arguments ds_buffers {C B P Q E}.
Arguments ds_programs {C B P Q E}.
Arguments ds_queues {C B P Q E}.
Arguments ds_events {C B P Q E}.

(** [SubmissionResources] and [SubmissionSequenceResources] *)
Record SubmissionResources (B P Q : Type) := {
  sub_context_id : ObjectId;
  sub_queue : Q;
  sub_program : P;
  sub_buffers : ObjectTable (BufferRecord B);
  sub_buffer_ids : list ObjectId;
}.
Arguments Build_SubmissionResources {B P Q}.
Arguments sub_context_id {B P Q}.
Arguments sub_queue {B P Q}.
Arguments sub_program {B P Q}.
Arguments sub_buffers {B P Q}.
Arguments sub_buffer_ids {B P Q}.

(** [binary_search_by_key] on the sorted retained identifiers finds a present
    identifier and no other. *)
Definition retained_buffer {B} (ids : list ObjectId) (buffers : ObjectTable (BufferRecord B))
    (id : ObjectId) : result (BufferRecord B) DeviceStateError :=
  if bool_decide (id ∈ ids) then table_get id buffers else Err DsInvalidArgument.

Definition buffer_with_info_by_id {B P Q} (id : ObjectId) (self : SubmissionResources B P Q) :
    result (B * BufferInfo) DeviceStateError :=
  let? record := retained_buffer (sub_buffer_ids self) (sub_buffers self) id in
  let? resource := record_resource record in
  Ok (resource, buf_info record).

Definition buffer_by_id {B P Q} (id : ObjectId) (self : SubmissionResources B P Q) :
    result B DeviceStateError :=
  result_map fst (buffer_with_info_by_id id self).

Record SubmissionSequenceResources (B P Q : Type) := {
  seq_context_id : ObjectId;
  seq_queue : Q;
  seq_programs : ObjectTable (ProgramRecord P);
  seq_program_ids : list ObjectId;
  seq_buffers : ObjectTable (BufferRecord B);
  seq_buffer_ids : list ObjectId;
}.
Arguments Build_SubmissionSequenceResources {B P Q}.
Arguments seq_context_id {B P Q}.
Arguments seq_queue {B P Q}.
Arguments seq_programs {B P Q}.
Arguments seq_program_ids {B P Q}.
Arguments seq_buffers {B P Q}.
Arguments seq_buffer_ids {B P Q}.

Definition sequence_program {B P Q} (index : nat) (self : SubmissionSequenceResources B P Q) :
    result P DeviceStateError :=
  let? id := ok_or (seq_program_ids self !! index) DsInvalidArgument in
  let? record := table_get id (seq_programs self) in
  record_resource record.

Definition sequence_buffer_by_id {B P Q} (id : ObjectId) (self : SubmissionSequenceResources B P Q) :
    result B DeviceStateError :=
  let? record := retained_buffer (seq_buffer_ids self) (seq_buffers self) id in
  record_resource record.

(** [sort_unstable_by_key(|id| id.get())]: equal identifiers are equal
    elements, so the result does not depend on the algorithm. *)
Definition sort_ids (ids : list ObjectId) : list ObjectId := merge_sort Z.le ids.

Definition aggregate_slots (contexts per_context : Z) : result Z DeviceStateConfigError :=
  ok_or (checked_mul U32_MAX contexts per_context) CfgCountOverflow.

Section Graph.
Context {C B P Q E : Type}.
Abbreviation State := (DeviceState C B P Q E).
Implicit Types (self : State) (id : ObjectId).

Definition with_contexts self t : State := {|
  ds_namespace := ds_namespace self; ds_limits := ds_limits self; ds_policy := ds_policy self;
  ds_retained := ds_retained self; ds_contexts := t; ds_buffers := ds_buffers self;
  ds_programs := ds_programs self; ds_queues := ds_queues self; ds_events := ds_events self |}.
Definition with_buffers self t : State := {|
  ds_namespace := ds_namespace self; ds_limits := ds_limits self; ds_policy := ds_policy self;
  ds_retained := ds_retained self; ds_contexts := ds_contexts self; ds_buffers := t;
  ds_programs := ds_programs self; ds_queues := ds_queues self; ds_events := ds_events self |}.
Definition with_programs self t : State := {|
  ds_namespace := ds_namespace self; ds_limits := ds_limits self; ds_policy := ds_policy self;
  ds_retained := ds_retained self; ds_contexts := ds_contexts self; ds_buffers := ds_buffers self;
  ds_programs := t; ds_queues := ds_queues self; ds_events := ds_events self |}.
Definition with_queues self t : State := {|
  ds_namespace := ds_namespace self; ds_limits := ds_limits self; ds_policy := ds_policy self;
  ds_retained := ds_retained self; ds_contexts := ds_contexts self; ds_buffers := ds_buffers self;
  ds_programs := ds_programs self; ds_queues := t; ds_events := ds_events self |}.
Definition with_events self t : State := {|
  ds_namespace := ds_namespace self; ds_limits := ds_limits self; ds_policy := ds_policy self;
  ds_retained := ds_retained self; ds_contexts := ds_contexts self; ds_buffers := ds_buffers self;
  ds_programs := ds_programs self; ds_queues := ds_queues self; ds_events := t |}.
Definition with_retained self r : State := {|
  ds_namespace := ds_namespace self; ds_limits := ds_limits self; ds_policy := ds_policy self;
  ds_retained := r; ds_contexts := ds_contexts self; ds_buffers := ds_buffers self;
  ds_programs := ds_programs self; ds_queues := ds_queues self; ds_events := ds_events self |}.

(** [self.retained.buffer_backing = n] and [self.retained.program_resident = n] *)
Definition set_buffer_backing self (n : Z) : State :=
  with_retained self {| rb_buffer_backing := n;
                        rb_program_resident := rb_program_resident (ds_retained self) |}.
Definition set_program_resident self (n : Z) : State :=
  with_retained self {| rb_buffer_backing := rb_buffer_backing (ds_retained self);
                        rb_program_resident := n |}.

Definition DeviceState_new (namespace : Z) (limits : DeviceLimits) (policy : ResourcePolicy) :
    result State DeviceStateConfigError :=
  if (max_contexts limits =? 0) || (max_buffers_per_context limits =? 0)
     || (max_programs_per_context limits =? 0) || (max_queues_per_context limits =? 0)
     || (max_events_per_context limits =? 0) || (max_buffer_bytes limits =? 0)
     || (max_artifact_bytes limits =? 0) then Err CfgZeroLimit
  else if negb (in_range 1 HARD_MAX_BINDINGS (max_bindings_per_submission limits)) then
    Err CfgBindingLimit
  else
    let? _ := ok_or (checked_mul U32_MAX (max_events_per_context limits)
                       (max_bindings_per_submission limits)) CfgReferenceCountOverflow in
    let? buffers := aggregate_slots (max_contexts limits) (max_buffers_per_context limits) in
    let? programs := aggregate_slots (max_contexts limits) (max_programs_per_context limits) in
    let? queues := aggregate_slots (max_contexts limits) (max_queues_per_context limits) in
    let? events := aggregate_slots (max_contexts limits) (max_events_per_context limits) in
    Ok {|
      ds_namespace := namespace;
      ds_limits := limits;
      ds_policy := policy;
      ds_retained := RetainedBytes_default;
      ds_contexts := ObjectTable_with_namespace KindContext (max_contexts limits) namespace;
      ds_buffers := ObjectTable_with_namespace KindBuffer buffers namespace;
      ds_programs := ObjectTable_with_namespace KindProgram programs namespace;
      ds_queues := ObjectTable_with_namespace KindQueue queues namespace;
      ds_events := ObjectTable_with_namespace KindEvent events namespace;
    |}.

Definition resource_counts self : ResourceCounts := {|
  rc_contexts := ObjectTable_len (ds_contexts self);
  rc_buffers := ObjectTable_len (ds_buffers self);
  rc_programs := ObjectTable_len (ds_programs self);
  rc_queues := ObjectTable_len (ds_queues self);
  rc_events := ObjectTable_len (ds_events self);
|}.

Definition DeviceState_is_empty self : bool :=
  ObjectTable_is_empty (ds_contexts self) && ObjectTable_is_empty (ds_buffers self)
  && ObjectTable_is_empty (ds_programs self) && ObjectTable_is_empty (ds_queues self)
  && ObjectTable_is_empty (ds_events self).

(** The record accessors; [buffer_record_mut] also returns the store. *)
Definition context_record id self := table_get id (ds_contexts self).
Definition buffer_record id self := table_get id (ds_buffers self).
Definition program_record id self := table_get id (ds_programs self).
Definition queue_record id self := table_get id (ds_queues self).
Definition event_record id self := table_get id (ds_events self).

Definition buffer_record_mut id self :
    result (BufferRecord B * (BufferRecord B -> State)) DeviceStateError :=
  let? (record, put) := map_err map_table_error (ObjectTable_get_mut id (ds_buffers self)) in
  Ok (record, fun r => with_buffers self (put r)).

(** ** Admission *)

Definition check_child_admission (context_id : ObjectId) (child : ChildKind) (limit : Z) self :
    result unit DeviceStateError :=
  let? context := table_get context_id (ds_contexts self) in
  let? _ := record_resource context in
  if limit <=? child_count child (ctx_children context) then Err DsResourceLimit else Ok tt.

(** The checks of one retained object: it resolves, it is not being released
    and it belongs to [context_id]. *)
Definition check_program (context_id : ObjectId) self id : result unit DeviceStateError :=
  let? program := table_get id (ds_programs self) in
  let? _ := record_resource program in
  if negb (prg_context_id program =? context_id) then Err DsContextMismatch else Ok tt.

Definition check_buffer (context_id : ObjectId) self id : result unit DeviceStateError :=
  let? buffer := table_get id (ds_buffers self) in
  let? _ := record_resource buffer in
  if negb (buf_context_id buffer =? context_id) then Err DsContextMismatch else Ok tt.

(** [for id in ids { check(id)?; }] *)
Fixpoint check_each (check : ObjectId -> result unit DeviceStateError) (ids : list ObjectId) :
    result unit DeviceStateError :=
  match ids with
  | [] => Ok tt
  | id :: rest => let? _ := check id in check_each check rest
  end.

Definition validate_submission (queue_id program_id : ObjectId) (buffer_ids : list ObjectId) self :
    result ObjectId DeviceStateError :=
  let? queue := table_get queue_id (ds_queues self) in
  let? _ := record_resource queue in
  let? _ := check_program (que_context_id queue) self program_id in
  let? _ := check_each (check_buffer (que_context_id queue) self) buffer_ids in
  Ok (que_context_id queue).

Definition validate_submission_sequence (queue_id : ObjectId) (program_ids buffer_ids : list ObjectId)
    self : result ObjectId DeviceStateError :=
  match program_ids with
  | [] => Err DsInvalidArgument
  | first :: others =>
      let? context_id := validate_submission queue_id first buffer_ids self in
      let? _ := check_each (check_program context_id self) others in
      Ok context_id
  end.

(** [u32::try_from(count)], the lookup and the checked addition of one
    referenced object. *)
Definition check_increment {Rec} (in_flight : Rec -> Z) (table : ObjectTable Rec) id (count : Z) :
    result unit DeviceStateError :=
  let? count := ok_or (try_from U32_MAX count) DsReferenceCountOverflow in
  let? record := table_get id table in
  let? _ := ok_or (checked_add U32_MAX (in_flight record) count) DsReferenceCountOverflow in
  Ok tt.

(** Occurrences of an identifier. *)
Definition count_id id (ids : list ObjectId) : Z := sum_by (fun x => if x =? id then 1 else 0) ids.

(** The loop over [program_ids]: [seen] is [program_ids[..index]], [rest] is
    [program_ids[index..]]. *)
Fixpoint check_program_increments self (seen rest : list ObjectId) : result unit DeviceStateError :=
  match rest with
  | [] => Ok tt
  | id :: rest' =>
      let? _ :=
        if existsb (Z.eqb id) seen then Ok tt
        else check_increment prg_in_flight (ds_programs self) id (count_id id rest) in
      check_program_increments self (seen ++ [id]) rest'
  end.

(** The inner [while]: how many leading elements equal [id]. *)
Fixpoint run_length id (ids : list ObjectId) : nat :=
  match ids with
  | [] => 0
  | x :: rest => if x =? id then S (run_length id rest) else 0
  end.

(** The outer [while] over the runs of the sorted identifiers; each iteration
    drops at least one, so the length is enough fuel. *)
Fixpoint check_buffer_runs self (fuel : nat) (ids : list ObjectId) : result unit DeviceStateError :=
  match ids, fuel with
  | [], _ => Ok tt
  | _, O => Ok tt
  | id :: rest, S fuel =>
      let n := S (run_length id rest) in
      let? _ := check_increment buf_in_flight (ds_buffers self) id (Z.of_nat n) in
      check_buffer_runs self fuel (drop n ids)
  end.

Definition check_reference_increments (queue_id : ObjectId) (program_ids sorted_buffer_ids : list ObjectId)
    self : result unit DeviceStateError :=
  let? queue := table_get queue_id (ds_queues self) in
  let? _ := ok_or (checked_add U32_MAX (que_in_flight queue) 1) DsReferenceCountOverflow in
  let? _ := check_program_increments self [] program_ids in
  check_buffer_runs self (length sorted_buffer_ids) sorted_buffer_ids.

(** The common body of the two reference updates. *)
Definition update_event_references (fq : QueueRecord Q -> QueueRecord Q)
    (fp : ProgramRecord P -> ProgramRecord P) (fb : BufferRecord B -> BufferRecord B)
    (fc : ContextRecord C -> ContextRecord C)
    (context_id queue_id : ObjectId) (program_ids buffer_ids : list ObjectId) self :
    State * result unit DeviceStateError :=
  match table_update queue_id fq (ds_queues self) with
  | Err e => (self, Err e)
  | Ok queues =>
      let self := with_queues self queues in
      let '(programs, r) := table_update_all program_ids fp (ds_programs self) in
      let self := with_programs self programs in
      match r with
      | Err e => (self, Err e)
      | Ok _ =>
          let '(buffers, r) := table_update_all buffer_ids fb (ds_buffers self) in
          let self := with_buffers self buffers in
          match r with
          | Err e => (self, Err e)
          | Ok _ =>
              match table_update context_id fc (ds_contexts self) with
              | Err e => (self, Err e)
              | Ok contexts => (with_contexts self contexts, Ok tt)
              end
          end
      end
  end.

Definition increment_event_references :=
  update_event_references add_queue_ref add_program_ref add_buffer_ref (add_child ChildEvent).
Definition decrement_event_references :=
  update_event_references drop_queue_ref drop_program_ref drop_buffer_ref (drop_child ChildEvent).

(** ** Creation

    [W] is the provider's world and [PE] the provider's error type. *)

Section Create.
Context {W PE : Type}.
Implicit Types (w : W).

Definition create_context_with (mem : bool) (create : W -> W * result C PE) self w :
    State * W * result ObjectId (CreateError PE) :=
  if max_contexts (ds_limits self) <=? ObjectTable_len (ds_contexts self) then
    (self, w, Err (CreateState DsResourceLimit))
  else
    match try_reserve_insert mem (ds_contexts self) with
    | Err e => (self, w, Err (CreateState (map_table_error e)))
    | Ok _ =>
        let '(w, r) := create w in
        match r with
        | Err e => (self, w, Err (CreateProvider e))
        | Ok resource =>
            let '(contexts, id) :=
              insert_prepared {| ctx_slot := ResourceSlot_new resource;
                                 ctx_children := ChildCounts_default |} (ds_contexts self) in
            (with_contexts self contexts, w, Ok id)
        end
    end.

Definition create_buffer_with (mem : bool) (context_id : ObjectId) (desc : BufferDesc)
    (create : C -> BufferDesc -> W -> W * result (B * BufferInfo) PE) self w :
    State * W * result BufferCreateOutcome (CreateError PE) :=
  if max_buffer_bytes (ds_limits self) <? bd_bytes desc then
    (self, w, Err (CreateState DsResourceLimit))
  else
    let minimum_retained :=
      saturating_add U128_MAX (rb_buffer_backing (ds_retained self)) (bd_bytes desc) in
    if rp_max_buffer_backing_bytes (ds_policy self) <? minimum_retained then
      (self, w, Err (CreateState DsResourceLimit))
    else
      match check_child_admission context_id ChildBuffer
              (max_buffers_per_context (ds_limits self)) self with
      | Err e => (self, w, Err (CreateState e))
      | Ok _ =>
          match try_reserve_insert mem (ds_buffers self) with
          | Err e => (self, w, Err (CreateState (map_table_error e)))
          | Ok _ =>
              match ObjectTable_get_mut context_id (ds_contexts self) with
              | Err e => (self, w, Err (CreateState (map_table_error e)))
              | Ok (context, put) =>
                  match record_resource context with
                  | Err e => (self, w, Err (CreateState e))
                  | Ok resource =>
                      let '(w, r) := create resource desc w in
                      match r with
                      | Err e => (self, w, Err (CreateProvider e))
                      | Ok (resource, info) =>
                          let retained :=
                            saturating_add U128_MAX (rb_buffer_backing (ds_retained self))
                              (bi_allocation_bytes info) in
                          let cleanup_error :=
                            if negb (bool_decide (bi_desc info = desc)) then Some BeIncompatible
                            else if rp_max_buffer_backing_bytes (ds_policy self) <? retained then
                              Some BeResourceLimit
                            else None in
                          let '(buffers, id) :=
                            insert_prepared {| buf_slot := ResourceSlot_new resource;
                                               buf_context_id := context_id;
                                               buf_info := info; buf_in_flight := 0 |}
                              (ds_buffers self) in
                          let self := with_buffers self buffers in
                          let self := set_buffer_backing self retained in
                          let self := with_contexts self (put (add_child ChildBuffer context)) in
                          (self, w,
                           Ok (match cleanup_error with
                               | Some error => BufferCleanupRequired id error
                               | None => BufferAdmitted id
                               end))
                      end
                  end
              end
          end
      end.

Definition create_program_with (mem : bool) (context_id : ObjectId)
    (artifact_bytes resident_bytes : Z) (create : C -> W -> W * result P PE) self w :
    State * W * result ObjectId (CreateError PE) :=
  if (artifact_bytes =? 0) || (resident_bytes =? 0) then
    (self, w, Err (CreateState DsInvalidArgument))
  else if max_artifact_bytes (ds_limits self) <? artifact_bytes then
    (self, w, Err (CreateState DsResourceLimit))
  else
    let retained :=
      saturating_add U128_MAX (rb_program_resident (ds_retained self)) resident_bytes in
    if rp_max_program_resident_bytes (ds_policy self) <? retained then
      (self, w, Err (CreateState DsResourceLimit))
    else
      match check_child_admission context_id ChildProgram
              (max_programs_per_context (ds_limits self)) self with
      | Err e => (self, w, Err (CreateState e))
      | Ok _ =>
          match try_reserve_insert mem (ds_programs self) with
          | Err e => (self, w, Err (CreateState (map_table_error e)))
          | Ok _ =>
              match ObjectTable_get_mut context_id (ds_contexts self) with
              | Err e => (self, w, Err (CreateState (map_table_error e)))
              | Ok (context, put) =>
                  match record_resource context with
                  | Err e => (self, w, Err (CreateState e))
                  | Ok resource =>
                      let '(w, r) := create resource w in
                      match r with
                      | Err e => (self, w, Err (CreateProvider e))
                      | Ok resource =>
                          let '(programs, id) :=
                            insert_prepared {| prg_slot := ResourceSlot_new resource;
                                               prg_context_id := context_id;
                                               prg_resident_bytes := resident_bytes;
                                               prg_in_flight := 0 |} (ds_programs self) in
                          let self := with_programs self programs in
                          let self := set_program_resident self retained in
                          let self := with_contexts self (put (add_child ChildProgram context)) in
                          (self, w, Ok id)
                      end
                  end
              end
          end
      end.

Definition create_queue_with (mem : bool) (context_id : ObjectId)
    (create : C -> W -> W * result Q PE) self w :
    State * W * result ObjectId (CreateError PE) :=
  match check_child_admission context_id ChildQueue
          (max_queues_per_context (ds_limits self)) self with
  | Err e => (self, w, Err (CreateState e))
  | Ok _ =>
      match try_reserve_insert mem (ds_queues self) with
      | Err e => (self, w, Err (CreateState (map_table_error e)))
      | Ok _ =>
          match ObjectTable_get_mut context_id (ds_contexts self) with
          | Err e => (self, w, Err (CreateState (map_table_error e)))
          | Ok (context, put) =>
              match record_resource context with
              | Err e => (self, w, Err (CreateState e))
              | Ok resource =>
                  let '(w, r) := create resource w in
                  match r with
                  | Err e => (self, w, Err (CreateProvider e))
                  | Ok resource =>
                      let '(queues, id) :=
                        insert_prepared {| que_slot := ResourceSlot_new resource;
                                           que_context_id := context_id;
                                           que_in_flight := 0 |} (ds_queues self) in
                      let self := with_queues self queues in
                      let self := with_contexts self (put (add_child ChildQueue context)) in
                      (self, w, Ok id)
                  end
              end
          end
      end
  end.

(** The part the two event constructors share: the context's event quota, the
    reservation, the sorted references counted and taken, the provider call
    [create] on the state that holds them, and the insertion or the roll
    back. *)
Definition admit_event (mem : bool) (context_id queue_id : ObjectId) (program_ids buffer_ids : list ObjectId)
    (create : list ObjectId -> State -> W -> W * result E (CreateError PE))
    (record : E -> list ObjectId -> EventRecord E) self w :
    State * W * result ObjectId (CreateError PE) :=
  match table_get context_id (ds_contexts self) with
  | Err e => (self, w, Err (CreateState e))
  | Ok context =>
      if max_events_per_context (ds_limits self) <=? ch_events (ctx_children context) then
        (self, w, Err (CreateState DsResourceLimit))
      else
        match try_reserve_insert mem (ds_events self) with
        | Err e => (self, w, Err (CreateState (map_table_error e)))
        | Ok _ =>
            let buffer_ids := sort_ids buffer_ids in
            match check_reference_increments queue_id program_ids buffer_ids self with
            | Err e => (self, w, Err (CreateState e))
            | Ok _ =>
                let '(self, r) :=
                  increment_event_references context_id queue_id program_ids buffer_ids self in
                match r with
                | Err e => (self, w, Err (CreateState e))
                | Ok _ =>
                    let '(w, event_result) := create buffer_ids self w in
                    match event_result with
                    | Err (CreateState e) => (self, w, Err (CreateState e))
                    | Err (CreateProvider e) =>
                        let '(self, r) :=
                          decrement_event_references context_id queue_id program_ids buffer_ids self in
                        match r with
                        | Err e => (self, w, Err (CreateState e))
                        | Ok _ => (self, w, Err (CreateProvider e))
                        end
                    | Ok event =>
                        let '(events, id) := insert_prepared (record event buffer_ids) (ds_events self) in
                        (with_events self events, w, Ok id)
                    end
                end
            end
        end
  end.

(** The block that borrows the queue and the program and calls [create]; its
    own failed lookups return from the method. *)
Definition call_with_submission (context_id queue_id program_id : ObjectId)
    (create : SubmissionResources B P Q -> W -> W * result E PE)
    (buffer_ids : list ObjectId) self w : W * result E (CreateError PE) :=
  match (let? record := table_get queue_id (ds_queues self) in record_resource record) with
  | Err e => (w, Err (CreateState e))
  | Ok queue =>
      match (let? record := table_get program_id (ds_programs self) in record_resource record) with
      | Err e => (w, Err (CreateState e))
      | Ok program =>
          let '(w, r) := create {| sub_context_id := context_id; sub_queue := queue;
                                   sub_program := program; sub_buffers := ds_buffers self;
                                   sub_buffer_ids := buffer_ids |} w in
          (w, map_err CreateProvider r)
      end
  end.

Definition create_event_with (mem : bool) (queue_id program_id : ObjectId) (buffer_ids : list ObjectId)
    (create : SubmissionResources B P Q -> W -> W * result E PE) self w :
    State * W * result ObjectId (CreateError PE) :=
  if zlen buffer_ids =? 0 then (self, w, Err (CreateState DsInvalidArgument))
  else if max_bindings_per_submission (ds_limits self) <? zlen buffer_ids then
    (self, w, Err (CreateState DsResourceLimit))
  else
    match validate_submission queue_id program_id buffer_ids self with
    | Err e => (self, w, Err (CreateState e))
    | Ok context_id =>
        admit_event mem context_id queue_id [program_id] buffer_ids
          (call_with_submission context_id queue_id program_id create)
          (fun event buffer_ids =>
             {| evt_slot := ResourceSlot_new event; evt_context_id := context_id;
                evt_queue_id := queue_id; evt_program_id := program_id;
                evt_sequence_program_ids := None; evt_buffer_ids := buffer_ids |})
          self w
    end.

Definition call_with_sequence (context_id queue_id : ObjectId) (program_ids : list ObjectId)
    (create : SubmissionSequenceResources B P Q -> W -> W * result E PE)
    (buffer_ids : list ObjectId) self w : W * result E (CreateError PE) :=
  match (let? record := table_get queue_id (ds_queues self) in record_resource record) with
  | Err e => (w, Err (CreateState e))
  | Ok queue =>
      let '(w, r) := create {| seq_context_id := context_id; seq_queue := queue;
                               seq_programs := ds_programs self; seq_program_ids := program_ids;
                               seq_buffers := ds_buffers self; seq_buffer_ids := buffer_ids |} w in
      (w, map_err CreateProvider r)
  end.

Definition create_event_sequence_with (mem : bool) (queue_id : ObjectId)
    (program_ids buffer_ids : list ObjectId)
    (create : SubmissionSequenceResources B P Q -> W -> W * result E PE) self w :
    State * W * result ObjectId (CreateError PE) :=
  match program_ids with
  | [] => (self, w, Err (CreateState DsInvalidArgument))
  | first :: _ =>
      if zlen buffer_ids =? 0 then (self, w, Err (CreateState DsInvalidArgument))
      else
        match validate_submission_sequence queue_id program_ids buffer_ids self with
        | Err e => (self, w, Err (CreateState e))
        | Ok context_id =>
            admit_event mem context_id queue_id program_ids buffer_ids
              (call_with_sequence context_id queue_id program_ids create)
              (fun event buffer_ids =>
                 {| evt_slot := ResourceSlot_new event; evt_context_id := context_id;
                    evt_queue_id := queue_id; evt_program_id := first;
                    evt_sequence_program_ids := Some program_ids;
                    evt_buffer_ids := buffer_ids |})
              self w
        end
  end.

End Create.

(** ** Release *)

Definition begin_context_release id self : State * result C DeviceStateError :=
  let '(t, r) := begin_release_in (fun rec => negb (ChildCounts_is_empty (ctx_children rec))) id
                   (ds_contexts self) in
  (with_contexts self t, r).

Definition restore_context_release id (resource : C) self : State * result unit (RestoreError C) :=
  let '(t, r) := restore_resource id resource (ds_contexts self) in (with_contexts self t, r).

Definition commit_context_release id self : State * result unit DeviceStateError :=
  match (let? record := table_get id (ds_contexts self) in ensure_releasing record) with
  | Err e => (self, Err e)
  | Ok _ =>
      let '(t, r) := ObjectTable_remove id (ds_contexts self) in
      let self := with_contexts self t in
      match r with
      | Err e => (self, Err (map_table_error e))
      | Ok _ => (self, Ok tt)
      end
  end.

(** [self.contexts.get_mut(context_id)?.children.<kind> -= 1] *)
Definition drop_child_of (k : ChildKind) (context_id : ObjectId) self :
    State * result unit DeviceStateError :=
  match table_update context_id (drop_child k) (ds_contexts self) with
  | Err e => (self, Err e)
  | Ok t => (with_contexts self t, Ok tt)
  end.

Definition begin_buffer_release id self : State * result B DeviceStateError :=
  let '(t, r) := begin_release_in (fun rec => negb (buf_in_flight rec =? 0)) id (ds_buffers self) in
  (with_buffers self t, r).

Definition restore_buffer_release id (resource : B) self : State * result unit (RestoreError B) :=
  let '(t, r) := restore_resource id resource (ds_buffers self) in (with_buffers self t, r).

Definition commit_buffer_release id self : State * result unit DeviceStateError :=
  match (let? record := table_get id (ds_buffers self) in
         let? _ := ensure_releasing record in
         Ok (buf_context_id record, bi_allocation_bytes (buf_info record))) with
  | Err e => (self, Err e)
  | Ok (context_id, allocation_bytes) =>
      let '(t, r) := ObjectTable_remove id (ds_buffers self) in
      let self := with_buffers self t in
      match r with
      | Err e => (self, Err (map_table_error e))
      | Ok _ =>
          let self := set_buffer_backing self
            (wrapping_sub U128_MAX (rb_buffer_backing (ds_retained self)) allocation_bytes) in
          drop_child_of ChildBuffer context_id self
      end
  end.

Definition begin_program_release id self : State * result P DeviceStateError :=
  let '(t, r) := begin_release_in (fun rec => negb (prg_in_flight rec =? 0)) id (ds_programs self) in
  (with_programs self t, r).

Definition restore_program_release id (resource : P) self : State * result unit (RestoreError P) :=
  let '(t, r) := restore_resource id resource (ds_programs self) in (with_programs self t, r).

Definition commit_program_release id self : State * result unit DeviceStateError :=
  match (let? record := table_get id (ds_programs self) in
         let? _ := ensure_releasing record in
         Ok (prg_context_id record, prg_resident_bytes record)) with
  | Err e => (self, Err e)
  | Ok (context_id, resident_bytes) =>
      let '(t, r) := ObjectTable_remove id (ds_programs self) in
      let self := with_programs self t in
      match r with
      | Err e => (self, Err (map_table_error e))
      | Ok _ =>
          let self := set_program_resident self
            (wrapping_sub U128_MAX (rb_program_resident (ds_retained self)) resident_bytes) in
          drop_child_of ChildProgram context_id self
      end
  end.

Definition begin_queue_release id self : State * result Q DeviceStateError :=
  let '(t, r) := begin_release_in (fun rec => negb (que_in_flight rec =? 0)) id (ds_queues self) in
  (with_queues self t, r).

Definition restore_queue_release id (resource : Q) self : State * result unit (RestoreError Q) :=
  let '(t, r) := restore_resource id resource (ds_queues self) in (with_queues self t, r).

Definition commit_queue_release id self : State * result unit DeviceStateError :=
  match (let? record := table_get id (ds_queues self) in
         let? _ := ensure_releasing record in
         Ok (que_context_id record)) with
  | Err e => (self, Err e)
  | Ok context_id =>
      let '(t, r) := ObjectTable_remove id (ds_queues self) in
      let self := with_queues self t in
      match r with
      | Err e => (self, Err (map_table_error e))
      | Ok _ => drop_child_of ChildQueue context_id self
      end
  end.

Definition begin_event_release id self : State * result E DeviceStateError :=
  let '(t, r) := begin_release_in (fun _ => false) id (ds_events self) in
  (with_events self t, r).

Definition restore_event_release id (resource : E) self : State * result unit (RestoreError E) :=
  let '(t, r) := restore_resource id resource (ds_events self) in (with_events self t, r).

Definition commit_event_release id self : State * result unit DeviceStateError :=
  match (let? record := table_get id (ds_events self) in
         let? _ := ensure_releasing record in
         let? _ := validate_submission_sequence (evt_queue_id record) (evt_program_ids record)
                     (evt_buffer_ids record) self in
         Ok tt) with
  | Err e => (self, Err e)
  | Ok _ =>
      let '(t, r) := ObjectTable_remove id (ds_events self) in
      let self := with_events self t in
      match r with
      | Err e => (self, Err (map_table_error e))
      | Ok record =>
          decrement_event_references (evt_context_id record) (evt_queue_id record)
            (evt_program_ids record) (evt_buffer_ids record) self
      end
  end.

End Graph.
