(* ===== verification/TableFacts.v ===== *)
(** * How table operations change what a table resolves

    The three ways an operation changes a table, as relations on what
    identifiers resolve to and on sums over the live records: a record is
    replaced, a record is added under a fresh identifier, a record is removed.
    The device-state proofs use these relations and not the slots. *)

From Stdlib Require Import ZArith Lia.
From stdpp Require Import prelude list.
From S2P Require Import Prelude ObjectTable State.

Section Relations.
Context {T : Type}.
Implicit Types (t : ObjectTable T) (id : ObjectId) (r : T).

Definition same_table t t' : Prop :=
  ot_kind t' = ot_kind t /\ ot_namespace t' = ot_namespace t /\ ot_max_slots t' = ot_max_slots t.

Record updated t id r r' t' : Prop := {
  up_wf : table_wf t';
  up_same : same_table t t';
  up_at : lookup_id id t = Some r;
  up_lookup : forall x, lookup_id x t' = if decide (x = id) then Some r' else lookup_id x t;
  up_sum : forall f, table_sum f t' = table_sum f t - f r + f r';
  up_len : ObjectTable_len t' = ObjectTable_len t;
  up_slots : length (ot_slots t') = length (ot_slots t);
}.

Record inserted t id r t' : Prop := {
  in_wf : table_wf t';
  in_same : same_table t t';
  in_fresh : lookup_id id t = None;
  in_lookup : forall x, lookup_id x t' = if decide (x = id) then Some r else lookup_id x t;
  in_sum : forall f, table_sum f t' = table_sum f t + f r;
  in_len : ObjectTable_len t' = ObjectTable_len t + 1;
}.

Record removed t id r t' : Prop := {
  rm_wf : table_wf t';
  rm_same : same_table t t';
  rm_at : lookup_id id t = Some r;
  rm_lookup : forall x, lookup_id x t' = if decide (x = id) then None else lookup_id x t;
  rm_sum : forall f, table_sum f t' = table_sum f t - f r;
  rm_len : ObjectTable_len t' = ObjectTable_len t - 1;
  rm_slots : length (ot_slots t') = length (ot_slots t);
}.

Lemma updated_at t id r r' t' : updated t id r r' t' -> lookup_id id t' = Some r'.
Proof. intros Hu. by rewrite (up_lookup _ _ _ _ _ Hu), decide_True. Qed.

(** An update followed by a removal of the same record. *)
Lemma updated_removed t id r r' t1 c t2 :
  updated t id r r' t1 -> removed t1 id c t2 ->
  forall x, lookup_id x t2 = if decide (x = id) then None else lookup_id x t.
Proof.
  intros Hu Hr x. rewrite (rm_lookup _ _ _ _ Hr), (up_lookup _ _ _ _ _ Hu). by case_decide.
Qed.

Lemma updated_removed_at t id r r' t1 c t2 : updated t id r r' t1 -> removed t1 id c t2 -> c = r'.
Proof. intros Hu%updated_at Hr%rm_at. congruence. Qed.

Lemma get_lookup id t r : ObjectTable_get id t = Ok r <-> lookup_id id t = Some r.
Proof. symmetry. apply lookup_id_Some. Qed.

Lemma get_lookup_None id t e : ObjectTable_get id t = Err e -> lookup_id id t = None.
Proof. unfold lookup_id. by intros ->. Qed.

Lemma table_sum_occupied t : table_wf t -> ObjectTable_len t = table_sum (fun _ => 1) t.
Proof. intros Hwf. apply (tw_live t Hwf). Qed.

Lemma get_mut_updated t id r put r' :
  table_wf t -> ObjectTable_get_mut id t = Ok (r, put) -> updated t id r r' (put r').
Proof.
  intros Hwf [Hg (i & Hl & ->)]%get_mut_Ok. pose proof (put_wf _ _ _ r' Hwf Hl) as Hwf'.
  assert (Hs : forall f, table_sum f (table_put i r' t) = table_sum f t - f r + f r')
    by (intros; by eapply put_sum).
  split; try done.
  - unfold same_table, table_put. by destruct (ot_slots t !! i).
  - by apply get_lookup.
  - intros x. unfold lookup_id. case_decide as Hx; [subst|].
    + by rewrite (put_get_eq _ _ _ _ Hwf Hl).
    + by rewrite (put_get_ne _ _ _ _ _ Hwf Hl Hx).
  - rewrite !table_sum_occupied, Hs by done. lia.
  - unfold table_put. destruct (ot_slots t !! i); [|done]. simpl. by rewrite length_insert.
Qed.

Lemma get_mut_total t id r :
  lookup_id id t = Some r -> exists put, ObjectTable_get_mut id t = Ok (r, put).
Proof.
  intros Hl. destruct (ObjectTable_get_mut id t) as [[r' put]|e] eqn:Hg.
  - apply get_mut_Ok in Hg as [Hg _]. apply get_lookup in Hg. exists put. congruence.
  - apply get_mut_Err, get_lookup_None in Hg. congruence.
Qed.

Lemma get_total t id r : lookup_id id t = Some r -> ObjectTable_get id t = Ok r.
Proof. by intros ?%get_lookup. Qed.

Lemma table_get_Ok t id r : table_get id t = Ok r <-> lookup_id id t = Some r.
Proof.
  unfold table_get. rewrite <- get_lookup. destruct (ObjectTable_get id t); simpl; naive_solver.
Qed.

Lemma table_get_Err t id e : table_get id t = Err e -> lookup_id id t = None.
Proof.
  unfold table_get. destruct (ObjectTable_get id t) eqn:Hg; [done|]. by apply get_lookup_None in Hg.
Qed.

Lemma insert_inserted t r t' id :
  table_wf t -> has_room t -> insert_prepared r t = (t', id) -> inserted t id r t'.
Proof.
  intros Hwf Hroom Hi. pose proof (insert_prepared_wf _ _ _ _ Hwf Hroom Hi) as Hwf'.
  assert (Hs : forall f, table_sum f t' = table_sum f t + f r) by (intros; by eapply insert_sum).
  split; try done.
  - by destruct (insert_prepared_same _ _ _ _ Hi) as (? & ? & ?).
  - by apply get_lookup_None with StaleId, (insert_fresh _ _ _ _ Hwf Hroom Hi).
  - intros x. unfold lookup_id. case_decide as Hx; [subst|].
    + by rewrite (insert_get_eq _ _ _ _ Hwf Hroom Hi).
    + by rewrite (insert_get_ne _ _ _ _ _ Hwf Hroom Hi Hx).
  - rewrite !table_sum_occupied, Hs by done. lia.
Qed.

Lemma remove_removed t id t' r :
  table_wf t -> ObjectTable_remove id t = (t', Ok r) -> removed t id r t'.
Proof.
  intros Hwf Hr. pose proof (remove_wf _ _ _ _ Hwf Hr) as Hwf'.
  assert (Hs : forall f, table_sum f t' = table_sum f t - f r) by (intros; by eapply remove_sum).
  split; try done.
  - by destruct (remove_same _ _ _ _ Hr) as (? & ? & ?).
  - apply get_lookup.
    by apply remove_cases in Hr as [(? & ? & ? & ? & ? & ? & ? & ? & _)|(? & ? & _)]; simplify_eq.
  - intros x. unfold lookup_id. case_decide as Hx; [subst|].
    + by rewrite (remove_get_eq _ _ _ _ Hwf Hr).
    + by rewrite (remove_get_ne _ _ _ _ _ Hwf Hr Hx).
  - rewrite !table_sum_occupied, Hs by done. lia.
  - apply remove_cases in Hr as [(i & x & v & _ & _ & _ & _ & _ & [[_ ->]|[_ ->]])|(? & ? & _)]; try done;
      simpl; by rewrite length_insert.
Qed.

(** A record that resolves can be removed. *)
Lemma remove_total t id r :
  table_wf t -> lookup_id id t = Some r -> exists t', ObjectTable_remove id t = (t', Ok r).
Proof.
  intros Hwf Hl. destruct (ObjectTable_remove id t) as [t' [r'|e]] eqn:Hr; exists t'.
  - pose proof (rm_at _ _ _ _ (remove_removed _ _ _ _ Hwf Hr)). congruence.
  - exfalso. apply remove_cases in Hr as [(? & ? & ? & ? & ? & ? & ? & _)|(? & ? & Hg & _)]; [done| |done].
    apply get_lookup_None in Hg. congruence.
Qed.

Lemma table_update_Ok t id f t' :
  table_wf t -> table_update id f t = Ok t' -> exists r, updated t id r (f r) t'.
Proof.
  intros Hwf. unfold table_update. destruct (ObjectTable_get_mut id t) as [[r put]|] eqn:Hg; [|done].
  simpl. intros [= <-]. exists r. by apply get_mut_updated.
Qed.

Lemma table_update_total t id f r :
  table_wf t -> lookup_id id t = Some r -> exists t', table_update id f t = Ok t' /\ updated t id r (f r) t'.
Proof.
  intros Hwf Hl. destruct (get_mut_total t id r Hl) as [put Hg]. unfold table_update. rewrite Hg. simpl.
  eexists. split; [done|]. by apply get_mut_updated.
Qed.

(** Sums. *)
Lemma table_sum_nonneg t f : (forall r, 0 <= f r) -> 0 <= table_sum f t.
Proof. intros. apply sum_by_nonneg. intros s. by destruct (sl_value s). Qed.

Lemma table_sum_pos t f id r :
  table_wf t -> (forall r, 0 <= f r) -> lookup_id id t = Some r -> f r <= table_sum f t.
Proof.
  intros Hwf Hf (i & s & Hs & Hv & _)%lookup_id_spec; [|done].
  transitivity ((fun s => match sl_value s with Some v => f v | None => 0 end) s); [simpl; by rewrite Hv|].
  apply (sum_by_elem (fun s => match sl_value s with Some v => f v | None => 0 end)).
  - intros x. by destruct (sl_value x).
  - by eapply list_elem_of_lookup_2.
Qed.

Lemma table_sum_ext t f g :
  table_wf t -> (forall id r, lookup_id id t = Some r -> f r = g r) -> table_sum f t = table_sum g t.
Proof.
  intros Hwf H. apply sum_by_ext. intros s [i Hs]%list_elem_of_lookup_1.
  destruct (sl_value s) eqn:Hv; [|done]. apply (H (slot_id t i s)).
  apply lookup_id_spec; eauto.
Qed.

Lemma table_sum_zero t f :
  table_wf t -> (forall id r, lookup_id id t = Some r -> f r = 0) -> table_sum f t = 0.
Proof.
  intros Hwf H. rewrite (table_sum_ext t f (fun _ => 0)) by done.
  apply sum_by_zero. intros s _. by destruct (sl_value s).
Qed.

Lemma table_sum_le_len t f c :
  table_wf t -> (forall id r, lookup_id id t = Some r -> f r <= c) ->
  table_sum f t <= c * ObjectTable_len t.
Proof.
  intros Hwf H. rewrite table_sum_occupied by done.
  assert (Hgen : forall slots : list (Slot T), (forall j s v, slots !! j = Some s -> sl_value s = Some v -> f v <= c) ->
    sum_by (fun s : Slot T => match sl_value s with Some v => f v | None => 0 end) slots <=
    c * sum_by (fun s : Slot T => match sl_value s with Some _ => 1 | None => 0 end) slots).
  { clear. intros slots. induction slots as [|s rest IH]; intros H; unfold sum_by in *; simpl; [lia|].
    specialize (IH (fun j s v Hj => H (S j) s v Hj)). pose proof (H O s) as H0.
    destruct (sl_value s) as [v|]; [specialize (H0 v eq_refl eq_refl)|]; lia. }
  apply Hgen. intros j s v Hj Hv. apply (H (slot_id t j s)). apply lookup_id_spec; eauto.
Qed.

Lemma len_bounds t : table_wf t -> 0 <= ObjectTable_len t <= ot_max_slots t.
Proof.
  intros Hwf. unfold ObjectTable_len. rewrite (tw_live t Hwf). pose proof (tw_len t Hwf).
  assert (forall slots : list (Slot T), 0 <= sum_by occupied slots <= zlen slots); [|specialize (H0 (ot_slots t)); lia].
  intros slots. induction slots as [|s rest IH]; unfold sum_by, zlen in *; simpl; [lia|].
  unfold occupied at 1 3. destruct (sl_value s); lia.
Qed.

(** An empty table resolves nothing. *)
Lemma empty_lookup t id : table_wf t -> ObjectTable_len t = 0 -> lookup_id id t = None.
Proof.
  intros Hwf Hlen. destruct (lookup_id id t) as [r|] eqn:Hl; [|done]. exfalso.
  pose proof (table_sum_pos t (fun _ => 1) id r Hwf (fun _ => Z.le_0_1) Hl) as Hp.
  rewrite <- table_sum_occupied in Hp by done. simpl in Hp. lia.
Qed.

(** ** The cursor of the reset loops *)

(** The fields of an identifier. *)
Definition id_slot_number id : Z := Z.land id U32_MAX.
Definition id_namespace id : Z := Z.shiftr (Z.shiftr id 32) NAMESPACE_SHIFT.

Lemma slot_id_fields t i s :
  table_wf t -> ot_slots t !! i = Some s ->
  id_slot_number (slot_id t i s) = Z.of_nat i + 1 /\ id_namespace (slot_id t i s) = ot_namespace t.
Proof.
  intros Hwf Hs. pose proof (wf_index _ _ _ Hwf Hs). pose proof (tw_gen _ Hwf _ _ Hs).
  destruct (proj1 (ObjectId_fields (slot_id t i s) (Z.of_nat i) (ot_namespace t) (sl_generation s) (ot_kind t)
    ltac:(done) ltac:(done)) eq_refl) as (? & _ & ? & _). done.
Qed.

Lemma lookup_namespace t id r : table_wf t -> lookup_id id t = Some r -> id_namespace id = ot_namespace t.
Proof.
  intros Hwf (i & s & Hs & _ & ->)%lookup_id_spec; [|done]. by apply slot_id_fields.
Qed.

(** The slots before the cursor are empty. *)
Definition emptied (c : nat) t : Prop :=
  forall id r, lookup_id id t = Some r -> Z.of_nat c < id_slot_number id.

Lemma emptied_0 t : table_wf t -> emptied 0 t.
Proof.
  intros Hwf id r (i & s & Hs & _ & ->)%lookup_id_spec; [|done].
  destruct (slot_id_fields _ _ _ Hwf Hs) as [-> _]. lia.
Qed.

Lemma find_id_first t i slots n id :
  find_id t i slots = Some (n, id) ->
  forall j s, slots !! j = Some s -> (i + j < n - 1)%nat -> sl_value s = None \/ sl_retired s = true.
Proof.
  revert i. induction slots as [|x rest IH]; intros i Hf j s Hj Hlt; simpl in Hf; [done|].
  destruct (sl_retired x || _) eqn:Hc.
  - destruct j as [|j]; simpl in Hj; simplify_eq; [|eapply IH; [done|done|lia]].
    destruct (sl_value s); [|by left]. rewrite orb_false_r in Hc. by right.
  - simplify_eq. lia.
Qed.

Lemma occupied_not_retired t i s r :
  table_wf t -> ot_slots t !! i = Some s -> sl_value s = Some r -> sl_retired s = true -> False.
Proof. intros Hwf Hs Hv Hr. destruct (tw_retired _ Hwf _ _ Hs Hr). congruence. Qed.

(** The next identifier resolves, and nothing lies between. *)
Lemma next_id_cursor t c n id :
  table_wf t -> emptied c t -> next_id_from c t = Some (n, id) ->
  (c < n <= length (ot_slots t))%nat /\ (exists r, lookup_id id t = Some r) /\
  forall x r, lookup_id x t = Some r -> x = id \/ Z.of_nat n < id_slot_number x.
Proof.
  intros Hwf He Hn. pose proof Hn as Hn'. apply next_id_from_Some in Hn' as (Hb & r & Hg & Hl); [|done].
  split; [done|]. split; [exists r; by apply get_lookup|]. intros x rx Hx.
  pose proof (He _ _ Hx) as Hlow. apply lookup_id_spec in Hx as (i & s & Hs & Hv & ->); [|done].
  destruct (slot_id_fields _ _ _ Hwf Hs) as [Hi _]. rewrite Hi in *.
  destruct (decide (i < n - 1)%nat) as [Hlt|Hge].
  - exfalso. unfold next_id_from in Hn.
    assert (Hd : drop c (ot_slots t) !! (i - c)%nat = Some s)
      by (rewrite lookup_drop; by replace (c + (i - c))%nat with i by lia).
    destruct (find_id_first _ _ _ _ _ Hn _ _ Hd ltac:(lia)) as [|Hr]; [congruence|].
    by eapply occupied_not_retired.
  - destruct (decide (i = n - 1)%nat) as [->|]; [left|right; lia].
    apply locate_Ok in Hl as (s' & v & Hs' & _ & ->); [|done]. by assert (s' = s) as -> by congruence.
Qed.

Lemma next_id_done t c : table_wf t -> emptied c t -> next_id_from c t = None -> forall id, lookup_id id t = None.
Proof.
  intros Hwf He Hn id. destruct (lookup_id id t) as [r|] eqn:Hl; [|done]. exfalso.
  pose proof (He _ _ Hl) as Hlow. apply lookup_id_spec in Hl as (i & s & Hs & Hv & ->); [|done].
  destruct (slot_id_fields _ _ _ Hwf Hs) as [Hi _]. rewrite Hi in Hlow.
  assert (Hd : drop c (ot_slots t) !! (i - c)%nat = Some s)
    by (rewrite lookup_drop; by replace (c + (i - c))%nat with i by lia).
  destruct (find_id_None _ _ _ Hn _ _ Hd) as [|Hr]; [congruence|]. by eapply occupied_not_retired.
Qed.

Lemma no_lookup_len t : table_wf t -> (forall id, lookup_id id t = None) -> ObjectTable_len t = 0.
Proof.
  intros Hwf Hn. rewrite table_sum_occupied by done. apply table_sum_zero; [done|]. intros id r Hr.
  by rewrite Hn in Hr.
Qed.

Lemma new_table_facts kind max_slots namespace :
  is_u32 max_slots -> is_u16 namespace ->
  let t := ObjectTable_with_namespace (T := T) kind max_slots namespace in
  table_wf t /\ (forall id, lookup_id id t = None) /\ (forall f, table_sum f t = 0) /\
  ObjectTable_len t = 0.
Proof.
  intros Hm Hn t. assert (Hwf : table_wf t) by (by apply with_namespace_wf).
  split_and!; try done. intros id. by apply empty_lookup.
Qed.

End Relations.

(** ** Repeated updates *)

Section Repeat.
Context {T : Type}.
Implicit Types (t : ObjectTable T).

Lemma count_id_cons id x ids : count_id id (x :: ids) = (if x =? id then 1 else 0) + count_id id ids.
Proof. done. Qed.

Lemma count_id_nonneg id ids : 0 <= count_id id ids.
Proof. apply sum_by_nonneg. intros. case_match; lia. Qed.

Lemma count_id_not_in id ids : id ∉ ids -> count_id id ids = 0.
Proof.
  intros H. apply sum_by_zero. intros x Hx. case_match; [|done]. bool_to_prop. by subst.
Qed.

Lemma count_id_in id ids : id ∈ ids -> 1 <= count_id id ids.
Proof.
  intros H. pose proof (sum_by_elem (fun x => if x =? id then 1 else 0) ids id) as Hs.
  simpl in Hs. rewrite Z.eqb_refl in Hs. apply Hs; [intros; case_match; lia|done].
Qed.

Lemma count_id_perm id ids ids' : ids ≡ₚ ids' -> count_id id ids = count_id id ids'.
Proof. induction 1; rewrite ?count_id_cons; lia. Qed.

Lemma count_id_app id l k : count_id id (l ++ k) = count_id id l + count_id id k.
Proof. apply sum_by_app. Qed.

Lemma count_id_le_len id ids : count_id id ids <= zlen ids.
Proof.
  unfold count_id, zlen, sum_by. induction ids as [|x ids IH]; simpl; [lia|]. case_match; lia.
Qed.

(** [f] applied [n] times. *)
Definition iter_f (f : T -> T) (n : Z) (r : T) : T := Nat.iter (Z.to_nat n) f r.

(** Updating every listed identifier applies [f] once per occurrence. *)
Lemma table_update_all_total ids f t :
  table_wf t -> (forall id, id ∈ ids -> is_Some (lookup_id id t)) ->
  exists t', table_update_all ids f t = (t', Ok tt) /\ table_wf t' /\ same_table t t' /\
    ObjectTable_len t' = ObjectTable_len t /\
    (forall id, lookup_id id t' = iter_f f (count_id id ids) <$> lookup_id id t) /\
    (forall g, (forall r, g (f r) = g r) -> table_sum g t' = table_sum g t).
Proof.
  revert t. induction ids as [|x ids IH]; intros t Hwf Hin; cbn [table_update_all].
  { exists t. split_and!; try done. intros id. unfold iter_f. simpl. by destruct (lookup_id id t). }
  destruct (Hin x) as [r Hr]; [set_solver|].
  destruct (table_update_total t x f r Hwf Hr) as (t1 & -> & Hu).
  destruct (IH t1) as (t' & Ht' & Hwf' & Hsame & Hlen & Hl & Hs).
  { apply (up_wf _ _ _ _ _ Hu). }
  { intros id Hid. rewrite (up_lookup _ _ _ _ _ Hu). case_decide; [done|]. apply Hin. set_solver. }
  exists t'. pose proof (up_same _ _ _ _ _ Hu) as Hsame1. unfold same_table in *. split_and!; try done.
  - by destruct_and!; congruence.
  - by destruct_and!; congruence.
  - by destruct_and!; congruence.
  - rewrite Hlen. apply (up_len _ _ _ _ _ Hu).
  - intros id. rewrite Hl, (up_lookup _ _ _ _ _ Hu), count_id_cons.
    pose proof (count_id_nonneg id ids). unfold iter_f. case_decide as Hid.
    + subst. rewrite Hr, Z.eqb_refl. simpl. f_equal.
      rewrite Z2Nat.inj_add by lia. change (Z.to_nat 1) with 1%nat. simpl.
      by rewrite <- Nat.iter_succ_r.
    + rewrite (proj2 (Z.eqb_neq x id)) by done. done.
  - intros g Hg. rewrite Hs, (up_sum _ _ _ _ _ Hu), Hg by done. lia.
Qed.

End Repeat.
