(* ===== verification/ChildInv.v ===== *)
(** * The invariant of one table of context children

    Buffers, programs and queues are alike: each record belongs to a context,
    is counted there, and is referenced by events.  [child_inv] is the
    invariant of such a table against the contexts and the events, and the
    lemmas say how it survives each kind of change.  The class [ChildRecord]
    is what the three record types have in common. *)

From Stdlib Require Import ZArith Lia.
From stdpp Require Import prelude list.
From S2P Require Import Prelude Core ObjectTable State TableFacts.

(** A slot holds its resource exactly while it is live. *)
Definition slot_ok {R} (s : ResourceSlot R) : Prop :=
  slot_release s = Live <-> is_Some (slot_resource s).

Class ChildRecord (Rec R : Type) `{ResourceRecord Rec R} := {
  rec_ctx : Rec -> ObjectId;
  rec_in_flight : Rec -> Z;
  rec_charge : Rec -> Z;
  rec_slot_with : forall s r, rec_slot (rec_with_slot s r) = s;
  rec_ctx_with : forall s r, rec_ctx (rec_with_slot s r) = rec_ctx r;
  rec_in_flight_with : forall s r, rec_in_flight (rec_with_slot s r) = rec_in_flight r;
  rec_charge_with : forall s r, rec_charge (rec_with_slot s r) = rec_charge r;
}.

(** A record with a reference count. *)
Class RefRecord (Rec R : Type) `{ChildRecord Rec R} := {
  rec_with_in_flight : Z -> Rec -> Rec;
  bump_slot : forall n r, rec_slot (rec_with_in_flight n r) = rec_slot r;
  bump_ctx : forall n r, rec_ctx (rec_with_in_flight n r) = rec_ctx r;
  bump_charge : forall n r, rec_charge (rec_with_in_flight n r) = rec_charge r;
  bump_in_flight : forall n r, rec_in_flight (rec_with_in_flight n r) = n;
  bump_bump : forall n m r, rec_with_in_flight n (rec_with_in_flight m r) = rec_with_in_flight n r;
  bump_id : forall r, rec_with_in_flight (rec_in_flight r) r = r;
}.

#[global, refine] Instance BufferRecord_child {B} : ChildRecord (BufferRecord B) B := {|
  rec_ctx := buf_context_id;
  rec_in_flight := buf_in_flight;
  rec_charge := fun r => bi_allocation_bytes (buf_info r);
|}.
Proof. all: done. Defined.

#[global, refine] Instance BufferRecord_ref {B} : RefRecord (BufferRecord B) B := {|
  rec_with_in_flight := fun n r =>
    {| buf_slot := buf_slot r; buf_context_id := buf_context_id r; buf_info := buf_info r;
       buf_in_flight := n |};
|}.
Proof. all: try done. by intros []. Defined.

#[global, refine] Instance ProgramRecord_child {P} : ChildRecord (ProgramRecord P) P := {|
  rec_ctx := prg_context_id;
  rec_in_flight := prg_in_flight;
  rec_charge := prg_resident_bytes;
|}.
Proof. all: done. Defined.

#[global, refine] Instance ProgramRecord_ref {P} : RefRecord (ProgramRecord P) P := {|
  rec_with_in_flight := fun n r =>
    {| prg_slot := prg_slot r; prg_context_id := prg_context_id r;
       prg_resident_bytes := prg_resident_bytes r; prg_in_flight := n |};
|}.
Proof. all: try done. by intros []. Defined.

#[global, refine] Instance QueueRecord_child {Q} : ChildRecord (QueueRecord Q) Q := {|
  rec_ctx := que_context_id;
  rec_in_flight := que_in_flight;
  rec_charge := fun _ => 0;
|}.
Proof. all: done. Defined.

#[global, refine] Instance QueueRecord_ref {Q} : RefRecord (QueueRecord Q) Q := {|
  rec_with_in_flight := fun n r =>
    {| que_slot := que_slot r; que_context_id := que_context_id r; que_in_flight := n |};
|}.
Proof. all: try done. by intros []. Defined.

(** Events are children of their context; nothing references them. *)
#[global, refine] Instance EventRecord_child {E} : ChildRecord (EventRecord E) E := {|
  rec_ctx := evt_context_id;
  rec_in_flight := fun _ => 0;
  rec_charge := fun _ => 0;
|}.
Proof. all: done. Defined.

Section Child.
Context {C E Rec R : Type} `{ChildRecord Rec R}.
Context (k : ChildKind) (ref : EventRecord E -> list ObjectId).
Implicit Types (t : ObjectTable Rec) (ctxs : ObjectTable (ContextRecord C))
  (events : ObjectTable (EventRecord E)) (r : Rec) (id x : ObjectId).

Definition in_ctx id r : Z := if rec_ctx r =? id then 1 else 0.

(** References to [id] held by the events. *)
Definition refs id events : Z := table_sum (fun e => count_id id (ref e)) events.

Record rec_ok ctxs events id r : Prop := {
  ro_slot : slot_ok (rec_slot r);
  ro_ctx : is_Some (lookup_id (rec_ctx r) ctxs);
  ro_refs : rec_in_flight r = refs id events;
  ro_bound : rec_in_flight r <= U32_MAX;
  ro_releasing : slot_release (rec_slot r) = Releasing -> rec_in_flight r = 0;
  ro_charge : 0 <= rec_charge r <= U64_MAX;
}.

Record child_inv ctxs t events : Prop := {
  ci_wf : table_wf t;
  ci_rec : forall id r, lookup_id id t = Some r -> rec_ok ctxs events id r;
  ci_refs : forall eid e, lookup_id eid events = Some e -> forall x, x ∈ ref e ->
    exists r, lookup_id x t = Some r /\ rec_ctx r = evt_context_id e;
  ci_count : forall id c, lookup_id id ctxs = Some c ->
    child_count k (ctx_children c) = table_sum (in_ctx id) t;
}.

Lemma in_ctx_nonneg id r : 0 <= in_ctx id r.
Proof. unfold in_ctx. case_match; lia. Qed.

Lemma refs_nonneg id events : 0 <= refs id events.
Proof. apply table_sum_nonneg. intros. apply count_id_nonneg. Qed.

(** An identifier that does not resolve is not referenced. *)
Lemma unresolved_no_refs ctxs t events id :
  table_wf events -> child_inv ctxs t events -> lookup_id id t = None -> refs id events = 0.
Proof.
  intros Hwf Hci Hn. apply table_sum_zero; [done|]. intros eid e He.
  apply count_id_not_in. intros Hin. destruct (ci_refs _ _ _ Hci _ _ He _ Hin) as (r & ? & _). congruence.
Qed.

(** A context that does not resolve has no children. *)
Lemma unresolved_no_children ctxs t events id :
  child_inv ctxs t events -> lookup_id id ctxs = None -> table_sum (in_ctx id) t = 0.
Proof.
  intros Hci Hn. apply table_sum_zero; [apply Hci|]. intros x r Hr. unfold in_ctx.
  destruct (Z.eqb_spec (rec_ctx r) id) as [Heq|]; [|done].
  destruct (ro_ctx _ _ _ _ (ci_rec _ _ _ Hci _ _ Hr)) as [c Hc]. congruence.
Qed.

(** A context with a child has a positive count. *)
Lemma child_counted ctxs t events id r c :
  child_inv ctxs t events -> lookup_id id t = Some r -> lookup_id (rec_ctx r) ctxs = Some c ->
  1 <= child_count k (ctx_children c).
Proof.
  intros Hci Hr Hc. rewrite (ci_count _ _ _ Hci _ _ Hc).
  pose proof (table_sum_pos t (in_ctx (rec_ctx r)) id r (ci_wf _ _ _ Hci) (in_ctx_nonneg _) Hr) as Hp.
  unfold in_ctx at 1 in Hp. rewrite Z.eqb_refl in Hp. done.
Qed.

Lemma child_counts_nonneg ctxs t events id c :
  child_inv ctxs t events -> lookup_id id ctxs = Some c -> 0 <= child_count k (ctx_children c).
Proof.
  intros Hci Hc. rewrite (ci_count _ _ _ Hci _ _ Hc). apply table_sum_nonneg, in_ctx_nonneg.
Qed.

(** ** Changes of the contexts *)

Lemma ci_ctx_update ctxs t events id c c' ctxs' :
  child_inv ctxs t events -> updated ctxs id c c' ctxs' ->
  child_count k (ctx_children c') = child_count k (ctx_children c) -> child_inv ctxs' t events.
Proof.
  intros Hci Hu Heq. destruct Hci as [Hwf Hrec Hrefs Hcount]. split; auto.
  - intros x r Hr. destruct (Hrec _ _ Hr). split; auto.
    rewrite (up_lookup _ _ _ _ _ Hu). by case_decide.
  - intros x d. rewrite (up_lookup _ _ _ _ _ Hu). case_decide as Hx; [|eauto].
    intros [= <-]. subst. rewrite Heq. apply Hcount, (up_at _ _ _ _ _ Hu).
Qed.

Lemma ci_ctx_insert ctxs t events id c ctxs' :
  child_inv ctxs t events -> inserted ctxs id c ctxs' ->
  child_count k (ctx_children c) = 0 -> child_inv ctxs' t events.
Proof.
  intros Hci Hi Heq. pose proof (unresolved_no_children _ _ _ _ Hci (in_fresh _ _ _ _ Hi)).
  destruct Hci as [Hwf Hrec Hrefs Hcount]. split; auto.
  - intros x r Hr. destruct (Hrec _ _ Hr). split; auto.
    rewrite (in_lookup _ _ _ _ Hi). by case_decide.
  - intros x d. rewrite (in_lookup _ _ _ _ Hi). case_decide as Hx; [|eauto].
    intros [= <-]. subst. lia.
Qed.

Lemma ci_ctx_remove ctxs t events id c ctxs' :
  child_inv ctxs t events -> removed ctxs id c ctxs' ->
  child_count k (ctx_children c) = 0 -> child_inv ctxs' t events.
Proof.
  intros Hci Hd Heq. pose proof Hci as [Hwf Hrec Hrefs Hcount]. split; auto.
  - intros x r Hr. destruct (Hrec _ _ Hr) as [? ? ? ? ? ?]. split; auto.
    rewrite (rm_lookup _ _ _ _ Hd). case_decide as Hx; [|done]. exfalso.
    pose proof (rm_at _ _ _ _ Hd) as Hat. rewrite <- Hx in Hat.
    pose proof (child_counted _ _ _ _ _ _ Hci Hr Hat). lia.
  - intros x d. rewrite (rm_lookup _ _ _ _ Hd). case_decide; [done|eauto].
Qed.

(** ** Changes of the table *)

(** A record changes its slot or its resource, nothing the invariant counts. *)
Lemma ci_record_update ctxs t events id r r' t' :
  child_inv ctxs t events -> updated t id r r' t' ->
  rec_ctx r' = rec_ctx r -> rec_in_flight r' = rec_in_flight r -> rec_charge r' = rec_charge r ->
  slot_ok (rec_slot r') -> (slot_release (rec_slot r') = Releasing -> rec_in_flight r = 0) ->
  child_inv ctxs t' events.
Proof.
  intros Hci Hu Hctx Hfl Hch Hslot Hrel. pose proof (up_at _ _ _ _ _ Hu) as Hat.
  destruct Hci as [Hwf Hrec Hrefs Hcount]. split.
  - apply (up_wf _ _ _ _ _ Hu).
  - intros x d. rewrite (up_lookup _ _ _ _ _ Hu). case_decide as Hx; [|eauto].
    intros [= <-]. subst. destruct (Hrec _ _ Hat). split; rewrite ?Hctx, ?Hfl, ?Hch; auto.
  - intros eid e He x Hx. destruct (Hrefs _ _ He _ Hx) as (d & Hd & Hc).
    rewrite (up_lookup _ _ _ _ _ Hu). case_decide as Hxe; [|eauto]. subst.
    exists r'. split; [done|]. congruence.
  - intros x c Hc. rewrite (Hcount _ _ Hc), (up_sum _ _ _ _ _ Hu). unfold in_ctx. rewrite Hctx. lia.
Qed.

(** A child is added and counted. *)
Lemma ci_insert ctxs t events id r t' c c' ctxs' :
  table_wf events -> child_inv ctxs t events -> inserted t id r t' ->
  updated ctxs (rec_ctx r) c c' ctxs' ->
  child_count k (ctx_children c') = child_count k (ctx_children c) + 1 ->
  rec_in_flight r = 0 -> slot_ok (rec_slot r) -> 0 <= rec_charge r <= U64_MAX ->
  child_inv ctxs' t' events.
Proof.
  intros Hwe Hci Hi Hu Hcnt Hfl Hslot Hch. pose proof (up_at _ _ _ _ _ Hu) as Hat.
  pose proof (unresolved_no_refs _ _ _ _ Hwe Hci (in_fresh _ _ _ _ Hi)) as Hnr.
  destruct Hci as [Hwf Hrec Hrefs Hcount]. split.
  - apply (in_wf _ _ _ _ Hi).
  - intros x d. rewrite (in_lookup _ _ _ _ Hi). case_decide as Hx.
    + intros [= <-]. subst. split; auto; try lia. rewrite (up_lookup _ _ _ _ _ Hu). by case_decide.
    + intros Hd. destruct (Hrec _ _ Hd). split; auto. rewrite (up_lookup _ _ _ _ _ Hu). by case_decide.
  - intros eid e He x Hx. destruct (Hrefs _ _ He _ Hx) as (d & Hd & Hc).
    rewrite (in_lookup _ _ _ _ Hi). case_decide as Hxe; [|eauto]. subst.
    rewrite (in_fresh _ _ _ _ Hi) in Hd. done.
  - intros x d. rewrite (up_lookup _ _ _ _ _ Hu), (in_sum _ _ _ _ Hi). unfold in_ctx at 2.
    case_decide as Hx.
    + intros [= <-]. subst. rewrite Z.eqb_refl, Hcnt, (Hcount _ _ Hat). done.
    + intros Hd. rewrite (proj2 (Z.eqb_neq (rec_ctx r) x)), (Hcount _ _ Hd) by congruence. lia.
Qed.

(** An unreferenced child is removed and no longer counted. *)
Lemma ci_remove ctxs t events id r t' c c' ctxs' :
  child_inv ctxs t events -> removed t id r t' -> updated ctxs (rec_ctx r) c c' ctxs' ->
  child_count k (ctx_children c') = child_count k (ctx_children c) - 1 ->
  rec_in_flight r = 0 -> table_wf events -> child_inv ctxs' t' events.
Proof.
  intros Hci Hd Hu Hcnt Hfl Hwe. pose proof (up_at _ _ _ _ _ Hu) as Hat.
  pose proof (rm_at _ _ _ _ Hd) as Hr. destruct Hci as [Hwf Hrec Hrefs Hcount].
  pose proof (ro_refs _ _ _ _ (Hrec _ _ Hr)) as Hz. rewrite Hfl in Hz. split.
  - apply (rm_wf _ _ _ _ Hd).
  - intros x d. rewrite (rm_lookup _ _ _ _ Hd). case_decide as Hx; [done|].
    intros Hdl. destruct (Hrec _ _ Hdl). split; auto. rewrite (up_lookup _ _ _ _ _ Hu). by case_decide.
  - intros eid e He x Hx. destruct (Hrefs _ _ He _ Hx) as (d & Hdl & Hc).
    rewrite (rm_lookup _ _ _ _ Hd). case_decide as Hxe; [|eauto]. exfalso. subst.
    pose proof (count_id_in _ _ Hx).
    pose proof (table_sum_pos events (fun e => count_id id (ref e)) eid e Hwe
      (fun e => count_id_nonneg _ _) He) as Hp. unfold refs in Hz. simpl in Hp. lia.
  - intros x d. rewrite (up_lookup _ _ _ _ _ Hu), (rm_sum _ _ _ _ Hd). unfold in_ctx at 2.
    case_decide as Hx.
    + intros [= <-]. subst. rewrite Z.eqb_refl, Hcnt, (Hcount _ _ Hat). done.
    + intros Hdl. rewrite (proj2 (Z.eqb_neq (rec_ctx r) x)), (Hcount _ _ Hdl) by congruence. lia.
Qed.

(** ** Changes of the events *)

Lemma ci_event_update ctxs t events eid e e' events' :
  child_inv ctxs t events -> updated events eid e e' events' ->
  ref e' = ref e -> evt_context_id e' = evt_context_id e -> child_inv ctxs t events'.
Proof.
  intros Hci Hu Href Hctx. pose proof (up_at _ _ _ _ _ Hu) as Hat.
  destruct Hci as [Hwf Hrec Hrefs Hcount]. split; auto.
  - intros x r Hr. destruct (Hrec _ _ Hr). split; auto. unfold refs in *.
    rewrite (up_sum _ _ _ _ _ Hu), Href. lia.
  - intros x d. rewrite (up_lookup _ _ _ _ _ Hu). case_decide as Hx; [|eauto].
    intros [= <-]. subst. rewrite Href, Hctx. eauto.
Qed.

End Child.

Section Referenced.
Context {C E Rec R : Type} `{RefRecord Rec R}.
Context (k : ChildKind) (ref : EventRecord E -> list ObjectId).
Implicit Types (t : ObjectTable Rec) (ctxs : ObjectTable (ContextRecord C))
  (events : ObjectTable (EventRecord E)) (r : Rec) (id x : ObjectId).

(** [t'] is [t] with [n id] more references to each record. *)
Definition bumped (n : ObjectId -> Z) t t' : Prop :=
  table_wf t' /\ same_table t t' /\ ObjectTable_len t' = ObjectTable_len t /\
  (forall x, lookup_id x t' =
     (fun r => rec_with_in_flight (rec_in_flight r + n x) r) <$> lookup_id x t) /\
  (forall g, (forall m r, g (rec_with_in_flight m r) = g r) -> table_sum g t' = table_sum g t).

Lemma ci_event_insert ctxs t events eid e events' t' :
  child_inv k ref ctxs t events -> inserted events eid e events' ->
  bumped (fun x => count_id x (ref e)) t t' ->
  (forall x, x ∈ ref e -> exists r, lookup_id x t = Some r /\ rec_ctx r = evt_context_id e /\
     slot_release (rec_slot r) = Live /\ rec_in_flight r + count_id x (ref e) <= U32_MAX) ->
  child_inv k ref ctxs t' events'.
Proof.
  intros Hci Hi (Hwf' & _ & _ & Hl & Hs) Hnew. destruct Hci as [Hwf Hrec Hrefs Hcount]. split; auto.
  - intros x d. rewrite Hl. destruct (lookup_id x t) as [r|] eqn:Hr; [|done]. simpl. intros [= <-].
    destruct (Hrec _ _ Hr) as [? ? Hrf ? Hrel ?].
    assert (Hfl : rec_in_flight r + count_id x (ref e) = refs ref x events')
      by (unfold refs in *; rewrite (in_sum _ _ _ _ Hi); lia).
    split; rewrite ?bump_slot, ?bump_ctx, ?bump_charge, ?bump_in_flight; auto;
      (destruct (decide (x ∈ ref e)) as [Hx|Hx];
        [destruct (Hnew _ Hx) as (r2 & Hr2 & _ & Hlive & Hb); simplify_eq
        |rewrite count_id_not_in in * by done]); rewrite ?Z.add_0_r; auto; congruence.
  - intros x d. rewrite (in_lookup _ _ _ _ Hi). case_decide as Hx.
    + intros [= <-] y Hy. rewrite Hl. destruct (Hnew _ Hy) as (r & -> & Hc & _). simpl.
      eexists. split; [done|]. by rewrite bump_ctx.
    + intros Hd y Hy. destruct (Hrefs _ _ Hd _ Hy) as (r & Hr & Hc). rewrite Hl, Hr. simpl.
      eexists. split; [done|]. by rewrite bump_ctx.
  - intros x c Hc. rewrite (Hcount _ _ Hc). symmetry. apply Hs. intros m r. unfold in_ctx.
    by rewrite bump_ctx.
Qed.

Lemma ci_event_remove ctxs t events eid e events' t' :
  child_inv k ref ctxs t events -> removed events eid e events' ->
  bumped (fun x => - count_id x (ref e)) t t' -> child_inv k ref ctxs t' events'.
Proof.
  intros Hci Hd (Hwf' & _ & _ & Hl & Hs). destruct Hci as [Hwf Hrec Hrefs Hcount]. split; auto.
  - intros x d. rewrite Hl. destruct (lookup_id x t) as [r|] eqn:Hr; [|done]. simpl. intros [= <-].
    destruct (Hrec _ _ Hr) as [? ? Hrf ? Hrel ?]. pose proof (count_id_nonneg x (ref e)).
    assert (Hfl : rec_in_flight r + - count_id x (ref e) = refs ref x events')
      by (unfold refs in *; rewrite (rm_sum _ _ _ _ Hd); lia).
    pose proof (refs_nonneg ref x events').
    split; rewrite ?bump_slot, ?bump_ctx, ?bump_charge, ?bump_in_flight; auto; [lia|].
    intros Hrl. specialize (Hrel Hrl). lia.
  - intros x d. rewrite (rm_lookup _ _ _ _ Hd). case_decide as Hx; [done|].
    intros Hdl y Hy. destruct (Hrefs _ _ Hdl _ Hy) as (r & Hr & Hc). rewrite Hl, Hr. simpl.
    eexists. split; [done|]. by rewrite bump_ctx.
  - intros x c Hc. rewrite (Hcount _ _ Hc). symmetry. apply Hs. intros m r. unfold in_ctx.
    by rewrite bump_ctx.
Qed.

(** Taking references and giving them back leaves the invariant. *)
Lemma ci_bump_back ctxs t events n t1 t2 :
  child_inv k ref ctxs t events -> bumped n t t1 -> bumped (fun x => - n x) t1 t2 ->
  child_inv k ref ctxs t2 events.
Proof.
  intros Hci (_ & _ & _ & Hl1 & Hs1) (Hwf2 & _ & _ & Hl2 & Hs2).
  assert (Hl : forall x, lookup_id x t2 = lookup_id x t).
  { intros x. rewrite Hl2, Hl1. destruct (lookup_id x t); simpl; [|done].
    rewrite bump_in_flight, bump_bump. replace (rec_in_flight r + n x + - n x) with (rec_in_flight r) by lia.
    by rewrite bump_id. }
  destruct Hci as [Hwf Hrec Hrefs Hcount]. split; auto.
  - intros x r. rewrite Hl. auto.
  - intros eid e He x Hx. rewrite Hl. eauto.
  - intros x c Hc. rewrite (Hcount _ _ Hc), Hs2, Hs1; [done|..]; intros m r; unfold in_ctx;
      by rewrite bump_ctx.
Qed.

(** Counting up or down once per occurrence, at 32 bits. *)
Lemma iter_add f n r :
  (forall r, f r = rec_with_in_flight (wrapping_add U32_MAX (rec_in_flight r) 1) r) ->
  0 <= n -> 0 <= rec_in_flight r -> rec_in_flight r + n <= U32_MAX ->
  iter_f f n r = rec_with_in_flight (rec_in_flight r + n) r.
Proof.
  intros Hf Hn. assert (exists m, n = Z.of_nat m) as [m ->] by (exists (Z.to_nat n); lia).
  clear Hn. unfold iter_f. rewrite Nat2Z.id.
  induction m as [|m IH]; intros Hr Hb; simpl.
  - by rewrite Z.add_0_r, bump_id.
  - rewrite IH, Hf, bump_in_flight, bump_bump by lia. f_equal.
    unfold wrapping_add. rewrite Z.mod_small; lia.
Qed.

Lemma iter_sub f n r :
  (forall r, f r = rec_with_in_flight (wrapping_sub U32_MAX (rec_in_flight r) 1) r) ->
  0 <= n <= rec_in_flight r -> rec_in_flight r <= U32_MAX ->
  iter_f f n r = rec_with_in_flight (rec_in_flight r + - n) r.
Proof.
  intros Hf Hn. assert (exists m, n = Z.of_nat m) as [m ->] by (exists (Z.to_nat n); lia).
  unfold iter_f. rewrite Nat2Z.id. revert Hn.
  induction m as [|m IH]; intros Hn Hb; simpl.
  - by rewrite Z.add_0_r, bump_id.
  - rewrite IH, Hf, bump_in_flight, bump_bump by lia. f_equal.
    unfold wrapping_sub. rewrite Z.mod_small; lia.
Qed.

Lemma update_all_add ids f t :
  (forall r, f r = rec_with_in_flight (wrapping_add U32_MAX (rec_in_flight r) 1) r) ->
  table_wf t -> (forall x r, lookup_id x t = Some r -> 0 <= rec_in_flight r) ->
  (forall x, x ∈ ids -> exists r, lookup_id x t = Some r /\ rec_in_flight r + count_id x ids <= U32_MAX) ->
  exists t', table_update_all ids f t = (t', Ok tt) /\ bumped (fun x => count_id x ids) t t'.
Proof.
  intros Hf Hwf Hpos Hb.
  destruct (table_update_all_total ids f t Hwf) as (t' & Ht & Hwf' & Hsame & Hlen & Hl & Hs).
  { intros x Hx. destruct (Hb _ Hx) as (r & -> & _). done. }
  exists t'. split; [done|]. split_and!; try done.
  - intros x. rewrite Hl. destruct (lookup_id x t) as [r|] eqn:Hr; simpl; [|done]. f_equal.
    pose proof (Hpos _ _ Hr). pose proof (count_id_nonneg x ids).
    destruct (decide (x ∈ ids)) as [Hx|Hx].
    + destruct (Hb _ Hx) as (r2 & ? & ?). simplify_eq. by apply iter_add.
    + rewrite count_id_not_in by done. unfold iter_f. simpl. by rewrite Z.add_0_r, bump_id.
  - intros g Hg. apply Hs. intros r. by rewrite Hf, Hg.
Qed.

Lemma update_all_sub ids f t :
  (forall r, f r = rec_with_in_flight (wrapping_sub U32_MAX (rec_in_flight r) 1) r) ->
  table_wf t -> (forall x r, lookup_id x t = Some r -> rec_in_flight r <= U32_MAX) ->
  (forall x, x ∈ ids -> exists r, lookup_id x t = Some r /\ count_id x ids <= rec_in_flight r) ->
  exists t', table_update_all ids f t = (t', Ok tt) /\ bumped (fun x => - count_id x ids) t t'.
Proof.
  intros Hf Hwf Hmax Hb.
  destruct (table_update_all_total ids f t Hwf) as (t' & Ht & Hwf' & Hsame & Hlen & Hl & Hs).
  { intros x Hx. destruct (Hb _ Hx) as (r & -> & _). done. }
  exists t'. split; [done|]. split_and!; try done.
  - intros x. rewrite Hl. destruct (lookup_id x t) as [r|] eqn:Hr; simpl; [|done]. f_equal.
    pose proof (Hmax _ _ Hr). pose proof (count_id_nonneg x ids).
    destruct (decide (x ∈ ids)) as [Hx|Hx].
    + destruct (Hb _ Hx) as (r2 & ? & ?). simplify_eq. by apply iter_sub.
    + rewrite count_id_not_in by done. unfold iter_f. simpl. by rewrite Z.add_0_r, bump_id.
  - intros g Hg. apply Hs. intros r. by rewrite Hf, Hg.
Qed.

End Referenced.
