(* ===== verification/StateInv.v ===== *)
(** * The invariant of the device state

    [state_inv] ties the five tables together: every count in a context and
    every in-flight reference equals what the tables hold, retained bytes are
    exact, events never dangle, and quotas hold.  Every operation of [State]
    preserves it, whatever the provider answers. *)

From Stdlib Require Import ZArith Lia.
From stdpp Require Import prelude list sorting relations.
From S2P Require Import Prelude Proto Core ObjectTable State TableFacts ChildInv.

(** Field widths and the checks of [DeviceState::new]. *)
Record limits_ok (l : DeviceLimits) : Prop := {
  lo_contexts : 0 < max_contexts l <= U32_MAX;
  lo_buffers : 0 < max_buffers_per_context l <= U32_MAX;
  lo_programs : 0 < max_programs_per_context l <= U32_MAX;
  lo_queues : 0 < max_queues_per_context l <= U32_MAX;
  lo_events : 0 < max_events_per_context l <= U32_MAX;
}.

Definition child_limit (k : ChildKind) (l : DeviceLimits) : Z :=
  match k with
  | ChildBuffer => max_buffers_per_context l
  | ChildProgram => max_programs_per_context l
  | ChildQueue => max_queues_per_context l
  | ChildEvent => max_events_per_context l
  end.

(** No event references an event. *)
Definition no_refs {E} (e : EventRecord E) : list ObjectId := [].
Definition no_events {E} : ObjectTable (EventRecord E) := ObjectTable_new KindEvent 0.
Definition queue_refs {E} (e : EventRecord E) : list ObjectId := [evt_queue_id e].

Record ctx_ok {C} (l : DeviceLimits) (c : ContextRecord C) : Prop := {
  xo_slot : slot_ok (ctx_slot c);
  xo_releasing : slot_release (ctx_slot c) = Releasing ->
    forall k, child_count k (ctx_children c) = 0;
  xo_quota : forall k, child_count k (ctx_children c) <= child_limit k l;
}.

Definition table_is {T} (kind : ObjectKind) (namespace : Z) (t : ObjectTable T) : Prop :=
  ot_kind t = kind /\ ot_namespace t = namespace.

Record state_inv {C B P Q E} (st : DeviceState C B P Q E) : Prop := {
  si_limits : limits_ok (ds_limits st);
  si_contexts_wf : table_wf (ds_contexts st);
  si_contexts : forall id c, lookup_id id (ds_contexts st) = Some c -> ctx_ok (ds_limits st) c;
  si_buffers : child_inv ChildBuffer evt_buffer_ids (ds_contexts st) (ds_buffers st) (ds_events st);
  si_programs : child_inv ChildProgram evt_program_ids (ds_contexts st) (ds_programs st) (ds_events st);
  si_queues : child_inv ChildQueue queue_refs (ds_contexts st) (ds_queues st) (ds_events st);
  si_events : child_inv (E := E) ChildEvent no_refs (ds_contexts st) (ds_events st) no_events;
  si_event_programs : forall id e, lookup_id id (ds_events st) = Some e -> evt_program_ids e <> [];
  si_backing : rb_buffer_backing (ds_retained st) = table_sum rec_charge (ds_buffers st);
  si_resident : rb_program_resident (ds_retained st) = table_sum rec_charge (ds_programs st);
  si_resident_quota : rb_program_resident (ds_retained st) <= rp_max_program_resident_bytes (ds_policy st);
  si_kinds : table_is KindContext (ds_namespace st) (ds_contexts st) /\
    table_is KindBuffer (ds_namespace st) (ds_buffers st) /\
    table_is KindProgram (ds_namespace st) (ds_programs st) /\
    table_is KindQueue (ds_namespace st) (ds_queues st) /\
    table_is KindEvent (ds_namespace st) (ds_events st);
}.

Lemma table_is_same {T} kind ns (t t' : ObjectTable T) :
  table_is kind ns t -> same_table t t' -> table_is kind ns t'.
Proof. unfold table_is, same_table. intros [? ?] (? & ? & _). split; congruence. Qed.

Lemma no_events_wf {E} : table_wf (no_events (E := E)).
Proof. apply with_namespace_wf; lia. Qed.

#[export] Hint Resolve no_events_wf : va.

(** ** Slot changes *)

Section SlotChange.
Context {Rec R : Type} `{ResourceRecord Rec R}.
Implicit Types (t : ObjectTable Rec) (r : Rec).

(** At most one record changed, only in its slot; it starts releasing only if
    it was idle. *)
Definition slot_change (idle : Rec -> Prop) t t' : Prop :=
  t' = t \/ exists id r s, updated t id r (rec_with_slot s r) t' /\
    (slot_ok (rec_slot r) -> slot_ok s) /\
    (slot_release s = Releasing -> slot_release (rec_slot r) = Releasing \/ idle r).

Lemma begin_release_change busy idle id t t' res :
  table_wf t -> (forall r, busy r = false -> idle r) ->
  begin_release_in busy id t = (t', res) -> slot_change idle t t'.
Proof.
  intros Hwf Hidle. unfold begin_release_in.
  destruct (ObjectTable_get_mut id t) as [[r put]|] eqn:Hg; [|intros [= <- <-]; by left].
  destruct (busy r) eqn:Hb; [intros [= <- <-]; by left|].
  destruct (ResourceSlot_begin_release (rec_slot r)) as [s x] eqn:Hs. intros [= <- <-]. right.
  exists id, r, s. split; [by apply get_mut_updated|].
  unfold ResourceSlot_begin_release in Hs. destruct (rec_slot r) as [[v|] []] eqn:Hr; simpl in *; simplify_eq;
    split; auto. intros _. split; [done|]. intros [? ?]. done.
Qed.

Lemma restore_change idle id (x : R) t t' res :
  table_wf t -> restore_resource id x t = (t', res) -> slot_change idle t t'.
Proof.
  intros Hwf. unfold restore_resource.
  destruct (ObjectTable_get_mut id t) as [[r put]|] eqn:Hg; [|intros [= <- <-]; by left].
  destruct (ResourceSlot_restore x (rec_slot r)) as [s y] eqn:Hs. intros [= <- <-]. right.
  exists id, r, s. split; [by apply get_mut_updated|].
  unfold ResourceSlot_restore in Hs. destruct (rec_slot r) as [[v|] []] eqn:Hr; simpl in *; simplify_eq;
    split; auto. intros _. done.
Qed.

(** A live resource is replaced in place. *)
Lemma put_resource_change idle id t r put (x : R) :
  table_wf t -> ObjectTable_get_mut id t = Ok (r, put) -> is_Some (slot_resource (rec_slot r)) ->
  slot_change idle t (put (rec_with_slot (ResourceSlot_put x (rec_slot r)) r)).
Proof.
  intros Hwf Hg Hsome. right. exists id, r, (ResourceSlot_put x (rec_slot r)).
  split; [by apply get_mut_updated|]. unfold slot_ok. simpl. split; [|by left].
  intros Hok. split; [by eauto|]. intros _. by apply Hok.
Qed.

(** What a successful [begin_release] did. *)
Lemma begin_release_Ok busy id t t' (x : R) :
  table_wf t -> begin_release_in busy id t = (t', Ok x) ->
  exists r, busy r = false /\ slot_resource (rec_slot r) = Some x /\ slot_release (rec_slot r) = Live /\
    updated t id r (rec_with_slot {| slot_resource := None; slot_release := Releasing |} r) t'.
Proof.
  intros Hwf. unfold begin_release_in.
  destruct (ObjectTable_get_mut id t) as [[r put]|] eqn:Hg; [|done].
  destruct (busy r) eqn:Hb; [done|]. unfold ResourceSlot_begin_release.
  destruct (rec_slot r) as [[v|] []] eqn:Hr; simpl; try done. intros [= <- <-].
  exists r. rewrite Hr. split_and!; try done. by apply get_mut_updated.
Qed.

End SlotChange.

Section Inv.
Context {C B P Q E : Type}.
Abbreviation State := (DeviceState C B P Q E).
Implicit Types (st : State).

(** Replacing one table of the state by a table with changed slots. *)
Lemma inv_context_slot st t :
  state_inv st -> slot_change (fun c => ChildCounts_is_empty (ctx_children c) = true) (ds_contexts st) t ->
  state_inv (with_contexts st t).
Proof.
  intros Hinv [->|(id & r & s & Hu & Hok & Hrel)]; [by destruct st|]. destruct Hinv.
  pose proof (si_contexts0 _ _ (up_at _ _ _ _ _ Hu)) as Hr.
  split; simpl; auto; try (by eapply ci_ctx_update).
  - apply (up_wf _ _ _ _ _ Hu).
  - intros x c. rewrite (up_lookup _ _ _ _ _ Hu). case_decide; [|eauto]. intros [= <-].
    destruct Hr as [Hs Hre ?]. split; simpl; auto.
    intros [Hl|He]%Hrel; [by apply Hre|]. intros k. unfold ChildCounts_is_empty in He. bool_to_prop.
    by destruct k.
  - destruct_and!. split_and!; auto. eapply table_is_same; [done|]. apply (up_same _ _ _ _ _ Hu).
Qed.

Lemma charge_sum_slot {Rec R} `{ChildRecord Rec R} (t : ObjectTable Rec) id r s t' :
  updated t id r (rec_with_slot s r) t' -> table_sum rec_charge t' = table_sum rec_charge t.
Proof. intros Hu. rewrite (up_sum _ _ _ _ _ Hu), rec_charge_with. lia. Qed.

Lemma child_slot_change {Rec R} `{ChildRecord Rec R} k ref (ctxs : ObjectTable (ContextRecord C))
    (events : ObjectTable (EventRecord E)) (t t' : ObjectTable Rec) :
  child_inv k ref ctxs t events -> slot_change (fun r => rec_in_flight r = 0) t t' ->
  child_inv k ref ctxs t' events.
Proof.
  intros Hci [->|(id & r & s & Hu & Hok & Hrel)]; [done|].
  pose proof (ci_rec _ _ _ _ _ Hci _ _ (up_at _ _ _ _ _ Hu)) as [? ? ? ? Hr ?].
  eapply ci_record_update; [done|done|apply rec_ctx_with|apply rec_in_flight_with|apply rec_charge_with|..];
    rewrite rec_slot_with; [by apply Hok|]. intros [?|?]%Hrel; auto.
Qed.

Lemma slot_change_charge {Rec R} `{ChildRecord Rec R} idle (t t' : ObjectTable Rec) :
  slot_change idle t t' -> table_sum rec_charge t' = table_sum rec_charge t.
Proof. intros [->|(id & r & s & Hu & _)]; [done|]. by eapply charge_sum_slot. Qed.

Lemma slot_change_same {Rec R} `{ResourceRecord Rec R} idle (t t' : ObjectTable Rec) :
  slot_change idle t t' -> same_table t t'.
Proof. intros [->|(id & r & s & Hu & _)]; [done|]. apply (up_same _ _ _ _ _ Hu). Qed.

Lemma inv_buffer_slot st t :
  state_inv st -> slot_change (fun r => rec_in_flight r = 0) (ds_buffers st) t ->
  state_inv (with_buffers st t).
Proof.
  intros Hinv Hc. pose proof (slot_change_charge _ _ _ Hc). pose proof (slot_change_same _ _ _ Hc).
  destruct Hinv. split; simpl; auto; try (by eapply child_slot_change); try (simpl in *; congruence).
  destruct_and!. split_and!; auto. by eapply table_is_same.
Qed.

Lemma inv_program_slot st t :
  state_inv st -> slot_change (fun r => rec_in_flight r = 0) (ds_programs st) t ->
  state_inv (with_programs st t).
Proof.
  intros Hinv Hc. pose proof (slot_change_charge _ _ _ Hc). pose proof (slot_change_same _ _ _ Hc).
  destruct Hinv. split; simpl; auto; try (by eapply child_slot_change); try (simpl in *; congruence).
  destruct_and!. split_and!; auto. by eapply table_is_same.
Qed.

Lemma inv_queue_slot st t :
  state_inv st -> slot_change (fun r => rec_in_flight r = 0) (ds_queues st) t ->
  state_inv (with_queues st t).
Proof.
  intros Hinv Hc. pose proof (slot_change_same _ _ _ Hc).
  destruct Hinv. split; simpl; auto; try (by eapply child_slot_change).
  destruct_and!. split_and!; auto. by eapply table_is_same.
Qed.

Lemma inv_event_slot st t :
  state_inv st -> slot_change (fun _ => True) (ds_events st) t -> state_inv (with_events st t).
Proof.
  intros Hinv Hc. pose proof (slot_change_same _ _ _ Hc) as Hsame. destruct Hinv.
  assert (Hc' : slot_change (fun r : EventRecord E => rec_in_flight r = 0) (ds_events st) t).
  { destruct Hc as [->|(id & r & s & Hu & Hok & Hrel)]; [by left|]. right. exists id, r, s.
    split_and!; auto. }
  split; simpl; auto; try (by eapply child_slot_change).
  1-3: destruct Hc as [->|(id & r & s & Hu & _)]; [done|by eapply ci_event_update].
  - destruct Hc as [->|(id & r & s & Hu & _)]; [done|].
    intros x e. rewrite (up_lookup _ _ _ _ _ Hu). case_decide; [|eauto]. intros [= <-].
    apply (si_event_programs0 _ _ (up_at _ _ _ _ _ Hu)).
  - destruct_and!. split_and!; auto. by eapply table_is_same.
Qed.

(** ** Counts *)

Lemma wrapping_add_small max a b : 0 <= a + b <= max -> wrapping_add max a b = a + b.
Proof. intros. unfold wrapping_add. apply Z.mod_small. lia. Qed.

Lemma wrapping_sub_small max a b : 0 <= a - b <= max -> wrapping_sub max a b = a - b.
Proof. intros. unfold wrapping_sub. apply Z.mod_small. lia. Qed.

Lemma child_count_set k n c k' :
  child_count k' (set_child k n c) = if decide (k' = k) then n else child_count k' c.
Proof. by destruct k, k'. Qed.

Lemma child_limit_bound k l : limits_ok l -> 0 < child_limit k l <= U32_MAX.
Proof. intros []. by destruct k. Qed.

Lemma state_child_nonneg st id c k :
  state_inv st -> lookup_id id (ds_contexts st) = Some c -> 0 <= child_count k (ctx_children c).
Proof.
  intros Hinv Hc. destruct Hinv, k.
  - by eapply (child_counts_nonneg _ _ _ _ _ _ _ si_buffers0).
  - by eapply (child_counts_nonneg _ _ _ _ _ _ _ si_programs0).
  - by eapply (child_counts_nonneg _ _ _ _ _ _ _ si_queues0).
  - by eapply (child_counts_nonneg _ _ _ _ _ _ _ si_events0).
Qed.

(** What the contexts are after one child of kind [k] of [ctx] came or went. *)
Definition recounted k (d : Z) ctx st (ctxs' : ObjectTable (ContextRecord C)) : Prop :=
  exists c c', updated (ds_contexts st) ctx c c' ctxs' /\
    (forall k', child_count k' (ctx_children c') =
       child_count k' (ctx_children c) + (if decide (k' = k) then d else 0)) /\
    (forall id x, lookup_id id ctxs' = Some x -> ctx_ok (ds_limits st) x).

Lemma add_child_recounted st k ctx c put :
  state_inv st -> ObjectTable_get_mut ctx (ds_contexts st) = Ok (c, put) ->
  slot_release (ctx_slot c) = Live ->
  child_count k (ctx_children c) < child_limit k (ds_limits st) ->
  recounted k 1 ctx st (put (add_child k c)).
Proof.
  intros Hinv Hg Hlive Hlt.
  pose proof (get_mut_updated _ _ _ _ (add_child k c) (si_contexts_wf _ Hinv) Hg) as Hu.
  pose proof (up_at _ _ _ _ _ Hu) as Hat. pose proof (state_child_nonneg _ _ _ k Hinv Hat).
  pose proof (child_limit_bound k _ (si_limits _ Hinv)).
  assert (Hcnt : forall k', child_count k' (ctx_children (add_child k c)) =
    child_count k' (ctx_children c) + (if decide (k' = k) then 1 else 0)).
  { intros k'. simpl. rewrite child_count_set. case_decide; [|lia]. subst.
    rewrite wrapping_add_small; lia. }
  exists c, (add_child k c). split_and!; try done.
  intros id x. rewrite (up_lookup _ _ _ _ _ Hu). case_decide; [|apply (si_contexts _ Hinv)].
  intros [= <-]. destruct (si_contexts _ Hinv _ _ Hat) as [? Hre Hq]. split.
  - done.
  - intros Hr. simpl in Hr. congruence.
  - intros k'. rewrite Hcnt. specialize (Hq k'). case_decide; subst; lia.
Qed.

Lemma drop_child_recounted st k ctx c t :
  state_inv st -> lookup_id ctx (ds_contexts st) = Some c ->
  1 <= child_count k (ctx_children c) ->
  table_update ctx (drop_child k) (ds_contexts st) = Ok t ->
  recounted k (-1) ctx st t.
Proof.
  intros Hinv Hat Hge Ht.
  destruct (table_update_Ok _ _ _ _ (si_contexts_wf _ Hinv) Ht) as [c1 Hu].
  pose proof (up_at _ _ _ _ _ Hu). simplify_eq.
  pose proof (si_contexts _ Hinv _ _ Hat) as [? Hre Hq].
  pose proof (child_limit_bound k _ (si_limits _ Hinv)). specialize (Hq k) as Hqk.
  assert (Hcnt : forall k', child_count k' (ctx_children (drop_child k c)) =
    child_count k' (ctx_children c) + (if decide (k' = k) then -1 else 0)).
  { intros k'. simpl. rewrite child_count_set. case_decide; [|lia]. subst.
    rewrite wrapping_sub_small; lia. }
  exists c, (drop_child k c). split_and!; try done.
  intros id x. rewrite (up_lookup _ _ _ _ _ Hu). case_decide; [|apply (si_contexts _ Hinv)].
  intros [= <-]. split.
  - done.
  - intros Hr k'. simpl in Hr. specialize (Hre Hr k). lia.
  - intros k'. rewrite Hcnt. specialize (Hq k'). case_decide; lia.
Qed.

(** The tables of the other kinds do not notice. *)
Lemma recounted_other {Rec R} `{ChildRecord Rec R} k k' d ctx st ctxs' ref (t : ObjectTable Rec)
    (events : ObjectTable (EventRecord E)) :
  recounted k d ctx st ctxs' -> k' <> k ->
  child_inv k' ref (ds_contexts st) t events -> child_inv k' ref ctxs' t events.
Proof.
  intros (c & c' & Hu & Hcnt & _) Hne Hci. eapply ci_ctx_update; [done|done|].
  rewrite Hcnt, decide_False by done. lia.
Qed.

Lemma recounted_wf k d ctx st ctxs' :
  recounted k d ctx st ctxs' -> table_wf ctxs' /\ same_table (ds_contexts st) ctxs'.
Proof. intros (c & c' & Hu & _). split; [apply (up_wf _ _ _ _ _ Hu)|apply (up_same _ _ _ _ _ Hu)]. Qed.

Lemma charge_bound {Rec R} `{ChildRecord Rec R} k ref (ctxs : ObjectTable (ContextRecord C))
    (events : ObjectTable (EventRecord E)) (t : ObjectTable Rec) :
  child_inv k ref ctxs t events -> 0 <= table_sum rec_charge t <= U64_MAX * U32_MAX.
Proof.
  intros Hci. pose proof (ci_wf _ _ _ _ _ Hci) as Hwf. split.
  - rewrite (table_sum_ext t rec_charge (fun r => Z.max 0 (rec_charge r))).
    + apply table_sum_nonneg. lia.
    + done.
    + intros id r Hr. destruct (ci_rec _ _ _ _ _ Hci _ _ Hr). lia.
  - transitivity (U64_MAX * ObjectTable_len t).
    + apply table_sum_le_len; [done|]. intros id r Hr. destruct (ci_rec _ _ _ _ _ Hci _ _ Hr). lia.
    + pose proof (len_bounds t Hwf). pose proof (tw_max t Hwf). nia.
Qed.

(** ** Construction and contexts *)

Lemma checked_mul_Some max a b c : checked_mul max a b = Some c -> c = a * b /\ a * b <= max.
Proof. unfold checked_mul. case_match; bool_to_prop; intros; by simplify_eq. Qed.

Lemma empty_child_inv {Rec R} `{ChildRecord Rec R} k ref kc mc kt mt ke me namespace :
  is_u32 mc -> is_u32 mt -> is_u32 me -> is_u16 namespace ->
  child_inv k ref (ObjectTable_with_namespace (T := ContextRecord C) kc mc namespace)
    (ObjectTable_with_namespace (T := Rec) kt mt namespace)
    (ObjectTable_with_namespace (T := EventRecord E) ke me namespace).
Proof.
  intros Hmc Hmt Hme Hn.
  destruct (new_table_facts (T := ContextRecord C) kc mc namespace) as (? & Hlc & _); [done..|].
  destruct (new_table_facts (T := Rec) kt mt namespace) as (? & Hlt & _); [done..|].
  destruct (new_table_facts (T := EventRecord E) ke me namespace) as (? & Hle & _); [done..|].
  split; [done|..].
  - intros id r Hr. by rewrite Hlt in Hr.
  - intros eid e He. by rewrite Hle in He.
  - intros id c Hc. by rewrite Hlc in Hc.
Qed.

(** The limits are fields of their widths. *)
Definition limits_typed (l : DeviceLimits) : Prop :=
  is_u32 (max_contexts l) /\ is_u32 (max_buffers_per_context l) /\
  is_u32 (max_programs_per_context l) /\ is_u32 (max_queues_per_context l) /\
  is_u32 (max_events_per_context l).

Lemma DeviceState_new_inv namespace limits policy st :
  is_u16 namespace -> limits_typed limits -> 0 < rp_max_program_resident_bytes policy ->
  DeviceState_new namespace limits policy = Ok st ->
  state_inv st /\ ds_namespace st = namespace /\ DeviceState_is_empty st = true /\
  ds_limits st = limits /\ ds_policy st = policy /\ ds_retained st = RetainedBytes_default.
Proof.
  intros Hn (H1 & H2 & H3 & H4 & H5) Hpol. unfold DeviceState_new.
  destruct (_ || _) eqn:Hz; [done|]. destruct (negb _); [done|]. bool_to_prop.
  destruct (checked_mul _ (max_events_per_context limits) _); [|done]. simpl. unfold aggregate_slots.
  destruct (checked_mul _ _ (max_buffers_per_context limits)) as [nb|] eqn:Hb; [|done]. simpl.
  destruct (checked_mul _ _ (max_programs_per_context limits)) as [np|] eqn:Hp; [|done]. simpl.
  destruct (checked_mul _ _ (max_queues_per_context limits)) as [nq|] eqn:Hq; [|done]. simpl.
  destruct (checked_mul _ _ (max_events_per_context limits)) as [ne|] eqn:He; [|done]. simpl.
  intros [= <-].
  apply checked_mul_Some in Hb as [-> ?], Hp as [-> ?], Hq as [-> ?], He as [-> ?].
  assert (Hnn : forall a b, 0 <= a -> 0 <= b -> 0 <= a * b) by (intros; lia).
  destruct H1, H2, H3, H4, H5.
  split; [|done]. split; simpl; try done.
  - split; lia.
  - by apply with_namespace_wf.
  - intros id c Hc. pose proof (new_table_facts (T := ContextRecord C) KindContext
      (max_contexts limits) namespace ltac:(done) Hn) as (_ & Hl & _). by rewrite Hl in Hc.
  - apply empty_child_inv; auto.
  - apply empty_child_inv; auto.
  - apply empty_child_inv; auto.
  - pose proof (empty_child_inv (Rec := EventRecord E) ChildEvent no_refs KindContext
      (max_contexts limits) KindEvent (max_contexts limits * max_events_per_context limits) KindEvent 0
      namespace ltac:(done) ltac:(auto) ltac:(lia) Hn) as [Hwf Hrec _ Hcount].
    split; auto.
    + intros id r Hr. by destruct (Hrec _ _ Hr).
    + intros eid e He. by rewrite (empty_lookup _ _ no_events_wf eq_refl) in He.
  - intros id e He. pose proof (new_table_facts (T := EventRecord E) KindEvent
      (max_contexts limits * max_events_per_context limits) namespace ltac:(auto) Hn) as (_ & Hl & _).
    by rewrite Hl in He.
  - lia.
Qed.

Section Providers.
Context {W PE : Type}.

Lemma create_context_inv mem (create : W -> W * result C PE) st w st' w' res :
  state_inv st -> create_context_with mem create st w = (st', w', res) -> state_inv st'.
Proof.
  intros Hinv. unfold create_context_with.
  destruct (_ <=? _); [by intros [= <- _ _]|].
  destruct (try_reserve_insert _ _) as [[]|] eqn:Hr; [|by intros [= <- _ _]].
  destruct (create w) as [w1 [x|]]; [|by intros [= <- _ _]].
  set (c := {| ctx_slot := _ |}). destruct (insert_prepared c _) as [t id] eqn:Hi. intros [= <- _ _].
  apply insert_inserted in Hi; [|apply Hinv|by eapply try_reserve_insert_Ok].
  destruct Hinv. split; simpl; auto; try (by eapply ci_ctx_insert).
  - apply (in_wf _ _ _ _ Hi).
  - intros y d. rewrite (in_lookup _ _ _ _ Hi). case_decide; [|eauto]. intros [= <-]. split; simpl.
    + done.
    + done.
    + intros k. pose proof (child_limit_bound k _ si_limits0). destruct k; simpl in *; lia.
  - destruct_and!. split_and!; auto. eapply table_is_same; [done|]. apply (in_same _ _ _ _ Hi).
Qed.

(** The admission checks. *)
Lemma admission_Ok st ctx k limit u :
  check_child_admission ctx k limit st = Ok u ->
  exists c, lookup_id ctx (ds_contexts st) = Some c /\ is_Some (slot_resource (ctx_slot c)) /\
    child_count k (ctx_children c) < limit.
Proof.
  unfold check_child_admission.
  destruct (table_get ctx (ds_contexts st)) as [c|] eqn:Hg; [|done]. apply table_get_Ok in Hg.
  unfold record_resource, ResourceSlot_get. simpl.
  destruct (slot_resource (ctx_slot c)) eqn:Hs; [|done]. simpl.
  destruct (Z.leb_spec limit (child_count k (ctx_children c))); [done|]. intros _. exists c. eauto.
Qed.

Lemma slot_live {R} (s : ResourceSlot R) : slot_ok s -> is_Some (slot_resource s) -> slot_release s = Live.
Proof. intros [? ?]. auto. Qed.

(** Taking a new child of context [ctx] into the table of kind [k]. *)
Lemma admitted_recount st ctx k limit u c put :
  state_inv st -> limit = child_limit k (ds_limits st) ->
  check_child_admission ctx k limit st = Ok u ->
  ObjectTable_get_mut ctx (ds_contexts st) = Ok (c, put) ->
  recounted k 1 ctx st (put (add_child k c)).
Proof.
  intros Hinv -> (c1 & Hc1 & Hs & Hlt)%admission_Ok Hg.
  pose proof (proj1 (get_lookup _ _ _) (proj1 (get_mut_Ok _ _ _ _ Hg))). simplify_eq.
  apply add_child_recounted; auto. apply slot_live; [|done]. by eapply si_contexts.
Qed.

Lemma create_queue_inv mem ctx (create : C -> W -> W * result Q PE) st w st' w' res :
  state_inv st -> create_queue_with mem ctx create st w = (st', w', res) -> state_inv st'.
Proof.
  intros Hinv. unfold create_queue_with.
  destruct (check_child_admission _ _ _ _) as [u|] eqn:Ha; [|by intros [= <- _ _]].
  destruct (try_reserve_insert _ _) as [[]|] eqn:Hr; [|by intros [= <- _ _]].
  destruct (ObjectTable_get_mut _ _) as [[c put]|] eqn:Hg; [|by intros [= <- _ _]].
  destruct (record_resource c) as [x|]; [|by intros [= <- _ _]].
  destruct (create x w) as [w1 [q|]]; [|by intros [= <- _ _]].
  set (r := {| que_slot := _ |}). destruct (insert_prepared r _) as [t id] eqn:Hi. intros [= <- _ _].
  apply insert_inserted in Hi; [|apply Hinv|by eapply try_reserve_insert_Ok].
  pose proof (admitted_recount _ _ _ _ _ _ _ Hinv eq_refl Ha Hg) as Hrc.
  destruct (recounted_wf _ _ _ _ _ Hrc) as [Hwfc Hsc].
  destruct Hinv. split; simpl; auto; try (by eapply recounted_other).
  - destruct Hrc as (? & ? & _ & _ & ?). done.
  - destruct Hrc as (d & d' & Hu & Hcnt & _).
    eapply ci_insert; [apply (ci_wf _ _ _ _ _ si_events0)|done|done|done| |done|done|simpl; lia].
    by rewrite Hcnt, decide_True.
  - destruct_and!. split_and!; auto; eapply table_is_same; try done. apply (in_same _ _ _ _ Hi).
Qed.

Lemma create_program_inv mem ctx artifact_bytes resident_bytes
    (create : C -> W -> W * result P PE) st w st' w' res :
  state_inv st -> is_u64 resident_bytes ->
  create_program_with mem ctx artifact_bytes resident_bytes create st w = (st', w', res) ->
  state_inv st'.
Proof.
  intros Hinv Hrb. unfold create_program_with.
  destruct (_ || _); [by intros [= <- _ _]|]. destruct (_ <? _); [by intros [= <- _ _]|].
  destruct (_ <? saturating_add _ _ _) eqn:Hq; [by intros [= <- _ _]|].
  destruct (check_child_admission _ _ _ _) as [u|] eqn:Ha; [|by intros [= <- _ _]].
  destruct (try_reserve_insert _ _) as [[]|] eqn:Hr; [|by intros [= <- _ _]].
  destruct (ObjectTable_get_mut _ _) as [[c put]|] eqn:Hg; [|by intros [= <- _ _]].
  destruct (record_resource c) as [x|]; [|by intros [= <- _ _]].
  destruct (create x w) as [w1 [q|]]; [|by intros [= <- _ _]].
  set (r := {| prg_slot := _ |}). destruct (insert_prepared r _) as [t id] eqn:Hi. intros [= <- _ _].
  apply insert_inserted in Hi; [|apply Hinv|by eapply try_reserve_insert_Ok].
  pose proof (admitted_recount _ _ _ _ _ _ _ Hinv eq_refl Ha Hg) as Hrc.
  destruct (recounted_wf _ _ _ _ _ Hrc) as [Hwfc Hsc].
  pose proof (charge_bound _ _ _ _ _ (si_programs _ Hinv)) as Hcb. rewrite <- (si_resident _ Hinv) in Hcb.
  assert (Hsat : saturating_add U128_MAX (rb_program_resident (ds_retained st)) resident_bytes =
    rb_program_resident (ds_retained st) + resident_bytes) by (unfold saturating_add; lia).
  rewrite Hsat in *. bool_to_prop.
  destruct Hinv. split; simpl; auto; try (by eapply recounted_other).
  - destruct Hrc as (? & ? & _ & _ & ?). done.
  - destruct Hrc as (d & d' & Hu & Hcnt & _).
    eapply ci_insert; [apply (ci_wf _ _ _ _ _ si_events0)|done|done|done| |done|done|done].
    by rewrite Hcnt, decide_True.
  - rewrite (in_sum _ _ _ _ Hi), si_resident0. done.
  - destruct_and!. split_and!; auto; eapply table_is_same; try done. apply (in_same _ _ _ _ Hi).
Qed.

Lemma create_buffer_inv mem ctx desc
    (create : C -> BufferDesc -> W -> W * result (B * BufferInfo) PE) st w st' w' res :
  state_inv st ->
  (forall c w w' b info, create c desc w = (w', Ok (b, info)) -> is_u64 (bi_allocation_bytes info)) ->
  create_buffer_with mem ctx desc create st w = (st', w', res) -> state_inv st'.
Proof.
  intros Hinv Htyped. unfold create_buffer_with.
  destruct (_ <? _); [by intros [= <- _ _]|]. destruct (_ <? _); [by intros [= <- _ _]|].
  destruct (check_child_admission _ _ _ _) as [u|] eqn:Ha; [|by intros [= <- _ _]].
  destruct (try_reserve_insert _ _) as [[]|] eqn:Hr; [|by intros [= <- _ _]].
  destruct (ObjectTable_get_mut _ _) as [[c put]|] eqn:Hg; [|by intros [= <- _ _]].
  destruct (record_resource c) as [x|]; [|by intros [= <- _ _]].
  destruct (create x desc w) as [w1 [[b info]|]] eqn:Hc; [|by intros [= <- _ _]].
  apply Htyped in Hc as Hinfo. clear Hc.
  set (r := {| buf_slot := _ |}). destruct (insert_prepared r _) as [t id] eqn:Hi. intros [= <- _ _].
  apply insert_inserted in Hi; [|apply Hinv|by eapply try_reserve_insert_Ok].
  pose proof (admitted_recount _ _ _ _ _ _ _ Hinv eq_refl Ha Hg) as Hrc.
  destruct (recounted_wf _ _ _ _ _ Hrc) as [Hwfc Hsc].
  pose proof (charge_bound _ _ _ _ _ (si_buffers _ Hinv)) as Hcb. rewrite <- (si_backing _ Hinv) in Hcb.
  assert (Hsat : saturating_add U128_MAX (rb_buffer_backing (ds_retained st)) (bi_allocation_bytes info) =
    rb_buffer_backing (ds_retained st) + bi_allocation_bytes info) by (unfold saturating_add; lia).
  rewrite Hsat in *.
  destruct Hinv. split; simpl; auto; try (by eapply recounted_other).
  - destruct Hrc as (? & ? & _ & _ & ?). done.
  - destruct Hrc as (d & d' & Hu & Hcnt & _).
    eapply ci_insert; [apply (ci_wf _ _ _ _ _ si_events0)|done|done|done| |done|done|done].
    by rewrite Hcnt, decide_True.
  - rewrite (in_sum _ _ _ _ Hi), si_backing0. done.
  - destruct_and!. split_and!; auto; eapply table_is_same; try done. apply (in_same _ _ _ _ Hi).
Qed.

End Providers.

(** ** Commit of a release *)

Lemma commit_context_cases st id st' res :
  state_inv st -> commit_context_release id st = (st', res) ->
  (exists e, res = Err e /\ st' = st) \/
  (res = Ok tt /\ state_inv st' /\ exists c t, removed (ds_contexts st) id c t /\
     slot_release (ctx_slot c) = Releasing /\ st' = with_contexts st t).
Proof.
  intros Hinv. unfold commit_context_release.
  destruct (table_get id (ds_contexts st)) as [c|] eqn:Hg; [|intros [= <- <-]; left; eauto].
  apply table_get_Ok in Hg. unfold ensure_releasing. simpl.
  destruct (slot_release (ctx_slot c)) eqn:Hrel; [intros [= <- <-]; left; eauto|].
  destruct (remove_total _ _ _ (si_contexts_wf _ Hinv) Hg) as [t Hrm]. rewrite Hrm.
  apply remove_removed in Hrm; [|apply Hinv]. intros [= <- <-]. right. split; [done|].
  pose proof (si_contexts _ Hinv _ _ Hg) as [_ Hre _]. specialize (Hre Hrel).
  split; [|by exists c, t]. destruct Hinv. split; simpl; auto; try (by eapply ci_ctx_remove).
  - apply (rm_wf _ _ _ _ Hrm).
  - intros x d. rewrite (rm_lookup _ _ _ _ Hrm). case_decide; [done|eauto].
  - destruct_and!. split_and!; auto. eapply table_is_same; [done|]. apply (rm_same _ _ _ _ Hrm).
Qed.

(** A releasing child is unreferenced and its context counts it. *)
Lemma releasing_child {Rec R} `{ChildRecord Rec R} k ref st (t : ObjectTable Rec) id r :
  state_inv st -> child_inv k ref (ds_contexts st) t (ds_events st) -> lookup_id id t = Some r ->
  slot_release (rec_slot r) = Releasing ->
  rec_in_flight r = 0 /\
  exists t' ctxs', ObjectTable_remove id t = (t', Ok r) /\ removed t id r t' /\
    table_update (rec_ctx r) (drop_child k) (ds_contexts st) = Ok ctxs' /\
    recounted k (-1) (rec_ctx r) st ctxs' /\ child_inv k ref ctxs' t' (ds_events st).
Proof.
  intros Hinv Hci Hr Hrel. pose proof (ci_rec _ _ _ _ _ Hci _ _ Hr) as [? [c Hc] ? ? Hz ?].
  specialize (Hz Hrel). split; [done|]. pose proof (child_counted _ _ _ _ _ _ _ _ Hci Hr Hc) as Hge.
  destruct (remove_total _ _ _ (ci_wf _ _ _ _ _ Hci) Hr) as [t' Hrm].
  destruct (table_update_total _ (rec_ctx r) (drop_child k) c (si_contexts_wf _ Hinv) Hc)
    as (ctxs' & Hup & _).
  pose proof (remove_removed _ _ _ _ (ci_wf _ _ _ _ _ Hci) Hrm) as Hrmd.
  pose proof (drop_child_recounted _ _ _ _ _ Hinv Hc Hge Hup) as Hrc.
  exists t', ctxs'. split_and!; try done. destruct Hrc as (d & d' & Hu & Hcnt & _).
  eapply ci_remove; [done|done|done| |done|apply Hinv]. by rewrite Hcnt, decide_True.
Qed.

(** The state after a committed child release. *)
Record child_committed st st' : Prop := {
  cc_len : ObjectTable_len (ds_contexts st') = ObjectTable_len (ds_contexts st);
  cc_same : ds_limits st' = ds_limits st /\ ds_policy st' = ds_policy st /\
    ds_namespace st' = ds_namespace st /\ ds_events st' = ds_events st;
}.

Lemma commit_buffer_cases st id st' res :
  state_inv st -> commit_buffer_release id st = (st', res) ->
  (exists e, res = Err e /\ st' = st) \/
  (res = Ok tt /\ state_inv st' /\ child_committed st st' /\
   exists r, removed (ds_buffers st) id r (ds_buffers st') /\ slot_release (buf_slot r) = Releasing /\
     rb_buffer_backing (ds_retained st') = rb_buffer_backing (ds_retained st) - bi_allocation_bytes (buf_info r) /\
     rb_program_resident (ds_retained st') = rb_program_resident (ds_retained st) /\
     ds_programs st' = ds_programs st /\ ds_queues st' = ds_queues st).
Proof.
  intros Hinv. unfold commit_buffer_release.
  destruct (table_get id (ds_buffers st)) as [r|] eqn:Hg; [|intros [= <- <-]; left; eauto].
  apply table_get_Ok in Hg. unfold ensure_releasing. simpl.
  destruct (slot_release (buf_slot r)) eqn:Hrel; [intros [= <- <-]; left; eauto|].
  destruct (releasing_child _ _ _ _ _ _ Hinv (si_buffers _ Hinv) Hg Hrel)
    as (Hz & t & ctxs & -> & Hrm & Hup & Hrc & Hci).
  unfold drop_child_of. simpl in *. rewrite Hup. intros [= <- <-]. right. split; [done|].
  destruct (recounted_wf _ _ _ _ _ Hrc) as [Hwfc Hsc].
  pose proof (charge_bound _ _ _ _ _ (si_buffers _ Hinv)) as Hcb. rewrite <- (si_backing _ Hinv) in Hcb.
  pose proof (charge_bound _ _ _ _ _ Hci) as Hcb'. rewrite (rm_sum _ _ _ _ Hrm), <- (si_backing _ Hinv) in Hcb'.
  simpl in Hcb'. rewrite wrapping_sub_small by lia.
  split; [|split; [split|by exists r]]; simpl; try done.
  - destruct Hinv. split; simpl; auto; try (by eapply recounted_other).
    + destruct Hrc as (? & ? & _ & _ & ?). done.
    + rewrite (rm_sum _ _ _ _ Hrm), si_backing0. done.
    + destruct_and!. split_and!; auto; eapply table_is_same; try done. apply (rm_same _ _ _ _ Hrm).
  - destruct Hrc as (? & ? & Hu & _). apply (up_len _ _ _ _ _ Hu).
Qed.

Lemma commit_program_cases st id st' res :
  state_inv st -> commit_program_release id st = (st', res) ->
  (exists e, res = Err e /\ st' = st) \/
  (res = Ok tt /\ state_inv st' /\ child_committed st st' /\
   exists r, removed (ds_programs st) id r (ds_programs st') /\ slot_release (prg_slot r) = Releasing /\
     rb_program_resident (ds_retained st') = rb_program_resident (ds_retained st) - prg_resident_bytes r /\
     rb_buffer_backing (ds_retained st') = rb_buffer_backing (ds_retained st) /\
     ds_buffers st' = ds_buffers st /\ ds_queues st' = ds_queues st).
Proof.
  intros Hinv. unfold commit_program_release.
  destruct (table_get id (ds_programs st)) as [r|] eqn:Hg; [|intros [= <- <-]; left; eauto].
  apply table_get_Ok in Hg. unfold ensure_releasing. simpl.
  destruct (slot_release (prg_slot r)) eqn:Hrel; [intros [= <- <-]; left; eauto|].
  destruct (releasing_child _ _ _ _ _ _ Hinv (si_programs _ Hinv) Hg Hrel)
    as (Hz & t & ctxs & -> & Hrm & Hup & Hrc & Hci).
  unfold drop_child_of. simpl in *. rewrite Hup. intros [= <- <-]. right. split; [done|].
  destruct (recounted_wf _ _ _ _ _ Hrc) as [Hwfc Hsc].
  pose proof (charge_bound _ _ _ _ _ (si_programs _ Hinv)) as Hcb. rewrite <- (si_resident _ Hinv) in Hcb.
  pose proof (charge_bound _ _ _ _ _ Hci) as Hcb'. rewrite (rm_sum _ _ _ _ Hrm), <- (si_resident _ Hinv) in Hcb'.
  pose proof (ro_charge _ _ _ _ _ (ci_rec _ _ _ _ _ (si_programs _ Hinv) _ _ Hg)) as Hch.
  simpl in Hcb', Hch. rewrite wrapping_sub_small by lia.
  split; [|split; [split|by exists r]]; simpl; try done.
  - destruct Hinv. split; simpl; auto; try (by eapply recounted_other).
    + destruct Hrc as (? & ? & _ & _ & ?). done.
    + rewrite (rm_sum _ _ _ _ Hrm), si_resident0. done.
    + lia.
    + destruct_and!. split_and!; auto; eapply table_is_same; try done. apply (rm_same _ _ _ _ Hrm).
  - destruct Hrc as (? & ? & Hu & _). apply (up_len _ _ _ _ _ Hu).
Qed.

Lemma commit_queue_cases st id st' res :
  state_inv st -> commit_queue_release id st = (st', res) ->
  (exists e, res = Err e /\ st' = st) \/
  (res = Ok tt /\ state_inv st' /\ child_committed st st' /\
   exists r, removed (ds_queues st) id r (ds_queues st') /\ slot_release (que_slot r) = Releasing /\
     ds_retained st' = ds_retained st /\ ds_buffers st' = ds_buffers st /\ ds_programs st' = ds_programs st).
Proof.
  intros Hinv. unfold commit_queue_release.
  destruct (table_get id (ds_queues st)) as [r|] eqn:Hg; [|intros [= <- <-]; left; eauto].
  apply table_get_Ok in Hg. unfold ensure_releasing. simpl.
  destruct (slot_release (que_slot r)) eqn:Hrel; [intros [= <- <-]; left; eauto|].
  destruct (releasing_child _ _ _ _ _ _ Hinv (si_queues _ Hinv) Hg Hrel)
    as (Hz & t & ctxs & -> & Hrm & Hup & Hrc & Hci).
  unfold drop_child_of. simpl in *. rewrite Hup. intros [= <- <-]. right. split; [done|].
  destruct (recounted_wf _ _ _ _ _ Hrc) as [Hwfc Hsc].
  split; [|split; [split|by exists r]]; simpl; try done.
  - destruct Hinv. split; simpl; auto; try (by eapply recounted_other).
    + destruct Hrc as (? & ? & _ & _ & ?). done.
    + destruct_and!. split_and!; auto; eapply table_is_same; try done. apply (rm_same _ _ _ _ Hrm).
  - destruct Hrc as (? & ? & Hu & _). apply (up_len _ _ _ _ _ Hu).
Qed.

End Inv.
