(* ===== verification/StateEvents.v ===== *)
(** * Events: taking and giving back references

    The two event constructors and the commit of an event release: references
    are counted before they are taken, so no 32-bit counter wraps; a provider
    failure gives back exactly what was taken; an event that is released always
    finds the objects it references. *)

From Stdlib Require Import ZArith Lia.
From stdpp Require Import prelude list sorting relations.
From S2P Require Import Prelude Proto Core ObjectTable State TableFacts ChildInv StateInv.

(** ** Counting the increments *)

Lemma check_increment_Ok {Rec} (in_flight : Rec -> Z) t id n u :
  check_increment in_flight t id n = Ok u ->
  exists r, lookup_id id t = Some r /\ in_flight r + n <= U32_MAX.
Proof.
  unfold check_increment, try_from. destruct (n <=? U32_MAX); [|done]. simpl.
  destruct (table_get id t) as [r|] eqn:Hg; [|done]. apply table_get_Ok in Hg.
  destruct (checked_add _ _ _) eqn:Hc; [|done]. apply checked_add_Some in Hc as [_ ?]. eauto.
Qed.

Lemma sort_ids_perm ids : sort_ids ids ≡ₚ ids.
Proof. apply merge_sort_Permutation. Qed.

Lemma sort_ids_sorted ids : StronglySorted Z.le (sort_ids ids).
Proof.
  apply Sorted_StronglySorted; [intros ???; lia|]. apply Sorted_merge_sort. intros ??. lia.
Qed.

(** In a sorted list the leading run holds every occurrence. *)
Lemma run_length_split id rest :
  StronglySorted Z.le (id :: rest) ->
  count_id id rest = Z.of_nat (run_length id rest) /\
  (forall x, x <> id -> count_id x (drop (run_length id rest) rest) = count_id x rest) /\
  count_id id (drop (run_length id rest) rest) = 0 /\
  StronglySorted Z.le (drop (run_length id rest) rest).
Proof.
  induction rest as [|y rest IH]; intros Hs; [split_and!; [done..|constructor]|].
  inversion Hs as [|? ? Hs' Hall]; subst. inversion Hs' as [|? ? Hs'' Hall']; subst.
  cbn [run_length]. destruct (Z.eqb_spec y id) as [->|Hne].
  - destruct IH as (H1 & H2 & H3 & H4); [constructor; [done|]; by inversion Hall|].
    cbn [drop]. rewrite !count_id_cons, Z.eqb_refl. split_and!; try done.
    + rewrite H1. lia.
    + intros x Hx. rewrite H2, count_id_cons by done. by rewrite (proj2 (Z.eqb_neq id x)) by done.
  - inversion Hall as [|? ? Hle _]; subst.
    assert (count_id id (y :: rest) = 0) as Hz.
    { apply count_id_not_in. intros [->|Hin]%elem_of_cons; [done|].
      rewrite Forall_forall in Hall'. specialize (Hall' _ Hin). lia. }
    by rewrite drop_0.
Qed.

Section Events.
Context {C B P Q E : Type}.
Abbreviation State := (DeviceState C B P Q E).
Implicit Types (st : State).

Lemma check_program_increments_Ok st seen rest u :
  check_program_increments st seen rest = Ok u ->
  forall x, x ∈ rest -> x ∉ seen -> exists r, lookup_id x (ds_programs st) = Some r /\
    prg_in_flight r + count_id x rest <= U32_MAX.
Proof.
  revert seen u. induction rest as [|id rest IH]; intros seen u H x Hx Hns; cbn [check_program_increments] in H.
  { by apply not_elem_of_nil in Hx. }
  destruct (if existsb _ _ then _ else _) as [u'|] eqn:Hc; [|done].
  destruct (decide (x = id)) as [->|Hne].
  - destruct (existsb (Z.eqb id) seen) eqn:He.
    + apply existsb_exists in He as (y & Hy & Heq). bool_to_prop. subst.
      exfalso. by apply Hns, list_elem_of_In.
    + by apply check_increment_Ok in Hc.
  - rewrite count_id_cons, (proj2 (Z.eqb_neq id x)) by done. simpl. eapply IH; [done|set_solver|set_solver].
Qed.

Lemma check_buffer_runs_cons st fuel id rest :
  check_buffer_runs st (S fuel) (id :: rest) =
    (let? _ := check_increment buf_in_flight (ds_buffers st) id (Z.of_nat (S (run_length id rest))) in
     check_buffer_runs st fuel (drop (run_length id rest) rest)).
Proof. reflexivity. Qed.

Lemma check_buffer_runs_Ok st fuel ids u :
  (length ids <= fuel)%nat -> StronglySorted Z.le ids -> check_buffer_runs st fuel ids = Ok u ->
  forall x, x ∈ ids -> exists r, lookup_id x (ds_buffers st) = Some r /\
    buf_in_flight r + count_id x ids <= U32_MAX.
Proof.
  revert ids u. induction fuel as [|fuel IH]; intros [|id rest] u Hf Hs H x Hx.
  1, 3: by apply not_elem_of_nil in Hx.
  { simpl in Hf. lia. }
  rewrite check_buffer_runs_cons in H.
  destruct (check_increment _ _ _ _) as [u'|] eqn:Hc; [|discriminate H].
  apply check_increment_Ok in Hc as (r & Hr & Hb).
  destruct (run_length_split id rest Hs) as (H1 & H2 & H3 & H4).
  assert (Hlen : (length (drop (run_length id rest) rest) <= fuel)%nat)
    by (rewrite length_drop; simpl in Hf; lia).
  specialize (IH _ _ Hlen H4 H x).
  destruct (Z.eq_dec x id) as [->|Hne].
  - exists r. split; [exact Hr|]. rewrite count_id_cons, Z.eqb_refl, H1. lia.
  - rewrite count_id_cons, (proj2 (Z.eqb_neq id x)), <- H2, Z.add_0_l by congruence.
    apply IH. apply elem_of_cons in Hx as [|Hx]; [done|].
    destruct (decide (x ∈ drop (run_length id rest) rest)) as [|Hn]; [done|].
    pose proof (count_id_in _ _ Hx) as Hc1. rewrite <- (H2 _ Hne), count_id_not_in in Hc1 by done. lia.
Qed.

(** ** What validation establishes *)

(** [id] resolves to a live record of [ctx]. *)
Definition live_in {Rec R} `{ChildRecord Rec R} (t : ObjectTable Rec) ctx id : Prop :=
  exists r, lookup_id id t = Some r /\ rec_ctx r = ctx /\ is_Some (slot_resource (rec_slot r)).

Lemma check_program_Ok ctx st id u : check_program ctx st id = Ok u <-> live_in (ds_programs st) ctx id.
Proof.
  destruct u. unfold check_program, live_in. destruct (table_get id (ds_programs st)) as [r|] eqn:Hg.
  - apply table_get_Ok in Hg. unfold record_resource, ResourceSlot_get. simpl.
    destruct (slot_resource (prg_slot r)) eqn:Hs; simpl.
    + destruct (Z.eqb_spec (prg_context_id r) ctx) as [He|He]; simpl.
      * split; [|done]. intros _. exists r. simpl. rewrite Hs. eauto.
      * split; [done|]. intros (r' & ? & ? & _). by simplify_eq.
    + split; [done|]. intros (r' & ? & _ & [x Hx]). by simplify_eq/=.
  - apply table_get_Err in Hg. split; [done|]. intros (r & ? & _). congruence.
Qed.

Lemma check_buffer_Ok ctx st id u : check_buffer ctx st id = Ok u <-> live_in (ds_buffers st) ctx id.
Proof.
  destruct u. unfold check_buffer, live_in. destruct (table_get id (ds_buffers st)) as [r|] eqn:Hg.
  - apply table_get_Ok in Hg. unfold record_resource, ResourceSlot_get. simpl.
    destruct (slot_resource (buf_slot r)) eqn:Hs; simpl.
    + destruct (Z.eqb_spec (buf_context_id r) ctx) as [He|He]; simpl.
      * split; [|done]. intros _. exists r. simpl. rewrite Hs. eauto.
      * split; [done|]. intros (r' & ? & ? & _). by simplify_eq.
    + split; [done|]. intros (r' & ? & _ & [x Hx]). by simplify_eq/=.
  - apply table_get_Err in Hg. split; [done|]. intros (r & ? & _). congruence.
Qed.

Lemma check_each_Ok check ids u :
  check_each check ids = Ok u <-> forall id, id ∈ ids -> check id = Ok tt.
Proof.
  destruct u. induction ids as [|id ids IH]; simpl; [set_solver|].
  destruct (check id) as [[]|] eqn:Hc; split.
  - intros H x [->|Hx]%elem_of_cons; [done|]. by apply IH.
  - intros H. apply IH. set_solver.
  - done.
  - intros H. specialize (H id). rewrite Hc in H. set_solver.
Qed.

(** The objects of a submission are live and share the context. *)
Definition submission_ok st (ctx q : ObjectId) (ps bs : list ObjectId) : Prop :=
  live_in (ds_queues st) ctx q /\ ps <> [] /\
  (forall p, p ∈ ps -> live_in (ds_programs st) ctx p) /\
  (forall b, b ∈ bs -> live_in (ds_buffers st) ctx b).

Lemma validate_submission_Ok st q p bs ctx :
  validate_submission q p bs st = Ok ctx <-> submission_ok st ctx q [p] bs.
Proof.
  unfold validate_submission, submission_ok.
  destruct (table_get q (ds_queues st)) as [r|] eqn:Hg.
  2:{ apply table_get_Err in Hg. split; [done|]. intros ((r & ? & _) & _). congruence. }
  apply table_get_Ok in Hg. unfold record_resource, ResourceSlot_get. simpl.
  destruct (slot_resource (que_slot r)) eqn:Hs; simpl.
  2:{ split; [done|]. intros ((r' & ? & _ & [x Hx]) & _). by simplify_eq/=. }
  destruct (check_program _ st p) as [u|] eqn:Hp.
  2:{ split; [done|]. intros ((r' & Hr' & Hctx & _) & _ & Hps & _). simplify_eq. simpl in Hp.
      specialize (Hps p ltac:(set_solver)). apply (check_program_Ok _ _ _ tt) in Hps. simpl in Hps. congruence. }
  apply check_program_Ok in Hp.
  destruct (check_each _ bs) as [v|] eqn:Hb.
  2:{ split; [done|]. intros ((r' & Hr' & Hctx & _) & _ & _ & Hbs). simplify_eq. simpl in Hb.
      rewrite (proj2 (check_each_Ok _ bs tt)) in Hb; [done|].
      intros x Hx. apply check_buffer_Ok. by apply Hbs. }
  rewrite check_each_Ok in Hb. split.
  - intros [= <-]. split_and!; [|done| |].
    + exists r. simpl. rewrite Hs. eauto.
    + intros x Hx. by apply list_elem_of_singleton in Hx as ->.
    + intros x Hx. apply (check_buffer_Ok _ _ _ tt). by apply Hb.
  - intros ((r' & Hr' & Hctx & _) & _). simplify_eq. done.
Qed.

Lemma validate_sequence_Ok st q ps bs ctx :
  validate_submission_sequence q ps bs st = Ok ctx <-> submission_ok st ctx q ps bs.
Proof.
  unfold validate_submission_sequence. destruct ps as [|p ps].
  { split; [done|]. by intros (_ & ? & _). }
  destruct (validate_submission q p bs st) as [c|] eqn:Hv.
  - apply validate_submission_Ok in Hv as (Hq & _ & Hp & Hb).
    destruct (check_each (check_program c st) ps) as [u|] eqn:Hc.
    + rewrite check_each_Ok in Hc. split.
      * intros [= <-]. split_and!; try done. intros x [->|Hx]%elem_of_cons; [apply Hp; set_solver|].
        apply (check_program_Ok _ _ _ tt). by apply Hc.
      * intros ((r & Hr & Hctx & _) & _). destruct Hq as (r' & Hr' & Hctx' & _). simplify_eq. done.
    + split; [done|]. intros ((r & Hr & Hctx & _) & _ & Hps & _).
      destruct Hq as (r' & Hr' & Hctx' & _). simplify_eq.
      rewrite (proj2 (check_each_Ok _ ps tt)) in Hc; [done|].
      intros x Hx. apply check_program_Ok. apply Hps. set_solver.
  - split; [done|]. intros (Hq & _ & Hps & Hbs).
    rewrite (proj2 (validate_submission_Ok st q p bs ctx)) in Hv; [done|].
    split_and!; try done. intros x Hx. apply list_elem_of_singleton in Hx as ->. apply Hps. set_solver.
Qed.

(** ** Moving references *)

(** [st] with other tables of contexts, buffers, programs and queues. *)
Definition with_tables st tq tp tb tc : State :=
  with_contexts (with_buffers (with_programs (with_queues st tq) tp) tb) tc.

Lemma update_refs_total fq fp fb fc ctx q ps bs st tq tp tb tc :
  table_update q fq (ds_queues st) = Ok tq ->
  table_update_all ps fp (ds_programs st) = (tp, Ok tt) ->
  table_update_all bs fb (ds_buffers st) = (tb, Ok tt) ->
  table_update ctx fc (ds_contexts st) = Ok tc ->
  update_event_references fq fp fb fc ctx q ps bs st = (with_tables st tq tp tb tc, Ok tt).
Proof.
  intros Hq Hp Hb Hc. unfold update_event_references. rewrite Hq. simpl. rewrite Hp. simpl.
  rewrite Hb. simpl. by rewrite Hc.
Qed.

Lemma update_single {Rec} id (f : Rec -> Rec) t t' :
  table_update_all [id] f t = (t', Ok tt) -> table_update id f t = Ok t'.
Proof. simpl. destruct (table_update id f t); intros H; by simplify_eq. Qed.

(** The context of a live child is live. *)
Lemma queue_ctx_live st ctx q :
  state_inv st -> live_in (ds_queues st) ctx q ->
  exists c, lookup_id ctx (ds_contexts st) = Some c /\ slot_release (ctx_slot c) = Live.
Proof.
  intros Hinv (r & Hr & <- & _).
  destruct (ro_ctx _ _ _ _ _ (ci_rec _ _ _ _ _ (si_queues _ Hinv) _ _ Hr)) as [c Hc].
  exists c. split; [done|]. pose proof (child_counted _ _ _ _ _ _ _ _ (si_queues _ Hinv) Hr Hc).
  destruct (si_contexts _ Hinv _ _ Hc) as [_ Hre _].
  destruct (slot_release (ctx_slot c)); [done|]. specialize (Hre eq_refl ChildQueue). lia.
Qed.

Lemma in_flight_nonneg {Rec R} `{ChildRecord Rec R} k ref (ctxs : ObjectTable (ContextRecord C))
    (events : ObjectTable (EventRecord E)) (t : ObjectTable Rec) x r :
  child_inv k ref ctxs t events -> lookup_id x t = Some r -> 0 <= rec_in_flight r <= U32_MAX.
Proof.
  intros Hci Hr. destruct (ci_rec _ _ _ _ _ Hci _ _ Hr) as [? ? Hrf Hb ? ?].
  pose proof (refs_nonneg ref x events). lia.
Qed.

(** What taking the references of a checked submission does. *)
Record refs_taken st ctx q ps bs st1 : Prop := {
  rt_tables : exists tq tp tb tc, st1 = with_tables st tq tp tb tc;
  rt_queues : bumped (fun x => count_id x [q]) (ds_queues st) (ds_queues st1);
  rt_programs : bumped (fun x => count_id x ps) (ds_programs st) (ds_programs st1);
  rt_buffers : bumped (fun x => count_id x bs) (ds_buffers st) (ds_buffers st1);
  rt_contexts : exists c put, ObjectTable_get_mut ctx (ds_contexts st) = Ok (c, put) /\
    ds_contexts st1 = put (add_child ChildEvent c) /\
    0 <= ch_events (ctx_children c) < U32_MAX;
  rt_recounted : recounted ChildEvent 1 ctx st (ds_contexts st1);
}.

(** The counters have room for the references. *)
Record refs_fit st q ps bs : Prop := {
  rf_queue : exists r, lookup_id q (ds_queues st) = Some r /\ que_in_flight r + 1 <= U32_MAX;
  rf_programs : forall x, x ∈ ps -> exists r, lookup_id x (ds_programs st) = Some r /\
    prg_in_flight r + count_id x ps <= U32_MAX;
  rf_buffers : forall x, x ∈ bs -> exists r, lookup_id x (ds_buffers st) = Some r /\
    buf_in_flight r + count_id x bs <= U32_MAX;
}.

Lemma check_reference_increments_Ok st q ps bs u :
  StronglySorted Z.le bs -> check_reference_increments q ps bs st = Ok u -> refs_fit st q ps bs.
Proof.
  intros Hs. unfold check_reference_increments.
  destruct (table_get q (ds_queues st)) as [r|] eqn:Hg; [|done]. apply table_get_Ok in Hg.
  destruct (checked_add _ (que_in_flight r) 1) as [n|] eqn:Hc; [|done].
  apply checked_add_Some in Hc as [_ Hc]. simpl.
  destruct (check_program_increments st [] ps) as [v|] eqn:Hp; [|done]. intros Hb. split.
  - eauto.
  - intros x Hx. eapply check_program_increments_Ok; [done|done|apply not_elem_of_nil].
  - intros x Hx. by eapply check_buffer_runs_Ok.
Qed.

Lemma increment_spec st ctx q ps bs c :
  state_inv st -> live_in (ds_queues st) ctx q -> refs_fit st q ps bs ->
  lookup_id ctx (ds_contexts st) = Some c ->
  ch_events (ctx_children c) < max_events_per_context (ds_limits st) ->
  exists st1, increment_event_references ctx q ps bs st = (st1, Ok tt) /\ refs_taken st ctx q ps bs st1.
Proof.
  intros Hinv Hq [(r & Hr & Hfit) Hps Hbs] Hc Hlt.
  destruct (queue_ctx_live _ _ _ Hinv Hq) as (c' & Hc' & Hlive). simplify_eq.
  destruct (update_all_add [q] add_queue_ref (ds_queues st)) as (tq & Hq1 & Hq2); [done|apply Hinv|..].
  { intros x y Hy. by destruct (in_flight_nonneg _ _ _ _ _ _ _ (si_queues _ Hinv) Hy). }
  { intros x Hx. apply list_elem_of_singleton in Hx as ->. exists r. split; [done|].
    rewrite count_id_cons, Z.eqb_refl. simpl. lia. }
  destruct (update_all_add ps add_program_ref (ds_programs st)) as (tp & Hp1 & Hp2); [done|apply Hinv| |done|].
  { intros x y Hy. by destruct (in_flight_nonneg _ _ _ _ _ _ _ (si_programs _ Hinv) Hy). }
  destruct (update_all_add bs add_buffer_ref (ds_buffers st)) as (tb & Hb1 & Hb2); [done|apply Hinv| |done|].
  { intros x y Hy. by destruct (in_flight_nonneg _ _ _ _ _ _ _ (si_buffers _ Hinv) Hy). }
  destruct (get_mut_total _ _ _ Hc) as [put Hput].
  pose proof (add_child_recounted _ ChildEvent _ _ _ Hinv Hput Hlive Hlt) as Hrc.
  pose proof (state_child_nonneg _ _ _ ChildEvent Hinv Hc).
  pose proof (child_limit_bound ChildEvent _ (si_limits _ Hinv)). simpl in *.
  eexists. split; [|split].
  - unfold increment_event_references.
    apply (update_refs_total _ _ _ _ _ _ _ _ _ tq tp tb (put (add_child ChildEvent c))); auto.
    + by apply update_single.
    + unfold table_update. by rewrite Hput.
  - by exists tq, tp, tb, (put (add_child ChildEvent c)).
  - done.
  - done.
  - done.
  - exists c, put. split_and!; try done. lia.
  - done.
Qed.

(** Contexts that resolve alike are alike for every child table. *)
Lemma ci_ctx_ext {Rec R} `{ChildRecord Rec R} k ref (ctxs ctxs' : ObjectTable (ContextRecord C))
    (events : ObjectTable (EventRecord E)) (t : ObjectTable Rec) :
  (forall x, lookup_id x ctxs' = lookup_id x ctxs) ->
  child_inv k ref ctxs t events -> child_inv k ref ctxs' t events.
Proof.
  intros Hl [Hwf Hrec Hrefs Hcount]. split; auto.
  - intros id r Hr. destruct (Hrec _ _ Hr). split; auto. by rewrite Hl.
  - intros id c Hc. rewrite Hl in Hc. eauto.
Qed.

Lemma bumped_charge {Rec R} `{RefRecord Rec R} n (t t' : ObjectTable Rec) :
  bumped n t t' -> table_sum rec_charge t' = table_sum rec_charge t.
Proof. intros (_ & _ & _ & _ & Hs). apply Hs. intros. apply bump_charge. Qed.

Lemma bumped_same {Rec R} `{RefRecord Rec R} n (t t' : ObjectTable Rec) :
  bumped n t t' -> same_table t t' /\ ObjectTable_len t' = ObjectTable_len t.
Proof. by intros (_ & ? & ? & _). Qed.

Lemma add_drop_child k (c : ContextRecord C) :
  0 <= child_count k (ctx_children c) < U32_MAX -> drop_child k (add_child k c) = c.
Proof.
  intros Hb. destruct c as [s ch]. unfold drop_child, add_child, with_children. simpl in *. f_equal.
  rewrite child_count_set, decide_True by done.
  rewrite wrapping_add_small, wrapping_sub_small by (rewrite ?wrapping_add_small; lia).
  rewrite Z.add_simpl_r. by destruct ch, k.
Qed.

(** Two states that differ in tables that resolve alike. *)
Record same_view st st' : Prop := {
  sv_contexts : forall x, lookup_id x (ds_contexts st') = lookup_id x (ds_contexts st);
  sv_buffers : forall x, lookup_id x (ds_buffers st') = lookup_id x (ds_buffers st);
  sv_programs : forall x, lookup_id x (ds_programs st') = lookup_id x (ds_programs st);
  sv_queues : forall x, lookup_id x (ds_queues st') = lookup_id x (ds_queues st);
  sv_events : ds_events st' = ds_events st;
  sv_counts : resource_counts st' = resource_counts st;
  sv_rest : ds_retained st' = ds_retained st /\ ds_limits st' = ds_limits st /\
    ds_policy st' = ds_policy st /\ ds_namespace st' = ds_namespace st;
}.

Lemma same_view_refl st : same_view st st.
Proof. by split. Qed.

Lemma bumped_back {Rec R} `{RefRecord Rec R} n (t t1 t2 : ObjectTable Rec) x :
  bumped n t t1 -> bumped (fun x => - n x) t1 t2 -> lookup_id x t2 = lookup_id x t.
Proof.
  intros (_ & _ & _ & Hl1 & _) (_ & _ & _ & Hl2 & _). rewrite Hl2, Hl1.
  destruct (lookup_id x t) as [r|]; simpl; [|done].
  rewrite bump_in_flight, bump_bump, <- Z.add_assoc, Z.add_opp_diag_r, Z.add_0_r. by rewrite bump_id.
Qed.

(** Counting back down after counting up. *)
Lemma update_all_back {Rec R} `{RefRecord Rec R} ids f (t t1 : ObjectTable Rec) :
  (forall r, f r = rec_with_in_flight (wrapping_sub U32_MAX (rec_in_flight r) 1) r) ->
  (forall x r, lookup_id x t = Some r -> 0 <= rec_in_flight r <= U32_MAX) ->
  (forall x, x ∈ ids -> exists r, lookup_id x t = Some r /\ rec_in_flight r + count_id x ids <= U32_MAX) ->
  bumped (fun x => count_id x ids) t t1 ->
  exists t2, table_update_all ids f t1 = (t2, Ok tt) /\ bumped (fun x => - count_id x ids) t1 t2.
Proof.
  intros Hf Hb Hfit (Hwf1 & _ & _ & Hl1 & _). apply update_all_sub; [done|done|..].
  - intros x r. rewrite Hl1. destruct (lookup_id x t) as [r0|] eqn:Hr0; simpl; [|done]. intros [= <-].
    rewrite bump_in_flight. destruct (decide (x ∈ ids)) as [Hx|Hx].
    + destruct (Hfit _ Hx) as (r1 & ? & ?). by simplify_eq.
    + rewrite count_id_not_in by done. specialize (Hb _ _ Hr0). lia.
  - intros x Hx. destruct (Hfit _ Hx) as (r0 & Hr0 & _). rewrite Hl1, Hr0. simpl. eexists.
    split; [done|]. rewrite bump_in_flight. specialize (Hb _ _ Hr0). lia.
Qed.

Lemma rollback_spec st ctx q ps bs st1 :
  state_inv st -> refs_fit st q ps bs -> refs_taken st ctx q ps bs st1 ->
  exists st2, decrement_event_references ctx q ps bs st1 = (st2, Ok tt) /\
    state_inv st2 /\ same_view st st2.
Proof.
  intros Hinv [(rq & Hrq & Hqf) Hpf Hbf] [(tq & tp & tb & tc & ->) Hq Hp Hb (c & put & Hput & Htc & Hev) Hrc].
  simpl in *.
  destruct (update_all_back [q] drop_queue_ref (ds_queues st) tq) as (tq2 & Hq1 & Hq2); [done| | |done|].
  { intros x r Hr. by apply (in_flight_nonneg _ _ _ _ _ _ _ (si_queues _ Hinv) Hr). }
  { intros x Hx. apply list_elem_of_singleton in Hx as ->. exists rq. split; [done|].
    rewrite count_id_cons, Z.eqb_refl. simpl. lia. }
  destruct (update_all_back ps drop_program_ref (ds_programs st) tp) as (tp2 & Hp1 & Hp2); [done| |done|done|].
  { intros x r Hr. by apply (in_flight_nonneg _ _ _ _ _ _ _ (si_programs _ Hinv) Hr). }
  destruct (update_all_back bs drop_buffer_ref (ds_buffers st) tb) as (tb2 & Hb1 & Hb2); [done| |done|done|].
  { intros x r Hr. by apply (in_flight_nonneg _ _ _ _ _ _ _ (si_buffers _ Hinv) Hr). }
  pose proof (get_mut_updated _ _ _ _ (add_child ChildEvent c) (si_contexts_wf _ Hinv) Hput) as Hu.
  rewrite <- Htc in Hu. pose proof (up_at _ _ _ _ _ Hu) as Hat.
  assert (Htcat : lookup_id ctx tc = Some (add_child ChildEvent c))
    by (rewrite (up_lookup _ _ _ _ _ Hu); by case_decide).
  destruct (table_update_total _ _ (drop_child ChildEvent) _ (up_wf _ _ _ _ _ Hu) Htcat) as (tc2 & Hc1 & Hu2).
  rewrite add_drop_child in Hu2 by done.
  assert (Hcl : forall x, lookup_id x tc2 = lookup_id x (ds_contexts st)).
  { intros x. rewrite (up_lookup _ _ _ _ _ Hu2), (up_lookup _ _ _ _ _ Hu). case_decide; congruence. }
  assert (Hcs : same_table (ds_contexts st) tc2).
  { pose proof (up_same _ _ _ _ _ Hu) as H1. pose proof (up_same _ _ _ _ _ Hu2) as H2.
    unfold same_table in *. destruct_and!. split_and!; congruence. }
  assert (Hclen : ObjectTable_len tc2 = ObjectTable_len (ds_contexts st))
    by (rewrite (up_len _ _ _ _ _ Hu2); apply (up_len _ _ _ _ _ Hu)).
  eexists. split; [unfold decrement_event_references; apply update_refs_total; eauto using update_single|].
  destruct (bumped_same _ _ _ Hq) as [Sq1 Lq1], (bumped_same _ _ _ Hq2) as [Sq2 Lq2].
  destruct (bumped_same _ _ _ Hp) as [Sp1 Lp1], (bumped_same _ _ _ Hp2) as [Sp2 Lp2].
  destruct (bumped_same _ _ _ Hb) as [Sb1 Lb1], (bumped_same _ _ _ Hb2) as [Sb2 Lb2].
  split.
  - destruct Hinv. split; simpl; auto.
    + apply (up_wf _ _ _ _ _ Hu2).
    + intros x d Hd. rewrite Hcl in Hd. by eapply si_contexts.
    + eapply ci_ctx_ext; [exact Hcl|]. eapply ci_bump_back; [exact si_buffers|exact Hb|exact Hb2].
    + eapply ci_ctx_ext; [exact Hcl|]. eapply ci_bump_back; [exact si_programs|exact Hp|exact Hp2].
    + eapply ci_ctx_ext; [exact Hcl|]. eapply ci_bump_back; [exact si_queues|exact Hq|exact Hq2].
    + eapply ci_ctx_ext; [exact Hcl|done].
    + pose proof (bumped_charge _ _ _ Hb) as E1. pose proof (bumped_charge _ _ _ Hb2) as E2.
      simpl in *. congruence.
    + pose proof (bumped_charge _ _ _ Hp) as E1. pose proof (bumped_charge _ _ _ Hp2) as E2.
      simpl in *. congruence.
    + destruct_and!. split_and!; eauto using table_is_same.
  - split; simpl; try done.
    + intros x. by eapply bumped_back.
    + intros x. by eapply bumped_back.
    + intros x. by eapply bumped_back.
    + unfold resource_counts. simpl. by rewrite Hclen, Lq2, Lq1, Lp2, Lp1, Lb2, Lb1.
Qed.

(** ** Admission of an event *)

Lemma live_fits {Rec R} `{ChildRecord Rec R} k ref st (t : ObjectTable Rec) ctx ids x :
  child_inv k ref (ds_contexts st) t (ds_events st) -> live_in t ctx x ->
  (exists r, lookup_id x t = Some r /\ rec_in_flight r + count_id x ids <= U32_MAX) ->
  exists r, lookup_id x t = Some r /\ rec_ctx r = ctx /\ slot_release (rec_slot r) = Live /\
    rec_in_flight r + count_id x ids <= U32_MAX.
Proof.
  intros Hci (r & Hr & Hc & Hs) (r' & Hr' & Hb). assert (r' = r) as -> by congruence. exists r. split_and!; try done.
  apply slot_live; [|done]. apply (ci_rec _ _ _ _ _ Hci _ _ Hr).
Qed.

Lemma event_insert_inv st ctx q ps bs st1 e id events :
  state_inv st -> submission_ok st ctx q ps bs -> refs_fit st q ps bs -> refs_taken st ctx q ps bs st1 ->
  evt_context_id e = ctx -> evt_queue_id e = q -> evt_program_ids e = ps -> evt_buffer_ids e = bs ->
  slot_ok (evt_slot e) -> inserted (ds_events st) id e events ->
  state_inv (with_events st1 events).
Proof.
  intros Hinv (Hlq & Hne & Hlp & Hlb) [Hqf Hpf Hbf] Htaken Ectx Eq Ep Eb Hslot Hins.
  destruct Htaken as [(tq & tp & tb & tc & ->) Hq Hp Hb _ Hrc]. simpl in *.
  destruct (recounted_wf _ _ _ _ _ Hrc) as [Hwfc Hsc].
  destruct (bumped_same _ _ _ Hq) as [Sq _], (bumped_same _ _ _ Hp) as [Sp _], (bumped_same _ _ _ Hb) as [Sb _].
  pose proof (bumped_charge _ _ _ Hb) as Chb. pose proof (bumped_charge _ _ _ Hp) as Chp. simpl in Chb, Chp.
  destruct Hinv. split; simpl; auto; try (simpl in *; congruence).
  - destruct Hrc as (? & ? & _ & _ & ?). done.
  - eapply recounted_other; [done|done|].
    eapply ci_event_insert; [exact si_buffers|done|by rewrite Eb|].
    intros x Hx. rewrite Ectx, Eb in *. eapply live_fits; [exact si_buffers|auto|by apply Hbf].
  - eapply recounted_other; [done|done|].
    eapply ci_event_insert; [exact si_programs|done|by rewrite Ep|].
    intros x Hx. rewrite Ectx, Ep in *. eapply live_fits; [exact si_programs|auto|by apply Hpf].
  - eapply recounted_other; [done|done|].
    eapply ci_event_insert; [exact si_queues|done|unfold queue_refs; by rewrite Eq|].
    intros x Hx. unfold queue_refs in *. rewrite Ectx, Eq in *. apply list_elem_of_singleton in Hx as ->.
    eapply live_fits; [exact si_queues|auto|]. destruct Hqf as (r & Hr & Hf). exists r. split; [done|].
    rewrite count_id_cons, Z.eqb_refl. simpl. lia.
  - destruct Hrc as (c & c' & Hu & Hcnt & _).
    eapply ci_insert; [apply no_events_wf|exact si_events|done|simpl; rewrite Ectx; done| |done|done|simpl; lia].
    by rewrite Hcnt, decide_True.
  - intros x d. rewrite (in_lookup _ _ _ _ Hins). case_decide; [|apply si_event_programs].
    intros [= <-]. by rewrite Ep.
  - destruct_and!. split_and!; eauto using table_is_same. eapply table_is_same; [done|apply (in_same _ _ _ _ Hins)].
Qed.

(** The outcome of an event creation: the event is there with its references,
    or nothing changed. *)
Definition event_outcome {PE} st st' ctx q ps bs (res : result ObjectId (CreateError PE)) : Prop :=
  match res with
  | Err _ => same_view st st'
  | Ok id => exists e, inserted (ds_events st) id e (ds_events st') /\
      evt_context_id e = ctx /\ evt_queue_id e = q /\ evt_program_ids e = ps /\
      evt_buffer_ids e = sort_ids bs /\ submission_ok st ctx q ps bs /\
      ds_retained st' = ds_retained st /\ ds_limits st' = ds_limits st /\ ds_policy st' = ds_policy st /\
      ds_namespace st' = ds_namespace st
  end.

Lemma submission_ok_perm st ctx q ps bs bs' :
  bs ≡ₚ bs' -> submission_ok st ctx q ps bs -> submission_ok st ctx q ps bs'.
Proof. intros Hp (? & ? & ? & Hb). split_and!; try done. intros b Hin. apply Hb. by rewrite Hp. Qed.

Lemma admit_event_spec {W PE} mem ctx q ps bs
    (create : list ObjectId -> State -> W -> W * result E (CreateError PE)) record st w st' w' res :
  state_inv st -> submission_ok st ctx q ps bs ->
  (forall ids st1 w w' e, refs_taken st ctx q ps ids st1 -> create ids st1 w <> (w', Err (CreateState e))) ->
  (forall e ids, evt_context_id (record e ids) = ctx /\ evt_queue_id (record e ids) = q /\
     evt_program_ids (record e ids) = ps /\ evt_buffer_ids (record e ids) = ids /\
     slot_ok (evt_slot (record e ids))) ->
  admit_event mem ctx q ps bs create record st w = (st', w', res) ->
  state_inv st' /\ event_outcome st st' ctx q ps bs res.
Proof.
  intros Hinv Hok Hcreate Hrecord. unfold admit_event. pose proof (same_view_refl st) as Hview.
  destruct (table_get ctx (ds_contexts st)) as [c|] eqn:Hc; [|by intros [= <- _ <-]].
  apply table_get_Ok in Hc.
  destruct (Z.leb_spec (max_events_per_context (ds_limits st)) (ch_events (ctx_children c))) as [|Hlt];
    [by intros [= <- _ <-]|].
  destruct (try_reserve_insert mem (ds_events st)) as [[]|] eqn:Hroom; [|by intros [= <- _ <-]].
  apply try_reserve_insert_Ok in Hroom.
  destruct (check_reference_increments _ _ _ _) as [u|] eqn:Hchk; [|by intros [= <- _ <-]].
  pose proof (check_reference_increments_Ok _ _ _ _ _ (sort_ids_sorted bs) Hchk) as Hfit.
  pose proof (submission_ok_perm _ _ _ _ _ _ (symmetry (sort_ids_perm bs)) Hok) as Hok'.
  destruct (increment_spec st ctx q ps (sort_ids bs) c Hinv (proj1 Hok) Hfit Hc Hlt) as (st1 & -> & Htaken).
  destruct (create (sort_ids bs) st1 w) as [w1 [event|[e|e]]] eqn:Hcr.
  - assert (Hev : ds_events st1 = ds_events st) by (by destruct (rt_tables _ _ _ _ _ _ Htaken) as (? & ? & ? & ? & ->)).
    destruct (insert_prepared _ (ds_events st1)) as [events id] eqn:Hi. intros [= <- _ <-].
    rewrite Hev in Hi. apply insert_inserted in Hi; [|apply (si_events _ Hinv)|done].
    destruct (Hrecord event (sort_ids bs)) as (R1 & R2 & R3 & R4 & R5). split.
    + eapply event_insert_inv; [exact Hinv|exact Hok'|exact Hfit|exact Htaken|done..].
    + exists (record event (sort_ids bs)). split_and!; try done;
        by destruct (rt_tables _ _ _ _ _ _ Htaken) as (? & ? & ? & ? & ->).
  - by apply Hcreate in Hcr.
  - destruct (rollback_spec _ _ _ _ _ _ Hinv Hfit Htaken) as (st2 & -> & Hinv2 & Hv2).
    by intros [= <- _ <-].
Qed.

(** The objects of the submission still resolve once their references are taken. *)
Lemma live_bumped {Rec R} `{RefRecord Rec R} n (t t' : ObjectTable Rec) ctx x :
  bumped n t t' -> live_in t ctx x -> live_in t' ctx x.
Proof.
  intros (_ & _ & _ & Hl & _) (r & Hr & Hc & Hs). unfold live_in. rewrite Hl, Hr. simpl.
  eexists. split; [done|]. by rewrite bump_ctx, bump_slot.
Qed.

Lemma live_resource {Rec R} `{ChildRecord Rec R} (t : ObjectTable Rec) ctx id :
  live_in t ctx id ->
  exists x, (let? record := table_get id t in record_resource record) = Ok x.
Proof.
  intros (r & Hr & _ & [x Hx]). rewrite (proj2 (table_get_Ok _ _ _) Hr).
  exists x. unfold record_resource, ResourceSlot_get. by rewrite Hx.
Qed.

Lemma create_event_spec {W PE} mem q p bs (create : SubmissionResources B P Q -> W -> W * result E PE)
    st w st' w' res :
  state_inv st -> create_event_with mem q p bs create st w = (st', w', res) ->
  state_inv st' /\ exists ctx, event_outcome st st' ctx q [p] bs res.
Proof.
  intros Hinv. unfold create_event_with. pose proof (same_view_refl st).
  destruct (zlen bs =? 0); [intros [= <- _ <-]; split; [done|by exists 0]|].
  destruct (_ <? _); [intros [= <- _ <-]; split; [done|by exists 0]|].
  destruct (validate_submission q p bs st) as [ctx|] eqn:Hv; [|intros [= <- _ <-]; split; [done|by exists 0]].
  apply validate_submission_Ok in Hv. intros Ha.
  apply admit_event_spec in Ha as [? ?]; [eauto|done|done| |by intros; split_and!].
  intros ids st1 w0 w1 e Ht. unfold call_with_submission. destruct Hv as (Hq & _ & Hp & _).
  destruct (live_resource (ds_queues st1) ctx q) as [xq ->]; [eapply live_bumped; [apply (rt_queues _ _ _ _ _ _ Ht)|done]|].
  destruct (live_resource (ds_programs st1) ctx p) as [xp ->].
  { eapply live_bumped; [apply (rt_programs _ _ _ _ _ _ Ht)|]. apply Hp. set_solver. }
  destruct (create _ w0) as [w2 [?|?]]; simpl; intros; congruence.
Qed.

Lemma create_event_sequence_spec {W PE} mem q ps bs
    (create : SubmissionSequenceResources B P Q -> W -> W * result E PE) st w st' w' res :
  state_inv st -> create_event_sequence_with mem q ps bs create st w = (st', w', res) ->
  state_inv st' /\ exists ctx, event_outcome st st' ctx q ps bs res.
Proof.
  intros Hinv. unfold create_event_sequence_with. pose proof (same_view_refl st).
  destruct ps as [|p ps]; [intros [= <- _ <-]; split; [done|by exists 0]|].
  destruct (zlen bs =? 0); [intros [= <- _ <-]; split; [done|by exists 0]|].
  destruct (validate_submission_sequence q (p :: ps) bs st) as [ctx|] eqn:Hv; [|intros [= <- _ <-]; split; [done|by exists 0]].
  apply validate_sequence_Ok in Hv. intros Ha.
  apply admit_event_spec in Ha as [? ?]; [eauto|done|done| |by intros; split_and!].
  intros ids st1 w0 w1 e Ht. unfold call_with_sequence. destruct Hv as (Hq & _).
  destruct (live_resource (ds_queues st1) ctx q) as [xq ->]; [eapply live_bumped; [apply (rt_queues _ _ _ _ _ _ Ht)|done]|].
  destruct (create _ w0) as [w2 [?|?]]; simpl; intros; congruence.
Qed.

(** ** Commit of an event release *)

(** The objects an event references are live. *)
Lemma referenced_live {Rec R} `{ChildRecord Rec R} k ref st (t : ObjectTable Rec) eid e x :
  table_wf (ds_events st) -> child_inv k ref (ds_contexts st) t (ds_events st) ->
  lookup_id eid (ds_events st) = Some e -> x ∈ ref e ->
  live_in t (evt_context_id e) x /\
  exists r, lookup_id x t = Some r /\ count_id x (ref e) <= rec_in_flight r.
Proof.
  intros Hwe Hci He Hx. destruct (ci_refs _ _ _ _ _ Hci _ _ He _ Hx) as (r & Hr & Hc).
  destruct (ci_rec _ _ _ _ _ Hci _ _ Hr) as [Hslot ? Hrf ? Hre ?].
  pose proof (count_id_in _ _ Hx).
  pose proof (table_sum_pos (ds_events st) (fun e => count_id x (ref e)) eid e Hwe
    (fun e => count_id_nonneg _ _) He) as Hp. simpl in Hp. unfold refs in Hrf.
  split; [|exists r; split; [done|lia]]. exists r. split_and!; try done.
  apply Hslot. destruct (slot_release (rec_slot r)); [done|]. specialize (Hre eq_refl). lia.
Qed.

Lemma commit_event_cases st id st' res :
  state_inv st -> commit_event_release id st = (st', res) ->
  (exists e, res = Err e /\ st' = st /\
     forall r, lookup_id id (ds_events st) = Some r -> slot_release (evt_slot r) = Live) \/
  (res = Ok tt /\ state_inv st' /\ exists e, removed (ds_events st) id e (ds_events st') /\
     slot_release (evt_slot e) = Releasing /\
     ObjectTable_len (ds_contexts st') = ObjectTable_len (ds_contexts st) /\
     ObjectTable_len (ds_buffers st') = ObjectTable_len (ds_buffers st) /\
     ObjectTable_len (ds_programs st') = ObjectTable_len (ds_programs st) /\
     ObjectTable_len (ds_queues st') = ObjectTable_len (ds_queues st) /\
     ds_retained st' = ds_retained st /\ ds_limits st' = ds_limits st /\
     ds_policy st' = ds_policy st /\ ds_namespace st' = ds_namespace st).
Proof.
  intros Hinv. unfold commit_event_release.
  destruct (table_get id (ds_events st)) as [e|] eqn:Hg; [|].
  2:{ apply table_get_Err in Hg. intros [= <- <-]. left. eexists. split_and!; [done..|]. congruence. }
  apply table_get_Ok in Hg. unfold ensure_releasing. simpl.
  destruct (slot_release (evt_slot e)) eqn:Hrel.
  { intros [= <- <-]. left. eexists. split_and!; [done..|]. congruence. }
  pose proof (ci_wf _ _ _ _ _ (si_events _ Hinv)) as Hwe.
  pose proof (fun x => referenced_live _ _ _ _ _ _ x Hwe (si_buffers _ Hinv) Hg) as Hb.
  pose proof (fun x => referenced_live _ _ _ _ _ _ x Hwe (si_programs _ Hinv) Hg) as Hp.
  destruct (referenced_live _ _ _ _ _ _ (evt_queue_id e) Hwe (si_queues _ Hinv) Hg) as [Hq (rq & Hrq & Hqc)];
    [unfold queue_refs; set_solver|].
  rewrite (proj2 (validate_sequence_Ok st (evt_queue_id e) (evt_program_ids e) (evt_buffer_ids e) (evt_context_id e))).
  2:{ split_and!; [done|by eapply si_event_programs|..]; intros x Hx; [by apply Hp|by apply Hb]. }
  destruct (remove_total _ _ _ Hwe Hg) as [t Hrm]. rewrite Hrm. apply remove_removed in Hrm; [|done].
  destruct (update_all_sub [evt_queue_id e] drop_queue_ref (ds_queues st)) as (tq & Hq1 & Hq2); [done|apply Hinv|..].
  { intros x r Hr. apply (in_flight_nonneg _ _ _ _ _ _ _ (si_queues _ Hinv) Hr). }
  { intros x Hx. apply list_elem_of_singleton in Hx as ->. eauto. }
  destruct (update_all_sub (evt_program_ids e) drop_program_ref (ds_programs st)) as (tp & Hp1 & Hp2); [done|apply Hinv|..].
  { intros x r Hr. apply (in_flight_nonneg _ _ _ _ _ _ _ (si_programs _ Hinv) Hr). }
  { intros x Hx. by apply Hp. }
  destruct (update_all_sub (evt_buffer_ids e) drop_buffer_ref (ds_buffers st)) as (tb & Hb1 & Hb2); [done|apply Hinv|..].
  { intros x r Hr. apply (in_flight_nonneg _ _ _ _ _ _ _ (si_buffers _ Hinv) Hr). }
  { intros x Hx. by apply Hb. }
  destruct (ro_ctx _ _ _ _ _ (ci_rec _ _ _ _ _ (si_events _ Hinv) _ _ Hg)) as [c Hc]. simpl in Hc.
  pose proof (child_counted _ _ _ _ _ _ _ _ (si_events _ Hinv) Hg Hc) as Hge.
  destruct (table_update_total _ (evt_context_id e) (drop_child ChildEvent) c (si_contexts_wf _ Hinv) Hc)
    as (tc & Hc1 & Hcu).
  pose proof (drop_child_recounted _ _ _ _ _ Hinv Hc Hge Hc1) as Hrc.
  destruct (recounted_wf _ _ _ _ _ Hrc) as [Hwfc Hsc].
  unfold decrement_event_references.
  rewrite (update_refs_total _ _ _ _ _ _ _ _ (with_events st t) tq tp tb tc); simpl;
    auto using update_single.
  destruct (bumped_same _ _ _ Hq2) as [Sq Lq], (bumped_same _ _ _ Hp2) as [Sp Lp], (bumped_same _ _ _ Hb2) as [Sb Lb].
  pose proof (bumped_charge _ _ _ Hb2) as Chb. pose proof (bumped_charge _ _ _ Hp2) as Chp. simpl in Chb, Chp.
  intros [= <- <-]. right. split; [done|]. split.
  - destruct Hinv. split; simpl; auto; try (simpl in *; congruence).
    + destruct Hrc as (? & ? & _ & _ & ?). done.
    + eapply recounted_other; [done|done|]. by eapply ci_event_remove.
    + eapply recounted_other; [done|done|]. by eapply ci_event_remove.
    + eapply recounted_other; [done|done|]. by eapply ci_event_remove.
    + destruct Hrc as (d & d' & Hu & Hcnt & _).
      eapply ci_remove; [done|done|done| |done|apply no_events_wf]. by rewrite Hcnt, decide_True.
    + intros x d. rewrite (rm_lookup _ _ _ _ Hrm). case_decide; [done|apply si_event_programs].
    + destruct_and!. split_and!; eauto using table_is_same. eapply table_is_same; [done|apply (rm_same _ _ _ _ Hrm)].
  - exists e. simpl. split_and!; try done. apply (up_len _ _ _ _ _ Hcu).
Qed.

End Events.
