(* ===== verification/StateFacts.v ===== *)
(** * What the object graph promises

    The operations of [DeviceState] as a step relation with arbitrary
    providers, and the properties of every reachable state: the invariant, no
    dangling events, exact reference counts and retained bytes, quotas, and
    the behaviour of the two-phase releases. *)

From Stdlib Require Import ZArith Lia.
From stdpp Require Import prelude list sorting relations.
From S2P Require Import Prelude Proto Core ObjectTable State TableFacts ChildInv StateInv StateEvents.

Lemma surjective_pairing_3 {X Y Z} (p : X * Y * Z) : (p.1.1, p.1.2, p.2) = p.
Proof. by destruct p as [[? ?] ?]. Qed.

Section Steps.
Context {C B P Q E : Type}.
Abbreviation State := (DeviceState C B P Q E).
Implicit Types (st : State) (id : ObjectId).

(** One public mutating call of [DeviceState], whatever its provider answers.
    A provider reports allocation sizes of 64 bits. *)
Inductive state_step : State -> State -> Prop :=
  | step_create_context {W PE : Type} mem (create : W -> W * result C PE) st w st' w' res :
      create_context_with mem create st w = (st', w', res) -> state_step st st'
  | step_create_buffer {W PE : Type} mem ctx desc
      (create : C -> BufferDesc -> W -> W * result (B * BufferInfo) PE) st w st' w' res :
      (forall c w w' b info, create c desc w = (w', Ok (b, info)) -> is_u64 (bi_allocation_bytes info)) ->
      create_buffer_with mem ctx desc create st w = (st', w', res) -> state_step st st'
  | step_create_program {W PE : Type} mem ctx artifact_bytes resident_bytes
      (create : C -> W -> W * result P PE) st w st' w' res :
      is_u64 resident_bytes ->
      create_program_with mem ctx artifact_bytes resident_bytes create st w = (st', w', res) ->
      state_step st st'
  | step_create_queue {W PE : Type} mem ctx (create : C -> W -> W * result Q PE) st w st' w' res :
      create_queue_with mem ctx create st w = (st', w', res) -> state_step st st'
  | step_create_event {W PE : Type} mem q p bs
      (create : SubmissionResources B P Q -> W -> W * result E PE) st w st' w' res :
      create_event_with mem q p bs create st w = (st', w', res) -> state_step st st'
  | step_create_event_sequence {W PE : Type} mem q ps bs
      (create : SubmissionSequenceResources B P Q -> W -> W * result E PE) st w st' w' res :
      create_event_sequence_with mem q ps bs create st w = (st', w', res) -> state_step st st'
  | step_store_buffer id r put (x : B) st :
      buffer_record_mut id st = Ok (r, put) -> is_Some (slot_resource (buf_slot r)) ->
      state_step st (put (rec_with_slot (ResourceSlot_put x (buf_slot r)) r))
  | step_begin_context id st : state_step st (begin_context_release id st).1
  | step_begin_buffer id st : state_step st (begin_buffer_release id st).1
  | step_begin_program id st : state_step st (begin_program_release id st).1
  | step_begin_queue id st : state_step st (begin_queue_release id st).1
  | step_begin_event id st : state_step st (begin_event_release id st).1
  | step_restore_context id x st : state_step st (restore_context_release id x st).1
  | step_restore_buffer id x st : state_step st (restore_buffer_release id x st).1
  | step_restore_program id x st : state_step st (restore_program_release id x st).1
  | step_restore_queue id x st : state_step st (restore_queue_release id x st).1
  | step_restore_event id x st : state_step st (restore_event_release id x st).1
  | step_commit_context id st : state_step st (commit_context_release id st).1
  | step_commit_buffer id st : state_step st (commit_buffer_release id st).1
  | step_commit_program id st : state_step st (commit_program_release id st).1
  | step_commit_queue id st : state_step st (commit_queue_release id st).1
  | step_commit_event id st : state_step st (commit_event_release id st).1.

(** States a device constructed by [new] can be in. *)
Definition reachable st : Prop :=
  exists namespace limits policy st0,
    is_u16 namespace /\ limits_typed limits /\ 0 < rp_max_program_resident_bytes policy /\
    DeviceState_new namespace limits policy = Ok st0 /\ rtc state_step st0 st.

(** ** Releases preserve the invariant *)

Lemma negb_eqb_false a b : negb (a =? b) = false -> a = b.
Proof. intros H. bool_to_prop. done. Qed.

Lemma begin_context_inv id st : state_inv st -> state_inv (begin_context_release id st).1.
Proof.
  intros Hinv. unfold begin_context_release. destruct (begin_release_in _ id _) as [t r] eqn:Hb.
  apply inv_context_slot; [done|]. eapply begin_release_change; [apply Hinv| |exact Hb].
  simpl. intros c Hc. by apply negb_false_iff in Hc.
Qed.

Lemma begin_buffer_inv id st : state_inv st -> state_inv (begin_buffer_release id st).1.
Proof.
  intros Hinv. unfold begin_buffer_release. destruct (begin_release_in _ id _) as [t r] eqn:Hb.
  apply inv_buffer_slot; [done|]. eapply begin_release_change; [apply Hinv| |exact Hb].
  intros c. apply negb_eqb_false.
Qed.

Lemma begin_program_inv id st : state_inv st -> state_inv (begin_program_release id st).1.
Proof.
  intros Hinv. unfold begin_program_release. destruct (begin_release_in _ id _) as [t r] eqn:Hb.
  apply inv_program_slot; [done|]. eapply begin_release_change; [apply Hinv| |exact Hb].
  intros c. apply negb_eqb_false.
Qed.

Lemma begin_queue_inv id st : state_inv st -> state_inv (begin_queue_release id st).1.
Proof.
  intros Hinv. unfold begin_queue_release. destruct (begin_release_in _ id _) as [t r] eqn:Hb.
  apply inv_queue_slot; [done|]. eapply begin_release_change; [apply Hinv| |exact Hb].
  intros c. apply negb_eqb_false.
Qed.

Lemma begin_event_inv id st : state_inv st -> state_inv (begin_event_release id st).1.
Proof.
  intros Hinv. unfold begin_event_release. destruct (begin_release_in _ id _) as [t r] eqn:Hb.
  apply inv_event_slot; [done|]. eapply begin_release_change; [apply Hinv| |exact Hb]. done.
Qed.

Lemma restore_context_inv id x st : state_inv st -> state_inv (restore_context_release id x st).1.
Proof.
  intros Hinv. unfold restore_context_release. destruct (restore_resource id x _) as [t r] eqn:Hb.
  apply inv_context_slot; [done|]. eapply restore_change; [apply Hinv|exact Hb].
Qed.

Lemma restore_buffer_inv id x st : state_inv st -> state_inv (restore_buffer_release id x st).1.
Proof.
  intros Hinv. unfold restore_buffer_release. destruct (restore_resource id x _) as [t r] eqn:Hb.
  apply inv_buffer_slot; [done|]. eapply restore_change; [apply Hinv|exact Hb].
Qed.

Lemma restore_program_inv id x st : state_inv st -> state_inv (restore_program_release id x st).1.
Proof.
  intros Hinv. unfold restore_program_release. destruct (restore_resource id x _) as [t r] eqn:Hb.
  apply inv_program_slot; [done|]. eapply restore_change; [apply Hinv|exact Hb].
Qed.

Lemma restore_queue_inv id x st : state_inv st -> state_inv (restore_queue_release id x st).1.
Proof.
  intros Hinv. unfold restore_queue_release. destruct (restore_resource id x _) as [t r] eqn:Hb.
  apply inv_queue_slot; [done|]. eapply restore_change; [apply Hinv|exact Hb].
Qed.

Lemma restore_event_inv id x st : state_inv st -> state_inv (restore_event_release id x st).1.
Proof.
  intros Hinv. unfold restore_event_release. destruct (restore_resource id x _) as [t r] eqn:Hb.
  apply inv_event_slot; [done|]. eapply restore_change; [apply Hinv|exact Hb].
Qed.

Lemma commit_context_inv id st : state_inv st -> state_inv (commit_context_release id st).1.
Proof.
  intros Hinv. destruct (commit_context_release id st) as [st' r] eqn:Hc.
  destruct (commit_context_cases _ _ _ _ Hinv Hc) as [(e & _ & ->)|(_ & ? & _)]; done.
Qed.

Lemma commit_buffer_inv id st : state_inv st -> state_inv (commit_buffer_release id st).1.
Proof.
  intros Hinv. destruct (commit_buffer_release id st) as [st' r] eqn:Hc.
  destruct (commit_buffer_cases _ _ _ _ Hinv Hc) as [(e & _ & ->)|(_ & ? & _)]; done.
Qed.

Lemma commit_program_inv id st : state_inv st -> state_inv (commit_program_release id st).1.
Proof.
  intros Hinv. destruct (commit_program_release id st) as [st' r] eqn:Hc.
  destruct (commit_program_cases _ _ _ _ Hinv Hc) as [(e & _ & ->)|(_ & ? & _)]; done.
Qed.

Lemma commit_queue_inv id st : state_inv st -> state_inv (commit_queue_release id st).1.
Proof.
  intros Hinv. destruct (commit_queue_release id st) as [st' r] eqn:Hc.
  destruct (commit_queue_cases _ _ _ _ Hinv Hc) as [(e & _ & ->)|(_ & ? & _)]; done.
Qed.

Lemma commit_event_inv id st : state_inv st -> state_inv (commit_event_release id st).1.
Proof.
  intros Hinv. destruct (commit_event_release id st) as [st' r] eqn:Hc.
  destruct (commit_event_cases _ _ _ _ Hinv Hc) as [(e & _ & -> & _)|(_ & ? & _)]; done.
Qed.

Lemma store_buffer_inv id r put (x : B) st :
  state_inv st -> buffer_record_mut id st = Ok (r, put) -> is_Some (slot_resource (buf_slot r)) ->
  state_inv (put (rec_with_slot (ResourceSlot_put x (buf_slot r)) r)).
Proof.
  intros Hinv. unfold buffer_record_mut.
  destruct (ObjectTable_get_mut id (ds_buffers st)) as [[r' put']|] eqn:Hg; [|done]. simpl.
  intros [= <- <-] Hs. apply inv_buffer_slot; [done|]. exact (put_resource_change (fun r => rec_in_flight r = 0) id _ r' put' x
    (ci_wf _ _ _ _ _ (si_buffers _ Hinv)) Hg Hs).
Qed.

Create HintDb steps.
#[local] Hint Resolve begin_context_inv begin_buffer_inv begin_program_inv begin_queue_inv begin_event_inv
  restore_context_inv restore_buffer_inv restore_program_inv restore_queue_inv restore_event_inv
  commit_context_inv commit_buffer_inv commit_program_inv commit_queue_inv commit_event_inv
  create_context_inv create_queue_inv create_program_inv create_buffer_inv store_buffer_inv : steps.

Lemma state_step_inv st st' : state_step st st' -> state_inv st -> state_inv st'.
Proof.
  intros Hstep Hinv. destruct Hstep; eauto 3 with steps nocore.
  - by eapply create_event_spec.
  - by eapply create_event_sequence_spec.
Qed.

Lemma reachable_inv st : reachable st -> state_inv st.
Proof.
  intros (ns & limits & policy & st0 & Hn & Hl & Hp & Hnew & Hrtc).
  apply DeviceState_new_inv in Hnew as [Hinv _]; [|done..].
  induction Hrtc as [|x y z Hxy _ IH]; [done|]. by eapply IH, state_step_inv.
Qed.


(** ** What no operation changes *)

Definition same_static st st' : Prop :=
  ds_limits st' = ds_limits st /\ ds_policy st' = ds_policy st /\ ds_namespace st' = ds_namespace st.

Lemma same_static_refl st : same_static st st.
Proof. done. Qed.

Lemma same_static_trans st1 st2 st3 : same_static st1 st2 -> same_static st2 st3 -> same_static st1 st3.
Proof. unfold same_static. intros (? & ? & ?) (? & ? & ?). split_and!; congruence. Qed.

Lemma event_outcome_static {PE} st st' ctx q ps bs (res : result ObjectId (CreateError PE)) :
  event_outcome st st' ctx q ps bs res -> same_static st st'.
Proof.
  destruct res; simpl.
  - intros (e & _ & _ & _ & _ & _ & _ & _ & ? & ? & ?). done.
  - intros [? ? ? ? ? ? (_ & ? & ? & ?)]. done.
Qed.

Lemma state_step_static st st' : state_inv st -> state_step st st' -> same_static st st'.
Proof.
  intros Hinv Hstep. destruct Hstep as [W PE mem create st w st' w' res H|W PE mem ctx desc create st w st' w' res _ H|
    W PE mem ctx ab rb create st w st' w' res _ H|W PE mem ctx create st w st' w' res H|
    W PE mem q p bs create st w st' w' res H|W PE mem q ps bs create st w st' w' res H|id r put x st H _|
    id st|id st|id st|id st|id st|id x st|id x st|id x st|id x st|id x st|id st|id st|id st|id st|id st].
  - unfold create_context_with in H. repeat case_match; by simplify_eq.
  - unfold create_buffer_with in H. repeat case_match; by simplify_eq.
  - unfold create_program_with in H. repeat case_match; by simplify_eq.
  - unfold create_queue_with in H. repeat case_match; by simplify_eq.
  - apply create_event_spec in H as [_ [ctx H]]; [|done]. by eapply event_outcome_static.
  - apply create_event_sequence_spec in H as [_ [ctx H]]; [|done]. by eapply event_outcome_static.
  - unfold buffer_record_mut in H. destruct (ObjectTable_get_mut id (ds_buffers st)) as [[? ?]|]; by simplify_eq/=.
  - unfold begin_context_release. by case_match.
  - unfold begin_buffer_release. by case_match.
  - unfold begin_program_release. by case_match.
  - unfold begin_queue_release. by case_match.
  - unfold begin_event_release. by case_match.
  - unfold restore_context_release. by case_match.
  - unfold restore_buffer_release. by case_match.
  - unfold restore_program_release. by case_match.
  - unfold restore_queue_release. by case_match.
  - unfold restore_event_release. by case_match.
  - destruct (commit_context_release id st) as [st' r] eqn:Hc.
    destruct (commit_context_cases _ _ _ _ Hinv Hc) as [(? & _ & ->)|(_ & _ & c & t & _ & _ & ->)]; done.
  - destruct (commit_buffer_release id st) as [st' r] eqn:Hc.
    destruct (commit_buffer_cases _ _ _ _ Hinv Hc) as [(? & _ & ->)|(_ & _ & [_ (? & ? & ? & _)] & _)]; done.
  - destruct (commit_program_release id st) as [st' r] eqn:Hc.
    destruct (commit_program_cases _ _ _ _ Hinv Hc) as [(? & _ & ->)|(_ & _ & [_ (? & ? & ? & _)] & _)]; done.
  - destruct (commit_queue_release id st) as [st' r] eqn:Hc.
    destruct (commit_queue_cases _ _ _ _ Hinv Hc) as [(? & _ & ->)|(_ & _ & [_ (? & ? & ? & _)] & _)]; done.
  - destruct (commit_event_release id st) as [st' r] eqn:Hc.
    destruct (commit_event_cases _ _ _ _ Hinv Hc)
      as [(? & _ & -> & _)|(_ & _ & e & _ & _ & _ & _ & _ & _ & _ & ? & ? & ?)]; done.
Qed.

Lemma state_steps_inv st st' :
  rtc state_step st st' -> state_inv st -> state_inv st' /\ same_static st st'.
Proof.
  induction 1 as [|x y z Hxy _ IH]; intros Hinv; [by split|].
  pose proof (state_step_static _ _ Hinv Hxy) as Hs. apply state_step_inv in Hxy; [|done].
  destruct (IH Hxy) as [? ?]. split; [done|]. by eapply same_static_trans.
Qed.

(** ** Outcomes of creation *)

(** How a creation relates the provider call to its result: an error of the
    state means the provider was not called, an error of the provider leaves
    the state as it was. *)
Definition creation_failed {W PE A} (call : W -> W * result A PE) st st' (w w' : W)
    (e : CreateError PE) : Prop :=
  same_view st st' /\
  match e with
  | CreateState _ => w' = w
  | CreateProvider pe => call w = (w', Err pe)
  end.

Lemma create_context_cases {W PE} mem (create : W -> W * result C PE) st w st' w' res :
  state_inv st -> create_context_with mem create st w = (st', w', res) ->
  match res with
  | Err e => st' = st /\ creation_failed create st st' w w' e
  | Ok id => exists x t, create w = (w', Ok x) /\ st' = with_contexts st t /\
      inserted (ds_contexts st) id {| ctx_slot := ResourceSlot_new x; ctx_children := ChildCounts_default |} t
  end.
Proof.
  intros Hinv. pose proof (same_view_refl st). unfold create_context_with.
  destruct (_ <=? _); [by intros [= <- <- <-]|].
  destruct (try_reserve_insert mem (ds_contexts st)) as [[]|] eqn:Hr; [|by intros [= <- <- <-]].
  apply try_reserve_insert_Ok in Hr.
  destruct (create w) as [w1 [x|e]] eqn:Hc; [|by intros [= <- <- <-]].
  destruct (insert_prepared _ _) as [t id] eqn:Hi. intros [= <- <- <-].
  exists x, t. split_and!; try done. apply insert_inserted; [apply Hinv|done|done].
Qed.

(** The context resource a child creation hands to the provider. *)
Definition context_resource st ctx (x : C) : Prop :=
  exists c, context_record ctx st = Ok c /\ slot_resource (ctx_slot c) = Some x.

Lemma context_resource_intro st ctx c put x :
  ObjectTable_get_mut ctx (ds_contexts st) = Ok (c, put) -> record_resource c = Ok x ->
  context_resource st ctx x.
Proof.
  intros Hg Hr. exists c. apply get_mut_Ok in Hg as [Hg _]. split.
  - apply table_get_Ok. by apply get_lookup.
  - unfold record_resource, ResourceSlot_get in Hr. simpl in Hr. by destruct (slot_resource (ctx_slot c)); simplify_eq/=.
Qed.

(** A failed child creation. *)
Definition child_creation_failed {W PE A} (call : C -> W -> W * result A PE) st ctx st' (w w' : W)
    (e : CreateError PE) : Prop :=
  st' = st /\
  match e with
  | CreateState _ => w' = w
  | CreateProvider pe => exists x, context_resource st ctx x /\ call x w = (w', Err pe)
  end.

Lemma create_queue_cases {W PE} mem ctx (create : C -> W -> W * result Q PE) st w st' w' res :
  state_inv st -> create_queue_with mem ctx create st w = (st', w', res) ->
  match res with
  | Err e => child_creation_failed create st ctx st' w w' e
  | Ok id => exists x r, context_resource st ctx x /\ create x w = (w', Ok r) /\
      inserted (ds_queues st) id
        {| que_slot := ResourceSlot_new r; que_context_id := ctx; que_in_flight := 0 |} (ds_queues st') /\
      ds_buffers st' = ds_buffers st /\ ds_programs st' = ds_programs st /\ ds_events st' = ds_events st /\
      ds_retained st' = ds_retained st
  end.
Proof.
  intros Hinv. unfold create_queue_with, child_creation_failed.
  destruct (check_child_admission _ _ _ _); [|by intros [= <- <- <-]].
  destruct (try_reserve_insert mem (ds_queues st)) as [[]|] eqn:Hr; [|by intros [= <- <- <-]].
  apply try_reserve_insert_Ok in Hr.
  destruct (ObjectTable_get_mut ctx (ds_contexts st)) as [[c put]|] eqn:Hg; [|by intros [= <- <- <-]].
  destruct (record_resource c) as [x|] eqn:Hx; [|by intros [= <- <- <-]].
  pose proof (context_resource_intro _ _ _ _ _ Hg Hx).
  destruct (create x w) as [w1 [r|e]] eqn:Hc; [|intros [= <- <- <-]; by eauto].
  destruct (insert_prepared _ _) as [t id] eqn:Hi. intros [= <- <- <-].
  exists x, r. split_and!; try done. apply insert_inserted; [apply Hinv|done|done].
Qed.

Lemma create_program_cases {W PE} mem ctx artifact_bytes resident_bytes
    (create : C -> W -> W * result P PE) st w st' w' res :
  state_inv st -> is_u64 resident_bytes ->
  create_program_with mem ctx artifact_bytes resident_bytes create st w = (st', w', res) ->
  match res with
  | Err e => child_creation_failed create st ctx st' w w' e
  | Ok id => exists x r, context_resource st ctx x /\ create x w = (w', Ok r) /\
      inserted (ds_programs st) id
        {| prg_slot := ResourceSlot_new r; prg_context_id := ctx;
           prg_resident_bytes := resident_bytes; prg_in_flight := 0 |} (ds_programs st') /\
      ds_buffers st' = ds_buffers st /\ ds_queues st' = ds_queues st /\ ds_events st' = ds_events st /\
      rb_buffer_backing (ds_retained st') = rb_buffer_backing (ds_retained st) /\
      rb_program_resident (ds_retained st') = rb_program_resident (ds_retained st) + resident_bytes
  end.
Proof.
  intros Hinv Hrb. unfold create_program_with, child_creation_failed.
  destruct (_ || _); [by intros [= <- <- <-]|]. destruct (_ <? _); [by intros [= <- <- <-]|].
  destruct (_ <? _); [by intros [= <- <- <-]|].
  destruct (check_child_admission _ _ _ _); [|by intros [= <- <- <-]].
  destruct (try_reserve_insert mem (ds_programs st)) as [[]|] eqn:Hr; [|by intros [= <- <- <-]].
  apply try_reserve_insert_Ok in Hr.
  destruct (ObjectTable_get_mut ctx (ds_contexts st)) as [[c put]|] eqn:Hg; [|by intros [= <- <- <-]].
  destruct (record_resource c) as [x|] eqn:Hx; [|by intros [= <- <- <-]].
  pose proof (context_resource_intro _ _ _ _ _ Hg Hx).
  destruct (create x w) as [w1 [r|e]] eqn:Hc; [|intros [= <- <- <-]; by eauto].
  destruct (insert_prepared _ _) as [t id] eqn:Hi. intros [= <- <- <-].
  exists x, r. split_and!; try done; [apply insert_inserted; [apply Hinv|done|done]|]. simpl.
  pose proof (charge_bound _ _ _ _ _ (si_programs _ Hinv)) as Hcb. rewrite <- (si_resident _ Hinv) in Hcb.
  unfold saturating_add. lia.
Qed.

Lemma create_buffer_cases {W PE} mem ctx desc
    (create : C -> BufferDesc -> W -> W * result (B * BufferInfo) PE) st w st' w' res :
  state_inv st ->
  (forall c w w' b info, create c desc w = (w', Ok (b, info)) -> is_u64 (bi_allocation_bytes info)) ->
  create_buffer_with mem ctx desc create st w = (st', w', res) ->
  match res with
  | Err e => child_creation_failed (fun c => create c desc) st ctx st' w w' e
  | Ok outcome => exists x b info, context_resource st ctx x /\ create x desc w = (w', Ok (b, info)) /\
      (let id := match outcome with BufferAdmitted id => id | BufferCleanupRequired id _ => id end in
       inserted (ds_buffers st) id
         {| buf_slot := ResourceSlot_new b; buf_context_id := ctx; buf_info := info; buf_in_flight := 0 |}
         (ds_buffers st')) /\
      ds_queues st' = ds_queues st /\ ds_programs st' = ds_programs st /\ ds_events st' = ds_events st /\
      ds_policy st' = ds_policy st /\
      rb_program_resident (ds_retained st') = rb_program_resident (ds_retained st) /\
      rb_buffer_backing (ds_retained st') = rb_buffer_backing (ds_retained st) + bi_allocation_bytes info /\
      match outcome with
      | BufferAdmitted _ => bi_desc info = desc /\
          rb_buffer_backing (ds_retained st') <= rp_max_buffer_backing_bytes (ds_policy st)
      | BufferCleanupRequired _ e =>
          e = BeIncompatible /\ bi_desc info <> desc \/
          e = BeResourceLimit /\ bi_desc info = desc /\
          rp_max_buffer_backing_bytes (ds_policy st) < rb_buffer_backing (ds_retained st')
      end
  end.
Proof.
  intros Hinv Htyped. unfold create_buffer_with, child_creation_failed.
  destruct (_ <? _); [by intros [= <- <- <-]|]. destruct (_ <? _); [by intros [= <- <- <-]|].
  destruct (check_child_admission _ _ _ _); [|by intros [= <- <- <-]].
  destruct (try_reserve_insert mem (ds_buffers st)) as [[]|] eqn:Hr; [|by intros [= <- <- <-]].
  apply try_reserve_insert_Ok in Hr.
  destruct (ObjectTable_get_mut ctx (ds_contexts st)) as [[c put]|] eqn:Hg; [|by intros [= <- <- <-]].
  destruct (record_resource c) as [x|] eqn:Hx; [|by intros [= <- <- <-]].
  pose proof (context_resource_intro _ _ _ _ _ Hg Hx).
  destruct (create x desc w) as [w1 [[b info]|e]] eqn:Hc; [|intros [= <- <- <-]; by eauto].
  pose proof (Htyped _ _ _ _ _ Hc) as Hu.
  pose proof (charge_bound _ _ _ _ _ (si_buffers _ Hinv)) as Hcb. rewrite <- (si_backing _ Hinv) in Hcb.
  assert (Hsat : saturating_add U128_MAX (rb_buffer_backing (ds_retained st)) (bi_allocation_bytes info) =
    rb_buffer_backing (ds_retained st) + bi_allocation_bytes info) by (unfold saturating_add; lia).
  rewrite Hsat. destruct (insert_prepared _ _) as [t id] eqn:Hi.
  apply insert_inserted in Hi; [|apply Hinv|done]. intros [= <- <- <-].
  exists x, b, info. case_bool_decide; simpl; [|split_and!; by auto].
  destruct (Z.ltb_spec (rp_max_buffer_backing_bytes (ds_policy st))
    (rb_buffer_backing (ds_retained st) + bi_allocation_bytes info)); split_and!; auto.
Qed.

(** An event admission that fails in the state did not call the provider. *)
Lemma admit_event_world {W PE} mem ctx q ps bs
    (create : list ObjectId -> State -> W -> W * result E (CreateError PE)) record st w st' w' e :
  state_inv st -> submission_ok st ctx q ps bs ->
  (forall ids st1 w w' e, refs_taken st ctx q ps ids st1 -> create ids st1 w <> (w', Err (CreateState e))) ->
  admit_event mem ctx q ps bs create record st w = (st', w', Err (CreateState e)) -> w' = w.
Proof.
  intros Hinv Hok Hcreate. unfold admit_event.
  destruct (table_get ctx (ds_contexts st)) as [c|] eqn:Hc; [|by intros [= _ <- _]].
  apply table_get_Ok in Hc.
  destruct (Z.leb_spec (max_events_per_context (ds_limits st)) (ch_events (ctx_children c))) as [|Hlt];
    [by intros [= _ <- _]|].
  destruct (try_reserve_insert mem (ds_events st)); [|by intros [= _ <- _]].
  destruct (check_reference_increments _ _ _ _) as [u|] eqn:Hchk; [|by intros [= _ <- _]].
  pose proof (check_reference_increments_Ok _ _ _ _ _ (sort_ids_sorted bs) Hchk) as Hfit.
  destruct (increment_spec st ctx q ps (sort_ids bs) c Hinv (proj1 Hok) Hfit Hc Hlt) as (st1 & -> & Htaken).
  destruct (create (sort_ids bs) st1 w) as [w1 [event|[e1|e1]]] eqn:Hcr.
  - by destruct (insert_prepared _ _).
  - by apply Hcreate in Hcr.
  - destruct (rollback_spec _ _ _ _ _ _ Hinv Hfit Htaken) as (st2 & -> & _). done.
Qed.

Lemma create_event_world {W PE} mem q p bs (create : SubmissionResources B P Q -> W -> W * result E PE)
    st w st' w' e :
  state_inv st -> create_event_with mem q p bs create st w = (st', w', Err (CreateState e)) -> w' = w.
Proof.
  intros Hinv. unfold create_event_with.
  destruct (zlen bs =? 0); [by intros [= _ <- _]|]. destruct (_ <? _); [by intros [= _ <- _]|].
  destruct (validate_submission q p bs st) as [ctx|] eqn:Hv; [|by intros [= _ <- _]].
  apply validate_submission_Ok in Hv. apply admit_event_world; [done|done|].
  intros ids st1 w0 w1 e1 Ht. unfold call_with_submission. destruct Hv as (Hq & _ & Hp & _).
  destruct (live_resource (ds_queues st1) ctx q) as [xq ->]; [eapply live_bumped; [apply (rt_queues _ _ _ _ _ _ Ht)|done]|].
  destruct (live_resource (ds_programs st1) ctx p) as [xp ->].
  { eapply live_bumped; [apply (rt_programs _ _ _ _ _ _ Ht)|]. apply Hp. set_solver. }
  destruct (create _ w0) as [w2 [?|?]]; simpl; intros; congruence.
Qed.

Lemma create_event_sequence_world {W PE} mem q ps bs
    (create : SubmissionSequenceResources B P Q -> W -> W * result E PE) st w st' w' e :
  state_inv st -> create_event_sequence_with mem q ps bs create st w = (st', w', Err (CreateState e)) -> w' = w.
Proof.
  intros Hinv. unfold create_event_sequence_with.
  destruct ps as [|p ps]; [by intros [= _ <- _]|]. destruct (zlen bs =? 0); [by intros [= _ <- _]|].
  destruct (validate_submission_sequence q (p :: ps) bs st) as [ctx|] eqn:Hv; [|by intros [= _ <- _]].
  apply validate_sequence_Ok in Hv. apply admit_event_world; [done|done|].
  intros ids st1 w0 w1 e1 Ht. unfold call_with_sequence. destruct Hv as (Hq & _).
  destruct (live_resource (ds_queues st1) ctx q) as [xq ->]; [eapply live_bumped; [apply (rt_queues _ _ _ _ _ _ Ht)|done]|].
  destruct (create _ w0) as [w2 [?|?]]; simpl; intros; congruence.
Qed.

(** ** Outcomes of releases *)

(** A [begin_release] that succeeded can be completed. *)
Lemma begin_context_Ok id st st1 x :
  state_inv st -> begin_context_release id st = (st1, Ok x) ->
  exists c, updated (ds_contexts st) id c
      {| ctx_slot := {| slot_resource := None; slot_release := Releasing |}; ctx_children := ctx_children c |}
      (ds_contexts st1) /\
    st1 = with_contexts st (ds_contexts st1) /\ slot_resource (ctx_slot c) = Some x /\
    slot_release (ctx_slot c) = Live /\ ChildCounts_is_empty (ctx_children c) = true.
Proof.
  intros Hinv. unfold begin_context_release. destruct (begin_release_in _ id _) as [t r] eqn:Hb.
  intros [= <- ->]. apply begin_release_Ok in Hb as (c & Hc & Hs & Hl & Hu); [|apply Hinv].
  exists c. split_and!; try done. by apply negb_false_iff in Hc.
Qed.

(** The same for the three referenced kinds, through the table they live in. *)
Lemma begin_child_Ok {Rec R} `{ChildRecord Rec R} id (t t1 : ObjectTable Rec) x :
  table_wf t -> begin_release_in (fun r => negb (rec_in_flight r =? 0)) id t = (t1, Ok x) ->
  exists r, updated t id r (rec_with_slot {| slot_resource := None; slot_release := Releasing |} r) t1 /\
    slot_resource (rec_slot r) = Some x /\ slot_release (rec_slot r) = Live /\ rec_in_flight r = 0.
Proof.
  intros Hwf (r & Hb & Hs & Hl & Hu)%begin_release_Ok; [|done]. exists r. split_and!; try done.
  by apply negb_eqb_false.
Qed.

Lemma begin_buffer_Ok id st st1 x :
  state_inv st -> begin_buffer_release id st = (st1, Ok x) ->
  exists r, updated (ds_buffers st) id r (rec_with_slot {| slot_resource := None; slot_release := Releasing |} r)
      (ds_buffers st1) /\
    st1 = with_buffers st (ds_buffers st1) /\ slot_resource (buf_slot r) = Some x /\
    slot_release (buf_slot r) = Live /\ buf_in_flight r = 0.
Proof.
  intros Hinv. unfold begin_buffer_release. destruct (begin_release_in _ id _) as [t r] eqn:Hb.
  intros [= <- ->]. change (begin_release_in (fun r : BufferRecord B => negb (rec_in_flight r =? 0)) id (ds_buffers st) = (t, Ok x)) in Hb.
  apply begin_child_Ok in Hb as (c & Hu & Hs & Hl & Hz); [by exists c|apply Hinv].
Qed.

Lemma begin_program_Ok id st st1 x :
  state_inv st -> begin_program_release id st = (st1, Ok x) ->
  exists r, updated (ds_programs st) id r (rec_with_slot {| slot_resource := None; slot_release := Releasing |} r)
      (ds_programs st1) /\
    st1 = with_programs st (ds_programs st1) /\ slot_resource (prg_slot r) = Some x /\
    slot_release (prg_slot r) = Live /\ prg_in_flight r = 0.
Proof.
  intros Hinv. unfold begin_program_release. destruct (begin_release_in _ id _) as [t r] eqn:Hb.
  intros [= <- ->]. change (begin_release_in (fun r : ProgramRecord P => negb (rec_in_flight r =? 0)) id (ds_programs st) = (t, Ok x)) in Hb.
  apply begin_child_Ok in Hb as (c & Hu & Hs & Hl & Hz); [by exists c|apply Hinv].
Qed.

Lemma begin_queue_Ok id st st1 x :
  state_inv st -> begin_queue_release id st = (st1, Ok x) ->
  exists r, updated (ds_queues st) id r (rec_with_slot {| slot_resource := None; slot_release := Releasing |} r)
      (ds_queues st1) /\
    st1 = with_queues st (ds_queues st1) /\ slot_resource (que_slot r) = Some x /\
    slot_release (que_slot r) = Live /\ que_in_flight r = 0.
Proof.
  intros Hinv. unfold begin_queue_release. destruct (begin_release_in _ id _) as [t r] eqn:Hb.
  intros [= <- ->]. change (begin_release_in (fun r : QueueRecord Q => negb (rec_in_flight r =? 0)) id (ds_queues st) = (t, Ok x)) in Hb.
  apply begin_child_Ok in Hb as (c & Hu & Hs & Hl & Hz); [by exists c|apply Hinv].
Qed.

Lemma begin_event_Ok id st st1 x :
  state_inv st -> begin_event_release id st = (st1, Ok x) ->
  exists r, updated (ds_events st) id r (rec_with_slot {| slot_resource := None; slot_release := Releasing |} r)
      (ds_events st1) /\
    st1 = with_events st (ds_events st1) /\ slot_resource (evt_slot r) = Some x /\
    slot_release (evt_slot r) = Live.
Proof.
  intros Hinv. unfold begin_event_release. destruct (begin_release_in _ id _) as [t r] eqn:Hb.
  intros [= <- ->]. apply begin_release_Ok in Hb as (c & _ & Hs & Hl & Hu); [|apply Hinv]. by exists c.
Qed.

(** A releasing record commits. *)
Lemma commit_context_total id st c :
  state_inv st -> lookup_id id (ds_contexts st) = Some c -> slot_release (ctx_slot c) = Releasing ->
  exists st', commit_context_release id st = (st', Ok tt).
Proof.
  intros Hinv Hl Hr. unfold commit_context_release. rewrite (proj2 (table_get_Ok _ _ _) Hl).
  unfold ensure_releasing. simpl. rewrite Hr.
  destruct (remove_total _ _ _ (si_contexts_wf _ Hinv) Hl) as [t ->]. eauto.
Qed.

Lemma commit_buffer_total id st r :
  state_inv st -> lookup_id id (ds_buffers st) = Some r -> slot_release (buf_slot r) = Releasing ->
  exists st', commit_buffer_release id st = (st', Ok tt).
Proof.
  intros Hinv Hl Hr. unfold commit_buffer_release. rewrite (proj2 (table_get_Ok _ _ _) Hl).
  unfold ensure_releasing. simpl. rewrite Hr.
  destruct (releasing_child _ _ _ _ _ _ Hinv (si_buffers _ Hinv) Hl Hr) as (_ & t & ctxs & -> & _ & Hup & _).
  unfold drop_child_of. simpl in *. rewrite Hup. eauto.
Qed.

Lemma commit_program_total id st r :
  state_inv st -> lookup_id id (ds_programs st) = Some r -> slot_release (prg_slot r) = Releasing ->
  exists st', commit_program_release id st = (st', Ok tt).
Proof.
  intros Hinv Hl Hr. unfold commit_program_release. rewrite (proj2 (table_get_Ok _ _ _) Hl).
  unfold ensure_releasing. simpl. rewrite Hr.
  destruct (releasing_child _ _ _ _ _ _ Hinv (si_programs _ Hinv) Hl Hr) as (_ & t & ctxs & -> & _ & Hup & _).
  unfold drop_child_of. simpl in *. rewrite Hup. eauto.
Qed.

Lemma commit_queue_total id st r :
  state_inv st -> lookup_id id (ds_queues st) = Some r -> slot_release (que_slot r) = Releasing ->
  exists st', commit_queue_release id st = (st', Ok tt).
Proof.
  intros Hinv Hl Hr. unfold commit_queue_release. rewrite (proj2 (table_get_Ok _ _ _) Hl).
  unfold ensure_releasing. simpl. rewrite Hr.
  destruct (releasing_child _ _ _ _ _ _ Hinv (si_queues _ Hinv) Hl Hr) as (_ & t & ctxs & -> & _ & Hup & _).
  unfold drop_child_of. simpl in *. rewrite Hup. eauto.
Qed.

Lemma commit_event_total id st r :
  state_inv st -> lookup_id id (ds_events st) = Some r -> slot_release (evt_slot r) = Releasing ->
  exists st', commit_event_release id st = (st', Ok tt).
Proof.
  intros Hinv Hl Hr. destruct (commit_event_release id st) as [st' res] eqn:Hc. exists st'.
  destruct (commit_event_cases _ _ _ _ Hinv Hc) as [(e & _ & _ & Hlive)|(-> & _)]; [|done].
  specialize (Hlive _ Hl). congruence.
Qed.

(** Restoring the taken resource undoes [begin_release]. *)
Lemma restore_begun {Rec R} `{ResourceRecord Rec R} id (t t1 : ObjectTable Rec) r (x : R) :
  (forall s s' r, rec_with_slot s (rec_with_slot s' r) = rec_with_slot s r) ->
  (forall s r, rec_slot (rec_with_slot s r) = s) ->
  rec_with_slot {| slot_resource := Some x; slot_release := Live |} r = r ->
  updated t id r (rec_with_slot {| slot_resource := None; slot_release := Releasing |} r) t1 ->
  exists t2, restore_resource id x t1 = (t2, Ok tt) /\ (forall y, lookup_id y t2 = lookup_id y t) /\
    ObjectTable_len t2 = ObjectTable_len t.
Proof.
  intros Hww Hsw Hid Hu. pose proof (up_lookup _ _ _ _ _ Hu id) as Hl. rewrite decide_True in Hl by done.
  destruct (get_mut_total _ _ _ Hl) as [put Hg]. unfold restore_resource. rewrite Hg, Hsw. simpl.
  eexists. split; [done|]. rewrite Hww, Hid.
  pose proof (get_mut_updated _ _ _ _ r (up_wf _ _ _ _ _ Hu) Hg) as Hu2. split.
  - intros y. rewrite (up_lookup _ _ _ _ _ Hu2), (up_lookup _ _ _ _ _ Hu). case_decide; [|done].
    subst. symmetry. apply (up_at _ _ _ _ _ Hu).
  - by rewrite (up_len _ _ _ _ _ Hu2), (up_len _ _ _ _ _ Hu).
Qed.

Lemma no_reference {Rec R} `{ChildRecord Rec R} k ref st (t : ObjectTable Rec) id r :
  table_wf (ds_events st) -> child_inv k ref (ds_contexts st) t (ds_events st) ->
  lookup_id id t = Some r -> rec_in_flight r = 0 ->
  forall eid e, event_record eid st = Ok e -> id ∉ ref e.
Proof.
  intros Hwe Hci Hl Hz eid e He Hin. apply table_get_Ok in He.
  destruct (referenced_live _ _ _ _ _ _ _ Hwe Hci He Hin) as [_ (r' & Hr' & Hc)].
  pose proof (count_id_in _ _ Hin). assert (r' = r) by congruence. subst. lia.
Qed.

Lemma no_child {Rec R} `{ChildRecord Rec R} k ref st (t : ObjectTable Rec) ctx c :
  child_inv k ref (ds_contexts st) t (ds_events st) -> lookup_id ctx (ds_contexts st) = Some c ->
  child_count k (ctx_children c) = 0 -> forall id r, table_get id t = Ok r -> rec_ctx r <> ctx.
Proof.
  intros Hci Hc Hz id r Hr Hctx. apply table_get_Ok in Hr. rewrite <- Hctx in Hc.
  pose proof (child_counted _ _ _ _ _ _ _ _ Hci Hr Hc). lia.
Qed.

(** ** Properties of reachable states *)

(** C10: whatever the providers answer and whatever the reservations do, every
    state a device can reach from [DeviceState::new] satisfies the invariant
    of the object graph. *)
Theorem reachable_states_well_formed st : reachable st -> state_inv st.
Proof. apply reachable_inv. Qed.

(** Events never dangle.  In a reachable state the context of an event
    exists and is live, and its queue, every program and every buffer it
    references resolve, belong to that context and still hold their
    resource. *)
Theorem events_never_dangle st eid e :
  reachable st -> event_record eid st = Ok e ->
  (exists c, context_record (evt_context_id e) st = Ok c /\ slot_release (ctx_slot c) = Live) /\
  (exists q, queue_record (evt_queue_id e) st = Ok q /\ que_context_id q = evt_context_id e /\
     is_Some (slot_resource (que_slot q))) /\
  evt_program_ids e <> [] /\
  (forall id, id ∈ evt_program_ids e -> exists p, program_record id st = Ok p /\
     prg_context_id p = evt_context_id e /\ is_Some (slot_resource (prg_slot p))) /\
  (forall id, id ∈ evt_buffer_ids e -> exists b, buffer_record id st = Ok b /\
     buf_context_id b = evt_context_id e /\ is_Some (slot_resource (buf_slot b))).
Proof.
  intros Hinv%reachable_inv Hg. apply table_get_Ok in Hg.
  pose proof (ci_wf _ _ _ _ _ (si_events _ Hinv)) as Hwe.
  assert (Hq : live_in (ds_queues st) (evt_context_id e) (evt_queue_id e)).
  { eapply (referenced_live ChildQueue queue_refs); [done|apply Hinv|done|unfold queue_refs; set_solver]. }
  split_and!.
  - destruct (queue_ctx_live _ _ _ Hinv Hq) as (c & Hc & Hl). exists c. by rewrite <- table_get_Ok in Hc.
  - destruct Hq as (q & Hl & ? & ?). exists q. by rewrite <- table_get_Ok in Hl.
  - by eapply si_event_programs.
  - intros id Hin. destruct (referenced_live _ _ _ _ _ _ id Hwe (si_programs _ Hinv) Hg Hin)
      as [(p & Hl & ? & ?) _]. exists p. by rewrite <- table_get_Ok in Hl.
  - intros id Hin. destruct (referenced_live _ _ _ _ _ _ id Hwe (si_buffers _ Hinv) Hg Hin)
      as [(p & Hl & ? & ?) _]. exists p. by rewrite <- table_get_Ok in Hl.
Qed.

(** Reference counting is exact.  In a reachable state the in-flight count
    of a queue, program or buffer is the number of times the live events name
    it, with multiplicity, and it never reached the wrap-around of its 32
    bits. *)
Theorem in_flight_counts_exact st id :
  reachable st ->
  (forall q, queue_record id st = Ok q ->
     que_in_flight q = table_sum (fun e => count_id id [evt_queue_id e]) (ds_events st) /\
     is_u32 (que_in_flight q)) /\
  (forall p, program_record id st = Ok p ->
     prg_in_flight p = table_sum (fun e => count_id id (evt_program_ids e)) (ds_events st) /\
     is_u32 (prg_in_flight p)) /\
  (forall b, buffer_record id st = Ok b ->
     buf_in_flight b = table_sum (fun e => count_id id (evt_buffer_ids e)) (ds_events st) /\
     is_u32 (buf_in_flight b)).
Proof.
  intros Hinv%reachable_inv. split_and!; intros r Hr; apply table_get_Ok in Hr.
  - pose proof (in_flight_nonneg _ _ _ _ _ _ _ (si_queues _ Hinv) Hr).
    split; [apply (ci_rec _ _ _ _ _ (si_queues _ Hinv) _ _ Hr)|done].
  - pose proof (in_flight_nonneg _ _ _ _ _ _ _ (si_programs _ Hinv) Hr).
    split; [apply (ci_rec _ _ _ _ _ (si_programs _ Hinv) _ _ Hr)|done].
  - pose proof (in_flight_nonneg _ _ _ _ _ _ _ (si_buffers _ Hinv) Hr).
    split; [apply (ci_rec _ _ _ _ _ (si_buffers _ Hinv) _ _ Hr)|done].
Qed.

(** Quotas and accounting.  In a reachable state a context's child
    counters are the numbers of its buffers, programs, queues and events and
    stay within the advertised limits; the retained byte counts are the sums
    over the live buffers and programs; the resident program bytes stay
    within the host policy. *)
Theorem quotas_and_accounting st :
  reachable st ->
  (forall id c, context_record id st = Ok c ->
     ch_buffers (ctx_children c) = table_sum (in_ctx id) (ds_buffers st) /\
     ch_programs (ctx_children c) = table_sum (in_ctx id) (ds_programs st) /\
     ch_queues (ctx_children c) = table_sum (in_ctx id) (ds_queues st) /\
     ch_events (ctx_children c) = table_sum (in_ctx id) (ds_events st) /\
     ch_buffers (ctx_children c) <= max_buffers_per_context (ds_limits st) /\
     ch_programs (ctx_children c) <= max_programs_per_context (ds_limits st) /\
     ch_queues (ctx_children c) <= max_queues_per_context (ds_limits st) /\
     ch_events (ctx_children c) <= max_events_per_context (ds_limits st)) /\
  rb_buffer_backing (ds_retained st) =
    table_sum (fun b => bi_allocation_bytes (buf_info b)) (ds_buffers st) /\
  rb_program_resident (ds_retained st) = table_sum prg_resident_bytes (ds_programs st) /\
  rb_program_resident (ds_retained st) <= rp_max_program_resident_bytes (ds_policy st).
Proof.
  intros Hinv%reachable_inv. destruct Hinv. split_and!; try done.
  intros id c Hc. apply table_get_Ok in Hc. pose proof (xo_quota _ _ (si_contexts _ _ Hc)) as Hq.
  split_and!; [apply (ci_count _ _ _ _ _ si_buffers _ _ Hc)|apply (ci_count _ _ _ _ _ si_programs _ _ Hc)|
    apply (ci_count _ _ _ _ _ si_queues _ _ Hc)|apply (ci_count _ _ _ _ _ si_events _ _ Hc)|..].
  - apply (Hq ChildBuffer).
  - apply (Hq ChildProgram).
  - apply (Hq ChildQueue).
  - apply (Hq ChildEvent).
Qed.

(** A release waits for every reference.  In a reachable state a buffer,
    program or queue whose release begins is named by no event, and a context
    whose release begins has no buffer, program, queue or event left. *)
Theorem release_waits_for_references st id :
  reachable st ->
  (forall st1 x, begin_buffer_release id st = (st1, Ok x) ->
     forall eid e, event_record eid st = Ok e -> id ∉ evt_buffer_ids e) /\
  (forall st1 x, begin_program_release id st = (st1, Ok x) ->
     forall eid e, event_record eid st = Ok e -> id ∉ evt_program_ids e) /\
  (forall st1 x, begin_queue_release id st = (st1, Ok x) ->
     forall eid e, event_record eid st = Ok e -> evt_queue_id e <> id) /\
  (forall st1 x, begin_context_release id st = (st1, Ok x) ->
     (forall b r, buffer_record b st = Ok r -> buf_context_id r <> id) /\
     (forall p r, program_record p st = Ok r -> prg_context_id r <> id) /\
     (forall q r, queue_record q st = Ok r -> que_context_id r <> id) /\
     (forall eid e, event_record eid st = Ok e -> evt_context_id e <> id)).
Proof.
  intros Hinv%reachable_inv. pose proof (ci_wf _ _ _ _ _ (si_events _ Hinv)) as Hwe.
  split_and!; intros st1 x Hb.
  - destruct (begin_buffer_Ok _ _ _ _ Hinv Hb) as (r & Hu & _ & _ & _ & Hz).
    exact (no_reference ChildBuffer _ st (ds_buffers st) id r Hwe (si_buffers _ Hinv) (up_at _ _ _ _ _ Hu) Hz).
  - destruct (begin_program_Ok _ _ _ _ Hinv Hb) as (r & Hu & _ & _ & _ & Hz).
    exact (no_reference ChildProgram _ st (ds_programs st) id r Hwe (si_programs _ Hinv) (up_at _ _ _ _ _ Hu) Hz).
  - destruct (begin_queue_Ok _ _ _ _ Hinv Hb) as (r & Hu & _ & _ & _ & Hz). intros eid e He Heq.
    apply (no_reference ChildQueue queue_refs st (ds_queues st) id r Hwe (si_queues _ Hinv)
      (up_at _ _ _ _ _ Hu) Hz eid e He). unfold queue_refs. set_solver.
  - destruct (begin_context_Ok _ _ _ _ Hinv Hb) as (c & Hu & _ & _ & _ & Hz).
    unfold ChildCounts_is_empty in Hz. bool_to_prop. pose proof (up_at _ _ _ _ _ Hu) as Hc.
    split_and!.
    + by apply (no_child ChildBuffer _ _ _ _ _ (si_buffers _ Hinv) Hc).
    + by apply (no_child ChildProgram _ _ _ _ _ (si_programs _ Hinv) Hc).
    + by apply (no_child ChildQueue _ _ _ _ _ (si_queues _ Hinv) Hc).
    + intros eid e He Heq. apply table_get_Ok in He. rewrite <- Heq in Hc.
      pose proof (child_counted _ _ _ _ _ _ _ _ (si_events _ Hinv) He Hc). simpl in *. lia.
Qed.

(** A begun release completes.  In a reachable state, once
    [begin_*_release] handed the resource out, the matching commit succeeds:
    exactly that object disappears, and its bytes leave the accounting with no
    wrap-around. *)
Theorem begun_release_commits st id :
  reachable st ->
  (forall st1 x, begin_context_release id st = (st1, Ok x) ->
     exists st2, commit_context_release id st1 = (st2, Ok tt) /\
       (forall y, lookup_id y (ds_contexts st2) = if decide (y = id) then None else lookup_id y (ds_contexts st))) /\
  (forall st1 x, begin_buffer_release id st = (st1, Ok x) ->
     exists r st2, buffer_record id st = Ok r /\ commit_buffer_release id st1 = (st2, Ok tt) /\
       (forall y, lookup_id y (ds_buffers st2) = if decide (y = id) then None else lookup_id y (ds_buffers st)) /\
       rb_buffer_backing (ds_retained st2) =
         rb_buffer_backing (ds_retained st) - bi_allocation_bytes (buf_info r)) /\
  (forall st1 x, begin_program_release id st = (st1, Ok x) ->
     exists r st2, program_record id st = Ok r /\ commit_program_release id st1 = (st2, Ok tt) /\
       (forall y, lookup_id y (ds_programs st2) = if decide (y = id) then None else lookup_id y (ds_programs st)) /\
       rb_program_resident (ds_retained st2) = rb_program_resident (ds_retained st) - prg_resident_bytes r) /\
  (forall st1 x, begin_queue_release id st = (st1, Ok x) ->
     exists st2, commit_queue_release id st1 = (st2, Ok tt) /\
       (forall y, lookup_id y (ds_queues st2) = if decide (y = id) then None else lookup_id y (ds_queues st))) /\
  (forall st1 x, begin_event_release id st = (st1, Ok x) ->
     exists st2, commit_event_release id st1 = (st2, Ok tt) /\
       (forall y, lookup_id y (ds_events st2) = if decide (y = id) then None else lookup_id y (ds_events st))).
Proof.
  intros Hinv%reachable_inv.
  split_and!; intros st1 x Hb.
  - pose proof (begin_context_inv id st Hinv) as Hinv1. rewrite Hb in Hinv1. simpl in Hinv1.
    destruct (begin_context_Ok _ _ _ _ Hinv Hb) as (r & Hu & _).
    destruct (commit_context_total id st1 _ Hinv1 (updated_at _ _ _ _ _ Hu) eq_refl) as [st2 Hc].
    exists st2. split; [done|]. destruct (commit_context_cases _ _ _ _ Hinv1 Hc) as [(? & ? & _)|(_ & _ & c & t & Hrm & _ & ->)]; [done|].
    apply (updated_removed _ _ _ _ _ _ _ Hu Hrm).
  - pose proof (begin_buffer_inv id st Hinv) as Hinv1. rewrite Hb in Hinv1. simpl in Hinv1.
    destruct (begin_buffer_Ok _ _ _ _ Hinv Hb) as (r & Hu & Hst & _).
    destruct (commit_buffer_total id st1 _ Hinv1 (updated_at _ _ _ _ _ Hu) eq_refl) as [st2 Hc].
    exists r, st2. split; [by apply table_get_Ok, (up_at _ _ _ _ _ Hu)|]. split; [done|].
    destruct (commit_buffer_cases _ _ _ _ Hinv1 Hc) as [(? & ? & _)|(_ & _ & _ & c & Hrm & _ & Hby & _)]; [done|].
    split; [apply (updated_removed _ _ _ _ _ _ _ Hu Hrm)|].
    pose proof (updated_removed_at _ _ _ _ _ _ _ Hu Hrm). subst. rewrite Hby, Hst. done.
  - pose proof (begin_program_inv id st Hinv) as Hinv1. rewrite Hb in Hinv1. simpl in Hinv1.
    destruct (begin_program_Ok _ _ _ _ Hinv Hb) as (r & Hu & Hst & _).
    destruct (commit_program_total id st1 _ Hinv1 (updated_at _ _ _ _ _ Hu) eq_refl) as [st2 Hc].
    exists r, st2. split; [by apply table_get_Ok, (up_at _ _ _ _ _ Hu)|]. split; [done|].
    destruct (commit_program_cases _ _ _ _ Hinv1 Hc) as [(? & ? & _)|(_ & _ & _ & c & Hrm & _ & Hby & _)]; [done|].
    split; [apply (updated_removed _ _ _ _ _ _ _ Hu Hrm)|].
    pose proof (updated_removed_at _ _ _ _ _ _ _ Hu Hrm). subst. rewrite Hby, Hst. done.
  - pose proof (begin_queue_inv id st Hinv) as Hinv1. rewrite Hb in Hinv1. simpl in Hinv1.
    destruct (begin_queue_Ok _ _ _ _ Hinv Hb) as (r & Hu & Hst & _).
    destruct (commit_queue_total id st1 _ Hinv1 (updated_at _ _ _ _ _ Hu) eq_refl) as [st2 Hc].
    exists st2. split; [done|].
    destruct (commit_queue_cases _ _ _ _ Hinv1 Hc) as [(? & ? & _)|(_ & _ & _ & c & Hrm & _)]; [done|].
    apply (updated_removed _ _ _ _ _ _ _ Hu Hrm).
  - pose proof (begin_event_inv id st Hinv) as Hinv1. rewrite Hb in Hinv1. simpl in Hinv1.
    destruct (begin_event_Ok _ _ _ _ Hinv Hb) as (r & Hu & Hst & _).
    destruct (commit_event_total id st1 _ Hinv1 (updated_at _ _ _ _ _ Hu) eq_refl) as [st2 Hc].
    exists st2. split; [done|].
    destruct (commit_event_cases _ _ _ _ Hinv1 Hc) as [(? & ? & _)|(_ & _ & c & Hrm & _)]; [done|].
    apply (updated_removed _ _ _ _ _ _ _ Hu Hrm).
Qed.

(** A refused release is undone.  In a reachable state [restore_*_release]
    with the resource that [begin_*_release] handed out succeeds and every
    identifier resolves again as before. *)
Theorem restore_undoes_begin st id :
  reachable st ->
  (forall st1 x, begin_context_release id st = (st1, Ok x) ->
     exists st2, restore_context_release id x st1 = (st2, Ok tt) /\ same_view st st2) /\
  (forall st1 x, begin_buffer_release id st = (st1, Ok x) ->
     exists st2, restore_buffer_release id x st1 = (st2, Ok tt) /\ same_view st st2) /\
  (forall st1 x, begin_program_release id st = (st1, Ok x) ->
     exists st2, restore_program_release id x st1 = (st2, Ok tt) /\ same_view st st2) /\
  (forall st1 x, begin_queue_release id st = (st1, Ok x) ->
     exists st2, restore_queue_release id x st1 = (st2, Ok tt) /\ same_view st st2) /\
  (forall st1 x, begin_event_release id st = (st1, Ok x) ->
     exists st2, restore_event_release id x st1 = (st2, Ok tt) /\
       forall y, lookup_id y (ds_events st2) = lookup_id y (ds_events st)).
Proof.
  intros Hinv%reachable_inv. split_and!; intros st1 x Hb.
  - destruct (begin_context_Ok _ _ _ _ Hinv Hb) as (r & Hu & Hst & Hs & Hl & _). rewrite Hst.
    unfold restore_context_release. destruct (restore_begun id _ _ r x ltac:(done) ltac:(done)
      ltac:(by destruct r as [[]]; simplify_eq/=) Hu) as (t2 & Hr & Hv & Hn).
    cbn [ds_contexts ds_buffers ds_programs ds_queues ds_events with_contexts with_buffers with_programs with_queues with_events].
    rewrite Hr. eexists. split; [done|]. split; simpl; try done.
    unfold resource_counts. simpl. by rewrite Hn.
  - destruct (begin_buffer_Ok _ _ _ _ Hinv Hb) as (r & Hu & Hst & Hs & Hl & _). rewrite Hst.
    unfold restore_buffer_release. destruct (restore_begun id _ _ r x ltac:(done) ltac:(done)
      ltac:(by destruct r as [[]]; simplify_eq/=) Hu) as (t2 & Hr & Hv & Hn).
    cbn [ds_contexts ds_buffers ds_programs ds_queues ds_events with_contexts with_buffers with_programs with_queues with_events].
    rewrite Hr. eexists. split; [done|]. split; simpl; try done.
    unfold resource_counts. simpl. by rewrite Hn.
  - destruct (begin_program_Ok _ _ _ _ Hinv Hb) as (r & Hu & Hst & Hs & Hl & _). rewrite Hst.
    unfold restore_program_release. destruct (restore_begun id _ _ r x ltac:(done) ltac:(done)
      ltac:(by destruct r as [[]]; simplify_eq/=) Hu) as (t2 & Hr & Hv & Hn).
    cbn [ds_contexts ds_buffers ds_programs ds_queues ds_events with_contexts with_buffers with_programs with_queues with_events].
    rewrite Hr. eexists. split; [done|]. split; simpl; try done.
    unfold resource_counts. simpl. by rewrite Hn.
  - destruct (begin_queue_Ok _ _ _ _ Hinv Hb) as (r & Hu & Hst & Hs & Hl & _). rewrite Hst.
    unfold restore_queue_release. destruct (restore_begun id _ _ r x ltac:(done) ltac:(done)
      ltac:(by destruct r as [[]]; simplify_eq/=) Hu) as (t2 & Hr & Hv & Hn).
    cbn [ds_contexts ds_buffers ds_programs ds_queues ds_events with_contexts with_buffers with_programs with_queues with_events].
    rewrite Hr. eexists. split; [done|]. split; simpl; try done.
    unfold resource_counts. simpl. by rewrite Hn.
  - destruct (begin_event_Ok _ _ _ _ Hinv Hb) as (r & Hu & Hst & Hs & Hl). rewrite Hst.
    unfold restore_event_release. destruct (restore_begun id _ _ r x ltac:(done) ltac:(done)
      ltac:(by destruct r as [[]]; simplify_eq/=) Hu) as (t2 & Hr & Hv & Hn).
    cbn [ds_contexts ds_buffers ds_programs ds_queues ds_events with_contexts with_buffers with_programs with_queues with_events].
    rewrite Hr. eexists. split; [done|]. done.
Qed.

(** Creation is atomic.  In a well-formed state a creation that fails
    leaves every identifier resolving as before with the same counts and
    bytes; when the device itself refused it, the backend was not called, so
    no backend resource leaks. *)
Theorem failed_creation_is_atomic {W PE} mem (w : W) st :
  reachable st ->
  (forall create st' w' (e : CreateError PE),
     create_context_with mem create st w = (st', w', Err e) -> creation_failed create st st' w w' e) /\
  (forall ctx create st' w' (e : CreateError PE),
     create_queue_with mem ctx create st w = (st', w', Err e) ->
     child_creation_failed create st ctx st' w w' e) /\
  (forall ctx artifact_bytes resident_bytes create st' w' (e : CreateError PE),
     is_u64 resident_bytes ->
     create_program_with mem ctx artifact_bytes resident_bytes create st w = (st', w', Err e) ->
     child_creation_failed create st ctx st' w w' e) /\
  (forall ctx desc create st' w' (e : CreateError PE),
     (forall c w w' b info, create c desc w = (w', Ok (b, info)) -> is_u64 (bi_allocation_bytes info)) ->
     create_buffer_with mem ctx desc create st w = (st', w', Err e) ->
     child_creation_failed (fun c => create c desc) st ctx st' w w' e) /\
  (forall q p bs create st' w' (e : CreateError PE),
     create_event_with mem q p bs create st w = (st', w', Err e) ->
     same_view st st' /\ (forall de, e = CreateState de -> w' = w)) /\
  (forall q ps bs create st' w' (e : CreateError PE),
     create_event_sequence_with mem q ps bs create st w = (st', w', Err e) ->
     same_view st st' /\ (forall de, e = CreateState de -> w' = w)).
Proof.
  intros Hinv%reachable_inv. split_and!; intros *.
  - intros H. by apply create_context_cases in H as [_ ?].
  - intros H. by apply create_queue_cases in H.
  - intros Hu H. by apply create_program_cases in H.
  - intros Hu H. by apply create_buffer_cases in H.
  - intros H. split; [by apply create_event_spec in H as [_ [? ?]]|]. intros de ->. by eapply create_event_world.
  - intros H. split; [by apply create_event_sequence_spec in H as [_ [? ?]]|]. intros de ->.
    by eapply create_event_sequence_world.
Qed.

(** Admission of a buffer.  A buffer creation that reaches the backend
    enters the table with its allocation charged exactly; it is published
    only if the backend kept the requested description and the charge fits
    the host policy, and is marked for cleanup otherwise. *)
Theorem buffer_admission_charged {W PE} mem ctx desc
    (create : C -> BufferDesc -> W -> W * result (B * BufferInfo) PE) st w st' w' outcome :
  reachable st ->
  (forall c w w' b info, create c desc w = (w', Ok (b, info)) -> is_u64 (bi_allocation_bytes info)) ->
  create_buffer_with mem ctx desc create st w = (st', w', Ok outcome) ->
  exists x b info, context_resource st ctx x /\ create x desc w = (w', Ok (b, info)) /\
    let id := match outcome with BufferAdmitted id => id | BufferCleanupRequired id _ => id end in
    buffer_record id st' = Ok {| buf_slot := ResourceSlot_new b; buf_context_id := ctx; buf_info := info;
                                 buf_in_flight := 0 |} /\
    rb_buffer_backing (ds_retained st') = rb_buffer_backing (ds_retained st) + bi_allocation_bytes info /\
    (outcome = BufferAdmitted id <-> bi_desc info = desc /\
       rb_buffer_backing (ds_retained st') <= rp_max_buffer_backing_bytes (ds_policy st)).
Proof.
  intros Hinv%reachable_inv Hu H. apply create_buffer_cases in H; [|done|done].
  destruct H as (x & b & info & Hc & Hcr & Hins & _ & _ & _ & _ & _ & Hby & Hout).
  exists x, b, info. split; [done|]. split; [done|]. cbv zeta in *. split_and!.
  - apply table_get_Ok. by rewrite (in_lookup _ _ _ _ Hins), decide_True.
  - done.
  - destruct outcome as [id|id e]; [naive_solver|]. split; [done|].
    intros [Hd Hle]. destruct Hout as [[_ ?]|(_ & _ & ?)]; [done|lia].
Qed.

End Steps.

(** ** A concrete device *)

Module Demo.

Definition limits : DeviceLimits := {|
  max_contexts := 2; max_buffers_per_context := 2; max_programs_per_context := 2;
  max_queues_per_context := 1; max_events_per_context := 2; max_bindings_per_submission := 4;
  max_buffer_bytes := 4096; max_artifact_bytes := 4096;
|}.

Definition policy : ResourcePolicy :=
  {| rp_max_buffer_backing_bytes := 8192; rp_max_program_resident_bytes := 8192 |}.

Abbreviation St := (DeviceState unit unit unit unit unit).

Definition st0 : St := {|
  ds_namespace := 1; ds_limits := limits; ds_policy := policy; ds_retained := RetainedBytes_default;
  ds_contexts := ObjectTable_with_namespace KindContext 2 1;
  ds_buffers := ObjectTable_with_namespace KindBuffer 4 1;
  ds_programs := ObjectTable_with_namespace KindProgram 4 1;
  ds_queues := ObjectTable_with_namespace KindQueue 2 1;
  ds_events := ObjectTable_with_namespace KindEvent 4 1;
|}.

Definition desc : BufferDesc :=
  {| bd_bytes := 64; bd_alignment := 16; bd_domain := DomainHost; bd_usage := 1 |}.

(** A backend whose answers are units; it counts its calls. *)
Definition count {A} (x : A) (w : nat) : nat * result A unit := (S w, Ok x).

Definition buffer_info : BufferInfo :=
  {| bi_desc := desc; bi_allocation_bytes := 128; bi_alignment := 16; bi_properties := 0 |}.

Definition id_of {PE} (r : result ObjectId PE) : ObjectId :=
  match r with Ok id => id | Err _ => 0 end.

Definition run_context := create_context_with (W := nat) (PE := unit) true (count tt) st0 0%nat.
Definition st1 : St := run_context.1.1.
Definition ctx : ObjectId := id_of run_context.2.
Definition run_queue := create_queue_with (W := nat) (PE := unit) true ctx (fun _ => count tt) st1 1%nat.
Definition st2 : St := run_queue.1.1.
Definition queue : ObjectId := id_of run_queue.2.
Definition run_program := create_program_with (W := nat) (PE := unit) true ctx 100 200 (fun _ => count tt) st2 2%nat.
Definition st3 : St := run_program.1.1.
Definition program : ObjectId := id_of run_program.2.
Definition make_buffer (c : unit) (d : BufferDesc) := count (tt, buffer_info).
Definition run_buffer := create_buffer_with (W := nat) (PE := unit) true ctx desc make_buffer st3 3%nat.
Definition st4 : St := run_buffer.1.1.
Definition buffer : ObjectId :=
  match run_buffer.2 with Ok (BufferAdmitted id) => id | _ => 0 end.
Definition run_event :=
  create_event_with (W := nat) (PE := unit) true queue program [buffer; buffer] (fun _ => count tt) st4 4%nat.
Definition st5 : St := run_event.1.1.
Definition event : ObjectId := id_of run_event.2.

Lemma make_buffer_typed c w w' b info :
  make_buffer c desc w = (w', Ok (b, info)) -> is_u64 (bi_allocation_bytes info).
Proof. intros [= <- <- <-]. by vm_compute. Qed.

Lemma st0_reachable : reachable st0.
Proof.
  exists 1, limits, policy, st0. split_and!; by vm_compute.
Qed.

Lemma reachable_step {C B P Q E} (st st' : DeviceState C B P Q E) :
  reachable st -> state_step st st' -> reachable st'.
Proof.
  intros (ns & l & p & s0 & ? & ? & ? & ? & Hr) Hs. exists ns, l, p, s0. do 4 (split; [done|]).
  by eapply rtc_r.
Qed.

Lemma st4_reachable : reachable st4.
Proof.
  eapply reachable_step; [eapply reachable_step; [eapply reachable_step; [eapply reachable_step|]|]|].
  - exact st0_reachable.
  - eapply (step_create_context true (count tt) st0 0%nat). symmetry. apply surjective_pairing_3.
  - eapply (step_create_queue true ctx (fun _ => count tt) st1 1%nat). symmetry. apply surjective_pairing_3.
  - eapply (step_create_program true ctx 100 200 (fun _ => count tt) st2 2%nat); [by vm_compute|].
    symmetry. apply surjective_pairing_3.
  - eapply (step_create_buffer true ctx desc make_buffer st3 3%nat); [apply make_buffer_typed|].
    symmetry. apply surjective_pairing_3.
Qed.

Lemma st5_reachable : reachable st5.
Proof.
  eapply reachable_step; [exact st4_reachable|].
  eapply (step_create_event true queue program [buffer; buffer] (fun _ => count tt) st4 4%nat).
  symmetry. apply surjective_pairing_3.
Qed.

(** The event is in the table and holds the buffer twice. *)
Definition event_entry : EventRecord unit :=
  {| evt_slot := ResourceSlot_new tt; evt_context_id := ctx; evt_queue_id := queue;
     evt_program_id := program; evt_sequence_program_ids := None; evt_buffer_ids := [buffer; buffer] |}.

Lemma reachable_states_well_formed_witness : reachable st5 /\ state_inv st5.
Proof. split; [exact st5_reachable|]. apply (reachable_states_well_formed st5). exact st5_reachable. Defined.

Lemma events_never_dangle_witness :
  exists b, buffer_record buffer st5 = Ok b /\ buf_context_id b = ctx.
Proof.
  destruct (events_never_dangle st5 event event_entry) as (_ & _ & _ & _ & Hb).
  - exact st5_reachable.
  - vm_compute. reflexivity.
  - destruct (Hb buffer) as (b & ? & ? & _); [vm_compute; left|]. exists b. split; assumption.
Defined.

Lemma in_flight_counts_exact_witness :
  exists b, buffer_record buffer st5 = Ok b /\ buf_in_flight b = 2.
Proof.
  destruct (buffer_record buffer st5) as [b|] eqn:Hb; [|vm_compute in Hb; discriminate Hb].
  exists b. split; [reflexivity|].
  destruct (in_flight_counts_exact st5 buffer) as (_ & _ & H); [exact st5_reachable|].
  destruct (H b Hb) as [-> _]. vm_compute. reflexivity.
Defined.

Lemma quotas_and_accounting_witness : rb_buffer_backing (ds_retained st5) = 128.
Proof.
  destruct (quotas_and_accounting st5) as (_ & -> & _); [exact st5_reachable|]. vm_compute. reflexivity.
Defined.

Lemma release_waits_for_references_witness :
  (begin_buffer_release buffer st4).2 = Ok tt /\
  (forall eid e, event_record eid st4 = Ok e -> buffer ∉ evt_buffer_ids e).
Proof.
  split; [vm_compute; reflexivity|].
  destruct (release_waits_for_references st4 buffer) as (H & _); [exact st4_reachable|].
  apply (H (begin_buffer_release buffer st4).1 tt). vm_compute. reflexivity.
Defined.

Lemma begun_release_commits_witness :
  exists st2, commit_buffer_release buffer (begin_buffer_release buffer st4).1 = (st2, Ok tt).
Proof.
  destruct (begun_release_commits st4 buffer) as (_ & H & _); [exact st4_reachable|].
  destruct (H (begin_buffer_release buffer st4).1 tt) as (r & st2 & _ & Hc & _); [vm_compute; reflexivity|].
  exists st2. exact Hc.
Defined.

Lemma restore_undoes_begin_witness :
  exists st2, restore_buffer_release buffer tt (begin_buffer_release buffer st4).1 = (st2, Ok tt) /\
    same_view st4 st2.
Proof.
  destruct (restore_undoes_begin st4 buffer) as (_ & H & _); [exact st4_reachable|].
  apply (H (begin_buffer_release buffer st4).1 tt). vm_compute. reflexivity.
Defined.

Lemma failed_creation_is_atomic_witness :
  exists st', same_view st4 st' /\
    create_event_with true queue program [buffer] (fun _ w => (S w, Err 7)) st4 4%nat = (st', 5%nat, Err (CreateProvider 7)).
Proof.
  destruct (failed_creation_is_atomic true 4%nat st4 (PE := Z)) as (_ & _ & _ & _ & H & _);
    [exact st4_reachable|].
  destruct (create_event_with true queue program [buffer] (fun _ w => (S w, Err 7)) st4 4%nat)
    as [[st' w'] r] eqn:E.
  assert (Hw : w' = 5%nat /\ r = Err (CreateProvider 7)) by (vm_compute in E; by injection E as _ <- <-).
  destruct Hw as [-> ->]. exists st'. split; [|reflexivity]. by destruct (H _ _ _ _ _ _ _ E).
Defined.

Lemma buffer_admission_charged_witness :
  exists info, rb_buffer_backing (ds_retained st4) = rb_buffer_backing (ds_retained st3) + bi_allocation_bytes info.
Proof.
  destruct (buffer_admission_charged true ctx desc make_buffer st3 3%nat st4 4%nat (BufferAdmitted buffer))
    as (x & b & info & _ & _ & _ & H & _).
  - eapply reachable_step; [eapply reachable_step; [eapply reachable_step|]|].
    + exact st0_reachable.
    + eapply (step_create_context true (count tt) st0 0%nat). symmetry. apply surjective_pairing_3.
    + eapply (step_create_queue true ctx (fun _ => count tt) st1 1%nat). symmetry. apply surjective_pairing_3.
    + eapply (step_create_program true ctx 100 200 (fun _ => count tt) st2 2%nat); [by vm_compute|].
      symmetry. apply surjective_pairing_3.
  - apply make_buffer_typed.
  - vm_compute. reflexivity.
  - exists info. exact H.
Defined.

End Demo.
