(* ===== verification/Engine.v ===== *)
(** * Command engine ([crates/virtio-accel-device/src/engine.rs])

    One backend and one device state behind the wire protocol: preflight,
    dispatch of the fifteen commands, two-phase releases with quarantine, the
    health of the device, and the bounded reset pass.

    The processor owns the backend, so its state carries the backend's world.
    A handler takes the processor and the response sink and returns both with
    its result.  [CommandMemory] says which reservations of memory succeed
    during one command. *)

From Stdlib Require Import ZArith Lia.
From stdpp Require Import prelude list.
From S2P Require Import Prelude Codec Proto Transport Core ObjectTable Regions Response Decoder Frame State.

(** [lib.rs] *)
Definition status_from_device_state_error (error : DeviceStateError) : StatusCode :=
  match error with
  | DsInvalidArgument | DsInvalidObject => STATUS_INVALID_ARGUMENT
  | DsStaleObject | DsContextMismatch => STATUS_STALE_OBJECT
  | DsBusy | DsReleasing => STATUS_BUSY
  | DsResourceLimit | DsReferenceCountOverflow => STATUS_RESOURCE_LIMIT
  | DsOutOfMemory => STATUS_OUT_OF_MEMORY
  | DsInvalidTransition => STATUS_INTERNAL_ERROR
  end.

Inductive DeviceHealth := Running | NeedsReset | BackendDiscardRequired.

#[global] Instance DeviceHealth_eq_dec : EqDecision DeviceHealth.
Proof. solve_decision. Defined.

Inductive ResetDisposition := ResetBackendReusable | ResetBackendDiscardRequired.

Record ResetReport := {
  rr_disposition : ResetDisposition;
  rr_released : ResourceCounts;
  rr_quarantined : ResourceCounts;
  rr_released_bytes : RetainedBytes;
  rr_quarantined_bytes : RetainedBytes;
}.

Inductive ResetError :=
  | ResetNamespaceReuse
  | ResetState (error : DeviceStateConfigError).

Inductive CommandProcessorInitError :=
  | InitBackend (error : BackendError)
  | InitDeviceInfo (error : DeviceInfoError)
  | InitDecoder (error : DecoderLimitsError)
  | InitState (error : DeviceStateConfigError).

Inductive CommandProcessError :=
  | ProcessPreflight (error : FramePreflightError)
  | ProcessResponseWrite (error : ResponseWriteError).

Inductive CommandOutcome :=
  | OutcomeResponse (request_id : Z) (status : StatusCode) (used : Z)
  | OutcomeUnusable (error : UnusableFrame).

Inductive SubmitCreateError :=
  | SubmitState (error : DeviceStateError)
  | SubmitOutOfMemory
  | SubmitCreateRejected (error : BackendError)
  | SubmitValidation (status : StatusCode).

Record ResetProgress := {
  backend_reusable : bool;
  backend_callable : bool;
}.

Definition ResetProgress_default : ResetProgress :=
  {| backend_reusable := true; backend_callable := true |}.

(** Which reservations succeed while one command is processed: the binding
    vector of the decoder, the identifier and native binding vectors of
    [submit], and the slot of the object table. *)
Record CommandMemory := {
  cm_decode : bool;
  cm_buffer_ids : bool;
  cm_native_bindings : bool;
  cm_table : bool;
}.

Definition validate_transfer {B} (record : BufferRecord B) (range : BufferRange)
    (required_usage : Z) : result unit StatusCode :=
  if negb (buf_in_flight record =? 0) then Err STATUS_BUSY
  else
    let desc := bi_desc (buf_info record) in
    if bd_bytes desc <? BufferRange_end range then Err STATUS_OUT_OF_BOUNDS
    else if negb (bits_contains (bd_usage desc) required_usage) then Err STATUS_PERMISSION_DENIED
    else Ok tt.

Definition wire_device_info (info : DeviceInfo) : WireDeviceInfo := {|
  wd_uuid := di_uuid (info_identity info);
  wd_class := di_class (info_identity info);
  wd_reserved := 0;
  wd_vendor_id := di_vendor_id (info_identity info);
  wd_device_id := di_device_id (info_identity info);
  wd_capabilities := info_capabilities info;
  wd_max_contexts := max_contexts (info_limits info);
  wd_max_buffers_per_context := max_buffers_per_context (info_limits info);
  wd_max_programs_per_context := max_programs_per_context (info_limits info);
  wd_max_queues_per_context := max_queues_per_context (info_limits info);
  wd_max_events_per_context := max_events_per_context (info_limits info);
  wd_max_bindings_per_submission := max_bindings_per_submission (info_limits info);
  wd_max_buffer_bytes := max_buffer_bytes (info_limits info);
  wd_max_artifact_bytes := max_artifact_bytes (info_limits info);
|}.

Definition wire_event_state (state : EventState) : WireEventState :=
  let '(state, error) :=
    match state with
    | EventPending => (EvPending, STATUS_OK)
    | EventComplete => (EvComplete, STATUS_OK)
    | EventFailed error => (EvFailed, status_from_backend_error error)
    | EventCancelled => (EvCancelled, STATUS_OK)
    end in
  {| we_state := event_state_as_u16 state; we_error := error; we_reserved := 0 |}.

(** [counts.<field> += 1] *)
Definition bump_events (c : ResourceCounts) : ResourceCounts := {|
  rc_contexts := rc_contexts c; rc_buffers := rc_buffers c; rc_programs := rc_programs c;
  rc_queues := rc_queues c; rc_events := wrapping_add U64_MAX (rc_events c) 1 |}.
Definition bump_queues (c : ResourceCounts) : ResourceCounts := {|
  rc_contexts := rc_contexts c; rc_buffers := rc_buffers c; rc_programs := rc_programs c;
  rc_queues := wrapping_add U64_MAX (rc_queues c) 1; rc_events := rc_events c |}.
Definition bump_programs (c : ResourceCounts) : ResourceCounts := {|
  rc_contexts := rc_contexts c; rc_buffers := rc_buffers c;
  rc_programs := wrapping_add U64_MAX (rc_programs c) 1;
  rc_queues := rc_queues c; rc_events := rc_events c |}.
Definition bump_buffers (c : ResourceCounts) : ResourceCounts := {|
  rc_contexts := rc_contexts c; rc_buffers := wrapping_add U64_MAX (rc_buffers c) 1;
  rc_programs := rc_programs c; rc_queues := rc_queues c; rc_events := rc_events c |}.
Definition bump_contexts (c : ResourceCounts) : ResourceCounts := {|
  rc_contexts := wrapping_add U64_MAX (rc_contexts c) 1; rc_buffers := rc_buffers c;
  rc_programs := rc_programs c; rc_queues := rc_queues c; rc_events := rc_events c |}.

(** [bytes.<field> += u128::from(n)] *)
Definition add_backing (n : Z) (b : RetainedBytes) : RetainedBytes := {|
  rb_buffer_backing := wrapping_add U128_MAX (rb_buffer_backing b) n;
  rb_program_resident := rb_program_resident b |}.
Definition add_resident (n : Z) (b : RetainedBytes) : RetainedBytes := {|
  rb_buffer_backing := rb_buffer_backing b;
  rb_program_resident := wrapping_add U128_MAX (rb_program_resident b) n |}.

Section Engine.
Context {A : Accelerator}.

Definition AcceleratorState : Type := DeviceState Context Buffer Program Queue Event.

Record CommandProcessor := {
  cp_state : AcceleratorState;
  cp_accelerator : World;
  cp_info : DeviceInfo;
  cp_policy : ResourcePolicy;
  cp_decoder : FrameDecoder;
  cp_health : DeviceHealth;
  cp_quarantined : ResourceCounts;
  cp_quarantined_bytes : RetainedBytes;
  cp_last_reset : option ResetReport;
}.

Implicit Types (self : CommandProcessor) (id : ObjectId).

(** Assignments to the fields. *)
Definition set_state (st : AcceleratorState) self : CommandProcessor := {|
  cp_state := st; cp_accelerator := cp_accelerator self; cp_info := cp_info self;
  cp_policy := cp_policy self; cp_decoder := cp_decoder self; cp_health := cp_health self;
  cp_quarantined := cp_quarantined self; cp_quarantined_bytes := cp_quarantined_bytes self;
  cp_last_reset := cp_last_reset self |}.
Definition set_world (w : World) self : CommandProcessor := {|
  cp_state := cp_state self; cp_accelerator := w; cp_info := cp_info self;
  cp_policy := cp_policy self; cp_decoder := cp_decoder self; cp_health := cp_health self;
  cp_quarantined := cp_quarantined self; cp_quarantined_bytes := cp_quarantined_bytes self;
  cp_last_reset := cp_last_reset self |}.
Definition set_health (h : DeviceHealth) self : CommandProcessor := {|
  cp_state := cp_state self; cp_accelerator := cp_accelerator self; cp_info := cp_info self;
  cp_policy := cp_policy self; cp_decoder := cp_decoder self; cp_health := h;
  cp_quarantined := cp_quarantined self; cp_quarantined_bytes := cp_quarantined_bytes self;
  cp_last_reset := cp_last_reset self |}.
Definition set_last_reset (r : option ResetReport) self : CommandProcessor := {|
  cp_state := cp_state self; cp_accelerator := cp_accelerator self; cp_info := cp_info self;
  cp_policy := cp_policy self; cp_decoder := cp_decoder self; cp_health := cp_health self;
  cp_quarantined := cp_quarantined self; cp_quarantined_bytes := cp_quarantined_bytes self;
  cp_last_reset := r |}.
Definition set_quarantined (q : ResourceCounts) (b : RetainedBytes) self : CommandProcessor := {|
  cp_state := cp_state self; cp_accelerator := cp_accelerator self; cp_info := cp_info self;
  cp_policy := cp_policy self; cp_decoder := cp_decoder self; cp_health := cp_health self;
  cp_quarantined := q; cp_quarantined_bytes := b; cp_last_reset := cp_last_reset self |}.

Definition CommandProcessor_new (accelerator : World) (config : WireConfig) (namespace : Z)
    (policy : ResourcePolicy) : World * result CommandProcessor CommandProcessorInitError :=
  match map_err (fun e => InitDecoder (LimitsConfig e)) (WireConfig_validate config) with
  | Err e => (accelerator, Err e)
  | Ok _ =>
      let '(accelerator, r) := acc_device_info accelerator in
      (accelerator,
       let? info := map_err InitBackend r in
       let? _ := map_err InitDeviceInfo (DeviceInfo_validate info) in
       let? limits := map_err InitDecoder (DecoderLimits_new config info) in
       let? state := map_err InitState (DeviceState_new namespace (info_limits info) policy) in
       Ok {|
         cp_state := state; cp_accelerator := accelerator; cp_info := info; cp_policy := policy;
         cp_decoder := {| fd_limits := limits |}; cp_health := Running;
         cp_quarantined := ResourceCounts_default; cp_quarantined_bytes := RetainedBytes_default;
         cp_last_reset := None;
       |})
  end.

Definition CommandProcessor_retained_bytes self : RetainedBytes :=
  RetainedBytes_saturating_add (ds_retained (cp_state self)) (cp_quarantined_bytes self).

(** ** Responses *)

Definition require_backend_discard self : CommandProcessor :=
  set_last_reset None (set_health BackendDiscardRequired self).

Definition backend_status (error : BackendError) self : CommandProcessor * StatusCode :=
  (if bool_decide (error = BeDeviceLost) then require_backend_discard self else self,
   status_from_backend_error error).

Definition discard_report (released : ResourceCounts) (released_bytes : RetainedBytes) self :
    ResetReport := {|
  rr_disposition := ResetBackendDiscardRequired;
  rr_released := released;
  rr_quarantined := ResourceCounts_saturating_add (cp_quarantined self) (resource_counts (cp_state self));
  rr_released_bytes := released_bytes;
  rr_quarantined_bytes :=
    RetainedBytes_saturating_add (cp_quarantined_bytes self) (ds_retained (cp_state self));
|}.

Definition complete_response (r : result Z ResponseWriteError) (status : StatusCode)
    (request_id : Z) (mutated : bool) self :
    CommandProcessor * result CommandOutcome CommandProcessError :=
  match r with
  | Ok used => (self, Ok (OutcomeResponse request_id status used))
  | Err error =>
      (if mutated && bool_decide (cp_health self = Running)
       then set_last_reset None (set_health NeedsReset self) else self,
       Err (ProcessResponseWrite error))
  end.

Section Handlers.
Context {S : Type} `{ByteSink S}.
Implicit Types (response : S).

Abbreviation Handled := (CommandProcessor * S * result CommandOutcome CommandProcessError)%type.

Definition response_writer response self : ResponseWriter S :=
  ResponseWriter_new response (dl_max_response_bytes (fd_limits (cp_decoder self))).

Definition respond_empty response (status : StatusCode) (request_id : Z) (mutated : bool) self : Handled :=
  let '(response, r) :=
    ResponseWriter_write_empty status request_id (response_writer response self) in
  let '(self, r) := complete_response r status request_id mutated self in
  (self, response, r).

Definition respond_bytes response (status : StatusCode) (request_id : Z) (payload : list Z)
    (mutated : bool) self : Handled :=
  let '(response, r) :=
    match ok_or (try_from U64_MAX (zlen payload)) FrameTooLarge with
    | Err e => (response, Err e)
    | Ok payload_bytes =>
        match ResponseWriter_payload payload_bytes (response_writer response self) with
        | Err e => (response, Err e)
        | Ok destination =>
            let '(destination, w) := sink_write_at 0 payload destination in
            match w with
            | Err _ => (rp_sink destination, Err SinkAccess)
            | Ok _ => ResponsePayload_commit status request_id destination
            end
        end
    end in
  let '(self, r) := complete_response r status request_id mutated self in
  (self, response, r).

Definition respond_object response (request_id : Z) id (mutated : bool) self : Handled :=
  respond_bytes response STATUS_OK request_id (as_bytes {| op_object_id := id |}) mutated self.

Definition respond_event_id response (status : StatusCode) (request_id : Z) id (mutated : bool) self :
    Handled :=
  respond_bytes response status request_id (as_bytes {| sp_event_id := id |}) mutated self.

Definition respond_state_error response (request_id : Z) (error : DeviceStateError) self : Handled :=
  respond_empty response (status_from_device_state_error error) request_id false self.

Definition respond_backend_error response (request_id : Z) (error : BackendError) (mutated : bool)
    self : Handled :=
  let '(self, status) := backend_status error self in
  respond_empty response status request_id mutated self.

Definition respond_create_error response (request_id : Z) (error : CreateError BackendError) self :
    Handled :=
  match error with
  | CreateState error => respond_state_error response request_id error self
  | CreateProvider error => respond_backend_error response request_id error false self
  end.

Definition discard_response response (request_id : Z) self : Handled :=
  respond_empty response STATUS_DEVICE_LOST request_id true (require_backend_discard self).

(** ** Destruction *)

Definition destroy_context response (request_id : Z) id self : Handled :=
  let '(st, r) := begin_context_release id (cp_state self) in
  let self := set_state st self in
  match r with
  | Err error => respond_state_error response request_id error self
  | Ok resource =>
      let '(w, r) := acc_destroy_context resource (cp_accelerator self) in
      let self := set_world w self in
      match r with
      | Ok _ =>
          let '(st, r) := commit_context_release id (cp_state self) in
          let self := set_state st self in
          match r with
          | Ok _ => respond_empty response STATUS_OK request_id true self
          | Err _ => discard_response response request_id self
          end
      | Err (ReleaseRejected error resource) =>
          let '(st, r) := restore_context_release id resource (cp_state self) in
          let self := set_state st self in
          match r with
          | Ok _ => respond_backend_error response request_id error false self
          | Err _ => discard_response response request_id self
          end
      | Err (ReleaseIndeterminate _) =>
          let '(st, r) := commit_context_release id (cp_state self) in
          let self := set_state st self in
          let self := if is_ok r
            then set_quarantined (bump_contexts (cp_quarantined self)) (cp_quarantined_bytes self) self
            else self in
          discard_response response request_id self
      end
  end.

Definition free_buffer response (request_id : Z) id self : Handled :=
  match buffer_record id (cp_state self) with
  | Err error => respond_state_error response request_id error self
  | Ok record =>
      let allocation_bytes := bi_allocation_bytes (buf_info record) in
      let '(st, r) := begin_buffer_release id (cp_state self) in
      let self := set_state st self in
      match r with
      | Err error => respond_state_error response request_id error self
      | Ok resource =>
          let '(w, r) := acc_free_buffer resource (cp_accelerator self) in
          let self := set_world w self in
          match r with
          | Ok _ =>
              let '(st, r) := commit_buffer_release id (cp_state self) in
              let self := set_state st self in
              match r with
              | Ok _ => respond_empty response STATUS_OK request_id true self
              | Err _ => discard_response response request_id self
              end
          | Err (ReleaseRejected error resource) =>
              let '(st, r) := restore_buffer_release id resource (cp_state self) in
              let self := set_state st self in
              match r with
              | Ok _ => respond_backend_error response request_id error false self
              | Err _ => discard_response response request_id self
              end
          | Err (ReleaseIndeterminate _) =>
              let '(st, r) := commit_buffer_release id (cp_state self) in
              let self := set_state st self in
              let self := if is_ok r
                then set_quarantined (bump_buffers (cp_quarantined self))
                       (add_backing allocation_bytes (cp_quarantined_bytes self)) self
                else self in
              discard_response response request_id self
          end
      end
  end.

Definition unload_program response (request_id : Z) id self : Handled :=
  match program_record id (cp_state self) with
  | Err error => respond_state_error response request_id error self
  | Ok record =>
      let resident_bytes := prg_resident_bytes record in
      let '(st, r) := begin_program_release id (cp_state self) in
      let self := set_state st self in
      match r with
      | Err error => respond_state_error response request_id error self
      | Ok resource =>
          let '(w, r) := acc_unload_program resource (cp_accelerator self) in
          let self := set_world w self in
          match r with
          | Ok _ =>
              let '(st, r) := commit_program_release id (cp_state self) in
              let self := set_state st self in
              match r with
              | Ok _ => respond_empty response STATUS_OK request_id true self
              | Err _ => discard_response response request_id self
              end
          | Err (ReleaseRejected error resource) =>
              let '(st, r) := restore_program_release id resource (cp_state self) in
              let self := set_state st self in
              match r with
              | Ok _ => respond_backend_error response request_id error false self
              | Err _ => discard_response response request_id self
              end
          | Err (ReleaseIndeterminate _) =>
              let '(st, r) := commit_program_release id (cp_state self) in
              let self := set_state st self in
              let self := if is_ok r
                then set_quarantined (bump_programs (cp_quarantined self))
                       (add_resident resident_bytes (cp_quarantined_bytes self)) self
                else self in
              discard_response response request_id self
          end
      end
  end.

Definition destroy_queue response (request_id : Z) id self : Handled :=
  let '(st, r) := begin_queue_release id (cp_state self) in
  let self := set_state st self in
  match r with
  | Err error => respond_state_error response request_id error self
  | Ok resource =>
      let '(w, r) := acc_destroy_queue resource (cp_accelerator self) in
      let self := set_world w self in
      match r with
      | Ok _ =>
          let '(st, r) := commit_queue_release id (cp_state self) in
          let self := set_state st self in
          match r with
          | Ok _ => respond_empty response STATUS_OK request_id true self
          | Err _ => discard_response response request_id self
          end
      | Err (ReleaseRejected error resource) =>
          let '(st, r) := restore_queue_release id resource (cp_state self) in
          let self := set_state st self in
          match r with
          | Ok _ => respond_backend_error response request_id error false self
          | Err _ => discard_response response request_id self
          end
      | Err (ReleaseIndeterminate _) =>
          let '(st, r) := commit_queue_release id (cp_state self) in
          let self := set_state st self in
          let self := if is_ok r
            then set_quarantined (bump_queues (cp_quarantined self)) (cp_quarantined_bytes self) self
            else self in
          discard_response response request_id self
      end
  end.

(** [release_unpublished_buffer] *)
Definition release_unpublished_buffer response (request_id : Z) (buffer_id : ObjectId)
    (admission_error : BackendError) self : Handled :=
  match buffer_record buffer_id (cp_state self) with
  | Err _ => discard_response response request_id self
  | Ok record =>
      let allocation_bytes := bi_allocation_bytes (buf_info record) in
      let '(st, r) := begin_buffer_release buffer_id (cp_state self) in
      let self := set_state st self in
      match r with
      | Err _ => discard_response response request_id self
      | Ok buffer =>
          let '(w, r) := acc_free_buffer buffer (cp_accelerator self) in
          let self := set_world w self in
          match r with
          | Ok _ =>
              let '(st, r) := commit_buffer_release buffer_id (cp_state self) in
              let self := set_state st self in
              match r with
              | Ok _ => respond_backend_error response request_id admission_error false self
              | Err _ => discard_response response request_id self
              end
          | Err (ReleaseRejected _ resource) =>
              let '(st, _) := restore_buffer_release buffer_id resource (cp_state self) in
              discard_response response request_id (set_state st self)
          | Err (ReleaseIndeterminate _) =>
              let '(st, r) := commit_buffer_release buffer_id (cp_state self) in
              let self := set_state st self in
              let self := if is_ok r
                then set_quarantined (bump_buffers (cp_quarantined self))
                       (add_backing allocation_bytes (cp_quarantined_bytes self)) self
                else self in
              discard_response response request_id self
          end
      end
  end.

(** ** Events *)

(** [self.state.event_record(id).and_then(|record| record.resource())]; the
    two nested matches of the handlers answer the same. *)
Definition event_resource id self : result Event DeviceStateError :=
  let? record := event_record id (cp_state self) in record_resource record.

Definition poll_event response (request_id : Z) (event_id : ObjectId) self : Handled :=
  match event_resource event_id self with
  | Err error => respond_state_error response request_id error self
  | Ok event =>
      let '(w, r) := acc_poll_event event (cp_accelerator self) in
      let self := set_world w self in
      match r with
      | Ok state =>
          let self := if bool_decide (state = EventFailed BeDeviceLost)
            then require_backend_discard self else self in
          respond_bytes response STATUS_OK request_id (as_bytes (wire_event_state state)) false self
      | Err error => respond_backend_error response request_id error false self
      end
  end.

Definition cancel_event response (request_id : Z) (event_id : ObjectId) self : Handled :=
  match validate_event_cancellation (cp_info self) with
  | Err _ => respond_empty response STATUS_UNSUPPORTED request_id false self
  | Ok _ =>
      match event_resource event_id self with
      | Err error => respond_state_error response request_id error self
      | Ok event =>
          let '(w, r) := acc_cancel_event event (cp_accelerator self) in
          let self := set_world w self in
          match r with
          | Ok _ => respond_empty response STATUS_OK request_id true self
          | Err error => respond_backend_error response request_id error false self
          end
      end
  end.

(** The part of [destroy_event] after the poll. *)
Definition release_event response (request_id : Z) (event_id : ObjectId) self : Handled :=
  let '(st, r) := begin_event_release event_id (cp_state self) in
  let self := set_state st self in
  match r with
  | Err error => respond_state_error response request_id error self
  | Ok event =>
      let '(w, r) := acc_destroy_event event (cp_accelerator self) in
      let self := set_world w self in
      match r with
      | Ok _ =>
          let '(st, r) := commit_event_release event_id (cp_state self) in
          let self := set_state st self in
          match r with
          | Ok _ => respond_empty response STATUS_OK request_id true self
          | Err _ => discard_response response request_id self
          end
      | Err (ReleaseRejected error resource) =>
          let '(st, r) := restore_event_release event_id resource (cp_state self) in
          let self := set_state st self in
          match r with
          | Ok _ => respond_backend_error response request_id error false self
          | Err _ => discard_response response request_id self
          end
      | Err (ReleaseIndeterminate _) =>
          let '(st, r) := commit_event_release event_id (cp_state self) in
          let self := set_state st self in
          let self := if is_ok r
            then set_quarantined (bump_events (cp_quarantined self)) (cp_quarantined_bytes self) self
            else self in
          discard_response response request_id self
      end
  end.

Definition destroy_event response (request_id : Z) (event_id : ObjectId) self : Handled :=
  match event_resource event_id self with
  | Err error => respond_state_error response request_id error self
  | Ok event =>
      let '(w, state) := acc_poll_event event (cp_accelerator self) in
      let self := set_world w self in
      match state with
      | Ok EventPending => respond_empty response STATUS_BUSY request_id false self
      | Ok (EventFailed BeDeviceLost) =>
          respond_empty response STATUS_DEVICE_LOST request_id false (require_backend_discard self)
      | Err error => respond_backend_error response request_id error false self
      | Ok (EventComplete | EventFailed _ | EventCancelled) =>
          release_event response request_id event_id self
      end
  end.

(** ** Transfers *)

Definition write_buffer response (request_id : Z) (buffer_id : ObjectId) (range : BufferRange)
    (data : ByteSource) self : Handled :=
  match buffer_record_mut buffer_id (cp_state self) with
  | Err error => respond_state_error response request_id error self
  | Ok (record, put) =>
      match validate_transfer record range TRANSFER_DESTINATION with
      | Err status => respond_empty response status request_id false self
      | Ok _ =>
          match ResourceSlot_get (buf_slot record) with
          | Err error => respond_state_error response request_id error self
          | Ok buffer =>
              let '(w, (buffer, r)) :=
                acc_write_buffer buffer (br_offset range) data (cp_accelerator self) in
              let st := put (rec_with_slot (ResourceSlot_put buffer (buf_slot record)) record) in
              let self := set_world w (set_state st self) in
              match r with
              | Ok _ => respond_empty response STATUS_OK request_id true self
              | Err error => respond_backend_error response request_id error true self
              end
          end
      end
  end.

Definition read_buffer response (request_id : Z) (buffer_id : ObjectId) (range : BufferRange) self :
    Handled :=
  match buffer_record buffer_id (cp_state self) with
  | Err error => respond_state_error response request_id error self
  | Ok record =>
      match validate_transfer record range TRANSFER_SOURCE with
      | Err status => respond_empty response status request_id false self
      | Ok _ =>
          match record_resource record with
          | Err error => respond_state_error response request_id error self
          | Ok buffer =>
              let writer := response_writer response self in
              match ResponseWriter_payload (br_bytes range) writer with
              | Err e => (self, response, Err (ProcessResponseWrite e))
              | Ok payload =>
                  let '(payload, (w, r)) :=
                    run_sink (acc_read_buffer buffer (br_offset range) (sink_len payload)
                                (cp_accelerator self)) payload in
                  let self := set_world w self in
                  match r with
                  | Ok _ =>
                      let '(response, r) := ResponsePayload_commit STATUS_OK request_id payload in
                      let '(self, r) := complete_response r STATUS_OK request_id false self in
                      (self, response, r)
                  | Err error =>
                      let '(self, status) := backend_status error self in
                      let '(response, r) :=
                        ResponseWriter_write_empty status request_id
                          (response_writer (rp_sink payload) self) in
                      let '(self, r) := complete_response r status request_id false self in
                      (self, response, r)
                  end
              end
          end
      end
  end.

(** ** Submission *)

(** The [for binding in &bindings] loop of the admission closure. *)
Fixpoint native_bindings (resources : SubmissionResources Buffer Program Queue)
    (bindings : list DecodedBinding) : result (list (BindingRef Buffer)) SubmitCreateError :=
  match bindings with
  | [] => Ok []
  | binding :: rest =>
      let? (buffer, info) :=
        map_err SubmitState (buffer_with_info_by_id (db_buffer_id binding) resources) in
      let desc := bi_desc info in
      if bd_bytes desc <? BufferRange_end (db_range binding) then
        Err (SubmitValidation STATUS_OUT_OF_BOUNDS)
      else if negb (allows_access desc (db_access binding)) then
        Err (SubmitValidation STATUS_PERMISSION_DENIED)
      else
        let? others := native_bindings resources rest in
        Ok ({| bref_slot := db_slot binding; bref_buffer := buffer; bref_range := db_range binding;
               bref_access := db_access binding |} :: others)
  end.

(** The admission closure; besides the backend it writes the captured
    [admission_status] and [admission_requires_discard]. *)
Definition submit_admission (mem : CommandMemory) (max_bindings : Z) (bindings : list DecodedBinding)
    (timeout : Timeout) (resources : SubmissionResources Buffer Program Queue)
    (w : World * (StatusCode * bool)) :
    World * (StatusCode * bool) * result Event SubmitCreateError :=
  let '(accelerator, admission) := w in
  if negb (cm_native_bindings mem) then (w, Err SubmitOutOfMemory)
  else
    match native_bindings resources bindings with
    | Err e => (w, Err e)
    | Ok native =>
        match validate_bindings native max_bindings with
        | Err error => (w, Err (SubmitValidation (status_from_backend_error error)))
        | Ok _ =>
            let '(accelerator, r) :=
              acc_submit (sub_queue resources) (sub_program resources) native timeout accelerator in
            match r with
            | Ok event => (accelerator, admission, Ok event)
            | Err (SubmitRejected error) => (accelerator, admission, Err (SubmitCreateRejected error))
            | Err (SubmitIndeterminate error event) =>
                (accelerator,
                 (status_from_backend_error error, bool_decide (error = BeDeviceLost)), Ok event)
            end
        end
    end.

Definition submit (mem : CommandMemory) response (request_id : Z) (queue_id program_id : ObjectId)
    (bindings : list DecodedBinding) (timeout : Timeout) self : Handled :=
  if negb (cm_buffer_ids mem) then
    respond_empty response STATUS_OUT_OF_MEMORY request_id false self
  else
    let buffer_ids := map db_buffer_id bindings in
    let max_bindings := max_bindings_per_submission (info_limits (cp_info self)) in
    let '(st, (w, (admission_status, admission_requires_discard)), r) :=
      create_event_with (cm_table mem) queue_id program_id buffer_ids
        (submit_admission mem max_bindings bindings timeout)
        (cp_state self) (cp_accelerator self, (STATUS_OK, false)) in
    let self := set_world w (set_state st self) in
    match r with
    | Ok event_id =>
        let self := if admission_requires_discard then require_backend_discard self else self in
        respond_event_id response admission_status request_id event_id true self
    | Err (CreateState error) => respond_state_error response request_id error self
    | Err (CreateProvider (SubmitCreateRejected error)) =>
        respond_backend_error response request_id error false self
    | Err (CreateProvider SubmitOutOfMemory) =>
        respond_empty response STATUS_OUT_OF_MEMORY request_id false self
    | Err (CreateProvider (SubmitValidation status)) =>
        respond_empty response status request_id false self
    | Err (CreateProvider (SubmitState _)) => discard_response response request_id self
    end.

(** ** Dispatch *)

Definition create_context (mem : CommandMemory) response (request_id : Z) (desc : ContextDesc) self :
    Handled :=
  match validate_context_desc (cp_info self) desc with
  | Err error => respond_backend_error response request_id error false self
  | Ok _ =>
      let '(st, w, r) := create_context_with (cm_table mem) (acc_create_context desc)
                           (cp_state self) (cp_accelerator self) in
      let self := set_world w (set_state st self) in
      match r with
      | Ok id => respond_object response request_id id true self
      | Err error => respond_create_error response request_id error self
      end
  end.

Definition allocate_buffer (mem : CommandMemory) response (request_id : Z) (context_id : ObjectId)
    (desc : BufferDesc) self : Handled :=
  match validate_buffer_desc (cp_info self) desc with
  | Err error => respond_backend_error response request_id error false self
  | Ok _ =>
      let '(st, w, r) := create_buffer_with (cm_table mem) context_id desc acc_allocate_buffer
                           (cp_state self) (cp_accelerator self) in
      let self := set_world w (set_state st self) in
      match r with
      | Ok (BufferAdmitted id) => respond_object response request_id id true self
      | Ok (BufferCleanupRequired id error) =>
          release_unpublished_buffer response request_id id error self
      | Err error => respond_create_error response request_id error self
      end
  end.

Definition load_program (mem : CommandMemory) response (request_id : Z) (context_id : ObjectId)
    (format : Z) (target : list Z) (payload : ReadableRegion) (resident_bytes : Z) self : Handled :=
  let artifact_bytes := rr_len payload in
  let '(st, w, r) :=
    create_program_with (cm_table mem) context_id artifact_bytes resident_bytes
      (fun context => acc_load_program context
         {| ar_format := format; ar_target := target; ar_payload := ReadableRegion_port payload;
            ar_resident_bytes := resident_bytes |})
      (cp_state self) (cp_accelerator self) in
  let self := set_world w (set_state st self) in
  match r with
  | Ok id => respond_object response request_id id true self
  | Err error => respond_create_error response request_id error self
  end.

Definition create_queue (mem : CommandMemory) response (request_id : Z) (context_id : ObjectId)
    (desc : QueueDesc) self : Handled :=
  match validate_queue_desc (cp_info self) desc with
  | Err error => respond_backend_error response request_id error false self
  | Ok _ =>
      let '(st, w, r) := create_queue_with (cm_table mem) context_id
                           (fun context => acc_create_queue context desc)
                           (cp_state self) (cp_accelerator self) in
      let self := set_world w (set_state st self) in
      match r with
      | Ok id => respond_object response request_id id true self
      | Err error => respond_create_error response request_id error self
      end
  end.

(** The arms of the [match] with a body of their own are the four definitions
    above. *)
Definition dispatch (mem : CommandMemory) (request : DecodedRequest) response self : Handled :=
  let request_id := dr_request_id request in
  match dr_body request with
  | ReqGetDeviceInfo =>
      respond_bytes response STATUS_OK request_id (as_bytes (wire_device_info (cp_info self))) false self
  | ReqCreateContext desc => create_context mem response request_id desc self
  | ReqDestroyContext context_id => destroy_context response request_id context_id self
  | ReqAllocateBuffer context_id desc => allocate_buffer mem response request_id context_id desc self
  | ReqFreeBuffer buffer_id => free_buffer response request_id buffer_id self
  | ReqWriteBuffer buffer_id range data =>
      write_buffer response request_id buffer_id range (ReadableRegion_port data) self
  | ReqReadBuffer buffer_id range => read_buffer response request_id buffer_id range self
  | ReqLoadProgram context_id format target payload resident_bytes =>
      load_program mem response request_id context_id format target payload resident_bytes self
  | ReqUnloadProgram program_id => unload_program response request_id program_id self
  | ReqCreateQueue context_id desc => create_queue mem response request_id context_id desc self
  | ReqDestroyQueue queue_id => destroy_queue response request_id queue_id self
  | ReqSubmit queue_id program_id bindings timeout =>
      submit mem response request_id queue_id program_id bindings timeout self
  | ReqPollEvent event_id => poll_event response request_id event_id self
  | ReqCancelEvent event_id => cancel_event response request_id event_id self
  | ReqDestroyEvent event_id => destroy_event response request_id event_id self
  end.

Definition process (mem : CommandMemory) (regions : list ChainRegion) (request : ByteSource)
    response self : Handled :=
  let '(response, r) :=
    preflight_command_frame (cm_decode mem) (cp_decoder self) regions request response in
  match map_err ProcessPreflight r with
  | Err e => (self, response, Err e)
  | Ok (PreflightRejected request_id status used) =>
      (self, response, Ok (OutcomeResponse request_id status used))
  | Ok (PreflightUnusable error) => (self, response, Ok (OutcomeUnusable error))
  | Ok (PreflightReady request) =>
      if negb (bool_decide (cp_health self = Running)) then
        respond_empty response STATUS_DEVICE_LOST (dr_request_id request) false self
      else dispatch mem request response (set_last_reset None self)
  end.

End Handlers.

(** ** Reset *)

(** The mutable state of one reset pass. *)
Record ResetPass := {
  ps_self : CommandProcessor;
  ps_released : ResourceCounts;
  ps_released_bytes : RetainedBytes;
  ps_progress : ResetProgress;
}.

Implicit Types (pass : ResetPass).

Definition pass_state pass : AcceleratorState := cp_state (ps_self pass).

Definition pass_self self pass : ResetPass := {|
  ps_self := self; ps_released := ps_released pass; ps_released_bytes := ps_released_bytes pass;
  ps_progress := ps_progress pass |}.
Definition pass_released (counts : ResourceCounts) (bytes : RetainedBytes) pass : ResetPass := {|
  ps_self := ps_self pass; ps_released := counts; ps_released_bytes := bytes;
  ps_progress := ps_progress pass |}.

(** [progress.backend_reusable = false] and [progress.backend_callable = false] *)
Definition not_reusable pass : ResetPass := {|
  ps_self := ps_self pass; ps_released := ps_released pass; ps_released_bytes := ps_released_bytes pass;
  ps_progress := {| backend_reusable := false;
                    backend_callable := backend_callable (ps_progress pass) |} |}.
Definition not_callable pass : ResetPass := {|
  ps_self := ps_self pass; ps_released := ps_released pass; ps_released_bytes := ps_released_bytes pass;
  ps_progress := {| backend_reusable := backend_reusable (ps_progress pass);
                    backend_callable := false |} |}.
Definition not_callable_if (b : bool) pass : ResetPass := if b then not_callable pass else pass.

Definition set_pass_state (st : AcceleratorState) pass : ResetPass :=
  pass_self (set_state st (ps_self pass)) pass.
Definition set_pass_world (w : World) pass : ResetPass :=
  pass_self (set_world w (ps_self pass)) pass.

Definition is_lost (error : BackendError) : bool := bool_decide (error = BeDeviceLost).

(** Where the loop goes after one iteration. *)
Inductive LoopControl := LoopContinue | LoopBreak.

(** [while let Some((next, id)) = self.state.next_*_id(cursor) { cursor = next; .. }].
    The cursor grows in each iteration and stays within the slots, so their
    number is enough fuel. *)
Fixpoint while_ids (fuel : nat) (next : nat -> AcceleratorState -> option (nat * ObjectId))
    (body : ObjectId -> ResetPass -> ResetPass * LoopControl) (cursor : nat) pass : ResetPass :=
  match fuel with
  | O => pass
  | S fuel =>
      match next cursor (pass_state pass) with
      | None => pass
      | Some (cursor, id) =>
          let '(pass, control) := body id pass in
          match control with
          | LoopBreak => pass
          | LoopContinue => while_ids fuel next body cursor pass
          end
      end
  end.

Definition next_context_id (start : nat) (st : AcceleratorState) := next_id_from start (ds_contexts st).
Definition next_buffer_id (start : nat) (st : AcceleratorState) := next_id_from start (ds_buffers st).
Definition next_program_id (start : nat) (st : AcceleratorState) := next_id_from start (ds_programs st).
Definition next_queue_id (start : nat) (st : AcceleratorState) := next_id_from start (ds_queues st).
Definition next_event_id (start : nat) (st : AcceleratorState) := next_id_from start (ds_events st).

(** The last part of [reset_event]: the release of a terminal event. *)
Definition reset_event_release id pass : ResetPass :=
  let '(st, r) := begin_event_release id (pass_state pass) in
  let pass := set_pass_state st pass in
  match r with
  | Err _ => not_reusable pass
  | Ok event =>
      let '(w, r) := acc_destroy_event event (cp_accelerator (ps_self pass)) in
      let pass := set_pass_world w pass in
      match r with
      | Ok _ =>
          let '(st, r) := commit_event_release id (pass_state pass) in
          let pass := set_pass_state st pass in
          match r with
          | Ok _ => pass_released (bump_events (ps_released pass)) (ps_released_bytes pass) pass
          | Err _ => not_callable (not_reusable pass)
          end
      | Err (ReleaseRejected error resource) =>
          let pass := not_callable_if (is_lost error) (not_reusable pass) in
          let '(st, r) := restore_event_release id resource (pass_state pass) in
          not_callable_if (negb (is_ok r)) (set_pass_state st pass)
      | Err (ReleaseIndeterminate _) => not_callable (not_reusable pass)
      end
  end.

(** [match event_state { .. }] and what follows. *)
Definition reset_event_settled id (event_state : EventState) pass : ResetPass :=
  match event_state with
  | EventPending => not_reusable pass
  | EventFailed BeDeviceLost => not_callable (not_reusable pass)
  | EventComplete | EventFailed _ | EventCancelled => reset_event_release id pass
  end.

Definition reset_event id pass : ResetPass :=
  match event_resource id (ps_self pass) with
  | Err _ => not_reusable pass
  | Ok event =>
      let '(w, r) := acc_poll_event event (cp_accelerator (ps_self pass)) in
      let pass := set_pass_world w pass in
      match r with
      | Err error => not_callable_if (is_lost error) (not_reusable pass)
      | Ok EventPending =>
          if negb (bits_contains (info_capabilities (cp_info (ps_self pass))) EVENT_CANCELLATION) then
            not_reusable pass
          else
            match event_resource id (ps_self pass) with
            | Err _ => not_reusable pass
            | Ok event =>
                let '(w, cancel_result) := acc_cancel_event event (cp_accelerator (ps_self pass)) in
                let pass := set_pass_world w pass in
                match cancel_result with
                | Ok _ => reset_event_settled id EventCancelled pass
                | Err BeBusy =>
                    match event_resource id (ps_self pass) with
                    | Err _ => not_reusable pass
                    | Ok event =>
                        let '(w, r) := acc_poll_event event (cp_accelerator (ps_self pass)) in
                        let pass := set_pass_world w pass in
                        match r with
                        | Ok state => reset_event_settled id state pass
                        | Err error => not_callable_if (is_lost error) (not_reusable pass)
                        end
                    end
                | Err error => not_callable_if (is_lost error) (not_reusable pass)
                end
            end
      | Ok event_state => reset_event_settled id event_state pass
      end
  end.

Definition reset_events_body id pass : ResetPass * LoopControl :=
  if negb (backend_callable (ps_progress pass)) then (pass, LoopBreak)
  else (reset_event id pass, LoopContinue).

Definition reset_events pass : ResetPass :=
  while_ids (S (length (ot_slots (ds_events (pass_state pass))))) next_event_id reset_events_body 0 pass.

Definition reset_queues_body id pass : ResetPass * LoopControl :=
  let '(st, r) := begin_queue_release id (pass_state pass) in
  let pass := set_pass_state st pass in
  match r with
  | Err _ => (not_reusable pass, LoopContinue)
  | Ok queue =>
      let '(w, r) := acc_destroy_queue queue (cp_accelerator (ps_self pass)) in
      let pass := set_pass_world w pass in
      match r with
      | Ok _ =>
          let '(st, r) := commit_queue_release id (pass_state pass) in
          let pass := set_pass_state st pass in
          match r with
          | Ok _ => (pass_released (bump_queues (ps_released pass)) (ps_released_bytes pass) pass,
                     LoopContinue)
          | Err _ => (not_callable (not_reusable pass), LoopBreak)
          end
      | Err (ReleaseRejected error resource) =>
          let pass := not_callable_if (is_lost error) (not_reusable pass) in
          let '(st, r) := restore_queue_release id resource (pass_state pass) in
          let pass := set_pass_state st pass in
          match r with
          | Ok _ => (pass, LoopContinue)
          | Err _ => (not_callable pass, LoopBreak)
          end
      | Err (ReleaseIndeterminate _) => (not_callable (not_reusable pass), LoopBreak)
      end
  end.

Definition reset_queues pass : ResetPass :=
  while_ids (S (length (ot_slots (ds_queues (pass_state pass))))) next_queue_id reset_queues_body 0 pass.

Definition reset_programs_body id pass : ResetPass * LoopControl :=
  match program_record id (pass_state pass) with
  | Err _ => (not_reusable pass, LoopContinue)
  | Ok record =>
      let resident_bytes := prg_resident_bytes record in
      let '(st, r) := begin_program_release id (pass_state pass) in
      let pass := set_pass_state st pass in
      match r with
      | Err _ => (not_reusable pass, LoopContinue)
      | Ok program =>
          let '(w, r) := acc_unload_program program (cp_accelerator (ps_self pass)) in
          let pass := set_pass_world w pass in
          match r with
          | Ok _ =>
              let '(st, r) := commit_program_release id (pass_state pass) in
              let pass := set_pass_state st pass in
              match r with
              | Ok _ => (pass_released (bump_programs (ps_released pass))
                           (add_resident resident_bytes (ps_released_bytes pass)) pass, LoopContinue)
              | Err _ => (not_callable (not_reusable pass), LoopBreak)
              end
          | Err (ReleaseRejected error resource) =>
              let pass := not_callable_if (is_lost error) (not_reusable pass) in
              let '(st, r) := restore_program_release id resource (pass_state pass) in
              let pass := set_pass_state st pass in
              match r with
              | Ok _ => (pass, LoopContinue)
              | Err _ => (not_callable pass, LoopBreak)
              end
          | Err (ReleaseIndeterminate _) => (not_callable (not_reusable pass), LoopBreak)
          end
      end
  end.

Definition reset_programs pass : ResetPass :=
  while_ids (S (length (ot_slots (ds_programs (pass_state pass))))) next_program_id
    reset_programs_body 0 pass.

Definition reset_buffers_body id pass : ResetPass * LoopControl :=
  match buffer_record id (pass_state pass) with
  | Err _ => (not_reusable pass, LoopContinue)
  | Ok record =>
      let allocation_bytes := bi_allocation_bytes (buf_info record) in
      let '(st, r) := begin_buffer_release id (pass_state pass) in
      let pass := set_pass_state st pass in
      match r with
      | Err _ => (not_reusable pass, LoopContinue)
      | Ok buffer =>
          let '(w, r) := acc_free_buffer buffer (cp_accelerator (ps_self pass)) in
          let pass := set_pass_world w pass in
          match r with
          | Ok _ =>
              let '(st, r) := commit_buffer_release id (pass_state pass) in
              let pass := set_pass_state st pass in
              match r with
              | Ok _ => (pass_released (bump_buffers (ps_released pass))
                           (add_backing allocation_bytes (ps_released_bytes pass)) pass, LoopContinue)
              | Err _ => (not_callable (not_reusable pass), LoopBreak)
              end
          | Err (ReleaseRejected error resource) =>
              let pass := not_callable_if (is_lost error) (not_reusable pass) in
              let '(st, r) := restore_buffer_release id resource (pass_state pass) in
              let pass := set_pass_state st pass in
              match r with
              | Ok _ => (pass, LoopContinue)
              | Err _ => (not_callable pass, LoopBreak)
              end
          | Err (ReleaseIndeterminate _) => (not_callable (not_reusable pass), LoopBreak)
          end
      end
  end.

Definition reset_buffers pass : ResetPass :=
  while_ids (S (length (ot_slots (ds_buffers (pass_state pass))))) next_buffer_id
    reset_buffers_body 0 pass.

Definition reset_contexts_body id pass : ResetPass * LoopControl :=
  let '(st, r) := begin_context_release id (pass_state pass) in
  let pass := set_pass_state st pass in
  match r with
  | Err _ => (not_reusable pass, LoopContinue)
  | Ok context =>
      let '(w, r) := acc_destroy_context context (cp_accelerator (ps_self pass)) in
      let pass := set_pass_world w pass in
      match r with
      | Ok _ =>
          let '(st, r) := commit_context_release id (pass_state pass) in
          let pass := set_pass_state st pass in
          match r with
          | Ok _ => (pass_released (bump_contexts (ps_released pass)) (ps_released_bytes pass) pass,
                     LoopContinue)
          | Err _ => (not_callable (not_reusable pass), LoopBreak)
          end
      | Err (ReleaseRejected error resource) =>
          let pass := not_callable_if (is_lost error) (not_reusable pass) in
          let '(st, r) := restore_context_release id resource (pass_state pass) in
          let pass := set_pass_state st pass in
          match r with
          | Ok _ => (pass, LoopContinue)
          | Err _ => (not_callable pass, LoopBreak)
          end
      | Err (ReleaseIndeterminate _) => (not_callable (not_reusable pass), LoopBreak)
      end
  end.

Definition reset_contexts pass : ResetPass :=
  while_ids (S (length (ot_slots (ds_contexts (pass_state pass))))) next_context_id
    reset_contexts_body 0 pass.

(** [if progress.backend_callable { f(..) }] *)
Definition when_callable (f : ResetPass -> ResetPass) pass : ResetPass :=
  if backend_callable (ps_progress pass) then f pass else pass.

(** The pass over the graph, children before parents. *)
Definition reset_pass pass : ResetPass :=
  when_callable reset_contexts (when_callable reset_buffers (when_callable reset_programs
    (when_callable reset_queues (reset_events pass)))).

Definition reset (namespace : Z) self : CommandProcessor * result ResetReport ResetError :=
  if bool_decide (cp_health self = BackendDiscardRequired) then
    match cp_last_reset self with
    | Some report => (self, Ok report)
    | None =>
        let report := discard_report ResourceCounts_default RetainedBytes_default self in
        (set_last_reset (Some report) self, Ok report)
    end
  else if namespace =? ds_namespace (cp_state self) then (self, Err ResetNamespaceReuse)
  else
    let self := set_last_reset None (set_health NeedsReset self) in
    let pass := reset_pass {| ps_self := self; ps_released := ResourceCounts_default;
                              ps_released_bytes := RetainedBytes_default;
                              ps_progress := ResetProgress_default |} in
    let self := ps_self pass in
    let quarantined :=
      ResourceCounts_saturating_add (cp_quarantined self) (resource_counts (cp_state self)) in
    let quarantined_bytes :=
      RetainedBytes_saturating_add (cp_quarantined_bytes self) (ds_retained (cp_state self)) in
    let report disposition := {|
      rr_disposition := disposition; rr_released := ps_released pass; rr_quarantined := quarantined;
      rr_released_bytes := ps_released_bytes pass; rr_quarantined_bytes := quarantined_bytes |} in
    if backend_reusable (ps_progress pass) && DeviceState_is_empty (cp_state self)
       && ResourceCounts_is_empty quarantined && RetainedBytes_is_empty quarantined_bytes then
      match DeviceState_new namespace (info_limits (cp_info self)) (cp_policy self) with
      | Err error => (self, Err (ResetState error))
      | Ok st =>
          (set_last_reset None (set_health Running (set_state st self)),
           Ok (report ResetBackendReusable))
      end
    else
      let self := set_health BackendDiscardRequired self in
      (set_last_reset (Some (report ResetBackendDiscardRequired)) self,
       Ok (report ResetBackendDiscardRequired)).

End Engine.
