(* ===== verification/EngineFacts.v ===== *)
(** * Command processing is safe

    Every command of a running device is answered with one well-formed frame
    inside the response bytes the preflight reserved, drives the object graph
    only through the operations of [DeviceState], and changes the health of
    the device as the protocol allows, whatever the backend answers. *)

From Stdlib Require Import ZArith Lia.
From stdpp Require Import prelude list relations.
From S2P Require Import Prelude Codec Proto Transport Core ObjectTable Regions Response Decoder DecoderSpec Frame State TableFacts ChildInv StateInv StateEvents StateFacts Engine.

(** The fields of [DeviceInfo] have their widths. *)
Definition info_typed (info : DeviceInfo) : Prop :=
  limits_typed (info_limits info) /\ length (di_uuid (info_identity info)) = 16%nat.

(** What the types of a backend's answers say: sizes of 64 bits, device
    information of its field widths. *)
Class BackendTyped (A : Accelerator) : Prop := {
  info_reported : forall w w' info, acc_device_info w = (w', Ok info) -> info_typed info;
  allocation_typed : forall c desc w w' b info, is_u64 (bd_bytes desc) ->
    acc_allocate_buffer c desc w = (w', Ok (b, info)) -> is_u64 (bi_allocation_bytes info);
}.

Section Facts.
Context {A : Accelerator} {S : Type} `{ByteSinkSpec S}.
Implicit Types (self : CommandProcessor) (response : S).

(** The response has room for [need] bytes, which the configuration allows. *)
Record ready self response (need : Z) : Prop := {
  rd_inv : sink_inv response;
  rd_header : 16 <= need;
  rd_room : need <= zlen (sink_content response);
  rd_max : need <= dl_max_response_bytes (fd_limits (cp_decoder self));
  rd_u32 : dl_max_response_bytes (fd_limits (cp_decoder self)) <= U32_MAX;
}.

(** One frame was written at the start, nothing beyond [need] bytes changed. *)
Record answered response response' (need request_id : Z)
    (r : result CommandOutcome CommandProcessError) (status : StatusCode) (payload : list Z) : Prop := {
  an_inv : sink_inv response';
  an_result : r = Ok (OutcomeResponse request_id status (16 + zlen payload));
  an_fits : 16 + zlen payload <= need;
  an_len : zlen (sink_content response') = zlen (sink_content response);
  an_frame : slice 0 (16 + zlen payload) (sink_content response') = response_frame status request_id payload;
  an_rest : forall o n, need <= o -> 0 <= n -> slice o n (sink_content response') = slice o n (sink_content response);
}.

(** How one command moves the processor. *)
Record moved self self' : Prop := {
  mv_steps : rtc state_step (cp_state self) (cp_state self');
  mv_info : cp_info self' = cp_info self;
  mv_policy : cp_policy self' = cp_policy self;
  mv_decoder : cp_decoder self' = cp_decoder self;
  mv_health : cp_health self' = Running \/ cp_health self' = BackendDiscardRequired;
  mv_quarantine : cp_health self' = Running ->
    cp_quarantined self' = cp_quarantined self /\ cp_quarantined_bytes self' = cp_quarantined_bytes self;
}.

(** ** Responses *)

Lemma answered_splice response response' need request_id status payload :
  sink_inv response' -> 16 + zlen payload <= need -> need <= zlen (sink_content response) ->
  sink_content response' = splice 0 (response_frame status request_id payload) (sink_content response) ->
  answered response response' need request_id
    (Ok (OutcomeResponse request_id status (16 + zlen payload))) status payload.
Proof.
  intros Hi Hfit Hroom Hc. pose proof (zlen_response_frame status request_id payload) as Hlen.
  pose proof (zlen_nonneg payload). split; try done.
  - rewrite Hc, zlen_splice; lia.
  - rewrite Hc, <- Hlen. apply slice_splice_eq; lia.
  - intros o n Ho Hn. rewrite Hc. apply slice_splice_ne; lia.
Qed.

Lemma respond_empty_spec response need request_id status mutated self :
  ready self response need ->
  exists response', respond_empty response status request_id mutated self =
      (self, response', Ok (OutcomeResponse request_id status 16)) /\
    answered response response' need request_id (Ok (OutcomeResponse request_id status 16)) status [].
Proof.
  intros [Hi Hh Hr Hm Hu]. unfold respond_empty, response_writer.
  pose proof (write_empty_spec status request_id (dl_max_response_bytes (fd_limits (cp_decoder self))) response Hi) as Hw.
  destruct (ResponseWriter_write_empty _ _ _) as [response' [used|e]].
  - destruct Hw as (_ & -> & Hi' & Hc). simpl. eexists. split; [done|].
    apply (answered_splice response response' need request_id status []); done.
  - destruct Hw as [Hf _]. exfalso. unfold frame_check in Hf. repeat case_match; bool_to_prop; try done; lia.
Qed.

Lemma respond_bytes_spec response need request_id status payload mutated self :
  ready self response need -> 16 + zlen payload <= need ->
  exists response', respond_bytes response status request_id payload mutated self =
      (self, response', Ok (OutcomeResponse request_id status (16 + zlen payload))) /\
    answered response response' need request_id
      (Ok (OutcomeResponse request_id status (16 + zlen payload))) status payload.
Proof.
  intros [Hi Hh Hr Hm Hu] Hfit. pose proof (zlen_nonneg payload). unfold respond_bytes, response_writer, try_from.
  rewrite (proj2 (Z.leb_le (zlen payload) U64_MAX)) by lia. simpl.
  pose proof (payload_spec response (dl_max_response_bytes (fd_limits (cp_decoder self))) (zlen payload) Hi ltac:(lia)) as Hp.
  destruct (ResponseWriter_payload _ _) as [p|e].
  - destruct Hp as (_ & Hpi & ->).
    destruct (payload_commit_spec status request_id payload _ Hpi eq_refl) as (p' & s' & Hw & Hcm & Hi' & Hc).
    simpl in Hw. rewrite Hw, Hcm. simpl. eexists. split; [done|]. apply answered_splice; [done|done|lia|done].
  - exfalso. unfold frame_check in Hp. repeat case_match; bool_to_prop; try done; lia.
Qed.

(** ** Moves of the processor inside a handler *)

(** Only the graph, the backend and the bookkeeping of health changed. *)
Record loose self self' : Prop := {
  lo_steps : rtc state_step (cp_state self) (cp_state self');
  lo_info : cp_info self' = cp_info self;
  lo_policy : cp_policy self' = cp_policy self;
  lo_decoder : cp_decoder self' = cp_decoder self;
}.

(** Only the graph and the backend changed. *)
Record touched self self' : Prop := {
  tc_loose : loose self self';
  tc_health : cp_health self' = cp_health self;
  tc_quarantined : cp_quarantined self' = cp_quarantined self;
  tc_quarantined_bytes : cp_quarantined_bytes self' = cp_quarantined_bytes self;
}.

Lemma loose_refl self : loose self self.
Proof. by split; [apply rtc_refl|..]. Qed.

Lemma loose_trans a b c : loose a b -> loose b c -> loose a c.
Proof. intros [] []. split; [by etrans|congruence..]. Qed.

Lemma touched_refl self : touched self self.
Proof. split; [apply loose_refl|done..]. Qed.

Lemma touched_trans a b c : touched a b -> touched b c -> touched a c.
Proof. intros [] []. split; [by eapply loose_trans|congruence..]. Qed.

Lemma touched_state self st : state_step (cp_state self) st -> touched self (set_state st self).
Proof. intros Hs. split; [split|..]; simpl; try done. by apply rtc_once. Qed.

Lemma touched_world self w : touched self (set_world w self).
Proof. split; [split|..]; simpl; done. Qed.

Lemma touched_set self st w : state_step (cp_state self) st -> touched self (set_world w (set_state st self)).
Proof. intros Hs. eapply touched_trans; [by apply touched_state|apply touched_world]. Qed.

Lemma loose_quarantined self q b : loose self (set_quarantined q b self).
Proof. split; simpl; done. Qed.

Lemma loose_discard self : loose self (require_backend_discard self).
Proof. split; simpl; done. Qed.

Lemma touched_moved self self' : cp_health self = Running -> touched self self' -> moved self self'.
Proof. intros Hh [[] Hh' Hq Hqb]. split; try done. left. congruence. Qed.

Lemma discard_moved self self' : loose self self' -> moved self (require_backend_discard self').
Proof. intros []. split; simpl; try done. by right. Qed.

Lemma ready_loose self self' response need : loose self self' -> ready self response need -> ready self' response need.
Proof. intros [_ _ _ Hd] []. split; try done; by rewrite Hd. Qed.

(** ** What a handler may answer *)

(** A status of the protocol that reports a failure. *)
Definition failing (status : StatusCode) : bool :=
  StatusCode_is_known status && negb (StatusCode_is_success status).

Lemma backend_status_failing e : failing (status_from_backend_error e) = true.
Proof. by destruct e. Qed.

Lemma state_status_failing e : failing (status_from_device_state_error e) = true.
Proof. by destruct e. Qed.

Lemma transfer_status_failing {B} (record : BufferRecord B) range usage status :
  validate_transfer record range usage = Err status -> failing status = true.
Proof. unfold validate_transfer. repeat case_match; by intros [= <-]. Qed.

Lemma live_id_ok {T} (t : ObjectTable T) id r : table_wf t -> lookup_id id t = Some r -> id_ok id.
Proof.
  intros Hwf (i & s & Hs & _ & ->)%lookup_id_spec; [|done].
  pose proof (wf_index _ _ _ Hwf Hs). pose proof (tw_gen _ Hwf _ _ Hs). pose proof (tw_namespace _ Hwf).
  pose proof (tag_range (ot_kind t)). unfold slot_id, id_ok. rewrite ObjectId_new_value by done.
  change GENERATION_MASK with 8191 in *. lia.
Qed.

Lemma inserted_id_ok {T} (t t' : ObjectTable T) id r : inserted t id r t' -> id_ok id.
Proof. intros Hi. eapply live_id_ok; [apply Hi|]. rewrite (in_lookup _ _ _ _ Hi). by rewrite decide_True. Qed.

(** [shape] says which replies a command has; a bare failure always is one. *)
Section Shaped.
Context (shape : StatusCode -> list Z -> Prop).
Context (Hfail : forall status, failing status = true -> shape status []).

#[local] Hint Resolve backend_status_failing state_status_failing : core.
#[local] Hint Extern 0 (shape _ []) => apply Hfail; first [reflexivity|trivial] : core.

Definition good self response (need request_id : Z)
    (res : CommandProcessor * S * result CommandOutcome CommandProcessError) : Prop :=
  let '(self', response', r) := res in
  moved self self' /\ exists status payload,
    answered response response' need request_id r status payload /\ shape status payload.

Section Good.
Context (self : CommandProcessor) (response : S) (need request_id : Z).
Context (Hready : ready self response need) (Hrun : cp_health self = Running).

Lemma good_empty_moved self' status mutated :
  loose self self' -> moved self self' -> shape status [] ->
  good self response need request_id (respond_empty response status request_id mutated self').
Proof.
  intros Hl Hm Hs. destruct (respond_empty_spec response need request_id status mutated self') as (response' & -> & Ha);
    [by eapply ready_loose|]. split; [done|]. by exists status, [].
Qed.

Lemma good_bytes_moved self' status payload mutated :
  loose self self' -> moved self self' -> 16 + zlen payload <= need -> shape status payload ->
  good self response need request_id (respond_bytes response status request_id payload mutated self').
Proof.
  intros Hl Hm Hfit Hs. destruct (respond_bytes_spec response need request_id status payload mutated self')
    as (response' & -> & Ha); [by eapply ready_loose|done|]. split; [done|]. by exists status, payload.
Qed.

Lemma good_empty self' status mutated :
  shape status [] -> touched self self' ->
  good self response need request_id (respond_empty response status request_id mutated self').
Proof. intros Hs Ht. apply good_empty_moved; [apply Ht|by apply touched_moved|done]. Qed.

Lemma good_bytes self' status payload mutated :
  touched self self' -> 16 + zlen payload <= need -> shape status payload ->
  good self response need request_id (respond_bytes response status request_id payload mutated self').
Proof. intros Ht. apply good_bytes_moved; [apply Ht|by apply touched_moved]. Qed.

Lemma good_object self' id mutated :
  touched self self' -> 24 <= need -> shape STATUS_OK (as_bytes {| op_object_id := id |}) ->
  good self response need request_id (respond_object response request_id id mutated self').
Proof. intros Ht Hn Hs. by apply good_bytes. Qed.

Lemma good_discard self' :
  loose self self' -> good self response need request_id (discard_response response request_id self').
Proof.
  intros Hl. apply good_empty_moved; [|by apply discard_moved|done].
  eapply loose_trans; [done|apply loose_discard].
Qed.

Lemma good_state_error self' error :
  touched self self' -> good self response need request_id (respond_state_error response request_id error self').
Proof. intros Ht. by apply good_empty. Qed.

Lemma good_backend_error self' error mutated :
  touched self self' ->
  good self response need request_id (respond_backend_error response request_id error mutated self').
Proof.
  intros Ht. unfold respond_backend_error, backend_status. case_bool_decide; [|by apply good_empty].
  apply good_empty_moved; [|apply discard_moved, Ht|done].
  eapply loose_trans; [apply Ht|apply loose_discard].
Qed.

Lemma good_create_error self' error :
  touched self self' -> good self response need request_id (respond_create_error response request_id error self').
Proof. destruct error; [apply good_state_error|apply good_backend_error]. Qed.

End Good.

Create HintDb engine.
#[local] Hint Resolve good_empty good_object good_discard good_state_error good_backend_error
  good_create_error touched_refl touched_world tc_loose loose_quarantined : engine.
#[local] Hint Constructors state_step : engine.

(** ** The shape all releases share *)

Section Release.
Context {R : Type}.
Context (begin : AcceleratorState -> AcceleratorState * result R DeviceStateError)
  (release : R -> World -> World * result unit (ReleaseFailure R))
  (commit : AcceleratorState -> AcceleratorState * result unit DeviceStateError)
  (restore : R -> AcceleratorState -> AcceleratorState * result unit (RestoreError R))
  (quarantine : CommandProcessor -> CommandProcessor).

Definition release_protocol response (request_id : Z) self :
    CommandProcessor * S * result CommandOutcome CommandProcessError :=
  let '(st, r) := begin (cp_state self) in
  let self := set_state st self in
  match r with
  | Err error => respond_state_error response request_id error self
  | Ok resource =>
      let '(w, r) := release resource (cp_accelerator self) in
      let self := set_world w self in
      match r with
      | Ok _ =>
          let '(st, r) := commit (cp_state self) in
          let self := set_state st self in
          match r with
          | Ok _ => respond_empty response STATUS_OK request_id true self
          | Err _ => discard_response response request_id self
          end
      | Err (ReleaseRejected error resource) =>
          let '(st, r) := restore resource (cp_state self) in
          let self := set_state st self in
          match r with
          | Ok _ => respond_backend_error response request_id error false self
          | Err _ => discard_response response request_id self
          end
      | Err (ReleaseIndeterminate _) =>
          let '(st, r) := commit (cp_state self) in
          let self := set_state st self in
          let self := if is_ok r then quarantine self else self in
          discard_response response request_id self
      end
  end.

Context (Hbegin : forall st, state_step st (begin st).1)
  (Hcommit : forall st, state_step st (commit st).1)
  (Hrestore : forall x st, state_step st (restore x st).1)
  (Hquarantine : forall self, loose self (quarantine self)).

Lemma release_protocol_good self response need request_id :
  ready self response need -> cp_health self = Running -> shape STATUS_OK [] ->
  good self response need request_id (release_protocol response request_id self).
Proof.
  intros Hready Hrun Hok. unfold release_protocol.
  pose proof (Hbegin (cp_state self)) as Hb. destruct (begin (cp_state self)) as [st r]. cbn [fst] in Hb.
  apply touched_state in Hb. destruct r as [resource|e]; [|by apply good_state_error].
  destruct (release resource _) as [w r].
  assert (T : touched self (set_world w (set_state st self))) by (eapply touched_trans; [done|apply touched_world]).
  set (self2 := set_world w (set_state st self)) in *.
  destruct r as [[]|[error x|]].
  - pose proof (Hcommit (cp_state self2)) as Hc. destruct (commit (cp_state self2)) as [st3 r]. cbn [fst] in Hc.
    apply touched_state, (touched_trans _ _ _ T) in Hc. destruct r; [by apply good_empty|].
    apply good_discard; [done|apply Hc].
  - pose proof (Hrestore x (cp_state self2)) as Hc. destruct (restore x (cp_state self2)) as [st3 r]. cbn [fst] in Hc.
    apply touched_state, (touched_trans _ _ _ T) in Hc. destruct r; [by apply good_backend_error|].
    apply good_discard; [done|apply Hc].
  - pose proof (Hcommit (cp_state self2)) as Hc. destruct (commit (cp_state self2)) as [st3 r]. cbn [fst] in Hc.
    apply touched_state, (touched_trans _ _ _ T) in Hc. apply good_discard; [done|].
    destruct (is_ok r); [|apply Hc]. eapply loose_trans; [apply Hc|apply Hquarantine].
Qed.

End Release.

Lemma destroy_context_good self response need request_id id :
  ready self response need -> cp_health self = Running -> shape STATUS_OK [] ->
  good self response need request_id (destroy_context response request_id id self).
Proof.
  intros Hr Hh Hok. apply (release_protocol_good (begin_context_release id) acc_destroy_context
    (commit_context_release id) (restore_context_release id)
    (fun self => set_quarantined (bump_contexts (cp_quarantined self)) (cp_quarantined_bytes self) self));
    try done; intros; auto using loose_quarantined; constructor.
Qed.

Lemma destroy_queue_good self response need request_id id :
  ready self response need -> cp_health self = Running -> shape STATUS_OK [] ->
  good self response need request_id (destroy_queue response request_id id self).
Proof.
  intros Hr Hh Hok. apply (release_protocol_good (begin_queue_release id) acc_destroy_queue
    (commit_queue_release id) (restore_queue_release id)
    (fun self => set_quarantined (bump_queues (cp_quarantined self)) (cp_quarantined_bytes self) self));
    try done; intros; auto using loose_quarantined; constructor.
Qed.

Lemma free_buffer_good self response need request_id id :
  ready self response need -> cp_health self = Running -> shape STATUS_OK [] ->
  good self response need request_id (free_buffer response request_id id self).
Proof.
  intros Hr Hh Hok. unfold free_buffer.
  destruct (buffer_record id (cp_state self)) as [record|]; [|by apply good_state_error, touched_refl].
  apply (release_protocol_good (begin_buffer_release id) acc_free_buffer
    (commit_buffer_release id) (restore_buffer_release id)
    (fun self => set_quarantined (bump_buffers (cp_quarantined self))
       (add_backing (bi_allocation_bytes (buf_info record)) (cp_quarantined_bytes self)) self));
    try done; intros; auto using loose_quarantined; constructor.
Qed.

Lemma unload_program_good self response need request_id id :
  ready self response need -> cp_health self = Running -> shape STATUS_OK [] ->
  good self response need request_id (unload_program response request_id id self).
Proof.
  intros Hr Hh Hok. unfold unload_program.
  destruct (program_record id (cp_state self)) as [record|]; [|by apply good_state_error, touched_refl].
  apply (release_protocol_good (begin_program_release id) acc_unload_program
    (commit_program_release id) (restore_program_release id)
    (fun self => set_quarantined (bump_programs (cp_quarantined self))
       (add_resident (prg_resident_bytes record) (cp_quarantined_bytes self)) self));
    try done; intros; auto using loose_quarantined; constructor.
Qed.

Lemma release_event_good self response need request_id id :
  ready self response need -> cp_health self = Running -> shape STATUS_OK [] ->
  good self response need request_id (release_event response request_id id self).
Proof.
  intros Hr Hh Hok. apply (release_protocol_good (begin_event_release id) acc_destroy_event
    (commit_event_release id) (restore_event_release id)
    (fun self => set_quarantined (bump_events (cp_quarantined self)) (cp_quarantined_bytes self) self));
    try done; intros; auto using loose_quarantined; constructor.
Qed.

(** ** The other commands *)

(** A handler that continues from a touched processor. *)
Lemma good_after self self1 response need request_id res :
  touched self self1 -> cp_health self = Running -> good self1 response need request_id res ->
  good self response need request_id res.
Proof.
  intros [[L1 L2 L3 L4] Hh Hq Hqb] Hrun. destruct res as [[self' response'] r].
  intros [[M1 M2 M3 M4 M5 M6] Ha]. split; [|done]. split; try congruence; try done.
  - by transitivity (cp_state self1).
  - intros Hr. destruct (M6 Hr). split; congruence.
Qed.

Lemma release_unpublished_good self response need request_id id error :
  ready self response need -> cp_health self = Running ->
  good self response need request_id (release_unpublished_buffer response request_id id error self).
Proof.
  intros Hready Hrun. unfold release_unpublished_buffer.
  destruct (buffer_record id (cp_state self)) as [record|]; [|apply good_discard; [done|apply loose_refl]].
  pose proof (step_begin_buffer id (cp_state self)) as Hb.
  destruct (begin_buffer_release id (cp_state self)) as [st r]. cbn [fst] in Hb. apply touched_state in Hb.
  destruct r as [buffer|]; [|apply good_discard; [done|apply Hb]].
  destruct (acc_free_buffer buffer _) as [w r].
  assert (T : touched self (set_world w (set_state st self))) by (eapply touched_trans; [done|apply touched_world]).
  set (self2 := set_world w (set_state st self)) in *.
  destruct r as [[]|[e x|]].
  - pose proof (step_commit_buffer id (cp_state self2)) as Hc.
    destruct (commit_buffer_release id (cp_state self2)) as [st3 r]. cbn [fst] in Hc.
    apply touched_state, (touched_trans _ _ _ T) in Hc. destruct r; [by apply good_backend_error|].
    apply good_discard; [done|apply Hc].
  - pose proof (step_restore_buffer id x (cp_state self2)) as Hc.
    destruct (restore_buffer_release id x (cp_state self2)) as [st3 r]. cbn [fst] in Hc.
    apply touched_state, (touched_trans _ _ _ T) in Hc. apply good_discard; [done|apply Hc].
  - pose proof (step_commit_buffer id (cp_state self2)) as Hc.
    destruct (commit_buffer_release id (cp_state self2)) as [st3 r]. cbn [fst] in Hc.
    apply touched_state, (touched_trans _ _ _ T) in Hc. apply good_discard; [done|].
    destruct (is_ok r); [|apply Hc]. eapply loose_trans; [apply Hc|apply loose_quarantined].
Qed.

Lemma poll_event_good self response need request_id id :
  ready self response need -> cp_health self = Running -> 24 <= need -> (forall state, shape STATUS_OK (as_bytes (wire_event_state state))) ->
  good self response need request_id (poll_event response request_id id self).
Proof.
  intros Hready Hrun Hneed Hok. unfold poll_event.
  destruct (event_resource id self) as [event|]; [|by apply good_state_error, touched_refl].
  destruct (acc_poll_event event _) as [w [state|e]]; [|by apply good_backend_error, touched_world].
  case_bool_decide; [|by apply good_bytes; [done..|apply touched_world|done|done]].
  apply good_bytes_moved; [done| |apply discard_moved, touched_world|done|done].
  eapply loose_trans; [apply (touched_world self w)|apply loose_discard].
Qed.

Lemma cancel_event_good self response need request_id id :
  ready self response need -> cp_health self = Running -> shape STATUS_OK [] ->
  good self response need request_id (cancel_event response request_id id self).
Proof.
  intros Hready Hrun Hok. unfold cancel_event.
  destruct (validate_event_cancellation _); [|by apply good_empty, touched_refl].
  destruct (event_resource id self) as [event|]; [|by apply good_state_error, touched_refl].
  destruct (acc_cancel_event event _) as [w [u|e]]; [by apply good_empty, touched_world|].
  by apply good_backend_error, touched_world.
Qed.

Lemma destroy_event_good self response need request_id id :
  ready self response need -> cp_health self = Running -> shape STATUS_OK [] ->
  good self response need request_id (destroy_event response request_id id self).
Proof.
  intros Hready Hrun Hok. unfold destroy_event.
  destruct (event_resource id self) as [event|]; [|by apply good_state_error, touched_refl].
  destruct (acc_poll_event event _) as [w r]. pose proof (touched_world self w) as T.
  assert (Hrel : good self response need request_id (release_event response request_id id (set_world w self))).
  { eapply good_after; [exact T|done|]. apply release_event_good; [|done..]. eapply ready_loose; [apply T|done]. }
  assert (Hlost : good self response need request_id (respond_empty response STATUS_DEVICE_LOST request_id false
    (require_backend_discard (set_world w self)))).
  { apply good_empty_moved; [done| |apply discard_moved, T|done]. eapply loose_trans; [apply T|apply loose_discard]. }
  destruct r as [state|e]; [|by apply good_backend_error].
  destruct state as [| |[]|]; try done. by apply good_empty.
Qed.

Lemma write_buffer_good self response need request_id id range data :
  ready self response need -> cp_health self = Running -> shape STATUS_OK [] ->
  good self response need request_id (write_buffer response request_id id range data self).
Proof.
  intros Hready Hrun Hok. unfold write_buffer.
  destruct (buffer_record_mut id (cp_state self)) as [[record put]|] eqn:Hm; [|by apply good_state_error, touched_refl].
  destruct (validate_transfer record range TRANSFER_DESTINATION) eqn:Hv;
    [|apply transfer_status_failing in Hv; by apply good_empty, touched_refl].
  unfold ResourceSlot_get. destruct (slot_resource (buf_slot record)) as [buffer|] eqn:Hs;
    [|by apply good_state_error, touched_refl]. cbn [ok_or].
  destruct (acc_write_buffer buffer _ data _) as [w [buffer' r]].
  assert (T : touched self (set_world w (set_state
    (put (rec_with_slot (ResourceSlot_put buffer' (buf_slot record)) record)) self))).
  { apply touched_set. eapply step_store_buffer; [done|]. rewrite Hs. eauto. }
  destruct r; [by apply good_empty|by apply good_backend_error].
Qed.

Lemma slice_app_split {T} n m (l : list T) :
  0 <= n -> 0 <= m -> n + m <= zlen l -> slice 0 (n + m) l = slice 0 n l ++ slice n m l.
Proof. intros. symmetry. apply (slice_app 0 n m l); lia. Qed.

(** A payload that was filled through the guard and committed. *)
Lemma committed_answer response p p' response' need request_id status bytes :
  payload_inv p -> payload_inv p' -> rp_sink p = response -> rp_payload_bytes p = bytes ->
  rp_payload_bytes p' = bytes -> 16 + bytes <= need ->
  zlen (sink_content (rp_sink p')) = zlen (sink_content response) ->
  (forall o n, 0 <= o -> 0 <= n -> o + n <= 16 \/ 16 + bytes <= o ->
     slice o n (sink_content (rp_sink p')) = slice o n (sink_content response)) ->
  sink_inv response' ->
  sink_content response' = splice 0 (as_bytes (ResponseHeader_new status bytes request_id)) (sink_content (rp_sink p')) ->
  let payload := slice 16 bytes (sink_content (rp_sink p')) in
  answered response response' need request_id (Ok (OutcomeResponse request_id status (16 + bytes))) status payload.
Proof.
  intros Hp Hp' Hs Hb Hb' Hneed Hlen Hout Hi Hc payload.
  destruct Hp' as (_ & Hbr & Hu & Hle). rewrite Hb' in *.
  pose proof (zlen_header status request_id bytes) as Hh.
  assert (Hpl : zlen payload = bytes) by (unfold payload; apply zlen_slice; lia).
  assert (Hl' : zlen (sink_content response') = zlen (sink_content response)) by (rewrite Hc, zlen_splice; lia).
  split; rewrite ?Hpl; try done.
  - rewrite slice_app_split by lia. unfold response_frame. f_equal.
    + rewrite Hc, <- Hh at 1. rewrite slice_splice_eq by lia. by rewrite Hpl.
    + unfold payload. rewrite Hc. apply slice_splice_ne; lia.
  - intros o n Ho Hn. rewrite Hc, slice_splice_ne by lia. apply Hout; lia.
Qed.

(** The failing path: the guard's bytes stay, an empty frame goes in front. *)
Lemma failed_read_answer response s1 response' need request_id status :
  16 <= need -> zlen (sink_content s1) = zlen (sink_content response) ->
  (forall o n, need <= o -> 0 <= n -> slice o n (sink_content s1) = slice o n (sink_content response)) ->
  answered s1 response' need request_id (Ok (OutcomeResponse request_id status 16)) status [] ->
  answered response response' need request_id (Ok (OutcomeResponse request_id status 16)) status [].
Proof.
  intros Hn Hlen Hout []. split; try done; [congruence|].
  intros o n Ho Hn'. rewrite an_rest0 by done. auto.
Qed.

Lemma read_buffer_good self response need request_id id range :
  ready self response need -> cp_health self = Running -> 0 < br_bytes range -> 16 + br_bytes range <= need -> 
  (forall payload, zlen payload = br_bytes range -> shape STATUS_OK payload) ->
  good self response need request_id (read_buffer response request_id id range self).
Proof.
  intros Hready Hrun Hpos Hneed Hok. unfold read_buffer.
  destruct (buffer_record id (cp_state self)) as [record|]; [|by apply good_state_error, touched_refl].
  destruct (validate_transfer record range TRANSFER_SOURCE) eqn:Hv;
    [|apply transfer_status_failing in Hv; by apply good_empty, touched_refl].
  destruct (record_resource record) as [buffer|]; [|by apply good_state_error, touched_refl].
  pose proof Hready as [Hi Hh Hr Hm Hu]. unfold response_writer at 1.
  pose proof (payload_spec response (dl_max_response_bytes (fd_limits (cp_decoder self))) (br_bytes range) Hi ltac:(lia)) as Hp.
  destruct (ResponseWriter_payload _ _) as [p|e].
  2:{ exfalso. unfold frame_check in Hp. repeat case_match; bool_to_prop; try done; lia. }
  destruct Hp as (_ & Hpi & Hpe).
  destruct (run_sink _ p) as [p' [w r]] eqn:Hrun'.
  destruct (run_sink_payload _ _ _ _ Hpi Hrun') as (Hpi' & Hb' & Hl' & Hout).
  assert (Hsink : rp_sink p = response) by (by rewrite Hpe).
  assert (Hbytes : rp_payload_bytes p = br_bytes range) by (by rewrite Hpe).
  rewrite Hsink in Hl', Hout. rewrite Hbytes in Hb', Hout.
  pose proof (touched_world self w) as T. destruct r as [u|error].
  - destruct (commit_spec STATUS_OK request_id p' Hpi') as (response' & -> & Hi' & Hc).
    assert (Hused : rp_used p' = 16 + br_bytes range) by (destruct Hpi' as (_ & _ & -> & _); lia).
    rewrite Hb' in Hc. rewrite Hused. simpl. split; [by apply touched_moved|].
    exists STATUS_OK, (slice 16 (br_bytes range) (sink_content (rp_sink p'))). split;
      [|apply Hok, zlen_slice; destruct Hpi' as (_ & _ & _ & Hle); lia].
    apply (committed_answer response p p' response' need request_id STATUS_OK (br_bytes range)); done.
  - destruct (backend_status error (set_world w self)) as [self2 status] eqn:Hbs.
    assert (Hst : failing status = true) by (unfold backend_status in Hbs; by simplify_eq).
    assert (Hl2 : loose self self2 /\ moved self self2).
    { unfold backend_status in Hbs. simplify_eq. case_bool_decide.
      - split; [|apply discard_moved, T]. eapply loose_trans; [apply T|apply loose_discard].
      - split; [apply T|by apply touched_moved]. }
    destruct Hl2 as [Hl2 Hmv].
    assert (Hready2 : ready self2 (rp_sink p') need).
    { destruct (ready_loose _ _ _ _ Hl2 Hready). split; try done; [apply Hpi'|by rewrite Hl']. }
    destruct (respond_empty_spec (rp_sink p') need request_id status false self2 Hready2) as (response' & He & Ha).
    unfold respond_empty in He. destruct (ResponseWriter_write_empty status request_id _) as [s3 r3].
    destruct (complete_response r3 status request_id false self2) as [self3 r4] eqn:Hcr.
    injection He as -> -> ->. split; [done|]. exists status, []. split; [|by apply Hfail].
    eapply failed_read_answer; [done|exact Hl'| |exact Ha]. intros o n Ho Hn. apply Hout; lia.
Qed.

(** What the admission closure establishes of the captured status and of its
    own errors. *)
Definition status_settled (status : StatusCode) : Prop := status = STATUS_OK \/ failing status = true.

Definition error_settled (e : SubmitCreateError) : Prop :=
  match e with SubmitValidation status => failing status = true | _ => True end.

Lemma native_bindings_settled resources bindings e :
  native_bindings resources bindings = Err e -> error_settled e.
Proof.
  revert e. induction bindings as [|b bs IH]; intros e; simpl; [done|].
  destruct (buffer_with_info_by_id _ _) as [[buffer info]|]; simpl; [|by intros [= <-]].
  destruct (_ <? _); [by intros [= <-]|]. destruct (negb _); [by intros [= <-]|].
  destruct (native_bindings resources bs) eqn:Hn; simpl; [done|]. intros [= <-]. by apply IH.
Qed.

Lemma submit_admission_settled mem max bindings timeout resources w status discard w' status' discard' r :
  status_settled status ->
  submit_admission mem max bindings timeout resources (w, (status, discard)) = (w', (status', discard'), r) ->
  status_settled status' /\ forall e, r = Err e -> error_settled e.
Proof.
  intros Hs. unfold submit_admission. destruct (negb _); [intros [= <- <- <- <-]; split; [done|]; by intros ? [= <-]|].
  destruct (native_bindings resources bindings) as [native|] eqn:Hn.
  2:{ intros [= <- <- <- <-]. split; [done|]. intros ? [= <-]. by eapply native_bindings_settled. }
  destruct (validate_bindings native max) as [|error].
  2:{ intros [= <- <- <- <-]. split; [done|]. intros ? [= <-]. apply backend_status_failing. }
  destruct (acc_submit _ _ _ _ _) as [w1 [event|[error|error event]]]; intros [= <- <- <- <-];
    (split; [|by intros ? [= <-]]); try done. right. apply backend_status_failing.
Qed.

(** A property of the world and of the closure's errors that the closure
    keeps is kept by the creation. *)
Lemma create_event_keeps {W PE} (Pw : W -> Prop) (Pe : PE -> Prop) mem q p bs
    (create : SubmissionResources Buffer Program Queue -> W -> W * result Event PE)
    (st : AcceleratorState) w st' w' r :
  (forall resources w w' r, Pw w -> create resources w = (w', r) -> Pw w' /\ forall e, r = Err e -> Pe e) ->
  Pw w -> create_event_with mem q p bs create st w = (st', w', r) ->
  Pw w' /\ forall e, r = Err (CreateProvider e) -> Pe e.
Proof.
  intros Hc Hw. unfold create_event_with.
  destruct (zlen bs =? 0); [by intros [= _ <- <-]|]. destruct (_ <? _); [by intros [= _ <- <-]|].
  destruct (validate_submission q p bs st) as [ctx|]; [|by intros [= _ <- <-]]. unfold admit_event.
  destruct (table_get ctx _); [|by intros [= _ <- <-]]. destruct (_ <=? _); [by intros [= _ <- <-]|].
  destruct (try_reserve_insert _ _); [|by intros [= _ <- <-]].
  destruct (check_reference_increments _ _ _ _); [|by intros [= _ <- <-]].
  destruct (increment_event_references _ _ _ _ _) as [st1 [|]]; [|by intros [= _ <- <-]].
  unfold call_with_submission.
  destruct (let? record := table_get q (ds_queues st1) in record_resource record); [|by intros [= _ <- <-]].
  destruct (let? record := table_get p (ds_programs st1) in record_resource record); [|by intros [= _ <- <-]].
  destruct (create _ w) as [w1 [event|e]] eqn:E; (apply Hc in E as [Hw1 He]; [|done]); cbn [map_err].
  - destruct (insert_prepared _ _). by intros [= _ <- <-].
  - destruct (decrement_event_references _ _ _ _ _) as [st2 [|]]; intros [= _ <- <-]; (split; [done|]); [|done].
    intros e' [= <-]. by apply He.
Qed.

Lemma submit_good mem self response need request_id q p bindings timeout :
  ready self response need -> cp_health self = Running -> 24 <= need -> state_inv (cp_state self) ->
  (forall id status, id_ok id -> status = STATUS_OK \/ failing status = true ->
     shape status (as_bytes {| sp_event_id := id |})) ->
  good self response need request_id (submit mem response request_id q p bindings timeout self).
Proof.
  intros Hready Hrun Hneed Hinv Hok. unfold submit.
  destruct (cm_buffer_ids mem); cbn [negb]; [|by apply good_empty, touched_refl].
  destruct (create_event_with _ _ _ _ _ _ _) as [[st [w [status discard]]] r] eqn:Hc.
  pose proof (fun H1 H2 => create_event_keeps (fun w : World * (StatusCode * bool) => status_settled w.2.1)
    error_settled _ _ _ _ _ _ _ _ _ _ H1 H2 Hc) as Hk.
  destruct Hk as [Hst Her];
    [intros resources [w1 [s1 d1]] [w2 [s2 d2]] r2; apply submit_admission_settled|by left|]. cbn [snd fst] in Hst.
  assert (T : touched self (set_world w (set_state st self))).
  { apply touched_set. eapply step_create_event, Hc. }
  destruct r as [event|[e|[e| |e|e]]];
    [|by apply good_state_error|apply good_discard; [done|apply T]|by apply good_empty|by apply good_backend_error|
     pose proof (Hfail _ (Her _ eq_refl)); by apply good_empty].
  assert (Hid : id_ok event).
  { destruct (create_event_spec _ _ _ _ _ _ _ _ _ _ Hinv Hc) as [_ [ctx (e & Hi & _)]]. by eapply inserted_id_ok. }
  unfold respond_event_id. destruct discard; [|by apply good_bytes; auto].
  apply good_bytes_moved; [done| |apply discard_moved, T|done|by apply Hok].
  eapply loose_trans; [apply T|apply loose_discard].
Qed.

Context `{!BackendTyped A}.

Lemma create_context_good mem self response need request_id desc :
  ready self response need -> cp_health self = Running -> 24 <= need -> state_inv (cp_state self) ->
  (forall id, id_ok id -> shape STATUS_OK (as_bytes {| op_object_id := id |})) ->
  good self response need request_id (create_context mem response request_id desc self).
Proof.
  intros Hready Hrun Hneed Hinv Hok. unfold create_context.
  destruct (validate_context_desc _ desc); [|by apply good_backend_error, touched_refl].
  destruct (create_context_with _ _ _ _) as [[st w] r] eqn:Hc.
  assert (T : touched self (set_world w (set_state st self))) by (apply touched_set; eapply step_create_context, Hc).
  destruct r; [|by apply good_create_error]. apply (create_context_cases _ _ _ _ _ _ _ Hinv) in Hc as (x & t & _ & _ & Hi).
  apply inserted_id_ok in Hi. by apply good_object; auto.
Qed.

Lemma create_queue_good mem self response need request_id ctx desc :
  ready self response need -> cp_health self = Running -> 24 <= need -> state_inv (cp_state self) ->
  (forall id, id_ok id -> shape STATUS_OK (as_bytes {| op_object_id := id |})) ->
  good self response need request_id (create_queue mem response request_id ctx desc self).
Proof.
  intros Hready Hrun Hneed Hinv Hok. unfold create_queue.
  destruct (validate_queue_desc _ desc); [|by apply good_backend_error, touched_refl].
  destruct (create_queue_with _ _ _ _ _) as [[st w] r] eqn:Hc.
  assert (T : touched self (set_world w (set_state st self))) by (apply touched_set; eapply step_create_queue, Hc).
  destruct r; [|by apply good_create_error]. apply (create_queue_cases _ _ _ _ _ _ _ _ Hinv) in Hc as (x & t & _ & _ & Hi & _).
  apply inserted_id_ok in Hi. by apply good_object; auto.
Qed.

Lemma load_program_good mem self response need request_id ctx format target payload resident_bytes :
  ready self response need -> cp_health self = Running -> 24 <= need -> is_u64 resident_bytes -> state_inv (cp_state self) ->
  (forall id, id_ok id -> shape STATUS_OK (as_bytes {| op_object_id := id |})) ->
  good self response need request_id
    (load_program mem response request_id ctx format target payload resident_bytes self).
Proof.
  intros Hready Hrun Hneed Hrb Hinv Hok. unfold load_program.
  destruct (create_program_with _ _ _ _ _ _ _) as [[st w] r] eqn:Hc.
  assert (T : touched self (set_world w (set_state st self))).
  { apply touched_set. eapply step_create_program; [exact Hrb|exact Hc]. }
  destruct r; [|by apply good_create_error].
  apply (create_program_cases _ _ _ _ _ _ _ _ _ _ Hinv Hrb) in Hc as (x & t & _ & _ & Hi & _).
  apply inserted_id_ok in Hi. by apply good_object; auto.
Qed.

Lemma allocate_buffer_good mem self response need request_id ctx desc :
  is_u64 (bd_bytes desc) -> ready self response need -> cp_health self = Running -> 24 <= need -> state_inv (cp_state self) ->
  (forall id, id_ok id -> shape STATUS_OK (as_bytes {| op_object_id := id |})) ->
  good self response need request_id (allocate_buffer mem response request_id ctx desc self).
Proof.
  intros Hu Hready Hrun Hneed Hinv Hok. unfold allocate_buffer.
  destruct (validate_buffer_desc _ desc); [|by apply good_backend_error, touched_refl].
  destruct (create_buffer_with _ _ _ _ _ _) as [[st w] r] eqn:Hc.
  assert (T : touched self (set_world w (set_state st self))).
  { apply touched_set. eapply step_create_buffer; [|exact Hc]. intros *. by apply allocation_typed. }
  destruct r as [[id|id e]|e]; [| |by apply good_create_error].
  { apply (create_buffer_cases _ _ _ _ _ _ _ _ _ Hinv) in Hc as (x & b & info & _ & _ & Hi & _); [|intros *; by apply allocation_typed].
    apply inserted_id_ok in Hi. by apply good_object; auto. }
  eapply good_after; [exact T|done|]. apply release_unpublished_good; [|done]. eapply ready_loose; [apply T|done].
Qed.

End Shaped.

(** ** Dispatch *)

Context `{!BackendTyped A}.

(** The replies each command has. *)
Definition reply_shape (info : DeviceInfo) (body : DecodedRequestBody) (status : StatusCode) (payload : list Z) :
    Prop :=
  failing status = true /\ payload = [] \/
  match body with
  | ReqGetDeviceInfo => status = STATUS_OK /\ payload = as_bytes (wire_device_info info)
  | ReqCreateContext _ | ReqAllocateBuffer _ _ | ReqLoadProgram _ _ _ _ _ | ReqCreateQueue _ _ =>
      status = STATUS_OK /\ exists id, id_ok id /\ payload = as_bytes {| op_object_id := id |}
  | ReqPollEvent _ => status = STATUS_OK /\ exists state, payload = as_bytes (wire_event_state state)
  | ReqReadBuffer _ range => status = STATUS_OK /\ zlen payload = br_bytes range
  | ReqSubmit _ _ _ _ => status_settled status /\ exists id, id_ok id /\ payload = as_bytes {| sp_event_id := id |}
  | _ => status = STATUS_OK /\ payload = []
  end.

Lemma reply_shape_fail info body status : failing status = true -> reply_shape info body status [].
Proof. by left. Qed.

#[local] Hint Resolve reply_shape_fail : core.

Lemma device_info_length info :
  length (di_uuid (info_identity info)) = 16%nat -> zlen (as_bytes (wire_device_info info)) = 76.
Proof.
  intros Hu. unfold zlen, as_bytes. simpl. rewrite !length_app, Hu. done.
Qed.

Lemma dispatch_good mem self response request bytes w req :
  ready self response (success_bytes w) -> cp_health self = Running ->
  source_of request bytes -> request_ok (fd_limits (cp_decoder self)) w ->
  dr_body req = body_of request w ->
  info_typed (cp_info self) -> state_inv (cp_state self) ->
  good (reply_shape (cp_info self) (dr_body req)) self response (success_bytes w) (dr_request_id req)
    (dispatch mem req response self).
Proof.
  intros Hready Hrun Hsrc Hok Hbody [_ Huuid] Hinv. unfold dispatch. rewrite Hbody. clear Hbody.
  destruct w as [| |op id|ctx desc|id off data|id off n|ctx fmt tgt payload rb|ctx|q p bs t]; cbn [body_of].
  - apply good_bytes; [done|done| | |by right]; [apply touched_refl|]. cbn [success_bytes].
    rewrite device_info_length by done. done.
  - apply create_context_good; try done; [auto|]. intros. right. by eauto.
  - destruct Hok as [Hop _].
    destruct op; try (exfalso; by destruct Hop); cbn [object_body default from_option].
    + apply destroy_context_good; try done; [auto|by right].
    + apply free_buffer_good; try done; [auto|by right].
    + apply unload_program_good; try done; [auto|by right].
    + apply destroy_queue_good; try done; [auto|by right].
    + apply poll_event_good; try done; [auto|]. intros. right. split; [done|]. by eexists.
    + apply cancel_event_good; try done; [auto|by right].
    + apply destroy_event_good; try done; [auto|by right].
  - cbn [request_ok] in Hok. apply allocate_buffer_good; try done; [auto|destruct Hok as (_ & ? & _); lia|]. intros. right. by eauto.
  - apply write_buffer_good; try done; [auto|by right].
  - cbn [request_ok] in Hok. destruct Hok as (_ & [_ [Hpos _]] & _). cbn [br_bytes] in Hpos.
    apply read_buffer_good; try done; [auto|by right].
  - cbn [request_ok] in Hok. apply load_program_good; try done; [auto|destruct_and!; lia|]. intros. right. by eauto.
  - apply create_queue_good; try done; [auto|]. intros. right. by eauto.
  - apply submit_good; try done; [auto|]. intros. right. by eauto.
Qed.

(** ** The invariant of the processor *)

Record engine_inv self : Prop := {
  ei_state : state_inv (cp_state self);
  ei_limits : ds_limits (cp_state self) = info_limits (cp_info self);
  ei_policy : ds_policy (cp_state self) = cp_policy self;
  ei_info : info_typed (cp_info self);
  ei_resident : 0 < rp_max_program_resident_bytes (cp_policy self);
  ei_response : 92 <= dl_max_response_bytes (fd_limits (cp_decoder self)) <= U32_MAX;
  ei_renewable : forall namespace, exists st : AcceleratorState,
    DeviceState_new namespace (info_limits (cp_info self)) (cp_policy self) = Ok st;
  ei_clean : cp_health self <> BackendDiscardRequired ->
    cp_quarantined self = ResourceCounts_default /\ cp_quarantined_bytes self = RetainedBytes_default;
}.

Lemma renewable namespace namespace' limits policy (st : AcceleratorState) :
  DeviceState_new namespace limits policy = Ok st ->
  exists st' : AcceleratorState, DeviceState_new namespace' limits policy = Ok st'.
Proof.
  unfold DeviceState_new. intros Hn. repeat case_match; simplify_eq; eauto.
Qed.

Lemma CommandProcessor_new_inv w config namespace policy w' self :
  is_u16 namespace -> 0 < rp_max_program_resident_bytes policy ->
  CommandProcessor_new w config namespace policy = (w', Ok self) ->
  engine_inv self /\ cp_health self = Running /\ DeviceState_is_empty (cp_state self) = true /\
  ds_namespace (cp_state self) = namespace.
Proof.
  intros Hns Hpol. unfold CommandProcessor_new.
  destruct (WireConfig_validate config) as [[]|] eqn:Hcfg; [|done]. apply WireConfig_validate_Ok in Hcfg as (_ & _ & _ & _ & Hrb).
  cbn [map_err]. destruct (acc_device_info w) as [w1 [info|]] eqn:Hinfo; [|done]. cbn [map_err].
  destruct (DeviceInfo_validate info) as [[]|]; [|done]. cbn [map_err].
  destruct (DecoderLimits_new config info) as [limits|] eqn:Hdl; [|done]. cbn [map_err].
  destruct (DeviceState_new namespace (info_limits info) policy) as [st|] eqn:Hst; [|done]. cbn [map_err].
  intros [= <- <-]. pose proof (info_reported _ _ _ Hinfo) as Hty.
  assert (Hmax : dl_max_response_bytes limits = wc_max_response_bytes config).
  { unfold DecoderLimits_new in Hdl. destruct (WireConfig_validate config); [|done]. cbn [map_err] in Hdl.
    repeat case_match; by simplify_eq. }
  pose proof (DeviceState_new_inv _ _ _ _ Hns (proj1 Hty) Hpol Hst) as (Hinv & Hns' & He & Hl & Hp & _).
  split_and!; try done. split; simpl; try done; [rewrite Hmax; lia|]. intros ns. by eapply renewable.
Qed.

(** A moved processor keeps the invariant. *)
Lemma moved_inv self self' : engine_inv self -> cp_health self = Running -> moved self self' -> engine_inv self'.
Proof.
  intros [] Hrun []. destruct (state_steps_inv _ _ mv_steps0 ei_state0) as [Hinv (Hl & Hp & _)].
  split; rewrite ?mv_info0, ?mv_policy0, ?mv_decoder0; try done; [congruence..|].
  intros Hne. destruct mv_health0 as [Hh|]; [|done]. destruct (mv_quarantine0 Hh) as [-> ->].
  apply ei_clean0. by rewrite Hrun.
Qed.

(** ** Processing one command *)

(** Every outcome of [process] on ports that keep their contracts. *)
Lemma process_cases mem regions request bytes response self self' response' r :
  engine_inv self -> source_of request bytes -> sink_inv response ->
  process mem regions request response self = (self', response', r) ->
  sink_inv response' /\ zlen (sink_content response') = zlen (sink_content response) /\
  ((self' = self /\ response' = response /\ exists e, r = Ok (OutcomeUnusable e)) \/
   (self' = self /\ exists request_id status,
      FrameDecoder_decode (cm_decode mem) (cp_decoder self) request (zlen (sink_content response)) =
        Err (DecodeProtocol request_id status) /\
      answered response response' 16 request_id r status []) \/
   (exists req, FrameDecoder_decode (cm_decode mem) (cp_decoder self) request (zlen (sink_content response)) = Ok req /\
      dr_required_response_bytes req <= zlen (sink_content response) /\
      (cp_health self <> Running /\ self' = self /\
         answered response response' 16 (dr_request_id req) r STATUS_DEVICE_LOST [] \/
       cp_health self = Running /\ moved self self' /\
         dispatch mem req response (set_last_reset None self) = (self', response', r) /\
         exists status payload,
           answered response response' (dr_required_response_bytes req) (dr_request_id req) r status payload /\
           reply_shape (cp_info self) (dr_body req) status payload))).
Proof.
  intros Hinv Hsrc Hi. pose proof (ei_response _ Hinv) as Hmax. unfold process.
  destruct (preflight_command_frame _ _ _ _ _) as [response1 r1] eqn:Hpre.
  assert (Hmax' : 16 <= dl_max_response_bytes (fd_limits (cp_decoder self))) by lia.
  destruct (preflight_spec_all _ _ _ _ _ _ _ Hi Hmax' Hpre) as [Hi1 Hr1].
  destruct r1 as [[req|id status used|e]|]; cbn [map_err]; [| | |done].
  - destruct Hr1 as (-> & Hdec & _).
    destruct (decode_frame_sound _ _ _ _ _ _ Hsrc Hdec) as (w & Hw & (_ & Hok & _ & Hfit & Hcap) & Hbody & Hreq).
    assert (Hheader : 16 <= success_bytes w).
    { destruct w; simpl; try lia; [case_decide; lia|]. destruct Hok as (_ & [_ [? _]] & _). simpl in *. lia. }
    case_bool_decide as Hrun; cbn [negb].
    + assert (Hready : ready (set_last_reset None self) response (success_bytes w)) by (split; simpl; auto; lia).
      pose proof (dispatch_good mem (set_last_reset None self) response request bytes w req Hready Hrun Hsrc Hok Hbody
        (ei_info _ Hinv) (ei_state _ Hinv)) as Hgood.
      destruct (dispatch _ _ _ _) as [[self2 response2] r2] eqn:Hd. intros [= <- <- <-].
      destruct Hgood as [Hmv (status & payload & Ha & Hs)]. split; [apply Ha|]. split; [apply Ha|]. right. right.
      exists req. rewrite Hreq. split_and!; try done. right. split_and!; try done; [|by eauto 10].
      destruct Hmv. by split.
    + destruct (respond_empty_spec response 16 (dr_request_id req) STATUS_DEVICE_LOST false self)
        as (response2 & -> & Ha); [split; auto; lia|]. intros [= <- <- <-].
      split; [apply Ha|]. split; [apply Ha|]. right. right. exists req. rewrite Hreq. split_and!; try done. by left.
  - intros [= <- <- <-]. destruct Hr1 as (-> & Hdec & Hc).
    assert (Hcap : 16 <= zlen (sink_content response)) by (by eapply decode_protocol_capacity).
    pose proof (answered_splice response response1 16 id status [] Hi1 ltac:(done) Hcap Hc) as Ha.
    split; [done|]. split; [apply Ha|]. right. left. split; [done|]. by exists id, status.
  - intros [= <- <- <-]. subst response1. split; [done|]. split; [done|]. left. by eauto.
Qed.

End Facts.
