(* ===== verification/ResetFacts.v ===== *)
(** * The reset pass

    The pass visits every occupied slot once, children before parents; it
    accounts for every object and every retained byte as released or still
    held, and with a backend that cooperates it empties the device. *)

From Stdlib Require Import ZArith Lia.
From stdpp Require Import prelude list relations.
From S2P Require Import Prelude Proto Core ObjectTable State TableFacts ChildInv StateInv StateEvents StateFacts Engine EngineFacts.

(** ** Tallies *)

Definition counts_add (a b : ResourceCounts) : ResourceCounts := {|
  rc_contexts := rc_contexts a + rc_contexts b; rc_buffers := rc_buffers a + rc_buffers b;
  rc_programs := rc_programs a + rc_programs b; rc_queues := rc_queues a + rc_queues b;
  rc_events := rc_events a + rc_events b |}.

Definition bytes_add (a b : RetainedBytes) : RetainedBytes := {|
  rb_buffer_backing := rb_buffer_backing a + rb_buffer_backing b;
  rb_program_resident := rb_program_resident a + rb_program_resident b |}.

Definition one_context : ResourceCounts :=
  {| rc_contexts := 1; rc_buffers := 0; rc_programs := 0; rc_queues := 0; rc_events := 0 |}.
Definition one_buffer : ResourceCounts :=
  {| rc_contexts := 0; rc_buffers := 1; rc_programs := 0; rc_queues := 0; rc_events := 0 |}.
Definition one_program : ResourceCounts :=
  {| rc_contexts := 0; rc_buffers := 0; rc_programs := 1; rc_queues := 0; rc_events := 0 |}.
Definition one_queue : ResourceCounts :=
  {| rc_contexts := 0; rc_buffers := 0; rc_programs := 0; rc_queues := 1; rc_events := 0 |}.
Definition one_event : ResourceCounts :=
  {| rc_contexts := 0; rc_buffers := 0; rc_programs := 0; rc_queues := 0; rc_events := 1 |}.

Definition backing_bytes (n : Z) : RetainedBytes := {| rb_buffer_backing := n; rb_program_resident := 0 |}.
Definition resident_bytes_of (n : Z) : RetainedBytes := {| rb_buffer_backing := 0; rb_program_resident := n |}.

Lemma counts_eq a b :
  rc_contexts a = rc_contexts b -> rc_buffers a = rc_buffers b -> rc_programs a = rc_programs b ->
  rc_queues a = rc_queues b -> rc_events a = rc_events b -> a = b.
Proof. destruct a, b. simpl. intros. congruence. Qed.

Lemma bytes_eq a b :
  rb_buffer_backing a = rb_buffer_backing b -> rb_program_resident a = rb_program_resident b -> a = b.
Proof. destruct a, b. simpl. intros. congruence. Qed.

Section Tally.
Context {C B P Q E : Type}.
Implicit Types (st : DeviceState C B P Q E).

(** The objects and bytes of [st'] and the given ones are those of [st]. *)
Definition less st st' (c : ResourceCounts) (b : RetainedBytes) : Prop :=
  counts_add (resource_counts st') c = resource_counts st /\ bytes_add (ds_retained st') b = ds_retained st.

Definition kept st st' : Prop := less st st' ResourceCounts_default RetainedBytes_default.

Lemma kept_intro st st' :
  resource_counts st' = resource_counts st -> ds_retained st' = ds_retained st -> kept st st'.
Proof.
  intros Hc Hb. split; rewrite ?Hc, ?Hb; [apply counts_eq|apply bytes_eq]; simpl; lia.
Qed.

Lemma kept_elim st st' :
  kept st st' -> resource_counts st' = resource_counts st /\ ds_retained st' = ds_retained st.
Proof.
  intros [Hc Hb]. rewrite <- Hc, <- Hb. split; [apply counts_eq|apply bytes_eq]; simpl; lia.
Qed.

Lemma less_after_kept st st1 st2 c b : kept st st1 -> less st1 st2 c b -> less st st2 c b.
Proof. intros [Hc Hb]%kept_elim [Hc' Hb']. split; congruence. Qed.

Lemma slot_change_len {Rec R} `{ResourceRecord Rec R} idle (t t' : ObjectTable Rec) :
  slot_change idle t t' -> ObjectTable_len t' = ObjectTable_len t.
Proof. intros [->|(id & r & s & Hu & _)]; [done|]. apply (up_len _ _ _ _ _ Hu). Qed.

Lemma begin_len {Rec R} `{ResourceRecord Rec R} busy id (t t' : ObjectTable Rec) (res : result R DeviceStateError) :
  table_wf t -> begin_release_in busy id t = (t', res) -> ObjectTable_len t' = ObjectTable_len t.
Proof.
  intros Hwf Hb. apply (slot_change_len (fun r => busy r = false)).
  by eapply begin_release_change.
Qed.

Lemma restore_len {Rec R} `{ResourceRecord Rec R} id (x : R) (t t' : ObjectTable Rec) res :
  table_wf t -> restore_resource id x t = (t', res) -> ObjectTable_len t' = ObjectTable_len t.
Proof.
  intros Hwf Hb. apply (slot_change_len (fun _ => False)). by eapply restore_change.
Qed.

Tactic Notation "kept_tac" uconstr(lem) :=
  match goal with |- context [match ?e with (_, _) => _ end] =>
    let t := fresh "t" in let r := fresh "r" in let Heq := fresh "Heq" in
    destruct e as [t r] eqn:Heq; apply lem in Heq;
      [apply kept_intro; [unfold resource_counts; simpl; by rewrite Heq|done]|
       solve [eauto using si_contexts_wf, si_buffers, si_programs, si_queues, si_events, ci_wf]]
  end.

Lemma begin_context_kept id st : state_inv st -> kept st (begin_context_release id st).1.
Proof. intros Hinv. unfold begin_context_release. kept_tac begin_len. Qed.
Lemma begin_buffer_kept id st : state_inv st -> kept st (begin_buffer_release id st).1.
Proof. intros Hinv. unfold begin_buffer_release. kept_tac begin_len. Qed.
Lemma begin_program_kept id st : state_inv st -> kept st (begin_program_release id st).1.
Proof. intros Hinv. unfold begin_program_release. kept_tac begin_len. Qed.
Lemma begin_queue_kept id st : state_inv st -> kept st (begin_queue_release id st).1.
Proof. intros Hinv. unfold begin_queue_release. kept_tac begin_len. Qed.
Lemma begin_event_kept id st : state_inv st -> kept st (begin_event_release id st).1.
Proof. intros Hinv. unfold begin_event_release. kept_tac begin_len. Qed.
Lemma restore_context_kept id x st : state_inv st -> kept st (restore_context_release id x st).1.
Proof. intros Hinv. unfold restore_context_release. kept_tac restore_len. Qed.
Lemma restore_buffer_kept id x st : state_inv st -> kept st (restore_buffer_release id x st).1.
Proof. intros Hinv. unfold restore_buffer_release. kept_tac restore_len. Qed.
Lemma restore_program_kept id x st : state_inv st -> kept st (restore_program_release id x st).1.
Proof. intros Hinv. unfold restore_program_release. kept_tac restore_len. Qed.
Lemma restore_queue_kept id x st : state_inv st -> kept st (restore_queue_release id x st).1.
Proof. intros Hinv. unfold restore_queue_release. kept_tac restore_len. Qed.
Lemma restore_event_kept id x st : state_inv st -> kept st (restore_event_release id x st).1.
Proof. intros Hinv. unfold restore_event_release. kept_tac restore_len. Qed.

(** ** A begun release commits, and takes exactly its object out *)

Lemma context_release_less id st st1 x :
  state_inv st -> begin_context_release id st = (st1, Ok x) ->
  exists st2, commit_context_release id st1 = (st2, Ok tt) /\ less st st2 one_context RetainedBytes_default.
Proof.
  intros Hinv Hb. pose proof (begin_context_inv id st Hinv) as Hinv1.
  pose proof (begin_context_kept id st Hinv) as Hk. rewrite Hb in Hinv1, Hk. cbn [fst] in *.
  destruct (begin_context_Ok _ _ _ _ Hinv Hb) as (r & Hu & _).
  destruct (commit_context_total id st1 _ Hinv1 (updated_at _ _ _ _ _ Hu) eq_refl) as [st2 Hc]. exists st2. split; [done|].
  destruct (commit_context_cases _ _ _ _ Hinv1 Hc) as [(? & ? & _)|(_ & _ & c & t & Hrm & _ & ->)]; [done|].
  eapply less_after_kept; [done|]. pose proof (rm_len _ _ _ _ Hrm).
  split; [apply counts_eq|apply bytes_eq]; simpl; lia.
Qed.

Lemma queue_release_less id st st1 x :
  state_inv st -> begin_queue_release id st = (st1, Ok x) ->
  exists st2, commit_queue_release id st1 = (st2, Ok tt) /\ less st st2 one_queue RetainedBytes_default.
Proof.
  intros Hinv Hb. pose proof (begin_queue_inv id st Hinv) as Hinv1.
  pose proof (begin_queue_kept id st Hinv) as Hk. rewrite Hb in Hinv1, Hk. cbn [fst] in *.
  destruct (begin_queue_Ok _ _ _ _ Hinv Hb) as (r & Hu & _).
  destruct (commit_queue_total id st1 _ Hinv1 (updated_at _ _ _ _ _ Hu) eq_refl) as [st2 Hc]. exists st2. split; [done|].
  destruct (commit_queue_cases _ _ _ _ Hinv1 Hc)
    as [(? & ? & _)|(_ & _ & [Hl (_ & _ & _ & He)] & c & Hrm & _ & Hr & Hbu & Hp)]; [done|].
  eapply less_after_kept; [done|]. pose proof (rm_len _ _ _ _ Hrm).
  split; [apply counts_eq|apply bytes_eq]; simpl; rewrite ?Hr, ?Hbu, ?Hp, ?He; lia.
Qed.

Lemma program_release_less id st st1 x record :
  state_inv st -> program_record id st = Ok record -> begin_program_release id st = (st1, Ok x) ->
  exists st2, commit_program_release id st1 = (st2, Ok tt) /\
    less st st2 one_program (resident_bytes_of (prg_resident_bytes record)).
Proof.
  intros Hinv Hrec Hb. pose proof (begin_program_inv id st Hinv) as Hinv1. apply table_get_Ok in Hrec.
  pose proof (begin_program_kept id st Hinv) as Hk. rewrite Hb in Hinv1, Hk. cbn [fst] in *.
  destruct (begin_program_Ok _ _ _ _ Hinv Hb) as (r & Hu & _).
  pose proof (up_at _ _ _ _ _ Hu). assert (r = record) by congruence. subst r.
  destruct (commit_program_total id st1 _ Hinv1 (updated_at _ _ _ _ _ Hu) eq_refl) as [st2 Hc]. exists st2. split; [done|].
  destruct (commit_program_cases _ _ _ _ Hinv1 Hc)
    as [(? & ? & _)|(_ & _ & [Hl (_ & _ & _ & He)] & c & Hrm & _ & Hr & Hrb & Hbu & Hq)]; [done|].
  pose proof (updated_removed_at _ _ _ _ _ _ _ Hu Hrm). subst c. simpl in Hr.
  eapply less_after_kept; [done|]. pose proof (rm_len _ _ _ _ Hrm).
  split; [apply counts_eq|apply bytes_eq]; simpl; rewrite ?Hr, ?Hrb, ?Hbu, ?Hq, ?He; lia.
Qed.

Lemma buffer_release_less id st st1 x record :
  state_inv st -> buffer_record id st = Ok record -> begin_buffer_release id st = (st1, Ok x) ->
  exists st2, commit_buffer_release id st1 = (st2, Ok tt) /\
    less st st2 one_buffer (backing_bytes (bi_allocation_bytes (buf_info record))).
Proof.
  intros Hinv Hrec Hb. pose proof (begin_buffer_inv id st Hinv) as Hinv1. apply table_get_Ok in Hrec.
  pose proof (begin_buffer_kept id st Hinv) as Hk. rewrite Hb in Hinv1, Hk. cbn [fst] in *.
  destruct (begin_buffer_Ok _ _ _ _ Hinv Hb) as (r & Hu & _).
  pose proof (up_at _ _ _ _ _ Hu). assert (r = record) by congruence. subst r.
  destruct (commit_buffer_total id st1 _ Hinv1 (updated_at _ _ _ _ _ Hu) eq_refl) as [st2 Hc]. exists st2. split; [done|].
  destruct (commit_buffer_cases _ _ _ _ Hinv1 Hc)
    as [(? & ? & _)|(_ & _ & [Hl (_ & _ & _ & He)] & c & Hrm & _ & Hr & Hrb & Hp & Hq)]; [done|].
  pose proof (updated_removed_at _ _ _ _ _ _ _ Hu Hrm). subst c. simpl in Hr.
  eapply less_after_kept; [done|]. pose proof (rm_len _ _ _ _ Hrm).
  split; [apply counts_eq|apply bytes_eq]; simpl; rewrite ?Hr, ?Hrb, ?Hp, ?Hq, ?He; lia.
Qed.

Lemma event_release_less id st st1 x :
  state_inv st -> begin_event_release id st = (st1, Ok x) ->
  exists st2, commit_event_release id st1 = (st2, Ok tt) /\ less st st2 one_event RetainedBytes_default.
Proof.
  intros Hinv Hb. pose proof (begin_event_inv id st Hinv) as Hinv1.
  pose proof (begin_event_kept id st Hinv) as Hk. rewrite Hb in Hinv1, Hk. cbn [fst] in *.
  destruct (begin_event_Ok _ _ _ _ Hinv Hb) as (r & Hu & _).
  destruct (commit_event_total id st1 _ Hinv1 (updated_at _ _ _ _ _ Hu) eq_refl) as [st2 Hc]. exists st2. split; [done|].
  destruct (commit_event_cases _ _ _ _ Hinv1 Hc)
    as [(? & ? & _)|(_ & _ & e & Hrm & _ & Hlc & Hlb & Hlp & Hlq & Hr & _)]; [done|].
  eapply less_after_kept; [done|]. pose proof (rm_len _ _ _ _ Hrm).
  split; [apply counts_eq|apply bytes_eq]; simpl; rewrite ?Hr; lia.
Qed.

End Tally.

(** ** The invariant of the pass *)

Section Pass.
Context {A : Accelerator}.
Implicit Types (self : CommandProcessor) (pass : ResetPass).

(** Relative to the processor [self] the pass started from. *)
Record pass_ok self pass : Prop := {
  po_steps : rtc state_step (cp_state self) (pass_state pass);
  po_less : less (cp_state self) (pass_state pass) (ps_released pass) (ps_released_bytes pass);
  po_released : 0 <= rc_contexts (ps_released pass) /\ 0 <= rc_buffers (ps_released pass) /\
    0 <= rc_programs (ps_released pass) /\ 0 <= rc_queues (ps_released pass) /\
    0 <= rc_events (ps_released pass);
  po_released_bytes : 0 <= rb_buffer_backing (ps_released_bytes pass) /\
    0 <= rb_program_resident (ps_released_bytes pass);
  po_info : cp_info (ps_self pass) = cp_info self;
  po_policy : cp_policy (ps_self pass) = cp_policy self;
  po_decoder : cp_decoder (ps_self pass) = cp_decoder self;
  po_health : cp_health (ps_self pass) = cp_health self;
  po_quarantined : cp_quarantined (ps_self pass) = cp_quarantined self /\
    cp_quarantined_bytes (ps_self pass) = cp_quarantined_bytes self;
}.

Lemma pass_inv self pass : state_inv (cp_state self) -> pass_ok self pass -> state_inv (pass_state pass).
Proof. intros Hinv Hok. by destruct (state_steps_inv _ _ (po_steps _ _ Hok) Hinv). Qed.

Lemma pass_ok_start self :
  pass_ok self {| ps_self := self; ps_released := ResourceCounts_default;
                  ps_released_bytes := RetainedBytes_default; ps_progress := ResetProgress_default |}.
Proof. split; simpl; try done. by apply kept_intro. Qed.

(** Progress flags are no part of it. *)
Lemma pass_ok_progress self pass progress :
  pass_ok self pass ->
  pass_ok self {| ps_self := ps_self pass; ps_released := ps_released pass;
                  ps_released_bytes := ps_released_bytes pass; ps_progress := progress |}.
Proof. by intros []; split. Qed.

Lemma pass_ok_not_reusable self pass : pass_ok self pass -> pass_ok self (not_reusable pass).
Proof. apply pass_ok_progress. Qed.

Lemma pass_ok_not_callable self pass : pass_ok self pass -> pass_ok self (not_callable pass).
Proof. apply pass_ok_progress. Qed.

Lemma pass_ok_not_callable_if self pass b : pass_ok self pass -> pass_ok self (not_callable_if b pass).
Proof. destruct b; [apply pass_ok_not_callable|done]. Qed.

Lemma pass_ok_world self pass w : pass_ok self pass -> pass_ok self (set_pass_world w pass).
Proof. by intros []; split. Qed.

Lemma less_trans_kept {C B P Q E} (st st1 st2 : DeviceState C B P Q E) c b :
  less st st1 c b -> kept st1 st2 -> less st st2 c b.
Proof. intros [Hc Hb] [Hc' Hb']%kept_elim. split; congruence. Qed.

Lemma pass_ok_kept self pass st :
  pass_ok self pass -> state_step (pass_state pass) st -> kept (pass_state pass) st ->
  pass_ok self (set_pass_state st pass).
Proof.
  intros [] Hs Hk. split; simpl; try done; [by eapply rtc_r|by eapply less_trans_kept].
Qed.

(** Bounds on tallies; what the state holds stays far from the widths. *)
Definition small_counts (c : ResourceCounts) : Prop :=
  is_u32 (rc_contexts c) /\ is_u32 (rc_buffers c) /\ is_u32 (rc_programs c) /\ is_u32 (rc_queues c) /\
  is_u32 (rc_events c).
Definition small_bytes (b : RetainedBytes) : Prop :=
  0 <= rb_buffer_backing b <= U64_MAX * U32_MAX /\ 0 <= rb_program_resident b <= U64_MAX * U32_MAX.

Lemma state_counts_small (st : AcceleratorState) : state_inv st -> small_counts (resource_counts st).
Proof.
  intros []. unfold small_counts. simpl.
  pose proof (len_bounds _ si_contexts_wf). pose proof (tw_max _ si_contexts_wf).
  pose proof (len_bounds _ (ci_wf _ _ _ _ _ si_buffers)). pose proof (tw_max _ (ci_wf _ _ _ _ _ si_buffers)).
  pose proof (len_bounds _ (ci_wf _ _ _ _ _ si_programs)). pose proof (tw_max _ (ci_wf _ _ _ _ _ si_programs)).
  pose proof (len_bounds _ (ci_wf _ _ _ _ _ si_queues)). pose proof (tw_max _ (ci_wf _ _ _ _ _ si_queues)).
  pose proof (len_bounds _ (ci_wf _ _ _ _ _ si_events)). pose proof (tw_max _ (ci_wf _ _ _ _ _ si_events)).
  lia.
Qed.

Lemma state_bytes_small (st : AcceleratorState) : state_inv st -> small_bytes (ds_retained st).
Proof.
  intros []. pose proof (charge_bound _ _ _ _ _ si_buffers) as H1. rewrite <- si_backing in H1.
  pose proof (charge_bound _ _ _ _ _ si_programs) as H2. rewrite <- si_resident in H2. done.
Qed.

Lemma less_small (st st' : AcceleratorState) c b :
  state_inv st -> state_inv st' -> less st st' c b ->
  rc_contexts c <= U32_MAX /\ rc_buffers c <= U32_MAX /\ rc_programs c <= U32_MAX /\
  rc_queues c <= U32_MAX /\ rc_events c <= U32_MAX /\
  rb_buffer_backing b <= U64_MAX * U32_MAX /\ rb_program_resident b <= U64_MAX * U32_MAX.
Proof.
  intros Hinv Hinv' [Hc Hb]. pose proof (state_counts_small _ Hinv) as H1. pose proof (state_counts_small _ Hinv') as H2.
  pose proof (state_bytes_small _ Hinv) as H3. pose proof (state_bytes_small _ Hinv') as H4.
  unfold small_counts, small_bytes in *. rewrite <- Hc in H1. rewrite <- Hb in H3. simpl in *. lia.
Qed.

Lemma pass_small self pass :
  state_inv (cp_state self) -> pass_ok self pass ->
  small_counts (ps_released pass) /\ small_bytes (ps_released_bytes pass).
Proof.
  intros Hinv Hok. pose proof (less_small _ _ _ _ Hinv (pass_inv _ _ Hinv Hok) (po_less _ _ Hok)).
  destruct Hok. unfold small_counts, small_bytes. lia.
Qed.

Lemma less_more {C B P Q E} (st st1 st2 : DeviceState C B P Q E) c b c' b' :
  less st st1 c b -> less st1 st2 c' b' -> less st st2 (counts_add c c') (bytes_add b b').
Proof.
  intros [Hc Hb] [Hc' Hb']. rewrite <- Hc' in Hc. rewrite <- Hb' in Hb. split.
  - rewrite <- Hc. apply counts_eq; simpl; lia.
  - rewrite <- Hb. apply bytes_eq; simpl; lia.
Qed.

(** How [released] and [released_bytes] count one object of the kind [one]. *)
Record counts_one (one : ResourceCounts) (bytes : RetainedBytes)
    (bump : ResourceCounts -> ResourceCounts) (add : RetainedBytes -> RetainedBytes) : Prop := {
  co_counts : forall c, small_counts c -> bump c = counts_add c one;
  co_bytes : forall b, small_bytes b -> add b = bytes_add b bytes;
  co_nonneg : 0 <= rc_contexts one /\ 0 <= rc_buffers one /\ 0 <= rc_programs one /\
    0 <= rc_queues one /\ 0 <= rc_events one /\
    0 <= rb_buffer_backing bytes /\ 0 <= rb_program_resident bytes;
}.

Ltac counts_one_tac :=
  split; [intros c Hc; unfold small_counts in Hc; apply counts_eq; simpl; unfold wrapping_add;
            rewrite ?Z.mod_small by lia; lia|
          intros b Hb; unfold small_bytes in Hb; apply bytes_eq; simpl; unfold wrapping_add;
            rewrite ?Z.mod_small by lia; lia|
          simpl; lia].

Lemma count_contexts : counts_one one_context RetainedBytes_default bump_contexts (fun b => b).
Proof. counts_one_tac. Qed.
Lemma count_queues : counts_one one_queue RetainedBytes_default bump_queues (fun b => b).
Proof. counts_one_tac. Qed.
Lemma count_events : counts_one one_event RetainedBytes_default bump_events (fun b => b).
Proof. counts_one_tac. Qed.
Lemma count_buffers n : is_u64 n -> counts_one one_buffer (backing_bytes n) bump_buffers (add_backing n).
Proof. intros Hn. counts_one_tac. Qed.
Lemma count_programs n : is_u64 n -> counts_one one_program (resident_bytes_of n) bump_programs (add_resident n).
Proof. intros Hn. counts_one_tac. Qed.

Lemma pass_ok_credit self pass st st2 one bytes bump add :
  state_inv (cp_state self) -> pass_ok self pass -> counts_one one bytes bump add ->
  pass_state pass = st -> rtc state_step st st2 -> less st st2 one bytes ->
  pass_ok self (pass_released (bump (ps_released pass)) (add (ps_released_bytes pass)) (set_pass_state st2 pass)).
Proof.
  intros Hinv Hok Hone Hst Hs Hl. destruct (pass_small _ _ Hinv Hok) as [Hc Hb].
  destruct Hone as [H1 H2 Hn]. destruct Hok. subst st. split; simpl; try done.
  - by transitivity (pass_state pass).
  - rewrite H1, H2 by done. by eapply less_more.
  - rewrite H1 by done. simpl. lia.
  - rewrite H2 by done. simpl. lia.
Qed.

(** ** The shape of one release in the pass *)

Section Body.
Context {R : Type}.
Context (begin : AcceleratorState -> AcceleratorState * result R DeviceStateError)
  (release : R -> World -> World * result unit (ReleaseFailure R))
  (commit : AcceleratorState -> AcceleratorState * result unit DeviceStateError)
  (restore : R -> AcceleratorState -> AcceleratorState * result unit (RestoreError R))
  (bump : ResourceCounts -> ResourceCounts) (add : RetainedBytes -> RetainedBytes).

Definition reset_protocol pass : ResetPass * LoopControl :=
  let '(st, r) := begin (pass_state pass) in
  let pass := set_pass_state st pass in
  match r with
  | Err _ => (not_reusable pass, LoopContinue)
  | Ok resource =>
      let '(w, r) := release resource (cp_accelerator (ps_self pass)) in
      let pass := set_pass_world w pass in
      match r with
      | Ok _ =>
          let '(st, r) := commit (pass_state pass) in
          let pass := set_pass_state st pass in
          match r with
          | Ok _ => (pass_released (bump (ps_released pass)) (add (ps_released_bytes pass)) pass, LoopContinue)
          | Err _ => (not_callable (not_reusable pass), LoopBreak)
          end
      | Err (ReleaseRejected error resource) =>
          let pass := not_callable_if (is_lost error) (not_reusable pass) in
          let '(st, r) := restore resource (pass_state pass) in
          let pass := set_pass_state st pass in
          match r with
          | Ok _ => (pass, LoopContinue)
          | Err _ => (not_callable pass, LoopBreak)
          end
      | Err (ReleaseIndeterminate _) => (not_callable (not_reusable pass), LoopBreak)
      end
  end.

(** What the pass needs to know of the operations on one object of [st]. *)
Record releasable (st : AcceleratorState) (one : ResourceCounts) (bytes : RetainedBytes) : Prop := {
  re_begin : state_step st (begin st).1 /\ kept st (begin st).1;
  re_commit : forall st1 x, begin st = (st1, Ok x) -> state_step st1 (commit st1).1 /\
    exists st2, commit st1 = (st2, Ok tt) /\ less st st2 one bytes;
  re_restore : forall st1 x, state_inv st1 -> state_step st1 (restore x st1).1 /\ kept st1 (restore x st1).1;
  re_counts : counts_one one bytes bump add;
}.

Lemma reset_protocol_ok self pass one bytes :
  state_inv (cp_state self) -> pass_ok self pass -> releasable (pass_state pass) one bytes ->
  pass_ok self (reset_protocol pass).1.
Proof.
  intros Hinv Hok [[Hs1 Hk1] Hcommit Hrestore Hone]. unfold reset_protocol.
  destruct (begin (pass_state pass)) as [st1 r] eqn:Hb. cbn [fst] in *.
  assert (Hok1 : pass_ok self (set_pass_state st1 pass)) by (by apply pass_ok_kept).
  destruct r as [x|e]; [|by apply pass_ok_not_reusable].
  destruct (release x _) as [w r].
  assert (Hok2 : pass_ok self (set_pass_world w (set_pass_state st1 pass))) by (by apply pass_ok_world).
  destruct r as [[]|[error y|]].
  - destruct (Hcommit _ _ eq_refl) as (Hs2 & st2 & Hc & Hl).
    change (pass_state (set_pass_world w (set_pass_state st1 pass))) with st1. rewrite Hc in *. cbn [fst] in *.
    apply (pass_ok_credit self (set_pass_world w pass) (pass_state pass) st2 one bytes bump add Hinv); try done.
    + by apply pass_ok_world.
    + eapply rtc_l; [exact Hs1|by apply rtc_once].
  - set (pass2 := not_callable_if _ _).
    assert (Hok3 : pass_ok self pass2) by (by apply pass_ok_not_callable_if, pass_ok_not_reusable).
    destruct (Hrestore (pass_state pass2) y (pass_inv _ _ Hinv Hok3)) as [Hs2 Hk2].
    destruct (restore y (pass_state pass2)) as [st2 r]. cbn [fst] in *.
    assert (pass_ok self (set_pass_state st2 pass2)) by (by apply pass_ok_kept).
    destruct r; [done|by apply pass_ok_not_callable].
  - by apply pass_ok_not_callable, pass_ok_not_reusable.
Qed.

(** With an object that can be released and a backend that releases it. *)
Lemma reset_protocol_done pass one bytes st1 x w :
  releasable (pass_state pass) one bytes -> begin (pass_state pass) = (st1, Ok x) ->
  release x (cp_accelerator (ps_self pass)) = (w, Ok tt) ->
  exists st2, commit st1 = (st2, Ok tt) /\
    (reset_protocol pass).2 = LoopContinue /\ ps_progress (reset_protocol pass).1 = ps_progress pass /\
    pass_state (reset_protocol pass).1 = st2 /\ cp_accelerator (ps_self (reset_protocol pass).1) = w.
Proof.
  intros [_ Hcommit _ _] Hb Hr. destruct (Hcommit _ _ Hb) as (_ & st2 & Hc & _).
  exists st2. unfold reset_protocol. rewrite Hb.
  change (cp_accelerator (ps_self (set_pass_state st1 pass))) with (cp_accelerator (ps_self pass)). rewrite Hr.
  change (pass_state (set_pass_world w (set_pass_state st1 pass))) with st1. rewrite Hc. done.
Qed.

End Body.

Lemma context_releasable id (st : AcceleratorState) :
  state_inv st -> releasable (begin_context_release id) (commit_context_release id) (restore_context_release id)
    bump_contexts (fun b => b) st one_context RetainedBytes_default.
Proof.
  intros Hinv. split.
  - split; [constructor|by apply begin_context_kept].
  - intros st1 x Hb. split; [constructor|by eapply context_release_less].
  - intros st1 x Hinv1. split; [constructor|by apply restore_context_kept].
  - apply count_contexts.
Qed.

Lemma queue_releasable id (st : AcceleratorState) :
  state_inv st -> releasable (begin_queue_release id) (commit_queue_release id) (restore_queue_release id)
    bump_queues (fun b => b) st one_queue RetainedBytes_default.
Proof.
  intros Hinv. split.
  - split; [constructor|by apply begin_queue_kept].
  - intros st1 x Hb. split; [constructor|by eapply queue_release_less].
  - intros st1 x Hinv1. split; [constructor|by apply restore_queue_kept].
  - apply count_queues.
Qed.

Lemma event_releasable id (st : AcceleratorState) :
  state_inv st -> releasable (begin_event_release id) (commit_event_release id) (restore_event_release id)
    bump_events (fun b => b) st one_event RetainedBytes_default.
Proof.
  intros Hinv. split.
  - split; [constructor|by apply begin_event_kept].
  - intros st1 x Hb. split; [constructor|by eapply event_release_less].
  - intros st1 x Hinv1. split; [constructor|by apply restore_event_kept].
  - apply count_events.
Qed.

Lemma program_releasable id (st : AcceleratorState) record :
  state_inv st -> program_record id st = Ok record ->
  releasable (begin_program_release id) (commit_program_release id) (restore_program_release id)
    bump_programs (add_resident (prg_resident_bytes record)) st one_program
    (resident_bytes_of (prg_resident_bytes record)).
Proof.
  intros Hinv Hr. split.
  - split; [constructor|by apply begin_program_kept].
  - intros st1 x Hb. split; [constructor|by eapply program_release_less].
  - intros st1 x Hinv1. split; [constructor|by apply restore_program_kept].
  - apply table_get_Ok in Hr. apply count_programs.
    apply (ro_charge _ _ _ _ _ (ci_rec _ _ _ _ _ (si_programs _ Hinv) _ _ Hr)).
Qed.

Lemma buffer_releasable id (st : AcceleratorState) record :
  state_inv st -> buffer_record id st = Ok record ->
  releasable (begin_buffer_release id) (commit_buffer_release id) (restore_buffer_release id)
    bump_buffers (add_backing (bi_allocation_bytes (buf_info record))) st one_buffer
    (backing_bytes (bi_allocation_bytes (buf_info record))).
Proof.
  intros Hinv Hr. split.
  - split; [constructor|by apply begin_buffer_kept].
  - intros st1 x Hb. split; [constructor|by eapply buffer_release_less].
  - intros st1 x Hinv1. split; [constructor|by apply restore_buffer_kept].
  - apply table_get_Ok in Hr. apply count_buffers.
    apply (ro_charge _ _ _ _ _ (ci_rec _ _ _ _ _ (si_buffers _ Hinv) _ _ Hr)).
Qed.

(** ** The bodies of the five loops *)

Lemma reset_event_release_protocol id pass :
  reset_event_release id pass =
    (reset_protocol (begin_event_release id) acc_destroy_event (commit_event_release id)
       (restore_event_release id) bump_events (fun b => b) pass).1.
Proof.
  unfold reset_event_release, reset_protocol.
  destruct (begin_event_release id (pass_state pass)) as [st [x|]]; [|done].
  destruct (acc_destroy_event x _) as [w [u|[e y|]]]; [| |done].
  - by destruct (commit_event_release id _) as [st2 [|]].
  - by destruct (restore_event_release id y _) as [st2 [|]].
Qed.

Lemma reset_event_release_ok self id pass :
  state_inv (cp_state self) -> pass_ok self pass -> pass_ok self (reset_event_release id pass).
Proof.
  intros Hinv Hok. rewrite reset_event_release_protocol. eapply reset_protocol_ok; [done|done|].
  apply event_releasable. by eapply pass_inv.
Qed.

Lemma reset_event_settled_ok self id state pass :
  state_inv (cp_state self) -> pass_ok self pass -> pass_ok self (reset_event_settled id state pass).
Proof.
  intros Hinv Hok. pose proof (reset_event_release_ok self id pass Hinv Hok).
  destruct state as [| |[]|]; simpl; auto using pass_ok_not_reusable, pass_ok_not_callable.
Qed.

Lemma reset_event_ok self id pass :
  state_inv (cp_state self) -> pass_ok self pass -> pass_ok self (reset_event id pass).
Proof.
  intros Hinv Hok. unfold reset_event.
  destruct (event_resource id (ps_self pass)) as [e|]; [|by apply pass_ok_not_reusable].
  destruct (acc_poll_event e _) as [w r]. assert (Hok1 := pass_ok_world _ _ w Hok).
  destruct r as [state|]; [|by apply pass_ok_not_callable_if, pass_ok_not_reusable].
  destruct state as [| |err|]; try by apply reset_event_settled_ok.
  destruct (negb _); [by apply pass_ok_not_reusable|].
  destruct (event_resource id (ps_self (set_pass_world w pass))) as [e2|]; [|by apply pass_ok_not_reusable].
  destruct (acc_cancel_event e2 _) as [w2 r2]. assert (Hok2 := pass_ok_world _ _ w2 Hok1).
  destruct r2 as [u|err]; [by apply reset_event_settled_ok|].
  destruct err; try by apply pass_ok_not_callable_if, pass_ok_not_reusable.
  destruct (event_resource id (ps_self _)) as [e3|]; [|by apply pass_ok_not_reusable].
  destruct (acc_poll_event e3 _) as [w3 [state|]]; assert (Hok3 := pass_ok_world _ _ w3 Hok2);
    [by apply reset_event_settled_ok|by apply pass_ok_not_callable_if, pass_ok_not_reusable].
Qed.

Definition body_ok self (body : ObjectId -> ResetPass -> ResetPass * LoopControl) : Prop :=
  forall id pass, pass_ok self pass -> pass_ok self (body id pass).1.

Lemma reset_events_body_ok self : state_inv (cp_state self) -> body_ok self reset_events_body.
Proof.
  intros Hinv id pass Hok. unfold reset_events_body. destruct (negb _); [done|]. by apply reset_event_ok.
Qed.

Lemma reset_queues_body_ok self : state_inv (cp_state self) -> body_ok self reset_queues_body.
Proof.
  intros Hinv id pass Hok. eapply (reset_protocol_ok (begin_queue_release id) acc_destroy_queue (commit_queue_release id)
    (restore_queue_release id) bump_queues (fun b => b)); [done|done|].
  apply queue_releasable. by eapply pass_inv.
Qed.

Lemma reset_contexts_body_ok self : state_inv (cp_state self) -> body_ok self reset_contexts_body.
Proof.
  intros Hinv id pass Hok. eapply (reset_protocol_ok (begin_context_release id) acc_destroy_context (commit_context_release id)
    (restore_context_release id) bump_contexts (fun b => b)); [done|done|].
  apply context_releasable. by eapply pass_inv.
Qed.

Lemma reset_programs_body_ok self : state_inv (cp_state self) -> body_ok self reset_programs_body.
Proof.
  intros Hinv id pass Hok. unfold reset_programs_body.
  destruct (program_record id (pass_state pass)) as [record|] eqn:Hr; [|by apply pass_ok_not_reusable].
  eapply (reset_protocol_ok (begin_program_release id) acc_unload_program (commit_program_release id)
    (restore_program_release id) bump_programs (add_resident (prg_resident_bytes record))); [done|done|].
  apply program_releasable; [by eapply pass_inv|done].
Qed.

Lemma reset_buffers_body_ok self : state_inv (cp_state self) -> body_ok self reset_buffers_body.
Proof.
  intros Hinv id pass Hok. unfold reset_buffers_body.
  destruct (buffer_record id (pass_state pass)) as [record|] eqn:Hr; [|by apply pass_ok_not_reusable].
  eapply (reset_protocol_ok (begin_buffer_release id) acc_free_buffer (commit_buffer_release id)
    (restore_buffer_release id) bump_buffers (add_backing (bi_allocation_bytes (buf_info record)))); [done|done|].
  apply buffer_releasable; [by eapply pass_inv|done].
Qed.

Lemma while_ids_ok self fuel next body cursor pass :
  body_ok self body -> pass_ok self pass -> pass_ok self (while_ids fuel next body cursor pass).
Proof.
  intros Hbody. revert cursor pass. induction fuel as [|fuel IH]; intros cursor pass Hok; simpl; [done|].
  destruct (next cursor (pass_state pass)) as [[c id]|]; [|done].
  pose proof (Hbody id pass Hok) as Hb. destruct (body id pass) as [pass' []]; simpl in Hb; [by apply IH|done].
Qed.

Lemma when_callable_ok self f pass :
  (forall p, pass_ok self p -> pass_ok self (f p)) -> pass_ok self pass -> pass_ok self (when_callable f pass).
Proof. intros Hf Hok. unfold when_callable. case_match; auto. Qed.

Lemma reset_pass_ok self pass :
  state_inv (cp_state self) -> pass_ok self pass -> pass_ok self (reset_pass pass).
Proof.
  intros Hinv Hok. unfold reset_pass.
  repeat (apply when_callable_ok; [intros; eapply while_ids_ok; [|done];
    auto using reset_contexts_body_ok, reset_buffers_body_ok, reset_programs_body_ok, reset_queues_body_ok|]).
  eapply while_ids_ok; [by apply reset_events_body_ok|done].
Qed.

(** ** The outcomes of [reset] *)

Lemma counts_from_default c :
  small_counts c -> ResourceCounts_saturating_add ResourceCounts_default c = c.
Proof. intros Hc. unfold small_counts in Hc. apply counts_eq; simpl; unfold saturating_add; lia. Qed.

Lemma bytes_from_default b :
  small_bytes b -> RetainedBytes_saturating_add RetainedBytes_default b = b.
Proof. intros Hb. unfold small_bytes in Hb. apply bytes_eq; simpl; unfold saturating_add; lia. Qed.

Definition reset_start self : ResetPass := {|
  ps_self := set_last_reset None (set_health NeedsReset self); ps_released := ResourceCounts_default;
  ps_released_bytes := RetainedBytes_default; ps_progress := ResetProgress_default |}.

Lemma reset_start_ok self : pass_ok (set_last_reset None (set_health NeedsReset self)) (reset_start self).
Proof. apply pass_ok_start. Qed.

(** A reset that runs the pass. *)
Lemma reset_cases namespace self self' r :
  engine_inv self -> is_u16 namespace -> cp_health self <> BackendDiscardRequired ->
  namespace <> ds_namespace (cp_state self) -> reset namespace self = (self', r) ->
  let pass := reset_pass (reset_start self) in
  exists report, r = Ok report /\ rr_released report = ps_released pass /\
    rr_released_bytes report = ps_released_bytes pass /\
    rr_quarantined report = resource_counts (pass_state pass) /\
    rr_quarantined_bytes report = ds_retained (pass_state pass) /\
    cp_info self' = cp_info self /\ cp_policy self' = cp_policy self /\ cp_decoder self' = cp_decoder self /\
    cp_accelerator self' = cp_accelerator (ps_self pass) /\
    cp_quarantined self' = ResourceCounts_default /\ cp_quarantined_bytes self' = RetainedBytes_default /\
    match rr_disposition report with
    | ResetBackendReusable => backend_reusable (ps_progress pass) = true /\
        DeviceState_is_empty (pass_state pass) = true /\ cp_health self' = Running /\ cp_last_reset self' = None /\
        DeviceState_new namespace (info_limits (cp_info self)) (cp_policy self) = Ok (cp_state self')
    | ResetBackendDiscardRequired => cp_health self' = BackendDiscardRequired /\
        cp_last_reset self' = Some report /\ cp_state self' = pass_state pass /\
        (backend_reusable (ps_progress pass) && DeviceState_is_empty (pass_state pass) = false \/
         RetainedBytes_is_empty (ds_retained (pass_state pass)) = false)
    end.
Proof.
  intros Hinv Hns Hh Hne Hr pass. unfold reset in Hr.
  rewrite bool_decide_false, (proj2 (Z.eqb_neq _ _)) in Hr by done.
  assert (Hpass : pass_ok (set_last_reset None (set_health NeedsReset self)) pass)
    by (apply reset_pass_ok; [apply Hinv|apply pass_ok_start]).
  fold (reset_start self) in Hr. fold pass in Hr. cbv zeta in Hr.
  assert (Hst : state_inv (pass_state pass)) by (eapply pass_inv; [|done]; apply Hinv).
  destruct (po_quarantined _ _ Hpass) as [Hq Hqb]. cbn [cp_quarantined cp_quarantined_bytes set_last_reset set_health] in Hq, Hqb.
  destruct (ei_clean _ Hinv Hh) as [Hcl Hclb]. rewrite Hcl in Hq. rewrite Hclb in Hqb.
  unfold pass_state in Hst.
  rewrite Hq, Hqb, counts_from_default, bytes_from_default in Hr by auto using state_counts_small, state_bytes_small.
  pose proof (po_info _ _ Hpass) as Hinfo. pose proof (po_policy _ _ Hpass) as Hpolicy.
  pose proof (po_decoder _ _ Hpass) as Hdecoder. cbn in Hinfo, Hpolicy, Hdecoder.
  destruct (backend_reusable (ps_progress pass) && DeviceState_is_empty (cp_state (ps_self pass)) &&
    ResourceCounts_is_empty (resource_counts (cp_state (ps_self pass))) &&
    RetainedBytes_is_empty (ds_retained (cp_state (ps_self pass)))) eqn:Hcond.
  - destruct (ei_renewable _ Hinv namespace) as [st Hnew]. rewrite Hinfo, Hpolicy, Hnew in Hr.
    injection Hr as <- <-. eexists. split; [done|]. bool_to_prop. cbn. by split_and!.
  - injection Hr as <- <-. eexists. split; [done|]. cbn. split_and!; try done.
    assert (Hrc : DeviceState_is_empty (cp_state (ps_self pass)) = true ->
      ResourceCounts_is_empty (resource_counts (cp_state (ps_self pass))) = true) by done.
    destruct (backend_reusable _), (DeviceState_is_empty _) eqn:He; auto. rewrite Hrc in Hcond by done.
    by right.
Qed.

End Pass.
