(* ===== verification/ResetLive.v ===== *)
(** * The reset pass ends and, with a cooperating backend, empties the device

    Each loop of the pass visits slots in increasing order and never changes
    their number, so the slot count bounds its iterations.  When every object
    is live and the backend settles and releases what it is given, each loop
    leaves its table empty. *)

From Stdlib Require Import ZArith Lia.
From stdpp Require Import prelude list relations.
From S2P Require Import Prelude Proto Core ObjectTable State TableFacts ChildInv StateInv StateEvents StateFacts Engine EngineFacts ResetFacts.

Section Live.
Context {A : Accelerator}.
Implicit Types (self : CommandProcessor) (pass : ResetPass) (st : AcceleratorState).

(** ** Slot numbers *)

Abbreviation slots_of_table t := (length (ot_slots t)).

Lemma slot_change_slots {Rec R} `{ResourceRecord Rec R} idle (t t' : ObjectTable Rec) :
  slot_change idle t t' -> slots_of_table t' = slots_of_table t.
Proof. intros [->|(id & r & s & Hu & _)]; [done|]. apply (up_slots _ _ _ _ _ Hu). Qed.

Lemma begin_slots {Rec R} `{ResourceRecord Rec R} busy id (t : ObjectTable Rec) :
  table_wf t -> slots_of_table (begin_release_in busy id t).1 = slots_of_table t.
Proof.
  intros Hwf. destruct (begin_release_in busy id t) as [t' r] eqn:Hb.
  apply (slot_change_slots (fun r => busy r = false)). by eapply begin_release_change.
Qed.

Lemma restore_slots {Rec R} `{ResourceRecord Rec R} id (x : R) (t : ObjectTable Rec) :
  table_wf t -> slots_of_table (restore_resource id x t).1 = slots_of_table t.
Proof.
  intros Hwf. destruct (restore_resource id x t) as [t' r] eqn:Hb.
  apply (slot_change_slots (fun _ => False)). by eapply restore_change.
Qed.

(** ** Fuel *)

(** [body] keeps the number of slots of the table the loop walks. *)
Definition keeps_slots {Rec} self (tab : AcceleratorState -> ObjectTable Rec)
    (body : ObjectId -> ResetPass -> ResetPass * LoopControl) : Prop :=
  forall id pass, pass_ok self pass ->
    slots_of_table (tab (pass_state (body id pass).1)) = slots_of_table (tab (pass_state pass)).

Lemma while_ids_fuel {Rec} self (tab : AcceleratorState -> ObjectTable Rec) body :
  state_inv (cp_state self) -> (forall st, state_inv st -> table_wf (tab st)) ->
  body_ok self body -> keeps_slots self tab body ->
  forall fuel k cursor pass, pass_ok self pass -> (slots_of_table (tab (pass_state pass)) - cursor < fuel)%nat ->
    while_ids (fuel + k) (fun c st => next_id_from c (tab st)) body cursor pass =
    while_ids fuel (fun c st => next_id_from c (tab st)) body cursor pass.
Proof.
  intros Hinv Hwf Hbody Hslots. induction fuel as [|fuel IH]; intros k cursor pass Hok Hlt; [lia|]. simpl.
  destruct (next_id_from cursor (tab (pass_state pass))) as [[c id]|] eqn:Hn; [|done].
  apply next_id_from_Some in Hn as [Hc _]; [|apply Hwf; by eapply pass_inv].
  pose proof (Hbody id pass Hok) as Hok'. pose proof (Hslots id pass Hok) as Hs.
  destruct (body id pass) as [pass' []]; [|done]. cbn [fst] in *. apply IH; [done|lia].
Qed.

Section Slots.
Context {R Rec : Type} (tab : AcceleratorState -> ObjectTable Rec).
Context (begin : AcceleratorState -> AcceleratorState * result R DeviceStateError)
  (release : R -> World -> World * result unit (ReleaseFailure R))
  (commit : AcceleratorState -> AcceleratorState * result unit DeviceStateError)
  (restore : R -> AcceleratorState -> AcceleratorState * result unit (RestoreError R))
  (bump : ResourceCounts -> ResourceCounts) (add : RetainedBytes -> RetainedBytes).
Abbreviation n st := (slots_of_table (tab st)).
Context (Hbegin : forall st, state_inv st -> state_inv (begin st).1 /\ n (begin st).1 = n st)
  (Hcommit : forall st, state_inv st -> n (commit st).1 = n st)
  (Hrestore : forall x st, state_inv st -> n (restore x st).1 = n st).

Lemma reset_protocol_slots pass :
  state_inv (pass_state pass) ->
  n (pass_state (reset_protocol begin release commit restore bump add pass).1) = n (pass_state pass).
Proof.
  intros Hinv. unfold reset_protocol. destruct (Hbegin _ Hinv) as [Hinv1 Hn1].
  destruct (begin (pass_state pass)) as [st1 [x|]]; cbn [fst] in *; [|done].
  destruct (release x _) as [w [u|[e y|]]].
  - change (pass_state (set_pass_world w (set_pass_state st1 pass))) with st1.
    pose proof (Hcommit _ Hinv1). destruct (commit st1) as [st2 [|]]; cbn in *; congruence.
  - replace (pass_state (not_callable_if (is_lost e) (not_reusable (set_pass_world w (set_pass_state st1 pass)))))
      with st1 by (by destruct (is_lost e)).
    pose proof (Hrestore y _ Hinv1). destruct (restore y st1) as [st2 [|]]; cbn in *; congruence.
  - done.
Qed.

End Slots.

Ltac begin_slots_tac :=
  intros Hinv; match goal with |- context [begin_release_in ?b ?i ?t] =>
    pose proof (begin_slots b i t ltac:(apply Hinv)) as Hs; by destruct (begin_release_in b i t) end.
Ltac restore_slots_tac :=
  intros Hinv; match goal with |- context [restore_resource ?i ?x ?t] =>
    pose proof (restore_slots i x t ltac:(apply Hinv)) as Hs; by destruct (restore_resource i x t) end.

Lemma begin_queue_slots id st :
  state_inv st -> slots_of_table (ds_queues (begin_queue_release id st).1) = slots_of_table (ds_queues st).
Proof. unfold begin_queue_release. begin_slots_tac. Qed.

Lemma begin_program_slots id st :
  state_inv st -> slots_of_table (ds_programs (begin_program_release id st).1) = slots_of_table (ds_programs st).
Proof. unfold begin_program_release. begin_slots_tac. Qed.

Lemma begin_buffer_slots id st :
  state_inv st -> slots_of_table (ds_buffers (begin_buffer_release id st).1) = slots_of_table (ds_buffers st).
Proof. unfold begin_buffer_release. begin_slots_tac. Qed.

Lemma begin_event_slots id st :
  state_inv st -> slots_of_table (ds_events (begin_event_release id st).1) = slots_of_table (ds_events st).
Proof. unfold begin_event_release. begin_slots_tac. Qed.

Lemma begin_context_slots id st :
  state_inv st -> slots_of_table (ds_contexts (begin_context_release id st).1) = slots_of_table (ds_contexts st).
Proof. unfold begin_context_release. begin_slots_tac. Qed.

Lemma restore_queue_slots id x st :
  state_inv st -> slots_of_table (ds_queues (restore_queue_release id x st).1) = slots_of_table (ds_queues st).
Proof. unfold restore_queue_release. restore_slots_tac. Qed.

Lemma restore_program_slots id x st :
  state_inv st -> slots_of_table (ds_programs (restore_program_release id x st).1) = slots_of_table (ds_programs st).
Proof. unfold restore_program_release. restore_slots_tac. Qed.

Lemma restore_buffer_slots id x st :
  state_inv st -> slots_of_table (ds_buffers (restore_buffer_release id x st).1) = slots_of_table (ds_buffers st).
Proof. unfold restore_buffer_release. restore_slots_tac. Qed.

Lemma restore_event_slots id x st :
  state_inv st -> slots_of_table (ds_events (restore_event_release id x st).1) = slots_of_table (ds_events st).
Proof. unfold restore_event_release. restore_slots_tac. Qed.

Lemma restore_context_slots id x st :
  state_inv st -> slots_of_table (ds_contexts (restore_context_release id x st).1) = slots_of_table (ds_contexts st).
Proof. unfold restore_context_release. restore_slots_tac. Qed.

Lemma commit_queue_slots id st :
  state_inv st -> slots_of_table (ds_queues (commit_queue_release id st).1) = slots_of_table (ds_queues st).
Proof.
  intros Hinv. destruct (commit_queue_release id st) as [st' r] eqn:Hc.
  destruct (commit_queue_cases _ _ _ _ Hinv Hc) as [(e & _ & ->)|(_ & _ & _ & c & Hrm & _)]; [done|].
  apply (rm_slots _ _ _ _ Hrm).
Qed.

Lemma commit_program_slots id st :
  state_inv st -> slots_of_table (ds_programs (commit_program_release id st).1) = slots_of_table (ds_programs st).
Proof.
  intros Hinv. destruct (commit_program_release id st) as [st' r] eqn:Hc.
  destruct (commit_program_cases _ _ _ _ Hinv Hc) as [(e & _ & ->)|(_ & _ & _ & c & Hrm & _)]; [done|].
  apply (rm_slots _ _ _ _ Hrm).
Qed.

Lemma commit_buffer_slots id st :
  state_inv st -> slots_of_table (ds_buffers (commit_buffer_release id st).1) = slots_of_table (ds_buffers st).
Proof.
  intros Hinv. destruct (commit_buffer_release id st) as [st' r] eqn:Hc.
  destruct (commit_buffer_cases _ _ _ _ Hinv Hc) as [(e & _ & ->)|(_ & _ & _ & c & Hrm & _)]; [done|].
  apply (rm_slots _ _ _ _ Hrm).
Qed.

Lemma commit_event_slots id st :
  state_inv st -> slots_of_table (ds_events (commit_event_release id st).1) = slots_of_table (ds_events st).
Proof.
  intros Hinv. destruct (commit_event_release id st) as [st' r] eqn:Hc.
  destruct (commit_event_cases _ _ _ _ Hinv Hc) as [(e & _ & -> & _)|(_ & _ & c & Hrm & _)]; [done|].
  apply (rm_slots _ _ _ _ Hrm).
Qed.

Lemma commit_context_slots id st :
  state_inv st -> slots_of_table (ds_contexts (commit_context_release id st).1) = slots_of_table (ds_contexts st).
Proof.
  intros Hinv. destruct (commit_context_release id st) as [st' r] eqn:Hc.
  destruct (commit_context_cases _ _ _ _ Hinv Hc) as [(e & _ & ->)|(_ & _ & c & t & Hrm & _ & ->)]; [done|].
  apply (rm_slots _ _ _ _ Hrm).
Qed.

(** The five loops keep their slots. *)

Lemma reset_event_release_slots id pass :
  state_inv (pass_state pass) ->
  slots_of_table (ds_events (pass_state (reset_event_release id pass))) = slots_of_table (ds_events (pass_state pass)).
Proof.
  intros Hinv. rewrite reset_event_release_protocol. apply (reset_protocol_slots ds_events); [..|done].
  - intros st Hst. split; [by apply begin_event_inv|by apply begin_event_slots].
  - intros st Hst. by apply commit_event_slots.
  - intros x st Hst. by apply restore_event_slots.
Qed.

Lemma not_callable_if_state b pass : pass_state (not_callable_if b pass) = pass_state pass.
Proof. by destruct b. Qed.

Lemma reset_event_slots id pass :
  state_inv (pass_state pass) ->
  slots_of_table (ds_events (pass_state (reset_event id pass))) = slots_of_table (ds_events (pass_state pass)).
Proof.
  intros Hinv. assert (Hsettled : forall state w, slots_of_table (ds_events (pass_state
    (reset_event_settled id state (set_pass_world w pass)))) = slots_of_table (ds_events (pass_state pass))).
  { intros state w. pose proof (reset_event_release_slots id (set_pass_world w pass) Hinv).
    by destruct state as [| |[]|]. }
  unfold reset_event. destruct (event_resource id (ps_self pass)) as [e|]; [|done].
  destruct (acc_poll_event e _) as [w r]. destruct r as [state|]; [|by rewrite not_callable_if_state].
  destruct state as [| |err|]; try apply Hsettled. destruct (negb _); [done|].
  destruct (event_resource id (ps_self (set_pass_world w pass))) as [e2|]; [|done].
  destruct (acc_cancel_event e2 _) as [w2 [u|err]]; [apply (Hsettled EventCancelled w2)|].
  destruct err; try (by rewrite not_callable_if_state).
  destruct (event_resource id (ps_self _)) as [e3|]; [|done].
  destruct (acc_poll_event e3 _) as [w3 [state|]]; [apply (Hsettled state w3)|by rewrite not_callable_if_state].
Qed.

Lemma events_keep_slots self : state_inv (cp_state self) -> keeps_slots self ds_events reset_events_body.
Proof.
  intros Hinv id pass Hok. unfold reset_events_body. destruct (negb _); [done|].
  apply reset_event_slots. by eapply pass_inv.
Qed.

Lemma queues_keep_slots self : state_inv (cp_state self) -> keeps_slots self ds_queues reset_queues_body.
Proof.
  intros Hinv id pass Hok. apply (reset_protocol_slots ds_queues (begin_queue_release id) acc_destroy_queue
    (commit_queue_release id) (restore_queue_release id) bump_queues (fun b => b)); [..|by eapply pass_inv].
  - intros st Hst. split; [by apply begin_queue_inv|by apply begin_queue_slots].
  - intros st Hst. by apply commit_queue_slots.
  - intros x st Hst. by apply restore_queue_slots.
Qed.

Lemma contexts_keep_slots self : state_inv (cp_state self) -> keeps_slots self ds_contexts reset_contexts_body.
Proof.
  intros Hinv id pass Hok. apply (reset_protocol_slots ds_contexts (begin_context_release id) acc_destroy_context
    (commit_context_release id) (restore_context_release id) bump_contexts (fun b => b)); [..|by eapply pass_inv].
  - intros st Hst. split; [by apply begin_context_inv|by apply begin_context_slots].
  - intros st Hst. by apply commit_context_slots.
  - intros x st Hst. by apply restore_context_slots.
Qed.

Lemma programs_keep_slots self : state_inv (cp_state self) -> keeps_slots self ds_programs reset_programs_body.
Proof.
  intros Hinv id pass Hok. unfold reset_programs_body.
  destruct (program_record id (pass_state pass)) as [record|]; [|done].
  apply (reset_protocol_slots ds_programs (begin_program_release id) acc_unload_program
    (commit_program_release id) (restore_program_release id) bump_programs
    (add_resident (prg_resident_bytes record))); [..|by eapply pass_inv].
  - intros st Hst. split; [by apply begin_program_inv|by apply begin_program_slots].
  - intros st Hst. by apply commit_program_slots.
  - intros x st Hst. by apply restore_program_slots.
Qed.

Lemma buffers_keep_slots self : state_inv (cp_state self) -> keeps_slots self ds_buffers reset_buffers_body.
Proof.
  intros Hinv id pass Hok. unfold reset_buffers_body.
  destruct (buffer_record id (pass_state pass)) as [record|]; [|done].
  apply (reset_protocol_slots ds_buffers (begin_buffer_release id) acc_free_buffer
    (commit_buffer_release id) (restore_buffer_release id) bump_buffers
    (add_backing (bi_allocation_bytes (buf_info record)))); [..|by eapply pass_inv].
  - intros st Hst. split; [by apply begin_buffer_inv|by apply begin_buffer_slots].
  - intros st Hst. by apply commit_buffer_slots.
  - intros x st Hst. by apply restore_buffer_slots.
Qed.

(** ** Live objects *)

Definition live_table {Rec R} `{ResourceRecord Rec R} (t : ObjectTable Rec) : Prop :=
  forall id r, lookup_id id t = Some r -> slot_release (rec_slot r) = Live.

(** No release is under way. *)
Record settled st : Prop := {
  sd_contexts : live_table (ds_contexts st);
  sd_buffers : live_table (ds_buffers st);
  sd_programs : live_table (ds_programs st);
  sd_queues : live_table (ds_queues st);
  sd_events : live_table (ds_events st);
}.

Definition no_entries {Rec} (t : ObjectTable Rec) : Prop := forall id, lookup_id id t = None.

(** [t'] is [t] without [id]. *)
Definition cleared {Rec} id (t t' : ObjectTable Rec) : Prop :=
  forall x, lookup_id x t' = if decide (x = id) then None else lookup_id x t.

Lemma cleared_live {Rec R} `{ResourceRecord Rec R} id (t t' : ObjectTable Rec) :
  cleared id t t' -> live_table t -> live_table t'.
Proof. intros Hc Hl x r. rewrite Hc. case_decide; [done|apply Hl]. Qed.

Lemma live_update {Rec R} `{ResourceRecord Rec R} id f (t t' : ObjectTable Rec) :
  (forall r, rec_slot (f r) = rec_slot r) -> table_wf t -> table_update id f t = Ok t' ->
  live_table t -> table_wf t' /\ live_table t'.
Proof.
  intros Hf Hwf (r & Hu)%table_update_Ok Hl; [|done]. split; [apply (up_wf _ _ _ _ _ Hu)|].
  intros x y. rewrite (up_lookup _ _ _ _ _ Hu). case_decide; [|apply Hl]. intros [= <-]. rewrite Hf.
  apply (Hl _ _ (up_at _ _ _ _ _ Hu)).
Qed.

Lemma live_update_all {Rec R} `{ResourceRecord Rec R} ids f (t t' : ObjectTable Rec) :
  (forall r, rec_slot (f r) = rec_slot r) -> table_wf t -> table_update_all ids f t = (t', Ok tt) ->
  live_table t -> live_table t'.
Proof.
  intros Hf. revert t. induction ids as [|id ids IH]; intros t Hwf; cbn [table_update_all]; [by intros [= <-]|].
  destruct (table_update id f t) as [t1|] eqn:Hu; [|done]. intros Ha Hl.
  destruct (live_update _ _ _ _ Hf Hwf Hu Hl). by eapply IH.
Qed.

Lemma drop_child_live k ctx st st' :
  table_wf (ds_contexts st) -> drop_child_of k ctx st = (st', Ok tt) ->
  live_table (ds_contexts st) -> live_table (ds_contexts st').
Proof.
  intros Hwf. unfold drop_child_of. destruct (table_update ctx (drop_child k) (ds_contexts st)) as [t|] eqn:Hu; [|done].
  intros [= <-] Hl. eapply (live_update ctx (drop_child k)); done.
Qed.

(** A released object leaves a settled graph. *)

Lemma context_cleared id st st1 st2 x :
  state_inv st -> settled st -> begin_context_release id st = (st1, Ok x) ->
  commit_context_release id st1 = (st2, Ok tt) ->
  settled st2 /\ cleared id (ds_contexts st) (ds_contexts st2) /\ st2 = with_contexts st (ds_contexts st2).
Proof.
  intros Hinv Hs Hb Hc. pose proof (begin_context_inv id st Hinv) as Hinv1. rewrite Hb in Hinv1. cbn [fst] in Hinv1.
  destruct (begin_context_Ok _ _ _ _ Hinv Hb) as (r & Hu & Hst & _).
  destruct (commit_context_cases _ _ _ _ Hinv1 Hc) as [(? & ? & _)|(_ & _ & c & t & Hrm & _ & ->)]; [done|].
  pose proof (updated_removed _ _ _ _ _ _ _ Hu Hrm) as Hcl. destruct Hs. rewrite Hst. split; [|done].
  split; simpl; try done. by eapply cleared_live.
Qed.

Lemma queue_cleared id st st1 st2 x :
  state_inv st -> settled st -> begin_queue_release id st = (st1, Ok x) ->
  commit_queue_release id st1 = (st2, Ok tt) ->
  settled st2 /\ cleared id (ds_queues st) (ds_queues st2) /\ ds_events st2 = ds_events st /\
  ds_programs st2 = ds_programs st /\ ds_buffers st2 = ds_buffers st.
Proof.
  intros Hinv Hs Hb Hc. pose proof (begin_queue_inv id st Hinv) as Hinv1. rewrite Hb in Hinv1. cbn [fst] in Hinv1.
  destruct (begin_queue_Ok _ _ _ _ Hinv Hb) as (r & Hu & Hst & _).
  destruct (commit_queue_cases _ _ _ _ Hinv1 Hc)
    as [(? & ? & _)|(_ & _ & [_ (_ & _ & _ & He)] & c & Hrm & _ & _ & Hbu & Hp)]; [done|].
  pose proof (updated_removed _ _ _ _ _ _ _ Hu Hrm) as Hcl.
  assert (Hctx : live_table (ds_contexts st2)).
  { unfold commit_queue_release in Hc. repeat case_match; simplify_eq.
    eapply drop_child_live; [|exact Hc|]; simpl; [apply Hinv1|]. rewrite Hst. apply Hs. }
  rewrite Hst in He, Hbu, Hp. simpl in *. destruct Hs. split; [|done].
  split; rewrite ?He, ?Hbu, ?Hp; try done. by eapply cleared_live.
Qed.

Lemma program_cleared id st st1 st2 x :
  state_inv st -> settled st -> begin_program_release id st = (st1, Ok x) ->
  commit_program_release id st1 = (st2, Ok tt) ->
  settled st2 /\ cleared id (ds_programs st) (ds_programs st2) /\ ds_events st2 = ds_events st /\
  ds_queues st2 = ds_queues st /\ ds_buffers st2 = ds_buffers st.
Proof.
  intros Hinv Hs Hb Hc. pose proof (begin_program_inv id st Hinv) as Hinv1. rewrite Hb in Hinv1. cbn [fst] in Hinv1.
  destruct (begin_program_Ok _ _ _ _ Hinv Hb) as (r & Hu & Hst & _).
  destruct (commit_program_cases _ _ _ _ Hinv1 Hc)
    as [(? & ? & _)|(_ & _ & [_ (_ & _ & _ & He)] & c & Hrm & _ & _ & _ & Hbu & Hq)]; [done|].
  pose proof (updated_removed _ _ _ _ _ _ _ Hu Hrm) as Hcl.
  assert (Hctx : live_table (ds_contexts st2)).
  { unfold commit_program_release in Hc. repeat case_match; simplify_eq.
    eapply drop_child_live; [|exact Hc|]; simpl; [apply Hinv1|]. rewrite Hst. apply Hs. }
  rewrite Hst in He, Hbu, Hq. simpl in *. destruct Hs. split; [|done].
  split; rewrite ?He, ?Hbu, ?Hq; try done. by eapply cleared_live.
Qed.

Lemma buffer_cleared id st st1 st2 x :
  state_inv st -> settled st -> begin_buffer_release id st = (st1, Ok x) ->
  commit_buffer_release id st1 = (st2, Ok tt) ->
  settled st2 /\ cleared id (ds_buffers st) (ds_buffers st2) /\ ds_events st2 = ds_events st /\
  ds_queues st2 = ds_queues st /\ ds_programs st2 = ds_programs st.
Proof.
  intros Hinv Hs Hb Hc. pose proof (begin_buffer_inv id st Hinv) as Hinv1. rewrite Hb in Hinv1. cbn [fst] in Hinv1.
  destruct (begin_buffer_Ok _ _ _ _ Hinv Hb) as (r & Hu & Hst & _).
  destruct (commit_buffer_cases _ _ _ _ Hinv1 Hc)
    as [(? & ? & _)|(_ & _ & [_ (_ & _ & _ & He)] & c & Hrm & _ & _ & _ & Hp & Hq)]; [done|].
  pose proof (updated_removed _ _ _ _ _ _ _ Hu Hrm) as Hcl.
  assert (Hctx : live_table (ds_contexts st2)).
  { unfold commit_buffer_release in Hc. repeat case_match; simplify_eq.
    eapply drop_child_live; [|exact Hc|]; simpl; [apply Hinv1|]. rewrite Hst. apply Hs. }
  rewrite Hst in He, Hp, Hq. simpl in *. destruct Hs. split; [|done].
  split; rewrite ?He, ?Hp, ?Hq; try done. by eapply cleared_live.
Qed.

(** The reference updates keep every slot. *)
Lemma update_references_live fq fp fb fc ctx q ps bs st st' :
  (forall r, que_slot (fq r) = que_slot r) -> (forall r, prg_slot (fp r) = prg_slot r) ->
  (forall r, buf_slot (fb r) = buf_slot r) -> (forall r, ctx_slot (fc r) = ctx_slot r) ->
  table_wf (ds_contexts st) -> table_wf (ds_buffers st) -> table_wf (ds_programs st) -> table_wf (ds_queues st) ->
  update_event_references fq fp fb fc ctx q ps bs st = (st', Ok tt) ->
  live_table (ds_contexts st) -> live_table (ds_buffers st) -> live_table (ds_programs st) ->
  live_table (ds_queues st) ->
  live_table (ds_contexts st') /\ live_table (ds_buffers st') /\ live_table (ds_programs st') /\
  live_table (ds_queues st') /\ ds_events st' = ds_events st.
Proof.
  intros Fq Fp Fb Fc Wc Wb Wp Wq. unfold update_event_references. intros Hd Hc Hb Hp Hq.
  destruct (table_update q fq (ds_queues st)) as [tq|] eqn:Hq1; [|done].
  destruct (table_update_all ps fp _) as [tp [[]|]] eqn:Hp1; [|done].
  destruct (table_update_all bs fb _) as [tb [[]|]] eqn:Hb1; [|done].
  destruct (table_update ctx fc _) as [tc|] eqn:Hc1; [|done].
  injection Hd as <-. simpl in *. split_and!; try done.
  - eapply (live_update ctx fc); done.
  - eapply (live_update_all bs fb); done.
  - eapply (live_update_all ps fp); done.
  - eapply (live_update q fq); done.
Qed.

Lemma event_cleared id st st1 st2 x :
  state_inv st -> settled st -> begin_event_release id st = (st1, Ok x) ->
  commit_event_release id st1 = (st2, Ok tt) ->
  settled st2 /\ cleared id (ds_events st) (ds_events st2).
Proof.
  intros Hinv Hs Hb Hc. pose proof (begin_event_inv id st Hinv) as Hinv1. rewrite Hb in Hinv1. cbn [fst] in Hinv1.
  destruct (begin_event_Ok _ _ _ _ Hinv Hb) as (r & Hu & Hst & _).
  destruct (commit_event_cases _ _ _ _ Hinv1 Hc) as [(? & ? & _)|(_ & _ & c & Hrm & _)]; [done|].
  pose proof (updated_removed _ _ _ _ _ _ _ Hu Hrm) as Hcl. split; [|done].
  unfold commit_event_release in Hc. repeat case_match; simplify_eq.
  assert (Hs1 : live_table (ds_contexts st1) /\ live_table (ds_buffers st1) /\ live_table (ds_programs st1) /\
    live_table (ds_queues st1)) by (rewrite Hst; destruct Hs; by split_and!).
  destruct Hs1 as (? & ? & ? & ?), Hinv1. apply update_references_live in Hc; simpl; try done; try by eapply ci_wf.
  destruct Hc as (? & ? & ? & ? & _). split; try done. eapply cleared_live; [exact Hcl|apply Hs].
Qed.

(** ** A live idle object starts its release *)

Lemma begin_total {Rec R} `{ResourceRecord Rec R} busy id (t : ObjectTable Rec) r :
  lookup_id id t = Some r -> busy r = false -> slot_ok (rec_slot r) -> slot_release (rec_slot r) = Live ->
  exists t' x, begin_release_in busy id t = (t', Ok x).
Proof.
  intros Hl Hb Hok Hlive. destruct (get_mut_total _ _ _ Hl) as [put Hg]. unfold begin_release_in. rewrite Hg, Hb.
  unfold ResourceSlot_begin_release. rewrite Hlive. apply Hok in Hlive as [x ->]. eauto.
Qed.

(** Without events nothing is referenced. *)
Lemma idle_without_events {Rec R} `{ChildRecord Rec R} k ref st (t : ObjectTable Rec) id r :
  state_inv st -> child_inv k ref (ds_contexts st) t (ds_events st) -> no_entries (ds_events st) ->
  lookup_id id t = Some r -> rec_in_flight r = 0 /\ slot_ok (rec_slot r).
Proof.
  intros Hinv Hci Hno Hl. destruct (ci_rec _ _ _ _ _ Hci _ _ Hl) as [? _ Hr _ _ _]. split; [|done].
  rewrite Hr. apply table_sum_zero; [apply Hinv|]. intros x e He. by rewrite Hno in He.
Qed.

Lemma begin_queue_total id st r :
  state_inv st -> settled st -> no_entries (ds_events st) -> lookup_id id (ds_queues st) = Some r ->
  exists st1 x, begin_queue_release id st = (st1, Ok x).
Proof.
  intros Hinv Hs Hno Hl. destruct (idle_without_events _ _ _ _ _ _ Hinv (si_queues _ Hinv) Hno Hl) as [Hz Hok].
  simpl in Hz. destruct (begin_total (fun rec => negb (que_in_flight rec =? 0)) id (ds_queues st) r Hl) as (t & x & Hb);
    [by rewrite Hz|done|by eapply sd_queues|]. unfold begin_queue_release. rewrite Hb. eauto.
Qed.

Lemma begin_program_total id st r :
  state_inv st -> settled st -> no_entries (ds_events st) -> lookup_id id (ds_programs st) = Some r ->
  exists st1 x, begin_program_release id st = (st1, Ok x).
Proof.
  intros Hinv Hs Hno Hl. destruct (idle_without_events _ _ _ _ _ _ Hinv (si_programs _ Hinv) Hno Hl) as [Hz Hok].
  simpl in Hz. destruct (begin_total (fun rec => negb (prg_in_flight rec =? 0)) id (ds_programs st) r Hl) as (t & x & Hb);
    [by rewrite Hz|done|by eapply sd_programs|]. unfold begin_program_release. rewrite Hb. eauto.
Qed.

Lemma begin_buffer_total id st r :
  state_inv st -> settled st -> no_entries (ds_events st) -> lookup_id id (ds_buffers st) = Some r ->
  exists st1 x, begin_buffer_release id st = (st1, Ok x).
Proof.
  intros Hinv Hs Hno Hl. destruct (idle_without_events _ _ _ _ _ _ Hinv (si_buffers _ Hinv) Hno Hl) as [Hz Hok].
  simpl in Hz. destruct (begin_total (fun rec => negb (buf_in_flight rec =? 0)) id (ds_buffers st) r Hl) as (t & x & Hb);
    [by rewrite Hz|done|by eapply sd_buffers|]. unfold begin_buffer_release. rewrite Hb. eauto.
Qed.

Lemma begin_event_total id st r :
  state_inv st -> settled st -> lookup_id id (ds_events st) = Some r ->
  exists st1 x, begin_event_release id st = (st1, Ok x).
Proof.
  intros Hinv Hs Hl. pose proof (ro_slot _ _ _ _ _ (ci_rec _ _ _ _ _ (si_events _ Hinv) _ _ Hl)) as Hok.
  destruct (begin_total (fun _ => false) id (ds_events st) r Hl) as (t & x & Hb);
    [done|done|by eapply sd_events|]. unfold begin_event_release. rewrite Hb. eauto.
Qed.

Lemma child_count_zero {Rec R} `{ChildRecord Rec R} {E} k ref st (t : ObjectTable Rec)
    (events : ObjectTable (EventRecord E)) ctx c :
  child_inv k ref (ds_contexts st) t events -> no_entries t -> lookup_id ctx (ds_contexts st) = Some c ->
  child_count k (ctx_children c) = 0.
Proof.
  intros Hci Hno Hc. rewrite (ci_count _ _ _ _ _ Hci _ _ Hc). apply table_sum_zero; [apply Hci|].
  intros id r Hr. by rewrite Hno in Hr.
Qed.

Lemma begin_context_total id st c :
  state_inv st -> settled st -> no_entries (ds_events st) -> no_entries (ds_queues st) ->
  no_entries (ds_programs st) -> no_entries (ds_buffers st) -> lookup_id id (ds_contexts st) = Some c ->
  exists st1 x, begin_context_release id st = (st1, Ok x).
Proof.
  intros Hinv Hs He Hq Hp Hb Hl. pose proof (xo_slot _ _ (si_contexts _ Hinv _ _ Hl)) as Hok.
  pose proof (child_count_zero _ _ _ _ _ _ _ (si_events _ Hinv) He Hl) as Z1.
  pose proof (child_count_zero _ _ _ _ _ _ _ (si_queues _ Hinv) Hq Hl) as Z2.
  pose proof (child_count_zero _ _ _ _ _ _ _ (si_programs _ Hinv) Hp Hl) as Z3.
  pose proof (child_count_zero _ _ _ _ _ _ _ (si_buffers _ Hinv) Hb Hl) as Z4. simpl in *.
  destruct (begin_total (fun rec => negb (ChildCounts_is_empty (ctx_children rec))) id (ds_contexts st) c Hl)
    as (t & x & Hbg); [unfold ChildCounts_is_empty; by rewrite Z1, Z2, Z3, Z4|done|by eapply sd_contexts|].
  unfold begin_context_release. rewrite Hbg. eauto.
Qed.

(** ** The loops empty their tables *)

(** [J] survives an iteration, which removes the visited object and goes on. *)
Definition clears {Rec} (tab : AcceleratorState -> ObjectTable Rec) (J : ResetPass -> Prop)
    (body : ObjectId -> ResetPass -> ResetPass * LoopControl) : Prop :=
  forall id pass r, J pass -> lookup_id id (tab (pass_state pass)) = Some r ->
    (body id pass).2 = LoopContinue /\ J (body id pass).1 /\
    cleared id (tab (pass_state pass)) (tab (pass_state (body id pass).1)) /\
    slots_of_table (tab (pass_state (body id pass).1)) = slots_of_table (tab (pass_state pass)).

Lemma while_ids_empties {Rec} (tab : AcceleratorState -> ObjectTable Rec) (J : ResetPass -> Prop) body :
  (forall pass, J pass -> table_wf (tab (pass_state pass))) -> clears tab J body ->
  forall fuel cursor pass, J pass -> emptied cursor (tab (pass_state pass)) ->
    (slots_of_table (tab (pass_state pass)) - cursor < fuel)%nat ->
    let pass' := while_ids fuel (fun c st => next_id_from c (tab st)) body cursor pass in
    J pass' /\ no_entries (tab (pass_state pass')).
Proof.
  intros Hwf Hclears. induction fuel as [|fuel IH]; intros cursor pass HJ He Hlt; [lia|]. simpl.
  pose proof (Hwf _ HJ) as Hw.
  destruct (next_id_from cursor (tab (pass_state pass))) as [[c id]|] eqn:Hn.
  2:{ split; [done|]. exact (next_id_done _ _ Hw He Hn). }
  destruct (next_id_cursor _ _ _ _ Hw He Hn) as (Hc & [r Hr] & Hrest).
  destruct (Hclears id pass r HJ Hr) as (Hctl & HJ' & Hcl & Hsl).
  destruct (body id pass) as [pass' ctl]. cbn [fst snd] in *. subst ctl.
  apply IH; [done| |lia]. intros x y. rewrite Hcl. case_decide; [done|]. intros Hx.
  by destruct (Hrest _ _ Hx).
Qed.

(** An event the backend settles in world [w]: it is settled or can be
    cancelled, and is then released. *)
Definition settles (cancellation : bool) (good : World -> Prop) (e : Event) (w : World) : Prop :=
  exists w1 s w2 w3, acc_poll_event e w = (w1, Ok s) /\ acc_destroy_event e w2 = (w3, Ok tt) /\ good w3 /\
    if decide (s = EventPending) then cancellation = true /\ acc_cancel_event e w1 = (w2, Ok tt)
    else s <> EventFailed BeDeviceLost /\ w2 = w1.

(** A backend that, as long as its world is [good], settles every event and
    releases every handle. *)
Record cooperative (cancellation : bool) (good : World -> Prop) : Prop := {
  co_event : forall e w, good w -> settles cancellation good e w;
  co_queue : forall x w, good w -> exists w', acc_destroy_queue x w = (w', Ok tt) /\ good w';
  co_program : forall x w, good w -> exists w', acc_unload_program x w = (w', Ok tt) /\ good w';
  co_buffer : forall x w, good w -> exists w', acc_free_buffer x w = (w', Ok tt) /\ good w';
  co_context : forall x w, good w -> exists w', acc_destroy_context x w = (w', Ok tt) /\ good w';
}.

Section Cooperative.
Context (self : CommandProcessor) (Hinv : state_inv (cp_state self)).
Context (good : World -> Prop).
Context (Hcoop : cooperative (bits_contains (info_capabilities (cp_info self)) EVENT_CANCELLATION) good).

(** So far everything went well. *)
Record smooth pass : Prop := {
  sm_ok : pass_ok self pass;
  sm_settled : settled (pass_state pass);
  sm_progress : ps_progress pass = ResetProgress_default;
  sm_good : good (cp_accelerator (ps_self pass));
}.

Lemma smooth_inv pass : smooth pass -> state_inv (pass_state pass).
Proof. intros []. by eapply pass_inv. Qed.

Lemma events_clear : clears ds_events smooth reset_events_body.
Proof.
  intros id pass r Hsm Hl. pose proof (smooth_inv _ Hsm) as Hst.
  pose proof (events_keep_slots self Hinv id pass (sm_ok _ Hsm)) as Hsl.
  pose proof (reset_events_body_ok self Hinv id pass (sm_ok _ Hsm)) as Hok'.
  destruct (begin_event_total id _ _ Hst (sm_settled _ Hsm) Hl) as (st1 & x & Hb).
  assert (Hrelease : forall w w', acc_destroy_event x w = (w', Ok tt) -> good w' ->
    smooth (reset_event_release id (set_pass_world w pass)) /\
    cleared id (ds_events (pass_state pass)) (ds_events (pass_state (reset_event_release id (set_pass_world w pass))))).
  { intros w w' Hd Hg.
    destruct (reset_protocol_done (begin_event_release id) acc_destroy_event (commit_event_release id)
      (restore_event_release id) bump_events (fun b => b) (set_pass_world w pass) _ _ st1 x w'
      (event_releasable id _ Hst) Hb Hd) as (st2 & Hc & _ & Hp & Hs & Hw).
    pose proof (reset_event_release_ok self id (set_pass_world w pass) Hinv (pass_ok_world _ _ w (sm_ok _ Hsm))) as Hok.
    rewrite reset_event_release_protocol in *.
    destruct (event_cleared id _ _ _ _ Hst (sm_settled _ Hsm) Hb Hc) as [? ?]. rewrite Hs.
    split; [|done]. split; [done|by rewrite Hs|rewrite Hp; apply Hsm|by rewrite Hw]. }
  unfold reset_events_body in *. rewrite (sm_progress _ Hsm) in *. cbn [backend_callable ResetProgress_default negb fst snd] in *.
  split; [done|].
  enough (He : exists w w', reset_event id pass = reset_event_release id (set_pass_world w pass) /\
    acc_destroy_event x w = (w', Ok tt) /\ good w').
  { destruct He as (w & w' & He & Hd & Hg). rewrite He in *. destruct (Hrelease w w' Hd Hg) as [? ?]. by split_and!. }
  destruct (begin_event_Ok _ _ _ _ Hst Hb) as (r' & Hu & _ & Hx & _).
  assert (Hres : forall w, event_resource id (ps_self (set_pass_world w pass)) = Ok x).
  { intros w. unfold event_resource, event_record. change (cp_state (ps_self (set_pass_world w pass))) with (pass_state pass).
    rewrite (proj2 (table_get_Ok _ _ _) (up_at _ _ _ _ _ Hu)). unfold record_resource, ResourceSlot_get. simpl. by rewrite Hx. }
  assert (Hinfo : cp_info (ps_self pass) = cp_info self) by apply (po_info _ _ (sm_ok _ Hsm)).
  unfold reset_event. specialize (Hres (cp_accelerator (ps_self pass))) as Hr0.
  replace (event_resource id (ps_self pass)) with (Ok (E := DeviceStateError) x) by (rewrite <- Hr0; by destruct pass as [[]]).
  destruct (co_event _ _ Hcoop x _ (sm_good _ Hsm)) as (w1 & s & w2 & w3 & -> & Hd & Hg & Hs).
  case_decide as Hpend.
  - subst s. destruct Hs as [Hcap Hcancel]. change (cp_info (ps_self (set_pass_world w1 pass))) with (cp_info (ps_self pass)).
    rewrite Hinfo, Hcap. cbn [negb]. rewrite Hres.
    change (cp_accelerator (ps_self (set_pass_world w1 pass))) with w1. rewrite Hcancel. by exists w2, w3.
  - destruct Hs as [Hlost ->]. exists w1, w3. split; [|done]. destruct s as [| |err|]; try done. by destruct err.
Qed.

(** The other loops run once their children's tables are empty. *)

Definition smooth_queues pass : Prop := smooth pass /\ no_entries (ds_events (pass_state pass)).
Definition smooth_programs pass : Prop := smooth_queues pass /\ no_entries (ds_queues (pass_state pass)).
Definition smooth_buffers pass : Prop := smooth_programs pass /\ no_entries (ds_programs (pass_state pass)).
Definition smooth_contexts pass : Prop := smooth_buffers pass /\ no_entries (ds_buffers (pass_state pass)).

Lemma queues_clear : clears ds_queues smooth_queues reset_queues_body.
Proof.
  intros id pass r [Hsm Hno] Hl. pose proof (smooth_inv _ Hsm) as Hst.
  pose proof (queues_keep_slots self Hinv id pass (sm_ok _ Hsm)) as Hsl.
  pose proof (reset_queues_body_ok self Hinv id pass (sm_ok _ Hsm)) as Hok.
  destruct (begin_queue_total id _ _ Hst (sm_settled _ Hsm) Hno Hl) as (st1 & x & Hb).
  destruct (co_queue _ _ Hcoop x _ (sm_good _ Hsm)) as (w & Hd & Hg).
  destruct (reset_protocol_done (begin_queue_release id) acc_destroy_queue (commit_queue_release id)
    (restore_queue_release id) bump_queues (fun b => b) pass _ _ st1 x w
    (queue_releasable id _ Hst) Hb Hd) as (st2 & Hc & Hctl & Hp & Hs & Hw).
  change (reset_protocol _ _ _ _ _ _ pass) with (reset_queues_body id pass) in *.
  destruct (queue_cleared id _ _ _ _ Hst (sm_settled _ Hsm) Hb Hc) as (Hset & Hcl & He & _).
  rewrite <- Hs in *. split_and!; try done.
  split; [split; [done|done|rewrite Hp; apply Hsm|by rewrite Hw]|]. unfold no_entries. by rewrite He.
Qed.

Lemma programs_clear : clears ds_programs smooth_programs reset_programs_body.
Proof.
  intros id pass r [[Hsm Hno] Hnq] Hl. pose proof (smooth_inv _ Hsm) as Hst.
  pose proof (programs_keep_slots self Hinv id pass (sm_ok _ Hsm)) as Hsl.
  pose proof (reset_programs_body_ok self Hinv id pass (sm_ok _ Hsm)) as Hok.
  destruct (begin_program_total id _ _ Hst (sm_settled _ Hsm) Hno Hl) as (st1 & x & Hb).
  pose proof (proj2 (table_get_Ok _ _ _) Hl) as Hrec. change (program_record id (pass_state pass) = Ok r) in Hrec.
  destruct (co_program _ _ Hcoop x _ (sm_good _ Hsm)) as (w & Hd & Hg).
  destruct (reset_protocol_done (begin_program_release id) acc_unload_program (commit_program_release id)
    (restore_program_release id) bump_programs (add_resident (prg_resident_bytes r)) pass _ _ st1 x w
    (program_releasable id _ _ Hst Hrec) Hb Hd) as (st2 & Hc & Hctl & Hp & Hs & Hw).
  assert (Hbody : reset_programs_body id pass = reset_protocol (begin_program_release id) acc_unload_program
    (commit_program_release id) (restore_program_release id) bump_programs (add_resident (prg_resident_bytes r)) pass)
    by (unfold reset_programs_body; by rewrite Hrec).
  rewrite <- Hbody in *.
  destruct (program_cleared id _ _ _ _ Hst (sm_settled _ Hsm) Hb Hc) as (Hset & Hcl & He & Hq & _).
  rewrite <- Hs in *. split_and!; try done.
  split; [split; [split; [done|done|rewrite Hp; apply Hsm|by rewrite Hw]|]|]; unfold no_entries; [by rewrite He|by rewrite Hq].
Qed.

Lemma buffers_clear : clears ds_buffers smooth_buffers reset_buffers_body.
Proof.
  intros id pass r [[[Hsm Hno] Hnq] Hnp] Hl. pose proof (smooth_inv _ Hsm) as Hst.
  pose proof (buffers_keep_slots self Hinv id pass (sm_ok _ Hsm)) as Hsl.
  pose proof (reset_buffers_body_ok self Hinv id pass (sm_ok _ Hsm)) as Hok.
  destruct (begin_buffer_total id _ _ Hst (sm_settled _ Hsm) Hno Hl) as (st1 & x & Hb).
  pose proof (proj2 (table_get_Ok _ _ _) Hl) as Hrec. change (buffer_record id (pass_state pass) = Ok r) in Hrec.
  destruct (co_buffer _ _ Hcoop x _ (sm_good _ Hsm)) as (w & Hd & Hg).
  destruct (reset_protocol_done (begin_buffer_release id) acc_free_buffer (commit_buffer_release id)
    (restore_buffer_release id) bump_buffers (add_backing (bi_allocation_bytes (buf_info r))) pass _ _ st1 x w
    (buffer_releasable id _ _ Hst Hrec) Hb Hd) as (st2 & Hc & Hctl & Hp & Hs & Hw).
  assert (Hbody : reset_buffers_body id pass = reset_protocol (begin_buffer_release id) acc_free_buffer
    (commit_buffer_release id) (restore_buffer_release id) bump_buffers
    (add_backing (bi_allocation_bytes (buf_info r))) pass) by (unfold reset_buffers_body; by rewrite Hrec).
  rewrite <- Hbody in *.
  destruct (buffer_cleared id _ _ _ _ Hst (sm_settled _ Hsm) Hb Hc) as (Hset & Hcl & He & Hq & Hpr).
  rewrite <- Hs in *. split_and!; try done.
  split; [split; [split; [split; [done|done|rewrite Hp; apply Hsm|by rewrite Hw]|]|]|]; unfold no_entries;
    [by rewrite He|by rewrite Hq|by rewrite Hpr].
Qed.

Lemma contexts_clear : clears ds_contexts smooth_contexts reset_contexts_body.
Proof.
  intros id pass r [[[[Hsm Hno] Hnq] Hnp] Hnb] Hl. pose proof (smooth_inv _ Hsm) as Hst.
  pose proof (contexts_keep_slots self Hinv id pass (sm_ok _ Hsm)) as Hsl.
  pose proof (reset_contexts_body_ok self Hinv id pass (sm_ok _ Hsm)) as Hok.
  destruct (begin_context_total id _ _ Hst (sm_settled _ Hsm) Hno Hnq Hnp Hnb Hl) as (st1 & x & Hb).
  destruct (co_context _ _ Hcoop x _ (sm_good _ Hsm)) as (w & Hd & Hg).
  destruct (reset_protocol_done (begin_context_release id) acc_destroy_context (commit_context_release id)
    (restore_context_release id) bump_contexts (fun b => b) pass _ _ st1 x w
    (context_releasable id _ Hst) Hb Hd) as (st2 & Hc & Hctl & Hp & Hs & Hw).
  change (reset_protocol _ _ _ _ _ _ pass) with (reset_contexts_body id pass) in *.
  destruct (context_cleared id _ _ _ _ Hst (sm_settled _ Hsm) Hb Hc) as (Hset & Hcl & Heq).
  rewrite <- Hs in *. split_and!; try done.
  split; [split; [split; [split; [split; [done|done|rewrite Hp; apply Hsm|by rewrite Hw]|]|]|]|]; rewrite Heq; done.
Qed.

(** One stage of the pass. *)
Lemma stage {Rec} (tab : AcceleratorState -> ObjectTable Rec) (J : ResetPass -> Prop) body f pass :
  (forall p, f p = while_ids (S (slots_of_table (tab (pass_state p)))) (fun c st => next_id_from c (tab st)) body 0 p) ->
  (forall p, J p -> smooth p) -> (forall st, state_inv st -> table_wf (tab st)) -> clears tab J body ->
  J pass -> J (when_callable f pass) /\ no_entries (tab (pass_state (when_callable f pass))).
Proof.
  intros Hf Hsm Hwf Hcl HJ. unfold when_callable. rewrite (sm_progress _ (Hsm _ HJ)). cbn [backend_callable ResetProgress_default].
  rewrite Hf. apply (while_ids_empties tab J body); [|done|done| |lia].
  - intros p Hp. by apply Hwf, smooth_inv, Hsm.
  - by apply emptied_0, Hwf, smooth_inv, Hsm.
Qed.

(** The whole pass. *)
Lemma reset_pass_empties pass :
  smooth pass -> let pass' := reset_pass pass in smooth_contexts pass' /\ no_entries (ds_contexts (pass_state pass')).
Proof.
  intros Hsm. unfold reset_pass.
  assert (H1 : smooth_queues (reset_events pass)).
  { replace (reset_events pass) with (when_callable reset_events pass)
      by (unfold when_callable; by rewrite (sm_progress _ Hsm)).
    apply (stage ds_events smooth reset_events_body); auto using events_clear. intros st Hst. apply Hst. }
  assert (H2 : smooth_programs (when_callable reset_queues (reset_events pass))).
  { apply (stage ds_queues smooth_queues reset_queues_body); auto using queues_clear.
    - by intros p [? _].
    - intros st Hst. apply Hst. }
  assert (H3 : smooth_buffers (when_callable reset_programs (when_callable reset_queues (reset_events pass)))).
  { apply (stage ds_programs smooth_programs reset_programs_body); auto using programs_clear.
    - by intros p [[? _] _].
    - intros st Hst. apply Hst. }
  set (p3 := when_callable reset_programs _) in *.
  assert (H4 : smooth_contexts (when_callable reset_buffers p3)).
  { apply (stage ds_buffers smooth_buffers reset_buffers_body); auto using buffers_clear.
    - by intros p [[[? _] _] _].
    - intros st Hst. apply Hst. }
  apply (stage ds_contexts smooth_contexts reset_contexts_body); auto using contexts_clear.
  - by intros p [[[[? _] _] _] _].
  - intros st Hst. apply Hst.
Qed.

End Cooperative.

End Live.
