(* ===== verification/Settled.v ===== *)
(** * No release is left half done

    A release that begins inside a command either commits, or is restored, or
    the device asks to be discarded.  So as long as the device need not be
    discarded, every object of the graph is live. *)

From Stdlib Require Import ZArith Lia.
From stdpp Require Import prelude list relations.
From S2P Require Import Prelude Codec Proto Transport Core ObjectTable Regions Response Decoder DecoderSpec Frame State TableFacts ChildInv StateInv StateEvents StateFacts Engine EngineFacts ResetFacts ResetLive.

Section Settled.
Context {A : Accelerator}.
Implicit Types (self : CommandProcessor) (st : AcceleratorState).

(** ** Tables *)

Section Tables.
Context {Rec R : Type} `{ResourceRecord Rec R}.
Implicit Types (t : ObjectTable Rec).

Lemma live_inserted t id r t' : inserted t id r t' -> slot_release (rec_slot r) = Live -> live_table t -> live_table t'.
Proof.
  intros Hi Hr Hl x y. rewrite (in_lookup _ _ _ _ Hi). case_decide; [|apply Hl]. by intros [= <-].
Qed.

Lemma live_put t id r put r' :
  table_wf t -> ObjectTable_get_mut id t = Ok (r, put) -> slot_release (rec_slot r') = slot_release (rec_slot r) ->
  live_table t -> live_table (put r').
Proof.
  intros Hwf Hg Hs Hl x y. pose proof (get_mut_updated _ _ _ _ r' Hwf Hg) as Hu.
  rewrite (up_lookup _ _ _ _ _ Hu). case_decide; [|apply Hl]. intros [= <-]. rewrite Hs.
  apply (Hl _ _ (up_at _ _ _ _ _ Hu)).
Qed.

Lemma live_view t t' : (forall x, lookup_id x t' = lookup_id x t) -> live_table t -> live_table t'.
Proof. intros Hv Hl x y. rewrite Hv. apply Hl. Qed.

Context (Hslot : forall s (r : Rec), rec_slot (rec_with_slot s r) = s).

Lemma begin_live_err busy id t t' e :
  table_wf t -> begin_release_in busy id t = (t', Err e) -> live_table t -> live_table t'.
Proof.
  intros Hwf. unfold begin_release_in. destruct (ObjectTable_get_mut id t) as [[r put]|] eqn:Hg; [|by intros [= <-]].
  destruct (busy r); [by intros [= <-]|]. unfold ResourceSlot_begin_release.
  repeat case_match; intros; simplify_eq; (eapply live_put; [done|done|by rewrite Hslot|done]).
Qed.

(** Everything but [id] is live. *)
Lemma begin_restore_live busy id t t1 x y t2 :
  table_wf t -> begin_release_in busy id t = (t1, Ok x) -> restore_resource id y t1 = (t2, Ok tt) ->
  live_table t -> live_table t2.
Proof.
  intros Hwf. unfold begin_release_in. destruct (ObjectTable_get_mut id t) as [[r put]|] eqn:Hg; [|done].
  destruct (busy r); [done|]. destruct (ResourceSlot_begin_release (rec_slot r)) as [slot res] eqn:Hsl. intros [= Ht1 Hres]. subst t1 res.
  pose proof (get_mut_updated _ _ _ _ (rec_with_slot slot r) Hwf Hg) as Hu. unfold restore_resource.
  destruct (ObjectTable_get_mut id (put (rec_with_slot slot r))) as [[r1 put1]|] eqn:Hg1; [|done].
  destruct (ResourceSlot_restore y (rec_slot r1)) as [slot1 res1] eqn:Hr. intros [= Ht2 Hres1] Hl. subst t2 res1.
  pose proof (get_mut_updated _ _ _ _ (rec_with_slot slot1 r1) (up_wf _ _ _ _ _ Hu) Hg1) as Hu1.
  intros z v. rewrite (up_lookup _ _ _ _ _ Hu1). case_decide.
  - intros [= <-]. rewrite Hslot. unfold ResourceSlot_restore in Hr. repeat case_match; by simplify_eq.
  - rewrite (up_lookup _ _ _ _ _ Hu), decide_False by done. apply Hl.
Qed.

End Tables.

(** ** The device state *)

Lemma begin_settled_err id st :
  state_inv st -> settled st ->
  (forall st1 e, begin_context_release id st = (st1, Err e) -> settled st1) /\
  (forall st1 e, begin_buffer_release id st = (st1, Err e) -> settled st1) /\
  (forall st1 e, begin_program_release id st = (st1, Err e) -> settled st1) /\
  (forall st1 e, begin_queue_release id st = (st1, Err e) -> settled st1) /\
  (forall st1 e, begin_event_release id st = (st1, Err e) -> settled st1).
Proof.
  intros [] []. split_and!; intros st1 e;
    unfold begin_context_release, begin_buffer_release, begin_program_release, begin_queue_release, begin_event_release;
    (destruct (begin_release_in _ _ _) as [t r] eqn:Hb; intros [= <- ->]; split; simpl; try done;
     (eapply begin_live_err; [|by eauto using ci_wf|exact Hb|done]; done)).
Qed.

Lemma restore_settled id st :
  state_inv st -> settled st ->
  (forall st1 st2 x y, begin_context_release id st = (st1, Ok x) -> restore_context_release id y st1 = (st2, Ok tt) -> settled st2) /\
  (forall st1 st2 x y, begin_buffer_release id st = (st1, Ok x) -> restore_buffer_release id y st1 = (st2, Ok tt) -> settled st2) /\
  (forall st1 st2 x y, begin_program_release id st = (st1, Ok x) -> restore_program_release id y st1 = (st2, Ok tt) -> settled st2) /\
  (forall st1 st2 x y, begin_queue_release id st = (st1, Ok x) -> restore_queue_release id y st1 = (st2, Ok tt) -> settled st2) /\
  (forall st1 st2 x y, begin_event_release id st = (st1, Ok x) -> restore_event_release id y st1 = (st2, Ok tt) -> settled st2).
Proof.
  intros [] []. split_and!; intros st1 st2 x y;
    unfold begin_context_release, begin_buffer_release, begin_program_release, begin_queue_release, begin_event_release,
      restore_context_release, restore_buffer_release, restore_program_release, restore_queue_release, restore_event_release;
    (destruct (begin_release_in _ _ _) as [t r] eqn:Hb; intros [= <- ->];
     destruct (restore_resource id y _) as [t2 r2] eqn:Hr; intros [= <- ->]; split; simpl in *; try done;
     (eapply begin_restore_live; [|by eauto using ci_wf|exact Hb|exact Hr|done]; done)).
Qed.

Lemma view_settled st st' : same_view st st' -> settled st -> settled st'.
Proof.
  intros [Hc Hb Hp Hq He _ _] []. split; try (by eapply live_view); by rewrite He.
Qed.

Lemma new_settled namespace limits policy st :
  is_u16 namespace -> limits_typed limits -> 0 < rp_max_program_resident_bytes policy ->
  DeviceState_new namespace limits policy = Ok st -> settled st.
Proof.
  intros Hns Hl Hp Hnew. pose proof (DeviceState_new_inv _ _ _ _ Hns Hl Hp Hnew) as (Hinv & _ & He & _).
  unfold DeviceState_is_empty, ObjectTable_is_empty in He. bool_to_prop. destruct Hinv.
  split; intros id r Hr; rewrite empty_lookup in Hr by eauto using ci_wf; done.
Qed.

(** Creations insert live objects and touch no other slot. *)

Lemma admit_event_settled {W PE} mem ctx q ps bs
    (create : list ObjectId -> AcceleratorState -> W -> W * result Event (CreateError PE)) record st w st' w' id :
  (forall e ids, slot_release (evt_slot (record e ids)) = Live) -> state_inv st -> settled st ->
  admit_event mem ctx q ps bs create record st w = (st', w', Ok id) -> settled st'.
Proof.
  intros Hrec [] []. unfold admit_event.
  destruct (table_get ctx (ds_contexts st)) as [c|]; [|done]. destruct (_ <=? _); [done|].
  destruct (try_reserve_insert mem (ds_events st)) as [[]|] eqn:Hroom; [|done]. apply try_reserve_insert_Ok in Hroom.
  destruct (check_reference_increments _ _ _ _); [|done].
  destruct (increment_event_references _ _ _ _ st) as [st1 [[]|]] eqn:Hinc; [|done].
  apply update_references_live in Hinc as (Hc & Hb & Hp & Hq & He); try done; try by eapply ci_wf.
  destruct (create _ _ _) as [w1 [event|[e|e]]]; [|done|by repeat case_match].
  rewrite He. destruct (insert_prepared _ _) as [t x] eqn:Hi. intros [= <- _ _].
  apply insert_inserted in Hi; [|by eapply ci_wf|done]. split; simpl; try done. eapply live_inserted; [done|apply Hrec|done].
Qed.

Lemma create_event_settled {W PE} mem q p bs
    (create : SubmissionResources Buffer Program Queue -> W -> W * result Event PE) st w st' w' res :
  state_inv st -> settled st -> create_event_with mem q p bs create st w = (st', w', res) -> settled st'.
Proof.
  intros Hinv Hs Hc. destruct res as [id|e].
  - unfold create_event_with in Hc. destruct (_ =? _); [done|]. destruct (_ <? _); [done|].
    destruct (validate_submission _ _ _ _); [|done]. by eapply admit_event_settled in Hc.
  - apply create_event_spec in Hc as [_ (ctx & Hv)]; [|done]. by eapply view_settled.
Qed.

Lemma create_context_settled {W PE} mem (create : W -> W * result Context PE) st w st' w' res :
  state_inv st -> settled st -> create_context_with mem create st w = (st', w', res) -> settled st'.
Proof.
  intros Hinv Hs Hc. apply create_context_cases in Hc; [|done]. destruct res; [|by destruct Hc as [-> _]].
  destruct Hc as (x & t & _ & -> & Hi), Hs. split; simpl; try done. by eapply live_inserted.
Qed.

(** A child: its table gained a live record, its context a count. *)
Tactic Notation "child_settled" ident(st) :=
  intros Hinv Hs; destruct (check_child_admission _ _ _ _); [|by intros [= <- _ _]];
  match goal with |- context [try_reserve_insert ?mem ?t] =>
    destruct (try_reserve_insert mem t) as [[]|] eqn:Hr; [|by intros [= <- _ _]]; apply try_reserve_insert_Ok in Hr end;
  destruct (ObjectTable_get_mut _ (ds_contexts st)) as [[c put]|] eqn:Hg; [|by intros [= <- _ _]];
  destruct (record_resource c) as [x|]; [|by intros [= <- _ _]].

Lemma create_queue_settled {W PE} mem ctx (create : Context -> W -> W * result Queue PE) st w st' w' res :
  state_inv st -> settled st -> create_queue_with mem ctx create st w = (st', w', res) -> settled st'.
Proof.
  unfold create_queue_with. child_settled st.
  destruct (create x w) as [w1 [r|]]; [|by intros [= <- _ _]].
  destruct (insert_prepared _ _) as [t id] eqn:Hi. intros [= <- _ _]. destruct Hinv, Hs.
  apply insert_inserted in Hi; [|by eapply ci_wf|done].
  split; simpl; try done; [by eapply live_put|by eapply live_inserted].
Qed.

Lemma create_program_settled {W PE} mem ctx ab rb (create : Context -> W -> W * result Program PE) st w st' w' res :
  state_inv st -> settled st -> create_program_with mem ctx ab rb create st w = (st', w', res) -> settled st'.
Proof.
  unfold create_program_with.
  destruct (_ || _); [by intros _ ? [= <- _ _]|]. destruct (_ <? _); [by intros _ ? [= <- _ _]|].
  destruct (_ <? _); [by intros _ ? [= <- _ _]|]. child_settled st.
  destruct (create x w) as [w1 [r|]]; [|by intros [= <- _ _]].
  destruct (insert_prepared _ _) as [t id] eqn:Hi. intros [= <- _ _]. destruct Hinv, Hs.
  apply insert_inserted in Hi; [|by eapply ci_wf|done].
  split; simpl; try done; [by eapply live_put|by eapply live_inserted].
Qed.

Lemma create_buffer_settled {W PE} mem ctx desc
    (create : Context -> BufferDesc -> W -> W * result (Buffer * BufferInfo) PE) st w st' w' res :
  state_inv st -> settled st -> create_buffer_with mem ctx desc create st w = (st', w', res) -> settled st'.
Proof.
  unfold create_buffer_with.
  destruct (_ <? _); [by intros _ ? [= <- _ _]|]. destruct (_ <? _); [by intros _ ? [= <- _ _]|]. child_settled st.
  destruct (create x desc w) as [w1 [[r info]|]]; [|by intros [= <- _ _]].
  destruct (insert_prepared _ _) as [t id] eqn:Hi. intros [= <- _ _]. destruct Hinv, Hs.
  apply insert_inserted in Hi; [|by eapply ci_wf|done].
  split; simpl; try done; [by eapply live_put|by eapply live_inserted].
Qed.

(** ** The processor *)

Definition calm self : Prop := cp_health self <> BackendDiscardRequired -> settled (cp_state self).

Lemma calm_settled self : settled (cp_state self) -> calm self.
Proof. by intros ? ?. Qed.

Lemma calm_discard self : calm (require_backend_discard self).
Proof. intros Hh. exfalso. by apply Hh. Qed.

Lemma calm_state self self' :
  cp_state self' = cp_state self -> (cp_health self = BackendDiscardRequired -> cp_health self' = BackendDiscardRequired) ->
  calm self -> calm self'.
Proof. intros Hst Hh Hc Hne. rewrite Hst. apply Hc. intros He. apply Hne. auto. Qed.

Lemma complete_calm r status request_id mutated self :
  calm self -> calm (complete_response r status request_id mutated self).1.
Proof.
  intros Hc. unfold complete_response. destruct r; [done|].
  destruct (mutated && _) eqn:He; [|done]. apply andb_true_iff in He as [_ He%bool_decide_eq_true].
  apply (calm_state self); [done| |done]. by rewrite He.
Qed.

Context {S : Type} `{ByteSink S}.
Implicit Types (response : S).

Lemma respond_empty_calm response status request_id mutated self :
  calm self -> calm (respond_empty response status request_id mutated self).1.1.
Proof.
  intros Hc. unfold respond_empty. destruct (ResponseWriter_write_empty _ _ _) as [s r].
  pose proof (complete_calm r status request_id mutated self Hc) as Hr.
  by destruct (complete_response _ _ _ _ _).
Qed.

Lemma respond_bytes_calm response status request_id payload mutated self :
  calm self -> calm (respond_bytes response status request_id payload mutated self).1.1.
Proof.
  intros Hc. unfold respond_bytes. match goal with |- context [match ?e with (_, _) => _ end] => destruct e as [s r] end.
  pose proof (complete_calm r status request_id mutated self Hc) as Hr.
  by destruct (complete_response _ _ _ _ _).
Qed.

Lemma backend_status_calm error self : calm self -> calm (backend_status error self).1.
Proof. intros Hc. unfold backend_status. case_bool_decide; [apply calm_discard|done]. Qed.

Lemma respond_backend_error_calm response request_id error mutated self :
  calm self -> calm (respond_backend_error response request_id error mutated self).1.1.
Proof.
  intros Hc. unfold respond_backend_error. pose proof (backend_status_calm error self Hc).
  destruct (backend_status error self). by apply respond_empty_calm.
Qed.

Lemma respond_create_error_calm response request_id error self :
  calm self -> calm (respond_create_error response request_id error self).1.1.
Proof. destruct error; [apply respond_empty_calm|apply respond_backend_error_calm]. Qed.

Lemma discard_calm response request_id self : calm (discard_response response request_id self).1.1.
Proof. apply respond_empty_calm, calm_discard. Qed.

Lemma respond_state_error_calm response request_id error self :
  calm self -> calm (respond_state_error response request_id error self).1.1.
Proof. apply respond_empty_calm. Qed.

Lemma calm_world w self : settled (cp_state self) -> calm (set_world w self).
Proof. by intros ? ?. Qed.

Lemma calm_set w st self : settled st -> calm (set_world w (set_state st self)).
Proof. by intros ? ?. Qed.

#[local] Create HintDb calm.
#[local] Hint Resolve respond_state_error_calm calm_world calm_set respond_empty_calm respond_bytes_calm respond_backend_error_calm respond_create_error_calm
  discard_calm calm_settled calm_discard : calm.

Lemma release_protocol_calm {R} begin release commit restore quarantine response request_id self :
  settled (cp_state self) ->
  (forall st e, begin (cp_state self) = (st, Err e) -> settled st) ->
  (forall st1 st2 (x : R), begin (cp_state self) = (st1, Ok x) -> commit st1 = (st2, Ok tt) -> settled st2) ->
  (forall st1 st2 x y, begin (cp_state self) = (st1, Ok x) -> restore y st1 = (st2, Ok tt) -> settled st2) ->
  calm (release_protocol begin release commit restore quarantine response request_id self).1.1.
Proof.
  intros Hs Herr Hcommit Hrestore. unfold release_protocol.
  destruct (begin (cp_state self)) as [st1 [x|e]] eqn:Hb; [|apply respond_empty_calm, calm_settled; by eapply Herr].
  destruct (release x _) as [w [[]|[error y|]]].
  - change (cp_state (set_world w (set_state st1 self))) with st1.
    destruct (commit st1) as [st2 [[]|]] eqn:Hc; [|apply discard_calm].
    apply respond_empty_calm, calm_settled. by eapply Hcommit.
  - change (cp_state (set_world w (set_state st1 self))) with st1.
    destruct (restore y st1) as [st2 [[]|]] eqn:Hc; [|apply discard_calm].
    apply respond_backend_error_calm, calm_settled. by eapply Hrestore.
  - destruct (commit _) as [st2 r]. apply discard_calm.
Qed.

Section Handlers.
Context (self : CommandProcessor) (Hinv : state_inv (cp_state self)) (Hs : settled (cp_state self)).

Lemma destroy_context_calm response request_id id : calm (destroy_context response request_id id self).1.1.
Proof.
  apply (release_protocol_calm (begin_context_release id) acc_destroy_context (commit_context_release id)
    (restore_context_release id)
    (fun self => set_quarantined (bump_contexts (cp_quarantined self)) (cp_quarantined_bytes self) self)); [done|..].
  - apply (begin_settled_err id _ Hinv Hs).
  - intros st1 st2 x Hb Hc. by destruct (context_cleared id _ _ _ _ Hinv Hs Hb Hc).
  - apply (restore_settled id _ Hinv Hs).
Qed.

Lemma destroy_queue_calm response request_id id : calm (destroy_queue response request_id id self).1.1.
Proof.
  apply (release_protocol_calm (begin_queue_release id) acc_destroy_queue (commit_queue_release id)
    (restore_queue_release id)
    (fun self => set_quarantined (bump_queues (cp_quarantined self)) (cp_quarantined_bytes self) self)); [done|..].
  - apply (begin_settled_err id _ Hinv Hs).
  - intros st1 st2 x Hb Hc. by destruct (queue_cleared id _ _ _ _ Hinv Hs Hb Hc).
  - apply (restore_settled id _ Hinv Hs).
Qed.

Lemma release_event_calm response request_id id : calm (release_event response request_id id self).1.1.
Proof.
  apply (release_protocol_calm (begin_event_release id) acc_destroy_event (commit_event_release id)
    (restore_event_release id)
    (fun self => set_quarantined (bump_events (cp_quarantined self)) (cp_quarantined_bytes self) self)); [done|..].
  - apply (begin_settled_err id _ Hinv Hs).
  - intros st1 st2 x Hb Hc. by destruct (event_cleared id _ _ _ _ Hinv Hs Hb Hc).
  - apply (restore_settled id _ Hinv Hs).
Qed.

Lemma free_buffer_calm response request_id id : calm (free_buffer response request_id id self).1.1.
Proof.
  unfold free_buffer. destruct (buffer_record id (cp_state self)) as [record|]; [|by apply respond_empty_calm, calm_settled].
  apply (release_protocol_calm (begin_buffer_release id) acc_free_buffer (commit_buffer_release id)
    (restore_buffer_release id) (fun self => set_quarantined (bump_buffers (cp_quarantined self))
       (add_backing (bi_allocation_bytes (buf_info record)) (cp_quarantined_bytes self)) self)); [done|..].
  - apply (begin_settled_err id _ Hinv Hs).
  - intros st1 st2 x Hb Hc. by destruct (buffer_cleared id _ _ _ _ Hinv Hs Hb Hc).
  - apply (restore_settled id _ Hinv Hs).
Qed.

Lemma unload_program_calm response request_id id : calm (unload_program response request_id id self).1.1.
Proof.
  unfold unload_program. destruct (program_record id (cp_state self)) as [record|]; [|by apply respond_empty_calm, calm_settled].
  apply (release_protocol_calm (begin_program_release id) acc_unload_program (commit_program_release id)
    (restore_program_release id) (fun self => set_quarantined (bump_programs (cp_quarantined self))
       (add_resident (prg_resident_bytes record) (cp_quarantined_bytes self)) self)); [done|..].
  - apply (begin_settled_err id _ Hinv Hs).
  - intros st1 st2 x Hb Hc. by destruct (program_cleared id _ _ _ _ Hinv Hs Hb Hc).
  - apply (restore_settled id _ Hinv Hs).
Qed.

Lemma release_unpublished_calm response request_id id error :
  calm (release_unpublished_buffer response request_id id error self).1.1.
Proof.
  unfold release_unpublished_buffer. destruct (buffer_record id (cp_state self)); [|apply discard_calm].
  destruct (begin_buffer_release id (cp_state self)) as [st1 [x|]] eqn:Hb; [|apply discard_calm].
  destruct (acc_free_buffer x _) as [w [[]|[e y|]]].
  - change (cp_state (set_world w (set_state st1 self))) with st1.
    destruct (commit_buffer_release id st1) as [st2 [[]|]] eqn:Hc; [|apply discard_calm].
    apply respond_backend_error_calm, calm_settled. by destruct (buffer_cleared id _ _ _ _ Hinv Hs Hb Hc).
  - destruct (restore_buffer_release _ _ _). apply discard_calm.
  - destruct (commit_buffer_release _ _). apply discard_calm.
Qed.

End Handlers.

Lemma poll_event_calm self response request_id id :
  settled (cp_state self) -> calm (poll_event response request_id id self).1.1.
Proof.
  intros Hs. unfold poll_event. destruct (event_resource id self); [|by auto with calm].
  destruct (acc_poll_event _ _) as [w [state|e]]; [|by auto with calm]. case_bool_decide; auto with calm.
Qed.

Lemma cancel_event_calm self response request_id id :
  settled (cp_state self) -> calm (cancel_event response request_id id self).1.1.
Proof.
  intros Hs. unfold cancel_event. destruct (validate_event_cancellation _); [|by auto with calm].
  destruct (event_resource id self); [|by auto with calm].
  destruct (acc_cancel_event _ _) as [w [|]]; auto with calm.
Qed.

Lemma destroy_event_calm self response request_id id :
  state_inv (cp_state self) -> settled (cp_state self) -> calm (destroy_event response request_id id self).1.1.
Proof.
  intros Hinv Hs. unfold destroy_event. destruct (event_resource id self); [|by auto with calm].
  destruct (acc_poll_event _ _) as [w [[| |[]|]|]]; auto with calm; by apply release_event_calm.
Qed.

Lemma write_buffer_calm self response request_id id range data :
  state_inv (cp_state self) -> settled (cp_state self) -> calm (write_buffer response request_id id range data self).1.1.
Proof.
  intros Hinv Hs. unfold write_buffer.
  destruct (buffer_record_mut id (cp_state self)) as [[record put]|] eqn:Hg; [|by auto with calm].
  destruct (validate_transfer _ _ _); [|by auto with calm]. destruct (ResourceSlot_get _) as [b|]; [|by auto with calm].
  destruct (acc_write_buffer _ _ _ _) as [w [b' r]].
  assert (Hs' : settled (put (rec_with_slot (ResourceSlot_put b' (buf_slot record)) record))).
  { unfold buffer_record_mut in Hg. destruct (ObjectTable_get_mut id (ds_buffers (cp_state self))) as [[rec put']|] eqn:Hm; [|done].
    simpl in Hg. injection Hg as <- <-. destruct Hs. split; simpl; try done.
    eapply live_put; [apply (si_buffers _ Hinv)|done|done|done]. }
  destruct r; auto with calm.
Qed.

Lemma read_buffer_calm self response request_id id range :
  settled (cp_state self) -> calm (read_buffer response request_id id range self).1.1.
Proof.
  intros Hs. unfold read_buffer. destruct (buffer_record id (cp_state self)); [|by auto with calm].
  destruct (validate_transfer _ _ _); [|by auto with calm]. destruct (record_resource _); [|by auto with calm].
  destruct (ResponseWriter_payload _ _); [|by apply calm_settled].
  destruct (run_sink _ _) as [p' [w [u|e]]].
  - destruct (ResponsePayload_commit _ _ _) as [s r].
    pose proof (complete_calm r STATUS_OK request_id false (set_world w self) (calm_settled (set_world w self) Hs)).
    by destruct (complete_response _ _ _ _ _).
  - pose proof (backend_status_calm e (set_world w self) (calm_settled (set_world w self) Hs)) as Hb.
    destruct (backend_status e _) as [self2 status]. destruct (ResponseWriter_write_empty _ _ _) as [s r].
    pose proof (complete_calm r status request_id false self2 Hb). by destruct (complete_response _ _ _ _ _).
Qed.

Lemma submit_calm mem self response request_id q p bindings timeout :
  state_inv (cp_state self) -> settled (cp_state self) ->
  calm (submit mem response request_id q p bindings timeout self).1.1.
Proof.
  intros Hinv Hs. unfold submit. destruct (negb _); [by auto with calm|].
  destruct (create_event_with _ _ _ _ _ _ _) as [[st [w [status discard]]] r] eqn:Hc.
  apply create_event_settled in Hc; [|done..].
  destruct r as [event|[e|[e| |e|e]]]; auto with calm.
  unfold respond_event_id. destruct discard; auto with calm.
Qed.

Context `{!BackendTyped A}.

Lemma allocate_buffer_calm mem self response request_id ctx desc :
  is_u64 (bd_bytes desc) -> state_inv (cp_state self) -> settled (cp_state self) ->
  calm (allocate_buffer mem response request_id ctx desc self).1.1.
Proof.
  intros Hu Hinv Hs. unfold allocate_buffer. destruct (validate_buffer_desc _ _); [|by auto with calm].
  destruct (create_buffer_with _ _ _ _ _ _) as [[st w] r] eqn:Hc.
  pose proof (create_buffer_settled _ _ _ _ _ _ _ _ _ Hinv Hs Hc) as Hs'.
  assert (Hinv' : state_inv st).
  { eapply state_step_inv; [|exact Hinv]. eapply step_create_buffer; [|exact Hc]. intros *. by apply allocation_typed. }
  destruct r as [[id|id e]|e]; [by apply respond_bytes_calm, calm_set|by apply release_unpublished_calm|].
  by apply respond_create_error_calm, calm_set.
Qed.

Lemma dispatch_calm mem request response self :
  (forall ctx desc, dr_body request = ReqAllocateBuffer ctx desc -> is_u64 (bd_bytes desc)) ->
  state_inv (cp_state self) -> settled (cp_state self) -> calm (dispatch mem request response self).1.1.
Proof.
  intros Hu Hinv Hs. unfold dispatch.
  destruct (dr_body request);
    eauto using respond_bytes_calm, calm_settled, destroy_context_calm, free_buffer_calm, unload_program_calm,
      destroy_queue_calm, poll_event_calm, cancel_event_calm, destroy_event_calm, write_buffer_calm, read_buffer_calm,
      submit_calm, allocate_buffer_calm.
  - unfold create_context. destruct (validate_context_desc _ _); [|by auto with calm].
    destruct (create_context_with _ _ _ _) as [[st w] r] eqn:Hc. apply create_context_settled in Hc; [|done..].
    destruct r; [by apply respond_bytes_calm, calm_set|by apply respond_create_error_calm, calm_set].
  - unfold load_program. destruct (create_program_with _ _ _ _ _ _ _) as [[st w] r] eqn:Hc.
    apply create_program_settled in Hc; [|done..].
    destruct r; [by apply respond_bytes_calm, calm_set|by apply respond_create_error_calm, calm_set].
  - unfold create_queue. destruct (validate_queue_desc _ _); [|by auto with calm].
    destruct (create_queue_with _ _ _ _ _) as [[st w] r] eqn:Hc. apply create_queue_settled in Hc; [|done..].
    destruct r; [by apply respond_bytes_calm, calm_set|by apply respond_create_error_calm, calm_set].
Qed.

End Settled.

(** * What a submission hands to the backend

    The backend is asked to run only work whose queue, program and buffers are
    live objects of one context, with ranges inside the buffers, permitted
    accesses and distinct slots. *)

Section Call.
Context {C B P Q E W PE : Type}.
Implicit Types (st : DeviceState C B P Q E).

(** The one place the provider of an event is called. *)
Lemma create_event_called mem q p bs (create : SubmissionResources B P Q -> W -> W * result E PE) st w st' w' r :
  state_inv st -> create_event_with mem q p bs create st w = (st', w', r) ->
  w' = w \/ exists ctx st1 qx px res, submission_ok st ctx q [p] bs /\ refs_taken st ctx q [p] (sort_ids bs) st1 /\
    (let? record := table_get q (ds_queues st1) in record_resource record) = Ok qx /\
    (let? record := table_get p (ds_programs st1) in record_resource record) = Ok px /\
    create {| sub_context_id := ctx; sub_queue := qx; sub_program := px; sub_buffers := ds_buffers st1;
              sub_buffer_ids := sort_ids bs |} w = (w', res).
Proof.
  intros Hinv. unfold create_event_with.
  destruct (zlen bs =? 0); [intros [= _ <- _]; by left|]. destruct (_ <? _); [intros [= _ <- _]; by left|].
  destruct (validate_submission q p bs st) as [ctx|] eqn:Hv; [|intros [= _ <- _]; by left].
  apply validate_submission_Ok in Hv. unfold admit_event.
  destruct (table_get ctx (ds_contexts st)) as [c|] eqn:Hc; [|intros [= _ <- _]; by left].
  apply table_get_Ok in Hc.
  destruct (Z.leb_spec (max_events_per_context (ds_limits st)) (ch_events (ctx_children c))) as [|Hlt];
    [intros [= _ <- _]; by left|].
  destruct (try_reserve_insert mem (ds_events st)); [|intros [= _ <- _]; by left].
  destruct (check_reference_increments _ _ _ _) as [u|] eqn:Hchk; [|intros [= _ <- _]; by left].
  pose proof (check_reference_increments_Ok _ _ _ _ _ (sort_ids_sorted bs) Hchk) as Hfit.
  destruct (increment_spec st ctx q [p] (sort_ids bs) c Hinv (proj1 Hv) Hfit Hc Hlt) as (st1 & -> & Htaken).
  unfold call_with_submission at 1.
  destruct (let? record := table_get q (ds_queues st1) in record_resource record) as [qx|] eqn:Hq;
    [|intros [= _ <- _]; by left].
  destruct (let? record := table_get p (ds_programs st1) in record_resource record) as [px|] eqn:Hp;
    [|intros [= _ <- _]; by left].
  destruct (create _ w) as [w1 res] eqn:Hcr. intros Hend. right. exists ctx, st1, qx, px, res.
  assert (w1 = w') as ->; [|done].
  destruct res; simpl in Hend; repeat case_match; by simplify_eq.
Qed.

End Call.

Section Submit.
Context {A : Accelerator}.
Implicit Types (self : CommandProcessor) (st : AcceleratorState).

(** A binding of the request and its native form. *)
Definition binding_admitted st (ctx : ObjectId) (b : DecodedBinding) (n : BindingRef Buffer) : Prop :=
  exists record, buffer_record (db_buffer_id b) st = Ok record /\ buf_context_id record = ctx /\
    slot_resource (buf_slot record) = Some (bref_buffer n) /\
    BufferRange_end (db_range b) <= bd_bytes (bi_desc (buf_info record)) /\
    allows_access (bi_desc (buf_info record)) (db_access b) = true /\
    bref_slot n = db_slot b /\ bref_range n = db_range b /\ bref_access n = db_access b.

Lemma native_bindings_Ok st ctx st1 q p ids qx px bindings native :
  refs_taken st ctx q [p] ids st1 -> (forall x, x ∈ ids -> live_in (ds_buffers st) ctx x) ->
  native_bindings {| sub_context_id := ctx; sub_queue := qx; sub_program := px; sub_buffers := ds_buffers st1;
                     sub_buffer_ids := ids |} bindings = Ok native ->
  Forall2 (binding_admitted st ctx) bindings native.
Proof.
  intros Ht Hlive. revert native. induction bindings as [|b rest IH]; intros native; cbn [native_bindings].
  { intros [= <-]. constructor. }
  unfold buffer_with_info_by_id, retained_buffer. cbn [sub_buffers sub_buffer_ids].
  case_bool_decide as Hin; [|done].
  destruct (Hlive _ Hin) as (r & Hr & Hctx & [x Hx]).
  destruct (rt_buffers _ _ _ _ _ _ Ht) as (_ & _ & _ & Hl & _).
  assert (Hg : lookup_id (db_buffer_id b) (ds_buffers st1) =
    Some (rec_with_in_flight (rec_in_flight r + count_id (db_buffer_id b) ids) r)) by (by rewrite Hl, Hr).
  rewrite (proj2 (table_get_Ok _ _ _) Hg). unfold record_resource, ResourceSlot_get.
  simpl in Hx |- *. rewrite Hx. cbn [ok_or map_err].
  destruct (Z.ltb_spec (bd_bytes (bi_desc (buf_info r))) (BufferRange_end (db_range b))); [done|].
  destruct (allows_access (bi_desc (buf_info r)) (db_access b)) eqn:Ha; [|done]. cbn [negb].
  destruct (native_bindings _ rest) as [others|]; [|done]. intros [= <-]. constructor; [|by apply IH].
  exists r. split_and!; try done. by apply table_get_Ok.
Qed.

(** The objects the backend gets for a live submission. *)
Lemma bumped_resource {Rec R} `{RefRecord Rec R} n (t t1 : ObjectTable Rec) id x :
  bumped n t t1 -> (let? record := table_get id t1 in record_resource record) = Ok x ->
  exists r, table_get id t = Ok r /\ slot_resource (rec_slot r) = Some x.
Proof.
  intros (_ & _ & _ & Hl & _). destruct (table_get id t1) as [r1|] eqn:Hg; [|done]. apply table_get_Ok in Hg.
  rewrite Hl in Hg. destruct (lookup_id id t) as [r|] eqn:Hr; [|done]. simpl in Hg. simplify_eq.
  unfold record_resource, ResourceSlot_get. rewrite bump_slot.
  destruct (slot_resource (rec_slot r)) as [y|] eqn:Hs; [|done]. intros [= <-]. exists r.
  split; [by apply table_get_Ok|done].
Qed.

Lemma submit_backend_call mem max_bindings bindings timeout (res : SubmissionResources Buffer Program Queue) w adm w' r :
  submit_admission mem max_bindings bindings timeout res (w, adm) = (w', r) ->
  w' = (w, adm) \/ exists native answer, native_bindings res bindings = Ok native /\
    validate_bindings native max_bindings = Ok tt /\
    acc_submit (sub_queue res) (sub_program res) native timeout w = (w'.1, answer).
Proof.
  unfold submit_admission. destruct (cm_native_bindings mem); cbn [negb]; [|intros [= <- _]; by left].
  destruct (native_bindings res bindings) as [native|] eqn:Hn; [|intros [= <- _]; by left].
  destruct (validate_bindings native max_bindings) as [[]|] eqn:Hv; [|intros [= <- _]; by left].
  destruct (acc_submit _ _ native timeout w) as [w1 answer] eqn:Ha. intros Hr. right. exists native, answer.
  split; [done|]. split; [done|]. destruct answer as [|[|]]; by simplify_eq/=.
Qed.

Context {S : Type} `{ByteSink S}.

Lemma complete_response_world r status request_id mutated self :
  cp_accelerator (complete_response r status request_id mutated self).1 = cp_accelerator self.
Proof. unfold complete_response. destruct r; [done|]. by destruct (mutated && _). Qed.

Lemma respond_empty_world (response : S) status request_id mutated self :
  cp_accelerator (respond_empty response status request_id mutated self).1.1 = cp_accelerator self.
Proof.
  unfold respond_empty. destruct (ResponseWriter_write_empty _ _ _) as [s r].
  pose proof (complete_response_world r status request_id mutated self).
  by destruct (complete_response _ _ _ _ _).
Qed.

Lemma respond_bytes_world (response : S) status request_id payload mutated self :
  cp_accelerator (respond_bytes response status request_id payload mutated self).1.1 = cp_accelerator self.
Proof.
  unfold respond_bytes. match goal with |- context [match ?e with (_, _) => _ end] => destruct e as [s r] end.
  pose proof (complete_response_world r status request_id mutated self).
  by destruct (complete_response _ _ _ _ _).
Qed.

Lemma respond_backend_error_world (response : S) request_id error mutated self :
  cp_accelerator (respond_backend_error response request_id error mutated self).1.1 = cp_accelerator self.
Proof.
  unfold respond_backend_error, backend_status. case_bool_decide; by rewrite respond_empty_world.
Qed.

(** The world of a submission is the one its admission left. *)
Lemma submit_world mem (response : S) request_id q p bindings timeout self :
  cm_buffer_ids mem = true ->
  cp_accelerator (submit mem response request_id q p bindings timeout self).1.1 =
    (create_event_with (cm_table mem) q p (map db_buffer_id bindings)
       (submit_admission mem (max_bindings_per_submission (info_limits (cp_info self))) bindings timeout)
       (cp_state self) (cp_accelerator self, (STATUS_OK, false))).1.2.1.
Proof.
  intros Hm. unfold submit. rewrite Hm. cbn [negb].
  destruct (create_event_with _ _ _ _ _ _ _) as [[st [w [status discard]]] r].
  destruct r as [event|[e|[e| |e|e]]]; cbn [fst snd];
    unfold respond_state_error, discard_response, respond_event_id;
    rewrite ?respond_empty_world, ?respond_backend_error_world, ?respond_bytes_world; try done.
  by destruct discard.
Qed.

(** C38: the backend sees only validated work.  If a submission changes the
    backend at all, it did so in one call of [submit] on the live queue and
    program of one context, with one native binding per requested binding:
    the buffer is live in that context, the range lies inside it, the access
    is permitted, the slots are distinct and at most the advertised number. *)
Theorem submit_validates mem (response : S) request_id q p bindings timeout self self' response' r :
  engine_inv self ->
  submit mem response request_id q p bindings timeout self = (self', response', r) ->
  cp_accelerator self' = cp_accelerator self \/
  exists ctx qr pr qx px native answer,
    queue_record q (cp_state self) = Ok qr /\ que_context_id qr = ctx /\ slot_resource (que_slot qr) = Some qx /\
    program_record p (cp_state self) = Ok pr /\ prg_context_id pr = ctx /\ slot_resource (prg_slot pr) = Some px /\
    Forall2 (binding_admitted (cp_state self) ctx) bindings native /\
    native <> [] /\ zlen native <= max_bindings_per_submission (info_limits (cp_info self)) /\
    NoDup (slots_of native) /\
    acc_submit qx px native timeout (cp_accelerator self) = (cp_accelerator self', answer).
Proof.
  intros Hinv Hs. pose proof (submit_world mem response request_id q p bindings timeout self) as Hw. rewrite Hs in Hw.
  cbn [fst] in Hw. destruct (cm_buffer_ids mem) eqn:Hm.
  2:{ left. unfold submit in Hs. rewrite Hm in Hs. cbn [negb] in Hs.
      pose proof (respond_empty_world response STATUS_OUT_OF_MEMORY request_id false self) as He. by rewrite Hs in He. }
  rewrite (Hw eq_refl). clear Hw Hs.
  destruct (create_event_with _ _ _ _ _ _ _) as [[st' w'] res] eqn:Hc. cbn [fst snd].
  destruct (create_event_called _ _ _ _ _ _ _ _ _ _ (ei_state _ Hinv) Hc) as [->|(ctx & st1 & qx & px & ans & Hok & Ht & Hq & Hp & Hcr)];
    [by left|].
  destruct (submit_backend_call _ _ _ _ _ _ _ _ _ Hcr) as [->|(native & answer & Hn & Hv & Ha)]; [by left|].
  right. pose proof Hok as ((qr & Hqr & Hqc & _) & _ & Hlp & Hlb). destruct (Hlp p) as (pr & Hpr & Hpc & _); [set_solver|].
  destruct (bumped_resource _ _ _ _ _ (rt_queues _ _ _ _ _ _ Ht) Hq) as (qr' & Hgq & Hqx).
  destruct (bumped_resource _ _ _ _ _ (rt_programs _ _ _ _ _ _ Ht) Hp) as (pr' & Hgp & Hpx).
  pose proof (proj1 (table_get_Ok _ _ _) Hgq). pose proof (proj1 (table_get_Ok _ _ _) Hgp). simplify_eq.
  rewrite validate_bindings_spec in Hv. destruct (decide (native = [] \/ _)) as [|Hne]; [done|].
  destruct (decide (NoDup (slots_of native))) as [Hnd|]; [|done].
  exists (que_context_id qr), qr, pr, qx, px, native, answer. split_and!; try done.
  - eapply native_bindings_Ok; [exact Ht| |exact Hn]. intros x Hx. apply Hlb. by rewrite <- (sort_ids_perm _).
  - intros ->. apply Hne. by left.
  - destruct (Z.le_gt_cases (zlen native) (max_bindings_per_submission (info_limits (cp_info self)))); [done|].
    exfalso. apply Hne. right. lia.
Qed.

End Submit.
