(* ===== verification/EngineProps.v ===== *)
(** * What the command engine promises

    The life of a processor as a step relation over commands and resets, and
    the properties of every processor it can reach. *)

From Stdlib Require Import ZArith Lia.
From stdpp Require Import prelude list relations.
From S2P Require Import Prelude Codec Proto Transport Core ObjectTable Regions Response Decoder DecoderSpec Frame State TableFacts ChildInv StateInv StateEvents StateFacts Engine EngineFacts ResetFacts ResetLive Settled.

Section Life.
Context {A : Accelerator} `{!BackendTyped A}.
Implicit Types (self : CommandProcessor).

Lemma reset_inv namespace self :
  engine_inv self -> is_u16 namespace -> engine_inv (reset namespace self).1.
Proof.
  intros Hinv Hns. destruct (decide (cp_health self = BackendDiscardRequired)) as [Hd|Hd].
  { unfold reset. rewrite bool_decide_true by done. destruct (cp_last_reset self); [done|]. by destruct Hinv; split. }
  destruct (decide (namespace = ds_namespace (cp_state self))) as [He|He].
  { unfold reset. by rewrite bool_decide_false, (proj2 (Z.eqb_eq _ _)). }
  destruct (reset namespace self) as [self' r] eqn:Hr.
  destruct (reset_cases _ _ _ _ Hinv Hns Hd He Hr)
    as (report & _ & _ & _ & _ & _ & Hi & Hp & Hdc & _ & Hq & Hqb & Hout). simpl.
  assert (Hpass : state_inv (pass_state (reset_pass (reset_start self)))).
  { eapply (pass_inv (set_last_reset None (set_health NeedsReset self))); [apply Hinv|].
    apply reset_pass_ok; [apply Hinv|apply reset_start_ok]. }
  assert (Hst : ds_limits (cp_state self') = info_limits (cp_info self) /\ ds_policy (cp_state self') = cp_policy self /\
    state_inv (cp_state self')).
  { destruct (rr_disposition report).
    - destruct Hout as (_ & _ & _ & _ & Hnew).
      apply DeviceState_new_inv in Hnew as (? & _ & _ & ? & ? & _); [done|done|apply Hinv|apply Hinv].
    - destruct Hout as (_ & _ & -> & _). split_and!; [| |done];
        destruct (state_steps_inv _ _ (po_steps _ _ (reset_pass_ok (set_last_reset None (set_health NeedsReset self))
          (reset_start self) (ei_state _ Hinv) (reset_start_ok self))) (ei_state _ Hinv)) as [_ (Hl & Hpo & _)].
      + rewrite Hl. apply Hinv.
      + rewrite Hpo. apply Hinv. }
  destruct Hst as (? & ? & ?), Hinv. by split; rewrite ?Hi, ?Hp, ?Hdc.
Qed.

(** One command or one reset. *)
Inductive processor_step : CommandProcessor -> CommandProcessor -> Prop :=
  | step_process {S : Type} {BS : ByteSink S} {BSS : ByteSinkSpec S} mem regions request bytes
      (response response' : S) self self' r :
      source_of request bytes -> sink_inv response ->
      process mem regions request response self = (self', response', r) -> processor_step self self'
  | step_reset namespace self :
      is_u16 namespace -> processor_step self (reset namespace self).1.

(** Between two calls the backend works on: events complete, the harness or
    the hardware changes what it holds. *)
Inductive system_step : CommandProcessor -> CommandProcessor -> Prop :=
  | sys_device self self' : processor_step self self' -> system_step self self'
  | sys_backend w self : system_step self (set_world w self).

Definition processor_reachable self : Prop :=
  exists w config namespace policy w' self0,
    is_u16 namespace /\ 0 < rp_max_program_resident_bytes policy /\
    CommandProcessor_new w config namespace policy = (w', Ok self0) /\ rtc system_step self0 self.

Lemma processor_step_inv self self' : processor_step self self' -> engine_inv self -> engine_inv self'.
Proof.
  intros [S BS BSS mem regions request bytes response response' a a' r Hsrc Hi Hp|namespace a Hns] Hinv;
    [|by apply reset_inv].
  destruct (process_cases _ _ _ _ _ _ _ _ _ Hinv Hsrc Hi Hp)
    as (_ & _ & [(-> & _)|[(-> & _)|(req & _ & _ & [(_ & -> & _)|(Hrun & Hm & _)])]]); try done.
  by eapply moved_inv.
Qed.

(** As long as the device need not be discarded no release is half done. *)
Lemma processor_step_calm self self' : processor_step self self' -> engine_inv self -> calm self -> calm self'.
Proof.
  intros [S BS BSS mem regions request bytes response response' a a' r Hsrc Hi Hp|namespace a Hns] Hinv Hc.
  - destruct (process_cases _ _ _ _ _ _ _ _ _ Hinv Hsrc Hi Hp)
      as (_ & _ & [(-> & _)|[(-> & _)|(req & Hdec & _ & [(_ & -> & _)|(Hrun & _ & Hd & _)])]]); try done.
    assert (Hu : forall ctx desc, dr_body req = ReqAllocateBuffer ctx desc -> is_u64 (bd_bytes desc)).
    { intros ctx desc Hb. destruct (decode_frame_sound _ _ _ _ _ _ Hsrc Hdec) as (w & _ & (_ & Hok & _) & Hbody & _).
      rewrite Hb in Hbody. destruct w as [| |op id| | | | | |]; try done; [by destruct op|].
      cbn [body_of] in Hbody. injection Hbody as _ <-. cbn [request_ok] in Hok. destruct_and!. lia. }
    pose proof (dispatch_calm mem req response (set_last_reset None a) Hu (ei_state _ Hinv)) as Hcalm.
    rewrite Hd in Hcalm. apply Hcalm, Hc. by rewrite Hrun.
  - destruct (decide (cp_health a = BackendDiscardRequired)) as [Hd|Hd].
    { unfold reset. rewrite bool_decide_true by done. destruct (cp_last_reset a); [done|]. intros Hn. by destruct Hn. }
    destruct (decide (namespace = ds_namespace (cp_state a))) as [He|He].
    { unfold reset. by rewrite bool_decide_false, (proj2 (Z.eqb_eq _ _)). }
    destruct (reset namespace a) as [a' r] eqn:Hr. simpl.
    destruct (reset_cases _ _ _ _ Hinv Hns Hd He Hr) as (report & _ & _ & _ & _ & _ & _ & _ & _ & _ & _ & _ & Hout).
    destruct (rr_disposition report).
    + destruct Hout as (_ & _ & _ & _ & Hnew). apply calm_settled.
      eapply new_settled; [exact Hns|apply Hinv|apply Hinv|exact Hnew].
    + destruct Hout as (Hh & _). by intros ?.
Qed.

Lemma CommandProcessor_new_state w config namespace policy w' self :
  CommandProcessor_new w config namespace policy = (w', Ok self) ->
  DeviceState_new namespace (info_limits (cp_info self)) policy = Ok (cp_state self) /\ cp_policy self = policy.
Proof.
  unfold CommandProcessor_new. destruct (WireConfig_validate config); [|done]. cbn [map_err].
  destruct (acc_device_info w) as [w1 [info|]]; [|done]. cbn [map_err].
  destruct (DeviceInfo_validate info); [|done]. cbn [map_err]. destruct (DecoderLimits_new config info); [|done].
  cbn [map_err]. destruct (DeviceState_new _ _ _) as [st|] eqn:Hst; [|done]. by intros [= _ <-].
Qed.

Lemma processor_reachable_inv self : processor_reachable self -> engine_inv self /\ calm self.
Proof.
  intros (w & config & ns & policy & w' & self0 & Hns & Hpol & Hnew & Hsteps).
  assert (H0 : engine_inv self0 /\ calm self0).
  { pose proof (CommandProcessor_new_inv _ _ _ _ _ _ Hns Hpol Hnew) as [Hinv _]. split; [done|].
    apply CommandProcessor_new_state in Hnew as [Hnew _]. apply calm_settled.
    eapply new_settled; [exact Hns|apply Hinv|exact Hpol|exact Hnew]. }
  clear Hnew. induction Hsteps as [|x y z Hxy _ IH]; [done|]. destruct H0.
  apply IH. destruct Hxy as [x y Hxy|w1 x].
  - split; [by eapply processor_step_inv|by eapply processor_step_calm].
  - destruct H. by split; [split|].
Qed.

(** The device keeps what its backend announced. *)
Lemma processor_step_info self self' : processor_step self self' -> engine_inv self -> cp_info self' = cp_info self.
Proof.
  intros [S BS BSS mem regions request bytes response response' a a' r Hsrc Hi Hp|namespace a Hns] Hinv.
  - destruct (process_cases _ _ _ _ _ _ _ _ _ Hinv Hsrc Hi Hp)
      as (_ & _ & [(-> & _)|[(-> & _)|(req & _ & _ & [(_ & -> & _)|(Hrun & Hm & _)])]]); try done. apply Hm.
  - destruct (decide (cp_health a = BackendDiscardRequired)) as [Hd|Hd].
    { unfold reset. rewrite bool_decide_true by done. by destruct (cp_last_reset a). }
    destruct (decide (namespace = ds_namespace (cp_state a))) as [He|He].
    { unfold reset. by rewrite bool_decide_false, (proj2 (Z.eqb_eq _ _)). }
    destruct (reset namespace a) as [a' r] eqn:Hr. simpl.
    destruct (reset_cases _ _ _ _ Hinv Hns Hd He Hr) as (report & _ & _ & _ & _ & _ & Hi & _). apply Hi.
Qed.

Lemma processor_reachable_info self :
  processor_reachable self -> exists w w', acc_device_info w = (w', Ok (cp_info self)).
Proof.
  intros (w & config & ns & policy & w' & self0 & Hns & Hpol & Hnew & Hsteps).
  pose proof (CommandProcessor_new_inv _ _ _ _ _ _ Hns Hpol Hnew) as [Hinv _].
  assert (H0 : exists w w', acc_device_info w = (w', Ok (cp_info self0))).
  { unfold CommandProcessor_new in Hnew. destruct (WireConfig_validate config); [|done]. cbn [map_err] in Hnew.
    destruct (acc_device_info w) as [w1 [info|]] eqn:Hi; [|done]. cbn [map_err] in Hnew. exists w, w1. rewrite Hi.
    destruct (DeviceInfo_validate info); [|done]. cbn [map_err] in Hnew. destruct (DecoderLimits_new config info); [|done].
    cbn [map_err] in Hnew. destruct (DeviceState_new _ _ _); [|done]. by injection Hnew as _ <-. }
  clear Hnew. induction Hsteps as [|x y z Hxy _ IH]; [done|]. destruct Hxy as [x y Hxy|w1 x].
  - apply IH; [by eapply processor_step_inv|]. by rewrite (processor_step_info _ _ Hxy Hinv).
  - apply IH; [|done]. destruct Hinv. by split.
Qed.

(** C1: whatever the guest sends, whatever the backend answers and however
    often the device is reset, the object graph keeps its invariant, the
    limits stay those the backend announced, and unless the backend must be
    discarded nothing is quarantined and no release is left half done. *)
Theorem processor_invariant self :
  processor_reachable self ->
  state_inv (cp_state self) /\ ds_limits (cp_state self) = info_limits (cp_info self) /\
  ds_policy (cp_state self) = cp_policy self /\
  (cp_health self <> BackendDiscardRequired ->
     cp_quarantined self = ResourceCounts_default /\ cp_quarantined_bytes self = RetainedBytes_default /\
     settled (cp_state self)).
Proof.
  intros [[] Hc]%processor_reachable_inv. split_and!; try done. intros Hh. destruct (ei_clean Hh). auto.
Qed.

(** ** Commands *)

Section Commands.
Context {S : Type} `{ByteSinkSpec S}.
Implicit Types (response : S).

(** C2: a command always ends in an answer.  On ports that keep their
    contracts [process] never fails: an unusable chain changes nothing, and
    any other frame is answered by exactly one well-formed response frame
    whose length it reports, inside the response buffer and with nothing
    changed beyond the bytes reserved for the command. *)
Theorem process_always_answers mem regions request bytes response self self' response' r :
  engine_inv self -> source_of request bytes -> sink_inv response ->
  process mem regions request response self = (self', response', r) ->
  zlen (sink_content response') = zlen (sink_content response) /\
  ((exists e, r = Ok (OutcomeUnusable e) /\ self' = self /\ response' = response) \/
   (exists request_id status payload reserved,
      r = Ok (OutcomeResponse request_id status (16 + zlen payload)) /\
      16 + zlen payload <= reserved <= zlen (sink_content response) /\
      slice 0 (16 + zlen payload) (sink_content response') = response_frame status request_id payload /\
      (forall o n, reserved <= o -> 0 <= n ->
         slice o n (sink_content response') = slice o n (sink_content response)) /\
      (forall req, FrameDecoder_decode (cm_decode mem) (cp_decoder self) request
           (zlen (sink_content response)) = Ok req ->
         request_id = dr_request_id req /\ reserved <= dr_required_response_bytes req))).
Proof.
  intros Hinv Hsrc Hi Hp.
  destruct (process_cases _ _ _ _ _ _ _ _ _ Hinv Hsrc Hi Hp)
    as (_ & Hlen & [(-> & -> & e & ->)|[(-> & id & status & Hdec & Ha)|(req & Hdec & Hfit & Hcase)]]).
  - split; [done|]. left. eauto.
  - split; [done|]. right. exists id, status, [], 16. destruct Ha as [_ -> _ _ Hf Hr].
    pose proof (decode_protocol_capacity _ _ _ _ _ _ Hdec). split_and!; try done. intros req Hreq. congruence.
  - split; [done|]. right.
    assert (Hreq : 16 <= dr_required_response_bytes req).
    { destruct (decode_frame_sound _ _ _ _ _ _ Hsrc Hdec) as (w & _ & (_ & Hok & _) & _ & ->).
      destruct w; simpl; try lia; [case_decide; lia|]. destruct Hok as (_ & [_ [? _]] & _). simpl in *. lia. }
    destruct Hcase as [(_ & _ & Ha)|(_ & _ & _ & status & payload & Ha & _)].
    + exists (dr_request_id req), STATUS_DEVICE_LOST, [], 16. destruct Ha as [_ -> _ _ Hf Hr].
      split_and!; try done; [cbn; lia|]. intros req' Hreq'. rewrite Hdec in Hreq'. injection Hreq' as <-. split; [done|lia].
    + exists (dr_request_id req), status, payload, (dr_required_response_bytes req).
      destruct Ha as [_ -> Hft _ Hf Hr]. split_and!; try done; try lia. intros req' Hreq'. rewrite Hdec in Hreq'. injection Hreq' as <-. split; [done|lia].
Qed.

(** Malformed input and lost devices are inert.  A frame that does not
    decode, or any frame while the device is not running, leaves the
    processor exactly as it was: no object changes and the backend is not
    called. *)
Theorem process_inert mem regions request bytes response self self' response' r :
  engine_inv self -> source_of request bytes -> sink_inv response ->
  process mem regions request response self = (self', response', r) ->
  cp_health self <> Running \/
  (forall req, FrameDecoder_decode (cm_decode mem) (cp_decoder self) request (zlen (sink_content response)) <> Ok req) ->
  self' = self.
Proof.
  intros Hinv Hsrc Hi Hp Hcase.
  destruct (process_cases _ _ _ _ _ _ _ _ _ Hinv Hsrc Hi Hp)
    as (_ & _ & [(-> & _)|[(-> & _)|(req & Hdec & _ & [(_ & -> & _)|(Hrun & _)])]]); try done.
  destruct Hcase as [|Hno]; [done|]. by apply Hno in Hdec.
Qed.

(** Discovery tells the truth.  A well-formed [GET_DEVICE_INFO] on a
    running device is answered with the information the backend gave at
    construction, and touches neither the graph nor the backend. *)
Theorem device_info_reported mem regions layout request request_id response self :
  engine_inv self -> cp_health self = Running -> sink_inv response ->
  source_of request (frame_of request_id WqGetDeviceInfo) -> 0 < request_id <= U64_MAX ->
  97 <= dl_max_request_bytes (fd_limits (cp_decoder self)) <= U32_MAX -> 92 <= zlen (sink_content response) ->
  cm_decode mem = true ->
  validate_chain_layout regions (dl_max_chain_descriptors (fd_limits (cp_decoder self))) = Ok layout ->
  cl_readable_bytes layout = 16 -> cl_writable_bytes layout = zlen (sink_content response) ->
  exists response', process mem regions request response self =
      (set_last_reset None self, response', Ok (OutcomeResponse request_id STATUS_OK 92)) /\
    slice 0 92 (sink_content response') =
      response_frame STATUS_OK request_id (as_bytes (wire_device_info (cp_info self))).
Proof.
  intros Hinv Hrun Hi Hsrc Hid Hmaxreq Hcap Hmem Hlayout Hrd Hwr. pose proof (ei_response _ Hinv) as Hmax.
  assert (Hdec : FrameDecoder_decode (cm_decode mem) (cp_decoder self) request (zlen (sink_content response)) =
    Ok {| dr_request_id := request_id; dr_required_response_bytes := 92; dr_body := ReqGetDeviceInfo |}).
  { rewrite Hmem.
    apply (decode_frame_complete (cp_decoder self) request (zlen (sink_content response)) request_id WqGetDeviceInfo);
      try done; try lia. unfold frame_ok. cbn [request_ok success_bytes wire_payload].
    change (zlen []) with 0. split_and!; try done; lia. }
  assert (Hpre : preflight_command_frame (cm_decode mem) (cp_decoder self) regions request response =
    (response, Ok (PreflightReady {| dr_request_id := request_id; dr_required_response_bytes := 92;
                                     dr_body := ReqGetDeviceInfo |}))).
  { unfold preflight_command_frame. rewrite Hlayout. unfold ChainLayout_validate_port_lengths.
    rewrite (so_len _ _ Hsrc), (sink_len_spec _ Hi), Hrd, Hwr.
    change (zlen (frame_of request_id WqGetDeviceInfo)) with 16. rewrite !Z.eqb_refl. cbn. by rewrite Hdec. }
  unfold process. rewrite Hpre. cbn [map_err]. rewrite bool_decide_true by done. cbn [negb dispatch dr_body dr_request_id].
  pose proof (device_info_length _ (proj2 (ei_info _ Hinv))) as Hlen.
  destruct (respond_bytes_spec response 92 request_id STATUS_OK (as_bytes (wire_device_info (cp_info self))) false
    (set_last_reset None self)) as (response' & He & Ha); [split; cbn; auto; lia|lia|].
  rewrite Hlen in *. exists response'. split; [exact He|]. pose proof (an_frame _ _ _ _ _ _ _ Ha) as Hf.
  by rewrite Hlen in Hf.
Qed.

(** Transfers are guarded.  A buffer that is in flight, a range that
    leaves the buffer or a usage that was not requested at allocation refuses
    the transfer with the matching status, before the backend is reached and
    with the processor unchanged. *)
Theorem transfers_guarded response need request_id id range data record self :
  ready self response need -> buffer_record id (cp_state self) = Ok record ->
  let desc := bi_desc (buf_info record) in
  (forall usage, validate_transfer record range usage =
     if decide (buf_in_flight record <> 0) then Err STATUS_BUSY
     else if decide (bd_bytes desc < BufferRange_end range) then Err STATUS_OUT_OF_BOUNDS
     else if decide (Z.land (bd_usage desc) usage <> usage) then Err STATUS_PERMISSION_DENIED else Ok tt) /\
  (forall status, validate_transfer record range TRANSFER_DESTINATION = Err status ->
     exists response', write_buffer response request_id id range data self =
       (self, response', Ok (OutcomeResponse request_id status 16))) /\
  (forall status, validate_transfer record range TRANSFER_SOURCE = Err status ->
     exists response', read_buffer response request_id id range self =
       (self, response', Ok (OutcomeResponse request_id status 16))).
Proof.
  intros Hready Hrec desc. split_and!.
  - intros usage. unfold validate_transfer, bits_contains. fold desc.
    destruct (Z.eqb_spec (buf_in_flight record) 0); simpl; [rewrite decide_False by lia|by rewrite decide_True].
    destruct (Z.ltb_spec (bd_bytes desc) (BufferRange_end range)); [by rewrite decide_True|rewrite decide_False by lia].
    destruct (Z.eqb_spec (Z.land (bd_usage desc) usage) usage); simpl;
      [by rewrite decide_False by (intros Hn; by apply Hn)|by rewrite decide_True].
  - intros status Hv. apply table_get_Ok in Hrec. destruct (get_mut_total _ _ _ Hrec) as [put Hg].
    unfold write_buffer, buffer_record_mut. rewrite Hg. cbn [map_err]. rewrite Hv.
    destruct (respond_empty_spec response need request_id status false self Hready) as (response' & -> & _). eauto.
  - intros status Hv. unfold read_buffer. rewrite Hrec, Hv.
    destruct (respond_empty_spec response need request_id status false self Hready) as (response' & -> & _). eauto.
Qed.

Lemma discard_response_self response request_id self :
  (discard_response response request_id self).1.1 = require_backend_discard self.
Proof.
  unfold discard_response, respond_empty. destruct (ResponseWriter_write_empty _ _ _) as [s r].
  unfold complete_response. destruct r; [done|]. by rewrite bool_decide_false, andb_false_r.
Qed.

(** A release whose outcome the backend cannot tell. *)
Lemma release_protocol_indeterminate {R} begin release commit restore quarantine one bytes bump add
    response request_id self st1 (x : R) w' e :
  releasable begin commit restore bump add (cp_state self) one bytes ->
  begin (cp_state self) = (st1, Ok x) -> release x (cp_accelerator self) = (w', Err (ReleaseIndeterminate e)) ->
  exists st2, less (cp_state self) st2 one bytes /\
    (release_protocol begin release commit restore quarantine response request_id self).1.1 =
      require_backend_discard (quarantine (set_state st2 (set_world w' (set_state st1 self)))).
Proof.
  intros [_ Hcommit _ _] Hb Hr. destruct (Hcommit _ _ Hb) as (_ & st2 & Hc & Hl).
  exists st2. split; [done|]. unfold release_protocol. rewrite Hb.
  change (cp_accelerator (set_state st1 self)) with (cp_accelerator self). rewrite Hr.
  change (cp_state (set_world w' (set_state st1 self))) with st1. rewrite Hc. cbn [is_ok].
  apply discard_response_self.
Qed.

(** What is left of [self] when [one] object with [bytes] is lost. *)
Definition lost_in_quarantine self self' (one : ResourceCounts) (bytes : RetainedBytes) : Prop :=
  cp_health self' = BackendDiscardRequired /\ cp_quarantined self' = one /\ cp_quarantined_bytes self' = bytes /\
  less (cp_state self) (cp_state self') one bytes.

Lemma counts_default_l c : counts_add ResourceCounts_default c = c.
Proof. by destruct c. Qed.

Lemma bytes_default_l b : bytes_add RetainedBytes_default b = b.
Proof. by destruct b. Qed.

Lemma count_from_default one bytes bump add :
  counts_one one bytes bump add -> bump ResourceCounts_default = one /\ add RetainedBytes_default = bytes.
Proof.
  intros [H1 H2 _]. rewrite H1, H2, counts_default_l, bytes_default_l; [done|..]; unfold small_counts, small_bytes; simpl; lia.
Qed.

Lemma free_buffer_protocol response request_id id self record :
  buffer_record id (cp_state self) = Ok record ->
  free_buffer response request_id id self =
    release_protocol (begin_buffer_release id) acc_free_buffer (commit_buffer_release id) (restore_buffer_release id)
      (fun self => set_quarantined (bump_buffers (cp_quarantined self))
         (add_backing (bi_allocation_bytes (buf_info record)) (cp_quarantined_bytes self)) self)
      response request_id self.
Proof. intros Hrec. unfold free_buffer. by rewrite Hrec. Qed.

Lemma unload_program_protocol response request_id id self record :
  program_record id (cp_state self) = Ok record ->
  unload_program response request_id id self =
    release_protocol (begin_program_release id) acc_unload_program (commit_program_release id) (restore_program_release id)
      (fun self => set_quarantined (bump_programs (cp_quarantined self))
         (add_resident (prg_resident_bytes record) (cp_quarantined_bytes self)) self)
      response request_id self.
Proof. intros Hrec. unfold unload_program. by rewrite Hrec. Qed.

(** An object of uncertain fate is quarantined, not forgotten.  When the
    backend cannot tell whether a release took effect, exactly that object
    and its bytes move from the graph to the quarantine and the device asks
    to be discarded. *)
Theorem indeterminate_release_quarantined response request_id id self w' e :
  engine_inv self -> cp_health self = Running ->
  (forall st1 x, begin_context_release id (cp_state self) = (st1, Ok x) ->
     acc_destroy_context x (cp_accelerator self) = (w', Err (ReleaseIndeterminate e)) ->
     lost_in_quarantine self (destroy_context response request_id id self).1.1 one_context RetainedBytes_default) /\
  (forall st1 x, begin_queue_release id (cp_state self) = (st1, Ok x) ->
     acc_destroy_queue x (cp_accelerator self) = (w', Err (ReleaseIndeterminate e)) ->
     lost_in_quarantine self (destroy_queue response request_id id self).1.1 one_queue RetainedBytes_default) /\
  (forall st1 x record, buffer_record id (cp_state self) = Ok record ->
     begin_buffer_release id (cp_state self) = (st1, Ok x) ->
     acc_free_buffer x (cp_accelerator self) = (w', Err (ReleaseIndeterminate e)) ->
     lost_in_quarantine self (free_buffer response request_id id self).1.1 one_buffer
       (backing_bytes (bi_allocation_bytes (buf_info record)))) /\
  (forall st1 x record, program_record id (cp_state self) = Ok record ->
     begin_program_release id (cp_state self) = (st1, Ok x) ->
     acc_unload_program x (cp_accelerator self) = (w', Err (ReleaseIndeterminate e)) ->
     lost_in_quarantine self (unload_program response request_id id self).1.1 one_program
       (resident_bytes_of (prg_resident_bytes record))).
Proof.
  intros Hinv Hrun. destruct (ei_clean _ Hinv) as [Hq Hqb]; [by rewrite Hrun|].
  pose proof (ei_state _ Hinv) as Hst. split_and!.
  - intros st1 x Hb Hr. pose proof (context_releasable id _ Hst) as Hrel.
    destruct (release_protocol_indeterminate _ acc_destroy_context _ _
      (fun self => set_quarantined (bump_contexts (cp_quarantined self)) (cp_quarantined_bytes self) self)
      _ _ _ _ response request_id self st1 x w' e Hrel Hb Hr) as (st2 & Hl & He).
    change (release_protocol _ _ _ _ _ response request_id self) with (destroy_context response request_id id self) in He.
    rewrite He. unfold lost_in_quarantine. cbn. by rewrite Hq, Hqb.
  - intros st1 x Hb Hr. pose proof (queue_releasable id _ Hst) as Hrel.
    destruct (release_protocol_indeterminate _ acc_destroy_queue _ _
      (fun self => set_quarantined (bump_queues (cp_quarantined self)) (cp_quarantined_bytes self) self)
      _ _ _ _ response request_id self st1 x w' e Hrel Hb Hr) as (st2 & Hl & He).
    change (release_protocol _ _ _ _ _ response request_id self) with (destroy_queue response request_id id self) in He.
    rewrite He. unfold lost_in_quarantine. cbn. by rewrite Hq, Hqb.
  - intros st1 x record Hrec Hb Hr. pose proof (buffer_releasable id _ _ Hst Hrec) as Hrel.
    destruct (release_protocol_indeterminate _ acc_free_buffer _ _
      (fun self => set_quarantined (bump_buffers (cp_quarantined self))
         (add_backing (bi_allocation_bytes (buf_info record)) (cp_quarantined_bytes self)) self)
      _ _ _ _ response request_id self st1 x w' e Hrel Hb Hr) as (st2 & Hl & He).
    rewrite (free_buffer_protocol _ _ _ _ _ Hrec). unfold lost_in_quarantine. rewrite He.
    destruct (count_from_default _ _ _ _ (re_counts _ _ _ _ _ _ _ _ Hrel)) as [Hc Hbb]. cbn.
    by rewrite Hq, Hqb, Hc, Hbb.
  - intros st1 x record Hrec Hb Hr. pose proof (program_releasable id _ _ Hst Hrec) as Hrel.
    destruct (release_protocol_indeterminate _ acc_unload_program _ _
      (fun self => set_quarantined (bump_programs (cp_quarantined self))
         (add_resident (prg_resident_bytes record) (cp_quarantined_bytes self)) self)
      _ _ _ _ response request_id self st1 x w' e Hrel Hb Hr) as (st2 & Hl & He).
    rewrite (unload_program_protocol _ _ _ _ _ Hrec). unfold lost_in_quarantine. rewrite He.
    destruct (count_from_default _ _ _ _ (re_counts _ _ _ _ _ _ _ _ Hrel)) as [Hc Hbb]. cbn.
    by rewrite Hq, Hqb, Hc, Hbb.
Qed.

End Commands.
End Life.
