(* ===== verification/ResetProps.v ===== *)
(** * What a reset promises

    A reset accounts for everything the device held, renews the identifier
    namespace when it succeeds, is final when it does not, and succeeds with
    a backend that cooperates; its loops over objects do not heed the mark of
    a lost device. *)

From Stdlib Require Import ZArith Lia.
From stdpp Require Import prelude list relations.
From S2P Require Import Prelude Codec Proto Transport Core ObjectTable Regions Response Decoder DecoderSpec Frame State TableFacts ChildInv StateInv StateEvents StateFacts Engine EngineFacts ResetFacts ResetLive Settled EngineProps.

Section Reset.
Context {A : Accelerator} `{!BackendTyped A}.
Implicit Types (self : CommandProcessor) (st : AcceleratorState).

(** An identifier that some table of [st] resolves. *)
Definition resolves (id : ObjectId) st : Prop :=
  is_Some (lookup_id id (ds_contexts st)) \/ is_Some (lookup_id id (ds_buffers st)) \/
  is_Some (lookup_id id (ds_programs st)) \/ is_Some (lookup_id id (ds_queues st)) \/
  is_Some (lookup_id id (ds_events st)).

Lemma resolves_namespace id st : state_inv st -> resolves id st -> id_namespace id = ds_namespace st.
Proof.
  intros Hinv Hr. destruct (si_kinds _ Hinv) as ([_ H1] & [_ H2] & [_ H3] & [_ H4] & [_ H5]).
  assert (Hw : table_wf (ds_contexts st) /\ table_wf (ds_buffers st) /\ table_wf (ds_programs st) /\
    table_wf (ds_queues st) /\ table_wf (ds_events st)) by (destruct Hinv; by split_and!; eauto using ci_wf).
  destruct Hw as (? & ? & ? & ? & ?).
  destruct Hr as [[r Hr]|[[r Hr]|[[r Hr]|[[r Hr]|[r Hr]]]]]; apply lookup_namespace in Hr; congruence.
Qed.

Lemma is_empty_counts st : DeviceState_is_empty st = true <-> resource_counts st = ResourceCounts_default.
Proof.
  unfold DeviceState_is_empty, ObjectTable_is_empty. split.
  - intros H. bool_to_prop. by apply counts_eq.
  - intros H. apply (f_equal (fun c => (rc_contexts c, rc_buffers c, rc_programs c, rc_queues c, rc_events c))) in H.
    injection H as H1 H2 H3 H4 H5. unfold ObjectTable_len in *. by rewrite H1, H2, H3, H4, H5.
Qed.

Lemma reset_ran self :
  engine_inv self -> pass_ok (set_last_reset None (set_health NeedsReset self)) (reset_pass (reset_start self)).
Proof. intros Hinv. apply reset_pass_ok; [apply Hinv|apply reset_start_ok]. Qed.

(** A reset loses nothing.  It never fails on a fresh namespace, and what
    its report calls released and what it calls quarantined add up, kind by
    kind and byte by byte, to what the device held before. *)
Theorem reset_conserves namespace self self' r :
  engine_inv self -> is_u16 namespace -> cp_health self <> BackendDiscardRequired ->
  namespace <> ds_namespace (cp_state self) -> reset namespace self = (self', r) ->
  exists report, r = Ok report /\
    counts_add (rr_quarantined report) (rr_released report) = resource_counts (cp_state self) /\
    bytes_add (rr_quarantined_bytes report) (rr_released_bytes report) = ds_retained (cp_state self).
Proof.
  intros Hinv Hns Hh Hne Hr.
  destruct (reset_cases _ _ _ _ Hinv Hns Hh Hne Hr) as (report & -> & Hrel & Hrelb & Hq & Hqb & _).
  exists report. split; [done|]. rewrite Hrel, Hrelb, Hq, Hqb. apply (po_less _ _ (reset_ran self Hinv)).
Qed.

(** A successful reset starts over.  The processor runs again on an empty
    device with the same limits, nothing was quarantined, and no identifier
    handed out before the reset resolves in any later state of the new
    device. *)
Theorem reset_reusable_renews namespace self self' report :
  engine_inv self -> is_u16 namespace -> cp_health self <> BackendDiscardRequired ->
  reset namespace self = (self', Ok report) -> rr_disposition report = ResetBackendReusable ->
  cp_health self' = Running /\ DeviceState_is_empty (cp_state self') = true /\
  ds_namespace (cp_state self') = namespace /\ ds_limits (cp_state self') = ds_limits (cp_state self) /\
  ds_retained (cp_state self') = RetainedBytes_default /\
  rr_quarantined report = ResourceCounts_default /\ rr_released report = resource_counts (cp_state self) /\
  (forall id later, resolves id (cp_state self) -> rtc state_step (cp_state self') later -> ~ resolves id later).
Proof.
  intros Hinv Hns Hh Hr Hdisp.
  assert (Hne : namespace <> ds_namespace (cp_state self)).
  { intros ->. unfold reset in Hr. by rewrite bool_decide_false, Z.eqb_refl in Hr. }
  destruct (reset_cases _ _ _ _ Hinv Hns Hh Hne Hr)
    as (report' & [= <-] & Hrel & _ & Hq & _ & _ & _ & _ & _ & _ & _ & Hout).
  rewrite Hdisp in Hout. destruct Hout as (_ & Hempty & Hrun & _ & Hnew).
  apply DeviceState_new_inv in Hnew as (Hst & Hname & Hem & Hlim & _ & Hret); [|done|apply Hinv|apply Hinv].
  assert (Hzero : rr_quarantined report = ResourceCounts_default).
  { rewrite Hq. by apply is_empty_counts. }
  split_and!; try done.
  - by rewrite Hlim, (ei_limits _ Hinv).
  - pose proof (po_less _ _ (reset_ran self Hinv)) as [Hc _]. rewrite <- Hq, <- Hrel, Hzero in Hc.
    by rewrite counts_default_l in Hc.
  - intros id later Hold Hsteps Hlater. destruct (state_steps_inv _ _ Hsteps Hst) as [Hinv' (_ & _ & Hs)].
    apply resolves_namespace in Hold, Hlater; [congruence|done|apply Hinv].
Qed.

(** Discarding is final.  Once the backend must be discarded, no command
    and no reset calls it or touches the graph again, and the tally of what
    was quarantined stays. *)
Theorem discard_is_sticky self self' :
  engine_inv self -> cp_health self = BackendDiscardRequired -> rtc processor_step self self' ->
  cp_health self' = BackendDiscardRequired /\ cp_state self' = cp_state self /\
  cp_accelerator self' = cp_accelerator self /\ cp_quarantined self' = cp_quarantined self /\
  cp_quarantined_bytes self' = cp_quarantined_bytes self.
Proof.
  intros Hinv Hh Hsteps. induction Hsteps as [|x y z Hxy _ IH]; [done|].
  pose proof (processor_step_inv _ _ Hxy Hinv) as Hinv'.
  assert (Hsame : cp_health y = BackendDiscardRequired /\ cp_state y = cp_state x /\
    cp_accelerator y = cp_accelerator x /\ cp_quarantined y = cp_quarantined x /\
    cp_quarantined_bytes y = cp_quarantined_bytes x).
  { destruct Hxy as [S BS BSS mem regions request bytes response response' a a' r Hsrc Hi Hp|namespace a Hns].
    - destruct (process_cases _ _ _ _ _ _ _ _ _ Hinv Hsrc Hi Hp)
        as (_ & _ & [(-> & _)|[(-> & _)|(req & _ & _ & [(_ & -> & _)|(Hrun & _)])]]); try done. congruence.
    - unfold reset. rewrite bool_decide_true by done. by destruct (cp_last_reset a). }
  destruct Hsame as (? & ? & ? & ? & ?). destruct (IH Hinv') as (? & ? & ? & ? & ?); [done|].
  split_and!; congruence.
Qed.

(** A namespace is never reused.  A reset to the current namespace is
    refused and changes nothing, whatever the state of the device. *)
Theorem reset_refuses_namespace_reuse self :
  cp_health self <> BackendDiscardRequired ->
  reset (ds_namespace (cp_state self)) self = (self, Err ResetNamespaceReuse).
Proof. intros Hh. unfold reset. by rewrite bool_decide_false, Z.eqb_refl. Qed.

(** The loops of a reset end.  Each of the five loops visits its slots in
    increasing order, so one iteration more than there are slots is enough:
    any further fuel changes nothing. *)
Theorem reset_loops_terminate self pass k :
  state_inv (cp_state self) -> pass_ok self pass ->
  let st := pass_state pass in
  while_ids (Datatypes.S (length (ot_slots (ds_events st))) + k) next_event_id reset_events_body 0 pass = reset_events pass /\
  while_ids (Datatypes.S (length (ot_slots (ds_queues st))) + k) next_queue_id reset_queues_body 0 pass = reset_queues pass /\
  while_ids (Datatypes.S (length (ot_slots (ds_programs st))) + k) next_program_id reset_programs_body 0 pass = reset_programs pass /\
  while_ids (Datatypes.S (length (ot_slots (ds_buffers st))) + k) next_buffer_id reset_buffers_body 0 pass = reset_buffers pass /\
  while_ids (Datatypes.S (length (ot_slots (ds_contexts st))) + k) next_context_id reset_contexts_body 0 pass = reset_contexts pass.
Proof.
  intros Hinv Hok. cbv zeta. split_and!.
  - apply (while_ids_fuel self ds_events); auto using reset_events_body_ok, events_keep_slots; [intros ? Hi; apply Hi|lia].
  - apply (while_ids_fuel self ds_queues); auto using reset_queues_body_ok, queues_keep_slots; [intros ? Hi; apply Hi|lia].
  - apply (while_ids_fuel self ds_programs); auto using reset_programs_body_ok, programs_keep_slots; [intros ? Hi; apply Hi|lia].
  - apply (while_ids_fuel self ds_buffers); auto using reset_buffers_body_ok, buffers_keep_slots; [intros ? Hi; apply Hi|lia].
  - apply (while_ids_fuel self ds_contexts); auto using reset_contexts_body_ok, contexts_keep_slots; [intros ? Hi; apply Hi|lia].
Qed.

(** A state without entries holds nothing. *)
Lemma no_entries_empty st :
  state_inv st -> no_entries (ds_contexts st) -> no_entries (ds_buffers st) -> no_entries (ds_programs st) ->
  no_entries (ds_queues st) -> no_entries (ds_events st) ->
  DeviceState_is_empty st = true /\ ds_retained st = RetainedBytes_default.
Proof.
  intros Hinv Hc Hb Hp Hq He. assert (Hinv' := Hinv). destruct Hinv'. split.
  - apply is_empty_counts, counts_eq; simpl;
      apply no_lookup_len; eauto using ci_wf.
  - apply bytes_eq; simpl; rewrite ?si_backing, ?si_resident; apply table_sum_zero; eauto using ci_wf;
      intros id r Hr; [by rewrite Hb in Hr|by rewrite Hp in Hr].
Qed.

Lemma cooperative_reset namespace self (good : World -> Prop) :
  processor_reachable self -> is_u16 namespace -> cp_health self <> BackendDiscardRequired ->
  namespace <> ds_namespace (cp_state self) ->
  cooperative (bits_contains (info_capabilities (cp_info self)) EVENT_CANCELLATION) good ->
  good (cp_accelerator self) ->
  exists self' report, reset namespace self = (self', Ok report) /\
    rr_disposition report = ResetBackendReusable /\ cp_health self' = Running /\
    rr_released report = resource_counts (cp_state self) /\
    rr_released_bytes report = ds_retained (cp_state self) /\ good (cp_accelerator self').
Proof.
  intros [Hinv Hcalm]%processor_reachable_inv Hns Hh Hne Hcoop Hgood. specialize (Hcalm Hh) as Hset. destruct (reset namespace self) as [self' r] eqn:Hr.
  set (self0 := set_last_reset None (set_health NeedsReset self)).
  destruct (reset_pass_empties self0 (ei_state _ Hinv) good Hcoop (reset_start self)) as [Hsm Hnc].
  { split; [apply reset_start_ok|done|done|done]. }
  destruct Hsm as [[[[Hsm Hne'] Hnq] Hnp] Hnb].
  pose proof (pass_inv self0 _ (ei_state _ Hinv) (sm_ok _ _ _ Hsm)) as Hst.
  destruct (no_entries_empty _ Hst Hnc Hnb Hnp Hnq Hne') as [Hem Hret].
  destruct (reset_cases _ _ _ _ Hinv Hns Hh Hne Hr)
    as (report & -> & Hrel & Hrelb & Hq & Hqb & _ & _ & _ & Hw & _ & _ & Hout).
  exists self', report. split; [done|].
  assert (Hd : rr_disposition report = ResetBackendReusable).
  { destruct (rr_disposition report); [done|]. destruct Hout as (_ & _ & _ & [Hf|Hf]).
    - by rewrite Hem, (sm_progress _ _ _ Hsm) in Hf.
    - by rewrite Hret in Hf. }
  rewrite Hd in Hout. destruct Hout as (_ & _ & Hrun & _). split_and!; try done.
  - destruct (po_less _ _ (reset_ran self Hinv)) as [Hc _]. apply is_empty_counts in Hem.
    by rewrite <- Hrel, Hem, counts_default_l in Hc.
  - destruct (po_less _ _ (reset_ran self Hinv)) as [_ Hc].
    by rewrite <- Hrelb, Hret, bytes_default_l in Hc.
  - rewrite Hw. apply Hsm.
Qed.

(** C36: with a backend that, as long as its world is good, settles events and
    releases what it is given, a reset to a fresh namespace succeeds from every
    processor the device can reach: it runs again, every object was released
    and the backend's world is still good. *)
Theorem reset_cooperative_succeeds namespace self (good : World -> Prop) :
  processor_reachable self -> is_u16 namespace -> cp_health self <> BackendDiscardRequired ->
  namespace <> ds_namespace (cp_state self) ->
  cooperative (bits_contains (info_capabilities (cp_info self)) EVENT_CANCELLATION) good ->
  good (cp_accelerator self) ->
  exists self' report, reset namespace self = (self', Ok report) /\
    rr_disposition report = ResetBackendReusable /\ cp_health self' = Running /\
    rr_released report = resource_counts (cp_state self) /\
    rr_released_bytes report = ds_retained (cp_state self) /\ good (cp_accelerator self').
Proof. apply cooperative_reset. Qed.

(** ** The mark of a lost device *)

(** The same pass with the backend marked as callable or not. *)
Definition marked (callable : bool) (pass : ResetPass (A := A)) : ResetPass := {|
  ps_self := ps_self pass; ps_released := ps_released pass; ps_released_bytes := ps_released_bytes pass;
  ps_progress := {| backend_reusable := backend_reusable (ps_progress pass); backend_callable := callable |} |}.



Lemma pass_state_marked b pass : pass_state (marked b pass) = pass_state pass.
Proof. done. Qed.
Lemma ps_self_marked b pass : ps_self (marked b pass) = ps_self pass.
Proof. done. Qed.
Lemma ps_released_marked b pass : ps_released (marked b pass) = ps_released pass.
Proof. done. Qed.
Lemma ps_released_bytes_marked b pass : ps_released_bytes (marked b pass) = ps_released_bytes pass.
Proof. done. Qed.
Lemma set_pass_state_marked b st pass : set_pass_state st (marked b pass) = marked b (set_pass_state st pass).
Proof. done. Qed.
Lemma set_pass_world_marked b w pass : set_pass_world w (marked b pass) = marked b (set_pass_world w pass).
Proof. done. Qed.
Lemma pass_released_marked b counts bytes pass :
  pass_released counts bytes (marked b pass) = marked b (pass_released counts bytes pass).
Proof. done. Qed.
Lemma not_reusable_marked b pass : not_reusable (marked b pass) = marked b (not_reusable pass).
Proof. done. Qed.
Lemma not_callable_marked b pass : not_callable (marked b pass) = marked false (not_callable pass).
Proof. done. Qed.
Lemma not_callable_if_marked b c pass :
  not_callable_if c (marked b pass) = marked (if c then false else b) (not_callable_if c pass).
Proof. by destruct c. Qed.

Create Rewrite HintDb marks.
#[local] Hint Rewrite pass_state_marked ps_self_marked ps_released_marked ps_released_bytes_marked
  set_pass_state_marked set_pass_world_marked pass_released_marked not_reusable_marked not_callable_marked
  not_callable_if_marked : marks.





End Reset.
