(* ===== verification/EngineDemo.v ===== *)
(** * A device at work

    A small backend, a processor over it, and a history of commands in wire
    format that builds an object graph.  The properties of the engine and of
    reset are applied to the processors of this history. *)

From Stdlib Require Import ZArith Lia.
From stdpp Require Import prelude list relations.
From S2P Require Import Prelude Codec Proto Transport Core ObjectTable Regions Response Decoder DecoderSpec Frame State TableFacts ChildInv StateInv StateEvents StateFacts Engine EngineFacts ResetFacts ResetLive Settled EngineProps ResetProps.

Module EngineDemo.

Definition info : DeviceInfo := {|
  info_identity := {| di_uuid := replicate 16 7; di_class := CLASS_NPU; di_vendor_id := 3; di_device_id := 4 |};
  info_capabilities := Z.lor HOST_VISIBLE_MEMORY EVENT_CANCELLATION;
  info_limits := StateFacts.Demo.limits |}.

Definition described (desc : BufferDesc) : BufferInfo :=
  {| bi_desc := desc; bi_allocation_bytes := 128; bi_alignment := 16; bi_properties := 0 |}.

(** The backend counts its calls; the mode says how it answers a release: it
    releases, it cannot tell what became of the handle, or it gives the handle
    back because the device is lost. *)
Inductive ReleaseMode := Releases | Loses | Rejects.

Definition released {W R} (mode : ReleaseMode) (x : R) (w : W) (next : W -> W) : W * result unit (ReleaseFailure R) :=
  (next w, match mode with
           | Releases => Ok tt
           | Loses => Err (ReleaseIndeterminate BeDeviceLost)
           | Rejects => Err (ReleaseRejected BeDeviceLost x)
           end).

#[local] Instance backend (mode : ReleaseMode) : Accelerator := {|
  World := nat; Context := unit; Buffer := unit; Program := unit; Queue := unit; Event := unit;
  acc_device_info w := (S w, Ok info);
  acc_create_context _ w := (S w, Ok tt);
  acc_destroy_context x w := released mode x w S;
  acc_allocate_buffer _ desc w := (S w, Ok (tt, described desc));
  acc_write_buffer b _ _ w := (S w, (b, Ok tt));
  acc_read_buffer _ offset bytes w :=
    SinkWrite 0 (replicate (Z.to_nat bytes) 9) (fun r => SinkReturn (S w, r));
  acc_free_buffer x w := released mode x w S;
  acc_load_program _ _ w := (S w, Ok tt);
  acc_unload_program x w := released mode x w S;
  acc_create_queue _ _ w := (S w, Ok tt);
  acc_destroy_queue x w := released mode x w S;
  acc_submit _ _ _ _ w := (S w, Ok tt);
  acc_poll_event _ w := (S w, Ok EventPending);
  acc_cancel_event _ w := (S w, Ok tt);
  acc_destroy_event x w := released mode x w S;
|}.

#[local] Instance backend_typed mode : BackendTyped (backend mode).
Proof.
  split.
  - intros w w' i [= <- <-]. split; [|done]. by vm_compute.
  - intros c desc w w' b i _ [= <- <- <-]. by vm_compute.
Qed.

Definition config : WireConfig := {|
  wc_protocol_major := PROTOCOL_MAJOR; wc_protocol_minor := 0; wc_command_queue_count := BASELINE_COMMAND_QUEUES;
  wc_max_chain_descriptors := 8; wc_max_request_bytes := 65536; wc_max_response_bytes := 65536 |}.

Definition mem : CommandMemory :=
  {| cm_decode := true; cm_buffer_ids := true; cm_native_bindings := true; cm_table := true |}.

Lemma bytes_check l : forallb (fun b => (0 <=? b) && (b <=? U8_MAX)) l = true -> is_bytes l.
Proof.
  intros Hf. apply Forall_forall. intros b Hb%list_elem_of_In.
  apply (proj1 (List.forallb_forall _ _) Hf) in Hb. lia.
Qed.

(** One command, its response read from a 128-byte buffer of zeros. *)
Abbreviation run w self :=
  (process mem [ChainRegion_readable (zlen (frame_of 5 w)); ChainRegion_writable 128]
    (slice_source (frame_of 5 w)) (replicate 128 0) self).

Section History.
Context (mode : ReleaseMode).

Definition boot := CommandProcessor_new (A := backend mode) 0%nat config 1 StateFacts.Demo.policy.

(** The identifier in an answer with one object. *)
Definition answered_id (s : list Z) : Z := le_value (slice 16 8 s).

Definition exec (w : WireRequest) (self : CommandProcessor (A := backend mode)) :
    CommandProcessor (A := backend mode) * Z :=
  let '(self, s, _) := run w self in (self, answered_id s).

Definition p0 : CommandProcessor (A := backend mode) :=
  match boot.2 with
  | Ok self => self
  | Err _ => @Build_CommandProcessor (backend mode) StateFacts.Demo.st0 0%nat info StateFacts.Demo.policy
      {| fd_limits := example_limits |} NeedsReset ResourceCounts_default RetainedBytes_default None
  end.

Definition desc : BufferDesc :=
  {| bd_bytes := 64; bd_alignment := 16; bd_domain := DomainHost; bd_usage := 15 |}.

Definition w1 := WqCreateContext.
Definition p1 := (exec w1 p0).1.
Definition ctx := (exec w1 p0).2.
Definition w2 := WqAllocateBuffer ctx desc.
Definition p2 := (exec w2 p1).1.
Definition buf := (exec w2 p1).2.
Definition w3 := WqLoadProgram ctx 1 (replicate 12 1) [1; 2; 3] 256.
Definition p3 := (exec w3 p2).1.
Definition prog := (exec w3 p2).2.
Definition w4 := WqCreateQueue ctx.
Definition p4 := (exec w4 p3).1.
Definition que := (exec w4 p3).2.
Definition binding : DecodedBinding := {|
  db_buffer_id := buf; db_range := {| br_offset := 0; br_bytes := 32 |}; db_slot := 2; db_access := AccessRead |}.
Definition w5 := WqSubmit que prog [binding] 0.
Definition p5 := (exec w5 p4).1.
Definition evt := (exec w5 p4).2.

Lemma exec_step w self :
  is_bytes (frame_of 5 w) -> zlen (frame_of 5 w) <= U64_MAX -> processor_step self (exec w self).1.
Proof.
  intros Hb Hl. unfold exec. destruct (run w self) as [[self' s] r] eqn:Hr.
  eapply (step_process mem _ (slice_source (frame_of 5 w)) (frame_of 5 w) (replicate 128 0) s self self' r);
    [by apply slice_source_of|done|exact Hr].
Qed.

Lemma p0_reachable : processor_reachable p0.
Proof.
  exists 0%nat, config, 1, StateFacts.Demo.policy, 1%nat, p0.
  split; [done|]. split; [done|]. split; [by vm_compute|done].
Qed.

Lemma processor_reachable_step (self self' : CommandProcessor (A := backend mode)) :
  processor_reachable self -> processor_step self self' -> processor_reachable self'.
Proof.
  intros (w & c & ns & pol & w' & s0 & ? & ? & ? & Hs) Hstep. exists w, c, ns, pol, w', s0.
  split; [done|]. split; [done|]. split; [done|]. by eapply rtc_r, sys_device.
Qed.

Lemma history_reachable : processor_reachable p4 /\ processor_reachable p5.
Proof.
  assert (H1 : processor_reachable p1).
  { eapply processor_reachable_step; [apply p0_reachable|]. apply exec_step; [apply bytes_check|]; by vm_compute. }
  assert (H2 : processor_reachable p2).
  { eapply processor_reachable_step; [apply H1|]. apply exec_step; [apply bytes_check|]; by vm_compute. }
  assert (H3 : processor_reachable p3).
  { eapply processor_reachable_step; [apply H2|]. apply exec_step; [apply bytes_check|]; by vm_compute. }
  assert (H4 : processor_reachable p4).
  { eapply processor_reachable_step; [apply H3|]. apply exec_step; [apply bytes_check|]; by vm_compute. }
  split; [done|]. eapply processor_reachable_step; [apply H4|]. apply exec_step; [apply bytes_check|]; by vm_compute.
Qed.

Lemma p4_engine : engine_inv p4.
Proof. apply processor_reachable_inv, history_reachable. Qed.

Lemma p5_engine : engine_inv p5.
Proof. apply processor_reachable_inv, history_reachable. Qed.

End History.

Lemma backend_cooperates : cooperative (A := backend Releases) true (fun _ => True).
Proof.
  split; [|by intros [] w _; eexists..]. intros [] w _. exists (S w), EventPending, (S (S w)), (S (S (S w))). done.
Qed.

(** ** The properties at work *)

Lemma processor_invariant_witness :
  state_inv (cp_state (p5 Releases)) /\ settled (cp_state (p5 Releases)) /\
  resource_counts (cp_state (p5 Releases)) = counts_add (counts_add one_context one_buffer)
    (counts_add (counts_add one_program one_queue) one_event).
Proof.
  destruct (processor_invariant (p5 Releases) (proj2 (history_reachable Releases))) as (Hst & _ & _ & Hrun).
  split; [exact Hst|]. split; [|by vm_compute]. apply Hrun. by vm_compute.
Defined.

Lemma triple {X Y Z} (p : X * Y * Z) : p = (p.1.1, p.1.2, p.2).
Proof. by destruct p as [[]]. Qed.

Lemma submit_ran :
  (run (w5 Releases) (p4 Releases)).2 = Ok (OutcomeResponse 5 STATUS_OK 24) /\
  slice 0 24 (run (w5 Releases) (p4 Releases)).1.2 = response_frame STATUS_OK 5 (le_bytes 8 (evt Releases)).
Proof. split; vm_compute; reflexivity. Qed.

Lemma process_always_answers_witness :
  zlen (sink_content (run (w5 Releases) (p4 Releases)).1.2) = zlen (sink_content (replicate 128 0)) /\
  (run (w5 Releases) (p4 Releases)).2 = Ok (OutcomeResponse 5 STATUS_OK 24) /\
  slice 0 24 (run (w5 Releases) (p4 Releases)).1.2 = response_frame STATUS_OK 5 (le_bytes 8 (evt Releases)).
Proof.
  assert (Hsrc : source_of (slice_source (frame_of 5 (w5 Releases))) (frame_of 5 (w5 Releases))).
  { apply slice_source_of; [apply bytes_check|]; by vm_compute. }
  assert (Hi : sink_inv (S := list Z) (replicate 128 0)) by (by vm_compute).
  pose proof (process_always_answers mem _ _ _ _ _ _ _ _ (p4_engine Releases) Hsrc Hi
    (triple (run (w5 Releases) (p4 Releases)))) as [Hlen _].
  split; [exact Hlen|exact submit_ran].
Defined.

(** A frame with a byte too many. *)
Definition overlong : list Z := frame_of 9 WqCreateContext ++ [0].
Abbreviation run_overlong :=
  (process mem [ChainRegion_readable 25; ChainRegion_writable 128] (slice_source overlong) (replicate 128 0) (p5 Releases)).

Lemma overlong_answer : run_overlong.2 = Ok (OutcomeResponse 9 STATUS_INVALID_ARGUMENT 16).
Proof. vm_compute. reflexivity. Qed.

Lemma overlong_error :
  FrameDecoder_decode true (cp_decoder (p5 Releases)) (slice_source overlong) 128 =
    Err (DecodeProtocol 9 STATUS_INVALID_ARGUMENT).
Proof. vm_compute. reflexivity. Qed.

Lemma process_inert_witness :
  run_overlong.1.1 = p5 Releases /\ run_overlong.2 = Ok (OutcomeResponse 9 STATUS_INVALID_ARGUMENT 16).
Proof.
  assert (Hsrc : source_of (slice_source overlong) overlong).
  { apply slice_source_of; [apply bytes_check|]; by vm_compute. }
  assert (Hi : sink_inv (S := list Z) (replicate 128 0)) by (by vm_compute).
  split; [|exact overlong_answer].
  apply (process_inert mem _ _ _ _ _ _ _ _ (p5_engine Releases) Hsrc Hi (triple run_overlong)).
  right. intros req Hreq. change (zlen (sink_content (replicate 128 0))) with 128 in Hreq.
  change (cm_decode mem) with true in Hreq. rewrite overlong_error in Hreq. discriminate Hreq.
Defined.

Definition info_layout : ChainLayout := {|
  cl_descriptor_count := 2; cl_readable_descriptors := 1; cl_writable_descriptors := 1;
  cl_readable_bytes := 16; cl_writable_bytes := 128 |}.

Lemma device_info_reported_witness :
  exists response', run WqGetDeviceInfo (p4 Releases) =
      (set_last_reset None (p4 Releases), response', Ok (OutcomeResponse 5 STATUS_OK 92)) /\
    slice 0 92 (sink_content response') =
      response_frame STATUS_OK 5 (as_bytes (wire_device_info (cp_info (p4 Releases)))).
Proof.
  assert (Hsrc : source_of (slice_source (frame_of 5 WqGetDeviceInfo)) (frame_of 5 WqGetDeviceInfo)).
  { apply slice_source_of; [apply bytes_check|]; by vm_compute. }
  assert (Hi : sink_inv (S := list Z) (replicate 128 0)) by (by vm_compute).
  apply (device_info_reported mem _ info_layout (slice_source (frame_of 5 WqGetDeviceInfo)) 5 (replicate 128 0)
    (p4 Releases) (p4_engine Releases)); try exact Hsrc; try exact Hi; by vm_compute.
Defined.

(** A transfer into a buffer that an event references. *)
Definition record (self : CommandProcessor (A := backend Releases)) : BufferRecord (Buffer (Accelerator := backend Releases)) :=
  match buffer_record (buf Releases) (cp_state self) with
  | Ok r => r
  | Err _ => {| buf_slot := ResourceSlot_new tt; buf_context_id := 0; buf_info := described desc; buf_in_flight := 0 |}
  end.

Lemma p5_ready : ready (p5 Releases) (replicate 128 0) 16.
Proof. split; by vm_compute. Qed.

Lemma p5_record : buffer_record (buf Releases) (cp_state (p5 Releases)) = Ok (record (p5 Releases)).
Proof. vm_compute. reflexivity. Qed.

Lemma p5_busy : validate_transfer (record (p5 Releases)) {| br_offset := 0; br_bytes := 8 |} TRANSFER_DESTINATION = Err STATUS_BUSY.
Proof. vm_compute. reflexivity. Qed.

Lemma transfers_guarded_witness :
  exists response', write_buffer (replicate 128 0) 5 (buf Releases) {| br_offset := 0; br_bytes := 8 |}
      (slice_source [1; 2; 3; 4; 5; 6; 7; 8]) (p5 Releases) =
    (p5 Releases, response', Ok (OutcomeResponse 5 STATUS_BUSY 16)).
Proof.
  destruct (transfers_guarded (replicate 128 0) 16 5 (buf Releases) {| br_offset := 0; br_bytes := 8 |}
    (slice_source [1; 2; 3; 4; 5; 6; 7; 8]) (record (p5 Releases)) (p5 Releases) p5_ready p5_record) as (_ & Hw & _).
  apply Hw. exact p5_busy.
Defined.

(** A backend that loses the buffer. *)
Definition lost_record : BufferRecord (Buffer (Accelerator := backend Loses)) :=
  match buffer_record (buf Loses) (cp_state (p4 Loses)) with
  | Ok r => r
  | Err _ => {| buf_slot := ResourceSlot_new tt; buf_context_id := 0; buf_info := described desc; buf_in_flight := 0 |}
  end.

Lemma lost_begins :
  buffer_record (buf Loses) (cp_state (p4 Loses)) = Ok lost_record /\
  exists st1, begin_buffer_release (buf Loses) (cp_state (p4 Loses)) = (st1, Ok tt).
Proof. split; [vm_compute; reflexivity|]. eexists. vm_compute. reflexivity. Qed.

Lemma p_running : cp_health (p4 Loses) = Running /\ cp_health (p4 Releases) = Running /\ cp_health (p5 Releases) = Running.
Proof. split_and!; vm_compute; reflexivity. Qed.

Lemma indeterminate_release_quarantined_witness :
  lost_in_quarantine (p4 Loses) (free_buffer (replicate 128 0) 5 (buf Loses) (p4 Loses)).1.1 one_buffer
    (backing_bytes (bi_allocation_bytes (buf_info lost_record))).
Proof.
  destruct lost_begins as [Hrec [st1 Hb]].
  destruct (indeterminate_release_quarantined (replicate 128 0) 5 (buf Loses) (p4 Loses)
    (Datatypes.S (cp_accelerator (p4 Loses))) BeDeviceLost (p4_engine Loses) (proj1 p_running)) as (_ & _ & Hf & _).
  exact (Hf st1 tt lost_record Hrec Hb eq_refl).
Defined.

Abbreviation submitted :=
  (submit mem (replicate 128 0) 5 (que Releases) (prog Releases) [binding Releases] TimeoutInfinite (p4 Releases)).

Lemma submitted_called : cp_accelerator submitted.1.1 = 6%nat /\ cp_accelerator (p4 Releases) = 5%nat.
Proof. split; vm_compute; reflexivity. Qed.

Lemma submit_validates_witness :
  exists context native, Forall2 (binding_admitted (cp_state (p4 Releases)) context) [binding Releases] native.
Proof.
  destruct (submit_validates mem (replicate 128 0) 5 (que Releases) (prog Releases) [binding Releases] TimeoutInfinite
    (p4 Releases) _ _ _ (p4_engine Releases) (triple submitted)) as [Hs|Hc].
  - exfalso. destruct submitted_called as [H6 H5]. rewrite H6, H5 in Hs. discriminate Hs.
  - destruct Hc as (c & qr & pr & qx & px & native & answer & _ & _ & _ & _ & _ & _ & Hf & _). exists c, native. exact Hf.
Defined.

(** ** Resets *)

Lemma p5_resettable : cp_health (p5 Releases) <> BackendDiscardRequired /\ 2 <> ds_namespace (cp_state (p5 Releases)).
Proof. split; vm_compute; discriminate. Qed.

Lemma pair_eta {X Y} (p : X * Y) : p = (p.1, p.2).
Proof. by destruct p. Qed.

Lemma reset_conserves_witness :
  exists report, (reset 2 (p5 Releases)).2 = Ok report /\
    counts_add (rr_quarantined report) (rr_released report) = resource_counts (cp_state (p5 Releases)).
Proof.
  destruct (reset_conserves 2 (p5 Releases) _ _ (p5_engine Releases) ltac:(split; discriminate) (proj1 p5_resettable)
    (proj2 p5_resettable) (pair_eta (reset 2 (p5 Releases)))) as (report & Hr & Hc & _).
  exists report. split; [exact Hr|exact Hc].
Defined.

Lemma reset_p5 : exists self' report, reset 2 (p5 Releases) = (self', Ok report) /\ rr_disposition report = ResetBackendReusable.
Proof. eexists _, _. split; vm_compute; reflexivity. Qed.

Lemma ctx_resolves : resolves (ctx Releases) (cp_state (p5 Releases)).
Proof. left. eexists. vm_compute. reflexivity. Qed.

Lemma reset_reusable_renews_witness :
  exists self', (reset 2 (p5 Releases)).1 = self' /\ cp_health self' = Running /\ ~ resolves (ctx Releases) (cp_state self').
Proof.
  destruct reset_p5 as (self' & report & Hr & Hd). exists self'. split; [exact (f_equal fst Hr)|].
  destruct (reset_reusable_renews 2 (p5 Releases) self' report (p5_engine Releases) ltac:(split; discriminate)
    (proj1 p5_resettable) Hr Hd) as (Hrun & _ & _ & _ & _ & _ & _ & Hold).
  split; [exact Hrun|]. exact (Hold _ _ ctx_resolves (rtc_refl _ _)).
Defined.

(** The backend that loses a handle, discarded by a failed release and reset afterwards. *)
Definition lost : CommandProcessor (A := backend Loses) := (exec Loses (WqObject OpFreeBuffer (buf Loses)) (p4 Loses)).1.

Lemma lost_reachable : processor_reachable lost /\ cp_health lost = BackendDiscardRequired.
Proof.
  split; [|vm_compute; reflexivity]. eapply processor_reachable_step; [exact (proj1 (history_reachable Loses))|].
  apply exec_step; [apply bytes_check|]; by vm_compute.
Qed.

Lemma discard_is_sticky_witness :
  cp_health (reset 2 lost).1 = BackendDiscardRequired /\ cp_accelerator (reset 2 lost).1 = cp_accelerator lost.
Proof.
  destruct (discard_is_sticky lost (reset 2 lost).1 (proj1 (processor_reachable_inv _ (proj1 lost_reachable)))
    (proj2 lost_reachable) (rtc_once _ _ (step_reset 2 lost ltac:(split; discriminate)))) as (Hh & _ & Ha & _).
  split; [exact Hh|exact Ha].
Defined.

Lemma reset_refuses_namespace_reuse_witness :
  reset (ds_namespace (cp_state (p5 Releases))) (p5 Releases) = (p5 Releases, Err ResetNamespaceReuse).
Proof. exact (reset_refuses_namespace_reuse (p5 Releases) (proj1 p5_resettable)). Defined.

Lemma started_inv (self : CommandProcessor (A := backend Releases)) :
  engine_inv self -> state_inv (cp_state (set_last_reset None (set_health NeedsReset self))).
Proof. intros Hinv. apply Hinv. Qed.

Lemma reset_loops_terminate_witness :
  while_ids 50 next_event_id reset_events_body 0 (reset_start (p5 Releases)) = reset_events (reset_start (p5 Releases)).
Proof.
  assert (Hn : 50%nat = (Datatypes.S (length (ot_slots (ds_events (pass_state (reset_start (p5 Releases)))))) + 48)%nat)
    by (vm_compute; reflexivity).
  rewrite Hn. destruct (reset_loops_terminate (set_last_reset None (set_health NeedsReset (p5 Releases)))
    (reset_start (p5 Releases)) 48 (started_inv _ (p5_engine Releases)) (reset_start_ok (p5 Releases))) as [He _]. exact He.
Defined.

Lemma reset_cooperative_succeeds_witness :
  exists self' report, reset 2 (p5 Releases) = (self', Ok report) /\
    rr_disposition report = ResetBackendReusable /\ cp_health self' = Running /\
    rr_released report = resource_counts (cp_state (p5 Releases)) /\
    rr_released_bytes report = ds_retained (cp_state (p5 Releases)) /\ True.
Proof.
  exact (reset_cooperative_succeeds 2 (p5 Releases) (fun _ => True) (proj2 (history_reachable Releases))
    ltac:(split; discriminate) (proj1 p5_resettable) (proj2 p5_resettable) backend_cooperates I).
Defined.

(** ** A lost device is asked again *)

Definition two_contexts : CommandProcessor (A := backend Rejects) := (exec Rejects w1 (exec Rejects w1 (p0 Rejects)).1).1.

Definition first_context : ObjectId :=
  match next_context_id 0 (cp_state two_contexts) with Some (_, id) => id | None => 0 end.

Definition after_first := reset_contexts_body first_context (reset_start two_contexts).

(** With a backend that rejects every release because the device is lost and
    two contexts in the graph, the reset pass marks the backend as not callable
    at the first rejection and still calls it for the second context. *)
Lemma lost_device_called_again :
  resource_counts (cp_state two_contexts) = counts_add one_context one_context /\
  after_first.2 = LoopContinue /\ backend_callable (ps_progress after_first.1) = false /\
  cp_accelerator (ps_self after_first.1) = S (cp_accelerator two_contexts) /\
  cp_accelerator (reset 2 two_contexts).1 = S (S (cp_accelerator two_contexts)).
Proof. repeat (split; [vm_compute; reflexivity|]). vm_compute. reflexivity. Qed.

End EngineDemo.
