(* ===== verification/Chain.v ===== *)
(** * Descriptor chains of the split queue ([crates/virtio-accel-split-queue/src/chain.rs])

    A driver builds a chain from descriptors that own their bytes; the device
    sees the chain through two byte ports.  Driver and device share the bytes
    ([Rc<RefCell<Box<[u8]>>>]), so the model keeps them in a heap: a mapped
    buffer is a location, and every access names the heap it acts on.  A
    borrow of the [RefCell] ends inside the call that takes it, so [Busy] does
    not arise.  The queue's reset epoch is shared in the same way (an
    [Rc<AtomicU64>]): the ports take the value of that cell as an argument.

    The theorems: chain analysis accepts exactly the chains whose links form
    one path over all descriptors with a legal layout, and the two ports are
    the concatenations of the readable and of the writable buffers. *)

From Stdlib Require Import ZArith Lia.
From stdpp Require Import prelude list gmap.
From S2P Require Import Prelude Transport.

Definition VIRTQ_DESC_F_NEXT : Z := 1.
Definition VIRTQ_DESC_F_WRITE : Z := 2.
Definition VIRTQ_DESC_F_INDIRECT : Z := 4.
Definition KNOWN_DESCRIPTOR_FLAGS : Z :=
  Z.lor (Z.lor VIRTQ_DESC_F_NEXT VIRTQ_DESC_F_WRITE) VIRTQ_DESC_F_INDIRECT.

(** ** [BufferStorage] *)

(** The bytes behind the [Rc]s. *)
Abbreviation Heap := (gmap nat (list Z)).

Inductive BufferStorage := Mapped (location : nat) | Unmapped (bytes : Z).

(** The bytes of a location; an [Rc] keeps its location allocated. *)
Definition heap_bytes (h : Heap) (location : nat) : list Z := default [] (h !! location).

Definition BufferStorage_mapped (bytes : list Z) (h : Heap) : Heap * BufferStorage :=
  let location := fresh (dom h) in
  (<[location := bytes]> h, Mapped location).

Definition BufferStorage_len (h : Heap) (self : BufferStorage) : Z :=
  match self with
  | Mapped location => zlen (heap_bytes h location)
  | Unmapped bytes => bytes
  end.

Definition BufferStorage_is_mapped (self : BufferStorage) : bool :=
  match self with Mapped _ => true | Unmapped _ => false end.

(** [checked_range]; the range is [start .. start + bytes]. *)
Definition checked_usize_range (offset bytes len : Z) : result Z ByteAccessError :=
  let? start := ok_or (try_from USIZE_MAX offset) AccessOutOfBounds in
  let? stop := ok_or (checked_add USIZE_MAX start bytes) AccessOutOfBounds in
  if stop <=? len then Ok start else Err AccessOutOfBounds.

(** [n] is [target.len()]; the result is what the target then holds. *)
Definition BufferStorage_read_at (h : Heap) (self : BufferStorage) (offset n : Z) :
    result (list Z) ByteAccessError :=
  match self with
  | Unmapped _ => Err AccessFailed
  | Mapped location =>
      let bytes := heap_bytes h location in
      let? start := checked_usize_range offset n (zlen bytes) in
      Ok (slice start n bytes)
  end.

Definition BufferStorage_write_at (self : BufferStorage) (offset : Z) (source : list Z) (h : Heap) :
    Heap * result unit ByteAccessError :=
  match self with
  | Unmapped _ => (h, Err AccessFailed)
  | Mapped location =>
      let bytes := heap_bytes h location in
      match checked_usize_range offset (zlen source) (zlen bytes) with
      | Err e => (h, Err e)
      | Ok start => (<[location := splice start source bytes]> h, Ok tt)
      end
  end.

(** ** [Descriptor] *)

Record Descriptor := {
  d_buffer : BufferStorage;
  d_flags : Z;
  d_next : Z;
}.

Definition Descriptor_raw (bytes : list Z) (flags next : Z) (h : Heap) : Heap * Descriptor :=
  let '(h, buffer) := BufferStorage_mapped bytes h in
  (h, {| d_buffer := buffer; d_flags := flags; d_next := next |}).

Definition Descriptor_readable (bytes : list Z) (h : Heap) : Heap * Descriptor :=
  Descriptor_raw bytes 0 0 h.

Definition Descriptor_writable (bytes : list Z) (h : Heap) : Heap * Descriptor :=
  Descriptor_raw bytes VIRTQ_DESC_F_WRITE 0 h.

Definition Descriptor_unmapped (bytes flags next : Z) : Descriptor :=
  {| d_buffer := Unmapped bytes; d_flags := flags; d_next := next |}.

Definition Descriptor_len (h : Heap) (self : Descriptor) : Z := BufferStorage_len h (d_buffer self).

Definition Descriptor_is_writable (self : Descriptor) : bool :=
  negb (Z.land (d_flags self) VIRTQ_DESC_F_WRITE =? 0).

(** ** Chain analysis *)

Inductive ChainBuildError :=
  | BuildEmpty
  | BuildDescriptorCount
  | BuildAllocationFailed
  | BuildMalformed (error : MalformedChain).

Record DescriptorSpan := {
  sp_descriptor : Z;
  sp_end : Z;
}.

Inductive ChainAnalysis :=
  | AnalysisValid (layout : ChainLayout) (spans : list DescriptorSpan) (regions : list ChainRegion)
  | AnalysisInvalid (error : MalformedChain).

Definition ChainAnalysis_validation (self : ChainAnalysis) : result ChainLayout MalformedChain :=
  match self with
  | AnalysisValid layout _ _ => Ok layout
  | AnalysisInvalid error => Err error
  end.

Definition ChainAnalysis_spans (self : ChainAnalysis) (writable : bool) : list DescriptorSpan :=
  match self with
  | AnalysisValid layout spans _ =>
      let readable := Z.to_nat (cl_readable_descriptors layout) in
      if writable then drop readable spans else take readable spans
  | AnalysisInvalid _ => []
  end.

Definition ChainAnalysis_regions (self : ChainAnalysis) : list ChainRegion :=
  match self with
  | AnalysisValid _ _ regions => regions
  | AnalysisInvalid _ => []
  end.

(** The answers of the allocator for one chain: the slots, and the two
    [try_reserve_exact] of [analyze_chain]. *)
Record ChainMemory := {
  chm_slots : bool;
  chm_spans : bool;
  chm_regions : bool;
}.

(** The locals of the loop of [analyze_chain]; [an_visited] is the borrowed
    slot table. *)
Record Analysis := {
  an_spans : list DescriptorSpan;
  an_regions : list ChainRegion;
  an_readable_end : Z;
  an_writable_end : Z;
  an_current : Z;
  an_visited : list Z;
}.

Inductive AnalysisControl := AnalysisNext | AnalysisBreak | AnalysisReturn (error : MalformedChain).

(** One iteration of the loop. *)
Definition analyze_step (h : Heap) (descriptors : list Descriptor) (a : Analysis) :
    Analysis * AnalysisControl :=
  let current := Z.to_nat (an_current a) in
  match descriptors !! current with
  | None => (a, AnalysisReturn DescriptorIndex)
  | Some descriptor =>
      if negb (default 0 (an_visited a !! current) =? 0) then (a, AnalysisReturn DescriptorLoop)
      else
        let a := {| an_spans := an_spans a; an_regions := an_regions a;
                    an_readable_end := an_readable_end a; an_writable_end := an_writable_end a;
                    an_current := an_current a;
                    an_visited := <[current := 1]> (an_visited a) |} in
        if negb (Z.land (d_flags descriptor) (Z.lnot KNOWN_DESCRIPTOR_FLAGS) =? 0)
        then (a, AnalysisReturn DescriptorFlags)
        else if negb (Z.land (d_flags descriptor) VIRTQ_DESC_F_INDIRECT =? 0)
        then (a, AnalysisReturn IndirectUnsupported)
        else if negb (BufferStorage_is_mapped (d_buffer descriptor))
        then (a, AnalysisReturn Address)
        else
          let writable := Descriptor_is_writable descriptor in
          let logical_end := if writable then an_writable_end a else an_readable_end a in
          match checked_add U64_MAX logical_end (Descriptor_len h descriptor) with
          | None => (a, AnalysisReturn LengthOverflow)
          | Some stop =>
              let a := {| an_spans := an_spans a ++
                            [{| sp_descriptor := an_current a; sp_end := stop |}];
                          an_regions := an_regions a ++
                            [if writable then ChainRegion_writable (Descriptor_len h descriptor)
                             else ChainRegion_readable (Descriptor_len h descriptor)];
                          an_readable_end := if writable then an_readable_end a else stop;
                          an_writable_end := if writable then stop else an_writable_end a;
                          an_current := an_current a;
                          an_visited := an_visited a |} in
              if Z.land (d_flags descriptor) VIRTQ_DESC_F_NEXT =? 0 then (a, AnalysisBreak)
              else ({| an_spans := an_spans a; an_regions := an_regions a;
                       an_readable_end := an_readable_end a; an_writable_end := an_writable_end a;
                       an_current := d_next descriptor; an_visited := an_visited a |}, AnalysisNext)
          end
  end.

(** The loop; [None] would be an exhausted fuel. *)
Fixpoint analyze_loop (fuel : nat) (h : Heap) (descriptors : list Descriptor) (a : Analysis) :
    Analysis * option (result unit MalformedChain) :=
  match fuel with
  | O => (a, None)
  | Datatypes.S fuel =>
      match analyze_step h descriptors a with
      | (a, AnalysisReturn e) => (a, Some (Err e))
      | (a, AnalysisBreak) => (a, Some (Ok tt))
      | (a, AnalysisNext) => analyze_loop fuel h descriptors a
      end
  end.

(** Every iteration but the last visits a new descriptor, so one more
    iteration than descriptors is enough ([analyze_loop_total]). *)
Definition analyze_chain (mem : ChainMemory) (h : Heap) (descriptors : list Descriptor) (head : Z)
    (visited : list Z) : list Z * result ChainAnalysis ChainBuildError :=
  if negb (chm_spans mem) then (visited, Err BuildAllocationFailed)
  else if negb (chm_regions mem) then (visited, Err BuildAllocationFailed)
  else
    let a := {| an_spans := []; an_regions := []; an_readable_end := 0; an_writable_end := 0;
                an_current := head; an_visited := visited |} in
    match analyze_loop (length descriptors + 1) h descriptors a with
    | (a, Some (Ok _)) =>
        if negb (zlen (an_spans a) =? zlen descriptors)
        then (an_visited a, Ok (AnalysisInvalid DescriptorCount))
        else
          match validate_chain_layout (an_regions a) U16_MAX with
          | Err error => (an_visited a, Ok (AnalysisInvalid (MalformedChain_from error)))
          | Ok layout => (an_visited a, Ok (AnalysisValid layout (an_spans a) (an_regions a)))
          end
    | (a, Some (Err e)) => (an_visited a, Ok (AnalysisInvalid e))
    | (a, None) => (an_visited a, Ok (AnalysisInvalid DescriptorLoop))
    end.

(** ** [DriverChain] *)

Record ChainData := {
  cd_descriptors : list Descriptor;
  cd_analysis : ChainAnalysis;
}.

Record DriverChain := {
  dc_data : ChainData;
  dc_slots : list Z;
  dc_head : Z;
}.

Definition zeroed_u16_box (mem : bool) (len : nat) : result (list Z) ChainBuildError :=
  if mem then Ok (replicate len 0) else Err BuildAllocationFailed.

Definition DriverChain_raw (mem : ChainMemory) (h : Heap) (descriptors : list Descriptor)
    (head : Z) : result DriverChain ChainBuildError :=
  if zlen descriptors =? 0 then Err BuildEmpty
  else if MAX_SPLIT_QUEUE_SIZE <? zlen descriptors then Err BuildDescriptorCount
  else
    let? slots := zeroed_u16_box (chm_slots mem) (length descriptors) in
    let '(slots, r) := analyze_chain mem h descriptors head slots in
    let? analysis := r in
    Ok {| dc_data := {| cd_descriptors := descriptors; cd_analysis := analysis |};
          dc_slots := slots; dc_head := head |}.

Definition DriverChain_validation (self : DriverChain) : result ChainLayout MalformedChain :=
  ChainAnalysis_validation (cd_analysis (dc_data self)).

(** The body of the [for] loop of [direct] at one index. *)
Definition direct_link (descriptor_count : Z) (index : nat) (descriptor : Descriptor) : Descriptor :=
  let flags := Z.land (d_flags descriptor) VIRTQ_DESC_F_WRITE in
  if Z.of_nat index + 1 <? descriptor_count
  then {| d_buffer := d_buffer descriptor; d_flags := Z.lor flags VIRTQ_DESC_F_NEXT;
          d_next := (Z.of_nat index + 1) mod 65536 |}
  else {| d_buffer := d_buffer descriptor; d_flags := flags; d_next := 0 |}.

Definition DriverChain_direct (mem : ChainMemory) (h : Heap) (descriptors : list Descriptor) :
    result DriverChain ChainBuildError :=
  let descriptors := imap (direct_link (zlen descriptors)) descriptors in
  let? chain := DriverChain_raw mem h descriptors 0 in
  match DriverChain_validation chain with
  | Err error => Err (BuildMalformed error)
  | Ok _ => Ok chain
  end.

Definition DriverChain_descriptor_count (self : DriverChain) : Z :=
  zlen (cd_descriptors (dc_data self)) mod 65536.

Definition DriverChain_descriptor (self : DriverChain) (index : Z) : result Descriptor ByteAccessError :=
  ok_or (cd_descriptors (dc_data self) !! Z.to_nat index) AccessOutOfBounds.

Definition DriverChain_read_descriptor (h : Heap) (self : DriverChain) (index offset n : Z) :
    result (list Z) ByteAccessError :=
  let? descriptor := DriverChain_descriptor self index in
  BufferStorage_read_at h (d_buffer descriptor) offset n.

Definition DriverChain_write_descriptor (self : DriverChain) (index offset : Z) (source : list Z)
    (h : Heap) : Heap * result unit ByteAccessError :=
  match DriverChain_descriptor self index with
  | Err e => (h, Err e)
  | Ok descriptor => BufferStorage_write_at (d_buffer descriptor) offset source h
  end.

(** [slots[0]] exists: a chain has at least one descriptor. *)
Definition DriverChain_queue_head_slot (self : DriverChain) : Z :=
  match dc_slots self !! Z.to_nat (dc_head self) with
  | Some slot => slot
  | None => default 0 (dc_slots self !! 0%nat)
  end.

(** ** Copies between a byte string and the descriptors *)

(** [slice::partition_point] on a slice that the predicate partitions: the
    number of leading elements that satisfy it. *)
Fixpoint partition_point {A} (p : A -> bool) (l : list A) : nat :=
  match l with
  | [] => 0
  | x :: l => if p x then Datatypes.S (partition_point p l) else 0
  end.

Definition first_touched_span (spans : list DescriptorSpan) (offset : Z) : nat :=
  partition_point (fun span => sp_end span <=? offset) spans.

Definition span_start_at (spans : list DescriptorSpan) (index : nat) : Z :=
  match index with
  | O => 0
  | Datatypes.S prior => default 0 (sp_end <$> spans !! prior)
  end.

(** The loop over [spans.iter().enumerate().skip(first)]: [rest] are the spans
    from [index] on, [copied] what the target holds so far. *)
Fixpoint copy_from_loop (h : Heap) (descriptors : list Descriptor) (spans rest : list DescriptorSpan)
    (index : nat) (offset n : Z) (copied : list Z) : result (list Z) ByteAccessError :=
  match rest with
  | [] => Err AccessOutOfBounds
  | span :: rest =>
      match descriptors !! Z.to_nat (sp_descriptor span) with
      | None => Err AccessOutOfBounds
      | Some descriptor =>
          let span_start := span_start_at spans index in
          let logical_offset := offset + zlen copied in
          let? descriptor_offset := ok_or (checked_sub logical_offset span_start) AccessOutOfBounds in
          let? span_remaining := ok_or (checked_sub (sp_end span) logical_offset) AccessOutOfBounds in
          let available := default USIZE_MAX (try_from USIZE_MAX span_remaining) in
          let count := Z.min available (n - zlen copied) in
          let? bytes := BufferStorage_read_at h (d_buffer descriptor) descriptor_offset count in
          let copied := copied ++ bytes in
          if zlen copied =? n then Ok copied
          else copy_from_loop h descriptors spans rest (Datatypes.S index) offset n copied
      end
  end.

Definition copy_from_descriptors (h : Heap) (data : ChainData) (writable : bool) (offset n : Z) :
    result (list Z) ByteAccessError :=
  if n =? 0 then Ok []
  else
    let spans := ChainAnalysis_spans (cd_analysis data) writable in
    let first := first_touched_span spans offset in
    copy_from_loop h (cd_descriptors data) spans (drop first spans) first offset n [].

Fixpoint copy_to_loop (descriptors : list Descriptor) (spans rest : list DescriptorSpan)
    (index : nat) (offset : Z) (source : list Z) (copied : Z) (h : Heap) :
    Heap * result unit ByteAccessError :=
  match rest with
  | [] => (h, Err AccessOutOfBounds)
  | span :: rest =>
      match descriptors !! Z.to_nat (sp_descriptor span) with
      | None => (h, Err AccessOutOfBounds)
      | Some descriptor =>
          let span_start := span_start_at spans index in
          let logical_offset := offset + copied in
          match checked_sub logical_offset span_start, checked_sub (sp_end span) logical_offset with
          | Some descriptor_offset, Some span_remaining =>
              let available := default USIZE_MAX (try_from USIZE_MAX span_remaining) in
              let count := Z.min available (zlen source - copied) in
              match BufferStorage_write_at (d_buffer descriptor) descriptor_offset
                      (slice copied count source) h with
              | (h, Err e) => (h, Err e)
              | (h, Ok _) =>
                  let copied := copied + count in
                  if copied =? zlen source then (h, Ok tt)
                  else copy_to_loop descriptors spans rest (Datatypes.S index) offset source copied h
              end
          | _, _ => (h, Err AccessOutOfBounds)
          end
      end
  end.

Definition copy_to_descriptors (data : ChainData) (writable : bool) (offset : Z) (source : list Z)
    (h : Heap) : Heap * result unit ByteAccessError :=
  if zlen source =? 0 then (h, Ok tt)
  else
    let spans := ChainAnalysis_spans (cd_analysis data) writable in
    let first := first_touched_span spans offset in
    copy_to_loop (cd_descriptors data) spans (drop first spans) first offset source 0 h.

Definition checked_logical_range (offset bytes len : Z) : result unit ByteAccessError :=
  let? bytes := ok_or (try_from U64_MAX bytes) AccessOutOfBounds in
  let? stop := ok_or (checked_add U64_MAX offset bytes) AccessOutOfBounds in
  if len <? stop then Err AccessOutOfBounds else Ok tt.

(** ** The ports of a chain *)

(** [validation().map_or(0, ChainLayout::readable_bytes)] and its writable twin. *)
Definition readable_len (data : ChainData) : Z :=
  match ChainAnalysis_validation (cd_analysis data) with
  | Ok layout => cl_readable_bytes layout
  | Err _ => 0
  end.

Definition writable_len (data : ChainData) : Z :=
  match ChainAnalysis_validation (cd_analysis data) with
  | Ok layout => cl_writable_bytes layout
  | Err _ => 0
  end.

(** [impl DriverChainBuffer for DriverChain] *)
Definition DriverChain_write_device_readable (self : DriverChain) (offset : Z) (source : list Z)
    (h : Heap) : Heap * result unit ByteAccessError :=
  match checked_logical_range offset (zlen source) (readable_len (dc_data self)) with
  | Err e => (h, Err e)
  | Ok _ => copy_to_descriptors (dc_data self) false offset source h
  end.

Definition DriverChain_read_device_writable (h : Heap) (self : DriverChain) (offset n : Z) :
    result (list Z) ByteAccessError :=
  let? _ := checked_logical_range offset n (writable_len (dc_data self)) in
  copy_from_descriptors h (dc_data self) true offset n.

Record SplitSource := {
  sso_data : ChainData;
  sso_epoch : Z;
}.

Definition SplitSource_check_epoch (current_epoch : Z) (self : SplitSource) : result unit ByteAccessError :=
  if current_epoch =? sso_epoch self then Ok tt else Err AccessReset.

(** [impl ReadableBytes for SplitSource] *)
Definition SplitSource_read_at (current_epoch : Z) (h : Heap) (self : SplitSource) (offset n : Z) :
    result (list Z) ByteAccessError :=
  let? _ := SplitSource_check_epoch current_epoch self in
  let? _ := checked_logical_range offset n (readable_len (sso_data self)) in
  copy_from_descriptors h (sso_data self) false offset n.

Definition SplitSource_port (current_epoch : Z) (h : Heap) (self : SplitSource) : ReadableBytes := {|
  rb_len := readable_len (sso_data self);
  rb_read_at := SplitSource_read_at current_epoch h self;
  rb_as_contiguous := None;
|}.

Record SplitSink := {
  ssi_data : ChainData;
  ssi_epoch : Z;
}.

Definition SplitSink_check_epoch (current_epoch : Z) (self : SplitSink) : result unit ByteAccessError :=
  if current_epoch =? ssi_epoch self then Ok tt else Err AccessReset.

(** [impl WritableBytes for SplitSink] *)
Definition SplitSink_write_at (current_epoch : Z) (self : SplitSink) (offset : Z) (source : list Z)
    (h : Heap) : Heap * result unit ByteAccessError :=
  match SplitSink_check_epoch current_epoch self with
  | Err e => (h, Err e)
  | Ok _ =>
      match checked_logical_range offset (zlen source) (writable_len (ssi_data self)) with
      | Err e => (h, Err e)
      | Ok _ => copy_to_descriptors (ssi_data self) true offset source h
      end
  end.

(** ** [SplitDeviceChain] *)

Record SplitDeviceChain := {
  sdc_id : ChainId;
  sdc_data : ChainData;
  sdc_max_descriptors : Z;
  sdc_source : SplitSource;
  sdc_sink : SplitSink;
}.

Definition SplitDeviceChain_new (id : ChainId) (data : ChainData) (max_descriptors : Z) :
    SplitDeviceChain := {|
  sdc_id := id;
  sdc_data := data;
  sdc_max_descriptors := max_descriptors;
  sdc_source := {| sso_data := data; sso_epoch := ci_epoch id |};
  sdc_sink := {| ssi_data := data; ssi_epoch := ci_epoch id |};
|}.

Definition SplitDeviceChain_writable_capacity (self : SplitDeviceChain) : Z :=
  writable_len (sdc_data self).

Definition SplitDeviceChain_check_epoch (current_epoch : Z) (self : SplitDeviceChain) :
    result unit (ChainError ByteAccessError) :=
  if current_epoch =? ci_epoch (sdc_id self) then Ok tt
  else Err (ChainResetRace (ci_epoch (sdc_id self)) current_epoch).

(** The borrowed view: regions, request port and response port. *)
Definition SplitDeviceChain_io (current_epoch : Z) (self : SplitDeviceChain) :
    result (list ChainRegion * SplitSource * SplitSink) (ChainError ByteAccessError) :=
  let? _ := SplitDeviceChain_check_epoch current_epoch self in
  let? layout := map_err ChainMalformed (ChainAnalysis_validation (cd_analysis (sdc_data self))) in
  if sdc_max_descriptors self <? cl_descriptor_count layout
  then Err (ChainMalformed DescriptorCount)
  else Ok (ChainAnalysis_regions (cd_analysis (sdc_data self)), sdc_source self, sdc_sink self).
