(* ===== verification/ChainSpec.v ===== *)
(** * The byte ports of a chain are concatenations

    [span_chain] says that a list of spans covers mapped, non-empty buffers
    end to end.  Under it the copy loops of [Chain] read and write the
    concatenation [span_bytes] of those buffers. *)

From Stdlib Require Import ZArith Lia.
From stdpp Require Import prelude list gmap.
From S2P Require Import Prelude Transport Chain.

(** The buffer that a span stands for. *)
Definition span_location (ds : list Descriptor) (s : DescriptorSpan) : option nat :=
  match ds !! Z.to_nat (sp_descriptor s) with
  | Some d => match d_buffer d with Mapped l => Some l | Unmapped _ => None end
  | None => None
  end.

Definition span_bytes (h : Heap) (ds : list Descriptor) (spans : list DescriptorSpan) : list Z :=
  concat (heap_bytes h <$> omap (span_location ds) spans).

(** Spans that cover non-empty buffers end to end from [start]. *)
Fixpoint span_chain (h : Heap) (ds : list Descriptor) (start : Z) (spans : list DescriptorSpan) : Prop :=
  match spans with
  | [] => True
  | s :: rest =>
      exists l, span_location ds s = Some l /\ 0 < zlen (heap_bytes h l) /\
        sp_end s = start + zlen (heap_bytes h l) /\ span_chain h ds (sp_end s) rest
  end.

(** The bytes of one direction of a chain. *)
Definition chain_bytes (h : Heap) (data : ChainData) (writable : bool) : list Z :=
  span_bytes h (cd_descriptors data) (ChainAnalysis_spans (cd_analysis data) writable).

(** Two heaps with the same buffer lengths. *)
Definition same_lengths (h h' : Heap) : Prop :=
  dom h = dom h' /\ forall l, zlen (heap_bytes h l) = zlen (heap_bytes h' l).

#[global] Instance same_lengths_equiv : Equivalence same_lengths.
Proof.
  split; [done|intros h h' [? H]; split; [done|by intros; rewrite H]|].
  intros h h' h'' [D H] [D' H']. split; [by rewrite D|intros; by rewrite H].
Qed.

Lemma span_bytes_cons h ds s l spans :
  span_location ds s = Some l -> span_bytes h ds (s :: spans) = heap_bytes h l ++ span_bytes h ds spans.
Proof. intros H. unfold span_bytes. simpl. by rewrite H. Qed.

Lemma span_bytes_app h ds ss rs : span_bytes h ds (ss ++ rs) = span_bytes h ds ss ++ span_bytes h ds rs.
Proof. unfold span_bytes. by rewrite omap_app, fmap_app, concat_app. Qed.

Lemma span_chain_app h ds start ss rs :
  span_chain h ds start (ss ++ rs) <->
  span_chain h ds start ss /\ span_chain h ds (start + zlen (span_bytes h ds ss)) rs.
Proof.
  revert start. induction ss as [|s ss IH]; intros start; simpl.
  - unfold span_bytes; simpl. rewrite Z.add_0_r. tauto.
  - split.
    + intros (l & Hl & Hp & He & Hr). apply IH in Hr as [H1 H2]. rewrite (span_bytes_cons _ _ _ _ _ Hl).
      rewrite zlen_app, Z.add_assoc, <-He. eauto 10.
    + intros [(l & Hl & Hp & He & Hr) H2]. rewrite (span_bytes_cons _ _ _ _ _ Hl) in H2.
      rewrite zlen_app, Z.add_assoc, <-He in H2. exists l. split_and!; auto. apply IH. auto.
Qed.

Lemma span_chain_start h ds start pre s post :
  span_chain h ds start (pre ++ s :: post) ->
  start = 0 -> span_start_at (pre ++ s :: post) (length pre) = zlen (span_bytes h ds pre).
Proof.
  intros H ->. destruct pre as [|x pre _] using rev_ind; [done|].
  rewrite length_app, Nat.add_1_r. simpl. rewrite <-app_assoc, lookup_app_r, Nat.sub_diag by lia. simpl.
  rewrite <-app_assoc in H. apply span_chain_app in H as [_ (l & Hl & _ & He & _)].
  rewrite span_bytes_app, (span_bytes_cons _ _ _ _ _ Hl), !zlen_app, He. unfold span_bytes; simpl. unfold zlen; simpl. lia.
Qed.

Lemma span_chain_lengths h h' ds start spans :
  same_lengths h h' -> span_chain h ds start spans -> span_chain h' ds start spans.
Proof.
  intros [_ HL]. revert start. induction spans as [|s spans IH]; intros start; simpl; [done|].
  intros (l & Hl & Hp & He & Hr). exists l. rewrite <-HL. eauto.
Qed.

Lemma span_bytes_lengths h h' ds spans :
  same_lengths h h' -> zlen (span_bytes h ds spans) = zlen (span_bytes h' ds spans).
Proof.
  intros [_ HL]. unfold span_bytes. induction (omap _ spans) as [|l ls IH]; [done|].
  rewrite !fmap_cons, !zlen_concat_cons, IH, HL. done.
Qed.

(** The spans before the first touched one end at or before the offset. *)
Lemma first_touched_split h ds start spans offset :
  span_chain h ds start spans -> start <= offset -> offset < start + zlen (span_bytes h ds spans) ->
  exists pre s post, spans = pre ++ s :: post /\ first_touched_span spans offset = length pre /\
    start + zlen (span_bytes h ds pre) <= offset < sp_end s.
Proof.
  revert start. induction spans as [|s spans IH]; intros start Hc Hs Ho.
  { unfold span_bytes, zlen in Ho; simpl in Ho. lia. }
  destruct Hc as (l & Hl & Hp & He & Hr). rewrite (span_bytes_cons _ _ _ _ _ Hl), zlen_app in Ho.
  unfold first_touched_span; simpl. destruct (Z.leb_spec (sp_end s) offset).
  - destruct (IH (sp_end s)) as (pre & s' & post & -> & Hf & Hb); [done|done|lia|].
    exists (s :: pre), s', post. split; [done|]. split; [unfold first_touched_span in Hf; simpl; by rewrite Hf|].
    rewrite (span_bytes_cons _ _ _ _ _ Hl), zlen_app. lia.
  - exists [], s, spans. unfold span_bytes, zlen; simpl. split_and!; [done..|lia|lia].
Qed.

Lemma checked_usize_range_Ok offset n len :
  0 <= offset -> 0 <= n -> offset + n <= len -> len <= USIZE_MAX -> checked_usize_range offset n len = Ok offset.
Proof. intros. unfold checked_usize_range, try_from, checked_add. zcmp. done. Qed.

(** ** Reading *)

Lemma copy_from_loop_spec h ds pre rest offset n copied :
  span_chain h ds 0 (pre ++ rest) ->
  zlen (span_bytes h ds (pre ++ rest)) <= U64_MAX ->
  0 <= offset -> offset + n <= zlen (span_bytes h ds (pre ++ rest)) -> zlen copied < n ->
  copied = slice offset (zlen copied) (span_bytes h ds (pre ++ rest)) ->
  zlen (span_bytes h ds pre) <= offset + zlen copied ->
  (forall s, head rest = Some s -> offset + zlen copied < sp_end s) ->
  copy_from_loop h ds (pre ++ rest) rest (length pre) offset n copied =
    Ok (slice offset n (span_bytes h ds (pre ++ rest))).
Proof.
  revert pre copied. induction rest as [|s rest IH]; intros pre copied Hc HU Ho Hn Hk Heq Hlo Hhi.
  { rewrite app_nil_r in *. lia. }
  pose proof (zlen_nonneg copied) as Hk0. pose proof (zlen_nonneg (span_bytes h ds pre)) as Hp0.
  specialize (Hhi s eq_refl). pose proof Hc as Hc'.
  apply span_chain_app in Hc as [Hpre (l & Hl & Hpos & He & Hrest)]. rewrite Z.add_0_l in He.
  simpl. rewrite (span_chain_start h ds 0 _ _ _ Hc' eq_refl).
  unfold span_location in Hl. destruct (ds !! Z.to_nat (sp_descriptor s)) as [d|] eqn:Hd; [|done].
  destruct (d_buffer d) as [l'|] eqn:Hb; simplify_eq.
  assert (Hl : span_location ds s = Some l) by (unfold span_location; by rewrite Hd, Hb).
  set (flat := span_bytes h ds (pre ++ s :: rest)) in *.
  assert (Hflat : flat = span_bytes h ds pre ++ heap_bytes h l ++ span_bytes h ds rest)
    by (unfold flat; by rewrite span_bytes_app, (span_bytes_cons _ _ _ _ _ Hl)).
  assert (Hsz : zlen flat = zlen (span_bytes h ds pre) + zlen (heap_bytes h l) + zlen (span_bytes h ds rest))
    by (rewrite Hflat, !zlen_app; lia).
  pose proof (zlen_nonneg (span_bytes h ds rest)).
  unfold checked_sub. zcmp. unfold try_from. zcmp.
  set (count := Z.min (sp_end s - (offset + zlen copied)) (n - zlen copied)).
  assert (Hcount : 0 < count) by lia.
  rewrite checked_usize_range_Ok by lia.
  assert (Hbytes : slice (offset + zlen copied - zlen (span_bytes h ds pre)) count (heap_bytes h l)
                   = slice (offset + zlen copied) count flat).
  { rewrite Hflat, slice_app_r by lia. rewrite slice_app_l; [done|lia|lia|lia]. }
  rewrite Hbytes.
  assert (Hcop : copied ++ slice (offset + zlen copied) count flat = slice offset (zlen copied + count) flat).
  { rewrite Heq at 1. apply slice_app; lia. }
  rewrite Hcop. assert (Hlen : zlen (slice offset (zlen copied + count) flat) = zlen copied + count)
    by (apply zlen_slice; lia).
  rewrite Hlen. destruct (Z.eqb_spec (zlen copied + count) n) as [Heqn|Hne]; [by rewrite Heqn|].
  assert (Hcnt : count = sp_end s - (offset + zlen copied)) by lia.
  specialize (IH (pre ++ [s]) (slice offset (zlen copied + count) flat)).
  rewrite <-app_assoc in IH. simpl in IH. fold flat in IH. rewrite length_app, Nat.add_1_r in IH.
  apply IH; try done; rewrite ?Hlen; try lia; try done.
  - rewrite span_bytes_app, (span_bytes_cons _ _ _ _ _ Hl), !zlen_app. unfold span_bytes at 2; simpl.
    change (zlen (@nil Z)) with 0. lia.
  - intros s' Hs'. destruct rest as [|x rest]; [done|]. simpl in Hs'. simplify_eq.
    destruct Hrest as (? & _ & ? & -> & _). lia.
Qed.

(** ** Writing *)

Lemma heap_bytes_insert h l bs : heap_bytes (<[l := bs]> h) l = bs.
Proof. unfold heap_bytes. by rewrite lookup_insert_eq. Qed.

Lemma heap_bytes_insert_ne h l l' bs : l <> l' -> heap_bytes (<[l := bs]> h) l' = heap_bytes h l'.
Proof. intros. unfold heap_bytes. by rewrite lookup_insert_ne. Qed.

Lemma span_bytes_insert_ne h ds l bs spans :
  l ∉ omap (span_location ds) spans -> span_bytes (<[l := bs]> h) ds spans = span_bytes h ds spans.
Proof.
  unfold span_bytes. induction (omap _ spans) as [|l' ls IH]; intros Hl; [done|].
  rewrite !fmap_cons. simpl. rewrite heap_bytes_insert_ne, IH by set_solver. done.
Qed.

Lemma same_lengths_insert (h : Heap) l bs :
  l ∈ dom h -> zlen bs = zlen (heap_bytes h l) -> same_lengths h (<[l := bs]> h).
Proof.
  intros Hl Hz. split; [rewrite dom_insert_L; set_solver|]. intros l'.
  destruct (decide (l = l')) as [->|]; [by rewrite heap_bytes_insert|by rewrite heap_bytes_insert_ne].
Qed.

Lemma heap_bytes_dom (h : Heap) l : 0 < zlen (heap_bytes h l) -> l ∈ dom h.
Proof. unfold heap_bytes. rewrite elem_of_dom. destruct (h !! l); [done|]. unfold zlen; simpl. lia. Qed.

(** Locations outside [ls] keep their bytes, and every buffer its length. *)
Definition heap_frame (ls : list nat) (h h' : Heap) : Prop :=
  same_lengths h h' /\ forall l, l ∉ ls -> h' !! l = h !! l.

Lemma heap_frame_trans ls h h' h'' : heap_frame ls h h' -> heap_frame ls h' h'' -> heap_frame ls h h''.
Proof. intros [S1 F1] [S2 F2]. split; [by etrans|]. intros l Hl. by rewrite F2, F1. Qed.

(** A write into the buffer of one span is a write into the concatenation. *)
Lemma span_write h ds pre s rest l off src :
  span_location ds s = Some l -> NoDup (omap (span_location ds) (pre ++ s :: rest)) ->
  0 <= off -> off + zlen src <= zlen (heap_bytes h l) -> 0 < zlen (heap_bytes h l) ->
  let h' := <[l := splice off src (heap_bytes h l)]> h in
  span_bytes h' ds (pre ++ s :: rest) =
    splice (zlen (span_bytes h ds pre) + off) src (span_bytes h ds (pre ++ s :: rest)) /\
  heap_frame (omap (span_location ds) (pre ++ s :: rest)) h h'.
Proof.
  intros Hl Hnd Ho Hlen Hpos h'. rewrite omap_app in Hnd |- *. simpl in Hnd |- *. rewrite Hl in *.
  apply NoDup_app in Hnd as (_ & Hpre & Hnd). apply NoDup_cons in Hnd as [Hrest _].
  split.
  - rewrite !span_bytes_app, !(span_bytes_cons _ _ _ _ _ Hl). unfold h'.
    rewrite heap_bytes_insert, !span_bytes_insert_ne; [|done|intros Hin; apply (Hpre l Hin); constructor].
    pose proof (zlen_nonneg (span_bytes h ds pre)).
    rewrite splice_app_r by lia. f_equal. rewrite splice_app_l; [|lia|lia]. do 2 f_equal. lia.
  - split; [apply same_lengths_insert; [by apply heap_bytes_dom|by rewrite zlen_splice]|].
    intros l' Hl'. unfold h'. rewrite lookup_insert_ne; [done|]. set_solver.
Qed.

Lemma copy_to_loop_spec ds pre rest offset source copied h0 h :
  let spans := pre ++ rest in
  NoDup (omap (span_location ds) spans) ->
  span_chain h ds 0 spans -> zlen (span_bytes h ds spans) <= U64_MAX ->
  0 <= offset -> offset + zlen source <= zlen (span_bytes h ds spans) ->
  0 <= copied < zlen source ->
  heap_frame (omap (span_location ds) spans) h0 h ->
  span_bytes h ds spans = splice offset (slice 0 copied source) (span_bytes h0 ds spans) ->
  zlen (span_bytes h ds pre) <= offset + copied ->
  (forall s, head rest = Some s -> offset + copied < sp_end s) ->
  exists h', copy_to_loop ds spans rest (length pre) offset source copied h = (h', Ok tt) /\
    heap_frame (omap (span_location ds) spans) h0 h' /\
    span_bytes h' ds spans = splice offset source (span_bytes h0 ds spans).
Proof.
  intros spans Hnd. subst spans. revert pre copied h Hnd.
  induction rest as [|s rest IH]; intros pre copied h Hnd Hc HU Ho Hn Hk Hfr Heq Hlo Hhi.
  { rewrite app_nil_r in *. lia. }
  pose proof (zlen_nonneg (span_bytes h ds pre)) as Hp0.
  specialize (Hhi s eq_refl). pose proof Hc as Hc'.
  apply span_chain_app in Hc as [Hpre (l & Hl & Hpos & He & Hrest)]. rewrite Z.add_0_l in He.
  simpl. rewrite (span_chain_start h ds 0 _ _ _ Hc' eq_refl).
  pose proof Hl as Hl0. unfold span_location in Hl0.
  destruct (ds !! Z.to_nat (sp_descriptor s)) as [d|] eqn:Hd; [|done].
  destruct (d_buffer d) as [l'|] eqn:Hb; simplify_eq.
  assert (Hsz : zlen (span_bytes h ds (pre ++ s :: rest)) =
    zlen (span_bytes h ds pre) + zlen (heap_bytes h l) + zlen (span_bytes h ds rest))
    by (rewrite span_bytes_app, (span_bytes_cons _ _ _ _ _ Hl), !zlen_app; lia).
  pose proof (zlen_nonneg (span_bytes h ds rest)).
  unfold checked_sub. zcmp. unfold try_from. zcmp.
  set (count := Z.min (sp_end s - (offset + copied)) (zlen source - copied)).
  assert (Hcount : 0 < count) by lia.
  assert (Hchunk : zlen (slice copied count source) = count) by (apply zlen_slice; lia).
  rewrite Hchunk, checked_usize_range_Ok by lia.
  set (off := offset + copied - zlen (span_bytes h ds pre)).
  destruct (span_write h ds pre s rest l off (slice copied count source)) as [Hb' Hf'];
    [done|done|lia|lia|lia|].
  set (h1 := <[l := _]> h) in *.
  assert (Hflat : span_bytes h1 ds (pre ++ s :: rest) =
    splice offset (slice 0 (copied + count) source) (span_bytes h0 ds (pre ++ s :: rest))).
  { pose proof (span_bytes_lengths _ _ ds (pre ++ s :: rest) (proj1 Hfr)) as HL.
    assert (Hz : zlen (slice 0 copied source) = copied) by (apply zlen_slice; lia).
    rewrite Hb', Heq. replace (zlen (span_bytes h ds pre) + off) with (offset + zlen (slice 0 copied source)) by lia.
    rewrite splice_app by lia. f_equal. replace copied with (0 + copied) at 2 by lia. apply slice_app; lia. }
  assert (Hfr1 := heap_frame_trans _ _ _ _ Hfr Hf').
  destruct (Z.eqb_spec (copied + count) (zlen source)) as [Heqn|Hne].
  { exists h1. split_and!; [done..|]. by rewrite Hflat, Heqn, slice_all. }
  specialize (IH (pre ++ [s]) (copied + count) h1). rewrite <-app_assoc in IH. simpl in IH.
  rewrite length_app, Nat.add_1_r in IH. pose proof (proj1 Hf') as HS.
  apply IH; try done; try lia.
  - by eapply span_chain_lengths.
  - by rewrite <-(span_bytes_lengths _ _ _ _ HS).
  - by rewrite <-(span_bytes_lengths _ _ _ _ HS).
  - rewrite <-(span_bytes_lengths _ _ _ _ HS), span_bytes_app, (span_bytes_cons _ _ _ _ _ Hl), !zlen_app.
    unfold span_bytes at 2; simpl. change (zlen (@nil Z)) with 0. lia.
  - intros s' Hs'. destruct rest as [|x rest]; [done|]. simpl in Hs'. simplify_eq.
    destruct Hrest as (? & _ & ? & -> & _). lia.
Qed.

(** * What chain analysis accepts, and what the ports of a chain are

    [chain_path] follows the links of a descriptor table.  The analysis loop
    ends, and accepts exactly the tables whose path visits every descriptor
    once with legal flags, mapped buffers and a legal layout.  For a chain
    built from descriptors that own their buffers, the source is the
    concatenation of the readable buffers and the sink that of the writable
    ones, on every branch. *)

(** ** The specification *)

(** The indices visited from [current] by following [next]. *)
Inductive chain_path (ds : list Descriptor) : Z -> list nat -> Prop :=
  | path_last current d :
      ds !! Z.to_nat current = Some d -> Z.land (d_flags d) VIRTQ_DESC_F_NEXT = 0 ->
      chain_path ds current [Z.to_nat current]
  | path_next current d path :
      ds !! Z.to_nat current = Some d -> Z.land (d_flags d) VIRTQ_DESC_F_NEXT <> 0 ->
      chain_path ds (d_next d) path -> chain_path ds current (Z.to_nat current :: path).

(** Only known flags, not indirect, and mapped. *)
Definition legal_descriptor (d : Descriptor) : Prop :=
  Z.land (d_flags d) (Z.lnot KNOWN_DESCRIPTOR_FLAGS) = 0 /\
  Z.land (d_flags d) VIRTQ_DESC_F_INDIRECT = 0 /\ exists l, d_buffer d = Mapped l.

Definition region_of (h : Heap) (d : Descriptor) : ChainRegion :=
  if Descriptor_is_writable d then ChainRegion_writable (Descriptor_len h d)
  else ChainRegion_readable (Descriptor_len h d).

Definition path_descriptors (ds : list Descriptor) (path : list nat) : list Descriptor :=
  omap (fun i => ds !! i) path.

Definition path_regions (h : Heap) (ds : list Descriptor) (path : list nat) : list ChainRegion :=
  region_of h <$> path_descriptors ds path.

(** Each span ends where the bytes of its direction end so far. *)
Fixpoint path_spans (h : Heap) (ds : list Descriptor) (r w : Z) (path : list nat) : list DescriptorSpan :=
  match path with
  | [] => []
  | i :: path =>
      match ds !! i with
      | None => path_spans h ds r w path
      | Some d =>
          let len := Descriptor_len h d in
          if Descriptor_is_writable d
          then {| sp_descriptor := Z.of_nat i; sp_end := w + len |} :: path_spans h ds r (w + len) path
          else {| sp_descriptor := Z.of_nat i; sp_end := r + len |} :: path_spans h ds (r + len) w path
      end
  end.

(** The widths of the fields of a descriptor. *)
Definition descriptor_typed (h : Heap) (d : Descriptor) : Prop :=
  is_u16 (d_flags d) /\ is_u16 (d_next d) /\ 0 <= Descriptor_len h d.

(** ** The loop *)

(** [a] is the loop state after the visits of [path]. *)
Record visits (h : Heap) (ds : list Descriptor) (path : list nat) (a : Analysis) : Prop := {
  vi_nodup : NoDup path;
  vi_legal : Forall (fun i => exists d, ds !! i = Some d /\ legal_descriptor d) path;
  vi_marks : forall i, (i < length ds)%nat -> an_visited a !! i = Some (if decide (i ∈ path) then 1 else 0);
  vi_regions : an_regions a = path_regions h ds path;
  vi_spans : an_spans a = path_spans h ds 0 0 path;
  vi_readable : an_readable_end a = dir_bytes DeviceReadable (an_regions a);
  vi_writable : an_writable_end a = dir_bytes DeviceWritable (an_regions a);
}.

Lemma path_regions_app h ds p q : path_regions h ds (p ++ q) = path_regions h ds p ++ path_regions h ds q.
Proof. unfold path_regions, path_descriptors. by rewrite omap_app, fmap_app. Qed.

Lemma path_regions_single h ds i d : ds !! i = Some d -> path_regions h ds [i] = [region_of h d].
Proof. intros H. unfold path_regions, path_descriptors. simpl. by rewrite H. Qed.

Lemma region_of_dir h d :
  region_is DeviceWritable (region_of h d) = Descriptor_is_writable d /\
  region_is DeviceReadable (region_of h d) = negb (Descriptor_is_writable d) /\
  cr_bytes (region_of h d) = Descriptor_len h d.
Proof. unfold region_of. by destruct (Descriptor_is_writable d). Qed.

Lemma path_spans_app h ds r w p q :
  path_spans h ds r w (p ++ q) = path_spans h ds r w p ++
    path_spans h ds (r + dir_bytes DeviceReadable (path_regions h ds p))
                    (w + dir_bytes DeviceWritable (path_regions h ds p)) q.
Proof.
  revert r w. induction p as [|i p IH]; intros r w.
  { unfold path_regions, dir_bytes, sum_by; simpl. by rewrite !Z.add_0_r. }
  simpl. change (i :: p) with ([i] ++ p). rewrite path_regions_app.
  destruct (ds !! i) as [d|] eqn:Hd.
  - rewrite (path_regions_single _ _ _ _ Hd), !dir_bytes_app, !dir_bytes_single.
    destruct (region_of_dir h d) as (-> & -> & ->).
    destruct (Descriptor_is_writable d); simpl; rewrite IH; do 3 f_equal; lia.
  - unfold path_regions at 1 3, path_descriptors. simpl. by rewrite Hd.
Qed.

(** The iteration that visits one more descriptor. *)
Lemma analyze_step_visit h ds path a d :
  visits h ds path a -> 0 <= an_current a -> length (an_visited a) = length ds ->
  ds !! Z.to_nat (an_current a) = Some d -> legal_descriptor d -> Z.to_nat (an_current a) ∉ path ->
  dir_bytes DeviceReadable (path_regions h ds (path ++ [Z.to_nat (an_current a)])) <= U64_MAX ->
  dir_bytes DeviceWritable (path_regions h ds (path ++ [Z.to_nat (an_current a)])) <= U64_MAX ->
  exists a', analyze_step h ds a =
      (a', if Z.land (d_flags d) VIRTQ_DESC_F_NEXT =? 0 then AnalysisBreak else AnalysisNext) /\
    visits h ds (path ++ [Z.to_nat (an_current a)]) a' /\ length (an_visited a') = length ds /\
    (Z.land (d_flags d) VIRTQ_DESC_F_NEXT <> 0 -> an_current a' = d_next d).
Proof.
  intros V Hc Hlen Hd Hleg Hnin HR HW. set (i := Z.to_nat (an_current a)) in *.
  assert (Hi : (i < length ds)%nat) by by eapply lookup_lt_Some.
  unfold analyze_step. fold i. rewrite Hd, (vi_marks _ _ _ _ V i Hi), decide_False by done. simpl.
  pose proof Hleg as (F1 & F2 & l & Hb). rewrite F1, F2, Hb. simpl.
  destruct (region_of_dir h d) as (D1 & D2 & D3).
  rewrite path_regions_app, (path_regions_single _ _ _ _ Hd), dir_bytes_app, dir_bytes_single,
    D3, <-(vi_regions _ _ _ _ V) in HR, HW. rewrite D2 in HR. rewrite D1 in HW.
  rewrite <-(vi_readable _ _ _ _ V) in HR. rewrite <-(vi_writable _ _ _ _ V) in HW.
  assert (Hadd : checked_add U64_MAX (if Descriptor_is_writable d then an_writable_end a else an_readable_end a)
     (Descriptor_len h d) = Some ((if Descriptor_is_writable d then an_writable_end a else an_readable_end a)
     + Descriptor_len h d)).
  { apply checked_add_Some. split; [done|]. destruct (Descriptor_is_writable d); simpl in *; lia. }
  rewrite Hadd. set (stop := _ + _).
  assert (V' : forall cur, visits h ds (path ++ [i])
    {| an_spans := an_spans a ++ [{| sp_descriptor := an_current a; sp_end := stop |}];
       an_regions := an_regions a ++ [if Descriptor_is_writable d
         then ChainRegion_writable (Descriptor_len h d) else ChainRegion_readable (Descriptor_len h d)];
       an_readable_end := if Descriptor_is_writable d then an_readable_end a else stop;
       an_writable_end := if Descriptor_is_writable d then stop else an_writable_end a;
       an_current := cur; an_visited := <[i := 1]> (an_visited a) |}).
  { intros cur. fold (region_of h d). split; simpl.
    - apply NoDup_app. split_and!; [apply (vi_nodup _ _ _ _ V)|set_solver|apply NoDup_singleton].
    - apply Forall_app. split; [apply (vi_legal _ _ _ _ V)|]. constructor; [eauto|done].
    - intros j Hj. destruct (decide (j = i)) as [->|].
      + rewrite list_lookup_insert_eq by lia. by rewrite decide_True by set_solver.
      + rewrite list_lookup_insert_ne, (vi_marks _ _ _ _ V) by done.
        destruct (decide (j ∈ path)); [rewrite decide_True|rewrite decide_False]; set_solver.
    - by rewrite (vi_regions _ _ _ _ V), path_regions_app, (path_regions_single _ _ _ _ Hd).
    - rewrite (vi_spans _ _ _ _ V), path_spans_app, <-(vi_regions _ _ _ _ V), !Z.add_0_l.
      rewrite <-(vi_readable _ _ _ _ V), <-(vi_writable _ _ _ _ V). simpl. rewrite Hd.
      unfold i, stop. rewrite Z2Nat.id by done. by destruct (Descriptor_is_writable d).
    - rewrite dir_bytes_app, dir_bytes_single, D2, D3, <-(vi_readable _ _ _ _ V).
      unfold stop. destruct (Descriptor_is_writable d); simpl; lia.
    - rewrite dir_bytes_app, dir_bytes_single, D1, D3, <-(vi_writable _ _ _ _ V).
      unfold stop. destruct (Descriptor_is_writable d); simpl; lia. }
  destruct (Z.eqb_spec (Z.land (d_flags d) VIRTQ_DESC_F_NEXT) 0).
  - eexists. split; [done|]. split; [apply V'|]. split; [simpl; by rewrite length_insert|done].
  - eexists. split; [done|]. split; [apply V'|]. split; [simpl; by rewrite length_insert|done].
Qed.

(** An iteration that does not return an error visited a new legal descriptor. *)
Lemma analyze_step_inv h ds path a a' c :
  visits h ds path a -> analyze_step h ds a = (a', c) -> (forall e, c <> AnalysisReturn e) ->
  exists d, ds !! Z.to_nat (an_current a) = Some d /\ legal_descriptor d /\
    (Z.to_nat (an_current a) ∉ path) /\
    ((if Descriptor_is_writable d then an_writable_end a else an_readable_end a)
      + Descriptor_len h d <= U64_MAX).
Proof.
  intros V H Hne. unfold analyze_step in H. set (i := Z.to_nat (an_current a)) in *.
  destruct (ds !! i) as [d|] eqn:Hd; [|simplify_eq; by destruct (Hne DescriptorIndex)].
  assert (Hi : (i < length ds)%nat) by by eapply lookup_lt_Some.
  rewrite (vi_marks _ _ _ _ V i Hi) in H. simpl in H.
  destruct (decide (i ∈ path)); simpl in H; [simplify_eq; by destruct (Hne DescriptorLoop)|].
  unfold legal_descriptor. exists d.
  destruct (Z.eqb_spec (Z.land (d_flags d) (Z.lnot KNOWN_DESCRIPTOR_FLAGS)) 0); simpl in H;
    [|simplify_eq; by destruct (Hne DescriptorFlags)].
  destruct (Z.eqb_spec (Z.land (d_flags d) VIRTQ_DESC_F_INDIRECT) 0); simpl in H;
    [|simplify_eq; by destruct (Hne IndirectUnsupported)].
  destruct (d_buffer d) as [l|] eqn:Hb; simpl in H; [|simplify_eq; by destruct (Hne Address)].
  destruct (checked_add _ _ _) as [stop|] eqn:Hadd; [|simplify_eq; by destruct (Hne LengthOverflow)].
  apply checked_add_Some in Hadd as [_ Hadd]. eauto 10.
Qed.

(** Every iteration that goes on visits a new descriptor, so the loop ends. *)
Lemma visits_bound h ds path a : visits h ds path a -> (length path <= length ds)%nat.
Proof.
  intros V. rewrite <-(length_seq (length ds) 0). apply submseteq_length, NoDup_submseteq.
  - apply (vi_nodup _ _ _ _ V).
  - intros i Hi. pose proof (vi_legal _ _ _ _ V) as HF. rewrite Forall_forall in HF.
    destruct (HF i Hi) as (d & Hd & _). apply elem_of_seq. apply lookup_lt_Some in Hd. lia.
Qed.

Lemma total_after h ds path a d :
  visits h ds path a -> ds !! Z.to_nat (an_current a) = Some d ->
  dir_bytes DeviceReadable (path_regions h ds path) <= U64_MAX ->
  dir_bytes DeviceWritable (path_regions h ds path) <= U64_MAX ->
  ((if Descriptor_is_writable d then an_writable_end a else an_readable_end a)
    + Descriptor_len h d <= U64_MAX) ->
  dir_bytes DeviceReadable (path_regions h ds (path ++ [Z.to_nat (an_current a)])) <= U64_MAX /\
  dir_bytes DeviceWritable (path_regions h ds (path ++ [Z.to_nat (an_current a)])) <= U64_MAX.
Proof.
  intros V Hd HR HW Hs. rewrite path_regions_app, (path_regions_single _ _ _ _ Hd), !dir_bytes_app, !dir_bytes_single.
  destruct (region_of_dir h d) as (-> & -> & ->).
  rewrite (vi_readable _ _ _ _ V), (vi_writable _ _ _ _ V), (vi_regions _ _ _ _ V) in Hs.
  destruct (Descriptor_is_writable d); simpl in *; lia.
Qed.

(** The state of a run that is still going. *)
Record running (h : Heap) (ds : list Descriptor) (path : list nat) (a : Analysis) : Prop := {
  ru_visits : visits h ds path a;
  ru_current : 0 <= an_current a;
  ru_length : length (an_visited a) = length ds;
  ru_readable : dir_bytes DeviceReadable (path_regions h ds path) <= U64_MAX;
  ru_writable : dir_bytes DeviceWritable (path_regions h ds path) <= U64_MAX;
}.

Lemma analyze_step_running h ds path a a' c :
  Forall (descriptor_typed h) ds -> running h ds path a -> analyze_step h ds a = (a', c) ->
  (exists e, c = AnalysisReturn e) \/
  exists d, ds !! Z.to_nat (an_current a) = Some d /\
    c = (if Z.land (d_flags d) VIRTQ_DESC_F_NEXT =? 0 then AnalysisBreak else AnalysisNext) /\
    visits h ds (path ++ [Z.to_nat (an_current a)]) a' /\
    (Z.land (d_flags d) VIRTQ_DESC_F_NEXT <> 0 ->
      an_current a' = d_next d /\ running h ds (path ++ [Z.to_nat (an_current a)]) a').
Proof.
  intros HT [V Hc Hl HR HW] Hs.
  assert (Hdec : (exists e, c = AnalysisReturn e) \/ forall e, c <> AnalysisReturn e)
    by (destruct c; eauto; right; intros; discriminate).
  destruct Hdec as [?|Hne]; [by left|right].
  destruct (analyze_step_inv _ _ _ _ _ _ V Hs Hne) as (d & Hd & Hleg & Hnin & Hb).
  destruct (total_after _ _ _ _ _ V Hd HR HW Hb) as [HR' HW'].
  destruct (analyze_step_visit _ _ _ _ _ V Hc Hl Hd Hleg Hnin HR' HW') as (a2 & Hs2 & V2 & Hl2 & Hn2).
  rewrite Hs2 in Hs. simplify_eq. exists d. split_and!; [done..|]. intros E.
  split; [by apply Hn2|]. split; try done. rewrite (Hn2 E).
  rewrite Forall_lookup in HT. destruct (HT _ _ Hd) as (_ & ? & _). lia.
Qed.

Lemma analyze_loop_sound h ds fuel path a a' :
  Forall (descriptor_typed h) ds -> running h ds path a ->
  analyze_loop fuel h ds a = (a', Some (Ok tt)) ->
  exists q, chain_path ds (an_current a) q /\ visits h ds (path ++ q) a'.
Proof.
  intros HT. revert path a. induction fuel as [|fuel IH]; intros path a Hrun H; [done|]. simpl in H.
  destruct (analyze_step h ds a) as [a1 c] eqn:Hs.
  destruct (analyze_step_running h ds path a a1 c HT Hrun Hs) as [(e & ->)|(d & Hd & -> & V & HN)]; [done|].
  destruct (Z.eqb_spec (Z.land (d_flags d) VIRTQ_DESC_F_NEXT) 0) as [E|E].
  - simplify_eq. exists [Z.to_nat (an_current a)]. split; [by econstructor|done].
  - destruct (HN E) as [Hcur Hrun1]. destruct (IH _ _ Hrun1 H) as (q & Hq & HV).
    rewrite Hcur in Hq. exists (Z.to_nat (an_current a) :: q). split; [by econstructor|].
    by rewrite <-app_assoc in HV.
Qed.

(** The loop ends: each iteration that goes on adds a descriptor to the path. *)
Lemma analyze_loop_total h ds fuel path a :
  Forall (descriptor_typed h) ds -> running h ds path a -> (length ds < fuel + length path)%nat ->
  (analyze_loop fuel h ds a).2 <> None.
Proof.
  intros HT. revert path a. induction fuel as [|fuel IH]; intros path a Hrun Hf.
  { pose proof (visits_bound _ _ _ _ (ru_visits _ _ _ _ Hrun)). lia. }
  simpl. destruct (analyze_step h ds a) as [a1 c] eqn:Hs.
  destruct (analyze_step_running h ds path a a1 c HT Hrun Hs) as [(e & ->)|(d & Hd & -> & V & HN)]; [done|].
  destruct (Z.eqb_spec (Z.land (d_flags d) VIRTQ_DESC_F_NEXT) 0) as [E|E]; [done|].
  apply (IH (path ++ [Z.to_nat (an_current a)])); [by apply HN|]. rewrite length_app. simpl. lia.
Qed.

Lemma path_regions_typed h ds path :
  Forall (descriptor_typed h) ds -> Forall (fun r => 0 <= cr_bytes r) (path_regions h ds path).
Proof.
  intros HT. unfold path_regions, path_descriptors. rewrite Forall_fmap, Forall_forall.
  intros d Hd. apply list_elem_of_omap in Hd as (i & _ & Hd). rewrite Forall_lookup in HT.
  simpl. destruct (region_of_dir h d) as (_ & _ & ->). by apply (HT _ _ Hd).
Qed.

Lemma dir_bytes_le_app h ds d p q :
  Forall (descriptor_typed h) ds ->
  dir_bytes d (path_regions h ds p) <= dir_bytes d (path_regions h ds (p ++ q)).
Proof.
  intros HT. rewrite path_regions_app, dir_bytes_app.
  pose proof (path_regions_typed h ds q HT) as HF. unfold dir_bytes at 3.
  enough (0 <= sum_by (fun r => if region_is d r then cr_bytes r else 0) (path_regions h ds q)) by lia.
  unfold sum_by. induction HF; simpl; [lia|]. case_match; lia.
Qed.

(** A path without repetition over legal descriptors is followed to its end. *)
Lemma analyze_loop_complete h ds fuel path q a :
  Forall (descriptor_typed h) ds -> running h ds path a -> chain_path ds (an_current a) q ->
  NoDup (path ++ q) -> Forall legal_descriptor (path_descriptors ds q) -> (length q <= fuel)%nat ->
  dir_bytes DeviceReadable (path_regions h ds (path ++ q)) <= U64_MAX ->
  dir_bytes DeviceWritable (path_regions h ds (path ++ q)) <= U64_MAX ->
  exists a', analyze_loop fuel h ds a = (a', Some (Ok tt)).
Proof.
  intros HT. revert path a q. induction fuel as [|fuel IH]; intros path a q Hrun Hq Hnd Hleg Hf HR HW.
  { destruct Hq; simpl in Hf; lia. }
  assert (exists d q', q = Z.to_nat (an_current a) :: q' /\ ds !! Z.to_nat (an_current a) = Some d /\
    (Z.land (d_flags d) VIRTQ_DESC_F_NEXT = 0 /\ q' = [] \/
     Z.land (d_flags d) VIRTQ_DESC_F_NEXT <> 0 /\ chain_path ds (d_next d) q'))
    as (d & q' & -> & Hd & Hcase) by (inversion Hq; subst; eauto 10).
  set (i := Z.to_nat (an_current a)) in *.
  change (i :: q') with ([i] ++ q') in Hnd, HR, HW, Hleg. rewrite app_assoc in Hnd, HR, HW.
  assert (Hl1 : legal_descriptor d)
    by (unfold path_descriptors in Hleg; simpl in Hleg; rewrite Hd in Hleg; by inversion Hleg).
  assert (HR1 := dir_bytes_le_app h ds DeviceReadable (path ++ [i]) q' HT).
  assert (HW1 := dir_bytes_le_app h ds DeviceWritable (path ++ [i]) q' HT).
  destruct Hrun as [V Hc Hl HR0 HW0].
  destruct (analyze_step_visit _ _ _ _ _ V Hc Hl Hd Hl1) as (a' & Hs & V' & Hl' & Hn); [|fold i; lia..|].
  { apply NoDup_app in Hnd as (Hnd & _). apply NoDup_app in Hnd as (_ & Hx & _). intros Hin.
    by apply (Hx _ Hin), list_elem_of_singleton. }
  simpl. rewrite Hs. destruct Hcase as [[E ->]|[E Hq']].
  - rewrite E. simpl. eauto.
  - rewrite (proj2 (Z.eqb_neq _ _) E). apply (IH (path ++ [i]) a' q'); try done.
    + split; try done; [|lia..]. rewrite (Hn E). rewrite Forall_lookup in HT.
      destruct (HT _ _ Hd) as (_ & ? & _). lia.
    + by rewrite (Hn E).
    + unfold path_descriptors in *. simpl in Hleg. rewrite Hd in Hleg. by inversion Hleg.
    + simpl in Hf. lia.
Qed.

(** ** Exactness *)

(** The chain that a valid analysis describes. *)
Definition accepted_path (h : Heap) (ds : list Descriptor) (head : Z) (path : list nat) : Prop :=
  chain_path ds head path /\ NoDup path /\ length path = length ds /\
  Forall legal_descriptor (path_descriptors ds path) /\ chain_shape (path_regions h ds path) /\
  zlen ds <= U16_MAX /\
  dir_bytes DeviceReadable (path_regions h ds path) <= U64_MAX /\
  dir_bytes DeviceWritable (path_regions h ds path) <= U64_MAX.

(** The allocator grants every request. *)
Definition memory_granted (mem : ChainMemory) : Prop :=
  chm_slots mem = true /\ chm_spans mem = true /\ chm_regions mem = true.

Definition path_layout (h : Heap) (ds : list Descriptor) (path : list nat) : ChainLayout :=
  {| cl_descriptor_count := zlen ds;
     cl_readable_descriptors := dir_count DeviceReadable (path_regions h ds path);
     cl_writable_descriptors := dir_count DeviceWritable (path_regions h ds path);
     cl_readable_bytes := dir_bytes DeviceReadable (path_regions h ds path);
     cl_writable_bytes := dir_bytes DeviceWritable (path_regions h ds path) |}.

Lemma running_start h ds head :
  is_u16 head -> running h ds []
    {| an_spans := []; an_regions := []; an_readable_end := 0; an_writable_end := 0;
       an_current := head; an_visited := replicate (length ds) 0 |}.
Proof.
  intros. assert (forall d, dir_bytes d (path_regions h ds []) <= U64_MAX) by (intros []; by vm_compute).
  split; simpl; [split; simpl; try done|lia|by rewrite length_replicate|done..].
  - constructor.
  - intros i Hi. by rewrite lookup_replicate_2.
Qed.

Lemma length_path_regions h ds path :
  Forall (fun i => exists d, ds !! i = Some d /\ legal_descriptor d) path ->
  length (path_regions h ds path) = length path /\ Forall legal_descriptor (path_descriptors ds path).
Proof.
  unfold path_regions, path_descriptors. rewrite length_fmap.
  induction 1 as [|i path (d & Hd & Hl) _ [IH1 IH2]]; simpl; [done|]. rewrite Hd. simpl. auto.
Qed.

Lemma length_path_spans h ds r w path :
  Forall (fun i => exists d, ds !! i = Some d /\ legal_descriptor d) path ->
  length (path_spans h ds r w path) = length path.
Proof.
  intros H. revert r w. induction H as [|i path (d & Hd & _) _ IH]; intros r w; simpl; [done|].
  rewrite Hd. destruct (Descriptor_is_writable d); simpl; by rewrite IH.
Qed.

Lemma path_lookups ds cur path :
  chain_path ds cur path -> Forall legal_descriptor (path_descriptors ds path) ->
  Forall (fun i => exists d, ds !! i = Some d /\ legal_descriptor d) path.
Proof.
  unfold path_descriptors. induction 1 as [cur d Hd HN|cur d path Hd HN _ IH]; simpl; rewrite Hd; inversion 1; subst;
    constructor; eauto.
Qed.

Lemma chain_path_det ds cur path path' : chain_path ds cur path -> chain_path ds cur path' -> path = path'.
Proof.
  intros Hp. revert path'. induction Hp as [cur d Hd HN|cur d path Hd HN Hp IH]; intros path' Hp';
    inversion Hp'; simplify_eq; f_equal; auto.
Qed.

Section exact.
  Context (mem : ChainMemory) (h : Heap) (ds : list Descriptor) (head : Z).
  Context (Hmem : memory_granted mem) (Htyped : Forall (descriptor_typed h) ds) (Hhead : is_u16 head).

Let start : Analysis :=
  {| an_spans := []; an_regions := []; an_readable_end := 0; an_writable_end := 0;
     an_current := head; an_visited := replicate (length ds) 0 |}.

Lemma analyze_chain_sound layout spans regions :
  (analyze_chain mem h ds head (replicate (length ds) 0)).2 = Ok (AnalysisValid layout spans regions) ->
  exists path, accepted_path h ds head path /\ spans = path_spans h ds 0 0 path /\
    regions = path_regions h ds path /\ layout = path_layout h ds path.
Proof.
  destruct Hmem as (_ & M2 & M3). unfold analyze_chain. rewrite M2, M3. cbn [negb]. fold start.
  destruct (analyze_loop _ h ds start) as [a r] eqn:Hl.
  pose proof (running_start h ds head Hhead) as Hrun.
  destruct r as [[[]|e]|]; [|done..].
  destruct (analyze_loop_sound h ds _ [] start a Htyped Hrun Hl) as (path & Hpath & V). simpl in Hpath, V.
  destruct (length_path_regions h ds path (vi_legal _ _ _ _ V)) as [HL HF].
  pose proof (length_path_spans h ds 0 0 path (vi_legal _ _ _ _ V)) as HS.
  rewrite <-(vi_spans _ _ _ _ V) in HS.
  destruct (Z.eqb_spec (zlen (an_spans a)) (zlen ds)) as [Hn|]; [|done]. cbn [negb].
  destruct (validate_chain_layout (an_regions a) U16_MAX) as [ly|] eqn:Hv; [|done].
  cbn [snd]. intros [= <- <- <-].
  rewrite (vi_regions _ _ _ _ V) in Hv.
  apply chain_layout_exact in Hv as (Hsh & Hm & HR & HW & ->); [|by apply path_regions_typed].
  assert (Hz : zlen (path_regions h ds path) = zlen ds) by (unfold zlen in *; lia).
  exists path. unfold accepted_path, path_layout. rewrite <-Hz, (vi_spans _ _ _ _ V), (vi_regions _ _ _ _ V).
  split_and!; try done; [apply (vi_nodup _ _ _ _ V)|unfold zlen in *; lia].
Qed.

Lemma analyze_chain_complete path :
  accepted_path h ds head path ->
  (analyze_chain mem h ds head (replicate (length ds) 0)).2 =
    Ok (AnalysisValid (path_layout h ds path) (path_spans h ds 0 0 path) (path_regions h ds path)).
Proof.
  intros (Hp & Hnd & Hlen & Hleg & Hsh & Hm & HR & HW). destruct Hmem as (_ & M2 & M3).
  pose proof (path_lookups ds head path Hp Hleg) as HF.
  destruct (length_path_regions h ds path HF) as [HL _].
  unfold analyze_chain. rewrite M2, M3. cbn [negb]. fold start.
  pose proof (running_start h ds head Hhead) as Hrun.
  destruct (analyze_loop_complete h ds (length ds + 1) [] path start) as [a Hl]; try done; [lia|].
  rewrite Hl. destruct (analyze_loop_sound h ds _ [] start a Htyped Hrun Hl) as (path' & Hp' & V).
  simpl in V, Hp'. rewrite (chain_path_det ds head path' path Hp' Hp) in V.
  rewrite (vi_spans _ _ _ _ V), (vi_regions _ _ _ _ V).
  assert (Hz : zlen (path_spans h ds 0 0 path) = zlen ds) by (unfold zlen; rewrite length_path_spans by done; lia).
  rewrite Hz, Z.eqb_refl. cbn [negb].
  assert (Hz' : zlen (path_regions h ds path) = zlen ds) by (unfold zlen; lia).
  rewrite (proj2 (chain_layout_exact (path_regions h ds path) U16_MAX (path_layout h ds path)
    (path_regions_typed h ds path Htyped))); [done|].
  unfold path_layout. rewrite <-Hz'. split_and!; try done. lia.
Qed.

Lemma analyze_chain_total :
  (exists analysis, (analyze_chain mem h ds head (replicate (length ds) 0)).2 = Ok analysis) /\
  (analyze_loop (length ds + 1) h ds start).2 <> None.
Proof.
  destruct Hmem as (_ & M2 & M3). split.
  - unfold analyze_chain. rewrite M2, M3. cbn [negb]. repeat case_match; simpl; eauto.
  - apply (analyze_loop_total h ds _ []); [done|by apply running_start|simpl; lia].
Qed.

End exact.

(** C39: chain analysis is exact.  The analysis loop ends, and a descriptor
    table is accepted if and only if following the links from the head visits
    every descriptor exactly once, all of them mapped, direct and with known
    flags, readable ones before writable ones with at least one of each and
    none empty, and neither byte total overflows; the recorded layout, spans
    and regions are then those of that path. *)
Theorem chain_analysis_exact mem h ds head :
  memory_granted mem -> Forall (descriptor_typed h) ds -> is_u16 head ->
  let r := (analyze_chain mem h ds head (replicate (length ds) 0)).2 in
  (exists analysis, r = Ok analysis) /\
  (analyze_loop (length ds + 1) h ds
    {| an_spans := []; an_regions := []; an_readable_end := 0; an_writable_end := 0;
       an_current := head; an_visited := replicate (length ds) 0 |}).2 <> None /\
  forall layout spans regions,
    r = Ok (AnalysisValid layout spans regions) <->
    exists path, accepted_path h ds head path /\ spans = path_spans h ds 0 0 path /\
      regions = path_regions h ds path /\ layout = path_layout h ds path.
Proof.
  intros Hm HT Hh r. destruct (analyze_chain_total mem h ds head Hm HT Hh) as [H1 H2].
  split_and!; [done..|]. intros. split; [by apply analyze_chain_sound|].
  intros (path & Hp & -> & -> & ->). by apply analyze_chain_complete.
Qed.

(** ** Chains that own their buffers *)

Definition buffer_location (d : Descriptor) : option nat :=
  match d_buffer d with Mapped l => Some l | Unmapped _ => None end.

(** What a built chain guarantees of its data in a heap. *)
Definition data_ok (h : Heap) (data : ChainData) : Prop :=
  match cd_analysis data with
  | AnalysisInvalid _ => True
  | AnalysisValid layout spans regions =>
      NoDup (omap (span_location (cd_descriptors data)) spans) /\
      (forall w, span_chain h (cd_descriptors data) 0 (ChainAnalysis_spans (cd_analysis data) w)) /\
      cl_readable_bytes layout = zlen (chain_bytes h data false) /\
      cl_writable_bytes layout = zlen (chain_bytes h data true) /\
      cl_readable_bytes layout <= U64_MAX /\ cl_writable_bytes layout <= U64_MAX
  end.

Lemma NoDup_omap_inj {A B} (f : A -> option B) (l : list A) i j a b c :
  NoDup (omap f l) -> l !! i = Some a -> l !! j = Some b -> f a = Some c -> f b = Some c -> i = j.
Proof.
  revert i j. induction l as [|x l IH]; intros i j Hnd Hi Hj Ha Hb; [done|].
  assert (Hin : forall k y, l !! k = Some y -> f y = Some c -> c ∈ omap f l)
    by (intros k y Hk Hy; apply list_elem_of_omap; exists y; split; [by eapply list_elem_of_lookup_2|done]).
  destruct i as [|i], j as [|j]; simpl in *; simplify_eq; [done| | |].
  - rewrite Ha in Hnd. apply NoDup_cons in Hnd as [Hn _]. by destruct Hn; eapply Hin.
  - rewrite Hb in Hnd. apply NoDup_cons in Hnd as [Hn _]. by destruct Hn; eapply Hin.
  - f_equal. apply IH; try done. destruct (f x); [by apply NoDup_cons in Hnd as [_ ?]|done].
Qed.

Lemma path_spans_locations h ds r w path :
  omap (span_location ds) (path_spans h ds r w path) = omap (fun i => ds !! i ≫= buffer_location) path.
Proof.
  revert r w. induction path as [|i path IH]; intros r w; simpl; [done|].
  destruct (ds !! i) as [d|] eqn:Hd; simpl; [|by rewrite IH].
  assert (Hs : forall e, span_location ds {| sp_descriptor := Z.of_nat i; sp_end := e |} = buffer_location d)
    by (intros; unfold span_location; simpl; by rewrite Nat2Z.id, Hd).
  destruct (Descriptor_is_writable d); simpl; rewrite Hs, IH; done.
Qed.

Lemma path_locations_nodup ds path :
  NoDup path -> NoDup (omap buffer_location ds) -> NoDup (omap (fun i => ds !! i ≫= buffer_location) path).
Proof.
  intros Hp Hd. induction Hp as [|i path Hi _ IH]; simpl; [constructor|].
  destruct (ds !! i) as [d|] eqn:Hdi; simpl; [|done]. destruct (buffer_location d) as [l|] eqn:Hl; [|done].
  apply NoDup_cons. split; [|done]. intros Hin. apply list_elem_of_omap in Hin as (j & Hj & Hb).
  apply bind_Some in Hb as (d' & Hd' & Hl'). by rewrite (NoDup_omap_inj _ _ _ _ _ _ _ Hd Hdi Hd' Hl Hl') in Hi.
Qed.

(** The spans of a stretch of one direction cover its buffers end to end. *)
Lemma path_spans_chain h ds (b : bool) r w path :
  Forall (fun i => exists d, ds !! i = Some d /\ legal_descriptor d) path ->
  Forall (descriptor_typed h) ds ->
  Forall (fun x => cr_direction x = if b then DeviceWritable else DeviceReadable) (path_regions h ds path) ->
  Forall (fun x => cr_bytes x <> 0) (path_regions h ds path) ->
  span_chain h ds (if b then w else r) (path_spans h ds r w path) /\
  zlen (span_bytes h ds (path_spans h ds r w path)) =
    dir_bytes (if b then DeviceWritable else DeviceReadable) (path_regions h ds path).
Proof.
  intros HF HT. revert r w. induction HF as [|i path (d & Hd & (_ & _ & l & Hb)) _ IH]; intros r w HD HZ.
  { by destruct b. }
  change (i :: path) with ([i] ++ path) in HD, HZ |- *. rewrite path_regions_app, (path_regions_single _ _ _ _ Hd) in *.
  apply Forall_app in HD as [HD1 HD], HZ as [HZ1 HZ]. rewrite Forall_singleton in HD1, HZ1.
  destruct (region_of_dir h d) as (D1 & D2 & D3). rewrite dir_bytes_app, dir_bytes_single, D3.
  assert (Hw : Descriptor_is_writable d = b).
  { unfold region_of in HD1. destruct (Descriptor_is_writable d), b; by simplify_eq/=. }
  rewrite D3 in HZ1. rewrite Forall_lookup in HT. destruct (HT _ _ Hd) as (_ & _ & Hpos).
  assert (Hlen : Descriptor_len h d = zlen (heap_bytes h l)) by (unfold Descriptor_len; by rewrite Hb).
  assert (Hloc : forall e, span_location ds {| sp_descriptor := Z.of_nat i; sp_end := e |} = Some l)
    by (intros; unfold span_location; simpl; by rewrite Nat2Z.id, Hd, Hb).
  simpl. rewrite Hd, Hw. destruct b; simpl; rewrite (span_bytes_cons _ _ _ _ _ (Hloc _)), zlen_app, ?D1, ?D2, Hw; simpl.
  - destruct (IH r (w + Descriptor_len h d) HD HZ) as [IH1 IH2]. split; [|lia].
    exists l. rewrite Hloc. split_and!; [done|lia|lia|done].
  - destruct (IH (r + Descriptor_len h d) w HD HZ) as [IH1 IH2]. split; [|lia].
    exists l. rewrite Hloc. split_and!; [done|lia|lia|done].
Qed.

(** An accepted path is a readable stretch followed by a writable one. *)
Lemma accepted_split h ds head path :
  accepted_path h ds head path ->
  exists p q, path = p ++ q /\
    Forall (fun x => cr_direction x = DeviceReadable) (path_regions h ds p) /\
    Forall (fun x => cr_direction x = DeviceWritable) (path_regions h ds q) /\
    Forall (fun x => cr_bytes x <> 0) (path_regions h ds p) /\
    Forall (fun x => cr_bytes x <> 0) (path_regions h ds q) /\
    dir_count DeviceReadable (path_regions h ds path) = zlen p /\
    dir_bytes DeviceReadable (path_regions h ds path) = dir_bytes DeviceReadable (path_regions h ds p) /\
    dir_bytes DeviceWritable (path_regions h ds path) = dir_bytes DeviceWritable (path_regions h ds q) /\
    dir_bytes DeviceWritable (path_regions h ds p) = 0.
Proof.
  intros (Hp & _ & _ & Hleg & (rd & wr & Hsh & _ & _ & HR & HW & HZ) & _).
  pose proof (path_lookups ds head path Hp Hleg) as HF.
  set (k := length rd). assert (Hk : (k <= length path)%nat).
  { rewrite <-(proj1 (length_path_regions h ds path HF)), Hsh, length_app. unfold k. lia. }
  exists (take k path), (drop k path). rewrite take_drop. split; [done|].
  pose proof (take_drop k path) as Hsplit.
  assert (HFp : Forall (fun i => exists d, ds !! i = Some d /\ legal_descriptor d) (take k path)) by by apply Forall_take.
  pose proof (proj1 (length_path_regions h ds _ HFp)) as HLp. rewrite length_take_le in HLp by done.
  pose proof Hsh as Hpr. rewrite <-Hsplit, path_regions_app in Hsh. rewrite Hpr in HZ |- *.
  apply app_inj_1 in Hsh as [Er Ew]; [|done].
  assert (Hnone : forall d d' rs, d <> d' -> Forall (fun r => cr_direction r = d') rs -> dir_bytes d rs = 0).
  { intros d d' rs Hd HFd. apply sum_by_zero. intros r Hr. rewrite Forall_forall in HFd.
    unfold region_is. rewrite (HFd r Hr). by destruct d, d'. }
  apply Forall_app in HZ as [HZ1 HZ2].
  rewrite dir_count_app, !dir_bytes_app, Er, Ew.
  rewrite (dir_count_all _ _ HR), (dir_count_none DeviceReadable DeviceWritable wr) by done.
  rewrite (Hnone DeviceReadable DeviceWritable wr), (Hnone DeviceWritable DeviceReadable rd) by done.
  split_and!; try done; try lia. unfold zlen. rewrite length_take_le by done. unfold k. lia.
Qed.

Lemma accepted_data_ok h ds head path :
  accepted_path h ds head path -> Forall (descriptor_typed h) ds -> NoDup (omap buffer_location ds) ->
  data_ok h {| cd_descriptors := ds;
    cd_analysis := AnalysisValid (path_layout h ds path) (path_spans h ds 0 0 path) (path_regions h ds path) |}.
Proof.
  intros Hacc HT Hown. destruct (accepted_split _ _ _ _ Hacc) as (p & q & -> & HR & HW & Z1 & Z2 & C1 & B1 & B2 & B0).
  destruct Hacc as (Hp & Hnd & _ & Hleg & _ & _ & U1 & U2).
  pose proof (path_lookups ds head _ Hp Hleg) as HF. apply Forall_app in HF as [HFp HFq].
  destruct (path_spans_chain h ds false 0 0 p HFp HT HR Z1) as [Sp Lp].
  set (w := dir_bytes DeviceWritable (path_regions h ds p)). set (r := dir_bytes DeviceReadable (path_regions h ds p)).
  destruct (path_spans_chain h ds true (0 + r) (0 + w) q HFq HT HW Z2) as [Sq Lq].
  pose proof (length_path_spans h ds 0 0 p HFp) as Hlen.
  unfold data_ok, chain_bytes. cbn [cd_analysis cd_descriptors ChainAnalysis_spans path_layout
    cl_readable_descriptors cl_readable_bytes cl_writable_bytes].
  assert (Hn : Z.to_nat (zlen p) = length (path_spans h ds 0 0 p)) by (unfold zlen; lia).
  rewrite path_spans_locations, C1, Hn, path_spans_app, B1, B2. fold r w. rewrite take_app_length, drop_app_length.
  rewrite B1 in U1. rewrite B2 in U2.
  split_and!; [by apply path_locations_nodup| |by rewrite Lp|by rewrite Lq|done..].
  intros []; [|done]. unfold w in *. by rewrite B0 in *.
Qed.

(** The data of every chain that the driver builds. *)
Lemma DriverChain_raw_ok mem h ds head chain :
  Forall (descriptor_typed h) ds -> NoDup (omap buffer_location ds) -> is_u16 head ->
  DriverChain_raw mem h ds head = Ok chain -> data_ok h (dc_data chain).
Proof.
  intros HT Hown Hh. unfold DriverChain_raw, zeroed_u16_box. do 2 (case_match; [done|]).
  destruct (chm_slots mem) eqn:M1; [|done].
  destruct (analyze_chain _ _ _ _ _) as [slots r] eqn:Ha. destruct r as [analysis|]; [|done].
  intros [= <-]. simpl. destruct analysis as [layout spans regions|]; [|done].
  assert (memory_granted mem) as Hm.
  { unfold analyze_chain in Ha. split; [done|]. destruct (chm_spans mem), (chm_regions mem); done. }
  destruct (analyze_chain_sound mem h ds head Hm HT Hh layout spans regions) as (path & Hacc & -> & -> & ->).
  { by rewrite Ha. }
  by apply (accepted_data_ok h ds head).
Qed.

Lemma data_ok_lengths h h' data : same_lengths h h' -> data_ok h data -> data_ok h' data.
Proof.
  intros HS. unfold data_ok, chain_bytes. destruct (cd_analysis data); [|done].
  rewrite <-!(span_bytes_lengths _ _ _ _ HS). intros (? & Hs & ? & ? & ? & ?).
  split_and!; auto. intros w. by eapply span_chain_lengths, Hs.
Qed.

(** ** The ports *)

Lemma data_ok_dir h data (w : bool) :
  data_ok h data ->
  NoDup (omap (span_location (cd_descriptors data)) (ChainAnalysis_spans (cd_analysis data) w)) /\
  span_chain h (cd_descriptors data) 0 (ChainAnalysis_spans (cd_analysis data) w) /\
  (if w then writable_len data else readable_len data) = zlen (chain_bytes h data w) /\
  zlen (chain_bytes h data w) <= U64_MAX.
Proof.
  unfold data_ok, writable_len, readable_len, chain_bytes. destruct (cd_analysis data) as [layout spans regions|] eqn:E.
  - intros (Hnd & Hs & H1 & H2 & U1 & U2). split; [|destruct w; split_and!; auto; lia].
    rewrite <-(take_drop (Z.to_nat (cl_readable_descriptors layout)) spans), omap_app in Hnd.
    apply NoDup_app in Hnd as (? & _ & ?). by destruct w.
  - intros _. simpl. split; [constructor|]. destruct w; split_and!; try done; by vm_compute.
Qed.

(** The two directions of a chain use different buffers. *)
Lemma data_ok_disjoint h data l :
  data_ok h data ->
  l ∈ omap (span_location (cd_descriptors data)) (ChainAnalysis_spans (cd_analysis data) true) ->
  l ∉ omap (span_location (cd_descriptors data)) (ChainAnalysis_spans (cd_analysis data) false).
Proof.
  unfold data_ok. destruct (cd_analysis data) as [layout spans regions|]; [|set_solver]. simpl.
  intros (Hnd & _) Hl. rewrite <-(take_drop (Z.to_nat (cl_readable_descriptors layout)) spans), omap_app in Hnd.
  apply NoDup_app in Hnd as (_ & Hd & _). intros Hl'. by apply (Hd l).
Qed.

Lemma copy_from_spec h data w offset n :
  data_ok h data -> 0 <= offset -> 0 <= n -> offset + n <= zlen (chain_bytes h data w) ->
  copy_from_descriptors h data w offset n = Ok (slice offset n (chain_bytes h data w)).
Proof.
  intros Hok Ho Hn Hle. unfold copy_from_descriptors. destruct (Z.eqb_spec n 0) as [->|]; [done|].
  destruct (data_ok_dir h data w Hok) as (_ & Hc & _ & HU).
  destruct (first_touched_split _ _ _ _ offset Hc) as (pre & s & post & Hs & Hf & Hb);
    [lia|unfold chain_bytes in Hle; lia|].
  unfold chain_bytes in *. rewrite Hf, Hs in *. rewrite drop_app_length.
  change (zlen (@nil Z)) with 0.
  apply copy_from_loop_spec; try done; change (zlen (@nil Z)) with 0; try lia.
  intros s' [= <-]. lia.
Qed.

Lemma copy_to_spec h data w offset source :
  data_ok h data -> 0 <= offset -> offset + zlen source <= zlen (chain_bytes h data w) ->
  exists h', copy_to_descriptors data w offset source h = (h', Ok tt) /\
    heap_frame (omap (span_location (cd_descriptors data)) (ChainAnalysis_spans (cd_analysis data) w)) h h' /\
    chain_bytes h' data w = splice offset source (chain_bytes h data w).
Proof.
  intros Hok Ho Hle. unfold copy_to_descriptors. destruct (Z.eqb_spec (zlen source) 0) as [Hz|].
  { assert (source = []) as -> by (destruct source; [done|unfold zlen in Hz; simpl in Hz; lia]).
    exists h. split_and!; [done|split; [reflexivity|done]|by rewrite splice_nil]. }
  destruct (data_ok_dir h data w Hok) as (Hnd & Hc & _ & HU).
  pose proof (zlen_nonneg source).
  destruct (first_touched_split _ _ _ _ offset Hc) as (pre & s & post & Hs & Hf & Hb);
    [lia|unfold chain_bytes in Hle; lia|].
  unfold chain_bytes in *. rewrite Hf, Hs in *. rewrite drop_app_length.
  apply copy_to_loop_spec; try done; try lia.
  - change (slice 0 0 source) with (@nil Z). by rewrite splice_nil.
  - intros s' [= <-]. lia.
Qed.

Lemma checked_logical_range_spec offset n len :
  0 <= offset -> 0 <= n -> 0 <= len <= U64_MAX ->
  checked_logical_range offset n len = if offset + n <=? len then Ok tt else Err AccessOutOfBounds.
Proof.
  intros. unfold checked_logical_range, try_from, checked_add. destruct (Z.leb_spec n U64_MAX); simpl.
  - destruct (Z.leb_spec (offset + n) U64_MAX); simpl.
    + destruct (Z.ltb_spec len (offset + n)), (Z.leb_spec (offset + n) len); try done; lia.
    + by rewrite (proj2 (Z.leb_gt _ _)) by lia.
  - destruct (Z.leb_spec (offset + n) len); [|done]. exfalso. lia.
Qed.

Lemma slice_readable_spec bytes offset n :
  0 <= offset -> 0 <= n -> zlen bytes <= U64_MAX ->
  rb_read_at (slice_readable bytes) offset n =
    if offset + n <=? zlen bytes then Ok (slice offset n bytes) else Err AccessOutOfBounds.
Proof.
  intros. simpl. unfold try_from, checked_add. pose proof (zlen_nonneg bytes).
  destruct (Z.leb_spec (offset + n) (zlen bytes)); [zcmp; done|].
  destruct (Z.leb_spec offset U64_MAX); simpl; [|done]. destruct (Z.leb_spec (offset + n) U64_MAX); simpl; [|done].
  by rewrite (proj2 (Z.leb_gt _ _)).
Qed.

Lemma slice_write_spec bytes offset source :
  0 <= offset -> zlen bytes <= U64_MAX ->
  slice_write_at offset source bytes =
    if offset + zlen source <=? zlen bytes then (splice offset source bytes, Ok tt)
    else (bytes, Err AccessOutOfBounds).
Proof.
  intros. unfold slice_write_at, try_from, checked_add. pose proof (zlen_nonneg bytes). pose proof (zlen_nonneg source).
  destruct (Z.leb_spec (offset + zlen source) (zlen bytes)); [zcmp; done|].
  destruct (Z.leb_spec offset U64_MAX); simpl; [|done].
  destruct (Z.leb_spec (offset + zlen source) U64_MAX); simpl; [|done]. by rewrite (proj2 (Z.leb_gt _ _)).
Qed.

(** The request port of a chain is the concatenation of its readable
    buffers.  In the epoch of the chain it answers every read as the slice of
    that byte string does, bounds included; in any other epoch it answers
    [Reset]. *)
Theorem split_source_refines current h source offset n :
  data_ok h (sso_data source) -> 0 <= offset -> 0 <= n ->
  let flat := slice_readable (chain_bytes h (sso_data source) false) in
  let port := SplitSource_port current h source in
  rb_len port = rb_len flat /\
  rb_read_at port offset n =
    if current =? sso_epoch source then rb_read_at flat offset n else Err AccessReset.
Proof.
  intros Hok Ho Hn flat port. destruct (data_ok_dir _ _ false Hok) as (_ & _ & HL & HU).
  split; [exact HL|]. unfold flat. rewrite slice_readable_spec by done.
  unfold port. cbn [SplitSource_port rb_read_at]. unfold SplitSource_read_at, SplitSource_check_epoch.
  destruct (current =? sso_epoch source); [|done].
  rewrite HL, checked_logical_range_spec by (pose proof (zlen_nonneg (chain_bytes h (sso_data source) false)); lia).
  destruct (Z.leb_spec (offset + n) (zlen (chain_bytes h (sso_data source) false))); [|done].
  by apply copy_from_spec.
Qed.

Lemma chain_bytes_frame h h' data w w' :
  w <> w' -> data_ok h data ->
  heap_frame (omap (span_location (cd_descriptors data)) (ChainAnalysis_spans (cd_analysis data) w)) h h' ->
  chain_bytes h' data w' = chain_bytes h data w'.
Proof.
  intros Hw Hok [_ HF]. unfold chain_bytes, span_bytes. f_equal. apply list_fmap_ext. intros i l Hl.
  apply list_elem_of_lookup_2 in Hl. unfold heap_bytes. rewrite HF; [done|].
  intros Hl'. destruct w, w'; [done| | |done]; by eapply data_ok_disjoint.
Qed.

(** A write to one direction through the descriptors, on every branch. *)
Lemma logical_write_spec h data (w : bool) offset source :
  data_ok h data -> 0 <= offset ->
  let len := if w then writable_len data else readable_len data in
  let '(h', r) := match checked_logical_range offset (zlen source) len with
                  | Err e => (h, Err e)
                  | Ok _ => copy_to_descriptors data w offset source h
                  end in
  (chain_bytes h' data w, r) = slice_write_at offset source (chain_bytes h data w) /\
  chain_bytes h' data (negb w) = chain_bytes h data (negb w) /\ data_ok h' data /\
  heap_frame (omap (span_location (cd_descriptors data)) (ChainAnalysis_spans (cd_analysis data) w)) h h'.
Proof.
  intros Hok Ho. destruct (data_ok_dir _ _ w Hok) as (_ & _ & HL & HU). cbv zeta. rewrite HL.
  pose proof (zlen_nonneg source). pose proof (zlen_nonneg (chain_bytes h data w)).
  rewrite checked_logical_range_spec, slice_write_spec by lia.
  destruct (Z.leb_spec (offset + zlen source) (zlen (chain_bytes h data w))).
  - destruct (copy_to_spec h data w offset source) as (h' & -> & HF & ->); try done.
    split_and!; [done| |by eapply data_ok_lengths, Hok; apply HF|done].
    apply (chain_bytes_frame h h' data w (negb w)); [by destruct w|done|done].
  - split_and!; try done.
Qed.

(** The response port of a chain is the concatenation of its writable
    buffers.  In the epoch of the chain a write does to that byte string what
    the slice does, bounds included; in any other epoch it does nothing and
    answers [Reset].  Nothing else in memory changes: not the request bytes,
    not another buffer, not the length of a buffer. *)
Theorem split_sink_refines current h sink offset source :
  data_ok h (ssi_data sink) -> 0 <= offset ->
  let '(h', r) := SplitSink_write_at current sink offset source h in
  (chain_bytes h' (ssi_data sink) true, r) =
    (if current =? ssi_epoch sink then slice_write_at offset source (chain_bytes h (ssi_data sink) true)
     else (chain_bytes h (ssi_data sink) true, Err AccessReset)) /\
  (current <> ssi_epoch sink -> h' = h) /\
  chain_bytes h' (ssi_data sink) false = chain_bytes h (ssi_data sink) false /\
  data_ok h' (ssi_data sink) /\
  heap_frame (omap (span_location (cd_descriptors (ssi_data sink)))
                (ChainAnalysis_spans (cd_analysis (ssi_data sink)) true)) h h'.
Proof.
  intros Hok Ho. unfold SplitSink_write_at, SplitSink_check_epoch.
  destruct (Z.eqb_spec current (ssi_epoch sink)).
  - pose proof (logical_write_spec h (ssi_data sink) true offset source Hok Ho) as HW. cbv zeta in HW.
    destruct (match checked_logical_range _ _ _ with Ok _ => _ | Err _ => _ end) as [h' r].
    destruct HW as (H1 & H2 & H3 & H4). by split_and!.
  - split_and!; try done.
Qed.

(** One exchange over a chain.  What the driver writes into the request
    before publishing is what the device reads through the request port, and
    what the device writes into the response is what the driver reads back;
    the response write leaves the request bytes in place. *)
Lemma chain_exchange h chain id max_descriptors o request o' response :
  data_ok h (dc_data chain) ->
  0 <= o -> o + zlen request <= readable_len (dc_data chain) ->
  0 <= o' -> o' + zlen response <= writable_len (dc_data chain) ->
  let device := SplitDeviceChain_new id (dc_data chain) max_descriptors in
  exists h1 h2,
    DriverChain_write_device_readable chain o request h = (h1, Ok tt) /\
    SplitSource_read_at (ci_epoch id) h1 (sdc_source device) o (zlen request) = Ok request /\
    SplitSink_write_at (ci_epoch id) (sdc_sink device) o' response h1 = (h2, Ok tt) /\
    DriverChain_read_device_writable h2 chain o' (zlen response) = Ok response /\
    SplitSource_read_at (ci_epoch id) h2 (sdc_source device) o (zlen request) = Ok request.
Proof.
  intros Hok Ho Hr Ho' Hr' device. set (data := dc_data chain) in *.
  pose proof (zlen_nonneg request). pose proof (zlen_nonneg response).
  destruct (data_ok_dir _ _ false Hok) as (_ & _ & HLr & HUr).
  destruct (data_ok_dir _ _ true Hok) as (_ & _ & HLw & HUw).
  assert (Hread : forall h', data_ok h' data ->
    SplitSource_read_at (ci_epoch id) h' (sdc_source device) o (zlen request)
      = Ok (slice o (zlen request) (chain_bytes h' data false))).
  { intros h' Hok'. destruct (data_ok_dir _ _ false Hok') as (_ & _ & HL & HU).
    unfold SplitSource_read_at, SplitSource_check_epoch. simpl. rewrite Z.eqb_refl. fold data.
    rewrite checked_logical_range_spec by lia. zcmp. apply copy_from_spec; try done. lia. }
  pose proof (logical_write_spec h data false o request Hok Ho) as H1. cbv zeta in H1.
  unfold DriverChain_write_device_readable. fold data.
  destruct (match checked_logical_range o _ _ with Ok _ => _ | Err _ => _ end) as [h1 r1] eqn:E1.
  rewrite slice_write_spec, (proj2 (Z.leb_le _ _)) in H1 by lia.
  destruct H1 as ([= B1 ->] & _ & Hok1 & _).
  pose proof (logical_write_spec h1 data true o' response Hok1 Ho') as H2. cbv zeta in H2.
  destruct (data_ok_dir _ _ true Hok1) as (_ & _ & HLw1 & HUw1).
  destruct (match checked_logical_range o' _ _ with Ok _ => _ | Err _ => _ end) as [h2 r2] eqn:E2.
  rewrite slice_write_spec, (proj2 (Z.leb_le _ _)) in H2 by lia.
  destruct H2 as ([= B2 ->] & B3 & Hok2 & _). simpl in B3.
  exists h1, h2. split_and!; [done| | | |].
  - rewrite Hread, B1, slice_splice_eq by (done || lia). done.
  - unfold SplitSink_write_at, SplitSink_check_epoch. simpl. rewrite Z.eqb_refl. fold data. by rewrite E2.
  - unfold DriverChain_read_device_writable. fold data. rewrite checked_logical_range_spec by lia. zcmp.
    destruct (data_ok_dir _ _ true Hok2) as (_ & _ & HLw2 & _).
    rewrite copy_from_spec, B2, slice_splice_eq by (done || lia). done.
  - rewrite Hread, B3, B1, slice_splice_eq by (done || lia). done.
Qed.

(** ** The direct builder *)

Lemma land_write_cases f : Z.land f VIRTQ_DESC_F_WRITE = 0 \/ Z.land f VIRTQ_DESC_F_WRITE = VIRTQ_DESC_F_WRITE.
Proof.
  assert (H : Z.land f 2 = if Z.testbit f 1 then 2 else 0).
  { apply Z.bits_inj'. intros n Hn. rewrite Z.land_spec. change 2 with (2 ^ 1) at 1.
    rewrite Z.pow2_bits_eqb by lia. destruct (Z.eqb_spec 1 n) as [<-|].
    - destruct (Z.testbit f 1); [done|by rewrite Z.bits_0].
    - rewrite andb_false_r. destruct (Z.testbit f 1); [|by rewrite Z.bits_0].
      change 2 with (2 ^ 1). rewrite Z.pow2_bits_false by lia. done. }
  unfold VIRTQ_DESC_F_WRITE. rewrite H. destruct (Z.testbit f 1); auto.
Qed.

(** What [direct] makes of one descriptor. *)
Lemma direct_link_facts h n i d :
  let d' := direct_link n i d in
  d_buffer d' = d_buffer d /\ Descriptor_is_writable d' = Descriptor_is_writable d /\
  region_of h d' = region_of h d /\ is_u16 (d_flags d') /\ is_u16 (d_next d') /\
  Z.land (d_flags d') (Z.lnot KNOWN_DESCRIPTOR_FLAGS) = 0 /\
  Z.land (d_flags d') VIRTQ_DESC_F_INDIRECT = 0 /\
  (Z.land (d_flags d') VIRTQ_DESC_F_NEXT = 0 <-> n <= Z.of_nat i + 1) /\
  (Z.of_nat i + 1 < n -> n <= U16_MAX -> d_next d' = Z.of_nat i + 1).
Proof.
  pose proof (Z.mod_pos_bound (Z.of_nat i + 1) 65536).
  unfold direct_link, region_of, Descriptor_len, Descriptor_is_writable.
  destruct (Z.ltb_spec (Z.of_nat i + 1) n), (land_write_cases (d_flags d)) as [E|E]; rewrite E; simpl;
    split_and!; try done; try lia; intros; try (split; (done || lia)); rewrite Z.mod_small; lia.
Qed.

Lemma omap_lookup_seq {A} (pre l : list A) : omap (fun i => (pre ++ l) !! i) (seq (length pre) (length l)) = l.
Proof.
  revert pre. induction l as [|x l IH]; intros pre; simpl; [done|].
  rewrite lookup_app_r, Nat.sub_diag by lia. simpl. f_equal.
  specialize (IH (pre ++ [x])). rewrite <-app_assoc, length_app, Nat.add_1_r in IH. exact IH.
Qed.

Section direct.
  Context (mem : ChainMemory) (h : Heap) (ds : list Descriptor).
  Context (Hmem : memory_granted mem) (Htyped : Forall (fun d => 0 <= Descriptor_len h d) ds).
  Context (Hcount : 0 < zlen ds <= MAX_SPLIT_QUEUE_SIZE).

Let linked : list Descriptor := imap (direct_link (zlen ds)) ds.

Lemma linked_lookup i : linked !! i = direct_link (zlen ds) i <$> ds !! i.
Proof. unfold linked. apply list_lookup_imap. Qed.

Lemma linked_typed : Forall (descriptor_typed h) linked.
Proof.
  rewrite Forall_lookup in *. intros i d'. rewrite linked_lookup, fmap_Some. intros (d & Hd & ->).
  destruct (direct_link_facts h (zlen ds) i d) as (Hb & _ & _ & ? & ? & _). split_and!; try lia.
  unfold Descriptor_len. rewrite Hb. apply (Htyped i d Hd).
Qed.

Lemma linked_path_from k m :
  (k + Datatypes.S m = length ds)%nat -> chain_path linked (Z.of_nat k) (seq k (Datatypes.S m)).
Proof.
  revert k. induction m as [|m IH]; intros k Hk.
  all: destruct (lookup_lt_is_Some_2 ds k ltac:(lia)) as [d Hd].
  all: destruct (direct_link_facts h (zlen ds) k d) as (_ & _ & _ & _ & _ & _ & _ & HN & Hnext).
  all: unfold MAX_SPLIT_QUEUE_SIZE in Hcount; assert (HZ : zlen ds = Z.of_nat (length ds)) by done.
  all: assert (Hl : linked !! Z.to_nat (Z.of_nat k) = Some (direct_link (zlen ds) k d))
         by (rewrite linked_lookup, Nat2Z.id, Hd; done).
  - replace (seq k 1) with [Z.to_nat (Z.of_nat k)] by (simpl; f_equal; lia).
    apply (path_last _ _ _ Hl). apply HN. lia.
  - replace (seq k (Datatypes.S (Datatypes.S m)))
      with (Z.to_nat (Z.of_nat k) :: seq (Datatypes.S k) (Datatypes.S m)) by (rewrite Nat2Z.id; done).
    apply (path_next _ _ _ _ Hl); [rewrite HN; lia|]. rewrite Hnext by lia.
    replace (Z.of_nat k + 1) with (Z.of_nat (Datatypes.S k)) by lia. apply IH. lia.
Qed.

Lemma linked_path : chain_path linked 0 (seq 0 (length ds)).
Proof.
  assert (Hn : exists m, length ds = Datatypes.S m) by (destruct ds; [unfold zlen in Hcount; simpl in Hcount; lia|eauto]).
  destruct Hn as [m Hm]. rewrite Hm. apply (linked_path_from 0). lia.
Qed.

Lemma linked_descriptors : path_descriptors linked (seq 0 (length ds)) = linked.
Proof. rewrite <-(length_imap (direct_link (zlen ds)) ds). apply (omap_lookup_seq []). Qed.

Lemma linked_regions : path_regions h linked (seq 0 (length ds)) = region_of h <$> ds.
Proof.
  unfold path_regions. rewrite linked_descriptors. unfold linked. rewrite fmap_imap, <-imap_const.
  apply imap_ext. intros i d _. simpl. apply (direct_link_facts h (zlen ds) i d).
Qed.

(** Vector order is accepted exactly when the buffers make a legal layout. *)
Lemma linked_accepted :
  accepted_path h linked 0 (seq 0 (length ds)) <->
  Forall (fun d => exists l, d_buffer d = Mapped l) ds /\ chain_shape (region_of h <$> ds) /\ 
  dir_bytes DeviceReadable (region_of h <$> ds) <= U64_MAX /\ 
  dir_bytes DeviceWritable (region_of h <$> ds) <= U64_MAX.
Proof.
  unfold accepted_path. rewrite linked_regions, linked_descriptors.
  assert (Hz : zlen linked = zlen ds) by (unfold zlen, linked; by rewrite length_imap).
  assert (Hleg : Forall legal_descriptor linked <-> Forall (fun d => exists l, d_buffer d = Mapped l) ds).
  { unfold legal_descriptor. rewrite !Forall_lookup. setoid_rewrite linked_lookup. split.
    - intros H i d Hd. destruct (H i (direct_link (zlen ds) i d)) as (_ & _ & l & Hl); [by rewrite Hd|].
      destruct (direct_link_facts h (zlen ds) i d) as (Hb & _). rewrite Hb in Hl. eauto.
    - intros H i d' Hd'. apply fmap_Some in Hd' as (d & Hd & ->).
      destruct (direct_link_facts h (zlen ds) i d) as (-> & _ & _ & _ & _ & ? & ? & _). eauto. }
  unfold MAX_SPLIT_QUEUE_SIZE in Hcount. split.
  - intros (_ & _ & _ & H1 & H2 & _ & H3 & H4). by rewrite <-Hleg.
  - intros (H1 & H2 & H3 & H4). split_and!; try done; [apply linked_path|apply NoDup_seq| |by apply Hleg|lia].
    unfold linked. by rewrite length_seq, length_imap.
Qed.

End direct.

(** The buffers of one direction, in the order of a descriptor list. *)
Definition dir_buffers (w : bool) (ds : list Descriptor) : list nat :=
  omap (fun d => if Bool.eqb (Descriptor_is_writable d) w then buffer_location d else None) ds.

Lemma dir_buffers_app w ds ds' : dir_buffers w (ds ++ ds') = dir_buffers w ds ++ dir_buffers w ds'.
Proof. apply omap_app. Qed.

(** On a stretch of direction [b], [dir_buffers] takes all or nothing. *)
Lemma dir_buffers_stretch h ds (b w : bool) path :
  Forall (fun x => cr_direction x = if b then DeviceWritable else DeviceReadable) (path_regions h ds path) ->
  dir_buffers w (path_descriptors ds path) =
    if Bool.eqb b w then omap (fun i => ds !! i ≫= buffer_location) path else [].
Proof.
  induction path as [|i path IH]; intros HD; [by destruct (Bool.eqb b w)|].
  change (i :: path) with ([i] ++ path) in *. unfold path_descriptors in *. rewrite omap_app, dir_buffers_app, omap_app.
  rewrite path_regions_app in HD. apply Forall_app in HD as [H1 H2]. rewrite (IH H2).
  simpl. destruct (ds !! i) as [d|] eqn:Hd; [|by destruct (Bool.eqb b w)].
  rewrite (path_regions_single _ _ _ _ Hd), Forall_singleton in H1.
  assert (Hw : Descriptor_is_writable d = b)
    by (unfold region_of in H1; destruct (Descriptor_is_writable d), b; by simplify_eq/=).
  unfold dir_buffers. simpl. rewrite Hw. destruct (Bool.eqb b w); [|done]. by destruct (buffer_location d).
Qed.

Lemma accepted_chain_bytes h ds head path w :
  accepted_path h ds head path ->
  chain_bytes h {| cd_descriptors := ds;
    cd_analysis := AnalysisValid (path_layout h ds path) (path_spans h ds 0 0 path) (path_regions h ds path) |} w
  = concat (heap_bytes h <$> dir_buffers w (path_descriptors ds path)).
Proof.
  intros Hacc. destruct (accepted_split _ _ _ _ Hacc) as (p & q & -> & HR & HW & _ & _ & C1 & _).
  destruct Hacc as (Hp & _ & _ & Hleg & _).
  pose proof (path_lookups ds head _ Hp Hleg) as HF. apply Forall_app in HF as [HFp HFq].
  assert (Hn : Z.to_nat (zlen p) = length (path_spans h ds 0 0 p))
    by (rewrite (length_path_spans h ds 0 0 p HFp); unfold zlen; lia).
  unfold chain_bytes, span_bytes.
  cbn [cd_analysis cd_descriptors ChainAnalysis_spans path_layout cl_readable_descriptors].
  rewrite C1, Hn, path_spans_app, take_app_length, drop_app_length.
  unfold path_descriptors. rewrite omap_app. fold (path_descriptors ds p) (path_descriptors ds q). rewrite dir_buffers_app.
  rewrite (dir_buffers_stretch h ds false w p HR), (dir_buffers_stretch h ds true w q HW).
  by destruct w; simpl; rewrite path_spans_locations, ?app_nil_r.
Qed.

Lemma omap_imap {A B C} (f : B -> option C) (f' : A -> option C) (g : nat -> A -> B) l :
  (forall i x, f (g i x) = f' x) -> omap f (imap g l) = omap f' l.
Proof.
  revert g. induction l as [|x l IH]; intros g H; simpl; [done|].
  rewrite (H 0%nat x). assert (E := IH (g ∘ Datatypes.S) (fun i y => H (Datatypes.S i) y)).
  destruct (f' x); [f_equal|]; exact E.
Qed.

Lemma linked_buffers n ds :
  (forall w, dir_buffers w (imap (direct_link n) ds) = dir_buffers w ds) /\
  omap buffer_location (imap (direct_link n) ds) = omap buffer_location ds.
Proof.
  split; [intros w|]; apply omap_imap; intros i d; unfold buffer_location;
    destruct (direct_link_facts ∅ n i d) as (Hb & Hw & _); by rewrite Hb, ?Hw.
Qed.

(** The builder after its two count checks. *)
Lemma DriverChain_direct_eq mem h ds :
  memory_granted mem ->
  DriverChain_direct mem h ds =
    if zlen ds =? 0 then Err BuildEmpty
    else if MAX_SPLIT_QUEUE_SIZE <? zlen ds then Err BuildDescriptorCount
    else
      let linked := imap (direct_link (zlen ds)) ds in
      match analyze_chain mem h linked 0 (replicate (length linked) 0) with
      | (slots, Ok (AnalysisValid layout spans regions)) =>
          Ok {| dc_data := {| cd_descriptors := linked; cd_analysis := AnalysisValid layout spans regions |};
                dc_slots := slots; dc_head := 0 |}
      | (_, Ok (AnalysisInvalid e)) => Err (BuildMalformed e)
      | (_, Err e) => Err e
      end.
Proof.
  intros (M1 & _). unfold DriverChain_direct, DriverChain_raw, zeroed_u16_box, DriverChain_validation.
  assert (Hz : zlen (imap (direct_link (zlen ds)) ds) = zlen ds) by (unfold zlen; by rewrite length_imap).
  rewrite Hz, M1. destruct (zlen ds =? 0); [done|]. destruct (MAX_SPLIT_QUEUE_SIZE <? zlen ds); [done|]. cbv zeta.
  destruct (analyze_chain _ _ _ _ _) as [slots [[]|]]; done.
Qed.

(** A successful build is the analysis of vector order. *)
Lemma DriverChain_direct_inv mem h ds chain :
  memory_granted mem -> Forall (fun d => 0 <= Descriptor_len h d) ds ->
  DriverChain_direct mem h ds = Ok chain ->
  let linked := imap (direct_link (zlen ds)) ds in
  let path := seq 0 (length ds) in
  0 < zlen ds <= MAX_SPLIT_QUEUE_SIZE /\ accepted_path h linked 0 path /\
  dc_data chain = {| cd_descriptors := linked;
    cd_analysis := AnalysisValid (path_layout h linked path) (path_spans h linked 0 0 path) (path_regions h linked path) |}.
Proof.
  intros Hm HT. rewrite (DriverChain_direct_eq _ _ _ Hm). destruct (Z.eqb_spec (zlen ds) 0); [done|].
  destruct (Z.ltb_spec MAX_SPLIT_QUEUE_SIZE (zlen ds)); [done|]. cbv zeta.
  assert (Hc : 0 < zlen ds <= MAX_SPLIT_QUEUE_SIZE) by (pose proof (zlen_nonneg ds); lia).
  destruct (analyze_chain _ _ _ _ _) as [slots [[layout spans regions|]|]] eqn:Ha; [|done..]. intros [= <-].
  destruct (analyze_chain_sound mem h (imap (direct_link (zlen ds)) ds) 0 Hm (linked_typed h ds HT) ltac:(lia)
    layout spans regions) as (path & Hp & -> & -> & ->); [by rewrite Ha|].
  pose proof (chain_path_det _ _ _ _ (proj1 Hp) (linked_path h ds HT Hc)) as ->. split_and!; done || lia.
Qed.

(** The direct builder is exact.  It succeeds if and only if the buffers
    are mapped, at most 32768 and in a legal layout; the chain then has the
    readable buffers as its request and the writable ones as its response, in
    the order given. *)
Theorem direct_chain_exact mem h ds :
  memory_granted mem -> Forall (fun d => 0 <= Descriptor_len h d) ds -> NoDup (omap buffer_location ds) ->
  ((exists chain, DriverChain_direct mem h ds = Ok chain) <->
   zlen ds <= MAX_SPLIT_QUEUE_SIZE /\ Forall (fun d => exists l, d_buffer d = Mapped l) ds /\
   chain_shape (region_of h <$> ds) /\
   dir_bytes DeviceReadable (region_of h <$> ds) <= U64_MAX /\
   dir_bytes DeviceWritable (region_of h <$> ds) <= U64_MAX) /\
  forall chain, DriverChain_direct mem h ds = Ok chain ->
    data_ok h (dc_data chain) /\ DriverChain_descriptor_count chain = zlen ds /\
    forall w, chain_bytes h (dc_data chain) w = concat (heap_bytes h <$> dir_buffers w ds).
Proof.
  intros Hm HT Hown. split; [split|].
  - intros [chain Hd]. destruct (DriverChain_direct_inv _ _ _ _ Hm HT Hd) as (Hc & Hp & _).
    apply (linked_accepted h ds HT Hc) in Hp as (? & ? & ? & ?). split_and!; done || lia.
  - intros (Hmax & Hrest). assert (Hc : 0 < zlen ds).
    { destruct Hrest as (_ & (rd & wr & E & Hr & _) & _). destruct ds; [by destruct rd|unfold zlen; simpl; lia]. }
    rewrite (DriverChain_direct_eq _ _ _ Hm). zcmp.
    pose proof (analyze_chain_complete mem h _ 0 Hm (linked_typed h ds HT) ltac:(lia) _
      (proj2 (linked_accepted h ds HT (conj Hc Hmax)) Hrest)) as Ha.
    destruct (analyze_chain _ _ _ _ _) as [slots r]. simpl in Ha. rewrite Ha. eauto.
  - intros chain Hd. destruct (DriverChain_direct_inv _ _ _ _ Hm HT Hd) as (Hc & Hp & Hdata).
    destruct (linked_buffers (zlen ds) ds) as [Hb Hl]. unfold MAX_SPLIT_QUEUE_SIZE in Hc.
    unfold DriverChain_descriptor_count. rewrite Hdata. split_and!.
    + apply (accepted_data_ok _ _ _ _ Hp (linked_typed h ds HT)). by rewrite Hl.
    + simpl. unfold zlen in *. rewrite length_imap. apply Z.mod_small. lia.
    + intros w. rewrite (accepted_chain_bytes _ _ _ _ w Hp), linked_descriptors. by rewrite Hb.
Qed.

(** ** A chain on which the properties are applied *)

Module ChainDemo.

(** Two readable and two writable buffers. *)
Definition demo : Heap * list Descriptor :=
  let '(h, d0) := Descriptor_readable [1; 2; 3] ∅ in
  let '(h, d1) := Descriptor_readable [4; 5] h in
  let '(h, d2) := Descriptor_writable [0; 0] h in
  let '(h, d3) := Descriptor_writable [0; 0; 0] h in
  (h, [d0; d1; d2; d3]).

Definition demo_mem : ChainMemory := {| chm_slots := true; chm_spans := true; chm_regions := true |}.
Definition heap : Heap := Eval vm_compute in demo.1.
Definition descriptors : list Descriptor := Eval vm_compute in demo.2.
Definition linked : list Descriptor := Eval vm_compute in imap (direct_link 4) descriptors.
Definition chain_or : result DriverChain ChainBuildError :=
  Eval vm_compute in DriverChain_direct demo_mem heap descriptors.
Definition chain : DriverChain :=
  Eval vm_compute in match chain_or with Ok c => c | Err _ =>
    {| dc_data := {| cd_descriptors := []; cd_analysis := AnalysisInvalid Address |}; dc_slots := []; dc_head := 0 |} end.

Lemma granted : memory_granted demo_mem.
Proof. by vm_compute. Qed.

Lemma built : DriverChain_direct demo_mem heap descriptors = Ok chain.
Proof. by vm_compute. Qed.

Lemma lengths : Forall (fun d => 0 <= Descriptor_len heap d) descriptors.
Proof. repeat constructor; by vm_compute. Qed.

Lemma typed : Forall (descriptor_typed heap) linked.
Proof. repeat constructor; by vm_compute. Qed.

Lemma owned : NoDup (omap buffer_location descriptors).
Proof. apply (bool_decide_unpack _). by vm_compute. Qed.

Lemma chain_ok : data_ok heap (dc_data chain).
Proof.
  apply (DriverChain_raw_ok demo_mem heap linked 0 chain); [apply typed| |lia|by vm_compute].
  apply (bool_decide_unpack _). by vm_compute.
Qed.

Lemma chain_analysis_exact_witness :
  exists path, accepted_path heap linked 0 path /\ path_regions heap linked path =
    [ChainRegion_readable 3; ChainRegion_readable 2; ChainRegion_writable 2; ChainRegion_writable 3].
Proof.
  destruct (chain_analysis_exact demo_mem heap linked 0 granted typed ltac:(lia)) as (_ & _ & H).
  destruct (proj1 (H
    {| cl_descriptor_count := 4; cl_readable_descriptors := 2; cl_writable_descriptors := 2;
       cl_readable_bytes := 5; cl_writable_bytes := 5 |}
    [{| sp_descriptor := 0; sp_end := 3 |}; {| sp_descriptor := 1; sp_end := 5 |};
     {| sp_descriptor := 2; sp_end := 2 |}; {| sp_descriptor := 3; sp_end := 5 |}]
    [ChainRegion_readable 3; ChainRegion_readable 2; ChainRegion_writable 2; ChainRegion_writable 3])
    ltac:(by vm_compute)) as (path & Hp & _ & Hr & _).
  exists path. split; [exact Hp|by rewrite Hr].
Defined.

Lemma direct_chain_exact_witness :
  (exists c, DriverChain_direct demo_mem heap descriptors = Ok c) /\
  chain_bytes heap (dc_data chain) false = [1; 2; 3; 4; 5].
Proof.
  destruct (direct_chain_exact demo_mem heap descriptors granted lengths owned) as [_ H].
  destruct (H chain built) as (_ & _ & Hb). split; [exists chain; exact built|]. rewrite Hb. by vm_compute.
Defined.

Lemma split_source_refines_witness :
  SplitSource_read_at 1 heap {| sso_data := dc_data chain; sso_epoch := 1 |} 2 2 = Ok [3; 4].
Proof.
  destruct (split_source_refines 1 heap {| sso_data := dc_data chain; sso_epoch := 1 |} 2 2 chain_ok
    ltac:(lia) ltac:(lia)) as [_ H]. refine (eq_trans H _). by vm_compute.
Defined.

Lemma split_sink_refines_witness :
  (SplitSink_write_at 1 {| ssi_data := dc_data chain; ssi_epoch := 1 |} 1 [7; 8] heap).2 = Ok tt.
Proof.
  pose proof (split_sink_refines 1 heap {| ssi_data := dc_data chain; ssi_epoch := 1 |} 1 [7; 8] chain_ok
    ltac:(lia)) as H.
  destruct (SplitSink_write_at _ _ _ _ _) as [h' r]. destruct H as [H _]. injection H as _ ->. by vm_compute.
Defined.

End ChainDemo.
