(* ===== verification/SplitQueue.v ===== *)
(** * The split queue ([crates/virtio-accel-split-queue/src/queue.rs])

    The ring storage and every operation of the driver, the device and the
    configuration side, as written: three tables indexed by descriptor slot,
    two rings indexed by wrapping 16-bit counters, and explicit counts. *)

From Stdlib Require Import ZArith Lia.
From stdpp Require Import prelude list gmap.
From S2P Require Import Prelude Transport Chain.

Inductive SplitQueueInitError := InitDescriptorLimit.

Inductive SplitQueueError :=
  | SqAllocationFailed
  | SqBusy
  | SqChainLimitExceedsQueue
  | SqMalformedDriverChain (error : MalformedChain)
  | SqInvalidTestState
  | SqCorruptState.

Record RingCounters := {
  rcn_available : Z;
  rcn_consumed_available : Z;
  rcn_used : Z;
  rcn_consumed_used : Z;
}.

(** ** Ring storage *)

Record DescriptorOwner := {
  do_head : Z;
  do_local : Z;
}.

Inductive ChainState := ChainAvailable | ChainInFlight | ChainUsed.

#[global] Instance ChainState_eq_dec : EqDecision ChainState.
Proof. solve_decision. Defined.

Record ChainRecord := {
  cr_id : ChainId;
  cr_state : ChainState;
  cr_chain : DriverChain;
}.

Record UsedElement := {
  ue_head : Z;
  ue_id : ChainId;
  ue_used : Z;
}.

Record RingStorage := {
  rs_size : Z;
  rs_descriptors : list (option DescriptorOwner);
  rs_records : list (option ChainRecord);
  rs_available : list Z;
  rs_used : list (option UsedElement);
  rs_available_index : Z;
  rs_consumed_available : Z;
  rs_used_index : Z;
  rs_consumed_used : Z;
  rs_available_count : Z;
  rs_used_count : Z;
  rs_active_chains : Z;
  rs_free_descriptors : Z;
  rs_next_descriptor : Z;
}.

(** Field updates. *)
Definition rs_set_descriptors ds (s : RingStorage) : RingStorage :=
  {| rs_size := rs_size s; rs_descriptors := ds; rs_records := rs_records s;
     rs_available := rs_available s; rs_used := rs_used s;
     rs_available_index := rs_available_index s; rs_consumed_available := rs_consumed_available s;
     rs_used_index := rs_used_index s; rs_consumed_used := rs_consumed_used s;
     rs_available_count := rs_available_count s; rs_used_count := rs_used_count s;
     rs_active_chains := rs_active_chains s; rs_free_descriptors := rs_free_descriptors s;
     rs_next_descriptor := rs_next_descriptor s |}.

Definition rs_set_records rs (s : RingStorage) : RingStorage :=
  {| rs_size := rs_size s; rs_descriptors := rs_descriptors s; rs_records := rs;
     rs_available := rs_available s; rs_used := rs_used s;
     rs_available_index := rs_available_index s; rs_consumed_available := rs_consumed_available s;
     rs_used_index := rs_used_index s; rs_consumed_used := rs_consumed_used s;
     rs_available_count := rs_available_count s; rs_used_count := rs_used_count s;
     rs_active_chains := rs_active_chains s; rs_free_descriptors := rs_free_descriptors s;
     rs_next_descriptor := rs_next_descriptor s |}.

Definition rs_set_used us (s : RingStorage) : RingStorage :=
  {| rs_size := rs_size s; rs_descriptors := rs_descriptors s; rs_records := rs_records s;
     rs_available := rs_available s; rs_used := us;
     rs_available_index := rs_available_index s; rs_consumed_available := rs_consumed_available s;
     rs_used_index := rs_used_index s; rs_consumed_used := rs_consumed_used s;
     rs_available_count := rs_available_count s; rs_used_count := rs_used_count s;
     rs_active_chains := rs_active_chains s; rs_free_descriptors := rs_free_descriptors s;
     rs_next_descriptor := rs_next_descriptor s |}.

Definition rs_set_free free next (s : RingStorage) : RingStorage :=
  {| rs_size := rs_size s; rs_descriptors := rs_descriptors s; rs_records := rs_records s;
     rs_available := rs_available s; rs_used := rs_used s;
     rs_available_index := rs_available_index s; rs_consumed_available := rs_consumed_available s;
     rs_used_index := rs_used_index s; rs_consumed_used := rs_consumed_used s;
     rs_available_count := rs_available_count s; rs_used_count := rs_used_count s;
     rs_active_chains := rs_active_chains s; rs_free_descriptors := free;
     rs_next_descriptor := next |}.

(** [boxed_with(len, |_| value)]; [mem] is the allocator's answer. *)
Definition boxed_with {T} (mem : bool) (len : nat) (value : T) : result (list T) SplitQueueError :=
  if mem then Ok (replicate len value) else Err SqAllocationFailed.

(** The allocator's answers for the four tables. *)
Record RingMemory := {
  rm_descriptors : bool;
  rm_records : bool;
  rm_available : bool;
  rm_used : bool;
}.

Definition RingStorage_new (mem : RingMemory) (size : Z) : result RingStorage SplitQueueError :=
  let len := Z.to_nat size in
  let? descriptors := boxed_with (rm_descriptors mem) len None in
  let? records := boxed_with (rm_records mem) len None in
  let? available := boxed_with (rm_available mem) len 0 in
  let? used := boxed_with (rm_used mem) len None in
  Ok {| rs_size := size;
        rs_descriptors := descriptors;
        rs_records := records;
        rs_available := available;
        rs_used := used;
        rs_available_index := 0;
        rs_consumed_available := 0;
        rs_used_index := 0;
        rs_consumed_used := 0;
        rs_available_count := 0;
        rs_used_count := 0;
        rs_active_chains := 0;
        rs_free_descriptors := size;
        rs_next_descriptor := 0 |}.

Definition ring_slot (self : RingStorage) (index : Z) : nat :=
  Z.to_nat (Z.land index (rs_size self - 1)).

Definition RingStorage_counters (self : RingStorage) : RingCounters :=
  {| rcn_available := rs_available_index self;
     rcn_consumed_available := rs_consumed_available self;
     rcn_used := rs_used_index self;
     rcn_consumed_used := rs_consumed_used self |}.

Definition wrapping_descriptor_add (size index amount : Z) : Z :=
  Z.land (wrapping_add U16_MAX index amount) (size - 1).

(** ** Descriptor allocation *)

(** The inner [while]: skip the taken slots, at most [size] of them.  [None]
    is the exhausted scan, after which the caller rolls back. *)
Fixpoint scan_free (fuel : nat) (size : Z) (ds : list (option DescriptorOwner)) (cursor : Z) : option Z :=
  match ds !! Z.to_nat cursor with
  | Some (Some _) =>
      match fuel with
      | O => None
      | Datatypes.S fuel => scan_free fuel size ds (wrapping_descriptor_add size cursor 1)
      end
  | _ => Some cursor
  end.

(** [scanned == size] stops the scan after [size] taken slots: the fuel counts
    the slots that may still be skipped. *)
Definition scan (size : Z) (ds : list (option DescriptorOwner)) (cursor : Z) : option Z :=
  scan_free (Z.to_nat size - 1) size ds cursor.

(** The outer [while]: [remaining] slots are still to be taken, [allocated]
    have been.  Returns the tables with the cursor, or the state in which the
    scan was exhausted. *)
Fixpoint allocate_loop (remaining allocated : nat) (size : Z) (ds : list (option DescriptorOwner))
    (slots : list Z) (cursor : Z) :
    (list (option DescriptorOwner) * list Z * Z) + (list (option DescriptorOwner) * list Z * nat) :=
  match remaining with
  | O => inl (ds, slots, cursor)
  | Datatypes.S remaining =>
      match scan size ds cursor with
      | None => inr (ds, slots, allocated)
      | Some cursor =>
          let slots := <[allocated := cursor]> slots in
          let ds := <[Z.to_nat cursor := Some {| do_head := 0; do_local := Z.of_nat allocated mod 65536 |}]> ds in
          allocate_loop remaining (Datatypes.S allocated) size ds slots (wrapping_descriptor_add size cursor 1)
      end
  end.

Definition rollback_allocation (slots : list Z) (allocated : nat) (ds : list (option DescriptorOwner)) :
    list (option DescriptorOwner) :=
  foldl (fun ds slot => <[Z.to_nat slot := None]> ds) ds (take allocated slots).

(** The final [for] over the slots: give every owner its head. *)
Fixpoint set_heads (head : Z) (slots : list Z) (ds : list (option DescriptorOwner)) :
    list (option DescriptorOwner) * bool :=
  match slots with
  | [] => (ds, true)
  | slot :: slots =>
      match ds !! Z.to_nat slot with
      | Some (Some owner) =>
          set_heads head slots (<[Z.to_nat slot := Some {| do_head := head; do_local := do_local owner |}]> ds)
      | _ => (ds, false)
      end
  end.

Definition chain_with_slots (slots : list Z) (chain : DriverChain) : DriverChain :=
  {| dc_data := dc_data chain; dc_slots := slots; dc_head := dc_head chain |}.

Definition allocate_descriptors (self : RingStorage) (chain : DriverChain) :
    RingStorage * DriverChain * result Z SplitQueueError :=
  let count := DriverChain_descriptor_count chain in
  if rs_free_descriptors self <? count then (self, chain, Err SqCorruptState)
  else
    match allocate_loop (Z.to_nat count) 0 (rs_size self) (rs_descriptors self) (dc_slots chain)
            (rs_next_descriptor self) with
    | inr (ds, slots, allocated) =>
        (rs_set_descriptors (rollback_allocation slots allocated ds) self, chain_with_slots slots chain,
         Err SqCorruptState)
    | inl (ds, slots, cursor) =>
        let chain := chain_with_slots slots chain in
        let head := DriverChain_queue_head_slot chain in
        match set_heads head slots ds with
        | (ds, false) => (rs_set_descriptors ds self, chain, Err SqCorruptState)
        | (ds, true) =>
            (rs_set_free (rs_free_descriptors self - count) cursor (rs_set_descriptors ds self), chain, Ok head)
        end
    end.

(** [release_descriptors]: the [debug_assert]s do not exist in a release build. *)
Fixpoint release_slots (slots : list Z) (ds : list (option DescriptorOwner)) (free : Z) :
    list (option DescriptorOwner) * Z :=
  match slots with
  | [] => (ds, free)
  | slot :: slots =>
      match ds !! Z.to_nat slot with
      | Some (Some _) => release_slots slots (<[Z.to_nat slot := None]> ds) (free + 1)
      | _ => release_slots slots ds free
      end
  end.

Definition release_descriptors (chain : DriverChain) (self : RingStorage) : RingStorage :=
  let '(ds, free) := release_slots (dc_slots chain) (rs_descriptors self) (rs_free_descriptors self) in
  rs_set_free free (rs_next_descriptor self) (rs_set_descriptors ds self).

(** ** [SplitQueue] *)

(** [sq_current_epoch] is the content of the shared epoch cell. *)
Record SplitQueue := {
  sq_state : QueueState;
  sq_max_chain_descriptors : Z;
  sq_current_epoch : Z;
  sq_storage : option RingStorage;
  sq_available_notifications : bool;
  sq_used_notifications : bool;
}.

Definition sq_set_storage (storage : RingStorage) (self : SplitQueue) : SplitQueue :=
  {| sq_state := sq_state self; sq_max_chain_descriptors := sq_max_chain_descriptors self;
     sq_current_epoch := sq_current_epoch self; sq_storage := Some storage;
     sq_available_notifications := sq_available_notifications self;
     sq_used_notifications := sq_used_notifications self |}.

Definition sq_set_state (state : QueueState) (storage : option RingStorage) (self : SplitQueue) : SplitQueue :=
  {| sq_state := state; sq_max_chain_descriptors := sq_max_chain_descriptors self;
     sq_current_epoch := sq_current_epoch self; sq_storage := storage;
     sq_available_notifications := sq_available_notifications self;
     sq_used_notifications := sq_used_notifications self |}.

Definition sq_set_notifications (available used : bool) (self : SplitQueue) : SplitQueue :=
  {| sq_state := sq_state self; sq_max_chain_descriptors := sq_max_chain_descriptors self;
     sq_current_epoch := sq_current_epoch self; sq_storage := sq_storage self;
     sq_available_notifications := available; sq_used_notifications := used |}.

Definition SplitQueue_new (max_size max_chain_descriptors : Z) : result SplitQueue SplitQueueInitError :=
  if (max_chain_descriptors <? 2) || (max_size <? max_chain_descriptors) then Err InitDescriptorLimit
  else
    let epoch := QueueEpoch_INITIAL in
    Ok {| sq_state := QueueState_unconfigured max_size epoch;
          sq_max_chain_descriptors := max_chain_descriptors;
          sq_current_epoch := epoch;
          sq_storage := None;
          sq_available_notifications := true;
          sq_used_notifications := true |}.

Definition storage_mut (self : SplitQueue) : result RingStorage (QueueError SplitQueueError) :=
  ok_or (sq_storage self) QueueNotReady.

Definition set_empty_ring_index (index : Z) (self : SplitQueue) :
    SplitQueue * result unit (QueueError SplitQueueError) :=
  match storage_mut self with
  | Err e => (self, Err e)
  | Ok s =>
      if negb (rs_active_chains s =? 0) then (self, Err (QueueTransport SqBusy))
      else
        let s := {| rs_size := rs_size s; rs_descriptors := rs_descriptors s; rs_records := rs_records s;
                    rs_available := rs_available s; rs_used := rs_used s;
                    rs_available_index := index; rs_consumed_available := index;
                    rs_used_index := index; rs_consumed_used := index;
                    rs_available_count := 0; rs_used_count := 0;
                    rs_active_chains := rs_active_chains s;
                    rs_free_descriptors := rs_free_descriptors s;
                    rs_next_descriptor := rs_next_descriptor s |} in
        (sq_set_storage s self, Ok tt)
  end.

Definition set_next_descriptor (index : Z) (self : SplitQueue) :
    SplitQueue * result unit (QueueError SplitQueueError) :=
  match storage_mut self with
  | Err e => (self, Err e)
  | Ok s =>
      if rs_size s <=? index then (self, Err (QueueTransport SqInvalidTestState))
      else (sq_set_storage (rs_set_free (rs_free_descriptors s) index s) self, Ok tt)
  end.

Definition ring_counters (self : SplitQueue) : option RingCounters :=
  RingStorage_counters <$> sq_storage self.

Definition free_descriptors (self : SplitQueue) : option Z := rs_free_descriptors <$> sq_storage self.

Definition hint (notifications : bool) : NotificationHint := if notifications then Notify else Suppressed.

Abbreviation PublishResult := (result PublishedChain (PublishError DriverChain SplitQueueError)).

Definition refuse (chain : DriverChain) (kind : PublishErrorKind SplitQueueError) : PublishResult :=
  Err {| pe_chain := chain; pe_kind := kind |}.

(** The end of [publish_inner]: record the chain and publish its head. *)
Definition publish_record (id : ChainId) (head : Z) (chain : DriverChain) (s : RingStorage) : RingStorage :=
  let records := <[Z.to_nat head := Some {| cr_id := id; cr_state := ChainAvailable; cr_chain := chain |}]>
                   (rs_records s) in
  {| rs_size := rs_size s; rs_descriptors := rs_descriptors s; rs_records := records;
     rs_available := <[ring_slot s (rs_available_index s) := head]> (rs_available s);
     rs_used := rs_used s;
     rs_available_index := wrapping_add U16_MAX (rs_available_index s) 1;
     rs_consumed_available := rs_consumed_available s;
     rs_used_index := rs_used_index s; rs_consumed_used := rs_consumed_used s;
     rs_available_count := rs_available_count s + 1; rs_used_count := rs_used_count s;
     rs_active_chains := rs_active_chains s + 1; rs_free_descriptors := rs_free_descriptors s;
     rs_next_descriptor := rs_next_descriptor s |}.

(** The validation of a driver's chain, skipped by [inject_available]. *)
Definition publish_check (self : SplitQueue) (chain : DriverChain) (inject_malformed : bool) :
    result unit (PublishErrorKind SplitQueueError) :=
  if inject_malformed then Ok tt
  else
    match DriverChain_validation chain with
    | Err error => Err (PublishTransport (SqMalformedDriverChain error))
    | Ok _ =>
        if sq_max_chain_descriptors self <? DriverChain_descriptor_count chain
        then Err PublishInsufficientDescriptors
        else Ok tt
    end.

Definition publish_inner (chain : DriverChain) (inject_malformed : bool) (self : SplitQueue) :
    SplitQueue * PublishResult :=
  if negb (qs_ready (sq_state self)) then (self, refuse chain PublishNotReady)
  else
    match publish_check self chain inject_malformed with
    | Err kind => (self, refuse chain kind)
    | Ok _ =>
        let epoch := qs_epoch (sq_state self) in
        let notifications := sq_available_notifications self in
        match sq_storage self with
        | None => (self, refuse chain (PublishTransport SqCorruptState))
        | Some s =>
            if rs_available_count s =? rs_size s then (self, refuse chain PublishQueueFull)
            else if rs_free_descriptors s <? DriverChain_descriptor_count chain
            then (self, refuse chain PublishInsufficientDescriptors)
            else
              match allocate_descriptors s chain with
              | (s, chain, Err error) => (sq_set_storage s self, refuse chain (PublishTransport error))
              | (s, chain, Ok head) =>
                  let id := {| ci_epoch := epoch; ci_token := head |} in
                  match rs_records s !! Z.to_nat head with
                  | Some (Some _) =>
                      (sq_set_storage (release_descriptors chain s) self,
                       refuse chain (PublishTransport SqCorruptState))
                  | _ =>
                      (sq_set_storage (publish_record id head chain s) self,
                       Ok {| pc_id := id; pc_notification := hint notifications |})
                  end
              end
        end
    end.

Definition inject_available (chain : DriverChain) (self : SplitQueue) := publish_inner chain true self.

(** [DriverQueue::publish] *)
Definition publish (chain : DriverChain) (self : SplitQueue) := publish_inner chain false self.

(** ** Configuration *)

Definition configure (mem : RingMemory) (size : Z) (self : SplitQueue) :
    SplitQueue * result unit (QueueError SplitQueueError) :=
  if qs_ready (sq_state self) then (self, Err (QueueTransport SqBusy))
  else if qs_max_size (sq_state self) <? size
  then (self, Err (QueueInvalidConfiguration SizeExceedsMaximum))
  else if size <? sq_max_chain_descriptors self
  then (self, Err (QueueTransport SqChainLimitExceedsQueue))
  else if match sq_storage self with Some s => negb (rs_active_chains s =? 0) | None => false end
  then (self, Err (QueueTransport SqBusy))
  else
    match RingStorage_new mem size with
    | Err e => (self, Err (QueueTransport e))
    | Ok storage =>
        match QueueState_new (qs_max_size (sq_state self)) (Some size) false (qs_epoch (sq_state self)) with
        | Err e => (self, Err (QueueInvalidConfiguration e))
        | Ok state => (sq_set_state state (Some storage) self, Ok tt)
        end
    end.

Definition set_ready (ready : bool) (self : SplitQueue) :
    SplitQueue * result unit (QueueError SplitQueueError) :=
  match QueueState_new (qs_max_size (sq_state self)) (qs_size (sq_state self)) ready
          (qs_epoch (sq_state self)) with
  | Err e => (self, Err (QueueInvalidConfiguration e))
  | Ok state => (sq_set_state state (sq_storage self) self, Ok tt)
  end.

(** ** The driver *)

(** The end of [pop_used]: the record leaves, its descriptors are free. *)
Definition pop_used_commit (record : ChainRecord) (s : RingStorage) : RingStorage :=
  let s := release_descriptors (cr_chain record) s in
  {| rs_size := rs_size s; rs_descriptors := rs_descriptors s; rs_records := rs_records s;
     rs_available := rs_available s; rs_used := rs_used s;
     rs_available_index := rs_available_index s; rs_consumed_available := rs_consumed_available s;
     rs_used_index := rs_used_index s;
     rs_consumed_used := wrapping_add U16_MAX (rs_consumed_used s) 1;
     rs_available_count := rs_available_count s; rs_used_count := rs_used_count s - 1;
     rs_active_chains := rs_active_chains s - 1; rs_free_descriptors := rs_free_descriptors s;
     rs_next_descriptor := rs_next_descriptor s |}.

Definition pop_used (self : SplitQueue) :
    SplitQueue * result (option (UsedChain DriverChain)) (QueueError SplitQueueError) :=
  if negb (qs_ready (sq_state self)) then (self, Err QueueNotReady)
  else
    match storage_mut self with
    | Err e => (self, Err e)
    | Ok s =>
        if rs_used_count s =? 0 then (self, Ok None)
        else
          let slot := ring_slot s (rs_consumed_used s) in
          match rs_used s !! slot with
          | Some (Some used) =>
              match rs_records s !! Z.to_nat (ue_head used) with
              | Some (Some record) =>
                  if bool_decide (cr_id record <> ue_id used) || bool_decide (cr_state record <> ChainUsed)
                  then (self, Err (QueueTransport SqCorruptState))
                  else
                    let s := rs_set_used (<[slot := None]> (rs_used s)) s in
                    let s := rs_set_records (<[Z.to_nat (ue_head used) := None]> (rs_records s)) s in
                    (sq_set_storage (pop_used_commit record s) self,
                     Ok (Some {| uc_id := cr_id record; uc_used := ue_used used; uc_chain := cr_chain record |}))
              | _ => (self, Err (QueueTransport SqCorruptState))
              end
          | _ => (self, Err (QueueTransport SqCorruptState))
          end
    end.

Definition disable_used_notifications (self : SplitQueue) :
    SplitQueue * result unit (QueueError SplitQueueError) :=
  if negb (qs_ready (sq_state self)) then (self, Err QueueNotReady)
  else (sq_set_notifications (sq_available_notifications self) false self, Ok tt).

Definition recheck (count : Z) : NotificationRecheck := if count =? 0 then Idle else WorkPending.

Definition enable_used_notifications (self : SplitQueue) :
    SplitQueue * result NotificationRecheck (QueueError SplitQueueError) :=
  if negb (qs_ready (sq_state self)) then (self, Err QueueNotReady)
  else
    let self := sq_set_notifications (sq_available_notifications self) true self in
    match storage_mut self with
    | Err e => (self, Err e)
    | Ok s => (self, Ok (recheck (rs_used_count s)))
    end.

Definition advance_epoch (next_epoch : Z) (self : SplitQueue) :
    SplitQueue * result (option RingStorage) (QueueError SplitQueueError) :=
  if next_epoch <=? qs_epoch (sq_state self)
  then (self, Err (QueueInvalidConfiguration NonIncreasingEpoch))
  else
    ({| sq_state := QueueState_unconfigured (qs_max_size (sq_state self)) next_epoch;
        sq_max_chain_descriptors := sq_max_chain_descriptors self;
        sq_current_epoch := next_epoch;
        sq_storage := None;
        sq_available_notifications := true;
        sq_used_notifications := true |},
     Ok (sq_storage self)).

(** [ReclaimedChains] run to its end: the records that are present, in order. *)
Definition ReclaimedChains (storage : option RingStorage) : list (ReclaimedChain DriverChain) :=
  match storage with
  | Some s => omap (fun r => (fun r => {| rc_id := cr_id r; rc_chain := cr_chain r |}) <$> r) (rs_records s)
  | None => []
  end.

(** [DriverQueue::reset] *)
Definition driver_reset (next_epoch : Z) (self : SplitQueue) :
    SplitQueue * result (list (ReclaimedChain DriverChain)) (QueueError SplitQueueError) :=
  let '(self, r) := advance_epoch next_epoch self in
  (self, let? storage := r in Ok (ReclaimedChains storage)).

(** ** The device *)

Definition pop_available (self : SplitQueue) :
    SplitQueue * result (option SplitDeviceChain) (QueueError SplitQueueError) :=
  if negb (qs_ready (sq_state self)) then (self, Err QueueNotReady)
  else
    let epoch := qs_epoch (sq_state self) in
    match storage_mut self with
    | Err e => (self, Err e)
    | Ok s =>
        if rs_available_count s =? 0 then (self, Ok None)
        else
          let slot := ring_slot s (rs_consumed_available s) in
          let head := default 0 (rs_available s !! slot) in
          match rs_records s !! Z.to_nat head with
          | Some (Some record) =>
              if negb (ci_epoch (cr_id record) =? epoch) || bool_decide (cr_state record <> ChainAvailable)
              then (self, Err (QueueTransport SqCorruptState))
              else
                let record := {| cr_id := cr_id record; cr_state := ChainInFlight; cr_chain := cr_chain record |} in
                let chain := SplitDeviceChain_new (cr_id record) (dc_data (cr_chain record))
                               (sq_max_chain_descriptors self) in
                let s :=
                  {| rs_size := rs_size s; rs_descriptors := rs_descriptors s;
                     rs_records := <[Z.to_nat head := Some record]> (rs_records s);
                     rs_available := rs_available s; rs_used := rs_used s;
                     rs_available_index := rs_available_index s;
                     rs_consumed_available := wrapping_add U16_MAX (rs_consumed_available s) 1;
                     rs_used_index := rs_used_index s; rs_consumed_used := rs_consumed_used s;
                     rs_available_count := rs_available_count s - 1; rs_used_count := rs_used_count s;
                     rs_active_chains := rs_active_chains s;
                     rs_free_descriptors := rs_free_descriptors s;
                     rs_next_descriptor := rs_next_descriptor s |} in
                (sq_set_storage s self, Ok (Some chain))
          | _ => (self, Err (QueueTransport SqCorruptState))
          end
    end.

(** The end of [complete]: the record is used and enters the used ring. *)
Definition complete_record (head : Z) (id : ChainId) (used : Z) (record : ChainRecord) (s : RingStorage) :
    RingStorage :=
  let record := {| cr_id := cr_id record; cr_state := ChainUsed; cr_chain := cr_chain record |} in
  {| rs_size := rs_size s; rs_descriptors := rs_descriptors s;
     rs_records := <[Z.to_nat head := Some record]> (rs_records s);
     rs_available := rs_available s;
     rs_used := <[ring_slot s (rs_used_index s) := Some {| ue_head := head; ue_id := id; ue_used := used |}]>
                  (rs_used s);
     rs_available_index := rs_available_index s; rs_consumed_available := rs_consumed_available s;
     rs_used_index := wrapping_add U16_MAX (rs_used_index s) 1;
     rs_consumed_used := rs_consumed_used s;
     rs_available_count := rs_available_count s; rs_used_count := rs_used_count s + 1;
     rs_active_chains := rs_active_chains s; rs_free_descriptors := rs_free_descriptors s;
     rs_next_descriptor := rs_next_descriptor s |}.

Definition complete (chain : SplitDeviceChain) (used : Z) (self : SplitQueue) :
    SplitQueue * result NotificationHint (QueueError SplitQueueError) :=
  let id := sdc_id chain in
  let current := qs_epoch (sq_state self) in
  if negb (ci_epoch id =? current) then (self, Err (QueueResetRace (ci_epoch id) current))
  else if negb (qs_ready (sq_state self)) then (self, Err QueueNotReady)
  else
    let capacity := SplitDeviceChain_writable_capacity chain in
    if capacity <? used then (self, Err (QueueUsedLengthExceeded used capacity))
    else
      match try_from U16_MAX (ci_token id) with
      | None => (self, Err (QueueTransport SqCorruptState))
      | Some head =>
          let notifications := sq_used_notifications self in
          match storage_mut self with
          | Err e => (self, Err e)
          | Ok s =>
              match rs_records s !! Z.to_nat head with
              | Some (Some record) =>
                  if bool_decide (cr_id record <> id) || bool_decide (cr_state record <> ChainInFlight)
                  then (self, Err (QueueTransport SqCorruptState))
                  else if rs_used_count s =? rs_size s
                  then (self, Err (QueueTransport SqCorruptState))
                  else (sq_set_storage (complete_record head id used record s) self, Ok (hint notifications))
              | _ => (self, Err (QueueTransport SqCorruptState))
              end
          end
      end.

Definition disable_available_notifications (self : SplitQueue) :
    SplitQueue * result unit (QueueError SplitQueueError) :=
  if negb (qs_ready (sq_state self)) then (self, Err QueueNotReady)
  else (sq_set_notifications false (sq_used_notifications self) self, Ok tt).

Definition enable_available_notifications (self : SplitQueue) :
    SplitQueue * result NotificationRecheck (QueueError SplitQueueError) :=
  if negb (qs_ready (sq_state self)) then (self, Err QueueNotReady)
  else
    let self := sq_set_notifications true (sq_used_notifications self) self in
    match storage_mut self with
    | Err e => (self, Err e)
    | Ok s => (self, Ok (recheck (rs_available_count s)))
    end.

(** [DeviceQueue::reset] drops the storage and every chain in it. *)
Definition device_reset (next_epoch : Z) (self : SplitQueue) :
    SplitQueue * result unit (QueueError SplitQueueError) :=
  let '(self, r) := advance_epoch next_epoch self in
  (self, let? _ := r in Ok tt).
