(* ===== verification/QueueInv.v ===== *)
(** * Slots, scans and descriptor tables of the split queue

    The masks of [ring_slot] and [wrapping_descriptor_add] are remainders
    because queue sizes are powers of two.  The allocation loop, the pass that
    sets the heads and the release are updates of the descriptor table at
    distinct slots ([patched]) that keep the number of free slots exact. *)

From Stdlib Require Import ZArith Lia.
From stdpp Require Import prelude list gmap.
From S2P Require Import Prelude Transport Chain SplitQueue.

(** ** Masks *)

(** A size that [QueueSize::new] accepts. *)
Definition size_ok (size : Z) : Prop := exists k, 0 <= k <= 15 /\ size = 2 ^ k.

Lemma size_ok_bounds size : size_ok size -> 1 <= size <= 32768.
Proof.
  intros (k & Hk & ->). change 1 with (2 ^ 0). change 32768 with (2 ^ 15).
  split; apply Z.pow_le_mono_r; lia.
Qed.

Lemma QueueSize_new_ok v size : QueueSize_new v = Some size -> size_ok size /\ size = v.
Proof.
  unfold QueueSize_new, nonzero. destruct (is_power_of_two v) eqn:Hp; [|done]. simpl.
  destruct (Z.leb_spec v MAX_SPLIT_QUEUE_SIZE); [|done]. case_match; [done|]. intros [= <-].
  apply is_power_of_two_spec in Hp as (k & Hk & ->). split; [|done]. exists k. split; [|done]. split; [done|].
  unfold MAX_SPLIT_QUEUE_SIZE in *. change 32768 with (2 ^ 15) in *. apply Z.pow_le_mono_r_iff in H; lia.
Qed.

Lemma mask_mod size i : size_ok size -> Z.land i (size - 1) = i mod size.
Proof. intros (k & Hk & ->). rewrite Z.sub_1_r, <-Z.ones_equiv. apply Z.land_ones. lia. Qed.

Lemma mask_range size i : size_ok size -> 0 <= Z.land i (size - 1) < size.
Proof. intros H. rewrite mask_mod by done. apply size_ok_bounds in H. apply Z.mod_pos_bound. lia. Qed.

Lemma wrap_mod size i : size_ok size -> (i mod 65536) mod size = i mod size.
Proof.
  intros (k & Hk & ->). assert (H : 65536 = 2 ^ k * 2 ^ (16 - k)).
  { rewrite <-Z.pow_add_r by lia. by replace (k + (16 - k)) with 16 by lia. }
  pose proof (Z.pow_pos_nonneg 2 k). pose proof (Z.pow_pos_nonneg 2 (16 - k)).
  rewrite H, Z.rem_mul_r by lia. rewrite Z.mul_comm, Z_mod_plus_full. apply Z.mod_mod. lia.
Qed.

Lemma wrapping_descriptor_add_mod size i n :
  size_ok size -> wrapping_descriptor_add size i n = (i + n) mod size.
Proof. intros H. unfold wrapping_descriptor_add, wrapping_add. rewrite mask_mod by done. by apply wrap_mod. Qed.

(** ** The scan *)

Abbreviation Owners := (list (option DescriptorOwner)).

Definition owner_free (o : option DescriptorOwner) : Z := match o with None => 1 | Some _ => 0 end.
Definition free_count (ds : Owners) : Z := sum_by owner_free ds.

Lemma free_count_pos ds : 0 < free_count ds -> exists i, ds !! i = Some None.
Proof.
  unfold free_count, sum_by. induction ds as [|[o|] ds IH]; simpl; [lia| |exists 0%nat; done].
  intros H. destruct IH as [i Hi]; [lia|]. by exists (Datatypes.S i).
Qed.

Lemma scan_free_found size ds fuel c j :
  size_ok size -> 0 <= c < size -> (j <= fuel)%nat ->
  ds !! Z.to_nat ((c + Z.of_nat j) mod size) = Some None -> zlen ds = size ->
  exists c', scan_free fuel size ds c = Some c' /\ 0 <= c' < size /\ ds !! Z.to_nat c' = Some None.
Proof.
  intros Hs. revert c j. induction fuel as [|fuel IH]; intros c j Hc Hj Hd Hlen.
  all: destruct (lookup_lt_is_Some_2 ds (Z.to_nat c)) as [[o|] Ho]; [unfold zlen in Hlen; lia| |].
  2, 4: exists c; simpl; rewrite Ho; done.
  all: destruct j as [|j]; [rewrite Z.add_0_r, Z.mod_small, Ho in Hd by done; done|].
  1: lia.
  simpl. rewrite Ho, wrapping_descriptor_add_mod by done.
  apply (IH _ j); [apply Z.mod_pos_bound; lia|lia| |done].
  rewrite Z.add_mod_idemp_l by lia. by replace (c + 1 + Z.of_nat j) with (c + Z.of_nat (Datatypes.S j)) by lia.
Qed.

Lemma scan_found size ds c :
  size_ok size -> zlen ds = size -> 0 <= c < size -> 0 < free_count ds ->
  exists c', scan size ds c = Some c' /\ 0 <= c' < size /\ ds !! Z.to_nat c' = Some None.
Proof.
  intros Hs Hlen Hc Hf. destruct (free_count_pos ds Hf) as [i Hi].
  assert (Hil : (i < length ds)%nat) by by eapply lookup_lt_Some. unfold zlen in Hlen.
  pose proof (Z.mod_pos_bound (Z.of_nat i - c) size ltac:(lia)).
  apply (scan_free_found size ds _ c (Z.to_nat ((Z.of_nat i - c) mod size))); try done; [lia|].
  rewrite Z2Nat.id, Z.add_mod_idemp_r by lia.
  replace (c + (Z.of_nat i - c)) with (Z.of_nat i) by lia. rewrite Z.mod_small by lia. by rewrite Nat2Z.id.
Qed.

(** ** Updates of the descriptor table at distinct slots *)

Definition slots_ok (size : Z) (slots : list Z) : Prop := NoDup slots /\ Forall (fun x => 0 <= x < size) slots.

(** [ds'] is [ds] with the entry at the [j]-th slot set to [f j]. *)
Record patched (ds ds' : Owners) (slots : list Z) (f : nat -> option DescriptorOwner) : Prop := {
  pa_length : length ds' = length ds;
  pa_in : forall j x, slots !! j = Some x -> ds' !! Z.to_nat x = Some (f j);
  pa_out : forall i, Z.of_nat i ∉ slots -> ds' !! i = ds !! i;
}.

Lemma patched_nil ds f : patched ds ds [] f.
Proof. by split. Qed.

Lemma patched_cons ds ds' x slots f o :
  0 <= x -> (Z.to_nat x < length ds)%nat -> (x ∉ slots) -> f 0%nat = o ->
  patched (<[Z.to_nat x := o]> ds) ds' slots (fun j => f (Datatypes.S j)) ->
  patched ds ds' (x :: slots) f.
Proof.
  intros Hx Hl Hn Hf [P1 P2 P3]. split.
  - by rewrite P1, length_insert.
  - intros [|j] y Hy; simpl in Hy; simplify_eq; [|by apply P2].
    rewrite P3, list_lookup_insert_eq by (rewrite ?Z2Nat.id; done). done.
  - intros i Hi. apply not_elem_of_cons in Hi as [Hi1 Hi2]. rewrite P3, list_lookup_insert_ne by (done || lia). done.
Qed.

(** The slots of one patch are pairwise different indices. *)
Lemma slots_ok_cons size x slots :
  slots_ok size (x :: slots) <-> 0 <= x < size /\ (x ∉ slots) /\ slots_ok size slots.
Proof. unfold slots_ok. rewrite NoDup_cons, Forall_cons. tauto. Qed.

Lemma free_count_insert ds i o o' :
  ds !! i = Some o -> free_count (<[i := o']> ds) = free_count ds - owner_free o + owner_free o'.
Proof. apply sum_by_insert. Qed.

Definition new_owner (j : nat) : option DescriptorOwner :=
  Some {| do_head := 0; do_local := Z.of_nat j mod 65536 |}.

Lemma allocate_loop_spec size remaining : size_ok size ->
  forall allocated ds slots cursor,
  zlen ds = size -> 0 <= cursor < size -> Z.of_nat remaining <= free_count ds ->
  (allocated + remaining <= length slots)%nat ->
  exists ds' fresh cursor',
    allocate_loop remaining allocated size ds slots cursor =
      inl (ds', take allocated slots ++ fresh ++ drop (allocated + remaining) slots, cursor') /\
    length fresh = remaining /\ slots_ok size fresh /\
    Forall (fun x => ds !! Z.to_nat x = Some None) fresh /\
    patched ds ds' fresh (fun j => new_owner (allocated + j)) /\
    free_count ds' = free_count ds - Z.of_nat remaining /\ 0 <= cursor' < size.
Proof.
  intros Hs. pose proof (size_ok_bounds _ Hs) as Hsb.
  induction remaining as [|remaining IH]; intros allocated ds slots cursor Hlen Hc Hf Hl.
  { exists ds, [], cursor. simpl. rewrite Nat.add_0_r, take_drop.
    split_and!; try done; try lia. split; constructor. }
  destruct (scan_found size ds cursor) as (c & Hsc & Hcr & Hdc); try done; [lia|].
  simpl. rewrite Hsc. fold (new_owner allocated).
  assert (Hcl : (Z.to_nat c < length ds)%nat) by (unfold zlen in Hlen; lia).
  destruct (IH (Datatypes.S allocated) (<[Z.to_nat c := new_owner allocated]> ds) (<[allocated := c]> slots)
    (wrapping_descriptor_add size c 1)) as (ds' & fresh & c' & He & Hn & Hok & Hfr & Hp & Hfc & Hc').
  - unfold zlen in *. by rewrite length_insert.
  - rewrite wrapping_descriptor_add_mod by done. apply Z.mod_pos_bound. lia.
  - rewrite (free_count_insert _ _ _ _ Hdc). simpl. lia.
  - rewrite length_insert. lia.
  - assert (Hnin : c ∉ fresh).
    { intros Hin. rewrite Forall_forall in Hfr. specialize (Hfr c Hin).
      by rewrite list_lookup_insert_eq in Hfr. }
    exists ds', (c :: fresh), c'. split_and!; try done.
    + rewrite He. do 3 f_equal. rewrite drop_insert_lt by lia.
      rewrite (take_S_r _ _ c) by (apply list_lookup_insert_eq; lia).
      rewrite take_insert_ge by lia. rewrite <-app_assoc. by rewrite Nat.add_succ_r.
    + simpl. by rewrite Hn.
    + by apply slots_ok_cons.
    + constructor; [done|]. rewrite Forall_forall in *. intros x Hx. pose proof (Hfr x Hx) as Hy.
      rewrite list_lookup_insert_ne in Hy; [done|]. destruct Hok as [_ Hr]. rewrite Forall_forall in Hr.
      specialize (Hr x Hx). intros Heq. assert (c = x) as -> by lia. done.
    + apply (patched_cons _ _ _ _ _ (new_owner allocated)); try done; [lia|by rewrite Nat.add_0_r|].
      split; [apply Hp| |apply Hp]. intros j x Hx. rewrite (pa_in _ _ _ _ Hp j x Hx). do 2 f_equal. lia.
    + rewrite Hfc, (free_count_insert _ _ _ _ Hdc). simpl. lia.
    + lia.
    + lia.
Qed.

(** The pass over the slots that sets the heads. *)
Lemma set_heads_spec size head slots : forall ds f,
  slots_ok size slots -> zlen ds = size ->
  (forall j x, slots !! j = Some x -> exists o, ds !! Z.to_nat x = Some (Some o) /\ do_local o = f j) ->
  exists ds', set_heads head slots ds = (ds', true) /\
    patched ds ds' slots (fun j => Some {| do_head := head; do_local := f j |}) /\
    free_count ds' = free_count ds.
Proof.
  induction slots as [|x slots IH]; intros ds f Hok Hlen Ho.
  { exists ds. split_and!; [done|apply patched_nil|done]. }
  apply slots_ok_cons in Hok as (Hx & Hn & Hok).
  destruct (Ho 0%nat x eq_refl) as (o & Hdo & Hlo). simpl. rewrite Hdo.
  set (o' := Some {| do_head := head; do_local := do_local o |}).
  destruct (IH (<[Z.to_nat x := o']> ds) (fun j => f (Datatypes.S j)) Hok) as (ds' & He & Hp & Hfc).
  - unfold zlen in *. by rewrite length_insert.
  - intros j y Hy. destruct (Ho (Datatypes.S j) y Hy) as (oy & Hy1 & Hy2). exists oy. split; [|done].
    rewrite list_lookup_insert_ne; [done|]. intros E. destruct Hok as [_ Hr]. rewrite Forall_lookup in Hr.
    specialize (Hr j y Hy). assert (x = y) as -> by lia. apply Hn. by eapply list_elem_of_lookup_2.
  - exists ds'. split; [done|]. split.
    + apply (patched_cons _ _ _ _ _ o'); try done; [lia|unfold zlen in Hlen; lia|]. unfold o'. by rewrite Hlo.
    + rewrite Hfc, (free_count_insert _ _ _ _ Hdo). simpl. lia.
Qed.

Lemma release_slots_spec size slots : forall ds free,
  slots_ok size slots -> zlen ds = size ->
  Forall (fun x => exists o, ds !! Z.to_nat x = Some (Some o)) slots ->
  exists ds', release_slots slots ds free = (ds', free + zlen slots) /\
    patched ds ds' slots (fun _ => None) /\ free_count ds' = free_count ds + zlen slots.
Proof.
  induction slots as [|x slots IH]; intros ds free Hok Hlen Ho.
  { exists ds. change (zlen (@nil Z)) with 0. rewrite !Z.add_0_r. split_and!; [done|apply patched_nil|done]. }
  apply slots_ok_cons in Hok as (Hx & Hn & Hok). apply Forall_cons in Ho as [(o & Hdo) Ho].
  simpl. rewrite Hdo.
  destruct (IH (<[Z.to_nat x := None]> ds) (free + 1) Hok) as (ds' & He & Hp & Hfc).
  - unfold zlen in *. by rewrite length_insert.
  - rewrite Forall_forall in *. intros y Hy. destruct (Ho y Hy) as [oy Hoy]. exists oy.
    rewrite list_lookup_insert_ne; [done|]. intros E. destruct Hok as [_ Hr]. rewrite Forall_forall in Hr.
    specialize (Hr y Hy). assert (x = y) as -> by lia. done.
  - assert (Hz : zlen (x :: slots) = 1 + zlen slots) by (unfold zlen; simpl; lia).
    exists ds'. rewrite He, Hz. split; [f_equal; lia|]. split.
    + apply (patched_cons _ _ _ _ _ None); try done; [lia|unfold zlen in Hlen; lia].
    + rewrite Hfc, (free_count_insert _ _ _ _ Hdo). simpl. lia.
Qed.

(** * The split queue as an abstract queue

    An abstract queue has the chains it owns, by token, the tokens that wait
    for the device in order, and the completed tokens with their used lengths
    in order; the other tokens are in flight.  [ring_rel] relates ring storage
    to it, and the lemmas show that each storage operation follows the
    abstract one. *)

Record AbsQueue := {
  aq_pending : list nat;
  aq_done : list (nat * Z);
  aq_chains : gmap nat ChainData;
}.

Definition aq_empty : AbsQueue := {| aq_pending := []; aq_done := []; aq_chains := ∅ |}.

(** Descriptors used by a set of chains. *)
Definition weight (m : gmap nat ChainData) : Z :=
  map_fold (fun _ data n => zlen (cd_descriptors data) + n) 0 m.

Definition aq_status (aq : AbsQueue) (i : nat) : ChainState :=
  if decide (i ∈ aq_pending aq) then ChainAvailable
  else if decide (i ∈ (aq_done aq).*1) then ChainUsed else ChainInFlight.

Abbreviation token epoch i := {| ci_epoch := epoch; ci_token := Z.of_nat i |}.

(** ** Rings *)

(** The ring holds [l] from the counter [base] on. *)
Definition ring_holds {A} (ring : list A) (size base : Z) (l : list A) : Prop :=
  forall k x, l !! k = Some x -> ring !! Z.to_nat ((base + Z.of_nat k) mod size) = Some x.

Lemma mod_inj a b n : 0 < n -> a mod n = b mod n -> Z.abs (a - b) < n -> a = b.
Proof.
  intros Hn He Hd. pose proof (Z.div_mod a n). pose proof (Z.div_mod b n).
  assert (a - b = n * (a / n - b / n)) by lia. assert (a / n - b / n = 0) by nia. lia.
Qed.

Lemma ring_index_ne size a b :
  0 < size -> a <> b -> Z.abs (a - b) < size -> Z.to_nat (a mod size) <> Z.to_nat (b mod size).
Proof.
  intros Hs Hne Hd He. pose proof (Z.mod_pos_bound a size Hs). pose proof (Z.mod_pos_bound b size Hs).
  apply Hne, (mod_inj a b size); lia.
Qed.

Lemma ring_push {A} (ring : list A) size base l x :
  0 < size -> zlen ring = size -> zlen l < size -> ring_holds ring size base l ->
  ring_holds (<[Z.to_nat ((base + zlen l) mod size) := x]> ring) size base (l ++ [x]).
Proof.
  unfold zlen. intros Hs Hr Hl H k y Hk. pose proof (Z.mod_pos_bound (base + Z.of_nat (length l)) size Hs).
  apply lookup_app_Some in Hk as [Hk|[Hk Hx]].
  - apply lookup_lt_Some in Hk as Hlt. rewrite list_lookup_insert_ne by (apply ring_index_ne; lia). auto.
  - apply list_lookup_singleton_Some in Hx as [Hk0 ->]. replace k with (length l) by lia.
    apply list_lookup_insert_eq. lia.
Qed.

Lemma ring_pop {A} (ring : list A) size base x l :
  size_ok size -> ring_holds ring size base (x :: l) ->
  ring !! Z.to_nat (base mod size) = Some x /\ ring_holds ring size (wrapping_add U16_MAX base 1) l.
Proof.
  intros Hs H. pose proof (size_ok_bounds _ Hs). split.
  - specialize (H 0%nat x eq_refl). by rewrite Z.add_0_r in H.
  - intros k y Hk. specialize (H (Datatypes.S k) y Hk). unfold wrapping_add. simpl.
    rewrite <-Z.add_mod_idemp_l, wrap_mod, Z.add_mod_idemp_l by (done || lia).
    by replace (base + 1 + Z.of_nat k) with (base + Z.of_nat (Datatypes.S k)) by lia.
Qed.

(** A write at the base does not disturb what follows it. *)
Lemma ring_clear {A} (ring : list A) size base x l y :
  0 < size -> zlen (x :: l) <= size -> ring_holds ring size base (x :: l) ->
  forall k z, l !! k = Some z ->
  <[Z.to_nat (base mod size) := y]> ring !! Z.to_nat ((base + Z.of_nat (Datatypes.S k)) mod size) = Some z.
Proof.
  unfold zlen. simpl. intros Hs Hl H k z Hk. apply lookup_lt_Some in Hk as Hlt.
  rewrite list_lookup_insert_ne by (apply ring_index_ne; lia). by apply (H (Datatypes.S k)).
Qed.

(** ** The relation *)

(** A chain as the builder makes it: one slot per descriptor. *)
Definition chain_wf (chain : DriverChain) : Prop :=
  length (dc_slots chain) = length (cd_descriptors (dc_data chain)) /\
  1 <= zlen (cd_descriptors (dc_data chain)) <= MAX_SPLIT_QUEUE_SIZE.

(** A record at index [i]: its identity, its state and the descriptors it owns. *)
Record record_ok (epoch size : Z) (ds : Owners) (status : ChainState) (i : nat) (r : ChainRecord) : Prop := {
  ro_id : cr_id r = token epoch i;
  ro_state : cr_state r = status;
  ro_head : DriverChain_queue_head_slot (cr_chain r) = Z.of_nat i;
  ro_chain : chain_wf (cr_chain r);
  ro_slots : slots_ok size (dc_slots (cr_chain r));
  ro_owned : forall j x, dc_slots (cr_chain r) !! j = Some x ->
    ds !! Z.to_nat x = Some (Some {| do_head := Z.of_nat i; do_local := Z.of_nat j |});
}.

(** The descriptor and record tables against the chains and their states. *)
Record table_rel (epoch size : Z) (ds : Owners) (records : list (option ChainRecord)) (free : Z)
    (status : nat -> ChainState) (chains : gmap nat ChainData) : Prop := {
  tr_size : size_ok size;
  tr_descriptors_len : zlen ds = size;
  tr_records_len : zlen records = size;
  tr_chains : forall i, chains !! i = (fun r => dc_data (cr_chain r)) <$> mjoin (records !! i);
  tr_record : forall i r, records !! i = Some (Some r) -> record_ok epoch size ds (status i) i r;
  tr_owners : forall x o, ds !! x = Some (Some o) ->
    exists i r, records !! i = Some (Some r) /\ Z.of_nat x ∈ dc_slots (cr_chain r);
  tr_free : free = free_count ds;
  tr_weight : free = size - weight chains;
}.

Definition done_element (epoch : Z) (e : nat * Z) : option UsedElement :=
  Some {| ue_head := Z.of_nat e.1; ue_id := token epoch e.1; ue_used := e.2 |}.

(** One ring with its two counters and its count. *)
Record ring_ok {A} (size : Z) (ring : list A) (produced consumed count : Z) (l : list A) : Prop := {
  rg_len : zlen ring = size;
  rg_holds : ring_holds ring size consumed l;
  rg_consumed : is_u16 consumed;
  rg_produced : produced = (consumed + zlen l) mod 65536;
  rg_count : count = zlen l;
}.

(** The tokens of an abstract queue are distinct and stand for its chains. *)
Definition tokens_ok (aq : AbsQueue) : Prop :=
  NoDup (aq_pending aq ++ (aq_done aq).*1) /\
  Forall (fun i => is_Some (aq_chains aq !! i)) (aq_pending aq ++ (aq_done aq).*1).

Record ring_rel (epoch : Z) (s : RingStorage) (aq : AbsQueue) : Prop := {
  rr_table : table_rel epoch (rs_size s) (rs_descriptors s) (rs_records s) (rs_free_descriptors s)
               (aq_status aq) (aq_chains aq);
  rr_tokens : tokens_ok aq;
  rr_available : ring_ok (rs_size s) (rs_available s) (rs_available_index s) (rs_consumed_available s)
                   (rs_available_count s) (Z.of_nat <$> aq_pending aq);
  rr_used : ring_ok (rs_size s) (rs_used s) (rs_used_index s) (rs_consumed_used s) (rs_used_count s)
              (done_element epoch <$> aq_done aq);
  rr_active : rs_active_chains s = Z.of_nat (size (aq_chains aq));
  rr_next : 0 <= rs_next_descriptor s < rs_size s;
}.

Lemma ring_ok_push {A} size (ring : list A) produced consumed count l x :
  size_ok size -> ring_ok size ring produced consumed count l -> zlen l < size ->
  ring_ok size (<[Z.to_nat (produced mod size) := x]> ring) (wrapping_add U16_MAX produced 1) consumed
    (count + 1) (l ++ [x]).
Proof.
  intros Hs [H1 H2 H3 H4 H5] Hl. pose proof (size_ok_bounds _ Hs). unfold wrapping_add. simpl.
  assert (Hz : zlen (l ++ [x]) = zlen l + 1) by (rewrite zlen_app; done).
  split; [unfold zlen; by rewrite length_insert| |done| |lia].
  - rewrite H4, wrap_mod by done. apply ring_push; done || lia.
  - rewrite H4, Hz, Z.add_mod_idemp_l by lia. f_equal. lia.
Qed.

Lemma ring_ok_pop {A} size (ring : list A) produced consumed count x l :
  size_ok size -> ring_ok size ring produced consumed count (x :: l) ->
  ring !! Z.to_nat (consumed mod size) = Some x /\ count <> 0 /\
  ring_ok size ring produced (wrapping_add U16_MAX consumed 1) (count - 1) l.
Proof.
  intros Hs [H1 H2 H3 H4 H5]. destruct (ring_pop _ _ _ _ _ Hs H2) as [Hx Hl].
  assert (Hz : zlen (x :: l) = zlen l + 1) by (unfold zlen; simpl; lia). pose proof (zlen_nonneg l).
  split_and!; [done|lia|]. split; [done|done| |rewrite H4, Hz; unfold wrapping_add; simpl|lia].
  - unfold wrapping_add. simpl. pose proof (Z.mod_pos_bound (consumed + 1) 65536 ltac:(lia)). change (65535 + 1) with 65536. lia.
  - change (65535 + 1) with 65536. rewrite Z.add_mod_idemp_l by lia. f_equal. lia.
Qed.

(** Clearing the slot just consumed. *)
Lemma ring_ok_clear {A} size (ring : list A) produced consumed count x l y :
  size_ok size -> zlen (x :: l) <= size -> ring_ok size ring produced consumed count (x :: l) ->
  ring_ok size (<[Z.to_nat (consumed mod size) := y]> ring) produced (wrapping_add U16_MAX consumed 1) (count - 1) l.
Proof.
  intros Hs Hl H. destruct (ring_ok_pop _ _ _ _ _ _ _ Hs H) as (_ & _ & [P1 P2 P3 P4 P5]).
  pose proof (size_ok_bounds _ Hs). split; try done; [unfold zlen; by rewrite length_insert|].
  intros k z Hk. unfold wrapping_add. simpl.
  rewrite <-Z.add_mod_idemp_l, wrap_mod, Z.add_mod_idemp_l by (done || lia).
  replace (consumed + 1 + Z.of_nat k) with (consumed + Z.of_nat (Datatypes.S k)) by lia.
  apply (ring_clear ring size consumed x l); [lia|done|apply (rg_holds _ _ _ _ _ _ H)|done].
Qed.

(** ** Consequences *)

Section table.
  Context {epoch size : Z} {ds : Owners} {records : list (option ChainRecord)} {free : Z}.
  Context {status : nat -> ChainState} {chains : gmap nat ChainData}.
  Context (T : table_rel epoch size ds records free status chains).

Lemma table_lookup i data :
  chains !! i = Some data -> exists r, records !! i = Some (Some r) /\ dc_data (cr_chain r) = data.
Proof.
  intros H. rewrite (tr_chains _ _ _ _ _ _ _ T) in H. apply fmap_Some in H as (r & Hr & ->).
  destruct (records !! i) as [[r'|]|]; simpl in Hr; [|done..]. exists r'. by simplify_eq/=.
Qed.

Lemma table_bound i : is_Some (chains !! i) -> Z.of_nat i < size.
Proof.
  intros [data H]. destruct (table_lookup _ _ H) as (r & Hr & _). apply lookup_lt_Some in Hr.
  pose proof (tr_records_len _ _ _ _ _ _ _ T). unfold zlen in *. lia.
Qed.

(** Distinct tokens are at most as many as the size. *)
Lemma table_tokens_bound l : NoDup l -> Forall (fun i => is_Some (chains !! i)) l -> zlen l <= size.
Proof.
  intros Hnd HF. pose proof (size_ok_bounds _ (tr_size _ _ _ _ _ _ _ T)). unfold zlen.
  rewrite <-(Z2Nat.id size), <-(length_seq (Z.to_nat size) 0) by lia.
  apply Nat2Z.inj_le, submseteq_length, NoDup_submseteq; [done|]. intros i Hi.
  rewrite Forall_forall in HF. pose proof (table_bound i (HF i Hi)). apply elem_of_seq. lia.
Qed.

End table.

Lemma weight_insert m i data :
  m !! i = None -> weight (<[i := data]> m) = zlen (cd_descriptors data) + weight m.
Proof. intros H. unfold weight. rewrite map_fold_insert_L; [done| |done]. intros. lia. Qed.

Lemma weight_delete m i data :
  m !! i = Some data -> weight (delete i m) = weight m - zlen (cd_descriptors data).
Proof.
  intros H. rewrite <-(insert_delete_id m i data H) at 2. rewrite weight_insert by apply lookup_delete_eq. lia.
Qed.

Lemma head_slot_elem chain : chain_wf chain -> DriverChain_queue_head_slot chain ∈ dc_slots chain.
Proof.
  intros [Hl Hn]. unfold DriverChain_queue_head_slot. destruct (dc_slots chain !! _) eqn:E.
  - by eapply list_elem_of_lookup_2.
  - unfold zlen in Hn. destruct (dc_slots chain) as [|x l]; [simpl in Hl; lia|]. simpl. constructor.
Qed.

(** ** Publication *)

Lemma descriptor_count_wf chain :
  chain_wf chain -> DriverChain_descriptor_count chain = zlen (cd_descriptors (dc_data chain)) /\
    zlen (dc_slots chain) = zlen (cd_descriptors (dc_data chain)).
Proof.
  intros [Hl Hn]. unfold MAX_SPLIT_QUEUE_SIZE in Hn. unfold DriverChain_descriptor_count.
  rewrite Z.mod_small by lia. unfold zlen. by rewrite Hl.
Qed.

Lemma patched_trans ds ds1 ds2 slots f g :
  patched ds ds1 slots f -> patched ds1 ds2 slots g -> patched ds ds2 slots g.
Proof.
  intros [A1 A2 A3] [B1 B2 B3]. split; [by rewrite B1|done|]. intros i Hi. by rewrite B3, A3.
Qed.

(** Allocation takes free slots only and gives the head slot of the chain. *)
Lemma allocate_spec epoch s aq chain :
  ring_rel epoch s aq -> chain_wf chain -> DriverChain_descriptor_count chain <= rs_free_descriptors s ->
  exists ds slots cursor i,
    let chain' := chain_with_slots slots chain in
    allocate_descriptors s chain =
      (rs_set_free (rs_free_descriptors s - DriverChain_descriptor_count chain) cursor (rs_set_descriptors ds s),
       chain', Ok (Z.of_nat i)) /\
    chain_wf chain' /\ slots_ok (rs_size s) slots /\ 0 <= cursor < rs_size s /\
    DriverChain_queue_head_slot chain' = Z.of_nat i /\
    Forall (fun x => rs_descriptors s !! Z.to_nat x = Some None) slots /\
    patched (rs_descriptors s) ds slots (fun j => Some {| do_head := Z.of_nat i; do_local := Z.of_nat j |}) /\
    free_count ds = free_count (rs_descriptors s) - DriverChain_descriptor_count chain.
Proof.
  intros R Hwf Hcount. pose proof (rr_table _ _ _ R) as T. destruct (descriptor_count_wf _ Hwf) as [Hc Hsl]. pose proof Hwf as [Hl Hn].
  unfold MAX_SPLIT_QUEUE_SIZE in Hn. set (n := length (dc_slots chain)).
  assert (Hcn : DriverChain_descriptor_count chain = Z.of_nat n) by (rewrite Hc, <-Hsl; done).
  destruct (allocate_loop_spec (rs_size s) n (tr_size _ _ _ _ _ _ _ T) 0 (rs_descriptors s) (dc_slots chain)
    (rs_next_descriptor s)) as (ds1 & fresh & cursor & He & Hfn & Hok & Hfree & Hp1 & Hfc1 & Hcur).
  { apply (tr_descriptors_len _ _ _ _ _ _ _ T). } { apply (rr_next _ _ _ R). }
  { rewrite <-(tr_free _ _ _ _ _ _ _ T). lia. } { done. }
  rewrite Nat.add_0_l, drop_ge, app_nil_r in He by done. simpl in He.
  set (chain' := chain_with_slots fresh chain).
  assert (Hwf' : chain_wf chain') by (split; [simpl; by rewrite Hfn|done]).
  pose proof (head_slot_elem _ Hwf') as Hin. pose proof Hok as [_ Hr]. rewrite Forall_forall in Hr.
  pose proof (Hr _ Hin) as Hrange. set (i := Z.to_nat (DriverChain_queue_head_slot chain')).
  destruct (set_heads_spec (rs_size s) (Z.of_nat i) fresh ds1 (fun j => Z.of_nat j mod 65536) Hok)
    as (ds2 & He2 & Hp2 & Hfc2).
  { pose proof (tr_descriptors_len _ _ _ _ _ _ _ T). unfold zlen in *. by rewrite (pa_length _ _ _ _ Hp1). }
  { intros j x Hx. rewrite (pa_in _ _ _ _ Hp1 j x Hx). unfold new_owner. simpl. eauto. }
  exists ds2, fresh, cursor, i. cbv zeta. fold chain'.
  assert (Hi : Z.of_nat i = DriverChain_queue_head_slot chain') by (unfold i; lia).
  split_and!; try done; try lia.
  - unfold allocate_descriptors. rewrite (proj2 (Z.ltb_ge _ _)), Hcn, Nat2Z.id, He by lia.
    fold chain'. by rewrite <-Hi, He2.
  - split; [apply (patched_trans _ _ _ _ _ _ Hp1 Hp2)| |apply (patched_trans _ _ _ _ _ _ Hp1 Hp2)].
    intros j x Hx. rewrite (pa_in _ _ _ _ Hp2 j x Hx), Z.mod_small; [done|].
    apply lookup_lt_Some in Hx. unfold zlen in Hn. lia.
Qed.

(** ** The tables under publication, a change of state, and removal *)

Section table_ops.
  Context {epoch size : Z} {ds : Owners} {records : list (option ChainRecord)} {free : Z}.
  Context {status : nat -> ChainState} {chains : gmap nat ChainData}.
  Context (T : table_rel epoch size ds records free status chains).

(** A token in use has its own descriptor slot taken. *)
Lemma table_token_owned i r : records !! i = Some (Some r) -> exists o, ds !! i = Some (Some o).
Proof.
  intros Hr. destruct (tr_record _ _ _ _ _ _ _ T i r Hr) as [_ _ Hh Hc _ Ho].
  pose proof (head_slot_elem _ Hc) as He. rewrite Hh in He. apply list_elem_of_lookup_1 in He as [j Hj].
  specialize (Ho j _ Hj). rewrite Nat2Z.id in Ho. eauto.
Qed.

(** Two records share no slot. *)
Lemma table_slots_disjoint i j r r' x :
  records !! i = Some (Some r) -> records !! j = Some (Some r') ->
  x ∈ dc_slots (cr_chain r) -> x ∈ dc_slots (cr_chain r') -> i = j.
Proof.
  intros Hr Hr' Hx Hx'. apply list_elem_of_lookup_1 in Hx as [k Hk], Hx' as [k' Hk'].
  pose proof (ro_owned _ _ _ _ _ _ (tr_record _ _ _ _ _ _ _ T i r Hr) k x Hk).
  pose proof (ro_owned _ _ _ _ _ _ (tr_record _ _ _ _ _ _ _ T j r' Hr') k' x Hk').
  simplify_eq. lia.
Qed.

Lemma table_unused i slots :
  Forall (fun x => ds !! Z.to_nat x = Some None) slots -> Z.of_nat i ∈ slots -> Z.of_nat i < size ->
  records !! i = Some None /\ chains !! i = None.
Proof.
  intros Hfree Hin Hil. assert (Hri : records !! i = Some None).
  { destruct (lookup_lt_is_Some_2 records i) as [[r|] Hr]; [|exfalso|done].
    { pose proof (tr_records_len _ _ _ _ _ _ _ T). unfold zlen in *. lia. }
    destruct (table_token_owned _ _ Hr) as [o Ho]. rewrite Forall_forall in Hfree.
    specialize (Hfree _ Hin). rewrite Nat2Z.id in Hfree. congruence. }
  split; [done|]. rewrite (tr_chains _ _ _ _ _ _ _ T), Hri. done.
Qed.

(** A record keeps its owned slots when a patch avoids them. *)
Lemma record_patched ds' slots f i r st :
  patched ds ds' slots f -> records !! i = Some (Some r) -> (forall x, x ∈ slots -> x ∉ dc_slots (cr_chain r)) ->
  status i = st -> record_ok epoch size ds' st i r.
Proof.
  intros Hp Hr Hdis <-. destruct (tr_record _ _ _ _ _ _ _ T i r Hr) as [E1 E2 E3 E4 E5 E6]. split; try done.
  intros k x Hx. rewrite (pa_out _ _ _ _ Hp); [by apply E6|].
  destruct E5 as [_ Hr5]. rewrite Forall_lookup in Hr5. pose proof (Hr5 k x Hx). rewrite Z2Nat.id by lia.
  intros Hxs. apply (Hdis x Hxs). by eapply list_elem_of_lookup_2.
Qed.

Lemma table_chains_insert i o :
  (i < length records)%nat ->
  forall j, (fun r => dc_data (cr_chain r)) <$> mjoin (<[i := o]> records !! j) =
    if decide (i = j) then (fun r => dc_data (cr_chain r)) <$> o else chains !! j.
Proof.
  intros Hi j. destruct (decide (i = j)) as [<-|Hj].
  - by rewrite list_lookup_insert_eq.
  - rewrite list_lookup_insert_ne by done. symmetry. apply (tr_chains _ _ _ _ _ _ _ T).
Qed.

Lemma table_publish ds' slots i r status' :
  Forall (fun x => ds !! Z.to_nat x = Some None) slots -> slots_ok size slots ->
  patched ds ds' slots (fun j => Some {| do_head := Z.of_nat i; do_local := Z.of_nat j |}) ->
  free_count ds' = free_count ds - zlen slots -> chain_wf (cr_chain r) -> dc_slots (cr_chain r) = slots ->
  DriverChain_queue_head_slot (cr_chain r) = Z.of_nat i -> cr_id r = token epoch i ->
  cr_state r = status' i -> (forall j, i <> j -> status' j = status j) ->
  table_rel epoch size ds' (<[i := Some r]> records) (free - zlen slots) status'
    (<[i := dc_data (cr_chain r)]> chains).
Proof.
  intros Hfree Hok Hp Hfc Hwf Hsl Hhead Hid Hst Hst'.
  assert (Hin : Z.of_nat i ∈ slots) by (rewrite <-Hhead, <-Hsl; by apply head_slot_elem).
  assert (Hil : Z.of_nat i < size) by (destruct Hok as [_ Hr]; rewrite Forall_forall in Hr; apply (Hr _ Hin)).
  destruct (table_unused i slots Hfree Hin Hil) as [Hri Hci].
  assert (Hl : (i < length records)%nat) by by eapply lookup_lt_Some.
  destruct (descriptor_count_wf _ Hwf) as [_ Hcnt]. rewrite Hsl in Hcnt.
  split; try apply T.
  - unfold zlen. rewrite (pa_length _ _ _ _ Hp). apply T.
  - unfold zlen. rewrite length_insert. apply T.
  - intros j. rewrite (table_chains_insert i _ Hl). destruct (decide (i = j)) as [<-|];
      [by rewrite lookup_insert_eq|by rewrite lookup_insert_ne].
  - intros j r'. destruct (decide (i = j)) as [<-|Hj].
    + rewrite list_lookup_insert_eq by done. intros [= <-]. rewrite <-Hsl in *. split; try done. apply Hp.
    + rewrite list_lookup_insert_ne by done. intros Hr. apply (record_patched ds' slots _ _ _ _ Hp Hr); [|by rewrite Hst'].
      intros x Hx Hx'. apply list_elem_of_lookup_1 in Hx' as [k Hk]. rewrite Forall_forall in Hfree.
      pose proof (ro_owned _ _ _ _ _ _ (tr_record _ _ _ _ _ _ _ T j r' Hr) k x Hk). rewrite (Hfree x Hx) in *. done.
  - intros x o Ho. destruct (decide (Z.of_nat x ∈ slots)) as [Hx|Hx].
    + exists i, r. rewrite Hsl. split; [by apply list_lookup_insert_eq|done].
    + rewrite (pa_out _ _ _ _ Hp x Hx) in Ho. destruct (tr_owners _ _ _ _ _ _ _ T x o Ho) as (j & r' & Hr' & Hx').
      exists j, r'. split; [|done]. rewrite list_lookup_insert_ne; [done|]. congruence.
  - rewrite Hfc, (tr_free _ _ _ _ _ _ _ T). done.
  - rewrite weight_insert, (tr_weight _ _ _ _ _ _ _ T), Hcnt by done. lia.
Qed.

Lemma table_state i r status' :
  records !! i = Some (Some r) -> (forall j, i <> j -> status' j = status j) ->
  table_rel epoch size ds
    (<[i := Some {| cr_id := cr_id r; cr_state := status' i; cr_chain := cr_chain r |}]> records) free status' chains.
Proof.
  intros Hr Hst. assert (Hl : (i < length records)%nat) by by eapply lookup_lt_Some.
  split; try apply T.
  - unfold zlen. rewrite length_insert. apply T.
  - intros j. rewrite (table_chains_insert i _ Hl). case_decide as E; [|done]. subst j. simpl.
    by rewrite (tr_chains _ _ _ _ _ _ _ T), Hr.
  - intros j r'. destruct (decide (i = j)) as [<-|Hj].
    + rewrite list_lookup_insert_eq by done. intros [= <-]. by destruct (tr_record _ _ _ _ _ _ _ T i r Hr).
    + rewrite list_lookup_insert_ne by done. intros Hr'. rewrite Hst by done. by apply T.
  - intros x o Ho. destruct (tr_owners _ _ _ _ _ _ _ T x o Ho) as (j & r' & Hr' & Hx').
    destruct (decide (i = j)) as [<-|Hj].
    + eexists i, _. split; [by apply list_lookup_insert_eq|]. by simplify_eq.
    + exists j, r'. by rewrite list_lookup_insert_ne.
Qed.

Lemma table_remove ds' i r status' :
  records !! i = Some (Some r) -> patched ds ds' (dc_slots (cr_chain r)) (fun _ => None) ->
  free_count ds' = free_count ds + zlen (dc_slots (cr_chain r)) -> (forall j, i <> j -> status' j = status j) ->
  table_rel epoch size ds' (<[i := None]> records) (free + zlen (dc_slots (cr_chain r))) status' (delete i chains).
Proof.
  intros Hr Hp Hfc Hst. assert (Hl : (i < length records)%nat) by by eapply lookup_lt_Some.
  destruct (tr_record _ _ _ _ _ _ _ T i r Hr) as [_ _ _ Hwf Hok _]. destruct (descriptor_count_wf _ Hwf) as [_ Hcnt].
  assert (Hci : chains !! i = Some (dc_data (cr_chain r))) by (rewrite (tr_chains _ _ _ _ _ _ _ T), Hr; done).
  split; try apply T.
  - unfold zlen. rewrite (pa_length _ _ _ _ Hp). apply T.
  - unfold zlen. rewrite length_insert. apply T.
  - intros j. rewrite (table_chains_insert i _ Hl). destruct (decide (i = j)) as [<-|];
      [by rewrite lookup_delete_eq|by rewrite lookup_delete_ne].
  - intros j r'. destruct (decide (i = j)) as [<-|Hj]; [by rewrite list_lookup_insert_eq|].
    rewrite list_lookup_insert_ne by done. intros Hr'.
    apply (record_patched ds' _ _ _ _ _ Hp Hr'); [|by rewrite Hst]. intros x Hx Hx'.
    by apply Hj, (table_slots_disjoint i j r r' x).
  - intros x o Ho. destruct (decide (Z.of_nat x ∈ dc_slots (cr_chain r))) as [Hx|Hx].
    + apply list_elem_of_lookup_1 in Hx as [k Hk]. rewrite <-(Nat2Z.id x), (pa_in _ _ _ _ Hp k _ Hk) in Ho. done.
    + rewrite (pa_out _ _ _ _ Hp x Hx) in Ho. destruct (tr_owners _ _ _ _ _ _ _ T x o Ho) as (j & r' & Hr' & Hx').
      exists j, r'. split; [|done]. rewrite list_lookup_insert_ne; [done|]. congruence.
  - rewrite Hfc, (tr_free _ _ _ _ _ _ _ T). done.
  - rewrite (weight_delete _ _ _ Hci), (tr_weight _ _ _ _ _ _ _ T), Hcnt. lia.
Qed.

End table_ops.
