(* ===== verification/QueueSpec.v ===== *)
(** * The split queue refines a FIFO queue with exact flow control

    [QueueSpec] is the abstract queue with its configuration, [spec_step] says
    what each operation does to it and answers, errors included.  Capacity is
    stated without the ring: a chain fits when the descriptors of the chains
    in the queue leave room for its own.  [queue_run] is the dispatcher over
    the operations of [SplitQueue]. *)

From Stdlib Require Import ZArith Lia.
From stdpp Require Import prelude list gmap.
From S2P Require Import Prelude Transport Chain SplitQueue QueueInv.

(** ** Operations and what they answer *)

Inductive QueueOp :=
  | OpPublish (inject : bool) (chain : DriverChain)
  | OpPopAvailable
  | OpComplete (chain : SplitDeviceChain) (used : Z)
  | OpPopUsed
  | OpConfigure (mem : RingMemory) (size : Z)
  | OpSetReady (ready : bool)
  | OpDisableUsed
  | OpEnableUsed
  | OpDisableAvailable
  | OpEnableAvailable
  | OpDriverReset (epoch : Z)
  | OpDeviceReset (epoch : Z)
  | OpSetRingIndex (index : Z)
  | OpSetNextDescriptor (index : Z).

(** A chain leaves the queue with the slots the queue gave it; what matters to
    its owner is its data. *)
Inductive QueueEvent :=
  | EvPublished (r : PublishedChain)
  | EvRefused (data : ChainData) (kind : PublishErrorKind SplitQueueError)
  | EvChain (chain : option SplitDeviceChain)
  | EvHint (hint : NotificationHint)
  | EvUsed (chain : option (ChainId * Z * ChainData))
  | EvRecheck (recheck : NotificationRecheck)
  | EvReclaimed (chains : list (ChainId * ChainData))
  | EvDone
  | EvError (e : QueueError SplitQueueError).

Definition ev {A} (f : A -> QueueEvent) (qr : SplitQueue * result A (QueueError SplitQueueError)) :
    SplitQueue * QueueEvent :=
  (qr.1, match qr.2 with Ok a => f a | Err e => EvError e end).

Definition queue_run (op : QueueOp) (q : SplitQueue) : SplitQueue * QueueEvent :=
  match op with
  | OpPublish inject chain =>
      let '(q, r) := (if inject then inject_available else publish) chain q in
      (q, match r with
          | Ok p => EvPublished p
          | Err e => EvRefused (dc_data (pe_chain e)) (pe_kind e)
          end)
  | OpPopAvailable => ev EvChain (pop_available q)
  | OpComplete chain used => ev EvHint (complete chain used q)
  | OpPopUsed =>
      ev (fun o => EvUsed ((fun u => (uc_id u, uc_used u, dc_data (uc_chain u))) <$> o)) (pop_used q)
  | OpConfigure mem size => ev (fun _ => EvDone) (configure mem size q)
  | OpSetReady ready => ev (fun _ => EvDone) (set_ready ready q)
  | OpDisableUsed => ev (fun _ => EvDone) (disable_used_notifications q)
  | OpEnableUsed => ev EvRecheck (enable_used_notifications q)
  | OpDisableAvailable => ev (fun _ => EvDone) (disable_available_notifications q)
  | OpEnableAvailable => ev EvRecheck (enable_available_notifications q)
  | OpDriverReset epoch =>
      ev (fun l => EvReclaimed ((fun c => (rc_id c, dc_data (rc_chain c))) <$> l)) (driver_reset epoch q)
  | OpDeviceReset epoch => ev (fun _ => EvDone) (device_reset epoch q)
  | OpSetRingIndex index => ev (fun _ => EvDone) (set_empty_ring_index index q)
  | OpSetNextDescriptor index => ev (fun _ => EvDone) (set_next_descriptor index q)
  end.

(** The arguments have their types: chains come from the builder, sizes and
    epochs from their constructors. *)
Definition op_typed (op : QueueOp) : Prop :=
  match op with
  | OpPublish _ chain => chain_wf chain
  | OpComplete chain used => 0 <= ci_token (sdc_id chain) /\ 0 <= used
  | OpConfigure _ size => size_ok size
  | OpDriverReset epoch | OpDeviceReset epoch => 0 < epoch
  | OpSetRingIndex index | OpSetNextDescriptor index => is_u16 index
  | _ => True
  end.

(** ** The specification *)

Record QueueSpec := {
  qp_state : QueueState;
  qp_limit : Z;
  qp_notify_available : bool;
  qp_notify_used : bool;
  qp_queue : AbsQueue;
}.

Abbreviation qp_epoch p := (qs_epoch (qp_state p)).
Abbreviation qp_ready p := (qs_ready (qp_state p)).
Definition qp_size (p : QueueSpec) : Z := default 0 (qs_size (qp_state p)).

Definition qp_with (aq : AbsQueue) (p : QueueSpec) : QueueSpec :=
  {| qp_state := qp_state p; qp_limit := qp_limit p; qp_notify_available := qp_notify_available p;
     qp_notify_used := qp_notify_used p; qp_queue := aq |}.

Definition qp_with_state (state : QueueState) (p : QueueSpec) : QueueSpec :=
  {| qp_state := state; qp_limit := qp_limit p; qp_notify_available := qp_notify_available p;
     qp_notify_used := qp_notify_used p; qp_queue := qp_queue p |}.

Definition qp_with_notify (available used : bool) (p : QueueSpec) : QueueSpec :=
  {| qp_state := qp_state p; qp_limit := qp_limit p; qp_notify_available := available;
     qp_notify_used := used; qp_queue := qp_queue p |}.

Definition qp_reset (epoch : Z) (p : QueueSpec) : QueueSpec :=
  {| qp_state := QueueState_unconfigured (qs_max_size (qp_state p)) epoch; qp_limit := qp_limit p;
     qp_notify_available := true; qp_notify_used := true; qp_queue := aq_empty |}.

Definition aq_publish (i : nat) (data : ChainData) (aq : AbsQueue) : AbsQueue :=
  {| aq_pending := aq_pending aq ++ [i]; aq_done := aq_done aq; aq_chains := <[i := data]> (aq_chains aq) |}.

Definition aq_finish (i : nat) (used : Z) (aq : AbsQueue) : AbsQueue :=
  {| aq_pending := aq_pending aq; aq_done := aq_done aq ++ [(i, used)]; aq_chains := aq_chains aq |}.

(** Why a publication is refused. *)
Definition publish_refusal (p : QueueSpec) (inject : bool) (chain : DriverChain) :
    option (PublishErrorKind SplitQueueError) :=
  let count := zlen (cd_descriptors (dc_data chain)) in
  let aq := qp_queue p in
  if negb (qp_ready p) then Some PublishNotReady
  else
    match (if inject then Ok tt else
             match DriverChain_validation chain with
             | Err e => Err (PublishTransport (SqMalformedDriverChain e))
             | Ok _ => if qp_limit p <? count then Err PublishInsufficientDescriptors else Ok tt
             end) with
    | Err kind => Some kind
    | Ok _ =>
        if zlen (aq_pending aq) =? qp_size p then Some PublishQueueFull
        else if qp_size p - weight (aq_chains aq) <? count then Some PublishInsufficientDescriptors
        else None
    end.

(** A token of the current epoch that the device has popped and not completed. *)
Definition in_flight (aq : AbsQueue) (i : nat) : Prop :=
  is_Some (aq_chains aq !! i) /\ aq_status aq i = ChainInFlight.

#[global] Instance in_flight_dec aq i : Decision (in_flight aq i).
Proof. unfold in_flight. apply _. Defined.

(** Why a completion is refused. *)
Definition complete_refusal (p : QueueSpec) (chain : SplitDeviceChain) (used : Z) :
    option (QueueError SplitQueueError) :=
  let id := sdc_id chain in
  if negb (ci_epoch id =? qp_epoch p) then Some (QueueResetRace (ci_epoch id) (qp_epoch p))
  else if negb (qp_ready p) then Some QueueNotReady
  else if writable_len (sdc_data chain) <? used
  then Some (QueueUsedLengthExceeded used (writable_len (sdc_data chain)))
  else if bool_decide (in_flight (qp_queue p) (Z.to_nat (ci_token id))) then None
  else Some (QueueTransport SqCorruptState).

(** Why a configuration is refused. *)
Definition configure_refusal (p : QueueSpec) (mem : RingMemory) (size : Z) :
    option (QueueError SplitQueueError) :=
  if qp_ready p then Some (QueueTransport SqBusy)
  else if qs_max_size (qp_state p) <? size then Some (QueueInvalidConfiguration SizeExceedsMaximum)
  else if size <? qp_limit p then Some (QueueTransport SqChainLimitExceedsQueue)
  else if bool_decide (aq_chains (qp_queue p) <> ∅) then Some (QueueTransport SqBusy)
  else if rm_descriptors mem && rm_records mem && rm_available mem && rm_used mem then None
  else Some (QueueTransport SqAllocationFailed).

(** The chains of the queue with their identities. *)
Definition owned (p : QueueSpec) : list (ChainId * ChainData) :=
  (fun e => (token (qp_epoch p) e.1, e.2)) <$> map_to_list (aq_chains (qp_queue p)).

Definition configured (p : QueueSpec) : bool := bool_decide (is_Some (qs_size (qp_state p))).

Inductive spec_step : QueueOp -> QueueEvent -> QueueSpec -> QueueSpec -> Prop :=
  | step_refused p inject chain kind :
      publish_refusal p inject chain = Some kind ->
      spec_step (OpPublish inject chain) (EvRefused (dc_data chain) kind) p p
  | step_published p inject chain i :
      publish_refusal p inject chain = None ->
      aq_chains (qp_queue p) !! i = None -> Z.of_nat i < qp_size p ->
      spec_step (OpPublish inject chain)
        (EvPublished {| pc_id := token (qp_epoch p) i; pc_notification := hint (qp_notify_available p) |})
        p (qp_with (aq_publish i (dc_data chain) (qp_queue p)) p)
  | step_pop_idle p :
      qp_ready p = true -> aq_pending (qp_queue p) = [] ->
      spec_step OpPopAvailable (EvChain None) p p
  | step_pop_chain p i pending data :
      qp_ready p = true -> aq_pending (qp_queue p) = i :: pending -> aq_chains (qp_queue p) !! i = Some data ->
      spec_step OpPopAvailable
        (EvChain (Some (SplitDeviceChain_new (token (qp_epoch p) i) data (qp_limit p)))) p
        (qp_with {| aq_pending := pending; aq_done := aq_done (qp_queue p); aq_chains := aq_chains (qp_queue p) |} p)
  | step_complete_refused p chain used e :
      complete_refusal p chain used = Some e ->
      spec_step (OpComplete chain used) (EvError e) p p
  | step_complete p chain used :
      complete_refusal p chain used = None ->
      spec_step (OpComplete chain used) (EvHint (hint (qp_notify_used p))) p
        (qp_with (aq_finish (Z.to_nat (ci_token (sdc_id chain))) used (qp_queue p)) p)
  | step_used_idle p :
      qp_ready p = true -> aq_done (qp_queue p) = [] ->
      spec_step OpPopUsed (EvUsed None) p p
  | step_used p i used finished data :
      qp_ready p = true -> aq_done (qp_queue p) = (i, used) :: finished -> aq_chains (qp_queue p) !! i = Some data ->
      spec_step OpPopUsed (EvUsed (Some (token (qp_epoch p) i, used, data))) p
        (qp_with {| aq_pending := aq_pending (qp_queue p); aq_done := finished;
                    aq_chains := delete i (aq_chains (qp_queue p)) |} p)
  | step_not_ready p op :
      qp_ready p = false ->
      op ∈ [OpPopAvailable; OpPopUsed; OpDisableUsed; OpEnableUsed; OpDisableAvailable; OpEnableAvailable] ->
      spec_step op (EvError QueueNotReady) p p
  | step_disable_used p :
      qp_ready p = true -> spec_step OpDisableUsed EvDone p (qp_with_notify (qp_notify_available p) false p)
  | step_enable_used p :
      qp_ready p = true ->
      spec_step OpEnableUsed (EvRecheck (recheck (zlen (aq_done (qp_queue p))))) p
        (qp_with_notify (qp_notify_available p) true p)
  | step_disable_available p :
      qp_ready p = true -> spec_step OpDisableAvailable EvDone p (qp_with_notify false (qp_notify_used p) p)
  | step_enable_available p :
      qp_ready p = true ->
      spec_step OpEnableAvailable (EvRecheck (recheck (zlen (aq_pending (qp_queue p))))) p
        (qp_with_notify true (qp_notify_used p) p)
  | step_configure_refused p mem size e :
      configure_refusal p mem size = Some e -> spec_step (OpConfigure mem size) (EvError e) p p
  | step_configure p mem size :
      configure_refusal p mem size = None ->
      spec_step (OpConfigure mem size) EvDone p
        (qp_with aq_empty (qp_with_state
          {| qs_max_size := qs_max_size (qp_state p); qs_size := Some size; qs_ready := false;
             qs_epoch := qp_epoch p |} p))
  | step_ready_refused p :
      configured p = false ->
      spec_step (OpSetReady true) (EvError (QueueInvalidConfiguration ReadyWithoutSize)) p p
  | step_ready p ready :
      ready = false \/ configured p = true ->
      spec_step (OpSetReady ready) EvDone p
        (qp_with_state
          {| qs_max_size := qs_max_size (qp_state p); qs_size := qs_size (qp_state p); qs_ready := ready;
             qs_epoch := qp_epoch p |} p)
  | step_reset_refused p op epoch :
      epoch <= qp_epoch p -> op = OpDriverReset epoch \/ op = OpDeviceReset epoch ->
      spec_step op (EvError (QueueInvalidConfiguration NonIncreasingEpoch)) p p
  | step_driver_reset p epoch chains :
      qp_epoch p < epoch -> chains ≡ₚ owned p ->
      spec_step (OpDriverReset epoch) (EvReclaimed chains) p (qp_reset epoch p)
  | step_device_reset p epoch :
      qp_epoch p < epoch -> spec_step (OpDeviceReset epoch) EvDone p (qp_reset epoch p)
  | step_hook_refused p op e :
      (exists index, op = OpSetRingIndex index /\
        (configured p = false /\ e = QueueNotReady \/
         configured p = true /\ aq_chains (qp_queue p) <> ∅ /\ e = QueueTransport SqBusy)) \/
      (exists index, op = OpSetNextDescriptor index /\
        (configured p = false /\ e = QueueNotReady \/
         configured p = true /\ qp_size p <= index /\ e = QueueTransport SqInvalidTestState)) ->
      spec_step op (EvError e) p p
  | step_hook p op :
      configured p = true ->
      (exists index, op = OpSetRingIndex index /\ aq_chains (qp_queue p) = ∅) \/
      (exists index, op = OpSetNextDescriptor index /\ index < qp_size p) ->
      spec_step op EvDone p p.

(** ** The relation *)

Record queue_rel (q : SplitQueue) (p : QueueSpec) : Prop := {
  qr_state : sq_state q = qp_state p;
  qr_limit : sq_max_chain_descriptors q = qp_limit p;
  qr_notify_available : sq_available_notifications q = qp_notify_available p;
  qr_notify_used : sq_used_notifications q = qp_notify_used p;
  qr_epoch : sq_current_epoch q = qp_epoch p;
  qr_max : size_ok (qs_max_size (qp_state p));
  qr_ready : qp_ready p = true -> configured p = true;
  qr_storage :
    match sq_storage q, qs_size (qp_state p) with
    | Some s, Some n => rs_size s = n /\ qp_limit p <= n <= qs_max_size (qp_state p) /\ ring_rel (qp_epoch p) s (qp_queue p)
    | None, None => qp_queue p = aq_empty
    | _, _ => False
    end;
}.

(** A configured queue has its storage. *)
Lemma rel_storage q p :
  queue_rel q p -> configured p = true ->
  exists s, sq_storage q = Some s /\ rs_size s = qp_size p /\ qs_size (qp_state p) = Some (rs_size s) /\
    ring_rel (qp_epoch p) s (qp_queue p).
Proof.
  intros Q Hc. apply bool_decide_eq_true in Hc as [n Hn]. pose proof (qr_storage _ _ Q) as H.
  unfold qp_size. rewrite Hn in *. destruct (sq_storage q) as [s|]; [|done]. destruct H as (<- & _ & R). eauto.
Qed.

Lemma rel_unconfigured q p :
  queue_rel q p -> configured p = false -> sq_storage q = None /\ qs_size (qp_state p) = None.
Proof.
  intros Q Hc. apply bool_decide_eq_false, eq_None_not_Some in Hc. pose proof (qr_storage _ _ Q) as H.
  rewrite Hc in *. by destruct (sq_storage q).
Qed.

(** Replacing the ring storage and the abstract queue. *)
Lemma rel_with q p s aq :
  queue_rel q p -> configured p = true -> ring_rel (qp_epoch p) s aq -> rs_size s = qp_size p ->
  queue_rel (sq_set_storage s q) (qp_with aq p).
Proof.
  intros Q Hc R Hs. destruct (rel_storage _ _ Q Hc) as (s0 & E0 & E1 & E2 & _). pose proof (qr_storage _ _ Q) as H.
  rewrite E0, E2 in H. split; try apply Q. simpl. rewrite E2. destruct H as (_ & ? & _). split_and!; try done; congruence || lia.
Qed.

Lemma aq_status_ext aq aq' j :
  (j ∈ aq_pending aq <-> j ∈ aq_pending aq') -> (j ∈ (aq_done aq).*1 <-> j ∈ (aq_done aq').*1) ->
  aq_status aq j = aq_status aq' j.
Proof. intros H1 H2. unfold aq_status. repeat case_decide; tauto. Qed.

(** ** Publication *)

Lemma ring_slot_mod s i : size_ok (rs_size s) -> ring_slot s i = Z.to_nat (i mod rs_size s).
Proof. intros H. unfold ring_slot. by rewrite mask_mod. Qed.

Lemma publish_storage epoch s aq chain :
  ring_rel epoch s aq -> chain_wf chain -> DriverChain_descriptor_count chain <= rs_free_descriptors s ->
  rs_available_count s <> rs_size s ->
  exists s1 chain' i,
    allocate_descriptors s chain = (s1, chain', Ok (Z.of_nat i)) /\ dc_data chain' = dc_data chain /\
    rs_records s1 !! i = Some None /\ aq_chains aq !! i = None /\ Z.of_nat i < rs_size s /\ rs_size s1 = rs_size s /\
    ring_rel epoch (publish_record (token epoch i) (Z.of_nat i) chain' s1) (aq_publish i (dc_data chain) aq).
Proof.
  intros R Hwf Hcount Hnf. pose proof (rr_table _ _ _ R) as T.
  destruct (allocate_spec epoch s aq chain R Hwf Hcount)
    as (ds & slots & cursor & i & Ha & Hwf' & Hok & Hcur & Hhead & Hfree & Hp & Hfc).
  set (chain' := chain_with_slots slots chain) in *.
  assert (Hin : Z.of_nat i ∈ slots) by (rewrite <-Hhead; apply (head_slot_elem _ Hwf')).
  assert (Hil : Z.of_nat i < rs_size s) by (destruct Hok as [_ Hr]; rewrite Forall_forall in Hr; apply (Hr _ Hin)).
  destruct (table_unused T i slots Hfree Hin Hil) as [Hri Hci].
  destruct (descriptor_count_wf _ Hwf') as [Hcnt Hsl]. change (DriverChain_descriptor_count chain') with
    (DriverChain_descriptor_count chain) in Hcnt. change (dc_slots chain') with slots in Hsl. rewrite <-Hsl in Hcnt.
  destruct (rr_tokens _ _ _ R) as [Hnd HF].
  assert (Hnew : i ∉ aq_pending aq ++ (aq_done aq).*1).
  { intros Hi. rewrite Forall_forall in HF. destruct (HF i Hi). congruence. }
  rewrite not_elem_of_app in Hnew. destruct Hnew as [Hnp Hndn].
  eexists _, chain', i. split_and!; [exact Ha|done..|]. rewrite Hcnt in *.
  split; simpl; [| | |apply R| |done].
  - rewrite Nat2Z.id.
    apply (table_publish T ds slots i {| cr_id := token epoch i; cr_state := ChainAvailable; cr_chain := chain' |}
      (aq_status (aq_publish i (dc_data chain) aq))); try done.
    + unfold aq_status. simpl. by rewrite decide_True by set_solver.
    + intros j Hj. apply aq_status_ext; simpl; set_solver.
  - unfold tokens_ok. simpl. rewrite <-app_assoc, (Permutation_app_comm [i]), app_assoc. split.
    + apply NoDup_app. split_and!; [done|set_solver|apply NoDup_singleton].
    + apply Forall_app. split; [|by constructor; [rewrite lookup_insert_eq|]].
      eapply Forall_impl; [exact HF|]. intros j Hj. simpl.
      destruct (decide (i = j)) as [<-|]; [by rewrite lookup_insert_eq|by rewrite lookup_insert_ne].
  - rewrite fmap_app. rewrite ring_slot_mod by apply T. apply ring_ok_push; [apply T|apply R|].
    assert (zlen (Z.of_nat <$> aq_pending aq) = zlen (aq_pending aq)) as -> by (unfold zlen; by rewrite length_fmap).
    rewrite (rg_count _ _ _ _ _ _ (rr_available _ _ _ R)) in Hnf. unfold zlen in Hnf. rewrite length_fmap in Hnf.
    apply NoDup_app in Hnd as (Hnd & _). apply Forall_app in HF as [HF _].
    pose proof (table_tokens_bound T _ Hnd HF). unfold zlen in *. simpl. lia.
  - rewrite (rr_active _ _ _ R), map_size_insert_None by done. lia.
Qed.

(** The operation [OpPublish]. *)
Lemma publish_refines q p inject chain :
  queue_rel q p -> chain_wf chain ->
  let '(q', e) := queue_run (OpPublish inject chain) q in
  exists p', spec_step (OpPublish inject chain) e p p' /\ queue_rel q' p'.
Proof.
  intros Q Hwf. destruct (descriptor_count_wf _ Hwf) as [Hcnt _].
  assert (Hrun : queue_run (OpPublish inject chain) q =
    let '(q, r) := publish_inner chain inject q in
    (q, match r with Ok p => EvPublished p | Err e => EvRefused (dc_data (pe_chain e)) (pe_kind e) end))
    by (destruct inject; done).
  rewrite Hrun. unfold publish_inner. rewrite (qr_state _ _ Q).
  assert (Hcheck : publish_check q chain inject =
    (if inject then Ok tt else
     match DriverChain_validation chain with
     | Err e => Err (PublishTransport (SqMalformedDriverChain e))
     | Ok _ => if qp_limit p <? zlen (cd_descriptors (dc_data chain))
               then Err PublishInsufficientDescriptors else Ok tt
     end)) by (unfold publish_check; rewrite (qr_limit _ _ Q), Hcnt; done).
  rewrite Hcheck. pose proof (step_refused p inject chain) as Href. pose proof (step_published p inject chain) as Hpub.
  unfold publish_refusal in Href, Hpub.
  destruct (qp_ready p) eqn:Hready; cbn [negb] in *; [|exists p; split; [by apply Href|done]].
  destruct (if inject then _ else _) as [[]|kind]; [|exists p; split; [by apply Href|done]].
  destruct (rel_storage _ _ Q (qr_ready _ _ Q Hready)) as (s & Hs & Hsize & _ & R). rewrite Hs.
  pose proof (rr_table _ _ _ R) as T.
  assert (Hac : rs_available_count s = zlen (aq_pending (qp_queue p)))
    by (rewrite (rg_count _ _ _ _ _ _ (rr_available _ _ _ R)); unfold zlen; by rewrite length_fmap).
  rewrite <-Hsize, <-Hac, <-(tr_weight _ _ _ _ _ _ _ T) in Href, Hpub. rewrite Hcnt.
  destruct (Z.eqb_spec (rs_available_count s) (rs_size s)) as [|Hfull]; [exists p; split; [by apply Href|done]|].
  destruct (Z.ltb_spec (rs_free_descriptors s) (zlen (cd_descriptors (dc_data chain)))) as [|Hfit];
    [exists p; split; [by apply Href|done]|].
  rewrite <-Hcnt in Hfit.
  destruct (publish_storage _ _ _ _ R Hwf Hfit Hfull) as (s1 & chain' & i & Ha & Hd & Hri & Hci & Hil & Hs1 & R').
  rewrite Ha, Nat2Z.id, Hri. eexists. split; [rewrite (qr_notify_available _ _ Q); by apply Hpub|].
  apply rel_with; try done; [by apply Q|]. simpl. by rewrite Hs1.
Qed.

(** ** Consumption and completion *)

Lemma pop_available_storage epoch s aq i pending data :
  ring_rel epoch s aq -> aq_pending aq = i :: pending -> aq_chains aq !! i = Some data ->
  exists r,
    rs_available_count s <> 0 /\ rs_available s !! ring_slot s (rs_consumed_available s) = Some (Z.of_nat i) /\
    rs_records s !! i = Some (Some r) /\ cr_id r = token epoch i /\ cr_state r = ChainAvailable /\
    dc_data (cr_chain r) = data /\
    ring_rel epoch
      {| rs_size := rs_size s; rs_descriptors := rs_descriptors s;
         rs_records := <[i := Some {| cr_id := cr_id r; cr_state := ChainInFlight; cr_chain := cr_chain r |}]>
                         (rs_records s);
         rs_available := rs_available s; rs_used := rs_used s;
         rs_available_index := rs_available_index s;
         rs_consumed_available := wrapping_add U16_MAX (rs_consumed_available s) 1;
         rs_used_index := rs_used_index s; rs_consumed_used := rs_consumed_used s;
         rs_available_count := rs_available_count s - 1; rs_used_count := rs_used_count s;
         rs_active_chains := rs_active_chains s; rs_free_descriptors := rs_free_descriptors s;
         rs_next_descriptor := rs_next_descriptor s |}
      {| aq_pending := pending; aq_done := aq_done aq; aq_chains := aq_chains aq |}.
Proof.
  intros R Hpend Hch. pose proof (rr_table _ _ _ R) as T. destruct (rr_tokens _ _ _ R) as [Hnd HF].
  destruct (table_lookup T i data Hch) as (r & Hr & Hdata).
  destruct (tr_record _ _ _ _ _ _ _ T i r Hr) as [Hid Hst _ _ _ _].
  pose proof (rr_available _ _ _ R) as Hav. rewrite Hpend in Hav, Hnd, HF. rewrite fmap_cons in Hav.
  destruct (ring_ok_pop _ _ _ _ _ _ _ (tr_size _ _ _ _ _ _ _ T) Hav) as (Hring & Hc0 & Hav').
  simpl in Hnd, HF. apply NoDup_cons in Hnd as [Hni Hnd]. apply Forall_cons in HF as [_ HF].
  rewrite not_elem_of_app in Hni. destruct Hni as [Hnp Hndn].
  exists r. rewrite (ring_slot_mod _ _ (tr_size _ _ _ _ _ _ _ T)). split_and!; try done.
  { rewrite Hst. unfold aq_status. by rewrite Hpend, decide_True by set_solver. }
  assert (Hfly : aq_status {| aq_pending := pending; aq_done := aq_done aq; aq_chains := aq_chains aq |} i = ChainInFlight)
    by (unfold aq_status; simpl; by rewrite !decide_False by done).
  split; simpl; [|done|done|apply R|apply R|apply R].
  rewrite <-Hfly. apply (table_state T i r _ Hr). intros j Hj. apply aq_status_ext; simpl; [|done].
  rewrite Hpend. set_solver.
Qed.

Lemma pop_available_refines q p :
  queue_rel q p ->
  let '(q', e) := queue_run OpPopAvailable q in exists p', spec_step OpPopAvailable e p p' /\ queue_rel q' p'.
Proof.
  intros Q. unfold queue_run, ev, pop_available, storage_mut. rewrite (qr_state _ _ Q), (qr_limit _ _ Q).
  destruct (qp_ready p) eqn:Hready; cbn [negb fst snd];
    [|exists p; split; [apply step_not_ready; [done|set_solver]|done]].
  destruct (rel_storage _ _ Q (qr_ready _ _ Q Hready)) as (s & Hs & Hsize & _ & R). rewrite Hs. cbn [ok_or].
  pose proof (rg_count _ _ _ _ _ _ (rr_available _ _ _ R)) as Hcount.
  destruct (aq_pending (qp_queue p)) as [|i pending] eqn:Hpend.
  { rewrite Hcount. simpl. exists p. split; [by apply step_pop_idle|done]. }
  destruct (rr_tokens _ _ _ R) as [_ HF]. rewrite Hpend in HF. simpl in HF.
  apply Forall_cons in HF as [[data Hch] _].
  destruct (pop_available_storage _ _ _ _ _ _ R Hpend Hch) as (r & H0 & Hav & Hr & Hid & Hst & Hd & R').
  rewrite (proj2 (Z.eqb_neq _ _) H0), Hav. change (default 0 (Some (Z.of_nat i))) with (Z.of_nat i). rewrite Nat2Z.id, Hr, Hid, Hst. cbn [ci_epoch].
  rewrite Z.eqb_refl, (bool_decide_eq_false_2 (ChainAvailable <> ChainAvailable)) by tauto. simpl.
  eexists. split; [rewrite Hd; by apply (step_pop_chain p i pending data)|].
  rewrite Hid in R'. apply rel_with; try done. by apply Q.
Qed.

Lemma complete_storage epoch s aq i used :
  ring_rel epoch s aq -> in_flight aq i ->
  exists r, rs_records s !! i = Some (Some r) /\ cr_id r = token epoch i /\ cr_state r = ChainInFlight /\
    rs_used_count s <> rs_size s /\
    ring_rel epoch (complete_record (Z.of_nat i) (token epoch i) used r s) (aq_finish i used aq).
Proof.
  intros R [[data Hch] Hfly]. pose proof (rr_table _ _ _ R) as T. destruct (rr_tokens _ _ _ R) as [Hnd HF].
  destruct (table_lookup T i data Hch) as (r & Hr & _).
  destruct (tr_record _ _ _ _ _ _ _ T i r Hr) as [Hid Hst _ _ _ _].
  assert (Hnp : (i ∉ aq_pending aq) /\ (i ∉ (aq_done aq).*1))
    by (unfold aq_status in Hfly; repeat case_decide; done). destruct Hnp as [Hnp Hndn].
  assert (Hl : zlen (aq_done aq) < rs_size s).
  { assert (Hx : zlen (i :: (aq_done aq).*1) <= rs_size s).
    { apply (table_tokens_bound T).
      - apply NoDup_app in Hnd as (_ & _ & Hnd). by constructor.
      - apply Forall_app in HF as [_ HF]. constructor; [by rewrite Hch|done]. }
    unfold zlen in *. simpl in Hx. rewrite length_fmap in Hx. lia. }
  pose proof (rr_used _ _ _ R) as Hu.
  assert (Hz : zlen (done_element epoch <$> aq_done aq) = zlen (aq_done aq)) by (unfold zlen; by rewrite length_fmap).
  exists r. split_and!; try done; [by rewrite Hst| |].
  { rewrite (rg_count _ _ _ _ _ _ Hu), Hz. lia. }
  split; simpl; [| |apply R| |apply R|apply R].
  - rewrite Nat2Z.id. assert (Hx : aq_status (aq_finish i used aq) i = ChainUsed).
    { unfold aq_status. simpl. rewrite decide_False, decide_True by (rewrite ?fmap_app; set_solver). done. }
    rewrite <-Hx. apply (table_state T i r _ Hr). intros j Hj. apply aq_status_ext; simpl; [done|].
    rewrite fmap_app. set_solver.
  - unfold tokens_ok. simpl. rewrite fmap_app, app_assoc. split.
    + apply NoDup_app. split_and!; [done|set_solver|apply NoDup_singleton].
    + apply Forall_app. split; [done|]. constructor; [by exists data|done].
  - rewrite fmap_app, (ring_slot_mod _ _ (tr_size _ _ _ _ _ _ _ T)).
    apply ring_ok_push; [apply T|done|]. by rewrite Hz.
Qed.

Lemma complete_refines q p chain used :
  queue_rel q p -> 0 <= ci_token (sdc_id chain) ->
  let '(q', e) := queue_run (OpComplete chain used) q in
  exists p', spec_step (OpComplete chain used) e p p' /\ queue_rel q' p'.
Proof.
  intros Q Htok. unfold queue_run, ev, complete, storage_mut, SplitDeviceChain_writable_capacity.
  rewrite (qr_state _ _ Q).
  pose proof (step_complete_refused p chain used) as Href. pose proof (step_complete p chain used) as Hok.
  unfold complete_refusal in Href, Hok.
  destruct (Z.eqb_spec (ci_epoch (sdc_id chain)) (qp_epoch p)) as [Hep|]; cbn [negb fst snd] in *;
    [|exists p; split; [by apply Href|done]].
  destruct (qp_ready p) eqn:Hready; cbn [negb fst snd] in *; [|exists p; split; [by apply Href|done]].
  destruct (Z.ltb_spec (writable_len (sdc_data chain)) used); cbn [fst snd]; [exists p; split; [by apply Href|done]|].
  destruct (rel_storage _ _ Q (qr_ready _ _ Q Hready)) as (s & Hs & Hsize & _ & R). rewrite Hs. cbn [ok_or].
  pose proof (rr_table _ _ _ R) as T. pose proof (size_ok_bounds _ (tr_size _ _ _ _ _ _ _ T)) as Hsz.
  set (i := Z.to_nat (ci_token (sdc_id chain))) in *.
  assert (Hid : sdc_id chain = token (qp_epoch p) i).
  { destruct (sdc_id chain) as [ep tok]. simpl in *. subst ep. unfold i. by rewrite Z2Nat.id. }
  case_bool_decide as Hfly; cbn [negb] in Href, Hok.
  - destruct (complete_storage _ _ _ _ used R Hfly) as (r & Hr & Hrid & Hst & Hcnt & R').
    pose proof (table_bound T i (proj1 Hfly)) as Hil.
    unfold try_from. rewrite (proj2 (Z.leb_le _ _)) by (unfold i in Hil; lia). fold i. rewrite Hr, Hrid, Hst, Hid.
    rewrite !bool_decide_eq_false_2 by tauto. rewrite (proj2 (Z.eqb_neq _ _) Hcnt). simpl.
    eexists. split; [rewrite (qr_notify_used _ _ Q); by apply Hok|].
    apply rel_with; try done. by apply Q.
  - exists p. unfold try_from. destruct (Z.leb_spec (ci_token (sdc_id chain)) U16_MAX); [|split; [by apply Href|done]].
    fold i. destruct (rs_records s !! i) as [[r|]|] eqn:Hr; [|split; [by apply Href|done]..].
    destruct (tr_record _ _ _ _ _ _ _ T i r Hr) as [Hrid Hst _ _ _ _].
    rewrite Hrid, Hid, (bool_decide_eq_false_2 (token (qp_epoch p) i <> token (qp_epoch p) i)) by tauto.
    rewrite bool_decide_eq_true_2; [split; [by apply Href|done]|]. rewrite Hst. intros E. apply Hfly. split; [|done].
    rewrite (tr_chains _ _ _ _ _ _ _ T), Hr. simpl. eauto.
Qed.

Lemma release_spec epoch s aq i r :
  ring_rel epoch s aq -> rs_records s !! i = Some (Some r) ->
  exists ds, release_slots (dc_slots (cr_chain r)) (rs_descriptors s) (rs_free_descriptors s) =
      (ds, rs_free_descriptors s + zlen (dc_slots (cr_chain r))) /\
    patched (rs_descriptors s) ds (dc_slots (cr_chain r)) (fun _ => None) /\
    free_count ds = free_count (rs_descriptors s) + zlen (dc_slots (cr_chain r)).
Proof.
  intros R Hr. pose proof (rr_table _ _ _ R) as T. destruct (tr_record _ _ _ _ _ _ _ T i r Hr) as [_ _ _ _ Hok Ho].
  apply (release_slots_spec (rs_size s)); [done|apply T|].
  rewrite Forall_lookup. intros j x Hx. eexists. by apply Ho.
Qed.

Lemma pop_used_storage epoch s aq i used finished data :
  ring_rel epoch s aq -> aq_done aq = (i, used) :: finished -> aq_chains aq !! i = Some data ->
  exists r, rs_used_count s <> 0 /\
    rs_used s !! ring_slot s (rs_consumed_used s) = Some (done_element epoch (i, used)) /\
    rs_records s !! i = Some (Some r) /\ cr_id r = token epoch i /\ cr_state r = ChainUsed /\
    dc_data (cr_chain r) = data /\
    ring_rel epoch
      (pop_used_commit r (rs_set_records (<[i := None]> (rs_records s))
        (rs_set_used (<[ring_slot s (rs_consumed_used s) := None]> (rs_used s)) s)))
      {| aq_pending := aq_pending aq; aq_done := finished; aq_chains := delete i (aq_chains aq) |}.
Proof.
  intros R Hdone Hch. pose proof (rr_table _ _ _ R) as T. destruct (rr_tokens _ _ _ R) as [Hnd HF].
  destruct (table_lookup T i data Hch) as (r & Hr & Hdata).
  destruct (tr_record _ _ _ _ _ _ _ T i r Hr) as [Hid Hst _ _ _ _].
  destruct (release_spec _ _ _ _ _ R Hr) as (ds & Hrel & Hp & Hfc).
  pose proof (rr_used _ _ _ R) as Hu. rewrite Hdone in Hu, Hnd, HF. rewrite fmap_cons in Hu. change (((i, used) :: finished).*1) with (i :: finished.*1) in Hnd, HF.
  assert (Hlen : zlen (done_element epoch (i, used) :: (done_element epoch <$> finished)) <= rs_size s).
  { apply NoDup_app in Hnd as (_ & _ & Hnd'). apply Forall_app in HF as [_ HF'].
    pose proof (table_tokens_bound T _ Hnd' HF') as Hb. unfold zlen in *. simpl in *. rewrite !length_fmap in *. lia. }
  destruct (ring_ok_pop _ _ _ _ _ _ _ (tr_size _ _ _ _ _ _ _ T) Hu) as (Hring & Hc0 & _).
  simpl in Hnd, HF. rewrite <-Permutation_middle in Hnd, HF.
  apply NoDup_cons in Hnd as [Hni Hnd]. apply Forall_cons in HF as [_ HF].
  rewrite not_elem_of_app in Hni. destruct Hni as [Hnp Hndn].
  exists r. rewrite (ring_slot_mod _ _ (tr_size _ _ _ _ _ _ _ T)). split_and!; try done.
  { rewrite Hst. unfold aq_status. rewrite Hdone, decide_False, decide_True by set_solver. done. }
  unfold pop_used_commit, release_descriptors. cbn [rs_set_records rs_set_used rs_descriptors rs_free_descriptors].
  rewrite Hrel. split; simpl; [| |apply R| | |apply R].
  - apply (table_remove T ds i r _ Hr Hp Hfc). intros j Hj. apply aq_status_ext; simpl; [done|].
    rewrite Hdone. set_solver.
  - split; simpl; [done|]. rewrite Forall_forall in *. intros j Hj. rewrite lookup_delete_ne; [by apply HF|set_solver].
  - by apply (ring_ok_clear _ _ _ _ _ (done_element epoch (i, used))); [apply T| |].
  - rewrite (rr_active _ _ _ R), map_size_delete, Hch. 
    assert (size (aq_chains aq) <> 0%nat) by (rewrite map_size_non_empty_iff; intros E; rewrite E in Hch; done). lia.
Qed.

Lemma pop_used_refines q p :
  queue_rel q p ->
  let '(q', e) := queue_run OpPopUsed q in exists p', spec_step OpPopUsed e p p' /\ queue_rel q' p'.
Proof.
  intros Q. unfold queue_run, ev, pop_used, storage_mut. rewrite (qr_state _ _ Q).
  destruct (qp_ready p) eqn:Hready; cbn [negb fst snd];
    [|exists p; split; [apply step_not_ready; [done|set_solver]|done]].
  destruct (rel_storage _ _ Q (qr_ready _ _ Q Hready)) as (s & Hs & Hsize & _ & R). rewrite Hs. cbn [ok_or].
  pose proof (rg_count _ _ _ _ _ _ (rr_used _ _ _ R)) as Hcount.
  destruct (aq_done (qp_queue p)) as [|[i used] finished] eqn:Hdone.
  { rewrite Hcount. simpl. exists p. split; [by apply step_used_idle|done]. }
  destruct (rr_tokens _ _ _ R) as [_ HF]. rewrite Hdone in HF. apply Forall_app in HF as [_ HF].
  apply Forall_cons in HF as [[data Hch] _].
  destruct (pop_used_storage _ _ _ _ _ _ _ R Hdone Hch) as (r & H0 & Hu & Hr & Hid & Hst & Hd & R').
  rewrite (proj2 (Z.eqb_neq _ _) H0), Hu. unfold done_element. cbn [ue_head ue_id ue_used fst snd].
  rewrite Nat2Z.id, Hr, Hid, Hst, !bool_decide_eq_false_2 by tauto. cbn [orb fst snd fmap option_fmap option_map uc_id uc_used uc_chain].
  eexists. split; [rewrite Hd; by apply (step_used p i used finished data)|].
  apply rel_with; try done; [by apply Q|]. simpl.
  unfold pop_used_commit, release_descriptors. destruct (release_slots _ _ _). done.
Qed.

(** ** Configuration, notifications, reset and the test hooks *)

Lemma rel_chains_active q p s :
  queue_rel q p -> sq_storage q = Some s -> (rs_active_chains s = 0 <-> aq_chains (qp_queue p) = ∅).
Proof.
  intros Q Hs. pose proof (qr_storage _ _ Q) as H. rewrite Hs in H. destruct (qs_size (qp_state p)); [|done].
  destruct H as (_ & _ & R). rewrite (rr_active _ _ _ R), <-map_size_empty_iff. lia.
Qed.

Lemma chains_empty epoch s aq : ring_rel epoch s aq -> aq_chains aq = ∅ -> aq = aq_empty.
Proof.
  intros R H. destruct (rr_tokens _ _ _ R) as [_ HF]. rewrite H in HF. destruct aq as [pending finished chains].
  simpl in *. subst chains. destruct pending as [|i pending]; [|by apply Forall_cons in HF as [[? ?] _]].
  destruct finished as [|[i u] finished]; [done|]. by apply Forall_cons in HF as [[? ?] _].
Qed.

Lemma weight_empty : weight ∅ = 0.
Proof. unfold weight. by rewrite map_fold_empty. Qed.

Lemma ring_ok_empty {A} size (ring : list A) i : zlen ring = size -> is_u16 i -> ring_ok size ring i i 0 [].
Proof.
  intros. split; try done. change (zlen (@nil A)) with 0. rewrite Z.add_0_r, Z.mod_small; lia.
Qed.

(** Fresh storage is the empty queue. *)
Lemma RingStorage_new_rel epoch mem size s :
  size_ok size -> RingStorage_new mem size = Ok s -> rs_size s = size /\ ring_rel epoch s aq_empty.
Proof.
  intros Hs. pose proof (size_ok_bounds _ Hs). unfold RingStorage_new, boxed_with.
  destruct (rm_descriptors mem), (rm_records mem), (rm_available mem), (rm_used mem); try done.
  intros [= <-]. assert (Hz : forall A (x : A), zlen (replicate (Z.to_nat size) x) = size)
    by (intros; unfold zlen; rewrite length_replicate; lia).
  assert (Hfc : free_count (replicate (Z.to_nat size) None) = size).
  { clear Hz. rewrite <-(Z2Nat.id size) at 2 by lia. unfold free_count, sum_by. induction (Z.to_nat size) as [|n IH]; [done|].
    rewrite replicate_S. simpl foldr. rewrite IH. lia. }
  split; [done|]. split; simpl; [|by split; constructor|by apply ring_ok_empty; [|lia]..|by rewrite map_size_empty|lia].
  split; try done.
  - intros i. rewrite lookup_empty. destruct (replicate _ _ !! i) eqn:E; [|done].
    by apply lookup_replicate in E as [-> _].
  - intros i r E. by apply lookup_replicate in E as [? _].
  - intros i r E. by apply lookup_replicate in E as [? _].
  - rewrite weight_empty. lia.
Qed.

Lemma configure_refines q p mem size :
  queue_rel q p -> size_ok size ->
  let '(q', e) := queue_run (OpConfigure mem size) q in
  exists p', spec_step (OpConfigure mem size) e p p' /\ queue_rel q' p'.
Proof.
  intros Q Hs. unfold queue_run, ev, configure. rewrite (qr_state _ _ Q), (qr_limit _ _ Q).
  pose proof (step_configure_refused p mem size) as Href. pose proof (step_configure p mem size) as Hok.
  unfold configure_refusal in Href, Hok.
  destruct (qp_ready p) eqn:Hready; cbn [fst snd]; [exists p; split; [by apply Href|done]|].
  destruct (Z.ltb_spec (qs_max_size (qp_state p)) size) as [|Hmax]; cbn [fst snd]; [exists p; split; [by apply Href|done]|].
  destruct (Z.ltb_spec size (qp_limit p)); cbn [fst snd]; [exists p; split; [by apply Href|done]|].
  assert (Hbusy : match sq_storage q with Some s => negb (rs_active_chains s =? 0) | None => false end =
                  bool_decide (aq_chains (qp_queue p) <> ∅)).
  { destruct (sq_storage q) as [s|] eqn:Es.
    - pose proof (rel_chains_active _ _ _ Q Es) as Ha. symmetry. destruct (Z.eqb_spec (rs_active_chains s) 0); simpl;
        [apply bool_decide_eq_false_2|apply bool_decide_eq_true_2]; tauto.
    - pose proof (qr_storage _ _ Q) as H'. rewrite Es in H'. destruct (qs_size (qp_state p)); [done|]. rewrite H'.
      symmetry. apply bool_decide_eq_false_2. simpl. tauto. }
  rewrite Hbusy. case_bool_decide; cbn [fst snd]; [exists p; split; [by apply Href|done]|].
  destruct (RingStorage_new mem size) as [s|e] eqn:En.
  - destruct (RingStorage_new_rel (qp_epoch p) mem size s Hs En) as [Hsz R].
    assert (Hmem : rm_descriptors mem && rm_records mem && rm_available mem && rm_used mem = true).
    { unfold RingStorage_new, boxed_with in En.
      by destruct (rm_descriptors mem), (rm_records mem), (rm_available mem), (rm_used mem). }
    rewrite Hmem in Hok. unfold QueueState_new. rewrite (proj2 (Z.ltb_ge _ _) Hmax). cbn [fst snd].
    eexists. split; [by apply Hok|]. split; simpl; try apply Q; try done.
  - assert (e = SqAllocationFailed /\ rm_descriptors mem && rm_records mem && rm_available mem && rm_used mem = false)
      as [-> Hmem].
    { unfold RingStorage_new, boxed_with in En.
      by destruct (rm_descriptors mem), (rm_records mem), (rm_available mem), (rm_used mem); simplify_eq/=. }
    rewrite Hmem in Href. exists p. split; [by apply Href|done].
Qed.

Lemma set_ready_refines q p ready :
  queue_rel q p ->
  let '(q', e) := queue_run (OpSetReady ready) q in
  exists p', spec_step (OpSetReady ready) e p p' /\ queue_rel q' p'.
Proof.
  intros Q. unfold queue_run, ev, set_ready. rewrite (qr_state _ _ Q). pose proof (qr_storage _ _ Q) as Hst.
  unfold QueueState_new. pose proof (step_ready p ready) as Hok. unfold configured in Hok.
  destruct (qs_size (qp_state p)) as [n|] eqn:En.
  - destruct (sq_storage q) as [s|] eqn:Es; [|done]. destruct Hst as (Hn & [Hlim Hmax] & R).
    rewrite (proj2 (Z.ltb_ge _ _) Hmax). cbn [fst snd]. eexists. split; [apply Hok; right; by apply bool_decide_eq_true_2|].
    split; simpl; try apply Q; try done; rewrite ?Es, ?En; try done.
  - destruct (sq_storage q) eqn:Es; [done|]. destruct ready; cbn [fst snd].
    + exists p. split; [|done]. apply step_ready_refused, bool_decide_eq_false_2. rewrite En. by intros [].
    + eexists. split; [apply Hok; by left|]. split; simpl; try apply Q; try done.
Qed.

Lemma notifications_refine q p op :
  queue_rel q p -> op ∈ [OpDisableUsed; OpEnableUsed; OpDisableAvailable; OpEnableAvailable] ->
  let '(q', e) := queue_run op q in exists p', spec_step op e p p' /\ queue_rel q' p'.
Proof.
  intros Q Hop.
  assert (Hrel : forall a u, queue_rel (sq_set_notifications a u q) (qp_with_notify a u p))
    by (intros; split; simpl; try apply Q; done).
  destruct (qp_ready p) eqn:Hready.
  - destruct (rel_storage _ _ Q (qr_ready _ _ Q Hready)) as (s & Hs & _ & _ & R).
    assert (Hu : rs_used_count s = zlen (aq_done (qp_queue p)))
      by (rewrite (rg_count _ _ _ _ _ _ (rr_used _ _ _ R)); unfold zlen; by rewrite length_fmap).
    assert (Ha : rs_available_count s = zlen (aq_pending (qp_queue p)))
      by (rewrite (rg_count _ _ _ _ _ _ (rr_available _ _ _ R)); unfold zlen; by rewrite length_fmap).
    repeat apply elem_of_cons in Hop as [->|Hop]; [..|by apply elem_of_nil in Hop];
      unfold queue_run, ev, disable_used_notifications, enable_used_notifications, disable_available_notifications,
        enable_available_notifications, storage_mut; rewrite (qr_state _ _ Q), Hready; cbn [negb sq_set_notifications sq_storage];
      rewrite ?Hs; cbn [ok_or fst snd]; rewrite ?Hu, ?Ha, ?(qr_notify_used _ _ Q), ?(qr_notify_available _ _ Q);
      eexists; (split; [by constructor|apply Hrel]).
  - assert (Hn : spec_step op (EvError QueueNotReady) p p) by (apply step_not_ready; [done|set_solver]).
    repeat apply elem_of_cons in Hop as [->|Hop]; [..|by apply elem_of_nil in Hop];
      unfold queue_run, ev, disable_used_notifications, enable_used_notifications, disable_available_notifications,
        enable_available_notifications; rewrite (qr_state _ _ Q), Hready; exists p; done.
Qed.

(** A table of optional entries, read in index order, is the map it stands for. *)
Fixpoint entries {A} (k : nat) (l : list (option A)) : list (nat * A) :=
  match l with
  | [] => []
  | Some x :: l => (k, x) :: entries (Datatypes.S k) l
  | None :: l => entries (Datatypes.S k) l
  end.

Lemma entries_map {A B} (g : A -> B) (l : list (option A)) : forall k (m : gmap nat B),
  (forall i, m !! (k + i)%nat = g <$> mjoin (l !! i)) -> (forall i, (i < k)%nat -> m !! i = None) ->
  map_to_list m ≡ₚ (fun e => (e.1, g e.2)) <$> entries k l.
Proof.
  induction l as [|o l IH]; intros k m Hin Hout.
  { assert (m = ∅) as ->; [|by rewrite map_to_list_empty]. apply map_empty. intros i.
    destruct (decide (i < k)%nat); [by apply Hout|]. replace i with (k + (i - k))%nat by lia. by rewrite Hin. }
  assert (H0 : m !! k = g <$> o) by (specialize (Hin 0%nat); by rewrite Nat.add_0_r in Hin).
  assert (Hnext : forall m', (forall j, j <> k -> m' !! j = m !! j) -> m' !! k = None ->
    map_to_list m' ≡ₚ (fun e => (e.1, g e.2)) <$> entries (Datatypes.S k) l).
  { intros m' Hm Hk. apply IH.
    - intros i. rewrite Hm by lia. replace (Datatypes.S k + i)%nat with (k + Datatypes.S i)%nat by lia. apply Hin.
    - intros i Hi. destruct (decide (i = k)) as [->|]; [done|]. rewrite Hm by done. apply Hout. lia. }
  destruct o as [x|]; simpl in H0 |- *; [|by apply Hnext].
  rewrite <-(insert_delete_id m k (g x) H0), map_to_list_insert by apply lookup_delete_eq.
  constructor. apply Hnext; [intros; by apply lookup_delete_ne|apply lookup_delete_eq].
Qed.

(** The records in index order are the chains of the abstract queue. *)
Lemma reclaimed_owned q p :
  queue_rel q p ->
  (fun c => (rc_id c, dc_data (rc_chain c))) <$> ReclaimedChains (sq_storage q) ≡ₚ owned p.
Proof.
  intros Q. pose proof (qr_storage _ _ Q) as H. unfold ReclaimedChains, owned.
  destruct (sq_storage q) as [s|], (qs_size (qp_state p)); try done; [|by rewrite H; simpl; rewrite map_to_list_empty].
  destruct H as (_ & _ & R). pose proof (rr_table _ _ _ R) as T.
  rewrite (entries_map (fun r => dc_data (cr_chain r)) (rs_records s) 0 (aq_chains (qp_queue p)));
    [|apply T|intros; lia]. rewrite <-list_fmap_compose.
  assert (Hid : forall k r, rs_records s !! k = Some (Some r) -> cr_id r = token (qp_epoch p) (0 + k))
    by (intros k r Hr; apply (tr_record _ _ _ _ _ _ _ T k r Hr)).
  clear T. revert Hid. generalize 0%nat. induction (rs_records s) as [|[r|] l IH]; intros k Hid; simpl; [done| |].
  all: assert (Hid' : forall j r, l !! j = Some (Some r) -> cr_id r = token (qp_epoch p) (Datatypes.S k + j))
         by (intros j r' Hr; rewrite (Hid (Datatypes.S j) r' Hr); f_equal; lia).
  - rewrite (Hid 0%nat r eq_refl), Nat.add_0_r. constructor. exact (IH (Datatypes.S k) Hid').
  - exact (IH (Datatypes.S k) Hid').
Qed.

Lemma reset_refines q p epoch :
  queue_rel q p -> 0 < epoch ->
  forall op, op = OpDriverReset epoch \/ op = OpDeviceReset epoch ->
  let '(q', e) := queue_run op q in exists p', spec_step op e p p' /\ queue_rel q' p'.
Proof.
  intros Q He op Hop.
  assert (Hrel : queue_rel
    {| sq_state := QueueState_unconfigured (qs_max_size (qp_state p)) epoch;
       sq_max_chain_descriptors := sq_max_chain_descriptors q; sq_current_epoch := epoch; sq_storage := None;
       sq_available_notifications := true; sq_used_notifications := true |} (qp_reset epoch p))
    by (split; simpl; try apply Q; done).
  pose proof (reclaimed_owned _ _ Q) as Hown. pose proof (step_reset_refused p op epoch) as Href.
  destruct Hop as [-> | ->]; unfold queue_run, ev, driver_reset, device_reset, advance_epoch; rewrite (qr_state _ _ Q);
    (destruct (Z.leb_spec epoch (qp_epoch p)); cbn [fst snd]; [exists p; split; [apply Href; auto|done]|]);
    exists (qp_reset epoch p); (split; [|done]); by constructor.
Qed.

Lemma set_ring_index_refines q p index :
  queue_rel q p -> is_u16 index ->
  let '(q', e) := queue_run (OpSetRingIndex index) q in
  exists p', spec_step (OpSetRingIndex index) e p p' /\ queue_rel q' p'.
Proof.
  intros Q Hi. unfold queue_run, ev, set_empty_ring_index, storage_mut.
  destruct (configured p) eqn:Hc.
  - destruct (rel_storage _ _ Q Hc) as (s & Hs & Hsize & _ & R). rewrite Hs. cbn [ok_or].
    pose proof (rel_chains_active _ _ _ Q Hs) as Ha.
    destruct (Z.eqb_spec (rs_active_chains s) 0) as [H0|H0]; cbn [negb fst snd].
    + exists p. split; [apply step_hook; [done|left; exists index; split; [done|by apply Ha]]|].
      pose proof (chains_empty _ _ _ R (proj1 Ha H0)) as He.
      replace p with (qp_with (qp_queue p) p) at 1 by (by destruct p).
      apply rel_with; try done. destruct R as [T K A U E F]. rewrite He in *. simpl in *.
      split; simpl; try done; apply ring_ok_empty; try done; [apply A|apply U].
    + exists p. split; [|done]. apply step_hook_refused. left. exists index. split; [done|]. right. tauto.
  - destruct (rel_unconfigured _ _ Q Hc) as [Hs _]. rewrite Hs. cbn [ok_or fst snd]. exists p. split; [|done].
    apply step_hook_refused. left. exists index. split; [done|]. by left.
Qed.

Lemma set_next_descriptor_refines q p index :
  queue_rel q p -> is_u16 index ->
  let '(q', e) := queue_run (OpSetNextDescriptor index) q in
  exists p', spec_step (OpSetNextDescriptor index) e p p' /\ queue_rel q' p'.
Proof.
  intros Q Hi. unfold queue_run, ev, set_next_descriptor, storage_mut.
  destruct (configured p) eqn:Hc.
  - destruct (rel_storage _ _ Q Hc) as (s & Hs & Hsize & _ & R). rewrite Hs. cbn [ok_or].
    destruct (Z.leb_spec (rs_size s) index) as [H0|H0]; cbn [fst snd]; exists p.
    + split; [|done]. apply step_hook_refused. right. exists index. split; [done|]. right. rewrite <-Hsize. done.
    + split; [apply step_hook; [done|right; exists index; split; [done|by rewrite <-Hsize]]|].
      replace p with (qp_with (qp_queue p) p) at 1 by (by destruct p).
      apply rel_with; try done. split; simpl; try apply R. lia.
  - destruct (rel_unconfigured _ _ Q Hc) as [Hs _]. rewrite Hs. cbn [ok_or fst snd]. exists p. split; [|done].
    apply step_hook_refused. right. exists index. split; [done|]. by left.
Qed.
