(* ===== verification/QueueProps.v ===== *)
(** * Properties of the split queue over whole histories

    [queue_step] runs any operation on a queue and keeps the books: the device
    chains that the device holds (each is consumed by its completion, as the
    type system enforces), and the chains that were published, returned to the
    driver, and dropped by a device reset. *)

From Stdlib Require Import ZArith Lia.
From stdpp Require Import prelude list gmap.
From S2P Require Import Prelude Transport Chain ChainSpec SplitQueue QueueInv QueueSpec.

Lemma run_refines q p op :
  queue_rel q p -> op_typed op ->
  let '(q', e) := queue_run op q in exists p', spec_step op e p p' /\ queue_rel q' p'.
Proof.
  intros Q Ht. destruct op; simpl in Ht.
  - by apply publish_refines.
  - by apply pop_available_refines.
  - apply complete_refines; [done|apply Ht].
  - by apply pop_used_refines.
  - by apply configure_refines.
  - by apply set_ready_refines.
  - apply notifications_refine; [done|set_solver].
  - apply notifications_refine; [done|set_solver].
  - apply notifications_refine; [done|set_solver].
  - apply notifications_refine; [done|set_solver].
  - apply (reset_refines q p epoch); auto.
  - apply (reset_refines q p epoch); auto.
  - by apply set_ring_index_refines.
  - by apply set_next_descriptor_refines.
Qed.

(** C11: the split queue refines the abstract queue.  From related states every
    operation, with arguments of their types, answers what the abstract queue
    may answer and ends in related states: chains are taken in the order they
    were published and returned in the order they were completed, under the
    identities they were given, and every error is the documented one. *)
Theorem split_queue_refines q p op :
  queue_rel q p -> op_typed op ->
  exists p', spec_step op (queue_run op q).2 p p' /\ queue_rel (queue_run op q).1 p'.
Proof. intros Q Ht. pose proof (run_refines q p op Q Ht) as H. by destruct (queue_run op q). Qed.

(** ** Histories *)

Record QueueWorld := {
  qw_queue : SplitQueue;
  qw_tokens : list SplitDeviceChain;
  qw_published : list (ChainId * ChainData);
  qw_returned : list (ChainId * ChainData);
  qw_dropped : list (ChainId * ChainData);
}.

(** The chains in the storage of a queue. *)
Definition queue_chains (q : SplitQueue) : list (ChainId * ChainData) :=
  (fun c => (rc_id c, dc_data (rc_chain c))) <$> ReclaimedChains (sq_storage q).

Definition published (op : QueueOp) (e : QueueEvent) : list (ChainId * ChainData) :=
  match op, e with
  | OpPublish _ chain, EvPublished r => [(pc_id r, dc_data chain)]
  | _, _ => []
  end.

Definition returned (e : QueueEvent) : list (ChainId * ChainData) :=
  match e with
  | EvUsed (Some (id, _, data)) => [(id, data)]
  | EvReclaimed chains => chains
  | _ => []
  end.

Definition dropped (op : QueueOp) (e : QueueEvent) (q : SplitQueue) : list (ChainId * ChainData) :=
  match op, e with
  | OpDeviceReset _, EvDone => queue_chains q
  | _, _ => []
  end.

(** The device chains after an operation: one more after a pop, and [rest]
    after a completion, which consumes its chain whatever it answers. *)
Inductive tokens_after (tokens : list SplitDeviceChain) : QueueOp -> QueueEvent -> list SplitDeviceChain -> Prop :=
  | tokens_popped chain : tokens_after tokens OpPopAvailable (EvChain (Some chain)) (chain :: tokens)
  | tokens_completed chain used e rest :
      tokens ≡ₚ chain :: rest -> tokens_after tokens (OpComplete chain used) e rest
  | tokens_kept op e :
      (forall chain, e <> EvChain (Some chain)) -> (forall chain used, op <> OpComplete chain used) ->
      tokens_after tokens op e tokens.

Inductive queue_step : QueueWorld -> QueueWorld -> Prop :=
  | queue_step_op w op q e tokens :
      op_typed op -> queue_run op (qw_queue w) = (q, e) -> tokens_after (qw_tokens w) op e tokens ->
      queue_step w
        {| qw_queue := q; qw_tokens := tokens;
           qw_published := qw_published w ++ published op e;
           qw_returned := qw_returned w ++ returned e;
           qw_dropped := qw_dropped w ++ dropped op e (qw_queue w) |}
  | queue_step_drop w chain rest :
      qw_tokens w ≡ₚ chain :: rest ->
      queue_step w
        {| qw_queue := qw_queue w; qw_tokens := rest; qw_published := qw_published w;
           qw_returned := qw_returned w; qw_dropped := qw_dropped w |}.

Definition queue_start (q : SplitQueue) : QueueWorld :=
  {| qw_queue := q; qw_tokens := []; qw_published := []; qw_returned := []; qw_dropped := [] |}.

Inductive queue_reachable : QueueWorld -> Prop :=
  | queue_reach_new max_size max_chain_descriptors q :
      size_ok max_size -> SplitQueue_new max_size max_chain_descriptors = Ok q ->
      queue_reachable (queue_start q)
  | queue_reach_step w w' : queue_reachable w -> queue_step w w' -> queue_reachable w'.

(** ** The invariant of a history *)

(** A device chain is stale, or the one handle on a chain in flight. *)
Definition token_ok (p : QueueSpec) (c : SplitDeviceChain) : Prop :=
  ci_epoch (sdc_id c) < qp_epoch p /\ c = SplitDeviceChain_new (sdc_id c) (sdc_data c) (sdc_max_descriptors c) \/
  exists i data, aq_chains (qp_queue p) !! i = Some data /\ aq_status (qp_queue p) i = ChainInFlight /\
    c = SplitDeviceChain_new (token (qp_epoch p) i) data (qp_limit p).

Record world_ok (w : QueueWorld) (p : QueueSpec) : Prop := {
  wo_rel : queue_rel (qw_queue w) p;
  wo_ids : NoDup (sdc_id <$> qw_tokens w);
  wo_tokens : Forall (token_ok p) (qw_tokens w);
  wo_books : qw_published w ≡ₚ qw_returned w ++ qw_dropped w ++ owned p;
}.

Lemma new_rel max_size limit q :
  size_ok max_size -> SplitQueue_new max_size limit = Ok q ->
  queue_rel q {| qp_state := QueueState_unconfigured max_size QueueEpoch_INITIAL; qp_limit := limit;
                 qp_notify_available := true; qp_notify_used := true; qp_queue := aq_empty |}.
Proof. intros Hs. unfold SplitQueue_new. case_match; [done|]. intros [= <-]. by split. Qed.

(** The books of one abstract step. *)
Lemma step_books op e p p' q :
  spec_step op e p p' -> queue_rel q p ->
  owned p ++ published op e ≡ₚ returned e ++ dropped op e q ++ owned p'.
Proof.
  intros St Q. destruct St; unfold owned; simpl; rewrite ?app_nil_r; try done.
  - rewrite map_to_list_insert by done. simpl. apply Permutation_app_comm.
  - rewrite <-(insert_delete_id (aq_chains (qp_queue p)) i data) at 1 by done.
    rewrite map_to_list_insert by apply lookup_delete_eq. done.
  - destruct op; simpl; by rewrite ?app_nil_r.
  - unfold configure_refusal in *. repeat case_match; try done. case_bool_decide as E; [done|].
    assert (aq_chains (qp_queue p) = ∅) as -> by (destruct (decide (aq_chains (qp_queue p) = ∅)); tauto). done.
  - destruct op; simpl; by rewrite ?app_nil_r.
  - symmetry. by apply reclaimed_owned.
  - destruct op; simpl; by rewrite ?app_nil_r.
  - destruct H0 as [(index & -> & _)|(index & -> & _)]; simpl; by rewrite ?app_nil_r.
Qed.

(** What a step does to the device chains that exist. *)
Lemma step_token_ok op e p p' c :
  spec_step op e p p' -> token_ok p c -> (forall used, op <> OpComplete c used) ->
  (forall c' used, op = OpComplete c' used -> sdc_id c' <> sdc_id c /\ 0 <= ci_token (sdc_id c')) ->
  token_ok p' c.
Proof.
  intros St [[Hold Hnew]|(i & data & Hch & Hst & ->)] Hne Hne'.
  { left. split; [|done]. destruct St; simpl; lia || done. }
  destruct St; simpl; try (right; exists i, data; done).
  - right. exists i, data. assert (i <> i0) by congruence. simpl. rewrite lookup_insert_ne by done. split_and!; [done| |done].
    rewrite <-Hst. apply aq_status_ext; simpl; set_solver.
  - right. exists i, data. assert (i <> i0) by (intros ->; unfold aq_status in Hst; rewrite H0, decide_True in Hst; set_solver).
    split_and!; [done| |done]. rewrite <-Hst. apply aq_status_ext; simpl; [rewrite H0; set_solver|done].
  - right. exists i, data. split_and!; [done| |done]. rewrite <-Hst. apply aq_status_ext; simpl; [done|].
    rewrite fmap_app, elem_of_app. simpl. destruct (Hne' _ _ eq_refl) as [Hid Hpos].
    assert (i <> Z.to_nat (ci_token (sdc_id chain))); [|set_solver]. intros Hi. apply Hid. simpl.
    unfold complete_refusal in H. destruct (Z.eqb_spec (ci_epoch (sdc_id chain)) (qp_epoch p)); [|done].
    destruct (sdc_id chain) as [ep tok]. simpl in *. subst. by rewrite Z2Nat.id.
  - right. exists i, data. assert (i <> i0).
    { intros ->. unfold aq_status in Hst. rewrite H0 in Hst. repeat case_decide; try done. set_solver. }
    simpl. rewrite lookup_delete_ne by done. split_and!; [done| |done]. rewrite <-Hst.
    apply aq_status_ext; simpl; [done|]. rewrite H0. set_solver.
  - exfalso. unfold configure_refusal in H. repeat case_match; try done. case_bool_decide as E; [done|].
    by rewrite E in Hch.
  - left. split; [simpl; lia|done].
  - left. split; [simpl; lia|done].
Qed.

Lemma token_ok_id p c : token_ok p c -> ci_epoch (sdc_id c) <= qp_epoch p.
Proof. intros [[H _]|(i & data & _ & _ & ->)]; simpl; lia. Qed.

Lemma rel_tokens_ok q p : queue_rel q p -> qp_ready p = true -> tokens_ok (qp_queue p).
Proof. intros Q Hr. destruct (rel_storage _ _ Q (qr_ready _ _ Q Hr)) as (s & _ & _ & _ & R). apply R. Qed.

Lemma pop_chain_inv p p' chain :
  spec_step OpPopAvailable (EvChain (Some chain)) p p' ->
  exists i pending data, qp_ready p = true /\ aq_pending (qp_queue p) = i :: pending /\
    aq_chains (qp_queue p) !! i = Some data /\
    chain = SplitDeviceChain_new (token (qp_epoch p) i) data (qp_limit p) /\
    p' = qp_with {| aq_pending := pending; aq_done := aq_done (qp_queue p); aq_chains := aq_chains (qp_queue p) |} p.
Proof. inversion 1; subst; eauto 10. Qed.

(** The chain that a pop hands out is new to the device. *)
Lemma popped_tokens q p p' chain tokens :
  queue_rel q p -> spec_step OpPopAvailable (EvChain (Some chain)) p p' ->
  NoDup (sdc_id <$> tokens) -> Forall (token_ok p) tokens ->
  NoDup (sdc_id <$> chain :: tokens) /\ Forall (token_ok p') (chain :: tokens).
Proof.
  intros Q Sp Hnd HT.
  assert (HT' : Forall (token_ok p') tokens).
  { rewrite Forall_forall in *. intros c Hc. eapply step_token_ok; eauto; done. }
  destruct (pop_chain_inv _ _ _ Sp) as (i & pending & data & Hr & Hpend & Hch & -> & ->).
  destruct (rel_tokens_ok _ _ Q Hr) as [Hpnd _]. rewrite Hpend in Hpnd. simpl in Hpnd.
  apply NoDup_cons in Hpnd as [Hni _]. rewrite not_elem_of_app in Hni. destruct Hni as [Hnp Hnf]. split.
  - rewrite fmap_cons. apply NoDup_cons. split; [|done]. intros Hin. apply list_elem_of_fmap in Hin as (c & Hid & Hc).
    rewrite Forall_forall in HT. destruct (HT c Hc) as [[Hold _]|(j & d & _ & Hst & ->)].
    + rewrite <-Hid in Hold. simpl in Hold. lia.
    + injection Hid as Hj. assert (j = i) as -> by lia. unfold aq_status in Hst.
      rewrite decide_True in Hst; [done|]. rewrite Hpend. constructor.
  - constructor; [|done]. right. exists i, data. split_and!; [done| |done]. unfold aq_status. simpl.
    by rewrite !decide_False.
Qed.

Lemma step_world_ok w p w' : world_ok w p -> queue_step w w' -> exists p', world_ok w' p'.
Proof.
  intros [Q Hnd HT HB] St. destruct St as [w op q e tokens Ht Hrun Htok|w chain rest Hperm].
  - pose proof (run_refines _ _ _ Q Ht) as Hr. rewrite Hrun in Hr. destruct Hr as (p' & Sp & Q'). exists p'.
    assert (HB' : qw_published w ++ published op e ≡ₚ
      (qw_returned w ++ returned e) ++ (qw_dropped w ++ dropped op e (qw_queue w)) ++ owned p').
    { rewrite HB. pose proof (step_books _ _ _ _ _ Sp Q) as Hs. rewrite <-!app_assoc, Hs.
      rewrite (app_assoc (qw_dropped w) (returned e)), (Permutation_app_comm (qw_dropped w) (returned e)).
      by rewrite <-!app_assoc. }
    enough (NoDup (sdc_id <$> tokens) /\ Forall (token_ok p') tokens) as [? ?] by by split.
    destruct Htok as [chain|chain used e rest Hperm|op e Hchain Hop].
    + by apply (popped_tokens _ _ _ _ _ Q Sp).
    + rewrite Hperm in Hnd, HT. rewrite fmap_cons in Hnd. apply NoDup_cons in Hnd as [Hni Hnd].
      apply Forall_cons in HT as [_ HT]. split; [done|]. rewrite Forall_forall in *. intros c Hc.
      assert (Hid : sdc_id chain <> sdc_id c).
      { intros E. apply Hni. rewrite E. apply list_elem_of_fmap. eauto. }
      eapply step_token_ok; eauto.
      * intros u [= E _]. by rewrite E in Hid.
      * intros c' u [= <- _]. split; [done|apply Ht].
    + split; [done|]. rewrite Forall_forall in *. intros c Hc. eapply step_token_ok; eauto.
      intros c' u E. by destruct (Hop c' u).
  - exists p. rewrite Hperm in Hnd, HT. rewrite fmap_cons in Hnd. apply NoDup_cons in Hnd as [_ Hnd].
    apply Forall_cons in HT as [_ HT]. by split.
Qed.

Lemma reachable_ok w : queue_reachable w -> exists p, world_ok w p.
Proof.
  induction 1 as [max limit q Hs Hq|w w' _ [p Hok] St]; [|by eapply step_world_ok].
  pose proof (new_rel _ _ _ Hs Hq) as Q. eexists. split; [exact Q|constructor|constructor|]. simpl.
  unfold owned. simpl. by rewrite map_to_list_empty.
Qed.

(** C12: no chain is lost or duplicated.  In every history the chains that were
    published are exactly those returned to the driver (as used, or reclaimed
    by its reset), those dropped by a device reset, and those still in the
    queue, each under the identity it was published with. *)
Theorem queue_conserves_chains w :
  queue_reachable w ->
  qw_published w ≡ₚ qw_returned w ++ qw_dropped w ++ queue_chains (qw_queue w).
Proof.
  intros H. destruct (reachable_ok w H) as (p & [Q _ _ HB]). rewrite HB. unfold queue_chains.
  by rewrite (reclaimed_owned _ _ Q).
Qed.

(** The error that means that the queue's own tables disagree. *)
Definition corrupt (e : QueueEvent) : Prop :=
  e = EvError (QueueTransport SqCorruptState) \/ exists data, e = EvRefused data (PublishTransport SqCorruptState).

Lemma publish_refusal_sane p inject chain : publish_refusal p inject chain <> Some (PublishTransport SqCorruptState).
Proof. unfold publish_refusal. repeat (case_match; simplify_eq; try done). Qed.

Lemma configure_refusal_sane p mem size : configure_refusal p mem size <> Some (QueueTransport SqCorruptState).
Proof. unfold configure_refusal. repeat (case_match; simplify_eq; try done). Qed.

(** A corrupt answer can only come from completing what is not in flight. *)
Lemma corrupt_inv op e p p' :
  spec_step op e p p' -> corrupt e ->
  exists chain used, op = OpComplete chain used /\ ci_epoch (sdc_id chain) = qp_epoch p /\
    ~ in_flight (qp_queue p) (Z.to_nat (ci_token (sdc_id chain))).
Proof.
  intros St [->|[data ->]].
  - inversion St; subst.
    + match goal with H : complete_refusal _ _ _ = _ |- _ => unfold complete_refusal in H; rename H into Hc end.
      destruct (Z.eqb_spec (ci_epoch (sdc_id chain)) (qp_epoch p')); [|done]. simpl in Hc.
      repeat case_match; simplify_eq. eexists chain, used. split_and!; [done..|]. by eapply bool_decide_eq_false_1.
    + exfalso. by eapply configure_refusal_sane.
    + destruct_or!; naive_solver.
  - inversion St; subst. exfalso. by eapply publish_refusal_sane.
Qed.

(** C14: the queue never reports corrupt state.  On every reachable queue, every
    operation with arguments of their types, where a completion uses a chain
    that the device holds, answers something else; so the checks behind
    [CorruptState], and the rollback of an allocation, never fire. *)
Theorem queue_never_corrupt w op :
  queue_reachable w -> op_typed op ->
  (forall chain used, op = OpComplete chain used -> chain ∈ qw_tokens w) ->
  ~ corrupt (queue_run op (qw_queue w)).2.
Proof.
  intros Hw Ht Hop Hcor. destruct (reachable_ok w Hw) as (p & [Q _ HT _]).
  pose proof (run_refines _ _ _ Q Ht) as Hr. destruct (queue_run op (qw_queue w)) as [q e]. simpl in Hcor.
  destruct Hr as (p' & Sp & _). destruct (corrupt_inv _ _ _ _ Sp Hcor) as (chain & used & -> & He & Hn).
  rewrite Forall_forall in HT. destruct (HT chain (Hop chain used eq_refl)) as [[Hold _]|(i & data & Hch & Hst & ->)]; [lia|].
  apply Hn. simpl. rewrite Nat2Z.id. split; [by rewrite Hch|done].
Qed.

(** C16: reset revokes the device's access.  Once the epoch of a chain that the
    device holds is over, its completion answers [ResetRace] and leaves the
    queue alone, [io] answers [ResetRace] without exposing a port, the request
    port reads nothing and the response port writes nothing. *)
Theorem stale_chain_is_inert w chain used h offset n source :
  queue_reachable w -> chain ∈ qw_tokens w ->
  ci_epoch (sdc_id chain) <> sq_current_epoch (qw_queue w) ->
  let current := sq_current_epoch (qw_queue w) in
  complete chain used (qw_queue w) = (qw_queue w, Err (QueueResetRace (ci_epoch (sdc_id chain)) current)) /\
  SplitDeviceChain_io current chain = Err (ChainResetRace (ci_epoch (sdc_id chain)) current) /\
  SplitSource_read_at current h (sdc_source chain) offset n = Err AccessReset /\
  SplitSink_write_at current (sdc_sink chain) offset source h = (h, Err AccessReset).
Proof.
  intros Hw Hin Hne current. destruct (reachable_ok w Hw) as (p & [Q _ HT _]).
  rewrite Forall_forall in HT. assert (Hform : chain = SplitDeviceChain_new (sdc_id chain) (sdc_data chain) (sdc_max_descriptors chain))
    by (destruct (HT chain Hin) as [[_ H]|(i & data & _ & _ & ->)]; done).
  pose proof (qr_epoch _ _ Q) as He. pose proof (qr_state _ _ Q) as Hs. unfold current in *. rewrite He in *.
  rewrite Hform. unfold complete, SplitDeviceChain_io, SplitDeviceChain_check_epoch, SplitSource_read_at,
    SplitSource_check_epoch, SplitSink_write_at, SplitSink_check_epoch, SplitDeviceChain_new. simpl. rewrite Hs.
  rewrite !(proj2 (Z.eqb_neq _ _)) by congruence. done.
Qed.

(** ** A command over the queue *)

Lemma publish_Ok q q1 chain r : queue_run (OpPublish false chain) q = (q1, EvPublished r) -> publish chain q = (q1, Ok r).
Proof. simpl. destruct (publish chain q) as [? []]; by intros [= -> ->]. Qed.

Lemma ev_Ok {A} (f : A -> QueueEvent) qr q e :
  ev f qr = (q, e) -> (forall x, e <> EvError x) -> exists a, qr = (q, Ok a) /\ e = f a.
Proof. destruct qr as [q0 [a|x]]; unfold ev; simpl; intros [= <- <-] Hne; [eauto|by destruct (Hne x)]. Qed.

(** A rule of [spec_step] for other operations. *)
Ltac other_op :=
  exfalso;
  repeat match goal with
         | H : _ ∈ _ :: _ |- _ => apply elem_of_cons in H as [?|H]; [discriminate|]
         | H : _ ∈ [] |- _ => by apply elem_of_nil in H
         | H : _ \/ _ |- _ => destruct H
         | H : exists _, _ |- _ => destruct H
         | H : _ /\ _ |- _ => destruct H
         end; congruence.

(** The answers of the abstract queue where there is only one. *)
Lemma publish_inv p p' chain inject e :
  spec_step (OpPublish inject chain) e p p' -> publish_refusal p inject chain = None ->
  exists i, e = EvPublished {| pc_id := token (qp_epoch p) i; pc_notification := hint (qp_notify_available p) |} /\
    p' = qp_with (aq_publish i (dc_data chain) (qp_queue p)) p.
Proof. inversion 1; subst; intros; try congruence; [eauto|other_op..]. Qed.

Lemma pop_available_inv p p' e i pending data :
  spec_step OpPopAvailable e p p' -> qp_ready p = true -> aq_pending (qp_queue p) = i :: pending ->
  aq_chains (qp_queue p) !! i = Some data ->
  e = EvChain (Some (SplitDeviceChain_new (token (qp_epoch p) i) data (qp_limit p))) /\
  p' = qp_with {| aq_pending := pending; aq_done := aq_done (qp_queue p); aq_chains := aq_chains (qp_queue p) |} p.
Proof.
  inversion 1; subst; intros; try congruence; try other_op.
  all: repeat match goal with H : ?x = _, H' : ?x = _ |- _ => rewrite H in H'; simplify_eq end; done.
Qed.

Lemma complete_inv p p' e chain used :
  spec_step (OpComplete chain used) e p p' -> complete_refusal p chain used = None ->
  e = EvHint (hint (qp_notify_used p)) /\
  p' = qp_with (aq_finish (Z.to_nat (ci_token (sdc_id chain))) used (qp_queue p)) p.
Proof. inversion 1; subst; intros; try congruence; solve [done|other_op]. Qed.

Lemma pop_used_inv p p' e i used finished data :
  spec_step OpPopUsed e p p' -> qp_ready p = true -> aq_done (qp_queue p) = (i, used) :: finished ->
  aq_chains (qp_queue p) !! i = Some data ->
  e = EvUsed (Some (token (qp_epoch p) i, used, data)).
Proof.
  inversion 1; subst; intros; try congruence; try other_op.
  all: repeat match goal with H : ?x = _, H' : ?x = _ |- _ => rewrite H in H'; simplify_eq end; done.
Qed.

(** A chain that fits is accepted and, first in line, handed to the device. *)
Lemma publish_pop q p chain :
  queue_rel q p -> qp_ready p = true -> chain_wf chain -> publish_refusal p false chain = None ->
  aq_pending (qp_queue p) = [] ->
  exists q1 q2 i n p2,
    let c := SplitDeviceChain_new (token (qp_epoch p) i) (dc_data chain) (qp_limit p) in
    publish chain q = (q1, Ok {| pc_id := token (qp_epoch p) i; pc_notification := n |}) /\
    pop_available q1 = (q2, Ok (Some c)) /\ queue_rel q2 p2 /\ in_flight (qp_queue p2) i /\
    qp_state p2 = qp_state p /\ aq_done (qp_queue p2) = aq_done (qp_queue p) /\
    aq_chains (qp_queue p2) !! i = Some (dc_data chain).
Proof.
  intros Q Hready Hwf Hfit Hpend. pose proof (run_refines q p (OpPublish false chain) Q Hwf) as H1.
  destruct (queue_run (OpPublish false chain) q) as [q1 e1] eqn:E1. destruct H1 as (p1 & S1 & Q1).
  destruct (publish_inv _ _ _ _ _ S1 Hfit) as (i & -> & ->).
  pose proof (run_refines q1 _ OpPopAvailable Q1 I) as H2.
  destruct (queue_run OpPopAvailable q1) as [q2 e2] eqn:E2. destruct H2 as (p2 & S2 & Q2).
  destruct (pop_available_inv _ _ _ i [] (dc_data chain) S2) as [-> ->]; [done| |simpl; apply lookup_insert_eq|].
  { simpl. by rewrite Hpend. }
  apply publish_Ok in E1. apply ev_Ok in E2 as (a & E2 & [= <-]); [|done].
  destruct (popped_tokens _ _ _ _ [] Q1 S2) as [_ Htok]; [constructor|constructor|].
  apply Forall_cons in Htok as [[[Hold _]|(j & d & Hch & Hst & Heq)] _]; [simpl in Hold; lia|].
  assert (j = i) as -> by (injection Heq; lia).
  exists q1, q2, i, (hint (qp_notify_available p)). eexists.
  split_and!; [exact E1|exact E2|exact Q2|split; [by eexists|exact Hst]|done|done|simpl; apply lookup_insert_eq].
Qed.

(** A chain in flight is completed and, first in line, returned to the driver. *)
Lemma complete_pop q p i data limit used :
  queue_rel q p -> qp_ready p = true -> in_flight (qp_queue p) i -> aq_chains (qp_queue p) !! i = Some data ->
  aq_done (qp_queue p) = [] -> 0 <= used <= writable_len data ->
  exists q1 q2 n chain,
    complete (SplitDeviceChain_new (token (qp_epoch p) i) data limit) used q = (q1, Ok n) /\
    pop_used q1 = (q2, Ok (Some {| uc_id := token (qp_epoch p) i; uc_used := used; uc_chain := chain |})) /\
    dc_data chain = data.
Proof.
  intros Q Hready Hfly Hch Hdone Hused. set (c := SplitDeviceChain_new _ _ _).
  assert (Ht : op_typed (OpComplete c used)) by (simpl; lia).
  pose proof (run_refines q p (OpComplete c used) Q Ht) as H1.
  destruct (queue_run (OpComplete c used) q) as [q1 e1] eqn:E1. destruct H1 as (p1 & S1 & Q1).
  assert (Hok : complete_refusal p c used = None).
  { unfold complete_refusal. simpl. rewrite Z.eqb_refl, Hready, Nat2Z.id. simpl.
    rewrite (proj2 (Z.ltb_ge _ _)), bool_decide_eq_true_2 by (done || lia). done. }
  destruct (complete_inv _ _ _ _ _ S1 Hok) as [-> ->].
  pose proof (run_refines q1 _ OpPopUsed Q1 I) as H2.
  destruct (queue_run OpPopUsed q1) as [q2 e2] eqn:E2. destruct H2 as (p2 & S2 & Q2).
  apply (pop_used_inv _ _ _ i used [] data) in S2; [|done|simpl; by rewrite Hdone, Nat2Z.id|done]. subst e2.
  apply ev_Ok in E1 as (n & E1 & _); [|done]. apply ev_Ok in E2 as (u & E2 & Hu); [|done].
  destruct u as [u|]; [|done]. destruct u as [id len chain]. injection Hu as <- <- Hd. exists q1, q2, n, chain. by rewrite Hd.
Qed.

(** C15: a command travels through the queue intact.  On a reachable, ready
    queue that has nothing pending in either direction (other chains may be in
    flight), a valid chain whose descriptors fit is accepted; the device pops
    it and reads the request that the driver wrote; what the device writes and
    completes comes back to the driver under the same identity with the used
    length it gave, and the driver reads the response. *)
Theorem queue_exchange w s chain layout h request response :
  let q := qw_queue w in
  queue_reachable w -> qs_ready (sq_state q) = true -> sq_storage q = Some s ->
  rs_available_count s = 0 -> rs_used_count s = 0 ->
  chain_wf chain -> data_ok h (dc_data chain) -> DriverChain_validation chain = Ok layout ->
  DriverChain_descriptor_count chain <= sq_max_chain_descriptors q ->
  DriverChain_descriptor_count chain <= rs_free_descriptors s ->
  zlen request <= readable_len (dc_data chain) -> zlen response <= writable_len (dc_data chain) ->
  exists h1 q1 id n c q2 h2 q3 n' q4 chain',
    DriverChain_write_device_readable chain 0 request h = (h1, Ok tt) /\
    publish chain q = (q1, Ok {| pc_id := id; pc_notification := n |}) /\
    pop_available q1 = (q2, Ok (Some c)) /\
    SplitSource_read_at (ci_epoch id) h1 (sdc_source c) 0 (zlen request) = Ok request /\
    SplitSink_write_at (ci_epoch id) (sdc_sink c) 0 response h1 = (h2, Ok tt) /\
    complete c (zlen response) q2 = (q3, Ok n') /\
    pop_used q3 = (q4, Ok (Some {| uc_id := id; uc_used := zlen response; uc_chain := chain' |})) /\
    DriverChain_read_device_writable h2 chain' 0 (zlen response) = Ok response /\
    ci_epoch id = sq_current_epoch q2.
Proof.
  intros q Hw Hready Hs Hav Hus Hwf Hdata Hval Hlim Hfree Hreq Hresp.
  destruct (reachable_ok w Hw) as (p & [Q _ _ _]). fold q in Q. rewrite (qr_state _ _ Q) in Hready.
  destruct (rel_storage _ _ Q (qr_ready _ _ Q Hready)) as (s' & Hs' & Hsize & _ & R). rewrite Hs in Hs'. simplify_eq.
  rename s' into s. destruct (descriptor_count_wf _ Hwf) as [Hcnt _].
  pose proof (rg_count _ _ _ _ _ _ (rr_available _ _ _ R)) as Ca. pose proof (rg_count _ _ _ _ _ _ (rr_used _ _ _ R)) as Cu.
  assert (Hpend : aq_pending (qp_queue p) = [])
    by (destruct (aq_pending (qp_queue p)); [done|unfold zlen in Ca; simpl in Ca; lia]).
  assert (Hdone : aq_done (qp_queue p) = [])
    by (destruct (aq_done (qp_queue p)); [done|unfold zlen in Cu; simpl in Cu; lia]).
  pose proof (size_ok_bounds _ (tr_size _ _ _ _ _ _ _ (rr_table _ _ _ R))) as Hsz.
  assert (Hfit : publish_refusal p false chain = None).
  { unfold publish_refusal. rewrite Hready, Hval, Hpend, <-Hsize, <-(tr_weight _ _ _ _ _ _ _ (rr_table _ _ _ R)), <-Hcnt.
    rewrite (qr_limit _ _ Q) in Hlim. cbn [negb]. change (zlen (@nil nat)) with 0. rewrite !(proj2 (Z.ltb_ge _ _)), (proj2 (Z.eqb_neq _ _)) by lia. done. }
  destruct (publish_pop q p chain Q Hready Hwf Hfit Hpend) as (q1 & q2 & i & n & p2 & E1 & E2 & Q2 & Hfly & Hst & Hd2 & Hch).
  assert (Hr2 : qp_ready p2 = true) by by rewrite Hst. rewrite Hdone in Hd2. pose proof (zlen_nonneg response).
  destruct (complete_pop q2 p2 i (dc_data chain) (qp_limit p) (zlen response) Q2 Hr2 Hfly Hch Hd2 ltac:(lia))
    as (q3 & q4 & n' & chain' & E3 & E4 & Hdc). rewrite Hst in E3, E4.
  pose proof (zlen_nonneg request).
  destruct (chain_exchange h chain (token (qp_epoch p) i) (qp_limit p) 0 request 0 response Hdata ltac:(lia) Hreq
    ltac:(lia) Hresp) as (h1 & h2 & X1 & X2 & X3 & X4 & _).
  exists h1, q1, (token (qp_epoch p) i), n, (SplitDeviceChain_new (token (qp_epoch p) i) (dc_data chain) (qp_limit p)),
    q2, h2, q3, n', q4, chain'.
  split_and!; try done; [|by rewrite (qr_epoch _ _ Q2), Hst].
  unfold DriverChain_read_device_writable in *. by rewrite Hdc.
Qed.

(** ** A history on which the properties are applied *)

Module QueueDemo.

Definition mem : RingMemory := {| rm_descriptors := true; rm_records := true; rm_available := true; rm_used := true |}.

(** The world after an operation that leaves the device with [tokens]. *)
Definition after (op : QueueOp) (tokens : list SplitDeviceChain) (w : QueueWorld) : QueueWorld :=
  let '(q, e) := queue_run op (qw_queue w) in
  {| qw_queue := q; qw_tokens := tokens;
     qw_published := qw_published w ++ published op e;
     qw_returned := qw_returned w ++ returned e;
     qw_dropped := qw_dropped w ++ dropped op e (qw_queue w) |}.

Lemma reach_after op tokens w :
  queue_reachable w -> op_typed op -> tokens_after (qw_tokens w) op (queue_run op (qw_queue w)).2 tokens ->
  queue_reachable (after op tokens w).
Proof.
  intros Hw Ht Htok. eapply queue_reach_step; [exact Hw|]. unfold after.
  destruct (queue_run op (qw_queue w)) as [q e] eqn:E. by eapply queue_step_op.
Qed.

Definition start : SplitQueue :=
  Eval vm_compute in match SplitQueue_new 8 4 with Ok q => q | Err _ =>
    {| sq_state := QueueState_unconfigured 0 0; sq_max_chain_descriptors := 0; sq_current_epoch := 0;
       sq_storage := None; sq_available_notifications := false; sq_used_notifications := false |} end.

Definition chain : DriverChain := ChainDemo.chain.
Definition held : SplitDeviceChain := SplitDeviceChain_new (token 1 0) (dc_data chain) 4.

Definition w0 : QueueWorld := queue_start start.
Definition w1 : QueueWorld := Eval vm_compute in after (OpConfigure mem 8) [] w0.
Definition w2 : QueueWorld := Eval vm_compute in after (OpSetReady true) [] w1.
Definition w3 : QueueWorld := Eval vm_compute in after (OpPublish false chain) [] w2.
Definition w4 : QueueWorld := Eval vm_compute in after OpPopAvailable [held] w3.
Definition w5 : QueueWorld := Eval vm_compute in after (OpDriverReset 2) [held] w4.

(** The ring storage of the ready queue. *)
Definition storage : RingStorage :=
  Eval vm_compute in match RingStorage_new mem 8 with Ok s => s | Err _ =>
    {| rs_size := 0; rs_descriptors := []; rs_records := []; rs_available := []; rs_used := [];
       rs_available_index := 0; rs_consumed_available := 0; rs_used_index := 0; rs_consumed_used := 0;
       rs_available_count := 0; rs_used_count := 0; rs_active_chains := 0; rs_free_descriptors := 0;
       rs_next_descriptor := 0 |} end.

Lemma size_8 : size_ok 8.
Proof. exists 3. split; [lia|done]. Qed.

Lemma reach0 : queue_reachable w0.
Proof. apply (queue_reach_new 8 4); [apply size_8|done]. Qed.

Lemma chain_wf_demo : chain_wf chain.
Proof. split; [done|by vm_compute]. Qed.

Lemma reach2 : queue_reachable w2.
Proof.
  assert (H1 : queue_reachable w1).
  { change w1 with (after (OpConfigure mem 8) [] w0). apply reach_after; [apply reach0|apply size_8|].
    apply tokens_kept; intros; vm_compute; discriminate. }
  change w2 with (after (OpSetReady true) [] w1). apply reach_after; [done..|].
  apply tokens_kept; intros; vm_compute; discriminate.
Qed.

Lemma reach4 : queue_reachable w4.
Proof.
  assert (H3 : queue_reachable w3).
  { change w3 with (after (OpPublish false chain) [] w2). apply reach_after; [apply reach2|apply chain_wf_demo|].
    apply tokens_kept; intros; vm_compute; discriminate. }
  change w4 with (after OpPopAvailable [held] w3). apply reach_after; [done..|].
  apply (tokens_popped [] held).
Qed.

Lemma reach5 : queue_reachable w5.
Proof.
  change w5 with (after (OpDriverReset 2) [held] w4). apply reach_after; [apply reach4|done|].
  apply (tokens_kept [held]); intros; vm_compute; discriminate.
Qed.

Lemma rel0 :
  queue_rel start {| qp_state := QueueState_unconfigured 8 QueueEpoch_INITIAL; qp_limit := 4;
    qp_notify_available := true; qp_notify_used := true; qp_queue := aq_empty |}.
Proof. by apply (new_rel 8 4); [apply size_8|]. Qed.

Lemma split_queue_refines_witness :
  exists p', queue_rel (queue_run (OpConfigure mem 8) start).1 p'.
Proof.
  destruct (split_queue_refines start _ (OpConfigure mem 8) rel0 size_8) as (p' & _ & H). exists p'. exact H.
Defined.

Lemma queue_conserves_chains_witness :
  qw_published w5 ≡ₚ qw_returned w5 ++ qw_dropped w5 ++ queue_chains (qw_queue w5).
Proof. exact (queue_conserves_chains w5 reach5). Defined.

Lemma queue_never_corrupt_witness : ~ corrupt (queue_run (OpComplete held 5) (qw_queue w4)).2.
Proof.
  apply (queue_never_corrupt w4 (OpComplete held 5) reach4); [vm_compute; split; discriminate|].
  intros c u [= <- _]. apply list_elem_of_here.
Defined.

Lemma stale_chain_is_inert_witness : SplitDeviceChain_io 2 held = Err (ChainResetRace 1 2).
Proof.
  destruct (stale_chain_is_inert w5 held 5 ∅ 0 0 [] reach5 (list_elem_of_here _ _) ltac:(vm_compute; discriminate))
    as (_ & H & _). exact H.
Defined.

Lemma queue_exchange_witness :
  exists h2 q3 q4 id chain', 
    pop_used q3 = (q4, Ok (Some {| uc_id := id; uc_used := 3; uc_chain := chain' |})) /\
    DriverChain_read_device_writable h2 chain' 0 3 = Ok [1; 2; 3].
Proof.
  destruct (queue_exchange w2 storage chain
    {| cl_descriptor_count := 4; cl_readable_descriptors := 2; cl_writable_descriptors := 2;
       cl_readable_bytes := 5; cl_writable_bytes := 5 |} ChainDemo.heap [9; 8; 7; 6; 5] [1; 2; 3] reach2
    eq_refl eq_refl eq_refl eq_refl chain_wf_demo ChainDemo.chain_ok eq_refl)
    as (h1 & q1 & id & n & c & q2 & h2 & q3 & n' & q4 & chain' & _ & _ & _ & _ & _ & _ & H & H' & _);
    [vm_compute; discriminate..|].
  exists h2, q3, q4, id, chain'. split; [exact H|exact H'].
Defined.

End QueueDemo.
