(* ===== verification/DriverPorts.v ===== *)
(** * The driver's side of the transport ports
    ([crates/virtio-accel-transport/src/bytes.rs], [queue.rs])

    The traits [DriverChainBuffer], [DriverQueue] and [QueueControl] as
    classes of operations, and what their documentation promises as classes of
    laws: [ChainContract] for the bytes of a chain and [QueueContract] for the
    ownership of chains.  A client proved against the contracts works over
    every transport that keeps them.

    The bytes of chains live in a shared state of type [W] (guest memory), a
    chain is a value of type [C].  A queue may give a chain back with other
    bookkeeping than it came with, so the laws speak of the data [D] of a
    chain, which the queue does not touch. *)

From Stdlib Require Import ZArith Lia.
From stdpp Require Import prelude list.
From S2P Require Import Prelude Transport.

(** ** Operations *)

Class DriverChainBuffer (W C E : Type) := {
  device_readable_len : W -> C -> Z;
  device_writable_len : W -> C -> Z;
  write_device_readable : Z -> list Z -> W * C -> (W * C) * result unit E;
  read_device_writable : W -> C -> Z -> Z -> result (list Z) E;
}.

Class DriverQueue (Q C E R : Type) := {
  queue_state : Q -> QueueState;
  queue_publish : C -> Q -> Q * result PublishedChain (PublishError C E);
  queue_pop_used : Q -> Q * result (option (UsedChain C)) (QueueError E);
  queue_disable_used : Q -> Q * result unit (QueueError E);
  queue_enable_used : Q -> Q * result NotificationRecheck (QueueError E);
  queue_reset : Z -> Q -> Q * result R (QueueError E);
}.

Class QueueControl (Q E : Type) := {
  queue_configure : Z -> Q -> Q * result unit (QueueError E);
  queue_set_ready : bool -> Q -> Q * result unit (QueueError E);
}.

(** ** Contracts *)

(** A chain is two byte strings: the request, which the driver writes, and the
    response, which it reads.  [chain_sound] is what the chain's builder
    establishes of its bookkeeping, [chain_good] what it establishes of its
    bytes in memory. *)
Class ChainContract (W C D E : Type) `{DriverChainBuffer W C E} := {
  chain_data : C -> D;
  chain_sound : C -> Prop;
  chain_good : W -> D -> Prop;
  request_bytes : W -> D -> list Z;
  response_bytes : W -> D -> list Z;
  chain_readable_len w c : chain_good w (chain_data c) ->
    device_readable_len w c = zlen (request_bytes w (chain_data c)) /\
    zlen (request_bytes w (chain_data c)) <= U64_MAX;
  chain_writable_len w c : chain_good w (chain_data c) ->
    device_writable_len w c = zlen (response_bytes w (chain_data c)) /\
    zlen (response_bytes w (chain_data c)) <= U64_MAX;
  chain_write w c offset src : chain_good w (chain_data c) -> 0 <= offset ->
    offset + zlen src <= zlen (request_bytes w (chain_data c)) ->
    exists w' c', write_device_readable offset src (w, c) = ((w', c'), Ok tt) /\
      chain_data c' = chain_data c /\ chain_good w' (chain_data c) /\
      request_bytes w' (chain_data c) = splice offset src (request_bytes w (chain_data c)) /\
      response_bytes w' (chain_data c) = response_bytes w (chain_data c);
  chain_write_keeps w c offset src :
    let c' := (write_device_readable offset src (w, c)).1.2 in
    chain_data c' = chain_data c /\ (chain_sound c -> chain_sound c');
  chain_read w c offset n : chain_good w (chain_data c) -> 0 <= offset -> 0 <= n ->
    offset + n <= zlen (response_bytes w (chain_data c)) ->
    read_device_writable w c offset n = Ok (slice offset n (response_bytes w (chain_data c)));
  chain_read_outside w c offset n : chain_good w (chain_data c) -> 0 <= offset -> 0 <= n ->
    zlen (response_bytes w (chain_data c)) < offset + n ->
    exists e, read_device_writable w c offset n = Err e;
}.

(** A queue owns the chains in [queue_owned], under identities of its epoch.
    Ownership enters at [publish] and leaves at [pop_used] and [reset]; a
    refused operation leaves everything in place.  [queue_env] is what the
    device and the control plane may do meanwhile: they may move the queue to
    a later epoch, dropping chains, and never hand out new ones. *)
Class QueueContract (W Q C D E CE R : Type) `{DriverQueue Q C E R} `{ChainContract W C D CE} := {
  queue_inv : Q -> Prop;
  queue_owned : Q -> list (ChainId * D);
  reclaimed_chains : R -> list (ReclaimedChain C);
  queue_env : Q -> Q -> list (ChainId * D) -> Prop;
  queue_ids q : queue_inv q ->
    NoDup (queue_owned q).*1 /\ Forall (fun e => ci_epoch e.1 = qs_epoch (queue_state q)) (queue_owned q);
  queue_publish_law q c : queue_inv q -> chain_sound c ->
    let '(q', r) := queue_publish c q in
    queue_inv q' /\ queue_state q' = queue_state q /\
    match r with
    | Ok p => ci_epoch (pc_id p) = qs_epoch (queue_state q) /\
        queue_owned q' ≡ₚ (pc_id p, chain_data c) :: queue_owned q
    | Err e => chain_data (pe_chain e) = chain_data c /\ queue_owned q' ≡ₚ queue_owned q
    end;
  queue_pop_law q : queue_inv q ->
    let '(q', r) := queue_pop_used q in
    queue_inv q' /\ queue_state q' = queue_state q /\
    match r with
    | Ok (Some u) => queue_owned q ≡ₚ (uc_id u, chain_data (uc_chain u)) :: queue_owned q'
    | _ => queue_owned q' ≡ₚ queue_owned q
    end;
  queue_notify_law q : queue_inv q ->
    Forall (fun q' => queue_inv q' /\ queue_state q' = queue_state q /\ queue_owned q' ≡ₚ queue_owned q)
      [(queue_disable_used q).1; (queue_enable_used q).1];
  queue_reset_law q epoch : queue_inv q -> 0 < epoch ->
    let '(q', r) := queue_reset epoch q in
    queue_inv q' /\
    match r with
    | Ok chains => qs_epoch (queue_state q) < epoch /\ qs_epoch (queue_state q') = epoch /\
        queue_owned q' = [] /\
        (fun c => (rc_id c, chain_data (rc_chain c))) <$> reclaimed_chains chains ≡ₚ queue_owned q
    | Err _ => queue_state q' = queue_state q /\ queue_owned q' ≡ₚ queue_owned q
    end;
  queue_env_law q q' dropped : queue_inv q -> queue_env q q' dropped ->
    queue_inv q' /\ queue_owned q ≡ₚ queue_owned q' ++ dropped /\
    (qs_epoch (queue_state q) < qs_epoch (queue_state q') \/
     qs_epoch (queue_state q') = qs_epoch (queue_state q) /\ dropped = []);
}.

(** Configuring a queue, or making it ready, neither takes nor gives chains. *)
Class ControlContract (W Q C D E CE R : Type) `{QueueContract W Q C D E CE R} `{!QueueControl Q E} := {
  size_sound : Z -> Prop;
  queue_configure_law q size : queue_inv q -> size_sound size ->
    let q' := (queue_configure size q).1 in
    queue_inv q' /\ queue_owned q' ≡ₚ queue_owned q /\ qs_epoch (queue_state q') = qs_epoch (queue_state q);
  queue_ready_law q ready : queue_inv q ->
    let q' := (queue_set_ready ready q).1 in
    queue_inv q' /\ queue_owned q' ≡ₚ queue_owned q /\ qs_epoch (queue_state q') = qs_epoch (queue_state q);
}.
