(* ===== verification/GuestTypes.v ===== *)
(** * Values of the guest driver ([crates/virtio-accel-guest/src])

    [types.rs]: request values checked at construction, typed handles and the
    validated discovery result; [config.rs]: the guest's configuration;
    [operation.rs]: the trait [Operation] with its fifteen implementations,
    that is what a response to each request may say.  The guest crate has its
    own copies of types that the device side also has; where the names meet,
    those of the guest carry the prefix [Guest]. *)

From Stdlib Require Import ZArith Lia.
From stdpp Require Import prelude list.
From S2P Require Import Prelude Codec Proto Transport.

(** ** [types.rs] *)

Definition CAPABILITY_HOST_VISIBLE_MEMORY : Z := Z.shiftl 1 0.
Definition CAPABILITY_DEVICE_LOCAL_MEMORY : Z := Z.shiftl 1 1.
Definition CAPABILITY_EVENT_CANCELLATION : Z := Z.shiftl 1 2.
Definition CAPABILITY_RESERVED_EXTERNAL_MEMORY : Z := Z.shiftl 1 3.
Definition CAPABILITY_RESERVED_SECURE_CONTEXTS : Z := Z.shiftl 1 4.
Definition CAPABILITY_SHARED_MEMORY : Z := Z.shiftl 1 5.
Definition RESERVED_CAPABILITIES : Z :=
  Z.lor CAPABILITY_RESERVED_EXTERNAL_MEMORY CAPABILITY_RESERVED_SECURE_CONTEXTS.
Definition MEMORY_DOMAIN_CAPABILITIES : Z :=
  Z.lor (Z.lor CAPABILITY_HOST_VISIBLE_MEMORY CAPABILITY_DEVICE_LOCAL_MEMORY) CAPABILITY_SHARED_MEMORY.

(** The bits of the guest's [BufferUsage]. *)
Definition USAGE_TRANSFER_SOURCE : Z := Z.shiftl 1 0.
Definition USAGE_TRANSFER_DESTINATION : Z := Z.shiftl 1 1.
Definition USAGE_PROGRAM_INPUT : Z := Z.shiftl 1 2.
Definition USAGE_PROGRAM_OUTPUT : Z := Z.shiftl 1 3.
Definition USAGE_MUTABLE_STATE : Z := Z.shiftl 1 4.
Definition USAGE_ALL : Z :=
  Z.lor (Z.lor (Z.lor (Z.lor USAGE_TRANSFER_SOURCE USAGE_TRANSFER_DESTINATION) USAGE_PROGRAM_INPUT)
    USAGE_PROGRAM_OUTPUT) USAGE_MUTABLE_STATE.

(** [BufferUsage::from_bits]: no bit outside the known ones. *)
Definition GuestUsage_from_bits (bits : Z) : option Z :=
  if Z.land bits USAGE_ALL =? bits then Some bits else None.

Inductive GuestMemoryDomain := GuestHost | GuestDevice | GuestShared.

(** [domain as u8] *)
Definition GuestMemoryDomain_as_u8 (d : GuestMemoryDomain) : Z :=
  match d with GuestHost => 1 | GuestDevice => 2 | GuestShared => 3 end.

Inductive GuestAccessMode := GuestRead | GuestWrite | GuestReadWrite.

(** [access as u8] *)
Definition GuestAccessMode_as_u8 (a : GuestAccessMode) : Z :=
  match a with GuestRead => 1 | GuestWrite => 2 | GuestReadWrite => 3 end.

Inductive ValueError := ValueZero | ValueOverflow | ValueAlignment | ValueBufferUsage.

Inductive FailureDisposition := Retryable | Invalidated | Indeterminate | Unknown.

#[global] Instance FailureDisposition_eq_dec : EqDecision FailureDisposition.
Proof. solve_decision. Defined.

Record GuestBufferDesc := {
  gd_bytes : Z;
  gd_alignment : Z;
  gd_memory_domain : GuestMemoryDomain;
  gd_usage : Z;
}.

Definition GuestBufferDesc_new (bytes alignment : Z) (memory_domain : GuestMemoryDomain) (usage : Z) :
    result GuestBufferDesc ValueError :=
  if bytes =? 0 then Err ValueZero
  else if negb (is_power_of_two alignment) then Err ValueAlignment
  else if (usage =? 0) || bool_decide (GuestUsage_from_bits usage = None) then Err ValueBufferUsage
  else Ok {| gd_bytes := bytes; gd_alignment := alignment; gd_memory_domain := memory_domain;
             gd_usage := usage |}.

Record GuestBufferRange := {
  gr_offset : Z;
  gr_bytes : Z;
}.

Definition GuestBufferRange_new (offset bytes : Z) : result GuestBufferRange ValueError :=
  if bytes =? 0 then Err ValueZero
  else
    let? _ := ok_or (checked_add U64_MAX offset bytes) ValueOverflow in
    Ok {| gr_offset := offset; gr_bytes := bytes |}.

Definition GuestBufferRange_fits (self : GuestBufferRange) (limit : Z) : bool :=
  match checked_add U64_MAX (gr_offset self) (gr_bytes self) with
  | Some stop => stop <=? limit
  | None => false
  end.

Record ProgramDesc := {
  pd_format : Z;
  pd_target : list Z;
  pd_resident_bytes : Z;
}.

Record Handle := {
  h_id : Z;
  h_epoch : Z;
}.

(** The four types of the macro [simple_handle!]. *)
Inductive HandleKind := KindContext | KindProgram | KindExecutionQueue | KindEvent.

Record SimpleHandle (k : HandleKind) := {
  sh_handle : Handle;
  sh_context : option Z;
}.
Arguments Build_SimpleHandle {k} _ _.
Arguments sh_handle {k} _.
Arguments sh_context {k} _.

Abbreviation GuestContext := (SimpleHandle KindContext).
Abbreviation GuestProgram := (SimpleHandle KindProgram).
Abbreviation GuestExecutionQueue := (SimpleHandle KindExecutionQueue).
Abbreviation GuestEvent := (SimpleHandle KindEvent).

Definition handle_raw {k} (self : SimpleHandle k) : Z := h_id (sh_handle self).
Definition handle_epoch {k} (self : SimpleHandle k) : Z := h_epoch (sh_handle self).

Record GuestBuffer := {
  gb_handle : Handle;
  gb_context : Z;
  gb_desc : GuestBufferDesc;
}.

Definition buffer_raw (self : GuestBuffer) : Z := h_id (gb_handle self).
Definition buffer_epoch (self : GuestBuffer) : Z := h_epoch (gb_handle self).

Record GuestBinding := {
  bi_buffer : GuestBuffer;
  bi_range : GuestBufferRange;
  bi_slot : Z;
  bi_access : GuestAccessMode;
}.

Record GuestDeviceInfo := {
  gi_uuid : list Z;
  gi_class : Z;
  gi_vendor_id : Z;
  gi_device_id : Z;
  gi_capabilities : Z;
  gi_max_contexts : Z;
  gi_max_buffers_per_context : Z;
  gi_max_programs_per_context : Z;
  gi_max_queues_per_context : Z;
  gi_max_events_per_context : Z;
  gi_max_bindings_per_submission : Z;
  gi_max_buffer_bytes : Z;
  gi_max_artifact_bytes : Z;
}.

Inductive GuestDeviceInfoError :=
  | GuestInfoReserved
  | GuestInfoReservedCapabilities
  | GuestInfoMissingMemoryDomain
  | GuestInfoZeroLimit
  | GuestInfoBindingLimit
  | GuestInfoArtifactLimit.

(** The thirteen fields that [from_wire] copies once the checks have passed. *)
Definition info_of_wire (w : WireDeviceInfo) : GuestDeviceInfo := {|
  gi_uuid := wd_uuid w;
  gi_class := wd_class w;
  gi_vendor_id := wd_vendor_id w;
  gi_device_id := wd_device_id w;
  gi_capabilities := wd_capabilities w;
  gi_max_contexts := wd_max_contexts w;
  gi_max_buffers_per_context := wd_max_buffers_per_context w;
  gi_max_programs_per_context := wd_max_programs_per_context w;
  gi_max_queues_per_context := wd_max_queues_per_context w;
  gi_max_events_per_context := wd_max_events_per_context w;
  gi_max_bindings_per_submission := wd_max_bindings_per_submission w;
  gi_max_buffer_bytes := wd_max_buffer_bytes w;
  gi_max_artifact_bytes := wd_max_artifact_bytes w;
|}.

Definition GuestDeviceInfo_from_wire (w : WireDeviceInfo) (max_request_bytes : Z) :
    result GuestDeviceInfo GuestDeviceInfoError :=
  if negb (wd_reserved w =? 0) then Err GuestInfoReserved
  else if negb (Z.land (wd_capabilities w) RESERVED_CAPABILITIES =? 0)
  then Err GuestInfoReservedCapabilities
  else if Z.land (wd_capabilities w) MEMORY_DOMAIN_CAPABILITIES =? 0
  then Err GuestInfoMissingMemoryDomain
  else
    let limits := [wd_max_contexts w; wd_max_buffers_per_context w; wd_max_programs_per_context w;
                   wd_max_queues_per_context w; wd_max_events_per_context w] in
    if existsb (Z.eqb 0) limits then Err GuestInfoZeroLimit
    else if negb (in_range 1 HARD_MAX_BINDINGS (wd_max_bindings_per_submission w))
    then Err GuestInfoBindingLimit
    else if (wd_max_buffer_bytes w =? 0) || (wd_max_artifact_bytes w =? 0)
    then Err GuestInfoZeroLimit
    else
      let? artifact_frame :=
        ok_or (match checked_add U64_MAX 16 80 with
               | Some bytes => checked_add U64_MAX bytes (wd_max_artifact_bytes w)
               | None => None
               end) GuestInfoArtifactLimit in
      if max_request_bytes <? artifact_frame then Err GuestInfoArtifactLimit
      else Ok (info_of_wire w).

Definition supports_event_cancellation (self : GuestDeviceInfo) : bool :=
  negb (Z.land (gi_capabilities self) CAPABILITY_EVENT_CANCELLATION =? 0).

Definition supports_domain (self : GuestDeviceInfo) (domain : GuestMemoryDomain) : bool :=
  let bit := match domain with
             | GuestHost => CAPABILITY_HOST_VISIBLE_MEMORY
             | GuestDevice => CAPABILITY_DEVICE_LOCAL_MEMORY
             | GuestShared => CAPABILITY_SHARED_MEMORY
             end in
  negb (Z.land (gi_capabilities self) bit =? 0).

Inductive GuestEventState :=
  | GuestPending
  | GuestComplete
  | GuestFailed (status : StatusCode)
  | GuestCancelled.

Inductive SubmissionOutcome :=
  | Accepted (event : GuestEvent)
  | AdmissionIndeterminate (status : StatusCode) (event : GuestEvent).

Record ReadBufferOutput := { ro_bytes : Z }.

(** ** [config.rs] *)

Record GuestConfig := {
  gcf_wire : WireConfig;
  gcf_max_inflight : Z;
}.

Inductive GuestConfigError :=
  | ConfigWire (error : ConfigError)
  | ConfigFeatures
  | ConfigQueueNotConfigured
  | ConfigQueueNotReady
  | ConfigQueueSize
  | ConfigInflightLimit.

Definition GuestConfig_new (w : WireConfig) (offered_features max_inflight : Z) :
    result GuestConfig GuestConfigError :=
  let? _ := map_err ConfigWire (WireConfig_validate w) in
  if negb (offered_features =? 0) then Err ConfigFeatures
  else if max_inflight =? 0 then Err ConfigInflightLimit
  else Ok {| gcf_wire := w; gcf_max_inflight := max_inflight |}.

Definition validate_size (self : GuestConfig) (size : Z) : result unit GuestConfigError :=
  if size <? wc_max_chain_descriptors (gcf_wire self) then Err ConfigQueueSize
  else if size <? gcf_max_inflight self then Err ConfigInflightLimit
  else Ok tt.

Definition validate_queue (self : GuestConfig) (state : QueueState) : result unit GuestConfigError :=
  let? size := ok_or (qs_size state) ConfigQueueNotConfigured in
  if negb (qs_ready state) then Err ConfigQueueNotReady
  else validate_size self size.

(** ** [operation.rs] *)

Definition GUEST_RESPONSE_HEADER_BYTES : Z := 16.
Definition MAX_FIXED_PAYLOAD_BYTES : Z := size_of WireDeviceInfo.

Inductive ResponseError (E : Type) :=
  | RespUsedLength (used : Z)
  | RespResponseLimit
  | RespHeaderAccess (error : E)
  | RespPayloadAccess (error : E)
  | RespRequestId (expected actual : Z)
  | RespFlags (flags : Z)
  | RespPayloadLength (expected actual : Z)
  | RespPayloadEncoding
  | RespObjectId
  | RespDeviceInfo (error : GuestDeviceInfoError)
  | RespEventState (state : Z)
  | RespEventStatus (state : Z) (error : StatusCode).
Arguments RespUsedLength {E} _.
Arguments RespResponseLimit {E}.
Arguments RespHeaderAccess {E} _.
Arguments RespPayloadAccess {E} _.
Arguments RespRequestId {E} _ _.
Arguments RespFlags {E} _.
Arguments RespPayloadLength {E} _ _.
Arguments RespPayloadEncoding {E}.
Arguments RespObjectId {E}.
Arguments RespDeviceInfo {E} _.
Arguments RespEventState {E} _.
Arguments RespEventStatus {E} _ _.

Inductive OperationResult (T : Type) :=
  | OpSuccess (output : T)
  | OpDeviceError (status : StatusCode).
Arguments OpSuccess {T} _.
Arguments OpDeviceError {T} _.

(** [Operation::failure_disposition], which no operation overrides. *)
Definition failure_disposition (status : StatusCode) : FailureDisposition :=
  if negb (StatusCode_is_known status) then Unknown
  else if status =? STATUS_STALE_OBJECT then Invalidated
  else if status =? STATUS_DEVICE_LOST then Indeterminate
  else Retryable.

(** The trait.  [decode] sees of the chain only [read_device_writable]: the
    argument [read offset n] fills a target of [n] bytes. *)
Class Operation (O : Type) := {
  Output : Type;
  opcode : O -> KnownOpcode;
  requires_discovery : O -> bool;
  op_decode : forall {E}, O -> (Z -> Z -> result (list Z) E) -> StatusCode -> Z -> Z -> GuestConfig ->
    result (OperationResult Output) (ResponseError E);
  discovered_info : Output -> option GuestDeviceInfo;
  output_requires_reset : Output -> bool;
}.
Arguments Output O {_}.

Definition expect_payload {E} (actual expected : Z) : result unit (ResponseError E) :=
  if actual =? expected then Ok tt else Err (RespPayloadLength expected actual).

Section Decoding.
Context {E : Type} (read : Z -> Z -> result (list Z) E).

Definition read_response (T : Type) `{Wire T} : result T (ResponseError E) :=
  let bytes := size_of T in
  if MAX_FIXED_PAYLOAD_BYTES <? bytes then Err RespPayloadEncoding
  else
    let? scratch := map_err RespPayloadAccess (read GUEST_RESPONSE_HEADER_BYTES bytes) in
    map_err (fun _ => RespPayloadEncoding) (read_exact T scratch).

Definition ordinary {T} (status : StatusCode) (payload_bytes success_bytes : Z)
    (success : unit -> result T (ResponseError E)) : result (OperationResult T) (ResponseError E) :=
  if negb (StatusCode_is_success status) then
    let? _ := expect_payload payload_bytes 0 in
    Ok (OpDeviceError status)
  else
    let? _ := expect_payload payload_bytes success_bytes in
    result_map OpSuccess (success tt).

Definition ordinary_object {T} (status : StatusCode) (payload_bytes : Z) (construct : Z -> T) :
    result (OperationResult T) (ResponseError E) :=
  ordinary status payload_bytes (size_of ObjectPayload) (fun _ =>
    let? object := read_response ObjectPayload in
    let? id := ok_or (nonzero (op_object_id object)) RespObjectId in
    Ok (construct id)).

Definition decode_event (epoch context : Z) : result GuestEvent (ResponseError E) :=
  let? response := read_response SubmitResponse in
  let? id := ok_or (nonzero (sp_event_id response)) RespObjectId in
  Ok {| sh_handle := {| h_id := id; h_epoch := epoch |}; sh_context := Some context |}.

Definition decode_event_state : result GuestEventState (ResponseError E) :=
  let? value := read_response WireEventState in
  if negb (we_reserved value =? 0) then Err RespPayloadEncoding
  else
    let raw_state := we_state value in
    let error := we_error value in
    let? state := map_err (fun _ => RespEventState raw_state) (WireEventState_known_state value) in
    match state, StatusCode_is_success error with
    | EvPending, true => Ok GuestPending
    | EvComplete, true => Ok GuestComplete
    | EvFailed, false => Ok (GuestFailed error)
    | EvCancelled, true => Ok GuestCancelled
    | _, _ => Err (RespEventStatus raw_state error)
    end.

(** [Submit::decode] *)
Definition decode_submission (context : Z) (status : StatusCode) (payload_bytes epoch : Z) :
    result (OperationResult SubmissionOutcome) (ResponseError E) :=
  if StatusCode_is_success status then
    let? _ := expect_payload payload_bytes (size_of SubmitResponse) in
    let? event := decode_event epoch context in
    Ok (OpSuccess (Accepted event))
  else if payload_bytes =? 0 then Ok (OpDeviceError status)
  else if negb (StatusCode_is_known status) then Err (RespPayloadLength 0 payload_bytes)
  else
    let? _ := expect_payload payload_bytes (size_of SubmitResponse) in
    let? event := decode_event epoch context in
    Ok (OpSuccess (AdmissionIndeterminate status event)).

End Decoding.

(** The operations, each the metadata retained until its response. *)
Inductive GetDeviceInfo := MkGetDeviceInfo.
Inductive CreateContext := MkCreateContext.
Record DestroyContext := { dx_context : GuestContext }.
Record AllocateBuffer := { al_context : Z; al_desc : GuestBufferDesc }.
Record FreeBuffer := { fb_buffer : GuestBuffer }.
Inductive WriteBuffer := MkWriteBuffer.
Record ReadBuffer := { rdb_bytes : Z }.
Record LoadProgram := { ld_context : Z; ld_desc : ProgramDesc }.
Record UnloadProgram := { ul_program : GuestProgram }.
Record CreateExecutionQueue := { ceq_context : Z }.
Record DestroyExecutionQueue := { deq_queue : GuestExecutionQueue }.
Record Submit := { sm_context : Z }.
Inductive PollEvent := MkPollEvent.
Inductive CancelEvent := MkCancelEvent.
Record DestroyEvent := { de_event : GuestEvent }.

(** An operation without a payload in its success response. *)
Definition empty_decode {E} (read : Z -> Z -> result (list Z) E) (status : StatusCode)
    (payload_bytes : Z) : result (OperationResult unit) (ResponseError E) :=
  ordinary status payload_bytes 0 (fun _ => Ok tt).

#[global] Instance GetDeviceInfo_op : Operation GetDeviceInfo := {|
  Output := GuestDeviceInfo;
  opcode _ := OpGetDeviceInfo;
  requires_discovery _ := false;
  op_decode E _ read status payload_bytes _ config :=
    ordinary status payload_bytes (size_of WireDeviceInfo) (fun _ =>
      let? w := read_response read WireDeviceInfo in
      map_err RespDeviceInfo (GuestDeviceInfo_from_wire w (wc_max_request_bytes (gcf_wire config))));
  discovered_info output := Some output;
  output_requires_reset _ := false;
|}.

#[global] Instance CreateContext_op : Operation CreateContext := {|
  Output := GuestContext;
  opcode _ := OpCreateContext;
  requires_discovery _ := true;
  op_decode E _ read status payload_bytes epoch _ :=
    ordinary_object read status payload_bytes (fun id =>
      {| sh_handle := {| h_id := id; h_epoch := epoch |}; sh_context := None |});
  discovered_info _ := None;
  output_requires_reset _ := false;
|}.

#[global] Instance DestroyContext_op : Operation DestroyContext := {|
  Output := unit;
  opcode _ := OpDestroyContext;
  requires_discovery _ := true;
  op_decode E _ read status payload_bytes _ _ := empty_decode read status payload_bytes;
  discovered_info _ := None;
  output_requires_reset _ := false;
|}.

#[global] Instance AllocateBuffer_op : Operation AllocateBuffer := {|
  Output := GuestBuffer;
  opcode _ := OpAllocateBuffer;
  requires_discovery _ := true;
  op_decode E self read status payload_bytes epoch _ :=
    ordinary_object read status payload_bytes (fun id =>
      {| gb_handle := {| h_id := id; h_epoch := epoch |}; gb_context := al_context self;
         gb_desc := al_desc self |});
  discovered_info _ := None;
  output_requires_reset _ := false;
|}.

#[global] Instance FreeBuffer_op : Operation FreeBuffer := {|
  Output := unit;
  opcode _ := OpFreeBuffer;
  requires_discovery _ := true;
  op_decode E _ read status payload_bytes _ _ := empty_decode read status payload_bytes;
  discovered_info _ := None;
  output_requires_reset _ := false;
|}.

#[global] Instance WriteBuffer_op : Operation WriteBuffer := {|
  Output := unit;
  opcode _ := OpWriteBuffer;
  requires_discovery _ := true;
  op_decode E _ read status payload_bytes _ _ := empty_decode read status payload_bytes;
  discovered_info _ := None;
  output_requires_reset _ := false;
|}.

#[global] Instance ReadBuffer_op : Operation ReadBuffer := {|
  Output := ReadBufferOutput;
  opcode _ := OpReadBuffer;
  requires_discovery _ := true;
  op_decode E self read status payload_bytes _ _ :=
    ordinary status payload_bytes (rdb_bytes self) (fun _ => Ok {| ro_bytes := rdb_bytes self |});
  discovered_info _ := None;
  output_requires_reset _ := false;
|}.

#[global] Instance LoadProgram_op : Operation LoadProgram := {|
  Output := GuestProgram;
  opcode _ := OpLoadProgram;
  requires_discovery _ := true;
  op_decode E self read status payload_bytes epoch _ :=
    ordinary_object read status payload_bytes (fun id =>
      {| sh_handle := {| h_id := id; h_epoch := epoch |}; sh_context := Some (ld_context self) |});
  discovered_info _ := None;
  output_requires_reset _ := false;
|}.

#[global] Instance UnloadProgram_op : Operation UnloadProgram := {|
  Output := unit;
  opcode _ := OpUnloadProgram;
  requires_discovery _ := true;
  op_decode E _ read status payload_bytes _ _ := empty_decode read status payload_bytes;
  discovered_info _ := None;
  output_requires_reset _ := false;
|}.

#[global] Instance CreateExecutionQueue_op : Operation CreateExecutionQueue := {|
  Output := GuestExecutionQueue;
  opcode _ := OpCreateQueue;
  requires_discovery _ := true;
  op_decode E self read status payload_bytes epoch _ :=
    ordinary_object read status payload_bytes (fun id =>
      {| sh_handle := {| h_id := id; h_epoch := epoch |}; sh_context := Some (ceq_context self) |});
  discovered_info _ := None;
  output_requires_reset _ := false;
|}.

#[global] Instance DestroyExecutionQueue_op : Operation DestroyExecutionQueue := {|
  Output := unit;
  opcode _ := OpDestroyQueue;
  requires_discovery _ := true;
  op_decode E _ read status payload_bytes _ _ := empty_decode read status payload_bytes;
  discovered_info _ := None;
  output_requires_reset _ := false;
|}.

#[global] Instance Submit_op : Operation Submit := {|
  Output := SubmissionOutcome;
  opcode _ := OpSubmit;
  requires_discovery _ := true;
  op_decode E self read status payload_bytes epoch _ :=
    decode_submission read (sm_context self) status payload_bytes epoch;
  discovered_info _ := None;
  output_requires_reset output :=
    match output with
    | AdmissionIndeterminate status _ => status =? STATUS_DEVICE_LOST
    | Accepted _ => false
    end;
|}.

#[global] Instance PollEvent_op : Operation PollEvent := {|
  Output := GuestEventState;
  opcode _ := OpPollEvent;
  requires_discovery _ := true;
  op_decode E _ read status payload_bytes _ _ :=
    ordinary status payload_bytes (size_of WireEventState) (fun _ => decode_event_state read);
  discovered_info _ := None;
  output_requires_reset output :=
    match output with
    | GuestFailed status => status =? STATUS_DEVICE_LOST
    | _ => false
    end;
|}.

#[global] Instance CancelEvent_op : Operation CancelEvent := {|
  Output := unit;
  opcode _ := OpCancelEvent;
  requires_discovery _ := true;
  op_decode E _ read status payload_bytes _ _ := empty_decode read status payload_bytes;
  discovered_info _ := None;
  output_requires_reset _ := false;
|}.

#[global] Instance DestroyEvent_op : Operation DestroyEvent := {|
  Output := unit;
  opcode _ := OpDestroyEvent;
  requires_discovery _ := true;
  op_decode E _ read status payload_bytes _ _ := empty_decode read status payload_bytes;
  discovered_info _ := None;
  output_requires_reset _ := false;
|}.
