(* ===== verification/GuestClient.v ===== *)
(** * The guest client ([crates/virtio-accel-guest/src/client.rs])

    A bounded driver over any queue and chain that implement the driver-side
    ports.  Every public call is a function from the client (and, where the
    bytes of a chain are involved, the memory [W]) to the client after the
    call and its answer.  [Vec::iter().position] is [list_position]. *)

From Stdlib Require Import ZArith Lia.
From stdpp Require Import prelude list.
From S2P Require Import Prelude Codec Proto Transport DriverPorts GuestTypes.

Definition GUEST_REQUEST_HEADER_BYTES : Z := size_of RequestHeader.
Definition CLIENT_RESPONSE_HEADER_BYTES : Z := size_of ResponseHeader.
Definition COPY_SCRATCH_BYTES : Z := 256.

Inductive ClientHealth := ClientRunning | ClientNeedsReset.

#[global] Instance ClientHealth_eq_dec : EqDecision ClientHealth.
Proof. solve_decision. Defined.

Inductive ClientInitError := ClientConfig (error : GuestConfigError) | ClientAllocationFailed.

Inductive QueueSetupError (E : Type) :=
  | SetupConfig (error : GuestConfigError)
  | SetupQueue (error : QueueError E).
Arguments SetupConfig {E} _.
Arguments SetupQueue {E} _.

Inductive StartErrorKind (QE CE : Type) :=
  | StartNeedsReset
  | StartDiscoveryRequired
  | StartInflightLimit
  | StartRequestIdExhausted
  | StartStaleHandle
  | StartInvalidArgument
  | StartDeviceLimit
  | StartRequestCapacity (required available : Z)
  | StartResponseCapacity (required available : Z)
  | StartSourceAccess (error : ByteAccessError)
  | StartChainAccess (error : CE)
  | StartPublish (kind : PublishErrorKind QE).
Arguments StartNeedsReset {QE CE}.
Arguments StartDiscoveryRequired {QE CE}.
Arguments StartInflightLimit {QE CE}.
Arguments StartRequestIdExhausted {QE CE}.
Arguments StartStaleHandle {QE CE}.
Arguments StartInvalidArgument {QE CE}.
Arguments StartDeviceLimit {QE CE}.
Arguments StartRequestCapacity {QE CE} _ _.
Arguments StartResponseCapacity {QE CE} _ _.
Arguments StartSourceAccess {QE CE} _.
Arguments StartChainAccess {QE CE} _.
Arguments StartPublish {QE CE} _.

Record StartError (C O QE CE : Type) := {
  se_chain : C;
  se_operation : O;
  se_kind : StartErrorKind QE CE;
}.
Arguments Build_StartError {C O QE CE} _ _ _.
Arguments se_chain {C O QE CE} _.
Arguments se_operation {C O QE CE} _.
Arguments se_kind {C O QE CE} _.

Record Pending (O : Type) := {
  pn_slot : Z;
  pn_request_id : Z;
  pn_epoch : Z;
  pn_operation : O;
}.
Arguments Build_Pending {O} _ _ _ _.
Arguments pn_slot {O} _.
Arguments pn_request_id {O} _.
Arguments pn_epoch {O} _.
Arguments pn_operation {O} _.

Record StaleOperation (O : Type) := {
  so_request_id : Z;
  so_epoch : Z;
  so_operation : O;
}.
Arguments Build_StaleOperation {O} _ _ _.
Arguments so_request_id {O} _.
Arguments so_epoch {O} _.
Arguments so_operation {O} _.

Inductive Completion (O : Type) `{Operation O} (C CE : Type) :=
  | CompletionSuccess (output : Output O) (chain : C)
  | CompletionDeviceError (status : StatusCode) (disposition : FailureDisposition) (operation : O) (chain : C)
  | CompletionInvalidResponse (error : ResponseError CE) (operation : O) (chain : C).
Arguments CompletionSuccess {O _ C CE} _ _.
Arguments CompletionDeviceError {O _ C CE} _ _ _ _.
Arguments CompletionInvalidResponse {O _ C CE} _ _ _.

Inductive RequestPoll (O : Type) `{Operation O} (C QE CE : Type) :=
  | PollPending (pending : Pending O)
  | PollReady (completion : Completion O C CE)
  | PollQueueError (pending : Pending O) (error : QueueError QE)
  | PollStale (operation : StaleOperation O)
  | PollNeedsReset (pending : Pending O).
Arguments PollPending {O _ C QE CE} _.
Arguments PollReady {O _ C QE CE} _.
Arguments PollQueueError {O _ C QE CE} _ _.
Arguments PollStale {O _ C QE CE} _.
Arguments PollNeedsReset {O _ C QE CE} _.

Inductive PumpResult := PumpIdle | PumpCompletion (request_id : Z) | PumpUnexpectedCompletion | PumpNeedsReset.

Inductive ClientSlot (C : Type) :=
  | SlotVacant
  | SlotInFlight (request_id : Z) (chain_id : ChainId)
  | SlotCompleted (request_id : Z) (used : UsedChain C)
  | SlotRecovered (used : UsedChain C).
Arguments SlotVacant {C}.
Arguments SlotInFlight {C} _ _.
Arguments SlotCompleted {C} _ _.
Arguments SlotRecovered {C} _.

Inductive FrameWriteError (E : Type) := FrameChain (error : E) | FrameSource (error : ByteAccessError).
Arguments FrameChain {E} _.
Arguments FrameSource {E} _.

Record GuestClient (Q C : Type) := {
  gc_queue : Q;
  gc_config : GuestConfig;
  gc_device_info : option GuestDeviceInfo;
  gc_slots : list (ClientSlot C);
  gc_next_request_id : Z;
  gc_health : ClientHealth;
  gc_unexpected : option (UsedChain C);
}.
Arguments Build_GuestClient {Q C} _ _ _ _ _ _ _.
Arguments gc_queue {Q C} _.
Arguments gc_config {Q C} _.
Arguments gc_device_info {Q C} _.
Arguments gc_slots {Q C} _.
Arguments gc_next_request_id {Q C} _.
Arguments gc_health {Q C} _.
Arguments gc_unexpected {Q C} _.

(** The predicates of the [matches!] on slots. *)
Definition slot_vacant {C} (s : ClientSlot C) : bool :=
  match s with SlotVacant => true | _ => false end.

Definition slot_recovered {C} (s : ClientSlot C) : bool :=
  match s with SlotRecovered _ => true | _ => false end.

Definition slot_has_chain {C} (id : ChainId) (s : ClientSlot C) : bool :=
  match s with SlotInFlight _ chain_id => bool_decide (chain_id = id) | _ => false end.

Definition slot_has_request {C} (id : Z) (s : ClientSlot C) : bool :=
  match s with
  | SlotInFlight request_id _ | SlotCompleted request_id _ => request_id =? id
  | _ => false
  end.

Fixpoint list_position {A} (p : A -> bool) (l : list A) : option nat :=
  match l with
  | [] => None
  | x :: l => if p x then Some 0%nat else Datatypes.S <$> list_position p l
  end.

Definition usage_allows (usage : Z) (access : GuestAccessMode) : bool :=
  match access with
  | GuestRead => bits_intersects usage (Z.lor USAGE_PROGRAM_INPUT USAGE_MUTABLE_STATE)
  | GuestWrite => bits_intersects usage (Z.lor USAGE_PROGRAM_OUTPUT USAGE_MUTABLE_STATE)
  | GuestReadWrite => bits_contains usage USAGE_MUTABLE_STATE
  end.

Definition stale_operation {O} (pending : Pending O) : StaleOperation O :=
  {| so_request_id := pn_request_id pending; so_epoch := pn_epoch pending;
     so_operation := pn_operation pending |}.

Section Client.
Context {W C Q CE QE R : Type} `{!DriverChainBuffer W C CE} `{!DriverQueue Q C QE R}.
Implicit Types (w : W) (chain : C) (self : GuestClient Q C).

(** Field updates. *)
Definition gc_set_queue (queue : Q) self : GuestClient Q C :=
  {| gc_queue := queue; gc_config := gc_config self; gc_device_info := gc_device_info self;
     gc_slots := gc_slots self; gc_next_request_id := gc_next_request_id self;
     gc_health := gc_health self; gc_unexpected := gc_unexpected self |}.

Definition gc_set_slots (slots : list (ClientSlot C)) self : GuestClient Q C :=
  {| gc_queue := gc_queue self; gc_config := gc_config self; gc_device_info := gc_device_info self;
     gc_slots := slots; gc_next_request_id := gc_next_request_id self;
     gc_health := gc_health self; gc_unexpected := gc_unexpected self |}.

Definition gc_set_slot (index : nat) (slot : ClientSlot C) self : GuestClient Q C :=
  gc_set_slots (<[index := slot]> (gc_slots self)) self.

Definition gc_set_next_request_id (next : Z) self : GuestClient Q C :=
  {| gc_queue := gc_queue self; gc_config := gc_config self; gc_device_info := gc_device_info self;
     gc_slots := gc_slots self; gc_next_request_id := next;
     gc_health := gc_health self; gc_unexpected := gc_unexpected self |}.

Definition gc_set_health (health : ClientHealth) self : GuestClient Q C :=
  {| gc_queue := gc_queue self; gc_config := gc_config self; gc_device_info := gc_device_info self;
     gc_slots := gc_slots self; gc_next_request_id := gc_next_request_id self;
     gc_health := health; gc_unexpected := gc_unexpected self |}.

Definition gc_set_device_info (info : option GuestDeviceInfo) self : GuestClient Q C :=
  {| gc_queue := gc_queue self; gc_config := gc_config self; gc_device_info := info;
     gc_slots := gc_slots self; gc_next_request_id := gc_next_request_id self;
     gc_health := gc_health self; gc_unexpected := gc_unexpected self |}.

Definition gc_set_unexpected (used : option (UsedChain C)) self : GuestClient Q C :=
  {| gc_queue := gc_queue self; gc_config := gc_config self; gc_device_info := gc_device_info self;
     gc_slots := gc_slots self; gc_next_request_id := gc_next_request_id self;
     gc_health := gc_health self; gc_unexpected := used |}.

Definition client_epoch self : Z := qs_epoch (queue_state (gc_queue self)).

(** [mem] is the answer of [try_reserve_exact]. *)
Definition GuestClient_new (mem : bool) (queue : Q) (config : GuestConfig) :
    result (GuestClient Q C) ClientInitError :=
  let? _ := map_err ClientConfig (validate_queue config (queue_state queue)) in
  if negb mem then Err ClientAllocationFailed
  else Ok {| gc_queue := queue; gc_config := config; gc_device_info := None;
             gc_slots := replicate (Z.to_nat (gcf_max_inflight config)) SlotVacant;
             gc_next_request_id := 1; gc_health := ClientRunning; gc_unexpected := None |}.

Definition client_disable_used self : GuestClient Q C * result unit (QueueError QE) :=
  let '(queue, r) := queue_disable_used (gc_queue self) in (gc_set_queue queue self, r).

Definition client_enable_used self : GuestClient Q C * result NotificationRecheck (QueueError QE) :=
  let '(queue, r) := queue_enable_used (gc_queue self) in (gc_set_queue queue self, r).

(** ** Completions *)

Definition pump self : GuestClient Q C * result PumpResult (QueueError QE) :=
  if bool_decide (gc_health self = ClientNeedsReset) then (self, Ok PumpNeedsReset)
  else
    let '(queue, r) := queue_pop_used (gc_queue self) in
    let self := gc_set_queue queue self in
    match r with
    | Err e => (self, Err e)
    | Ok None => (self, Ok PumpIdle)
    | Ok (Some used) =>
        match list_position (slot_has_chain (uc_id used)) (gc_slots self) with
        | None =>
            (gc_set_health ClientNeedsReset (gc_set_unexpected (Some used) self),
             Ok PumpUnexpectedCompletion)
        | Some index =>
            match gc_slots self !! index with
            | Some (SlotInFlight request_id _) =>
                (gc_set_slot index (SlotCompleted request_id used) self, Ok (PumpCompletion request_id))
            | _ => (self, Ok PumpIdle) (* unreachable: the slot matched *)
            end
        end
    end.

Definition pending_matches {O} (pending : Pending O) self : bool :=
  match gc_slots self !! Z.to_nat (pn_slot pending) with
  | Some slot => slot_has_request (pn_request_id pending) slot
  | None => false
  end.

Definition validate_response {O} `{Operation O} (pending : Pending O) w chain (used : Z) self :
    result (OperationResult (Output O)) (ResponseError CE) :=
  if used <? CLIENT_RESPONSE_HEADER_BYTES then Err (RespUsedLength used)
  else if wc_max_response_bytes (gcf_wire (gc_config self)) <? used then Err RespResponseLimit
  else
    let? bytes := map_err RespHeaderAccess (read_device_writable w chain 0 (size_of ResponseHeader)) in
    let? header := map_err (fun _ => RespPayloadEncoding) (read_exact ResponseHeader bytes) in
    let actual_id := rs_request_id header in
    if negb (actual_id =? pn_request_id pending)
    then Err (RespRequestId (pn_request_id pending) actual_id)
    else if negb (rs_flags header =? 0) then Err (RespFlags (rs_flags header))
    else
      let? expected_used :=
        ok_or (checked_add U64_MAX CLIENT_RESPONSE_HEADER_BYTES (rs_payload_bytes header))
          (RespUsedLength used) in
      if negb (expected_used =? used) then Err (RespUsedLength used)
      else op_decode (pn_operation pending) (read_device_writable w chain) (rs_status header)
             (rs_payload_bytes header) (pn_epoch pending) (gc_config self).

Definition decode_completion {O} `{Operation O} (pending : Pending O) (used : UsedChain C) w self :
    GuestClient Q C * Completion O C CE :=
  let chain := uc_chain used in
  match validate_response pending w chain (uc_used used) self with
  | Ok (OpSuccess output) =>
      let self := if output_requires_reset output then gc_set_health ClientNeedsReset self else self in
      let self := match discovered_info output with
                  | Some info => gc_set_device_info (Some info) self
                  | None => self
                  end in
      (self, CompletionSuccess output chain)
  | Ok (OpDeviceError status) =>
      let disposition := failure_disposition status in
      let self := if bool_decide (disposition = Indeterminate) then gc_set_health ClientNeedsReset self
                  else self in
      (self, CompletionDeviceError status disposition (pn_operation pending) chain)
  | Err error =>
      (gc_set_health ClientNeedsReset self,
       CompletionInvalidResponse error (pn_operation pending) chain)
  end.

(** The end of [poll]: take the completion of the slot, if it has arrived. *)
Definition poll_slot {O} `{Operation O} (pending : Pending O) w self :
    GuestClient Q C * RequestPoll O C QE CE :=
  let index := Z.to_nat (pn_slot pending) in
  match gc_slots self !! index with
  | Some (SlotCompleted request_id used) =>
      if negb (request_id =? pn_request_id pending) then (self, PollStale (stale_operation pending))
      else
        let '(self, completion) := decode_completion pending used w (gc_set_slot index SlotVacant self) in
        (self, PollReady completion)
  | _ => (self, PollPending pending)
  end.

Definition poll {O} `{Operation O} (pending : Pending O) w self :
    GuestClient Q C * RequestPoll O C QE CE :=
  if negb (pn_epoch pending =? client_epoch self) then (self, PollStale (stale_operation pending))
  else if bool_decide (gc_health self = ClientNeedsReset) then (self, PollNeedsReset pending)
  else if negb (pending_matches pending self) then (self, PollStale (stale_operation pending))
  else
    match gc_slots self !! Z.to_nat (pn_slot pending) with
    | Some (SlotInFlight _ _) =>
        let '(self, r) := pump self in
        match r with
        | Err error => (self, PollQueueError pending error)
        | Ok PumpUnexpectedCompletion | Ok PumpNeedsReset => (self, PollNeedsReset pending)
        | Ok PumpIdle | Ok (PumpCompletion _) => poll_slot pending w self
        end
    | _ => poll_slot pending w self
    end.

(** ** Reset and recovery *)

(** The loop over the slots. *)
Definition reset_slot (slot : ClientSlot C) : ClientSlot C :=
  match slot with
  | SlotCompleted _ used | SlotRecovered used => SlotRecovered used
  | SlotVacant | SlotInFlight _ _ => SlotVacant
  end.

Definition client_reset (next_epoch : Z) self : GuestClient Q C * result R (QueueError QE) :=
  let '(queue, r) := queue_reset next_epoch (gc_queue self) in
  let self := gc_set_queue queue self in
  match r with
  | Err e => (self, Err e)
  | Ok reclaimed =>
      let self := gc_set_slots (reset_slot <$> gc_slots self) self in
      let self := gc_set_device_info None self in
      let self := gc_set_next_request_id 1 self in
      (gc_set_health ClientRunning self, Ok reclaimed)
  end.

Definition reconfigure_queue `{!QueueControl Q QE} (size : Z) self :
    GuestClient Q C * result unit (QueueSetupError QE) :=
  match validate_size (gc_config self) size with
  | Err e => (self, Err (SetupConfig e))
  | Ok _ =>
      let '(queue, r) := queue_configure size (gc_queue self) in
      let self := gc_set_queue queue self in
      match r with
      | Err e => (self, Err (SetupQueue e))
      | Ok _ =>
          let '(queue, r) := queue_set_ready true (gc_queue self) in
          (gc_set_queue queue self, map_err SetupQueue r)
      end
  end.

Definition pop_recovered_completion self : GuestClient Q C * option (UsedChain C) :=
  match list_position slot_recovered (gc_slots self) with
  | None => (self, None)
  | Some index =>
      match gc_slots self !! index with
      | Some (SlotRecovered used) => (gc_set_slot index SlotVacant self, Some used)
      | _ => (self, None) (* unreachable: the slot matched *)
      end
  end.

Definition take_unexpected_completion self : GuestClient Q C * option (UsedChain C) :=
  (gc_set_unexpected None self, gc_unexpected self).

(** ** Request frames *)

Definition write_wire {T} `{Wire T} (offset : Z) (value : T) (m : W * C) : (W * C) * result unit CE :=
  write_device_readable offset (as_bytes value) m.

(** [write_wire(..).map_err(FrameWriteError::Chain)] *)
Definition write_frame {T} `{Wire T} (offset : Z) (value : T) (m : W * C) :
    (W * C) * result unit (FrameWriteError CE) :=
  let '(m, r) := write_wire offset value m in (m, map_err FrameChain r).

(** The [while] loop of [copy_source]; the fuel is enough when [256 * fuel]
    exceeds the bytes left ([copy_source_spec]). *)
Fixpoint copy_source_loop (fuel : nat) (destination_offset : Z) (source : ReadableBytes) (copied : Z)
    (m : W * C) : (W * C) * result unit (FrameWriteError CE) :=
  if rb_len source <=? copied then (m, Ok tt)
  else
    match fuel with
    | O => (m, Err (FrameSource AccessFailed))
    | Datatypes.S fuel =>
        let count := Z.min (rb_len source - copied) COPY_SCRATCH_BYTES in
        match rb_read_at source copied count with
        | Err e => (m, Err (FrameSource e))
        | Ok scratch =>
            match write_device_readable (destination_offset + copied) scratch m with
            | (m, Err e) => (m, Err (FrameChain e))
            | (m, Ok _) => copy_source_loop fuel destination_offset source (copied + count) m
            end
        end
    end.

Definition copy_source (destination_offset : Z) (source : ReadableBytes) (m : W * C) :
    (W * C) * result unit (FrameWriteError CE) :=
  match rb_as_contiguous source with
  | Some bytes =>
      let '(m, r) := write_device_readable destination_offset bytes m in (m, map_err FrameChain r)
  | None =>
      copy_source_loop (Datatypes.S (Z.to_nat (rb_len source / COPY_SCRATCH_BYTES)))
        destination_offset source 0 m
  end.

(** The [for] loop of [allocate_request_id] with [n] iterations left. *)
Fixpoint request_id_loop (n : nat) (slots : list (ClientSlot C)) (next : Z) : Z * option Z :=
  match n with
  | O => (next, None)
  | Datatypes.S n =>
      let candidate := Z.max next 1 in
      let next := Z.max (wrapping_add U64_MAX candidate 1) 1 in
      if existsb (slot_has_request candidate) slots then request_id_loop n slots next
      else (next, Some candidate)
  end.

Definition allocate_request_id self : GuestClient Q C * option Z :=
  let '(next, id) := request_id_loop (length (gc_slots self) + 1) (gc_slots self) (gc_next_request_id self) in
  (gc_set_next_request_id next self, id).

Definition start_failure {O} chain (operation : O) (kind : StartErrorKind QE CE) :
    result (Pending O) (StartError C O QE CE) :=
  Err {| se_chain := chain; se_operation := operation; se_kind := kind |}.

(** The end of [start_frame]: header, payload, publication. *)
Definition start_publish {O} `{Operation O} (slot : nat) (request_id : Z) chain (operation : O)
    (payload_bytes : Z) (write_payload : W * C -> (W * C) * result unit (FrameWriteError CE)) w self :
    W * GuestClient Q C * result (Pending O) (StartError C O QE CE) :=
  let header := RequestHeader_new (opcode operation) 0 payload_bytes request_id in
  match write_wire 0 header (w, chain) with
  | ((w, chain), Err error) => (w, self, start_failure chain operation (StartChainAccess error))
  | ((w, chain), Ok _) =>
      match write_payload (w, chain) with
      | ((w, chain), Err error) =>
          let kind := match error with
                      | FrameChain error => StartChainAccess error
                      | FrameSource error => StartSourceAccess error
                      end in
          (w, self, start_failure chain operation kind)
      | ((w, chain), Ok _) =>
          match queue_publish chain (gc_queue self) with
          | (queue, Err error) =>
              (w, gc_set_queue queue self,
               start_failure (pe_chain error) operation (StartPublish (pe_kind error)))
          | (queue, Ok published) =>
              let self := gc_set_queue queue self in
              (w, gc_set_slot slot (SlotInFlight request_id (pc_id published)) self,
               Ok {| pn_slot := Z.of_nat slot mod 65536; pn_request_id := request_id;
                     pn_epoch := ci_epoch (pc_id published); pn_operation := operation |})
          end
      end
  end.

Definition start_frame {O} `{Operation O} chain (operation : O) (payload_bytes response_bytes : Z)
    (write_payload : W * C -> (W * C) * result unit (FrameWriteError CE)) w self :
    W * GuestClient Q C * result (Pending O) (StartError C O QE CE) :=
  let fail kind := (w, self, start_failure chain operation kind) in
  if bool_decide (gc_health self = ClientNeedsReset) then fail StartNeedsReset
  else if requires_discovery operation && bool_decide (gc_device_info self = None)
  then fail StartDiscoveryRequired
  else
    match list_position slot_vacant (gc_slots self) with
    | None => fail StartInflightLimit
    | Some slot =>
        let readable_bytes := device_readable_len w chain in
        let writable_bytes := device_writable_len w chain in
        match checked_add U64_MAX GUEST_REQUEST_HEADER_BYTES payload_bytes with
        | None => fail (StartRequestCapacity U64_MAX readable_bytes)
        | Some frame_bytes =>
            let max_request := wc_max_request_bytes (gcf_wire (gc_config self)) in
            let max_response := wc_max_response_bytes (gcf_wire (gc_config self)) in
            if (max_request <? frame_bytes) || negb (frame_bytes =? readable_bytes)
            then fail (StartRequestCapacity frame_bytes readable_bytes)
            else if (max_response <? response_bytes) || (writable_bytes <? response_bytes)
            then fail (StartResponseCapacity response_bytes writable_bytes)
            else
              match try_from U32_MAX payload_bytes with
              | None => fail (StartRequestCapacity frame_bytes readable_bytes)
              | Some payload_bytes =>
                  match allocate_request_id self with
                  | (self, None) => (w, self, start_failure chain operation StartRequestIdExhausted)
                  | (self, Some request_id) =>
                      start_publish slot request_id chain operation payload_bytes write_payload w self
                  end
              end
        end
    end.

Definition start_wire {O T} `{Operation O} `{Wire T} chain (operation : O) (value : T)
    (response_bytes : Z) w self : W * GuestClient Q C * result (Pending O) (StartError C O QE CE) :=
  start_frame chain operation (size_of T) response_bytes (write_frame GUEST_REQUEST_HEADER_BYTES value) w self.

Abbreviation Started O := (W * GuestClient Q C * result (Pending O) (StartError C O QE CE))%type.

(** ** Requests *)

Definition get_device_info chain w self : Started GetDeviceInfo :=
  start_frame chain MkGetDeviceInfo 0 (CLIENT_RESPONSE_HEADER_BYTES + size_of WireDeviceInfo)
    (fun m => (m, Ok tt)) w self.

Definition guest_create_context chain w self : Started CreateContext :=
  let request := {| cc_flags := 0; cc_reserved := 0 |} in
  start_wire chain MkCreateContext request (CLIENT_RESPONSE_HEADER_BYTES + size_of ObjectPayload) w self.

Definition guest_destroy_context chain (context : GuestContext) w self : Started DestroyContext :=
  let stale := negb (handle_epoch context =? client_epoch self) in
  let object := {| op_object_id := handle_raw context |} in
  let operation := {| dx_context := context |} in
  if stale then (w, self, start_failure chain operation StartStaleHandle)
  else start_wire chain operation object CLIENT_RESPONSE_HEADER_BYTES w self.

Definition guest_allocate_buffer chain (context : GuestContext) (desc : GuestBufferDesc) w self :
    Started AllocateBuffer :=
  let operation := {| al_context := handle_raw context; al_desc := desc |} in
  let fail kind := (w, self, start_failure chain operation kind) in
  if negb (handle_epoch context =? client_epoch self) then fail StartStaleHandle
  else
    match gc_device_info self with
    | None => fail StartDiscoveryRequired
    | Some info =>
        if (gi_max_buffer_bytes info <? gd_bytes desc) || negb (supports_domain info (gd_memory_domain desc))
        then fail StartDeviceLimit
        else
          let request := {|
            ab_context_id := handle_raw context; ab_bytes := gd_bytes desc; ab_alignment := gd_alignment desc;
            ab_memory_domain := GuestMemoryDomain_as_u8 (gd_memory_domain desc);
            ab_reserved0 := [0; 0; 0; 0; 0; 0; 0]; ab_usage := gd_usage desc; ab_reserved1 := 0 |} in
          start_wire chain operation request (CLIENT_RESPONSE_HEADER_BYTES + size_of ObjectPayload) w self
    end.

Definition guest_free_buffer chain (buffer : GuestBuffer) w self : Started FreeBuffer :=
  let stale := negb (buffer_epoch buffer =? client_epoch self) in
  let object := {| op_object_id := buffer_raw buffer |} in
  let operation := {| fb_buffer := buffer |} in
  if stale then (w, self, start_failure chain operation StartStaleHandle)
  else start_wire chain operation object CLIENT_RESPONSE_HEADER_BYTES w self.

Definition guest_write_buffer chain (buffer : GuestBuffer) (offset : Z) (source : ReadableBytes) w self :
    Started WriteBuffer :=
  let operation := MkWriteBuffer in
  let fail kind := (w, self, start_failure chain operation kind) in
  if negb (buffer_epoch buffer =? client_epoch self) then fail StartStaleHandle
  else
    match GuestBufferRange_new offset (rb_len source) with
    | Err _ => fail StartInvalidArgument
    | Ok range =>
        if negb (GuestBufferRange_fits range (gd_bytes (gb_desc buffer)))
           || negb (bits_contains (gd_usage (gb_desc buffer)) USAGE_TRANSFER_DESTINATION)
        then fail StartInvalidArgument
        else
          let prefix := {| tb_buffer_id := buffer_raw buffer; tb_offset := offset;
                           tb_bytes := rb_len source |} in
          match checked_add U64_MAX (size_of TransferBufferRequest) (rb_len source) with
          | None => fail StartDeviceLimit
          | Some payload =>
              start_frame chain operation payload CLIENT_RESPONSE_HEADER_BYTES
                (fun m =>
                   match write_frame GUEST_REQUEST_HEADER_BYTES prefix m with
                   | (m, Err e) => (m, Err e)
                   | (m, Ok _) =>
                       copy_source (GUEST_REQUEST_HEADER_BYTES + size_of TransferBufferRequest) source m
                   end) w self
          end
    end.

Definition write_buffer_prepared chain (buffer : GuestBuffer) (range : GuestBufferRange) w self :
    Started WriteBuffer :=
  let operation := MkWriteBuffer in
  let fail kind := (w, self, start_failure chain operation kind) in
  if negb (buffer_epoch buffer =? client_epoch self) then fail StartStaleHandle
  else if negb (GuestBufferRange_fits range (gd_bytes (gb_desc buffer)))
          || negb (bits_contains (gd_usage (gb_desc buffer)) USAGE_TRANSFER_DESTINATION)
  then fail StartInvalidArgument
  else
    let prefix := {| tb_buffer_id := buffer_raw buffer; tb_offset := gr_offset range;
                     tb_bytes := gr_bytes range |} in
    match checked_add U64_MAX (size_of TransferBufferRequest) (gr_bytes range) with
    | None => fail StartDeviceLimit
    | Some payload =>
        start_frame chain operation payload CLIENT_RESPONSE_HEADER_BYTES
          (write_frame GUEST_REQUEST_HEADER_BYTES prefix) w self
    end.

Definition guest_read_buffer chain (buffer : GuestBuffer) (range : GuestBufferRange) w self :
    Started ReadBuffer :=
  let operation := {| rdb_bytes := gr_bytes range |} in
  let fail kind := (w, self, start_failure chain operation kind) in
  if negb (buffer_epoch buffer =? client_epoch self) then fail StartStaleHandle
  else if negb (GuestBufferRange_fits range (gd_bytes (gb_desc buffer)))
          || negb (bits_contains (gd_usage (gb_desc buffer)) USAGE_TRANSFER_SOURCE)
  then fail StartInvalidArgument
  else
    let request := {| tb_buffer_id := buffer_raw buffer; tb_offset := gr_offset range;
                      tb_bytes := gr_bytes range |} in
    match checked_add U64_MAX CLIENT_RESPONSE_HEADER_BYTES (gr_bytes range) with
    | None => fail StartDeviceLimit
    | Some response_bytes => start_wire chain operation request response_bytes w self
    end.

Definition load_request (context : GuestContext) (desc : ProgramDesc) (artifact_bytes : Z) :
    LoadProgramRequest := {|
  lp_context_id := handle_raw context; lp_format := pd_format desc; lp_flags := 0;
  lp_target := pd_target desc; lp_payload_bytes := artifact_bytes;
  lp_resident_bytes := pd_resident_bytes desc |}.

Definition guest_load_program chain (context : GuestContext) (desc : ProgramDesc) (artifact : ReadableBytes)
    w self : Started LoadProgram :=
  let operation := {| ld_context := handle_raw context; ld_desc := desc |} in
  let fail kind := (w, self, start_failure chain operation kind) in
  if negb (handle_epoch context =? client_epoch self) then fail StartStaleHandle
  else
    match gc_device_info self with
    | None => fail StartDiscoveryRequired
    | Some info =>
        if rb_len artifact =? 0 then fail StartInvalidArgument
        else if gi_max_artifact_bytes info <? rb_len artifact then fail StartDeviceLimit
        else
          let request := load_request context desc (rb_len artifact) in
          let payload := wrapping_add U64_MAX (size_of LoadProgramRequest) (rb_len artifact) in
          start_frame chain operation payload (CLIENT_RESPONSE_HEADER_BYTES + size_of ObjectPayload)
            (fun m =>
               match write_frame GUEST_REQUEST_HEADER_BYTES request m with
               | (m, Err e) => (m, Err e)
               | (m, Ok _) =>
                   copy_source (GUEST_REQUEST_HEADER_BYTES + size_of LoadProgramRequest) artifact m
               end) w self
    end.

Definition load_program_prepared chain (context : GuestContext) (desc : ProgramDesc) (artifact_bytes : Z)
    w self : Started LoadProgram :=
  let operation := {| ld_context := handle_raw context; ld_desc := desc |} in
  let fail kind := (w, self, start_failure chain operation kind) in
  if negb (handle_epoch context =? client_epoch self) then fail StartStaleHandle
  else
    match gc_device_info self with
    | None => fail StartDiscoveryRequired
    | Some info =>
        if artifact_bytes =? 0 then fail StartInvalidArgument
        else if gi_max_artifact_bytes info <? artifact_bytes then fail StartDeviceLimit
        else
          let request := load_request context desc artifact_bytes in
          start_frame chain operation (wrapping_add U64_MAX (size_of LoadProgramRequest) artifact_bytes)
            (CLIENT_RESPONSE_HEADER_BYTES + size_of ObjectPayload)
            (write_frame GUEST_REQUEST_HEADER_BYTES request) w self
    end.

Definition guest_unload_program chain (program : GuestProgram) w self : Started UnloadProgram :=
  let stale := negb (handle_epoch program =? client_epoch self) in
  let object := {| op_object_id := handle_raw program |} in
  let operation := {| ul_program := program |} in
  if stale then (w, self, start_failure chain operation StartStaleHandle)
  else start_wire chain operation object CLIENT_RESPONSE_HEADER_BYTES w self.

Definition create_execution_queue chain (context : GuestContext) w self : Started CreateExecutionQueue :=
  let operation := {| ceq_context := handle_raw context |} in
  if negb (handle_epoch context =? client_epoch self)
  then (w, self, start_failure chain operation StartStaleHandle)
  else
    let request := {| cq_context_id := handle_raw context; cq_flags := 0; cq_reserved := 0 |} in
    start_wire chain operation request (CLIENT_RESPONSE_HEADER_BYTES + size_of ObjectPayload) w self.

Definition destroy_execution_queue chain (queue : GuestExecutionQueue) w self : Started DestroyExecutionQueue :=
  let stale := negb (handle_epoch queue =? client_epoch self) in
  let object := {| op_object_id := handle_raw queue |} in
  let operation := {| deq_queue := queue |} in
  if stale then (w, self, start_failure chain operation StartStaleHandle)
  else start_wire chain operation object CLIENT_RESPONSE_HEADER_BYTES w self.

(** [bindings.windows(2).all(|pair| pair[0].slot < pair[1].slot)] *)
Fixpoint bindings_are_canonical (bindings : list GuestBinding) : bool :=
  match bindings with
  | a :: (b :: _) as rest => (bi_slot a <? bi_slot b) && bindings_are_canonical rest
  | _ => true
  end.

(** The [for] loop of [submit]: [prior] are the bindings already visited. *)
Fixpoint check_bindings (epoch context : Z) (canonical : bool) (prior rest : list GuestBinding) :
    result unit (StartErrorKind QE CE) :=
  match rest with
  | [] => Ok tt
  | binding :: rest =>
      if negb (buffer_epoch (bi_buffer binding) =? epoch) then Err StartStaleHandle
      else if negb (gb_context (bi_buffer binding) =? context)
              || negb (GuestBufferRange_fits (bi_range binding) (gd_bytes (gb_desc (bi_buffer binding))))
              || negb (usage_allows (gd_usage (gb_desc (bi_buffer binding))) (bi_access binding))
              || (negb canonical && existsb (fun p => bi_slot p =? bi_slot binding) prior)
      then Err StartInvalidArgument
      else check_bindings epoch context canonical (prior ++ [binding]) rest
  end.

Definition guest_binding_wire (binding : GuestBinding) : WireBinding := {|
  wb_buffer_id := buffer_raw (bi_buffer binding);
  wb_offset := gr_offset (bi_range binding);
  wb_bytes := gr_bytes (bi_range binding);
  wb_slot := bi_slot binding;
  wb_access := GuestAccessMode_as_u8 (bi_access binding);
  wb_reserved := [0; 0; 0] |}.

(** The loop of the closure of [submit]. *)
Fixpoint write_bindings (offset : Z) (bindings : list GuestBinding) (m : W * C) :
    (W * C) * result unit (FrameWriteError CE) :=
  match bindings with
  | [] => (m, Ok tt)
  | binding :: bindings =>
      match write_frame offset (guest_binding_wire binding) m with
      | (m, Err e) => (m, Err e)
      | (m, Ok _) => write_bindings (offset + size_of WireBinding) bindings m
      end
  end.

(** An execution queue always has its context ([expect]); the handle's
    invariant is [handle_typed]. *)
Definition guest_submit chain (queue : GuestExecutionQueue) (program : GuestProgram)
    (bindings : list GuestBinding) (timeout_ns : Z) w self : Started Submit :=
  let context := default 0 (sh_context queue) in
  let operation := {| sm_context := context |} in
  let fail kind := (w, self, start_failure chain operation kind) in
  let epoch := client_epoch self in
  if negb (handle_epoch queue =? epoch) || negb (handle_epoch program =? epoch) then fail StartStaleHandle
  else if bool_decide (sh_context program <> Some context) || (zlen bindings =? 0)
  then fail StartInvalidArgument
  else
    match gc_device_info self with
    | None => fail StartDiscoveryRequired
    | Some info =>
        match try_from U32_MAX (zlen bindings) with
        | None => fail StartDeviceLimit
        | Some binding_count =>
            if gi_max_bindings_per_submission info <? binding_count then fail StartDeviceLimit
            else
              match check_bindings epoch context (bindings_are_canonical bindings) [] bindings with
              | Err kind => fail kind
              | Ok _ =>
                  let request := {|
                    sr_queue_id := handle_raw queue; sr_program_id := handle_raw program;
                    sr_binding_count := binding_count; sr_flags := 0; sr_timeout_ns := timeout_ns |} in
                  let payload := size_of SubmitRequest + size_of WireBinding * binding_count in
                  start_frame chain operation payload
                    (CLIENT_RESPONSE_HEADER_BYTES + size_of SubmitResponse)
                    (fun m =>
                       match write_frame GUEST_REQUEST_HEADER_BYTES request m with
                       | (m, Err e) => (m, Err e)
                       | (m, Ok _) =>
                           write_bindings (GUEST_REQUEST_HEADER_BYTES + size_of SubmitRequest) bindings m
                       end) w self
              end
        end
    end.

Definition guest_poll_event chain (event : GuestEvent) w self : Started PollEvent :=
  if negb (handle_epoch event =? client_epoch self)
  then (w, self, start_failure chain MkPollEvent StartStaleHandle)
  else
    let request := {| op_object_id := handle_raw event |} in
    start_wire chain MkPollEvent request (CLIENT_RESPONSE_HEADER_BYTES + size_of WireEventState) w self.

Definition guest_cancel_event chain (event : GuestEvent) w self : Started CancelEvent :=
  if negb (handle_epoch event =? client_epoch self)
  then (w, self, start_failure chain MkCancelEvent StartStaleHandle)
  else
    let request := {| op_object_id := handle_raw event |} in
    start_wire chain MkCancelEvent request CLIENT_RESPONSE_HEADER_BYTES w self.

Definition guest_destroy_event chain (event : GuestEvent) w self : Started DestroyEvent :=
  let stale := negb (handle_epoch event =? client_epoch self) in
  let object := {| op_object_id := handle_raw event |} in
  let operation := {| de_event := event |} in
  if stale then (w, self, start_failure chain operation StartStaleHandle)
  else start_wire chain operation object CLIENT_RESPONSE_HEADER_BYTES w self.

End Client.
