(* ===== verification/GuestTrace.v ===== *)
(** * Facts about the guest client

    The slot table, the allocation of request identifiers, and the writing of
    a request frame, proved against the contracts of the driver's ports. *)

From Stdlib Require Import ZArith Lia.
From stdpp Require Import prelude list.
From S2P Require Import Prelude Codec Proto Transport DriverPorts GuestTypes GuestClient.

(** ** Positions *)

Lemma list_position_Some {A} (p : A -> bool) l i :
  list_position p l = Some i -> exists x, l !! i = Some x /\ p x = true.
Proof.
  revert i. induction l as [|x l IH]; intros i; simpl; [done|]. destruct (p x) eqn:Hp.
  - intros [= <-]. eauto.
  - intros (j & Hj & ->)%fmap_Some. by apply IH.
Qed.

Lemma list_position_None {A} (p : A -> bool) l :
  list_position p l = None <-> Forall (fun x => p x = false) l.
Proof.
  induction l as [|x l IH]; simpl; [done|]. rewrite Forall_cons, <-IH. destruct (p x); [naive_solver|].
  rewrite fmap_None. naive_solver.
Qed.

Lemma list_position_is_Some {A} (p : A -> bool) l x :
  x ∈ l -> p x = true -> exists i, list_position p l = Some i.
Proof.
  intros Hx Hp. destruct (list_position p l) eqn:E; [eauto|]. apply list_position_None in E.
  rewrite Forall_forall in E. specialize (E x Hx). congruence.
Qed.

(** A partial key of the elements under an update. *)
Lemma omap_insert_perm {A B} (f : A -> option B) (l : list A) i x y :
  l !! i = Some x ->
  omap f (<[i := y]> l) ++ option_list (f x) ≡ₚ omap f l ++ option_list (f y).
Proof.
  intros Hi. rewrite <-(take_drop_middle l i x Hi) at 2.
  rewrite insert_take_drop by (by eapply lookup_lt_Some).
  rewrite !omap_app. simpl.
  destruct (f x), (f y); simpl; rewrite ?app_nil_r; solve_Permutation.
Qed.

(** ** Slots *)

Definition live_id {C} (s : ClientSlot C) : option Z :=
  match s with SlotInFlight id _ | SlotCompleted id _ => Some id | _ => None end.

Definition flight_id {C} (s : ClientSlot C) : option ChainId :=
  match s with SlotInFlight _ id => Some id | _ => None end.

Definition held_chain {C} (s : ClientSlot C) : option C :=
  match s with SlotCompleted _ u | SlotRecovered u => Some (uc_chain u) | _ => None end.

Lemma slot_has_request_spec {C} id (s : ClientSlot C) : slot_has_request id s = true <-> live_id s = Some id.
Proof. destruct s; simpl; rewrite ?Z.eqb_eq; naive_solver. Qed.

Lemma slot_has_chain_spec {C} id (s : ClientSlot C) : slot_has_chain id s = true <-> flight_id s = Some id.
Proof. destruct s; simpl; rewrite ?bool_decide_eq_true; naive_solver. Qed.

Lemma live_ids_spec {C} id (slots : list (ClientSlot C)) :
  existsb (slot_has_request id) slots = true <-> id ∈ omap live_id slots.
Proof.
  rewrite existsb_exists, list_elem_of_omap. split; intros (s & Hs & H); exists s;
    rewrite <-?list_elem_of_In, ?slot_has_request_spec in *; naive_solver.
Qed.

Lemma live_ids_fresh {C} id (slots : list (ClientSlot C)) :
  existsb (slot_has_request id) slots = false <-> (id ∉ omap live_id slots).
Proof. rewrite <-live_ids_spec. destruct (existsb _ _); naive_solver. Qed.

(** ** Request identifiers *)

(** The [k]th candidate from [c]: the identifiers from 1 to [U64_MAX] in a circle. *)
Definition candidate (c : Z) (k : nat) : Z := (c - 1 + Z.of_nat k) mod U64_MAX + 1.

Lemma candidate_0 c : 1 <= c <= U64_MAX -> candidate c 0 = c.
Proof.
  intros. unfold candidate. rewrite Z.add_0_r, Z.mod_small by lia. lia.
Qed.

Lemma candidate_range c k : 1 <= candidate c k <= U64_MAX.
Proof. unfold candidate. pose proof (Z.mod_pos_bound (c - 1 + Z.of_nat k) U64_MAX ltac:(lia)). lia. Qed.

Lemma next_candidate c :
  1 <= c <= U64_MAX -> Z.max (wrapping_add U64_MAX c 1) 1 = candidate c 1.
Proof.
  intros Hc. unfold wrapping_add, candidate. change (Z.of_nat 1) with 1.
  replace (c - 1 + 1) with c by lia. destruct (decide (c = U64_MAX)) as [->|].
  - rewrite Z.mod_same, Z.mod_same by lia. lia.
  - rewrite !Z.mod_small by lia. lia.
Qed.

Lemma candidate_succ c k : 1 <= c <= U64_MAX -> candidate (candidate c 1) k = candidate c (Datatypes.S k).
Proof.
  intros Hc. unfold candidate at 1 3. f_equal.
  unfold candidate. change (Z.of_nat 1) with 1.
  replace ((c - 1 + 1) mod U64_MAX + 1 - 1 + Z.of_nat k) with (c mod U64_MAX + Z.of_nat k) by
    (replace (c - 1 + 1) with c by lia; lia).
  rewrite Z.add_mod_idemp_l by lia. f_equal. lia.
Qed.

Lemma candidate_inj c j k :
  Z.of_nat j < U64_MAX -> Z.of_nat k < U64_MAX -> candidate c j = candidate c k -> j = k.
Proof.
  unfold candidate. intros Hj Hk He. pose proof (Z.div_mod (c - 1 + Z.of_nat j) U64_MAX ltac:(lia)).
  pose proof (Z.div_mod (c - 1 + Z.of_nat k) U64_MAX ltac:(lia)).
  assert (Z.of_nat j - Z.of_nat k =
    U64_MAX * ((c - 1 + Z.of_nat j) / U64_MAX - (c - 1 + Z.of_nat k) / U64_MAX)) by lia.
  lia.
Qed.

Lemma request_id_loop_spec {C} n (slots : list (ClientSlot C)) next :
  0 <= next <= U64_MAX ->
  match request_id_loop n slots next with
  | (next', Some id) => 1 <= id <= U64_MAX /\ 1 <= next' <= U64_MAX /\ (id ∉ omap live_id slots)
  | (next', None) => forall k, (k < n)%nat -> candidate (Z.max next 1) k ∈ omap live_id slots
  end.
Proof.
  revert next. induction n as [|n IH]; intros next Hn; cbn [request_id_loop]; [intros; lia|].
  set (c := Z.max next 1). assert (Hc : 1 <= c <= U64_MAX) by (unfold c; lia).
  rewrite next_candidate by done. pose proof (candidate_range c 1).
  destruct (existsb (slot_has_request c) slots) eqn:E.
  - specialize (IH (candidate c 1) ltac:(lia)). rewrite Z.max_l in IH by lia.
    destruct (request_id_loop n slots (candidate c 1)) as [next' [id|]]; [done|].
    intros [|k] Hk; [rewrite candidate_0 by done; by apply live_ids_spec|].
    rewrite <-candidate_succ by done. apply IH. lia.
  - split_and!; try lia. by apply live_ids_fresh.
Qed.

(** One more candidate than slots: the allocation cannot fail. *)
Lemma request_id_found {C} (slots : list (ClientSlot C)) next :
  0 <= next <= U64_MAX -> zlen slots < U64_MAX ->
  exists id next', request_id_loop (length slots + 1) slots next = (next', Some id).
Proof.
  intros Hn Hl. pose proof (request_id_loop_spec (length slots + 1) slots next Hn) as H.
  destruct (request_id_loop _ _ _) as [next' [id|]]; [eauto|]. exfalso.
  set (l := (fun k => candidate (Z.max next 1) k) <$> seq 0 (length slots + 1)).
  assert (NoDup l) as Hnd.
  { apply NoDup_fmap_2_strong; [|apply NoDup_seq]. unfold zlen in Hl.
    intros j k Hj%elem_of_seq Hk%elem_of_seq He. revert He. apply candidate_inj; lia. }
  assert (length l <= length (omap live_id slots))%nat as Hle.
  { apply submseteq_length, NoDup_submseteq; [done|]. intros x Hx.
    apply list_elem_of_fmap in Hx as (k & -> & Hk%elem_of_seq). apply H. lia. }
  unfold l in Hle. rewrite length_fmap, length_seq in Hle.
  assert (length (omap live_id slots) <= length slots)%nat; [|lia].
  clear. induction slots as [|s slots IH]; csimpl; [done|]. destruct (live_id s); csimpl; lia.
Qed.

(** ** Writing a frame *)

(** A caller's source over the byte string [content]. *)
Record readable_of (s : ReadableBytes) (content : list Z) : Prop := {
  ro_len : rb_len s = zlen content;
  ro_fits : zlen content <= U64_MAX;
  ro_read : forall offset n, 0 <= offset -> 0 <= n -> offset + n <= zlen content ->
    rb_read_at s offset n = Ok (slice offset n content);
  ro_contiguous : forall c, rb_as_contiguous s = Some c -> c = content;
}.

Lemma slice_readable_of content : zlen content <= U64_MAX -> readable_of (slice_readable content) content.
Proof.
  intros Hl. split; simpl; [done|done| |congruence]. intros offset n Ho Hn Hle.
  unfold try_from, checked_add. pose proof (zlen_nonneg content). by zcmp.
Qed.

Section Writing.
Context {W C D CE : Type} `{!DriverChainBuffer W C CE} `{!ChainContract W C D CE}.

(** A step of the frame writer that puts [src] at [offset] of the request. *)
Definition writes_at (offset : Z) (src : list Z)
    (write : W * C -> (W * C) * result unit (FrameWriteError CE)) : Prop :=
  forall w c, chain_good w (chain_data c) -> offset + zlen src <= zlen (request_bytes w (chain_data c)) ->
  exists w' c', write (w, c) = ((w', c'), Ok tt) /\ chain_data c' = chain_data c /\
    chain_good w' (chain_data c) /\
    request_bytes w' (chain_data c) = splice offset src (request_bytes w (chain_data c)) /\
    response_bytes w' (chain_data c) = response_bytes w (chain_data c).

(** A writer never replaces the chain by another one. *)
Definition keeps_chain (write : W * C -> (W * C) * result unit (FrameWriteError CE)) : Prop :=
  forall w c, let c' := (write (w, c)).1.2 in
  chain_data c' = chain_data c /\ (chain_sound c -> chain_sound c').

Lemma writes_nothing offset : writes_at offset [] (fun m => (m, Ok tt)).
Proof. intros w c Hg _. exists w, c. by rewrite splice_nil. Qed.

Lemma writes_bytes offset src :
  0 <= offset ->
  writes_at offset src (fun m => let '(m, r) := write_device_readable offset src m in (m, map_err FrameChain r)).
Proof.
  intros Ho w c Hg Hle. destruct (chain_write w c offset src Hg Ho Hle) as (w' & c' & -> & ?). by exists w', c'.
Qed.

Lemma writes_frame {T} `{Wire T} offset (v : T) : 0 <= offset -> writes_at offset (as_bytes v) (write_frame offset v).
Proof. apply writes_bytes. Qed.

(** Two adjacent steps are one step. *)
Lemma writes_seq offset a b f g :
  0 <= offset -> writes_at offset a f -> writes_at (offset + zlen a) b g ->
  writes_at offset (a ++ b)
    (fun m => match f m with (m, Err e) => (m, Err e) | (m, Ok _) => g m end).
Proof.
  intros Ho Hf Hg w c Hok Hle. rewrite zlen_app in Hle. pose proof (zlen_nonneg a). pose proof (zlen_nonneg b).
  destruct (Hf w c Hok) as (w1 & c1 & -> & D1 & G1 & R1 & S1); [lia|]. rewrite <-D1 in G1.
  destruct (Hg w1 c1 G1) as (w2 & c2 & -> & D2 & G2 & R2 & S2);
    [rewrite D1, R1, zlen_splice by lia; lia|].
  rewrite D1 in *. exists w2, c2. split_and!; [done|done|done| |by rewrite S2].
  rewrite R2, R1. apply splice_app; lia.
Qed.

Lemma keeps_bytes offset src :
  keeps_chain (fun m => let '(m, r) := write_device_readable offset src m in (m, map_err FrameChain r)).
Proof.
  intros w c. pose proof (chain_write_keeps w c offset src) as H.
  destruct (write_device_readable offset src (w, c)) as [[w' c'] r]. exact H.
Qed.

Lemma keeps_seq f g :
  keeps_chain f -> keeps_chain g ->
  keeps_chain (fun m => match f m with (m, Err e) => (m, Err e) | (m, Ok _) => g m end).
Proof.
  intros Hf Hg w c. specialize (Hf w c). cbv zeta in *. destruct (f (w, c)) as [[w1 c1] [[]|e]]; simpl in *; [|done].
  destruct (Hg w1 c1), Hf. split; [congruence|auto].
Qed.

Lemma copy_source_loop_spec fuel offset source content copied :
  readable_of source content -> 0 <= offset -> 0 <= copied <= zlen content ->
  zlen content - copied <= Z.of_nat fuel * 256 ->
  writes_at (offset + copied) (slice copied (zlen content - copied) content)
    (copy_source_loop fuel offset source copied).
Proof.
  intros Hs Ho. revert copied. induction fuel as [|fuel IH]; intros copied Hc Hf;
    cbn [copy_source_loop]; rewrite (ro_len _ _ Hs); destruct (Z.leb_spec (zlen content) copied).
  1, 3: replace (zlen content - copied) with 0 by lia; apply writes_nothing.
  { lia. }
  set (count := Z.min (zlen content - copied) COPY_SCRATCH_BYTES).
  assert (Hcount : 0 < count <= 256 /\ count <= zlen content - copied) by (unfold count, COPY_SCRATCH_BYTES; lia).
  assert (Hlen : zlen (slice copied count content) = count) by (apply zlen_slice; lia).
  rewrite (ro_read _ _ Hs) by lia.
  replace (slice copied (zlen content - copied) content) with
    (slice copied count content ++ slice (copied + count) (zlen content - (copied + count)) content)
    by (rewrite slice_app by lia; f_equal; lia).
  assert (Hrest : writes_at (offset + copied + zlen (slice copied count content))
    (slice (copied + count) (zlen content - (copied + count)) content)
    (copy_source_loop fuel offset source (copied + count))).
  { rewrite Hlen, <-Z.add_assoc. apply IH; [lia|]. unfold count, COPY_SCRATCH_BYTES in *. lia. }
  pose proof (writes_seq (offset + copied) _ _ _ _ ltac:(lia) (writes_bytes (offset + copied) _ ltac:(lia)) Hrest) as H'.
  intros w c Hg Hle. destruct (H' w c Hg Hle) as (w' & c' & E & ?). exists w', c'. split; [|done].
  rewrite <-E. destruct (write_device_readable _ _ _) as [m [[]|e]]; done.
Qed.

(** [copy_source] ends and writes the whole source, contiguous or not. *)
Lemma copy_source_spec offset source content :
  readable_of source content -> 0 <= offset -> writes_at offset content (copy_source offset source).
Proof.
  intros Hs Ho. unfold copy_source. destruct (rb_as_contiguous source) as [bytes|] eqn:E.
  { rewrite (ro_contiguous _ _ Hs _ E). by apply writes_bytes. }
  pose proof (zlen_nonneg content) as Hn.
  pose proof (copy_source_loop_spec (Datatypes.S (Z.to_nat (rb_len source / COPY_SCRATCH_BYTES))) offset source
    content 0 Hs Ho ltac:(lia)) as H.
  rewrite Z.add_0_r, Z.sub_0_r, slice_all in H. apply H. rewrite (ro_len _ _ Hs).
  unfold COPY_SCRATCH_BYTES. pose proof (Z.div_mod (zlen content) 256 ltac:(lia)).
  pose proof (Z.mod_pos_bound (zlen content) 256 ltac:(lia)).
  assert (0 <= zlen content / 256) by (apply Z.div_pos; lia). lia.
Qed.

Lemma copy_source_keeps offset source : keeps_chain (copy_source offset source).
Proof.
  unfold copy_source. destruct (rb_as_contiguous source) as [bytes|]; [apply keeps_bytes|].
  generalize 0. induction (Datatypes.S _) as [|fuel IH]; intros copied w c; cbn [copy_source_loop];
    destruct (_ <=? _); try done.
  destruct (rb_read_at _ _ _) as [scratch|]; [|done].
  pose proof (chain_write_keeps w c (offset + copied) scratch) as H.
  cbv zeta in *. destruct (write_device_readable _ _ _) as [[w' c'] [[]|e]]; simpl in *; [|done].
  destruct (IH (copied + Z.min (rb_len source - copied) COPY_SCRATCH_BYTES) w' c'), H.
  split; [congruence|auto].
Qed.

Lemma write_bindings_spec offset bindings :
  0 <= offset -> Forall (fun b => wire_wf (guest_binding_wire b)) bindings ->
  writes_at offset (concat (map (fun b => as_bytes (guest_binding_wire b)) bindings))
    (write_bindings offset bindings).
Proof.
  intros Ho HF. revert offset Ho. induction HF as [|b bs Hb _ IH]; intros offset Ho;
    cbn [map concat write_bindings]; [apply writes_nothing|].
  refine (writes_seq offset (as_bytes (guest_binding_wire b)) _ (write_frame offset (guest_binding_wire b))
    (write_bindings _ bs) Ho _ _).
  - by apply writes_frame.
  - rewrite zlen_as_bytes by done. apply IH. pose proof (size_of_nonneg (T := WireBinding)). lia.
Qed.

Lemma write_bindings_keeps offset bindings : keeps_chain (write_bindings offset bindings).
Proof.
  revert offset. induction bindings as [|b bs IH]; intros offset; [done|]. cbn [write_bindings].
  apply (keeps_seq (write_frame offset (guest_binding_wire b))); [apply keeps_bytes|apply IH].
Qed.

End Writing.

(** * Histories of a guest client

    [start_request] is the dispatcher over the seventeen calls that start a
    request.  A history interleaves the calls of the client's owner with steps
    of the device and of the control plane, which act on the queue and on
    memory.  The invariant of the slot table and the books of the chains hold
    over every history, for every queue and chain that keep the contracts. *)

(** ** Requests *)

Inductive GuestRequest :=
  | GrGetDeviceInfo
  | GrCreateContext
  | GrDestroyContext (context : GuestContext)
  | GrAllocateBuffer (context : GuestContext) (desc : GuestBufferDesc)
  | GrFreeBuffer (buffer : GuestBuffer)
  | GrWriteBuffer (buffer : GuestBuffer) (offset : Z) (source : ReadableBytes)
  | GrWritePrepared (buffer : GuestBuffer) (range : GuestBufferRange)
  | GrReadBuffer (buffer : GuestBuffer) (range : GuestBufferRange)
  | GrLoadProgram (context : GuestContext) (desc : ProgramDesc) (artifact : ReadableBytes)
  | GrLoadPrepared (context : GuestContext) (desc : ProgramDesc) (artifact_bytes : Z)
  | GrUnloadProgram (program : GuestProgram)
  | GrCreateQueue (context : GuestContext)
  | GrDestroyQueue (queue : GuestExecutionQueue)
  | GrSubmit (queue : GuestExecutionQueue) (program : GuestProgram) (bindings : list GuestBinding)
      (timeout_ns : Z)
  | GrPollEvent (event : GuestEvent)
  | GrCancelEvent (event : GuestEvent)
  | GrDestroyEvent (event : GuestEvent).

Section Trace.
Context {W C D Q CE QE R : Type} `{!DriverChainBuffer W C CE} `{!DriverQueue Q C QE R}.
Implicit Types (w : W) (chain : C) (self : GuestClient Q C).

(** The answer of a start without the operation it carries. *)
Definition erase {O} (s : W * GuestClient Q C * result (Pending O) (StartError C O QE CE)) :
    W * GuestClient Q C * result (Pending unit) (C * StartErrorKind QE CE) :=
  (s.1, match s.2 with
        | Ok p => Ok {| pn_slot := pn_slot p; pn_request_id := pn_request_id p; pn_epoch := pn_epoch p;
                        pn_operation := tt |}
        | Err e => Err (se_chain e, se_kind e)
        end).

Definition start_request (rq : GuestRequest) chain w self :
    W * GuestClient Q C * result (Pending unit) (C * StartErrorKind QE CE) :=
  match rq with
  | GrGetDeviceInfo => erase (get_device_info chain w self)
  | GrCreateContext => erase (guest_create_context chain w self)
  | GrDestroyContext context => erase (guest_destroy_context chain context w self)
  | GrAllocateBuffer context desc => erase (guest_allocate_buffer chain context desc w self)
  | GrFreeBuffer buffer => erase (guest_free_buffer chain buffer w self)
  | GrWriteBuffer buffer offset source => erase (guest_write_buffer chain buffer offset source w self)
  | GrWritePrepared buffer range => erase (write_buffer_prepared chain buffer range w self)
  | GrReadBuffer buffer range => erase (guest_read_buffer chain buffer range w self)
  | GrLoadProgram context desc artifact => erase (guest_load_program chain context desc artifact w self)
  | GrLoadPrepared context desc n => erase (load_program_prepared chain context desc n w self)
  | GrUnloadProgram program => erase (guest_unload_program chain program w self)
  | GrCreateQueue context => erase (create_execution_queue chain context w self)
  | GrDestroyQueue queue => erase (destroy_execution_queue chain queue w self)
  | GrSubmit queue program bindings timeout_ns =>
      erase (guest_submit chain queue program bindings timeout_ns w self)
  | GrPollEvent event => erase (guest_poll_event chain event w self)
  | GrCancelEvent event => erase (guest_cancel_event chain event w self)
  | GrDestroyEvent event => erase (guest_destroy_event chain event w self)
  end.

Context `{!ChainContract W C D CE} `{!QueueContract W Q C D QE CE R}.

(** Every start is refused at once, or it runs [start_frame] with a writer
    that keeps to the chain. *)
Lemma start_request_cases rq chain w self :
  (exists kind, start_request rq chain w self = (w, self, Err (chain, kind))) \/
  (exists O (HO : Operation O) (op : O) payload response write,
     start_request rq chain w self = erase (start_frame chain op payload response write w self) /\
     keeps_chain write).
Proof.
  assert (Hwire : forall O (HO : Operation O) T (HT : Wire T) (op : O) (v : T) response,
    exists O (HO : Operation O) (op' : O) payload response' write,
      erase (start_wire chain op v response w self) =
        erase (start_frame chain op' payload response' write w self) /\ keeps_chain write).
  { intros. eexists O, HO, op, _, _, _. split; [reflexivity|]. apply keeps_bytes. }
  assert (Hprep : forall O (HO : Operation O) (op : O) T (HT : Wire T) (v : T) payload response,
    exists O (HO : Operation O) (op' : O) payload' response' write,
      erase (start_frame chain op payload response (write_frame GUEST_REQUEST_HEADER_BYTES v) w self) =
        erase (start_frame chain op' payload' response' write w self) /\ keeps_chain write).
  { intros. eexists O, HO, op, _, _, _. split; [reflexivity|]. apply keeps_bytes. }
  assert (Hseq : forall O (HO : Operation O) (op : O) T (HT : Wire T) (v : T) payload response g,
    keeps_chain g ->
    exists O (HO : Operation O) (op' : O) payload' response' write,
      erase (start_frame chain op payload response
        (fun m => match write_frame GUEST_REQUEST_HEADER_BYTES v m with
                  | (m, Err e) => (m, Err e) | (m, Ok _) => g m end) w self) =
        erase (start_frame chain op' payload' response' write w self) /\ keeps_chain write).
  { intros. eexists O, HO, op, _, _, _. split; [reflexivity|]. apply keeps_seq; [apply keeps_bytes|done]. }
  destruct rq; cbn [start_request].
  - right. eexists GetDeviceInfo, _, _, _, _, _. split; [reflexivity|]. done.
  - right. apply Hwire.
  - unfold guest_destroy_context. case_match; [left; by eexists|right; apply Hwire].
  - unfold guest_allocate_buffer. repeat (case_match; [left; by eexists|]).
    case_match; [|left; by eexists]. case_match; [left; by eexists|right; apply Hwire].
  - unfold guest_free_buffer. case_match; [left; by eexists|right; apply Hwire].
  - unfold guest_write_buffer. case_match; [left; by eexists|]. case_match; [|left; by eexists].
    case_match; [left; by eexists|]. case_match; [|left; by eexists].
    right. apply Hseq, copy_source_keeps.
  - unfold write_buffer_prepared. do 2 (case_match; [left; by eexists|]). case_match; [|left; by eexists].
    right. apply Hprep.
  - unfold guest_read_buffer. do 2 (case_match; [left; by eexists|]). case_match; [|left; by eexists].
    right. apply Hwire.
  - unfold guest_load_program. case_match; [left; by eexists|]. case_match; [|left; by eexists].
    do 2 (case_match; [left; by eexists|]). right. apply Hseq, copy_source_keeps.
  - unfold load_program_prepared. case_match; [left; by eexists|]. case_match; [|left; by eexists].
    do 2 (case_match; [left; by eexists|]). right. apply Hprep.
  - unfold guest_unload_program. case_match; [left; by eexists|right; apply Hwire].
  - unfold create_execution_queue. case_match; [left; by eexists|right; apply Hwire].
  - unfold destroy_execution_queue. case_match; [left; by eexists|right; apply Hwire].
  - unfold guest_submit. do 2 (case_match; [left; by eexists|]). case_match; [|left; by eexists].
    case_match; [|left; by eexists]. case_match; [left; by eexists|]. case_match; [|left; by eexists].
    right. apply Hseq, write_bindings_keeps.
  - unfold guest_poll_event. case_match; [left; by eexists|right; apply Hwire].
  - unfold guest_cancel_event. case_match; [left; by eexists|right; apply Hwire].
  - unfold guest_destroy_event. case_match; [left; by eexists|right; apply Hwire].
Qed.

(** ** The invariant of the client *)

(** The slots are bounded, request identifiers and chain identities are
    unique, and the slots in flight are exactly the chains the queue owns,
    apart from those lost with an earlier epoch. *)
Record client_inv self : Prop := {
  ci_queue : queue_inv (gc_queue self);
  ci_len : zlen (gc_slots self) = gcf_max_inflight (gc_config self) /\ zlen (gc_slots self) <= U16_MAX;
  ci_next : 1 <= gc_next_request_id self <= U64_MAX;
  ci_ids : NoDup (omap live_id (gc_slots self));
  ci_ids_typed : Forall (fun id => 1 <= id <= U64_MAX) (omap live_id (gc_slots self));
  ci_chains : NoDup (omap flight_id (gc_slots self));
  ci_epochs : Forall (fun id => ci_epoch id < client_epoch self \/ id ∈ (queue_owned (gc_queue self)).*1)
    (omap flight_id (gc_slots self));
  ci_owned : (queue_owned (gc_queue self)).*1 ⊆ omap flight_id (gc_slots self);
  ci_unexpected : gc_unexpected self = None;
}.

(** The chains the client and its queue hold for the caller. *)
Definition held self : list D :=
  (queue_owned (gc_queue self)).*2 ++ (chain_data <$> omap held_chain (gc_slots self)).

(** ** Updates that keep the invariant *)

Lemma inv_set_queue self q dropped :
  client_inv self -> queue_inv q -> queue_owned (gc_queue self) ≡ₚ queue_owned q ++ dropped ->
  client_epoch self < qs_epoch (queue_state q) \/
    qs_epoch (queue_state q) = client_epoch self /\ dropped = [] ->
  client_inv (gc_set_queue q self) /\ held self ≡ₚ dropped.*2 ++ held (gc_set_queue q self).
Proof.
  intros [I1 I2 I3 I4 I5 I6 I7 I8 I9] Hq Ho He. pose proof (queue_ids _ I1) as [_ Hcur]. split.
  - split; try done; unfold client_epoch in *; simpl in *.
    + eapply Forall_impl; [exact I7|]. simpl. intros id [Hold|Hin]; [left; lia|].
      destruct He as [He|[He ->]].
      * left. apply list_elem_of_fmap in Hin as (e & -> & Hin). rewrite Forall_forall in Hcur.
        rewrite (Hcur e Hin). done.
      * right. by rewrite Ho, app_nil_r in Hin.
    + rewrite Ho, fmap_app in I8. set_solver.
  - unfold held. simpl. rewrite Ho, fmap_app. rewrite (Permutation_app_comm (_.*2)). by rewrite app_assoc.
Qed.

Lemma inv_set_next self n : client_inv self -> 1 <= n <= U64_MAX -> client_inv (gc_set_next_request_id n self).
Proof. by intros [] ?. Qed.

Lemma inv_set_health self h : client_inv self -> client_inv (gc_set_health h self).
Proof. by intros []. Qed.

Lemma inv_set_info self i : client_inv self -> client_inv (gc_set_device_info i self).
Proof. by intros []. Qed.

Lemma zlen_insert {A} i (x : A) l : zlen (<[i := x]> l) = zlen l.
Proof. unfold zlen. by rewrite length_insert. Qed.

(** The identifiers of the slots when one slot changes to [y]: those it had
    before, less what [x] had, and what [y] has. *)
Lemma omap_insert_same {A B} (f : A -> option B) (l : list A) i x y :
  l !! i = Some x -> f x = f y -> omap f (<[i := y]> l) ≡ₚ omap f l.
Proof.
  intros Hi He. pose proof (omap_insert_perm f l i x y Hi) as H. rewrite He in H.
  by apply Permutation_app_inv_r in H.
Qed.

Lemma omap_insert_add {A B} (f : A -> option B) (l : list A) i x y b :
  l !! i = Some x -> f x = None -> f y = Some b -> omap f (<[i := y]> l) ≡ₚ b :: omap f l.
Proof.
  intros Hi Hx Hy. pose proof (omap_insert_perm f l i x y Hi) as H. rewrite Hx, Hy, app_nil_r in H.
  rewrite H. simpl. by rewrite Permutation_app_comm.
Qed.

Lemma omap_insert_drop {A B} (f : A -> option B) (l : list A) i x y b :
  l !! i = Some x -> f x = Some b -> f y = None -> omap f l ≡ₚ b :: omap f (<[i := y]> l).
Proof.
  intros Hi Hx Hy. pose proof (omap_insert_perm f l i x y Hi) as H. rewrite Hx, Hy, app_nil_r in H.
  rewrite <-H. simpl. by rewrite Permutation_app_comm.
Qed.

(** A request enters a vacant slot with its chain in the queue. *)
Lemma inv_start self slot id p chain q :
  client_inv self -> gc_slots self !! slot = Some SlotVacant -> 1 <= id <= U64_MAX ->
  (id ∉ omap live_id (gc_slots self)) -> (p ∉ omap flight_id (gc_slots self)) ->
  queue_inv q -> queue_state q = queue_state (gc_queue self) -> ci_epoch p = client_epoch self ->
  queue_owned q ≡ₚ (p, chain_data chain) :: queue_owned (gc_queue self) ->
  client_inv (gc_set_slot slot (SlotInFlight id p) (gc_set_queue q self)) /\
  held (gc_set_slot slot (SlotInFlight id p) (gc_set_queue q self)) ≡ₚ chain_data chain :: held self.
Proof.
  intros [I1 I2 I3 I4 I5 I6 I7 I8 I9] Hv Hid Hfresh Hnew Hq Hst Hep Hown. split.
  - split; unfold client_epoch in *; simpl; rewrite ?zlen_insert, ?Hst; try done.
    + rewrite (omap_insert_add live_id _ _ _ _ id Hv) by done. by constructor.
    + rewrite (omap_insert_add live_id _ _ _ _ id Hv) by done. by constructor.
    + rewrite (omap_insert_add flight_id _ _ _ _ p Hv) by done. by constructor.
    + rewrite (omap_insert_add flight_id _ _ _ _ p Hv) by done. constructor; [right; rewrite Hown; set_solver|].
      eapply Forall_impl; [exact I7|]. simpl. intros x [?|?]; [by left|right; rewrite Hown; set_solver].
    + rewrite (omap_insert_add flight_id _ _ _ _ p Hv), Hown by done. simpl. set_solver.
  - unfold held. simpl. rewrite Hown. simpl. by rewrite (omap_insert_same held_chain _ _ _ _ Hv).
Qed.

(** A completion moves from the queue to the slot that tracks it. *)
Lemma inv_complete self slot id cid used q :
  client_inv self -> gc_slots self !! slot = Some (SlotInFlight id cid) -> uc_id used = cid ->
  queue_inv q -> queue_state q = queue_state (gc_queue self) ->
  queue_owned (gc_queue self) ≡ₚ (uc_id used, chain_data (uc_chain used)) :: queue_owned q ->
  client_inv (gc_set_slot slot (SlotCompleted id used) (gc_set_queue q self)) /\
  held (gc_set_slot slot (SlotCompleted id used) (gc_set_queue q self)) ≡ₚ held self.
Proof.
  intros [I1 I2 I3 I4 I5 I6 I7 I8 I9] Hs <- Hq Hst Hown.
  pose proof (omap_insert_drop flight_id _ _ _ (SlotCompleted id used) _ Hs eq_refl eq_refl) as Hf.
  pose proof (queue_ids _ I1) as [Hnd _]. rewrite Hown in Hnd. simpl in Hnd. apply NoDup_cons in Hnd as [Hni _].
  split.
  - split; unfold client_epoch in *; simpl; rewrite ?zlen_insert, ?Hst; try done.
    + by rewrite (omap_insert_same live_id _ _ _ _ Hs).
    + by rewrite (omap_insert_same live_id _ _ _ _ Hs).
    + rewrite Hf in I6. by apply NoDup_cons in I6 as [_ ?].
    + rewrite Hf in I6, I7. apply Forall_cons in I7 as [_ I7]. apply NoDup_cons in I6 as [Hnf _].
      rewrite Forall_forall in *. intros x Hx. specialize (I7 x Hx). rewrite Hown in I7. set_solver.
    + rewrite Hown, Hf in I8. simpl in I8. intros x Hx. specialize (I8 x). set_solver.
  - unfold held. simpl. rewrite Hown, (omap_insert_add held_chain _ _ _ _ (uc_chain used) Hs) by done. simpl.
    by rewrite Permutation_middle.
Qed.

(** A slot that holds a chain gives it to the caller. *)
Lemma inv_release self slot s c :
  client_inv self -> gc_slots self !! slot = Some s -> held_chain s = Some c ->
  client_inv (gc_set_slot slot SlotVacant self) /\
  held self ≡ₚ chain_data c :: held (gc_set_slot slot SlotVacant self).
Proof.
  intros [I1 I2 I3 I4 I5 I6 I7 I8 I9] Hs Hc.
  pose proof (omap_insert_perm live_id _ _ _ SlotVacant Hs) as Hl. rewrite app_nil_r in Hl.
  assert (Hf : omap flight_id (<[slot := SlotVacant]> (gc_slots self)) ≡ₚ omap flight_id (gc_slots self))
    by (apply (omap_insert_same flight_id _ _ _ _ Hs); by destruct s).
  split.
  - split; unfold client_epoch in *; simpl; rewrite ?zlen_insert, ?Hf; try done.
    + rewrite <-Hl in I4. by apply NoDup_app in I4 as [? _].
    + rewrite <-Hl in I5. by apply Forall_app in I5 as [? _].
  - unfold held. simpl. rewrite (omap_insert_drop held_chain _ _ _ SlotVacant c Hs Hc eq_refl). simpl.
    by rewrite <-Permutation_middle.
Qed.

(** ** Every call keeps the invariant *)

(** The queue after a refused or neutral queue operation. *)
Lemma inv_same_queue self q :
  client_inv self -> queue_inv q -> queue_state q = queue_state (gc_queue self) ->
  queue_owned q ≡ₚ queue_owned (gc_queue self) ->
  client_inv (gc_set_queue q self) /\ held (gc_set_queue q self) ≡ₚ held self.
Proof.
  intros I Hq Hst Ho. destruct (inv_set_queue self q [] I Hq) as [I' H'].
  - by rewrite app_nil_r.
  - right. unfold client_epoch. by rewrite Hst.
  - by rewrite H'.
Qed.

Lemma allocate_request_id_spec self :
  client_inv self ->
  exists id next, allocate_request_id self = (gc_set_next_request_id next self, Some id) /\
    1 <= id <= U64_MAX /\ 1 <= next <= U64_MAX /\ (id ∉ omap live_id (gc_slots self)).
Proof.
  intros I. pose proof (ci_next _ I). pose proof (ci_len _ I). unfold allocate_request_id.
  destruct (request_id_found (gc_slots self) (gc_next_request_id self)) as (id & next & E); [lia|lia|].
  pose proof (request_id_loop_spec (length (gc_slots self) + 1) (gc_slots self) (gc_next_request_id self)
    ltac:(lia)) as Hs. rewrite E in *. exists id, next. naive_solver.
Qed.

(** What a start does to a client: a refusal leaves the slots and the chains
    in place, a success puts the chain under a fresh identifier into a slot
    that was vacant. *)
Definition start_effect chain self self' (slot : Z) (r : result (Z * Z) C) : Prop :=
  client_inv self' /\
  gc_config self' = gc_config self /\ gc_device_info self' = gc_device_info self /\
  gc_health self' = gc_health self /\ client_epoch self' = client_epoch self /\
  match r with
  | Err chain' =>
      chain_data chain' = chain_data chain /\ gc_slots self' = gc_slots self /\ held self' ≡ₚ held self
  | Ok (id, epoch) =>
      (id ∉ omap live_id (gc_slots self)) /\ 1 <= id <= U64_MAX /\ epoch = client_epoch self /\
      gc_slots self !! Z.to_nat slot = Some SlotVacant /\
      (exists cid, gc_slots self' = <[Z.to_nat slot := SlotInFlight id cid]> (gc_slots self)) /\
      held self' ≡ₚ chain_data chain :: held self
  end.

Lemma start_effect_refused chain chain' self self' slot q next :
  client_inv self -> chain_data chain' = chain_data chain ->
  queue_inv q -> queue_state q = queue_state (gc_queue self) ->
  queue_owned q ≡ₚ queue_owned (gc_queue self) -> 1 <= next <= U64_MAX ->
  self' = gc_set_queue q (gc_set_next_request_id next self) ->
  start_effect chain self self' slot (Err chain').
Proof.
  intros I Hc Hq Hst Ho Hn ->.
  destruct (inv_same_queue (gc_set_next_request_id next self) q (inv_set_next _ _ I Hn) Hq Hst Ho) as [I' H'].
  split_and!; try done. unfold client_epoch. simpl. by rewrite Hst.
Qed.

Lemma gc_set_queue_id self : gc_set_queue (gc_queue self) self = self.
Proof. by destruct self. Qed.

Lemma gc_set_next_id self : gc_set_next_request_id (gc_next_request_id self) self = self.
Proof. by destruct self. Qed.

Lemma start_effect_unchanged chain chain' self slot :
  client_inv self -> chain_data chain' = chain_data chain -> start_effect chain self self slot (Err chain').
Proof. by intros I Hc. Qed.

Lemma start_publish_effect {O} `{Operation O} slot id chain (op : O) payload write w self next :
  client_inv self -> chain_sound chain -> keeps_chain write ->
  gc_slots self !! slot = Some SlotVacant -> 1 <= id <= U64_MAX -> 1 <= next <= U64_MAX ->
  (id ∉ omap live_id (gc_slots self)) ->
  let '(w', self', r) := start_publish slot id chain op payload write w (gc_set_next_request_id next self) in
  start_effect chain self self' (Z.of_nat slot)
    (match r with Ok p => Ok (pn_request_id p, pn_epoch p) | Err e => Err (se_chain e) end) /\
  match r with Ok p => pn_slot p = Z.of_nat slot | Err _ => True end.
Proof.
  intros I Hsound Hkeep Hv Hid Hn Hfresh. unfold start_publish, write_wire.
  assert (Hz : Z.of_nat slot < 65536) by (apply lookup_lt_Some in Hv; pose proof (ci_len _ I); unfold zlen in *; lia).
  pose proof (inv_set_next self next I Hn) as I1.
  pose proof (chain_write_keeps w chain 0 (as_bytes (RequestHeader_new (opcode op) 0 payload id))) as K1.
  cbv zeta in K1. destruct (write_device_readable _ _ _) as [[w1 c1] [[]|e]]; simpl in K1; destruct K1 as [D1 S1].
  2:{ split; [by split_and!|done]. }
  specialize (Hkeep w1 c1). cbv zeta in Hkeep. destruct (write (w1, c1)) as [[w2 c2] [[]|e]]; simpl in Hkeep;
    destruct Hkeep as [D2 S2].
  2:{ simpl. split; [|done]. split_and!; try done. by rewrite D2. }
  pose proof (queue_publish_law (gc_queue self) c2 (ci_queue _ I) (S2 (S1 Hsound))) as HP. simpl.
  destruct (queue_publish c2 (gc_queue self)) as [q [p|e]]; destruct HP as (Hq & Hst & HP).
  - destruct HP as [Hep Hown]. split; [|simpl; rewrite Z.mod_small; lia].
    assert (Hnew : p.(pc_id) ∉ omap flight_id (gc_slots self)).
    { intros Hin. pose proof (ci_epochs _ I) as He. rewrite Forall_forall in He.
      pose proof (queue_ids _ Hq) as [Hnd _]. rewrite Hown in Hnd. simpl in Hnd. apply NoDup_cons in Hnd as [Hni _].
      destruct (He _ Hin) as [Hlt|?]; [unfold client_epoch in Hlt; lia|done]. }
    destruct (inv_start (gc_set_next_request_id next self) slot id (pc_id p) chain q I1 Hv Hid Hfresh Hnew Hq Hst)
      as [I2 H2]; [done|by rewrite Hown, D2, D1|].
    unfold start_effect, client_epoch. simpl. rewrite Nat2Z.id, Hst.
    split_and!; try done; try lia. by exists (pc_id p).
  - destruct HP as [Hd Hown]. split; [|done].
    apply (start_effect_refused chain (pe_chain e) self _ _ q next); try done. by rewrite Hd, D2, D1.
Qed.

Lemma start_frame_effect {O} `{Operation O} chain (op : O) payload response write w self :
  client_inv self -> chain_sound chain -> keeps_chain write ->
  let '(w', self', r) := start_frame chain op payload response write w self in
  exists slot, start_effect chain self self' slot
    (match r with Ok p => Ok (pn_request_id p, pn_epoch p) | Err e => Err (se_chain e) end) /\
    match r with Ok p => pn_slot p = slot | Err _ => True end.
Proof.
  intros I Hsound Hkeep. unfold start_frame.
  assert (Hfail : forall kind : StartErrorKind QE CE, exists slot, start_effect chain self self slot
    (match start_failure chain op kind with Ok p => Ok (pn_request_id p, pn_epoch p) | Err e => Err (se_chain e) end) /\
    match start_failure chain op kind with Ok p => pn_slot p = slot | Err _ => True end).
  { intros. exists 0. simpl. split; [|done]. by apply start_effect_unchanged. }
  destruct (bool_decide (gc_health self = ClientNeedsReset)); [apply Hfail|].
  destruct (requires_discovery op && _); [apply Hfail|].
  destruct (list_position slot_vacant (gc_slots self)) as [slot|] eqn:Hpos; [|apply Hfail].
  destruct (checked_add _ _ _); [|apply Hfail].
  destruct (_ || negb _); [apply Hfail|]. destruct (_ || _); [apply Hfail|].
  destruct (try_from _ _) as [n|]; [|apply Hfail].
  destruct (allocate_request_id_spec self I) as (id & next & -> & Hid & Hn & Hfresh).
  apply list_position_Some in Hpos as (s & Hs & Hv).
  assert (s = SlotVacant) as -> by (by destruct s).
  pose proof (start_publish_effect slot id chain op n write w self next I Hsound Hkeep Hs Hid Hn Hfresh) as HP.
  destruct (start_publish _ _ _ _ _ _ _ _) as [[w' self'] r]. by exists (Z.of_nat slot).
Qed.

(** The same for every call of the interface. *)
Lemma start_request_effect rq chain w self :
  client_inv self -> chain_sound chain ->
  let '(w', self', r) := start_request rq chain w self in
  exists slot, start_effect chain self self' slot
    (match r with Ok p => Ok (pn_request_id p, pn_epoch p) | Err e => Err e.1 end) /\
    match r with Ok p => pn_slot p = slot | Err _ => True end.
Proof.
  intros I Hs. destruct (start_request_cases rq chain w self) as [[kind ->]|(O & HO & op & pl & rs & wr & -> & Hk)].
  - exists 0. split; [|done]. by apply start_effect_unchanged.
  - pose proof (start_frame_effect chain op pl rs wr w self I Hs Hk) as HE.
    destruct (start_frame _ _ _ _ _ _ _) as [[w' self'] [p|e]]; exact HE.
Qed.

(** A chain that the queue hands back is tracked: nothing is unexpected. *)
Lemma pump_effect self :
  client_inv self ->
  let '(self', r) := pump self in
  client_inv self' /\ held self' ≡ₚ held self /\ client_epoch self' = client_epoch self /\
  gc_health self' = gc_health self /\ gc_config self' = gc_config self /\
  r <> Ok PumpUnexpectedCompletion.
Proof.
  intros I. unfold pump. destruct (bool_decide (gc_health self = ClientNeedsReset)); [done|].
  pose proof (queue_pop_law (gc_queue self) (ci_queue _ I)) as HP.
  destruct (queue_pop_used (gc_queue self)) as [q r]. destruct HP as (Hq & Hst & HP).
  destruct r as [[used|]|e]; cbn [gc_slots gc_set_queue].
  2, 3: destruct (inv_same_queue self q I Hq Hst HP); unfold client_epoch; simpl; rewrite Hst; by split_and!.
  destruct (list_position (slot_has_chain (uc_id used)) (gc_slots self)) as [i|] eqn:Hpos.
  - apply list_position_Some in Hpos as (s & Hs & Hc). rewrite Hs.
    destruct s as [|id cid| |]; try done. simpl in Hc. apply bool_decide_eq_true in Hc as ->.
    destruct (inv_complete self i id (uc_id used) used q I Hs eq_refl Hq Hst HP) as [I' H'].
    unfold client_epoch. simpl. rewrite Hst. by split_and!.
  - exfalso. assert (Hin : uc_id used ∈ omap flight_id (gc_slots self)).
    { apply (ci_owned _ I). rewrite HP. simpl. set_solver. }
    apply list_elem_of_omap in Hin as (s & Hs & Hf).
    destruct (list_position_is_Some (slot_has_chain (uc_id used)) (gc_slots self) s) as [i Hi];
      [done|by apply slot_has_chain_spec|congruence].
Qed.

Definition completion_chain {O} `{Operation O} (c : Completion O C CE) : C :=
  match c with
  | CompletionSuccess _ chain | CompletionDeviceError _ _ _ chain | CompletionInvalidResponse _ _ chain => chain
  end.

(** The chain that a poll gives back. *)
Definition poll_chains {O} `{Operation O} (r : RequestPoll O C QE CE) : list D :=
  match r with PollReady c => [chain_data (completion_chain c)] | _ => [] end.

Lemma decode_completion_effect {O} `{Operation O} (pending : Pending O) used w self :
  let '(self', c) := decode_completion pending used w self in
  (client_inv self -> client_inv self') /\ held self' = held self /\ completion_chain c = uc_chain used /\
  client_epoch self' = client_epoch self.
Proof.
  unfold decode_completion. destruct (validate_response _ _ _ _ _) as [[output|status]|e]; simpl.
  - destruct (output_requires_reset output), (discovered_info output); split_and!; try done;
      auto using inv_set_health, inv_set_info.
  - destruct (bool_decide _); split_and!; try done; auto using inv_set_health.
  - split_and!; try done; auto using inv_set_health.
Qed.

Lemma poll_slot_effect {O} `{Operation O} (pending : Pending O) w self :
  client_inv self ->
  let '(self', r) := poll_slot pending w self in
  client_inv self' /\ held self ≡ₚ poll_chains r ++ held self' /\ client_epoch self' = client_epoch self.
Proof.
  intros I. unfold poll_slot. destruct (gc_slots self !! Z.to_nat (pn_slot pending)) as [s|] eqn:Hs; [|done].
  destruct s as [| |id used|]; try done. destruct (negb _); [done|].
  destruct (inv_release self _ _ (uc_chain used) I Hs eq_refl) as [I' H'].
  pose proof (decode_completion_effect pending used w (gc_set_slot (Z.to_nat (pn_slot pending)) SlotVacant self)) as HD.
  destruct (decode_completion _ _ _ _) as [self' c]. destruct HD as (HI & HH & HC & HE). simpl.
  rewrite HC, HH. split_and!; auto.
Qed.

Lemma poll_effect {O} `{Operation O} (pending : Pending O) w self :
  client_inv self ->
  let '(self', r) := poll pending w self in
  client_inv self' /\ held self ≡ₚ poll_chains r ++ held self' /\ client_epoch self' = client_epoch self.
Proof.
  intros I. unfold poll. destruct (negb (_ =? _)); [done|].
  destruct (bool_decide (gc_health self = ClientNeedsReset)); [done|]. destruct (negb _); [done|].
  pose proof (poll_slot_effect pending w self I) as HS.
  destruct (gc_slots self !! Z.to_nat (pn_slot pending)) as [[|id cid| |]|]; try exact HS.
  pose proof (pump_effect self I) as HP. destruct (pump self) as [self1 r1].
  destruct HP as (I1 & H1 & E1 & _).
  assert (HR : let '(self', r) := poll_slot pending w self1 in
    client_inv self' /\ held self ≡ₚ poll_chains r ++ held self' /\ client_epoch self' = client_epoch self).
  { pose proof (poll_slot_effect pending w self1 I1) as HS1. destruct (poll_slot pending w self1) as [self' r].
    destruct HS1 as (? & HH & HE). split_and!; [done|by rewrite <-H1|congruence]. }
  destruct r1 as [[| | |]|e]; try exact HR; split_and!; try done; by rewrite <-H1.
Qed.

Lemma omap_reset_none {B} (f : ClientSlot C -> option B) slots :
  (forall s, f (reset_slot s) = None) -> omap f (reset_slot <$> slots) = [].
Proof. intros Hf. induction slots as [|s slots IH]; csimpl; [done|]. by rewrite Hf. Qed.

Lemma omap_reset_held (slots : list (ClientSlot C)) : omap held_chain (reset_slot <$> slots) = omap held_chain slots.
Proof. induction slots as [|s slots IH]; csimpl; [done|]. destruct s; csimpl; by rewrite IH. Qed.

(** The chains that a reset gives back. *)
Definition reset_chains (r : result R (QueueError QE)) : list D :=
  match r with Ok chains => chain_data ∘ rc_chain <$> reclaimed_chains chains | Err _ => [] end.

Lemma reset_effect epoch self :
  client_inv self -> 0 < epoch ->
  let '(self', r) := client_reset epoch self in
  client_inv self' /\ held self ≡ₚ reset_chains r ++ held self' /\ client_epoch self <= client_epoch self' /\
  match r with
  | Ok _ => client_epoch self < client_epoch self' /\ gc_health self' = ClientRunning /\
      gc_device_info self' = None /\ queue_owned (gc_queue self') = [] /\
      omap live_id (gc_slots self') = [] /\ omap held_chain (gc_slots self') = omap held_chain (gc_slots self)
  | Err _ => True
  end.
Proof.
  intros I He. unfold client_reset.
  pose proof (queue_reset_law (gc_queue self) epoch (ci_queue _ I) He) as HP.
  destruct (queue_reset epoch (gc_queue self)) as [q [chains|e]]; destruct HP as (Hq & HP).
  2:{ destruct HP as [Hst Ho]. destruct (inv_same_queue self q I Hq Hst Ho) as [I' H'].
      unfold client_epoch. simpl. rewrite Hst, H'. by split_and!. }
  destruct HP as (Hlt & Hep & Ho & Hperm). destruct I as [I1 I2 I3 I4 I5 I6 I7 I8 I9].
  assert (Hlive : omap live_id (reset_slot <$> gc_slots self) = []) by (apply omap_reset_none; by intros []).
  assert (Hflight : omap flight_id (reset_slot <$> gc_slots self) = []) by (apply omap_reset_none; by intros []).
  split.
  - split; simpl; rewrite ?Hlive, ?Hflight; try done; try constructor; try lia.
    + unfold zlen in *. rewrite length_fmap. apply I2.
    + unfold zlen in *. rewrite length_fmap. apply I2.
    + rewrite Ho. set_solver.
  - unfold held, client_epoch in *. simpl. rewrite Ho, Hep, Hlive, omap_reset_held. simpl.
    split; [|split_and!; try done; lia].
    rewrite <-Hperm, <-list_fmap_compose. by apply Permutation_app_tail.
Qed.

Lemma pop_recovered_effect self :
  client_inv self ->
  let '(self', r) := pop_recovered_completion self in
  client_inv self' /\ held self ≡ₚ (chain_data ∘ uc_chain <$> option_list r) ++ held self' /\
  client_epoch self' = client_epoch self.
Proof.
  intros I. unfold pop_recovered_completion.
  destruct (list_position slot_recovered (gc_slots self)) as [i|] eqn:Hpos; [|done].
  apply list_position_Some in Hpos as (s & Hs & Hr). rewrite Hs. destruct s as [| | |used]; try done.
  destruct (inv_release self i _ (uc_chain used) I Hs eq_refl). by split_and!.
Qed.

Lemma take_unexpected_effect self :
  client_inv self ->
  let '(self', r) := take_unexpected_completion self in
  client_inv self' /\ r = None /\ held self' = held self /\ client_epoch self' = client_epoch self.
Proof. intros [I1 I2 I3 I4 I5 I6 I7 I8 I9]. by split_and!. Qed.

Lemma notify_effect self q :
  client_inv self -> q ∈ [(queue_disable_used (gc_queue self)).1; (queue_enable_used (gc_queue self)).1] ->
  client_inv (gc_set_queue q self) /\ held (gc_set_queue q self) ≡ₚ held self /\
  client_epoch (gc_set_queue q self) = client_epoch self.
Proof.
  intros I Hin. pose proof (queue_notify_law _ (ci_queue _ I)) as HP. rewrite Forall_forall in HP.
  destruct (HP q Hin) as (Hq & Hst & Ho). destruct (inv_same_queue self q I Hq Hst Ho).
  unfold client_epoch. simpl. rewrite Hst. by split_and!.
Qed.

(** ** Histories *)

Context `{!QueueControl Q QE} `{!ControlContract W Q C D QE CE R}.

Lemma reconfigure_effect size self :
  client_inv self -> size_sound size ->
  let '(self', r) := reconfigure_queue size self in
  client_inv self' /\ held self' ≡ₚ held self /\ client_epoch self' = client_epoch self.
Proof.
  intros I Hsz. unfold reconfigure_queue. destruct (validate_size _ _); [|done].
  assert (Hstep : forall self q, client_inv self -> queue_inv q ->
    queue_owned q ≡ₚ queue_owned (gc_queue self) -> qs_epoch (queue_state q) = client_epoch self ->
    client_inv (gc_set_queue q self) /\ held (gc_set_queue q self) ≡ₚ held self).
  { intros s q Is Hq Ho He. destruct (inv_set_queue s q [] Is Hq) as [? ->]; [by rewrite app_nil_r|by right|done]. }
  pose proof (queue_configure_law (gc_queue self) size (ci_queue _ I) Hsz) as (Hq & Ho & He).
  destruct (queue_configure size (gc_queue self)) as [q r]. simpl in *.
  destruct (Hstep self q I Hq Ho He) as [I1 H1]. destruct r; [|by split_and!].
  pose proof (queue_ready_law q true Hq) as (Hq2 & Ho2 & He2). destruct (queue_set_ready true q) as [q2 r2].
  simpl in *. destruct (Hstep (gc_set_queue q self) q2 I1 Hq2 Ho2 He2) as [I2 H2].
  split_and!; [exact I2|by rewrite <-H1, <-H2|]. unfold client_epoch in *. simpl. congruence.
Qed.

(** A client in memory, with the chains its owner has given to it, has got
    back from it, and has lost with a reset by the device. *)
Record ClientWorld := {
  cw_memory : W;
  cw_client : GuestClient Q C;
  cw_given : list D;
  cw_returned : list D;
  cw_lost : list D;
}.

Inductive client_step : ClientWorld -> ClientWorld -> Prop :=
  | step_start x rq chain w self token :
      chain_sound chain -> start_request rq chain (cw_memory x) (cw_client x) = (w, self, Ok token) ->
      client_step x {| cw_memory := w; cw_client := self; cw_given := cw_given x ++ [chain_data chain];
                       cw_returned := cw_returned x; cw_lost := cw_lost x |}
  | step_start_refused x rq chain w self e :
      chain_sound chain -> start_request rq chain (cw_memory x) (cw_client x) = (w, self, Err e) ->
      client_step x {| cw_memory := w; cw_client := self; cw_given := cw_given x;
                       cw_returned := cw_returned x; cw_lost := cw_lost x |}
  | step_pump x self r :
      pump (cw_client x) = (self, r) ->
      client_step x {| cw_memory := cw_memory x; cw_client := self; cw_given := cw_given x;
                       cw_returned := cw_returned x; cw_lost := cw_lost x |}
  | step_poll x O (HO : Operation O) (pending : Pending O) self r :
      poll pending (cw_memory x) (cw_client x) = (self, r) ->
      client_step x {| cw_memory := cw_memory x; cw_client := self; cw_given := cw_given x;
                       cw_returned := cw_returned x ++ poll_chains r; cw_lost := cw_lost x |}
  | step_reset x epoch self r :
      0 < epoch -> client_reset epoch (cw_client x) = (self, r) ->
      client_step x {| cw_memory := cw_memory x; cw_client := self; cw_given := cw_given x;
                       cw_returned := cw_returned x ++ reset_chains r; cw_lost := cw_lost x |}
  | step_reconfigure x size self r :
      size_sound size -> reconfigure_queue size (cw_client x) = (self, r) ->
      client_step x {| cw_memory := cw_memory x; cw_client := self; cw_given := cw_given x;
                       cw_returned := cw_returned x; cw_lost := cw_lost x |}
  | step_recover x self r :
      pop_recovered_completion (cw_client x) = (self, r) ->
      client_step x {| cw_memory := cw_memory x; cw_client := self; cw_given := cw_given x;
                       cw_returned := cw_returned x ++ (chain_data ∘ uc_chain <$> option_list r);
                       cw_lost := cw_lost x |}
  | step_take_unexpected x self r :
      take_unexpected_completion (cw_client x) = (self, r) ->
      client_step x {| cw_memory := cw_memory x; cw_client := self; cw_given := cw_given x;
                       cw_returned := cw_returned x ++ (chain_data ∘ uc_chain <$> option_list r);
                       cw_lost := cw_lost x |}
  | step_disable_used x self r :
      client_disable_used (cw_client x) = (self, r) ->
      client_step x {| cw_memory := cw_memory x; cw_client := self; cw_given := cw_given x;
                       cw_returned := cw_returned x; cw_lost := cw_lost x |}
  | step_enable_used x self r :
      client_enable_used (cw_client x) = (self, r) ->
      client_step x {| cw_memory := cw_memory x; cw_client := self; cw_given := cw_given x;
                       cw_returned := cw_returned x; cw_lost := cw_lost x |}
  | step_environment x q w dropped :
      queue_env (gc_queue (cw_client x)) q dropped ->
      client_step x {| cw_memory := w; cw_client := gc_set_queue q (cw_client x); cw_given := cw_given x;
                       cw_returned := cw_returned x; cw_lost := cw_lost x ++ dropped.*2 |}.

Inductive client_reachable : ClientWorld -> Prop :=
  | client_reach_new w mem queue config self :
      queue_inv queue -> queue_owned queue = [] -> is_u16 (gcf_max_inflight config) ->
      GuestClient_new mem queue config = Ok self ->
      client_reachable {| cw_memory := w; cw_client := self; cw_given := []; cw_returned := []; cw_lost := [] |}
  | client_reach_step x y : client_reachable x -> client_step x y -> client_reachable y.

Definition client_books (x : ClientWorld) : Prop :=
  cw_given x ≡ₚ cw_returned x ++ cw_lost x ++ held (cw_client x).

Lemma omap_vacant {B} (f : ClientSlot C -> option B) n : f SlotVacant = None -> omap f (replicate n SlotVacant) = [].
Proof. intros Hf. induction n as [|n IH]; csimpl; [done|]. by rewrite Hf. Qed.

Lemma new_client_inv mem queue config self :
  queue_inv queue -> queue_owned queue = [] -> is_u16 (gcf_max_inflight config) ->
  GuestClient_new mem queue config = Ok self -> client_inv self /\ held self = [].
Proof.
  intros Hq Ho Hm. unfold GuestClient_new. destruct (validate_queue _ _); [|done]. destruct mem; [|done].
  intros [= <-]. unfold held. split; [|simpl; by rewrite Ho, omap_vacant].
  split; simpl; rewrite ?omap_vacant by done; try done; try constructor; try lia.
  - unfold zlen. rewrite length_replicate. lia.
  - unfold zlen. rewrite length_replicate. lia.
  - rewrite Ho. set_solver.
Qed.

(** The books after a step that returns [ret] and loses [lost]. *)
Lemma books_step (given returned lost ret dropped before after : list D) :
  given ≡ₚ returned ++ lost ++ before -> before ≡ₚ ret ++ dropped ++ after ->
  given ≡ₚ (returned ++ ret) ++ (lost ++ dropped) ++ after.
Proof. intros -> ->. solve_Permutation. Qed.

(** A step keeps the invariant and the books, and never goes back to an
    earlier epoch. *)
Lemma client_step_ok x y : client_inv (cw_client x) -> client_step x y ->
  client_inv (cw_client y) /\ client_epoch (cw_client x) <= client_epoch (cw_client y) /\
  (client_books x -> client_books y).
Proof.
  unfold client_books. intros I St.
  assert (Hsame : forall self, held self ≡ₚ held (cw_client x) ->
    cw_given x ≡ₚ cw_returned x ++ cw_lost x ++ held (cw_client x) ->
    cw_given x ≡ₚ cw_returned x ++ cw_lost x ++ held self) by (by intros self ->).
  assert (Hret : forall ret self, held (cw_client x) ≡ₚ ret ++ held self ->
    cw_given x ≡ₚ cw_returned x ++ cw_lost x ++ held (cw_client x) ->
    cw_given x ≡ₚ (cw_returned x ++ ret) ++ cw_lost x ++ held self).
  { intros ret self HH B. pose proof (books_step _ _ _ ret [] _ (held self) B HH) as H.
    by rewrite app_nil_r in H. }
  destruct St; simpl.
  - pose proof (start_request_effect rq chain (cw_memory x) (cw_client x) I H) as HE. rewrite H0 in HE.
    destruct HE as (slot & (I' & _ & _ & _ & He & _ & _ & _ & _ & _ & Hh) & _). split; [done|]. split; [lia|].
    intros B. rewrite Hh, B. solve_Permutation.
  - pose proof (start_request_effect rq chain (cw_memory x) (cw_client x) I H) as HE. rewrite H0 in HE.
    destruct HE as (slot & (I' & _ & _ & _ & He & _ & _ & Hh) & _). split; [done|]. split; [lia|by apply Hsame].
  - pose proof (pump_effect _ I) as HE. rewrite H in HE. destruct HE as (I' & Hh & He & _).
    split; [done|]. split; [lia|by apply Hsame].
  - pose proof (poll_effect pending (cw_memory x) _ I) as HE. rewrite H in HE.
    destruct HE as (I' & Hh & He). split; [done|]. split; [lia|by apply Hret].
  - pose proof (reset_effect epoch _ I H) as HE. rewrite H0 in HE.
    destruct HE as (I' & Hh & He & _). split; [done|]. split; [lia|by apply Hret].
  - pose proof (reconfigure_effect size _ I H) as HE. rewrite H0 in HE.
    destruct HE as (I' & Hh & He). split; [done|]. split; [lia|by apply Hsame].
  - pose proof (pop_recovered_effect _ I) as HE. rewrite H in HE.
    destruct HE as (I' & Hh & He). split; [done|]. split; [lia|by apply Hret].
  - pose proof (take_unexpected_effect _ I) as HE. rewrite H in HE.
    destruct HE as (I' & -> & Hh & He). split; [done|]. split; [lia|]. apply Hret. simpl. by rewrite Hh.
  - destruct (notify_effect _ (queue_disable_used (gc_queue (cw_client x))).1 I ltac:(set_solver)) as (I' & Hh & He).
    unfold client_disable_used in H. destruct (queue_disable_used _). injection H as <- <-.
    split; [done|]. split; [simpl in *; lia|by apply Hsame].
  - destruct (notify_effect _ (queue_enable_used (gc_queue (cw_client x))).1 I ltac:(set_solver)) as (I' & Hh & He).
    unfold client_enable_used in H. destruct (queue_enable_used _). injection H as <- <-.
    split; [done|]. split; [simpl in *; lia|by apply Hsame].
  - destruct (queue_env_law _ _ _ (ci_queue _ I) H) as (Hq & Ho & He).
    destruct (inv_set_queue _ q dropped I Hq Ho He) as [I' Hh]. split; [done|]. split.
    { unfold client_epoch in *. simpl. lia. }
    intros B. pose proof (books_step _ _ _ [] (dropped.*2) _ (held (gc_set_queue q (cw_client x))) B Hh) as HB.
    by rewrite app_nil_r in HB.
Qed.

Lemma client_steps_epoch x y : client_inv (cw_client x) -> rtc client_step x y ->
  client_epoch (cw_client x) <= client_epoch (cw_client y).
Proof.
  intros I Hs. induction Hs as [|x y z Hxy _ IH]; [done|].
  destruct (client_step_ok x y I Hxy) as (I' & He & _). specialize (IH I'). lia.
Qed.

Lemma client_reachable_ok x : client_reachable x -> client_inv (cw_client x) /\ client_books x.
Proof.
  induction 1 as [w mem queue config self Hq Ho Hm Hn|x y _ [I B] St].
  - destruct (new_client_inv _ _ _ _ Hq Ho Hm Hn) as [I Hh]. split; [done|].
    unfold client_books. simpl. by rewrite Hh.
  - destruct (client_step_ok x y I St) as (I' & _ & HB). split; [done|by apply HB].
Qed.

End Trace.
