(* ===== verification/GuestFrames.v ===== *)
(** * The frames a guest client publishes

    What a request of the guest means on the wire ([request_wire]), and the
    proof that a started request has put exactly the frame of that meaning
    into the chain, within the limits of the device that the guest discovered:
    the device's decoder accepts it and decodes what the guest asked for. *)

From Stdlib Require Import ZArith Lia.
From stdpp Require Import prelude list.
From S2P Require Import Prelude Codec Proto Transport Core ObjectTable Regions Decoder DecoderSpec DriverPorts GuestTypes GuestClient GuestTrace.

(** ** The guest's values as the device sees them *)

Definition core_domain (d : GuestMemoryDomain) : MemoryDomain :=
  match d with GuestHost => DomainHost | GuestDevice => DomainDevice | GuestShared => DomainShared end.

Definition core_access (a : GuestAccessMode) : AccessMode :=
  match a with GuestRead => AccessRead | GuestWrite => AccessWrite | GuestReadWrite => AccessReadWrite end.

Definition core_desc (d : GuestBufferDesc) : BufferDesc :=
  {| bd_bytes := gd_bytes d; bd_alignment := gd_alignment d; bd_domain := core_domain (gd_memory_domain d);
     bd_usage := gd_usage d |}.

Definition core_range (r : GuestBufferRange) : BufferRange :=
  {| br_offset := gr_offset r; br_bytes := gr_bytes r |}.

Definition core_binding (b : GuestBinding) : DecodedBinding :=
  {| db_buffer_id := buffer_raw (bi_buffer b); db_range := core_range (bi_range b); db_slot := bi_slot b;
     db_access := core_access (bi_access b) |}.

(** The request on the wire; [data] are the bytes it transfers, if any. *)
Definition request_wire (rq : GuestRequest) (data : list Z) : WireRequest :=
  match rq with
  | GrGetDeviceInfo => WqGetDeviceInfo
  | GrCreateContext => WqCreateContext
  | GrDestroyContext context => WqObject OpDestroyContext (handle_raw context)
  | GrAllocateBuffer context desc => WqAllocateBuffer (handle_raw context) (core_desc desc)
  | GrFreeBuffer buffer => WqObject OpFreeBuffer (buffer_raw buffer)
  | GrWriteBuffer buffer offset _ => WqWriteBuffer (buffer_raw buffer) offset data
  | GrWritePrepared buffer range => WqWriteBuffer (buffer_raw buffer) (gr_offset range) data
  | GrReadBuffer buffer range => WqReadBuffer (buffer_raw buffer) (gr_offset range) (gr_bytes range)
  | GrLoadProgram context desc _ | GrLoadPrepared context desc _ =>
      WqLoadProgram (handle_raw context) (pd_format desc) (pd_target desc) data (pd_resident_bytes desc)
  | GrUnloadProgram program => WqObject OpUnloadProgram (handle_raw program)
  | GrCreateQueue context => WqCreateQueue (handle_raw context)
  | GrDestroyQueue queue => WqObject OpDestroyQueue (handle_raw queue)
  | GrSubmit queue program bindings timeout_ns =>
      WqSubmit (handle_raw queue) (handle_raw program) (core_binding <$> bindings) timeout_ns
  | GrPollEvent event => WqObject OpPollEvent (handle_raw event)
  | GrCancelEvent event => WqObject OpCancelEvent (handle_raw event)
  | GrDestroyEvent event => WqObject OpDestroyEvent (handle_raw event)
  end.

(** The arguments come from their constructors. *)
Definition desc_typed (d : GuestBufferDesc) : Prop :=
  is_u64 (gd_bytes d) /\ is_u64 (gd_alignment d) /\ is_u32 (gd_usage d) /\
  GuestBufferDesc_new (gd_bytes d) (gd_alignment d) (gd_memory_domain d) (gd_usage d) = Ok d.

Definition range_typed (r : GuestBufferRange) : Prop :=
  is_u64 (gr_offset r) /\ is_u64 (gr_bytes r) /\ GuestBufferRange_new (gr_offset r) (gr_bytes r) = Ok r.

Definition handle_typed {k} (h : SimpleHandle k) : Prop := id_ok (handle_raw h).

Definition buffer_typed (b : GuestBuffer) : Prop := id_ok (buffer_raw b) /\ desc_typed (gb_desc b).

Definition program_typed (d : ProgramDesc) : Prop :=
  0 < pd_format d <= U32_MAX /\ length (pd_target d) = 12%nat /\
  Forall (fun x => is_u32 x) (pd_target d) /\ 0 < pd_resident_bytes d <= U64_MAX.

Definition binding_typed (b : GuestBinding) : Prop :=
  buffer_typed (bi_buffer b) /\ range_typed (bi_range b) /\ is_u32 (bi_slot b).

Definition request_typed (rq : GuestRequest) : Prop :=
  match rq with
  | GrGetDeviceInfo | GrCreateContext => True
  | GrDestroyContext h | GrCreateQueue h => handle_typed h
  | GrAllocateBuffer h desc => handle_typed h /\ desc_typed desc
  | GrFreeBuffer b => buffer_typed b
  | GrWriteBuffer b offset _ => buffer_typed b /\ is_u64 offset
  | GrWritePrepared b range | GrReadBuffer b range => buffer_typed b /\ range_typed range
  | GrLoadProgram h desc _ => handle_typed h /\ program_typed desc
  | GrLoadPrepared h desc n => handle_typed h /\ program_typed desc /\ is_u64 n
  | GrUnloadProgram h => handle_typed h
  | GrDestroyQueue h => handle_typed h
  | GrSubmit q p bindings timeout_ns =>
      handle_typed q /\ handle_typed p /\ Forall binding_typed bindings /\ is_u64 timeout_ns
  | GrPollEvent h | GrCancelEvent h | GrDestroyEvent h => handle_typed h
  end.

(** The bytes a request transfers: what its source holds or, for the prepared
    forms, what the caller has put behind the prefix in the chain. *)
Definition request_data (rq : GuestRequest) (request data : list Z) : Prop :=
  is_bytes data /\
  match rq with
  | GrWriteBuffer _ _ source | GrLoadProgram _ _ source => readable_of source data
  | GrWritePrepared _ _ => data = drop 40 request
  | GrLoadPrepared _ _ _ => data = drop 96 request
  | _ => True
  end.

(** The device announces what the guest has discovered. *)
Record limits_match (config : GuestConfig) (info : option GuestDeviceInfo) (l : DecoderLimits) : Prop := {
  lm_request : dl_max_request_bytes l = wc_max_request_bytes (gcf_wire config);
  lm_response : dl_max_response_bytes l = wc_max_response_bytes (gcf_wire config);
  lm_info : forall i, info = Some i ->
    dl_max_bindings l = gi_max_bindings_per_submission i /\ gi_max_bindings_per_submission i <= 4096 /\
    dl_max_buffer_bytes l = gi_max_buffer_bytes i /\ dl_max_artifact_bytes l = gi_max_artifact_bytes i /\
    96 + gi_max_artifact_bytes i <= U64_MAX /\ dl_capabilities l = gi_capabilities i;
}.

(** ** Checked values *)

Lemma usage_bits u : 0 <= u -> GuestUsage_from_bits u <> None -> u <= 31.
Proof.
  intros Hu. unfold GuestUsage_from_bits. change USAGE_ALL with (Z.ones 5).
  rewrite Z.land_ones by lia. destruct (Z.eqb_spec (u mod 2 ^ 5) u) as [He|]; [|done].
  intros _. pose proof (Z.mod_pos_bound u (2 ^ 5) ltac:(lia)). lia.
Qed.

Lemma desc_typed_ok d :
  desc_typed d -> 0 < gd_bytes d <= U64_MAX /\ is_u64 (gd_alignment d) /\
  is_power_of_two (gd_alignment d) = true /\ 0 < gd_usage d <= 31.
Proof.
  intros (Hb & Ha & Hu & Hn). unfold GuestBufferDesc_new in Hn.
  destruct (Z.eqb_spec (gd_bytes d) 0); [done|]. destruct (is_power_of_two (gd_alignment d)); [|done].
  destruct (Z.eqb_spec (gd_usage d) 0); [done|]. simpl in Hn.
  case_bool_decide as Hf; [done|]. pose proof (usage_bits _ (proj1 Hu) Hf). lia.
Qed.

Lemma range_typed_ok r : range_typed r -> range_ok (core_range r).
Proof.
  intros (Ho & Hb & Hn). unfold GuestBufferRange_new in Hn. unfold range_ok. simpl.
  destruct (Z.eqb_spec (gr_bytes r) 0); [done|]. unfold checked_add in Hn.
  destruct (Z.leb_spec (gr_offset r + gr_bytes r) U64_MAX); [lia|done].
Qed.

Lemma land_pow2 a k : 0 <= k -> Z.land a (2 ^ k) = 0 \/ Z.land a (2 ^ k) = 2 ^ k.
Proof.
  intros Hk. destruct (Z.testbit a k) eqn:E; [right|left]; apply Z.bits_inj'; intros n Hn;
    rewrite Z.land_spec, ?Z.bits_0, Z.pow2_bits_eqb by done; destruct (Z.eqb_spec k n) as [<-|];
    by rewrite ?E, ?andb_false_r.
Qed.

Lemma supports_domain_core i d :
  supports_domain i d = supports_memory_domain (gi_capabilities i) (core_domain d).
Proof.
  unfold supports_domain, supports_memory_domain, bits_contains.
  assert (H : forall k, 0 <= k -> negb (Z.land (gi_capabilities i) (2 ^ k) =? 0) =
    (Z.land (gi_capabilities i) (2 ^ k) =? 2 ^ k)).
  { intros k Hk. pose proof (Z.pow_pos_nonneg 2 k ltac:(lia) Hk).
    destruct (land_pow2 (gi_capabilities i) k Hk) as [->| ->]; rewrite Z.eqb_refl.
    - symmetry. apply Z.eqb_neq. lia.
    - apply negb_true_iff, Z.eqb_neq. lia. }
  destruct d; [apply (H 0)|apply (H 1)|apply (H 5)]; lia.
Qed.

Lemma usage_allows_core d a : usage_allows (gd_usage d) a = allows_access (core_desc d) (core_access a).
Proof. by destruct a. Qed.

(** ** A started frame *)

Section Frames.
Context {W C D Q CE QE R : Type} `{!DriverChainBuffer W C CE} `{!DriverQueue Q C QE R}
  `{!ChainContract W C D CE} `{!QueueContract W Q C D QE CE R}.
Implicit Types (w : W) (chain : C) (self : GuestClient Q C).

Abbreviation request_of w chain := (request_bytes w (chain_data chain)).
Abbreviation response_of w chain := (response_bytes w (chain_data chain)).

(** The publication that ends a successful start. *)
Definition published_by chain self self' (epoch : Z) : Prop :=
  exists c' q p, queue_publish c' (gc_queue self) = (q, Ok p) /\ chain_data c' = chain_data chain /\
    gc_queue self' = q /\ epoch = ci_epoch (pc_id p).

Lemma start_publish_success {O} `{Operation O} slot id chain (op : O) payload write w self w' self' p prefix :
  chain_good w (chain_data chain) -> writes_at 16 prefix write ->
  0 <= payload -> zlen prefix <= payload -> 16 + payload = zlen (request_of w chain) ->
  start_publish slot id chain op payload write w self = (w', self', Ok p) ->
  let header := as_bytes (RequestHeader_new (opcode op) 0 payload id) in
  request_of w' chain =
    header ++ prefix ++ slice (16 + zlen prefix) (payload - zlen prefix) (request_of w chain) /\
  chain_good w' (chain_data chain) /\ response_of w' chain = response_of w chain /\
  pn_request_id p = id /\ published_by chain self self' (pn_epoch p).
Proof.
  intros Hg Hw Hp Hle Hlen Hs header. unfold start_publish, write_wire in Hs. fold header in Hs.
  assert (Hh : zlen header = 16) by apply zlen_request_header. pose proof (zlen_nonneg prefix) as Hn.
  clearbody header.
  destruct (chain_write w chain 0 header Hg) as (w1 & c1 & E1 & D1 & G1 & R1 & S1); [lia|lia|].
  rewrite E1 in Hs. rewrite <-D1 in G1.
  destruct (Hw w1 c1 G1) as (w2 & c2 & E2 & D2 & G2 & R2 & S2); [rewrite D1, R1, zlen_splice by lia; lia|].
  rewrite E2 in Hs. rewrite D1 in *.
  destruct (queue_publish c2 (gc_queue self)) as [q [pub|e]] eqn:E3; [|done]. injection Hs as <- <- <-.
  split_and!; [|done|congruence|done|exists c2, q, pub; by split_and!].
  rewrite R2, R1. replace 16 with (0 + zlen header) at 1 by lia.
  rewrite splice_app by (rewrite ?Hh; lia). unfold splice. simpl.
  rewrite <-app_assoc. do 2 f_equal. unfold slice. rewrite take_ge.
  - f_equal. unfold zlen in *. rewrite length_app. lia.
  - rewrite length_drop. unfold zlen in *. lia.
Qed.

Lemma start_frame_success {O} `{Operation O} chain (op : O) payload response write w self w' self' p prefix :
  client_inv self -> chain_good w (chain_data chain) -> writes_at 16 prefix write ->
  0 <= payload -> zlen prefix <= payload ->
  start_frame chain op payload response write w self = (w', self', Ok p) ->
  16 + payload = zlen (request_of w chain) /\
  16 + payload <= wc_max_request_bytes (gcf_wire (gc_config self)) /\
  response <= wc_max_response_bytes (gcf_wire (gc_config self)) /\ response <= zlen (response_of w chain) /\
  (requires_discovery op = true -> gc_device_info self <> None) /\ 1 <= pn_request_id p <= U64_MAX /\
  request_of w' chain = as_bytes (RequestHeader_new (opcode op) 0 payload (pn_request_id p)) ++
    prefix ++ slice (16 + zlen prefix) (payload - zlen prefix) (request_of w chain) /\
  chain_good w' (chain_data chain) /\ response_of w' chain = response_of w chain /\
  published_by chain self self' (pn_epoch p).
Proof.
  intros I Hg Hw Hp Hle Hs. unfold start_frame in Hs.
  destruct (bool_decide (gc_health self = ClientNeedsReset)); [done|].
  destruct (requires_discovery op && bool_decide (gc_device_info self = None)) eqn:Hd; [done|].
  destruct (list_position slot_vacant (gc_slots self)) as [slot|]; [|done].
  destruct (chain_readable_len w chain Hg) as [HL HU]. destruct (chain_writable_len w chain Hg) as [HLw HUw].
  change GUEST_REQUEST_HEADER_BYTES with 16 in Hs. unfold checked_add in Hs.
  destruct (Z.leb_spec (16 + payload) U64_MAX); [|done]. rewrite HL, HLw in Hs.
  destruct (Z.ltb_spec (wc_max_request_bytes (gcf_wire (gc_config self))) (16 + payload)); [done|].
  destruct (Z.eqb_spec (16 + payload) (zlen (request_of w chain))) as [Hlen|]; [|done]. cbn [negb orb] in Hs.
  destruct (Z.ltb_spec (wc_max_response_bytes (gcf_wire (gc_config self))) response); [done|].
  destruct (Z.ltb_spec (zlen (response_of w chain)) response); [done|]. cbn [orb] in Hs.
  unfold try_from in Hs. destruct (payload <=? U32_MAX); [|done].
  destruct (allocate_request_id_spec self I) as (id & next & E & Hid & _). rewrite E in Hs.
  destruct (start_publish_success _ _ _ _ _ _ _ _ _ _ _ prefix Hg Hw Hp Hle Hlen Hs) as (K1 & K2 & K3 & -> & K4).
  split_and!; try done; try lia. intros Hr. rewrite Hr in Hd. simpl in Hd. by apply bool_decide_eq_false in Hd.
Qed.

(** What a successful start establishes, for the request [wr]. *)
Definition frame_started (wr : WireRequest) (l : DecoderLimits) chain w self w' self' (id epoch : Z) : Prop :=
  request_of w' chain = frame_of id wr /\ frame_ok l (zlen (response_of w' chain)) id wr /\
  chain_good w' (chain_data chain) /\ response_of w' chain = response_of w chain /\
  published_by chain self self' epoch.

Lemma frame_started_intro {O} `{Operation O} chain (op : O) payload response write w self w' self' r p l wr prefix :
  client_inv self -> limits_match (gc_config self) (gc_device_info self) l ->
  chain_good w (chain_data chain) -> writes_at 16 prefix write -> 0 <= payload -> zlen prefix <= payload ->
  start_frame chain op payload response write w self = (w', self', r) -> erase (w', self', r) = (w', self', Ok p) ->
  (16 + payload = zlen (request_of w chain) -> 16 + payload <= wc_max_request_bytes (gcf_wire (gc_config self)) ->
    (requires_discovery op = true -> exists i, gc_device_info self = Some i) ->
    wire_opcode wr = opcode op /\
    wire_payload wr = prefix ++ slice (16 + zlen prefix) (payload - zlen prefix) (request_of w chain) /\
    success_bytes wr = response /\ request_ok l wr) ->
  frame_started wr l chain w self w' self' (pn_request_id p) (pn_epoch p).
Proof.
  intros I Hm Hg Hw Hp Hle Hs He Hwr. destruct r as [p'|e]; [|done]. injection He as <-. simpl.
  destruct (start_frame_success chain op payload response write w self w' self' p' prefix I Hg Hw Hp Hle Hs)
    as (H1 & H2 & H3 & H4 & H5 & H6 & H7 & H8 & H9 & H10).
  destruct Hwr as (W1 & W2 & W3 & W4); [done|done| |].
  { intros Hd. specialize (H5 Hd). destruct (gc_device_info self); [eauto|done]. }
  assert (HP : zlen (wire_payload wr) = payload).
  { rewrite W2, zlen_app, zlen_slice by (pose proof (zlen_nonneg prefix); lia). lia. }
  split_and!; try done.
  - unfold frame_of. by rewrite W1, HP, W2.
  - unfold frame_ok. rewrite HP, W3, H9, (lm_request _ _ _ Hm), (lm_response _ _ _ Hm). split_and!; try done; lia.
Qed.

(** The forms the calls use: nothing, one structure, a structure and data. *)
Lemma frame_started_wire {O T} `{Operation O} `{Wire T} chain (op : O) (v : T) response w self w' self' p l wr :
  client_inv self -> limits_match (gc_config self) (gc_device_info self) l ->
  chain_good w (chain_data chain) -> wire_wf v ->
  erase (start_wire chain op v response w self) = (w', self', Ok p) ->
  wire_opcode wr = opcode op -> wire_payload wr = as_bytes v -> success_bytes wr = response ->
  ((requires_discovery op = true -> exists i, gc_device_info self = Some i) -> request_ok l wr) ->
  frame_started wr l chain w self w' self' (pn_request_id p) (pn_epoch p).
Proof.
  intros I Hm Hg Hwf Hs H1 H2 H3 H4. unfold start_wire in Hs.
  destruct (start_frame _ _ _ _ _ _ _) as [[w1 self1] r] eqn:E. assert (w1 = w' /\ self1 = self') as [-> ->].
  { unfold erase in Hs. simpl in Hs. destruct r; by simplify_eq. }
  pose proof (zlen_as_bytes v Hwf) as Hz.
  eapply (frame_started_intro chain op (size_of T) response _ w self w' self' r p l wr (as_bytes v));
    try done; try (pose proof (size_of_nonneg (T := T)); lia).
  - by apply writes_frame.
  - intros _ _ Hd. rewrite Hz, Z.sub_diag. unfold slice. rewrite take_0, app_nil_r. auto.
Qed.

Lemma frame_started_prefix {O T} `{Operation O} `{Wire T} chain (op : O) (v : T) n response w self w' self' p l wr data :
  client_inv self -> limits_match (gc_config self) (gc_device_info self) l ->
  chain_good w (chain_data chain) -> wire_wf v -> 0 <= n ->
  erase (start_frame chain op (size_of T + n) response (write_frame GUEST_REQUEST_HEADER_BYTES v) w self)
    = (w', self', Ok p) ->
  data = drop (Z.to_nat (16 + size_of T)) (request_of w chain) ->
  wire_opcode wr = opcode op -> success_bytes wr = response ->
  (zlen data = n -> wire_payload wr = as_bytes v ++ data) ->
  (zlen data = n -> 16 + size_of T + n <= wc_max_request_bytes (gcf_wire (gc_config self)) ->
    (requires_discovery op = true -> exists i, gc_device_info self = Some i) -> request_ok l wr) ->
  frame_started wr l chain w self w' self' (pn_request_id p) (pn_epoch p).
Proof.
  intros I Hm Hg Hwf Hn Hs Hdata H1 H2 H3 H4.
  destruct (start_frame _ _ _ _ _ _ _) as [[w1 self1] r] eqn:E. assert (w1 = w' /\ self1 = self') as [-> ->].
  { unfold erase in Hs. simpl in Hs. destruct r; by simplify_eq. }
  pose proof (zlen_as_bytes v Hwf) as Hz. pose proof (size_of_nonneg (T := T)) as Hsz.
  eapply (frame_started_intro chain op (size_of T + n) response _ w self w' self' r p l wr (as_bytes v));
    try done; try lia.
  - by apply writes_frame.
  - intros Hlen Hmax Hd. rewrite Hz. replace (size_of T + n - size_of T) with n by lia.
    assert (Hl : zlen data = n).
    { rewrite Hdata. unfold zlen in *. rewrite length_drop. lia. }
    rewrite H3 by done. split_and!; try done; [|apply H4; [done|lia|done]].
    f_equal. rewrite Hdata. unfold slice. rewrite take_ge; [done|].
    rewrite <-Hdata. unfold zlen in Hl. lia.
Qed.

Lemma frame_started_copy {O T} `{Operation O} `{Wire T} chain (op : O) (v : T) n response g w self w' self' p l wr data :
  client_inv self -> limits_match (gc_config self) (gc_device_info self) l ->
  chain_good w (chain_data chain) -> wire_wf v ->
  writes_at (16 + size_of T) data g -> zlen data = n ->
  erase (start_frame chain op (size_of T + n) response
    (fun m => match write_frame GUEST_REQUEST_HEADER_BYTES v m with
              | (m, Err e) => (m, Err e) | (m, Ok _) => g m end) w self) = (w', self', Ok p) ->
  wire_opcode wr = opcode op -> success_bytes wr = response -> wire_payload wr = as_bytes v ++ data ->
  (16 + size_of T + n <= wc_max_request_bytes (gcf_wire (gc_config self)) ->
    (requires_discovery op = true -> exists i, gc_device_info self = Some i) -> request_ok l wr) ->
  frame_started wr l chain w self w' self' (pn_request_id p) (pn_epoch p).
Proof.
  intros I Hm Hg Hwf Hgw Hn Hs H1 H2 H3 H4.
  destruct (start_frame _ _ _ _ _ _ _) as [[w1 self1] r] eqn:E. assert (w1 = w' /\ self1 = self') as [-> ->].
  { unfold erase in Hs. simpl in Hs. destruct r; by simplify_eq. }
  pose proof (zlen_as_bytes v Hwf) as Hz. pose proof (size_of_nonneg (T := T)) as Hsz.
  pose proof (zlen_nonneg data) as Hdn.
  assert (HA : zlen (as_bytes v ++ data) = size_of T + n) by (rewrite zlen_app; lia).
  eapply (frame_started_intro chain op (size_of T + n) response _ w self w' self' r p l wr (as_bytes v ++ data));
    try done; try lia.
  - apply writes_seq; [lia|by apply writes_frame|]. by rewrite Hz.
  - intros _ Hmax Hd. rewrite HA, Z.sub_diag. unfold slice. rewrite take_0, app_nil_r.
    split_and!; try done. apply H4; [lia|done].
Qed.

(** ** Bindings *)

Lemma bindings_are_canonical_windows bs :
  bindings_are_canonical bs = windows2_all (fun p q => bi_slot p <? bi_slot q) bs.
Proof. induction bs as [|a [|b bs] IH]; try done. simpl in *. by rewrite IH. Qed.

Lemma canonical_NoDup bs : bindings_are_canonical bs = true -> NoDup (map bi_slot bs).
Proof. rewrite bindings_are_canonical_windows. apply windows2_ltb_NoDup. Qed.

(** The fast path of [submit] skips only checks that pass. *)
Lemma check_bindings_canonical epoch context prior rest :
  NoDup (map bi_slot (prior ++ rest)) ->
  check_bindings (QE := QE) (CE := CE) epoch context true prior rest =
    check_bindings epoch context false prior rest.
Proof.
  revert prior. induction rest as [|b rest IH]; intros prior Hnd; [done|]. simpl.
  assert (existsb (fun p => bi_slot p =? bi_slot b) prior = false) as ->.
  { apply not_true_iff_false. rewrite existsb_exists. intros (x & Hx & Heq). bool_to_prop.
    rewrite map_app in Hnd. apply NoDup_app in Hnd as (_ & Hd & _). apply (Hd (bi_slot x)).
    - apply list_elem_of_In, in_map, Hx.
    - rewrite Heq. simpl. apply elem_of_cons. by left. }
  repeat case_match; try done. apply IH. by rewrite <-app_assoc.
Qed.

Lemma check_bindings_ok epoch context prior rest :
  check_bindings (QE := QE) (CE := CE) epoch context false prior rest = Ok tt ->
  NoDup (map bi_slot prior) -> NoDup (map bi_slot (prior ++ rest)).
Proof.
  revert prior. induction rest as [|b rest IH]; intros prior; simpl; [by rewrite app_nil_r|].
  destruct (negb (buffer_epoch _ =? _)); [done|]. destruct (_ || _) eqn:E; [done|]. intros Hc Hnd.
  apply orb_false_iff in E as [_ E]. simpl in E.
  specialize (IH _ Hc). rewrite <-app_assoc in IH. apply IH. rewrite map_app. apply NoDup_app. split_and!; [done| |].
  - intros x Hx Hx'. simpl in Hx'. apply list_elem_of_singleton in Hx' as ->.
    apply list_elem_of_In, in_map_iff in Hx as (y & Hy & Hin).
    apply not_true_iff_false in E. apply E. rewrite existsb_exists. exists y. split; [done|]. by apply Z.eqb_eq.
  - apply NoDup_singleton.
Qed.

Lemma submit_slots_unique epoch context bs :
  check_bindings (QE := QE) (CE := CE) epoch context (bindings_are_canonical bs) [] bs = Ok tt ->
  NoDup (map bi_slot bs).
Proof.
  destruct (bindings_are_canonical bs) eqn:E; [intros _; by apply canonical_NoDup|].
  intros H. by apply (check_bindings_ok epoch context [] bs); [|constructor].
Qed.

Lemma guest_binding_wire_core b : guest_binding_wire b = binding_wire (core_binding b).
Proof. unfold guest_binding_wire, binding_wire, core_binding. simpl. by destruct (bi_access b). Qed.

Lemma binding_typed_ok b : binding_typed b -> binding_ok (core_binding b).
Proof. intros ((Hid & _) & Hr & Hs). split; [done|]. split; [by apply range_typed_ok|done]. Qed.

Lemma binding_typed_wf b : binding_typed b -> wire_wf (guest_binding_wire b).
Proof.
  intros ((Hid & _) & (Ho & Hb & _) & Hs). unfold id_ok in Hid. unfold WireBinding_wire. wire_bounds. simpl.
  assert (0 <= GuestAccessMode_as_u8 (bi_access b) < 256) by (destruct (bi_access b); simpl; lia).
  split_and!; try lia; try done. repeat constructor; lia.
Qed.

(** ** Every request *)

Lemma object_wf id : id_ok id -> wire_wf {| op_object_id := id |}.
Proof. unfold id_ok. intros. unfold ObjectPayload_wire. wire_bounds. simpl. lia. Qed.

(** The requests whose payload is the identifier of a handle. *)
Lemma object_started {O} `{Operation O} (op : O) id response chain w self w' self' p l :
  client_inv self -> limits_match (gc_config self) (gc_device_info self) l -> chain_good w (chain_data chain) ->
  id_ok id -> is_Some (object_body (opcode op) id) ->
  response = (if decide (opcode op = OpPollEvent) then 24 else 16) ->
  erase (start_wire chain op {| op_object_id := id |} response w self) = (w', self', Ok p) ->
  frame_started (WqObject (opcode op) id) l chain w self w' self' (pn_request_id p) (pn_epoch p).
Proof.
  intros I Hm Hg Hid Hb Hr Hs.
  refine (frame_started_wire chain op _ response w self w' self' p l _ I Hm Hg (object_wf id Hid) Hs _ _ _ _);
    done.
Qed.

(** What the checks of the transfer calls leave of a range. *)
Lemma fits_range r limit : range_typed r -> GuestBufferRange_fits r limit = true -> gr_offset r + gr_bytes r <= limit.
Proof.
  intros Hr. apply range_typed_ok in Hr. unfold range_ok in Hr. simpl in Hr.
  unfold GuestBufferRange_fits, checked_add. destruct (Z.leb_spec (gr_offset r + gr_bytes r) U64_MAX); [|done].
  by intros ?%Z.leb_le.
Qed.

Lemma load_wf context desc n :
  id_ok (handle_raw context) -> program_typed desc -> is_u64 n -> wire_wf (load_request context desc n).
Proof.
  unfold id_ok. intros Hid (Hf & Ht & Hts & Hr) Hn. unfold LoadProgramRequest_wire. wire_bounds. simpl.
  split_and!; try lia; try done. eapply Forall_impl; [exact Hts|]. simpl. lia.
Qed.

Lemma load_ok l (context : GuestContext) desc data i :
  id_ok (handle_raw context) -> program_typed desc -> is_bytes data -> 0 < zlen data <= gi_max_artifact_bytes i ->
  dl_max_artifact_bytes l = gi_max_artifact_bytes i ->
  request_ok l (WqLoadProgram (handle_raw context) (pd_format desc) (pd_target desc) data (pd_resident_bytes desc)).
Proof.
  intros Hid (Hf & Ht & Hts & Hr) Hb Hl Hm. simpl. rewrite Hm. split_and!; try done; try lia.
  intros ->. by destruct Hl.
Qed.

Lemma submit_ok l (queue : GuestExecutionQueue) (program : GuestProgram) bindings timeout_ns i epoch context :
  id_ok (handle_raw queue) -> id_ok (handle_raw program) -> Forall binding_typed bindings -> is_u64 timeout_ns ->
  zlen bindings <> 0 -> zlen bindings <= gi_max_bindings_per_submission i <= 4096 ->
  dl_max_bindings l = gi_max_bindings_per_submission i ->
  check_bindings (QE := QE) (CE := CE) epoch context (bindings_are_canonical bindings) [] bindings = Ok tt ->
  request_ok l (WqSubmit (handle_raw queue) (handle_raw program) (core_binding <$> bindings) timeout_ns).
Proof.
  intros Hq Hp Hb Ht Hne Hle Hm Hc. pose proof (submit_slots_unique _ _ _ Hc) as Hnd. simpl.
  assert (Hl : zlen (core_binding <$> bindings) = zlen bindings) by (unfold zlen; by rewrite length_fmap).
  rewrite Hl, Hm. split_and!; try done; try lia.
  - intros He%fmap_nil_inv. by subst.
  - apply Forall_fmap. eapply Forall_impl; [exact Hb|]. apply binding_typed_ok.
  - replace (map db_slot (core_binding <$> bindings)) with (map bi_slot bindings); [done|].
    clear. induction bindings as [|b bs IH]; [done|]. simpl. by rewrite IH.
Qed.

Lemma start_transfer_wf buffer offset n :
  id_ok (buffer_raw buffer) -> is_u64 offset -> is_u64 n ->
  wire_wf {| tb_buffer_id := buffer_raw buffer; tb_offset := offset; tb_bytes := n |}.
Proof. unfold id_ok. intros. unfold TransferBufferRequest_wire. wire_bounds. simpl. lia. Qed.

Lemma request_started rq data chain w self w' self' p l :
  client_inv self -> limits_match (gc_config self) (gc_device_info self) l -> chain_good w (chain_data chain) ->
  request_typed rq -> request_data rq (request_of w chain) data ->
  start_request rq chain w self = (w', self', Ok p) ->
  frame_started (request_wire rq data) l chain w self w' self' (pn_request_id p) (pn_epoch p).
Proof.
  intros I Hm Hg Ht [Hb Hd] Hs. destruct rq; cbn [start_request request_wire request_typed] in *.
  - (* GET_DEVICE_INFO *)
    unfold get_device_info in Hs. destruct (start_frame _ _ _ _ _ _ _) as [[w1 self1] r] eqn:E.
    assert (w1 = w' /\ self1 = self') as [-> ->].
    { unfold erase in Hs. simpl in Hs. destruct r; by simplify_eq. }
    eapply (frame_started_intro chain MkGetDeviceInfo 0 _ _ w self w' self' r p l WqGetDeviceInfo []); try done.
    apply writes_nothing.
  - (* CREATE_CONTEXT *)
    unfold guest_create_context in Hs. refine (frame_started_wire chain _ _ _ w self w' self' p l _ I Hm Hg _ Hs _ _ _ _); [|done|done|done|done].
    unfold CreateContextRequest_wire. wire_bounds. simpl. lia.
  - unfold guest_destroy_context in Hs. case_match; [done|].
    refine (object_started _ _ _ chain w self w' self' p l I Hm Hg Ht _ _ Hs); [by eexists|done].
  - (* ALLOCATE_BUFFER *)
    destruct Ht as [Hid Hdesc]. pose proof (desc_typed_ok _ Hdesc) as (H1 & H2 & H3 & H4).
    unfold guest_allocate_buffer in Hs. case_match; [done|].
    destruct (gc_device_info self) as [i|] eqn:Ei; [|done].
    destruct (_ || _) eqn:El; [done|]. apply orb_false_iff in El as [El1 El2]. bool_to_prop.
    destruct (lm_info _ _ _ Hm i eq_refl) as (_ & _ & L1 & _ & _ & L2). rewrite <-Ei in Hm.
    refine (frame_started_wire chain _ _ _ w self w' self' p l _ I Hm Hg _ Hs _ _ _ _); [|done| |done|].
    + unfold handle_typed, id_ok in Hid. unfold AllocateBufferRequest_wire. wire_bounds. simpl.
      assert (0 <= GuestMemoryDomain_as_u8 (gd_memory_domain desc) < 256) by (destruct (gd_memory_domain desc); simpl; lia).
      split_and!; try lia; try done. repeat constructor; lia.
    + simpl. by destruct (gd_memory_domain desc).
    + intros _. simpl. rewrite L1, L2, <-supports_domain_core, El2. split_and!; try done; lia.
  - unfold guest_free_buffer in Hs. case_match; [done|].
    refine (object_started _ _ _ chain w self w' self' p l I Hm Hg (proj1 Ht) _ _ Hs); [by eexists|done].
  - (* WRITE_BUFFER *)
    destruct Ht as [[Hid _] Ho]. unfold guest_write_buffer in Hs. case_match; [done|].
    rewrite (ro_len _ _ Hd) in Hs. pose proof (ro_fits _ _ Hd) as Hu. pose proof (zlen_nonneg data) as Hn.
    destruct (GuestBufferRange_new offset (zlen data)) as [range|] eqn:Er; [|done].
    destruct (_ || _); [done|]. unfold checked_add in Hs.
    destruct (_ <=? _); [|done]. unfold GuestBufferRange_new in Er.
    destruct (Z.eqb_spec (zlen data) 0); [done|]. unfold checked_add in Er.
    destruct (Z.leb_spec (offset + zlen data) U64_MAX); [|done].
    refine (frame_started_copy chain _ _ _ _ _ w self w' self' p l _ data I Hm Hg _ _ eq_refl Hs _ _ _ _); [| |done..|].
    + by apply start_transfer_wf.
    + by apply copy_source_spec.
    + intros _ _. simpl. unfold range_ok. simpl. split_and!; try done; lia.
  - (* WRITE_BUFFER, prepared *)
    destruct Ht as [[Hid _] Hr]. pose proof (range_typed_ok _ Hr) as Hrok. unfold range_ok in Hrok. simpl in Hrok.
    unfold write_buffer_prepared in Hs. case_match; [done|]. destruct (_ || _); [done|]. unfold checked_add in Hs.
    destruct (_ <=? _); [|done].
    refine (frame_started_prefix chain _ _ _ _ w self w' self' p l _ data I Hm Hg _ _ Hs Hd _ _ _ _); [| |done|done| |].
    + apply start_transfer_wf; try done; lia.
    + lia.
    + intros <-. done.
    + intros Hl _ _. simpl. unfold range_ok. simpl. rewrite Hl. split_and!; try done; lia.
  - (* READ_BUFFER *)
    destruct Ht as [[Hid _] Hr]. pose proof (range_typed_ok _ Hr) as Hrok. unfold range_ok in Hrok. simpl in Hrok.
    unfold guest_read_buffer in Hs. case_match; [done|]. destruct (_ || _); [done|]. unfold checked_add in Hs.
    destruct (Z.leb_spec (CLIENT_RESPONSE_HEADER_BYTES + gr_bytes range) U64_MAX) as [Hle|]; [|done].
    refine (frame_started_wire chain _ _ _ w self w' self' p l _ I Hm Hg _ Hs _ _ _ _); [|done|done|done|].
    + apply start_transfer_wf; try done; lia.
    + intros _. simpl. unfold range_ok. simpl. change CLIENT_RESPONSE_HEADER_BYTES with 16 in Hle.
      split_and!; try done; lia.
  - (* LOAD_PROGRAM *)
    destruct Ht as [Hid Hp]. unfold guest_load_program in Hs. case_match; [done|].
    destruct (gc_device_info self) as [i|] eqn:Ei; [|done]. rewrite (ro_len _ _ Hd) in Hs.
    destruct (Z.eqb_spec (zlen data) 0); [done|]. pose proof (zlen_nonneg data) as Hn.
    destruct (Z.ltb_spec (gi_max_artifact_bytes i) (zlen data)); [done|].
    destruct (lm_info _ _ _ Hm i eq_refl) as (_ & _ & _ & L1 & L2 & _). rewrite <-Ei in Hm.
    unfold wrapping_add in Hs. change (size_of LoadProgramRequest) with 80 in Hs.
    rewrite Z.mod_small in Hs by lia.
    refine (frame_started_copy chain _ (load_request context desc (zlen data)) _ _ _ w self w' self' p l _ data
      I Hm Hg _ _ eq_refl Hs _ _ _ _); [| |done..|].
    + apply load_wf; try done. pose proof (ro_fits _ _ Hd). lia.
    + by apply copy_source_spec.
    + intros _ _. apply (load_ok l context desc data i); try done. lia.
  - (* LOAD_PROGRAM, prepared *)
    destruct Ht as (Hid & Hp & Hu). unfold load_program_prepared in Hs. case_match; [done|].
    destruct (gc_device_info self) as [i|] eqn:Ei; [|done].
    destruct (Z.eqb_spec artifact_bytes 0); [done|].
    destruct (Z.ltb_spec (gi_max_artifact_bytes i) artifact_bytes); [done|].
    destruct (lm_info _ _ _ Hm i eq_refl) as (_ & _ & _ & L1 & L2 & _). rewrite <-Ei in Hm.
    unfold wrapping_add in Hs. change (size_of LoadProgramRequest) with 80 in Hs.
    rewrite Z.mod_small in Hs by lia.
    refine (frame_started_prefix chain _ (load_request context desc artifact_bytes) _ _ w self w' self' p l _ data
      I Hm Hg _ _ Hs Hd _ _ _ _); [| |done|done| |].
    + by apply load_wf.
    + lia.
    + intros <-. done.
    + intros Hl _ _. apply (load_ok l context desc data i); try done. lia.
  - unfold guest_unload_program in Hs. case_match; [done|].
    refine (object_started _ _ _ chain w self w' self' p l I Hm Hg Ht _ _ Hs); [by eexists|done].
  - (* CREATE_QUEUE *)
    unfold create_execution_queue in Hs. case_match; [done|].
    refine (frame_started_wire chain _ _ _ w self w' self' p l _ I Hm Hg _ Hs _ _ _ _); [|done|done|done|intros _; exact Ht].
    unfold handle_typed, id_ok in Ht. unfold CreateQueueRequest_wire. wire_bounds. simpl. lia.
  - unfold destroy_execution_queue in Hs. case_match; [done|].
    refine (object_started _ _ _ chain w self w' self' p l I Hm Hg Ht _ _ Hs); [by eexists|done].
  - (* SUBMIT *)
    destruct Ht as (Hq & Hp & Hbs & Htm). unfold guest_submit in Hs.
    destruct (negb _ || negb _); [done|].
    destruct (bool_decide _ || _) eqn:Eb; [done|]. apply orb_false_iff in Eb as [_ Hne]. bool_to_prop.
    destruct (gc_device_info self) as [i|] eqn:Ei; [|done].
    unfold try_from in Hs. destruct (zlen bindings <=? U32_MAX); [|done].
    destruct (Z.ltb_spec (gi_max_bindings_per_submission i) (zlen bindings)); [done|].
    destruct (check_bindings _ _ _ _ _) as [[]|] eqn:Hc; [|done].
    destruct (lm_info _ _ _ Hm i eq_refl) as (L1 & L2 & _). rewrite <-Ei in Hm.
    pose proof (zlen_nonneg bindings) as Hn.
    set (data' := concat (map (fun b => as_bytes (guest_binding_wire b)) bindings)).
    assert (Hwf : Forall (fun b => wire_wf (guest_binding_wire b)) bindings)
      by (eapply Forall_impl; [exact Hbs|apply binding_typed_wf]).
    assert (Hlen : zlen data' = size_of WireBinding * zlen bindings).
    { unfold data'. clear -Hwf. induction Hwf as [|b bs Hb _ IH]; [done|].
      cbn [map]. rewrite zlen_concat_cons, zlen_as_bytes, IH by done. unfold zlen. simpl length. lia. }
    refine (frame_started_copy chain _ _ _ _ _ w self w' self' p l _ data' I Hm Hg _ _ Hlen Hs _ _ _ _);
      [| |done|done| |].
    + unfold handle_typed, id_ok in Hq, Hp. unfold SubmitRequest_wire. wire_bounds. simpl. lia.
    + by apply write_bindings_spec.
    + cbn [wire_payload].
      replace (zlen (core_binding <$> bindings)) with (zlen bindings) by (unfold zlen; by rewrite length_fmap).
      f_equal. unfold data'. f_equal. clear. induction bindings as [|b bs IH]; [done|].
      cbn [map fmap list_fmap]. by rewrite guest_binding_wire_core, IH.
    + intros _ _. eapply (submit_ok l queue program bindings timeout_ns i); try done; lia.
  - unfold guest_poll_event in Hs. case_match; [done|].
    refine (object_started _ _ _ chain w self w' self' p l I Hm Hg Ht _ _ Hs); [by eexists|done].
  - unfold guest_cancel_event in Hs. case_match; [done|].
    refine (object_started _ _ _ chain w self w' self' p l I Hm Hg Ht _ _ Hs); [by eexists|done].
  - unfold guest_destroy_event in Hs. case_match; [done|].
    refine (object_started _ _ _ chain w self w' self' p l I Hm Hg Ht _ _ Hs); [by eexists|done].
Qed.

End Frames.
