(* ===== verification/GuestResponses.v ===== *)
(** * What a guest client accepts as an answer

    [OperationMeaning] states, for each of the fifteen operations, which
    status and payload mean which result ([reply_means]), and that the
    operation's [decode] computes exactly that.  From it: the client accepts a
    completion exactly when the used bytes of the chain are one response frame
    for its request that means something to the operation. *)

From Stdlib Require Import ZArith Lia.
From stdpp Require Import prelude list.
From S2P Require Import Prelude Codec Proto Transport Core ObjectTable Response Decoder DecoderSpec DriverPorts GuestTypes GuestClient GuestTrace.

(** [read] is the read access of a chain whose response bytes are [bytes]. *)
Record reads {E} (read : Z -> Z -> result (list Z) E) (bytes : list Z) : Prop := {
  rd_inside : forall o n, 0 <= o -> 0 <= n -> o + n <= zlen bytes -> read o n = Ok (slice o n bytes);
  rd_outside : forall o n, 0 <= o -> 0 <= n -> zlen bytes < o + n -> exists e, read o n = Err e;
}.

(** ** Meanings *)

(** A bare failure, or a success whose payload [success] reads. *)
Definition ordinary_means {T} (success : list Z -> T -> Prop) (status : StatusCode) (payload : list Z)
    (r : OperationResult T) : Prop :=
  status <> STATUS_OK /\ payload = [] /\ r = OpDeviceError status \/
  status = STATUS_OK /\ exists out, success payload out /\ r = OpSuccess out.

Definition object_means {T} (construct : Z -> T) (payload : list Z) (out : T) : Prop :=
  exists id, 0 < id <= U64_MAX /\ payload = as_bytes {| op_object_id := id |} /\ out = construct id.

Definition event_means (epoch context : Z) (payload : list Z) (out : GuestEvent) : Prop :=
  exists id, 0 < id <= U64_MAX /\ payload = as_bytes {| sp_event_id := id |} /\
    out = {| sh_handle := {| h_id := id; h_epoch := epoch |}; sh_context := Some context |}.

(** The states of an event and the error that goes with each. *)
Definition event_state_means (payload : list Z) (out : GuestEventState) : Prop :=
  exists state error, is_u16 error /\
    payload = as_bytes {| we_state := event_state_as_u16 state; we_error := error; we_reserved := 0 |} /\
    match out with
    | GuestPending => state = EvPending /\ error = STATUS_OK
    | GuestComplete => state = EvComplete /\ error = STATUS_OK
    | GuestFailed e => state = EvFailed /\ error <> STATUS_OK /\ e = error
    | GuestCancelled => state = EvCancelled /\ error = STATUS_OK
    end.

(** A submission may also have been admitted with a failure: then the failure
    is a known one and the event is named. *)
Definition submission_means (epoch context : Z) (status : StatusCode) (payload : list Z)
    (r : OperationResult SubmissionOutcome) : Prop :=
  status <> STATUS_OK /\ payload = [] /\ r = OpDeviceError status \/
  exists event, event_means epoch context payload event /\
    (status = STATUS_OK /\ r = OpSuccess (Accepted event) \/
     status <> STATUS_OK /\ StatusCode_is_known status = true /\
       r = OpSuccess (AdmissionIndeterminate status event)).

Definition discovery_means (config : GuestConfig) (payload : list Z) (out : GuestDeviceInfo) : Prop :=
  exists w, wire_wf w /\ payload = as_bytes w /\
    GuestDeviceInfo_from_wire w (wc_max_request_bytes (gcf_wire config)) = Ok out.

Class OperationMeaning (O : Type) `{Operation O} := {
  reply_means : O -> Z -> GuestConfig -> StatusCode -> list Z -> OperationResult (Output O) -> Prop;
  op_decode_exact : forall E (op : O) (read : Z -> Z -> result (list Z) E) bytes status payload epoch config r,
    reads read bytes -> is_bytes payload -> 16 + zlen payload <= zlen bytes ->
    slice 16 (zlen payload) bytes = payload ->
    (op_decode op read status (zlen payload) epoch config = Ok r <->
     reply_means op epoch config status payload r);
}.

(** ** Decoding *)

Lemma zlen_zero_nil {A} (l : list A) : zlen l = 0 -> l = [].
Proof. destruct l; [done|]. unfold zlen. simpl. lia. Qed.

Section Decoding.
Context {E : Type} {read : Z -> Z -> result (list Z) E} {bytes payload : list Z}.
Context (Hread : reads read bytes) (Hbytes : is_bytes payload) (Hfits : 16 + zlen payload <= zlen bytes).
Context (Hslice : slice 16 (zlen payload) bytes = payload).

Lemma expect_payload_Ok n u : expect_payload (E := E) (zlen payload) n = Ok u <-> zlen payload = n.
Proof.
  unfold expect_payload. destruct (Z.eqb_spec (zlen payload) n); destruct u; split; done.
Qed.

Lemma status_success status : StatusCode_is_success status = true <-> status = STATUS_OK.
Proof. unfold StatusCode_is_success. apply Z.eqb_eq. Qed.

(** A fixed payload is read as the value whose encoding it is. *)
Lemma read_response_exact T `{Wire T} (x : T) :
  size_of T <= MAX_FIXED_PAYLOAD_BYTES -> zlen payload = size_of T ->
  read_response read T = Ok x <-> wire_wf x /\ payload = as_bytes x.
Proof.
  intros Hmax Hsize. unfold read_response. rewrite (proj2 (Z.ltb_ge _ _)) by done.
  change GUEST_RESPONSE_HEADER_BYTES with 16. pose proof (zlen_nonneg payload).
  rewrite (rd_inside _ _ Hread) by lia. cbn [map_err]. rewrite <-Hsize, Hslice.
  split.
  - intros Hr. destruct (read_exact T payload) as [y|] eqn:Hy; [|done]. injection Hr as ->.
    apply read_exact_Ok in Hy as (? & ? & _); done.
  - intros [Hwf Hp]. rewrite Hp. by rewrite (read_exact_as_bytes x Hwf).
Qed.

Lemma ordinary_exact {T} status n (f : unit -> result T (ResponseError E)) (success : list Z -> T -> Prop) r :
  (forall out, success payload out -> zlen payload = n) ->
  (zlen payload = n -> forall out, f tt = Ok out <-> success payload out) ->
  ordinary status (zlen payload) n f = Ok r <-> ordinary_means success status payload r.
Proof.
  intros Hn Hf. unfold ordinary, ordinary_means.
  destruct (StatusCode_is_success status) eqn:Hs; cbn [negb].
  - apply status_success in Hs. destruct (expect_payload (zlen payload) n) as [u|e] eqn:He.
    + apply expect_payload_Ok in He. destruct (f tt) as [out|e] eqn:Hft; cbn [result_map].
      * split; [intros [= <-]; right|].
        { split; [done|]. exists out. split; [|done]. by apply Hf. }
        intros [(? & _)|(_ & out' & Ho & ->)]; [done|]. apply Hf in Ho; [|done]. congruence.
      * split; [done|]. intros [(? & _)|(_ & out' & Ho & ->)]; [done|]. apply Hf in Ho; [|done]. congruence.
    + split; [done|]. intros [(? & _)|(_ & out' & Ho & ->)]; [done|].
      pose proof (proj2 (expect_payload_Ok n tt) (Hn _ Ho)). congruence.
  - assert (status <> STATUS_OK) by (intros ->; done).
    destruct (expect_payload (zlen payload) 0) as [u|e] eqn:He.
    + apply expect_payload_Ok in He. apply zlen_zero_nil in He.
      split; [intros [= <-]; by left|]. intros [(_ & _ & ->)|(? & _)]; done.
    + split; [done|]. intros [(_ & Hp & ->)|(? & _)]; [|done].
      pose proof (proj2 (expect_payload_Ok 0 tt)) as Hc. rewrite Hp in Hc, He. rewrite (Hc eq_refl) in He. done.
Qed.

(** A payload of one identifier, which must not be zero. *)
Lemma read_id_exact T `{Wire T} (mk : Z -> T) (get : T -> Z) {A} (construct : Z -> A) (out : A) :
  size_of T = 8 -> zlen payload = 8 -> (forall x, mk (get x) = x) -> (forall v, get (mk v) = v) ->
  (forall v, wire_wf (mk v) <-> 0 <= v <= U64_MAX) ->
  (let? o := read_response read T in
   let? id := ok_or (nonzero (get o)) RespObjectId in Ok (construct id)) = Ok out <->
  exists id, 0 < id <= U64_MAX /\ payload = as_bytes (mk id) /\ out = construct id.
Proof.
  intros Hsize Hlen Hmk Hget Hwf.
  assert (Hr : forall x, read_response read T = Ok x <-> wire_wf x /\ payload = as_bytes x).
  { intros x. apply read_response_exact; [by rewrite Hsize|congruence]. }
  unfold nonzero. split.
  - destruct (read_response read T) as [o|]; [|done]. destruct (proj1 (Hr o) eq_refl) as [Ho Hp].
    destruct (Z.eqb_spec (get o) 0); [done|]. intros [= <-]. exists (get o).
    rewrite <-(Hmk o), Hwf in Ho. rewrite Hmk. split_and!; try done; lia.
  - intros (id & Hid & Hp & ->). rewrite (proj2 (Hr (mk id))) by (rewrite Hwf; split; [lia|done]).
    rewrite Hget. destruct (Z.eqb_spec id 0); [lia|done].
Qed.

Lemma object_wf_iff v : wire_wf {| op_object_id := v |} <-> 0 <= v <= U64_MAX.
Proof. unfold ObjectPayload_wire. wire_bounds. simpl. lia. Qed.

Lemma event_wf_iff v : wire_wf {| sp_event_id := v |} <-> 0 <= v <= U64_MAX.
Proof. unfold SubmitResponse_wire. wire_bounds. simpl. lia. Qed.

Lemma ordinary_object_exact {T} status (construct : Z -> T) r :
  ordinary_object read status (zlen payload) construct = Ok r <->
  ordinary_means (object_means construct) status payload r.
Proof.
  unfold ordinary_object. apply ordinary_exact.
  - intros out (id & Hid & -> & _). apply zlen_as_bytes, object_wf_iff. lia.
  - intros Hn out. apply (read_id_exact ObjectPayload Build_ObjectPayload op_object_id); try done;
      [by intros []|apply object_wf_iff].
Qed.

Lemma decode_event_exact epoch context out :
  zlen payload = 8 -> decode_event read epoch context = Ok out <-> event_means epoch context payload out.
Proof.
  intros Hn. unfold decode_event.
  apply (read_id_exact SubmitResponse Build_SubmitResponse sp_event_id (fun id =>
    {| sh_handle := {| h_id := id; h_epoch := epoch |}; sh_context := Some context |}) out); try done;
    [by intros []|apply event_wf_iff].
Qed.

Lemma event_means_length epoch context out : event_means epoch context payload out -> zlen payload = 8.
Proof. intros (id & Hid & Hp & _). rewrite Hp. change 8 with (size_of SubmitResponse). apply zlen_as_bytes, event_wf_iff. lia. Qed.

Lemma empty_exact status r :
  empty_decode read status (zlen payload) = Ok r <-> ordinary_means (fun payload _ => payload = []) status payload r.
Proof.
  unfold empty_decode. apply ordinary_exact.
  - intros _ Hp. by rewrite Hp.
  - intros Hn []. split; [|done]. intros _. by apply zlen_zero_nil.
Qed.

Lemma decode_submission_exact context status epoch r :
  decode_submission read context status (zlen payload) epoch = Ok r <->
  submission_means epoch context status payload r.
Proof.
  unfold decode_submission, submission_means. change (size_of SubmitResponse) with 8.
  assert (Hev : forall out, zlen payload = 8 ->
    decode_event read epoch context = Ok out <-> event_means epoch context payload out)
    by (intros; by apply decode_event_exact).
  destruct (StatusCode_is_success status) eqn:Hs.
  - apply status_success in Hs. unfold expect_payload.
    destruct (Z.eqb_spec (zlen payload) 8) as [Hz|Hz].
    + specialize (fun out => Hev out Hz). destruct (decode_event read epoch context) as [event|e].
      * pose proof (proj1 (Hev event) eq_refl) as Hm. split; [intros [= <-]; by eauto 10|].
        intros [(? & _)|(event' & He & [[_ ->]|(? & _)])]; [done| |done]. apply Hev in He. congruence.
      * split; [done|]. intros [(? & _)|(event' & He & _)]; [done|]. apply Hev in He. congruence.
    + split; [done|]. intros [(? & _)|(event' & He%event_means_length & _)]; done.
  - assert (status <> STATUS_OK) by (intros ->; done).
    destruct (Z.eqb_spec (zlen payload) 0) as [Hz|Hz].
    + apply zlen_zero_nil in Hz as Hnil.
      split; [intros [= <-]; by left|].
      intros [(_ & _ & ->)|(event' & He%event_means_length & _)]; [done|lia].
    + destruct (StatusCode_is_known status) eqn:Hk; cbn [negb].
      2:{ split; [done|]. intros [(_ & -> & _)|(event' & _ & [[? _]|(_ & ? & _)])]; done. }
      unfold expect_payload. destruct (Z.eqb_spec (zlen payload) 8) as [H8|H8].
      * specialize (fun out => Hev out H8). destruct (decode_event read epoch context) as [event|e].
        { pose proof (proj1 (Hev event) eq_refl) as Hm. split; [intros [= <-]; by eauto 10|].
          intros [(_ & -> & _)|(event' & He & [[? _]|(_ & _ & ->)])]; try done. apply Hev in He. congruence. }
        split; [done|]. intros [(_ & -> & _)|(event' & He & _)]; [done|]. apply Hev in He. congruence.
      * split; [done|]. intros [(_ & -> & _)|(event' & He%event_means_length & _)]; done.
Qed.

Lemma event_state_wf state error :
  is_u16 error -> wire_wf {| we_state := event_state_as_u16 state; we_error := error; we_reserved := 0 |}.
Proof. intros. unfold WireEventState_wire. wire_bounds. simpl. destruct state; simpl; lia. Qed.

Lemma known_event_state raw state : KnownEventState_try_from raw = Ok state <-> raw = event_state_as_u16 state.
Proof.
  unfold KnownEventState_try_from. split; [|by intros ->; destruct state].
  repeat case_match; intros; simplify_eq; by bool_to_prop.
Qed.

Lemma decode_event_state_exact out :
  zlen payload = size_of WireEventState ->
  decode_event_state read = Ok out <-> event_state_means payload out.
Proof.
  intros Hn. unfold decode_event_state, event_state_means.
  assert (Hr : forall x, read_response read WireEventState = Ok x <-> wire_wf x /\ payload = as_bytes x).
  { intros x. by apply read_response_exact. }
  split.
  - destruct (read_response read WireEventState) as [v|]; [|done]. destruct (proj1 (Hr v) eq_refl) as [Hwf Hp].
    destruct (Z.eqb_spec (we_reserved v) 0) as [Hz|]; cbn [negb]; [|done].
    unfold WireEventState_known_state. destruct (KnownEventState_try_from (we_state v)) as [state|] eqn:Hs; [|done].
    apply known_event_state in Hs. cbn [map_err]. intros Ho. exists state, (we_error v).
    split; [revert Hwf; unfold WireEventState_wire; wire_bounds; simpl; lia|].
    split; [rewrite Hp; destruct v; simpl in *; congruence|].
    destruct (StatusCode_is_success (we_error v)) eqn:Hsc; [apply status_success in Hsc|];
      destruct state; simplify_eq; try done. split_and!; try done. intros He. by rewrite He in Hsc.
  - intros (state & error & He & Hp & Hm).
    rewrite (proj2 (Hr _) (conj (event_state_wf state error He) Hp)). cbn [we_reserved Z.eqb negb we_state we_error].
    unfold WireEventState_known_state. cbn [we_state].
    rewrite (proj2 (known_event_state _ state) eq_refl). cbn [map_err].
    destruct out; destruct_and!; subst; cbn; try done.
    destruct (StatusCode_is_success error) eqn:Hsc; [|done]. by apply status_success in Hsc.
Qed.

Lemma event_state_means_length out : event_state_means payload out -> zlen payload = size_of WireEventState.
Proof. intros (state & error & He & Hp & _). rewrite Hp. by apply zlen_as_bytes, event_state_wf. Qed.

Lemma discovery_exact config out :
  zlen payload = size_of WireDeviceInfo ->
  (let? w := read_response read WireDeviceInfo in
   map_err RespDeviceInfo (GuestDeviceInfo_from_wire w (wc_max_request_bytes (gcf_wire config)))) = Ok out <->
  discovery_means config payload out.
Proof.
  intros Hn. unfold discovery_means.
  assert (Hr : forall x, read_response read WireDeviceInfo = Ok x <-> wire_wf x /\ payload = as_bytes x).
  { intros x. by apply read_response_exact. }
  split.
  - destruct (read_response read WireDeviceInfo) as [v|]; [|done]. destruct (proj1 (Hr v) eq_refl) as [Hwf Hp].
    destruct (GuestDeviceInfo_from_wire v _) as [i|] eqn:Hi; [|done]. intros [= <-]. by exists v.
  - intros (w & Hwf & Hp & Hi). rewrite (proj2 (Hr w) (conj Hwf Hp)). by rewrite Hi.
Qed.

End Decoding.

(** ** The operations *)

#[global] Program Instance GetDeviceInfo_meaning : OperationMeaning GetDeviceInfo := {|
  reply_means _ _ config := ordinary_means (discovery_means config);
|}.
Next Obligation.
  intros E op read bytes status payload epoch config r Hr Hb Hf Hs. apply ordinary_exact.
  - intros out (w & Hwf & -> & _). by apply zlen_as_bytes.
  - intros Hn out. by apply (discovery_exact Hr Hb Hf Hs).
Qed.

Ltac object_meaning :=
  intros E op read bytes status payload epoch config r Hr Hb Hf Hs; apply (ordinary_object_exact Hr Hb Hf Hs).
Ltac empty_meaning :=
  intros E op read bytes status payload epoch config r Hr Hb Hf Hs; apply empty_exact.

#[global] Program Instance CreateContext_meaning : OperationMeaning CreateContext := {|
  reply_means _ epoch _ := ordinary_means (object_means (fun id =>
    {| sh_handle := {| h_id := id; h_epoch := epoch |}; sh_context := None |}));
|}.
Next Obligation. object_meaning. Qed.

#[global] Program Instance DestroyContext_meaning : OperationMeaning DestroyContext := {|
  reply_means _ _ _ := ordinary_means (fun payload _ => payload = []);
|}.
Next Obligation. empty_meaning. Qed.

#[global] Program Instance AllocateBuffer_meaning : OperationMeaning AllocateBuffer := {|
  reply_means op epoch _ := ordinary_means (object_means (fun id =>
    {| gb_handle := {| h_id := id; h_epoch := epoch |}; gb_context := al_context op; gb_desc := al_desc op |}));
|}.
Next Obligation. object_meaning. Qed.

#[global] Program Instance FreeBuffer_meaning : OperationMeaning FreeBuffer := {|
  reply_means _ _ _ := ordinary_means (fun payload _ => payload = []);
|}.
Next Obligation. empty_meaning. Qed.

#[global] Program Instance WriteBuffer_meaning : OperationMeaning WriteBuffer := {|
  reply_means _ _ _ := ordinary_means (fun payload _ => payload = []);
|}.
Next Obligation. empty_meaning. Qed.

#[global] Program Instance ReadBuffer_meaning : OperationMeaning ReadBuffer := {|
  reply_means op _ _ := ordinary_means (fun payload out =>
    zlen payload = rdb_bytes op /\ out = {| ro_bytes := rdb_bytes op |});
|}.
Next Obligation.
  intros E op read bytes status payload epoch config r Hr Hb Hf Hs. apply ordinary_exact.
  - by intros out [? _].
  - intros Hn out. split; [by intros [= <-]|by intros [_ ->]].
Qed.

#[global] Program Instance LoadProgram_meaning : OperationMeaning LoadProgram := {|
  reply_means op epoch _ := ordinary_means (object_means (fun id =>
    {| sh_handle := {| h_id := id; h_epoch := epoch |}; sh_context := Some (ld_context op) |}));
|}.
Next Obligation. object_meaning. Qed.

#[global] Program Instance UnloadProgram_meaning : OperationMeaning UnloadProgram := {|
  reply_means _ _ _ := ordinary_means (fun payload _ => payload = []);
|}.
Next Obligation. empty_meaning. Qed.

#[global] Program Instance CreateExecutionQueue_meaning : OperationMeaning CreateExecutionQueue := {|
  reply_means op epoch _ := ordinary_means (object_means (fun id =>
    {| sh_handle := {| h_id := id; h_epoch := epoch |}; sh_context := Some (ceq_context op) |}));
|}.
Next Obligation. object_meaning. Qed.

#[global] Program Instance DestroyExecutionQueue_meaning : OperationMeaning DestroyExecutionQueue := {|
  reply_means _ _ _ := ordinary_means (fun payload _ => payload = []);
|}.
Next Obligation. empty_meaning. Qed.

#[global] Program Instance Submit_meaning : OperationMeaning Submit := {|
  reply_means op epoch _ := submission_means epoch (sm_context op);
|}.
Next Obligation.
  intros E op read bytes status payload epoch config r Hr Hb Hf Hs. apply (decode_submission_exact Hr Hb Hf Hs).
Qed.

#[global] Program Instance PollEvent_meaning : OperationMeaning PollEvent := {|
  reply_means _ _ _ := ordinary_means event_state_means;
|}.
Next Obligation.
  intros E op read bytes status payload epoch config r Hr Hb Hf Hs. apply ordinary_exact.
  - intros out. apply event_state_means_length.
  - intros Hn out. by apply (decode_event_state_exact Hr Hb Hf Hs).
Qed.

#[global] Program Instance CancelEvent_meaning : OperationMeaning CancelEvent := {|
  reply_means _ _ _ := ordinary_means (fun payload _ => payload = []);
|}.
Next Obligation. empty_meaning. Qed.

#[global] Program Instance DestroyEvent_meaning : OperationMeaning DestroyEvent := {|
  reply_means _ _ _ := ordinary_means (fun payload _ => payload = []);
|}.
Next Obligation. empty_meaning. Qed.

(** ** Completions *)

Section Completions.
Context {W C D Q CE QE R : Type} `{!DriverChainBuffer W C CE} `{!DriverQueue Q C QE R} `{!ChainContract W C D CE}.
Implicit Types (w : W) (chain : C) (self : GuestClient Q C).

Abbreviation answer_of w chain := (response_bytes w (chain_data chain)).

Lemma chain_reads w chain :
  chain_good w (chain_data chain) -> reads (read_device_writable w chain) (answer_of w chain).
Proof. intros Hg. split; intros; [by apply chain_read|by eapply chain_read_outside]. Qed.

Lemma response_header_wf status n id :
  wire_wf (ResponseHeader_new status n id) <-> is_u16 status /\ is_u32 n /\ is_u64 id.
Proof. unfold ResponseHeader_wire. wire_bounds. simpl. lia. Qed.

(** The used bytes are one frame that answers the pending request. *)
Definition answers {O} `{OperationMeaning O} (pending : Pending O) w chain (used : Z) self
    (r : OperationResult (Output O)) : Prop :=
  used <= wc_max_response_bytes (gcf_wire (gc_config self)) /\
  exists status payload, is_u16 status /\
    slice 0 used (answer_of w chain) = response_frame status (pn_request_id pending) payload /\
    reply_means (pn_operation pending) (pn_epoch pending) (gc_config self) status payload r.

Lemma validate_response_iff {O} `{OperationMeaning O} (pending : Pending O) w chain used self r :
  chain_good w (chain_data chain) -> is_bytes (answer_of w chain) ->
  0 <= used <= zlen (answer_of w chain) -> used <= U32_MAX -> is_u64 (pn_request_id pending) ->
  validate_response pending w chain used self = Ok r <-> answers pending w chain used self r.
Proof.
  intros Hg Hb Hu Hu32 Hid. pose proof (chain_reads w chain Hg) as Hr. unfold validate_response, answers.
  change CLIENT_RESPONSE_HEADER_BYTES with 16. change (size_of ResponseHeader) with 16.
  set (resp := answer_of w chain) in *. set (id := pn_request_id pending) in *.
  destruct (Z.ltb_spec used 16) as [Hlt|Hge].
  { split; [done|]. intros (_ & status & payload & _ & Hs & _). apply (f_equal zlen) in Hs.
    rewrite zlen_slice, zlen_response_frame in Hs by lia. pose proof (zlen_nonneg payload). lia. }
  destruct (Z.ltb_spec (wc_max_response_bytes (gcf_wire (gc_config self))) used) as [|Hmax];
    [split; [done|]; intros [? _]; lia|].
  rewrite (rd_inside _ _ Hr) by lia. cbn [map_err].
  assert (Hsplit : slice 0 used resp = slice 0 16 resp ++ slice 16 (used - 16) resp).
  { rewrite (slice_app 0 16 (used - 16)) by lia. f_equal. lia. }
  destruct (read_from_bytes_is_Some (T := ResponseHeader) (slice 0 16 resp)) as [header Hh].
  { change (size_of ResponseHeader) with 16. rewrite zlen_slice; lia. }
  pose proof (read_from_bytes_Some _ _ (is_bytes_slice 0 16 _ Hb) Hh) as (Hwf & Henc & _).
  unfold read_exact at 1. rewrite Hh. cbn [ok_or map_err].
  set (payload := slice 16 (used - 16) resp).
  assert (Hpl : zlen payload = used - 16) by (unfold payload; rewrite zlen_slice; lia).
  assert (Hpb : is_bytes payload) by by apply is_bytes_slice.
  assert (Hps : slice 16 (zlen payload) resp = payload) by by rewrite Hpl.
  assert (Hfit : 16 + zlen payload <= zlen resp) by lia.
  assert (Hnew : forall status payload', slice 0 used resp = response_frame status id payload' -> is_u16 status ->
    header = ResponseHeader_new status (used - 16) id /\ payload' = payload).
  { intros status payload' Hs Hst. pose proof (f_equal zlen Hs) as Hz.
    rewrite zlen_slice, zlen_response_frame in Hz by lia.
    rewrite Hsplit in Hs. unfold response_frame in Hs.
    apply app_inj_1 in Hs as [Hs1 Hs2].
    2:{ apply Nat2Z.inj. fold (zlen (slice 0 16 resp)). rewrite zlen_slice by lia. by rewrite <-zlen_header with status id (zlen payload'). }
    split; [|done]. rewrite Henc in Hs1. replace (used - 16) with (zlen payload') by lia.
    apply (f_equal (read_from_bytes ResponseHeader)) in Hs1. rewrite !read_as_bytes in Hs1 by
      (try done; apply response_header_wf; split_and!; try done; lia). by simplify_eq. }
  split.
  - destruct (Z.eqb_spec (rs_request_id header) id) as [Hi|]; [|done].
    destruct (Z.eqb_spec (rs_flags header) 0) as [Hf|]; [|done]. cbn [negb].
    unfold checked_add. destruct (_ <=? U64_MAX); [|done]. cbn [ok_or].
    destruct (Z.eqb_spec (16 + rs_payload_bytes header) used) as [He|]; [|done]. cbn [negb]. intros Hd.
    split; [done|]. exists (rs_status header), payload.
    assert (Hhdr : header = ResponseHeader_new (rs_status header) (zlen payload) id).
    { rewrite Hpl. destruct header; simpl in *; unfold ResponseHeader_new; f_equal; lia. }
    split; [by rewrite Hhdr in Hwf; apply response_header_wf in Hwf as (? & _)|].
    split; [rewrite Hsplit; unfold response_frame; by rewrite <-Hhdr, <-Henc|].
    apply (op_decode_exact _ _ _ resp _ _ _ _ _ Hr Hpb Hfit Hps). rewrite Hpl.
    replace (used - 16) with (rs_payload_bytes header) by lia. done.
  - intros (_ & status & payload' & Hst & Hs & Hm). destruct (Hnew _ _ Hs Hst) as [-> ->].
    cbn [ResponseHeader_new rs_request_id rs_flags rs_payload_bytes rs_status]. rewrite Z.eqb_refl. cbn [negb Z.eqb].
    unfold checked_add. rewrite (proj2 (Z.leb_le _ _)) by lia. cbn [ok_or].
    replace (16 + (used - 16)) with used by lia. rewrite Z.eqb_refl. cbn [negb]. rewrite <-Hpl.
    by apply (op_decode_exact _ _ _ resp _ _ _ _ _ Hr Hpb Hfit Hps).
Qed.

End Completions.
