(* ===== verification/GuestDevice.v ===== *)
(** * The guest client and the device agree

    The two ends of the protocol composed: a request the client has started is
    decoded by the command engine as what the client asked for, and whatever
    the engine answers means something to the operation that waits for it.  A
    client connected to this engine never sees an invalid response, with one
    exception that the theorems make exact: discovery, when the backend
    announces artifacts that no request frame can carry. *)

From Stdlib Require Import ZArith Lia.
From stdpp Require Import prelude list.
From S2P Require Import Prelude Codec Proto Transport Core ObjectTable Regions Response Decoder DecoderSpec Frame State StateInv Engine EngineFacts DriverPorts GuestTypes GuestClient GuestTrace GuestFrames GuestResponses.

(** ** The operation of a request *)

Record AnyOperation := {
  ao_type : Type;
  ao_op : Operation ao_type;
  ao_meaning : OperationMeaning ao_type;
  ao_value : ao_type;
}.
#[global] Existing Instances ao_op ao_meaning.

Definition any {O} `{OperationMeaning O} (op : O) : AnyOperation :=
  {| ao_type := O; ao_op := _; ao_meaning := _; ao_value := op |}.

Definition request_operation (rq : GuestRequest) : AnyOperation :=
  match rq with
  | GrGetDeviceInfo => any MkGetDeviceInfo
  | GrCreateContext => any MkCreateContext
  | GrDestroyContext context => any {| dx_context := context |}
  | GrAllocateBuffer context desc => any {| al_context := handle_raw context; al_desc := desc |}
  | GrFreeBuffer buffer => any {| fb_buffer := buffer |}
  | GrWriteBuffer _ _ _ | GrWritePrepared _ _ => any MkWriteBuffer
  | GrReadBuffer _ range => any {| rdb_bytes := gr_bytes range |}
  | GrLoadProgram context desc _ | GrLoadPrepared context desc _ =>
      any {| ld_context := handle_raw context; ld_desc := desc |}
  | GrUnloadProgram program => any {| ul_program := program |}
  | GrCreateQueue context => any {| ceq_context := handle_raw context |}
  | GrDestroyQueue queue => any {| deq_queue := queue |}
  | GrSubmit queue _ _ _ => any {| sm_context := default 0 (sh_context queue) |}
  | GrPollEvent _ => any MkPollEvent
  | GrCancelEvent _ => any MkCancelEvent
  | GrDestroyEvent event => any {| de_event := event |}
  end.

Abbreviation op_type rq := (ao_type (request_operation rq)).

(** ** Replies of the device, read by the guest *)

Section Replies.
Context (info : DeviceInfo) (config : GuestConfig) (epoch : Z).

(** The announced information passes the guest's checks. *)
Definition discoverable : Prop :=
  wire_wf (wire_device_info info) /\
  GuestDeviceInfo_from_wire (wire_device_info info) (wc_max_request_bytes (gcf_wire config)) =
    Ok (info_of_wire (wire_device_info info)).

Lemma failing_status status : failing status = true -> status <> STATUS_OK /\ StatusCode_is_known status = true.
Proof. unfold failing. intros [Hk Hs]%andb_true_iff. split; [|done]. by intros ->. Qed.

Lemma failing_is_u16 status : failing status = true -> is_u16 status.
Proof.
  unfold failing, StatusCode_is_known. intros [[Hk%in_range_spec|Hk%Z.eqb_eq]%orb_true_iff _]%andb_true_iff; lia.
Qed.

Lemma event_state_understood state : exists out, event_state_means (as_bytes (wire_event_state state)) out.
Proof.
  destruct state as [| |e|].
  - exists GuestPending. by exists EvPending, STATUS_OK.
  - exists GuestComplete. by exists EvComplete, STATUS_OK.
  - exists (GuestFailed (status_from_backend_error e)). exists EvFailed, (status_from_backend_error e).
    pose proof (failing_status _ (backend_status_failing e)) as [? _].
    split; [by apply failing_is_u16, backend_status_failing|]. done.
  - exists GuestCancelled. by exists EvCancelled, STATUS_OK.
Qed.

Lemma ordinary_failed {T} (success : list Z -> T -> Prop) status :
  failing status = true -> exists r, ordinary_means success status [] r.
Proof. intros [? _]%failing_status. eexists. left. by split_and!. Qed.

Lemma object_understood {T} (construct : Z -> T) id :
  id_ok id -> exists r, ordinary_means (object_means construct) STATUS_OK (as_bytes {| op_object_id := id |}) r.
Proof. intros Hid. eexists. right. split; [done|]. eexists. split; [|done]. by exists id. Qed.

Lemma empty_understood : exists r : OperationResult unit, ordinary_means (fun payload _ => payload = []) STATUS_OK [] r.
Proof. eexists. right. split; [done|]. by exists tt. Qed.

Lemma reply_understood rq data request status payload :
  (rq = GrGetDeviceInfo -> discoverable) ->
  reply_shape info (body_of request (request_wire rq data)) status payload ->
  exists r, reply_means (ao_value (request_operation rq)) epoch config status payload r.
Proof.
  intros Hd [[Hf ->]|Hs].
  { destruct rq; try apply (ordinary_failed _ _ Hf). apply failing_status in Hf as [? _].
    eexists. left. by split_and!. }
  destruct rq; cbn in Hs; destruct Hs as [Hst Hs]; try subst status;
    try (destruct Hs as (id & Hid & ->); by apply object_understood);
    try (subst payload; by apply empty_understood).
  - subst payload. destruct (Hd eq_refl) as [Hwf Hi]. eexists. right. split; [done|].
    eexists. split; [|done]. by exists (wire_device_info info).
  - eexists. right. split; [done|]. by eexists.
  - destruct Hs as (id & Hid & ->). set (event := {| sh_handle := {| h_id := id; h_epoch := epoch |};
      sh_context := Some (default 0 (sh_context queue)) |} : GuestEvent).
    assert (He : event_means epoch (default 0 (sh_context queue)) (as_bytes {| sp_event_id := id |}) event)
      by (by exists id).
    destruct Hst as [->|[? ?]%failing_status]; eexists; right; exists event; (split; [done|]);
      [by left|right; by split_and!].
  - destruct Hs as (state & ->). destruct (event_state_understood state) as [out Ho].
    eexists. right. split; [done|]. by exists out.
Qed.

End Replies.

(** ** Starting with the operation kept *)

Section Typed.
Context {W C D Q CE QE R : Type} `{!DriverChainBuffer W C CE} `{!DriverQueue Q C QE R}.
Implicit Types (w : W) (chain : C) (self : GuestClient Q C).

Definition start_typed (rq : GuestRequest) chain w self :
    W * GuestClient Q C * result (Pending (op_type rq)) (StartError C (op_type rq) QE CE) :=
  match rq with
  | GrGetDeviceInfo => get_device_info chain w self
  | GrCreateContext => guest_create_context chain w self
  | GrDestroyContext context => guest_destroy_context chain context w self
  | GrAllocateBuffer context desc => guest_allocate_buffer chain context desc w self
  | GrFreeBuffer buffer => guest_free_buffer chain buffer w self
  | GrWriteBuffer buffer offset source => guest_write_buffer chain buffer offset source w self
  | GrWritePrepared buffer range => write_buffer_prepared chain buffer range w self
  | GrReadBuffer buffer range => guest_read_buffer chain buffer range w self
  | GrLoadProgram context desc artifact => guest_load_program chain context desc artifact w self
  | GrLoadPrepared context desc n => load_program_prepared chain context desc n w self
  | GrUnloadProgram program => guest_unload_program chain program w self
  | GrCreateQueue context => create_execution_queue chain context w self
  | GrDestroyQueue queue => destroy_execution_queue chain queue w self
  | GrSubmit queue program bindings timeout_ns => guest_submit chain queue program bindings timeout_ns w self
  | GrPollEvent event => guest_poll_event chain event w self
  | GrCancelEvent event => guest_cancel_event chain event w self
  | GrDestroyEvent event => guest_destroy_event chain event w self
  end.

Lemma start_typed_erase rq chain w self : erase (start_typed rq chain w self) = start_request rq chain w self.
Proof. by destruct rq. Qed.

Lemma start_frame_operation {O} `{Operation O} chain (op : O) payload response write w self w' self' p :
  start_frame chain op payload response write w self = (w', self', Ok p) -> pn_operation p = op.
Proof.
  unfold start_frame, start_publish, start_failure.
  destruct (bool_decide _); [done|]. destruct (_ && _); [done|]. destruct (list_position _ _); [|done].
  destruct (checked_add _ _ _); [|done]. destruct (_ || _); [done|]. destruct (_ || _); [done|].
  destruct (try_from _ _); [|done]. destruct (allocate_request_id self) as [self1 [id|]]; [|done].
  destruct (write_wire _ _ _) as [[w1 c1] [|]]; [|done]. destruct (write (w1, c1)) as [[w2 c2] [|]]; [|done].
  destruct (queue_publish _ _) as [q [published|]]; [|done]. by intros [= <- <- <-].
Qed.

(** The pending token carries the operation of the request. *)
Lemma start_typed_operation rq chain w self w' self' p :
  start_typed rq chain w self = (w', self', Ok p) -> pn_operation p = ao_value (request_operation rq).
Proof.
  destruct rq; cbn [start_typed];
    unfold get_device_info, guest_create_context, guest_destroy_context, guest_allocate_buffer, guest_free_buffer,
      guest_write_buffer, write_buffer_prepared, guest_read_buffer, guest_load_program, load_program_prepared,
      guest_unload_program, create_execution_queue, destroy_execution_queue, guest_submit, guest_poll_event,
      guest_cancel_event, guest_destroy_event, start_wire, start_failure;
    intros Hs; repeat (case_match; try done); by apply start_frame_operation in Hs.
Qed.

End Typed.

(** ** Composition *)

Section Composition.
Context {W C D Q CE QE R : Type} `{!DriverChainBuffer W C CE} `{!DriverQueue Q C QE R}.
Context `{!ChainContract W C D CE} `{!QueueContract W Q C D QE CE R}.
Context {A : Accelerator} `{!BackendTyped A} {S : Type} `{ByteSinkSpec S}.
Implicit Types (w : W) (chain : C) (self : GuestClient Q C) (dev : CommandProcessor).

Abbreviation request_of w chain := (request_bytes w (chain_data chain)).
Abbreviation response_of w chain := (response_bytes w (chain_data chain)).

(** The client and the device share a configuration, and what the client has
    discovered is what the device announces. *)
Record paired self dev : Prop := {
  pr_limits : DecoderLimits_new (gcf_wire (gc_config self)) (cp_info dev) = Ok (fd_limits (cp_decoder dev));
  pr_info : DeviceInfo_validate (cp_info dev) = Ok tt;
  pr_wire : wire_wf (wire_device_info (cp_info dev));
  pr_discovered : forall i, gc_device_info self = Some i ->
    GuestDeviceInfo_from_wire (wire_device_info (cp_info dev)) (wc_max_request_bytes (gcf_wire (gc_config self))) =
      Ok i;
}.

Lemma from_wire_Ok wi max i :
  GuestDeviceInfo_from_wire wi max = Ok i ->
  i = info_of_wire wi /\ 96 + wd_max_artifact_bytes wi <= U64_MAX /\ 96 + wd_max_artifact_bytes wi <= max /\
  1 <= wd_max_bindings_per_submission wi <= 4096.
Proof.
  unfold GuestDeviceInfo_from_wire. destruct (wd_reserved wi =? 0); cbn [negb]; [|done].
  destruct (Z.land _ RESERVED_CAPABILITIES =? 0); cbn [negb]; [|done].
  destruct (Z.land _ MEMORY_DOMAIN_CAPABILITIES =? 0); [done|]. destruct (existsb _ _); [done|].
  destruct (in_range _ _ _) eqn:Hr; [|done]. apply in_range_spec in Hr. change HARD_MAX_BINDINGS with 4096 in Hr.
  cbn [negb]. destruct (_ || _); [done|]. unfold checked_add. change (16 + 80) with 96.
  rewrite (proj2 (Z.leb_le 96 U64_MAX)) by lia.
  destruct (Z.leb_spec (96 + wd_max_artifact_bytes wi) U64_MAX); [|done]. cbn [ok_or].
  destruct (Z.ltb_spec max (96 + wd_max_artifact_bytes wi)); [done|]. by intros [= <-].
Qed.

Lemma paired_limits self dev : paired self dev ->
  limits_match (gc_config self) (gc_device_info self) (fd_limits (cp_decoder dev)) /\
  dl_max_request_bytes (fd_limits (cp_decoder dev)) <= U32_MAX.
Proof.
  intros [Hl _ _ Hd]. unfold DecoderLimits_new in Hl.
  destruct (WireConfig_validate _) as [[]|] eqn:Hc; [|done]. cbn [map_err] in Hl.
  apply WireConfig_validate_Ok in Hc as (_ & _ & _ & Hq & _).
  destruct (negb _); [done|]. destruct (_ =? 0); [done|]. destruct (_ =? 0); [done|]. injection Hl as <-.
  split; [|simpl; lia]. split; try done. intros i Hi. apply Hd, from_wire_Ok in Hi as (-> & H1 & H2 & H3).
  simpl in *. split_and!; try done; lia.
Qed.

(** The guest's checks of the announcement, after the device's own. *)
Lemma announcement_checks config info limits :
  DecoderLimits_new config info = Ok limits -> DeviceInfo_validate info = Ok tt ->
  GuestDeviceInfo_from_wire (wire_device_info info) (wc_max_request_bytes config) =
    if wc_max_request_bytes config <? 96 + max_artifact_bytes (info_limits info)
    then Err GuestInfoArtifactLimit else Ok (info_of_wire (wire_device_info info)).
Proof.
  intros Hl Hv. unfold DecoderLimits_new in Hl.
  destruct (WireConfig_validate _) as [[]|] eqn:Hc; [|done]. cbn [map_err] in Hl.
  apply WireConfig_validate_Ok in Hc as (_ & _ & _ & Hq & _).
  destruct (in_range _ _ _) eqn:Hr; [|done]. clear Hl.
  unfold DeviceInfo_validate in Hv. unfold bits_intersects in Hv.
  destruct (Z.land _ CAP_RESERVED =? 0) eqn:H1; [|done]. cbn [negb] in Hv.
  destruct (Z.land _ MEMORY_DOMAINS =? 0) eqn:H2; [done|]. cbn [negb] in Hv.
  destruct (_ || _) eqn:Hz; [done|]. repeat (apply orb_false_iff in Hz as [Hz ?]).
  unfold GuestDeviceInfo_from_wire. cbn [wire_device_info wd_reserved wd_capabilities wd_max_contexts
    wd_max_buffers_per_context wd_max_programs_per_context wd_max_queues_per_context wd_max_events_per_context
    wd_max_bindings_per_submission wd_max_buffer_bytes wd_max_artifact_bytes].
  change RESERVED_CAPABILITIES with CAP_RESERVED. change MEMORY_DOMAIN_CAPABILITIES with MEMORY_DOMAINS.
  rewrite Z.eqb_refl, H1, H2, Hr. cbn [negb existsb]. rewrite !(Z.eqb_sym 0), Hz.
  repeat match goal with H : (_ =? 0) = false |- _ => rewrite H; clear H end. cbn [orb].
  unfold checked_add. change (16 + 80) with 96. rewrite (proj2 (Z.leb_le 96 U64_MAX)) by lia.
  destruct (Z.leb_spec (96 + max_artifact_bytes (info_limits info)) U64_MAX); cbn [ok_or]; [done|].
  by rewrite (proj2 (Z.ltb_lt _ _)) by lia.
Qed.

Lemma discovery_checks self dev : paired self dev ->
  GuestDeviceInfo_from_wire (wire_device_info (cp_info dev)) (wc_max_request_bytes (gcf_wire (gc_config self))) =
    if wc_max_request_bytes (gcf_wire (gc_config self)) <? 96 + max_artifact_bytes (info_limits (cp_info dev))
    then Err GuestInfoArtifactLimit else Ok (info_of_wire (wire_device_info (cp_info dev))).
Proof. intros Hp. exact (announcement_checks _ _ _ (pr_limits _ _ Hp) (pr_info _ _ Hp)). Qed.

(** A frame that decodes on a chain of the right layout passes the preflight. *)
Lemma preflight_ready mem d regions request bytes (sink : S) layout req :
  source_of request bytes -> sink_inv sink ->
  validate_chain_layout regions (dl_max_chain_descriptors (fd_limits d)) = Ok layout ->
  cl_readable_bytes layout = zlen bytes -> cl_writable_bytes layout = zlen (sink_content sink) ->
  FrameDecoder_decode mem d request (zlen (sink_content sink)) = Ok req ->
  preflight_command_frame mem d regions request sink = (sink, Ok (PreflightReady req)).
Proof.
  intros Hsrc Hi Hl Hr Hw Hd. unfold preflight_command_frame, ChainLayout_validate_port_lengths.
  by rewrite Hl, (so_len _ _ Hsrc), (sink_len_spec _ Hi), Hr, Hw, !Z.eqb_refl, Hd.
Qed.

(** A chain the device sees: its ports carry the bytes of the guest's chain. *)
Record served (regions : list ChainRegion) (request : ByteSource) (sink : S) w chain dev : Prop := {
  sv_source : source_of request (request_of w chain);
  sv_sink : sink_inv sink;
  sv_content : sink_content sink = response_of w chain;
  sv_layout : exists layout,
    validate_chain_layout regions (dl_max_chain_descriptors (fd_limits (cp_decoder dev))) = Ok layout /\
    cl_readable_bytes layout = zlen (request_of w chain) /\ cl_writable_bytes layout = zlen (response_of w chain);
}.

(** The device answers a decodable request with one of the replies its
    command has. *)
Lemma process_replies mem regions request sink w chain dev dev' sink' r id wr :
  engine_inv dev -> served regions request sink w chain dev -> cm_decode mem = true ->
  request_of w chain = frame_of id wr ->
  frame_ok (fd_limits (cp_decoder dev)) (zlen (response_of w chain)) id wr ->
  dl_max_request_bytes (fd_limits (cp_decoder dev)) <= U32_MAX ->
  process mem regions request sink dev = (dev', sink', r) ->
  exists status payload, answered sink sink' (success_bytes wr) id r status payload /\
    reply_shape (cp_info dev) (body_of request wr) status payload.
Proof.
  intros Hinv [Hsrc Hi Hc (layout & Hl & Hlr & Hlw)] Hmem Hreq Hok Hmax. rewrite Hreq in Hsrc.
  destruct Hok as (Hid & Hrq & Hfr & Hfit & Hcap).
  assert (Hheader : 16 <= success_bytes wr).
  { destruct wr; simpl; try lia; [case_decide; lia|]. destruct Hrq as (_ & [_ [? _]] & _). simpl in *. lia. }
  pose proof (ei_response _ Hinv) as Hresp. rewrite <-Hc in Hcap, Hlw.
  assert (Hdec := decode_frame_complete (cp_decoder dev) request (zlen (sink_content sink)) id wr Hsrc
    ltac:(done) Hmax ltac:(lia)). rewrite <-Hmem in Hdec. rewrite Hreq in Hlr.
  unfold process. rewrite (preflight_ready _ _ _ _ _ _ _ _ Hsrc Hi Hl Hlr Hlw Hdec). cbn [map_err dr_request_id].
  case_bool_decide as Hrun; cbn [negb].
  - assert (Hready : ready (set_last_reset None dev) sink (success_bytes wr)) by (split; simpl; auto; lia).
    pose proof (dispatch_good mem (set_last_reset None dev) sink request _ wr
      {| dr_request_id := id; dr_required_response_bytes := success_bytes wr; dr_body := body_of request wr |}
      Hready Hrun Hsrc Hrq eq_refl (ei_info _ Hinv) (ei_state _ Hinv)) as Hgood.
    destruct (dispatch _ _ _ _) as [[dev2 sink2] r2]. intros [= <- <- <-]. by destruct Hgood as [_ Hg].
  - destruct (respond_empty_spec sink (success_bytes wr) id STATUS_DEVICE_LOST false dev) as (sink2 & -> & Ha);
      [split; auto; lia|]. intros [= <- <- <-]. exists STATUS_DEVICE_LOST, []. split; [done|by left].
Qed.

(** One exchange: what the device answers to a started request means something
    to the operation of that request. *)
Lemma exchange rq data chain w self w' self' p dev mem regions request sink dev' sink' r :
  client_inv self -> paired self dev -> engine_inv dev -> chain_good w (chain_data chain) ->
  request_typed rq -> request_data rq (request_of w chain) data ->
  start_typed rq chain w self = (w', self', Ok p) ->
  served regions request sink w' chain dev -> cm_decode mem = true ->
  (rq = GrGetDeviceInfo ->
     96 + max_artifact_bytes (info_limits (cp_info dev)) <= wc_max_request_bytes (gcf_wire (gc_config self))) ->
  process mem regions request sink dev = (dev', sink', r) ->
  exists status payload res,
    answered sink sink' (success_bytes (request_wire rq data)) (pn_request_id p) r status payload /\
    16 + zlen payload <= wc_max_response_bytes (gcf_wire (gc_config self)) /\ is_u16 status /\
    0 < pn_request_id p <= U64_MAX /\
    reply_means (pn_operation p) (pn_epoch p) (gc_config self) status payload res.
Proof.
  intros I Hp Hinv Hg Ht Hd Hs Hv Hmem Hdisc Hproc.
  destruct (paired_limits _ _ Hp) as [Hm Hmax].
  pose proof (start_typed_operation _ _ _ _ _ _ _ Hs) as ->.
  pose proof (start_typed_erase rq chain w self) as He. rewrite Hs in He. unfold erase in He. simpl in He. symmetry in He.
  destruct (request_started _ _ _ _ _ _ _ _ _ I Hm Hg Ht Hd He) as (Hreq & Hok & _ & _ & _). simpl in Hreq, Hok.
  destruct (process_replies _ _ _ _ _ _ _ _ _ _ _ _ Hinv Hv Hmem Hreq Hok Hmax Hproc) as (status & payload & Ha & Hsh).
  destruct (reply_understood (cp_info dev) (gc_config self) (pn_epoch p) rq data request status payload) as [res Hres].
  { intros Hrq. split; [apply Hp|]. rewrite (discovery_checks _ _ Hp). specialize (Hdisc Hrq).
    by rewrite (proj2 (Z.ltb_ge _ _)) by lia. }
  { done. }
  exists status, payload, res. destruct Hok as (Hid & _ & _ & Hfit & _). rewrite (lm_response _ _ _ Hm) in Hfit.
  pose proof (an_fits _ _ _ _ _ _ _ Ha). split_and!; try done; try lia.
  all: destruct Hsh as [[Hf _]|Hsh]; [apply failing_is_u16 in Hf; lia|].
  all: assert (status = STATUS_OK \/ failing status = true) as [->|Hf%failing_is_u16];
    [by destruct (body_of request (request_wire rq data)); destruct_and?; auto|done|lia].
Qed.

End Composition.
