(* ===== verification/SplitDriver.v ===== *)
(** * The split queue keeps the driver's contracts
    ([crates/virtio-accel-split-queue/src/chain.rs], [queue.rs])

    [DriverChain] and [SplitQueue] implement the traits of [DriverPorts]; the
    contracts those classes state follow from the refinement of the split
    queue.  The guest client, proved against the contracts, therefore works
    over the split virtqueue. *)

From Stdlib Require Import ZArith Lia.
From stdpp Require Import prelude list gmap.
From S2P Require Import Prelude Transport Chain ChainSpec SplitQueue QueueInv QueueSpec QueueProps DriverPorts.

(** ** The traits *)

#[global] Instance split_chain_buffer : DriverChainBuffer Heap DriverChain ByteAccessError := {|
  device_readable_len _ chain := readable_len (dc_data chain);
  device_writable_len _ chain := writable_len (dc_data chain);
  write_device_readable offset source m :=
    let '(h, r) := DriverChain_write_device_readable m.2 offset source m.1 in ((h, m.2), r);
  read_device_writable h chain offset n := DriverChain_read_device_writable h chain offset n;
|}.

#[global] Instance split_driver_queue :
    DriverQueue SplitQueue DriverChain SplitQueueError (list (ReclaimedChain DriverChain)) := {|
  queue_state := sq_state;
  queue_publish := publish;
  queue_pop_used := pop_used;
  queue_disable_used := disable_used_notifications;
  queue_enable_used := enable_used_notifications;
  queue_reset := driver_reset;
|}.

(** [mem] is what the allocator answers to [configure]. *)
Definition split_queue_control (mem : RingMemory) : QueueControl SplitQueue SplitQueueError := {|
  queue_configure := configure mem;
  queue_set_ready := set_ready;
|}.

(** ** Chains *)

Lemma split_read h chain offset n :
  data_ok h (dc_data chain) -> 0 <= offset -> 0 <= n ->
  DriverChain_read_device_writable h chain offset n =
    if offset + n <=? zlen (chain_bytes h (dc_data chain) true)
    then Ok (slice offset n (chain_bytes h (dc_data chain) true)) else Err AccessOutOfBounds.
Proof.
  intros Hok Ho Hn. unfold DriverChain_read_device_writable.
  destruct (data_ok_dir h (dc_data chain) true Hok) as (_ & _ & -> & HU).
  pose proof (zlen_nonneg (chain_bytes h (dc_data chain) true)).
  rewrite checked_logical_range_spec by lia.
  destruct (Z.leb_spec (offset + n) (zlen (chain_bytes h (dc_data chain) true))); [|done].
  by apply copy_from_spec.
Qed.

#[global] Program Instance split_chain_contract : ChainContract Heap DriverChain ChainData ByteAccessError := {|
  chain_data := dc_data;
  chain_sound := chain_wf;
  chain_good := data_ok;
  request_bytes h data := chain_bytes h data false;
  response_bytes h data := chain_bytes h data true;
|}.
Next Obligation. intros h c Hok. exact (proj2 (proj2 (data_ok_dir h (dc_data c) false Hok))). Qed.
Next Obligation. intros h c Hok. exact (proj2 (proj2 (data_ok_dir h (dc_data c) true Hok))). Qed.
Next Obligation.
  intros h c offset src Hok Ho Hle. pose proof (logical_write_spec h (dc_data c) false offset src Hok Ho) as HW.
  simpl in Hle |- *. unfold DriverChain_write_device_readable. cbv zeta in HW.
  destruct (match checked_logical_range offset (zlen src) (readable_len (dc_data c)) with
            | Ok _ => _ | Err e => _ end) as [h' r].
  destruct HW as (Hw & Hother & Hok' & _). rewrite slice_write_spec in Hw by
    (try done; apply (data_ok_dir h (dc_data c) false Hok)).
  rewrite (proj2 (Z.leb_le (offset + zlen src) _) Hle) in Hw. injection Hw as Hb ->. exists h', c. by split_and!.
Qed.
Next Obligation.
  intros h c offset src. simpl. destruct (DriverChain_write_device_readable c offset src h). done.
Qed.
Next Obligation.
  intros h c offset n Hok Ho Hn Hle. simpl. rewrite split_read by done. by rewrite (proj2 (Z.leb_le (offset + n) _) Hle).
Qed.
Next Obligation.
  intros h c offset n Hok Ho Hn Hlt. simpl. rewrite split_read by done. rewrite (proj2 (Z.leb_gt (offset + n) _) Hlt). eauto.
Qed.

(** ** The queue *)

(** The invariant is the relation to an abstract queue. *)
Definition split_inv (q : SplitQueue) : Prop := exists p, queue_rel q p.

(** The operations that are not the client's: the device's and the control
    plane's. *)
Definition environment_op (op : QueueOp) : bool :=
  match op with
  | OpPopAvailable | OpComplete _ _ | OpDisableAvailable | OpEnableAvailable | OpDeviceReset _
  | OpConfigure _ _ | OpSetReady _ => true
  | _ => false
  end.

Definition split_env (q q' : SplitQueue) (lost : list (ChainId * ChainData)) : Prop :=
  exists op e, environment_op op = true /\ op_typed op /\ queue_run op q = (q', e) /\ lost = dropped op e q.

(** One operation, seen through its answer. *)
Lemma run_law op q p q' e :
  queue_rel q p -> op_typed op -> queue_run op q = (q', e) ->
  exists p', spec_step op e p p' /\ queue_rel q' p' /\ sq_state q' = qp_state p' /\
    queue_chains q ++ published op e ≡ₚ returned e ++ dropped op e q ++ queue_chains q'.
Proof.
  intros Q Ht Hr. pose proof (run_refines q p op Q Ht) as HR. rewrite Hr in HR.
  destruct HR as (p' & St & Q'). exists p'. split_and!; try done; [apply Q'|].
  rewrite (reclaimed_owned _ _ Q : queue_chains q ≡ₚ owned p), (reclaimed_owned _ _ Q' : queue_chains q' ≡ₚ owned p').
  by apply step_books.
Qed.

Lemma token_inj epoch i j : token epoch i = token epoch j -> i = j.
Proof. intros [= H]. lia. Qed.

Lemma split_ids q : split_inv q ->
  NoDup (queue_chains q).*1 /\ Forall (fun e => ci_epoch e.1 = qs_epoch (sq_state q)) (queue_chains q).
Proof.
  intros [p Q]. pose proof (reclaimed_owned _ _ Q) as Ho. unfold queue_chains. rewrite Ho, (qr_state _ _ Q).
  unfold owned. split.
  - rewrite <-list_fmap_compose.
    apply NoDup_fmap_2_strong; [|apply NoDup_map_to_list].
    intros [i a] [j b] Hi Hj Hij. apply elem_of_map_to_list in Hi, Hj. simpl in Hij. apply token_inj in Hij as ->.
    by simplify_map_eq.
  - apply Forall_fmap, Forall_true. done.
Qed.

Lemma split_publish_law q c : split_inv q -> chain_wf c ->
  let '(q', r) := publish c q in
  split_inv q' /\ sq_state q' = sq_state q /\
  match r with
  | Ok p => ci_epoch (pc_id p) = qs_epoch (sq_state q) /\ queue_chains q' ≡ₚ (pc_id p, dc_data c) :: queue_chains q
  | Err e => dc_data (pe_chain e) = dc_data c /\ queue_chains q' ≡ₚ queue_chains q
  end.
Proof.
  intros [p Q] Hc. destruct (publish c q) as [q' r] eqn:Hp.
  destruct (run_law (OpPublish false c) q p q'
    (match r with Ok p => EvPublished p | Err e => EvRefused (dc_data (pe_chain e)) (pe_kind e) end) Q Hc)
    as (p' & St & Q' & Hst & HB); [simpl; by rewrite Hp|].
  split; [by exists p'|]. rewrite Hst, (qr_state _ _ Q). destruct r as [pc|e]; inversion St; simplify_eq; simpl in *.
  - split_and!; try done. rewrite <-HB. by rewrite Permutation_app_comm.
  - rewrite app_nil_r in HB. by split_and!.
Qed.

Lemma split_pop_law q : split_inv q ->
  let '(q', r) := pop_used q in
  split_inv q' /\ sq_state q' = sq_state q /\
  match r with
  | Ok (Some u) => queue_chains q ≡ₚ (uc_id u, dc_data (uc_chain u)) :: queue_chains q'
  | _ => queue_chains q' ≡ₚ queue_chains q
  end.
Proof.
  intros [p Q]. destruct (pop_used q) as [q' r] eqn:Hp.
  destruct (run_law OpPopUsed q p q' (ev (fun o => EvUsed ((fun u => (uc_id u, uc_used u, dc_data (uc_chain u))) <$> o))
    (q', r)).2 Q I) as (p' & St & Q' & Hst & HB); [simpl; by rewrite Hp|].
  split; [by exists p'|]. rewrite Hst, (qr_state _ _ Q).
  simpl in HB, St. destruct r as [[u|]|e]; simpl in HB, St; rewrite app_nil_r in HB.
  - split; [|done]. by inversion St.
  - split; [|by symmetry]. inversion St; subst; try done; by destruct_or?; destruct_and?.
  - split; [|by symmetry]. inversion St; subst; try done; by destruct_or?; destruct_and?.
Qed.

Lemma split_reset_law q epoch : split_inv q -> 0 < epoch ->
  let '(q', r) := driver_reset epoch q in
  split_inv q' /\
  match r with
  | Ok chains => qs_epoch (sq_state q) < epoch /\ qs_epoch (sq_state q') = epoch /\ queue_chains q' = [] /\
      (fun c => (rc_id c, dc_data (rc_chain c))) <$> chains ≡ₚ queue_chains q
  | Err _ => sq_state q' = sq_state q /\ queue_chains q' ≡ₚ queue_chains q
  end.
Proof.
  intros [p Q] He. destruct (driver_reset epoch q) as [q' r] eqn:Hp.
  destruct (run_law (OpDriverReset epoch) q p q'
    (ev (fun l => EvReclaimed ((fun c => (rc_id c, dc_data (rc_chain c))) <$> l)) (q', r)).2 Q He)
    as (p' & St & Q' & Hst & HB); [simpl; by rewrite Hp|].
  split; [by exists p'|]. rewrite Hst, (qr_state _ _ Q).
  simpl in HB, St. destruct r as [chains|e]; simpl in HB, St; rewrite app_nil_r in HB.
  - assert (Hp' : p' = qp_reset epoch p /\ qp_epoch p < epoch) by (by inversion St). destruct Hp' as [-> Hlt].
    assert (Hnil : queue_chains q' = []).
    { apply Permutation_nil_r. unfold queue_chains. rewrite (reclaimed_owned _ _ Q'). unfold owned. simpl.
      by rewrite map_to_list_empty. }
    rewrite Hnil, app_nil_r in HB. by split_and!.
  - split; [|by symmetry]. by inversion St.
Qed.

(** Notifications and the environment. *)
Lemma run_quiet op q q' e :
  split_inv q -> op_typed op -> queue_run op q = (q', e) ->
  op ∈ [OpDisableUsed; OpEnableUsed] -> split_inv q' /\ sq_state q' = sq_state q /\ queue_chains q' ≡ₚ queue_chains q.
Proof.
  intros [p Q] Ht Hr Hop. destruct (run_law op q p q' e Q Ht Hr) as (p' & St & Q' & Hst & HB).
  split; [by exists p'|]. rewrite Hst, (qr_state _ _ Q).
  rewrite !elem_of_cons, elem_of_nil in Hop. destruct Hop as [->|[->|[]]]; inversion St; subst; simpl in *;
    rewrite app_nil_r in HB; by split.
Qed.

Lemma split_env_law q q' lost : split_inv q -> split_env q q' lost ->
  split_inv q' /\ queue_chains q ≡ₚ queue_chains q' ++ lost /\
  (qs_epoch (sq_state q) < qs_epoch (sq_state q') \/
   qs_epoch (sq_state q') = qs_epoch (sq_state q) /\ lost = []).
Proof.
  intros [p Q] (op & e & Henv & Ht & Hr & ->). destruct (run_law op q p q' e Q Ht Hr) as (p' & St & Q' & Hst & HB).
  split; [by exists p'|]. rewrite Hst, (qr_state _ _ Q).
  assert (Hb : queue_chains q ≡ₚ queue_chains q' ++ dropped op e q).
  { assert (Hn : published op e = [] /\ returned e = []) by (destruct St; simpl in *; try done; by destruct op).
    destruct Hn as [Hn1 Hn2]. rewrite Hn1, Hn2, app_nil_r in HB. simpl in HB.
    etrans; [exact HB|]. apply Permutation_app_comm. }
  split; [done|]. destruct St; simpl in *; try done; try (right; by split); try (by left); right.
  1, 2, 3: split; [done|]; by destruct op.
  by destruct H0 as [(index & -> & _)|(index & -> & _)].
Qed.

#[global] Program Instance split_queue_contract :
    QueueContract Heap SplitQueue DriverChain ChainData SplitQueueError ByteAccessError
      (list (ReclaimedChain DriverChain)) := {|
  queue_inv := split_inv;
  queue_owned := queue_chains;
  reclaimed_chains chains := chains;
  queue_env := split_env;
|}.
Next Obligation. apply split_ids. Qed.
Next Obligation. apply split_publish_law. Qed.
Next Obligation. apply split_pop_law. Qed.
Next Obligation.
  intros q Q. apply Forall_cons. split; [|apply Forall_singleton].
  - by apply (run_quiet OpDisableUsed q _ _ Q I eq_refl); set_solver.
  - by apply (run_quiet OpEnableUsed q _ _ Q I eq_refl); set_solver.
Qed.
Next Obligation. apply split_reset_law. Qed.
Next Obligation. apply split_env_law. Qed.

(** Configuration, for the sizes that [QueueSize] has. *)
Lemma split_control_law op q : split_inv q -> op_typed op ->
  (exists mem size, op = OpConfigure mem size) \/ (exists ready, op = OpSetReady ready) ->
  let q' := (queue_run op q).1 in
  split_inv q' /\ queue_chains q' ≡ₚ queue_chains q /\ qs_epoch (sq_state q') = qs_epoch (sq_state q).
Proof.
  intros [p Q] Ht Hop. destruct (queue_run op q) as [q' e] eqn:Hr. simpl.
  destruct (run_law op q p q' e Q Ht Hr) as (p' & St & Q' & Hst & HB). split; [by exists p'|].
  rewrite Hst, (qr_state _ _ Q).
  destruct Hop as [(mem & size & ->)|(ready & ->)]; inversion St; subst; simpl in *; rewrite ?app_nil_r in HB;
    try (by split); by destruct_or?; destruct_and?.
Qed.

#[global] Program Instance split_control_contract (mem : RingMemory) :
    ControlContract Heap SplitQueue DriverChain ChainData SplitQueueError ByteAccessError
      (list (ReclaimedChain DriverChain)) (QueueControl0 := split_queue_control mem) := {|
  size_sound := size_ok;
|}.
Next Obligation. intros mem q size Q Hs. apply (split_control_law (OpConfigure mem size) q Q Hs). by eauto. Qed.
Next Obligation. intros mem q ready Q. apply (split_control_law (OpSetReady ready) q Q I). by eauto. Qed.
