(* ===== verification/Mock.v ===== *)
(** * The mock backend ([crates/virtio-accel-mock/src/lib.rs], [reference.rs])

    An in-memory implementation of the accelerator contract, as an instance of
    [Accelerator].  The bytes of a buffer ([Arc<[AtomicU8]>]) and the state of
    an event ([AtomicU8] behind an [Arc]) are shared: the first between the
    buffer's handle and the submissions bound to it, the second between the
    clones of the event.  Both live in the backend's world and handles refer
    to them by address.  The harness's [complete] and [fail_device_lost] are
    operations on the same world.

    [MockEnv] holds what is outside the file: whether the allocator can
    reserve a number of bytes, and the length of the contiguous view a byte
    sink of a given length offers, if it offers one. *)

From Stdlib Require Import ZArith Lia.
From stdpp Require Import prelude list gmap.
From S2P Require Import Prelude Core.

(** ** The reference artifact *)

Definition MAGIC : list Z := [86; 65; 77; 75]. (* b"VAMK" *)
Definition VERSION_MAJOR : Z := 1.
Definition VERSION_MINOR : Z := 0.
Definition BINDING_ABI_VERSION : Z := 1.
Definition UNUSED_SLOT : Z := U32_MAX.

Definition OP_BARRIER : Z := 0.
Definition OP_COPY : Z := 1.
Definition OP_FILL : Z := 2.
Definition OP_XOR : Z := 3.

Definition ARTIFACT_FORMAT : Z := 0x56414d4b.
Definition TARGET_IDENTITY : list Z := [0x56414d4b; 0x00010000; 0x54455354; 0x4f4e4c59; 0; 0; 0; 0; 0; 0; 0; 0].
Definition ARTIFACT_BYTES : Z := 24.
Definition RESIDENT_BYTES : Z := 64.

Inductive MockOperation :=
  | MopBarrier (slot : Z)
  | MopCopy (source_slot target_slot : Z)
  | MopFill (target_slot value : Z)
  | MopXor (target_slot value : Z).

#[global] Instance MockOperation_eq_dec : EqDecision MockOperation.
Proof. solve_decision. Defined.

(** [ReferenceArtifact] is its 24 bytes. *)
Definition ReferenceArtifact_new (opcode first_slot second_slot operand : Z) : list Z :=
  let bytes := replicate (Z.to_nat ARTIFACT_BYTES) 0 in
  let bytes := splice 0 MAGIC bytes in
  let bytes := <[4%nat := VERSION_MAJOR]> bytes in
  let bytes := <[5%nat := VERSION_MINOR]> bytes in
  let bytes := <[6%nat := opcode]> bytes in
  let bytes := <[7%nat := BINDING_ABI_VERSION]> bytes in
  let bytes := splice 8 (le_bytes 4 first_slot) bytes in
  let bytes := splice 12 (le_bytes 4 second_slot) bytes in
  <[16%nat := operand]> bytes.

Definition ReferenceArtifact_barrier (slot : Z) : list Z := ReferenceArtifact_new OP_BARRIER slot UNUSED_SLOT 0.

Definition ReferenceArtifact_copy (source_slot target_slot : Z) : result (list Z) BackendError :=
  if source_slot =? target_slot then Err BeInvalidArgument
  else Ok (ReferenceArtifact_new OP_COPY source_slot target_slot 0).

Definition ReferenceArtifact_fill (target_slot value : Z) : list Z :=
  ReferenceArtifact_new OP_FILL target_slot UNUSED_SLOT value.

Definition ReferenceArtifact_xor (target_slot value : Z) : list Z :=
  ReferenceArtifact_new OP_XOR target_slot UNUSED_SLOT value.

(** [bytes[i]] of an array of 24 bytes. *)
Definition artifact_byte (bytes : list Z) (i : nat) : Z := default 0 (bytes !! i).

Definition reference_decode (payload : ByteSource) : result MockOperation BackendError :=
  if negb (src_len payload =? ARTIFACT_BYTES) then Err BeInvalidArgument
  else
    let? bytes := src_read_at payload 0 ARTIFACT_BYTES in
    if negb (bool_decide (slice 0 4 bytes = MAGIC)) then Err BeInvalidArgument
    else if negb (artifact_byte bytes 4 =? VERSION_MAJOR) || negb (artifact_byte bytes 5 =? VERSION_MINOR)
      || negb (artifact_byte bytes 7 =? BINDING_ABI_VERSION) then Err BeIncompatible
    else if existsb (fun byte => negb (byte =? 0)) (drop 17 bytes) then Err BeInvalidArgument
    else
      let first_slot := le_value (slice 8 4 bytes) in
      let second_slot := le_value (slice 12 4 bytes) in
      let operand := artifact_byte bytes 16 in
      let opcode := artifact_byte bytes 6 in
      if (opcode =? OP_BARRIER) && ((second_slot =? UNUSED_SLOT) && (operand =? 0)) then Ok (MopBarrier first_slot)
      else if (opcode =? OP_COPY) && (negb (first_slot =? second_slot) && (operand =? 0))
      then Ok (MopCopy first_slot second_slot)
      else if (opcode =? OP_FILL) && (second_slot =? UNUSED_SLOT) then Ok (MopFill first_slot operand)
      else if (opcode =? OP_XOR) && (second_slot =? UNUSED_SLOT) then Ok (MopXor first_slot operand)
      else if (opcode =? OP_BARRIER) || (opcode =? OP_COPY) || (opcode =? OP_FILL) || (opcode =? OP_XOR)
      then Err BeInvalidArgument
      else Err BeUnsupported.

(** ** Handles, shared bytes and events *)

Definition EVENT_PENDING : Z := 0.
Definition EVENT_EXECUTING : Z := 1.
Definition EVENT_COMPLETE : Z := 2.
Definition EVENT_CANCELLED : Z := 3.
Definition EVENT_DEVICE_LOST : Z := 4.
Definition TRANSFER_CHUNK_BYTES : Z := 256.

Record MockContext := { mc_id : Z }.

(** [mb_data] is the address of the shared bytes. *)
Record MockBuffer := {
  mb_context_id : Z;
  mb_desc : BufferDesc;
  mb_data : Z;
}.

Record MockProgram := {
  mp_context_id : Z;
  mp_format : Z;
  mp_target : list Z;
  mp_payload_bytes : Z;
  mp_operation : MockOperation;
}.

Record MockQueue := { mq_context_id : Z }.

Record BufferSlice := {
  bs_data : Z;
  bs_start : Z;
  bs_end : Z;
}.

Inductive MockInvocation :=
  | InvBarrier
  | InvCopy (source target : BufferSlice)
  | InvFill (target : BufferSlice) (value : Z)
  | InvXor (target : BufferSlice) (value : Z).

(** The invocation is immutable; [me_state] is the address of the state. *)
Record MockEvent := {
  me_state : Z;
  me_invocation : MockInvocation;
}.

(** The shared bytes by address. *)
Abbreviation Cells := (gmap Z (list Z)).

Record MockWorld := {
  mw_next_id : Z;
  mw_direct_binding_admissions : Z;
  mw_cells : Cells;
  mw_states : gmap Z Z;
  mw_next_address : Z;
}.

Definition mw_set_next_id v self := {|
  mw_next_id := v; mw_direct_binding_admissions := mw_direct_binding_admissions self; mw_cells := mw_cells self;
  mw_states := mw_states self; mw_next_address := mw_next_address self |}.
Definition mw_set_cells v self := {|
  mw_next_id := mw_next_id self; mw_direct_binding_admissions := mw_direct_binding_admissions self; mw_cells := v;
  mw_states := mw_states self; mw_next_address := mw_next_address self |}.
Definition mw_set_state a v self := {|
  mw_next_id := mw_next_id self; mw_direct_binding_admissions := mw_direct_binding_admissions self;
  mw_cells := mw_cells self; mw_states := <[a := v]> (mw_states self); mw_next_address := mw_next_address self |}.

Definition cell (a : Z) (self : MockWorld) : list Z := default [] (mw_cells self !! a).
Definition event_state (event : MockEvent) (self : MockWorld) : Z :=
  default EVENT_PENDING (mw_states self !! me_state event).

Definition mock_info : DeviceInfo := {|
  info_identity := {| di_uuid := [118; 105; 114; 116; 105; 111; 45; 97; 99; 99; 101; 108; 109; 111; 99; 107];
    (* b"virtio-accelmock" *) di_class := CLASS_NPU; di_vendor_id := 0; di_device_id := 0 |};
  info_capabilities := Z.lor (Z.lor (Z.lor HOST_VISIBLE_MEMORY DEVICE_LOCAL_MEMORY) SHARED_MEMORY) EVENT_CANCELLATION;
  info_limits := {| max_contexts := 64; max_buffers_per_context := 1024; max_programs_per_context := 256;
    max_queues_per_context := 16; max_events_per_context := 4096; max_bindings_per_submission := 256;
    max_buffer_bytes := Z.shiftl 1 30; max_artifact_bytes := Z.shiftl 1 30 |};
|}.

Definition MockAccelerator_default : MockWorld := {|
  mw_next_id := 1; mw_direct_binding_admissions := 0; mw_cells := ∅; mw_states := ∅; mw_next_address := 0 |}.

(** ** Execution

    [None] is an index out of range, at which the program panics. *)

Definition load (a : Z) (i : nat) (cells : Cells) : option Z := cells !! a ≫= (.!! i).

Definition store (a : Z) (i : nat) (byte : Z) (cells : Cells) : option Cells :=
  match cells !! a with
  | Some bytes => if decide (i < length bytes)%nat then Some (<[a := <[i := byte]> bytes]> cells) else None
  | None => None
  end.

Fixpoint copy_bytes (indices : list nat) (source target : BufferSlice) (cells : Cells) : option Cells :=
  match indices with
  | [] => Some cells
  | index :: indices =>
      byte ← load (bs_data source) (Z.to_nat (bs_start source) + index) cells;
      cells ← store (bs_data target) (Z.to_nat (bs_start target) + index) byte cells;
      copy_bytes indices source target cells
  end.

(** [for byte in &target.data[target.range]] with a change [f] of each byte. *)
Fixpoint change_bytes (f : Z -> Z) (indices : list nat) (target : BufferSlice) (cells : Cells) : option Cells :=
  match indices with
  | [] => Some cells
  | index :: indices =>
      byte ← load (bs_data target) (Z.to_nat (bs_start target) + index) cells;
      cells ← store (bs_data target) (Z.to_nat (bs_start target) + index) (f byte) cells;
      change_bytes f indices target cells
  end.

(** [range.len()] *)
Definition slice_len (self : BufferSlice) : nat := Z.to_nat (bs_end self - bs_start self).

Definition execute (self : MockInvocation) (cells : Cells) : option Cells :=
  match self with
  | InvBarrier => Some cells
  | InvCopy source target =>
      let reverse := (bs_data source =? bs_data target) && (bs_start source <? bs_start target)
                     && (bs_start target <? bs_end source) in
      if reverse then copy_bytes (rev (seq 0 (slice_len source))) source target cells
      else copy_bytes (seq 0 (slice_len source)) source target cells
  | InvFill target value => change_bytes (fun _ => value) (seq 0 (slice_len target)) target cells
  | InvXor target value => change_bytes (fun byte => Z.lxor byte value) (seq 0 (slice_len target)) target cells
  end.

(** ** Harness operations *)

Definition complete_event (event : MockEvent) (self : MockWorld) : option (MockWorld * result unit BackendError) :=
  if negb (event_state event self =? EVENT_PENDING) then Some (self, Err BeBusy)
  else
    let self := mw_set_state (me_state event) EVENT_EXECUTING self in
    cells ← execute (me_invocation event) (mw_cells self);
    Some (mw_set_state (me_state event) EVENT_COMPLETE (mw_set_cells cells self), Ok tt).

Definition fail_device_lost (event : MockEvent) (self : MockWorld) : MockWorld * result unit BackendError :=
  if negb (event_state event self =? EVENT_PENDING) then (self, Err BeBusy)
  else (mw_set_state (me_state event) EVENT_DEVICE_LOST self, Ok tt).

(** ** Helpers *)

Definition mock_next_id (self : MockWorld) : MockWorld * result Z BackendError :=
  match checked_add U64_MAX (mw_next_id self) 1 with
  | Some next => (mw_set_next_id next self, Ok (mw_next_id self))
  | None => (self, Err BeResourceLimit)
  end.

(** The range [start..end], as its bounds. *)
Definition mock_checked_range (total offset bytes : Z) : result (Z * Z) BackendError :=
  let? start := ok_or (try_from USIZE_MAX offset) BeOutOfBounds in
  match checked_add USIZE_MAX start bytes with
  | Some stop => if stop <=? total then Ok (start, stop) else Err BeOutOfBounds
  | None => Err BeOutOfBounds
  end.

Definition binding_for_slot (bindings : list (BindingRef MockBuffer)) (slot : Z) : option (BindingRef MockBuffer) :=
  List.find (fun binding => bref_slot binding =? slot) bindings.

Definition buffer_slice (self : MockWorld) (binding : BindingRef MockBuffer) : result BufferSlice BackendError :=
  let? bytes := ok_or (try_from USIZE_MAX (br_bytes (bref_range binding))) BeOutOfBounds in
  let? range := mock_checked_range (zlen (cell (mb_data (bref_buffer binding)) self)) (br_offset (bref_range binding)) bytes in
  Ok {| bs_data := mb_data (bref_buffer binding); bs_start := range.1; bs_end := range.2 |}.

(** [Self::binding_for_slot(..).filter(access).ok_or_else(incompatible)] *)
Definition binding_with (bindings : list (BindingRef MockBuffer)) (slot : Z) (access : AccessMode) :
    result (BindingRef MockBuffer) BackendError :=
  match binding_for_slot bindings slot with
  | Some binding => if decide (bref_access binding = access) then Ok binding else Err BeIncompatible
  | None => Err BeIncompatible
  end.

Definition prepare_invocation (operation : MockOperation) (bindings : list (BindingRef MockBuffer)) (self : MockWorld) :
    result MockInvocation BackendError :=
  match operation with
  | MopBarrier slot =>
      if negb (zlen bindings =? 1) || negb (bool_decide (is_Some (binding_for_slot bindings slot)))
      then Err BeIncompatible else Ok InvBarrier
  | MopCopy source_slot target_slot =>
      if negb (zlen bindings =? 2) then Err BeIncompatible
      else
        let? source := binding_with bindings source_slot AccessRead in
        let? target := binding_with bindings target_slot AccessWrite in
        if negb (br_bytes (bref_range source) =? br_bytes (bref_range target)) then Err BeIncompatible
        else
          let? source := buffer_slice self source in
          let? target := buffer_slice self target in
          Ok (InvCopy source target)
  | MopFill target_slot value =>
      if negb (zlen bindings =? 1) then Err BeIncompatible
      else
        let? target := binding_with bindings target_slot AccessWrite in
        let? target := buffer_slice self target in
        Ok (InvFill target value)
  | MopXor target_slot value =>
      if negb (zlen bindings =? 1) then Err BeIncompatible
      else
        let? target := binding_with bindings target_slot AccessReadWrite in
        let? target := buffer_slice self target in
        Ok (InvXor target value)
  end.

(** ** The contract *)

Record MockEnv := {
  me_reserve : Z -> bool;
  me_contiguous : Z -> option Z;
}.

Definition mock_create_context (desc : ContextDesc) (self : MockWorld) : MockWorld * result MockContext BackendError :=
  match validate_context_desc mock_info desc with
  | Err error => (self, Err error)
  | Ok _ =>
      let '(self, id) := mock_next_id self in
      (self, result_map (fun id => {| mc_id := id |}) id)
  end.

Definition mock_properties (desc : BufferDesc) : Z :=
  Z.lor
    match bd_domain desc with
    | DomainHost => HOST_VISIBLE
    | DomainDevice => DEVICE_LOCAL
    | DomainShared => HOST_VISIBLE
    end
    (if is_program_visible desc || bool_decide (bd_domain desc = DomainShared) then DIRECT_BINDING else 0).

Definition mock_allocate_buffer (env : MockEnv) (context : MockContext) (desc : BufferDesc) (self : MockWorld) :
    MockWorld * result (MockBuffer * BufferInfo) BackendError :=
  let checked :=
    let? _ := validate_buffer_desc mock_info desc in
    let? info := BufferInfo_new desc (bd_bytes desc) (bd_alignment desc) (mock_properties desc) in
    let? bytes := ok_or (try_from USIZE_MAX (bd_bytes desc)) BeOutOfMemory in
    if negb (me_reserve env bytes) then Err BeOutOfMemory else Ok (info, bytes) in
  match checked with
  | Err error => (self, Err error)
  | Ok (info, bytes) =>
      let address := mw_next_address self in
      let self := {|
        mw_next_id := mw_next_id self; mw_direct_binding_admissions := mw_direct_binding_admissions self;
        mw_cells := <[address := replicate (Z.to_nat bytes) 0]> (mw_cells self); mw_states := mw_states self;
        mw_next_address := address + 1 |} in
      (self, Ok ({| mb_context_id := mc_id context; mb_desc := desc; mb_data := address |}, info))
  end.

(** [while copied < bytes] of [write_buffer]; the fuel is at least the number
    of chunks. *)
Fixpoint write_chunks (fuel : nat) (data : ByteSource) (start bytes copied : Z) (target : list Z) :
    list Z * result unit BackendError :=
  if bytes <=? copied then (target, Ok tt)
  else
    match fuel with
    | O => (target, Ok tt)
    | S fuel =>
        let chunk_bytes := Z.min (bytes - copied) TRANSFER_CHUNK_BYTES in
        match src_read_at data copied chunk_bytes with
        | Err error => (target, Err error)
        | Ok chunk => write_chunks fuel data start bytes (copied + chunk_bytes) (splice (start + copied) chunk target)
        end
    end.

Definition chunks (bytes : Z) : nat := Z.to_nat (bytes / TRANSFER_CHUNK_BYTES + 1).

Definition mock_write_buffer (buffer : MockBuffer) (offset : Z) (data : ByteSource) (self : MockWorld) :
    MockWorld * (MockBuffer * result unit BackendError) :=
  let target := cell (mb_data buffer) self in
  let checked :=
    if negb (bits_contains (bd_usage (mb_desc buffer)) TRANSFER_DESTINATION) then Err BePermissionDenied
    else
      let? bytes := ok_or (try_from USIZE_MAX (src_len data)) BeOutOfBounds in
      if bytes =? 0 then Err BeInvalidArgument
      else
        let? range := mock_checked_range (zlen target) offset bytes in
        Ok (bytes, range.1) in
  let '(target, r) :=
    match checked with
    | Err error => (target, Err error)
    | Ok (bytes, start) =>
        match src_as_contiguous data with
        | Some source =>
            if negb (zlen source =? bytes) then (target, Err BeInvalidArgument)
            else (splice start source target, Ok tt)
        | None => write_chunks (chunks bytes) data start bytes 0 target
        end
    end in
  (mw_set_cells (alter (fun _ => target) (mb_data buffer) (mw_cells self)) self, (buffer, r)).

(** [while copied < bytes] of [read_buffer] *)
Fixpoint read_chunks (fuel : nat) (source : list Z) (start bytes copied : Z) (self : MockWorld) :
    SinkProgram (MockWorld * result unit BackendError) :=
  if bytes <=? copied then SinkReturn (self, Ok tt)
  else
    match fuel with
    | O => SinkReturn (self, Ok tt)
    | S fuel =>
        let chunk_bytes := Z.min (bytes - copied) TRANSFER_CHUNK_BYTES in
        SinkWrite (Z.to_N copied) (slice (start + copied) chunk_bytes source) (fun r =>
          match r with
          | Err error => SinkReturn (self, Err error)
          | Ok _ => read_chunks fuel source start bytes (copied + chunk_bytes) self
          end)
    end.

(** A store through the contiguous view is one write of the whole sink. *)
Definition mock_read_buffer (env : MockEnv) (buffer : MockBuffer) (offset data_len : Z) (self : MockWorld) :
    SinkProgram (MockWorld * result unit BackendError) :=
  let source := cell (mb_data buffer) self in
  let checked :=
    if negb (bits_contains (bd_usage (mb_desc buffer)) TRANSFER_SOURCE) then Err BePermissionDenied
    else
      let? bytes := ok_or (try_from USIZE_MAX data_len) BeOutOfBounds in
      if bytes =? 0 then Err BeInvalidArgument
      else
        let? range := mock_checked_range (zlen source) offset bytes in
        Ok (bytes, range.1) in
  match checked with
  | Err error => SinkReturn (self, Err error)
  | Ok (bytes, start) =>
      match me_contiguous env data_len with
      | Some target_len =>
          if negb (target_len =? bytes) then SinkReturn (self, Err BeInvalidArgument)
          else SinkWrite 0 (slice start bytes source) (fun _ => SinkReturn (self, Ok tt))
      | None => read_chunks (chunks bytes) source start bytes 0 self
      end
  end.

Definition mock_load_program (context : MockContext) (artifact : ArtifactRef) (self : MockWorld) :
    MockWorld * result MockProgram BackendError :=
  (self,
    if max_artifact_bytes (info_limits mock_info) <? src_len (ar_payload artifact) then Err BeResourceLimit
    else if negb (ar_format artifact =? ARTIFACT_FORMAT) then Err BeUnsupported
    else if negb (bool_decide (ar_target artifact = TARGET_IDENTITY))
            || negb (ar_resident_bytes artifact =? RESIDENT_BYTES) then Err BeIncompatible
    else
      let? operation := reference_decode (ar_payload artifact) in
      let? payload_bytes := ok_or (try_from USIZE_MAX (src_len (ar_payload artifact))) BeResourceLimit in
      Ok {| mp_context_id := mc_id context; mp_format := ar_format artifact; mp_target := ar_target artifact;
            mp_payload_bytes := payload_bytes; mp_operation := operation |}).

Definition mock_create_queue (context : MockContext) (desc : QueueDesc) (self : MockWorld) :
    MockWorld * result MockQueue BackendError :=
  (self, let? _ := validate_queue_desc mock_info desc in Ok {| mq_context_id := mc_id context |}).

Definition mock_admit (queue : MockQueue) (program : MockProgram) (bindings : list (BindingRef MockBuffer))
    (self : MockWorld) : result MockInvocation BackendError :=
  if negb (mq_context_id queue =? mp_context_id program)
     || existsb (fun binding => negb (mb_context_id (bref_buffer binding) =? mq_context_id queue)) bindings
  then Err BeInvalidArgument
  else if existsb (fun binding => bd_bytes (mb_desc (bref_buffer binding)) <? BufferRange_end (bref_range binding)) bindings
  then Err BeOutOfBounds
  else
    let descs := (fun binding => mb_desc (bref_buffer binding)) <$> bindings in
    let? _ := validate_for_submit bindings descs (max_bindings_per_submission (info_limits mock_info)) in
    prepare_invocation (mp_operation program) bindings self.

Definition mock_submit (queue : MockQueue) (program : MockProgram) (bindings : list (BindingRef MockBuffer))
    (_timeout : Timeout) (self : MockWorld) : MockWorld * result MockEvent (SubmitFailure MockEvent) :=
  match mock_admit queue program bindings self with
  | Err error => (self, Err (SubmitRejected error))
  | Ok invocation =>
      let address := mw_next_address self in
      let self := {|
        mw_next_id := mw_next_id self;
        mw_direct_binding_admissions := wrapping_add U64_MAX (mw_direct_binding_admissions self) (zlen bindings);
        mw_cells := mw_cells self; mw_states := <[address := EVENT_PENDING]> (mw_states self);
        mw_next_address := address + 1 |} in
      (self, Ok {| me_state := address; me_invocation := invocation |})
  end.

Definition mock_poll_event (event : MockEvent) (self : MockWorld) : result EventState BackendError :=
  let state := event_state event self in
  if (state =? EVENT_PENDING) || (state =? EVENT_EXECUTING) then Ok EventPending
  else if state =? EVENT_COMPLETE then Ok EventComplete
  else if state =? EVENT_CANCELLED then Ok EventCancelled
  else if state =? EVENT_DEVICE_LOST then Ok (EventFailed BeDeviceLost)
  else Err BeDeviceLost.

Definition mock_cancel_event (event : MockEvent) (self : MockWorld) : MockWorld * result unit BackendError :=
  if negb (event_state event self =? EVENT_PENDING) then (self, Err BeBusy)
  else (mw_set_state (me_state event) EVENT_CANCELLED self, Ok tt).

Definition mock_destroy_event (event : MockEvent) (self : MockWorld) : MockWorld * result unit (ReleaseFailure MockEvent) :=
  (self,
    match mock_poll_event event self with
    | Err error => Err (ReleaseIndeterminate error)
    | Ok EventPending => Err (ReleaseRejected BeBusy event)
    | Ok (EventComplete | EventFailed _ | EventCancelled) => Ok tt
    end).

(** [impl Accelerator for MockAccelerator] *)
Definition mock_accelerator (env : MockEnv) : Accelerator := {|
  World := MockWorld; Context := MockContext; Buffer := MockBuffer; Program := MockProgram; Queue := MockQueue;
  Event := MockEvent;
  acc_device_info self := (self, Ok mock_info);
  acc_create_context := mock_create_context;
  acc_destroy_context _ self := (self, Ok tt);
  acc_allocate_buffer := mock_allocate_buffer env;
  acc_write_buffer := mock_write_buffer;
  acc_read_buffer := mock_read_buffer env;
  acc_free_buffer _ self := (self, Ok tt);
  acc_load_program := mock_load_program;
  acc_unload_program _ self := (self, Ok tt);
  acc_create_queue := mock_create_queue;
  acc_destroy_queue _ self := (self, Ok tt);
  acc_submit := mock_submit;
  acc_poll_event event self := (self, mock_poll_event event self);
  acc_cancel_event := mock_cancel_event;
  acc_destroy_event := mock_destroy_event;
|}.
