(* ===== verification/GuestProps.v ===== *)
(** * Properties of the guest client

    The properties of the client over every transport that keeps the driver
    contracts, its agreement with the command engine, and their application
    to a client over the split queue connected to a small device. *)

From Stdlib Require Import ZArith Lia.
From stdpp Require Import prelude list gmap.
From S2P Require Import Prelude Codec Proto Transport Core Mock ObjectTable Regions Response Decoder DecoderSpec Frame State StateInv StateFacts Engine EngineFacts EngineProps EngineDemo Chain ChainSpec SplitQueue QueueInv QueueSpec QueueProps DriverPorts GuestTypes GuestClient GuestTrace GuestFrames GuestResponses GuestDevice SplitDriver.

(** ** Vocabulary of the statements *)

(** The epochs of all handles a call names, the buffers of the bindings
    included. *)
Definition handle_epochs (rq : GuestRequest) : list Z :=
  match rq with
  | GrGetDeviceInfo | GrCreateContext => []
  | GrDestroyContext context | GrAllocateBuffer context _ | GrLoadProgram context _ _ | GrLoadPrepared context _ _
  | GrCreateQueue context => [handle_epoch context]
  | GrFreeBuffer buffer | GrWriteBuffer buffer _ _ | GrWritePrepared buffer _ | GrReadBuffer buffer _ =>
      [buffer_epoch buffer]
  | GrUnloadProgram program => [handle_epoch program]
  | GrDestroyQueue queue => [handle_epoch queue]
  | GrSubmit queue program bindings _ =>
      handle_epoch queue :: handle_epoch program :: ((fun b => buffer_epoch (bi_buffer b)) <$> bindings)
  | GrPollEvent event | GrCancelEvent event | GrDestroyEvent event => [handle_epoch event]
  end.

(** A stale handle is what the call reports.  Only in a submission with a
    current queue and program do other checks come before the one of a bound
    buffer: of the program's context, of the discovered limits and of the
    bindings before it. *)
Definition stale_reported {Q C QE CE R : Type} `{!DriverQueue Q C QE R} (self : GuestClient Q C) (rq : GuestRequest) :
    Prop :=
  match rq with
  | GrSubmit queue program bindings _ =>
      handle_epoch queue = client_epoch self -> handle_epoch program = client_epoch self ->
      sh_context program = Some (default 0 (sh_context queue)) /\
      (exists info, gc_device_info self = Some info /\ zlen bindings <= gi_max_bindings_per_submission info <= U32_MAX) /\
      exists before stale after, bindings = before ++ stale :: after /\
        buffer_epoch (bi_buffer stale) <> client_epoch self /\
        check_bindings (QE := QE) (CE := CE) (client_epoch self) (default 0 (sh_context queue))
          (bindings_are_canonical bindings) [] before = Ok tt
  | _ => True
  end.

(** What an operation promises of the value it returns. *)
Class TypedOutput (O : Type) `{OperationMeaning O} := {
  output_ok : O -> Z -> Output O -> Prop;
  means_ok : forall op epoch config status payload out,
    reply_means op epoch config status payload (OpSuccess out) -> output_ok op epoch out;
}.

Definition fresh_handle {k} (epoch : Z) (context : option Z) (h : SimpleHandle k) : Prop :=
  handle_typed h /\ handle_epoch h = epoch /\ sh_context h = context.

Lemma ordinary_object_out {T} (construct : Z -> T) status payload out :
  ordinary_means (object_means construct) status payload (OpSuccess out) -> exists id, id_ok id /\ out = construct id.
Proof. intros [(_ & _ & ?)|(_ & out' & (id & Hid & _ & ->) & [= ->])]; [done|]. by exists id. Qed.

#[global] Program Instance CreateContext_typed : TypedOutput CreateContext := {|
  output_ok _ epoch out := fresh_handle epoch None out;
|}.
Next Obligation. intros * (id & ? & ->)%ordinary_object_out. done. Qed.

#[global] Program Instance AllocateBuffer_typed : TypedOutput AllocateBuffer := {|
  output_ok op epoch out := id_ok (buffer_raw out) /\ buffer_epoch out = epoch /\
    gb_context out = al_context op /\ gb_desc out = al_desc op;
|}.
Next Obligation. intros * (id & ? & ->)%ordinary_object_out. done. Qed.

#[global] Program Instance LoadProgram_typed : TypedOutput LoadProgram := {|
  output_ok op epoch out := fresh_handle epoch (Some (ld_context op)) out;
|}.
Next Obligation. intros * (id & ? & ->)%ordinary_object_out. done. Qed.

#[global] Program Instance CreateExecutionQueue_typed : TypedOutput CreateExecutionQueue := {|
  output_ok op epoch out := fresh_handle epoch (Some (ceq_context op)) out;
|}.
Next Obligation. intros * (id & ? & ->)%ordinary_object_out. done. Qed.

(** An admission that failed indeterminately names its event and a known,
    unsuccessful status. *)
#[global] Program Instance Submit_typed : TypedOutput Submit := {|
  output_ok op epoch out :=
    match out with
    | Accepted event => fresh_handle epoch (Some (sm_context op)) event
    | AdmissionIndeterminate status event =>
        fresh_handle epoch (Some (sm_context op)) event /\ StatusCode_is_known status = true /\ status <> STATUS_OK
    end;
|}.
Next Obligation.
  intros op epoch config status payload out [(_ & _ & ?)|(event & (id & ? & _ & ->) & [[_ [= ->]]|(? & ? & [= ->])])]; done.
Qed.

Section Properties.
Context {W C D Q CE QE R : Type} `{!DriverChainBuffer W C CE} `{!DriverQueue Q C QE R}.
Context `{!ChainContract W C D CE} `{!QueueContract W Q C D QE CE R} `{!QueueControl Q QE}.
Context `{!ControlContract W Q C D QE CE R}.
Implicit Types (w : W) (chain : C) (self : GuestClient Q C).

(** C13: the client's invariant holds over every history of requests, polls,
    resets, recoveries and steps of the device: as many slots as the negotiated
    limit, live request identifiers nonzero and distinct, every chain in
    flight tracked by exactly one slot under the identity the queue gave it,
    and never an unexpected completion kept. *)
Theorem client_invariant (x : ClientWorld (W := W) (C := C) (D := D) (Q := Q)) :
  client_reachable x -> client_inv (cw_client x).
Proof. intros H. apply (client_reachable_ok x H). Qed.

(** No chain is lost or duplicated.  Over every history the chains the
    owner has given to successful starts are exactly those it got back with a
    completion, from a reset or from the recovery of completions, those the
    device's reset dropped, and those the client and its queue still hold. *)
Theorem guest_conserves_chains (x : ClientWorld (W := W) (C := C) (D := D) (Q := Q)) :
  client_reachable x -> cw_given x ≡ₚ cw_returned x ++ cw_lost x ++ held (cw_client x).
Proof. intros H. apply (client_reachable_ok x H). Qed.

(** The branch for unexpected completions is dead.  On a queue that keeps
    its contract no [pump] reports one, and a [poll] answers that a reset is
    needed only when the client already stood still. *)
Theorem never_unexpected (x : ClientWorld (W := W) (C := C) (D := D) (Q := Q)) :
  client_reachable x ->
  (pump (cw_client x)).2 <> Ok PumpUnexpectedCompletion /\
  forall O (HO : Operation O) (pending pending' : Pending O),
    (poll pending (cw_memory x) (cw_client x)).2 = PollNeedsReset pending' ->
    gc_health (cw_client x) = ClientNeedsReset.
Proof.
  intros [I _]%client_reachable_ok. pose proof (pump_effect _ I) as HP. split.
  - destruct (pump (cw_client x)). apply HP.
  - intros O HO pending pending'. unfold poll. destruct (negb _); [done|].
    case_bool_decide as Hh; [done|]. destruct (negb _); [done|].
    assert (Hslot : forall self, (poll_slot (QE := QE) pending (cw_memory x) self).2 <> PollNeedsReset pending').
    { intros self. unfold poll_slot. repeat case_match; done. }
    destruct (gc_slots _ !! _) as [[|? ?|? ?|?]|]; try (intros Hp; by apply Hslot in Hp).
    assert (Hnr : (pump (cw_client x)).2 <> Ok PumpNeedsReset).
    { unfold pump. rewrite bool_decide_false by done. repeat case_match; done. }
    destruct (pump (cw_client x)) as [self1 [[]|]]; simpl in *; try (intros Hp; by apply Hslot in Hp); try done.
    by destruct HP as (_ & _ & _ & _ & _ & ?).
Qed.

(** C19: request identifiers never run out and never clash.  The search of
    [allocate_request_id] over one candidate more than there are slots always
    finds one, wrap-around included; it is nonzero, fits the wire and no slot
    that is in flight or completed has it. *)
Theorem request_id_always_found (x : ClientWorld (W := W) (C := C) (D := D) (Q := Q)) :
  client_reachable x ->
  exists id next, allocate_request_id (cw_client x) = (gc_set_next_request_id next (cw_client x), Some id) /\
    1 <= id <= U64_MAX /\ 1 <= next <= U64_MAX /\
    forall slot, slot ∈ gc_slots (cw_client x) -> slot_has_request id slot = false.
Proof.
  intros [I _]%client_reachable_ok. destruct (allocate_request_id_spec _ I) as (id & next & Ha & Hid & Hn & Hfresh).
  exists id, next. split_and!; try done; try lia. intros slot Hs. apply not_true_iff_false. intros Hr. apply Hfresh.
  apply list_elem_of_omap. exists slot. split; [done|]. destruct slot; simpl in *; bool_to_prop; by subst.
Qed.

(** What the guest publishes is what the device decodes.  Whenever one of
    the seventeen calls starts a request, with arguments from their
    constructors and limits the device announced, the chain holds a frame that
    the device's decoder accepts with the request's identifier and decodes to
    exactly the command, object identifiers, ranges, bindings and data the
    caller asked for; the response capacity it checks is there. *)
Theorem started_request_decodes rq data chain w self w' self' p d request :
  client_inv self -> limits_match (gc_config self) (gc_device_info self) (fd_limits d) ->
  dl_max_request_bytes (fd_limits d) <= U32_MAX ->
  chain_good w (chain_data chain) -> request_typed rq ->
  request_data rq (request_bytes w (chain_data chain)) data ->
  start_request rq chain w self = (w', self', Ok p) ->
  source_of request (request_bytes w' (chain_data chain)) ->
  FrameDecoder_decode true d request (zlen (response_bytes w' (chain_data chain))) =
    Ok {| dr_request_id := pn_request_id p; dr_required_response_bytes := success_bytes (request_wire rq data);
          dr_body := body_of request (request_wire rq data) |}.
Proof.
  intros I Hm Hmax Hg Ht Hd Hs Hsrc.
  destruct (request_started _ _ _ _ _ _ _ _ _ I Hm Hg Ht Hd Hs) as (Hreq & Hok & _). rewrite Hreq in Hsrc.
  apply decode_frame_complete; try done. pose proof Hok as (_ & Hr & _ & _ & Hcap).
  assert (16 <= success_bytes (request_wire rq data)); [|lia].
  destruct (request_wire rq data); simpl; try lia; [case_decide; lia|]. destruct Hr as (_ & [_ [? _]] & _).
  simpl in *. lia.
Qed.

(** C17: the client accepts exactly the well-formed answers.  A completion is
    turned into a result if and only if the used bytes are one response frame
    with the request's identifier, zero flags and the exact length, within the
    negotiated limit, whose status and payload mean that result for the
    operation; everything else is an error. *)
Theorem response_accepted_exactly {O} `{OperationMeaning O} (pending : Pending O) w chain used self r :
  chain_good w (chain_data chain) -> is_bytes (response_bytes w (chain_data chain)) ->
  0 <= used <= zlen (response_bytes w (chain_data chain)) -> used <= U32_MAX -> is_u64 (pn_request_id pending) ->
  validate_response pending w chain used self = Ok r <->
  used <= wc_max_response_bytes (gcf_wire (gc_config self)) /\
  exists status payload, is_u16 status /\
    slice 0 used (response_bytes w (chain_data chain)) = response_frame status (pn_request_id pending) payload /\
    reply_means (pn_operation pending) (pn_epoch pending) (gc_config self) status payload r.
Proof. intros. by apply validate_response_iff. Qed.

(** Every handle the client makes is well typed and belongs to the epoch and
    the context of the request that made it, whatever bytes the device wrote:
    its identifier is nonzero and fits the wire.  These are the properties the
    calls that take handles rely on. *)
Theorem decoded_handles_typed {O} `{TypedOutput O} (pending : Pending O) w chain used self out :
  chain_good w (chain_data chain) -> is_bytes (response_bytes w (chain_data chain)) ->
  0 <= used <= zlen (response_bytes w (chain_data chain)) -> used <= U32_MAX -> is_u64 (pn_request_id pending) ->
  validate_response pending w chain used self = Ok (OpSuccess out) ->
  output_ok (pn_operation pending) (pn_epoch pending) out.
Proof.
  intros Hg Hb Hu H32 Hid Hv. apply validate_response_iff in Hv as (_ & status & payload & _ & _ & Hm); try done.
  by eapply means_ok.
Qed.

Lemma check_bindings_stale epoch context canonical prior before stale after :
  buffer_epoch (bi_buffer stale) <> epoch ->
  (exists kind, check_bindings (QE := QE) (CE := CE) epoch context canonical prior (before ++ stale :: after) = Err kind) /\
  (check_bindings (QE := QE) (CE := CE) epoch context canonical prior before = Ok tt ->
   check_bindings (QE := QE) (CE := CE) epoch context canonical prior (before ++ stale :: after) = Err StartStaleHandle).
Proof.
  intros Hs. revert prior. induction before as [|b before IH]; intros prior; cbn [app check_bindings].
  - rewrite (proj2 (Z.eqb_neq _ _) Hs). split; [by eexists|done].
  - destruct (negb _); [split; [by eexists|done]|]. destruct (_ || _); [split; [by eexists|done]|]. apply IH.
Qed.

Lemma stale_submit queue program bindings timeout chain w self e :
  e ∈ handle_epochs (GrSubmit queue program bindings timeout) -> e <> client_epoch self ->
  exists kind, start_request (GrSubmit queue program bindings timeout) chain w self = (w, self, Err (chain, kind)) /\
    (stale_reported (QE := QE) (CE := CE) (R := R) self (GrSubmit queue program bindings timeout) ->
     kind = StartStaleHandle).
Proof.
  intros Hin Hne. cbn [handle_epochs start_request stale_reported] in *. unfold guest_submit.
  destruct (Z.eqb_spec (handle_epoch queue) (client_epoch self)) as [Hq|]; [|by eexists].
  destruct (Z.eqb_spec (handle_epoch program) (client_epoch self)) as [Hp|]; [|by eexists].
  cbn [negb orb].
  assert (exists stale, stale ∈ bindings /\ buffer_epoch (bi_buffer stale) <> client_epoch self) as (stale & Hb & Hs).
  { rewrite !elem_of_cons, list_elem_of_fmap in Hin. destruct Hin as [->|[->|(b & -> & ?)]]; [done..|by exists b]. }
  assert (Hlen : (zlen bindings =? 0) = false) by (apply Z.eqb_neq; destruct bindings; [by apply elem_of_nil in Hb|done]).
  rewrite Hlen, orb_false_r. case_bool_decide as Hc.
  { eexists. split; [done|]. intros H. by destruct (H Hq Hp). }
  destruct (gc_device_info self) as [info|]; cycle 1.
  { eexists. split; [done|]. intros H. by destruct (H Hq Hp) as (_ & (? & ? & _) & _). }
  destruct (try_from U32_MAX (zlen bindings)) as [n|] eqn:Ht; cycle 1.
  { eexists. split; [done|]. intros H. destruct (H Hq Hp) as (_ & (? & [= <-] & ?) & _).
    unfold try_from in Ht. destruct (Z.leb_spec (zlen bindings) U32_MAX); [done|lia]. }
  destruct (Z.ltb_spec (gi_max_bindings_per_submission info) n).
  { eexists. split; [done|]. intros H'. destruct (H' Hq Hp) as (_ & (? & [= <-] & ?) & _).
    unfold try_from in Ht. case_match; [|done]. injection Ht as <-. lia. }
  destruct (list_elem_of_split _ _ Hb) as (before & after & ->).
  destruct (check_bindings_stale (client_epoch self) (default 0 (sh_context queue))
    (bindings_are_canonical (before ++ stale :: after)) [] before stale after Hs) as [[kind Hk] _].
  rewrite Hk. exists kind. split; [done|]. intros H'.
  destruct (H' Hq Hp) as (_ & _ & before' & stale' & after' & Heq & Hs' & Hok). rewrite Heq in Hk, Hok.
  rewrite (proj2 (check_bindings_stale _ _ _ _ _ _ _ Hs') Hok) in Hk. by injection Hk.
Qed.

(** C18: a reset invalidates everything issued before it, for good.  After a
    successful reset and any history that follows it, a pending token of an
    epoch before the reset is answered stale, and a call that names a handle of
    such an epoch, be it the buffer of a binding, is refused with its chain;
    neither changes the client, its queue or memory.  The reason is the stale
    handle, unless a check that a submission makes first fails too. *)
Theorem reset_invalidates epoch self self' r (x y : ClientWorld (W := W) (C := C) (D := D) (Q := Q)) :
  client_inv self -> 0 < epoch -> client_reset epoch self = (self', Ok r) ->
  cw_client x = self' -> rtc client_step x y ->
  (forall O (HO : Operation O) (pending : Pending O) w, pn_epoch pending <= client_epoch self ->
     poll pending w (cw_client y) = (cw_client y, PollStale (stale_operation pending))) /\
  (forall rq chain w e, e ∈ handle_epochs rq -> e <= client_epoch self ->
     exists kind, start_request rq chain w (cw_client y) = (w, cw_client y, Err (chain, kind)) /\
       (stale_reported (QE := QE) (CE := CE) (R := R) (cw_client y) rq -> kind = StartStaleHandle)).
Proof.
  intros I He Hr Hx Hs. pose proof (reset_effect epoch self I He) as HE. rewrite Hr in HE.
  destruct HE as (I' & _ & _ & Hlt & _). subst self'. pose proof (client_steps_epoch x y I' Hs) as Hle. split.
  - intros O HO pending w Hp. unfold poll. by rewrite (proj2 (Z.eqb_neq _ _)) by lia.
  - intros rq chain w e Hin Hold. assert (e <> client_epoch (cw_client y)) as Hne by lia.
    destruct rq; try (by eapply stale_submit);
      cbn [handle_epochs] in Hin; rewrite ?list_elem_of_singleton in Hin; subst; try (by apply elem_of_nil in Hin);
      exists StartStaleHandle; (split; [|done]); cbn [start_request]; apply Z.eqb_neq in Hne;
      unfold guest_destroy_context, guest_allocate_buffer, guest_free_buffer, guest_write_buffer, write_buffer_prepared,
        guest_read_buffer, guest_load_program, load_program_prepared, guest_unload_program, create_execution_queue,
        destroy_execution_queue, guest_poll_event, guest_cancel_event, guest_destroy_event; by rewrite Hne.
Qed.

(** An invalid response stops the client.  When a poll reports one, the
    client needs a reset: until then no call publishes anything, the queue is
    not popped, and memory and the client stay as they are. *)
Theorem invalid_response_stops {O} `{Operation O} (pending : Pending O) w self self' e op c :
  poll pending w self = (self', PollReady (CompletionInvalidResponse e op c)) ->
  gc_health self' = ClientNeedsReset /\ pump self' = (self', Ok PumpNeedsReset) /\
  forall rq chain w2, exists kind, start_request rq chain w2 self' = (w2, self', Err (chain, kind)).
Proof.
  intros Hp. assert (Hh : gc_health self' = ClientNeedsReset).
  { assert (Hslot : forall s, poll_slot (QE := QE) pending w s = (self', PollReady (CompletionInvalidResponse e op c)) ->
      gc_health self' = ClientNeedsReset).
    { intros s. unfold poll_slot, decode_completion. repeat case_match; intros; by simplify_eq. }
    revert Hp. unfold poll. destruct (negb _); [done|]. destruct (bool_decide _); [done|]. destruct (negb _); [done|].
    destruct (gc_slots self !! _) as [[|? ?|? ?|?]|]; try apply Hslot.
    destruct (pump self) as [self1 [[]|]]; try apply Hslot; done. }
  split; [done|]. split; [unfold pump; by rewrite bool_decide_true|]. intros rq chain w2.
  destruct (start_request_cases rq chain w2 self') as [Hs|(O' & HO & op' & pl & rs & wr & -> & _)]; [done|].
  exists StartNeedsReset. unfold start_frame. by rewrite bool_decide_true.
Qed.

(** A completion reaches the request it belongs to, in whatever order the
    device completes.  When the queue hands a chain back to a poll, the poll
    of that chain's own request is ready with that chain and its slot is free;
    the poll of another request stays pending and the completion waits in the
    slot of the request it belongs to. *)
Theorem poll_takes_own_completion {O} `{Operation O} (pending : Pending O) w self cid q u :
  client_inv self -> gc_health self = ClientRunning -> pn_epoch pending = client_epoch self ->
  gc_slots self !! Z.to_nat (pn_slot pending) = Some (SlotInFlight (pn_request_id pending) cid) ->
  queue_pop_used (gc_queue self) = (q, Ok (Some u)) ->
  exists j id, gc_slots self !! j = Some (SlotInFlight id (uc_id u)) /\
    if decide (uc_id u = cid)
    then j = Z.to_nat (pn_slot pending) /\ exists self' c, poll pending w self = (self', PollReady c) /\
      completion_chain c = uc_chain u /\ gc_slots self' = <[j := SlotVacant]> (gc_slots self)
    else j <> Z.to_nat (pn_slot pending) /\
      poll pending w self = (gc_set_slot j (SlotCompleted id u) (gc_set_queue q self), PollPending pending).
Proof.
  intros I Hh He Hs Hq. pose proof (pump_effect self I) as HP.
  assert (Hpump : exists j id, gc_slots self !! j = Some (SlotInFlight id (uc_id u)) /\
    pump self = (gc_set_slot j (SlotCompleted id u) (gc_set_queue q self), Ok (PumpCompletion id))).
  { unfold pump in *. rewrite bool_decide_false, Hq in * by (by rewrite Hh). cbn [gc_slots gc_set_queue] in *.
    destruct (list_position _ _) as [j|] eqn:Hpos; [|by destruct HP as (_ & _ & _ & _ & _ & ?)].
    apply list_position_Some in Hpos as (s & Hj & Hc). rewrite Hj in *.
    destruct s as [|id cid'| |]; try done. simpl in Hc. apply bool_decide_eq_true in Hc as ->. by exists j, id. }
  destruct Hpump as (j & id & Hj & Hpump). exists j, id. split; [done|].
  assert (Hpoll : poll pending w self = poll_slot pending w (gc_set_slot j (SlotCompleted id u) (gc_set_queue q self))).
  { unfold poll, pending_matches. rewrite He, Z.eqb_refl, bool_decide_false, Hs by (by rewrite Hh).
    cbn [negb slot_has_request]. rewrite Z.eqb_refl. cbn [negb]. by rewrite Hpump. }
  rewrite Hpoll. unfold poll_slot. cbn [gc_slots gc_set_slot gc_set_slots gc_set_queue].
  assert (Hjlt : (j < length (gc_slots self))%nat) by (by eapply lookup_lt_Some).
  case_decide as Hc.
  - assert (j = Z.to_nat (pn_slot pending)) as ->.
    { apply (NoDup_omap_inj flight_id (gc_slots self) j _ _ _ cid (ci_chains _ I) Hj Hs); simpl; congruence. }
    rewrite Hs in Hj. injection Hj as <- ->. split; [done|]. rewrite list_lookup_insert_eq by done.
    rewrite Z.eqb_refl. cbn [negb].
    pose proof (decode_completion_effect pending u w (gc_set_slot (Z.to_nat (pn_slot pending)) SlotVacant
      (gc_set_slot (Z.to_nat (pn_slot pending)) (SlotCompleted (pn_request_id pending) u) (gc_set_queue q self)))) as HD.
    destruct (decode_completion pending u w _) as [self' c] eqn:Hdc. destruct HD as (_ & _ & Hch & _).
    exists self', c. split_and!; try done. unfold decode_completion in Hdc.
    repeat case_match; simplify_eq; simpl; by rewrite list_insert_insert_eq.
  - assert (j <> Z.to_nat (pn_slot pending)) by (intros ->; rewrite Hs in Hj; congruence).
    split; [done|]. by rewrite list_lookup_insert_ne, Hs.
Qed.

End Properties.

(** The canonical-order shortcut of [submit] changes nothing.  When the
    slots are strictly increasing the loop skips the search for duplicates;
    for every list of bindings it answers what the loop with the search
    answers, the same error at the same binding included. *)
Theorem canonical_shortcut_exact {QE CE} epoch context bindings :
  check_bindings (QE := QE) (CE := CE) epoch context (bindings_are_canonical bindings) [] bindings =
  check_bindings epoch context false [] bindings.
Proof.
  destruct (bindings_are_canonical bindings) eqn:Hc; [|done].
  by apply check_bindings_canonical, canonical_NoDup.
Qed.

(** ** The client and the device *)

Section Agreement.
Context {W C D Q CE QE R : Type} `{!DriverChainBuffer W C CE} `{!DriverQueue Q C QE R}.
Context `{!ChainContract W C D CE} `{!QueueContract W Q C D QE CE R}.
Context {A : Accelerator} `{!BackendTyped A} {S : Type} `{ByteSinkSpec S}.
Implicit Types (w : W) (chain : C) (self : GuestClient Q C) (dev : CommandProcessor).

(** C3: guest and device speak the same protocol.  Let a client start any
    request and let the command engine process the chain: the engine answers
    with the request's identifier, and every client of the same configuration
    that sees the answer in the chain accepts it as a result of the operation.
    So a guest connected to this device never reports an invalid response.
    Discovery alone needs that the announced artifact limit fits a request. *)
Theorem guest_device_agree rq data chain w self w' self' p dev mem regions request (sink : S) dev' sink' r :
  client_inv self -> paired self dev -> engine_inv dev -> chain_good w (chain_data chain) ->
  request_typed rq -> request_data rq (request_bytes w (chain_data chain)) data ->
  start_typed rq chain w self = (w', self', Ok p) ->
  served regions request sink w' chain dev -> cm_decode mem = true ->
  (rq = GrGetDeviceInfo ->
     96 + max_artifact_bytes (info_limits (cp_info dev)) <= wc_max_request_bytes (gcf_wire (gc_config self))) ->
  process mem regions request sink dev = (dev', sink', r) ->
  exists status used res, r = Ok (OutcomeResponse (pn_request_id p) status used) /\
    forall w2 chain2 (self2 : GuestClient Q C),
      chain_good w2 (chain_data chain2) -> is_bytes (response_bytes w2 (chain_data chain2)) ->
      response_bytes w2 (chain_data chain2) = sink_content sink' -> gc_config self2 = gc_config self ->
      validate_response p w2 chain2 used self2 = Ok res.
Proof.
  intros I Hp Hinv Hg Ht Hd Hs Hv Hmem Hdisc Hproc.
  destruct (exchange _ _ _ _ _ _ _ _ _ _ _ _ _ _ _ _ I Hp Hinv Hg Ht Hd Hs Hv Hmem Hdisc Hproc)
    as (status & payload & res & Ha & Hmax & Hst & Hid & Hm).
  exists status, (16 + zlen payload), res. split; [apply Ha|]. intros w2 chain2 self2 Hg2 Hb2 Hr2 Hc2.
  pose proof (zlen_nonneg payload). pose proof (an_frame _ _ _ _ _ _ _ Ha) as Hf.
  assert (Hlen : 16 + zlen payload <= zlen (sink_content sink')).
  { pose proof (f_equal zlen Hf) as Hz. rewrite zlen_response_frame in Hz. unfold slice, zlen in Hz |- *.
    change (Z.to_nat 0) with 0%nat in Hz. rewrite drop_0, length_take in Hz. lia. }
  destruct (paired_limits _ _ Hp) as [Hl _]. pose proof (ei_response _ Hinv). rewrite (lm_response _ _ _ Hl) in *.
  apply validate_response_iff; [done|done|rewrite Hr2; lia|lia|lia|]. unfold answers.
  rewrite Hc2, Hr2. split; [done|]. by exists status, payload.
Qed.

End Agreement.

(** ** Discovery *)

(** The announcement [info] with another largest artifact. *)
Definition with_artifact_limit (artifact : Z) (info : DeviceInfo) : DeviceInfo := {|
  info_identity := info_identity info;
  info_capabilities := info_capabilities info;
  info_limits := {|
    max_contexts := max_contexts (info_limits info);
    max_buffers_per_context := max_buffers_per_context (info_limits info);
    max_programs_per_context := max_programs_per_context (info_limits info);
    max_queues_per_context := max_queues_per_context (info_limits info);
    max_events_per_context := max_events_per_context (info_limits info);
    max_bindings_per_submission := max_bindings_per_submission (info_limits info);
    max_buffer_bytes := max_buffer_bytes (info_limits info);
    max_artifact_bytes := artifact;
  |};
|}.

Lemma CommandProcessor_new_parts {A : Accelerator} (a a' : World) config namespace policy dev :
  CommandProcessor_new a config namespace policy = (a', Ok dev) ->
  WireConfig_validate config = Ok tt /\ acc_device_info a = (a', Ok (cp_info dev)) /\
  DeviceInfo_validate (cp_info dev) = Ok tt /\
  DecoderLimits_new config (cp_info dev) = Ok (fd_limits (cp_decoder dev)) /\
  DeviceState_new namespace (info_limits (cp_info dev)) policy = Ok (cp_state dev).
Proof.
  unfold CommandProcessor_new. destruct (WireConfig_validate config) as [[]|]; [|done]. cbn [map_err].
  destruct (acc_device_info a) as [a1 [info|]]; [|done]. cbn [map_err].
  destruct (DeviceInfo_validate info) as [[]|] eqn:Hv; [|done]. cbn [map_err].
  destruct (DecoderLimits_new config info) as [limits|] eqn:Hl; [|done]. cbn [map_err].
  destruct (DeviceState_new _ _ _) as [state|] eqn:Hs; [|done]. cbn [map_err]. by intros [= <- <-].
Qed.

(** C20: when discovery fails.  The device starts whatever nonzero largest
    artifact its backend announces: if it starts with one backend, it starts
    with every backend whose announcement differs in [max_artifact_bytes] only.
    The guest accepts that device's announcement exactly when the 96 bytes of
    header and prefix and the announced [max_artifact_bytes] are within the
    negotiated request limit, and otherwise refuses it for that reason. *)
Theorem discovery_artifact_limit (A B : Accelerator) (a a' : @World A) (b b' : @World B) config namespace policy dev artifact :
  CommandProcessor_new a config namespace policy = (a', Ok dev) ->
  acc_device_info b = (b', Ok (with_artifact_limit artifact (cp_info dev))) -> 0 < artifact ->
  exists dev', CommandProcessor_new b config namespace policy = (b', Ok dev') /\
    cp_info dev' = with_artifact_limit artifact (cp_info dev) /\
    GuestDeviceInfo_from_wire (wire_device_info (cp_info dev')) (wc_max_request_bytes config) =
      if 96 + artifact <=? wc_max_request_bytes config
      then Ok (info_of_wire (wire_device_info (cp_info dev'))) else Err GuestInfoArtifactLimit.
Proof.
  intros (Hc & _ & Hv & Hl & Hs)%CommandProcessor_new_parts Hb Ha.
  assert (H0 : (artifact =? 0) = false) by lia.
  assert (Hv' : DeviceInfo_validate (with_artifact_limit artifact (cp_info dev)) = Ok tt).
  { unfold DeviceInfo_validate in *. cbn. rewrite H0. repeat case_match; try done; bool_to_prop; lia. }
  assert (exists limits, DecoderLimits_new config (with_artifact_limit artifact (cp_info dev)) = Ok limits) as [limits Hl'].
  { unfold DecoderLimits_new in *. rewrite Hc in *. cbn. rewrite H0. cbn in Hl.
    repeat (case_match; [done|]). by eexists. }
  assert (exists state : DeviceState (@Context B) (@Buffer B) (@Program B) (@Queue B) (@Event B),
    DeviceState_new namespace (info_limits (with_artifact_limit artifact (cp_info dev))) policy = Ok state) as [state Hs'].
  { unfold DeviceState_new in *. cbn. rewrite H0. rewrite orb_false_r.
    destruct (_ || _) eqn:Hz in Hs; [done|]. apply orb_false_iff in Hz as [-> _].
    repeat first [case_match; [|done] | case_match; [done|]]. by eexists. }
  unfold CommandProcessor_new. rewrite Hc, Hb. cbn [map_err]. rewrite Hv'. cbn [map_err]. rewrite Hl'. cbn [map_err].
  rewrite Hs'. cbn [map_err]. eexists. split; [done|]. cbn [cp_info]. split; [done|].
  rewrite (announcement_checks _ _ _ Hl' Hv'), Z.leb_antisym. cbn [info_limits with_artifact_limit max_artifact_bytes].
  by destruct (_ <? _).
Qed.

(** ** A client at work *)

Module GuestDemo.

#[local] Existing Instance EngineDemo.backend.
#[local] Existing Instance EngineDemo.backend_typed.
#[local] Instance control : QueueControl SplitQueue SplitQueueError := split_queue_control QueueDemo.mem.

Abbreviation Client := (GuestClient SplitQueue DriverChain).

(** A chain with a 16-byte request and a 92-byte response. *)
Definition demo : Heap * list Descriptor :=
  let '(h, d0) := Descriptor_readable (replicate 16 0) ∅ in
  let '(h, d1) := Descriptor_writable (replicate 92 0) h in (h, [d0; d1]).
Definition heap : Heap := Eval vm_compute in demo.1.
Definition linked : list Descriptor := Eval vm_compute in imap (direct_link 2) demo.2.
Definition chain : DriverChain :=
  Eval vm_compute in match DriverChain_direct ChainDemo.demo_mem demo.1 demo.2 with
                     | Ok c => c | Err _ => ChainDemo.chain end.

Lemma chain_typed : Forall (descriptor_typed heap) linked.
Proof. repeat constructor; by vm_compute. Qed.

Lemma demo_chain_ok : data_ok heap (dc_data chain).
Proof.
  apply (DriverChain_raw_ok ChainDemo.demo_mem heap linked 0 chain); [apply chain_typed| |lia|by vm_compute].
  apply (bool_decide_unpack _). by vm_compute.
Qed.

Lemma chain_wf_ok : chain_wf chain.
Proof. split; [done|by vm_compute]. Qed.

Definition config : GuestConfig := {| gcf_wire := EngineDemo.config; gcf_max_inflight := 2 |}.

Definition queue0 : SplitQueue := Eval vm_compute in qw_queue QueueDemo.w2.
Definition client0 : Client := {|
  gc_queue := queue0; gc_config := config; gc_device_info := None; gc_slots := [SlotVacant; SlotVacant];
  gc_next_request_id := 1; gc_health := ClientRunning; gc_unexpected := None |}.

Lemma client0_new : GuestClient_new true queue0 config = Ok client0.
Proof. by vm_compute. Qed.

(** GET_DEVICE_INFO is started. *)
Definition started : Heap * Client * result (Pending GetDeviceInfo) (StartError DriverChain GetDeviceInfo SplitQueueError ByteAccessError) :=
  Eval vm_compute in start_typed GrGetDeviceInfo chain heap client0.
Definition heap1 : Heap := Eval vm_compute in started.1.1.
Definition client1 : Client := Eval vm_compute in started.1.2.
Definition pending1 : Pending GetDeviceInfo :=
  Eval vm_compute in match started.2 with Ok p => p | Err _ =>
    {| pn_slot := 0; pn_request_id := 0; pn_epoch := 0; pn_operation := MkGetDeviceInfo |} end.

Lemma started_ok : start_typed GrGetDeviceInfo chain heap client0 = (heap1, client1, Ok pending1).
Proof. by vm_compute. Qed.

(** The device pops the chain, answers it and completes it. *)
Definition dev : CommandProcessor (A := EngineDemo.backend EngineDemo.Releases) := EngineDemo.p0 EngineDemo.Releases.
Definition request1 : list Z := Eval vm_compute in chain_bytes heap1 (dc_data chain) false.
Definition regions : list ChainRegion := [ChainRegion_readable 16; ChainRegion_writable 92].
Definition served1 := process EngineDemo.mem regions (slice_source request1) (replicate 92 0) dev.
Definition answer1 : list Z := Eval vm_compute in served1.1.2.

Definition held1 : SplitDeviceChain := Eval vm_compute in SplitDeviceChain_new (token 1 0) (dc_data chain) 4.
Definition queue2 : SplitQueue := Eval vm_compute in (queue_run OpPopAvailable (gc_queue client1)).1.
Definition queue3 : SplitQueue := Eval vm_compute in (queue_run (OpComplete held1 92) queue2).1.
Definition heap3 : Heap := Eval vm_compute in (SplitSink_write_at 1 (sdc_sink held1) 0 answer1 heap1).1.
Definition client3 : Client := Eval vm_compute in gc_set_queue queue3 client1.

(** The guest polls. *)
Definition polled : Client * RequestPoll GetDeviceInfo DriverChain SplitQueueError ByteAccessError :=
  poll pending1 heap3 client3.
Definition client4 : Client := polled.1.

Lemma discovered : gc_device_info client4 = Some (info_of_wire (wire_device_info EngineDemo.info)).
Proof. by vm_compute. Qed.

(** ** The history *)

Abbreviation World0 := (ClientWorld (W := Heap) (C := DriverChain) (D := ChainData) (Q := SplitQueue)).

Definition x0 : World0 := {| cw_memory := heap; cw_client := client0; cw_given := []; cw_returned := []; cw_lost := [] |}.
Definition x1 : World0 := {| cw_memory := heap1; cw_client := client1; cw_given := [dc_data chain]; cw_returned := []; cw_lost := [] |}.
Definition x3 : World0 := {| cw_memory := heap3; cw_client := client3; cw_given := [dc_data chain]; cw_returned := []; cw_lost := [] |}.
Definition x4 : World0 := {| cw_memory := heap3; cw_client := client4; cw_given := [dc_data chain]; cw_returned := poll_chains polled.2; cw_lost := [] |}.

Lemma queue0_inv : queue_inv queue0 /\ queue_owned queue0 = [].
Proof.
  change (split_inv queue0 /\ queue_chains queue0 = []). split; [|by vm_compute]. destruct (reachable_ok _ QueueDemo.reach2) as [p Hp]. exists p. apply Hp.
Qed.

Lemma x0_reachable : client_reachable x0.
Proof.
  destruct queue0_inv as [Hq Ho]. apply (client_reach_new heap true queue0 config client0 Hq Ho); [done|].
  apply client0_new.
Qed.

Lemma x1_reachable : client_reachable x1.
Proof.
  eapply client_reach_step; [apply x0_reachable|].
  refine (step_start x0 GrGetDeviceInfo chain heap1 client1 _ chain_wf_ok _); by vm_compute.
Qed.

Lemma env_client_step (x : World0) op w e q :
  environment_op op = true -> op_typed op ->
  queue_run op (gc_queue (cw_client x)) = (q, e) -> dropped op e (gc_queue (cw_client x)) = [] ->
  client_step x {| cw_memory := w; cw_client := gc_set_queue q (cw_client x); cw_given := cw_given x;
    cw_returned := cw_returned x; cw_lost := cw_lost x |}.
Proof.
  intros Henv Ht Hr Hd. pose proof (step_environment x q w []) as Hs. simpl in Hs. rewrite app_nil_r in Hs. apply Hs.
  by exists op, e.
Qed.

Lemma env_step (x : World0) op w e q :
  client_reachable x -> environment_op op = true -> op_typed op ->
  queue_run op (gc_queue (cw_client x)) = (q, e) -> dropped op e (gc_queue (cw_client x)) = [] ->
  client_reachable {| cw_memory := w; cw_client := gc_set_queue q (cw_client x); cw_given := cw_given x;
    cw_returned := cw_returned x; cw_lost := cw_lost x |}.
Proof. intros Hx Henv Ht Hr Hd. eapply client_reach_step; [exact Hx|by eapply env_client_step]. Qed.

Lemma x3_reachable : client_reachable x3.
Proof.
  pose proof (env_step x1 OpPopAvailable heap1 _ queue2 x1_reachable eq_refl I ltac:(vm_compute; reflexivity) eq_refl) as H2.
  refine (env_step _ (OpComplete held1 92) heap3 (EvHint Notify) queue3 H2 eq_refl _ _ _);
    [by vm_compute..].
Qed.

Lemma x4_reachable : client_reachable x4.
Proof.
  eapply client_reach_step; [apply x3_reachable|].
  exact (step_poll x3 GetDeviceInfo _ pending1 client4 polled.2 (surjective_pairing polled)).
Qed.

Lemma client0_inv : client_inv client0.
Proof. exact (proj1 (client_reachable_ok x0 x0_reachable)). Qed.

Lemma client3_inv : client_inv client3.
Proof. exact (proj1 (client_reachable_ok x3 x3_reachable)). Qed.

Lemma client_invariant_witness : client_inv client4.
Proof. exact (client_invariant x4 x4_reachable). Defined.

Lemma guest_conserves_chains_witness :
  poll_chains polled.2 = [dc_data chain] /\ [dc_data chain] ≡ₚ cw_returned x4 ++ cw_lost x4 ++ held client4.
Proof. split; [vm_compute; reflexivity|]. exact (guest_conserves_chains x4 x4_reachable). Defined.

Lemma never_unexpected_witness : (pump client3).2 <> Ok PumpUnexpectedCompletion.
Proof. exact (proj1 (never_unexpected x3 x3_reachable)). Defined.

(** With identifier 1 in flight and the counter wrapped to it. *)
Lemma request_id_always_found_witness :
  exists id next, allocate_request_id client1 = (gc_set_next_request_id next client1, Some id) /\ 1 <= id <= U64_MAX.
Proof.
  destruct (request_id_always_found x1 x1_reachable) as (id & next & H1 & H2 & _). exists id, next. split; [exact H1|exact H2].
Defined.

Lemma device_limits_match : limits_match config None (fd_limits (cp_decoder dev)).
Proof. split; [by vm_compute|by vm_compute|done]. Qed.

Lemma request1_source : source_of (slice_source request1) (chain_bytes heap1 (dc_data chain) false).
Proof.
  assert (Hr : chain_bytes heap1 (dc_data chain) false = request1) by (by vm_compute). rewrite Hr.
  apply slice_source_of; [apply EngineDemo.bytes_check|]; by vm_compute.
Qed.

Lemma no_data : request_data GrGetDeviceInfo (chain_bytes heap (dc_data chain) false) [].
Proof. split; [constructor|done]. Qed.

Definition pending_unit : Pending unit := {| pn_slot := 0; pn_request_id := 1; pn_epoch := 1; pn_operation := tt |}.

Lemma started_unit : start_request GrGetDeviceInfo chain heap client0 = (heap1, client1, Ok pending_unit).
Proof. by vm_compute. Qed.

Lemma request_limit : dl_max_request_bytes (fd_limits (cp_decoder dev)) <= U32_MAX.
Proof. vm_compute. discriminate. Qed.

Lemma started_request_decodes_witness :
  FrameDecoder_decode true (cp_decoder dev) (slice_source request1)
    (zlen (response_bytes heap1 (chain_data chain))) =
    Ok {| dr_request_id := 1; dr_required_response_bytes := 92; dr_body := ReqGetDeviceInfo |}.
Proof.
  exact (started_request_decodes GrGetDeviceInfo [] chain heap client0 heap1 client1 pending_unit (cp_decoder dev)
    (slice_source request1) client0_inv device_limits_match request_limit demo_chain_ok I no_data started_unit request1_source).
Defined.

(** ** Answers *)

Lemma chain_ok3 : chain_good heap3 (chain_data chain).
Proof.
  apply (DriverChain_raw_ok ChainDemo.demo_mem heap3 linked 0 chain); [|by apply (bool_decide_unpack _); vm_compute|lia|by vm_compute].
  repeat constructor; by vm_compute.
Qed.

Lemma answer_bytes : is_bytes (response_bytes heap3 (chain_data chain)).
Proof. apply EngineDemo.bytes_check. by vm_compute. Qed.

Lemma answer_length : 0 <= 92 <= zlen (response_bytes heap3 (chain_data chain)).
Proof. vm_compute. split; discriminate. Qed.

Definition announced : GuestDeviceInfo := info_of_wire (wire_device_info EngineDemo.info).

Lemma validated : validate_response pending1 heap3 chain 92 client3 = Ok (OpSuccess announced).
Proof. vm_compute. reflexivity. Qed.

Lemma response_accepted_exactly_witness :
  92 <= 65536 /\ exists status payload, is_u16 status /\
    slice 0 92 (response_bytes heap3 (chain_data chain)) = response_frame status 1 payload.
Proof.
  destruct (proj1 (response_accepted_exactly (O := GetDeviceInfo) pending1 heap3 chain 92 client3 _ chain_ok3 answer_bytes
    answer_length ltac:(lia) ltac:(vm_compute; split; discriminate)) validated) as (H1 & status & payload & H2 & H3 & _).
  split; [exact H1|]. exists status, payload. split; [exact H2|exact H3].
Defined.

(** An answer to CREATE_CONTEXT in the same chain. *)
Definition pending_context : Pending CreateContext :=
  {| pn_slot := 0; pn_request_id := 1; pn_epoch := 1; pn_operation := MkCreateContext |}.
Definition heap_context : Heap :=
  Eval vm_compute in (SplitSink_write_at 1 (sdc_sink held1) 0
    (response_frame STATUS_OK 1 (as_bytes {| op_object_id := 77 |})) heap1).1.

Lemma context_chain_ok : chain_good heap_context (chain_data chain).
Proof.
  apply (DriverChain_raw_ok ChainDemo.demo_mem heap_context linked 0 chain);
    [|by apply (bool_decide_unpack _); vm_compute|lia|by vm_compute].
  repeat constructor; by vm_compute.
Qed.

Definition new_context : GuestContext := {| sh_handle := {| h_id := 77; h_epoch := 1 |}; sh_context := None |}.

Lemma context_bytes : is_bytes (response_bytes heap_context (chain_data chain)).
Proof. apply EngineDemo.bytes_check. vm_compute. reflexivity. Qed.

Lemma context_validated : validate_response pending_context heap_context chain 24 client3 = Ok (OpSuccess new_context).
Proof. vm_compute. reflexivity. Qed.

Lemma decoded_handles_typed_witness : handle_raw new_context = 77 /\ fresh_handle 1 None new_context.
Proof.
  split; [reflexivity|].
  exact (decoded_handles_typed (O := CreateContext) pending_context heap_context chain 24 client3 _ context_chain_ok
    context_bytes ltac:(vm_compute; split; discriminate) ltac:(lia) ltac:(vm_compute; split; discriminate)
    context_validated).
Defined.

Definition client_reset2 : Client := Eval vm_compute in (client_reset 2 client1).1.

Definition reclaimed2 : list (ReclaimedChain DriverChain) :=
  Eval vm_compute in match (client_reset 2 client1).2 with Ok l => l | Err _ => [] end.

Lemma reset_ok : client_reset 2 client1 = (client_reset2, Ok reclaimed2).
Proof. vm_compute. reflexivity. Qed.

(** After the reset the queue is set up again and discovery repeated. *)
Definition client5 : Client := Eval vm_compute in (reconfigure_queue 8 client_reset2).1.
Definition restarted := Eval vm_compute in start_typed GrGetDeviceInfo chain heap client5.
Definition client6 : Client := Eval vm_compute in restarted.1.2.
Definition pending6 : Pending GetDeviceInfo :=
  {| pn_slot := 0; pn_request_id := 1; pn_epoch := 2; pn_operation := MkGetDeviceInfo |}.
Definition held6 : SplitDeviceChain := Eval vm_compute in SplitDeviceChain_new (token 2 0) (dc_data chain) 4.
Definition queue7 : SplitQueue := Eval vm_compute in (queue_run OpPopAvailable (gc_queue client6)).1.
Definition queue8 : SplitQueue := Eval vm_compute in (queue_run (OpComplete held6 92) queue7).1.
Definition client8 : Client := Eval vm_compute in gc_set_queue queue8 client6.
Definition repolled : Client * RequestPoll GetDeviceInfo DriverChain SplitQueueError ByteAccessError :=
  poll pending6 heap3 client8.
Definition client9 : Client := repolled.1.

Definition y0 : World0 :=
  {| cw_memory := heap; cw_client := client_reset2; cw_given := []; cw_returned := []; cw_lost := [] |}.
Definition y9 : World0 :=
  {| cw_memory := heap3; cw_client := client9; cw_given := [dc_data chain]; cw_returned := poll_chains repolled.2; cw_lost := [] |}.

Definition y8 : World0 :=
  {| cw_memory := heap3; cw_client := client8; cw_given := [dc_data chain]; cw_returned := []; cw_lost := [] |}.

Lemma rediscovered : rtc client_step y0 y9.
Proof.
  eapply rtc_l; [refine (step_reconfigure y0 8 client5 (Ok tt) _ _); [|by vm_compute]|].
  { exists 3. split; [lia|done]. }
  eapply rtc_l; [refine (step_start _ GrGetDeviceInfo chain heap1 client6 _ chain_wf_ok _); by vm_compute|].
  eapply rtc_l.
  { refine (env_client_step _ OpPopAvailable heap1 (EvChain (Some held6)) queue7 _ _ _ _); by vm_compute. }
  apply (rtc_l _ _ y8).
  - refine (env_client_step _ (OpComplete held6 92) heap3 (EvHint Notify) queue8 _ _ _ _); by vm_compute.
  - apply rtc_once. exact (step_poll y8 GetDeviceInfo _ pending6 client9 repolled.2 (surjective_pairing repolled)).
Qed.

(** A submission of the new epoch that binds a buffer of the old one. *)
Definition new_queue : GuestExecutionQueue := {| sh_handle := {| h_id := 7; h_epoch := 2 |}; sh_context := Some 3 |}.
Definition new_program : GuestProgram := {| sh_handle := {| h_id := 8; h_epoch := 2 |}; sh_context := Some 3 |}.
Definition binding_of (epoch slot : Z) : GuestBinding :=
  {| bi_buffer := {| gb_handle := {| h_id := 9; h_epoch := epoch |}; gb_context := 3;
       gb_desc := {| gd_bytes := 64; gd_alignment := 1; gd_memory_domain := GuestHost; gd_usage := USAGE_PROGRAM_INPUT |} |};
     bi_range := {| gr_offset := 0; gr_bytes := 64 |}; bi_slot := slot; bi_access := GuestRead |}.
Definition stale_submission : GuestRequest := GrSubmit new_queue new_program [binding_of 2 0; binding_of 1 1] 0.

Lemma reset_invalidates_witness :
  poll pending1 heap3 client9 = (client9, PollStale (stale_operation pending1)) /\
  start_request stale_submission chain heap3 client9 = (heap3, client9, Err (chain, StartStaleHandle)).
Proof.
  destruct (reset_invalidates 2 client1 client_reset2 reclaimed2 y0 y9 (proj1 (client_reachable_ok x1 x1_reachable))
    ltac:(lia) reset_ok eq_refl rediscovered) as [Hp Hs]. split.
  - apply (Hp GetDeviceInfo _ pending1 heap3). vm_compute. discriminate.
  - destruct (Hs stale_submission chain heap3 1) as (kind & Hr & Hk); [simpl; set_solver|vm_compute; discriminate|].
    change (cw_client y9) with client9 in Hr. rewrite Hk in Hr; [exact Hr|]. intros _ _. split; [done|]. split.
    + eexists. split; [vm_compute; reflexivity|]. vm_compute. split; discriminate.
    + exists [binding_of 2 0], (binding_of 1 1), []. split_and!; [done|vm_compute; discriminate|vm_compute; reflexivity].
Defined.

(** The device completes the request without an answer. *)
Definition bad : Client * RequestPoll GetDeviceInfo DriverChain SplitQueueError ByteAccessError :=
  poll pending1 heap1 client3.

Definition invalid_parts (r : RequestPoll GetDeviceInfo DriverChain SplitQueueError ByteAccessError) :
  option (ResponseError ByteAccessError * GetDeviceInfo * DriverChain) :=
  match r with PollReady (CompletionInvalidResponse e op c) => Some (e, op, c) | _ => None end.

Lemma invalid_parts_Some r e op c :
  invalid_parts r = Some (e, op, c) -> r = PollReady (CompletionInvalidResponse e op c).
Proof. destruct r as [|[]| | |]; simpl; intros; by simplify_eq. Qed.

Definition bad_error : ResponseError ByteAccessError :=
  Eval vm_compute in match invalid_parts bad.2 with Some (e, _, _) => e | None => RespObjectId end.

(** The queue left its descriptor slots in the chain it hands back. *)
Definition chain3 : DriverChain := {| dc_data := dc_data chain; dc_slots := [0; 1]; dc_head := 0 |}.

Lemma bad_parts : invalid_parts bad.2 = Some (bad_error, MkGetDeviceInfo, chain3).
Proof. vm_compute. reflexivity. Qed.

Lemma bad_poll : poll pending1 heap1 client3 = (bad.1, PollReady (CompletionInvalidResponse bad_error MkGetDeviceInfo chain3)).
Proof. rewrite <- (invalid_parts_Some _ _ _ _ bad_parts). apply surjective_pairing. Qed.

Lemma invalid_response_stops_witness :
  gc_health bad.1 = ClientNeedsReset /\ pump bad.1 = (bad.1, Ok PumpNeedsReset).
Proof.
  destruct (invalid_response_stops (O := GetDeviceInfo) pending1 heap1 client3 bad.1 bad_error MkGetDeviceInfo chain3
    bad_poll) as (H1 & H2 & _). split; [exact H1|exact H2].
Defined.

Definition used3 : UsedChain DriverChain := {| uc_id := token 1 0; uc_used := 92; uc_chain := chain3 |}.

Lemma popped3 : exists q, queue_pop_used (gc_queue client3) = (q, Ok (Some used3)).
Proof. eexists. vm_compute. reflexivity. Qed.

Lemma poll_takes_own_completion_witness :
  exists self' c, poll pending1 heap3 client3 = (self', PollReady c) /\ completion_chain c = chain3 /\
    gc_slots self' = [SlotVacant; SlotVacant].
Proof.
  destruct popped3 as [q Hq].
  destruct (poll_takes_own_completion (O := GetDeviceInfo) pending1 heap3 client3 (token 1 0) q used3 client3_inv eq_refl
    eq_refl eq_refl Hq) as (j & id & Hj & Hd).
  rewrite decide_True in Hd by reflexivity. destruct Hd as (-> & self' & c & H1 & H2 & H3).
  exists self', c. split; [exact H1|split; [exact H2|rewrite H3; reflexivity]].
Defined.

(** ** The client and the device *)

Lemma client0_paired : paired client0 dev.
Proof. split; [by vm_compute|by vm_compute|apply (bool_decide_unpack _); by vm_compute|done]. Qed.

Lemma dev_inv : engine_inv dev.
Proof. exact (proj1 (processor_reachable_inv dev (EngineDemo.p0_reachable EngineDemo.Releases))). Qed.

Lemma served_dev : served regions (slice_source request1) (replicate 92 0) heap1 chain dev.
Proof.
  split; [apply request1_source|by vm_compute|by vm_compute|].
  eexists. split; [vm_compute; reflexivity|by vm_compute].
Qed.

Definition dev1 : CommandProcessor (A := EngineDemo.backend EngineDemo.Releases) := served1.1.1.

Lemma served1_eq : process EngineDemo.mem regions (slice_source request1) (replicate 92 0) dev =
  (dev1, served1.1.2, served1.2).
Proof. change (served1 = (served1.1.1, served1.1.2, served1.2)). by destruct served1 as [[]]. Qed.

Lemma answer_fits : response_bytes heap3 (chain_data chain) = served1.1.2.
Proof. vm_compute. reflexivity. Qed.

Lemma guest_device_agree_witness :
  exists status used res, served1.2 = Ok (OutcomeResponse 1 status used) /\
    validate_response pending1 heap3 chain used client3 = Ok res.
Proof.
  destruct (guest_device_agree GrGetDeviceInfo [] chain heap client0 heap1 client1 pending1 dev EngineDemo.mem regions
    (slice_source request1) (replicate 92 0) dev1 served1.1.2 served1.2 client0_inv client0_paired dev_inv demo_chain_ok I
    no_data started_ok served_dev eq_refl ltac:(intros _; vm_compute; discriminate) served1_eq)
    as (status & used & res & H1 & H2).
  exists status, used, res. split; [exact H1|].
  exact (H2 heap3 chain client3 chain_ok3 answer_bytes answer_fits eq_refl).
Defined.

(** The mock backend announces artifacts of 1 GiB: with a request limit of 64
    KiB its device starts and its announcement is refused.  The announcement of
    the demo backend is accepted. *)
Definition mock := mock_accelerator {| me_reserve := fun _ => true; me_contiguous := fun _ => None |}.

Definition mock_boot := CommandProcessor_new (A := mock) MockAccelerator_default EngineDemo.config 1 StateFacts.Demo.policy.

Lemma mock_boots : exists m, mock_boot = (MockAccelerator_default, Ok m).
Proof.
  assert (H1 : mock_boot.1 = MockAccelerator_default) by (vm_compute; reflexivity).
  assert (H2 : is_ok mock_boot.2 = true) by (vm_compute; reflexivity).
  destruct mock_boot as [w [m|]]; [|done]. exists m. simpl in H1. by subst.
Qed.

Lemma discovery_artifact_limit_witness :
  (exists dev', CommandProcessor_new (A := mock) MockAccelerator_default EngineDemo.config 1
     StateFacts.Demo.policy = (MockAccelerator_default, Ok dev') /\
     GuestDeviceInfo_from_wire (wire_device_info (cp_info dev')) 65536 = Err GuestInfoArtifactLimit) /\
  exists dev', CommandProcessor_new (A := EngineDemo.backend EngineDemo.Releases) 0%nat EngineDemo.config 1
     StateFacts.Demo.policy = (1%nat, Ok dev') /\
     GuestDeviceInfo_from_wire (wire_device_info (cp_info dev')) 65536 = Ok announced.
Proof.
  split.
  - destruct mock_boots as [m Hm]. pose proof (CommandProcessor_new_parts _ _ _ _ _ _ Hm) as (_ & [= Hi] & _).
    destruct (discovery_artifact_limit mock mock MockAccelerator_default MockAccelerator_default MockAccelerator_default
      MockAccelerator_default EngineDemo.config 1 StateFacts.Demo.policy m (Z.shiftl 1 30) Hm) as (d & Hd & _ & Hg).
    + rewrite <- Hi. reflexivity.
    + reflexivity.
    + exists d. split; [exact Hd|exact Hg].
  - assert (Hdev : CommandProcessor_new (A := EngineDemo.backend EngineDemo.Releases) 0%nat EngineDemo.config 1
      StateFacts.Demo.policy = (1%nat, Ok dev)) by (vm_compute; reflexivity).
    destruct (discovery_artifact_limit (EngineDemo.backend EngineDemo.Releases) (EngineDemo.backend EngineDemo.Releases) 0%nat 1%nat 0%nat 1%nat EngineDemo.config 1 StateFacts.Demo.policy dev 4096 Hdev)
      as (d & Hd & Hi & Hg).
    + vm_compute. reflexivity.
    + reflexivity.
    + exists d. split; [exact Hd|]. refine (eq_trans Hg _). rewrite Hi. vm_compute. reflexivity.
Defined.

End GuestDemo.
