(* ===== verification/MockFacts.v ===== *)
(** * Facts about the mock backend

    The byte loops of an invocation against their meaning, the reference
    artifact, transfers in chunks, and how the backend's world evolves. *)

From Stdlib Require Import ZArith Lia.
From stdpp Require Import prelude list gmap.
From S2P Require Import Prelude Core Mock.

(** ** Byte loops *)

(** [slice] and [splice] by index. *)
Lemma lookup_slice {A} off len (l : list A) (i : nat) :
  0 <= off -> slice off len l !! i = if decide (Z.of_nat i < len) then l !! (Z.to_nat off + i)%nat else None.
Proof.
  intros Ho. unfold slice. case_decide as Hi.
  - rewrite lookup_take_lt by lia. by rewrite lookup_drop.
  - by rewrite lookup_take_ge by lia.
Qed.

(** A slice of [n] bytes inside its cell. *)
Definition slice_ok (cells : Cells) (s : BufferSlice) : Prop :=
  exists bytes, cells !! bs_data s = Some bytes /\ 0 <= bs_start s <= bs_end s /\ bs_end s <= zlen bytes.

Definition sliced (cells : Cells) (s : BufferSlice) : list Z :=
  slice (bs_start s) (bs_end s - bs_start s) (default [] (cells !! bs_data s)).

Definition replace (cells : Cells) (s : BufferSlice) (content : list Z) : Cells :=
  <[bs_data s := splice (bs_start s) content (default [] (cells !! bs_data s))]> cells.

Lemma store_spec a i byte cells bytes :
  cells !! a = Some bytes -> (i < length bytes)%nat ->
  store a i byte cells = Some (<[a := <[i := byte]> bytes]> cells).
Proof. intros Ha Hi. unfold store. by rewrite Ha, decide_True. Qed.

(** The loop over [indices] when no byte is read after it was overwritten:
    every listed position of the target gets the source's original byte. *)
Lemma copy_bytes_spec source target indices cells sb tb :
  cells !! bs_data source = Some sb -> cells !! bs_data target = Some tb -> NoDup indices ->
  (forall i, i ∈ indices -> (Z.to_nat (bs_start source) + i < length sb)%nat /\ (Z.to_nat (bs_start target) + i < length tb)%nat) ->
  (bs_data source = bs_data target ->
   forall k l i, indices = k ++ i :: l -> forall j, j ∈ l ->
     (Z.to_nat (bs_start target) + i <> Z.to_nat (bs_start source) + j)%nat) ->
  exists tb', copy_bytes indices source target cells = Some (<[bs_data target := tb']> cells) /\
    length tb' = length tb /\
    (forall i, i ∈ indices -> tb' !! (Z.to_nat (bs_start target) + i)%nat = sb !! (Z.to_nat (bs_start source) + i)%nat) /\
    (forall p, (forall i, i ∈ indices -> p <> (Z.to_nat (bs_start target) + i)%nat) -> tb' !! p = tb !! p).
Proof.
  revert cells sb tb. induction indices as [|i indices IH]; intros cells sb tb Hs Ht Hnd Hin Hread.
  { exists tb. simpl. rewrite insert_id by done. split_and!; try done. intros i Hi. by apply elem_of_nil in Hi. }
  destruct (Hin i ltac:(set_solver)) as [His Hit]. apply NoDup_cons in Hnd as [Hni Hnd].
  destruct (lookup_lt_is_Some_2 sb _ His) as [byte Hbyte].
  cbn [copy_bytes]. unfold load at 1. rewrite Hs. cbn [mbind option_bind]. rewrite Hbyte. cbn [mbind option_bind].
  rewrite (store_spec _ _ _ _ tb) by done. cbn [mbind option_bind].
  set (tb1 := <[(Z.to_nat (bs_start target) + i)%nat := byte]> tb).
  set (sb1 := if decide (bs_data source = bs_data target) then tb1 else sb).
  destruct (IH (<[bs_data target := tb1]> cells) sb1 tb1) as (tb' & Hc & Hl & Hcopied & Hrest).
  - subst sb1. case_decide as He; [rewrite He; apply lookup_insert_eq|by rewrite lookup_insert_ne].
  - apply lookup_insert_eq.
  - done.
  - intros j Hj. destruct (Hin j ltac:(set_solver)) as [Hjs Hjt]. unfold sb1, tb1. rewrite length_insert. split; [|done].
    case_decide as He; [|done]. rewrite length_insert. rewrite He, Ht in Hs. by injection Hs as ->.
  - intros He k l j Hk. apply (Hread He (i :: k)). by rewrite Hk.
  - exists tb'. split; [by rewrite Hc, insert_insert_eq|]. split; [by rewrite Hl; apply length_insert|]. split.
    + intros j Hj. apply elem_of_cons in Hj as [->|Hj].
      * rewrite Hrest, Hbyte; [by apply list_lookup_insert_eq|]. intros j Hj Heq. assert (i = j) by lia. by subst.
      * rewrite Hcopied by done. unfold sb1. case_decide as He; [|done].
        unfold tb1. rewrite list_lookup_insert_ne; [|by apply (Hread He [] indices)].
        rewrite He, Ht in Hs. by injection Hs as ->.
    + intros p Hp. rewrite Hrest; [|intros j Hj; apply Hp; set_solver]. unfold tb1.
      rewrite list_lookup_insert_ne; [done|]. intros Heq. apply (Hp i); [set_solver|done].
Qed.

(** An invocation that copies all of a range, in either direction. *)
Lemma copied_range (source target : BufferSlice) (sb tb tb' : list Z) :
  0 <= bs_start source -> 0 <= bs_start target -> bs_end source <= zlen sb -> bs_start source <= bs_end source ->
  bs_end target <= zlen tb -> bs_end source - bs_start source = bs_end target - bs_start target ->
  length tb' = length tb ->
  (forall i, (i < slice_len source)%nat ->
     tb' !! (Z.to_nat (bs_start target) + i)%nat = sb !! (Z.to_nat (bs_start source) + i)%nat) ->
  (forall p, (forall i, (i < slice_len source)%nat -> p <> (Z.to_nat (bs_start target) + i)%nat) -> tb' !! p = tb !! p) ->
  tb' = splice (bs_start target) (slice (bs_start source) (bs_end source - bs_start source) sb) tb.
Proof.
  unfold slice_len, zlen. intros Hs0 Ht0 Hs Hse Ht Hlen Hl Hin Hout. apply list_eq. intros p.
  assert (Hzl : zlen (slice (bs_start source) (bs_end source - bs_start source) sb) = bs_end source - bs_start source).
  { apply zlen_slice; unfold zlen; lia. }
  rewrite lookup_splice by (rewrite ?Hzl; unfold zlen; lia). rewrite Hzl.
  destruct (decide (bs_start target <= Z.of_nat p < bs_end target)) as [Hp|Hp].
  - replace p with (Z.to_nat (bs_start target) + (p - Z.to_nat (bs_start target)))%nat at 1 by lia.
    rewrite Hin by lia.
    repeat case_decide; try lia. rewrite lookup_slice by lia. rewrite decide_True by lia. done.
  - rewrite Hout by lia. repeat case_decide; try lia; done.
Qed.

Lemma seq_split (n : nat) k l (i j : nat) : seq 0 n = k ++ i :: l -> j ∈ l -> (i < j)%nat.
Proof.
  intros He Hj. apply list_elem_of_lookup in Hj as [m Hm].
  assert (Hi : seq 0 n !! length k = Some i) by (rewrite He; by apply list_lookup_middle).
  assert (Hj : seq 0 n !! (length k + S m)%nat = Some j).
  { rewrite He, lookup_app_r by lia. replace (length k + S m - length k)%nat with (S m) by lia. done. }
  apply lookup_seq in Hi, Hj. lia.
Qed.

Lemma rev_seq_split (n : nat) k l (i j : nat) : rev (seq 0 n) = k ++ i :: l -> j ∈ l -> (j < i)%nat.
Proof.
  intros He Hj. apply (f_equal (@rev nat)) in He. rewrite rev_involutive, rev_app_distr in He. simpl in He.
  rewrite <- app_assoc in He. apply list_elem_of_In, in_rev, list_elem_of_In in Hj.
  apply list_elem_of_split in Hj as (l1 & l2 & Hl). rewrite Hl, <- app_assoc in He. simpl in He.
  apply (seq_split n l1 (l2 ++ i :: rev k) j i He). set_solver.
Qed.

Lemma elem_of_rev_seq (n i : nat) : i ∈ rev (seq 0 n) <-> (i < n)%nat.
Proof. rewrite list_elem_of_In, <- in_rev, in_seq. lia. Qed.

Lemma elem_of_seq0 (n i : nat) : i ∈ seq 0 n <-> (i < n)%nat.
Proof. rewrite elem_of_seq. lia. Qed.

(** Copying is what [memmove] does: the target's range becomes the bytes the
    source's range held before, also when the two overlap. *)
Lemma execute_copy source target cells :
  slice_ok cells source -> slice_ok cells target ->
  bs_end source - bs_start source = bs_end target - bs_start target ->
  execute (InvCopy source target) cells = Some (replace cells target (sliced cells source)).
Proof.
  intros (sb & Hs & Hs0 & Hsl) (tb & Ht & Ht0 & Htl) Hlen. unfold execute, replace, sliced. rewrite Hs, Ht. simpl default.
  assert (Hin : forall i, (i < slice_len source)%nat -> (Z.to_nat (bs_start source) + i < length sb)%nat /\
    (Z.to_nat (bs_start target) + i < length tb)%nat) by (unfold slice_len, zlen in *; lia).
  destruct (_ && _) eqn:Hrev.
  - bool_to_prop. destruct (copy_bytes_spec source target (rev (seq 0 (slice_len source))) cells sb tb Hs Ht)
      as (tb' & -> & Hl & Hc & Hr).
    + apply NoDup_ListNoDup, List.NoDup_rev, seq_NoDup.
    + intros i Hi%elem_of_rev_seq. by apply Hin.
    + intros _ k l i He j Hj. pose proof (rev_seq_split _ _ _ _ _ He Hj). lia.
    + do 2 f_equal. eapply copied_range; try done; try lia.
      * intros i Hi. by apply Hc, elem_of_rev_seq.
      * intros p Hp. apply Hr. intros i Hi%elem_of_rev_seq. by apply Hp.
  - destruct (copy_bytes_spec source target (seq 0 (slice_len source)) cells sb tb Hs Ht)
      as (tb' & -> & Hl & Hc & Hr).
    + apply NoDup_ListNoDup, seq_NoDup.
    + intros i Hi%elem_of_seq0. by apply Hin.
    + intros He k l i Hk j Hj. pose proof (seq_split _ _ _ _ _ Hk Hj).
      assert (j < slice_len source)%nat by (apply elem_of_seq0; rewrite Hk; set_solver).
      rewrite He, Z.eqb_refl in Hrev. simpl in Hrev. unfold slice_len in *. bool_to_prop. lia.
    + do 2 f_equal. eapply copied_range; try done; try lia.
      * intros i Hi. by apply Hc, elem_of_seq0.
      * intros p Hp. apply Hr. intros i Hi%elem_of_seq0. by apply Hp.
Qed.

(** The loops that change each byte of the target. *)
Lemma change_bytes_spec f target n m cells tb :
  cells !! bs_data target = Some tb -> 0 <= bs_start target -> bs_start target + Z.of_nat (n + m) <= zlen tb ->
  change_bytes f (seq n m) target cells =
    Some (<[bs_data target := splice (bs_start target + Z.of_nat n)
      (f <$> slice (bs_start target + Z.of_nat n) (Z.of_nat m) tb) tb]> cells).
Proof.
  revert n cells tb. induction m as [|m IH]; intros n cells tb Ht H0 Hle.
  { cbn [seq change_bytes]. change (f <$> _) with (@nil Z). rewrite splice_nil. by rewrite insert_id. }
  cbn [seq change_bytes]. unfold load at 1. rewrite Ht. cbn [mbind option_bind].
  destruct (lookup_lt_is_Some_2 tb (Z.to_nat (bs_start target) + n)) as [b Hb]; [unfold zlen in *; lia|].
  rewrite Hb. cbn [mbind option_bind]. rewrite (store_spec _ _ _ _ tb) by (done || (unfold zlen in *; lia)).
  cbn [mbind option_bind]. rewrite (IH (S n) _ (<[(Z.to_nat (bs_start target) + n)%nat := f b]> tb));
    [|apply lookup_insert_eq|done|unfold zlen in *; rewrite length_insert; lia].
  rewrite insert_insert_eq. do 2 f_equal. apply list_eq. intros p.
  assert (Hz1 : zlen (f <$> slice (bs_start target + Z.of_nat (S n)) (Z.of_nat m)
     (<[(Z.to_nat (bs_start target) + n)%nat := f b]> tb)) = Z.of_nat m).
  { unfold zlen at 1. rewrite length_fmap. apply zlen_slice; try lia. unfold zlen in *. rewrite length_insert. lia. }
  assert (Hz2 : zlen (f <$> slice (bs_start target + Z.of_nat n) (Z.of_nat (S m)) tb) = Z.of_nat (S m)).
  { unfold zlen at 1. rewrite length_fmap. apply zlen_slice; unfold zlen in *; lia. }
  rewrite !lookup_splice by (rewrite ?Hz1, ?Hz2; unfold zlen in *; rewrite ?length_insert; lia). rewrite Hz1, Hz2.
  rewrite !list_lookup_fmap, !lookup_slice by lia.
  destruct (decide (p = Z.to_nat (bs_start target) + n)%nat) as [->|Hp].
  - rewrite decide_False, decide_True by lia. rewrite list_lookup_insert_eq by (unfold zlen in *; lia).
    rewrite decide_True by lia.
    replace (Z.to_nat (bs_start target + Z.of_nat n) + (Z.to_nat (bs_start target) + n - Z.to_nat (bs_start target + Z.of_nat n)))%nat
      with (Z.to_nat (bs_start target) + n)%nat by lia. by rewrite Hb.
  - rewrite !list_lookup_insert_ne by lia. repeat case_decide; try lia; [|done]. do 2 f_equal. lia.
Qed.

Lemma execute_change f target cells :
  slice_ok cells target ->
  change_bytes f (seq 0 (slice_len target)) target cells = Some (replace cells target (f <$> sliced cells target)).
Proof.
  intros (tb & Ht & Ht0 & Htl). unfold replace, sliced, slice_len. rewrite Ht. simpl default.
  rewrite (change_bytes_spec f target 0 _ cells tb) by (done || lia).
  rewrite Z.add_0_r, Z2Nat.id by lia. done.
Qed.

(** ** The reference artifact *)

(** What the builders make of an operation, and the operations they accept. *)
Definition artifact_of (op : MockOperation) : list Z :=
  match op with
  | MopBarrier slot => ReferenceArtifact_barrier slot
  | MopCopy source_slot target_slot => ReferenceArtifact_new OP_COPY source_slot target_slot 0
  | MopFill target_slot value => ReferenceArtifact_fill target_slot value
  | MopXor target_slot value => ReferenceArtifact_xor target_slot value
  end.

Definition operation_ok (op : MockOperation) : Prop :=
  match op with
  | MopBarrier slot => is_u32 slot
  | MopCopy source_slot target_slot => is_u32 source_slot /\ is_u32 target_slot /\ source_slot <> target_slot
  | MopFill target_slot value | MopXor target_slot value => is_u32 target_slot /\ is_u8 value
  end.

Lemma artifact_layout opcode first second operand :
  ReferenceArtifact_new opcode first second operand =
    MAGIC ++ [VERSION_MAJOR; VERSION_MINOR; opcode; BINDING_ABI_VERSION] ++ le_bytes 4 first ++ le_bytes 4 second ++
    [operand; 0; 0; 0; 0; 0; 0; 0].
Proof. reflexivity. Qed.

Lemma le4_list first : exists a b c d, le_bytes 4 first = [a; b; c; d].
Proof. by do 4 eexists. Qed.

(** Decoding reads the fields back. *)
Lemma decode_artifact opcode first second operand payload :
  is_u8 opcode -> is_u32 first -> is_u32 second -> is_u8 operand ->
  source_of payload (ReferenceArtifact_new opcode first second operand) ->
  reference_decode payload =
    if (opcode =? OP_BARRIER) && ((second =? UNUSED_SLOT) && (operand =? 0)) then Ok (MopBarrier first)
    else if (opcode =? OP_COPY) && (negb (first =? second) && (operand =? 0)) then Ok (MopCopy first second)
    else if (opcode =? OP_FILL) && (second =? UNUSED_SLOT) then Ok (MopFill first operand)
    else if (opcode =? OP_XOR) && (second =? UNUSED_SLOT) then Ok (MopXor first operand)
    else if (opcode =? OP_BARRIER) || (opcode =? OP_COPY) || (opcode =? OP_FILL) || (opcode =? OP_XOR)
    then Err BeInvalidArgument else Err BeUnsupported.
Proof.
  intros Ho Hf Hs Hp Hsrc. unfold reference_decode. rewrite (so_len _ _ Hsrc), artifact_layout.
  destruct (le4_list first) as (f1 & f2 & f3 & f4 & Hf4), (le4_list second) as (s1 & s2 & s3 & s4 & Hs4).
  rewrite artifact_layout, Hf4, Hs4 in *. cbn [negb].
  rewrite (so_read _ _ Hsrc 0 ARTIFACT_BYTES) by done.
  cbn [slice Z.to_nat ARTIFACT_BYTES Pos.to_nat Pos.iter_op Nat.add drop take app MAGIC].
  assert (Hfv : le_value [f1; f2; f3; f4] = first) by (rewrite <- Hf4; apply le_value_bytes; change (256 ^ Z.of_nat 4) with 4294967296; lia).
  assert (Hsv : le_value [s1; s2; s3; s4] = second) by (rewrite <- Hs4; apply le_value_bytes; change (256 ^ Z.of_nat 4) with 4294967296; lia).
  unfold slice. simpl take. simpl drop. rewrite Hfv, Hsv. reflexivity.
Qed.

(** A decodable payload is one of the builders' artifacts. *)
Lemma decode_envelope payload bytes op :
  source_of payload bytes -> reference_decode payload = Ok op ->
  exists opcode first second operand,
    is_u8 opcode /\ is_u32 first /\ is_u32 second /\ is_u8 operand /\
    bytes = ReferenceArtifact_new opcode first second operand.
Proof.
  intros Hsrc Hd. pose proof (so_bytes _ _ Hsrc) as Hb. unfold reference_decode in Hd.
  rewrite (so_len _ _ Hsrc) in Hd. destruct (Z.eqb_spec (zlen bytes) ARTIFACT_BYTES) as [Hl|]; [|done]. cbn [negb] in Hd.
  rewrite (so_read _ _ Hsrc 0 ARTIFACT_BYTES) in Hd by (rewrite ?Hl; done).
  replace (slice 0 ARTIFACT_BYTES bytes) with bytes in Hd by (rewrite <- Hl; by rewrite slice_all).
  destruct (bool_decide_reflect (slice 0 4 bytes = MAGIC)) as [Hm|]; [|done]. cbn [negb] in Hd.
  unfold zlen in Hl. change ARTIFACT_BYTES with 24 in Hl. clear Hsrc.
  do 24 (destruct bytes as [|? bytes]; [discriminate Hl|]). destruct bytes; [|simpl in Hl; lia].
  unfold slice in Hm. simpl take in Hm. simpl drop in Hm. injection Hm as -> -> -> ->.
  unfold artifact_byte in Hd. cbn [default from_option lookup list_lookup drop existsb] in Hd. change @id with (fun A (x : A) => x) in Hd. cbn beta in Hd.
  destruct (_ || _) eqn:Hver in Hd; [done|]. destruct (_ || _) eqn:Hz in Hd; [done|]. clear Hd.
  bool_to_prop. repeat match goal with H : negb _ = false |- _ => apply negb_false_iff, Z.eqb_eq in H end.
  subst. repeat (apply Forall_cons in Hb as [? Hb]).
  exists z5, (le_value [z7; z8; z9; z10]), (le_value [z11; z12; z13; z14]), z15.
  assert (Hv : forall a b c d, is_u8 a -> is_u8 b -> is_u8 c -> is_u8 d -> is_u32 (le_value [a; b; c; d])).
  { intros a b c d ? ? ? ?. pose proof (le_value_bound [a; b; c; d] ltac:(repeat constructor; lia)) as Hv.
    cbn [length Z.of_nat Pos.of_succ_nat Pos.succ] in Hv. lia. }
  split_and!; try lia; try (by apply Hv).
  rewrite artifact_layout, !(le_bytes_value [_; _; _; _]) by (repeat constructor; lia). done.
Qed.

Lemma decode_exact payload bytes op :
  source_of payload bytes -> reference_decode payload = Ok op <-> operation_ok op /\ bytes = artifact_of op.
Proof.
  intros Hsrc. split.
  - intros Hd. destruct (decode_envelope _ _ _ Hsrc Hd) as (opcode & first & second & operand & Ho & Hf & Hs & Hp & ->).
    rewrite (decode_artifact opcode first second operand) in Hd by done.
    repeat case_match; bool_to_prop; simplify_eq; try done; simpl; split_and!; try done; try lia.
  - intros [Hop ->]. destruct op; simpl in *.
    + unfold ReferenceArtifact_barrier in Hsrc. rewrite (decode_artifact OP_BARRIER slot UNUSED_SLOT 0) by done. done.
    + destruct Hop as (? & ? & Hne). rewrite (decode_artifact OP_COPY source_slot target_slot 0) by done.
      by rewrite (proj2 (Z.eqb_neq _ _) Hne).
    + destruct Hop. rewrite (decode_artifact OP_FILL target_slot UNUSED_SLOT value) by done. done.
    + destruct Hop. rewrite (decode_artifact OP_XOR target_slot UNUSED_SLOT value) by done. done.
Qed.

(** ** Transfers *)

Lemma chunks_enough bytes copied :
  0 <= copied <= bytes -> bytes - copied <= TRANSFER_CHUNK_BYTES * Z.of_nat (chunks (bytes - copied)).
Proof.
  unfold chunks, TRANSFER_CHUNK_BYTES. intros H.
  rewrite Z2Nat.id by (pose proof (Z.div_pos (bytes - copied) 256); lia).
  pose proof (Z.mod_pos_bound (bytes - copied) 256). pose proof (Z_div_mod_eq_full (bytes - copied) 256). lia.
Qed.

Lemma splice_twice {A} off n m (content l : list A) :
  0 <= off -> 0 <= n -> 0 <= m -> n + m <= zlen content -> off + zlen content <= zlen l ->
  splice (off + n) (slice n m content) (splice off (slice 0 n content) l) = splice off (slice 0 (n + m) content) l.
Proof.
  intros H0 Hn Hm Hc Hl.
  assert (H1 : zlen (slice 0 n content) = n) by (apply zlen_slice; lia).
  assert (H2 : zlen (slice n m content) = m) by (apply zlen_slice; lia).
  assert (H3 : zlen (slice 0 (n + m) content) = n + m) by (apply zlen_slice; lia).
  assert (Hs : slice 0 (n + m) content = slice 0 n content ++ slice n m content).
  { pose proof (slice_app 0 n m content) as Ha. rewrite Z.add_0_l in Ha. symmetry. apply Ha; lia. }
  rewrite Hs, <- splice_app by lia. by rewrite H1.
Qed.

Lemma write_chunks_spec data content start target fuel copied :
  source_of data content -> 0 <= start -> start + zlen content <= zlen target -> 0 <= copied <= zlen content ->
  zlen content - copied <= TRANSFER_CHUNK_BYTES * Z.of_nat fuel ->
  write_chunks fuel data start (zlen content) copied (splice start (slice 0 copied content) target) =
    (splice start content target, Ok tt).
Proof.
  intros Hsrc Hst Hfit. revert copied. induction fuel as [|fuel IH]; intros copied Hc Hf; cbn [write_chunks].
  { replace copied with (zlen content) by (unfold TRANSFER_CHUNK_BYTES in *; lia). by rewrite Z.leb_refl, slice_all. }
  destruct (Z.leb_spec (zlen content) copied).
  { replace copied with (zlen content) by lia. by rewrite slice_all. }
  unfold TRANSFER_CHUNK_BYTES in *. set (n := Z.min (zlen content - copied) 256).
  rewrite (so_read _ _ Hsrc copied n) by lia. rewrite splice_twice by lia. apply IH; lia.
Qed.

(** A write is the same through the contiguous view and in chunks. *)
Lemma mock_write_spec buffer offset data content w :
  source_of data content -> 0 <= offset <= U64_MAX -> zlen content <> 0 ->
  bits_contains (bd_usage (mb_desc buffer)) TRANSFER_DESTINATION = true -> zlen (cell (mb_data buffer) w) <= USIZE_MAX ->
  mock_write_buffer buffer offset data w =
    if offset + zlen content <=? zlen (cell (mb_data buffer) w)
    then (mw_set_cells (alter (splice offset content) (mb_data buffer) (mw_cells w)) w, (buffer, Ok tt))
    else (w, (buffer, Err BeOutOfBounds)).
Proof.
  intros Hsrc Ho Hne Hu Hcell. unfold mock_write_buffer. rewrite Hu, (so_len _ _ Hsrc). cbn [negb].
  pose proof (so_fits _ _ Hsrc). pose proof (zlen_nonneg content). unfold try_from at 1. rewrite (proj2 (Z.leb_le _ _)) by lia. cbn [ok_or].
  rewrite (proj2 (Z.eqb_neq _ _) Hne). unfold mock_checked_range, try_from. rewrite (proj2 (Z.leb_le offset _)) by lia. cbn [ok_or].
  unfold checked_add.
  assert (Hid : mw_set_cells (alter (fun _ => cell (mb_data buffer) w) (mb_data buffer) (mw_cells w)) w = w).
  { unfold mw_set_cells, cell. destruct w as [a b cells c d]. simpl. f_equal. destruct (cells !! mb_data buffer) as [l|] eqn:Hl; simpl.
    - apply map_eq. intros k. destruct (decide (k = mb_data buffer)) as [->|]; [by rewrite lookup_alter_eq, Hl|by rewrite lookup_alter_ne].
    - apply map_eq. intros k. destruct (decide (k = mb_data buffer)) as [->|]; [by rewrite lookup_alter_eq, Hl|by rewrite lookup_alter_ne]. }
  destruct (Z.leb_spec (offset + zlen content) (zlen (cell (mb_data buffer) w))) as [Hle|Hgt].
  2:{ destruct (_ <=? U64_MAX); [|by rewrite Hid]. rewrite (proj2 (Z.leb_gt _ _)) by lia. by rewrite Hid. }
  rewrite (proj2 (Z.leb_le (offset + zlen content) U64_MAX)) by lia. rewrite (proj2 (Z.leb_le (offset + zlen content) (zlen _))) by lia.
  cbn [fst snd].
  assert (Hw : match src_as_contiguous data with
    | Some source => if negb (zlen source =? zlen content) then (cell (mb_data buffer) w, Err BeInvalidArgument)
                     else (splice offset source (cell (mb_data buffer) w), Ok tt)
    | None => write_chunks (chunks (zlen content)) data offset (zlen content) 0 (cell (mb_data buffer) w)
    end = (splice offset content (cell (mb_data buffer) w), Ok tt)).
  { destruct (src_as_contiguous data) as [c|] eqn:Hcont.
    - rewrite (so_contiguous _ _ Hsrc _ Hcont), Z.eqb_refl. done.
    - rewrite <- (write_chunks_spec data content offset (cell (mb_data buffer) w) (chunks (zlen content)) 0); try done; try lia.
      + change (slice 0 0 content) with (@nil Z); by rewrite splice_nil.
      + rewrite <- (Z.sub_0_r (zlen content)) at 2. apply chunks_enough. lia. }
  rewrite Hw. unfold cell. do 2 f_equal. apply map_eq. intros k.
  destruct (decide (k = mb_data buffer)) as [->|]; [|by rewrite !lookup_alter_ne].
  rewrite !lookup_alter_eq. by destruct (mw_cells w !! _).
Qed.

Section Reads.
Context {S : Type} `{ByteSinkSpec S}.

Lemma read_chunks_spec source start w fuel copied bytes (s : S) :
  sink_inv s -> zlen (sink_content s) = bytes -> 0 <= start -> start + bytes <= zlen source -> 0 <= copied <= bytes ->
  bytes - copied <= TRANSFER_CHUNK_BYTES * Z.of_nat fuel ->
  slice 0 copied (sink_content s) = slice start copied source ->
  exists s', run_sink (read_chunks fuel source start bytes copied w) s = (s', (w, Ok tt)) /\ sink_inv s' /\
    sink_content s' = slice start bytes source.
Proof.
  revert copied s. induction fuel as [|fuel IH]; intros copied s Hi Hl Hst Hfit Hc Hf Hdone; cbn [read_chunks].
  { assert (copied = bytes) as -> by (unfold TRANSFER_CHUNK_BYTES in *; lia). rewrite Z.leb_refl.
    exists s. split_and!; try done. by rewrite <- Hdone, <- Hl, slice_all. }
  destruct (Z.leb_spec bytes copied).
  { assert (copied = bytes) as -> by lia. exists s. split_and!; try done. by rewrite <- Hdone, <- Hl, slice_all. }
  unfold TRANSFER_CHUNK_BYTES in *. set (n := Z.min (bytes - copied) 256). cbn [run_sink].
  assert (Hz : zlen (slice (start + copied) n source) = n) by (apply zlen_slice; lia).
  rewrite Z2N.id by lia.
  destruct (sink_write_ok copied (slice (start + copied) n source) s Hi) as (s1 & -> & Hi1 & Hc1); [lia|lia|].
  apply IH; try done; try lia.
  - rewrite Hc1, zlen_splice by lia. done.
  - pose proof (slice_app start copied n source) as Hsrc. rewrite <- Hsrc by lia.
    pose proof (slice_app 0 copied n (sink_content s1)) as Hsnk. rewrite Z.add_0_l in Hsnk. rewrite <- Hsnk by lia.
    rewrite Hc1. f_equal; [rewrite slice_splice_ne by lia; done|].
    rewrite <- Hz at 1. by rewrite slice_splice_eq by lia.
Qed.

(** A read is the same through the contiguous view and in chunks. *)
Lemma mock_read_spec env buffer offset w (s : S) :
  sink_inv s -> 0 <= offset <= U64_MAX -> zlen (sink_content s) <> 0 ->
  bits_contains (bd_usage (mb_desc buffer)) TRANSFER_SOURCE = true -> zlen (cell (mb_data buffer) w) <= USIZE_MAX ->
  me_contiguous env (zlen (sink_content s)) = None \/ me_contiguous env (zlen (sink_content s)) = Some (zlen (sink_content s)) ->
  let '(s', (w', r)) := run_sink (mock_read_buffer env buffer offset (zlen (sink_content s)) w) s in
  w' = w /\
  if offset + zlen (sink_content s) <=? zlen (cell (mb_data buffer) w)
  then r = Ok tt /\ sink_inv s' /\ sink_content s' = slice offset (zlen (sink_content s)) (cell (mb_data buffer) w)
  else r = Err BeOutOfBounds /\ s' = s.
Proof.
  intros Hi Ho Hne Hu Hcell Henv. unfold mock_read_buffer. rewrite Hu. cbn [negb].
  pose proof (sink_fits _ Hi). pose proof (zlen_nonneg (sink_content s)). set (n := zlen (sink_content s)) in *.
  unfold try_from at 1. rewrite (proj2 (Z.leb_le n _)) by lia. cbn [ok_or]. rewrite (proj2 (Z.eqb_neq _ _) Hne).
  unfold mock_checked_range, try_from. rewrite (proj2 (Z.leb_le offset _)) by lia. cbn [ok_or]. unfold checked_add.
  destruct (Z.leb_spec (offset + n) (zlen (cell (mb_data buffer) w))) as [Hle|Hgt].
  2:{ destruct (_ <=? U64_MAX); [|done]. rewrite (proj2 (Z.leb_gt _ _)) by lia. done. }
  rewrite (proj2 (Z.leb_le (offset + n) U64_MAX)) by lia. rewrite (proj2 (Z.leb_le (offset + n) (zlen _))) by lia. cbn [fst snd].
  destruct Henv as [->| ->].
  - destruct (read_chunks_spec (cell (mb_data buffer) w) offset w (chunks n) 0 n s) as (s' & -> & ? & ?); try done; try lia.
    pose proof (chunks_enough n 0) as Hce. rewrite Z.sub_0_r in Hce |- *. apply Hce. lia.
  - rewrite Z.eqb_refl. cbn [negb run_sink]. change (Z.of_N 0) with 0.
    assert (Hz : zlen (slice offset n (cell (mb_data buffer) w)) = n) by (apply zlen_slice; lia).
    destruct (sink_write_ok 0 (slice offset n (cell (mb_data buffer) w)) s Hi) as (s' & -> & Hi' & Hc'); [lia|rewrite Hz; unfold n; lia|].
    split_and!; try done. rewrite Hc'. unfold splice. rewrite drop_ge; [by rewrite app_nil_r|].
    unfold zlen in Hz, n |- *. lia.
Qed.

End Reads.

(** ** How the world evolves *)

(** One call of the contract or of the harness; the calls left out do not
    change the world. *)
Inductive mock_step (env : MockEnv) : MockWorld -> MockWorld -> Prop :=
  | mock_step_context desc w : mock_step env w (mock_create_context desc w).1
  | mock_step_allocate context desc w : mock_step env w (mock_allocate_buffer env context desc w).1
  | mock_step_write buffer offset data content w : source_of data content -> 0 <= offset ->
      mock_step env w (mock_write_buffer buffer offset data w).1
  | mock_step_submit queue program bindings timeout w : mock_step env w (mock_submit queue program bindings timeout w).1
  | mock_step_cancel event w : mock_step env w (mock_cancel_event event w).1
  | mock_step_complete event w w' r : complete_event event w = Some (w', r) -> mock_step env w w'
  | mock_step_lost event w : mock_step env w (fail_device_lost event w).1.

(** Addresses are fresh and no event is left executing. *)
Record world_ok (w : MockWorld) : Prop := {
  wk_fresh : forall a bytes, mw_cells w !! a = Some bytes -> a < mw_next_address w;
  wk_states : forall a s, mw_states w !! a = Some s -> s ∈ [EVENT_PENDING; EVENT_COMPLETE; EVENT_CANCELLED; EVENT_DEVICE_LOST];
}.

(** Shared bytes keep their length. *)
Definition cells_kept (cells cells' : Cells) : Prop :=
  forall a bytes, cells !! a = Some bytes -> exists bytes', cells' !! a = Some bytes' /\ length bytes' = length bytes.

#[global] Instance cells_kept_preorder : PreOrder cells_kept.
Proof.
  split.
  - intros cells a bytes Ha. by exists bytes.
  - intros x y z Hxy Hyz a bytes Ha. destruct (Hxy _ _ Ha) as (b1 & H1 & L1). destruct (Hyz _ _ H1) as (b2 & H2 & L2).
    exists b2. split; [done|congruence].
Qed.

(** What stays true of an event that was submitted, and of the bytes. *)
Record later (w w' : MockWorld) : Prop := {
  lt_address : mw_next_address w <= mw_next_address w';
  lt_cells : cells_kept (mw_cells w) (mw_cells w');
  lt_settled : forall e, me_state e < mw_next_address w -> event_state e w <> EVENT_PENDING ->
    event_state e w' = event_state e w;
}.

#[global] Instance later_preorder : PreOrder later.
Proof.
  split.
  - intros w. by split.
  - intros x y z [H1 H2 H3] [G1 G2 G3]. split; [lia|by etrans|]. intros e He Hs. rewrite G3, H3; [done|done|done|lia|].
    by rewrite H3.
Qed.

Lemma store_kept a i byte cells cells' :
  store a i byte cells = Some cells' -> cells_kept cells cells' /\ dom cells' = dom cells.
Proof.
  unfold store. destruct (cells !! a) as [bytes|] eqn:Ha; [|done]. case_decide; [|done]. intros [= <-].
  split.
  - intros k b Hk. destruct (decide (k = a)) as [->|Hne].
    + rewrite Ha in Hk. injection Hk as <-. eexists. rewrite lookup_insert_eq. split; [done|]. apply length_insert.
    + exists b. by rewrite lookup_insert_ne.
  - apply dom_insert_lookup_L. by eexists.
Qed.

Lemma copy_bytes_kept indices source target cells cells' :
  copy_bytes indices source target cells = Some cells' -> cells_kept cells cells' /\ dom cells' = dom cells.
Proof.
  revert cells. induction indices as [|i indices IH]; intros cells; cbn [copy_bytes]; [by intros [= <-]|].
  destruct (load _ _ _) as [byte|]; [|done]. cbn [mbind option_bind].
  destruct (store _ _ _ _) as [cells1|] eqn:Hs; [|done]. cbn [mbind option_bind].
  intros [? ?]%IH. apply store_kept in Hs as [? ?]. split; [by etrans|congruence].
Qed.

Lemma change_bytes_kept f indices target cells cells' :
  change_bytes f indices target cells = Some cells' -> cells_kept cells cells' /\ dom cells' = dom cells.
Proof.
  revert cells. induction indices as [|i indices IH]; intros cells; cbn [change_bytes]; [by intros [= <-]|].
  destruct (load _ _ _) as [byte|]; [|done]. cbn [mbind option_bind].
  destruct (store _ _ _ _) as [cells1|] eqn:Hs; [|done]. cbn [mbind option_bind].
  intros [? ?]%IH. apply store_kept in Hs as [? ?]. split; [by etrans|congruence].
Qed.

Lemma execute_kept inv cells cells' : execute inv cells = Some cells' -> cells_kept cells cells' /\ dom cells' = dom cells.
Proof.
  destruct inv; cbn [execute]; [by intros [= <-]| | |]; [destruct (_ && _)| |];
    eauto using copy_bytes_kept, change_bytes_kept.
Qed.

Lemma splice_length {A} off (src l : list A) :
  0 <= off -> off + zlen src <= zlen l -> length (splice off src l) = length l.
Proof. intros H1 H2. pose proof (zlen_splice off src l H1 H2). unfold zlen in *. lia. Qed.

Lemma write_chunks_length fuel data content start bytes copied target :
  source_of data content -> 0 <= start -> 0 <= copied -> start + bytes <= zlen target -> bytes <= zlen content ->
  length (write_chunks fuel data start bytes copied target).1 = length target.
Proof.
  intros Hsrc Hs. revert copied target. induction fuel as [|fuel IH]; intros copied target Hc Ht Hb; cbn [write_chunks];
    destruct (Z.leb_spec bytes copied); try done.
  unfold TRANSFER_CHUNK_BYTES. rewrite (so_read _ _ Hsrc) by lia.
  assert (Hz : zlen (slice copied (Z.min (bytes - copied) 256) content) = Z.min (bytes - copied) 256) by (apply zlen_slice; lia).
  assert (Hl : length (splice (start + copied) (slice copied (Z.min (bytes - copied) 256) content) target) = length target)
    by (apply splice_length; lia).
  rewrite IH; [done|lia|unfold zlen in *; lia|done].
Qed.

Lemma mock_write_kept buffer offset data content w :
  source_of data content -> 0 <= offset ->
  exists target, (mock_write_buffer buffer offset data w).1 =
      mw_set_cells (alter (fun _ => target) (mb_data buffer) (mw_cells w)) w /\
    length target = length (cell (mb_data buffer) w).
Proof.
  intros Hsrc Ho. unfold mock_write_buffer.
  repeat match goal with |- context [match (if ?b then _ else _) with _ => _ end] => destruct b eqn:? end;
    try (by eexists).
  rewrite (so_len _ _ Hsrc) in *. pose proof (zlen_nonneg content). destruct (try_from _ (zlen content)) as [n|] eqn:Hn; [|by eexists].
  assert (n = zlen content) as -> by (unfold try_from in Hn; repeat case_match; by simplify_eq).
  cbn [ok_or]. destruct (_ =? 0); [by eexists|]. destruct (mock_checked_range _ _ _) as [[start stop]|] eqn:Hr; [|by eexists].
  assert (start = offset /\ stop = offset + zlen content /\ stop <= zlen (cell (mb_data buffer) w)) as (-> & -> & Hle).
  { unfold mock_checked_range, try_from, checked_add in Hr. repeat case_match; simplify_eq; bool_to_prop; simpl in *; simplify_eq; lia. }
  cbn [fst snd]. destruct (src_as_contiguous data) as [c|] eqn:Hcont.
  - apply (so_contiguous _ _ Hsrc) in Hcont as ->. rewrite Z.eqb_refl. eexists. split; [done|]. by apply splice_length.
  - pose proof (write_chunks_length (chunks (zlen content)) data content offset (zlen content) 0 (cell (mb_data buffer) w) Hsrc) as Hl.
    destruct (write_chunks _ _ _ _ _ _) as [target r]. eexists. split; [done|]. apply Hl; lia.
Qed.

Lemma event_state_set e a v w :
  event_state e (mw_set_state a v w) = if decide (me_state e = a) then v else event_state e w.
Proof.
  unfold event_state, mw_set_state. simpl. case_decide as He.
  - by rewrite He, lookup_insert_eq.
  - by rewrite lookup_insert_ne.
Qed.

Lemma world_ok_cells w cells : world_ok w -> dom cells = dom (mw_cells w) -> world_ok (mw_set_cells cells w).
Proof.
  intros [Hf Hs] Hd. split; [|done]. intros a bytes Ha. simpl in Ha |- *.
  assert (a ∈ dom (mw_cells w)) as [b Hb]%elem_of_dom by (rewrite <- Hd; apply elem_of_dom; by eexists). by eapply Hf.
Qed.

Lemma world_ok_state w a v :
  world_ok w -> v ∈ [EVENT_PENDING; EVENT_COMPLETE; EVENT_CANCELLED; EVENT_DEVICE_LOST] -> world_ok (mw_set_state a v w).
Proof.
  intros [Hf Hs] Hv. split; [done|]. intros k s. simpl. destruct (decide (k = a)) as [->|].
  - rewrite lookup_insert_eq. by intros [= <-].
  - rewrite lookup_insert_ne by done. apply Hs.
Qed.

(** Settling a pending event. *)
Lemma later_settle e v w : event_state e w = EVENT_PENDING -> later w (mw_set_state (me_state e) v w).
Proof.
  intros He. split; [done|done|]. intros e' _ Hs. rewrite event_state_set. case_decide as Heq; [|done].
  unfold event_state in *. by rewrite Heq, He in Hs.
Qed.

Lemma mock_step_later env w w' : mock_step env w w' -> world_ok w -> world_ok w' /\ later w w'.
Proof.
  intros Hstep Hok. destruct Hstep as [desc w|context desc w|buffer offset data content w Hsrc Ho|queue program bindings timeout w|
    event w|event w w' r Hc|event w].
  - unfold mock_create_context, mock_next_id. destruct (validate_context_desc _ _); [|done].
    destruct (checked_add _ _ _); [|done]. split; [by destruct Hok|]. by split.
  - unfold mock_allocate_buffer. match goal with |- context [match ?c with _ => _ end] => destruct c as [[info bytes]|] end; [|done].
    destruct Hok as [Hf Hs]. assert (Hnone : mw_cells w !! mw_next_address w = None).
    { destruct (mw_cells w !! mw_next_address w) eqn:Ha; [|done]. apply Hf in Ha. lia. }
    split; split; simpl; try done; try lia.
    + intros a b. destruct (decide (a = mw_next_address w)) as [->|]; [lia|]. rewrite lookup_insert_ne by done. intros Ha%Hf. lia.
    + intros a b Ha. exists b. split; [|done]. rewrite lookup_insert_ne; [done|]. by intros <-; rewrite Hnone in Ha.
  - destruct (mock_write_kept buffer offset data content w Hsrc Ho) as (target & -> & Hl). split.
    + apply world_ok_cells; [done|]. apply dom_alter_L.
    + split; [done| |done]. simpl. intros a bytes Ha. destruct (decide (a = mb_data buffer)) as [->|].
      * exists target. rewrite lookup_alter_eq, Ha. split; [done|]. rewrite Hl. unfold cell. by rewrite Ha.
      * exists bytes. by rewrite lookup_alter_ne.
  - unfold mock_submit. destruct (mock_admit _ _ _ _); [|done]. split; [|].
    + destruct Hok as [Hf Hs]. split; simpl.
      * intros k b Hk%Hf. lia.
      * intros k s. destruct (decide (k = mw_next_address w)) as [->|]; [rewrite lookup_insert_eq; intros [= <-]; set_solver|].
        rewrite lookup_insert_ne by done. apply Hs.
    + split; simpl; [lia|done|]. intros e He _. unfold event_state. simpl. by rewrite lookup_insert_ne by lia.
  - unfold mock_cancel_event. destruct (Z.eqb_spec (event_state event w) EVENT_PENDING); [|done].
    split; [apply world_ok_state; [done|set_solver]|by apply later_settle].
  - unfold complete_event in Hc. destruct (Z.eqb_spec (event_state event w) EVENT_PENDING) as [Hp|]; cbn [negb] in Hc; [|by simplify_eq].
    simpl mw_cells in Hc. destruct (execute _ _) as [cells|] eqn:He; [|done]. cbn [mbind option_bind] in Hc. simplify_eq.
    apply execute_kept in He as [Hk Hd]. destruct Hok as [Hf Hs]. split; split; simpl.
    + intros a b Ha. assert (a ∈ dom (mw_cells w)) as [b' Hb]%elem_of_dom by (rewrite <- Hd; apply elem_of_dom; by eexists). by eapply Hf.
    + intros k s. rewrite insert_insert_eq. destruct (decide (k = me_state event)) as [->|]; [rewrite lookup_insert_eq; intros [= <-]; set_solver|].
      rewrite lookup_insert_ne by done. apply Hs.
    + done.
    + done.
    + intros e _ Hne. unfold event_state in *. simpl. rewrite insert_insert_eq.
      destruct (decide (me_state e = me_state event)) as [Heq|]; [by rewrite Heq, Hp in Hne|]. by rewrite lookup_insert_ne.
  - unfold fail_device_lost. destruct (Z.eqb_spec (event_state event w) EVENT_PENDING); [|done].
    split; [apply world_ok_state; [done|set_solver]|by apply later_settle].
Qed.

Lemma mock_steps_later env w w' : rtc (mock_step env) w w' -> world_ok w -> world_ok w' /\ later w w'.
Proof.
  induction 1 as [|x y z Hxy _ IH]; intros Hok; [done|]. destruct (mock_step_later _ _ _ Hxy Hok) as [Hy Hl].
  destruct (IH Hy) as [Hz Hl']. split; [done|by etrans].
Qed.

Lemma default_ok : world_ok MockAccelerator_default.
Proof. by split. Qed.

(** ** Invocations *)

Definition invocation_ok (cells : Cells) (inv : MockInvocation) : Prop :=
  match inv with
  | InvBarrier => True
  | InvCopy source target => slice_ok cells source /\ slice_ok cells target /\
      bs_end source - bs_start source = bs_end target - bs_start target
  | InvFill target _ | InvXor target _ => slice_ok cells target
  end.

(** What an invocation means. *)
Definition invocation_effect (inv : MockInvocation) (cells : Cells) : Cells :=
  match inv with
  | InvBarrier => cells
  | InvCopy source target => replace cells target (sliced cells source)
  | InvFill target value => replace cells target (replicate (slice_len target) value)
  | InvXor target value => replace cells target ((fun byte => Z.lxor byte value) <$> sliced cells target)
  end.

Lemma execute_effect inv cells : invocation_ok cells inv -> execute inv cells = Some (invocation_effect inv cells).
Proof.
  destruct inv as [|source target|target value|target value]; simpl invocation_ok.
  - done.
  - intros (? & ? & ?). by apply execute_copy.
  - intros Hok. cbn [execute invocation_effect]. rewrite execute_change by done. do 2 f_equal.
    destruct Hok as (tb & Ht & H0 & Hl). unfold sliced. rewrite Ht. simpl default.
    apply list_eq. intros i. rewrite list_lookup_fmap, lookup_slice by lia. unfold slice_len, zlen in *.
    destruct (decide (i < Z.to_nat (bs_end target - bs_start target))%nat).
    + rewrite decide_True by lia. rewrite lookup_replicate_2 by lia.
      destruct (lookup_lt_is_Some_2 tb (Z.to_nat (bs_start target) + i)) as [b ->]; [lia|done].
    + rewrite decide_False by lia. symmetry. apply lookup_ge_None_2. rewrite length_replicate. lia.
  - intros Hok. cbn [execute invocation_effect]. by apply execute_change.
Qed.

Lemma slice_ok_kept cells cells' s : cells_kept cells cells' -> slice_ok cells s -> slice_ok cells' s.
Proof.
  intros Hk (bytes & Hb & H0 & Hl). destruct (Hk _ _ Hb) as (b' & Hb' & Hlen). exists b'. unfold zlen in *. rewrite Hlen. auto.
Qed.

Lemma invocation_ok_kept cells cells' inv : cells_kept cells cells' -> invocation_ok cells inv -> invocation_ok cells' inv.
Proof. intros Hk. destruct inv; simpl; intros; destruct_and?; eauto using slice_ok_kept. Qed.

(** ** Submissions *)

Definition bound_range_ok (binding : BindingRef MockBuffer) : Prop :=
  0 <= br_offset (bref_range binding) /\ 0 < br_bytes (bref_range binding).

Definition binding_slice (binding : BindingRef MockBuffer) : BufferSlice := {|
  bs_data := mb_data (bref_buffer binding); bs_start := br_offset (bref_range binding);
  bs_end := BufferRange_end (bref_range binding) |}.

(** The invocation is the program's operation on the ranges bound to its slots. *)
Definition invocation_for (op : MockOperation) (bindings : list (BindingRef MockBuffer)) (inv : MockInvocation) : Prop :=
  match op, inv with
  | MopBarrier slot, InvBarrier => exists b, bindings = [b] /\ bref_slot b = slot
  | MopCopy source_slot target_slot, InvCopy source target =>
      exists s t, bindings ≡ₚ [s; t] /\ bref_slot s = source_slot /\ bref_access s = AccessRead /\ source = binding_slice s /\
        bref_slot t = target_slot /\ bref_access t = AccessWrite /\ target = binding_slice t
  | MopFill target_slot value, InvFill target value' =>
      exists t, bindings = [t] /\ bref_slot t = target_slot /\ bref_access t = AccessWrite /\ target = binding_slice t /\ value' = value
  | MopXor target_slot value, InvXor target value' =>
      exists t, bindings = [t] /\ bref_slot t = target_slot /\ bref_access t = AccessReadWrite /\ target = binding_slice t /\ value' = value
  | _, _ => False
  end.

Lemma buffer_slice_Ok w b s :
  bound_range_ok b -> buffer_slice w b = Ok s -> s = binding_slice b /\ slice_ok (mw_cells w) s.
Proof.
  intros [Ho Hb]. unfold buffer_slice, try_from. destruct (_ <=? _); [|done]. cbn [ok_or].
  unfold mock_checked_range, try_from, checked_add. destruct (br_offset _ <=? _); [|done]. cbn [ok_or].
  destruct (_ <=? USIZE_MAX); [|done].
  destruct (Z.leb_spec (br_offset (bref_range b) + br_bytes (bref_range b)) (zlen (cell (mb_data (bref_buffer b)) w))) as [Hle|]; [|done].
  intros [= <-]. split; [done|]. unfold cell in Hle. destruct (mw_cells w !! _) as [bytes|] eqn:Hc; simpl in Hle.
  - exists bytes. simpl. rewrite Hc. split; [done|]. lia.
  - unfold zlen in Hle. simpl in Hle. lia.
Qed.

Lemma binding_with_Ok bindings slot access b :
  binding_with bindings slot access = Ok b -> b ∈ bindings /\ bref_slot b = slot /\ bref_access b = access.
Proof.
  unfold binding_with, binding_for_slot. destruct (List.find _ _) as [b'|] eqn:Hf; [|done]. case_decide; [|done].
  intros [= <-]. apply List.find_some in Hf as [Hin He]. apply Z.eqb_eq in He. by rewrite list_elem_of_In.
Qed.

Lemma one_binding {A} (l : list A) x : zlen l = 1 -> x ∈ l -> l = [x].
Proof. unfold zlen. destruct l as [|y [|]]; simpl; try lia. intros _ Hx%list_elem_of_singleton. by subst. Qed.

Lemma two_bindings {A} (l : list A) x y : zlen l = 2 -> x ∈ l -> y ∈ l -> x <> y -> l ≡ₚ [x; y].
Proof.
  unfold zlen. destruct l as [|a [|b [|]]]; simpl; try lia. intros _ Hx Hy Hne.
  rewrite !elem_of_cons, elem_of_nil in Hx, Hy.
  destruct Hx as [->|[->|[]]], Hy as [->|[->|[]]]; try done. apply Permutation_swap.
Qed.

Lemma prepare_invocation_Ok op bindings w inv :
  Forall bound_range_ok bindings -> prepare_invocation op bindings w = Ok inv ->
  invocation_for op bindings inv /\ invocation_ok (mw_cells w) inv.
Proof.
  intros Hr. rewrite Forall_forall in Hr. destruct op as [slot|ss ts|ts value|ts value]; cbn [prepare_invocation].
  - destruct (Z.eqb_spec (zlen bindings) 1) as [Hl|]; [|done]. cbn [negb orb]. case_bool_decide as Hs; [|done]. intros [= <-].
    destruct Hs as [b Hf]. unfold binding_for_slot in Hf. apply List.find_some in Hf as [Hin He%Z.eqb_eq].
    split; [|done]. exists b. split; [|done]. apply one_binding; [done|by apply list_elem_of_In].
  - destruct (Z.eqb_spec (zlen bindings) 2) as [Hl|]; [|done]. cbn [negb].
    destruct (binding_with _ ss _) as [s|] eqn:Hs; [|done]. destruct (binding_with _ ts _) as [t|] eqn:Ht; [|done].
    apply binding_with_Ok in Hs as (Hsi & Hss & Hsa), Ht as (Hti & Hts & Hta).
    destruct (Z.eqb_spec (br_bytes (bref_range s)) (br_bytes (bref_range t))) as [Hb|]; [|done]. cbn [negb].
    destruct (buffer_slice w s) as [source|] eqn:H1; [|done]. destruct (buffer_slice w t) as [target|] eqn:H2; [|done].
    intros [= <-]. apply buffer_slice_Ok in H1 as [-> Hok1], H2 as [-> Hok2]; auto. split.
    + exists s, t. split_and!; try done. apply two_bindings; try done. intros ->. congruence.
    + split_and!; try done. unfold binding_slice, BufferRange_end. simpl. lia.
  - destruct (Z.eqb_spec (zlen bindings) 1) as [Hl|]; [|done]. cbn [negb].
    destruct (binding_with _ ts _) as [t|] eqn:Ht; [|done]. apply binding_with_Ok in Ht as (Hti & Hts & Hta).
    destruct (buffer_slice w t) as [target|] eqn:H2; [|done]. intros [= <-]. apply buffer_slice_Ok in H2 as [-> Hok]; auto.
    split; [|done]. exists t. split_and!; try done. by apply one_binding.
  - destruct (Z.eqb_spec (zlen bindings) 1) as [Hl|]; [|done]. cbn [negb].
    destruct (binding_with _ ts _) as [t|] eqn:Ht; [|done]. apply binding_with_Ok in Ht as (Hti & Hts & Hta).
    destruct (buffer_slice w t) as [target|] eqn:H2; [|done]. intros [= <-]. apply buffer_slice_Ok in H2 as [-> Hok]; auto.
    split; [|done]. exists t. split_and!; try done. by apply one_binding.
Qed.

Lemma mock_submit_Ok queue program bindings timeout w w' e :
  world_ok w -> Forall bound_range_ok bindings -> mock_submit queue program bindings timeout w = (w', Ok e) ->
  invocation_for (mp_operation program) bindings (me_invocation e) /\ invocation_ok (mw_cells w') (me_invocation e) /\
  me_state e < mw_next_address w' /\ event_state e w' = EVENT_PENDING /\ world_ok w'.
Proof.
  intros Hok Hr Hs. assert (Hw' : world_ok w').
  { pose proof (mock_step_later {| me_reserve _ := true; me_contiguous _ := None |} w _
      (mock_step_submit _ queue program bindings timeout w) Hok) as [H _]. by rewrite Hs in H. }
  unfold mock_submit in Hs. destruct (mock_admit _ _ _ _) as [inv|] eqn:Ha; [|done]. injection Hs as <- <-.
  assert (Hp : prepare_invocation (mp_operation program) bindings w = Ok inv).
  { unfold mock_admit in Ha. destruct (_ || _); [done|]. destruct (existsb _ _); [done|].
    by destruct (validate_for_submit _ _ _). }
  apply (prepare_invocation_Ok _ _ _ _ Hr) in Hp as [? ?]. split_and!; try done.
  - simpl. lia.
  - unfold event_state. simpl. by rewrite lookup_insert_eq.
Qed.
