(* ===== verification/MockProps.v ===== *)
(** * Properties of the mock backend

    What the mock backend does for the device: transfers, submissions and
    events, and the device's reset over it. *)

From Stdlib Require Import ZArith Lia.
From stdpp Require Import prelude list gmap.
From S2P Require Import Prelude Proto Transport Core ObjectTable Decoder DecoderSpec State StateFacts Engine EngineFacts ResetFacts ResetLive EngineProps ResetProps EngineDemo Mock MockFacts.

(** ** The contract the engine relies on *)

#[global] Instance mock_typed env : BackendTyped (mock_accelerator env).
Proof.
  split.
  - intros w w' info [= <- <-]. split; [|done]. by vm_compute.
  - intros c desc w w' b info Hu. cbn [acc_allocate_buffer mock_accelerator]. unfold mock_allocate_buffer.
    destruct (validate_buffer_desc _ _); [|done]. destruct (BufferInfo_new _ _ _ _) as [i|] eqn:Hi; [|done].
    destruct (try_from _ _) as [n|] eqn:Hn; [|done]. cbn [ok_or]. destruct (negb _); [done|]. intros [= <- <- <-].
    unfold BufferInfo_new, nonzero in Hi. destruct (bd_bytes desc =? 0); [done|]. cbn [ok_or] in Hi.
    destruct (bd_alignment desc =? 0); [done|]. cbn [ok_or] in Hi. destruct (negb _); [done|]. destruct (_ || _); [done|].
    destruct (_ || _); [done|]. by injection Hi as <-.
Qed.

(** No event was lost. *)
Definition none_lost (w : MockWorld) : Prop :=
  forall a s, mw_states w !! a = Some s -> s ∈ [EVENT_PENDING; EVENT_COMPLETE; EVENT_CANCELLED].

Lemma none_lost_state w e : none_lost w -> event_state e w ∈ [EVENT_PENDING; EVENT_COMPLETE; EVENT_CANCELLED].
Proof. intros Hn. unfold event_state. destruct (mw_states w !! _) eqn:Hs; simpl; [by eapply Hn|set_solver]. Qed.

Lemma mock_cooperates env : cooperative (A := mock_accelerator env) true none_lost.
Proof.
  split; [|by intros x w Hw; exists w..]. intros e w Hw. unfold settles. cbn [acc_poll_event acc_cancel_event acc_destroy_event mock_accelerator].
  pose proof (none_lost_state w e Hw) as He. rewrite !elem_of_cons, elem_of_nil in He.
  unfold mock_poll_event, mock_cancel_event, mock_destroy_event, mock_poll_event.
  destruct He as [He|[He|[He|[]]]].
  - exists w, EventPending, (mw_set_state (me_state e) EVENT_CANCELLED w), (mw_set_state (me_state e) EVENT_CANCELLED w).
    rewrite event_state_set, decide_True, He by done. split_and!; try done.
    intros a s. simpl. destruct (decide (a = me_state e)) as [->|]; [rewrite lookup_insert_eq; intros [= <-]; set_solver|].
    rewrite lookup_insert_ne by done. apply Hw.
  - exists w, EventComplete, w, w. by rewrite He.
  - exists w, EventCancelled, w, w. by rewrite He.
Qed.

(** ** Reset *)

(** The device resets over the mock backend.  From every processor the
    device can reach over this backend, however the harness completed events,
    as long as it reported none as lost: a reset to a fresh namespace cancels
    what is pending, releases every object and leaves the device running. *)
Theorem mock_reset_succeeds env namespace (self : CommandProcessor (A := mock_accelerator env)) :
  processor_reachable self -> is_u16 namespace -> cp_health self <> BackendDiscardRequired ->
  namespace <> ds_namespace (cp_state self) -> none_lost (cp_accelerator self) ->
  exists self' report, reset namespace self = (self', Ok report) /\
    rr_disposition report = ResetBackendReusable /\ cp_health self' = Running /\
    rr_released report = resource_counts (cp_state self) /\ none_lost (cp_accelerator self').
Proof.
  intros Hr Hns Hh Hne Hn. destruct (processor_reachable_info self Hr) as (w & w' & Hi).
  assert (Hcoop : cooperative (A := mock_accelerator env) (bits_contains (info_capabilities (cp_info self)) EVENT_CANCELLATION) none_lost).
  { injection Hi as _ <-. apply mock_cooperates. }
  destruct (cooperative_reset namespace self none_lost Hr Hns Hh Hne Hcoop Hn) as (self' & report & ? & ? & ? & ? & _ & ?).
  by exists self', report.
Qed.

(** ** Artifacts *)

(** The reference artifact is canonical.  The backend decodes a payload to
    an operation exactly when the payload is what the builder makes of that
    operation, its slots and operand in range and a copy's slots different. *)
Theorem reference_artifact_exact payload bytes op :
  source_of payload bytes -> reference_decode payload = Ok op <-> operation_ok op /\ bytes = artifact_of op.
Proof. apply decode_exact. Qed.

(** ** Transfers *)

(** What is written is read.  A write inside the buffer, through the
    contiguous view of the source or in chunks, followed by a read of the same
    range into any sink yields the bytes written; the rest of the buffer and
    every other buffer keep theirs. *)
Theorem mock_write_read {S} `{ByteSinkSpec S} env buffer offset data content w (sink : S) :
  source_of data content -> sink_inv sink -> zlen (sink_content sink) = zlen content -> zlen content <> 0 ->
  0 <= offset -> offset + zlen content <= zlen (cell (mb_data buffer) w) -> zlen (cell (mb_data buffer) w) <= USIZE_MAX ->
  bits_contains (bd_usage (mb_desc buffer)) TRANSFER_DESTINATION = true ->
  bits_contains (bd_usage (mb_desc buffer)) TRANSFER_SOURCE = true ->
  me_contiguous env (zlen content) = None \/ me_contiguous env (zlen content) = Some (zlen content) ->
  exists w' sink', mock_write_buffer buffer offset data w = (w', (buffer, Ok tt)) /\
    run_sink (mock_read_buffer env buffer offset (zlen content) w') sink = (sink', (w', Ok tt)) /\
    sink_content sink' = content /\ cell (mb_data buffer) w' = splice offset content (cell (mb_data buffer) w) /\
    (forall a, a <> mb_data buffer -> cell a w' = cell a w).
Proof.
  intros Hsrc Hi Hl Hne Hoff Hle Hmax Hd Hs Henv. pose proof (zlen_nonneg content).
  rewrite (mock_write_spec buffer offset data content w) by (done || lia). rewrite (proj2 (Z.leb_le _ _)) by done.
  set (w' := mw_set_cells _ w).
  assert (Hcell : cell (mb_data buffer) w' = splice offset content (cell (mb_data buffer) w)).
  { unfold cell, w' in *. simpl. rewrite lookup_alter_eq. destruct (mw_cells w !! mb_data buffer); [done|].
    simpl in Hle. unfold zlen in *. simpl in Hle. lia. }
  assert (Hzl : zlen (cell (mb_data buffer) w') = zlen (cell (mb_data buffer) w)) by (rewrite Hcell; by apply zlen_splice).
  pose proof (mock_read_spec env buffer offset w' sink) as Hr. rewrite Hl in Hr.
  destruct (run_sink _ sink) as [sink' [w2 r]] eqn:Hrun.
  destruct Hr as (-> & Hr); try done; try lia. rewrite (proj2 (Z.leb_le _ _)) in Hr by lia. destruct Hr as (-> & _ & Hc).
  exists w', sink'. split_and!; try done.
  - rewrite Hc, Hcell. by apply slice_splice_eq.
  - intros a Ha. unfold cell, w'. simpl. by rewrite lookup_alter_ne.
Qed.

(** ** Submissions and events *)

(** A submission does its program's operation on its bindings, once.  The
    event of an accepted submission holds the program's operation on exactly
    the ranges bound to its slots.  However the world went on, completing it
    never indexes out of range: while it is pending its effect on the shared
    bytes is the operation's (a copy moves the bytes the source held, also
    when source and target overlap), and it is then complete; otherwise the
    harness is told it is busy and nothing changes. *)
Theorem submission_executes env queue program bindings timeout w w1 e w2 :
  world_ok w -> Forall bound_range_ok bindings -> mock_submit queue program bindings timeout w = (w1, Ok e) ->
  rtc (mock_step env) w1 w2 ->
  invocation_for (mp_operation program) bindings (me_invocation e) /\
  if event_state e w2 =? EVENT_PENDING
  then exists w3, complete_event e w2 = Some (w3, Ok tt) /\
    mw_cells w3 = invocation_effect (me_invocation e) (mw_cells w2) /\ mock_poll_event e w3 = Ok EventComplete
  else complete_event e w2 = Some (w2, Err BeBusy).
Proof.
  intros Hok Hr Hs Hsteps. destruct (mock_submit_Ok _ _ _ _ _ _ _ Hok Hr Hs) as (Hf & Hinv & _ & _ & Hok1).
  destruct (mock_steps_later _ _ _ Hsteps Hok1) as [_ Hl]. split; [done|].
  unfold complete_event. destruct (Z.eqb_spec (event_state e w2) EVENT_PENDING); cbn [negb]; [|done].
  simpl mw_cells. rewrite execute_effect by (eapply invocation_ok_kept; [apply Hl|done]). cbn [mbind option_bind].
  eexists. split; [done|]. split; [done|]. unfold mock_poll_event. by rewrite event_state_set, decide_True.
Qed.

(** An event settles once.  When a poll of a submitted event reports that
    it completed, failed or was cancelled, every later poll reports the same,
    and completing, cancelling or losing it is refused and changes nothing. *)
Theorem event_settles_once env e w w' s :
  world_ok w -> me_state e < mw_next_address w -> mock_poll_event e w = Ok s -> s <> EventPending ->
  rtc (mock_step env) w w' ->
  mock_poll_event e w' = Ok s /\ complete_event e w' = Some (w', Err BeBusy) /\
  mock_cancel_event e w' = (w', Err BeBusy) /\ fail_device_lost e w' = (w', Err BeBusy).
Proof.
  intros Hok Ha Hp Hs Hsteps. destruct (mock_steps_later _ _ _ Hsteps Hok) as [_ Hl].
  assert (Hne : event_state e w <> EVENT_PENDING).
  { intros He. unfold mock_poll_event in Hp. rewrite He in Hp. by injection Hp as <-. }
  pose proof (lt_settled _ _ Hl e Ha Hne) as He. unfold mock_poll_event, complete_event, mock_cancel_event, fail_device_lost in *.
  by rewrite He, Hp, (proj2 (Z.eqb_neq _ _) Hne).
Qed.

(** ** The properties at work *)

Module MockDemo.

Definition env : MockEnv := {| me_reserve _ := true; me_contiguous _ := None |}.
#[local] Instance mock : Accelerator := mock_accelerator env.

(** A device over the mock backend. *)
Definition p0 : CommandProcessor := {|
  cp_state := {|
    ds_namespace := 1; ds_limits := info_limits mock_info; ds_policy := StateFacts.Demo.policy;
    ds_retained := RetainedBytes_default;
    ds_contexts := ObjectTable_with_namespace KindContext 64 1;
    ds_buffers := ObjectTable_with_namespace KindBuffer 65536 1;
    ds_programs := ObjectTable_with_namespace KindProgram 16384 1;
    ds_queues := ObjectTable_with_namespace KindQueue 1024 1;
    ds_events := ObjectTable_with_namespace KindEvent 262144 1 |};
  cp_accelerator := MockAccelerator_default; cp_info := mock_info; cp_policy := StateFacts.Demo.policy;
  cp_decoder := {| fd_limits := {|
    dl_capabilities := info_capabilities mock_info; dl_max_chain_descriptors := 8; dl_max_request_bytes := 65536;
    dl_max_response_bytes := 65536; dl_max_bindings := 256; dl_max_buffer_bytes := Z.shiftl 1 30;
    dl_max_artifact_bytes := Z.shiftl 1 30 |} |};
  cp_health := Running; cp_quarantined := ResourceCounts_default; cp_quarantined_bytes := RetainedBytes_default;
  cp_last_reset := None |}.

Lemma booted : CommandProcessor_new MockAccelerator_default EngineDemo.config 1 StateFacts.Demo.policy = (MockAccelerator_default, Ok p0).
Proof. reflexivity. Qed.

(** The guest creates a context. *)
Definition request : list Z := frame_of 5 WqCreateContext.
Definition served := process EngineDemo.mem [ChainRegion_readable (zlen request); ChainRegion_writable 128]
  (slice_source request) (replicate 128 0) p0.
Definition p1 : CommandProcessor := served.1.1.

Lemma p1_reachable : processor_reachable p1.
Proof.
  exists MockAccelerator_default, EngineDemo.config, 1, StateFacts.Demo.policy, MockAccelerator_default, p0.
  split; [lia|]. split; [done|]. split; [apply booted|]. apply rtc_once, sys_device.
  assert (He : served = (p1, served.1.2, served.2)) by (unfold p1; by destruct served as [[]]).
  refine (step_process EngineDemo.mem _ (slice_source request) request (replicate 128 0) _ p0 p1 _ _ _ He).
  - apply slice_source_of; [apply EngineDemo.bytes_check|]; by vm_compute.
  - done.
Qed.

Lemma mock_reset_succeeds_witness :
  resource_counts (cp_state p1) = counts_add one_context ResourceCounts_default /\
  exists self' report, reset 2 p1 = (self', Ok report) /\ rr_disposition report = ResetBackendReusable /\
    cp_health self' = Running /\ rr_released report = resource_counts (cp_state p1) /\ none_lost (cp_accelerator self').
Proof.
  split; [by vm_compute|].
  refine (mock_reset_succeeds env 2 p1 p1_reachable ltac:(lia) _ _ _); [by vm_compute..|].
  intros a s Hs. vm_compute in Hs. discriminate Hs.
Defined.

(** A buffer, a copy program over two overlapping ranges of it, and a
    submission. *)
Definition desc : BufferDesc := {| bd_bytes := 8; bd_alignment := 1; bd_domain := DomainHost; bd_usage := 31 |}.
Definition w1 : MockWorld := Eval vm_compute in (mock_allocate_buffer env {| mc_id := 1 |} desc MockAccelerator_default).1.
Definition buffer : MockBuffer := {| mb_context_id := 1; mb_desc := desc; mb_data := 0 |}.
Definition data : list Z := [1; 2; 3; 4; 5; 6; 7; 8].
Definition w2 : MockWorld := Eval vm_compute in (mock_write_buffer buffer 0 (slice_source data) w1).1.
Definition queue : MockQueue := {| mq_context_id := 1 |}.
Definition program : MockProgram := {| mp_context_id := 1; mp_format := ARTIFACT_FORMAT; mp_target := TARGET_IDENTITY;
  mp_payload_bytes := 24; mp_operation := MopCopy 3 7 |}.
Definition bindings : list (BindingRef MockBuffer) := [
  {| bref_slot := 3; bref_buffer := buffer; bref_range := {| br_offset := 0; br_bytes := 5 |}; bref_access := AccessRead |};
  {| bref_slot := 7; bref_buffer := buffer; bref_range := {| br_offset := 2; br_bytes := 5 |}; bref_access := AccessWrite |}].
Definition w3 : MockWorld := Eval vm_compute in (mock_submit queue program bindings TimeoutInfinite w2).1.
Definition event : MockEvent := {| me_state := 1;
  me_invocation := InvCopy {| bs_data := 0; bs_start := 0; bs_end := 5 |} {| bs_data := 0; bs_start := 2; bs_end := 7 |} |}.

Lemma w2_ok : world_ok w2.
Proof.
  pose proof (mock_step_later env _ _ (mock_step_allocate env {| mc_id := 1 |} desc MockAccelerator_default) default_ok) as [H1 _].
  refine (proj1 (mock_step_later env w1 w2 (mock_step_write env buffer 0 (slice_source data) data w1 _ _) H1)); [|lia].
  apply slice_source_of; [apply EngineDemo.bytes_check|]; by vm_compute.
Qed.

Lemma bindings_ok : Forall bound_range_ok bindings.
Proof. repeat constructor; simpl; lia. Qed.

Lemma submitted : mock_submit queue program bindings TimeoutInfinite w2 = (w3, Ok event).
Proof. vm_compute. reflexivity. Qed.

Lemma submission_executes_witness :
  exists w4, complete_event event w3 = Some (w4, Ok tt) /\ cell 0 w4 = [1; 2; 1; 2; 3; 4; 5; 8] /\
    mock_poll_event event w4 = Ok EventComplete.
Proof.
  destruct (submission_executes env queue program bindings TimeoutInfinite w2 w3 event w3 w2_ok
    bindings_ok submitted (rtc_refl _ w3)) as [_ (w4 & H1 & H2 & H3)].
  exists w4. split; [exact H1|]. split; [unfold cell; rewrite H2; vm_compute; reflexivity|exact H3].
Defined.

Definition w4 : MockWorld := Eval vm_compute in (mock_cancel_event event w3).1.

Lemma w4_ok : world_ok w4.
Proof.
  destruct (mock_submit_Ok _ _ _ _ _ _ _ w2_ok bindings_ok submitted) as (_ & _ & _ & _ & H3).
  exact (proj1 (mock_step_later env _ _ (mock_step_cancel env event w3) H3)).
Qed.

Lemma event_settles_once_witness : complete_event event w4 = Some (w4, Err BeBusy).
Proof.
  exact (proj1 (proj2 (event_settles_once env event w4 w4 EventCancelled w4_ok ltac:(vm_compute; reflexivity)
    ltac:(vm_compute; reflexivity) ltac:(discriminate) (rtc_refl _ w4)))).
Defined.

Lemma data_source : source_of (slice_source data) data.
Proof. apply slice_source_of; [apply EngineDemo.bytes_check|]; by vm_compute. Qed.

Lemma zeros_ok : sink_inv (replicate 8 0).
Proof. done. Qed.

Lemma mock_write_read_witness :
  exists w' sink', mock_write_buffer buffer 0 (slice_source data) w1 = (w', (buffer, Ok tt)) /\
    run_sink (mock_read_buffer env buffer 0 8 w') (replicate 8 0) = (sink', (w', Ok tt)) /\ sink_content sink' = data.
Proof.
  destruct (mock_write_read (S := list Z) env buffer 0 (slice_source data) data w1 (replicate 8 0) data_source
    zeros_ok eq_refl ltac:(discriminate) ltac:(lia) ltac:(vm_compute; discriminate)
    ltac:(vm_compute; discriminate) ltac:(reflexivity) ltac:(reflexivity) (or_introl eq_refl))
    as (w' & sink' & H1 & H2 & H3 & _).
  exists w', sink'. split; [exact H1|]. split; [exact H2|exact H3].
Defined.

Definition artifact : list Z := Eval vm_compute in ReferenceArtifact_fill 9 165.

Lemma reference_artifact_exact_witness : reference_decode (slice_source artifact) = Ok (MopFill 9 165).
Proof.
  apply (proj2 (reference_artifact_exact (slice_source artifact) artifact (MopFill 9 165)
    (slice_source_of artifact ltac:(apply EngineDemo.bytes_check; vm_compute; reflexivity) ltac:(vm_compute; discriminate)))).
  split; [simpl; lia|vm_compute; reflexivity].
Defined.

End MockDemo.
