(* ===== verification/Fault.v ===== *)
(** * Fault injection and the ownership audit ([crates/virtio-accel-mock/src/fault.rs])

    [FaultAccelerator] wraps any accelerator: a script keyed by method and
    occurrence makes calls fail, and an audit records calls, releases and the
    ownership of every resource.  The wrapper is an instance of [Accelerator]
    over every instance of [Accelerator].

    The methods are written in a small monad over the wrapper's world, the
    inner backend's world with the control state; [None] is a panic ([expect]
    on a counter, [unreachable!]).  A method that panics leaves a mark in the
    world and answers [DeviceLost], since the contract has no panics. *)

From Stdlib Require Import ZArith Lia.
From stdpp Require Import prelude list.
From S2P Require Import Prelude Core.

Definition FAULT_POINT_COUNT : nat := 15.

Inductive FaultPoint :=
  | FpDeviceInfo | FpCreateContext | FpDestroyContext | FpAllocateBuffer | FpWriteBuffer | FpReadBuffer | FpFreeBuffer
  | FpLoadProgram | FpUnloadProgram | FpCreateQueue | FpDestroyQueue | FpSubmit | FpPollEvent | FpCancelEvent | FpDestroyEvent.

#[global] Instance FaultPoint_eq_dec : EqDecision FaultPoint.
Proof. solve_decision. Defined.

Definition FaultPoint_index (self : FaultPoint) : nat :=
  match self with
  | FpDeviceInfo => 0 | FpCreateContext => 1 | FpDestroyContext => 2 | FpAllocateBuffer => 3 | FpWriteBuffer => 4
  | FpReadBuffer => 5 | FpFreeBuffer => 6 | FpLoadProgram => 7 | FpUnloadProgram => 8 | FpCreateQueue => 9
  | FpDestroyQueue => 10 | FpSubmit => 11 | FpPollEvent => 12 | FpCancelEvent => 13 | FpDestroyEvent => 14
  end.

Inductive FaultAction :=
  | ActErrorBefore (error : BackendError)
  | ActErrorAfter (error : BackendError)
  | ActRejected (error : BackendError)
  | ActIndeterminate (error : BackendError)
  | ActCompletion (state : EventState).

#[global] Instance FaultAction_eq_dec : EqDecision FaultAction.
Proof. solve_decision. Defined.

Definition FaultPoint_allows (self : FaultPoint) (action : FaultAction) : bool :=
  match self with
  | FpDestroyContext | FpFreeBuffer | FpUnloadProgram | FpDestroyQueue | FpDestroyEvent | FpSubmit =>
      match action with ActRejected _ | ActIndeterminate _ => true | _ => false end
  | FpPollEvent =>
      match action with
      | ActErrorBefore _ | ActErrorAfter _ => true
      | ActCompletion state => negb (bool_decide (state = EventPending))
      | ActRejected _ | ActIndeterminate _ => false
      end
  | _ => match action with ActErrorBefore _ | ActErrorAfter _ => true | _ => false end
  end.

Record FaultStep := {
  fst_point : FaultPoint;
  fst_occurrence : Z;
  fst_action : FaultAction;
}.

Inductive FaultScriptError :=
  | ScriptZeroOccurrence (point : FaultPoint)
  | ScriptDuplicateStep (point : FaultPoint) (occurrence : Z)
  | ScriptIncompatibleAction (point : FaultPoint) (action : FaultAction).

Definition same_step (point : FaultPoint) (occurrence : Z) (step : FaultStep) : bool :=
  bool_decide (fst_point step = point) && (fst_occurrence step =? occurrence).

(** [for step in steps] with the steps validated so far; a [FaultScript] is
    its steps. *)
Fixpoint validate_steps (validated steps : list FaultStep) : result (list FaultStep) FaultScriptError :=
  match steps with
  | [] => Ok validated
  | step :: steps =>
      if fst_occurrence step =? 0 then Err (ScriptZeroOccurrence (fst_point step))
      else if negb (FaultPoint_allows (fst_point step) (fst_action step)) then
        Err (ScriptIncompatibleAction (fst_point step) (fst_action step))
      else if existsb (same_step (fst_point step) (fst_occurrence step)) validated then
        Err (ScriptDuplicateStep (fst_point step) (fst_occurrence step))
      else validate_steps (validated ++ [step]) steps
  end.

Definition FaultScript_new (steps : list FaultStep) : result (list FaultStep) FaultScriptError := validate_steps [] steps.

(** ** The audit's records *)

(** [ResourceId] is its number. *)
Definition ResourceId : Type := Z.

Inductive ResourceKind := RkContext | RkBuffer | RkProgram | RkQueue | RkEvent.

#[global] Instance ResourceKind_eq_dec : EqDecision ResourceKind.
Proof. solve_decision. Defined.

Inductive ResourceState := RsLive | RsReleased | RsIndeterminate | RsDiscarded.

#[global] Instance ResourceState_eq_dec : EqDecision ResourceState.
Proof. solve_decision. Defined.

Record AuditedResource := {
  rr_id : ResourceId;
  rr_kind : ResourceKind;
  rr_state : ResourceState;
}.

Record CallRecord := {
  cr_sequence : Z;
  cr_point : FaultPoint;
  cr_occurrence : Z;
  cr_injected : option FaultAction;
}.

Inductive ReleaseOutcome :=
  | RoSuccess
  | RoRejected (error : BackendError)
  | RoIndeterminate (error : BackendError).

Record ReleaseRecord := {
  rl_resource_id : ResourceId;
  rl_kind : ResourceKind;
  rl_attempt : Z;
  rl_outcome : ReleaseOutcome;
  rl_rollback : bool;
}.

Inductive OwnershipViolation :=
  | OvUnknownResource (id : ResourceId) (expected : ResourceKind)
  | OvKindMismatch (id : ResourceId) (expected actual : ResourceKind)
  | OvResourceNotLive (id : ResourceId) (kind : ResourceKind) (state : ResourceState)
  | OvPrematureRelease (id : ResourceId) (kind : ResourceKind) (retained_by : ResourceId)
  | OvRollbackFailed (id : ResourceId) (kind : ResourceKind) (error : BackendError).

Record ResourceTally := {
  rt_contexts : Z;
  rt_buffers : Z;
  rt_programs : Z;
  rt_queues : Z;
  rt_events : Z;
}.

#[global] Instance ResourceTally_eq_dec : EqDecision ResourceTally.
Proof. solve_decision. Defined.

Definition ResourceTally_default : ResourceTally :=
  {| rt_contexts := 0; rt_buffers := 0; rt_programs := 0; rt_queues := 0; rt_events := 0 |}.

Definition ResourceTally_increment (kind : ResourceKind) (self : ResourceTally) : ResourceTally :=
  let bump k n := if decide (kind = k) then saturating_add U32_MAX n 1 else n in
  {| rt_contexts := bump RkContext (rt_contexts self); rt_buffers := bump RkBuffer (rt_buffers self);
     rt_programs := bump RkProgram (rt_programs self); rt_queues := bump RkQueue (rt_queues self);
     rt_events := bump RkEvent (rt_events self) |}.

Record FaultState := {
  fs_pending_faults : list FaultStep;
  fs_occurrences : list Z;
  fs_next_sequence : Z;
  fs_next_resource_id : Z;
  fs_calls : list CallRecord;
  fs_releases : list ReleaseRecord;
  fs_resources : list AuditedResource;
  fs_parents : list (ResourceId * ResourceId);
  fs_event_dependencies : list (ResourceId * list ResourceId);
  fs_event_completions : list (ResourceId * EventState);
  fs_violations : list OwnershipViolation;
}.

Definition FaultState_new (script : list FaultStep) : FaultState := {|
  fs_pending_faults := script; fs_occurrences := replicate FAULT_POINT_COUNT 0; fs_next_sequence := 1;
  fs_next_resource_id := 1; fs_calls := []; fs_releases := []; fs_resources := []; fs_parents := [];
  fs_event_dependencies := []; fs_event_completions := []; fs_violations := [] |}.

(** Field updates. *)
Definition fs_set_calls occurrences pending sequence calls s := {|
  fs_pending_faults := pending; fs_occurrences := occurrences; fs_next_sequence := sequence;
  fs_next_resource_id := fs_next_resource_id s; fs_calls := calls; fs_releases := fs_releases s;
  fs_resources := fs_resources s; fs_parents := fs_parents s; fs_event_dependencies := fs_event_dependencies s;
  fs_event_completions := fs_event_completions s; fs_violations := fs_violations s |}.
Definition fs_set_registered next resources s := {|
  fs_pending_faults := fs_pending_faults s; fs_occurrences := fs_occurrences s; fs_next_sequence := fs_next_sequence s;
  fs_next_resource_id := next; fs_calls := fs_calls s; fs_releases := fs_releases s;
  fs_resources := resources; fs_parents := fs_parents s; fs_event_dependencies := fs_event_dependencies s;
  fs_event_completions := fs_event_completions s; fs_violations := fs_violations s |}.
Definition fs_set_resources resources s := fs_set_registered (fs_next_resource_id s) resources s.
Definition fs_set_parents parents s := {|
  fs_pending_faults := fs_pending_faults s; fs_occurrences := fs_occurrences s; fs_next_sequence := fs_next_sequence s;
  fs_next_resource_id := fs_next_resource_id s; fs_calls := fs_calls s; fs_releases := fs_releases s;
  fs_resources := fs_resources s; fs_parents := parents; fs_event_dependencies := fs_event_dependencies s;
  fs_event_completions := fs_event_completions s; fs_violations := fs_violations s |}.
Definition fs_set_dependencies dependencies s := {|
  fs_pending_faults := fs_pending_faults s; fs_occurrences := fs_occurrences s; fs_next_sequence := fs_next_sequence s;
  fs_next_resource_id := fs_next_resource_id s; fs_calls := fs_calls s; fs_releases := fs_releases s;
  fs_resources := fs_resources s; fs_parents := fs_parents s; fs_event_dependencies := dependencies;
  fs_event_completions := fs_event_completions s; fs_violations := fs_violations s |}.
Definition fs_set_completions completions s := {|
  fs_pending_faults := fs_pending_faults s; fs_occurrences := fs_occurrences s; fs_next_sequence := fs_next_sequence s;
  fs_next_resource_id := fs_next_resource_id s; fs_calls := fs_calls s; fs_releases := fs_releases s;
  fs_resources := fs_resources s; fs_parents := fs_parents s; fs_event_dependencies := fs_event_dependencies s;
  fs_event_completions := completions; fs_violations := fs_violations s |}.
Definition fs_set_releases releases s := {|
  fs_pending_faults := fs_pending_faults s; fs_occurrences := fs_occurrences s; fs_next_sequence := fs_next_sequence s;
  fs_next_resource_id := fs_next_resource_id s; fs_calls := fs_calls s; fs_releases := releases;
  fs_resources := fs_resources s; fs_parents := fs_parents s; fs_event_dependencies := fs_event_dependencies s;
  fs_event_completions := fs_event_completions s; fs_violations := fs_violations s |}.
Definition fs_add_violation violation s := {|
  fs_pending_faults := fs_pending_faults s; fs_occurrences := fs_occurrences s; fs_next_sequence := fs_next_sequence s;
  fs_next_resource_id := fs_next_resource_id s; fs_calls := fs_calls s; fs_releases := fs_releases s;
  fs_resources := fs_resources s; fs_parents := fs_parents s; fs_event_dependencies := fs_event_dependencies s;
  fs_event_completions := fs_event_completions s; fs_violations := fs_violations s ++ [violation] |}.

(** ** Snapshots *)

Record FaultSnapshot := {
  sn_calls : list CallRecord;
  sn_releases : list ReleaseRecord;
  sn_resources : list AuditedResource;
  sn_pending_faults : list FaultStep;
  sn_violations : list OwnershipViolation;
}.

Definition resources_in (self : FaultSnapshot) (state : ResourceState) : ResourceTally :=
  foldl (fun tally resource => ResourceTally_increment (rr_kind resource) tally) ResourceTally_default
    (filter (fun item => rr_state item = state) (sn_resources self)).

Definition is_clean (self : FaultSnapshot) : bool :=
  bool_decide (sn_pending_faults self = []) && bool_decide (sn_violations self = [])
  && bool_decide (resources_in self RsLive = ResourceTally_default)
  && bool_decide (resources_in self RsIndeterminate = ResourceTally_default).

Definition snapshot (self : FaultState) : FaultSnapshot := {|
  sn_calls := fs_calls self; sn_releases := fs_releases self; sn_resources := fs_resources self;
  sn_pending_faults := fs_pending_faults self; sn_violations := fs_violations self |}.

(** [matches!(state, Live | Indeterminate)] *)
Definition retained (state : ResourceState) : bool :=
  match state with RsLive | RsIndeterminate => true | RsReleased | RsDiscarded => false end.

Definition with_state (state : ResourceState) (resource : AuditedResource) : AuditedResource :=
  {| rr_id := rr_id resource; rr_kind := rr_kind resource; rr_state := state |}.

Definition discard_all (self : FaultState) : FaultState :=
  fs_set_resources ((fun resource => if retained (rr_state resource) then with_state RsDiscarded resource else resource)
    <$> fs_resources self) self.

(** ** The control

    [FaultControl] shares its state through an [Rc<RefCell<..>>]; the state is
    the argument here. *)

Inductive ReleaseValidation := RvReady | RvInvalid | RvPremature.

(** [position(..).map(|index| remove(index).action)] *)
Fixpoint take_fault (point : FaultPoint) (occurrence : Z) (steps : list FaultStep) : list FaultStep * option FaultAction :=
  match steps with
  | [] => ([], None)
  | step :: steps =>
      if same_step point occurrence step then (steps, Some (fst_action step))
      else let '(rest, action) := take_fault point occurrence steps in (step :: rest, action)
  end.

Definition set_completion (id : ResourceId) (completion : EventState) (s : FaultState) : FaultState :=
  match list_find (fun item => item.1 = id) (fs_event_completions s) with
  | Some (index, _) => fs_set_completions (<[index := (id, completion)]> (fs_event_completions s)) s
  | None => fs_set_completions (fs_event_completions s ++ [(id, completion)]) s
  end.

Definition completion (id : ResourceId) (s : FaultState) : option EventState :=
  (fun found => found.2.2) <$> list_find (fun item => item.1 = id) (fs_event_completions s).

Definition find_resource (id : ResourceId) (s : FaultState) : option (nat * AuditedResource) :=
  list_find (fun item => rr_id item = id) (fs_resources s).

Definition validate (id : ResourceId) (expected : ResourceKind) (s : FaultState) : FaultState * bool :=
  match find_resource id s with
  | None => (fs_add_violation (OvUnknownResource id expected) s, false)
  | Some (_, resource) =>
      if negb (bool_decide (rr_kind resource = expected)) then
        (fs_add_violation (OvKindMismatch id expected (rr_kind resource)) s, false)
      else if negb (bool_decide (rr_state resource = RsLive)) then
        (fs_add_violation (OvResourceNotLive id expected (rr_state resource)) s, false)
      else (s, true)
  end.

(** [resources.iter().any(..)]: the resource [id] is live or indeterminate. *)
Definition is_retained (id : ResourceId) (s : FaultState) : bool :=
  existsb (fun resource => (rr_id resource =? id) && retained (rr_state resource)) (fs_resources s).

Definition retained_by (id : ResourceId) (expected : ResourceKind) (s : FaultState) : option ResourceId :=
  match expected with
  | RkContext =>
      fst <$> List.find (fun '(child, parent) => (parent =? id) && is_retained child s) (fs_parents s)
  | RkBuffer | RkProgram | RkQueue =>
      fst <$> List.find (fun '(event, dependencies) => existsb (Z.eqb id) dependencies && is_retained event s)
        (fs_event_dependencies s)
  | RkEvent => None
  end.

Definition validate_release (id : ResourceId) (expected : ResourceKind) (s : FaultState) : FaultState * ReleaseValidation :=
  let '(s, valid) := validate id expected s in
  if negb valid then (s, RvInvalid)
  else
    match retained_by id expected s with
    | Some by_id => (fs_add_violation (OvPrematureRelease id expected by_id) s, RvPremature)
    | None => (s, RvReady)
    end.

(** [if let Some(resource) = find(id) { resource.state = state }] *)
Definition set_resource_state (id : ResourceId) (state : ResourceState) (s : FaultState) : FaultState :=
  match find_resource id s with
  | Some (index, resource) => fs_set_resources (<[index := with_state state resource]> (fs_resources s)) s
  | None => s
  end.

Definition outcome_state (outcome : ReleaseOutcome) : ResourceState :=
  match outcome with
  | RoSuccess => RsReleased
  | RoRejected _ => RsLive
  | RoIndeterminate _ => RsIndeterminate
  end.

(** ** The wrapper *)

Record Tracked (T : Type) := MkTracked {
  tr_id : ResourceId;
  tr_inner : T;
}.
Arguments MkTracked {T}.
Arguments tr_id {T}.
Arguments tr_inner {T}.

Fixpoint sink_map {T U} (f : T -> U) (p : SinkProgram T) : SinkProgram U :=
  match p with
  | SinkReturn x => SinkReturn (f x)
  | SinkWrite offset source k => SinkWrite offset source (fun r => sink_map f (k r))
  end.

Section Wrapper.
Context {A : Accelerator}.

Record FaultWorld := {
  fw_inner : World;
  fw_state : FaultState;
  fw_panicked : bool;
}.

Definition FaultAccelerator_new (inner : World) (script : list FaultStep) : FaultWorld :=
  {| fw_inner := inner; fw_state := FaultState_new script; fw_panicked := false |}.

Definition fw_set_inner v w := {| fw_inner := v; fw_state := fw_state w; fw_panicked := fw_panicked w |}.
Definition fw_set_state v w := {| fw_inner := fw_inner w; fw_state := v; fw_panicked := fw_panicked w |}.
Definition fw_panic w := {| fw_inner := fw_inner w; fw_state := fw_state w; fw_panicked := true |}.

(** A method's body: [None] when it panics. *)
Definition FaultM (T : Type) : Type := FaultWorld -> FaultWorld * option T.

Definition fret {T} (x : T) : FaultM T := fun w => (w, Some x).
Definition fpanic {T} : FaultM T := fun w => (w, None).
Definition fbind {T U} (m : FaultM T) (k : T -> FaultM U) : FaultM U := fun w =>
  let '(w, r) := m w in
  match r with
  | Some x => k x w
  | None => (w, None)
  end.

#[local] Notation "'do' x '<-' m ';' k" := (fbind m (fun x => k)) (at level 10, x name, m at level 100, k at level 200).

(** An operation of the control, and a call of the inner backend. *)
Definition control {T} (f : FaultState -> FaultState * T) : FaultM T := fun w =>
  let '(s, x) := f (fw_state w) in (fw_set_state s w, Some x).
Definition update (f : FaultState -> FaultState) : FaultM unit := control (fun s => (f s, tt)).
Definition inner {T} (f : World -> World * T) : FaultM T := fun w =>
  let '(v, x) := f (fw_inner w) in (fw_set_inner v w, Some x).
(** [checked_add(1).expect(..)] *)
Definition expect {T} (o : option T) : FaultM T := match o with Some x => fret x | None => fpanic end.

Definition begin_call (point : FaultPoint) : FaultM (option FaultAction) :=
  do s <- control (fun s => (s, s));
  do occurrence <- expect (checked_add U32_MAX (default 0 (fs_occurrences s !! FaultPoint_index point)) 1);
  let occurrences := <[FaultPoint_index point := occurrence]> (fs_occurrences s) in
  let '(pending, injected) := take_fault point occurrence (fs_pending_faults s) in
  let sequence := fs_next_sequence s in
  do next <- expect (checked_add U64_MAX sequence 1);
  do _ <- update (fs_set_calls occurrences pending next (fs_calls s ++ [{| cr_sequence := sequence; cr_point := point;
    cr_occurrence := occurrence; cr_injected := injected |}]));
  fret injected.

Definition register (kind : ResourceKind) : FaultM ResourceId :=
  do s <- control (fun s => (s, s));
  let id := fs_next_resource_id s in
  do next <- expect (checked_add U64_MAX id 1);
  do _ <- update (fs_set_registered next (fs_resources s ++ [{| rr_id := id; rr_kind := kind; rr_state := RsLive |}]));
  fret id.

Definition register_child (kind : ResourceKind) (parent : ResourceId) : FaultM ResourceId :=
  do id <- register kind;
  do _ <- update (fun s => fs_set_parents (fs_parents s ++ [(id, parent)]) s);
  fret id.

Definition register_event (dependencies : list ResourceId) : FaultM ResourceId :=
  do id <- register RkEvent;
  do _ <- update (fun s => fs_set_dependencies (fs_event_dependencies s ++ [(id, dependencies)]) s);
  fret id.

Definition finish_release (id : ResourceId) (kind : ResourceKind) (outcome : ReleaseOutcome) (rollback : bool) : FaultM unit :=
  do s <- control (fun s => (s, s));
  let prior_attempts := zlen (filter (fun record => rl_resource_id record = id) (fs_releases s)) in
  do prior_attempts <- expect (try_from U32_MAX prior_attempts);
  do attempt <- expect (checked_add U32_MAX prior_attempts 1);
  do _ <- update (fs_set_releases (fs_releases s ++ [{| rl_resource_id := id; rl_kind := kind; rl_attempt := attempt;
    rl_outcome := outcome; rl_rollback := rollback |}]));
  update (set_resource_state id (outcome_state outcome)).

Definition finish_rollback (id : ResourceId) (kind : ResourceKind) (outcome : ReleaseOutcome) : FaultM unit :=
  do _ <- finish_release id kind outcome true;
  match outcome with
  | RoRejected error | RoIndeterminate error =>
      do _ <- update (set_resource_state id RsIndeterminate);
      update (fs_add_violation (OvRollbackFailed id kind error))
  | RoSuccess => fret tt
  end.

Definition before_error (action : option FaultAction) : option BackendError :=
  match action with Some (ActErrorBefore error) => Some error | _ => None end.

Definition after_error (action : option FaultAction) : option BackendError :=
  match action with Some (ActErrorAfter error) => Some error | _ => None end.

Definition rollback_resource {R} (id : ResourceId) (kind : ResourceKind) (resource : R)
    (release : R -> World -> World * result unit (ReleaseFailure R)) : FaultM unit :=
  do r <- inner (release resource);
  finish_rollback id kind
    match r with
    | Ok _ => RoSuccess
    | Err (ReleaseRejected error _) => RoRejected error
    | Err (ReleaseIndeterminate error) => RoIndeterminate error
    end.

Definition release_resource {R} (point : FaultPoint) (kind : ResourceKind) (tracked : Tracked R)
    (release : R -> World -> World * result unit (ReleaseFailure R)) : FaultM (result unit (ReleaseFailure (Tracked R))) :=
  do action <- begin_call point;
  let id := tr_id tracked in
  do validation <- control (validate_release id kind);
  match validation with
  | RvInvalid => fret (Err (ReleaseIndeterminate BeDeviceLost))
  | RvPremature =>
      do _ <- finish_release id kind (RoIndeterminate BeDeviceLost) false;
      fret (Err (ReleaseIndeterminate BeDeviceLost))
  | RvReady =>
      match action with
      | Some (ActRejected error) =>
          do _ <- finish_release id kind (RoRejected error) false;
          fret (Err (ReleaseRejected error tracked))
      | Some (ActIndeterminate error) =>
          do _ <- finish_release id kind (RoIndeterminate error) false;
          fret (Err (ReleaseIndeterminate error))
      | None =>
          do r <- inner (release (tr_inner tracked));
          match r with
          | Ok _ =>
              do _ <- finish_release id kind RoSuccess false;
              fret (Ok tt)
          | Err (ReleaseRejected error resource) =>
              do _ <- finish_release id kind (RoRejected error) false;
              fret (Err (ReleaseRejected error (MkTracked id resource)))
          | Err (ReleaseIndeterminate error) =>
              do _ <- finish_release id kind (RoIndeterminate error) false;
              fret (Err (ReleaseIndeterminate error))
          end
      | Some (ActErrorBefore _ | ActErrorAfter _ | ActCompletion _) => fpanic
      end
  end.

Definition validate_resource {T} (resource : Tracked T) (kind : ResourceKind) : FaultM (result unit BackendError) :=
  do valid <- control (validate (tr_id resource) kind);
  fret (if valid : bool then Ok tt else Err BeDeviceLost).

(** [match (result, after_error(action))] *)
Definition replace_success {T} (r : result T BackendError) (action : option FaultAction) : result T BackendError :=
  match r, after_error action with
  | Ok _, Some error => Err error
  | r, _ => r
  end.

(** What the methods that use a handle do first: record the call, check the
    handle and apply a fault before the call. *)
Definition enter {T} (point : FaultPoint) (resource : Tracked T) (kind : ResourceKind) :
    FaultM (result (option FaultAction) BackendError) :=
  do action <- begin_call point;
  do valid <- validate_resource resource kind;
  fret (let? _ := valid in
        match before_error action with
        | Some error => Err error
        | None => Ok action
        end).

Definition fault_device_info : FaultM (result DeviceInfo BackendError) :=
  do action <- begin_call FpDeviceInfo;
  match before_error action with
  | Some error => fret (Err error)
  | None =>
      do r <- inner acc_device_info;
      fret (replace_success r action)
  end.

Definition fault_create_context (desc : ContextDesc) : FaultM (result (Tracked Context) BackendError) :=
  do action <- begin_call FpCreateContext;
  match before_error action with
  | Some error => fret (Err error)
  | None =>
      do r <- inner (acc_create_context desc);
      match r with
      | Err error => fret (Err error)
      | Ok context =>
          do id <- register RkContext;
          match after_error action with
          | Some error =>
              do _ <- rollback_resource id RkContext context acc_destroy_context;
              fret (Err error)
          | None => fret (Ok (MkTracked id context))
          end
      end
  end.

(** [allocate_buffer], [load_program] and [create_queue]: the call of the
    inner backend yields the resource with what is reported beside it. *)
Definition create_child {R I} (point : FaultPoint) (kind : ResourceKind) (context : Tracked Context)
    (create : World -> World * result (R * I) BackendError)
    (release : R -> World -> World * result unit (ReleaseFailure R)) : FaultM (result (Tracked R * I) BackendError) :=
  do entered <- enter point context RkContext;
  match entered with
  | Err error => fret (Err error)
  | Ok action =>
      do r <- inner create;
      match r with
      | Err error => fret (Err error)
      | Ok (resource, info) =>
          do id <- register_child kind (tr_id context);
          match after_error action with
          | Some error =>
              do _ <- rollback_resource id kind resource release;
              fret (Err error)
          | None => fret (Ok (MkTracked id resource, info))
          end
      end
  end.

Definition with_unit {R} (f : World -> World * result R BackendError) (w : World) : World * result (R * unit) BackendError :=
  let '(w, r) := f w in (w, result_map (fun x => (x, tt)) r).

Definition fault_allocate_buffer (context : Tracked Context) (desc : BufferDesc) :
    FaultM (result (Tracked Buffer * BufferInfo) BackendError) :=
  create_child FpAllocateBuffer RkBuffer context (acc_allocate_buffer (tr_inner context) desc) acc_free_buffer.

Definition fault_load_program (context : Tracked Context) (artifact : ArtifactRef) : FaultM (result (Tracked Program) BackendError) :=
  do r <- create_child FpLoadProgram RkProgram context (with_unit (acc_load_program (tr_inner context) artifact)) acc_unload_program;
  fret (result_map fst r).

Definition fault_create_queue (context : Tracked Context) (desc : QueueDesc) : FaultM (result (Tracked Queue) BackendError) :=
  do r <- create_child FpCreateQueue RkQueue context (with_unit (acc_create_queue (tr_inner context) desc)) acc_destroy_queue;
  fret (result_map fst r).

Definition fault_write_buffer (buffer : Tracked Buffer) (offset : Z) (data : ByteSource) :
    FaultM (Tracked Buffer * result unit BackendError) :=
  do entered <- enter FpWriteBuffer buffer RkBuffer;
  match entered with
  | Err error => fret (buffer, Err error)
  | Ok action =>
      do written <- inner (acc_write_buffer (tr_inner buffer) offset data);
      let '(b, r) := written in
      fret (MkTracked (tr_id buffer) b, replace_success r action)
  end.

(** The bytes go to the sink as the inner backend writes them. *)
Definition fault_read_buffer (buffer : Tracked Buffer) (offset data_len : Z) (w : FaultWorld) :
    SinkProgram (FaultWorld * option (result unit BackendError)) :=
  let '(w, entered) := enter FpReadBuffer buffer RkBuffer w in
  match entered with
  | None => SinkReturn (w, None)
  | Some (Err error) => SinkReturn (w, Some (Err error))
  | Some (Ok action) =>
      sink_map (fun done => (fw_set_inner done.1 w, Some (replace_success done.2 action)))
        (acc_read_buffer (tr_inner buffer) offset data_len (fw_inner w))
  end.

(** [for binding in bindings] of [submit]: the inner bindings. *)
Fixpoint inner_bindings (bindings : list (BindingRef (Tracked Buffer))) : FaultM (result (list (BindingRef Buffer)) BackendError) :=
  match bindings with
  | [] => fret (Ok [])
  | binding :: bindings =>
      do valid <- validate_resource (bref_buffer binding) RkBuffer;
      match valid with
      | Err error => fret (Err error)
      | Ok _ =>
          do rest <- inner_bindings bindings;
          fret (result_map (cons {| bref_slot := bref_slot binding; bref_buffer := tr_inner (bref_buffer binding);
                  bref_range := bref_range binding; bref_access := bref_access binding |}) rest)
      end
  end.

Definition dependencies (queue : Tracked Queue) (program : Tracked Program) (bindings : list (BindingRef (Tracked Buffer))) :
    list ResourceId :=
  tr_id queue :: tr_id program :: ((fun binding => tr_id (bref_buffer binding)) <$> bindings).

Definition fault_submit (queue : Tracked Queue) (program : Tracked Program) (bindings : list (BindingRef (Tracked Buffer)))
    (timeout : Timeout) : FaultM (result (Tracked Event) (SubmitFailure (Tracked Event))) :=
  do action <- begin_call FpSubmit;
  do valid_queue <- validate_resource queue RkQueue;
  match valid_queue with
  | Err error => fret (Err (SubmitRejected error))
  | Ok _ =>
      do valid_program <- validate_resource program RkProgram;
      match valid_program with
      | Err error => fret (Err (SubmitRejected error))
      | Ok _ =>
          do checked <- inner_bindings bindings;
          match checked with
          | Err error => fret (Err (SubmitRejected error))
          | Ok native =>
              match action with
              | Some (ActRejected error) => fret (Err (SubmitRejected error))
              | _ =>
                  let scripted_indeterminate := match action with Some (ActIndeterminate error) => Some error | _ => None end in
                  do r <- inner (acc_submit (tr_inner queue) (tr_inner program) native timeout);
                  match r with
                  | Ok event =>
                      do id <- register_event (dependencies queue program bindings);
                      fret match scripted_indeterminate with
                           | Some error => Err (SubmitIndeterminate error (MkTracked id event))
                           | None => Ok (MkTracked id event)
                           end
                  | Err (SubmitRejected error) => fret (Err (SubmitRejected error))
                  | Err (SubmitIndeterminate error event) =>
                      do id <- register_event (dependencies queue program bindings);
                      fret (Err (SubmitIndeterminate (default error scripted_indeterminate) (MkTracked id event)))
                  end
              end
          end
      end
  end.

Definition fault_poll_event (event : Tracked Event) : FaultM (result EventState BackendError) :=
  do entered <- enter FpPollEvent event RkEvent;
  match entered with
  | Err error => fret (Err error)
  | Ok action =>
      do _ <- match action with
              | Some (ActCompletion state) => update (set_completion (tr_id event) state)
              | _ => fret tt
              end;
      do known <- control (fun s => (s, completion (tr_id event) s));
      do r <- match known with
              | Some state => fret (Ok state)
              | None => inner (acc_poll_event (tr_inner event))
              end;
      fret (replace_success r action)
  end.

Definition fault_cancel_event (event : Tracked Event) : FaultM (result unit BackendError) :=
  do entered <- enter FpCancelEvent event RkEvent;
  match entered with
  | Err error => fret (Err error)
  | Ok action =>
      do known <- control (fun s => (s, completion (tr_id event) s));
      match known with
      | Some _ => fret (Err BeBusy)
      | None =>
          do r <- inner (acc_cancel_event (tr_inner event));
          fret (replace_success r action)
      end
  end.

(** The closure of [destroy_event]. *)
Definition destroy_inner_event (synthetic_completion : bool) (resource : Event) (w : World) :
    World * result unit (ReleaseFailure Event) :=
  if synthetic_completion then
    let '(w, cancelled) := acc_cancel_event resource w in
    match cancelled with
    | Err error => if decide (error = BeBusy) then acc_destroy_event resource w else (w, Err (ReleaseRejected error resource))
    | Ok _ => acc_destroy_event resource w
    end
  else acc_destroy_event resource w.

Definition fault_destroy_event (event : Tracked Event) : FaultM (result unit (ReleaseFailure (Tracked Event))) :=
  do known <- control (fun s => (s, completion (tr_id event) s));
  release_resource FpDestroyEvent RkEvent event (destroy_inner_event (bool_decide (is_Some known))).

(** A method of the contract: a panic leaves its mark and answers [lost]. *)
Definition run_fault {T} (lost : T) (m : FaultM T) (w : FaultWorld) : FaultWorld * T :=
  let '(w, r) := m w in
  match r with
  | Some x => (w, x)
  | None => (fw_panic w, lost)
  end.

End Wrapper.
Arguments FaultWorld : clear implicits.

Abbreviation lost_call := (Err BeDeviceLost).
Abbreviation lost_release := (Err (ReleaseIndeterminate BeDeviceLost)).

(** [impl<A: Accelerator> Accelerator for FaultAccelerator<A>] *)
Definition fault_accelerator (A : Accelerator) : Accelerator := {|
  World := FaultWorld A; Context := Tracked Context; Buffer := Tracked Buffer; Program := Tracked Program;
  Queue := Tracked Queue; Event := Tracked Event;
  acc_device_info := run_fault lost_call fault_device_info;
  acc_create_context desc := run_fault lost_call (fault_create_context desc);
  acc_destroy_context x := run_fault lost_release (release_resource FpDestroyContext RkContext x acc_destroy_context);
  acc_allocate_buffer c desc := run_fault lost_call (fault_allocate_buffer c desc);
  acc_write_buffer b offset data := run_fault (b, lost_call) (fault_write_buffer b offset data);
  acc_read_buffer b offset n w :=
    sink_map (fun done => match done with
                          | (w, Some r) => (w, r)
                          | (w, None) => (fw_panic w, lost_call)
                          end) (fault_read_buffer b offset n w);
  acc_free_buffer x := run_fault lost_release (release_resource FpFreeBuffer RkBuffer x acc_free_buffer);
  acc_load_program c artifact := run_fault lost_call (fault_load_program c artifact);
  acc_unload_program x := run_fault lost_release (release_resource FpUnloadProgram RkProgram x acc_unload_program);
  acc_create_queue c desc := run_fault lost_call (fault_create_queue c desc);
  acc_destroy_queue x := run_fault lost_release (release_resource FpDestroyQueue RkQueue x acc_destroy_queue);
  acc_submit q p bs timeout := run_fault (Err (SubmitRejected BeDeviceLost)) (fault_submit q p bs timeout);
  acc_poll_event e := run_fault lost_call (fault_poll_event e);
  acc_cancel_event e := run_fault lost_call (fault_cancel_event e);
  acc_destroy_event e := run_fault lost_release (fault_destroy_event e);
|}.
