(* ===== verification/Ownership.v ===== *)
(** * The ownership graph of a device state

    What the device state says about the backend's handles, without counts,
    charges and the layout of the tables: which object holds which handle, in
    which context it lives and which objects an event references.  Every
    operation of the state adds one node to the graph, removes one, or leaves
    the graph as it is. *)

From Stdlib Require Import ZArith Lia.
From stdpp Require Import prelude list.
From S2P Require Import Prelude Core ObjectTable State TableFacts ChildInv StateInv StateEvents StateFacts ResetLive Fault.

(** A handle with an identity of its own. *)
Class Named (T : Type) := name_of : T -> Z.

#[global] Instance tracked_named {T} : Named (Tracked T) := tr_id.

Record Node := {
  nd_handle : option Z;
  nd_context : option ObjectId;
  nd_refs : list (ResourceKind * ObjectId);
}.

Section Graph.
Context {C B P Q E : Type} `{!Named C, !Named B, !Named P, !Named Q, !Named E}.
Implicit Types (st : DeviceState C B P Q E) (id : ObjectId).

Definition context_node (r : ContextRecord C) : Node :=
  {| nd_handle := name_of <$> slot_resource (ctx_slot r); nd_context := None; nd_refs := [] |}.
Definition buffer_node (r : BufferRecord B) : Node :=
  {| nd_handle := name_of <$> slot_resource (buf_slot r); nd_context := Some (buf_context_id r); nd_refs := [] |}.
Definition program_node (r : ProgramRecord P) : Node :=
  {| nd_handle := name_of <$> slot_resource (prg_slot r); nd_context := Some (prg_context_id r); nd_refs := [] |}.
Definition queue_node (r : QueueRecord Q) : Node :=
  {| nd_handle := name_of <$> slot_resource (que_slot r); nd_context := Some (que_context_id r); nd_refs := [] |}.
Definition event_node (r : EventRecord E) : Node :=
  {| nd_handle := name_of <$> slot_resource (evt_slot r); nd_context := None;
     nd_refs := (RkQueue, evt_queue_id r) :: ((fun p => (RkProgram, p)) <$> evt_program_ids r) ++
                ((fun b => (RkBuffer, b)) <$> evt_buffer_ids r) |}.

Definition node st (k : ResourceKind) id : option Node :=
  match k with
  | RkContext => context_node <$> lookup_id id (ds_contexts st)
  | RkBuffer => buffer_node <$> lookup_id id (ds_buffers st)
  | RkProgram => program_node <$> lookup_id id (ds_programs st)
  | RkQueue => queue_node <$> lookup_id id (ds_queues st)
  | RkEvent => event_node <$> lookup_id id (ds_events st)
  end.

(** How an operation changes the graph. *)
Definition graph_same st st' : Prop := forall k i, node st' k i = node st k i.
Definition graph_insert st k id n st' : Prop :=
  node st k id = None /\ forall k' i, node st' k' i = if decide (k' = k /\ i = id) then Some n else node st k' i.
Definition graph_remove st k id st' : Prop :=
  forall k' i, node st' k' i = if decide (k' = k /\ i = id) then None else node st k' i.

(** Object [id] of kind [k] holds the handle named [h]. *)
Definition holds st k id (h : Z) : Prop := exists n, node st k id = Some n /\ nd_handle n = Some h.

Lemma graph_same_refl st : graph_same st st.
Proof. done. Qed.

Lemma graph_same_trans st1 st2 st3 : graph_same st1 st2 -> graph_same st2 st3 -> graph_same st1 st3.
Proof. intros H1 H2 k i. by rewrite H2, H1. Qed.

Lemma view_graph st st' : same_view st st' -> graph_same st st'.
Proof. intros Hv k i. destruct k; simpl; rewrite ?(sv_contexts _ _ Hv), ?(sv_buffers _ _ Hv), ?(sv_programs _ _ Hv), ?(sv_queues _ _ Hv), ?(sv_events _ _ Hv); done. Qed.

(** ** Table changes that keep the nodes *)

Section Tables.
Context {Rec : Type} (f : Rec -> Node).
Implicit Types (t : ObjectTable Rec).

Definition nodes_same t t' : Prop := forall x, f <$> lookup_id x t' = f <$> lookup_id x t.

Lemma nodes_same_refl t : nodes_same t t.
Proof. done. Qed.

Lemma nodes_same_trans t1 t2 t3 : nodes_same t1 t2 -> nodes_same t2 t3 -> nodes_same t1 t3.
Proof. intros H1 H2 x. by rewrite H2, H1. Qed.

Lemma updated_nodes t id r r' t' : updated t id r r' t' -> f r' = f r -> nodes_same t t'.
Proof.
  intros Hu Hf x. rewrite (up_lookup _ _ _ _ _ Hu). case_decide as Hx; [|done]. subst.
  rewrite (up_at _ _ _ _ _ Hu). simpl. by rewrite Hf.
Qed.

Lemma table_update_nodes g t id t' :
  (forall r, f (g r) = f r) -> table_wf t -> table_update id g t = Ok t' -> table_wf t' /\ nodes_same t t'.
Proof.
  intros Hg Hwf (r & Hu)%table_update_Ok; [|done]. split; [apply (up_wf _ _ _ _ _ Hu)|]. by eapply updated_nodes.
Qed.

Lemma table_update_all_nodes g ids t t' :
  (forall r, f (g r) = f r) -> table_wf t -> table_update_all ids g t = (t', Ok tt) -> table_wf t' /\ nodes_same t t'.
Proof.
  intros Hg. revert t. induction ids as [|id ids IH]; intros t Hwf; cbn [table_update_all]; [by intros [= <-]|].
  destruct (table_update id g t) as [t1|] eqn:Hu; [|done]. intros Ha.
  destruct (table_update_nodes _ _ _ _ Hg Hwf Hu) as [Hwf1 Hs1]. destruct (IH _ Hwf1 Ha) as [Hwf2 Hs2].
  split; [done|by eapply nodes_same_trans].
Qed.

End Tables.

Lemma add_child_node k r : context_node (add_child k r) = context_node r.
Proof. done. Qed.

Lemma drop_child_nodes k ctx st st' :
  table_wf (ds_contexts st) -> drop_child_of k ctx st = (st', Ok tt) ->
  nodes_same context_node (ds_contexts st) (ds_contexts st') /\ st' = with_contexts st (ds_contexts st').
Proof.
  intros Hwf. unfold drop_child_of. destruct (table_update ctx (drop_child k) (ds_contexts st)) as [t|] eqn:Hu; [|done].
  intros [= <-]. split; [|done]. by apply (table_update_nodes context_node) in Hu as [_ ?].
Qed.

Lemma update_references_nodes fq fp fb fc ctx q ps bs st st' :
  (forall r, queue_node (fq r) = queue_node r) -> (forall r, program_node (fp r) = program_node r) ->
  (forall r, buffer_node (fb r) = buffer_node r) -> (forall r, context_node (fc r) = context_node r) ->
  table_wf (ds_contexts st) -> table_wf (ds_buffers st) -> table_wf (ds_programs st) -> table_wf (ds_queues st) ->
  update_event_references fq fp fb fc ctx q ps bs st = (st', Ok tt) ->
  nodes_same context_node (ds_contexts st) (ds_contexts st') /\ nodes_same buffer_node (ds_buffers st) (ds_buffers st') /\
  nodes_same program_node (ds_programs st) (ds_programs st') /\ nodes_same queue_node (ds_queues st) (ds_queues st') /\
  ds_events st' = ds_events st.
Proof.
  intros Fq Fp Fb Fc Wc Wb Wp Wq. unfold update_event_references. intros Hd.
  destruct (table_update q fq (ds_queues st)) as [tq|] eqn:Hq1; [|done].
  destruct (table_update_all ps fp _) as [tp [[]|]] eqn:Hp1; [|done].
  destruct (table_update_all bs fb _) as [tb [[]|]] eqn:Hb1; [|done].
  destruct (table_update ctx fc _) as [tc|] eqn:Hc1; [|done].
  injection Hd as <-. simpl in *. split_and!; try done.
  - by apply (table_update_nodes context_node) in Hc1 as [_ ?].
  - by apply (table_update_all_nodes buffer_node) in Hb1 as [_ ?].
  - by apply (table_update_all_nodes program_node) in Hp1 as [_ ?].
  - by apply (table_update_nodes queue_node) in Hq1 as [_ ?].
Qed.

(** Two states whose tables have the same nodes. *)
Lemma graph_tables st st' :
  nodes_same context_node (ds_contexts st) (ds_contexts st') -> nodes_same buffer_node (ds_buffers st) (ds_buffers st') ->
  nodes_same program_node (ds_programs st) (ds_programs st') -> nodes_same queue_node (ds_queues st) (ds_queues st') ->
  nodes_same event_node (ds_events st) (ds_events st') -> graph_same st st'.
Proof. intros H1 H2 H3 H4 H5 [] i; simpl; auto. Qed.

(** ** Creations *)

Lemma inserted_graph_context st t id r :
  inserted (ds_contexts st) id r t -> graph_insert st RkContext id (context_node r) (with_contexts st t).
Proof.
  intros Hi. split; [simpl; by rewrite (in_fresh _ _ _ _ Hi)|]. intros [] i; cbn [node ds_contexts ds_buffers ds_programs ds_queues ds_events with_contexts];
    try (rewrite decide_False by naive_solver; done).
  rewrite (in_lookup _ _ _ _ Hi). repeat case_decide; naive_solver.
Qed.

Lemma create_context_graph {W PE} mem (create : W -> W * result C PE) st w st' w' res :
  state_inv st -> create_context_with mem create st w = (st', w', res) ->
  match res with
  | Ok id => exists x, create w = (w', Ok x) /\
      graph_insert st RkContext id {| nd_handle := Some (name_of x); nd_context := None; nd_refs := [] |} st'
  | Err e => graph_same st st' /\ match e with CreateState _ => w' = w | CreateProvider pe => create w = (w', Err pe) end
  end.
Proof.
  intros Hinv Hc. apply create_context_cases in Hc; [|done]. destruct res as [id|e].
  - destruct Hc as (x & t & Hc & -> & Hi). exists x. split; [done|]. by apply inserted_graph_context in Hi.
  - destruct Hc as (-> & _ & ?). done.
Qed.

(** A child inserted beside a context whose children are recounted. *)
Lemma put_context_nodes ctx c put k (t : ObjectTable (ContextRecord C)) :
  table_wf t -> ObjectTable_get_mut ctx t = Ok (c, put) -> nodes_same context_node t (put (add_child k c)).
Proof. intros Hwf Hg. eapply updated_nodes; [by apply get_mut_updated|done]. Qed.

Definition child_created {W PE A} (call : C -> W -> W * result A PE) (key : A -> Z) st k ctx st' (w w' : W)
    (res : result ObjectId (CreateError PE)) : Prop :=
  match res with
  | Ok id => exists x a, context_resource st ctx x /\ call x w = (w', Ok a) /\
      graph_insert st k id {| nd_handle := Some (key a); nd_context := Some ctx; nd_refs := [] |} st'
  | Err e => graph_same st st' /\
      match e with
      | CreateState _ => w' = w
      | CreateProvider pe => exists x, context_resource st ctx x /\ call x w = (w', Err pe)
      end
  end.

Lemma create_queue_graph {W PE} mem ctx (create : C -> W -> W * result Q PE) st w st' w' res :
  state_inv st -> create_queue_with mem ctx create st w = (st', w', res) ->
  child_created create name_of st RkQueue ctx st' w w' res.
Proof.
  intros Hinv Hc. pose proof (create_queue_cases _ _ _ _ _ _ _ _ Hinv Hc) as Hcases. destruct res as [id|e].
  - destruct Hcases as (x & r & Hx & Hr & Hi & Hb & Hp & He & _). exists x, r. split; [done|]. split; [done|]. split; [cbn [node]; by rewrite (in_fresh _ _ _ _ Hi)|].
    assert (Hctx : nodes_same context_node (ds_contexts st) (ds_contexts st')).
    { unfold create_queue_with in Hc. repeat case_match; simplify_eq. eapply put_context_nodes; [apply Hinv|done]. }
    intros [] i; cbn [node]; rewrite ?Hb, ?Hp, ?He, ?Hctx; try (rewrite decide_False by naive_solver; done).
    rewrite (in_lookup _ _ _ _ Hi). repeat case_decide; naive_solver.
  - destruct Hcases as [-> ?]. done.
Qed.

Lemma create_program_graph {W PE} mem ctx artifact_bytes resident_bytes (create : C -> W -> W * result P PE) st w st' w' res :
  state_inv st -> is_u64 resident_bytes ->
  create_program_with mem ctx artifact_bytes resident_bytes create st w = (st', w', res) ->
  child_created create name_of st RkProgram ctx st' w w' res.
Proof.
  intros Hinv Hu Hc. pose proof (create_program_cases _ _ _ _ _ _ _ _ _ _ Hinv Hu Hc) as Hcases. destruct res as [id|e].
  - destruct Hcases as (x & r & Hx & Hr & Hi & Hb & Hp & He & _). exists x, r. split; [done|]. split; [done|]. split; [cbn [node]; by rewrite (in_fresh _ _ _ _ Hi)|].
    assert (Hctx : nodes_same context_node (ds_contexts st) (ds_contexts st')).
    { unfold create_program_with in Hc. repeat case_match; simplify_eq. eapply put_context_nodes; [apply Hinv|done]. }
    intros [] i; cbn [node]; rewrite ?Hb, ?Hp, ?He, ?Hctx; try (rewrite decide_False by naive_solver; done).
    rewrite (in_lookup _ _ _ _ Hi). repeat case_decide; naive_solver.
  - destruct Hcases as [-> ?]. done.
Qed.

Definition outcome_id (outcome : BufferCreateOutcome) : ObjectId :=
  match outcome with BufferAdmitted id => id | BufferCleanupRequired id _ => id end.

Lemma create_buffer_graph {W PE} mem ctx desc (create : C -> BufferDesc -> W -> W * result (B * BufferInfo) PE)
    st w st' w' res :
  state_inv st -> (forall c w w' b info, create c desc w = (w', Ok (b, info)) -> is_u64 (bi_allocation_bytes info)) ->
  create_buffer_with mem ctx desc create st w = (st', w', res) ->
  child_created (fun c => create c desc) (fun a => name_of a.1) st RkBuffer ctx st' w w' (result_map outcome_id res).
Proof.
  intros Hinv Hu Hc. pose proof (create_buffer_cases _ _ _ _ _ _ _ _ _ Hinv Hu Hc) as Hcases. destruct res as [id|e].
  - destruct Hcases as (x & b & info & Hx & Hr & Hi & Hb & Hp & He & _). fold (outcome_id id) in Hi. exists x, (b, info). split; [done|]. split; [done|]. split; [cbn [node result_map]; by rewrite (in_fresh _ _ _ _ Hi)|].
    assert (Hctx : nodes_same context_node (ds_contexts st) (ds_contexts st')).
    { unfold create_buffer_with in Hc. repeat case_match; simplify_eq; eapply put_context_nodes; by try apply Hinv. }
    intros [] i; cbn [node]; rewrite ?Hb, ?Hp, ?He, ?Hctx; try (rewrite decide_False by naive_solver; done).
    rewrite (in_lookup _ _ _ _ Hi). repeat case_decide; naive_solver.
  - destruct Hcases as [-> ?]. done.
Qed.

(** The references an admission takes leave the graph as it is. *)
Lemma bumped_nodes {Rec R} `{RefRecord Rec R} (f : Rec -> Node) n (t t' : ObjectTable Rec) :
  (forall m r, f (rec_with_in_flight m r) = f r) -> bumped n t t' -> nodes_same f t t'.
Proof.
  intros Hf (_ & _ & _ & Hl & _) x. rewrite Hl. destruct (lookup_id x t); [|done]. simpl. by rewrite Hf.
Qed.

Lemma refs_taken_graph st ctx q ps bs st1 : state_inv st -> refs_taken st ctx q ps bs st1 -> graph_same st st1.
Proof.
  intros Hinv [(tq & tp & tb & tc & ->) Hq Hp Hb (c & put & Hput & Htc & _) _]. simpl in *. apply graph_tables; simpl.
  - rewrite Htc. eapply put_context_nodes; [apply Hinv|done].
  - by eapply bumped_nodes.
  - by eapply bumped_nodes.
  - by eapply bumped_nodes.
  - done.
Qed.

Definition event_refs (q p : ObjectId) (bs : list ObjectId) : list (ResourceKind * ObjectId) :=
  (RkQueue, q) :: (RkProgram, p) :: ((fun b => (RkBuffer, b)) <$> bs).

(** The handles an admission closure sees are those of the graph. *)
Record sees st (q p : ObjectId) (bs : list ObjectId) (resources : SubmissionResources B P Q) : Prop := {
  se_queue : holds st RkQueue q (name_of (sub_queue resources));
  se_program : holds st RkProgram p (name_of (sub_program resources));
  se_buffer : forall id b info, buffer_with_info_by_id id resources = Ok (b, info) ->
    id ∈ bs /\ holds st RkBuffer id (name_of b);
}.

Lemma create_event_graph {W PE} mem q p bs (create : SubmissionResources B P Q -> W -> W * result E PE) st w st' w' res :
  state_inv st -> create_event_with mem q p bs create st w = (st', w', res) ->
  (exists e, res = Err (CreateState e) /\ w' = w /\ graph_same st st') \/
  exists resources, sees st q p bs resources /\
    match create resources w with
    | (w1, Ok ev) => w' = w1 /\ exists id, res = Ok id /\
        graph_insert st RkEvent id {| nd_handle := Some (name_of ev); nd_context := None; nd_refs := event_refs q p (sort_ids bs) |} st'
    | (w1, Err pe) => w' = w1 /\ res = Err (CreateProvider pe) /\ graph_same st st'
    end.
Proof.
  intros Hinv. unfold create_event_with.
  destruct (zlen bs =? 0); [intros [= <- <- <-]; left; by eexists|].
  destruct (_ <? _); [intros [= <- <- <-]; left; by eexists|].
  destruct (validate_submission q p bs st) as [ctx|] eqn:Hv; [|intros [= <- <- <-]; left; by eexists].
  apply validate_submission_Ok in Hv. unfold admit_event.
  destruct (table_get ctx (ds_contexts st)) as [c|] eqn:Hc; [|intros [= <- <- <-]; left; by eexists].
  apply table_get_Ok in Hc.
  destruct (Z.leb_spec (max_events_per_context (ds_limits st)) (ch_events (ctx_children c))) as [|Hlt];
    [intros [= <- <- <-]; left; by eexists|].
  destruct (try_reserve_insert mem (ds_events st)) as [[]|] eqn:Hroom; [|intros [= <- <- <-]; left; by eexists].
  apply try_reserve_insert_Ok in Hroom.
  destruct (check_reference_increments _ _ _ _) as [u|] eqn:Hchk; [|intros [= <- <- <-]; left; by eexists].
  pose proof (check_reference_increments_Ok _ _ _ _ _ (sort_ids_sorted bs) Hchk) as Hfit.
  destruct (increment_spec st ctx q [p] (sort_ids bs) c Hinv (proj1 Hv) Hfit Hc Hlt) as (st1 & -> & Htaken).
  pose proof (refs_taken_graph _ _ _ _ _ _ Hinv Htaken) as Hsame. unfold call_with_submission.
  destruct (table_get q (ds_queues st1)) as [rq|] eqn:Hq; [|intros [= <- <- <-]; left; by eexists].
  destruct (record_resource rq) as [xq|] eqn:Hxq; [|intros [= <- <- <-]; left; by eexists].
  destruct (table_get p (ds_programs st1)) as [rp|] eqn:Hp; [|intros [= <- <- <-]; left; by eexists].
  destruct (record_resource rp) as [xp|] eqn:Hxp; [|intros [= <- <- <-]; left; by eexists].
  apply table_get_Ok in Hq, Hp. unfold record_resource, ResourceSlot_get in Hxq, Hxp. simpl in Hxq, Hxp.
  destruct (slot_resource (que_slot rq)) eqn:Hsq; [|done]. destruct (slot_resource (prg_slot rp)) eqn:Hsp; [|done].
  simplify_eq/=. set (resources := {| sub_context_id := ctx; sub_queue := xq |}).
  intros Hcr. right. exists resources. split.
  { split; simpl.
    - exists (queue_node rq). split; [|simpl; by rewrite Hsq]. rewrite <- Hsame. simpl. by rewrite Hq.
    - exists (program_node rp). split; [|simpl; by rewrite Hsp]. rewrite <- Hsame. simpl. by rewrite Hp.
    - intros id b info. unfold buffer_with_info_by_id, retained_buffer. simpl. case_bool_decide as Hin; [|done].
      destruct (table_get id (ds_buffers st1)) as [rb|] eqn:Hb; [|done]. apply table_get_Ok in Hb.
      unfold record_resource, ResourceSlot_get. simpl. destruct (slot_resource (buf_slot rb)) eqn:Hsb; [|done].
      intros [= -> <-]. split; [by rewrite <- (sort_ids_perm bs)|].
      exists (buffer_node rb). split; [|simpl; by rewrite Hsb]. rewrite <- Hsame. simpl. by rewrite Hb. }
  fold resources in Hcr. destruct (create resources w) as [w1 [ev|pe]]; cbn [map_err] in Hcr.
  - assert (Hev : ds_events st1 = ds_events st) by (by destruct (rt_tables _ _ _ _ _ _ Htaken) as (? & ? & ? & ? & ->)).
    destruct (insert_prepared _ (ds_events st1)) as [events id] eqn:Hi. injection Hcr as <- <- <-. split; [done|].
    exists id. split; [done|]. rewrite Hev in Hi. apply insert_inserted in Hi; [|apply (si_events _ Hinv)|done].
    split; [cbn [node]; by rewrite (in_fresh _ _ _ _ Hi)|]. intros k i. specialize (Hsame k i).
    destruct k; cbn [node with_events ds_contexts ds_buffers ds_programs ds_queues ds_events] in *; try (rewrite decide_False by naive_solver; done).
    rewrite (in_lookup _ _ _ _ Hi). repeat case_decide; naive_solver.
  - destruct (rollback_spec _ _ _ _ _ _ Hinv Hfit Htaken) as (st2 & Hd & _ & Hv2). rewrite Hd in Hcr.
    injection Hcr as <- <- <-. split; [done|]. split; [done|]. by apply view_graph.
Qed.

(** ** Releases *)

(** Nothing of the graph depends on object [id]: no child lives in it and no
    event references it. *)
Record unreferenced st k id : Prop := {
  ur_children : k = RkContext -> forall k' i n, node st k' i = Some n -> nd_context n <> Some id;
  ur_events : forall i n, node st RkEvent i = Some n -> (k, id) ∉ nd_refs n;
}.

Lemma ref_elem k id (e : EventRecord E) :
  (k, id) ∈ nd_refs (event_node e) <->
  k = RkQueue /\ id = evt_queue_id e \/ k = RkProgram /\ id ∈ evt_program_ids e \/ k = RkBuffer /\ id ∈ evt_buffer_ids e.
Proof. simpl. rewrite elem_of_cons, elem_of_app, !list_elem_of_fmap. naive_solver. Qed.

Lemma unreferenced_child {Rec R} `{ChildRecord Rec R} ck ref st (t : ObjectTable Rec) k id r :
  state_inv st -> child_inv ck ref (ds_contexts st) t (ds_events st) -> lookup_id id t = Some r -> rec_in_flight r = 0 ->
  k <> RkContext -> (forall e, (k, id) ∈ nd_refs (event_node e) -> id ∈ ref e) -> unreferenced st k id.
Proof.
  intros Hinv Hci Hr Hz Hk Href. split; [done|]. intros i n Hn Hin. cbn [node] in Hn.
  destruct (lookup_id i (ds_events st)) as [e|] eqn:He; [|done]. simpl in Hn. injection Hn as <-.
  apply (no_reference ck ref st t id r (ci_wf _ _ _ _ _ (si_events _ Hinv)) Hci Hr Hz i e); [by apply table_get_Ok|by apply Href].
Qed.

Lemma unreferenced_event st id : unreferenced st RkEvent id.
Proof.
  split; [done|]. intros i n Hn Hin. cbn [node] in Hn. destruct (lookup_id i (ds_events st)); [|done].
  simpl in Hn. injection Hn as <-. apply ref_elem in Hin. naive_solver.
Qed.

Lemma empty_children c : ChildCounts_is_empty c = true -> forall k, child_count k c = 0.
Proof. unfold ChildCounts_is_empty. intros He k. bool_to_prop. by destruct k. Qed.

Lemma unreferenced_context st id c :
  state_inv st -> lookup_id id (ds_contexts st) = Some c -> ChildCounts_is_empty (ctx_children c) = true ->
  unreferenced st RkContext id.
Proof.
  intros Hinv Hc He. pose proof (empty_children _ He) as Hz. split.
  - intros _ k' i n Hn Hctx. destruct k'; cbn [node] in Hn.
    + by destruct (lookup_id i (ds_contexts st)); simplify_eq/=.
    + destruct (lookup_id i (ds_buffers st)) as [r|] eqn:Hr; simplify_eq/=. apply table_get_Ok in Hr.
      by apply (no_child _ _ _ _ _ _ (si_buffers _ Hinv) Hc (Hz _) i r Hr).
    + destruct (lookup_id i (ds_programs st)) as [r|] eqn:Hr; simplify_eq/=. apply table_get_Ok in Hr.
      by apply (no_child _ _ _ _ _ _ (si_programs _ Hinv) Hc (Hz _) i r Hr).
    + destruct (lookup_id i (ds_queues st)) as [r|] eqn:Hr; simplify_eq/=. apply table_get_Ok in Hr.
      by apply (no_child _ _ _ _ _ _ (si_queues _ Hinv) Hc (Hz _) i r Hr).
    + by destruct (lookup_id i (ds_events st)); simplify_eq/=.
  - intros i n Hn Hin. cbn [node] in Hn. destruct (lookup_id i (ds_events st)); [|done]. simpl in Hn. injection Hn as <-.
    apply ref_elem in Hin. naive_solver.
Qed.

(** What the three steps of a release do to the graph. *)
Record release_graph {R} `{!Named R} st k id
    (begin : DeviceState C B P Q E -> DeviceState C B P Q E * result R DeviceStateError)
    (commit : DeviceState C B P Q E -> DeviceState C B P Q E * result unit DeviceStateError)
    (restore : R -> DeviceState C B P Q E -> DeviceState C B P Q E * result unit (RestoreError R)) : Prop := {
  rg_err : forall st1 e, begin st = (st1, Err e) -> graph_same st st1;
  rg_begin : forall st1 x, begin st = (st1, Ok x) -> holds st k id (name_of x) /\ unreferenced st k id;
  rg_commit : forall st1 st2 x, begin st = (st1, Ok x) -> commit st1 = (st2, Ok tt) -> graph_remove st k id st2;
  rg_restore : forall st1 st2 x y, begin st = (st1, Ok x) -> name_of y = name_of x -> restore y st1 = (st2, Ok tt) ->
    graph_same st st2;
}.

Section Slots.
Context {Rec R : Type} `{!ResourceRecord Rec R} `{!Named R} (f : Rec -> Node).
Context (Hslot : forall s (r : Rec), rec_slot (rec_with_slot s r) = s).
Context (Hww : forall s s' (r : Rec), rec_with_slot s (rec_with_slot s' r) = rec_with_slot s r).
Context (Hself : forall r : Rec, rec_with_slot (rec_slot r) r = r).
Context (Hf : forall s s' (r : Rec), name_of <$> slot_resource s = name_of <$> slot_resource s' ->
  f (rec_with_slot s r) = f (rec_with_slot s' r)).
Implicit Types (t : ObjectTable Rec).

Lemma begin_nodes_err busy id t t' e : table_wf t -> begin_release_in busy id t = (t', Err e) -> nodes_same f t t'.
Proof.
  intros Hwf. unfold begin_release_in. destruct (ObjectTable_get_mut id t) as [[r put]|] eqn:Hg; [|by intros [= <-]].
  destruct (busy r); [by intros [= <-]|]. unfold ResourceSlot_begin_release.
  repeat case_match; intros; simplify_eq; (eapply updated_nodes; [by apply get_mut_updated|by rewrite Hself]).
Qed.

Lemma begin_restore_nodes busy id t t1 x y t2 :
  table_wf t -> begin_release_in busy id t = (t1, Ok x) -> name_of y = name_of x ->
  restore_resource id y t1 = (t2, Ok tt) -> nodes_same f t t2.
Proof.
  intros Hwf (r & _ & Hs & _ & Hu)%begin_release_Ok Hn; [|done]. unfold restore_resource.
  destruct (ObjectTable_get_mut id t1) as [[r1 put1]|] eqn:Hg1; [|done].
  destruct (ResourceSlot_restore y (rec_slot r1)) as [slot1 res1] eqn:Hr. intros [= Ht2 ->]. subst t2.
  pose proof (get_mut_updated _ _ _ _ (rec_with_slot slot1 r1) (up_wf _ _ _ _ _ Hu) Hg1) as Hu1.
  pose proof (up_at _ _ _ _ _ Hu1) as Hat. rewrite (up_lookup _ _ _ _ _ Hu), decide_True in Hat by done. injection Hat as <-.
  intros z. rewrite (up_lookup _ _ _ _ _ Hu1). case_decide as Hz.
  - subst z. rewrite (up_at _ _ _ _ _ Hu). simpl. f_equal. rewrite Hww. trans (f (rec_with_slot (rec_slot r) r)); [|by rewrite Hself]. apply Hf.
    rewrite Hs. unfold ResourceSlot_restore in Hr. repeat case_match; simplify_eq. simpl. by rewrite Hn.
  - by rewrite (up_lookup _ _ _ _ _ Hu), decide_False by done.
Qed.

End Slots.

(** The tables of a state after a change to one of them. *)
Lemma graph_one st st' :
  (st' = with_contexts st (ds_contexts st') /\ nodes_same context_node (ds_contexts st) (ds_contexts st')) \/
  (st' = with_buffers st (ds_buffers st') /\ nodes_same buffer_node (ds_buffers st) (ds_buffers st')) \/
  (st' = with_programs st (ds_programs st') /\ nodes_same program_node (ds_programs st) (ds_programs st')) \/
  (st' = with_queues st (ds_queues st') /\ nodes_same queue_node (ds_queues st) (ds_queues st')) \/
  (st' = with_events st (ds_events st') /\ nodes_same event_node (ds_events st) (ds_events st')) -> graph_same st st'.
Proof. intros [[Hst Hs]|[[Hst Hs]|[[Hst Hs]|[[Hst Hs]|[Hst Hs]]]]]; apply graph_tables; first [exact Hs|by rewrite Hst]. Qed.

(** The laws of a record with a slot. *)
Ltac slot_laws :=
  try first [done|by intros []|intros s s' r Hs; unfold context_node, buffer_node, program_node, queue_node, event_node; simpl; by rewrite Hs].

(** The graph after object [id] left its table, given what became of every table. *)
Lemma graph_removed {Rec} (f : Rec -> Node) (tab : DeviceState C B P Q E -> ObjectTable Rec) st k id st' :
  (forall st i, node st k i = f <$> lookup_id i (tab st)) -> cleared id (tab st) (tab st') ->
  (forall k' i, k' <> k -> node st' k' i = node st k' i) -> graph_remove st k id st'.
Proof.
  intros Hn Hcl Hk k' i. destruct (decide (k' = k)) as [->|Hne]; [|rewrite decide_False by naive_solver; auto].
  rewrite !Hn, Hcl. repeat case_decide; naive_solver.
Qed.

Lemma context_graph st id :
  state_inv st ->
  release_graph st RkContext id (begin_context_release id) (commit_context_release id) (restore_context_release id).
Proof.
  intros Hinv. split.
  - intros st1 e. unfold begin_context_release. destruct (begin_release_in _ id _) as [t r] eqn:Hb. intros [= <- ->].
    apply graph_one. left. split; [done|]. eapply begin_nodes_err; [..|apply Hinv|exact Hb]; slot_laws.
  - intros st1 x Hb. destruct (begin_context_Ok _ _ _ _ Hinv Hb) as (c & Hu & _ & Hs & _ & Hz).
    pose proof (up_at _ _ _ _ _ Hu) as Hc. split; [|by eapply unreferenced_context].
    exists (context_node c). split; [cbn [node]; by rewrite Hc|simpl; by rewrite Hs].
  - intros st1 st2 x Hb Hc. pose proof (begin_context_inv id st Hinv) as Hinv1. rewrite Hb in Hinv1. cbn [fst] in Hinv1.
    destruct (begin_context_Ok _ _ _ _ Hinv Hb) as (r & Hu & Hst & _).
    destruct (commit_context_cases _ _ _ _ Hinv1 Hc) as [(? & ? & _)|(_ & _ & c & t & Hrm & _ & ->)]; [done|].
    eapply (graph_removed context_node ds_contexts); [done|exact (updated_removed _ _ _ _ _ _ _ Hu Hrm)|].
    rewrite Hst. by intros [].
  - intros st1 st2 x y. unfold begin_context_release, restore_context_release.
    destruct (begin_release_in _ id _) as [t r] eqn:Hb. intros [= <- ->] Hn.
    destruct (restore_resource id y _) as [t2 r2] eqn:Hr. intros [= <- ->].
    apply graph_one. left. split; [done|]. eapply begin_restore_nodes; [..|apply Hinv|exact Hb|exact Hn|exact Hr]; slot_laws.
Qed.

Lemma queue_graph st id :
  state_inv st -> release_graph st RkQueue id (begin_queue_release id) (commit_queue_release id) (restore_queue_release id).
Proof.
  intros Hinv. split.
  - intros st1 e. unfold begin_queue_release. destruct (begin_release_in _ id _) as [t r] eqn:Hb. intros [= <- ->].
    apply graph_one. do 3 right. left. split; [done|]. eapply begin_nodes_err; [..|apply (si_queues _ Hinv)|exact Hb]; slot_laws.
  - intros st1 x Hb. destruct (begin_queue_Ok _ _ _ _ Hinv Hb) as (c & Hu & _ & Hs & _ & Hz).
    pose proof (up_at _ _ _ _ _ Hu) as Hc. split.
    + exists (queue_node c). split; [cbn [node]; by rewrite Hc|simpl; by rewrite Hs].
    + apply (unreferenced_child _ _ st _ _ id c Hinv (si_queues _ Hinv) Hc Hz); [done|].
      intros e Hin%ref_elem. unfold queue_refs. set_solver.
  - intros st1 st2 x Hb Hc. pose proof (begin_queue_inv id st Hinv) as Hinv1. rewrite Hb in Hinv1. cbn [fst] in Hinv1.
    destruct (begin_queue_Ok _ _ _ _ Hinv Hb) as (r & Hu & Hst & _).
    destruct (commit_queue_cases _ _ _ _ Hinv1 Hc)
      as [(? & ? & _)|(_ & _ & [_ (_ & _ & _ & He)] & c & Hrm & _ & _ & Hbu & Hp)]; [done|].
    assert (Hctx : nodes_same context_node (ds_contexts st1) (ds_contexts st2)).
    { unfold commit_queue_release in Hc. repeat case_match; simplify_eq. apply drop_child_nodes in Hc as [? _]; [done|apply Hinv1]. }
    eapply (graph_removed queue_node ds_queues); [done|exact (updated_removed _ _ _ _ _ _ _ Hu Hrm)|].
    rewrite Hst in Hctx, He, Hbu, Hp. simpl in *. intros [] i Hk; cbn [node]; rewrite ?Hctx, ?He, ?Hbu, ?Hp; done.
  - intros st1 st2 x y. unfold begin_queue_release, restore_queue_release.
    destruct (begin_release_in _ id _) as [t r] eqn:Hb. intros [= <- ->] Hn.
    destruct (restore_resource id y _) as [t2 r2] eqn:Hr. intros [= <- ->].
    apply graph_one. do 3 right. left. split; [done|].
    eapply begin_restore_nodes; [..|apply (si_queues _ Hinv)|exact Hb|exact Hn|exact Hr]; slot_laws.
Qed.

Lemma program_graph st id :
  state_inv st ->
  release_graph st RkProgram id (begin_program_release id) (commit_program_release id) (restore_program_release id).
Proof.
  intros Hinv. split.
  - intros st1 e. unfold begin_program_release. destruct (begin_release_in _ id _) as [t r] eqn:Hb. intros [= <- ->].
    apply graph_one. do 2 right. left. split; [done|]. eapply begin_nodes_err; [..|apply (si_programs _ Hinv)|exact Hb]; slot_laws.
  - intros st1 x Hb. destruct (begin_program_Ok _ _ _ _ Hinv Hb) as (c & Hu & _ & Hs & _ & Hz).
    pose proof (up_at _ _ _ _ _ Hu) as Hc. split.
    + exists (program_node c). split; [cbn [node]; by rewrite Hc|simpl; by rewrite Hs].
    + apply (unreferenced_child _ _ st _ _ id c Hinv (si_programs _ Hinv) Hc Hz); [done|].
      intros e Hin%ref_elem. set_solver.
  - intros st1 st2 x Hb Hc. pose proof (begin_program_inv id st Hinv) as Hinv1. rewrite Hb in Hinv1. cbn [fst] in Hinv1.
    destruct (begin_program_Ok _ _ _ _ Hinv Hb) as (r & Hu & Hst & _).
    destruct (commit_program_cases _ _ _ _ Hinv1 Hc)
      as [(? & ? & _)|(_ & _ & [_ (_ & _ & _ & He)] & c & Hrm & _ & _ & _ & Hbu & Hp)]; [done|].
    assert (Hctx : nodes_same context_node (ds_contexts st1) (ds_contexts st2)).
    { unfold commit_program_release in Hc. repeat case_match; simplify_eq. apply drop_child_nodes in Hc as [? _]; [done|apply Hinv1]. }
    eapply (graph_removed program_node ds_programs); [done|exact (updated_removed _ _ _ _ _ _ _ Hu Hrm)|].
    rewrite Hst in Hctx, He, Hbu, Hp. simpl in *. intros [] i Hk; cbn [node]; rewrite ?Hctx, ?He, ?Hbu, ?Hp; done.
  - intros st1 st2 x y. unfold begin_program_release, restore_program_release.
    destruct (begin_release_in _ id _) as [t r] eqn:Hb. intros [= <- ->] Hn.
    destruct (restore_resource id y _) as [t2 r2] eqn:Hr. intros [= <- ->].
    apply graph_one. do 2 right. left. split; [done|].
    eapply begin_restore_nodes; [..|apply (si_programs _ Hinv)|exact Hb|exact Hn|exact Hr]; slot_laws.
Qed.

Lemma buffer_graph st id :
  state_inv st ->
  release_graph st RkBuffer id (begin_buffer_release id) (commit_buffer_release id) (restore_buffer_release id).
Proof.
  intros Hinv. split.
  - intros st1 e. unfold begin_buffer_release. destruct (begin_release_in _ id _) as [t r] eqn:Hb. intros [= <- ->].
    apply graph_one. right. left. split; [done|]. eapply begin_nodes_err; [..|apply (si_buffers _ Hinv)|exact Hb]; slot_laws.
  - intros st1 x Hb. destruct (begin_buffer_Ok _ _ _ _ Hinv Hb) as (c & Hu & _ & Hs & _ & Hz).
    pose proof (up_at _ _ _ _ _ Hu) as Hc. split.
    + exists (buffer_node c). split; [cbn [node]; by rewrite Hc|simpl; by rewrite Hs].
    + apply (unreferenced_child _ _ st _ _ id c Hinv (si_buffers _ Hinv) Hc Hz); [done|].
      intros e Hin%ref_elem. set_solver.
  - intros st1 st2 x Hb Hc. pose proof (begin_buffer_inv id st Hinv) as Hinv1. rewrite Hb in Hinv1. cbn [fst] in Hinv1.
    destruct (begin_buffer_Ok _ _ _ _ Hinv Hb) as (r & Hu & Hst & _).
    destruct (commit_buffer_cases _ _ _ _ Hinv1 Hc)
      as [(? & ? & _)|(_ & _ & [_ (_ & _ & _ & He)] & c & Hrm & _ & _ & _ & Hbu & Hp)]; [done|].
    assert (Hctx : nodes_same context_node (ds_contexts st1) (ds_contexts st2)).
    { unfold commit_buffer_release in Hc. repeat case_match; simplify_eq. apply drop_child_nodes in Hc as [? _]; [done|apply Hinv1]. }
    eapply (graph_removed buffer_node ds_buffers); [done|exact (updated_removed _ _ _ _ _ _ _ Hu Hrm)|].
    rewrite Hst in Hctx, He, Hbu, Hp. simpl in *. intros [] i Hk; cbn [node]; rewrite ?Hctx, ?He, ?Hbu, ?Hp; done.
  - intros st1 st2 x y. unfold begin_buffer_release, restore_buffer_release.
    destruct (begin_release_in _ id _) as [t r] eqn:Hb. intros [= <- ->] Hn.
    destruct (restore_resource id y _) as [t2 r2] eqn:Hr. intros [= <- ->].
    apply graph_one. right. left. split; [done|].
    eapply begin_restore_nodes; [..|apply (si_buffers _ Hinv)|exact Hb|exact Hn|exact Hr]; slot_laws.
Qed.

Lemma event_graph st id :
  state_inv st -> release_graph st RkEvent id (begin_event_release id) (commit_event_release id) (restore_event_release id).
Proof.
  intros Hinv. split.
  - intros st1 e. unfold begin_event_release. destruct (begin_release_in _ id _) as [t r] eqn:Hb. intros [= <- ->].
    apply graph_one. do 4 right. split; [done|]. eapply begin_nodes_err; [..|apply (si_events _ Hinv)|exact Hb]; slot_laws.
  - intros st1 x Hb. destruct (begin_event_Ok _ _ _ _ Hinv Hb) as (c & Hu & _ & Hs & _).
    pose proof (up_at _ _ _ _ _ Hu) as Hc. split; [|apply unreferenced_event].
    exists (event_node c). split; [cbn [node]; by rewrite Hc|simpl; by rewrite Hs].
  - intros st1 st2 x Hb Hc. pose proof (begin_event_inv id st Hinv) as Hinv1. rewrite Hb in Hinv1. cbn [fst] in Hinv1.
    destruct (begin_event_Ok _ _ _ _ Hinv Hb) as (r & Hu & Hst & _).
    destruct (commit_event_cases _ _ _ _ Hinv1 Hc) as [(? & ? & _)|(_ & _ & c & Hrm & _)]; [done|].
    eapply (graph_removed event_node ds_events); [done|exact (updated_removed _ _ _ _ _ _ _ Hu Hrm)|].
    unfold commit_event_release in Hc. repeat case_match; simplify_eq.
    destruct Hinv1. apply update_references_nodes in Hc; simpl; try done; try by eapply ci_wf.
    destruct Hc as (Hn1 & Hn2 & Hn3 & Hn4 & _). rewrite Hst in Hn1, Hn2, Hn3, Hn4. simpl in *.
    intros [] i Hk; cbn [node]; rewrite ?Hn1, ?Hn2, ?Hn3, ?Hn4; done.
  - intros st1 st2 x y. unfold begin_event_release, restore_event_release.
    destruct (begin_release_in _ id _) as [t r] eqn:Hb. intros [= <- ->] Hn.
    destruct (restore_resource id y _) as [t2 r2] eqn:Hr. intros [= <- ->].
    apply graph_one. do 4 right. split; [done|].
    eapply begin_restore_nodes; [..|apply (si_events _ Hinv)|exact Hb|exact Hn|exact Hr]; slot_laws.
Qed.

(** A handle stored back under its name. *)
Lemma store_buffer_graph id r put (b b' : B) st :
  state_inv st -> buffer_record_mut id st = Ok (r, put) -> slot_resource (buf_slot r) = Some b -> name_of b' = name_of b ->
  graph_same st (put (rec_with_slot (ResourceSlot_put b' (buf_slot r)) r)) /\ holds st RkBuffer id (name_of b).
Proof.
  intros Hinv. unfold buffer_record_mut.
  destruct (ObjectTable_get_mut id (ds_buffers st)) as [[r' put']|] eqn:Hg; [|done]. simpl. intros [= <- <-] Hb Hn.
  pose proof (get_mut_updated _ _ _ _ (rec_with_slot (ResourceSlot_put b' (buf_slot r')) r') (ci_wf _ _ _ _ _ (si_buffers _ Hinv)) Hg) as Hu.
  split.
  - apply graph_one. right. left. split; [done|]. eapply updated_nodes; [exact Hu|]. unfold buffer_node. simpl.
    by rewrite Hb, Hn.
  - exists (buffer_node r'). split; [cbn [node]; by rewrite (up_at _ _ _ _ _ Hu)|simpl; by rewrite Hb].
Qed.

(** An empty state has an empty graph. *)
Lemma empty_graph st : state_inv st -> DeviceState_is_empty st = true -> forall k i, node st k i = None.
Proof.
  intros Hinv He k i. unfold DeviceState_is_empty, ObjectTable_is_empty in He. bool_to_prop. destruct Hinv.
  destruct k; cbn [node]; rewrite empty_lookup by eauto using ci_wf; done.
Qed.

End Graph.
