(* ===== verification/FaultFacts.v ===== *)
(** * What the ownership audit sees

    The audit's view of a control state ([audit], the parents and the
    dependencies), what each operation of the control does to it, and the
    coupling of that view with the ownership graph of a device state: as long
    as the two agree, no operation the device performs on a handle it holds is
    a violation. *)

From Stdlib Require Import ZArith Lia.
From stdpp Require Import prelude list.
From S2P Require Import Prelude Core ObjectTable State Fault Ownership.

(** ** The view *)

(** Kind and state of resource [h]. *)
Definition audit (s : FaultState) (h : Z) : option (ResourceKind * ResourceState) :=
  (fun found => (rr_kind found.2, rr_state found.2)) <$> find_resource h s.

Record audit_wf (s : FaultState) : Prop := {
  aw_nodup : NoDup (rr_id <$> fs_resources s);
  aw_fresh : forall r, r ∈ fs_resources s -> rr_id r < fs_next_resource_id s;
  aw_parents : forall c p, (c, p) ∈ fs_parents s -> c < fs_next_resource_id s;
  aw_events : forall e ds, (e, ds) ∈ fs_event_dependencies s -> e < fs_next_resource_id s /\ exists x, audit s e = Some (RkEvent, x);
}.

(** The same resources with the same links. *)
Record same_audit (s s' : FaultState) : Prop := {
  sa_resources : fs_resources s' = fs_resources s;
  sa_parents : fs_parents s' = fs_parents s;
  sa_events : fs_event_dependencies s' = fs_event_dependencies s;
  sa_next : fs_next_resource_id s' = fs_next_resource_id s;
}.

Lemma same_audit_audit s s' h : same_audit s s' -> audit s' h = audit s h.
Proof. intros [Hr _ _ _]. unfold audit, find_resource. by rewrite Hr. Qed.

Lemma same_audit_wf s s' : same_audit s s' -> audit_wf s -> audit_wf s'.
Proof.
  intros Hs [H1 H2 H3 H4]. pose proof (fun h => same_audit_audit s s' h Hs) as Ha. destruct Hs as [Hr Hp He Hn].
  split; rewrite ?Hr, ?Hp, ?He, ?Hn; try done. intros e ds Hin. rewrite Ha. eauto.
Qed.

Lemma audit_elem s h k x :
  audit s h = Some (k, x) -> {| rr_id := h; rr_kind := k; rr_state := x |} ∈ fs_resources s.
Proof.
  unfold audit, find_resource. destruct (list_find _ _) as [[i r]|] eqn:Hf; [|done]. simpl. intros [= <- <-].
  apply list_find_Some in Hf as (Hl & <- & _). apply list_elem_of_lookup. exists i. by destruct r.
Qed.

Lemma elem_audit s r : audit_wf s -> r ∈ fs_resources s -> audit s (rr_id r) = Some (rr_kind r, rr_state r).
Proof.
  intros Hwf Hin. unfold audit, find_resource.
  destruct (list_find _ _) as [[i r']|] eqn:Hf.
  2: { apply list_find_None in Hf. rewrite Forall_forall in Hf. by destruct (Hf r Hin). }
  apply list_find_Some in Hf as (Hl & Hid & _). apply list_elem_of_lookup in Hin as [j Hj].
  assert (Hij : i = j).
  { eapply (NoDup_lookup (rr_id <$> fs_resources s)); [apply Hwf|by rewrite list_lookup_fmap, Hl|].
    rewrite list_lookup_fmap, Hj. simpl. by rewrite <- Hid. }
  subst j. rewrite Hl in Hj. by injection Hj as ->.
Qed.

Lemma audit_next s h a : audit_wf s -> audit s h = Some a -> h < fs_next_resource_id s.
Proof. intros Hwf. destruct a as [k x]. intros Ha%audit_elem. by apply (aw_fresh _ Hwf) in Ha. Qed.

Lemma is_retained_audit s h :
  audit_wf s -> is_retained h s = true -> exists k x, audit s h = Some (k, x) /\ retained x = true.
Proof.
  intros Hwf. unfold is_retained. intros (r & Hin & Hr)%existsb_exists. bool_to_prop. subst h.
  exists (rr_kind r), (rr_state r). split; [|done]. apply elem_audit; [done|by apply list_elem_of_In].
Qed.

(** ** The operations *)

(** [s'] after resource [h] took state [x]. *)
Record restated (h : Z) (x : ResourceState) (s s' : FaultState) : Prop := {
  rs_audit : forall h', audit s' h' = if decide (h' = h) then (fun a => (a.1, x)) <$> audit s h else audit s h';
  rs_wf : audit_wf s -> audit_wf s';
  rs_parents : fs_parents s' = fs_parents s;
  rs_events : fs_event_dependencies s' = fs_event_dependencies s;
  rs_next : fs_next_resource_id s' = fs_next_resource_id s;
}.

Fixpoint find_in (h : Z) (l : list AuditedResource) : option (ResourceKind * ResourceState) :=
  match l with
  | [] => None
  | r :: l => if decide (rr_id r = h) then Some (rr_kind r, rr_state r) else find_in h l
  end.

Lemma audit_find s h : audit s h = find_in h (fs_resources s).
Proof.
  unfold audit, find_resource. induction (fs_resources s) as [|r l IH]; simpl; [done|]. repeat case_decide; try done.
  rewrite <- IH. by destruct (list_find _ l) as [[]|].
Qed.

Lemma find_in_insert h x l i r :
  list_find (fun item => rr_id item = h) l = Some (i, r) ->
  (forall h', find_in h' (<[i := with_state x r]> l) =
     if decide (h' = h) then (fun a => (a.1, x)) <$> find_in h l else find_in h' l) /\
  rr_id <$> <[i := with_state x r]> l = rr_id <$> l.
Proof.
  revert i. induction l as [|z l IH]; intros i; simpl; [done|]. destruct (decide _) as [Hz|Hz].
  - intros [= <- <-]. simpl. split; [|done]. intros h'. repeat case_decide; subst; done.
  - destruct (list_find _ l) as [[j r']|] eqn:Hf; simpl; [|done]. intros [= <- <-].
    destruct (IH j eq_refl) as [IH1 IH2]. simpl. split; [|by f_equal]. intros h'. rewrite IH1. repeat case_decide; subst; done.
Qed.

Lemma set_state_restated h x s : is_Some (audit s h) -> restated h x s (set_resource_state h x s).
Proof.
  unfold set_resource_state. intros [a Ha]. unfold audit in Ha. destruct (find_resource h s) as [[i r]|] eqn:Hf; [|done].
  destruct (find_in_insert h x _ _ _ Hf) as [Hfind Hids]. clear Ha a.
  assert (Hau : forall h', audit (fs_set_resources (<[i:=with_state x r]> (fs_resources s)) s) h' =
      if decide (h' = h) then (fun a => (a.1, x)) <$> audit s h else audit s h')
    by (intros h'; rewrite !audit_find; apply Hfind).
  split; try done. intros [H1 H2 H3 H4]. split; simpl.
  - by rewrite Hids.
  - intros r' Hin%(list_elem_of_fmap_2 rr_id). rewrite Hids in Hin. apply list_elem_of_fmap in Hin as (r2 & -> & Hin). auto.
  - done.
  - intros e ds Hin. destruct (H4 e ds Hin) as (? & y & Hy). split; [done|]. rewrite Hau. case_decide; subst; rewrite Hy; simpl; eauto.
Qed.

(** [s'] after resource [h] of kind [k] was registered with its links. *)
Record registered (k : ResourceKind) (h : Z) (parents : list (Z * Z)) (events : list (Z * list Z)) (s s' : FaultState) : Prop := {
  rg_audit : forall h', audit s' h' = if decide (h' = h) then Some (k, RsLive) else audit s h';
  rg_wf : audit_wf s -> (forall c p, (c, p) ∈ parents -> c = h) ->
    (forall e ds, (e, ds) ∈ events -> e = h /\ k = RkEvent) -> audit_wf s';
  rg_fresh : audit_wf s -> audit s h = None;
  rg_next : fs_next_resource_id s = h;
  rg_parents : fs_parents s' = fs_parents s ++ parents;
  rg_events : fs_event_dependencies s' = fs_event_dependencies s ++ events;
}.

Lemma find_in_app h l l' : find_in h (l ++ l') = match find_in h l with Some a => Some a | None => find_in h l' end.
Proof. induction l as [|r l IH]; simpl; [done|]. by case_decide. Qed.

Lemma audit_fresh s : audit_wf s -> audit s (fs_next_resource_id s) = None.
Proof.
  intros Hwf. destruct (audit s _) as [[k x]|] eqn:Ha; [|done]. pose proof (audit_next _ _ _ Hwf Ha). lia.
Qed.

Lemma registered_intro k parents events s s' :
  fs_resources s' = fs_resources s ++ [{| rr_id := fs_next_resource_id s; rr_kind := k; rr_state := RsLive |}] ->
  fs_next_resource_id s' = fs_next_resource_id s + 1 -> audit_wf s ->
  fs_parents s' = fs_parents s ++ parents -> fs_event_dependencies s' = fs_event_dependencies s ++ events ->
  registered k (fs_next_resource_id s) parents events s s'.
Proof.
  intros Hr Hn Hwf Hp He. pose proof (audit_fresh s Hwf) as Hfresh.
  assert (Hau : forall h', audit s' h' = if decide (h' = fs_next_resource_id s) then Some (k, RsLive) else audit s h').
  { intros h'. rewrite !audit_find, Hr, find_in_app, <- !audit_find. case_decide; subst.
    - rewrite Hfresh. simpl. by rewrite decide_True.
    - simpl. rewrite decide_False by done. by destruct (audit s h'). }
  split; try done. intros [H1 H2 H3 H4] Hps Hes. split; rewrite ?Hr, ?Hn, ?Hp, ?He.
  - rewrite fmap_app. simpl. apply NoDup_app. split_and!; [done| |by apply NoDup_singleton].
    intros h (r & -> & Hin)%list_elem_of_fmap Hs%list_elem_of_singleton. apply H2 in Hin. lia.
  - intros r [Hin|Hin%list_elem_of_singleton]%elem_of_app; [apply H2 in Hin; lia|subst; simpl; lia].
  - intros c p [Hin|Hin]%elem_of_app; [apply H3 in Hin; lia|apply Hps in Hin; lia].
  - intros e ds. rewrite Hau. intros [Hin|Hin]%elem_of_app.
    + destruct (H4 e ds Hin) as [? Hx]. rewrite decide_False by lia. split; [lia|done].
    + destruct (Hes e ds Hin) as [-> ->]. rewrite decide_True by done. split; [lia|eauto].
Qed.

(** ** The coupling *)

Section Coupling.
Context {C B P Q E : Type} `{!Named C, !Named B, !Named P, !Named Q, !Named E}.
Implicit Types (st : DeviceState C B P Q E) (s : FaultState).

(** The audit agrees with the graph: every handle of the graph is a live
    resource of its kind, no two objects hold the same handle, every live
    resource but [pend] is held, no resource is indeterminate, and what the
    audit knows of parents and dependencies are links of the graph. *)
Record coupled st (pend : option Z) s : Prop := {
  co_wf : audit_wf s;
  co_live : forall k i h, holds st k i h -> audit s h = Some (k, RsLive);
  co_inj : forall k i k' i' h, holds st k i h -> holds st k' i' h -> k = k' /\ i = i';
  co_held : forall h k x, audit s h = Some (k, x) -> retained x = true -> pend <> Some h ->
    x = RsLive /\ exists i, holds st k i h;
  co_parents : forall c p, (c, p) ∈ fs_parents s -> forall k i n, node st k i = Some n -> nd_handle n = Some c ->
    exists ci, nd_context n = Some ci /\ holds st RkContext ci p;
  co_events : forall e ds, (e, ds) ∈ fs_event_dependencies s -> forall i n, node st RkEvent i = Some n ->
    nd_handle n = Some e -> forall d, d ∈ ds -> exists k oi, (k, oi) ∈ nd_refs n /\ holds st k oi d;
}.

Lemma holds_same st st' k i h : graph_same st st' -> holds st' k i h <-> holds st k i h.
Proof. intros Hs. unfold holds. by rewrite Hs. Qed.

Lemma coupled_graph st st' pend s : graph_same st st' -> coupled st pend s -> coupled st' pend s.
Proof.
  intros Hs [H1 H2 H3 H4 H5 H6]. pose proof (fun k i h => holds_same st st' k i h Hs) as Hh. split; try done.
  - intros k i h. rewrite Hh. apply H2.
  - intros k i k' i' h. rewrite !Hh. apply H3.
  - intros h k x Ha Hr Hp. destruct (H4 h k x Ha Hr Hp) as [? [i Hi]]. split; [done|]. exists i. by apply Hh.
  - intros c p Hin k i n. rewrite Hs. intros Hn Hc. destruct (H5 c p Hin k i n Hn Hc) as (ci & ? & ?). exists ci. by rewrite Hh.
  - intros e ds Hin i n. rewrite Hs. intros Hn He d Hd. destruct (H6 e ds Hin i n Hn He d Hd) as (k & oi & ? & ?).
    exists k, oi. by rewrite Hh.
Qed.

Lemma coupled_audit st pend s s' : same_audit s s' -> coupled st pend s -> coupled st pend s'.
Proof.
  intros Hs [H1 H2 H3 H4 H5 H6]. pose proof (fun h => same_audit_audit s s' h Hs) as Ha.
  pose proof (same_audit_wf _ _ Hs H1). destruct Hs as [_ Hp He _].
  split; try done; rewrite ?Hp, ?He; try done; intros *; rewrite Ha; eauto.
Qed.

(** A handle of the graph is what its method expects. *)
Lemma coupled_validate st pend s k i h : coupled st pend s -> holds st k i h -> validate h k s = (s, true).
Proof.
  intros Hc Hh. pose proof (co_live _ _ _ Hc _ _ _ Hh) as Ha. unfold audit in Ha. unfold validate.
  destruct (find_resource h s) as [[j r]|]; [|done]. simpl in Ha. injection Ha as -> ->. by rewrite !bool_decide_true.
Qed.

(** What nothing in the graph depends on, nothing retains. *)
Lemma coupled_unretained st s k i h :
  coupled st None s -> holds st k i h -> unreferenced st k i -> retained_by h k s = None.
Proof.
  intros Hc Hh [Hch Hev].
  assert (Hobj : forall c, is_retained c s = true -> exists k' i' n, audit s c = Some (k', RsLive) /\ node st k' i' = Some n /\ nd_handle n = Some c).
  { intros c Hr. destruct (is_retained_audit _ _ (co_wf _ _ _ Hc) Hr) as (k' & x & Ha & Hx).
    destruct (co_held _ _ _ Hc _ _ _ Ha Hx) as [-> (i' & n & Hn & Hnh)]; [done|]. by exists k', i', n. }
  assert (Hevents : k <> RkContext -> List.find (fun '(event, dependencies) => existsb (Z.eqb h) dependencies && is_retained event s)
      (fs_event_dependencies s) = None).
  { intros Hk. destruct (List.find _ _) as [[e ds]|] eqn:Hf; [|done]. apply List.find_some in Hf as [Hin Hf].
    apply andb_true_iff in Hf as [(d & Hd & Heq)%existsb_exists Hr]. apply Z.eqb_eq in Heq. subst d.
    apply list_elem_of_In in Hin, Hd. destruct (Hobj e Hr) as (k' & i' & n & Ha & Hn & Hnh).
    destruct (aw_events _ (co_wf _ _ _ Hc) _ _ Hin) as (_ & x & Hx). rewrite Ha in Hx. injection Hx as -> _.
    destruct (co_events _ _ _ Hc _ _ Hin _ _ Hn Hnh _ Hd) as (k2 & oi & Href & Hho).
    destruct (co_inj _ _ _ Hc _ _ _ _ _ Hh Hho) as [<- <-]. by destruct (Hev _ _ Hn). }
  unfold retained_by. destruct k; try (by rewrite Hevents); [|done]. clear Hevents.
  destruct (List.find _ _) as [[c p]|] eqn:Hf; [|done]. apply List.find_some in Hf as [Hin Hf].
  apply andb_true_iff in Hf as [Hp Hr]. apply Z.eqb_eq in Hp. subst p. apply list_elem_of_In in Hin.
  destruct (Hobj c Hr) as (k' & i' & n & _ & Hn & Hnh).
  destruct (co_parents _ _ _ Hc _ _ Hin _ _ _ Hn Hnh) as (ci & Hci & Hho).
  destruct (co_inj _ _ _ Hc _ _ _ _ _ Hh Hho) as [_ <-]. by destruct (Hch eq_refl _ _ _ Hn).
Qed.

Lemma coupled_validate_release st s k i h :
  coupled st None s -> holds st k i h -> unreferenced st k i -> validate_release h k s = (s, RvReady).
Proof.
  intros Hc Hh Hu. unfold validate_release. rewrite (coupled_validate _ _ _ _ _ _ Hc Hh). cbn [negb].
  by rewrite (coupled_unretained _ _ _ _ _ Hc Hh Hu).
Qed.

(** A released handle leaves the graph. *)
Lemma coupled_removed st st' s s' k i h :
  coupled st None s -> holds st k i h -> unreferenced st k i -> restated h RsReleased s s' -> graph_remove st k i st' ->
  coupled st' None s'.
Proof.
  intros Hc Hh Hu [Ha Hwf Hp He _] Hg. destruct Hc as [H1 H2 H3 H4 H5 H6].
  assert (Hold : forall k' i' h', holds st' k' i' h' -> holds st k' i' h' /\ h' <> h).
  { intros k' i' h' (n & Hn & Hnh). rewrite Hg in Hn. case_decide as Hd; [done|]. split; [by exists n|]. intros ->.
    destruct (H3 k' i' k i h) as [-> ->]; [by exists n|done|]. naive_solver. }
  assert (Hnew : forall k' i' h', holds st k' i' h' -> (k' = k /\ i' = i) \/ holds st' k' i' h').
  { intros k' i' h' (n & Hn & Hnh). destruct (decide (k' = k /\ i' = i)) as [Hd|Hd]; [by left|]. right.
    exists n. split; [|done]. rewrite Hg. by rewrite decide_False. }
  split.
  - auto.
  - intros k' i' h' Hh'. destruct (Hold _ _ _ Hh') as [Hh2 Hne]. rewrite Ha, decide_False by done. by eapply H2.
  - intros k1 i1 k2 i2 h' Ha1 Ha2. destruct (Hold _ _ _ Ha1), (Hold _ _ _ Ha2). by eapply H3.
  - intros h' k' x. rewrite Ha. case_decide as Hd.
    + destruct (audit s h) as [[]|]; [|done]. by intros [= <- <-].
    + intros Hx Hr _. destruct (H4 h' k' x Hx Hr) as [-> [i' Hi']]; [done|]. split; [done|]. exists i'.
      destruct (Hnew _ _ _ Hi') as [[-> ->]|]; [|done]. destruct Hd.
      destruct Hi' as (n & Hn & Hnh), Hh as (n' & Hn' & Hnh'). congruence.
  - rewrite Hp. intros c p Hin k' i' n Hn Hc. rewrite Hg in Hn. case_decide as Hd; [done|].
    destruct (H5 c p Hin _ _ _ Hn Hc) as (ci & Hci & Hho). exists ci. split; [done|].
    destruct (Hnew _ _ _ Hho) as [[Hk ->]|]; [|done]. by destruct (ur_children _ _ _ Hu (eq_sym Hk) _ _ _ Hn).
  - rewrite He. intros e ds Hin i' n Hn Hc d Hd. rewrite Hg in Hn. case_decide as Hd'; [done|].
    destruct (H6 e ds Hin _ _ Hn Hc d Hd) as (k2 & oi & Href & Hho). exists k2, oi. split; [done|].
    destruct (Hnew _ _ _ Hho) as [[-> ->]|]; [|done]. by destruct (ur_events _ _ _ Hu _ _ Hn).
Qed.

(** A rejected release leaves the resource live. *)
Lemma coupled_live st s s' k i h :
  coupled st None s -> holds st k i h -> restated h RsLive s s' -> coupled st None s'.
Proof.
  intros Hc Hh [Ha Hwf Hp He _]. destruct Hc as [H1 H2 H3 H4 H5 H6].
  assert (Hsame : forall h', audit s' h' = audit s h').
  { intros h'. rewrite Ha. case_decide; [|done]. subst. by rewrite (H2 _ _ _ Hh). }
  split; rewrite ?Hp, ?He; auto; intros *; rewrite Hsame; eauto.
Qed.

(** ** New resources *)

(** Resource [h] is registered with its links and not yet in the graph. *)
Record pending st k h (parent : option Z) (deps : list Z) s : Prop := {
  pe_coupled : coupled st (Some h) s;
  pe_audit : audit s h = Some (k, RsLive);
  pe_free : forall k i, ~ holds st k i h;
  pe_parent : forall p, (h, p) ∈ fs_parents s -> parent = Some p;
  pe_deps : forall ds, (h, ds) ∈ fs_event_dependencies s -> ds = deps;
}.

Lemma coupled_register st s s' k h parents events parent deps :
  coupled st None s -> registered k h parents events s s' ->
  (forall c p, (c, p) ∈ parents -> c = h /\ parent = Some p) ->
  (forall e ds, (e, ds) ∈ events -> e = h /\ k = RkEvent /\ ds = deps) -> pending st k h parent deps s'.
Proof.
  intros Hc [Ha Hwf Hfresh Hnext Hp He] Hps Hes. pose proof (co_wf _ _ _ Hc) as Hw.
  assert (Hfree : forall k i, ~ holds st k i h).
  { intros k' i Hh. apply (co_live _ _ _ Hc) in Hh. by rewrite (Hfresh Hw) in Hh. }
  destruct Hc as [H1 H2 H3 H4 H5 H6]. split; [split|..]; try done.
  - apply Hwf; [done|..]; intros; [by eapply Hps|]. edestruct Hes as (? & ? & _); eauto.
  - intros k' i h' Hh. rewrite Ha. rewrite decide_False; [by eapply H2|]. intros ->. by eapply Hfree.
  - intros h' k' x. rewrite Ha. case_decide as Hd; [by subst|]. intros Hx Hr _. by apply H4.
  - rewrite Hp. intros c p [Hin|Hin]%elem_of_app; [by apply H5|]. intros k' i n Hn Hc. apply Hps in Hin as [-> _].
    destruct (Hfree k' i). by exists n.
  - rewrite He. intros e ds [Hin|Hin]%elem_of_app; [by apply H6|]. intros i n Hn Hc. apply Hes in Hin as [-> _].
    destruct (Hfree RkEvent i). by exists n.
  - rewrite Ha. by rewrite decide_True.
  - intros p. rewrite Hp. intros [Hin|Hin]%elem_of_app; [|by apply Hps in Hin as [_ ?]].
    apply (aw_parents _ Hw) in Hin. lia.
  - intros ds. rewrite He. intros [Hin|Hin]%elem_of_app; [|by apply Hes in Hin as (_ & _ & ?)].
    apply (aw_events _ Hw) in Hin. lia.
Qed.

Lemma pending_insert st st' k h parent deps s oid n :
  pending st k h parent deps s -> graph_insert st k oid n st' -> nd_handle n = Some h ->
  (forall p, parent = Some p -> exists ci, nd_context n = Some ci /\ holds st RkContext ci p) ->
  (forall d, d ∈ deps -> exists k' oi, (k', oi) ∈ nd_refs n /\ holds st k' oi d) -> coupled st' None s.
Proof.
  intros [[H1 H2 H3 H4 H5 H6] Ha Hfree Hpar Hdep] [Hnone Hg] Hnh Hp Hd.
  assert (Hkeep : forall k' i' h', holds st k' i' h' -> holds st' k' i' h').
  { intros k' i' h' (m & Hm & Hmh). exists m. split; [|done]. rewrite Hg. rewrite decide_False; [done|]. intros [-> ->]. congruence. }
  assert (Hback : forall k' i' h', holds st' k' i' h' -> (k' = k /\ i' = oid /\ h' = h) \/ holds st k' i' h' /\ h' <> h).
  { intros k' i' h' (m & Hm & Hmh). rewrite Hg in Hm. case_decide as Hc.
    - injection Hm as <-. left. naive_solver congruence.
    - right. assert (holds st k' i' h') by (by exists m). split; [done|]. intros ->. by eapply Hfree. }
  split; try done.
  - intros k' i' h' [(-> & -> & ->)|[Hh _]]%Hback; [done|by eapply H2].
  - intros k1 i1 k2 i2 h' Ha1%Hback Ha2%Hback.
    destruct Ha1 as [(-> & -> & ->)|[? ?]], Ha2 as [(-> & -> & ?)|[? ?]]; try done. by eapply H3.
  - intros h' k' x Hx Hr _. destruct (decide (h' = h)) as [->|Hne].
    + rewrite Ha in Hx. injection Hx as <- <-. split; [done|]. exists oid, n. split; [|done]. rewrite Hg. by rewrite decide_True.
    + destruct (H4 h' k' x Hx Hr) as [? [i Hi]]; [congruence|]. split; [done|]. exists i. auto.
  - intros c p Hin k' i m Hm Hmc. rewrite Hg in Hm. case_decide as Hc.
    + injection Hm as <-. assert (c = h) as -> by congruence.
      destruct (Hp p (Hpar p Hin)) as (ci & ? & ?). exists ci. auto.
    + destruct (H5 c p Hin _ _ _ Hm Hmc) as (ci & ? & ?). exists ci. auto.
  - intros e ds Hin i m Hm Hme d Hdd. rewrite Hg in Hm. case_decide as Hc.
    + injection Hm as <-. assert (e = h) as -> by congruence. rewrite (Hdep ds Hin) in Hdd.
      destruct (Hd d Hdd) as (k' & oi & ? & ?). exists k', oi. auto.
    + destruct (H6 e ds Hin _ _ Hm Hme d Hdd) as (k' & oi & ? & ?). exists k', oi. auto.
Qed.

(** The rollback of a registration. *)
Lemma pending_released st k h parent deps s s' :
  pending st k h parent deps s -> restated h RsReleased s s' -> coupled st None s'.
Proof.
  intros [[H1 H2 H3 H4 H5 H6] Hau Hfree _ _] [Ha Hwf Hp He _]. split; rewrite ?Hp, ?He; auto.
  - intros k' i h' Hh. rewrite Ha. rewrite decide_False; [by eapply H2|]. intros ->. by eapply Hfree.
  - intros h' k' x. rewrite Ha. case_decide as Hd.
    + rewrite Hau. by intros [= <- <-].
    + intros Hx Hr _. apply H4; [done..|congruence].
Qed.

End Coupling.
