(* ===== verification/FaultSpec.v ===== *)
(** * Specifications of the audited methods

    Triples over the audit's state for every method of [FaultAccelerator]:
    called on handles the ownership graph holds, no method records a violation
    but the one of a failed rollback, and each leaves the audit coupled with
    the graph the device state will have.  A method that panics is marked in
    the world; growth of the violations and of the mark is a preorder. *)

From Stdlib Require Import ZArith Lia.
From stdpp Require Import prelude list.
From S2P Require Import Prelude Core ObjectTable State Fault Ownership FaultFacts.

Section Triples.
Context {A : Accelerator}.
Implicit Types (w : FaultWorld A) (s : FaultState) (pre : FaultState -> Prop).

(** ** Triples *)

Definition spec {T} pre (m : FaultM T) (post : T -> FaultState -> Prop) : Prop :=
  forall w w' x, pre (fw_state w) -> m w = (w', Some x) -> post x (fw_state w').

Lemma spec_ret {T} pre (x : T) (post : T -> FaultState -> Prop) : (forall s, pre s -> post x s) -> spec pre (fret x) post.
Proof. intros H w w' y Hp [= <- <-]. auto. Qed.

Lemma spec_panic {T} pre (post : T -> FaultState -> Prop) : spec pre fpanic post.
Proof. done. Qed.

Lemma spec_bind {T U} pre (m : FaultM T) (k : T -> FaultM U) mid post :
  spec pre m mid -> (forall x, spec (mid x) (k x) post) -> spec pre (fbind m k) post.
Proof.
  intros Hm Hk w w' y Hp. unfold fbind. destruct (m w) as [w1 [x|]] eqn:He; [|done]. intros Hky.
  eapply Hk; [|exact Hky]. by eapply Hm.
Qed.

Lemma spec_control {T} pre (f : FaultState -> FaultState * T) (post : T -> FaultState -> Prop) :
  (forall s, pre s -> post (f s).2 (f s).1) -> spec pre (control f) post.
Proof. intros H w w' x Hp. unfold control. specialize (H _ Hp). destruct (f (fw_state w)). by intros [= <- <-]. Qed.

Lemma spec_update pre f (post : unit -> FaultState -> Prop) :
  (forall s, pre s -> post tt (f s)) -> spec pre (update f) post.
Proof. intros H. by apply spec_control. Qed.

Lemma spec_inner {T} pre (f : World -> World * T) (post : T -> FaultState -> Prop) :
  (forall x s, pre s -> post x s) -> spec pre (inner f) post.
Proof. intros H w w' x Hp. unfold inner. destruct (f (fw_inner w)). intros [= <- <-]. auto. Qed.

Lemma spec_inner_value {T} pre (f : World -> World * T) (post : T -> FaultState -> Prop) :
  (forall v v' x s, pre s -> f v = (v', x) -> post x s) -> spec pre (inner f) post.
Proof. intros H w w' x Hp. unfold inner. destruct (f (fw_inner w)) eqn:Hf. intros [= <- <-]. eauto. Qed.

Lemma spec_expect {T} pre (o : option T) (post : T -> FaultState -> Prop) :
  (forall x s, o = Some x -> pre s -> post x s) -> spec pre (expect o) post.
Proof. intros H. destruct o; [|done]. apply spec_ret. auto. Qed.

Lemma spec_weaken {T} pre pre' (m : FaultM T) (post post' : T -> FaultState -> Prop) :
  spec pre' m post' -> (forall s, pre s -> pre' s) -> (forall x s, post' x s -> post x s) -> spec pre m post.
Proof. intros Hm Hpre Hpost w w' x Hp He. eauto. Qed.

Lemma spec_any {T} pre (m : FaultM T) : spec pre m (fun _ _ => True).
Proof. done. Qed.

(** ** Growth *)

Record grows w w' : Prop := {
  gr_panicked : fw_panicked w = true -> fw_panicked w' = true;
  gr_violations : exists vs, fs_violations (fw_state w') = fs_violations (fw_state w) ++ vs;
}.

#[global] Instance grows_preorder : PreOrder grows.
Proof.
  split.
  - intros w. split; [done|]. exists []. by rewrite app_nil_r.
  - intros w1 w2 w3 [Hp1 [vs1 Hv1]] [Hp2 [vs2 Hv2]]. split; [auto|]. exists (vs1 ++ vs2). by rewrite Hv2, Hv1, app_assoc.
Qed.

Class Grows {T} (m : FaultM T) : Prop := grows_by : forall w, grows w (m w).1.

#[global] Instance grows_ret {T} (x : T) : Grows (fret x).
Proof. by intros w. Qed.
#[global] Instance grows_panic {T} : Grows (@fpanic A T).
Proof. by intros w. Qed.
#[global] Instance grows_bind {T U} (m : FaultM T) (k : T -> FaultM U) : Grows m -> (forall x, Grows (k x)) -> Grows (fbind m k).
Proof.
  intros Hm Hk w. unfold fbind. pose proof (Hm w) as H1. destruct (m w) as [w1 [x|]]; [|done]. simpl in H1.
  etrans; [exact H1|apply Hk].
Qed.
#[global] Instance grows_inner {T} (f : World -> World * T) : Grows (inner f).
Proof. intros w. unfold inner. destruct (f (fw_inner w)). split; [done|]. exists []. by rewrite app_nil_r. Qed.
#[global] Instance grows_expect {T} (o : option T) : Grows (@expect A T o).
Proof. destruct o; apply _. Qed.

(** The operations of the control that only append violations. *)
Definition appends (f : FaultState -> FaultState) : Prop := forall s, exists vs, fs_violations (f s) = fs_violations s ++ vs.

Lemma grows_control {T} (f : FaultState -> FaultState * T) : appends (fun s => (f s).1) -> Grows (control f).
Proof. intros Hf w. unfold control. specialize (Hf (fw_state w)). simpl in Hf. destruct (f (fw_state w)). by split. Qed.

Lemma appends_keep f : (forall s, fs_violations (f s) = fs_violations s) -> appends f.
Proof. intros Hf s. exists []. by rewrite Hf, app_nil_r. Qed.

Lemma set_state_violations h x s : fs_violations (set_resource_state h x s) = fs_violations s.
Proof. unfold set_resource_state. by destruct (find_resource h s) as [[]|]. Qed.

Lemma set_completion_violations h x s : fs_violations (set_completion h x s) = fs_violations s.
Proof. unfold set_completion. by destruct (list_find _ _) as [[]|]. Qed.

Lemma validate_appends h k : appends (fun s => (validate h k s).1).
Proof. intros s. unfold validate. repeat case_match; simpl; eauto; exists []; by rewrite app_nil_r. Qed.

Lemma validate_release_appends h k : appends (fun s => (validate_release h k s).1).
Proof.
  intros s. unfold validate_release. destruct (validate_appends h k s) as [vs Hv]. destruct (validate h k s) as [s1 []]; simpl in *; [|eauto].
  destruct (retained_by h k s1); simpl; [|eauto]. rewrite Hv, <- app_assoc. eauto.
Qed.

Lemma violation_appends v : appends (fun s => fs_add_violation v s).
Proof. intros s. by exists [v]. Qed.

#[local] Create HintDb grow.
#[local] Hint Resolve validate_appends validate_release_appends violation_appends set_state_violations set_completion_violations : grow.

(** Every step of a method grows. *)
Ltac grow :=
  repeat first
    [ apply grows_ret | apply grows_panic | apply grows_inner | apply grows_expect
    | apply grows_bind; [|intros ?]
    | apply grows_control; solve [simpl; auto with grow|apply appends_keep; intros; simpl; auto with grow]
    | assumption
    | case_match ].

#[global] Instance begin_call_grows point : Grows (@begin_call A point).
Proof. unfold begin_call, update. apply grows_bind; [by apply grows_control, appends_keep|]. intros s. apply grows_bind; [apply _|]. intros o.
  destruct (take_fault _ _ _). grow. Qed.
#[global] Instance register_grows k : Grows (@register A k).
Proof. unfold register, update. grow. Qed.
#[global] Instance register_child_grows k p : Grows (@register_child A k p).
Proof. unfold register_child, update. apply grows_bind; [apply _|]. intros h. grow. Qed.
#[global] Instance register_event_grows ds : Grows (@register_event A ds).
Proof. unfold register_event, update. apply grows_bind; [apply _|]. intros h. grow. Qed.
#[global] Instance finish_release_grows h k o b : Grows (@finish_release A h k o b).
Proof. unfold finish_release, update. grow. Qed.
#[global] Instance finish_rollback_grows h k o : Grows (@finish_rollback A h k o).
Proof. unfold finish_rollback, update. apply grows_bind; [apply _|]. intros ?. grow. Qed.
#[global] Instance rollback_grows {R} h k (x : R) release : Grows (rollback_resource h k x release).
Proof. unfold rollback_resource. apply grows_bind; [apply _|]. intros. apply _. Qed.
#[global] Instance validate_resource_grows {T} (x : Tracked T) k : Grows (@validate_resource A _ x k).
Proof. unfold validate_resource. grow. Qed.
#[global] Instance enter_grows {T} point (x : Tracked T) k : Grows (@enter A _ point x k).
Proof. unfold enter. repeat (apply grows_bind; [apply _|]; intros ?). apply _. Qed.

Ltac grow_methods :=
  repeat first
    [ apply grows_bind; [|intros ?] | apply _ | apply grows_control; solve [simpl; auto with grow|apply appends_keep; intros; simpl; auto with grow] | case_match ].

#[global] Instance release_grows {R} point k (x : Tracked R) release : Grows (release_resource point k x release).
Proof. unfold release_resource. grow_methods. Qed.
#[global] Instance create_child_grows {R I} point k c (create : World -> World * result (R * I) BackendError) release :
  Grows (create_child point k c create release).
Proof. unfold create_child. grow_methods. Qed.
#[global] Instance create_context_grows desc : Grows (@fault_create_context A desc).
Proof. unfold fault_create_context. grow_methods. Qed.
#[global] Instance device_info_grows : Grows (@fault_device_info A).
Proof. unfold fault_device_info. grow_methods. Qed.
#[global] Instance inner_bindings_grows bindings : Grows (@inner_bindings A bindings).
Proof. induction bindings; simpl; grow_methods. Qed.
#[global] Instance submit_grows q p bindings timeout : Grows (@fault_submit A q p bindings timeout).
Proof. unfold fault_submit. grow_methods. Qed.
#[global] Instance poll_grows e : Grows (@fault_poll_event A e).
Proof. unfold fault_poll_event, update. grow_methods. Qed.
#[global] Instance cancel_grows e : Grows (@fault_cancel_event A e).
Proof. unfold fault_cancel_event. grow_methods. Qed.
#[global] Instance write_grows b offset data : Grows (@fault_write_buffer A b offset data).
Proof. unfold fault_write_buffer. grow_methods. Qed.
#[global] Instance destroy_event_grows e : Grows (@fault_destroy_event A e).
Proof. unfold fault_destroy_event. grow_methods. Qed.
#[global] Instance load_program_grows c artifact : Grows (@fault_load_program A c artifact).
Proof. unfold fault_load_program. grow_methods. Qed.
#[global] Instance create_queue_grows c desc : Grows (@fault_create_queue A c desc).
Proof. unfold fault_create_queue. grow_methods. Qed.

#[global] Instance allocate_buffer_grows c desc : Grows (@fault_allocate_buffer A c desc).
Proof. apply create_child_grows. Qed.

End Triples.

(** ** Specifications *)

Section Specs.
Context {A : Accelerator}.
Context {C B P Q E : Type} `{!Named C, !Named B, !Named P, !Named Q, !Named E}.
Implicit Types (st : DeviceState C B P Q E) (s : FaultState) (w : FaultWorld A).

(** No violation, and the audit agrees with the graph. *)
Definition clean st s : Prop := fs_violations s = [] /\ coupled st None s.

(** The first violation is a rollback the inner backend did not perform. *)
Definition blamed s : Prop := exists h k e vs, fs_violations s = OvRollbackFailed h k e :: vs.

Definition waiting st k h parent deps s : Prop := fs_violations s = [] /\ pending st k h parent deps s.

Lemma clean_audit st s s' : same_audit s s' -> fs_violations s' = fs_violations s -> clean st s -> clean st s'.
Proof. intros Hs Hv [H1 H2]. split; [by rewrite Hv|by eapply coupled_audit]. Qed.

Lemma clean_graph st st' s : graph_same st st' -> clean st s -> clean st' s.
Proof. intros Hs [H1 H2]. split; [done|by eapply coupled_graph]. Qed.

Lemma begin_call_spec st point : spec (A := A) (clean st) (begin_call point) (fun _ => clean st).
Proof.
  unfold begin_call. apply spec_bind with (mid := fun s0 s => s0 = s /\ clean st s); [by apply spec_control|].
  intros s0. apply spec_bind with (mid := fun _ s => s0 = s /\ clean st s); [by apply spec_expect|]. intros o.
  destruct (take_fault _ _ _) as [pend injected].
  apply spec_bind with (mid := fun _ s => s0 = s /\ clean st s); [by apply spec_expect|]. intros n.
  apply spec_bind with (mid := fun _ => clean st); [|intros; by apply spec_ret].
  apply spec_update. intros s [<- Hc]. by eapply clean_audit; [|..|exact Hc].
Qed.

Lemma validate_resource_spec st {T} (x : Tracked T) k i :
  holds st k i (tr_id x) -> spec (A := A) (clean st) (validate_resource x k) (fun r s => r = Ok tt /\ clean st s).
Proof.
  intros Hh. unfold validate_resource. apply spec_bind with (mid := fun v s => v = true /\ clean st s).
  - apply spec_control. intros s [Hv Hc]. rewrite (coupled_validate _ _ _ _ _ _ Hc Hh). done.
  - intros v. apply spec_ret. by intros s [-> ?].
Qed.

Lemma enter_spec st {T} point (x : Tracked T) k i :
  holds st k i (tr_id x) -> spec (A := A) (clean st) (enter point x k) (fun _ => clean st).
Proof.
  intros Hh. unfold enter. eapply spec_bind; [apply begin_call_spec|]. intros a.
  eapply spec_bind; [by apply (validate_resource_spec st x k i)|]. intros v. apply spec_ret. by intros s [_ ?].
Qed.

Lemma restated_same h x s s1 s' : same_audit s s1 -> restated h x s1 s' -> restated h x s s'.
Proof.
  intros Hs [Ha Hwf Hp He Hn]. pose proof (fun h => same_audit_audit s s1 h Hs) as Hau.
  pose proof (same_audit_wf _ _ Hs). destruct Hs as [_ Hp1 He1 Hn1]. split; [|by auto|congruence..].
  intros h'. by rewrite Ha, !Hau.
Qed.

Lemma finish_release_spec pre h k o b (post : unit -> FaultState -> Prop) :
  (forall s, pre s -> is_Some (audit s h)) ->
  (forall s s', pre s -> restated h (outcome_state o) s s' -> fs_violations s' = fs_violations s -> post tt s') ->
  spec (A := A) pre (finish_release h k o b) post.
Proof.
  intros Hsome Hpost. unfold finish_release.
  apply spec_bind with (mid := fun s0 s => s0 = s /\ pre s); [by apply spec_control|]. intros s0.
  apply spec_bind with (mid := fun _ s => s0 = s /\ pre s); [by apply spec_expect|]. intros n1.
  apply spec_bind with (mid := fun _ s => s0 = s /\ pre s); [by apply spec_expect|]. intros n2.
  apply spec_bind with (mid := fun _ s => exists s0, pre s0 /\ same_audit s0 s /\ fs_violations s = fs_violations s0).
  - apply spec_update. intros s [-> Hs]. exists s. split; [done|]. split; [|done]. by split.
  - intros []. apply spec_update. intros s (s1 & Hs1 & Hsame & Hv).
    apply (Hpost s1); [done| |by rewrite set_state_violations]. eapply restated_same; [exact Hsame|].
    apply set_state_restated. rewrite (same_audit_audit s1 s h Hsame). auto.
Qed.

(** ** Releases *)

Definition released st k i (h : Z) {R} (r : result unit (ReleaseFailure (Tracked R))) s : Prop :=
  fs_violations s = [] /\
  match r with
  | Ok _ => forall st', graph_remove st k i st' -> clean st' s
  | Err (ReleaseRejected _ y) => tr_id y = h /\ clean st s
  | Err (ReleaseIndeterminate _) => True
  end.

Lemma release_audit_spec st k i {R} point (x : Tracked R) (release : R -> World -> World * result unit (ReleaseFailure R)) :
  holds st k i (tr_id x) -> unreferenced st k i ->
  spec (A := A) (clean st) (release_resource point k x release) (released st k i (tr_id x)).
Proof.
  intros Hh Hu. unfold release_resource. eapply spec_bind; [apply begin_call_spec|]. intros action.
  apply spec_bind with (mid := fun v s => v = RvReady /\ clean st s).
  { apply spec_control. intros s [Hv Hc]. by rewrite (coupled_validate_release _ _ _ _ _ Hc Hh Hu). }
  assert (Hsome : forall s, clean st s -> is_Some (audit s (tr_id x))).
  { intros s [_ Hc]. rewrite (co_live _ _ _ Hc _ _ _ Hh). eauto. }
  assert (Hrej : forall e (y : Tracked R), tr_id y = tr_id x ->
    spec (A := A) (clean st) (fbind (finish_release (tr_id x) k (RoRejected e) false) (fun _ => fret (Err (ReleaseRejected e y))))
      (released st k i (tr_id x))).
  { intros e y Hy. apply spec_bind with (mid := fun _ => clean st); [|intros; apply spec_ret; intros s Hs; split; [apply Hs|done]].
    apply finish_release_spec; [done|]. intros s s' [Hv Hc] Hr Hv'. split; [by rewrite Hv'|by eapply coupled_live]. }
  assert (Hind : forall e, spec (A := A) (clean st)
    (fbind (finish_release (tr_id x) k (RoIndeterminate e) false) (fun _ => fret (Err (ReleaseIndeterminate e))))
      (released st k i (tr_id x) (R := R))).
  { intros e. apply spec_bind with (mid := fun _ s => fs_violations s = []); [|intros; by apply spec_ret].
    apply finish_release_spec; [done|]. intros s s' [Hv Hc] Hr Hv'. by rewrite Hv'. }
  intros v. apply spec_weaken with (pre' := fun s => v = RvReady /\ clean st s) (post' := released st k i (tr_id x)); [|done..].
  destruct v; [|intros w w' r [? _]; done..].
  apply spec_weaken with (pre' := clean st) (post' := released st k i (tr_id x)); [|by intros s [_ ?]|done].
  destruct action as [[e|e|e|e|e]|]; try (by intros w w' r ?); [by apply Hrej|apply Hind|].
  apply spec_bind with (mid := fun _ => clean st); [by apply spec_inner|].
  intros [[]|[e y|e]]; [|by apply Hrej|apply Hind].
  apply spec_bind with (mid := fun _ s => fs_violations s = [] /\ forall st', graph_remove st k i st' -> clean st' s); [|intros; by apply spec_ret].
  apply finish_release_spec; [done|]. intros s s' [Hv Hc] Hr Hv'. split; [by rewrite Hv'|]. intros st' Hg.
  split; [by rewrite Hv'|by eapply coupled_removed].
Qed.

Lemma destroy_event_spec st i x :
  holds st RkEvent i (tr_id x) -> spec (A := A) (clean st) (fault_destroy_event x) (released st RkEvent i (tr_id x)).
Proof.
  intros Hh. unfold fault_destroy_event. apply spec_bind with (mid := fun _ => clean st); [by apply spec_control|].
  intros known. apply release_audit_spec; [done|apply unreferenced_event].
Qed.

(** ** Creations *)

(** The state after [register]. *)
Definition register_state k s : FaultState :=
  fs_set_registered (fs_next_resource_id s + 1)
    (fs_resources s ++ [{| rr_id := fs_next_resource_id s; rr_kind := k; rr_state := RsLive |}]) s.

Lemma register_spec st k :
  spec (A := A) (clean st) (register k) (fun h s => exists s0, clean st s0 /\ h = fs_next_resource_id s0 /\ s = register_state k s0).
Proof.
  unfold register. apply spec_bind with (mid := fun s0 s => s0 = s /\ clean st s); [by apply spec_control|]. intros s0.
  apply spec_bind with (mid := fun n s => n = fs_next_resource_id s0 + 1 /\ s0 = s /\ clean st s).
  { apply spec_expect. intros n s Hn ?. split; [|done]. unfold checked_add in Hn. case_match; by simplify_eq. }
  intros n. apply spec_bind with (mid := fun _ s => clean st s0 /\ s = register_state k s0).
  - apply spec_update. by intros s (-> & <- & ?).
  - intros []. apply spec_ret. intros s [? ->]. by exists s0.
Qed.

Lemma register_waiting st k s s' parents events parent deps :
  clean st s -> fs_resources s' = fs_resources (register_state k s) ->
  fs_next_resource_id s' = fs_next_resource_id (register_state k s) -> fs_violations s' = fs_violations s ->
  fs_parents s' = fs_parents s ++ parents -> fs_event_dependencies s' = fs_event_dependencies s ++ events ->
  (forall c p, (c, p) ∈ parents -> c = fs_next_resource_id s /\ parent = Some p) ->
  (forall e ds, (e, ds) ∈ events -> e = fs_next_resource_id s /\ k = RkEvent /\ ds = deps) ->
  waiting st k (fs_next_resource_id s) parent deps s'.
Proof.
  intros [Hv Hc] Hr Hn Hv' Hp He Hps Hes. split; [by rewrite Hv'|].
  eapply coupled_register; [exact Hc| |exact Hps|exact Hes]. apply registered_intro; [done|done|apply Hc|done|done].
Qed.

Lemma register_alone_spec st k : spec (A := A) (clean st) (register k) (fun h => waiting st k h None []).
Proof.
  eapply spec_weaken; [apply (register_spec st k)|done|]. intros h s (s0 & Hc & -> & ->).
  apply (register_waiting st k s0 _ [] []); try done; simpl; by rewrite ?app_nil_r; try intros ? ? ?%elem_of_nil.
Qed.

Lemma register_child_spec st k p : spec (A := A) (clean st) (register_child k p) (fun h => waiting st k h (Some p) []).
Proof.
  unfold register_child. eapply spec_bind; [apply register_spec|]. intros h.
  apply spec_bind with (mid := fun _ => waiting st k h (Some p) []); [|intros; by apply spec_ret].
  apply spec_update. intros s (s0 & Hc & -> & ->).
  apply (register_waiting st k s0 _ [(fs_next_resource_id s0, p)] []); try done; simpl; rewrite ?app_nil_r; try done.
  - by intros c q [= -> ->]%list_elem_of_singleton.
  - by intros ? ? ?%elem_of_nil.
Qed.

Lemma register_event_spec st ds :
  spec (A := A) (clean st) (register_event ds) (fun h => waiting st RkEvent h None ds).
Proof.
  unfold register_event. eapply spec_bind; [apply register_spec|]. intros h.
  apply spec_bind with (mid := fun _ => waiting st RkEvent h None ds); [|intros; by apply spec_ret].
  apply spec_update. intros s (s0 & Hc & -> & ->).
  apply (register_waiting st RkEvent s0 _ [] [(fs_next_resource_id s0, ds)]); try done; simpl; rewrite ?app_nil_r; try done.
  - by intros ? ? ?%elem_of_nil.
  - by intros e ds' [= -> ->]%list_elem_of_singleton.
Qed.

Lemma rollback_audit_spec st k h parent deps {R} (x : R) release :
  spec (A := A) (waiting st k h parent deps) (rollback_resource h k x release) (fun _ s => clean st s \/ blamed s).
Proof.
  unfold rollback_resource. apply spec_bind with (mid := fun _ => waiting st k h parent deps); [by apply spec_inner|].
  intros r. unfold finish_rollback.
  set (o := match r with Ok _ => RoSuccess | Err (ReleaseRejected e _) => RoRejected e | Err (ReleaseIndeterminate e) => RoIndeterminate e end).
  apply spec_bind with (mid := fun _ s => fs_violations s = [] /\ (o = RoSuccess -> clean st s)).
  { apply finish_release_spec.
    - intros s [_ Hp]. rewrite (pe_audit _ _ _ _ _ _ Hp). eauto.
    - intros s s' [Hv Hp] Hr Hv'. split; [by rewrite Hv'|]. intros Ho. rewrite Ho in Hr.
      split; [by rewrite Hv'|by eapply pending_released]. }
  intros []. assert (Hbad : forall e, spec (A := A) (fun s => fs_violations s = [] /\ (o = RoSuccess -> clean st s))
      (fbind (update (set_resource_state h RsIndeterminate)) (fun _ => update (fs_add_violation (OvRollbackFailed h k e))))
      (fun _ s => clean st s \/ blamed s)).
  { intros e. apply spec_bind with (mid := fun _ s => fs_violations s = []).
    - apply spec_update. intros s [Hv _]. by rewrite set_state_violations.
    - intros []. apply spec_update. intros s Hv. right. exists h, k, e, []. simpl. by rewrite Hv. }
  destruct o; [|apply Hbad..]. apply spec_ret. intros s [_ Hc]. left. auto.
Qed.

Definition created st k parent {R} (r : result (Tracked R) BackendError) s : Prop :=
  match r with
  | Ok x => waiting st k (tr_id x) parent [] s
  | Err _ => clean st s \/ blamed s
  end.

Lemma create_context_spec st desc : spec (A := A) (clean st) (fault_create_context desc) (created st RkContext None).
Proof.
  unfold fault_create_context. eapply spec_bind; [apply begin_call_spec|]. intros action.
  destruct (before_error action); [apply spec_ret; by left|].
  apply spec_bind with (mid := fun _ => clean st); [by apply spec_inner|]. intros [x|e]; [|apply spec_ret; by left].
  eapply spec_bind; [apply register_alone_spec|]. intros h.
  destruct (after_error action); [|by apply spec_ret].
  eapply spec_bind; [apply rollback_audit_spec|]. intros []. by apply spec_ret.
Qed.

Definition created_with st k parent {R I} (r : result (Tracked R * I) BackendError) s : Prop :=
  created st k parent (result_map fst r) s.

Lemma create_child_spec st k {R I} point ctx i (create : World -> World * result (R * I) BackendError) release :
  holds st RkContext i (tr_id ctx) ->
  spec (A := A) (clean st) (create_child point k ctx create release) (created_with st k (Some (tr_id ctx))).
Proof.
  intros Hh. unfold create_child. eapply spec_bind; [by apply (enter_spec st point ctx RkContext i)|]. intros [action|e].
  2: { apply spec_ret. by left. }
  apply spec_bind with (mid := fun _ => clean st); [by apply spec_inner|]. intros [[x info]|e]; [|apply spec_ret; by left].
  eapply spec_bind; [apply register_child_spec|]. intros h.
  destruct (after_error action); [|by apply spec_ret].
  eapply spec_bind; [apply rollback_audit_spec|]. intros []. by apply spec_ret.
Qed.

Lemma load_program_spec st ctx i artifact :
  holds st RkContext i (tr_id ctx) ->
  spec (A := A) (clean st) (fault_load_program ctx artifact) (created st RkProgram (Some (tr_id ctx))).
Proof.
  intros Hh. unfold fault_load_program. eapply spec_bind; [by eapply create_child_spec|]. intros r. by apply spec_ret.
Qed.

Lemma create_queue_spec st ctx i desc :
  holds st RkContext i (tr_id ctx) ->
  spec (A := A) (clean st) (fault_create_queue ctx desc) (created st RkQueue (Some (tr_id ctx))).
Proof.
  intros Hh. unfold fault_create_queue. eapply spec_bind; [by eapply create_child_spec|]. intros r. by apply spec_ret.
Qed.

(** ** Uses *)

Lemma poll_spec st e i : holds st RkEvent i (tr_id e) -> spec (A := A) (clean st) (fault_poll_event e) (fun _ => clean st).
Proof.
  intros Hh. unfold fault_poll_event. eapply spec_bind; [by apply (enter_spec st FpPollEvent e RkEvent i)|].
  intros [action|]; [|by apply spec_ret].
  apply spec_bind with (mid := fun _ => clean st).
  { destruct action as [[]|]; try by apply spec_ret. apply spec_update. intros s Hc.
    eapply clean_audit; [|by rewrite set_completion_violations|exact Hc].
    unfold set_completion. by destruct (list_find _ _) as [[]|]. }
  intros _. apply spec_bind with (mid := fun _ => clean st); [by apply spec_control|]. intros known.
  apply spec_bind with (mid := fun _ => clean st); [|intros; by apply spec_ret].
  destruct known; [by apply spec_ret|by apply spec_inner].
Qed.

Lemma cancel_spec st e i : holds st RkEvent i (tr_id e) -> spec (A := A) (clean st) (fault_cancel_event e) (fun _ => clean st).
Proof.
  intros Hh. unfold fault_cancel_event. eapply spec_bind; [by apply (enter_spec st FpCancelEvent e RkEvent i)|].
  intros [action|]; [|by apply spec_ret].
  apply spec_bind with (mid := fun _ => clean st); [by apply spec_control|]. intros [|]; [by apply spec_ret|].
  apply spec_bind with (mid := fun _ => clean st); [by apply spec_inner|intros; by apply spec_ret].
Qed.

Lemma write_spec st b i offset data :
  holds st RkBuffer i (tr_id b) ->
  spec (A := A) (clean st) (fault_write_buffer b offset data) (fun r s => tr_id r.1 = tr_id b /\ clean st s).
Proof.
  intros Hh. unfold fault_write_buffer. eapply spec_bind; [by apply (enter_spec st FpWriteBuffer b RkBuffer i)|].
  intros [action|]; [|by apply spec_ret].
  apply spec_bind with (mid := fun _ => clean st); [by apply spec_inner|]. intros [b' r]. by apply spec_ret.
Qed.

Definition submitted st (deps : list Z) {R} (r : result (Tracked R) (SubmitFailure (Tracked R))) s : Prop :=
  match r with
  | Ok ev | Err (SubmitIndeterminate _ ev) => waiting st RkEvent (tr_id ev) None deps s
  | Err (SubmitRejected _) => clean st s
  end.

Lemma inner_bindings_spec st bindings :
  (forall b, b ∈ bindings -> exists i, holds st RkBuffer i (tr_id (bref_buffer b))) ->
  spec (A := A) (clean st) (inner_bindings bindings) (fun _ => clean st).
Proof.
  induction bindings as [|b bs IH]; intros Hb; simpl; [by apply spec_ret|].
  destruct (Hb b) as [i Hi]; [by left|].
  eapply spec_bind; [by apply (validate_resource_spec st (bref_buffer b) RkBuffer i)|].
  intros v. apply spec_weaken with (pre' := clean st) (post' := fun _ => clean st); [|by intros s [_ ?]|done].
  destruct v; [|by apply spec_ret].
  eapply spec_bind; [apply IH; intros; apply Hb; by right|]. intros r. by apply spec_ret.
Qed.

Lemma submit_spec st q p bindings timeout qi pi :
  holds st RkQueue qi (tr_id q) -> holds st RkProgram pi (tr_id p) ->
  (forall b, b ∈ bindings -> exists i, holds st RkBuffer i (tr_id (bref_buffer b))) ->
  spec (A := A) (clean st) (fault_submit q p bindings timeout) (submitted st (dependencies q p bindings)).
Proof.
  intros Hq Hp Hb. unfold fault_submit. eapply spec_bind; [apply begin_call_spec|]. intros action.
  eapply spec_bind; [by apply (validate_resource_spec st q RkQueue qi)|].
  intros v. apply spec_weaken with (pre' := clean st) (post' := submitted st (dependencies q p bindings)); [|by intros s [_ ?]|done].
  destruct v; [|by apply spec_ret].
  eapply spec_bind; [by apply (validate_resource_spec st p RkProgram pi)|].
  intros v. apply spec_weaken with (pre' := clean st) (post' := submitted st (dependencies q p bindings)); [|by intros s [_ ?]|done].
  destruct v; [|by apply spec_ret].
  eapply spec_bind; [by apply inner_bindings_spec|]. intros [native|]; [|by apply spec_ret].
  assert (Hrun : forall scripted, spec (A := A) (clean st)
    (fbind (inner (acc_submit (tr_inner q) (tr_inner p) native timeout)) (fun r =>
       match r with
       | Ok event => fbind (register_event (dependencies q p bindings)) (fun id => fret
           match scripted with Some error => Err (SubmitIndeterminate error (MkTracked id event)) | None => Ok (MkTracked id event) end)
       | Err (SubmitRejected error) => fret (Err (SubmitRejected error))
       | Err (SubmitIndeterminate error event) => fbind (register_event (dependencies q p bindings)) (fun id =>
           fret (Err (SubmitIndeterminate (default error scripted) (MkTracked id event))))
       end)) (submitted st (dependencies q p bindings))).
  { intros scripted. apply spec_bind with (mid := fun _ => clean st); [by apply spec_inner|].
    intros [ev|[e|e ev]]; [|by apply spec_ret|]; (eapply spec_bind; [apply register_event_spec|]);
      intros h; apply spec_ret; intros s Hs; by destruct scripted. }
  destruct action as [[]|]; first [apply (Hrun None)|apply (Hrun (Some _))|by apply spec_ret].
Qed.

End Specs.
