(* ===== verification/AuditedEngine.v ===== *)
(** * The device as a client of an audited backend

    What a backend that tracks ownership promises to its client ([Audited]),
    and that the command engine keeps its side: every handle it passes is one
    an object holds, no handle is released while something depends on it, and
    as long as the device need not be discarded the backend's account of its
    resources is the object graph. *)

From Stdlib Require Import ZArith Lia.
From stdpp Require Import prelude list relations.
From S2P Require Import Prelude Codec Proto Transport Core ObjectTable Regions Response Decoder DecoderSpec Frame State TableFacts ChildInv StateInv StateEvents StateFacts Engine EngineFacts ResetFacts ResetLive Settled EngineProps Fault Ownership.

(** The identities of a backend's handles. *)
Class HandleNames (A : Accelerator) := {
  context_named :: Named Context;
  buffer_named :: Named Buffer;
  program_named :: Named Program;
  queue_named :: Named Queue;
  event_named :: Named Event;
}.

Section Contract.
Context {A : Accelerator} `{!HandleNames A}.
Implicit Types (st : AcceleratorState) (w : World).

(** [owns st w]: the backend's account in world [w] is the graph of [st];
    [quiet w]: it has nothing to object to so far. *)
Context (owns : AcceleratorState -> World -> Prop) (quiet : World -> Prop).

Definition release_audited {R} `{!Named R} k (release : R -> World -> World * result unit (ReleaseFailure R)) : Prop :=
  forall st i x w w' r, owns st w -> holds st k i (name_of x) -> unreferenced st k i -> release x w = (w', r) ->
  quiet w' /\
  match r with
  | Ok _ => forall st', graph_remove st k i st' -> owns st' w'
  | Err (ReleaseRejected _ y) => forall st', (name_of y = name_of x -> graph_same st st') -> owns st' w'
  | Err (ReleaseIndeterminate _) => True
  end.

Definition child_audited {X Y} k (key : X -> Z) (create : Context -> World -> World * result X Y) : Prop :=
  forall st ctx c w w' r, owns st w -> holds st RkContext ctx (name_of c) -> create c w = (w', r) ->
  match r with
  | Ok x => forall oid st', graph_insert st k oid {| nd_handle := Some (key x); nd_context := Some ctx; nd_refs := [] |} st' -> owns st' w'
  | Err _ => owns st w'
  end.

Class Audited : Prop := {
  au_quiet : forall st w, owns st w -> quiet w;
  au_graph : forall st st' w, graph_same st st' -> owns st w -> owns st' w;
  au_create_context : forall desc st w w' r, owns st w -> acc_create_context desc w = (w', r) ->
    match r with
    | Ok x => forall oid st', graph_insert st RkContext oid {| nd_handle := Some (name_of x); nd_context := None; nd_refs := [] |} st' -> owns st' w'
    | Err _ => owns st w'
    end;
  au_allocate_buffer : forall desc, child_audited RkBuffer (fun a => name_of a.1) (fun c => acc_allocate_buffer c desc);
  au_load_program : forall artifact, child_audited RkProgram name_of (fun c => acc_load_program c artifact);
  au_create_queue : forall desc, child_audited RkQueue name_of (fun c => acc_create_queue c desc);
  au_destroy_context : release_audited RkContext acc_destroy_context;
  au_free_buffer : release_audited RkBuffer acc_free_buffer;
  au_unload_program : release_audited RkProgram acc_unload_program;
  au_destroy_queue : release_audited RkQueue acc_destroy_queue;
  au_destroy_event : release_audited RkEvent acc_destroy_event;
  au_write_buffer : forall b offset data st i w w' b' r, owns st w -> holds st RkBuffer i (name_of b) ->
    acc_write_buffer b offset data w = (w', (b', r)) -> forall st', (name_of b' = name_of b -> graph_same st st') -> owns st' w';
  au_read_buffer : forall {S : Type} `{!ByteSink S} b offset n st i w (p p' : S) w' r, owns st w -> holds st RkBuffer i (name_of b) ->
    run_sink (acc_read_buffer b offset n w) p = (p', (w', r)) -> owns st w';
  au_submit : forall q p bindings timeout st qi pi bs w w' r, owns st w ->
    holds st RkQueue qi (name_of q) -> holds st RkProgram pi (name_of p) ->
    (forall b, b ∈ bindings -> exists bi, bi ∈ bs /\ holds st RkBuffer bi (name_of (bref_buffer b))) ->
    acc_submit q p bindings timeout w = (w', r) ->
    match r with
    | Ok ev | Err (SubmitIndeterminate _ ev) => forall oid st',
        graph_insert st RkEvent oid {| nd_handle := Some (name_of ev); nd_context := None; nd_refs := event_refs qi pi bs |} st' ->
        owns st' w'
    | Err (SubmitRejected _) => owns st w'
    end;
  au_poll_event : forall e st i w w' r, owns st w -> holds st RkEvent i (name_of e) -> acc_poll_event e w = (w', r) -> owns st w';
  au_cancel_event : forall e st i w w' r, owns st w -> holds st RkEvent i (name_of e) -> acc_cancel_event e w = (w', r) -> owns st w';
}.

End Contract.

Section Client.
Context {A : Accelerator} `{!HandleNames A} (owns : AcceleratorState -> World -> Prop) (quiet : World -> Prop).
Context `{Haud : !Audited owns quiet} `{!BackendTyped A}.
Implicit Types (self : CommandProcessor) (st : AcceleratorState).

Record audited self : Prop := {
  ad_quiet : quiet (cp_accelerator self);
  ad_owns : cp_health self <> BackendDiscardRequired -> owns (cp_state self) (cp_accelerator self);
}.

Lemma owns_graph st st' w : graph_same st st' -> owns st w -> owns st' w.
Proof. apply Haud. Qed.

Lemma owns_quiet st w : owns st w -> quiet w.
Proof. apply Haud. Qed.

Lemma audited_owns self : owns (cp_state self) (cp_accelerator self) -> audited self.
Proof. intros Ho. split; [by eapply owns_quiet|done]. Qed.

Lemma audited_discard self : quiet (cp_accelerator self) -> audited (require_backend_discard self).
Proof. intros Hq. by split. Qed.

(** Answers change neither the graph nor the backend. *)
Lemma audited_core self self' :
  cp_state self' = cp_state self -> cp_accelerator self' = cp_accelerator self ->
  (cp_health self = BackendDiscardRequired -> cp_health self' = BackendDiscardRequired) -> audited self -> audited self'.
Proof. intros Hst Hw Hh [Hq Ho]. split; rewrite ?Hst, Hw; [done|]. intros Hne. apply Ho. intros He. apply Hne. auto. Qed.

Lemma complete_audited r status request_id mutated self :
  audited self -> audited (complete_response r status request_id mutated self).1.
Proof.
  intros Hc. unfold complete_response. destruct r; [done|].
  destruct (mutated && _) eqn:He; [|done]. apply andb_true_iff in He as [_ He%bool_decide_eq_true].
  apply (audited_core self); [done..| |done]. by rewrite He.
Qed.

Section Answers.
Context {S : Type} `{ByteSink S}.
Implicit Types (response : S).

Lemma respond_empty_audited response status request_id mutated self :
  audited self -> audited (respond_empty response status request_id mutated self).1.1.
Proof.
  intros Hc. unfold respond_empty. destruct (ResponseWriter_write_empty _ _ _) as [s r].
  pose proof (complete_audited r status request_id mutated self Hc) as Hr. by destruct (complete_response _ _ _ _ _).
Qed.

Lemma respond_bytes_audited response status request_id payload mutated self :
  audited self -> audited (respond_bytes response status request_id payload mutated self).1.1.
Proof.
  intros Hc. unfold respond_bytes. match goal with |- context [match ?e with (_, _) => _ end] => destruct e as [s r] end.
  pose proof (complete_audited r status request_id mutated self Hc) as Hr. by destruct (complete_response _ _ _ _ _).
Qed.

Lemma backend_status_audited error self : audited self -> audited (backend_status error self).1.
Proof. intros Hc. unfold backend_status. case_bool_decide; [by apply audited_discard, Hc|done]. Qed.

Lemma respond_backend_error_audited response request_id error mutated self :
  audited self -> audited (respond_backend_error response request_id error mutated self).1.1.
Proof.
  intros Hc. unfold respond_backend_error. pose proof (backend_status_audited error self Hc).
  destruct (backend_status error self). by apply respond_empty_audited.
Qed.

Lemma respond_create_error_audited response request_id error self :
  audited self -> audited (respond_create_error response request_id error self).1.1.
Proof. destruct error; [apply respond_empty_audited|apply respond_backend_error_audited]. Qed.

Lemma discard_audited response request_id self :
  quiet (cp_accelerator self) -> audited (discard_response response request_id self).1.1.
Proof. intros Hq. by apply respond_empty_audited, audited_discard. Qed.

(** ** Releases *)

Lemma release_protocol_audited {R} `{!Named R} k id begin release commit restore quarantine response request_id self :
  owns (cp_state self) (cp_accelerator self) -> release_audited owns quiet k release ->
  release_graph (cp_state self) k id begin commit restore ->
  (forall self, cp_accelerator (quarantine self) = cp_accelerator self) ->
  audited (release_protocol begin release commit restore quarantine response request_id self).1.1.
Proof.
  intros Ho Hrel [Herr Hbegin Hcommit Hrestore] Hqr. unfold release_protocol.
  destruct (begin (cp_state self)) as [st1 [x|e]] eqn:Hb.
  2: { apply respond_empty_audited, audited_owns. eapply owns_graph; [by eapply Herr|done]. }
  destruct (Hbegin _ _ eq_refl) as [Hh Hu].
  change (cp_accelerator (set_state st1 self)) with (cp_accelerator self).
  destruct (release x (cp_accelerator self)) as [w r] eqn:Hr. destruct (Hrel _ _ _ _ _ _ Ho Hh Hu Hr) as [Hq Hpost].
  destruct r as [[]|[error y|]].
  - change (cp_state (set_world w (set_state st1 self))) with st1.
    destruct (commit st1) as [st2 [[]|]] eqn:Hc; [|by apply discard_audited].
    apply respond_empty_audited, audited_owns. by eapply Hpost, Hcommit.
  - change (cp_state (set_world w (set_state st1 self))) with st1.
    destruct (restore y st1) as [st2 [[]|]] eqn:Hc; [|by apply discard_audited].
    apply respond_backend_error_audited, audited_owns. apply Hpost. intros Hn. by eapply Hrestore.
  - destruct (commit _) as [st2 r]. apply discard_audited. destruct (is_ok r); [by rewrite Hqr|done].
Qed.

Section Handlers.
Context (self : CommandProcessor) (Hinv : state_inv (cp_state self)) (Ho : owns (cp_state self) (cp_accelerator self)).

Lemma destroy_context_audited response request_id id : audited (destroy_context response request_id id self).1.1.
Proof.
  apply (release_protocol_audited RkContext id (begin_context_release id) acc_destroy_context (commit_context_release id)
    (restore_context_release id)
    (fun self => set_quarantined (bump_contexts (cp_quarantined self)) (cp_quarantined_bytes self) self));
    [done|apply Haud|by apply context_graph|done].
Qed.

Lemma destroy_queue_audited response request_id id : audited (destroy_queue response request_id id self).1.1.
Proof.
  apply (release_protocol_audited RkQueue id (begin_queue_release id) acc_destroy_queue (commit_queue_release id)
    (restore_queue_release id)
    (fun self => set_quarantined (bump_queues (cp_quarantined self)) (cp_quarantined_bytes self) self));
    [done|apply Haud|by apply queue_graph|done].
Qed.

Lemma release_event_audited response request_id id : audited (release_event response request_id id self).1.1.
Proof.
  apply (release_protocol_audited RkEvent id (begin_event_release id) acc_destroy_event (commit_event_release id)
    (restore_event_release id)
    (fun self => set_quarantined (bump_events (cp_quarantined self)) (cp_quarantined_bytes self) self));
    [done|apply Haud|by apply event_graph|done].
Qed.

Lemma free_buffer_audited response request_id id : audited (free_buffer response request_id id self).1.1.
Proof.
  unfold free_buffer. destruct (buffer_record id (cp_state self)) as [record|]; [|by apply respond_empty_audited, audited_owns].
  apply (release_protocol_audited RkBuffer id (begin_buffer_release id) acc_free_buffer (commit_buffer_release id)
    (restore_buffer_release id) (fun self => set_quarantined (bump_buffers (cp_quarantined self))
       (add_backing (bi_allocation_bytes (buf_info record)) (cp_quarantined_bytes self)) self));
    [done|apply Haud|by apply buffer_graph|done].
Qed.

Lemma unload_program_audited response request_id id : audited (unload_program response request_id id self).1.1.
Proof.
  unfold unload_program. destruct (program_record id (cp_state self)) as [record|]; [|by apply respond_empty_audited, audited_owns].
  apply (release_protocol_audited RkProgram id (begin_program_release id) acc_unload_program (commit_program_release id)
    (restore_program_release id) (fun self => set_quarantined (bump_programs (cp_quarantined self))
       (add_resident (prg_resident_bytes record) (cp_quarantined_bytes self)) self));
    [done|apply Haud|by apply program_graph|done].
Qed.

Lemma release_unpublished_audited response request_id id error :
  audited (release_unpublished_buffer response request_id id error self).1.1.
Proof.
  pose proof (owns_quiet _ _ Ho) as Hq. destruct (buffer_graph _ id Hinv) as [_ Hbegin Hcommit _].
  unfold release_unpublished_buffer. destruct (buffer_record id (cp_state self)); [|by apply discard_audited].
  destruct (begin_buffer_release id (cp_state self)) as [st1 [x|]] eqn:Hb; [|by apply discard_audited].
  destruct (Hbegin _ _ eq_refl) as [Hh Hu].
  change (cp_accelerator (set_state st1 self)) with (cp_accelerator self).
  destruct (acc_free_buffer x (cp_accelerator self)) as [w r] eqn:Hr.
  destruct (au_free_buffer _ _ _ _ _ _ _ _ Ho Hh Hu Hr) as [Hq' Hpost]. destruct r as [[]|[e y|]].
  - change (cp_state (set_world w (set_state st1 self))) with st1.
    destruct (commit_buffer_release id st1) as [st2 [[]|]] eqn:Hc; [|by apply discard_audited].
    apply respond_backend_error_audited, audited_owns. by eapply Hpost, Hcommit.
  - destruct (restore_buffer_release _ _ _). by apply discard_audited.
  - destruct (commit_buffer_release _ _) as [st2 r]. apply discard_audited. by destruct (is_ok r).
Qed.

Lemma event_resource_holds id e : event_resource id self = Ok e -> holds (cp_state self) RkEvent id (name_of e).
Proof.
  unfold event_resource, event_record, record_resource, ResourceSlot_get.
  destruct (table_get id (ds_events (cp_state self))) as [r|] eqn:Hg; [|done]. simpl. apply table_get_Ok in Hg.
  destruct (slot_resource (evt_slot r)) as [x|] eqn:Hs; [|done]. intros [= <-].
  exists (event_node r). split; [cbn [node]; by rewrite Hg|simpl; by rewrite Hs].
Qed.

Lemma poll_event_audited response request_id id : audited (poll_event response request_id id self).1.1.
Proof.
  unfold poll_event. destruct (event_resource id self) as [e|] eqn:He; [|by apply respond_empty_audited, audited_owns].
  apply event_resource_holds in He. destruct (acc_poll_event e _) as [w r] eqn:Hp.
  pose proof (au_poll_event _ _ _ _ _ _ _ _ Ho He Hp) as Ho'. destruct r as [state|].
  - case_bool_decide; [by apply respond_bytes_audited, audited_discard, (owns_quiet _ _ Ho')|].
    by apply respond_bytes_audited, audited_owns.
  - by apply respond_backend_error_audited, audited_owns.
Qed.

Lemma cancel_event_audited response request_id id : audited (cancel_event response request_id id self).1.1.
Proof.
  unfold cancel_event. destruct (validate_event_cancellation _); [|by apply respond_empty_audited, audited_owns].
  destruct (event_resource id self) as [e|] eqn:He; [|by apply respond_empty_audited, audited_owns].
  apply event_resource_holds in He. destruct (acc_cancel_event e _) as [w r] eqn:Hp.
  pose proof (au_cancel_event _ _ _ _ _ _ _ _ Ho He Hp) as Ho'.
  destruct r; [by apply respond_empty_audited, audited_owns|by apply respond_backend_error_audited, audited_owns].
Qed.

Lemma read_buffer_audited response request_id id range : audited (read_buffer response request_id id range self).1.1.
Proof.
  unfold read_buffer. destruct (buffer_record id (cp_state self)) as [record|] eqn:Hg; [|by apply respond_empty_audited, audited_owns].
  destruct (validate_transfer _ _ _); [|by apply respond_empty_audited, audited_owns].
  destruct (record_resource _) as [b|] eqn:Hb; [|by apply respond_empty_audited, audited_owns].
  destruct (ResponseWriter_payload _ _) as [payload|]; [|by apply audited_owns].
  destruct (run_sink _ _) as [p' [w r]] eqn:Hrun.
  assert (Ho' : owns (cp_state self) w).
  { eapply (au_read_buffer owns quiet (S := ResponsePayload S) b); [exact Ho| |exact Hrun].
    unfold buffer_record in Hg. apply table_get_Ok in Hg. unfold record_resource, ResourceSlot_get in Hb. simpl in Hb.
    destruct (slot_resource (buf_slot record)) eqn:Hs; [|done]. injection Hb as ->.
    exists (buffer_node record). split; [cbn [node]; by rewrite Hg|simpl; by rewrite Hs]. }
  destruct r as [u|e].
  - destruct (ResponsePayload_commit _ _ _) as [s r].
    pose proof (complete_audited r STATUS_OK request_id false (set_world w self) (audited_owns (set_world w self) Ho')).
    by destruct (complete_response _ _ _ _ _).
  - pose proof (backend_status_audited e (set_world w self) (audited_owns (set_world w self) Ho')) as Hb'.
    destruct (backend_status e _) as [self2 status]. destruct (ResponseWriter_write_empty _ _ _) as [s r].
    pose proof (complete_audited r status request_id false self2 Hb'). by destruct (complete_response _ _ _ _ _).
Qed.

Lemma write_buffer_audited response request_id id range data :
  audited (write_buffer response request_id id range data self).1.1.
Proof.
  unfold write_buffer.
  destruct (buffer_record_mut id (cp_state self)) as [[record put]|] eqn:Hg; [|by apply respond_empty_audited, audited_owns].
  destruct (validate_transfer _ _ _); [|by apply respond_empty_audited, audited_owns].
  destruct (ResourceSlot_get (buf_slot record)) as [b|] eqn:Hb; [|by apply respond_empty_audited, audited_owns].
  assert (Hs : slot_resource (buf_slot record) = Some b).
  { unfold ResourceSlot_get in Hb. destruct (slot_resource (buf_slot record)); [|done]. by injection Hb as ->. }
  destruct (acc_write_buffer _ _ _ _) as [w [b' r]] eqn:Hw.
  destruct (store_buffer_graph id record put b b (cp_state self) Hinv Hg Hs eq_refl) as [_ Hh].
  assert (Ho' : owns (put (rec_with_slot (ResourceSlot_put b' (buf_slot record)) record)) w).
  { eapply (au_write_buffer owns quiet); [exact Ho|exact Hh|exact Hw|]. intros Hn. by eapply store_buffer_graph. }
  destruct r; [by apply respond_empty_audited, audited_owns|by apply respond_backend_error_audited, audited_owns].
Qed.

End Handlers.

Lemma destroy_event_audited self response request_id id :
  state_inv (cp_state self) -> owns (cp_state self) (cp_accelerator self) ->
  audited (destroy_event response request_id id self).1.1.
Proof.
  intros Hinv Ho. unfold destroy_event. destruct (event_resource id self) as [e|] eqn:He; [|by apply respond_empty_audited, audited_owns].
  apply event_resource_holds in He. destruct (acc_poll_event e _) as [w r] eqn:Hp.
  pose proof (au_poll_event _ _ _ _ _ _ _ _ Ho He Hp) as Ho'.
  destruct r as [[| |[]|]|]; first [by apply release_event_audited|by apply respond_empty_audited, audited_owns|
    by apply respond_backend_error_audited, audited_owns|by apply discard_audited, (owns_quiet _ _ Ho')].
Qed.

(** ** Creations *)

Lemma context_resource_holds st ctx x : context_resource st ctx x -> holds st RkContext ctx (name_of x).
Proof. intros (c & Hc%table_get_Ok & Hs). exists (context_node c). split; [cbn [node]; by rewrite Hc|simpl; by rewrite Hs]. Qed.

(** A child creation leaves the backend's account in step with the graph. *)
Lemma child_created_owns {X} k (key : X -> Z) (call : Context -> World -> World * result X BackendError) st ctx st' w w' res :
  child_audited owns k key call -> owns st w -> child_created call key st k ctx st' w w' res -> owns st' w'.
Proof.
  intros Hcall Ho. unfold child_created. destruct res as [id|e].
  - intros (x & a & Hx%context_resource_holds & Hr & Hg). exact (Hcall _ _ _ _ _ _ Ho Hx Hr _ _ Hg).
  - intros [Hs He]. eapply owns_graph; [exact Hs|]. destruct e; [by subst|].
    destruct He as (x & Hx%context_resource_holds & Hr). exact (Hcall _ _ _ _ _ _ Ho Hx Hr).
Qed.

Lemma create_context_audited mem self response request_id desc :
  state_inv (cp_state self) -> owns (cp_state self) (cp_accelerator self) ->
  audited (create_context mem response request_id desc self).1.1.
Proof.
  intros Hinv Ho. unfold create_context. destruct (validate_context_desc _ _); [|by apply respond_backend_error_audited, audited_owns].
  destruct (create_context_with _ _ _ _) as [[st w] r] eqn:Hc. apply create_context_graph in Hc; [|done].
  assert (Ho' : owns st w).
  { destruct r as [id|e].
    - destruct Hc as (x & Hx & Hg). exact (au_create_context owns quiet _ _ _ _ _ Ho Hx _ _ Hg).
    - destruct Hc as [Hs He]. eapply owns_graph; [exact Hs|]. destruct e; [by subst|].
      exact (au_create_context owns quiet _ _ _ _ _ Ho He). }
  destruct r; [by apply respond_bytes_audited, audited_owns|by apply respond_create_error_audited, audited_owns].
Qed.

Lemma create_queue_audited mem self response request_id ctx desc :
  state_inv (cp_state self) -> owns (cp_state self) (cp_accelerator self) ->
  audited (create_queue mem response request_id ctx desc self).1.1.
Proof.
  intros Hinv Ho. unfold create_queue. destruct (validate_queue_desc _ _); [|by apply respond_backend_error_audited, audited_owns].
  destruct (create_queue_with _ _ _ _ _) as [[st w] r] eqn:Hc. apply create_queue_graph in Hc; [|done].
  eapply child_created_owns in Hc; [|apply Haud|done].
  destruct r; [by apply respond_bytes_audited, audited_owns|by apply respond_create_error_audited, audited_owns].
Qed.

Lemma load_program_audited mem self response request_id ctx format target payload resident_bytes :
  state_inv (cp_state self) -> is_u64 resident_bytes -> owns (cp_state self) (cp_accelerator self) ->
  audited (load_program mem response request_id ctx format target payload resident_bytes self).1.1.
Proof.
  intros Hinv Hu Ho. unfold load_program.
  destruct (create_program_with _ _ _ _ _ _ _) as [[st w] r] eqn:Hc. apply create_program_graph in Hc; [|done..].
  eapply child_created_owns in Hc; [|apply Haud|done].
  destruct r; [by apply respond_bytes_audited, audited_owns|by apply respond_create_error_audited, audited_owns].
Qed.

Lemma allocate_buffer_audited mem self response request_id ctx desc :
  state_inv (cp_state self) -> is_u64 (bd_bytes desc) -> owns (cp_state self) (cp_accelerator self) ->
  audited (allocate_buffer mem response request_id ctx desc self).1.1.
Proof.
  intros Hinv Hu Ho. unfold allocate_buffer.
  destruct (validate_buffer_desc _ _); [|by apply respond_backend_error_audited, audited_owns].
  destruct (create_buffer_with _ _ _ _ _ _) as [[st w] r] eqn:Hc.
  assert (Hinv' : state_inv st).
  { eapply state_step_inv; [|exact Hinv]. eapply step_create_buffer; [|exact Hc]. intros *. by apply allocation_typed. }
  apply create_buffer_graph in Hc; [|done|intros *; by apply allocation_typed].
  assert (Ho' : owns st w) by (eapply (child_created_owns RkBuffer (fun a => name_of a.1) (fun c => acc_allocate_buffer c desc)); [apply Haud|exact Ho|exact Hc]).
  destruct r as [[id|id e]|e]; [by apply respond_bytes_audited, audited_owns|by apply release_unpublished_audited|].
  by apply respond_create_error_audited, audited_owns.
Qed.

(** ** Submissions *)

Lemma native_bindings_held st q p bs resources bindings native :
  sees st q p bs resources -> native_bindings resources bindings = Ok native ->
  forall b, b ∈ native -> exists bi, bi ∈ bs /\ holds st RkBuffer bi (name_of (bref_buffer b)).
Proof.
  intros Hsees. revert native. induction bindings as [|b bs' IH]; intros native; cbn [native_bindings]; [intros [= <-] b' Hb; by apply elem_of_nil in Hb|].
  destruct (buffer_with_info_by_id (db_buffer_id b) resources) as [[buf info]|] eqn:Hb; [|done]. cbn [map_err].
  destruct (_ <? _); [done|]. destruct (negb _); [done|]. destruct (native_bindings resources bs') as [others|]; [|done].
  intros [= <-] b' [->|Hin]%elem_of_cons; [|by eapply IH]. simpl. destruct (se_buffer _ _ _ _ _ Hsees _ _ _ Hb). eauto.
Qed.

Lemma submit_admission_owns mem max bindings timeout st q p bs resources w adm w' adm' r :
  owns st w -> sees st q p bs resources ->
  submit_admission mem max bindings timeout resources (w, adm) = ((w', adm'), r) ->
  match r with
  | Ok ev => forall oid st',
      graph_insert st RkEvent oid {| nd_handle := Some (name_of ev); nd_context := None; nd_refs := event_refs q p bs |} st' -> owns st' w'
  | Err _ => owns st w'
  end.
Proof.
  intros Ho Hsees. unfold submit_admission. destruct (negb _); [by intros [= <- <- <-]|].
  destruct (native_bindings resources bindings) as [native|] eqn:Hn; [|by intros [= <- <- <-]].
  destruct (validate_bindings _ _); [|by intros [= <- <- <-]].
  destruct (acc_submit _ _ _ _ w) as [w1 r1] eqn:Hs.
  pose proof (au_submit owns quiet _ _ _ _ _ _ _ _ _ _ _ Ho (se_queue _ _ _ _ _ Hsees) (se_program _ _ _ _ _ Hsees)
    (native_bindings_held _ _ _ _ _ _ _ Hsees Hn) Hs) as Hpost.
  destruct r1 as [ev|[e|e ev]]; by intros [= <- <- <-].
Qed.

Lemma submit_audited mem self response request_id q p bindings timeout :
  state_inv (cp_state self) -> owns (cp_state self) (cp_accelerator self) ->
  audited (submit mem response request_id q p bindings timeout self).1.1.
Proof.
  intros Hinv Ho. unfold submit. destruct (negb _); [by apply respond_empty_audited, audited_owns|].
  destruct (create_event_with _ _ _ _ _ _ _) as [[st [w [status discard]]] r] eqn:Hc.
  apply create_event_graph in Hc; [|done].
  assert (Ho' : owns st w).
  { destruct Hc as [(e & -> & [= -> _ _] & Hs)|(resources & Hsees & Hcr)]; [by eapply owns_graph|].
    destruct (submit_admission _ _ _ _ _ _) as [[w1 adm] r1] eqn:Hadm.
    assert (Hsees' : sees (cp_state self) q p (sort_ids (map db_buffer_id bindings)) resources).
    { destruct Hsees as [H1 H2 H3]. split; [done..|]. intros id b info Hb. destruct (H3 id b info Hb). split; [|done].
      by rewrite sort_ids_perm. }
    pose proof (submit_admission_owns _ _ _ _ _ _ _ _ _ _ _ _ _ _ Ho Hsees' Hadm) as Hpost. destruct r1 as [ev|pe].
    - destruct Hcr as ([= -> _] & id & -> & Hg). by eapply Hpost.
    - destruct Hcr as ([= -> _] & -> & Hs). by eapply owns_graph. }
  destruct r as [event|[e|[e| |e|e]]];
    first [by apply respond_empty_audited, audited_owns|by apply respond_backend_error_audited, audited_owns|
           by apply discard_audited, (owns_quiet _ _ Ho')|idtac].
  unfold respond_event_id. apply respond_bytes_audited.
  destruct discard; [by apply audited_discard, (owns_quiet _ _ Ho')|by apply audited_owns].
Qed.

(** The fields of a request the accounting needs in range. *)
Definition request_typed (body : DecodedRequestBody) : Prop :=
  match body with
  | ReqAllocateBuffer _ desc => is_u64 (bd_bytes desc)
  | ReqLoadProgram _ _ _ _ resident_bytes => is_u64 resident_bytes
  | _ => True
  end.

Lemma dispatch_audited mem request response self :
  request_typed (dr_body request) -> state_inv (cp_state self) -> owns (cp_state self) (cp_accelerator self) ->
  audited (dispatch mem request response self).1.1.
Proof.
  intros Hu Hinv Ho. unfold dispatch.
  destruct (dr_body request); simpl in Hu;
    auto using respond_bytes_audited, audited_owns, create_context_audited, destroy_context_audited, allocate_buffer_audited,
      free_buffer_audited, write_buffer_audited, read_buffer_audited, load_program_audited, unload_program_audited,
      create_queue_audited, destroy_queue_audited, submit_audited, poll_event_audited, cancel_event_audited, destroy_event_audited.
Qed.

End Answers.

(** ** Reset *)

Implicit Types (pass : ResetPass).

Definition pass_owns pass : Prop := owns (pass_state pass) (cp_accelerator (ps_self pass)).

(** The backend lost track of a resource: the pass calls it no more. *)
Definition pass_lost pass : Prop :=
  quiet (cp_accelerator (ps_self pass)) /\ backend_callable (ps_progress pass) = false /\
  backend_reusable (ps_progress pass) = false.

Lemma reset_protocol_audited {R} `{!Named R} k id begin release commit (restore : R -> _) bump add pass :
  pass_owns pass -> release_audited owns quiet k release -> release_graph (pass_state pass) k id begin commit restore ->
  let '(pass', control) := reset_protocol begin release commit restore bump add pass in
  pass_owns pass' \/ pass_lost pass' /\ control = LoopBreak.
Proof.
  intros Ho Hrel [Herr Hbegin Hcommit Hrestore]. unfold reset_protocol.
  destruct (begin (pass_state pass)) as [st1 [x|e]] eqn:Hb.
  2: { left. eapply owns_graph; [by eapply Herr|done]. }
  destruct (Hbegin _ _ eq_refl) as [Hh Hu].
  change (cp_accelerator (ps_self (set_pass_state st1 pass))) with (cp_accelerator (ps_self pass)).
  destruct (release x (cp_accelerator (ps_self pass))) as [w r] eqn:Hr.
  destruct (Hrel _ _ _ _ _ _ Ho Hh Hu Hr) as [Hq Hpost]. destruct r as [[]|[error y|]]; [| |by right].
  - change (pass_state (set_pass_world w (set_pass_state st1 pass))) with st1.
    destruct (commit st1) as [st2 [[]|]] eqn:Hc; [|by right]. left. by eapply Hpost, Hcommit.
  - set (pass2 := not_callable_if _ _).
    assert (H2 : pass_state pass2 = st1 /\ cp_accelerator (ps_self pass2) = w /\ backend_reusable (ps_progress pass2) = false)
      by (unfold pass2, not_callable_if; by destruct (is_lost error)).
    destruct H2 as (H2 & H3 & H4). rewrite H2. destruct (restore y st1) as [st2 [[]|]] eqn:Hc.
    + left. unfold pass_owns. simpl. rewrite H3. apply Hpost. intros Hn. by eapply Hrestore.
    + right. split; [|done]. split; simpl; by rewrite ?H3.
Qed.

Definition body_audited (body : ObjectId -> ResetPass -> ResetPass * LoopControl) : Prop :=
  forall id pass, state_inv (pass_state pass) -> pass_owns pass ->
    let '(pass', control) := body id pass in pass_owns pass' \/ pass_lost pass' /\ control = LoopBreak.

Lemma queues_audited : body_audited reset_queues_body.
Proof.
  intros id pass Hinv Ho. apply (reset_protocol_audited RkQueue id (begin_queue_release id) acc_destroy_queue
    (commit_queue_release id) (restore_queue_release id) bump_queues (fun b => b)); [done|apply Haud|by apply queue_graph].
Qed.

Lemma contexts_audited : body_audited reset_contexts_body.
Proof.
  intros id pass Hinv Ho. apply (reset_protocol_audited RkContext id (begin_context_release id) acc_destroy_context
    (commit_context_release id) (restore_context_release id) bump_contexts (fun b => b)); [done|apply Haud|by apply context_graph].
Qed.

Lemma programs_audited : body_audited reset_programs_body.
Proof.
  intros id pass Hinv Ho. unfold reset_programs_body.
  destruct (program_record id (pass_state pass)) as [record|]; [|by left].
  apply (reset_protocol_audited RkProgram id (begin_program_release id) acc_unload_program (commit_program_release id)
    (restore_program_release id) bump_programs (add_resident (prg_resident_bytes record))); [done|apply Haud|by apply program_graph].
Qed.

Lemma buffers_audited : body_audited reset_buffers_body.
Proof.
  intros id pass Hinv Ho. unfold reset_buffers_body.
  destruct (buffer_record id (pass_state pass)) as [record|]; [|by left].
  apply (reset_protocol_audited RkBuffer id (begin_buffer_release id) acc_free_buffer (commit_buffer_release id)
    (restore_buffer_release id) bump_buffers (add_backing (bi_allocation_bytes (buf_info record)))); [done|apply Haud|by apply buffer_graph].
Qed.

Lemma not_callable_owns b pass : pass_owns pass -> pass_owns (not_callable_if b (not_reusable pass)).
Proof. by destruct b. Qed.

Lemma reset_event_settled_audited id state pass :
  state_inv (pass_state pass) -> pass_owns pass ->
  pass_owns (reset_event_settled id state pass) \/ pass_lost (reset_event_settled id state pass).
Proof.
  intros Hinv Ho. assert (Hrel : pass_owns (reset_event_release id pass) \/ pass_lost (reset_event_release id pass)).
  { rewrite reset_event_release_protocol.
    pose proof (reset_protocol_audited RkEvent id (begin_event_release id) acc_destroy_event (commit_event_release id)
      (restore_event_release id) bump_events (fun b => b) pass Ho (au_destroy_event owns quiet) (event_graph _ id Hinv)) as Hp.
    destruct (reset_protocol _ _ _ _ _ _ _) as [pass' c]. destruct Hp as [?|[? _]]; auto. }
  destruct state as [| |[]|]; simpl; auto; by left.
Qed.

Lemma reset_event_audited id pass :
  state_inv (pass_state pass) -> pass_owns pass -> pass_owns (reset_event id pass) \/ pass_lost (reset_event id pass).
Proof.
  intros Hinv Ho. unfold reset_event.
  destruct (event_resource id (ps_self pass)) as [e|] eqn:He; [|by left]. apply event_resource_holds in He.
  destruct (acc_poll_event e _) as [w r] eqn:Hp. assert (Ho1 : pass_owns (set_pass_world w pass)) by exact (au_poll_event _ _ _ _ _ _ _ _ Ho He Hp).
  destruct r as [state|]; [|left; by apply not_callable_owns].
  destruct state as [| |err|]; try by apply reset_event_settled_audited.
  destruct (negb _); [by left|].
  destruct (event_resource id (ps_self (set_pass_world w pass))) as [e2|] eqn:He2; [|by left]. apply event_resource_holds in He2.
  destruct (acc_cancel_event e2 _) as [w2 r2] eqn:Hc.
  assert (Ho2 : pass_owns (set_pass_world w2 (set_pass_world w pass))) by exact (au_cancel_event _ _ _ _ _ _ _ _ Ho1 He2 Hc).
  destruct r2 as [u|err]; [by apply reset_event_settled_audited|].
  destruct err; try (left; by apply not_callable_owns).
  destruct (event_resource id (ps_self _)) as [e3|] eqn:He3; [|by left]. apply event_resource_holds in He3.
  destruct (acc_poll_event e3 _) as [w3 r3] eqn:Hp3.
  assert (Ho3 : pass_owns (set_pass_world w3 (set_pass_world w2 (set_pass_world w pass)))) by exact (au_poll_event _ _ _ _ _ _ _ _ Ho2 He3 Hp3).
  destruct r3; [by apply reset_event_settled_audited|left; by apply not_callable_owns].
Qed.

Section Pass.
Context (self : CommandProcessor) (Hinv : state_inv (cp_state self)).

Lemma while_ids_audited fuel next body cursor pass :
  body_ok self body -> body_audited body -> pass_ok self pass -> pass_owns pass ->
  pass_owns (while_ids fuel next body cursor pass) \/ pass_lost (while_ids fuel next body cursor pass).
Proof.
  intros Hok Hbody. revert cursor pass. induction fuel as [|fuel IH]; intros cursor pass Hp Ho; simpl; [by left|].
  destruct (next cursor (pass_state pass)) as [[c id]|]; [|by left].
  pose proof (Hok id pass Hp) as Hp'. pose proof (Hbody id pass (pass_inv _ _ Hinv Hp) Ho) as Hb.
  destruct (body id pass) as [pass' control]. simpl in Hp'. destruct Hb as [Ho'|[Hl ->]]; [|by right].
  destruct control; [by apply IH|by left].
Qed.

Lemma when_callable_audited (tab : ResetPass -> nat) next body pass :
  body_ok self body -> body_audited body -> pass_ok self pass -> pass_owns pass \/ pass_lost pass ->
  let pass' := when_callable (fun pass => while_ids (tab pass) next body 0 pass) pass in
  pass_ok self pass' /\ (pass_owns pass' \/ pass_lost pass').
Proof.
  intros Hok Hbody Hp Hor. simpl. split; [by apply when_callable_ok; [intros; by apply while_ids_ok|]|].
  unfold when_callable. destruct (backend_callable (ps_progress pass)) eqn:Hcall; [|done].
  destruct Hor as [Ho|(_ & Hc & _)]; [by apply while_ids_audited|by rewrite Hc in Hcall].
Qed.

Lemma events_audited fuel cursor pass :
  pass_ok self pass -> pass_owns pass \/ pass_lost pass ->
  let pass' := while_ids fuel next_event_id reset_events_body cursor pass in pass_owns pass' \/ pass_lost pass'.
Proof.
  revert cursor pass. induction fuel as [|fuel IH]; intros cursor pass Hp Hor; simpl; [done|].
  destruct (next_event_id cursor (pass_state pass)) as [[c id]|]; [|done].
  assert (Hb : reset_events_body id pass = if backend_callable (ps_progress pass) then (reset_event id pass, LoopContinue) else (pass, LoopBreak))
    by (unfold reset_events_body; by destruct (backend_callable _)).
  rewrite Hb. clear Hb. destruct (backend_callable (ps_progress pass)) eqn:Hcall; [|done].
  destruct Hor as [Ho|(_ & Hc & _)]; [|by rewrite Hc in Hcall].
  apply IH; [by apply reset_event_ok|]. apply reset_event_audited; [by eapply pass_inv|done].
Qed.

Lemma reset_pass_audited pass :
  pass_ok self pass -> pass_owns pass -> pass_owns (reset_pass pass) \/ pass_lost (reset_pass pass).
Proof.
  intros Hp Ho. unfold reset_pass.
  assert (H0 : pass_ok self (reset_events pass)) by (apply while_ids_ok; [by apply reset_events_body_ok|done]).
  assert (H0' : pass_owns (reset_events pass) \/ pass_lost (reset_events pass)) by (apply events_audited; auto).
  destruct (when_callable_audited (fun pass => S (length (ot_slots (ds_queues (pass_state pass))))) next_queue_id reset_queues_body
    _ (reset_queues_body_ok self Hinv) queues_audited H0 H0') as [H1 H1'].
  destruct (when_callable_audited (fun pass => S (length (ot_slots (ds_programs (pass_state pass))))) next_program_id reset_programs_body
    _ (reset_programs_body_ok self Hinv) programs_audited H1 H1') as [H2 H2'].
  destruct (when_callable_audited (fun pass => S (length (ot_slots (ds_buffers (pass_state pass))))) next_buffer_id reset_buffers_body
    _ (reset_buffers_body_ok self Hinv) buffers_audited H2 H2') as [H3 H3'].
  apply (when_callable_audited (fun pass => S (length (ot_slots (ds_contexts (pass_state pass))))) next_context_id reset_contexts_body
    _ (reset_contexts_body_ok self Hinv) contexts_audited H3 H3').
Qed.

End Pass.

Lemma reset_audited namespace self :
  engine_inv self -> is_u16 namespace -> audited self -> audited (reset namespace self).1.
Proof.
  intros Hinv Hns [Hq Ho].
  destruct (decide (cp_health self = BackendDiscardRequired)) as [Hd|Hd].
  { unfold reset. rewrite bool_decide_true by done. destruct (cp_last_reset self); (split; [done|]; intros Hn; by destruct Hn). }
  destruct (decide (namespace = ds_namespace (cp_state self))) as [He|He].
  { unfold reset. rewrite bool_decide_false, (proj2 (Z.eqb_eq _ _)) by done. by split. }
  destruct (reset namespace self) as [self' r] eqn:Hr. simpl.
  destruct (reset_cases _ _ _ _ Hinv Hns Hd He Hr) as (report & _ & _ & _ & _ & _ & _ & _ & _ & Hw & _ & _ & Hout).
  pose proof (reset_pass_audited (set_last_reset None (set_health NeedsReset self)) (ei_state _ Hinv) _ (reset_start_ok self) (Ho Hd)) as Hor.
  assert (Hst : state_inv (pass_state (reset_pass (reset_start self)))).
  { eapply (pass_inv (set_last_reset None (set_health NeedsReset self))); [apply Hinv|].
    apply reset_pass_ok; [apply Hinv|apply reset_start_ok]. }
  destruct (rr_disposition report).
  - destruct Hout as (Hre & Hem & _ & _ & Hnew). apply audited_owns. rewrite Hw.
    destruct Hor as [Ho'|(_ & _ & Hn)]; [|by rewrite Hn in Hre].
    apply DeviceState_new_inv in Hnew as (Hst' & _ & Hem' & _); [|done|apply Hinv|apply Hinv].
    eapply owns_graph; [|exact Ho']. intros k i. by rewrite !empty_graph.
  - destruct Hout as (Hh & _). split; [|by rewrite Hh]. rewrite Hw.
    destruct Hor as [Ho'|(Hq' & _)]; [by eapply owns_quiet|done].
Qed.

(** ** Every step of the processor *)

Lemma processor_step_audited self self' :
  processor_step self self' -> engine_inv self -> audited self -> audited self'.
Proof.
  intros [S BS BSS mem regions request bytes response response' a a' r Hsrc Hi Hp|namespace a Hns] Hinv Ha;
    [|by apply reset_audited].
  destruct (process_cases _ _ _ _ _ _ _ _ _ Hinv Hsrc Hi Hp)
    as (_ & _ & [(-> & _)|[(-> & _)|(req & Hdec & _ & [(_ & -> & _)|(Hrun & _ & Hd & _)])]]); try done.
  assert (Hu : request_typed (dr_body req)).
  { destruct (decode_frame_sound _ _ _ _ _ _ Hsrc Hdec) as (w & _ & (_ & Hok & _) & Hbody & _).
    destruct w as [| |op id| | | | | |]; cbn [body_of] in Hbody; try (by rewrite Hbody); [by destruct op; rewrite Hbody|..];
      rewrite Hbody; cbn [request_ok] in Hok; destruct_and?; simpl; try done; lia. }
  pose proof (dispatch_audited mem req response (set_last_reset None a) Hu (ei_state _ Hinv)) as Hda.
  rewrite Hd in Hda. apply Hda. apply (ad_owns _ Ha). by rewrite Hrun.
Qed.

End Client.
