(* ===== verification/FaultProps.v ===== *)
(** * The device under the ownership audit

    [FaultAccelerator] is an audited backend over every inner backend, so the
    command engine run over it, under any fault script, never earns an
    ownership violation. *)

From Stdlib Require Import ZArith Lia.
From stdpp Require Import prelude list relations.
From S2P Require Import Prelude Codec Proto Transport Core ObjectTable Regions Response Decoder DecoderSpec Frame State TableFacts ChildInv StateInv StateEvents StateFacts Engine EngineFacts ResetFacts ResetLive Settled EngineProps EngineDemo Mock MockProps Fault Ownership FaultFacts FaultSpec AuditedEngine.

Section Instance.
Context {A : Accelerator}.

#[global] Instance fault_names : HandleNames (fault_accelerator A) :=
  Build_HandleNames (fault_accelerator A) (@tracked_named (@Context A)) (@tracked_named (@Buffer A))
    (@tracked_named (@Program A)) (@tracked_named (@Queue A)) (@tracked_named (@Event A)).

(** What excuses the client: the harness panicked, or the first thing that
    went wrong was a rollback the inner backend did not perform. *)
Definition excused (w : FaultWorld A) : Prop := fw_panicked w = true \/ blamed (fw_state w).

Definition fault_owns (st : @AcceleratorState (fault_accelerator A)) (w : FaultWorld A) : Prop :=
  excused w \/ clean st (fw_state w).
Definition fault_quiet (w : FaultWorld A) : Prop := excused w \/ fs_violations (fw_state w) = [].

Lemma excused_grows w w' : grows w w' -> excused w -> excused w'.
Proof.
  intros [Hp [vs Hv]] [He|(h & k & e & vs' & He)]; [by left; auto|]. right. exists h, k, e, (vs' ++ vs). by rewrite Hv, He.
Qed.

Lemma run_fault_spec {T} st (m : FaultM T) (post : T -> FaultState -> Prop) lost w w' r :
  Grows m -> spec (clean st) m post -> fault_owns st w -> run_fault lost m w = (w', r) -> excused w' \/ post r (fw_state w').
Proof.
  intros Hg Hm Ho. unfold run_fault. pose proof (Hg w) as Hgw. destruct (m w) as [w1 [x|]] eqn:Hw; simpl in Hgw.
  - intros [= <- <-]. destruct Ho as [He|Hc]; [left; by eapply excused_grows|right; by eapply Hm].
  - intros [= <- <-]. by left; left.
Qed.

Lemma release_audited_spec {R} k (release : Tracked R -> FaultM (result unit (ReleaseFailure (Tracked R)))) :
  (forall x, Grows (release x)) ->
  (forall (st : @AcceleratorState (fault_accelerator A)) i x, holds st k i (tr_id x) -> unreferenced st k i ->
     spec (clean st) (release x) (released st k i (tr_id x))) ->
  @release_audited (fault_accelerator A) _ fault_owns fault_quiet _ tracked_named k (fun x => run_fault lost_release (release x)).
Proof.
  intros Hg Hspec st i x w w' r Ho Hh Hu Hr.
  destruct (run_fault_spec st _ _ _ _ _ _ (Hg x) (Hspec st i x Hh Hu) Ho Hr) as [He|[Hv Hpost]].
  - split; [by left|]. destruct r as [|[]]; [intros st' _; by left|intros st' _; by left|done].
  - split; [by right|]. destruct r as [|[e y|e]]; [intros st' Hg'; right; auto| |done].
    destruct Hpost as [Hn Hc]. intros st' Hs. right. by eapply clean_graph; [apply Hs|].
Qed.

(** A creation waits for its object. *)
Lemma waiting_owns st k h parent deps w' n oid st' :
  excused w' \/ waiting st k h parent deps (fw_state w') -> graph_insert st k oid n st' -> nd_handle n = Some h ->
  (forall p, parent = Some p -> exists ci, nd_context n = Some ci /\ holds st RkContext ci p) ->
  (forall d, d ∈ deps -> exists k' oi, (k', oi) ∈ nd_refs n /\ holds st k' oi d) -> fault_owns st' w'.
Proof.
  intros [He|[Hv Hpe]] Hg Hn Hp Hd; [by left|]. right. split; [done|]. by eapply pending_insert.
Qed.

Lemma failed_owns st w' : excused w' \/ clean st (fw_state w') \/ blamed (fw_state w') -> fault_owns st w'.
Proof. intros [?|[?|?]]; [by left|by right|left; by right]. Qed.

Lemma child_audited_spec {X R} k (key : X -> Z) (tracked : X -> Tracked R) (create : Tracked Context -> FaultM (result X BackendError)) :
  (forall c, Grows (create c)) -> (forall x, tr_id (tracked x) = key x) ->
  (forall (st : @AcceleratorState (fault_accelerator A)) i c, holds st RkContext i (tr_id c) ->
     spec (clean st) (create c) (fun r => created st k (Some (tr_id c)) (result_map tracked r))) ->
  @child_audited (fault_accelerator A) _ fault_owns _ _ k key (fun c => run_fault lost_call (create c)).
Proof.
  intros Hg Hkey Hspec st ctx c w w' r Ho Hh Hr.
  pose proof (run_fault_spec st _ _ _ _ _ _ (Hg c) (Hspec st ctx c Hh) Ho Hr) as Hpost. destruct r as [x|e]; simpl in Hpost.
  - intros oid st' Hgi. eapply waiting_owns; [exact Hpost|exact Hgi|simpl; by rewrite Hkey| |by intros d ?%elem_of_nil].
    intros p [= <-]. by exists ctx.
  - by apply failed_owns.
Qed.

Lemma run_sink_map {S T U} `{ByteSink S} (f : T -> U) (p : SinkProgram T) (s : S) :
  run_sink (sink_map f p) s = ((run_sink p s).1, f (run_sink p s).2).
Proof.
  revert s. induction p as [x|offset source k IH]; intros s; simpl; [done|].
  destruct (sink_write_at _ _ s) as [s' r]. apply IH.
Qed.

#[global] Instance fault_audited : @Audited (fault_accelerator A) _ fault_owns fault_quiet.
Proof.
  split.
  - intros st w [He|[Hv _]]; [by left|by right].
  - intros st st' w Hs [He|Hc]; [by left|right; by eapply clean_graph].
  - intros desc st w w' r Ho Hr.
    pose proof (run_fault_spec st _ _ _ _ _ _ _ (create_context_spec st desc) Ho Hr) as Hpost. destruct r as [x|e]; simpl in Hpost.
    + intros oid st' Hg. by eapply waiting_owns; [exact Hpost|exact Hg|done| |by intros d ?%elem_of_nil].
    + by apply failed_owns.
  - intros desc. apply (child_audited_spec RkBuffer (fun a => tr_id a.1) fst (fun c => fault_allocate_buffer c desc)); [apply _|done|].
    intros st i c Hh. by apply (create_child_spec st RkBuffer FpAllocateBuffer c i).
  - intros artifact. apply (child_audited_spec RkProgram tr_id id (fun c => fault_load_program c artifact)); [apply _|done|].
    intros st i c Hh. eapply spec_weaken; [by apply (load_program_spec st c i)|done|]. by intros [].
  - intros desc. apply (child_audited_spec RkQueue tr_id id (fun c => fault_create_queue c desc)); [apply _|done|].
    intros st i c Hh. eapply spec_weaken; [by apply (create_queue_spec st c i)|done|]. by intros [].
  - apply (release_audited_spec RkContext (fun x => release_resource FpDestroyContext RkContext x acc_destroy_context)); [apply _|].
    intros. by apply release_audit_spec.
  - apply (release_audited_spec RkBuffer (fun x => release_resource FpFreeBuffer RkBuffer x acc_free_buffer)); [apply _|].
    intros. by apply release_audit_spec.
  - apply (release_audited_spec RkProgram (fun x => release_resource FpUnloadProgram RkProgram x acc_unload_program)); [apply _|].
    intros. by apply release_audit_spec.
  - apply (release_audited_spec RkQueue (fun x => release_resource FpDestroyQueue RkQueue x acc_destroy_queue)); [apply _|].
    intros. by apply release_audit_spec.
  - apply (release_audited_spec RkEvent fault_destroy_event); [apply _|]. intros. by apply destroy_event_spec.
  - intros b offset data st i w w' b' r Ho Hh Hr st' Hs.
    destruct (run_fault_spec st _ _ _ _ _ _ _ (write_spec st b i offset data Hh) Ho Hr) as [He|[Hn Hc]]; [by left|].
    right. eapply clean_graph; [by apply Hs|done].
  - intros S HS b offset n st i w p p' w' r Ho Hh. cbn [acc_read_buffer fault_accelerator]. unfold fault_read_buffer.
    pose proof (enter_grows FpReadBuffer b RkBuffer w) as Hg. pose proof (enter_spec st FpReadBuffer b RkBuffer i Hh) as Hsp.
    destruct (enter FpReadBuffer b RkBuffer w) as [w1 entered] eqn:Hen. simpl in Hg.
    assert (Ho1 : excused w1 \/ entered = None \/ clean st (fw_state w1)).
    { destruct Ho as [He|Hc]; [left; by eapply excused_grows|]. right. destruct entered; [right; by eapply Hsp|by left]. }
    destruct entered as [[action|e]|].
    + rewrite run_sink_map, run_sink_map. simpl. intros [= _ <- _]. destruct Ho1 as [[?|?]|[?|?]]; [by left; left|by left; right|done|by right].
    + simpl. intros [= _ <- _]. destruct Ho1 as [?|[?|?]]; [by left|done|by right].
    + simpl. intros [= _ <- _]. by left; left.
  - intros q p bindings timeout st qi pi bs w w' r Ho Hq Hp Hb Hr.
    assert (Hb' : forall b, b ∈ bindings -> exists i, holds st RkBuffer i (tr_id (bref_buffer b)))
      by (intros b Hin; destruct (Hb b Hin) as (bi & _ & ?); eauto).
    pose proof (run_fault_spec st _ _ _ _ _ _ _ (submit_spec st q p bindings timeout qi pi Hq Hp Hb') Ho Hr) as Hpost.
    assert (Hins : forall (ev : Tracked Event), excused w' \/ waiting st RkEvent (tr_id ev) None (dependencies q p bindings) (fw_state w') ->
      forall oid st', graph_insert st RkEvent oid {| nd_handle := Some (tr_id ev); nd_context := None; nd_refs := event_refs qi pi bs |} st' ->
        fault_owns st' w').
    { intros ev Hw oid st' Hg. eapply waiting_owns; [exact Hw|exact Hg|done|done|].
      intros d [->|[->|(b & -> & Hin)%list_elem_of_fmap]%elem_of_cons]%elem_of_cons; simpl.
      - exists RkQueue, qi. split; [by left|done].
      - exists RkProgram, pi. split; [by right; left|done].
      - destruct (Hb b Hin) as (bi & Hbi & Hh). exists RkBuffer, bi. split; [|done]. right. right. by apply list_elem_of_fmap_2. }
    destruct r as [ev|[e|e ev]]; simpl in Hpost; [by apply Hins| |by apply Hins]. destruct Hpost; [by left|by right].
  - intros e st i w w' r Ho Hh Hr. destruct (run_fault_spec st _ _ _ _ _ _ _ (poll_spec st e i Hh) Ho Hr); [by left|by right].
  - intros e st i w w' r Ho Hh Hr. destruct (run_fault_spec st _ _ _ _ _ _ _ (cancel_spec st e i Hh) Ho Hr); [by left|by right].
Qed.

(** ** The device over the wrapper *)

Context `{!BackendTyped A}.

#[global] Instance fault_typed : BackendTyped (fault_accelerator A).
Proof.
  assert (Hrun : forall {T} (good : T -> Prop) (m : FaultM (result T BackendError)) w w' x,
    spec (fun _ => True) m (fun r _ => match r with Ok x => good x | Err _ => True end) ->
    run_fault lost_call m w = (w', Ok x) -> good x).
  { intros T good m w w' x Hm. unfold run_fault. destruct (m w) as [w1 [r|]] eqn:Hw; [|done]. intros [= _ ->].
    by apply (Hm w w1 (Ok x)). }
  split.
  - intros w w' info. apply Hrun. unfold fault_device_info. eapply spec_bind; [apply spec_any|]. intros action.
    destruct (before_error action); [by apply spec_ret|].
    apply spec_bind with (mid := fun r _ => match r with Ok info => info_typed info | Err _ => True end).
    + apply spec_inner_value. intros v v' [info'|] s _ Hv; [by eapply info_reported|done].
    + intros r. apply spec_ret. intros s Hr. unfold replace_success. destruct r, (after_error action); done.
  - intros c desc w w' b info Hu. apply (Hrun _ (fun bi => is_u64 (bi_allocation_bytes bi.2))).
    unfold fault_allocate_buffer, create_child. eapply spec_bind; [apply spec_any|]. intros [action|]; [|by apply spec_ret].
    apply spec_bind with (mid := fun r _ => match r with Ok bi => is_u64 (bi_allocation_bytes bi.2) | Err _ => True end).
    + apply spec_inner_value. intros v v' [[b' info']|] s _ Hv; [by eapply allocation_typed|done].
    + intros [[b' info']|]; [|by apply spec_ret].
      apply spec_bind with (mid := fun _ _ => is_u64 (bi_allocation_bytes info')); [by intros w1 w2 x Hx _|]. intros h.
      destruct (after_error action); [eapply spec_bind; [apply spec_any|]; intros; by apply spec_ret|by apply spec_ret].
Qed.

(** A device over the wrapper in any use: commands, resets, and the inner
    backend working on between two calls. *)
Inductive fault_step : @CommandProcessor (fault_accelerator A) -> @CommandProcessor (fault_accelerator A) -> Prop :=
  | fault_device self self' : processor_step self self' -> fault_step self self'
  | fault_backend v self : fault_step self (set_world (A := fault_accelerator A) (fw_set_inner v (cp_accelerator self)) self).

Definition fault_reachable (self : @CommandProcessor (fault_accelerator A)) : Prop :=
  exists inner script config namespace policy w self0,
    is_u16 namespace /\ 0 < rp_max_program_resident_bytes policy /\
    @CommandProcessor_new (fault_accelerator A) (FaultAccelerator_new inner script) config namespace policy = (w, Ok self0) /\
    rtc fault_step self0 self.

Lemma new_coupled (st : @AcceleratorState (fault_accelerator A)) script :
  (forall k i, node st k i = None) -> clean st (FaultState_new script).
Proof.
  intros Hn. assert (Hh : forall k i h, ~ holds st k i h) by (intros k i h (n & Hk & _); by rewrite Hn in Hk).
  split; [done|]. split; simpl.
  - split; simpl; [constructor|by intros r ?%elem_of_nil|by intros c p ?%elem_of_nil|by intros e ds ?%elem_of_nil].
  - intros k i h Hk. by destruct (Hh k i h).
  - intros k i k' i' h Hk. by destruct (Hh k i h).
  - done.
  - by intros c p ?%elem_of_nil.
  - by intros e ds ?%elem_of_nil.
Qed.

Lemma fault_reachable_audited self :
  fault_reachable self -> engine_inv self /\ audited fault_owns fault_quiet self.
Proof.
  intros (inner & script & config & ns & policy & w & self0 & Hns & Hpol & Hnew & Hsteps).
  pose proof (CommandProcessor_new_inv _ _ _ _ _ _ Hns Hpol Hnew) as [Hinv _].
  assert (H0 : engine_inv self0 /\ audited fault_owns fault_quiet self0).
  { split; [done|]. pose proof (CommandProcessor_new_state _ _ _ _ _ _ Hnew) as [Hst _].
    apply (audited_owns fault_owns fault_quiet).
    apply DeviceState_new_inv in Hst as (Hsi & _ & He & _); [|done|apply Hinv|done].
    pose proof (new_coupled _ script (empty_graph _ Hsi He)) as Hcl. unfold CommandProcessor_new in Hnew.
    destruct (WireConfig_validate config); [|done]. cbn [map_err] in Hnew.
    destruct (@acc_device_info (fault_accelerator A) (FaultAccelerator_new inner script)) as [w1 r1] eqn:Hi.
    assert (Ho : fault_owns (cp_state self0) w1).
    { destruct (run_fault_spec (cp_state self0) _ (fun _ => clean (cp_state self0)) _ _ _ _ device_info_grows
        ltac:(unfold fault_device_info; eapply spec_bind; [apply begin_call_spec|]; intros action;
              destruct (before_error action); [by apply spec_ret|];
              apply spec_bind with (mid := fun _ => clean (cp_state self0)); [by apply spec_inner|intros; by apply spec_ret])
        (or_intror Hcl : fault_owns (cp_state self0) (FaultAccelerator_new inner script)) Hi); [by left|by right]. }
    destruct r1 as [info|]; [|done]. cbn [map_err] in Hnew. destruct (DeviceInfo_validate info); [|done].
    cbn [map_err] in Hnew. destruct (DecoderLimits_new config info); [|done]. cbn [map_err] in Hnew.
    destruct (DeviceState_new _ _ _); [|done]. cbn [map_err] in Hnew.
    injection Hnew as _ Hself. rewrite <- Hself at 2. exact Ho. }
  clear Hnew Hinv. induction Hsteps as [|x y z Hxy _ IH]; [done|]. destruct H0 as [Hinv Ha].
  apply IH. destruct Hxy as [x y Hxy|v x].
  - split; [by eapply processor_step_inv|exact (processor_step_audited fault_owns fault_quiet x y Hxy Hinv Ha)].
  - split; [destruct Hinv; by split|]. destruct Ha as [Hq Ho]. split; [done|]. intros Hh. exact (Ho Hh).
Qed.

(** C4: a device over any backend never misuses it.  Whatever the guest sends,
    whatever the fault script makes calls answer and however often the device
    is reset, the audit records no violation: every handle passed is known,
    live and of the right kind, and none is released while something depends
    on it.  The first violation there can be is the wrapper's own, a rollback
    the inner backend did not perform. *)
Theorem engine_never_violates self :
  fault_reachable self -> fw_panicked (cp_accelerator self) = false ->
  match fs_violations (fw_state (cp_accelerator self)) with
  | [] => True
  | OvRollbackFailed _ _ _ :: _ => True
  | _ => False
  end.
Proof.
  intros [_ [Hq _]]%fault_reachable_audited Hp. destruct Hq as [[He|(h & k & e & vs & Hv)]|Hv]; [congruence|by rewrite Hv..].
Qed.

(** C5: nothing leaks.  As long as the device need not be discarded and the
    audit is clean, a resource the audit still counts is live and is the
    handle of exactly one object of the device, of the same kind. *)
Theorem live_resources_owned self r :
  fault_reachable self -> cp_health self <> BackendDiscardRequired ->
  fw_panicked (cp_accelerator self) = false -> fs_violations (fw_state (cp_accelerator self)) = [] ->
  r ∈ fs_resources (fw_state (cp_accelerator self)) -> retained (rr_state r) = true ->
  rr_state r = RsLive /\ exists id, holds (cp_state self) (rr_kind r) id (rr_id r) /\
    forall k id', holds (cp_state self) k id' (rr_id r) -> k = rr_kind r /\ id' = id.
Proof.
  intros [_ [_ Ho]]%fault_reachable_audited Hh Hp Hv Hin Hr.
  destruct (Ho Hh) as [[He|(h & k & e & vs & He)]|[_ Hc]]; [congruence|congruence|].
  pose proof (elem_audit _ _ (co_wf _ _ _ Hc) Hin) as Ha.
  destruct (co_held _ _ _ Hc _ _ _ Ha Hr) as [Hl [id Hid]]; [done|]. split; [done|]. exists id. split; [done|].
  intros k id' Hid'. exact (co_inj _ _ _ Hc _ _ _ _ _ Hid' Hid).
Qed.

(** C6: after a reset that reports the backend reusable, of a device that need
    not be discarded and whose wrapper has not panicked, either no violation is
    recorded, no resource is live or indeterminate and the audit is clean but
    for faults still to be injected, or the wrapper itself failed a rollback
    first, which stays recorded as the first violation and keeps the audit
    unclean; no other violation can come first. *)
Theorem reset_reclaims_resources namespace self self' report :
  fault_reachable self -> is_u16 namespace -> reset namespace self = (self', Ok report) ->
  rr_disposition report = ResetBackendReusable -> cp_health self <> BackendDiscardRequired ->
  fw_panicked (cp_accelerator self') = false ->
  let audit := snapshot (fw_state (cp_accelerator self')) in
  match sn_violations audit with
  | [] =>
      resources_in audit RsLive = ResourceTally_default /\
      resources_in audit RsIndeterminate = ResourceTally_default /\
      is_clean audit = bool_decide (sn_pending_faults audit = [])
  | OvRollbackFailed _ _ _ :: _ => is_clean audit = false
  | _ => False
  end.
Proof.
  intros [Hinv Ha]%fault_reachable_audited Hns Hr Hd Hh Hp audit.
  assert (Hne : namespace <> ds_namespace (cp_state self)).
  { intros ->. unfold reset in Hr. by rewrite bool_decide_false, Z.eqb_refl in Hr. }
  destruct (reset_cases _ _ _ _ Hinv Hns Hh Hne Hr) as (report' & [= <-] & _ & _ & _ & _ & _ & _ & _ & _ & _ & _ & Hout).
  rewrite Hd in Hout. destruct Hout as (_ & _ & Hrun & _ & Hnew).
  apply DeviceState_new_inv in Hnew as (Hst & _ & Hem & _); [|done|apply Hinv|apply Hinv].
  pose proof (reset_audited fault_owns fault_quiet namespace self Hinv Hns Ha) as [_ Ho]. rewrite Hr in Ho. simpl in Ho.
  destruct Ho as [[?|(h & k & e & vs & Hv)]|[Hv Hc]]; [by rewrite Hrun|congruence| |].
  { unfold audit, is_clean. cbn [snapshot sn_violations]. rewrite Hv. by destruct (bool_decide (_ = [])). }
  assert (Hnone : forall state, retained state = true -> resources_in audit state = ResourceTally_default).
  { intros state Hret. unfold resources_in. destruct (filter _ _) as [|r l] eqn:Hf; [done|].
    assert (Hin : r ∈ r :: l) by (by left). rewrite <- Hf in Hin. apply list_elem_of_filter in Hin as [<- Hin].
    pose proof (elem_audit _ _ (co_wf _ _ _ Hc) Hin) as Hau.
    destruct (co_held _ _ _ Hc _ _ _ Hau Hret) as [_ (i & n & Hn & _)]; [done|].
    discriminate (eq_trans (eq_sym (empty_graph _ Hst Hem (rr_kind r) i)) Hn). }
  change (sn_violations audit) with (fs_violations (fw_state (cp_accelerator self'))). rewrite Hv.
  unfold is_clean. rewrite !Hnone by done. change (sn_violations audit) with (fs_violations (fw_state (cp_accelerator self'))).
  rewrite Hv. split_and!; [done..|]. rewrite (bool_decide_true ([] = [])) by done.
  by rewrite (bool_decide_true (ResourceTally_default = _)), !andb_true_r by done.
Qed.

End Instance.

(** ** Fault scripts *)

(** The step is in order after the steps before it. *)
Definition step_ok (before : list FaultStep) (step : FaultStep) : Prop :=
  fst_occurrence step <> 0 /\ FaultPoint_allows (fst_point step) (fst_action step) = true /\
  forall other, other ∈ before -> fst_point other = fst_point step -> fst_occurrence other <> fst_occurrence step.

Definition step_error (before : list FaultStep) (step : FaultStep) (error : FaultScriptError) : Prop :=
  match error with
  | ScriptZeroOccurrence point => point = fst_point step /\ fst_occurrence step = 0
  | ScriptIncompatibleAction point action => point = fst_point step /\ action = fst_action step /\
      FaultPoint_allows point action = false
  | ScriptDuplicateStep point occurrence => point = fst_point step /\ occurrence = fst_occurrence step /\
      exists other, other ∈ before /\ fst_point other = point /\ fst_occurrence other = occurrence
  end.

Lemma existsb_same_step point occurrence steps :
  existsb (same_step point occurrence) steps = true <->
  exists other, other ∈ steps /\ fst_point other = point /\ fst_occurrence other = occurrence.
Proof.
  rewrite existsb_exists. split.
  - intros (other & Hin%list_elem_of_In & Hs). unfold same_step in Hs. apply andb_true_iff in Hs as [Hp%bool_decide_eq_true Ho%Z.eqb_eq]. eauto.
  - intros (other & Hin & <- & <-). exists other. split; [by apply list_elem_of_In|]. unfold same_step.
    by rewrite bool_decide_true, Z.eqb_refl.
Qed.

Lemma validate_steps_exact validated steps :
  match validate_steps validated steps with
  | Ok script => script = validated ++ steps /\
      forall before step after, steps = before ++ step :: after -> step_ok (validated ++ before) step
  | Err error => exists before step after, steps = before ++ step :: after /\ step_error (validated ++ before) step error /\
      forall earlier other later, before = earlier ++ other :: later -> step_ok (validated ++ earlier) other
  end.
Proof.
  revert validated. induction steps as [|step steps IH]; intros validated; simpl.
  { rewrite app_nil_r. split; [done|]. by intros [|? ?] ? ?. }
  destruct (Z.eqb_spec (fst_occurrence step) 0) as [Hz|Hz].
  { exists [], step, steps. rewrite app_nil_r. split_and!; try done. by intros [|? ?] ? ?. }
  destruct (FaultPoint_allows (fst_point step) (fst_action step)) eqn:Hall; cbn [negb].
  2: { exists [], step, steps. rewrite app_nil_r. split_and!; try done. by intros [|? ?] ? ?. }
  destruct (existsb _ validated) eqn:Hdup.
  { apply existsb_same_step in Hdup. exists [], step, steps. rewrite app_nil_r. split_and!; try done. by intros [|? ?] ? ?. }
  assert (Hok : step_ok validated step).
  { split_and!; try done. intros other Hin Hp Ho. assert (Ht : existsb (same_step (fst_point step) (fst_occurrence step)) validated = true)
      by (apply existsb_same_step; eauto). congruence. }
  specialize (IH (validated ++ [step])). destruct (validate_steps (validated ++ [step]) steps) as [script|error].
  - destruct IH as [-> IH]. rewrite <- app_assoc. split; [done|]. intros [|x before] y after; simpl; intros [= <- Hs].
    + by rewrite app_nil_r.
    + specialize (IH before y after Hs). by rewrite <- app_assoc in IH.
  - destruct IH as (before & y & after & -> & Herr & IH). exists (step :: before), y, after. rewrite <- app_assoc in Herr.
    split_and!; [done|done|]. intros [|x earlier] other later; simpl; intros [= <- Hs].
    + by rewrite app_nil_r.
    + specialize (IH earlier other later Hs). by rewrite <- app_assoc in IH.
Qed.

(** A script is accepted exactly when every step has a positive
    occurrence, an action its method can take and a call no earlier step
    names; the steps are kept as given.  Otherwise the error names the first
    step at fault. *)
Theorem fault_script_exact steps :
  match FaultScript_new steps with
  | Ok script => script = steps /\ forall before step after, steps = before ++ step :: after -> step_ok before step
  | Err error => exists before step after, steps = before ++ step :: after /\ step_error before step error /\
      forall earlier other later, before = earlier ++ other :: later -> step_ok earlier other
  end.
Proof. exact (validate_steps_exact [] steps). Qed.

(** ** The properties at work *)

Module FaultDemo.

#[local] Instance mock : Accelerator := mock_accelerator MockDemo.env.
Abbreviation faulty := (fault_accelerator mock).

(** The second creation of a context fails after the backend created it, and
    the first destruction is rejected. *)
Definition script : list FaultStep := [
  {| fst_point := FpCreateContext; fst_occurrence := 2; fst_action := ActErrorAfter BeOutOfMemory |};
  {| fst_point := FpDestroyContext; fst_occurrence := 1; fst_action := ActRejected BeBusy |} ].

Definition w0 : FaultWorld mock := FaultAccelerator_new (A := mock) MockAccelerator_default script.
Definition boot := CommandProcessor_new (A := faulty) w0 EngineDemo.config 1 StateFacts.Demo.policy.

Definition p0 : CommandProcessor (A := faulty) :=
  match boot.2 with
  | Ok self => self
  | Err _ => @Build_CommandProcessor faulty
      {| ds_namespace := 1; ds_limits := info_limits mock_info; ds_policy := StateFacts.Demo.policy;
         ds_retained := RetainedBytes_default;
         ds_contexts := ObjectTable_with_namespace KindContext 64 1;
         ds_buffers := ObjectTable_with_namespace KindBuffer 65536 1;
         ds_programs := ObjectTable_with_namespace KindProgram 16384 1;
         ds_queues := ObjectTable_with_namespace KindQueue 1024 1;
         ds_events := ObjectTable_with_namespace KindEvent 262144 1 |}
      w0 mock_info StateFacts.Demo.policy {| fd_limits := DecoderSpec.example_limits |} NeedsReset ResourceCounts_default
      RetainedBytes_default None
  end.

Definition exec (w : WireRequest) (self : CommandProcessor (A := faulty)) : CommandProcessor (A := faulty) :=
  (process EngineDemo.mem [ChainRegion_readable (zlen (frame_of 5 w)); ChainRegion_writable 128] (slice_source (frame_of 5 w))
    (replicate 128 0) self).1.1.

Definition first_context (self : CommandProcessor (A := faulty)) : ObjectId :=
  match next_context_id 0 (cp_state self) with Some (_, id) => id | None => 0 end.

(** Two creations, the second rolled back, and a rejected destruction. *)
Definition p1 := exec WqCreateContext p0.
Definition p2 := exec WqCreateContext p1.
Definition first : ObjectId := Eval vm_compute in first_context p1.
Definition p3 := exec (WqObject OpDestroyContext first) p2.

Definition audit_of (self : CommandProcessor (A := faulty)) := snapshot (fw_state (cp_accelerator self)).

Lemma p3_audit :
  sn_violations (audit_of p3) = [] /\ sn_pending_faults (audit_of p3) = [] /\
  map rr_state (sn_resources (audit_of p3)) = [RsLive; RsReleased] /\
  map rl_outcome (sn_releases (audit_of p3)) = [RoSuccess; RoRejected BeBusy].
Proof. split_and!; vm_compute; reflexivity. Qed.

Lemma fault_exec_step w self :
  is_bytes (frame_of 5 w) -> zlen (frame_of 5 w) <= U64_MAX -> fault_step (A := mock) self (exec w self).
Proof.
  intros Hb Hl. unfold exec. destruct (process _ _ _ _ _) as [[self' s] r] eqn:Hr. apply fault_device.
  eapply (step_process EngineDemo.mem _ (slice_source (frame_of 5 w)) (frame_of 5 w) (replicate 128 0) s self self' r);
    [by apply slice_source_of|done|exact Hr].
Qed.

Lemma fault_booted : boot = (boot.1, Ok p0).
Proof. reflexivity. Qed.

Lemma p3_reachable : fault_reachable (A := mock) p3.
Proof.
  exists MockAccelerator_default, script, EngineDemo.config, 1, StateFacts.Demo.policy, boot.1, p0.
  split; [lia|]. split; [done|]. split; [apply fault_booted|].
  eapply rtc_l; [apply (fault_exec_step WqCreateContext); [apply EngineDemo.bytes_check|]; by vm_compute|].
  eapply rtc_l; [apply (fault_exec_step WqCreateContext); [apply EngineDemo.bytes_check|]; by vm_compute|].
  apply rtc_once, (fault_exec_step (WqObject OpDestroyContext first)); [apply EngineDemo.bytes_check|]; by vm_compute.
Qed.

Lemma engine_never_violates_witness :
  match fs_violations (fw_state (cp_accelerator p3)) with [] => True | OvRollbackFailed _ _ _ :: _ => True | _ => False end.
Proof. exact (engine_never_violates (A := mock) p3 p3_reachable ltac:(vm_compute; reflexivity)). Defined.

Definition live_context : AuditedResource := {| rr_id := 1; rr_kind := RkContext; rr_state := RsLive |}.

Lemma live_listed : live_context ∈ fs_resources (fw_state (cp_accelerator p3)).
Proof. apply list_elem_of_In. vm_compute. by left. Qed.

Lemma p3_running : cp_health p3 <> BackendDiscardRequired.
Proof. by vm_compute. Qed.

Lemma live_resources_owned_witness :
  exists id, holds (cp_state p3) RkContext id 1 /\ forall k id', holds (cp_state p3) k id' 1 -> k = RkContext /\ id' = id.
Proof.
  exact (proj2 (live_resources_owned (A := mock) p3 live_context p3_reachable p3_running
    ltac:(vm_compute; reflexivity) ltac:(vm_compute; reflexivity) live_listed eq_refl)).
Defined.

(** The reset releases the context that is left. *)
Definition report_of (r : result ResetReport ResetError) : ResetReport :=
  match r with
  | Ok report => report
  | Err _ => discard_report ResourceCounts_default RetainedBytes_default p3
  end.

Lemma answered {X} (x : X * result ResetReport ResetError) : is_ok x.2 = true -> x = (x.1, Ok (report_of x.2)).
Proof. by destruct x as [? []]. Qed.

Lemma fault_reset_ran : reset 2 p3 = ((reset 2 p3).1, Ok (report_of (reset 2 p3).2)).
Proof. exact (answered (reset 2 p3) ltac:(vm_compute; reflexivity)). Qed.

Lemma reset_reclaims_resources_witness :
  let audit := snapshot (fw_state (cp_accelerator (reset 2 p3).1)) in
  resources_in audit RsLive = ResourceTally_default /\ is_clean audit = bool_decide (sn_pending_faults audit = []).
Proof.
  pose proof (reset_reclaims_resources (A := mock) 2 p3 (reset 2 p3).1 (report_of (reset 2 p3).2) p3_reachable ltac:(lia)
    fault_reset_ran ltac:(vm_compute; reflexivity) p3_running ltac:(vm_compute; reflexivity)) as H.
  assert (Hv : sn_violations (snapshot (fw_state (cp_accelerator (reset 2 p3).1))) = []) by (vm_compute; reflexivity).
  cbv zeta in H |- *. rewrite Hv in H. split; apply H.
Defined.

End FaultDemo.
