(* ===== verification/TosaTypes.v ===== *)
(** * TOSA vocabulary

    crates/virtio-accel-tosa/src/types.rs: versions, the raw data-type, operator
    and attribute discriminants and the serialized arity of every operator.
    The discriminants stay raw integers, as in the source, so that values
    newer than TOSA 1.0 remain representable. *)

From Stdlib Require Import ZArith Lia.
From stdpp Require Import prelude list.
From S2P Require Import Prelude.

Record Version := { major : Z; minor : Z; patch : Z }.

#[global] Instance Version_eq_dec : EqDecision Version.
Proof. solve_decision. Defined.

Definition TOSA_1_0 : Version := {| major := 1; minor := 0; patch := 0 |}.

(** [DType(u32)], on the raw discriminant. *)
Module DType.
Definition BOOL : Z := 1.
Definition INT4 : Z := 2.
Definition INT8 : Z := 3.
Definition INT16 : Z := 4.
Definition INT32 : Z := 5.
Definition INT48 : Z := 6.
Definition FP32 : Z := 7.
Definition FP16 : Z := 8.
Definition BF16 : Z := 9.
Definition SHAPE : Z := 10.
Definition FP8E4M3 : Z := 11.
Definition FP8E5M2 : Z := 12.

Definition is_tosa_1_0 (d : Z) : bool := (BOOL <=? d) && (d <=? FP8E5M2).
End DType.

(** [Op(u32)]: the constants of the [op_constants!] table. *)
Module Op.
Definition ARGMAX : Z := 1.
Definition AVG_POOL2D : Z := 2.
Definition CONV2D : Z := 3.
Definition CONV3D : Z := 4.
Definition DEPTHWISE_CONV2D : Z := 5.
Definition FFT2D : Z := 6.
Definition MATMUL : Z := 7.
Definition MAX_POOL2D : Z := 8.
Definition RFFT2D : Z := 9.
Definition TRANSPOSE_CONV2D : Z := 10.
Definition CLAMP : Z := 11.
Definition ERF : Z := 12.
Definition SIGMOID : Z := 13.
Definition TANH : Z := 14.
Definition ADD : Z := 15.
Definition ARITHMETIC_RIGHT_SHIFT : Z := 16.
Definition BITWISE_AND : Z := 17.
Definition BITWISE_OR : Z := 18.
Definition BITWISE_XOR : Z := 19.
Definition INTDIV : Z := 20.
Definition LOGICAL_AND : Z := 21.
Definition LOGICAL_LEFT_SHIFT : Z := 22.
Definition LOGICAL_RIGHT_SHIFT : Z := 23.
Definition LOGICAL_OR : Z := 24.
Definition LOGICAL_XOR : Z := 25.
Definition MAXIMUM : Z := 26.
Definition MINIMUM : Z := 27.
Definition MUL : Z := 28.
Definition POW : Z := 29.
Definition SUB : Z := 30.
Definition TABLE : Z := 31.
Definition ABS : Z := 32.
Definition BITWISE_NOT : Z := 33.
Definition CEIL : Z := 34.
Definition CLZ : Z := 35.
Definition COS : Z := 36.
Definition EXP : Z := 37.
Definition FLOOR : Z := 38.
Definition LOG : Z := 39.
Definition LOGICAL_NOT : Z := 40.
Definition NEGATE : Z := 41.
Definition RECIPROCAL : Z := 42.
Definition RSQRT : Z := 43.
Definition SIN : Z := 44.
Definition SELECT : Z := 45.
Definition EQUAL : Z := 46.
Definition GREATER : Z := 47.
Definition GREATER_EQUAL : Z := 48.
Definition REDUCE_ALL : Z := 49.
Definition REDUCE_ANY : Z := 50.
Definition REDUCE_MAX : Z := 51.
Definition REDUCE_MIN : Z := 52.
Definition REDUCE_PRODUCT : Z := 53.
Definition REDUCE_SUM : Z := 54.
Definition CONCAT : Z := 55.
Definition PAD : Z := 56.
Definition RESHAPE : Z := 57.
Definition REVERSE : Z := 58.
Definition SLICE : Z := 59.
Definition TILE : Z := 60.
Definition TRANSPOSE : Z := 61.
Definition GATHER : Z := 62.
Definition SCATTER : Z := 63.
Definition RESIZE : Z := 64.
Definition CAST : Z := 65.
Definition RESCALE : Z := 66.
Definition CONST : Z := 67.
Definition IDENTITY : Z := 68.
Definition CUSTOM : Z := 69.
Definition COND_IF : Z := 70.
Definition WHILE_LOOP : Z := 71.
Definition VARIABLE : Z := 72.
Definition VARIABLE_WRITE : Z := 73.
Definition VARIABLE_READ : Z := 74.
Definition CONST_SHAPE : Z := 75.

(** Every operator of TOSA 1.0 in wire order. *)
Definition ALL : list Z :=
  [ARGMAX; AVG_POOL2D; CONV2D; CONV3D; DEPTHWISE_CONV2D; FFT2D;
   MATMUL; MAX_POOL2D; RFFT2D; TRANSPOSE_CONV2D; CLAMP; ERF;
   SIGMOID; TANH; ADD; ARITHMETIC_RIGHT_SHIFT; BITWISE_AND; BITWISE_OR;
   BITWISE_XOR; INTDIV; LOGICAL_AND; LOGICAL_LEFT_SHIFT; LOGICAL_RIGHT_SHIFT; LOGICAL_OR;
   LOGICAL_XOR; MAXIMUM; MINIMUM; MUL; POW; SUB;
   TABLE; ABS; BITWISE_NOT; CEIL; CLZ; COS;
   EXP; FLOOR; LOG; LOGICAL_NOT; NEGATE; RECIPROCAL;
   RSQRT; SIN; SELECT; EQUAL; GREATER; GREATER_EQUAL;
   REDUCE_ALL; REDUCE_ANY; REDUCE_MAX; REDUCE_MIN; REDUCE_PRODUCT; REDUCE_SUM;
   CONCAT; PAD; RESHAPE; REVERSE; SLICE; TILE;
   TRANSPOSE; GATHER; SCATTER; RESIZE; CAST; RESCALE;
   CONST; IDENTITY; CUSTOM; COND_IF; WHILE_LOOP; VARIABLE;
   VARIABLE_WRITE; VARIABLE_READ; CONST_SHAPE].

Definition is_tosa_1_0 (op : Z) : bool := (ARGMAX <=? op) && (op <=? CONST_SHAPE).
End Op.

(** Operand counts; [None] as a maximum is unbounded. *)
Record Arity := {
  min_inputs : Z;
  max_inputs : option Z;
  min_outputs : Z;
  max_outputs : option Z;
  matching_input_output_counts : bool;
}.

Definition Arity_exact (inputs outputs : Z) : Arity :=
  {| min_inputs := inputs; max_inputs := Some inputs; min_outputs := outputs;
     max_outputs := Some outputs; matching_input_output_counts := false |}.

Definition within_maximum (n : Z) (max : option Z) : bool :=
  match max with Some maximum => n <=? maximum | None => true end.

Definition Arity_accepts (a : Arity) (inputs outputs : Z) : bool :=
  (min_inputs a <=? inputs) && within_maximum inputs (max_inputs a) &&
  (min_outputs a <=? outputs) && within_maximum outputs (max_outputs a) &&
  (negb (matching_input_output_counts a) || (inputs =? outputs)).

(** [Op::arity]: the fixed counts first, then the open-ended operators. *)
Definition exact_arity (op : Z) : option (Z * Z) :=
  if op =? 1 then Some (1, 1)
  else if op =? 2 then Some (3, 1)
  else if in_range 3 5 op then Some (5, 1)
  else if op =? 6 then Some (2, 2)
  else if op =? 7 then Some (4, 1)
  else if op =? 8 then Some (1, 1)
  else if op =? 9 then Some (1, 2)
  else if op =? 10 then Some (5, 1)
  else if in_range 11 14 op then Some (1, 1)
  else if in_range 15 27 op then Some (2, 1)
  else if op =? 28 then Some (3, 1)
  else if in_range 29 31 op then Some (2, 1)
  else if in_range 32 40 op then Some (1, 1)
  else if op =? 41 then Some (3, 1)
  else if in_range 42 44 op then Some (1, 1)
  else if op =? 45 then Some (3, 1)
  else if in_range 46 48 op then Some (2, 1)
  else if in_range 49 54 op then Some (1, 1)
  else if op =? 56 then Some (3, 1)
  else if op =? 57 then Some (2, 1)
  else if op =? 58 then Some (1, 1)
  else if op =? 59 then Some (3, 1)
  else if op =? 60 then Some (2, 1)
  else if op =? 61 then Some (1, 1)
  else if op =? 62 then Some (2, 1)
  else if op =? 63 then Some (3, 1)
  else if op =? 64 then Some (4, 1)
  else if op =? 65 then Some (1, 1)
  else if op =? 66 then Some (5, 1)
  else if op =? 67 then Some (0, 1)
  else if op =? 68 then Some (1, 1)
  else if op =? 72 then Some (0, 0)
  else if op =? 73 then Some (1, 0)
  else if op =? 74 then Some (0, 1)
  else if op =? 75 then Some (0, 1)
  else None.

Definition open_arity (inputs outputs : Z) (max_outputs : option Z) (matching : bool) : Arity :=
  {| min_inputs := inputs; max_inputs := None; min_outputs := outputs;
     max_outputs := max_outputs; matching_input_output_counts := matching |}.

Definition arity (op : Z) : option Arity :=
  match exact_arity op with
  | Some (inputs, outputs) => Some (Arity_exact inputs outputs)
  | None =>
      if op =? 55 then Some (open_arity 1 1 (Some 1) false)
      else if op =? 69 then Some (open_arity 0 0 None false)
      else if op =? 70 then Some (open_arity 1 0 None false)
      else if op =? 71 then Some (open_arity 0 0 None true)
      else None
  end.

(** ** Lemmas *)

(** The integers of a closed interval, to decide a statement over all codes of
    a small field by evaluation. *)
Definition range (lo hi : Z) : list Z :=
  (fun n => lo + Z.of_nat n) <$> seq 0 (Z.to_nat (hi - lo + 1)).

Lemma elem_of_range lo hi x : lo <= x <= hi -> x ∈ range lo hi.
Proof.
  intros. unfold range. apply list_elem_of_fmap. exists (Z.to_nat (x - lo)).
  split; [lia|]. apply elem_of_seq. lia.
Qed.

Lemma forall_range (P : Z -> Prop) `{!forall x, Decision (P x)} lo hi :
  forallb (fun x => bool_decide (P x)) (range lo hi) = true -> forall x, lo <= x <= hi -> P x.
Proof.
  intros Hall x Hx. rewrite forallb_forall in Hall.
  eapply bool_decide_eq_true_1, Hall, list_elem_of_In, elem_of_range, Hx.
Qed.

(** [Op::ALL] lists exactly the operators [is_tosa_1_0] accepts. *)
Lemma ALL_complete op : Op.is_tosa_1_0 op = true <-> op ∈ Op.ALL.
Proof.
  split.
  - intros H. unfold Op.is_tosa_1_0 in H. bool_to_prop.
    apply (forall_range (fun op => op ∈ Op.ALL) 1 75);
      [vm_compute; reflexivity | unfold Op.ARGMAX, Op.CONST_SHAPE in *; lia].
  - intros H. revert op H. apply Forall_forall. repeat constructor.
Qed.

(** [arity] is defined exactly on the operators of TOSA 1.0. *)
Lemma arity_defined op : is_Some (arity op) <-> Op.is_tosa_1_0 op = true.
Proof.
  split.
  - intros [a H]. unfold Op.is_tosa_1_0, Op.ARGMAX, Op.CONST_SHAPE.
    destruct (Z.leb_spec 1 op); cycle 1.
    { exfalso. unfold arity, exact_arity, in_range in H. revert H. by zcmp. }
    destruct (Z.leb_spec op 75); [done|].
    exfalso. unfold arity, exact_arity, in_range in H. revert H. by zcmp.
  - intros H. unfold Op.is_tosa_1_0 in H. bool_to_prop.
    apply (forall_range (fun op => is_Some (arity op)) 1 75);
      [vm_compute; reflexivity | unfold Op.ARGMAX, Op.CONST_SHAPE in *; lia].
Qed.
