(* ===== verification/TosaNumeric.v ===== *)
(** * TOSA integer arithmetic

    crates/virtio-accel-tosa/src/integer.rs: the fixed-point primitives that
    conformance and provider legalization share.  Signed machine integers are
    [Z]; every [checked_*] call, [try_from] and [as] cast of the source is
    written out with its width. *)

From Stdlib Require Import ZArith Lia SpecFloat.
From stdpp Require Import prelude list.
From S2P Require Import Prelude TosaTypes.

(** ** Signed machine integers *)

Abbreviation I8_MIN := (-128).
Abbreviation I8_MAX := 127.
Abbreviation I16_MIN := (-32768).
Abbreviation I16_MAX := 32767.
Abbreviation I32_MIN := (-2147483648).
Abbreviation I32_MAX := 2147483647.
Abbreviation I64_MIN := (-9223372036854775808).
Abbreviation I64_MAX := 9223372036854775807.

Abbreviation is_i8 x := (I8_MIN <= x <= I8_MAX).
Abbreviation is_i16 x := (I16_MIN <= x <= I16_MAX).
Abbreviation is_i32 x := (I32_MIN <= x <= I32_MAX).
Abbreviation is_i64 x := (I64_MIN <= x <= I64_MAX).

(** [x as iN]: the two's-complement reading of the low [w] bits. *)
Definition as_signed (w x : Z) : Z := (x + 2 ^ (w - 1)) mod 2 ^ w - 2 ^ (w - 1).

(** [x as uN]. *)
Definition as_unsigned (w x : Z) : Z := x mod 2 ^ w.

(** [i64::checked_add], [i64::checked_mul], [i32::try_from(i64)]. *)
Definition i64_checked_add (a b : Z) : option Z :=
  if in_range I64_MIN I64_MAX (a + b) then Some (a + b) else None.
Definition i64_checked_mul (a b : Z) : option Z :=
  if in_range I64_MIN I64_MAX (a * b) then Some (a * b) else None.
Definition i32_try_from (v : Z) : option Z :=
  if in_range I32_MIN I32_MAX v then Some v else None.

(** [Ord::clamp] *)
Definition clamp (lo hi v : Z) : Z :=
  if v <? lo then lo else if hi <? v then hi else v.

(** ** The operations *)

Inductive IntegerError :=
  | LengthMismatch
  | NegativeMultiplier
  | ShiftOutOfRange
  | InputOutOfRange
  | AccumulatorOverflow.

#[global] Instance IntegerError_eq_dec : EqDecision IntegerError.
Proof. solve_decision. Defined.

(** The loop of [dot_i8_i32]: the accumulator is an [i64]. *)
Fixpoint dot_loop (pairs : list (Z * Z)) (left_zero_point right_zero_point accumulator : Z)
    : result Z IntegerError :=
  match pairs with
  | [] => Ok accumulator
  | (l, r) :: pairs =>
      let l := as_signed 8 l - left_zero_point in
      let r := as_signed 8 r - right_zero_point in
      let? accumulator := ok_or (i64_checked_add accumulator (l * r)) AccumulatorOverflow in
      dot_loop pairs left_zero_point right_zero_point accumulator
  end.

Definition dot_i8_i32 (left right : list Z) (left_zero_point right_zero_point bias : Z)
    : result Z IntegerError :=
  if negb (zlen left =? zlen right) then Err LengthMismatch else
  let? accumulator := dot_loop (zip left right) left_zero_point right_zero_point bias in
  ok_or (i32_try_from accumulator) AccumulatorOverflow.

Definition checked_shift (shift : Z) : result Z IntegerError :=
  if (shift <? 2) || (62 <? shift) then Err ShiftOutOfRange else Ok shift.

Lemma checked_shift_spec shift :
  checked_shift shift = if in_range 2 62 shift then Ok shift else Err ShiftOutOfRange.
Proof.
  unfold checked_shift, in_range.
  destruct (Z.ltb_spec shift 2), (Z.ltb_spec 62 shift), (Z.leb_spec 2 shift), (Z.leb_spec shift 62);
    done || lia.
Qed.

(** [value.checked_mul(m).and_then(|v| v.checked_add(round))] shifted right,
    the common tail of the two scaling helpers. *)
Definition scale_tail (value multiplier round shift : Z) : result Z IntegerError :=
  let? sum := ok_or (i64_checked_mul value multiplier ≫= fun v => i64_checked_add v round)
                    AccumulatorOverflow in
  ok_or (i32_try_from (Z.shiftr sum shift)) AccumulatorOverflow.

Definition apply_scale_32 (value multiplier shift : Z) (double_round : bool)
    : result Z IntegerError :=
  if multiplier <? 0 then Err NegativeMultiplier else
  let? shift := checked_shift shift in
  let bound := Z.shiftl 1 (shift - 1) in
  if negb ((- bound <=? value) && (value <? bound)) then Err InputOutOfRange else
  let round := Z.shiftl 1 (shift - 1) in
  let round :=
    if double_round && (31 <? shift)
    then if 0 <=? value then round + Z.shiftl 1 30 else round - Z.shiftl 1 30
    else round in
  scale_tail value multiplier round shift.

Definition apply_scale_16 (value multiplier shift : Z) : result Z IntegerError :=
  if multiplier <? 0 then Err NegativeMultiplier else
  if negb ((- Z.shiftl 1 47 <=? value) && (value <? Z.shiftl 1 47)) then Err InputOutOfRange else
  let? shift := checked_shift shift in
  let round := Z.shiftl 1 (shift - 1) in
  scale_tail value multiplier round shift.

Definition rescale_i32_to_i8 (value multiplier shift output_zero_point : Z) (double_round : bool)
    : result Z IntegerError :=
  let? scaled := apply_scale_32 value multiplier shift double_round in
  let shifted := scaled + output_zero_point in
  Ok (as_signed 8 (clamp I8_MIN I8_MAX shifted)).

(** ** Reference definitions: the same quantities over the integers *)

Definition dot_term (zl zr : Z) (p : Z * Z) : Z :=
  (as_signed 8 p.1 - zl) * (as_signed 8 p.2 - zr).

Definition exact_dot (left right : list Z) (zl zr bias : Z) : Z :=
  bias + sum_by (dot_term zl zr) (zip left right).

(** The rounding term of the TOSA pseudocode. *)
Definition rounding (value shift : Z) (double_round : bool) : Z :=
  2 ^ (shift - 1) +
  (if double_round && (31 <? shift) then if 0 <=? value then 2 ^ 30 else - 2 ^ 30 else 0).

(** [floor ((value * multiplier + rounding) / 2^shift)] *)
Definition exact_scale (value multiplier shift : Z) (double_round : bool) : Z :=
  (value * multiplier + rounding value shift double_round) / 2 ^ shift.

(** ** Lemmas on the machine operations *)

Lemma as_signed_range w x : 0 < w -> - 2 ^ (w - 1) <= as_signed w x < 2 ^ (w - 1).
Proof.
  intros Hw. unfold as_signed.
  assert (2 ^ w = 2 * 2 ^ (w - 1)) as E by (rewrite <- Z.pow_succ_r by lia; f_equal; lia).
  pose proof (Z.pow_pos_nonneg 2 (w - 1) ltac:(lia) ltac:(lia)).
  pose proof (Z.mod_pos_bound (x + 2 ^ (w - 1)) (2 ^ w) ltac:(lia)). lia.
Qed.

Lemma as_signed_id w x : 0 < w -> - 2 ^ (w - 1) <= x < 2 ^ (w - 1) -> as_signed w x = x.
Proof.
  intros Hw Hx. unfold as_signed.
  assert (2 ^ w = 2 * 2 ^ (w - 1)) as E by (rewrite <- Z.pow_succ_r by lia; f_equal; lia).
  rewrite Z.mod_small; lia.
Qed.

Lemma as_signed_8_range x : is_i8 (as_signed 8 x).
Proof. pose proof (as_signed_range 8 x ltac:(lia)). change (2 ^ (8 - 1)) with 128 in *. lia. Qed.

Lemma i64_checked_add_in a b : is_i64 (a + b) -> i64_checked_add a b = Some (a + b).
Proof. intros H. unfold i64_checked_add, in_range. zcmp. done. Qed.

Lemma i64_checked_add_Some a b c : i64_checked_add a b = Some c -> c = a + b.
Proof. unfold i64_checked_add. case_match; naive_solver. Qed.

Lemma i64_checked_mul_in a b : is_i64 (a * b) -> i64_checked_mul a b = Some (a * b).
Proof. intros H. unfold i64_checked_mul, in_range. zcmp. done. Qed.

Lemma i32_try_from_case v :
  (is_i32 v /\ i32_try_from v = Some v) \/ (~ is_i32 v /\ i32_try_from v = None).
Proof.
  unfold i32_try_from, in_range. destruct (decide (is_i32 v)) as [H|H]; [left|right].
  - zcmp. done.
  - split; [done|]. case_match; [|done]. bool_to_prop. lia.
Qed.

Lemma clamp_spec lo hi v : lo <= hi -> clamp lo hi v = Z.max lo (Z.min hi v).
Proof. unfold clamp. repeat case_match; bool_to_prop; lia. Qed.

(** ** Dot products *)

Lemma dot_term_bound zl zr p : is_i8 zl -> is_i8 zr -> -65025 <= dot_term zl zr p <= 65025.
Proof.
  intros. unfold dot_term.
  pose proof (as_signed_8_range p.1). pose proof (as_signed_8_range p.2).
  assert (-255 <= as_signed 8 p.1 - zl <= 255) by lia.
  assert (-255 <= as_signed 8 p.2 - zr <= 255) by lia. nia.
Qed.

Lemma dot_loop_sound pairs zl zr acc v :
  dot_loop pairs zl zr acc = Ok v -> v = acc + sum_by (dot_term zl zr) pairs.
Proof.
  revert acc. induction pairs as [|[l r] pairs IH]; intros acc; simpl; [naive_solver lia|].
  destruct (i64_checked_add _ _) as [a|] eqn:E; simpl; [|done].
  apply i64_checked_add_Some in E as ->. intros ->%IH. unfold dot_term. simpl. lia.
Qed.

Lemma dot_loop_total pairs zl zr acc :
  is_i8 zl -> is_i8 zr ->
  I64_MIN + 65025 * zlen pairs <= acc <= I64_MAX - 65025 * zlen pairs ->
  dot_loop pairs zl zr acc = Ok (acc + sum_by (dot_term zl zr) pairs).
Proof.
  intros Hl Hr. revert acc. induction pairs as [|[l r] pairs IH]; intros acc Hacc; simpl.
  - f_equal. lia.
  - unfold zlen in *. simpl in Hacc.
    pose proof (dot_term_bound zl zr (l, r) Hl Hr) as B. unfold dot_term in B at 1 2. simpl in B.
    rewrite i64_checked_add_in by lia. simpl.
    rewrite IH by (unfold zlen; lia). f_equal. unfold dot_term. simpl. lia.
Qed.

(** ** Fixed-point scaling *)

Lemma shiftl_1 n : 0 <= n -> Z.shiftl 1 n = 2 ^ n.
Proof. intros. rewrite Z.shiftl_mul_pow2 by lia. lia. Qed.

Lemma scale_tail_exact value multiplier round shift :
  is_i64 (value * multiplier) -> is_i64 (value * multiplier + round) -> 0 <= shift ->
  scale_tail value multiplier round shift =
  ok_or (i32_try_from ((value * multiplier + round) / 2 ^ shift)) AccumulatorOverflow.
Proof.
  intros H1 H2 H3. unfold scale_tail. rewrite i64_checked_mul_in by done. simpl.
  rewrite i64_checked_add_in by done. simpl. by rewrite Z.shiftr_div_pow2.
Qed.

(** The powers of two between [2^lo] and [2^hi]. *)
Lemma pow2_between lo n hi : 0 <= lo <= n -> n <= hi -> 2 ^ lo <= 2 ^ n <= 2 ^ hi.
Proof. intros. split; apply Z.pow_le_mono_r; lia. Qed.

Lemma pow2_half s : 2 <= s -> 2 ^ s = 2 * 2 ^ (s - 1).
Proof. intros. rewrite <- Z.pow_succ_r by lia. f_equal. lia. Qed.

Lemma rounding_code value shift double_round : 2 <= shift ->
  (if double_round && (31 <? shift)
   then if 0 <=? value then Z.shiftl 1 (shift - 1) + Z.shiftl 1 30
        else Z.shiftl 1 (shift - 1) - Z.shiftl 1 30
   else Z.shiftl 1 (shift - 1)) = rounding value shift double_round.
Proof. intros. unfold rounding. rewrite !shiftl_1 by lia. repeat case_match; lia. Qed.

Lemma rounding_bound value shift double_round : 2 <= shift <= 62 ->
  0 <= rounding value shift double_round < 2 ^ shift /\
  rounding value shift double_round <= 2 ^ 61 + 2 ^ 30.
Proof.
  intros Hs. unfold rounding. pose proof (pow2_half shift ltac:(lia)).
  pose proof (pow2_between 1 (shift - 1) 61 ltac:(lia) ltac:(lia)).
  change (2 ^ 1) with 2 in *. change (2 ^ 61) with 2305843009213693952 in *.
  change (2 ^ 30) with 1073741824.
  repeat case_match; bool_to_prop; try lia.
  all: pose proof (pow2_between 31 (shift - 1) 61 ltac:(lia) ltac:(lia)) as P;
    change (2 ^ 31) with 2147483648 in P; lia.
Qed.

(** The exact result fits the [i32] whenever the preconditions hold. *)
Lemma exact_scale_fits value multiplier shift double_round :
  0 <= multiplier <= I32_MAX -> 2 <= shift <= 62 ->
  - 2 ^ (shift - 1) <= value < 2 ^ (shift - 1) ->
  - 2 ^ 30 <= exact_scale value multiplier shift double_round <= 2 ^ 30.
Proof.
  intros Hm Hs Hv. unfold exact_scale.
  pose proof (rounding_bound value shift double_round Hs) as [HR _].
  pose proof (pow2_half shift ltac:(lia)) as E.
  change (2 ^ 30) with 1073741824.
  pose proof (Z.pow_pos_nonneg 2 (shift - 1) ltac:(lia) ltac:(lia)).
  set (p := 2 ^ (shift - 1)) in *. set (r := rounding _ _ _) in *.
  split.
  - apply Z.div_le_lower_bound; [lia|]. rewrite E. nia.
  - apply Z.lt_succ_r. apply Z.div_lt_upper_bound; [lia|]. rewrite E. nia.
Qed.

Lemma apply_scale_32_in value multiplier shift double_round :
  is_i32 value -> 0 <= multiplier <= I32_MAX -> 2 <= shift <= 62 ->
  - 2 ^ (shift - 1) <= value < 2 ^ (shift - 1) ->
  apply_scale_32 value multiplier shift double_round =
  Ok (exact_scale value multiplier shift double_round).
Proof.
  intros Hv Hm Hs Hb. unfold apply_scale_32, checked_shift. zcmp.
  rewrite rounding_code by lia. rewrite !shiftl_1 by lia. zcmp.
  pose proof (rounding_bound value shift double_round Hs) as [HR HR'].
  change (2 ^ 61 + 2 ^ 30) with 2305843010287435776 in HR'.
  assert (-4611686018427387904 <= value * multiplier <= 4611686018427387904) by nia.
  rewrite scale_tail_exact by lia. fold (exact_scale value multiplier shift double_round).
  pose proof (exact_scale_fits value multiplier shift double_round Hm Hs Hb) as HF.
  change (2 ^ 30) with 1073741824 in HF.
  destruct (i32_try_from_case (exact_scale value multiplier shift double_round)) as [[_ ->]|[? _]];
    [done|lia].
Qed.

(** What the scaling helper rejects, in the order it checks. *)
Definition scale_32_error (value multiplier shift : Z) : option IntegerError :=
  if multiplier <? 0 then Some NegativeMultiplier
  else if negb (in_range 2 62 shift) then Some ShiftOutOfRange
  else if negb (in_range (- 2 ^ (shift - 1)) (2 ^ (shift - 1) - 1) value) then Some InputOutOfRange
  else None.

Lemma apply_scale_32_spec value multiplier shift double_round :
  is_i32 value -> is_i32 multiplier ->
  apply_scale_32 value multiplier shift double_round =
  match scale_32_error value multiplier shift with
  | Some e => Err e
  | None => Ok (exact_scale value multiplier shift double_round)
  end.
Proof.
  intros Hv Hm. unfold scale_32_error.
  destruct (Z.ltb_spec multiplier 0) as [H0|H0]; [unfold apply_scale_32; by zcmp|].
  destruct (in_range 2 62 shift) eqn:Hs; simpl; cycle 1.
  { unfold apply_scale_32. rewrite checked_shift_spec, Hs. by zcmp. }
  apply in_range_spec in Hs.
  destruct (in_range (- 2 ^ (shift - 1)) _ value) eqn:Hb; simpl.
  - apply in_range_spec in Hb. apply apply_scale_32_in; lia.
  - unfold apply_scale_32, checked_shift. zcmp. rewrite !shiftl_1 by lia. unfold in_range in Hb.
    destruct (Z.leb_spec (- 2 ^ (shift - 1)) value); [|done].
    destruct (Z.ltb_spec value (2 ^ (shift - 1))); [|done]. revert Hb. by zcmp.
Qed.

(** The distance of the result from the rational [value * multiplier / 2^shift]. *)
Lemma exact_scale_nearest value multiplier shift double_round : 2 <= shift <= 62 ->
  let q := exact_scale value multiplier shift double_round in
  2 * Z.abs (q * 2 ^ shift - value * multiplier) <=
  2 ^ shift + (if double_round && (31 <? shift) then 2 ^ 31 else 0).
Proof.
  intros Hs q. unfold exact_scale in q.
  pose proof (pow2_half shift ltac:(lia)) as E.
  pose proof (Z.pow_pos_nonneg 2 (shift - 1) ltac:(lia) ltac:(lia)).
  pose proof (Z.div_mod (value * multiplier + rounding value shift double_round) (2 ^ shift)
    ltac:(lia)) as D.
  pose proof (Z.mod_pos_bound (value * multiplier + rounding value shift double_round) (2 ^ shift)
    ltac:(lia)) as B.
  subst q. unfold rounding in *. change (2 ^ 31) with (2 * 2 ^ 30).
  change (2 ^ 30) with 1073741824 in *.
  repeat case_match; lia.
Qed.

(** ** Theorems *)

(** [dot_i8_i32] never wraps: a result it returns is the exact sum of the
    products of the zero-point-adjusted storage bytes plus the bias; for
    operands of equal length below 2^46 bytes it returns that sum exactly when
    it is an [i32] and reports [AccumulatorOverflow] otherwise; operands of
    different lengths are always refused. *)
Theorem dot_exact left right zl zr bias :
  is_i8 zl -> is_i8 zr -> is_i32 bias -> zlen left < 2 ^ 46 ->
  dot_i8_i32 left right zl zr bias =
  if zlen left =? zlen right then
    if in_range I32_MIN I32_MAX (exact_dot left right zl zr bias)
    then Ok (exact_dot left right zl zr bias) else Err AccumulatorOverflow
  else Err LengthMismatch.
Proof.
  intros Hl Hr Hb Hn. unfold dot_i8_i32. destruct (Z.eqb_spec (zlen left) (zlen right)); [|done].
  simpl. rewrite dot_loop_total; try lia.
  - unfold exact_dot, i32_try_from. by case_match.
  - assert (zlen (zip left right) <= zlen left).
    { unfold zlen. rewrite length_zip_with. lia. }
    pose proof (zlen_nonneg left). change (2 ^ 46) with 70368744177664 in Hn. lia.
Qed.

Lemma dot_exact_witness :
  dot_i8_i32 [128; 255; 0; 127] [127; 1; 255; 128] (-2) 1 17 = Ok (-32504).
Proof. rewrite dot_exact; [reflexivity|lia|lia|lia|reflexivity]. Defined.

(** C35: [apply_scale_32] reports exactly the violated precondition, in source
    order, and otherwise always succeeds ([AccumulatorOverflow] cannot happen)
    with the floor of [(value * multiplier + rounding) / 2^shift].  Without
    double rounding, or up to a shift of 31, that is at most half a unit away
    from the rational product; with double rounding above a shift of 31, at most
    half a unit and [2^30 / 2^shift], so up to three quarters of a unit. *)
Theorem scale_32_exact value multiplier shift double_round :
  is_i32 value -> is_i32 multiplier ->
  apply_scale_32 value multiplier shift double_round =
    match scale_32_error value multiplier shift with
    | Some e => Err e
    | None => Ok (exact_scale value multiplier shift double_round)
    end /\
  (forall q, apply_scale_32 value multiplier shift double_round = Ok q ->
     2 * Z.abs (q * 2 ^ shift - value * multiplier) <=
     2 ^ shift + (if double_round && (31 <? shift) then 2 ^ 31 else 0)).
Proof.
  intros Hv Hm. rewrite apply_scale_32_spec by done. split; [done|].
  intros q. destruct (scale_32_error value multiplier shift) eqn:E; [done|]. intros [= <-].
  apply exact_scale_nearest. unfold scale_32_error in E. repeat case_match; try done.
  by apply in_range_spec, negb_false_iff.
Qed.

Lemma scale_32_exact_witness :
  apply_scale_32 (-3) 2 3 false = Ok (-1) /\
  apply_scale_32 1000 1073741824 40 true = Ok (exact_scale 1000 1073741824 40 true).
Proof.
  split.
  - rewrite (proj1 (scale_32_exact (-3) 2 3 false ltac:(lia) ltac:(lia))). reflexivity.
  - rewrite (proj1 (scale_32_exact 1000 1073741824 40 true ltac:(lia) ltac:(lia))). reflexivity.
Defined.

(** [apply_scale_16] on an INT48 value: the intermediate [i64] arithmetic
    never overflows, so the only [AccumulatorOverflow] is an exact quotient
    that is no [i32]. *)
Theorem scale_16_exact value multiplier shift :
  is_i16 multiplier -> 0 <= multiplier -> - 2 ^ 47 <= value < 2 ^ 47 ->
  apply_scale_16 value multiplier shift =
  if in_range 2 62 shift then
    if in_range I32_MIN I32_MAX (exact_scale value multiplier shift false)
    then Ok (exact_scale value multiplier shift false) else Err AccumulatorOverflow
  else Err ShiftOutOfRange.
Proof.
  intros Hm Hm' Hv. unfold apply_scale_16. rewrite !(shiftl_1 47) by lia. zcmp.
  rewrite checked_shift_spec. destruct (in_range 2 62 shift) eqn:Hs; [|done].
  apply in_range_spec in Hs.
  pose proof (rounding_bound value shift false ltac:(lia)) as [HR HR'].
  change (2 ^ 61 + 2 ^ 30) with 2305843010287435776 in HR'.
  change (2 ^ 47) with 140737488355328 in Hv.
  assert (-4611686018427387904 <= value * multiplier <= 4611686018427387904) by nia.
  assert (rounding value shift false = 2 ^ (shift - 1)) as ER by (unfold rounding; simpl; lia).
  rewrite shiftl_1 by lia. rewrite scale_tail_exact by lia.
  unfold exact_scale, i32_try_from. rewrite ER. by case_match.
Qed.

Lemma scale_16_exact_witness :
  apply_scale_16 (-32768) 16384 14 = Ok (-32768) /\
  apply_scale_16 (2 ^ 46) 32767 2 = Err AccumulatorOverflow.
Proof. split; (rewrite scale_16_exact; [reflexivity|lia..]). Defined.

(** [rescale_i32_to_i8] saturates after adding the output zero point: the
    result is the exact scaled value plus the zero point, clamped to INT8. *)
Theorem rescale_saturates value multiplier shift zp double_round :
  is_i32 value -> is_i32 multiplier -> is_i8 zp ->
  rescale_i32_to_i8 value multiplier shift zp double_round =
  match scale_32_error value multiplier shift with
  | Some e => Err e
  | None => Ok (Z.max I8_MIN (Z.min I8_MAX (exact_scale value multiplier shift double_round + zp)))
  end.
Proof.
  intros Hv Hm Hz. unfold rescale_i32_to_i8. rewrite apply_scale_32_spec by done.
  destruct (scale_32_error _ _ _); [done|]. rewrite clamp_spec by lia.
  rewrite as_signed_id; [done|lia|]. change (2 ^ (8 - 1)) with 128. lia.
Qed.

Lemma rescale_saturates_witness :
  rescale_i32_to_i8 120 (2 ^ 30) 30 20 false = Ok 127 /\
  rescale_i32_to_i8 (-120) (2 ^ 30) 30 (-20) false = Ok (-128).
Proof. split; (rewrite rescale_saturates; [reflexivity|lia..]). Defined.

(** * TOSA low-precision encodings

    crates/virtio-accel-tosa/src/numeric.rs: packed INT4 storage and the FP8 to
    [f32] and BF16 conversions.  An [f32] is its bit pattern; the one
    multiplication of the source is the IEEE binary32 product of the Standard
    Library's [SpecFloat] on the decoded operands. *)

(** ** IEEE binary32 on bit patterns *)

Definition f32_decode (bits : Z) : spec_float :=
  let s := Z.testbit bits 31 in
  let e := Z.land (Z.shiftr bits 23) 255 in
  let m := Z.land bits 8388607 in
  if e =? 0 then if m =? 0 then S754_zero s else S754_finite s (Z.to_pos m) (-149)
  else if e =? 255 then if m =? 0 then S754_infinity s else S754_nan
  else S754_finite s (Z.to_pos (m + 8388608)) (e - 150).

Definition sign_bits (s : bool) : Z := if s then 2147483648 else 0.

Definition f32_encode (f : spec_float) : Z :=
  match f with
  | S754_zero s => sign_bits s
  | S754_infinity s => Z.lor (sign_bits s) 2139095040
  | S754_nan => 2143289344
  | S754_finite s m e =>
      if Z.pos m <? 8388608 then Z.lor (sign_bits s) (Z.pos m)
      else Z.lor (sign_bits s) (Z.lor (Z.shiftl (e + 150) 23) (Z.pos m - 8388608))
  end.

(** [a * b] on [f32] *)
Definition f32_mul (a b : Z) : Z :=
  f32_encode (SFmul 24 128 (f32_decode a) (f32_decode b)).

(** [n as f32] *)
Definition f32_of_u32 (n : Z) : Z := f32_encode (binary_normalize 24 128 n 0 false).

(** ** The operations *)

Definition low_precision_storage_bytes (dtype elements : Z) : option Z :=
  if dtype =? DType.INT4 then Some (elements / 2 + elements mod 2)
  else if (dtype =? DType.INT8) || (dtype =? DType.FP8E4M3) || (dtype =? DType.FP8E5M2)
  then Some elements
  else None.

(** [(nibble as i8) << 4 >> 4]: the left shift drops the high bits of the
    [i8], the right shift is arithmetic. *)
Definition sign_extend_nibble (nibble : Z) : Z :=
  Z.shiftr (as_signed 8 (Z.shiftl (as_signed 8 nibble) 4)) 4.

Definition unpack_int4 (bytes : list Z) (index : Z) : option Z :=
  byte ← bytes !! Z.to_nat (index / 2);
  let nibble := if index mod 2 =? 0 then Z.land byte 15 else Z.shiftr byte 4 in
  Some (sign_extend_nibble nibble).

Definition pack_int4 (low high : Z) : option Z :=
  if (low <? -7) || (7 <? low) || (high <? -7) || (7 <? high) then None
  else Some (Z.lor (Z.shiftl (Z.land (as_unsigned 8 high) 15) 4) (Z.land (as_unsigned 8 low) 15)).

Definition signed_fp8_subnormal (sign fraction scale : Z) : Z :=
  if fraction =? 0 then sign else
  let power_of_two := Z.shiftl (127 - scale) 23 in
  let value := f32_mul (f32_of_u32 fraction) power_of_two in
  Z.lor value sign.

Definition fp8e4m3_to_f32 (bits : Z) : Z :=
  let sign := Z.shiftl (Z.land bits 128) 24 in
  let exponent := Z.land (Z.shiftr bits 3) 15 in
  let fraction := Z.land bits 7 in
  if exponent =? 0 then signed_fp8_subnormal sign fraction 9
  else if (exponent =? 15) && (fraction =? 7) then Z.lor sign 2143289344
  else Z.lor (Z.lor sign (Z.shiftl (exponent + 120) 23)) (Z.shiftl fraction 20).

Definition fp8e5m2_to_f32 (bits : Z) : Z :=
  let sign := Z.shiftl (Z.land bits 128) 24 in
  let exponent := Z.land (Z.shiftr bits 2) 31 in
  let fraction := Z.land bits 3 in
  if exponent =? 0 then signed_fp8_subnormal sign fraction 16
  else if exponent =? 31 then Z.lor (Z.lor sign 2139095040) (Z.shiftl fraction 21)
  else Z.lor (Z.lor sign (Z.shiftl (exponent + 112) 23)) (Z.shiftl fraction 21).

Definition fp8e4m3_to_bf16_bits (bits : Z) : Z :=
  let sign := Z.shiftl (Z.land bits 128) 8 in
  let exponent := Z.land (Z.shiftr bits 3) 15 in
  let fraction := Z.land bits 7 in
  if exponent =? 0 then
    let subnormal := [0; 15104; 15232; 15296; 15360; 15392; 15424; 15456] in
    Z.lor sign (nth (Z.to_nat fraction) subnormal 0)
  else if (exponent =? 15) && (fraction =? 7) then Z.lor sign 32704
  else Z.lor (Z.lor sign (Z.shiftl (exponent + 120) 7)) (Z.shiftl fraction 4).

Definition fp8e5m2_to_bf16_bits (bits : Z) : Z :=
  let sign := Z.shiftl (Z.land bits 128) 8 in
  let exponent := Z.land (Z.shiftr bits 2) 31 in
  let fraction := Z.land bits 3 in
  if exponent =? 0 then
    let subnormal := [0; 14208; 14336; 14400] in
    Z.lor sign (nth (Z.to_nat fraction) subnormal 0)
  else if exponent =? 31 then Z.lor sign (if fraction =? 0 then 32640 else 32704)
  else Z.lor (Z.lor sign (Z.shiftl (exponent + 112) 7)) (Z.shiftl fraction 5).

(** ** Reference values *)

(** A value times 2^149 (every finite [f32] is a multiple of 2^-149), or a
    special. *)
Inductive Value :=
  | Finite (negative : bool) (scaled : Z)
  | Infinite (negative : bool)
  | NotANumber.

#[global] Instance Value_eq_dec : EqDecision Value.
Proof. solve_decision. Defined.

Definition f32_value (bits : Z) : Value :=
  match f32_decode bits with
  | S754_zero s => Finite s 0
  | S754_infinity s => Infinite s
  | S754_nan => NotANumber
  | S754_finite s m e => Finite s (Z.pos m * 2 ^ (e + 149))
  end.

(** The OCP definition of an FP8 format with [ebits] exponent bits, [mbits]
    fraction bits and exponent bias [bias]: normal values are
    (1 + F / 2^mbits) * 2^(E - bias), subnormal ones F / 2^mbits * 2^(1 - bias). *)
Definition ocp_scaled (mbits bias E F : Z) : Z :=
  if E =? 0 then F * 2 ^ (149 + 1 - bias - mbits)
  else (2 ^ mbits + F) * 2 ^ (149 + E - bias - mbits).

Definition e4m3_value (bits : Z) : Value :=
  let E := (bits / 8) mod 16 in let F := bits mod 8 in
  if (E =? 15) && (F =? 7) then NotANumber else Finite (128 <=? bits) (ocp_scaled 3 7 E F).

Definition e5m2_value (bits : Z) : Value :=
  let E := (bits / 4) mod 32 in let F := bits mod 4 in
  if E =? 31 then if F =? 0 then Infinite (128 <=? bits) else NotANumber
  else Finite (128 <=? bits) (ocp_scaled 2 15 E F).

Definition bf16_value (bits : Z) : Value := f32_value (Z.shiftl bits 16).

(** ** Theorems *)

(** Every FP8 bit pattern converts exactly: the [f32] and the BF16 result
    denote the value the OCP format defines for the byte, with its sign, its
    infinities and its NaNs, and the BF16 bits of a number are the upper half
    of the [f32] bits. *)
Theorem fp8_conversions_exact bits : is_u8 bits ->
  f32_value (fp8e4m3_to_f32 bits) = e4m3_value bits /\
  bf16_value (fp8e4m3_to_bf16_bits bits) = e4m3_value bits /\
  f32_value (fp8e5m2_to_f32 bits) = e5m2_value bits /\
  bf16_value (fp8e5m2_to_bf16_bits bits) = e5m2_value bits /\
  (e4m3_value bits <> NotANumber ->
     fp8e4m3_to_bf16_bits bits = Z.shiftr (fp8e4m3_to_f32 bits) 16) /\
  (e5m2_value bits <> NotANumber ->
     fp8e5m2_to_bf16_bits bits = Z.shiftr (fp8e5m2_to_f32 bits) 16).
Proof. revert bits. apply (forall_range _ 0 255). vm_compute. reflexivity. Qed.

Lemma fp8_conversions_exact_witness :
  f32_value (fp8e4m3_to_f32 0x7e) = Finite false (448 * 2 ^ 149).
Proof. rewrite (proj1 (fp8_conversions_exact 0x7e ltac:(lia))). reflexivity. Defined.

(** The nibbles of a byte as unpacked, and what packing them back must give. *)
Definition byte_packs_back (byte : Z) : Prop :=
  match unpack_int4 [byte] 0, unpack_int4 [byte] 1 with
  | Some low, Some high =>
      -8 <= low <= 7 /\ -8 <= high <= 7 /\
      pack_int4 low high = if (low =? -8) || (high =? -8) then None else Some byte
  | _, _ => False
  end.

#[local] Instance byte_packs_back_dec byte : Decision (byte_packs_back byte).
Proof. unfold byte_packs_back. repeat case_match; apply _. Defined.

(** What packing two admitted values must give back. *)
Definition pair_unpacks (low high : Z) : Prop :=
  match pack_int4 low high with
  | Some byte =>
      is_u8 byte /\ unpack_int4 [byte] 0 = Some low /\ unpack_int4 [byte] 1 = Some high
  | None => False
  end.

#[local] Instance pair_unpacks_dec low high : Decision (pair_unpacks low high).
Proof. unfold pair_unpacks. repeat case_match; apply _. Defined.

Lemma pair_unpacks_all low high : -7 <= low <= 7 -> -7 <= high <= 7 -> pair_unpacks low high.
Proof.
  intros Hl Hh.
  assert (Forall (pair_unpacks low) (range (-7) 7)) as H.
  { revert low Hl. apply (forall_range (fun low => Forall (pair_unpacks low) (range (-7) 7))).
    vm_compute. reflexivity. }
  rewrite Forall_forall in H. by apply H, elem_of_range.
Qed.

(** INT4 packing round-trips: two values are packed exactly when both lie
    in the specification's -7..=7, and then both nibbles of the byte unpack to
    them; conversely a byte packs back to itself from its unpacked nibbles
    unless one of them is the excluded -8. *)
Theorem int4_roundtrip :
  (forall low high, is_i8 low -> is_i8 high ->
    match pack_int4 low high with
    | Some byte => -7 <= low <= 7 /\ -7 <= high <= 7 /\ is_u8 byte /\
        unpack_int4 [byte] 0 = Some low /\ unpack_int4 [byte] 1 = Some high
    | None => ~ (-7 <= low <= 7 /\ -7 <= high <= 7)
    end) /\
  (forall byte, is_u8 byte -> byte_packs_back byte).
Proof.
  split; [|apply (forall_range byte_packs_back); vm_compute; reflexivity].
  intros low high Hl Hh. destruct (decide (-7 <= low <= 7 /\ -7 <= high <= 7)) as [[Hl' Hh']|Hn].
  - pose proof (pair_unpacks_all low high Hl' Hh') as H. unfold pair_unpacks in H.
    destruct (pack_int4 low high); [naive_solver|done].
  - unfold pack_int4. repeat case_match; simplify_eq; bool_to_prop; done || lia.
Qed.

Lemma int4_roundtrip_witness :
  unpack_int4 [0x79] 0 = Some (-7) /\ unpack_int4 [0x79] 1 = Some 7.
Proof.
  destruct int4_roundtrip as [H _]. exact (proj2 (proj2 (proj2 (H (-7) 7 ltac:(lia) ltac:(lia))))).
Defined.
