(* ===== verification/TosaArtifact.v ===== *)
(** * TOSA targets

    crates/virtio-accel-tosa/src/artifact.rs: profiles, levels and extensions
    and the twelve opaque words in which virtio-accel carries them.  Flag sets
    are their raw bits. *)

From Stdlib Require Import ZArith Lia.
From stdpp Require Import prelude list.
From S2P Require Import Prelude TosaTypes TosaNumeric.

Definition ARTIFACT_FORMAT : Z := 0x544f5341.
Definition TARGET_MAGIC : Z := 0x544f5341.
Definition TARGET_ABI : Z := 1.

Module ProfileSet.
Definition INTEGER : Z := Z.shiftl 1 0.
Definition FLOATING_POINT : Z := Z.shiftl 1 1.
Definition ALL : Z := Z.lor INTEGER FLOATING_POINT.

(** [bits & !ALL] on a [u32] *)
Definition from_bits (bits : Z) : option Z :=
  if negb (bits =? 0) && (Z.ldiff bits ALL =? 0) then Some bits else None.
Definition union (a b : Z) : Z := Z.lor a b.
Definition contains (a b : Z) : bool := Z.land a b =? b.
Definition intersects (a b : Z) : bool := negb (Z.land a b =? 0).
End ProfileSet.

Module ExtensionSet.
Definition NONE : Z := 0.
Definition INT16 : Z := Z.shiftl 1 0.
Definition INT4 : Z := Z.shiftl 1 1.
Definition BF16 : Z := Z.shiftl 1 2.
Definition FP8E4M3 : Z := Z.shiftl 1 3.
Definition FP8E5M2 : Z := Z.shiftl 1 4.
Definition FFT : Z := Z.shiftl 1 5.
Definition VARIABLE : Z := Z.shiftl 1 6.
Definition CONTROL_FLOW : Z := Z.shiftl 1 7.
Definition DYNAMIC : Z := Z.shiftl 1 8.
Definition DOUBLE_ROUND : Z := Z.shiftl 1 9.
Definition INEXACT_ROUND : Z := Z.shiftl 1 10.
Definition ALL : Z := Z.shiftl 1 11 - 1.

Definition from_bits (bits : Z) : option Z :=
  if Z.ldiff bits ALL =? 0 then Some bits else None.
Definition union (a b : Z) : Z := Z.lor a b.
Definition contains (a b : Z) : bool := Z.land a b =? b.
Definition intersects (a b : Z) : bool := negb (Z.land a b =? 0).
End ExtensionSet.

Inductive Level := Unbounded | Level8K.

#[global] Instance Level_eq_dec : EqDecision Level.
Proof. solve_decision. Defined.

(** [level as u32] *)
Definition Level_discriminant (l : Level) : Z :=
  match l with Unbounded => 0 | Level8K => 1 end.

Record LevelLimits := {
  max_rank : Z;
  max_kernel : Z;
  max_stride : Z;
  max_scale : Z;
  max_log2_size : Z;
  max_nesting : Z;
  max_tensor_list_size : Z;
}.

Definition level_limits (l : Level) : LevelLimits :=
  match l with
  | Unbounded =>
      {| max_rank := 32; max_kernel := I32_MAX; max_stride := I32_MAX; max_scale := 2048;
         max_log2_size := 63; max_nesting := 256; max_tensor_list_size := 256 |}
  | Level8K =>
      {| max_rank := 6; max_kernel := 8192; max_stride := 8192; max_scale := 256;
         max_log2_size := 31; max_nesting := 6; max_tensor_list_size := 64 |}
  end.

Inductive TargetError :=
  | WrongMagic (word : Z)
  | UnknownAbi (word : Z)
  | VersionOutOfRange
  | TargetVersionMismatch (target model : Version)
  | InvalidProfiles (bits : Z)
  | UnknownLevel (value : Z)
  | UnknownExtensions (bits : Z)
  | ExtensionProfileMismatch (extensions required_profiles : Z)
  | ReservedWords.

#[global] Instance TargetError_eq_dec : EqDecision TargetError.
Proof. solve_decision. Defined.

Inductive ArtifactError := ArtifactVersionMismatch (model target : Version).

Definition Level_try_from (value : Z) : result Level TargetError :=
  if value =? 0 then Ok Unbounded
  else if value =? 1 then Ok Level8K
  else Err (UnknownLevel value).

Record Target := {
  tgt_version : Version;
  tgt_profiles : Z;
  tgt_level : Level;
  tgt_extensions : Z;
}.

#[global] Instance Target_eq_dec : EqDecision Target.
Proof. solve_decision. Defined.

(** [Target::to_identity]: the twelve words of a [TargetIdentity]. *)
Definition to_identity (t : Target) : list Z :=
  let extensions := tgt_extensions t in
  [TARGET_MAGIC; TARGET_ABI; major (tgt_version t); minor (tgt_version t); patch (tgt_version t);
   tgt_profiles t; Level_discriminant (tgt_level t);
   as_unsigned 32 extensions; as_unsigned 32 (Z.shiftr extensions 32); 0; 0; 0].

Definition integer_only : Z :=
  ExtensionSet.union
    (ExtensionSet.union (ExtensionSet.union ExtensionSet.INT16 ExtensionSet.INT4)
       ExtensionSet.DOUBLE_ROUND) ExtensionSet.INEXACT_ROUND.
Definition floating_only : Z :=
  ExtensionSet.union
    (ExtensionSet.union (ExtensionSet.union ExtensionSet.BF16 ExtensionSet.FP8E4M3)
       ExtensionSet.FP8E5M2) ExtensionSet.FFT.

(** [Target::validate] *)
Definition Target_validate (t : Target) : result Target TargetError :=
  if ExtensionSet.intersects (tgt_extensions t) integer_only &&
     negb (ProfileSet.intersects (tgt_profiles t) ProfileSet.INTEGER)
  then Err (ExtensionProfileMismatch (Z.land (tgt_extensions t) integer_only) ProfileSet.INTEGER)
  else if ExtensionSet.intersects (tgt_extensions t) floating_only &&
          negb (ProfileSet.intersects (tgt_profiles t) ProfileSet.FLOATING_POINT)
  then Err (ExtensionProfileMismatch (Z.land (tgt_extensions t) floating_only)
              ProfileSet.FLOATING_POINT)
  else Ok t.

(** [Target::from_identity], on the word array. *)
Definition from_identity (words : list Z) : result Target TargetError :=
  let word (i : nat) := nth i words 0 in
  if negb (word 0%nat =? TARGET_MAGIC) then Err (WrongMagic (word 0%nat)) else
  if negb (word 1%nat =? TARGET_ABI) then Err (UnknownAbi (word 1%nat)) else
  if (U16_MAX <? word 2%nat) || (U16_MAX <? word 3%nat) || (U16_MAX <? word 4%nat)
  then Err VersionOutOfRange else
  let? profiles := ok_or (ProfileSet.from_bits (word 5%nat)) (InvalidProfiles (word 5%nat)) in
  let? level := Level_try_from (word 6%nat) in
  let extension_bits := Z.lor (word 7%nat) (Z.shiftl (word 8%nat) 32) in
  let? extensions :=
    ok_or (ExtensionSet.from_bits extension_bits) (UnknownExtensions extension_bits) in
  if existsb (fun word => negb (word =? 0)) (drop 9 words) then Err ReservedWords else
  Target_validate
    {| tgt_version := {| major := word 2%nat; minor := word 3%nat; patch := word 4%nat |};
       tgt_profiles := profiles; tgt_level := level; tgt_extensions := extensions |}.

(** ** The type invariant of a target *)

Definition version_ok (v : Version) : Prop := is_u16 (major v) /\ is_u16 (minor v) /\ is_u16 (patch v).

(** Fields within their types: [ProfileSet] and [ExtensionSet] values come
    from [from_bits] or unions of constants. *)
Definition target_ok (t : Target) : Prop :=
  version_ok (tgt_version t) /\ 1 <= tgt_profiles t <= ProfileSet.ALL /\
  0 <= tgt_extensions t <= ExtensionSet.ALL.

(** Words of a [TargetIdentity]. *)
Definition identity_ok (words : list Z) : Prop :=
  length words = 12%nat /\ Forall (fun w => is_u32 w) words.

(** ** Lemmas *)

Lemma ldiff_ones_zero n bits : 0 <= n -> 0 <= bits ->
  Z.ldiff bits (Z.ones n) = 0 <-> bits < 2 ^ n.
Proof.
  intros Hn Hb. rewrite Z.ldiff_ones_r by lia. rewrite Z.shiftl_eq_0_iff by lia.
  rewrite Z.shiftr_div_pow2 by lia.
  pose proof (Z.pow_pos_nonneg 2 n ltac:(lia) Hn).
  split; [|intros; apply Z.div_small; lia].
  intros E. apply Z.div_small_iff in E; lia.
Qed.

Lemma profiles_from_bits bits : 0 <= bits ->
  ProfileSet.from_bits bits = if (1 <=? bits) && (bits <=? ProfileSet.ALL) then Some bits else None.
Proof.
  intros Hb. unfold ProfileSet.from_bits. change ProfileSet.ALL with (Z.ones 2) at 1.
  pose proof (ldiff_ones_zero 2 bits ltac:(lia) Hb) as H. change (2 ^ 2) with 4 in H.
  change ProfileSet.ALL with 3.
  destruct (Z.eqb_spec bits 0), (Z.eqb_spec (Z.ldiff bits (Z.ones 2)) 0), (Z.leb_spec 1 bits),
    (Z.leb_spec bits 3); simpl; try done; lia.
Qed.

Lemma extensions_from_bits bits : 0 <= bits ->
  ExtensionSet.from_bits bits = if bits <=? ExtensionSet.ALL then Some bits else None.
Proof.
  intros Hb. unfold ExtensionSet.from_bits. change ExtensionSet.ALL with (Z.ones 11) at 1.
  pose proof (ldiff_ones_zero 11 bits ltac:(lia) Hb) as H. change (2 ^ 11) with 2048 in H.
  change ExtensionSet.ALL with 2047.
  destruct (Z.eqb_spec (Z.ldiff bits (Z.ones 11)) 0), (Z.leb_spec bits 2047); try done; lia.
Qed.

(** Two 32-bit halves make a value of at most 2^32 exactly when the upper half
    is zero. *)
Lemma halves_small lo hi : is_u32 lo -> is_u32 hi -> Z.lor lo (Z.shiftl hi 32) <= U32_MAX -> hi = 0.
Proof.
  intros Hl Hh H.
  assert (0 <= Z.lor lo (Z.shiftl hi 32)).
  { apply Z.lor_nonneg. split; [lia|]. apply Z.shiftl_nonneg. lia. }
  assert (Z.shiftr (Z.lor lo (Z.shiftl hi 32)) 32 = 0) as E.
  { rewrite Z.shiftr_div_pow2 by lia. apply Z.div_small. lia. }
  rewrite Z.shiftr_lor, Z.shiftr_shiftl_l, (Z.shiftr_div_pow2 lo), Z.div_small in E by lia.
  by rewrite Z.lor_0_l, Z.sub_diag, Z.shiftl_0_r in E.
Qed.

Lemma Level_roundtrip l : Level_try_from (Level_discriminant l) = Ok l.
Proof. by destruct l. Qed.

Lemma Level_try_from_Ok w l : Level_try_from w = Ok l -> w = Level_discriminant l.
Proof. unfold Level_try_from. repeat case_match; bool_to_prop; intros; simplify_eq; done. Qed.

Lemma from_to_identity t : target_ok t -> from_identity (to_identity t) = Target_validate t.
Proof.
  destruct t as [[M m p] pr l e]. intros ((HM & Hm & Hp) & Hpr & He). simpl in *.
  change ProfileSet.ALL with 3 in Hpr. change ExtensionSet.ALL with 2047 in He.
  unfold from_identity. cbn -[Z.shiftr Z.shiftl Z.lor as_unsigned Target_validate].
  zcmp. rewrite profiles_from_bits by lia. change ProfileSet.ALL with 3. zcmp.
  rewrite Level_roundtrip.
  assert (as_unsigned 32 e = e) as -> by (unfold as_unsigned; rewrite Z.mod_small; lia).
  assert (Z.shiftr e 32 = 0) as -> by (rewrite Z.shiftr_div_pow2 by lia; apply Z.div_small; lia).
  change (Z.lor e (Z.shiftl (as_unsigned 32 0) 32)) with (Z.lor e 0). rewrite Z.lor_0_r.
  rewrite extensions_from_bits by lia. change ExtensionSet.ALL with 2047. by zcmp.
Qed.

(** What acceptance says of the twelve words. *)
Lemma from_identity_Ok words t :
  identity_ok words -> from_identity words = Ok t ->
  target_ok t /\ words = to_identity t /\ Target_validate t = Ok t.
Proof.
  intros [Hlen Hw]. do 12 (destruct words as [|? words]; [done|]). destruct words; [|done].
  repeat (apply Forall_cons in Hw as [? Hw]). clear Hlen Hw.
  unfold from_identity. cbn -[Z.shiftr Z.shiftl Z.lor Target_validate].
  rewrite profiles_from_bits by lia. change ProfileSet.ALL with 3.
  destruct (Z.eqb_spec z TARGET_MAGIC) as [->|]; [|done]. simpl negb. cbv iota.
  destruct (Z.eqb_spec z0 TARGET_ABI) as [->|]; [|done]. simpl negb. cbv iota.
  destruct (Z.ltb_spec 65535 z1); [done|]. destruct (Z.ltb_spec 65535 z2); [done|].
  destruct (Z.ltb_spec 65535 z3); [done|]. simpl orb. cbv iota.
  destruct (Z.leb_spec 1 z4); [|done]. destruct (Z.leb_spec z4 3); [|done]. simpl.
  destruct (Level_try_from z5) as [l|] eqn:El; [|done]. apply Level_try_from_Ok in El as ->.
  rewrite extensions_from_bits.
  2: { apply Z.lor_nonneg. split; [lia|]. apply Z.shiftl_nonneg. lia. }
  change ExtensionSet.ALL with 2047.
  destruct (Z.leb_spec (Z.lor z6 (Z.shiftl z7 32)) 2047) as [He|]; [|done]. simpl.
  assert (z7 = 0) as -> by (apply (halves_small z6); lia).
  rewrite Z.shiftl_0_l, Z.lor_0_r in *.
  destruct (Z.eqb_spec z8 0) as [->|]; [|done]. destruct (Z.eqb_spec z9 0) as [->|]; [|done].
  destruct (Z.eqb_spec z10 0) as [->|]; [|done]. simpl. intros HV.
  assert (t = {| tgt_version := {| major := z1; minor := z2; patch := z3 |};
                 tgt_profiles := z4; tgt_level := l; tgt_extensions := z6 |}) as ->.
  { unfold Target_validate in HV. repeat case_match; by simplify_eq. }
  split; [|split; [|done]].
  - unfold target_ok, version_ok. change ProfileSet.ALL with 3. change ExtensionSet.ALL with 2047.
    simpl. lia.
  - unfold to_identity. cbn -[Z.shiftr as_unsigned]. 
    rewrite Z.shiftr_div_pow2 by lia. rewrite (Z.div_small z6) by lia.
    unfold as_unsigned. rewrite Z.mod_small by lia. done.
Qed.

(** The pairing of extensions with profiles. *)
Definition profiles_cover (t : Target) : Prop :=
  (Z.land (tgt_extensions t) integer_only <> 0 -> Z.land (tgt_profiles t) ProfileSet.INTEGER <> 0) /\
  (Z.land (tgt_extensions t) floating_only <> 0 ->
     Z.land (tgt_profiles t) ProfileSet.FLOATING_POINT <> 0).

Lemma Target_validate_Ok t t' : Target_validate t = Ok t' <-> t' = t /\ profiles_cover t.
Proof.
  unfold Target_validate, profiles_cover, ExtensionSet.intersects, ProfileSet.intersects.
  destruct (Z.eqb_spec (Z.land (tgt_extensions t) integer_only) 0),
    (Z.eqb_spec (Z.land (tgt_profiles t) ProfileSet.INTEGER) 0),
    (Z.eqb_spec (Z.land (tgt_extensions t) floating_only) 0),
    (Z.eqb_spec (Z.land (tgt_profiles t) ProfileSet.FLOATING_POINT) 0);
    cbn -[Z.land]; naive_solver.
Qed.

(** The target identity is a lossless and canonical encoding: a target
    round-trips through its twelve words exactly when its extensions are
    paired with their base profiles, and the words [from_identity] accepts are
    precisely the encodings of such targets. *)
Theorem target_identity_roundtrip :
  (forall t, target_ok t -> profiles_cover t -> from_identity (to_identity t) = Ok t) /\
  (forall t, target_ok t -> ~ profiles_cover t ->
     exists exts profiles, from_identity (to_identity t) = Err (ExtensionProfileMismatch exts profiles)) /\
  (forall words t, identity_ok words -> from_identity words = Ok t ->
     target_ok t /\ profiles_cover t /\ words = to_identity t).
Proof.
  split; [|split].
  - intros t Ht Hc. rewrite from_to_identity by done. by apply Target_validate_Ok.
  - intros t Ht Hc. rewrite from_to_identity by done.
    destruct (Target_validate t) as [t'|e] eqn:E.
    + by apply Target_validate_Ok in E as [_ ?].
    + unfold Target_validate in E. repeat case_match; simplify_eq; eauto.
  - intros words t Hw H. apply from_identity_Ok in H as (? & ? & Hv%Target_validate_Ok); naive_solver.
Qed.

Definition demo_target : Target :=
  {| tgt_version := TOSA_1_0; tgt_profiles := ProfileSet.ALL; tgt_level := Level8K;
     tgt_extensions := Z.lor ExtensionSet.INT4 ExtensionSet.CONTROL_FLOW |}.

Lemma target_identity_roundtrip_witness :
  from_identity (to_identity demo_target) = Ok demo_target.
Proof.
  destruct target_identity_roundtrip as [H _]. apply (H demo_target).
  - unfold target_ok, version_ok. vm_compute. intuition discriminate.
  - split; vm_compute; discriminate.
Defined.
