(* ===== verification/TosaSpecialize.v ===== *)
(** * Specialization keys and their cache

    crates/virtio-accel-tosa/src/specialize.rs: the bounded builder of cache
    keys and the least-recently-used cache of compiled specializations.
    Theorems: keys are injective in what was pushed, a refused push leaves the
    builder as it was, and the cache refines a bounded LRU list. *)

From Stdlib Require Import ZArith Lia.
From stdpp Require Import prelude list sorting.
From S2P Require Import Prelude TosaNumeric.

(** ** Keys *)

Definition SHAPE_TAG : Z := 0x5348415045000001.
Definition CTC_TAG : Z := 0x4354430000000002.

Inductive SpecializationError := ValuesOutOfOrder | TooManyWords | AllocationFailed.

#[global] Instance SpecializationError_eq_dec : EqDecision SpecializationError.
Proof. solve_decision. Defined.

Record SpecializationKey := {
  key_words : list Z;
  key_fingerprint : Z * Z;
}.

#[global] Instance SpecializationKey_eq_dec : EqDecision SpecializationKey.
Proof. solve_decision. Defined.

Record SpecializationKeyBuilder := {
  kb_words : list Z;
  kb_max_words : Z;
  kb_last_value : option Z;
}.

Definition KeyBuilder_new (max_words : Z) : SpecializationKeyBuilder :=
  {| kb_words := []; kb_max_words := max_words; kb_last_value := None |}.

Definition wrapping_mul (max a b : Z) : Z := (a * b) mod (max + 1).

(** [u64::rotate_left] *)
Definition rotate_left (x n : Z) : Z :=
  Z.lor (Z.shiftl x n mod 2 ^ 64) (Z.shiftr x (64 - n)).

Fixpoint fingerprint_loop (words : list Z) (first second : Z) : Z * Z :=
  match words with
  | [] => (first, second)
  | word :: words =>
      let first := Z.lxor first word in
      let first := wrapping_mul U64_MAX first 0x00000100000001b3 in
      let second := Z.lxor second (wrapping_add U64_MAX word (rotate_left first 17)) in
      let second := wrapping_mul U64_MAX (rotate_left second 27) 0x94d049bb133111eb in
      fingerprint_loop words first second
  end.

Definition fingerprint (words : list Z) : Z * Z :=
  let '(first, second) := fingerprint_loop words 0xcbf29ce484222325 0x9e3779b97f4a7c15 in
  (first, Z.lxor second (zlen words)).

(** [reserve]: [alloc] tells whether [try_reserve_exact] succeeds. *)
Definition kb_reserve (b : SpecializationKeyBuilder) (alloc : bool) (additional : Z)
    : result unit SpecializationError :=
  match checked_add USIZE_MAX (zlen (kb_words b)) additional with
  | None => Err TooManyWords
  | Some required =>
      if kb_max_words b <? required then Err TooManyWords
      else if alloc then Ok tt else Err AllocationFailed
  end.

Definition kb_push (word : Z) (b : SpecializationKeyBuilder) : SpecializationKeyBuilder :=
  {| kb_words := kb_words b ++ [word]; kb_max_words := kb_max_words b;
     kb_last_value := kb_last_value b |}.

Definition kb_extend (words : list Z) (b : SpecializationKeyBuilder) : SpecializationKeyBuilder :=
  {| kb_words := kb_words b ++ words; kb_max_words := kb_max_words b;
     kb_last_value := kb_last_value b |}.

Definition kb_set_last (v : Z) (b : SpecializationKeyBuilder) : SpecializationKeyBuilder :=
  {| kb_words := kb_words b; kb_max_words := kb_max_words b; kb_last_value := Some v |}.

(** The mutated builder is returned beside the result, also on the late error
    after the first two pushes. *)
Definition begin_value (b : SpecializationKeyBuilder) (alloc : bool)
    (value tag payload_len payload_words : Z)
    : result unit SpecializationError * SpecializationKeyBuilder :=
  if match kb_last_value b with Some prior => value <=? prior | None => false end
  then (Err ValuesOutOfOrder, b) else
  let? additional := ok_or (checked_add USIZE_MAX 3 payload_words) TooManyWords
    or (fun e => (Err e, b)) in
  let? _ := kb_reserve b alloc additional or (fun e => (Err e, b)) in
  let b := kb_push value (kb_push tag b) in
  let? len := ok_or (try_from U64_MAX payload_len) TooManyWords or (fun e => (Err e, b)) in
  (Ok tt, kb_set_last value (kb_push len b)).

Definition push_shape (b : SpecializationKeyBuilder) (alloc : bool) (value : Z)
    (dimensions : list Z) : result unit SpecializationError * SpecializationKeyBuilder :=
  match begin_value b alloc value SHAPE_TAG (zlen dimensions) (zlen dimensions) with
  | (Err e, b) => (Err e, b)
  | (Ok _, b) => (Ok tt, kb_extend dimensions b)
  end.

(** [u64::from_le_bytes] of a chunk copied over eight zero bytes. *)
Definition chunk_word (chunk : list Z) : Z := le_value (splice 0 chunk (replicate 8 0)).

(** [bytes.chunks(8)], each packed; [fuel] is the length of [bytes]. *)
Fixpoint chunk_words (fuel : nat) (bytes : list Z) : list Z :=
  match fuel, bytes with
  | S fuel, _ :: _ => chunk_word (take 8 bytes) :: chunk_words fuel (drop 8 bytes)
  | _, _ => []
  end.

Definition div_ceil (a b : Z) : Z := a / b + (if a mod b =? 0 then 0 else 1).

Definition push_ctc (b : SpecializationKeyBuilder) (alloc : bool) (value : Z) (bytes : list Z)
    : result unit SpecializationError * SpecializationKeyBuilder :=
  let payload_words := div_ceil (zlen bytes) 8 in
  match begin_value b alloc value CTC_TAG (zlen bytes) payload_words with
  | (Err e, b) => (Err e, b)
  | (Ok _, b) => (Ok tt, kb_extend (chunk_words (length bytes) bytes) b)
  end.

Definition kb_finish (b : SpecializationKeyBuilder) : SpecializationKey :=
  {| key_fingerprint := fingerprint (kb_words b); key_words := kb_words b |}.

(** ** The cache *)

Section Cache.
Context {V : Type}.

Record CacheEntry := {
  ce_key : SpecializationKey;
  ce_value : V;
  ce_last_used : Z;
}.

Record SpecializationCache := {
  sc_capacity : Z;
  sc_clock : Z;
  sc_entries : list CacheEntry;
}.

Definition Cache_new (capacity : Z) : SpecializationCache :=
  {| sc_capacity := capacity; sc_clock := 0; sc_entries := [] |}.

Definition Cache_len (c : SpecializationCache) : Z := zlen (sc_entries c).
Definition Cache_is_empty (c : SpecializationCache) : bool := Cache_len c =? 0.

(** The comparison of [position]. *)
Definition key_matches (key : SpecializationKey) (e : CacheEntry) : bool :=
  bool_decide (key_fingerprint (ce_key e) = key_fingerprint key) &&
  bool_decide (key_words (ce_key e) = key_words key).

Definition cache_position (c : SpecializationCache) (key : SpecializationKey) : option nat :=
  fst <$> list_find (fun e => key_matches key e = true) (sc_entries c).

Definition with_stamp (stamp : Z) (e : CacheEntry) : CacheEntry :=
  {| ce_key := ce_key e; ce_value := ce_value e; ce_last_used := stamp |}.
Definition with_value (v : V) (e : CacheEntry) : CacheEntry :=
  {| ce_key := ce_key e; ce_value := v; ce_last_used := ce_last_used e |}.

Definition older (a b : CacheEntry) : Prop := ce_last_used a <= ce_last_used b.
#[global] Instance older_dec : RelDecision older.
Proof. intros a b. unfold older. apply _. Defined.

(** [tick]: at the end of the [u64] clock the entries are sorted by age and
    renumbered. *)
Definition renumber (es : list CacheEntry) : list CacheEntry :=
  imap (fun i e => with_stamp (Z.of_nat i) e) (merge_sort older es).

Definition tick (c : SpecializationCache) : Z * SpecializationCache :=
  let c :=
    if sc_clock c =? U64_MAX then
      let es := renumber (sc_entries c) in
      {| sc_capacity := sc_capacity c; sc_clock := zlen es; sc_entries := es |}
    else c in
  (sc_clock c,
   {| sc_capacity := sc_capacity c; sc_clock := sc_clock c + 1; sc_entries := sc_entries c |}).

Definition with_entries (es : list CacheEntry) (c : SpecializationCache) : SpecializationCache :=
  {| sc_capacity := sc_capacity c; sc_clock := sc_clock c; sc_entries := es |}.

(** [get]: the position is looked up before the clock advances. *)
Definition cache_get (c : SpecializationCache) (key : SpecializationKey)
    : option V * SpecializationCache :=
  match cache_position c key with
  | None => (None, c)
  | Some index =>
      let '(stamp, c) := tick c in
      let c := with_entries (alter (with_stamp stamp) index (sc_entries c)) c in
      (ce_value <$> sc_entries c !! index, c)
  end.

(** [get_mut]: the caller's use of the exclusive reference is [f]. *)
Definition cache_get_mut (c : SpecializationCache) (key : SpecializationKey) (f : V -> V)
    : option V * SpecializationCache :=
  match cache_position c key with
  | None => (None, c)
  | Some index =>
      let '(stamp, c) := tick c in
      let c := with_entries (alter (with_stamp stamp) index (sc_entries c)) c in
      (ce_value <$> sc_entries c !! index,
       with_entries (alter (fun e => with_value (f (ce_value e)) e) index (sc_entries c)) c)
  end.

(** [iter().enumerate().min_by_key(last_used)]: the first of the least. *)
Fixpoint min_entry (es : list CacheEntry) (i : nat) (best : nat * Z) : nat * Z :=
  match es with
  | [] => best
  | e :: es =>
      min_entry es (S i) (if ce_last_used e <? snd best then (i, ce_last_used e) else best)
  end.

Definition min_index (es : list CacheEntry) : option nat :=
  match es with
  | [] => None
  | e :: es => Some (fst (min_entry es 1 (0%nat, ce_last_used e)))
  end.

(** [Vec::swap_remove] *)
Definition swap_remove (index : nat) (es : list CacheEntry) : option (CacheEntry * list CacheEntry) :=
  removed ← es !! index;
  last_ ← last es;
  Some (removed, take (length es - 1) (<[index := last_]> es)).

Inductive InsertOutcome :=
  | Inserted (displaced : option V)
  | InsertError (key : SpecializationKey) (value : V)
  | InsertPanic.

Definition cache_insert (c : SpecializationCache) (alloc : bool) (key : SpecializationKey) (value : V)
    : InsertOutcome * SpecializationCache :=
  let '(stamp, c) := tick c in
  match cache_position c key with
  | Some index =>
      let es := alter (with_stamp stamp) index (sc_entries c) in
      (Inserted (ce_value <$> es !! index), with_entries (alter (with_value value) index es) c)
  | None =>
      let entry := {| ce_key := key; ce_value := value; ce_last_used := stamp |} in
      if zlen (sc_entries c) =? sc_capacity c then
        match min_index (sc_entries c) ≫= fun index => swap_remove index (sc_entries c) with
        | Some (evicted, es) => (Inserted (Some (ce_value evicted)), with_entries (es ++ [entry]) c)
        | None => (InsertPanic, c)
        end
      else if alloc then (Inserted None, with_entries (sc_entries c ++ [entry]) c)
      else (InsertError key value, c)
  end.

End Cache.
Arguments CacheEntry : clear implicits.
Arguments SpecializationCache : clear implicits.
Arguments InsertOutcome : clear implicits.

(** * Specialization keys are canonical

    The words of a finished key determine the sequence of values pushed, so a
    comparison of words never confuses two specializations, and a refused push
    leaves the builder unchanged. *)

(** One pushed value. *)
Inductive Item :=
  | Shape (value : Z) (dimensions : list Z)
  | Ctc (value : Z) (bytes : list Z).

Definition item_value (i : Item) : Z := match i with Shape v _ | Ctc v _ => v end.

(** Byte payloads are bytes; lengths fit [usize]. *)
Definition item_ok (i : Item) : Prop :=
  match i with
  | Shape _ ds => zlen ds <= USIZE_MAX
  | Ctc _ bs => is_bytes bs /\ zlen bs <= USIZE_MAX
  end.

Definition push_item (alloc : bool) (b : SpecializationKeyBuilder) (i : Item)
    : result unit SpecializationError * SpecializationKeyBuilder :=
  match i with
  | Shape v ds => push_shape b alloc v ds
  | Ctc v bs => push_ctc b alloc v bs
  end.

(** A builder fed with a sequence of pushes, all accepted. *)
Fixpoint push_all (b : SpecializationKeyBuilder) (items : list Item) : option SpecializationKeyBuilder :=
  match items with
  | [] => Some b
  | i :: items =>
      match push_item true b i with
      | (Ok _, b) => push_all b items
      | (Err _, _) => None
      end
  end.

(** The words one item contributes. *)
Definition item_words (i : Item) : list Z :=
  match i with
  | Shape v ds => SHAPE_TAG :: v :: zlen ds :: ds
  | Ctc v bs => CTC_TAG :: v :: zlen bs :: chunk_words (length bs) bs
  end.

Definition items_words (items : list Item) : list Z := concat (item_words <$> items).

(** ** Packed bytes *)

Lemma le_value_app a b : le_value (a ++ b) = le_value a + 256 ^ zlen a * le_value b.
Proof.
  unfold zlen. induction a as [|x a IH]; simpl; [change (256 ^ 0) with 1; lia|].
  rewrite IH. replace (Z.of_nat (S (length a))) with (Z.succ (Z.of_nat (length a))) by lia.
  rewrite Z.pow_succ_r by lia. lia.
Qed.

Lemma le_value_zeros n : le_value (replicate n 0) = 0.
Proof. induction n as [|n IH]; simpl; [done|]. by rewrite IH. Qed.

Lemma chunk_word_value chunk : (length chunk <= 8)%nat -> chunk_word chunk = le_value chunk.
Proof.
  intros H. unfold chunk_word, splice.
  change (take (Z.to_nat 0) (replicate 8 0)) with (@nil Z).
  change (Z.to_nat 0 + length chunk)%nat with (length chunk). rewrite app_nil_l.
  rewrite drop_replicate, le_value_app, le_value_zeros. lia.
Qed.

Lemma le_value_inj a b : length a = length b -> is_bytes a -> is_bytes b ->
  le_value a = le_value b -> a = b.
Proof.
  intros Hlen Ha Hb E. by rewrite <- (le_bytes_value a Ha), <- (le_bytes_value b Hb), Hlen, E.
Qed.

Lemma chunk_words_inj fuel a b :
  length a = length b -> (length a <= fuel)%nat -> is_bytes a -> is_bytes b ->
  chunk_words fuel a = chunk_words fuel b -> a = b.
Proof.
  revert a b. induction fuel as [|fuel IH]; intros a b Hlen Hf Ha Hb E.
  { destruct a, b; simpl in *; done || lia. }
  destruct a as [|x a], b as [|y b]; try done. simpl in E.
  rewrite !chunk_word_value in E by (simpl; rewrite length_take; lia).
  injection E as E1 E2.
  rewrite <- (take_drop 8 (x :: a)), <- (take_drop 8 (y :: b)). f_equal.
  - apply le_value_inj; try done.
    + rewrite !length_take. by rewrite Hlen.
    + by apply Forall_take.
    + by apply Forall_take.
  - apply IH; try done.
    + rewrite !length_drop. by rewrite Hlen.
    + rewrite length_drop. simpl in *. lia.
    + by apply Forall_drop.
    + by apply Forall_drop.
Qed.

(** The word count of a packed payload depends on its length only. *)
Lemma length_chunk_words fuel a b :
  length a = length b -> length (chunk_words fuel a) = length (chunk_words fuel b).
Proof.
  revert a b. induction fuel as [|fuel IH]; intros a b Hlen; [done|].
  destruct a, b; try done. simpl. f_equal. apply IH. rewrite !length_drop. simpl in Hlen. lia.
Qed.

(** ** Items form a prefix code *)

Lemma item_words_prefix i j k l : item_ok i -> item_ok j ->
  item_words i ++ k = item_words j ++ l -> i = j /\ k = l.
Proof.
  intros Hi Hj E. destruct i as [v ds|v bs], j as [w es|w cs]; simpl in E.
  - injection E as -> El E. apply app_inj_1 in E as [-> ->]; [done|]. unfold zlen in El. lia.
  - exfalso. injection E as E _. unfold SHAPE_TAG, CTC_TAG in E. lia.
  - exfalso. injection E as E _. unfold SHAPE_TAG, CTC_TAG in E. lia.
  - injection E as -> El E. assert (length bs = length cs) as Hlen by (unfold zlen in El; lia).
    rewrite <- Hlen in E. apply app_inj_1 in E as [E ->].
    + destruct Hi, Hj. apply (chunk_words_inj (length bs)) in E; try done. by subst.
    + by apply length_chunk_words.
Qed.

Lemma items_words_inj xs ys : Forall item_ok xs -> Forall item_ok ys ->
  items_words xs = items_words ys -> xs = ys.
Proof.
  revert ys. induction xs as [|i xs IH]; intros [|j ys] Hi Hj E; try done.
  - by destruct j.
  - by destruct i.
  - apply Forall_cons in Hi as [Hi His]. apply Forall_cons in Hj as [Hj Hjs].
    apply item_words_prefix in E as [-> E]; [|done..]. f_equal. by apply IH.
Qed.

(** ** What a push does *)

Definition accepts_value (b : SpecializationKeyBuilder) (v : Z) : Prop :=
  match kb_last_value b with Some prior => prior < v | None => True end.

Lemma begin_value_cases b alloc v tag len words : len <= U64_MAX ->
  match begin_value b alloc v tag len words with
  | (Ok _, b') =>
      b' = {| kb_words := kb_words b ++ [tag; v; len]; kb_max_words := kb_max_words b;
              kb_last_value := Some v |} /\
      accepts_value b v /\ zlen (kb_words b) + (3 + words) <= kb_max_words b
  | (Err e, b') => b' = b
  end.
Proof.
  intros Hlen. unfold begin_value, accepts_value.
  destruct (match kb_last_value b with Some prior => v <=? prior | None => false end) eqn:El; [done|].
  destruct (checked_add _ 3 words) as [n|] eqn:En; simpl; [|done].
  unfold kb_reserve. destruct (checked_add _ _ n) as [m|] eqn:Em; simpl; [|done].
  apply checked_add_Some in En as [-> _]. apply checked_add_Some in Em as [-> _].
  destruct (Z.ltb_spec (kb_max_words b) (zlen (kb_words b) + (3 + words))); [done|].
  destruct alloc; [|done]. unfold try_from. zcmp.
  split; [|split; [|done]].
  - unfold kb_set_last, kb_push. simpl. by rewrite <- !app_assoc.
  - destruct (kb_last_value b); [|done]. bool_to_prop. lia.
Qed.

Lemma length_chunk_words_ceil fuel bs : (length bs <= fuel)%nat ->
  zlen (chunk_words fuel bs) = div_ceil (zlen bs) 8.
Proof.
  revert bs. induction fuel as [|fuel IH]; intros [|x bs] H; try done; [simpl in H; lia|].
  change (chunk_words (S fuel) (x :: bs))
    with (chunk_word (take 8 (x :: bs)) :: chunk_words fuel (drop 8 (x :: bs))).
  specialize (IH (drop 8 (x :: bs))). rewrite length_drop in IH. simpl length in IH, H.
  specialize (IH ltac:(lia)). unfold zlen in *. rewrite length_drop in IH. simpl length in *.
  rewrite Nat2Z.inj_succ, IH. set (n := length bs) in *. clear.
  unfold div_ceil. 
  destruct (Z.eqb_spec (Z.of_nat (S n) mod 8) 0) as [E|E],
    (Z.eqb_spec (Z.of_nat (S n - 8) mod 8) 0) as [F|F];
    pose proof (Z.div_mod (Z.of_nat (S n)) 8); pose proof (Z.div_mod (Z.of_nat (S n - 8)) 8);
    pose proof (Z.mod_pos_bound (Z.of_nat (S n)) 8); pose proof (Z.mod_pos_bound (Z.of_nat (S n - 8)) 8);
    lia.
Qed.

Lemma push_item_cases alloc b i : item_ok i ->
  match push_item alloc b i with
  | (Ok _, b') =>
      b' = {| kb_words := kb_words b ++ item_words i; kb_max_words := kb_max_words b;
              kb_last_value := Some (item_value i) |} /\
      accepts_value b (item_value i) /\ zlen (kb_words b ++ item_words i) <= kb_max_words b
  | (Err e, b') => b' = b
  end.
Proof.
  intros Hi. destruct i as [v ds|v bs]; simpl in Hi |- *.
  - pose proof (begin_value_cases b alloc v SHAPE_TAG (zlen ds) (zlen ds) Hi) as H.
    unfold push_shape. destruct (begin_value _ _ _ _ _ _) as [[[]|e] b']; [|done].
    destruct H as (-> & ? & ?). unfold kb_extend. simpl. rewrite <- app_assoc.
    split; [done|]. split; [done|]. rewrite zlen_app. unfold zlen in *. simpl. lia.
  - destruct Hi as [_ Hi].
    pose proof (begin_value_cases b alloc v CTC_TAG (zlen bs) (div_ceil (zlen bs) 8) Hi) as H.
    unfold push_ctc. destruct (begin_value _ _ _ _ _ _) as [[[]|e] b']; [|done].
    destruct H as (-> & ? & Hn). unfold kb_extend. simpl. rewrite <- app_assoc.
    split; [done|]. split; [done|]. rewrite zlen_app.
    pose proof (length_chunk_words_ceil (length bs) bs (le_n _)). unfold zlen in *. simpl. lia.
Qed.

Lemma push_all_words items b b' : Forall item_ok items -> push_all b items = Some b' ->
  kb_words b' = kb_words b ++ items_words items /\ kb_max_words b' = kb_max_words b /\
  (zlen (kb_words b) <= kb_max_words b -> zlen (kb_words b') <= kb_max_words b').
Proof.
  revert b. induction items as [|i items IH]; intros b Hok; simpl.
  { intros [= ->]. unfold items_words. simpl. by rewrite app_nil_r. }
  apply Forall_cons in Hok as [Hi Hok]. pose proof (push_item_cases true b i Hi) as H.
  destruct (push_item true b i) as [[[]|e] b1]; [|done]. destruct H as (-> & _ & Hle).
  intros E. apply IH in E as (-> & -> & Hn); [|done]. simpl in *.
  split; [by rewrite <- app_assoc|]. split; [done|]. intros _. by apply Hn.
Qed.

(** ** Theorems *)

(** Specialization keys are exact: two keys built from accepted pushes
    compare equal (by fingerprint and words, as the cache compares) exactly
    when the pushed values, kinds, dimensions and bytes are the same. *)
Theorem keys_canonical xs ys m n b c :
  Forall item_ok xs -> Forall item_ok ys ->
  push_all (KeyBuilder_new m) xs = Some b -> push_all (KeyBuilder_new n) ys = Some c ->
  (key_fingerprint (kb_finish b) = key_fingerprint (kb_finish c) /\
   key_words (kb_finish b) = key_words (kb_finish c)) <-> xs = ys.
Proof.
  intros Hi Hj Hb Hc. apply push_all_words in Hb as (Eb & _); [|done].
  apply push_all_words in Hc as (Ec & _); [|done]. simpl in *. rewrite Eb, Ec.
  split; [intros [_ E]; by apply items_words_inj|by intros ->].
Qed.

Lemma keys_canonical_witness :
  exists b c,
    push_all (KeyBuilder_new 16) [Shape 1 [1; 2; 3]; Ctc 2 [1; 2; 3; 4; 5; 6; 7; 8; 9]] = Some b /\
    push_all (KeyBuilder_new 16) [Shape 1 [1; 2; 3]; Ctc 2 [1; 2; 3; 4; 5; 6; 7; 8; 0]] = Some c /\
    ~ (key_fingerprint (kb_finish b) = key_fingerprint (kb_finish c) /\
       key_words (kb_finish b) = key_words (kb_finish c)).
Proof.
  eexists _, _. split; [vm_compute; reflexivity|]. split; [vm_compute; reflexivity|].
  rewrite (keys_canonical [Shape 1 [1; 2; 3]; Ctc 2 [1; 2; 3; 4; 5; 6; 7; 8; 9]]
             [Shape 1 [1; 2; 3]; Ctc 2 [1; 2; 3; 4; 5; 6; 7; 8; 0]] 16 16).
  - discriminate.
  - repeat constructor; vm_compute; discriminate.
  - repeat constructor; vm_compute; discriminate.
  - vm_compute. reflexivity.
  - vm_compute. reflexivity.
Defined.

(** A push is all or nothing: when it is refused (out of order, over the
    word limit, or without memory) the builder is exactly what it was, and
    when it is accepted the value is above every earlier one and the words,
    with this item's appended, stay within the limit. *)
Theorem push_is_atomic alloc b i : item_ok i ->
  match push_item alloc b i with
  | (Err _, b') => b' = b
  | (Ok _, b') =>
      kb_words b' = kb_words b ++ item_words i /\ zlen (kb_words b') <= kb_max_words b' /\
      accepts_value b (item_value i) /\ kb_last_value b' = Some (item_value i)
  end.
Proof.
  intros Hi. pose proof (push_item_cases alloc b i Hi) as H.
  destruct (push_item alloc b i) as [[[]|e] b']; [|done]. destruct H as (-> & ? & ?). done.
Qed.

Lemma push_is_atomic_witness :
  (push_item true (KeyBuilder_new 4) (Shape 3 [1; 2])).2 = KeyBuilder_new 4.
Proof.
  pose proof (push_is_atomic true (KeyBuilder_new 4) (Shape 3 [1; 2]) ltac:(vm_compute; discriminate)) as H.
  exact H.
Defined.

(** * The specialization cache refines a bounded LRU list

    The specification keeps the cached pairs in order of use, the most recent
    first.  The cache keeps them in a vector with time stamps; the two are
    related by sorting the vector by stamp. *)

(** ** The specification *)

Section Lru.
Context {V : Type}.
Abbreviation Lru := (list (SpecializationKey * V)).

Definition lru_find (k : SpecializationKey) (l : Lru) : option V :=
  (fun r => snd (snd r)) <$> list_find (fun p => fst p = k) l.

Definition lru_remove (k : SpecializationKey) (l : Lru) : Lru :=
  filter (fun p => fst p <> k) l.

Definition lru_get (k : SpecializationKey) (l : Lru) : option V * Lru :=
  match lru_find k l with
  | Some v => (Some v, (k, v) :: lru_remove k l)
  | None => (None, l)
  end.

Definition lru_update (k : SpecializationKey) (f : V -> V) (l : Lru) : option V * Lru :=
  match lru_find k l with
  | Some v => (Some v, (k, f v) :: lru_remove k l)
  | None => (None, l)
  end.

(** A full list gives up its last, least recently used, pair. *)
Definition lru_insert (capacity : Z) (alloc : bool) (k : SpecializationKey) (v : V) (l : Lru)
    : InsertOutcome V * Lru :=
  match lru_find k l with
  | Some old => (Inserted (Some old), (k, v) :: lru_remove k l)
  | None =>
      if zlen l =? capacity then
        match last l with
        | Some p => (Inserted (Some (snd p)), (k, v) :: take (length l - 1) l)
        | None => (InsertPanic, l)
        end
      else if alloc then (Inserted None, (k, v) :: l)
      else (InsertError k v, l)
  end.

(** ** The relation *)

Definition before (a b : CacheEntry V) : Prop := ce_last_used a < ce_last_used b.

#[local] Instance before_antisymm : AntiSymm (=) before.
Proof. intros a b. unfold before. lia. Qed.

#[local] Instance older_total : Total (older (V := V)).
Proof. intros a b. unfold older. lia. Qed.
#[local] Instance older_transitive : Transitive (older (V := V)).
Proof. intros a b d. unfold older. lia. Qed.

Definition pair_of (e : CacheEntry V) : SpecializationKey * V := (ce_key e, ce_value e).

(** [es] is the vector in order of age, the oldest first. *)
Definition by_age (c : SpecializationCache V) (es : list (CacheEntry V)) : Prop :=
  es ≡ₚ sc_entries c /\ StronglySorted before es.

Definition cache_lru (c : SpecializationCache V) (l : Lru) : Prop :=
  exists es, by_age c es /\ l = pair_of <$> reverse es.

Record cache_ok (c : SpecializationCache V) : Prop := {
  co_keys : NoDup (ce_key <$> sc_entries c);
  co_stamps : Forall (fun e => 0 <= ce_last_used e < sc_clock c) (sc_entries c);
  co_clock : 0 <= sc_clock c <= U64_MAX;
  co_capacity : 1 <= sc_capacity c < U64_MAX;
  co_len : zlen (sc_entries c) <= sc_capacity c;
}.

(** ** The pieces *)

Lemma key_matches_spec key (e : CacheEntry V) : key_matches key e = true <-> ce_key e = key.
Proof.
  unfold key_matches. rewrite andb_true_iff, !bool_decide_eq_true.
  destruct (ce_key e), key; simpl. naive_solver.
Qed.

Lemma cache_position_Some (c : SpecializationCache V) key i :
  cache_position c key = Some i ->
  exists a e b, sc_entries c = a ++ e :: b /\ length a = i /\ ce_key e = key.
Proof.
  unfold cache_position. intros ([i' e] & H & ->)%fmap_Some. simpl. rename i' into i.
  apply list_find_Some in H as (Hi & Hk & _). exists (take i (sc_entries c)), e, (drop (S i) (sc_entries c)).
  split; [by rewrite take_drop_middle|]. apply key_matches_spec in Hk.
  split; [|done]. apply lookup_lt_Some in Hi. rewrite length_take. lia.
Qed.

Lemma cache_position_None (c : SpecializationCache V) key :
  cache_position c key = None <-> key ∉ (ce_key <$> sc_entries c).
Proof.
  unfold cache_position. rewrite fmap_None, list_find_None, Forall_forall, list_elem_of_fmap.
  setoid_rewrite key_matches_spec. naive_solver.
Qed.

Lemma alter_at (f : CacheEntry V -> CacheEntry V) a e b :
  alter f (length a) (a ++ e :: b) = a ++ f e :: b.
Proof. replace (length a) with (length a + 0)%nat by lia. by rewrite alter_app_r. Qed.

Lemma lookup_at (a : list (CacheEntry V)) e b : (a ++ e :: b) !! length a = Some e.
Proof. by rewrite list_lookup_middle. Qed.

(** Ages are unique, so sorting has one answer. *)
Lemma merge_sort_by_age c es : by_age c es -> merge_sort older (sc_entries c) = es.
Proof.
  intros [Hp Hs]. apply (StronglySorted_unique_strong older).
  - intros a b Ha Hb Hab Hba. destruct (list_elem_of_lookup_1 es a) as [i Hi].
    { by rewrite Hp, <- (merge_sort_Permutation older (sc_entries c)). }
    destruct (list_elem_of_lookup_1 es b) as [j Hj]; [done|].
    destruct (decide (i = j)) as [->|Hne]; [congruence|]. exfalso.
    unfold older in *.
    assert (forall x y (u v : CacheEntry V), (x < y)%nat -> es !! x = Some u -> es !! y = Some v ->
              ce_last_used u < ce_last_used v) as Hlt.
    { intros x y u v Hxy Hu Hv. apply (StronglySorted_app_1_elem_of before (take (S x) es) (drop (S x) es)).
      - by rewrite take_drop.
      - apply list_elem_of_lookup. exists x. rewrite lookup_take_lt by lia. done.
      - apply list_elem_of_lookup. exists (y - S x)%nat. rewrite lookup_drop.
        by replace (S x + (y - S x))%nat with y by lia. }
    destruct (Nat.lt_total i j) as [H|[H|H]]; [|done|].
    + specialize (Hlt _ _ _ _ H Hi Hj). lia.
    + specialize (Hlt _ _ _ _ H Hj Hi). lia.
  - apply (StronglySorted_merge_sort older).
  - clear Hp. induction Hs as [|e es Hs IH Hall]; constructor; [done|].
    eapply Forall_impl; [exact Hall|]. unfold before, older. lia.
  - by rewrite merge_sort_Permutation.
Qed.

(** Renumbering keeps the order and the pairs. *)
Lemma renumber_from (n : Z) (es : list (CacheEntry V)) :
  let ns := imap (fun i e => with_stamp (n + Z.of_nat i) e) es in
  StronglySorted before ns /\ Forall (fun e => n <= ce_last_used e < n + zlen es) ns /\
  pair_of <$> ns = pair_of <$> es.
Proof.
  revert n. induction es as [|e es IH]; intros n; simpl; [repeat constructor|].
  destruct (IH (n + 1)) as (Hs & Hb & Hp).
  assert (imap ((fun i e => with_stamp (n + Z.of_nat i) e) ∘ S) es =
          imap (fun i (e : CacheEntry V) => with_stamp (n + 1 + Z.of_nat i) e) es) as ->.
  { apply imap_ext. intros i x _. simpl. f_equal. lia. }
  split; [|split].
  - constructor; [done|]. eapply Forall_impl; [exact Hb|]. unfold before. simpl. lia.
  - unfold zlen in *. constructor; simpl; [lia|].
    eapply Forall_impl; [exact Hb|]. simpl. lia.
  - f_equal. exact Hp.
Qed.

Lemma keys_of_pairs (es : list (CacheEntry V)) : ce_key <$> es = fst <$> (pair_of <$> es).
Proof. by rewrite <- list_fmap_compose. Qed.

(** The state between a tick and the use of its stamp. *)
Record ticked (stamp : Z) (c : SpecializationCache V) (es : list (CacheEntry V)) : Prop := {
  tk_age : by_age c es;
  tk_keys : NoDup (ce_key <$> es);
  tk_stamps : Forall (fun e => 0 <= ce_last_used e < stamp) es;
  tk_clock : sc_clock c = stamp + 1 /\ 0 <= stamp < U64_MAX;
  tk_capacity : 1 <= sc_capacity c < U64_MAX;
  tk_len : zlen es <= sc_capacity c;
}.

Lemma tick_spec c es :
  cache_ok c -> by_age c es ->
  exists es', ticked (tick c).1 (tick c).2 es' /\ pair_of <$> es' = pair_of <$> es /\
    sc_capacity (tick c).2 = sc_capacity c /\
    (sc_clock c < U64_MAX -> sc_entries (tick c).2 = sc_entries c).
Proof.
  intros [Hk Hst Hcl Hcap Hlen] Hage. pose proof Hage as [Hp Hs]. unfold tick.
  assert (zlen es <= sc_capacity c) as Hlen' by (unfold zlen in *; by rewrite Hp).
  destruct (Z.eqb_spec (sc_clock c) U64_MAX) as [E|E]; simpl.
  - unfold renumber. rewrite (merge_sort_by_age c es) by done.
    destruct (renumber_from 0 es) as (Hs' & Hb' & Hp').
    set (ns := imap _ es) in *.
    change (imap (fun (i : nat) e => with_stamp (Z.of_nat i) e) es) with ns.
    assert (zlen ns = zlen es) as Hz by (unfold zlen, ns; by rewrite length_imap).
    exists ns. split; [|split; [done|split; [done|lia]]]. constructor; simpl; try lia.
    + by split.
    + rewrite keys_of_pairs, Hp', <- keys_of_pairs. by rewrite Hp.
    + rewrite Hz. done.
    + pose proof (zlen_nonneg ns). lia.
  - exists es. split; [|done]. constructor; simpl; try lia.
    + by split.
    + by rewrite Hp.
    + rewrite Hp. done.
Qed.

(** ** The specification, on a split of the pairs *)

Lemma lru_find_split (k : SpecializationKey) (v : V) (a b : Lru) :
  k ∉ a.*1 -> lru_find k (a ++ (k, v) :: b) = Some v.
Proof.
  intros Ha. unfold lru_find. rewrite list_find_app_r; simpl.
  - rewrite decide_True by done. done.
  - apply list_find_None, Forall_forall. intros p Hp Hk. apply Ha. rewrite <- Hk.
    apply list_elem_of_fmap. eauto.
Qed.

Lemma lru_find_None (k : SpecializationKey) (l : Lru) : k ∉ l.*1 -> lru_find k l = None.
Proof.
  intros Hk. unfold lru_find. apply fmap_None, list_find_None, Forall_forall.
  intros p Hp E. apply Hk. rewrite <- E. apply list_elem_of_fmap. eauto.
Qed.

Lemma lru_remove_notin (k : SpecializationKey) (l : Lru) : k ∉ l.*1 -> lru_remove k l = l.
Proof.
  unfold lru_remove. induction l as [|p l IH]; [done|]. rewrite fmap_cons, not_elem_of_cons.
  intros [Hp Hl]. rewrite filter_cons, decide_True by congruence. by rewrite IH.
Qed.

Lemma lru_remove_split (k : SpecializationKey) (v : V) (a b : Lru) :
  k ∉ a.*1 -> k ∉ b.*1 -> lru_remove k (a ++ (k, v) :: b) = a ++ b.
Proof.
  intros Ha Hb. unfold lru_remove. rewrite filter_app, filter_cons.
  rewrite decide_False by (simpl; tauto).
  fold (lru_remove k a) (lru_remove k b). by rewrite !lru_remove_notin.
Qed.

(** ** Operations in the order of age *)

(** Replace one entry by a newer one, or add a newer one. *)
Lemma by_age_snoc (es : list (CacheEntry V)) e :
  StronglySorted before es -> Forall (fun x => ce_last_used x < ce_last_used e) es ->
  StronglySorted before (es ++ [e]).
Proof.
  intros Hs Hall. apply StronglySorted_app; split_and!; [|done|repeat constructor].
  intros x y Hx Hy%list_elem_of_singleton. subst y. rewrite Forall_forall in Hall. by apply Hall.
Qed.

Lemma by_age_remove (a b : list (CacheEntry V)) e :
  StronglySorted before (a ++ e :: b) -> StronglySorted before (a ++ b).
Proof.
  intros H. apply StronglySorted_app in H as (Hab & Ha & Hb).
  apply StronglySorted_app. split_and!; [|done|by apply StronglySorted_inv in Hb as []].
  intros x y Hx Hy. apply Hab; [done|]. by right.
Qed.

(** What a use of the entry with key [k] leaves behind: it is the newest. *)
Lemma touch_spec stamp c es a e b (f : CacheEntry V -> CacheEntry V) :
  ticked stamp c es -> sc_entries c = a ++ e :: b ->
  ce_key (f e) = ce_key e -> ce_last_used (f e) = stamp ->
  let c' := with_entries (a ++ f e :: b) c in
  exists l1 l2, es = l1 ++ e :: l2 /\ (ce_key e ∉ (ce_key <$> l1)) /\ (ce_key e ∉ (ce_key <$> l2)) /\
    cache_ok c' /\ by_age c' ((l1 ++ l2) ++ [f e]).
Proof.
  intros [[Hp Hs] Hk Hst [Hcl Hr] Hcap Hlen] E Hf1 Hf2 c'.
  assert (e ∈ es) as (l1 & l2 & ->)%list_elem_of_split.
  { rewrite Hp, E. apply elem_of_app. right. by left. }
  exists l1, l2. split; [done|].
  rewrite fmap_app, fmap_cons, NoDup_app, NoDup_cons in Hk.
  destruct Hk as (Hk1 & Hk12 & Hk2 & Hk3).
  assert (ce_key e ∉ ce_key <$> l1) as He1 by (intros H; apply (Hk12 _ H); by left).
  split; [done|]. split; [done|].
  assert (l1 ++ l2 ≡ₚ a ++ b) as Hperm.
  { apply (Permutation_cons_inv (a := e)). rewrite !Permutation_middle. by rewrite Hp, E. }
  assert ((l1 ++ l2) ++ [f e] ≡ₚ a ++ f e :: b) as Hperm'.
  { rewrite <- (Permutation_middle a b), <- Hperm. by rewrite Permutation_app_comm. }
  assert (Forall (fun x => 0 <= ce_last_used x < stamp) (l1 ++ l2)) as Hst'.
  { apply Forall_app in Hst as [H1 H2]. apply Forall_cons in H2 as [_ H2]. by apply Forall_app. }
  split.
  - constructor; simpl; try lia.
    + rewrite <- Hperm'. rewrite !fmap_app. simpl. rewrite Hf1.
      rewrite <- app_assoc. apply NoDup_app. split; [done|]. split.
      * intros x Hx Hx'. apply elem_of_app in Hx' as [Hx'|Hx'].
        -- apply (Hk12 x Hx). by right.
        -- apply list_elem_of_singleton in Hx' as ->. done.
      * apply NoDup_app. split; [done|]. split; [|apply NoDup_singleton].
        intros x Hx ->%list_elem_of_singleton. done.
    + rewrite <- Hperm'. apply Forall_app. split.
      * eapply Forall_impl; [exact Hst'|]. simpl. lia.
      * constructor; [|done]. lia.
    + revert Hlen. unfold zlen. rewrite E || idtac. rewrite !length_app. simpl. intros.
      assert (length (l1 ++ l2) = length (a ++ b)) as Hl by (by rewrite Hperm).
      rewrite !length_app in Hl. lia.
  - split; [done|]. apply by_age_snoc; [by apply by_age_remove in Hs|].
    eapply Forall_impl; [exact Hst'|]. simpl. rewrite Hf2. lia.
Qed.

(** The pairs, most recent first, of a split of the ages. *)
Lemma pairs_split (l1 l2 : list (CacheEntry V)) e :
  pair_of <$> reverse (l1 ++ e :: l2) =
  (pair_of <$> reverse l2) ++ (ce_key e, ce_value e) :: (pair_of <$> reverse l1).
Proof. by rewrite reverse_app, reverse_cons, !fmap_app, <- app_assoc. Qed.

Lemma keys_reverse (k : SpecializationKey) (es : list (CacheEntry V)) :
  k ∉ (pair_of <$> reverse es).*1 <-> k ∉ (ce_key <$> es).
Proof.
  rewrite <- keys_of_pairs. rewrite !list_elem_of_fmap. setoid_rewrite elem_of_reverse. done.
Qed.

Lemma pairs_reverse (es es' : list (CacheEntry V)) :
  pair_of <$> es = pair_of <$> es' -> pair_of <$> reverse es = pair_of <$> reverse es'.
Proof. rewrite !fmap_reverse. by intros ->. Qed.

(** A use of entry [e] is the specification's move to the front. *)
Lemma touch_refines stamp c es a e b f v l :
  ticked stamp c es -> sc_entries c = a ++ e :: b ->
  ce_key (f e) = ce_key e -> ce_last_used (f e) = stamp -> ce_value (f e) = v ->
  l = pair_of <$> reverse es ->
  let c' := with_entries (a ++ f e :: b) c in
  lru_find (ce_key e) l = Some (ce_value e) /\ cache_ok c' /\
  cache_lru c' ((ce_key e, v) :: lru_remove (ce_key e) l).
Proof.
  intros Ht E H1 H2 H3 -> c'.
  destruct (touch_spec _ _ _ _ _ _ f Ht E H1 H2) as (l1 & l2 & -> & Hk1 & Hk2 & Hok & Hage).
  rewrite pairs_split. split; [|split; [done|]].
  - apply lru_find_split. by apply keys_reverse.
  - rewrite lru_remove_split by (by apply keys_reverse).
    exists ((l1 ++ l2) ++ [f e]). split; [done|].
    rewrite reverse_snoc, reverse_app, fmap_cons, fmap_app. f_equal. unfold pair_of. by rewrite H1, H3.
Qed.

Lemma get_miss c l key : cache_lru c l -> cache_position c key = None -> lru_find key l = None.
Proof.
  intros (es & [Hp _] & ->) H. apply lru_find_None, keys_reverse. rewrite Hp.
  by apply cache_position_None.
Qed.


(** ** Eviction *)

Lemma min_entry_spec (es pre : list (CacheEntry V)) best e :
  pre !! best.1 = Some e -> ce_last_used e = best.2 ->
  Forall (fun x => best.2 <= ce_last_used x) pre ->
  exists e', (pre ++ es) !! (min_entry es (length pre) best).1 = Some e' /\
    Forall (fun x => ce_last_used e' <= ce_last_used x) (pre ++ es).
Proof.
  revert pre best e. induction es as [|x es IH]; intros pre best e Hl He Hall; simpl.
  - rewrite app_nil_r. exists e. by rewrite He.
  - specialize (IH (pre ++ [x])). rewrite <- app_assoc, length_app, Nat.add_comm in IH. simpl in IH.
    destruct (Z.ltb_spec (ce_last_used x) best.2).
    + apply (IH (length pre, ce_last_used x) x); simpl; [by rewrite list_lookup_middle|done|].
      apply Forall_app. split; [|by constructor].
      eapply Forall_impl; [exact Hall|]. simpl. lia.
    + apply (IH best e); [by apply lookup_app_l_Some|done|].
      apply Forall_app. split; [done|]. by constructor.
Qed.

Lemma min_index_spec (es : list (CacheEntry V)) : es <> [] ->
  exists i e, min_index es = Some i /\ es !! i = Some e /\
    Forall (fun x => ce_last_used e <= ce_last_used x) es.
Proof.
  destruct es as [|x es]; [done|]. intros _. simpl.
  destruct (min_entry_spec es [x] (0%nat, ce_last_used x) x) as (e & He & Hall); [done..|by constructor|].
  eauto.
Qed.

Lemma swap_remove_spec (es : list (CacheEntry V)) i e : es !! i = Some e ->
  exists rest, swap_remove i es = Some (e, rest) /\ es ≡ₚ e :: rest.
Proof.
  intros H. pose proof (take_drop_middle es i e H) as Hes.
  set (a := take i es) in *. set (b := drop (S i) es) in *.
  assert (i = length a) as Hi.
  { apply lookup_lt_Some in H. unfold a. rewrite length_take. lia. }
  clearbody a b. subst i es. unfold swap_remove. rewrite lookup_at. simpl.
  destruct b as [|z b' _] using rev_ind.
  - rewrite last_snoc. simpl. eexists. split; [done|].
    rewrite list_insert_id by apply lookup_at. rewrite length_app. simpl.
    replace (length a + 1 - 1)%nat with (length a) by lia.
    rewrite take_app_length. by rewrite Permutation_app_comm.
  - assert (last (a ++ e :: b' ++ [z]) = Some z) as -> by (by rewrite app_comm_cons, app_assoc, last_snoc).
    simpl. eexists. split; [done|].
    rewrite (insert_app_r_alt a) by lia. rewrite Nat.sub_diag. simpl.
    rewrite length_app. simpl. rewrite length_app. simpl.
    replace (length a + S (length b' + 1) - 1)%nat with (length (a ++ z :: b'))
      by (rewrite length_app; simpl; lia).
    replace (a ++ z :: b' ++ [z]) with ((a ++ z :: b') ++ [z]) by (by rewrite <- app_assoc).
    rewrite take_app_length. rewrite <- Permutation_middle. f_equiv. f_equiv.
    by rewrite Permutation_app_comm.
Qed.

(** Appending an entry with the new stamp to what is kept. *)
Lemma push_newest stamp c es t entries0 entry :
  ticked stamp c es -> StronglySorted before t -> NoDup (ce_key <$> t) ->
  Forall (fun e => 0 <= ce_last_used e < stamp) t -> zlen t < sc_capacity c ->
  entries0 ≡ₚ t -> ce_key entry ∉ (ce_key <$> t) -> ce_last_used entry = stamp ->
  let c' := with_entries (entries0 ++ [entry]) c in
  cache_ok c' /\ cache_lru c' (pair_of entry :: (pair_of <$> reverse t)).
Proof.
  intros [_ _ _ [Hcl Hr] Hcap _] Hs Hk Hst Hlen Hp Hne He c'.
  split.
  - constructor; simpl; try lia.
    + rewrite Hp, fmap_app. apply NoDup_app. split; [done|]. split; [|apply NoDup_singleton].
      intros x Hx ->%list_elem_of_singleton. done.
    + apply Forall_app. split; [|constructor; [lia|done]].
      rewrite Hp. eapply Forall_impl; [exact Hst|]. simpl. lia.
    + rewrite zlen_app. unfold zlen in *. rewrite Hp. simpl. lia.
  - exists (t ++ [entry]). split; [split|].
    + simpl. by rewrite Hp.
    + apply by_age_snoc; [done|]. eapply Forall_impl; [exact Hst|]. simpl. lia.
    + by rewrite reverse_snoc, fmap_cons.
Qed.

(** The oldest entry is the head in order of age. *)
Lemma oldest_is_head (es : list (CacheEntry V)) h t e :
  StronglySorted before (h :: t) -> es ≡ₚ h :: t -> e ∈ es ->
  Forall (fun x => ce_last_used e <= ce_last_used x) es -> e = h.
Proof.
  intros Hs Hp He Hall. rewrite Hp in He. apply elem_of_cons in He as [->|He]; [done|].
  apply StronglySorted_inv in Hs as [_ Hh]. rewrite Forall_forall in Hh. specialize (Hh _ He).
  rewrite Hp in Hall. apply Forall_cons in Hall as [Hle _]. unfold before in Hh. lia.
Qed.

Lemma evict_spec stamp c es : ticked stamp c es -> es <> [] ->
  exists h t rest, es = h :: t /\ rest ≡ₚ t /\
    min_index (sc_entries c) ≫= (fun i => swap_remove i (sc_entries c)) = Some (h, rest).
Proof.
  intros [[Hp Hs] _ _ _ _ _] Hne. destruct es as [|h t]; [done|].
  assert (sc_entries c <> []) as Hne'.
  { intros E. rewrite E in Hp. by apply Permutation_nil_r in Hp. }
  destruct (min_index_spec _ Hne') as (i & e & Hi & He & Hall). rewrite Hi. simpl.
  destruct (swap_remove_spec _ _ _ He) as (rest & Hr & Hpr).
  assert (e = h) as ->.
  { eapply oldest_is_head; [exact Hs|symmetry; exact Hp|by eapply list_elem_of_lookup_2|done]. }
  exists h, t, rest. split; [done|]. split; [|done].
  apply (Permutation_cons_inv (a := h)). by rewrite <- Hpr, Hp.
Qed.

(** ** Each operation refines the specification *)

Lemma cache_get_refines c l key :
  cache_ok c -> cache_lru c l -> sc_clock c < U64_MAX ->
  (cache_get c key).1 = (lru_get key l).1 /\
  cache_ok (cache_get c key).2 /\ cache_lru (cache_get c key).2 (lru_get key l).2.
Proof.
  intros Hok Hl Hc. unfold cache_get, lru_get. destruct (cache_position c key) as [i|] eqn:Hi.
  2: by rewrite (get_miss c l key).
  apply cache_position_Some in Hi as (a & e & b & He & <- & <-).
  destruct Hl as (es & Hage & ->).
  destruct (tick_spec c es Hok Hage) as (es' & Ht & Hp & _ & Hsame).
  destruct (tick c) as [stamp c1]. simpl in *. rewrite Hsame in * by done. rewrite He.
  rewrite alter_at, lookup_at. simpl.
  destruct (touch_refines stamp c1 es' a e b (with_stamp stamp) (ce_value e) (pair_of <$> reverse es))
    as (-> & H1 & H2); try done.
  - by rewrite Hsame.
  - symmetry. by apply pairs_reverse.
Qed.

Lemma cache_get_mut_refines c l key f :
  cache_ok c -> cache_lru c l -> sc_clock c < U64_MAX ->
  (cache_get_mut c key f).1 = (lru_update key f l).1 /\
  cache_ok (cache_get_mut c key f).2 /\ cache_lru (cache_get_mut c key f).2 (lru_update key f l).2.
Proof.
  intros Hok Hl Hc. unfold cache_get_mut, lru_update. destruct (cache_position c key) as [i|] eqn:Hi.
  2: by rewrite (get_miss c l key).
  apply cache_position_Some in Hi as (a & e & b & He & <- & <-).
  destruct Hl as (es & Hage & ->).
  destruct (tick_spec c es Hok Hage) as (es' & Ht & Hp & _ & Hsame).
  destruct (tick c) as [stamp c1]. simpl in *. rewrite Hsame in * by done. rewrite He.
  rewrite !alter_at, lookup_at. simpl.
  destruct (touch_refines stamp c1 es' a e b (fun e => with_value (f (ce_value e)) (with_stamp stamp e))
    (f (ce_value e)) (pair_of <$> reverse es)) as (-> & H1 & H2); try done.
  - by rewrite Hsame.
  - symmetry. by apply pairs_reverse.
Qed.

Lemma cache_insert_refines c l alloc key value :
  cache_ok c -> cache_lru c l ->
  (cache_insert c alloc key value).1 = (lru_insert (sc_capacity c) alloc key value l).1 /\
  cache_ok (cache_insert c alloc key value).2 /\
  cache_lru (cache_insert c alloc key value).2 (lru_insert (sc_capacity c) alloc key value l).2.
Proof.
  intros Hok (es0 & Hage & ->). unfold cache_insert, lru_insert.
  destruct (tick_spec c es0 Hok Hage) as (es & Ht & Hp & Hcap & _).
  apply pairs_reverse in Hp as <-. destruct (tick c) as [stamp c1]. simpl in *. rewrite <- Hcap.
  destruct (cache_position c1 key) as [i|] eqn:Hi.
  { apply cache_position_Some in Hi as (a & e & b & He & <- & <-). rewrite He, !alter_at, lookup_at.
    destruct (touch_refines stamp c1 es a e b (fun e => with_value value (with_stamp stamp e))
      value (pair_of <$> reverse es)) as (-> & H1 & H2); done. }
  pose proof Ht as [[Hpe Hs] Hk Hst Hcl Hc Hlen].
  assert (key ∉ (ce_key <$> es)) as Hnew by (rewrite Hpe; by apply cache_position_None).
  rewrite lru_find_None by (by apply keys_reverse).
  assert (zlen (pair_of <$> reverse es) = zlen (sc_entries c1)) as ->.
  { unfold zlen. rewrite length_fmap, length_reverse. by rewrite Hpe. }
  assert (zlen es = zlen (sc_entries c1)) as Hz by (unfold zlen; by rewrite Hpe).
  destruct (Z.eqb_spec (zlen (sc_entries c1)) (sc_capacity c1)) as [Hfull|Hroom].
  - destruct (evict_spec stamp c1 es Ht) as (h & t & rest & -> & Hr & ->).
    { intros ->. unfold zlen in *. simpl in *. lia. }
    rewrite reverse_cons, fmap_app. change (pair_of <$> [h]) with [pair_of h]. rewrite last_snoc. simpl. split; [done|].
    apply StronglySorted_inv in Hs as [Hs _]. apply NoDup_cons in Hk as [_ Hk].
    apply Forall_cons in Hst as [_ Hst]. apply not_elem_of_cons in Hnew as [_ Hnew].
    destruct (push_newest stamp c1 (h :: t) t rest
      {| ce_key := key; ce_value := value; ce_last_used := stamp |}) as [H1 H2]; try done.
    { unfold zlen in *. simpl in *. lia. }
    split; [done|]. rewrite length_app, Nat.add_sub, take_app_length. exact H2.
  - destruct alloc; simpl; (split; [done|]).
    + apply (push_newest stamp c1 es es (sc_entries c1)
        {| ce_key := key; ce_value := value; ce_last_used := stamp |}); try done. lia.
    + split; [|by exists es]. constructor; try lia.
      * by rewrite <- Hpe.
      * rewrite <- Hpe. eapply Forall_impl; [exact Hst|]. simpl. lia.
Qed.
End Lru.

(** ** Sequences of operations *)

Section Traces.
Context {V : Type}.

Inductive CacheOp :=
  | OpGet (k : SpecializationKey)
  | OpGetMut (k : SpecializationKey) (f : V -> V)
  | OpInsert (alloc : bool) (k : SpecializationKey) (v : V).

Inductive CacheOut :=
  | Got (v : option V)
  | Stored (o : InsertOutcome V).

Definition cache_step (c : SpecializationCache V) (o : CacheOp) : CacheOut * SpecializationCache V :=
  match o with
  | OpGet k => let '(r, c) := cache_get c k in (Got r, c)
  | OpGetMut k f => let '(r, c) := cache_get_mut c k f in (Got r, c)
  | OpInsert alloc k v => let '(r, c) := cache_insert c alloc k v in (Stored r, c)
  end.

Definition lru_step (capacity : Z) (l : list (SpecializationKey * V)) (o : CacheOp)
    : CacheOut * list (SpecializationKey * V) :=
  match o with
  | OpGet k => let '(r, l) := lru_get k l in (Got r, l)
  | OpGetMut k f => let '(r, l) := lru_update k f l in (Got r, l)
  | OpInsert alloc k v => let '(r, l) := lru_insert capacity alloc k v l in (Stored r, l)
  end.

Fixpoint outputs {S} (step : S -> CacheOp -> CacheOut * S) (s : S) (ops : list CacheOp) : list CacheOut :=
  match ops with
  | [] => []
  | o :: ops => let '(r, s) := step s o in r :: outputs step s ops
  end.

Lemma tick_frame (c : SpecializationCache V) :
  sc_capacity (tick c).2 = sc_capacity c /\
  (sc_clock c < U64_MAX -> sc_clock (tick c).2 = sc_clock c + 1).
Proof. unfold tick. destruct (Z.eqb_spec (sc_clock c) U64_MAX); simpl; lia. Qed.

Lemma cache_step_frame (c : SpecializationCache V) o : sc_clock c < U64_MAX ->
  sc_capacity (cache_step c o).2 = sc_capacity c /\ sc_clock (cache_step c o).2 <= sc_clock c + 1.
Proof.
  intros Hc. destruct (tick_frame c) as [H1 H2]. specialize (H2 Hc).
  destruct o; simpl; unfold cache_get, cache_get_mut, cache_insert;
    destruct (tick c) as [stamp c1]; repeat case_match; simplify_eq; simpl in *; lia.
Qed.

Lemma cache_step_refines c l o :
  cache_ok c -> cache_lru c l -> sc_clock c < U64_MAX ->
  (cache_step c o).1 = (lru_step (sc_capacity c) l o).1 /\
  cache_ok (cache_step c o).2 /\ cache_lru (cache_step c o).2 (lru_step (sc_capacity c) l o).2.
Proof.
  intros Hok Hl Hc. destruct o as [k|k f|alloc k v]; simpl.
  - pose proof (cache_get_refines c l k Hok Hl Hc) as H.
    destruct (cache_get c k), (lru_get k l); simpl in *. naive_solver.
  - pose proof (cache_get_mut_refines c l k f Hok Hl Hc) as H.
    destruct (cache_get_mut c k f), (lru_update k f l); simpl in *. naive_solver.
  - pose proof (cache_insert_refines c l alloc k v Hok Hl) as H.
    destruct (cache_insert c alloc k v), (lru_insert (sc_capacity c) alloc k v l); simpl in *.
    naive_solver.
Qed.

Lemma outputs_refine ops c l :
  cache_ok c -> cache_lru c l -> sc_clock c + zlen ops <= U64_MAX ->
  outputs cache_step c ops = outputs (lru_step (sc_capacity c)) l ops.
Proof.
  revert c l. induction ops as [|o ops IH]; intros c l Hok Hl Hc; [done|].
  unfold zlen in Hc. simpl in Hc.
  assert (sc_clock c < U64_MAX) as Hlt by lia.
  destruct (cache_step_refines c l o Hok Hl Hlt) as (H1 & H2 & H3).
  destruct (cache_step_frame c o Hlt) as [Hcap Hclk]. simpl.
  destruct (cache_step c o) as [r c'], (lru_step (sc_capacity c) l o) as [r' l']. simpl in *.
  subst r'. f_equal. rewrite <- Hcap. apply IH; try done. unfold zlen. lia.
Qed.

Lemma Cache_new_ok capacity : 1 <= capacity < U64_MAX ->
  cache_ok (Cache_new (V := V) capacity) /\ cache_lru (Cache_new (V := V) capacity) [].
Proof.
  intros H. split.
  - constructor; simpl; try constructor; try lia. unfold zlen. simpl. lia.
  - exists []. split; [|done]. split; [done|constructor].
Qed.

End Traces.
Arguments CacheOp : clear implicits.
Arguments CacheOut : clear implicits.

(** ** Theorems *)

(** C32: the cache is a bounded exact-key LRU: over any sequence of lookups,
    in-place updates and insertions (at most 2^64 - 1, the range of its
    clock) it returns what the LRU list returns, so hits, replaced values,
    evicted least-recently-used values and failed reservations agree. *)
Theorem cache_refines_lru {V} capacity (ops : list (CacheOp V)) :
  1 <= capacity < U64_MAX -> zlen ops <= U64_MAX ->
  outputs cache_step (Cache_new capacity) ops = outputs (lru_step capacity) [] ops.
Proof.
  intros Hc Hn. destruct (Cache_new_ok (V := V) capacity Hc) as [H1 H2].
  exact (outputs_refine ops (Cache_new capacity) [] H1 H2 Hn).
Qed.

Definition demo_key (v : Z) : SpecializationKey := kb_finish (kb_extend [v] (KeyBuilder_new 8)).

Lemma cache_refines_lru_witness :
  outputs cache_step (Cache_new 2)
    [OpInsert true (demo_key 1) 10; OpInsert true (demo_key 2) 20; OpGet (demo_key 1);
     OpInsert true (demo_key 3) 30; OpGet (demo_key 2); OpGet (demo_key 1)] =
  [Stored (Inserted None); Stored (Inserted None); Got (Some 10);
   Stored (Inserted (Some 20)); Got None; Got (Some 10)].
Proof. rewrite cache_refines_lru; [vm_compute; reflexivity|lia|vm_compute; discriminate]. Defined.

(** ** The end of the clock *)

Section Wrap.
Context {V : Type} (capacity : Z) (k1 k2 : SpecializationKey) (v1 v2 : V).
Hypothesis Hcapacity : 2 <= capacity.
Hypothesis Hkeys : k1 <> k2.

(** Two entries, the first one used last. *)
Definition two_entries (clock stamp1 stamp2 : Z) : SpecializationCache V :=
  {| sc_capacity := capacity; sc_clock := clock;
     sc_entries := [{| ce_key := k1; ce_value := v1; ce_last_used := stamp1 |};
                    {| ce_key := k2; ce_value := v2; ce_last_used := stamp2 |}] |}.

Lemma position_first clock stamp1 stamp2 : cache_position (two_entries clock stamp1 stamp2) k1 = Some 0%nat.
Proof.
  unfold cache_position. cbn [sc_entries two_entries list_find]. rewrite decide_True; [done|]. by apply key_matches_spec.
Qed.

Lemma get_before_wrap clock stamp1 stamp2 : clock < U64_MAX ->
  cache_step (two_entries clock stamp1 stamp2) (OpGet k1) = (Got (Some v1), two_entries (clock + 1) clock stamp2).
Proof.
  intros Hc. cbn [cache_step]. unfold cache_get. rewrite position_first. unfold tick. cbn [sc_clock two_entries].
  by rewrite (proj2 (Z.eqb_neq clock U64_MAX)) by lia.
Qed.

(** [tick] sorts the second entry to the front, where the index found before
    points. *)
Lemma get_at_wrap stamp1 stamp2 : stamp2 < stamp1 ->
  (cache_step (two_entries U64_MAX stamp1 stamp2) (OpGet k1)).1 = Got (Some v2).
Proof.
  intros Hs. cbn [cache_step]. unfold cache_get. rewrite position_first. unfold tick. cbn [sc_clock two_entries].
  rewrite Z.eqb_refl. unfold renumber, merge_sort. cbn [sc_entries two_entries merge_sort_aux merge_list_to_stack
    merge_stack list_merge]. unfold older. cbn [ce_last_used].
  rewrite decide_False by lia. done.
Qed.

Lemma gets_until_wrap n clock stamp1 stamp2 : clock + Z.of_nat n = U64_MAX -> stamp2 < stamp1 -> stamp2 < clock ->
  last (outputs cache_step (two_entries clock stamp1 stamp2) (replicate (S n) (OpGet k1))) = Some (Got (Some v2)).
Proof.
  revert clock stamp1. induction n as [|n IH]; intros clock stamp1 Hn Hs Hc.
  - assert (clock = U64_MAX) as -> by lia. cbn [replicate outputs].
    pose proof (get_at_wrap stamp1 stamp2 Hs) as Hw. destruct (cache_step _ _) as [r c]. simpl in Hw. by subst r.
  - rewrite replicate_S. cbn [outputs]. rewrite get_before_wrap by lia.
    rewrite last_cons, (IH (clock + 1) clock) by lia. done.
Qed.

Lemma lru_gets n : last (outputs (lru_step capacity) [(k1, v1); (k2, v2)] (replicate (S n) (OpGet k1))) = Some (Got (Some v1)).
Proof.
  assert (lru_step capacity [(k1, v1); (k2, v2)] (OpGet k1) = (Got (Some v1), [(k1, v1); (k2, v2)])) as Hstep.
  { cbn [lru_step]. unfold lru_get, lru_find, lru_remove. cbn [list_find]. rewrite decide_True by done.
    by rewrite filter_cons_False, filter_cons_True by (simpl; naive_solver). }
  induction n as [|n IH]; rewrite replicate_S; cbn [outputs]; rewrite Hstep; [done|]. by rewrite last_cons, IH.
Qed.

(** The cache and the list after the two insertions. *)
Lemma insert_both ops : outputs cache_step (Cache_new capacity) (OpInsert true k1 v1 :: OpInsert true k2 v2 :: ops) =
  Stored (Inserted None) :: Stored (Inserted None) :: outputs cache_step (two_entries 2 0 1) ops.
Proof.
  cbn [outputs]. assert (cache_step (Cache_new capacity) (OpInsert true k1 v1) =
    (Stored (Inserted None), {| sc_capacity := capacity; sc_clock := 1;
       sc_entries := [{| ce_key := k1; ce_value := v1; ce_last_used := 0 |}] |})) as ->.
  { cbn [cache_step]. unfold cache_insert.
    change (tick (Cache_new capacity)) with (0, {| sc_capacity := capacity; sc_clock := 1; sc_entries := @nil (@CacheEntry V) |}).
    unfold cache_position, zlen. cbn [sc_entries sc_capacity list_find fmap option_fmap option_map length].
    by rewrite (proj2 (Z.eqb_neq (Z.of_nat 0) capacity)) by lia. }
  cbn [cache_step]. unfold cache_insert.
  change (tick {| sc_capacity := capacity; sc_clock := 1;
    sc_entries := [{| ce_key := k1; ce_value := v1; ce_last_used := 0 |}] |}) with
    (1, {| sc_capacity := capacity; sc_clock := 2;
      sc_entries := [{| ce_key := k1; ce_value := v1; ce_last_used := 0 |}] |}).
  unfold cache_position. cbn [sc_entries list_find]. rewrite decide_False by (rewrite key_matches_spec; simpl; congruence).
  cbn [fmap option_fmap option_map prod_map sc_entries sc_capacity]. unfold zlen. simpl length.
  by rewrite (proj2 (Z.eqb_neq (Z.of_nat 1) capacity)) by lia.
Qed.

Lemma lru_insert_both ops : outputs (lru_step capacity) [] (OpInsert true k1 v1 :: OpInsert true k2 v2 :: ops) =
  Stored (Inserted None) :: Stored (Inserted None) :: outputs (lru_step capacity) [(k2, v2); (k1, v1)] ops.
Proof.
  cbn [outputs]. assert (lru_step capacity [] (OpInsert true k1 v1) = (Stored (Inserted None), [(k1, v1)])) as ->.
  { cbn [lru_step]. unfold lru_insert, lru_find, zlen. cbn [list_find fmap option_fmap option_map length].
    by rewrite (proj2 (Z.eqb_neq (Z.of_nat 0) capacity)) by lia. }
  cbn [lru_step]. unfold lru_insert, lru_find, zlen. cbn [list_find]. rewrite decide_False by (simpl; naive_solver).
  cbn [fmap option_fmap option_map length]. by rewrite (proj2 (Z.eqb_neq (Z.of_nat 1) capacity)) by lia.
Qed.

Lemma lru_get_behind :
  lru_step capacity [(k2, v2); (k1, v1)] (OpGet k1) = (Got (Some v1), [(k1, v1); (k2, v2)]).
Proof.
  cbn [lru_step]. unfold lru_get, lru_find, lru_remove. cbn [list_find].
  rewrite decide_False, decide_True by (simpl; naive_solver).
  by rewrite filter_cons_True, filter_cons_False by (simpl; naive_solver).
Qed.

(** C33: the bound of the refinement is sharp, and past it the cache answers
    with the value of another key.  For any two keys and values and a capacity
    of two or more, the two insertions and lookups of the first key until the
    clock is used up make [2^64] calls, one more than the refinement allows; the
    last lookup of the first key returns the value of the second one, where the
    list returns the first value.  The lookup takes the position of the key
    before [tick] sorts the entries. *)
Theorem clock_wrap_swaps_keys :
  let ops := OpInsert true k1 v1 :: OpInsert true k2 v2 :: replicate (Z.to_nat (U64_MAX - 1)) (OpGet k1) in
  zlen ops = U64_MAX + 1 /\
  last (outputs cache_step (Cache_new capacity) ops) = Some (Got (Some v2)) /\
  last (outputs (lru_step capacity) [] ops) = Some (Got (Some v1)).
Proof.
  assert (exists n, Z.to_nat (U64_MAX - 1) = S (S n) /\ Z.of_nat n = U64_MAX - 3) as (n & -> & Hn).
  { exists (Z.to_nat (U64_MAX - 3)). split; [|lia]. rewrite <- !Z2Nat.inj_succ by lia. f_equal. }
  intros ops. unfold ops. split; [unfold zlen; simpl length; rewrite length_replicate; lia|].
  rewrite insert_both, lru_insert_both, (replicate_S (S n)). cbn [outputs].
  rewrite get_before_wrap, lru_get_behind by lia. rewrite !last_cons, lru_gets.
  by rewrite (gets_until_wrap n (2 + 1) 2 1) by lia.
Qed.
End Wrap.

Lemma clock_wrap_swaps_keys_witness :
  let ops := OpInsert true (demo_key 1) 10 :: OpInsert true (demo_key 2) 20 ::
    replicate (Z.to_nat (U64_MAX - 1)) (OpGet (demo_key 1)) in
  last (outputs cache_step (Cache_new 2) ops) = Some (Got (Some 20)).
Proof.
  exact (proj1 (proj2 (clock_wrap_swaps_keys 2 (demo_key 1) (demo_key 2) 10 20 ltac:(lia)
    ltac:(apply (bool_decide_unpack _); vm_compute; exact I)))).
Defined.
