(* ===== verification/TosaWire.v ===== *)
(** * The serialized TOSA graph

    The tables of crates/virtio-accel-tosa/schema/tosa.fbs as the generated
    accessors present them: an optional field or vector is an [option].  A
    string is its UTF-8 bytes, ordered byte by byte as Rust orders [str].  The
    file also holds the slice routines of the standard library the validators
    use on names: sorting, the scan of adjacent pairs and binary search. *)

From Stdlib Require Import ZArith Lia.
From stdpp Require Import prelude list sorting.
From S2P Require Import Prelude TosaTypes.

(** ** Strings *)

Abbreviation str := (list Z).

(** [<str as Ord>::cmp] *)
Fixpoint str_compare (a b : str) : comparison :=
  match a, b with
  | [], [] => Eq
  | [], _ :: _ => Lt
  | _ :: _, [] => Gt
  | x :: a, y :: b => match Z.compare x y with Eq => str_compare a b | c => c end
  end.

Definition str_le (a b : str) : Prop := str_compare a b <> Gt.
#[global] Instance str_le_dec : RelDecision str_le.
Proof. intros a b. unfold str_le. apply _. Defined.

(** [names.sort_unstable()]: equal strings are indistinguishable. *)
Definition sort_names (names : list str) : list str := merge_sort str_le names.

(** [names.windows(2).any(|names| names[0] == names[1])] *)
Fixpoint adjacent_equal (names : list str) : bool :=
  match names with
  | a :: ((b :: _) as rest) => bool_decide (a = b) || adjacent_equal rest
  | _ => false
  end.

(** [<[T]>::binary_search]: halve the candidate window, then compare once. *)
Fixpoint search_window (fuel : nat) (names : list str) (target : str) (base size : nat) : nat :=
  match fuel with
  | O => base
  | S fuel =>
      if (size <=? 1)%nat then base else
      let half := (size / 2)%nat in
      let mid := (base + half)%nat in
      let base := match str_compare (nth mid names []) target with Gt => base | _ => mid end in
      search_window fuel names target base (size - half)
  end.

Definition binary_search (names : list str) (target : str) : result nat nat :=
  match names with
  | [] => Err 0%nat
  | _ :: _ =>
      let base := search_window (length names) names target 0 (length names) in
      match str_compare (nth base names []) target with
      | Eq => Ok base
      | Lt => Err (S base)
      | Gt => Err base
      end
  end.

(** ** Tables *)

(** The tables of the [Attribute] union that have fields; [OtherAttribute]
    stands for the operators whose table is empty. *)
Inductive WireAttribute :=
  | ArgMaxAttribute (axis nan_mode : Z)
  | AvgPool2dAttribute (kernel stride pad : option (list Z)) (acc_type : Z)
  | Conv2dAttribute (pad stride dilation : option (list Z)) (local_bound : bool) (acc_type : Z)
  | Conv3dAttribute (pad stride dilation : option (list Z)) (local_bound : bool) (acc_type : Z)
  | DepthwiseConv2dAttribute (pad stride dilation : option (list Z)) (local_bound : bool) (acc_type : Z)
  | FFT2dAttribute (inverse local_bound : bool)
  | MaxPool2dAttribute (kernel stride pad : option (list Z)) (nan_mode : Z)
  | RFFT2dAttribute (local_bound : bool)
  | TransposeConv2dAttribute (out_pad stride : option (list Z)) (local_bound : bool) (acc_type : Z)
  | ClampAttribute (min_val max_val : option (list Z)) (nan_mode : Z)
  | ArithmeticRightShiftAttribute (round : bool)
  | MaximumAttribute (nan_mode : Z)
  | MinimumAttribute (nan_mode : Z)
  | ReduceAllAttribute (axis : Z)
  | ReduceAnyAttribute (axis : Z)
  | ReduceMaxAttribute (axis nan_mode : Z)
  | ReduceMinAttribute (axis nan_mode : Z)
  | ReduceProductAttribute (axis : Z)
  | ReduceSumAttribute (axis : Z)
  | ConcatAttribute (axis : Z)
  | ReverseAttribute (axis : Z)
  | TransposeAttribute (perms : option (list Z))
  | ResizeAttribute (mode : Z)
  | RescaleAttribute (scale32 : bool) (rounding_mode : Z)
      (per_channel input_unsigned output_unsigned : bool)
  | CustomAttribute (operator_name domain_name : option str) (implementation_attrs : option (list Z))
  | CondIfAttribute (then_graph else_graph : option str)
  | WhileLoopAttribute (cond_graph body_graph : option str)
  | OtherAttribute (tag : Z).

(** The union tag of a table. *)
Definition attribute_tag (a : WireAttribute) : Z :=
  match a with
  | ArgMaxAttribute _ _ => 1
  | AvgPool2dAttribute _ _ _ _ => 2
  | Conv2dAttribute _ _ _ _ _ => 3
  | Conv3dAttribute _ _ _ _ _ => 4
  | DepthwiseConv2dAttribute _ _ _ _ _ => 5
  | FFT2dAttribute _ _ => 6
  | MaxPool2dAttribute _ _ _ _ => 8
  | RFFT2dAttribute _ => 9
  | TransposeConv2dAttribute _ _ _ _ => 10
  | ClampAttribute _ _ _ => 11
  | ArithmeticRightShiftAttribute _ => 16
  | MaximumAttribute _ => 26
  | MinimumAttribute _ => 27
  | ReduceAllAttribute _ => 49
  | ReduceAnyAttribute _ => 50
  | ReduceMaxAttribute _ _ => 51
  | ReduceMinAttribute _ _ => 52
  | ReduceProductAttribute _ => 53
  | ReduceSumAttribute _ => 54
  | ConcatAttribute _ => 55
  | ReverseAttribute _ => 58
  | TransposeAttribute _ => 61
  | ResizeAttribute _ => 64
  | RescaleAttribute _ _ _ _ _ => 66
  | CustomAttribute _ _ _ => 69
  | CondIfAttribute _ _ => 70
  | WhileLoopAttribute _ _ => 71
  | OtherAttribute tag => tag
  end.

(** The tags of the tables with fields. *)
Definition fielded_tags : list Z :=
  [1; 2; 3; 4; 5; 6; 8; 9; 10; 11; 16; 26; 27; 49; 50; 51; 52; 53; 54; 55; 58; 61; 64; 66; 69; 70; 71].

Record WireTensor := {
  wt_name : option str;
  wt_shape : option (list Z);
  wt_type : Z;
  wt_data : option (list Z);
  wt_variable : bool;
  wt_is_unranked : bool;
  wt_variable_name : option str;
  wt_offset : Z;
  wt_size : Z;
}.

Record WireShape := {
  ws_name : option str;
  ws_rank : Z;
  ws_data : option (list Z);
}.

Record WireOperator := {
  wo_op : Z;
  wo_attribute_type : Z;
  wo_attribute : option WireAttribute;
  wo_inputs : option (list str);
  wo_outputs : option (list str);
  wo_location : option (option str);
}.

Record WireBlock := {
  wb_name : option str;
  wb_operators : option (list WireOperator);
  wb_tensors : option (list WireTensor);
  wb_shapes : option (list WireShape);
  wb_inputs : option (list str);
  wb_outputs : option (list str);
}.

Record WireRegion := {
  wr_name : option str;
  wr_blocks : option (list WireBlock);
}.

Record WireVersion := { wv_major : Z; wv_minor : Z; wv_patch : Z; wv_draft : bool }.

Record WireGraph := {
  wg_version : WireVersion;
  wg_regions : option (list WireRegion);
}.

(** An absent vector reads as empty. *)
Definition items {A} (v : option (list A)) : list A := default [] v.

(** What the FlatBuffers verifier guarantees of a verified operator: a present
    union table has the type its tag announces, and the tables without fields
    are those of the other tags. *)
Definition union_ok (o : WireOperator) : Prop :=
  match wo_attribute o with
  | Some (OtherAttribute tag) => tag = wo_attribute_type o /\ tag ∉ fielded_tags
  | Some a => attribute_tag a = wo_attribute_type o
  | None => True
  end.

(** Every field within the width the schema declares. *)
Definition tensor_typed (t : WireTensor) : Prop :=
  is_u32 (wt_type t) /\ is_u64 (wt_offset t) /\ is_u64 (wt_size t) /\
  zlen (items (wt_data t)) <= USIZE_MAX /\ zlen (items (wt_shape t)) <= USIZE_MAX.

Definition shape_typed (s : WireShape) : Prop :=
  is_u32 (ws_rank s) /\ is_bytes (items (ws_data s)) /\ zlen (items (ws_data s)) <= USIZE_MAX.

(** ** The order of strings *)

Lemma str_compare_eq a b : str_compare a b = Eq <-> a = b.
Proof.
  revert b. induction a as [|x a IH]; intros [|y b]; simpl; try done.
  destruct (Z.compare_spec x y); [rewrite IH; naive_solver|..]; split; try done; intros [=]; lia.
Qed.

Lemma str_compare_antisym a b : str_compare b a = CompOpp (str_compare a b).
Proof.
  revert b. induction a as [|x a IH]; intros [|y b]; simpl; try done.
  rewrite (Z.compare_antisym x y). destruct (Z.compare x y); simpl; auto.
Qed.

Lemma str_le_alt a b : str_le a b <-> str_compare b a <> Lt.
Proof. unfold str_le. rewrite (str_compare_antisym a b). by destruct (str_compare a b). Qed.

#[global] Instance str_le_total : Total str_le.
Proof.
  intros a b. unfold str_le. rewrite (str_compare_antisym a b).
  destruct (str_compare a b); simpl; auto.
Qed.

#[global] Instance str_le_antisymm : AntiSymm (=) str_le.
Proof.
  intros a b. unfold str_le. rewrite (str_compare_antisym a b).
  destruct (str_compare a b) eqn:E; simpl; try done. by apply str_compare_eq in E.
Qed.

#[global] Instance str_le_trans : Transitive str_le.
Proof.
  intros a. induction a as [|x a IH]; intros [|y b] [|z c]; unfold str_le in *; simpl; try done.
  destruct (Z.compare_spec x y), (Z.compare_spec y z), (Z.compare_spec x z); subst; try done; try lia.
  apply IH.
Qed.

(** ** Sorted names *)

Lemma sort_names_perm names : sort_names names ≡ₚ names.
Proof. apply merge_sort_Permutation. Qed.

Lemma sort_names_sorted names : StronglySorted str_le (sort_names names).
Proof. apply StronglySorted_merge_sort; apply _. Qed.

Lemma elem_of_sort_names x names : x ∈ sort_names names <-> x ∈ names.
Proof. by rewrite sort_names_perm. Qed.

Lemma adjacent_equal_NoDup names :
  StronglySorted str_le names -> adjacent_equal names = false <-> NoDup names.
Proof.
  induction names as [|a names IH]; intros Hs; [split; [constructor|done]|].
  apply StronglySorted_inv in Hs as [Hs Ha]. specialize (IH Hs).
  destruct names as [|b rest]; [split; [intros; apply NoDup_singleton|done]|].
  change (adjacent_equal (a :: b :: rest)) with (bool_decide (a = b) || adjacent_equal (b :: rest)).
  rewrite orb_false_iff, bool_decide_eq_false, IH, (NoDup_cons a).
  split; intros [H1 H2]; (split; [|done]).
  - intros [->|Hin]%elem_of_cons; [done|].
    apply H1. apply Forall_cons in Ha as [Hab _]. apply (anti_symm str_le); [done|].
    apply StronglySorted_inv in Hs as [_ Hb]. rewrite Forall_forall in Hb. by apply Hb.
  - intros ->. apply H1. by left.
Qed.

(** Duplicates are found whatever order the names came in. *)
Lemma sorted_duplicates names : adjacent_equal (sort_names names) = false <-> NoDup names.
Proof.
  rewrite adjacent_equal_NoDup by apply sort_names_sorted. by rewrite sort_names_perm.
Qed.

(** ** Binary search *)

Lemma sorted_lookup names i j a b : StronglySorted str_le names ->
  (i <= j)%nat -> names !! i = Some a -> names !! j = Some b -> str_le a b.
Proof.
  intros Hs Hij Ha Hb. destruct (decide (i = j)) as [->|Hne].
  { simplify_eq. unfold str_le. by rewrite (proj2 (str_compare_eq _ _) eq_refl). }
  apply (StronglySorted_app_1_elem_of str_le (take (S i) names) (drop (S i) names)).
  - by rewrite take_drop.
  - apply list_elem_of_lookup. exists i. rewrite lookup_take_lt by lia. done.
  - apply list_elem_of_lookup. exists (j - S i)%nat. rewrite lookup_drop.
    by replace (S i + (j - S i))%nat with j by lia.
Qed.

(** The window always keeps an occurrence of the target. *)
Lemma search_window_keeps fuel names target base size j :
  StronglySorted str_le names -> (size <= fuel)%nat -> (base + size <= length names)%nat ->
  (base <= j < base + size)%nat -> names !! j = Some target ->
  names !! search_window fuel names target base size = Some target.
Proof.
  intros Hs. revert base size j. induction fuel as [|fuel IH]; intros base size j Hf Hlen Hj Ht.
  { lia. }
  cbn [search_window]. destruct (Nat.leb_spec size 1) as [H1|H1]; [by replace base with j by lia|].
  pose proof (Nat.div_lt size 2 ltac:(lia) ltac:(lia)) as Hh.
  pose proof (Nat.div_str_pos size 2 ltac:(lia)) as Hh'.
  set (half := (size / 2)%nat) in *.
  destruct (lookup_lt_is_Some_2 names (base + half)%nat ltac:(lia)) as [m Hm].
  rewrite (nth_lookup_Some _ _ _ _ Hm).
  destruct (str_compare m target) eqn:E.
  - apply str_compare_eq in E as ->. apply (IH _ _ (base + half)%nat); try lia; done.
  - apply (IH _ _ j); try lia; [|done]. split; [|lia].
    destruct (le_lt_dec (base + half) j) as [|Hlt]; [done|exfalso].
    pose proof (sorted_lookup _ _ _ _ _ Hs (Nat.lt_le_incl _ _ Hlt) Ht Hm) as Hle.
    apply str_le_alt in Hle. congruence.
  - apply (IH _ _ j); try lia; [|done].
    destruct (le_lt_dec (base + half) j) as [Hle|]; [exfalso|].
    + by apply (sorted_lookup _ _ _ _ _ Hs Hle Hm Ht).
    + assert (2 * half <= size)%nat by (unfold half; apply Nat.Div0.mul_div_le). lia.
Qed.

Lemma search_window_lt fuel names target base size : (0 < size)%nat ->
  (search_window fuel names target base size < base + size)%nat.
Proof.
  revert base size. induction fuel as [|fuel IH]; intros base size Hs; cbn [search_window]; [lia|].
  destruct (Nat.leb_spec size 1); [lia|].
  pose proof (Nat.div_lt size 2 ltac:(lia) ltac:(lia)).
  pose proof (IH (base + size / 2)%nat (size - size / 2)%nat ltac:(lia)).
  pose proof (IH base (size - size / 2)%nat ltac:(lia)).
  destruct (str_compare _ _); lia.
Qed.

(** On sorted names the search answers membership. *)
Lemma binary_search_member names target : StronglySorted str_le names ->
  is_ok (binary_search names target) = bool_decide (target ∈ names).
Proof.
  intros Hs. unfold binary_search. destruct names as [|n names]; [done|].
  set (ns := n :: names) in *.
  destruct (bool_decide_reflect (target ∈ ns)) as [Hin|Hout].
  - apply list_elem_of_lookup in Hin as [j Hj]. pose proof (lookup_lt_Some _ _ _ Hj).
    pose proof (search_window_keeps (length ns) ns target 0 (length ns) j Hs
      ltac:(lia) ltac:(lia) ltac:(lia) Hj) as Hb.
    rewrite (nth_lookup_Some _ _ _ _ Hb). by rewrite (proj2 (str_compare_eq target target) eq_refl).
  - destruct (str_compare _ target) eqn:E; try done. exfalso. apply str_compare_eq in E.
    apply Hout. rewrite <- E. apply list_elem_of_In, nth_In.
    apply (search_window_lt (length ns) ns target 0 (length ns)). simpl. lia.
Qed.

(** * Operator attributes

    crates/virtio-accel-tosa/src/attribute.rs: the typed view of an operator's
    attribute table.  A failing [expect] is [None]. *)

(** The [numeric_kind!] constants, on raw discriminants. *)
Module NanPropagationMode.
Definition UNKNOWN : Z := 0.
Definition PROPAGATE : Z := 1.
Definition IGNORE : Z := 2.
End NanPropagationMode.

Module ResizeMode.
Definition UNKNOWN : Z := 0.
Definition NEAREST : Z := 1.
Definition BILINEAR : Z := 2.
End ResizeMode.

Module RoundingMode.
Definition UNKNOWN : Z := 0.
Definition SINGLE_ROUND : Z := 1.
Definition INEXACT_ROUND : Z := 2.
Definition DOUBLE_ROUND : Z := 3.
End RoundingMode.

(** [I32List]: an optional vector of [i32] values. *)
Definition I32List : Type := option (list Z).
Definition I32List_len (l : I32List) : Z := match l with Some values => zlen values | None => 0 end.
Definition I32List_is_empty (l : I32List) : bool := I32List_len l =? 0.
Definition I32List_get (l : I32List) (index : Z) : option Z :=
  values ← l;
  if index <? zlen values then values !! Z.to_nat index else None.

(** [I32Values]: the iterator, its vector and the next index. *)
Record I32Values := { iv_vector : option (list Z); iv_index : Z }.

Definition I32List_iter (l : I32List) : I32Values := {| iv_vector := l; iv_index := 0 |}.

Definition I32Values_next (it : I32Values) : option Z * I32Values :=
  match iv_vector it with
  | None => (None, it)
  | Some values =>
      if zlen values <=? iv_index it then (None, it)
      else (values !! Z.to_nat (iv_index it),
            {| iv_vector := iv_vector it; iv_index := iv_index it + 1 |})
  end.

Definition I32Values_size_hint (it : I32Values) : Z :=
  match iv_vector it with None => 0 | Some values => Z.max 0 (zlen values - iv_index it) end.

Inductive OpAttributes :=
  | AEmpty (op : Z)
  | AArgMax (axis nan_mode : Z)
  | AAvgPool2d (kernel stride pad : I32List) (acc_type : Z)
  | AConv2d (pad stride dilation : I32List) (local_bound : bool) (acc_type : Z)
  | AConv3d (pad stride dilation : I32List) (local_bound : bool) (acc_type : Z)
  | ADepthwiseConv2d (pad stride dilation : I32List) (local_bound : bool) (acc_type : Z)
  | AFft2d (inverse local_bound : bool)
  | AMaxPool2d (kernel stride pad : I32List) (nan_mode : Z)
  | ARfft2d (local_bound : bool)
  | ATransposeConv2d (out_pad stride : I32List) (local_bound : bool) (acc_type : Z)
  | AClamp (min_val max_val : list Z) (nan_mode : Z)
  | AArithmeticRightShift (round : bool)
  | AMaximum (nan_mode : Z)
  | AMinimum (nan_mode : Z)
  | AReduceAll (axis : Z)
  | AReduceAny (axis : Z)
  | AReduceMax (axis nan_mode : Z)
  | AReduceMin (axis nan_mode : Z)
  | AReduceProduct (axis : Z)
  | AReduceSum (axis : Z)
  | AConcat (axis : Z)
  | AReverse (axis : Z)
  | ATranspose (perms : I32List)
  | AResize (mode : Z)
  | ARescale (scale32 : bool) (rounding_mode : Z) (per_channel input_unsigned output_unsigned : bool)
  | ACustom (operator_name domain_name : option str) (implementation_attrs : list Z)
  | ACondIf (then_graph else_graph : option str)
  | AWhileLoop (cond_graph body_graph : option str).

(** [operator.attribute_as_*_attribute()] for the table tagged [tag]: the
    generated accessor checks the union tag first. *)
Definition attribute_as (o : WireOperator) (tag : Z) : option WireAttribute :=
  if wo_attribute_type o =? tag then wo_attribute o else None.

(** [OpAttributes::from_wire] *)
Definition from_wire (o : WireOperator) : option OpAttributes :=
  let op := wo_op o in
  match op with
  | 1 => match attribute_as o 1 with Some (ArgMaxAttribute a n) => Some (AArgMax a n) | _ => None end
  | 2 => match attribute_as o 2 with
         | Some (AvgPool2dAttribute k s p t) => Some (AAvgPool2d k s p t) | _ => None end
  | 3 => match attribute_as o 3 with
         | Some (Conv2dAttribute p s d l t) => Some (AConv2d p s d l t) | _ => None end
  | 4 => match attribute_as o 4 with
         | Some (Conv3dAttribute p s d l t) => Some (AConv3d p s d l t) | _ => None end
  | 5 => match attribute_as o 5 with
         | Some (DepthwiseConv2dAttribute p s d l t) => Some (ADepthwiseConv2d p s d l t)
         | _ => None end
  | 6 => match attribute_as o 6 with Some (FFT2dAttribute i l) => Some (AFft2d i l) | _ => None end
  | 8 => match attribute_as o 8 with
         | Some (MaxPool2dAttribute k s p n) => Some (AMaxPool2d k s p n) | _ => None end
  | 9 => match attribute_as o 9 with Some (RFFT2dAttribute l) => Some (ARfft2d l) | _ => None end
  | 10 => match attribute_as o 10 with
          | Some (TransposeConv2dAttribute p s l t) => Some (ATransposeConv2d p s l t)
          | _ => None end
  | 11 => match attribute_as o 11 with
          | Some (ClampAttribute lo hi n) => Some (AClamp (items lo) (items hi) n) | _ => None end
  | 16 => match attribute_as o 16 with
          | Some (ArithmeticRightShiftAttribute r) => Some (AArithmeticRightShift r) | _ => None end
  | 26 => match attribute_as o 26 with Some (MaximumAttribute n) => Some (AMaximum n) | _ => None end
  | 27 => match attribute_as o 27 with Some (MinimumAttribute n) => Some (AMinimum n) | _ => None end
  | 49 => match attribute_as o 49 with Some (ReduceAllAttribute a) => Some (AReduceAll a) | _ => None end
  | 50 => match attribute_as o 50 with Some (ReduceAnyAttribute a) => Some (AReduceAny a) | _ => None end
  | 51 => match attribute_as o 51 with
          | Some (ReduceMaxAttribute a n) => Some (AReduceMax a n) | _ => None end
  | 52 => match attribute_as o 52 with
          | Some (ReduceMinAttribute a n) => Some (AReduceMin a n) | _ => None end
  | 53 => match attribute_as o 53 with
          | Some (ReduceProductAttribute a) => Some (AReduceProduct a) | _ => None end
  | 54 => match attribute_as o 54 with Some (ReduceSumAttribute a) => Some (AReduceSum a) | _ => None end
  | 55 => match attribute_as o 55 with Some (ConcatAttribute a) => Some (AConcat a) | _ => None end
  | 58 => match attribute_as o 58 with Some (ReverseAttribute a) => Some (AReverse a) | _ => None end
  | 61 => match attribute_as o 61 with Some (TransposeAttribute p) => Some (ATranspose p) | _ => None end
  | 64 => match attribute_as o 64 with Some (ResizeAttribute m) => Some (AResize m) | _ => None end
  | 66 => match attribute_as o 66 with
          | Some (RescaleAttribute s r p i u) => Some (ARescale s r p i u) | _ => None end
  | 69 => match attribute_as o 69 with
          | Some (CustomAttribute n d a) => Some (ACustom n d (items a)) | _ => None end
  | 70 => match attribute_as o 70 with Some (CondIfAttribute t e) => Some (ACondIf t e) | _ => None end
  | 71 => match attribute_as o 71 with
          | Some (WhileLoopAttribute c b) => Some (AWhileLoop c b) | _ => None end
  | _ => Some (AEmpty op)
  end.

(** The operator an attribute view belongs to. *)
Definition attributes_op (a : OpAttributes) : Z :=
  match a with
  | AEmpty op => op
  | AArgMax _ _ => Op.ARGMAX
  | AAvgPool2d _ _ _ _ => Op.AVG_POOL2D
  | AConv2d _ _ _ _ _ => Op.CONV2D
  | AConv3d _ _ _ _ _ => Op.CONV3D
  | ADepthwiseConv2d _ _ _ _ _ => Op.DEPTHWISE_CONV2D
  | AFft2d _ _ => Op.FFT2D
  | AMaxPool2d _ _ _ _ => Op.MAX_POOL2D
  | ARfft2d _ => Op.RFFT2D
  | ATransposeConv2d _ _ _ _ => Op.TRANSPOSE_CONV2D
  | AClamp _ _ _ => Op.CLAMP
  | AArithmeticRightShift _ => Op.ARITHMETIC_RIGHT_SHIFT
  | AMaximum _ => Op.MAXIMUM
  | AMinimum _ => Op.MINIMUM
  | AReduceAll _ => Op.REDUCE_ALL
  | AReduceAny _ => Op.REDUCE_ANY
  | AReduceMax _ _ => Op.REDUCE_MAX
  | AReduceMin _ _ => Op.REDUCE_MIN
  | AReduceProduct _ => Op.REDUCE_PRODUCT
  | AReduceSum _ => Op.REDUCE_SUM
  | AConcat _ => Op.CONCAT
  | AReverse _ => Op.REVERSE
  | ATranspose _ => Op.TRANSPOSE
  | AResize _ => Op.RESIZE
  | ARescale _ _ _ _ _ => Op.RESCALE
  | ACustom _ _ _ => Op.CUSTOM
  | ACondIf _ _ => Op.COND_IF
  | AWhileLoop _ _ => Op.WHILE_LOOP
  end.

(** An operator that the structural checks accept has a readable attribute
    view, and it is the view of that operator. *)
Lemma from_wire_total o :
  union_ok o -> wo_attribute_type o = wo_op o -> wo_attribute o <> None ->
  exists a, from_wire o = Some a /\ attributes_op a = wo_op o.
Proof.
  destruct o as [op t [a|] i u l]; unfold union_ok; simpl; [|done]. intros Hu -> _.
  destruct a; simpl in Hu;
    try (subst op; unfold from_wire, attribute_as; simpl; eexists; split; reflexivity).
  destruct Hu as [-> Hn]. unfold from_wire. cbv zeta beta. simpl wo_op.
  exists (AEmpty op). split; [|done].
  unfold fielded_tags in Hn. rewrite !not_elem_of_cons in Hn.
  repeat (case_match; try reflexivity; try (exfalso; tauto)).
Qed.
