(* ===== verification/TosaValidate.v ===== *)
(** * Structural validation

    crates/virtio-accel-tosa/src/validate.rs: [parse_with_limits] and the
    [StructuralValidator].  The FlatBuffers identifier check and verifier are
    parameters of [parse_with_limits]; the validator runs on the tables they
    deliver.  Its state is the statistics it accumulates and the number of
    reservations made so far: [alloc n] tells whether the [n]-th
    [try_reserve_exact] succeeds. *)

From Stdlib Require Import ZArith Lia.
From stdpp Require Import prelude list sorting.
From S2P Require Import Prelude TosaTypes TosaWire.

Record Limits := {
  max_model_bytes : Z;
  max_apparent_bytes : Z;
  max_flatbuffer_depth : Z;
  max_flatbuffer_tables : Z;
  max_regions : Z;
  max_blocks : Z;
  max_tensors : Z;
  max_shapes : Z;
  max_operators : Z;
  max_edges : Z;
  max_name_bytes : Z;
  lim_max_rank : Z;
  max_constant_bytes : Z;
}.

Definition Limits_default : Limits :=
  {| max_model_bytes := 256 * 1024 * 1024;
     max_apparent_bytes := 512 * 1024 * 1024;
     max_flatbuffer_depth := 64;
     max_flatbuffer_tables := 1000000;
     max_regions := 64;
     max_blocks := 4096;
     max_tensors := 262144;
     max_shapes := 65536;
     max_operators := 1000000;
     max_edges := 8000000;
     max_name_bytes := 1024;
     lim_max_rank := 32;
     max_constant_bytes := 256 * 1024 * 1024 |}.

Record Stats := {
  st_regions : Z;
  st_blocks : Z;
  st_tensors : Z;
  st_shapes : Z;
  st_operators : Z;
  st_edges : Z;
  st_constant_bytes : Z;
}.

Definition Stats_default : Stats :=
  {| st_regions := 0; st_blocks := 0; st_tensors := 0; st_shapes := 0; st_operators := 0;
     st_edges := 0; st_constant_bytes := 0 |}.

Inductive Resource :=
  | RModelBytes | RRegions | RBlocks | RTensors | RShapes | ROperators | REdges
  | RNameBytes | RRank | RConstantBytes.

Inductive NameKind := NRegion | NBlock | NTensor | NShape | NSymbol | NReference.

Inductive Error :=
  | EEmptyInput
  | EMissingIdentifier
  | EInvalidFlatbuffer
  | EUnsupportedVersion (major minor patch : Z) (draft : bool)
  | ELimitExceeded (resource : Resource) (limit : Z)
  | EAllocationFailed (resource : Resource)
  | EMissingName (kind : NameKind)
  | EEmptyName (kind : NameKind)
  | EDuplicateName (kind : NameKind)
  | EUnknownDataType (dtype : Z)
  | EUnsupportedDataType (dtype : Z)
  | ERankedTensorWithoutShape
  | EUnrankedTensorWithDimensions
  | EInvalidDimension (dimension : Z)
  | EInvalidShapeData
  | EExternalDataRange
  | EUnknownOperator (op : Z)
  | EUnsupportedOperator (op : Z)
  | EMissingAttribute (op : Z)
  | EAttributeMismatch (op attribute : Z)
  | EUnknownSymbol
  | EMultipleProducers.

#[global] Instance Resource_eq_dec : EqDecision Resource.
Proof. solve_decision. Defined.
#[global] Instance NameKind_eq_dec : EqDecision NameKind.
Proof. solve_decision. Defined.
#[global] Instance Error_eq_dec : EqDecision Error.
Proof. solve_decision. Defined.

(** ** The validator's effects *)

Record VState := { vs_stats : Stats; vs_reservations : nat }.

(** [&mut self] methods: on an error the validator is dropped. *)
Definition V (A : Type) : Type := VState -> result (A * VState) Error.

Definition vret {A} (a : A) : V A := fun s => Ok (a, s).
Definition vbind {A B} (m : V A) (k : A -> V B) : V B :=
  fun s => match m s with Ok (a, s) => k a s | Err e => Err e end.
Definition vlift {A} (r : result A Error) : V A :=
  fun s => match r with Ok a => Ok (a, s) | Err e => Err e end.

Declare Scope validator_scope.
Delimit Scope validator_scope with validator.
Notation "'let*' x ':=' m 'in' k" := (vbind m (fun x => k))
  (at level 10, x pattern, m at level 100, k at level 200,
   format "'[v' 'let*'  x  ':='  m  'in' '/' k ']'") : validator_scope.
#[local] Open Scope validator_scope.

(** A [for] loop over items that threads a local variable. *)
Fixpoint for_each {A B} (xs : list A) (acc : B) (body : A -> B -> V B) : V B :=
  match xs with
  | [] => vret acc
  | x :: xs => let* acc := body x acc in for_each xs acc body
  end.

Definition check_limit (actual limit : Z) (resource : Resource) : result unit Error :=
  if limit <? actual then Err (ELimitExceeded resource limit) else Ok tt.

(** [wire::DType(raw).variant_name()] and [wire::Op(raw).variant_name()]: the
    schema enumerates 0..=18 and 0..=98. *)
Definition dtype_has_name (raw : Z) : bool := in_range 0 18 raw.
Definition op_has_name (raw : Z) : bool := in_range 0 98 raw.

Definition reject_duplicates (names : list str) (kind : NameKind) : result (list str) Error :=
  let names := sort_names names in
  if adjacent_equal names then Err (EDuplicateName kind) else Ok names.

Section Validator.
Context (alloc : nat -> bool) (bytes : list Z) (limits : Limits).

Definition reserve (resource : Resource) : V unit :=
  fun s =>
    if alloc (vs_reservations s)
    then Ok (tt, {| vs_stats := vs_stats s; vs_reservations := S (vs_reservations s) |})
    else Err (EAllocationFailed resource).

(** The statistic a resource counts, its limit, and its update. *)
Definition stat_of (r : Resource) (s : Stats) : Z :=
  match r with
  | RRegions => st_regions s | RBlocks => st_blocks s | RTensors => st_tensors s
  | RShapes => st_shapes s | ROperators => st_operators s | REdges => st_edges s
  | RConstantBytes => st_constant_bytes s
  | RModelBytes | RNameBytes | RRank => 0
  end.

Definition limit_of (r : Resource) : Z :=
  match r with
  | RRegions => max_regions limits | RBlocks => max_blocks limits
  | RTensors => max_tensors limits | RShapes => max_shapes limits
  | ROperators => max_operators limits | REdges => max_edges limits
  | RConstantBytes => max_constant_bytes limits
  | RModelBytes | RNameBytes | RRank => 0
  end.

Definition set_stat (r : Resource) (v : Z) (s : Stats) : Stats :=
  let '(Build_Stats a b c d e f g) := s in
  match r with
  | RRegions => Build_Stats v b c d e f g
  | RBlocks => Build_Stats a v c d e f g
  | RTensors => Build_Stats a b v d e f g
  | RShapes => Build_Stats a b c v e f g
  | ROperators => Build_Stats a b c d v f g
  | REdges => Build_Stats a b c d e v g
  | RConstantBytes => Build_Stats a b c d e f v
  | RModelBytes | RNameBytes | RRank => s
  end.

(** [add]: never called for the three resources that have no counter. *)
Definition add (resource : Resource) (amount : Z) : V unit :=
  fun s =>
    let limit := limit_of resource in
    match checked_add USIZE_MAX (stat_of resource (vs_stats s)) amount with
    | None => Err (ELimitExceeded resource limit)
    | Some value =>
        let? _ := check_limit value limit resource in
        Ok (tt, {| vs_stats := set_stat resource value (vs_stats s);
                   vs_reservations := vs_reservations s |})
    end.

Definition name (n : option str) (kind : NameKind) : result str Error :=
  let? n := ok_or n (EMissingName kind) in
  if zlen n =? 0 then Err (EEmptyName kind) else
  let? _ := check_limit (zlen n) (max_name_bytes limits) RNameBytes in
  Ok n.

Definition validate_references (references : option (list str)) (symbols : list str) : V unit :=
  let* _ := add REdges (zlen (items references)) in
  for_each (items references) tt (fun reference _ =>
    let* _ := vlift (name (Some reference) NReference) in
    if negb (is_ok (binary_search symbols reference)) then vlift (Err EUnknownSymbol)
    else vret tt).

(** The loop that collects the outputs no variable names. *)
Definition push_produced (variable_names : list str) (outputs : list str) (produced : list str)
    : list str :=
  fold_left (fun produced output =>
    if negb (is_ok (binary_search variable_names output)) then produced ++ [output] else produced)
    outputs produced.

Definition validate_operator (operator : WireOperator) (symbols variable_names produced : list str)
    : V (list str) :=
  let op := wo_op operator in
  if (op =? 0) || negb (op_has_name op) then vlift (Err (EUnknownOperator op)) else
  if negb (Op.is_tosa_1_0 op) then vlift (Err (EUnsupportedOperator op)) else
  let attribute := wo_attribute_type operator in
  if negb (attribute =? op) then vlift (Err (EAttributeMismatch op attribute)) else
  match wo_attribute operator with
  | None => vlift (Err (EMissingAttribute op))
  | Some _ =>
      let* _ := validate_references (wo_inputs operator) symbols in
      let* _ := validate_references (wo_outputs operator) symbols in
      vret (push_produced variable_names (items (wo_outputs operator)) produced)
  end.

Definition validate_shape (shape : WireShape) : V unit :=
  let rank := ws_rank shape in
  let max_shape_values := Z.min USIZE_MAX (lim_max_rank limits * 2) in
  let* _ := vlift (check_limit rank max_shape_values RRank) in
  let data_len := zlen (items (ws_data shape)) in
  let* _ :=
    if negb (data_len =? 0) then
      match checked_mul USIZE_MAX rank 8 with
      | None => vlift (Err EInvalidShapeData)
      | Some required =>
          if negb (data_len =? required) then vlift (Err EInvalidShapeData) else vret tt
      end
    else vret tt in
  add RConstantBytes data_len.

(** The first dimension below one, if any. *)
Fixpoint check_dimensions (shape : list Z) : result unit Error :=
  match shape with
  | [] => Ok tt
  | dimension :: shape =>
      if dimension <? 1 then Err (EInvalidDimension dimension) else check_dimensions shape
  end.

Definition check_tensor_shape (tensor : WireTensor) : result unit Error :=
  match wt_is_unranked tensor, wt_shape tensor with
  | true, Some shape => if negb (zlen shape =? 0) then Err EUnrankedTensorWithDimensions else Ok tt
  | true, None => Ok tt
  | false, None => Err ERankedTensorWithoutShape
  | false, Some shape =>
      let? _ := check_limit (zlen shape) (lim_max_rank limits) RRank in
      check_dimensions shape
  end.

Definition check_external (embedded offset external : Z) : result unit Error :=
  if negb (external =? 0) then
    if negb (embedded =? 0) || (offset <=? 1) then Err EExternalDataRange else
    match checked_add USIZE_MAX offset external with
    | Some end_ => if end_ <=? zlen bytes then Ok tt else Err EExternalDataRange
    | None => Err EExternalDataRange
    end
  else if negb (offset =? 0) then Err EExternalDataRange else Ok tt.

Definition validate_tensor (tensor : WireTensor) : V unit :=
  let dtype := wt_type tensor in
  if (dtype =? 0) || negb (dtype_has_name dtype) then vlift (Err (EUnknownDataType dtype)) else
  if negb (DType.is_tosa_1_0 dtype) then vlift (Err (EUnsupportedDataType dtype)) else
  let* _ := vlift (check_tensor_shape tensor) in
  let embedded := zlen (items (wt_data tensor)) in
  let external := wt_size tensor in
  let* _ := vlift (check_external embedded (wt_offset tensor) external) in
  match checked_add USIZE_MAX embedded external with
  | None => vlift (Err (ELimitExceeded RConstantBytes (max_constant_bytes limits)))
  | Some constant_bytes => add RConstantBytes constant_bytes
  end.

(** The fold over the operators' output counts; a sum past [usize] reads as
    [usize::MAX]. *)
Definition producer_count (operators : list WireOperator) : Z :=
  default USIZE_MAX
    (fold_left (fun count operator =>
       c ← count; checked_add USIZE_MAX c (zlen (items (wo_outputs operator)))) operators (Some 0)).

Definition tensor_loop (tensors : list WireTensor) : V (list str * list str) :=
  for_each tensors ([], []) (fun tensor '(tensor_names, variable_names) =>
    let* n := vlift (name (wt_name tensor) NTensor) in
    let tensor_names := tensor_names ++ [n] in
    let variable_names := if wt_variable tensor then variable_names ++ [n] else variable_names in
    let* _ := validate_tensor tensor in
    vret (tensor_names, variable_names)).

Definition shape_loop (shapes : list WireShape) : V (list str) :=
  for_each shapes [] (fun shape shape_names =>
    let* n := vlift (name (ws_name shape) NShape) in
    let* _ := validate_shape shape in
    vret (shape_names ++ [n])).

Definition operator_loop (operators : list WireOperator) (symbols variable_names : list str)
    : V (list str) :=
  for_each operators [] (fun operator produced =>
    validate_operator operator symbols variable_names produced).

Definition validate_block (block : WireBlock) : V unit :=
  let tensors := items (wb_tensors block) in
  let shapes := items (wb_shapes block) in
  let operators := items (wb_operators block) in
  let tensor_count := zlen tensors in
  let shape_count := zlen shapes in
  let* _ := add RTensors tensor_count in
  let* _ := add RShapes shape_count in
  let* _ := add ROperators (zlen operators) in
  match checked_add USIZE_MAX tensor_count shape_count with
  | None => vlift (Err (ELimitExceeded RTensors (max_tensors limits)))
  | Some _ =>
      let* _ := reserve RTensors in
      let* _ := reserve RTensors in
      let* (tensor_names, variable_names) := tensor_loop tensors in
      let* tensor_names := vlift (reject_duplicates tensor_names NTensor) in
      let variable_names := sort_names variable_names in
      let* _ := reserve RShapes in
      let* shape_names := shape_loop shapes in
      let* shape_names := vlift (reject_duplicates shape_names NShape) in
      let* _ := reserve RTensors in
      let* symbols := vlift (reject_duplicates (tensor_names ++ shape_names) NSymbol) in
      let* _ := validate_references (wb_inputs block) symbols in
      let* _ := validate_references (wb_outputs block) symbols in
      let producer_count := producer_count operators in
      let* _ := vlift (check_limit producer_count (max_edges limits) REdges) in
      let* _ := reserve REdges in
      let* produced := operator_loop operators symbols variable_names in
      let produced := sort_names produced in
      if adjacent_equal produced then vlift (Err EMultipleProducers) else vret tt
  end.

Definition validate_region (region : WireRegion) : V unit :=
  let blocks := items (wr_blocks region) in
  let* _ := add RBlocks (zlen blocks) in
  let* _ := reserve RBlocks in
  let* block_names := for_each blocks [] (fun block block_names =>
    let* n := vlift (name (wb_name block) NBlock) in
    let* _ := validate_block block in
    vret (block_names ++ [n])) in
  let* _ := vlift (reject_duplicates block_names NBlock) in
  vret tt.

Definition validate_graph (graph : WireGraph) : V unit :=
  let regions := items (wg_regions graph) in
  let* _ := add RRegions (zlen regions) in
  let* _ := reserve RRegions in
  let* region_names := for_each regions [] (fun region region_names =>
    let* n := vlift (name (wr_name region) NRegion) in
    let* _ := validate_region region in
    vret (region_names ++ [n])) in
  let* _ := vlift (reject_duplicates region_names NRegion) in
  vret tt.

End Validator.

(** [Model]: the verified graph with its bytes and statistics. *)
Record Model := {
  mo_graph : WireGraph;
  mo_bytes : list Z;
  mo_version : Version;
  mo_stats : Stats;
}.

(** [flatbuffers::VerifierOptions] *)
Record VerifierOptions := {
  vo_max_depth : Z;
  vo_max_tables : Z;
  vo_max_apparent_size : Z;
  vo_ignore_missing_null_terminator : bool;
}.

Section Parse.
(** [tosa_graph_buffer_has_identifier] and [root_as_tosa_graph_with_opts] of
    the FlatBuffers runtime. *)
Context (has_identifier : list Z -> bool) (root : VerifierOptions -> list Z -> option WireGraph).
Context (alloc : nat -> bool).

Definition parse_with_limits (bytes : list Z) (limits : Limits) : result Model Error :=
  if zlen bytes =? 0 then Err EEmptyInput else
  let? _ := check_limit (zlen bytes) (max_model_bytes limits) RModelBytes in
  if (zlen bytes <? 8) || negb (has_identifier bytes) then Err EMissingIdentifier else
  let verifier :=
    {| vo_max_depth := max_flatbuffer_depth limits; vo_max_tables := max_flatbuffer_tables limits;
       vo_max_apparent_size := max_apparent_bytes limits;
       vo_ignore_missing_null_terminator := false |} in
  let? graph := ok_or (root verifier bytes) EInvalidFlatbuffer in
  let v := wg_version graph in
  if negb ((wv_major v =? 1) && (wv_minor v =? 0) && (wv_patch v =? 0) && negb (wv_draft v))
  then Err (EUnsupportedVersion (wv_major v) (wv_minor v) (wv_patch v) (wv_draft v)) else
  let? (_, s) := validate_graph alloc bytes limits graph
                    {| vs_stats := Stats_default; vs_reservations := 0 |} in
  Ok {| mo_graph := graph; mo_bytes := bytes; mo_version := TOSA_1_0; mo_stats := vs_stats s |}.

Definition parse (bytes : list Z) : result Model Error := parse_with_limits bytes Limits_default.
End Parse.

(** * Exact specifications of the structural validator

    [Exact m P a c n]: the validator call [m] succeeds exactly when [P] holds,
    the statistics plus [c] stay within the limits and the next [n]
    reservations succeed; it then returns [a] and has added [c].  The rules
    below compose such statements along the code, so the theorems about
    [parse_with_limits] are equivalences. *)

(** ** Statistics as vectors *)

Definition stats_add (a b : Stats) : Stats :=
  {| st_regions := st_regions a + st_regions b; st_blocks := st_blocks a + st_blocks b;
     st_tensors := st_tensors a + st_tensors b; st_shapes := st_shapes a + st_shapes b;
     st_operators := st_operators a + st_operators b; st_edges := st_edges a + st_edges b;
     st_constant_bytes := st_constant_bytes a + st_constant_bytes b |}.

(** [n] units of one resource. *)
Definition units (r : Resource) (n : Z) : Stats := set_stat r n Stats_default.

Definition stats_sum (l : list Stats) : Stats := foldr stats_add Stats_default l.

Definition stats_nonneg (s : Stats) : Prop :=
  0 <= st_regions s /\ 0 <= st_blocks s /\ 0 <= st_tensors s /\ 0 <= st_shapes s /\
  0 <= st_operators s /\ 0 <= st_edges s /\ 0 <= st_constant_bytes s.

Definition within (l : Limits) (s : Stats) : Prop :=
  st_regions s <= max_regions l /\ st_blocks s <= max_blocks l /\ st_tensors s <= max_tensors l /\
  st_shapes s <= max_shapes l /\ st_operators s <= max_operators l /\ st_edges s <= max_edges l /\
  st_constant_bytes s <= max_constant_bytes l.

(** Limits are [usize] values. *)
Definition limits_typed (l : Limits) : Prop :=
  within l (Build_Stats 0 0 0 0 0 0 0) /\
  max_regions l <= USIZE_MAX /\ max_blocks l <= USIZE_MAX /\ max_tensors l <= USIZE_MAX /\
  max_shapes l <= USIZE_MAX /\ max_operators l <= USIZE_MAX /\ max_edges l <= USIZE_MAX /\
  max_constant_bytes l <= USIZE_MAX /\ 0 <= lim_max_rank l <= USIZE_MAX.

Lemma stats_add_assoc a b c : stats_add (stats_add a b) c = stats_add a (stats_add b c).
Proof. unfold stats_add. simpl. f_equal; lia. Qed.

Lemma stats_add_0_r a : stats_add a Stats_default = a.
Proof. destruct a. unfold stats_add. simpl. f_equal; lia. Qed.

Lemma stats_add_0_l a : stats_add Stats_default a = a.
Proof. destruct a. reflexivity. Qed.

Lemma stats_nonneg_add a b : stats_nonneg a -> stats_nonneg b -> stats_nonneg (stats_add a b).
Proof. unfold stats_nonneg. simpl. lia. Qed.

Lemma stats_nonneg_zero : stats_nonneg Stats_default.
Proof. unfold stats_nonneg. simpl. lia. Qed.

Lemma stats_nonneg_units r n : 0 <= n -> stats_nonneg (units r n).
Proof. intros. destruct r; unfold stats_nonneg; simpl; lia. Qed.

Lemma stats_nonneg_sum l : Forall stats_nonneg l -> stats_nonneg (stats_sum l).
Proof.
  induction 1; [apply stats_nonneg_zero|by apply stats_nonneg_add].
Qed.

Lemma within_weaken l a b : stats_nonneg b -> within l (stats_add a b) -> within l a.
Proof. unfold within, stats_nonneg. simpl. lia. Qed.

#[global] Hint Resolve stats_nonneg_zero stats_nonneg_add stats_nonneg_units : va.

Section Exactness.
Context (alloc : nat -> bool) (limits : Limits).

(** The reservations [from .. from + n] succeed. *)
Definition reserved (from n : nat) : Prop := forall i, (from <= i < from + n)%nat -> alloc i = true.

(** The statistics a validator can hold. *)
Definition fits (st : Stats) : Prop := within limits st /\ stats_nonneg st.

Definition Exact {A} (m : V A) (P : Prop) (a : A) (c : Stats) (n : nat) : Prop :=
  stats_nonneg c /\
  forall s x s', fits (vs_stats s) ->
    m s = Ok (x, s') <->
    P /\ x = a /\ within limits (stats_add (vs_stats s) c) /\ reserved (vs_reservations s) n /\
    s' = {| vs_stats := stats_add (vs_stats s) c; vs_reservations := vs_reservations s + n |}.

Lemma reserved_0 from : reserved from 0.
Proof. intros i. lia. Qed.

Lemma reserved_add from n k : reserved from (n + k) <-> reserved from n /\ reserved (from + n) k.
Proof.
  unfold reserved. split.
  - intros H. split; intros i Hi; apply H; lia.
  - intros [H1 H2] i Hi. destruct (decide (i < from + n)%nat); [apply H1|apply H2]; lia.
Qed.

Lemma Exact_ret {A} (a : A) : Exact (vret a) True a Stats_default 0.
Proof.
  split; [auto with va|]. intros [st r] x s' [Hw Hn]. unfold vret. simpl in *.
  rewrite stats_add_0_r, Nat.add_0_r. split.
  - intros [= <- <-]. split_and!; try done. apply reserved_0.
  - by intros (_ & -> & _ & _ & ->).
Qed.

Lemma Exact_lift {A} (r : result A Error) P a :
  (forall x, r = Ok x <-> P /\ x = a) -> Exact (vlift r) P a Stats_default 0.
Proof.
  intros H. split; [auto with va|]. intros [st k] x s' [Hw Hn]. unfold vlift. simpl in *.
  rewrite stats_add_0_r, Nat.add_0_r.
  specialize (H x). destruct r as [y|e].
  - split.
    + intros [= -> <-]. destruct H as [H _]. destruct H as [? ->]; [done|].
      split_and!; try done. apply reserved_0.
    + intros (HP & -> & _ & _ & ->). destruct H as [_ H]. specialize (H (conj HP eq_refl)).
      injection H as ->. done.
  - split; [done|]. intros (HP & -> & _). destruct H as [_ H]. by specialize (H (conj HP eq_refl)).
Qed.

Lemma Exact_err {A} (e : Error) (a : A) c n :
  stats_nonneg c -> Exact (vlift (Err e)) False a c n.
Proof. intros Hc. split; [done|]. intros s x s' _. split; [done|]. by intros ([] & _). Qed.

Lemma Exact_bind {A B} (m : V A) (k : A -> V B) P Q a b c d n p :
  Exact m P a c n -> Exact (k a) Q b d p ->
  Exact (vbind m k) (P /\ Q) b (stats_add c d) (n + p).
Proof.
  intros [Hc Hm] [Hd Hk]. split; [auto with va|]. intros [st r] x s' Hw. pose proof Hw as [_ Hst]. simpl in *. unfold vbind.
  rewrite reserved_add, <- stats_add_assoc, Nat.add_assoc.
  set (s1 := {| vs_stats := stats_add st c; vs_reservations := r + n |}).
  split.
  - destruct (m _) as [[y t]|e] eqn:E; [|done]. intros Hx.
    apply Hm in E as (HP & -> & Hw1 & Hr & ->); [|done]. simpl in *.
    apply (Hk s1) in Hx as (HQ & -> & Hw2 & Hr2 & ->); [done|].
    split; [exact Hw1|simpl; auto with va].
  - intros ((HP & HQ) & -> & Hw2 & (Hr & Hr2) & ->).
    assert (within limits (stats_add st c)) as Hw1 by (by eapply within_weaken; [exact Hd|]).
    rewrite (proj2 (Hm {| vs_stats := st; vs_reservations := r |} a s1 Hw)) by (by split_and!).
    apply (Hk s1); [split; [exact Hw1|simpl; auto with va]|]. by split_and!.
Qed.

(** Rewriting the condition, the cost or the reservations. *)
Lemma Exact_iff {A} (m : V A) P Q a c d n p :
  Exact m P a c n -> (P <-> Q) -> c = d -> n = p -> Exact m Q a d p.
Proof. intros [Hc Hm] HPQ <- <-. split; [done|]. intros s x s' Hw. rewrite Hm by done. by rewrite HPQ. Qed.

Lemma Exact_value {A} (m : V A) P a b c n : Exact m P a c n -> a = b -> Exact m P b c n.
Proof. by intros H <-. Qed.

#[global] Instance Exact_proper {A} (m : V A) : Proper (iff ==> eq ==> eq ==> eq ==> iff) (Exact m).
Proof.
  intros P Q HPQ a _ <- c _ <- n _ <-. split; intros H; by eapply Exact_iff; [exact H|..].
Qed.

(** A computation that is only exact when [P] holds, guarded by it. *)
Lemma Exact_bind_dep {A B} (m : V A) (k : A -> V B) (P Q : Prop) a b c d n p :
  Exact m P a c n -> stats_nonneg d -> (P -> Exact (k a) Q b d p) ->
  Exact (vbind m k) (P /\ Q) b (stats_add c d) (n + p).
Proof.
  intros [Hc Hm] Hd Hk. split; [auto with va|]. intros s x s' Hw. split.
  - intros Hx. pose proof Hx as Hx'. unfold vbind in Hx'.
    destruct (m s) as [[y t]|e] eqn:E; [|done]. apply Hm in E as (HP & -> & _); [|done].
    pose proof (Exact_bind m k P Q a b c d n p (conj Hc Hm) (Hk HP)) as [_ HE]. by apply HE.
  - intros H. destruct H as [[HP HQ] H].
    pose proof (Exact_bind m k P Q a b c d n p (conj Hc Hm) (Hk HP)) as [_ HE].
    apply HE; [done|]. by split.
Qed.

(** A condition that the limits already imply can be dropped. *)
Lemma Exact_implied {A} (m : V A) (P R : Prop) a c n :
  Exact m P a c n ->
  (forall st, stats_nonneg st -> within limits (stats_add st c) -> P <-> R) -> Exact m R a c n.
Proof.
  intros [Hc Hm] HR. split; [done|]. intros s x s' Hw. rewrite Hm by done. destruct Hw as [_ Hst].
  specialize (HR (vs_stats s) Hst). split.
  - intros (HP & -> & Hin & H). split_and!; try apply H; try done. by apply HR.
  - intros (HP & -> & Hin & H). split_and!; try apply H; try done. by apply HR.
Qed.

Lemma Exact_if {A} (b : bool) (e : Error) (m : V A) P a c n :
  Exact m P a c n -> Exact (if b then vlift (Err e) else m) (b = false /\ P) a c n.
Proof.
  intros [Hc Hm]. split; [done|]. intros s x s' Hw. destruct b.
  - split; [done|]. naive_solver.
  - rewrite Hm by done. naive_solver.
Qed.

Lemma Exact_for_each {A B} (xs : list A) (body : A -> B -> V B) (P : A -> Prop) (upd : A -> B -> B)
    (c : A -> Stats) (n : A -> nat) acc :
  (forall x acc, x ∈ xs -> Exact (body x acc) (P x) (upd x acc) (c x) (n x)) ->
  Exact (for_each xs acc body) (Forall P xs) (fold_left (fun acc x => upd x acc) xs acc)
    (stats_sum (c <$> xs)) (sum_list (n <$> xs)).
Proof.
  revert acc. induction xs as [|x xs IH]; intros acc H.
  - eapply Exact_iff; [apply Exact_ret|..]; [|done|done]. split; [constructor|done].
  - simpl. eapply Exact_iff; [eapply Exact_bind|..].
    + apply H. by left.
    + apply IH. intros y acc' Hy. apply H. by right.
    + by rewrite Forall_cons.
    + done.
    + done.
Qed.

(** A loop that only checks. *)
Lemma Exact_for_all {A} (xs : list A) (body : A -> unit -> V unit) (P : A -> Prop)
    (c : A -> Stats) (n : A -> nat) :
  (forall x, x ∈ xs -> Exact (body x tt) (P x) tt (c x) (n x)) ->
  Exact (for_each xs tt body) (Forall P xs) tt (stats_sum (c <$> xs)) (sum_list (n <$> xs)).
Proof.
  intros H. pose proof (Exact_for_each xs body P (fun _ _ => tt) c n tt) as HE.
  destruct (fold_left (fun acc x => tt) xs tt). apply HE. intros x []. apply H.
Qed.

Lemma Exact_reserve r : Exact (reserve alloc r) True tt Stats_default 1.
Proof.
  split; [auto with va|]. intros [st k] [] s' [Hw Hn]. unfold reserve. simpl in *. rewrite stats_add_0_r.
  assert (reserved k 1 <-> alloc k = true) as ->.
  { unfold reserved. split; [intros H; apply H; lia|]. intros H i Hi. by replace i with k by lia. }
  replace (k + 1)%nat with (S k) by lia. destruct (alloc k); naive_solver.
Qed.

(** The resources with a counter. *)
Definition counted (r : Resource) : bool :=
  match r with RModelBytes | RNameBytes | RRank => false | _ => true end.

Lemma Exact_add r n : limits_typed limits -> counted r = true -> 0 <= n ->
  Exact (add limits r n) True tt (units r n) 0.
Proof.
  intros Hl Hr Hn. split; [auto with va|]. intros [[a b c d e f g] k] [] s' [Hw _].
  unfold add, check_limit. simpl. rewrite Nat.add_0_r.
  unfold limits_typed, within in *. simpl in *.
  destruct (checked_add USIZE_MAX _ n) as [v|] eqn:E.
  - apply checked_add_Some in E as [-> E]. destruct (Z.ltb_spec (limit_of limits r) (stat_of r
      {| st_regions := a; st_blocks := b; st_tensors := c; st_shapes := d; st_operators := e;
         st_edges := f; st_constant_bytes := g |} + n)) as [Hlt|Hle].
    + split; [done|]. destruct r; simpl in *; done || lia.
    + destruct r; try done; simpl in *;
        (split; [intros [= <-]|intros (_ & _ & _ & _ & ->)]; unfold stats_add; simpl;
         split_and?; solve [done | lia | apply reserved_0 | repeat f_equal; lia]).
  - apply checked_add_None in E. split; [done|]. destruct r; simpl in *; done || lia.
Qed.
End Exactness.
