(* ===== verification/TosaGraph.v ===== *)
(** * Well-formed graphs, and what the structural validator accepts

    [graph_wf] states the graph conditions without the validator's sorting,
    searching and accumulation; the theorem of this file says that
    [parse_with_limits] accepts exactly the well-formed graphs within the
    limits and counts them exactly. *)

From Stdlib Require Import ZArith Lia.
From stdpp Require Import prelude list sorting.
From S2P Require Import Prelude TosaTypes TosaWire TosaValidate.

(** ** Well-formedness *)

Section WellFormed.
Context (bytes : list Z) (limits : Limits).

Definition name_wf (n : str) : Prop := 0 < zlen n <= max_name_bytes limits.

(** The name of a table: present, nonempty and short enough. *)
Definition named (o : option str) : Prop := match o with Some n => name_wf n | None => False end.

Definition the_name (o : option str) : str := default [] o.

Definition tensor_wf (t : WireTensor) : Prop :=
  DType.BOOL <= wt_type t <= DType.FP8E5M2 /\
  (if wt_is_unranked t then items (wt_shape t) = []
   else exists shape, wt_shape t = Some shape /\ zlen shape <= lim_max_rank limits /\
          Forall (fun d => 1 <= d) shape) /\
  (if wt_size t =? 0 then wt_offset t = 0
   else items (wt_data t) = [] /\ 1 < wt_offset t /\ wt_offset t + wt_size t <= zlen bytes).

Definition shape_wf (s : WireShape) : Prop :=
  ws_rank s <= 2 * lim_max_rank limits /\
  (items (ws_data s) = [] \/ zlen (items (ws_data s)) = 8 * ws_rank s).

Definition refs_wf (symbols : list str) (refs : option (list str)) : Prop :=
  Forall (fun r => name_wf r /\ r ∈ symbols) (items refs).

Definition operator_wf (symbols : list str) (o : WireOperator) : Prop :=
  Op.ARGMAX <= wo_op o <= Op.CONST_SHAPE /\ wo_attribute_type o = wo_op o /\
  is_Some (wo_attribute o) /\ refs_wf symbols (wo_inputs o) /\ refs_wf symbols (wo_outputs o).

Definition tensor_names (b : WireBlock) : list str :=
  (fun t => the_name (wt_name t)) <$> items (wb_tensors b).
Definition shape_names (b : WireBlock) : list str :=
  (fun s => the_name (ws_name s)) <$> items (wb_shapes b).

(** The symbols of a block and the names of its variables. *)
Definition symbols (b : WireBlock) : list str := tensor_names b ++ shape_names b.
Definition variables (b : WireBlock) : list str :=
  (fun t => the_name (wt_name t)) <$> filter (fun t => wt_variable t = true) (items (wb_tensors b)).

(** Everything the operators of a block write, in order. *)
Definition written (b : WireBlock) : list str :=
  items (wb_operators b) ≫= (fun o => items (wo_outputs o)).

Definition block_wf (b : WireBlock) : Prop :=
  Forall (fun t => named (wt_name t) /\ tensor_wf t) (items (wb_tensors b)) /\
  Forall (fun s => named (ws_name s) /\ shape_wf s) (items (wb_shapes b)) /\
  NoDup (symbols b) /\
  refs_wf (symbols b) (wb_inputs b) /\ refs_wf (symbols b) (wb_outputs b) /\
  Forall (operator_wf (symbols b)) (items (wb_operators b)) /\
  NoDup (filter (fun n => n ∉ variables b) (written b)).

Definition region_wf (r : WireRegion) : Prop :=
  Forall (fun b => named (wb_name b) /\ block_wf b) (items (wr_blocks r)) /\
  NoDup ((fun b => the_name (wb_name b)) <$> items (wr_blocks r)).

Definition graph_wf (g : WireGraph) : Prop :=
  Forall (fun r => named (wr_name r) /\ region_wf r) (items (wg_regions g)) /\
  NoDup ((fun r => the_name (wr_name r)) <$> items (wg_regions g)).
End WellFormed.

(** ** The counts *)

Definition operator_edges (o : WireOperator) : Z := zlen (items (wo_inputs o)) + zlen (items (wo_outputs o)).

Definition block_stats (b : WireBlock) : Stats :=
  {| st_regions := 0; st_blocks := 0;
     st_tensors := zlen (items (wb_tensors b));
     st_shapes := zlen (items (wb_shapes b));
     st_operators := zlen (items (wb_operators b));
     st_edges := zlen (items (wb_inputs b)) + zlen (items (wb_outputs b)) +
                 sum_by operator_edges (items (wb_operators b));
     st_constant_bytes :=
       sum_by (fun t => zlen (items (wt_data t)) + wt_size t) (items (wb_tensors b)) +
       sum_by (fun s => zlen (items (ws_data s))) (items (wb_shapes b)) |}.

Definition region_stats (r : WireRegion) : Stats :=
  stats_add (units RBlocks (zlen (items (wr_blocks r)))) (stats_sum (block_stats <$> items (wr_blocks r))).

Definition graph_stats (g : WireGraph) : Stats :=
  stats_add (units RRegions (zlen (items (wg_regions g))))
    (stats_sum (region_stats <$> items (wg_regions g))).

(** The reservations a validation makes: five per block, one per region and
    one for the graph. *)
Definition region_reservations (r : WireRegion) : nat := 1 + 5 * length (items (wr_blocks r)).
Definition graph_reservations (g : WireGraph) : nat :=
  1 + sum_list (region_reservations <$> items (wg_regions g)).

(** Field widths of the tables of a graph. *)
(** A FlatBuffers vector has a 32-bit length. *)
Definition block_typed (b : WireBlock) : Prop :=
  zlen (items (wb_tensors b)) <= U32_MAX /\ zlen (items (wb_shapes b)) <= U32_MAX /\
  Forall tensor_typed (items (wb_tensors b)) /\ Forall shape_typed (items (wb_shapes b)) /\
  Forall (fun o => is_u32 (wo_op o) /\ union_ok o) (items (wb_operators b)).
Definition graph_typed (g : WireGraph) : Prop :=
  Forall (fun r => Forall block_typed (items (wr_blocks r))) (items (wg_regions g)).

(** ** Sums of statistics *)

Lemma stats_sum_cons {A} (f : A -> Stats) x xs :
  stats_sum (f <$> x :: xs) = stats_add (f x) (stats_sum (f <$> xs)).
Proof. done. Qed.

Lemma stats_sum_units {A} (r : Resource) (f : A -> Z) xs : 
  stats_sum ((fun x => units r (f x)) <$> xs) = units r (sum_by f xs).
Proof.
  induction xs as [|x xs IH]; [by destruct r|]. rewrite stats_sum_cons, IH. by destruct r.
Qed.

Lemma stats_eq a b :
  st_regions a = st_regions b -> st_blocks a = st_blocks b -> st_tensors a = st_tensors b ->
  st_shapes a = st_shapes b -> st_operators a = st_operators b -> st_edges a = st_edges b ->
  st_constant_bytes a = st_constant_bytes b -> a = b.
Proof. destruct a, b. simpl. by intros -> -> -> -> -> -> ->. Qed.

Lemma units_add r a b : stats_add (units r a) (units r b) = units r (a + b).
Proof. by destruct r. Qed.

Lemma elem_of_In_Forall {A} (P : A -> Prop) xs x : Forall P xs -> x ∈ xs -> P x.
Proof. rewrite Forall_forall. eauto. Qed.

(** ** Each check against its condition *)

Section Checks.
Context (alloc : nat -> bool) (bytes : list Z) (limits : Limits) (Hlim : limits_typed limits).
Context (Hbytes : zlen bytes <= USIZE_MAX).
Abbreviation Exact := (Exact alloc limits).

Lemma check_limit_Ok actual limit r x : check_limit actual limit r = Ok x <-> actual <= limit /\ x = tt.
Proof. unfold check_limit. destruct (Z.ltb_spec limit actual), x; naive_solver lia. Qed.

Lemma name_Ok o kind x : name limits o kind = Ok x <-> named limits o /\ x = the_name o.
Proof.
  unfold name, named, the_name, name_wf. destruct o as [n|]; simpl; [|naive_solver].
  pose proof (zlen_nonneg n). destruct (Z.eqb_spec (zlen n) 0); [naive_solver lia|].
  unfold check_limit. destruct (Z.ltb_spec (max_name_bytes limits) (zlen n)); naive_solver lia.
Qed.

Lemma reject_duplicates_Ok l kind x : reject_duplicates l kind = Ok x <-> NoDup l /\ x = sort_names l.
Proof.
  unfold reject_duplicates. rewrite <- sorted_duplicates.
  destruct (adjacent_equal (sort_names l)); naive_solver.
Qed.

Lemma Exact_name o kind : Exact (vlift (name limits o kind)) (named limits o) (the_name o) Stats_default 0.
Proof. apply Exact_lift. apply name_Ok. Qed.

Lemma Exact_unique l kind :
  Exact (vlift (reject_duplicates l kind)) (NoDup l) (sort_names l) Stats_default 0.
Proof. apply Exact_lift. apply reject_duplicates_Ok. Qed.

Lemma Exact_count r n : counted r = true -> 0 <= n -> Exact (add limits r n) True tt (units r n) 0.
Proof. by apply Exact_add. Qed.

Lemma stats_sum_zero {A} (xs : list A) : stats_sum ((fun _ => Stats_default) <$> xs) = Stats_default.
Proof. induction xs as [|x xs IH]; [done|]. by rewrite stats_sum_cons, IH. Qed.

Lemma sum_list_zero {A} (xs : list A) : sum_list ((fun _ => 0%nat) <$> xs) = 0%nat.
Proof. induction xs as [|x xs IH]; [done|]. simpl. done. Qed.

Lemma Exact_refs refs syms : StronglySorted str_le syms ->
  Exact (validate_references limits refs syms) (refs_wf limits syms refs) tt
    (units REdges (zlen (items refs))) 0.
Proof.
  intros Hs. unfold validate_references, refs_wf.
  eapply Exact_iff; [eapply Exact_bind; [apply Exact_count; [done|apply zlen_nonneg]|]|..].
  - apply (Exact_for_all alloc limits _ _
      (fun r => name_wf limits r /\ r ∈ syms) (fun _ => Stats_default) (fun _ => 0%nat)).
    intros r _.
    eapply Exact_iff; [eapply Exact_bind; [apply Exact_name|]|..].
    + apply Exact_if, Exact_ret.
    + rewrite binary_search_member by done. rewrite negb_false_iff, bool_decide_eq_true. simpl. tauto.
    + done.
    + done.
  - tauto.
  - by rewrite stats_sum_zero, stats_add_0_r.
  - by rewrite sum_list_zero.
Qed.

(** *** Operators *)

Lemma push_produced_filter vars outs produced : StronglySorted str_le vars ->
  push_produced vars outs produced = produced ++ filter (fun n => n ∉ vars) outs.
Proof.
  intros Hs. unfold push_produced. revert produced.
  induction outs as [|o outs IH]; intros produced; simpl; [by rewrite app_nil_r|].
  rewrite IH, filter_cons, binary_search_member by done.
  destruct (bool_decide_reflect (o ∈ vars)) as [Hin|Hout]; simpl.
  - by rewrite decide_False by tauto.
  - rewrite decide_True by done. by rewrite <- app_assoc.
Qed.

Lemma op_checks op :
  ((op =? 0) || negb (op_has_name op) = false /\ negb (Op.is_tosa_1_0 op) = false) <->
  Op.ARGMAX <= op <= Op.CONST_SHAPE.
Proof.
  unfold op_has_name, Op.is_tosa_1_0, in_range, Op.ARGMAX, Op.CONST_SHAPE.
  destruct (Z.eqb_spec op 0), (Z.leb_spec 0 op), (Z.leb_spec op 98), (Z.leb_spec 1 op),
    (Z.leb_spec op 75); simpl; intuition (done || lia).
Qed.

Lemma Exact_operator o syms vars produced : StronglySorted str_le syms ->
  Exact (validate_operator limits o syms vars produced) (operator_wf limits syms o)
    (push_produced vars (items (wo_outputs o)) produced) (units REdges (operator_edges o)) 0.
Proof.
  intros Hs. unfold validate_operator, operator_wf, operator_edges. rewrite <- op_checks.
  rewrite <- units_add.
  destruct (wo_attribute o) as [a|].
  - eapply Exact_iff; [apply Exact_if, Exact_if, Exact_if|..].
    + eapply Exact_bind; [by apply Exact_refs|]. eapply Exact_bind; [by apply Exact_refs|].
      apply Exact_ret.
    + destruct (Z.eqb_spec (wo_attribute_type o) (wo_op o)); simpl; naive_solver.
    + by rewrite stats_add_0_r.
    + done.
  - eapply Exact_iff; [| |reflexivity|reflexivity].
    + apply Exact_if, Exact_if, Exact_if, Exact_err.
      apply stats_nonneg_add; apply stats_nonneg_units, zlen_nonneg.
    + split; [naive_solver|]. by intros (? & ? & [? ?] & _).
Qed.

(** *** Shapes and tensors *)

Lemma Exact_shape sh : shape_typed sh ->
  Exact (validate_shape limits sh) (shape_wf limits sh) tt
    (units RConstantBytes (zlen (items (ws_data sh)))) 0.
Proof.
  intros (Hr & Hb & Hd). unfold validate_shape, shape_wf.
  destruct Hlim as (_ & _ & _ & _ & _ & _ & _ & _ & Hmax).
  set (n := zlen (items (ws_data sh))). pose proof (zlen_nonneg (items (ws_data sh))) as Hn.
  eapply Exact_iff; [eapply Exact_bind|..].
  - apply Exact_lift. intros x. apply check_limit_Ok.
  - eapply (Exact_bind _ _ _ _ (n = 0 \/ n = 8 * ws_rank sh)).
    + instantiate (1 := 0%nat). instantiate (1 := Stats_default). instantiate (1 := tt).
      destruct (Z.eqb_spec n 0) as [E|E]; simpl.
      { eapply Exact_iff; [apply Exact_ret|..]; [tauto|done|done]. }
      unfold checked_mul. zcmp.
      eapply Exact_iff; [apply Exact_if, Exact_ret|..]; [|done|done].
      rewrite negb_false_iff, Z.eqb_eq. lia.
    + by apply Exact_count.
  - rewrite <- zlen_0. fold n. lia.
  - by rewrite !stats_add_0_l.
  - done.
Qed.

Lemma check_dimensions_Ok shape x :
  check_dimensions shape = Ok x <-> Forall (fun d => 1 <= d) shape /\ x = tt.
Proof.
  destruct x. induction shape as [|d shape IH]; simpl; [naive_solver|].
  rewrite Forall_cons. destruct (Z.ltb_spec d 1); naive_solver lia.
Qed.

Lemma check_tensor_shape_Ok t x :
  check_tensor_shape limits t = Ok x <->
  (if wt_is_unranked t then items (wt_shape t) = []
   else exists shape, wt_shape t = Some shape /\ zlen shape <= lim_max_rank limits /\
          Forall (fun d => 1 <= d) shape) /\ x = tt.
Proof.
  unfold check_tensor_shape. destruct (wt_is_unranked t), (wt_shape t) as [shape|], x; simpl.
  - rewrite <- zlen_0. destruct (Z.eqb_spec (zlen shape) 0); simpl; naive_solver.
  - naive_solver.
  - destruct (check_limit (zlen shape) (lim_max_rank limits) RRank) as [[]|] eqn:E.
    + apply check_limit_Ok in E as [E _]. rewrite check_dimensions_Ok. naive_solver.
    + split; [done|]. intros ((sh & [= <-] & Hle & _) & _). exfalso.
      by rewrite (proj2 (check_limit_Ok (zlen shape) (lim_max_rank limits) RRank tt)) in E.
  - naive_solver.
Qed.

Lemma check_external_Ok embedded offset external x :
  0 <= embedded -> is_u64 offset -> is_u64 external ->
  check_external bytes embedded offset external = Ok x <->
  (if external =? 0 then offset = 0
   else embedded = 0 /\ 1 < offset /\ offset + external <= zlen bytes) /\ x = tt.
Proof.
  intros He Ho Hx. destruct x. unfold check_external.
  destruct (Z.eqb_spec external 0) as [E|E]; simpl.
  - destruct (Z.eqb_spec offset 0); naive_solver.
  - destruct (Z.eqb_spec embedded 0), (Z.leb_spec offset 1); simpl; try naive_solver lia.
    unfold checked_add. destruct (Z.leb_spec (offset + external) USIZE_MAX); [|naive_solver lia].
    destruct (Z.leb_spec (offset + external) (zlen bytes)); naive_solver lia.
Qed.

Lemma dtype_checks d :
  ((d =? 0) || negb (dtype_has_name d) = false /\ negb (DType.is_tosa_1_0 d) = false) <->
  DType.BOOL <= d <= DType.FP8E5M2.
Proof.
  unfold dtype_has_name, DType.is_tosa_1_0, in_range, DType.BOOL, DType.FP8E5M2.
  destruct (Z.eqb_spec d 0), (Z.leb_spec 0 d), (Z.leb_spec d 18), (Z.leb_spec 1 d),
    (Z.leb_spec d 12); simpl; intuition (done || lia).
Qed.

Lemma Exact_tensor t : tensor_typed t ->
  Exact (validate_tensor bytes limits t) (tensor_wf bytes limits t) tt
    (units RConstantBytes (zlen (items (wt_data t)) + wt_size t)) 0.
Proof.
  intros (Hd & Ho & Hx & Hdata & _). unfold validate_tensor, tensor_wf. rewrite <- dtype_checks.
  pose proof (zlen_nonneg (items (wt_data t))) as Hn.
  assert (stats_nonneg (units RConstantBytes (zlen (items (wt_data t)) + wt_size t))) as Hnn
    by (apply stats_nonneg_units; lia).
  eapply Exact_iff; [apply Exact_if, Exact_if|..].
  - eapply Exact_bind_dep; [apply Exact_lift, check_tensor_shape_Ok|exact Hnn|intros _].
    eapply Exact_iff; [eapply Exact_bind_dep; [apply Exact_lift; intros x; by apply check_external_Ok|exact Hnn|]|..].
    + intros Hext. unfold checked_add. destruct (Z.leb_spec (zlen (items (wt_data t)) + wt_size t) USIZE_MAX) as [|Hov].
      * apply Exact_count; [done|lia].
      * exfalso. destruct (Z.eqb_spec (wt_size t) 0); lia.
    + reflexivity.
    + apply stats_add_0_l.
    + reflexivity.
  - pose proof (zlen_0 (items (wt_data t))). destruct (wt_size t =? 0); tauto.
  - apply stats_add_0_l.
  - reflexivity.
Qed.

(** *** Blocks *)

Lemma tensor_fold tensors ns vs :
  fold_left (fun (acc : list str * list str) t =>
    (acc.1 ++ [the_name (wt_name t)],
     if wt_variable t then acc.2 ++ [the_name (wt_name t)] else acc.2)) tensors (ns, vs) =
  (ns ++ ((fun t => the_name (wt_name t)) <$> tensors),
   vs ++ ((fun t => the_name (wt_name t)) <$> filter (fun t => wt_variable t = true) tensors)).
Proof.
  revert ns vs. induction tensors as [|t tensors IH]; intros ns vs; simpl; [by rewrite !app_nil_r|].
  rewrite IH, filter_cons. destruct (wt_variable t); simpl; by rewrite <- ?app_assoc.
Qed.

Lemma name_fold {A} (f : A -> str) xs ns :
  fold_left (fun acc x => acc ++ [f x]) xs ns = ns ++ (f <$> xs).
Proof.
  revert ns. induction xs as [|x xs IH]; intros ns; simpl; [by rewrite app_nil_r|].
  by rewrite IH, <- app_assoc.
Qed.

Lemma Exact_tensors b : block_typed b ->
  Exact (tensor_loop bytes limits (items (wb_tensors b)))
    (Forall (fun t => named limits (wt_name t) /\ tensor_wf bytes limits t) (items (wb_tensors b)))
    (tensor_names b, variables b)
    (units RConstantBytes
       (sum_by (fun t => zlen (items (wt_data t)) + wt_size t) (items (wb_tensors b)))) 0.
Proof.
  intros (_ & _ & Ht & _). unfold tensor_loop.
  rewrite <- stats_sum_units. rewrite <- (sum_list_zero (items (wb_tensors b))).
  eapply Exact_value; [apply (Exact_for_each alloc limits _ _ _
    (fun t acc => (acc.1 ++ [the_name (wt_name t)],
                   if wt_variable t then acc.2 ++ [the_name (wt_name t)] else acc.2)))|].
  - intros t [ns vs] Hin. eapply Exact_iff; [eapply Exact_bind; [apply Exact_name|]|..].
    + eapply Exact_bind; [eapply Exact_tensor, (elem_of_In_Forall _ _ _ Ht Hin)|apply Exact_ret].
    + tauto.
    + by rewrite stats_add_0_l, stats_add_0_r.
    + done.
  - by rewrite tensor_fold.
Qed.

Lemma Exact_shapes b : block_typed b ->
  Exact (shape_loop limits (items (wb_shapes b)))
    (Forall (fun s => named limits (ws_name s) /\ shape_wf limits s) (items (wb_shapes b)))
    (shape_names b)
    (units RConstantBytes (sum_by (fun s => zlen (items (ws_data s))) (items (wb_shapes b)))) 0.
Proof.
  intros (_ & _ & _ & Hs & _). unfold shape_loop.
  rewrite <- stats_sum_units. rewrite <- (sum_list_zero (items (wb_shapes b))).
  eapply Exact_value; [apply (Exact_for_each alloc limits _ _ _
    (fun s acc => acc ++ [the_name (ws_name s)]))|].
  - intros t ns Hin. eapply Exact_iff; [eapply Exact_bind; [apply Exact_name|]|..].
    + eapply Exact_bind; [eapply Exact_shape, (elem_of_In_Forall _ _ _ Hs Hin)|apply Exact_ret].
    + tauto.
    + by rewrite stats_add_0_l, stats_add_0_r.
    + done.
  - by rewrite name_fold.
Qed.

Lemma produced_fold vars os produced : StronglySorted str_le vars ->
  fold_left (fun acc o => push_produced vars (items (wo_outputs o)) acc) os produced =
  produced ++ filter (fun n => n ∉ vars) (os ≫= (fun o => items (wo_outputs o))).
Proof.
  intros Hs. revert produced. induction os as [|o os IH]; intros produced; simpl; [by rewrite app_nil_r|].
  by rewrite IH, push_produced_filter, filter_app, app_assoc.
Qed.

Lemma Exact_operators os syms vars : StronglySorted str_le syms -> StronglySorted str_le vars ->
  Exact (operator_loop limits os syms vars) (Forall (operator_wf limits syms) os)
    (filter (fun n => n ∉ vars) (os ≫= (fun o => items (wo_outputs o))))
    (units REdges (sum_by operator_edges os)) 0.
Proof.
  intros Hs Hv. unfold operator_loop. rewrite <- stats_sum_units, <- (sum_list_zero os).
  eapply Exact_value; [apply (Exact_for_each alloc limits _ _ _
    (fun o acc => push_produced vars (items (wo_outputs o)) acc))|].
  - intros o acc _. by apply Exact_operator.
  - by rewrite produced_fold.
Qed.

(** The count of produced names, when it fits. *)
Lemma producer_count_le os limit : limit <= USIZE_MAX ->
  sum_by (fun o => zlen (items (wo_outputs o))) os <= limit -> producer_count os <= limit.
Proof.
  intros Hl Hs. unfold producer_count.
  enough (forall acc, 0 <= acc -> acc + sum_by (fun o => zlen (items (wo_outputs o))) os <= limit ->
    fold_left (fun count operator =>
      c ← count; checked_add USIZE_MAX c (zlen (items (wo_outputs operator)))) os (Some acc) =
    Some (acc + sum_by (fun o => zlen (items (wo_outputs o))) os)) as H.
  { rewrite (H 0) by lia. simpl. lia. }
  clear Hs. induction os as [|o os IH]; intros acc Ha Hs; simpl in *; [f_equal; lia|].
  pose proof (zlen_nonneg (items (wo_outputs o))).
  pose proof (sum_by_nonneg (fun o => zlen (items (wo_outputs o))) os ltac:(intros; apply zlen_nonneg)).
  unfold checked_add at 2. zcmp. rewrite IH by lia. f_equal. lia.
Qed.

Lemma refs_wf_ext s1 s2 refs : (forall x, x ∈ s1 <-> x ∈ s2) ->
  refs_wf limits s1 refs <-> refs_wf limits s2 refs.
Proof. intros H. unfold refs_wf. rewrite !Forall_forall. setoid_rewrite H. done. Qed.

Lemma operator_wf_ext s1 s2 o : (forall x, x ∈ s1 <-> x ∈ s2) ->
  operator_wf limits s1 o <-> operator_wf limits s2 o.
Proof.
  intros H. unfold operator_wf.
  by rewrite (refs_wf_ext s1 s2 (wo_inputs o)), (refs_wf_ext s1 s2 (wo_outputs o)).
Qed.

Lemma filter_notin_ext (v w l : list str) : (forall x, x ∈ v <-> x ∈ w) ->
  filter (fun n => n ∉ v) l = filter (fun n => n ∉ w) l.
Proof. intros H. apply list_filter_iff. intros x. by rewrite H. Qed.

Lemma NoDup_sorted_names b : NoDup (sort_names (tensor_names b) ++ sort_names (shape_names b)) <->
  NoDup (symbols b).
Proof. unfold symbols. by rewrite !sort_names_perm. Qed.

Lemma block_outputs_le os :
  sum_by (fun o => zlen (items (wo_outputs o))) os <= sum_by operator_edges os.
Proof. apply sum_by_le. intros o. unfold operator_edges. pose proof (zlen_nonneg (items (wo_inputs o))). lia. Qed.

Lemma Exact_block b : block_typed b ->
  Exact (validate_block alloc bytes limits b) (block_wf bytes limits b) tt (block_stats b) 5.
Proof.
  intros Hb. pose proof Hb as (Hnt & Hns & _).
  set (syms := sort_names (sort_names (tensor_names b) ++ sort_names (shape_names b))).
  assert (forall x, x ∈ syms <-> x ∈ symbols b) as Hsyms.
  { intros x. unfold syms, symbols. rewrite elem_of_sort_names, !elem_of_app, !elem_of_sort_names. done. }
  assert (StronglySorted str_le syms) as Hsort by apply sort_names_sorted.
  set (edges := zlen (items (wb_inputs b)) + (zlen (items (wb_outputs b)) +
    sum_by operator_edges (items (wb_operators b)))).
  eapply Exact_implied; [eapply Exact_iff; [unfold validate_block|..]|].
  - do 3 (eapply Exact_bind; [apply Exact_count; [done|apply zlen_nonneg]|]).
    unfold checked_add. rewrite (proj2 (Z.leb_le _ _)) by lia.
    do 2 (eapply Exact_bind; [apply Exact_reserve|]).
    eapply Exact_bind; [by apply Exact_tensors|]. cbv iota beta.
    eapply Exact_bind; [apply Exact_unique|].
    eapply Exact_bind; [apply Exact_reserve|].
    eapply Exact_bind; [by apply Exact_shapes|].
    eapply Exact_bind; [apply Exact_unique|].
    eapply Exact_bind; [apply Exact_reserve|].
    eapply Exact_bind; [apply Exact_unique|].
    do 2 (eapply Exact_bind; [by apply Exact_refs|]).
    eapply Exact_bind; [apply Exact_lift; intros x; apply check_limit_Ok|].
    eapply Exact_bind; [apply Exact_reserve|].
    eapply Exact_bind; [apply Exact_operators; [done|apply sort_names_sorted]|].
    apply Exact_if, Exact_ret.
  - reflexivity.
  - apply stats_eq; cbn; lia.
  - reflexivity.
  - intros st Hst Hw. fold syms.
    assert (producer_count (items (wb_operators b)) <= max_edges limits) as Hp.
    { destruct Hlim as (_ & _ & _ & _ & _ & _ & He & _).
      apply producer_count_le; [done|]. pose proof (block_outputs_le (items (wb_operators b))).
      unfold within, stats_nonneg in *. simpl in *.
      pose proof (zlen_nonneg (items (wb_inputs b))). pose proof (zlen_nonneg (items (wb_outputs b))). lia. }
    rewrite sorted_duplicates, NoDup_sorted_names.
    rewrite (filter_notin_ext (sort_names (variables b)) (variables b)) by (intros; apply elem_of_sort_names).
    rewrite (refs_wf_ext syms (symbols b) (wb_inputs b)), (refs_wf_ext syms (symbols b) (wb_outputs b)) by done.
    assert (Forall (operator_wf limits syms) (items (wb_operators b)) <->
            Forall (operator_wf limits (symbols b)) (items (wb_operators b))) as ->.
    { rewrite !Forall_forall. setoid_rewrite (operator_wf_ext syms (symbols b)); done. }
    assert (NoDup (symbols b) -> NoDup (tensor_names b) /\ NoDup (shape_names b)) as Hnd.
    { unfold symbols. rewrite NoDup_app. tauto. }
    unfold block_wf, written. tauto.
Qed.

(** *** Regions and graphs *)

Lemma sum_list_const {A} (n : nat) (xs : list A) : sum_list ((fun _ => n) <$> xs) = (n * length xs)%nat.
Proof. induction xs as [|x xs IH]; simpl; [lia|]. unfold fmap in IH. lia. Qed.

Lemma Exact_region r : Forall block_typed (items (wr_blocks r)) ->
  Exact (validate_region alloc bytes limits r) (region_wf bytes limits r) tt (region_stats r)
    (region_reservations r).
Proof.
  intros Hr. eapply Exact_iff; [unfold validate_region|..].
  - eapply Exact_bind; [apply Exact_count; [done|apply zlen_nonneg]|].
    eapply Exact_bind; [apply Exact_reserve|].
    eapply Exact_bind.
    { eapply Exact_value; [apply (Exact_for_each alloc limits _ _
        (fun b => named limits (wb_name b) /\ block_wf bytes limits b)
        (fun b acc => acc ++ [the_name (wb_name b)]) block_stats (fun _ => 5%nat))|].
      - intros b ns Hin. eapply Exact_iff; [eapply Exact_bind; [apply Exact_name|]|..].
        + eapply Exact_bind; [eapply Exact_block, (elem_of_In_Forall _ _ _ Hr Hin)|apply Exact_ret].
        + tauto.
        + by rewrite stats_add_0_l, stats_add_0_r.
        + done.
      - by rewrite name_fold. }
    eapply Exact_bind; [apply Exact_unique|]. apply Exact_ret.
  - rewrite app_nil_l. unfold region_wf. tauto.
  - by rewrite !stats_add_0_l, !stats_add_0_r.
  - rewrite sum_list_const. unfold region_reservations. lia.
Qed.

Lemma Exact_graph g : graph_typed g ->
  Exact (validate_graph alloc bytes limits g) (graph_wf bytes limits g) tt (graph_stats g)
    (graph_reservations g).
Proof.
  intros Hg. eapply Exact_iff; [unfold validate_graph|..].
  - eapply Exact_bind; [apply Exact_count; [done|apply zlen_nonneg]|].
    eapply Exact_bind; [apply Exact_reserve|].
    eapply Exact_bind.
    { eapply Exact_value; [apply (Exact_for_each alloc limits _ _
        (fun r => named limits (wr_name r) /\ region_wf bytes limits r)
        (fun r acc => acc ++ [the_name (wr_name r)]) region_stats region_reservations)|].
      - intros r ns Hin. eapply Exact_iff; [eapply Exact_bind; [apply Exact_name|]|..].
        + eapply Exact_bind; [eapply Exact_region, (elem_of_In_Forall _ _ _ Hg Hin)|apply Exact_ret].
        + tauto.
        + by rewrite stats_add_0_l, stats_add_0_r.
        + lia.
      - by rewrite name_fold. }
    eapply Exact_bind; [apply Exact_unique|]. apply Exact_ret.
  - rewrite app_nil_l. unfold graph_wf. tauto.
  - by rewrite !stats_add_0_l, !stats_add_0_r.
  - unfold graph_reservations. lia.
Qed.
End Checks.
