(* ===== verification/TosaView.v ===== *)
(** * Borrowed views of a parsed model

    crates/virtio-accel-tosa/src/view.rs: the iterators and accessors over a
    verified graph.  An accessor with an [expect] or a slice index returns an
    [option]; [None] is the panic. *)

From Stdlib Require Import ZArith Lia.
From stdpp Require Import prelude list sorting.
From S2P Require Import Prelude TosaTypes TosaNumeric TosaArtifact TosaWire TosaValidate TosaGraph.

(** ** The [table_iter!] iterators, and [StringList] *)

Record TableIter (A : Type) := { ti_vector : option (list A); ti_index : Z }.
Arguments ti_vector {A} _.
Arguments ti_index {A} _.

Definition TableIter_new {A} (v : option (list A)) : TableIter A := {| ti_vector := v; ti_index := 0 |}.

Definition TableIter_next {A} (it : TableIter A) : option A * TableIter A :=
  match ti_vector it with
  | None => (None, it)
  | Some vector =>
      if zlen vector <=? ti_index it then (None, it)
      else (vector !! Z.to_nat (ti_index it),
            {| ti_vector := ti_vector it; ti_index := ti_index it + 1 |})
  end.

Definition TableIter_size_hint {A} (it : TableIter A) : Z :=
  match ti_vector it with None => 0 | Some v => Z.max 0 (zlen v - ti_index it) end.

(** The items a [for] loop sees, with at most [fuel] steps. *)
Fixpoint TableIter_collect {A} (fuel : nat) (it : TableIter A) : list A :=
  match fuel with
  | O => []
  | S fuel =>
      match TableIter_next it with
      | (Some x, it) => x :: TableIter_collect fuel it
      | (None, _) => []
      end
  end.

(** ** Accessors *)

Definition Model_regions (m : Model) : TableIter WireRegion := TableIter_new (wg_regions (mo_graph m)).

Definition Region_name (r : WireRegion) : option str := wr_name r.
Definition Region_blocks (r : WireRegion) : TableIter WireBlock := TableIter_new (wr_blocks r).

Definition BasicBlock_name (b : WireBlock) : option str := wb_name b.
Definition BasicBlock_tensors (b : WireBlock) : TableIter WireTensor := TableIter_new (wb_tensors b).
Definition BasicBlock_shapes (b : WireBlock) : TableIter WireShape := TableIter_new (wb_shapes b).
Definition BasicBlock_operators (b : WireBlock) : TableIter WireOperator := TableIter_new (wb_operators b).
Definition BasicBlock_inputs (b : WireBlock) : TableIter str := TableIter_new (wb_inputs b).
Definition BasicBlock_outputs (b : WireBlock) : TableIter str := TableIter_new (wb_outputs b).

Definition Tensor_name (t : WireTensor) : option str := wt_name t.
Definition Tensor_dtype (t : WireTensor) : Z := wt_type t.
Definition Tensor_rank (t : WireTensor) : option Z :=
  if wt_is_unranked t then None
  else Some (match wt_shape t with Some shape => zlen shape | None => 0 end).
Definition Tensor_dimensions (t : WireTensor) : list Z := items (wt_shape t).
Definition Tensor_dimension (t : WireTensor) (index : Z) : option Z :=
  shape ← wt_shape t;
  if negb (wt_is_unranked t) then
    if index <? zlen shape then shape !! Z.to_nat index else None
  else None.
Definition Tensor_data (t : WireTensor) : list Z := items (wt_data t).
Definition Tensor_is_variable (t : WireTensor) : bool := wt_variable t.
Definition Tensor_variable_name (t : WireTensor) : option str := wt_variable_name t.
Definition Tensor_external_data_range (t : WireTensor) : option (Z * Z) :=
  let size := wt_size t in
  if negb (size =? 0) then Some (wt_offset t, size) else None.

Definition Shape_name (s : WireShape) : option str := ws_name s.
Definition Shape_rank (s : WireShape) : Z := ws_rank s.
Definition Shape_data (s : WireShape) : list Z := items (ws_data s).

Record ShapeValues := { sv_data : list Z; sv_index : Z; sv_len : Z }.

Definition Shape_values (s : WireShape) : option ShapeValues :=
  let data := Shape_data s in
  if negb (zlen data =? 0) || (Shape_rank s =? 0)
  then Some {| sv_data := data; sv_index := 0; sv_len := Shape_rank s |}
  else None.

(** [i64::from_le_bytes] *)
Definition i64_from_le_bytes (bs : list Z) : Z := as_signed 64 (le_value bs).

(** One step: the outer [option] is the panic of the slice index. *)
Definition ShapeValues_next (it : ShapeValues) : option (option Z * ShapeValues) :=
  if sv_len it <=? sv_index it then Some (None, it) else
  let start := sv_index it * 8 in
  if zlen (sv_data it) <? start + 8 then None else
  Some (Some (i64_from_le_bytes (slice start 8 (sv_data it))),
        {| sv_data := sv_data it; sv_index := sv_index it + 1; sv_len := sv_len it |}).

Definition ShapeValues_size_hint (it : ShapeValues) : Z := Z.max 0 (sv_len it - sv_index it).

Fixpoint ShapeValues_collect (fuel : nat) (it : ShapeValues) : option (list Z) :=
  match fuel with
  | O => Some []
  | S fuel =>
      r ← ShapeValues_next it;
      match r with
      | (None, _) => Some []
      | (Some v, it) => vs ← ShapeValues_collect fuel it; Some (v :: vs)
      end
  end.

(** Every value of a shape, as its callers read them. *)
Definition shape_values (s : WireShape) : option (option (list Z)) :=
  match Shape_values s with
  | None => Some None
  | Some it => Some <$> ShapeValues_collect (Z.to_nat (sv_len it)) it
  end.

Definition Operator_op (o : WireOperator) : Z := wo_op o.
Definition Operator_attribute_kind (o : WireOperator) : Z := wo_attribute_type o.
Definition Operator_attributes (o : WireOperator) : option OpAttributes := from_wire o.
Definition Operator_inputs (o : WireOperator) : TableIter str := TableIter_new (wo_inputs o).
Definition Operator_outputs (o : WireOperator) : TableIter str := TableIter_new (wo_outputs o).
Definition Operator_location (o : WireOperator) : option str := location ← wo_location o; location.

(** [Model::artifact_ref]: format, identity words, payload and residency. *)
Record ArtifactEnvelope := {
  ae_format : Z; ae_target : list Z; ae_payload : list Z; ae_resident_bytes : Z;
}.

Definition artifact_ref (m : Model) (target : Target) (resident_bytes : Z)
    : result ArtifactEnvelope ArtifactError :=
  if negb (bool_decide (tgt_version target = mo_version m))
  then Err (ArtifactVersionMismatch (mo_version m) (tgt_version target))
  else Ok {| ae_format := ARTIFACT_FORMAT; ae_target := to_identity target;
             ae_payload := mo_bytes m; ae_resident_bytes := resident_bytes |}.

(** ** Lemmas *)

Lemma collect_from {A} (v : list A) (fuel : nat) (i : nat) : (length v - i <= fuel)%nat ->
  TableIter_collect fuel {| ti_vector := Some v; ti_index := Z.of_nat i |} = drop i v.
Proof.
  revert i. induction fuel as [|fuel IH]; intros i Hf.
  { simpl. rewrite drop_ge by lia. done. }
  cbn [TableIter_collect TableIter_next ti_vector ti_index].
  unfold zlen. destruct (Z.leb_spec (Z.of_nat (length v)) (Z.of_nat i)).
  - rewrite drop_ge by lia. done.
  - rewrite Nat2Z.id. destruct (lookup_lt_is_Some_2 v i ltac:(lia)) as [x Hx]. rewrite Hx.
    rewrite (drop_S v x i Hx). f_equal.
    replace (Z.of_nat i + 1) with (Z.of_nat (S i)) by lia. apply IH. lia.
Qed.

(** An iterator yields the vector and its size hint is exact at every step. *)
Lemma iterator_exact {A} (v : option (list A)) (fuel : nat) : (length (items v) <= fuel)%nat ->
  TableIter_collect fuel (TableIter_new v) = items v /\
  TableIter_size_hint (TableIter_new v) = zlen (items v).
Proof.
  intros Hf. unfold TableIter_new, TableIter_size_hint. destruct v as [v|]; simpl in *.
  - split; [|pose proof (zlen_nonneg v); lia].
    change 0 with (Z.of_nat 0). rewrite collect_from by lia. done.
  - by destruct fuel.
Qed.

Lemma ShapeValues_total data len i fuel :
  0 <= i -> zlen data = 8 * len -> (Z.to_nat (len - i) <= fuel)%nat ->
  exists vs, ShapeValues_collect fuel {| sv_data := data; sv_index := i; sv_len := len |} = Some vs /\
    zlen vs = Z.max 0 (len - i).
Proof.
  intros Hi Hd. revert i Hi. induction fuel as [|fuel IH]; intros i Hi Hf.
  { exists []. split; [done|]. unfold zlen. simpl. lia. }
  cbn [ShapeValues_collect]. unfold ShapeValues_next. cbn [sv_data sv_index sv_len].
  destruct (Z.leb_spec len i).
  { exists []. split; [done|]. unfold zlen. simpl. lia. }
  rewrite (proj2 (Z.ltb_ge _ _)) by lia. cbn [mbind option_bind].
  destruct (IH (i + 1) ltac:(lia) ltac:(lia)) as (vs & -> & Hl). cbn [mbind option_bind].
  eexists. split; [reflexivity|]. unfold zlen in *. simpl length. lia.
Qed.

(** * What parsing guarantees

    The theorems about [parse_with_limits] and the views of an accepted
    model. *)

Definition verifier_options (limits : Limits) : VerifierOptions :=
  {| vo_max_depth := max_flatbuffer_depth limits; vo_max_tables := max_flatbuffer_tables limits;
     vo_max_apparent_size := max_apparent_bytes limits;
     vo_ignore_missing_null_terminator := false |}.

Definition stable_version (v : WireVersion) : Prop :=
  wv_major v = 1 /\ wv_minor v = 0 /\ wv_patch v = 0 /\ wv_draft v = false.

(** What [parse_with_limits] requires of its input. *)
Definition acceptable (has_identifier : list Z -> bool)
    (root : VerifierOptions -> list Z -> option WireGraph) (alloc : nat -> bool)
    (bytes : list Z) (limits : Limits) (g : WireGraph) : Prop :=
  8 <= zlen bytes <= max_model_bytes limits /\ has_identifier bytes = true /\
  root (verifier_options limits) bytes = Some g /\ stable_version (wg_version g) /\
  graph_wf bytes limits g /\ within limits (graph_stats g) /\
  reserved alloc 0 (graph_reservations g).

Section Parsing.
Context (has_identifier : list Z -> bool) (root : VerifierOptions -> list Z -> option WireGraph).
Context (alloc : nat -> bool) (bytes : list Z) (limits : Limits).
Hypothesis Hlim : limits_typed limits.
Hypothesis Hbytes : zlen bytes <= USIZE_MAX.
(** A verified buffer delivers fields of their declared widths and unions
    whose table matches the tag. *)
Hypothesis Hverified : forall opts g, root opts bytes = Some g -> graph_typed g.

Lemma stable_version_spec v :
  (wv_major v =? 1) && (wv_minor v =? 0) && (wv_patch v =? 0) && negb (wv_draft v) = true <->
  stable_version v.
Proof.
  unfold stable_version. rewrite !andb_true_iff, !Z.eqb_eq, negb_true_iff. tauto.
Qed.

Lemma parse_iff m :
  parse_with_limits has_identifier root alloc bytes limits = Ok m <->
  exists g, acceptable has_identifier root alloc bytes limits g /\
    m = {| mo_graph := g; mo_bytes := bytes; mo_version := TOSA_1_0; mo_stats := graph_stats g |}.
Proof.
  unfold parse_with_limits, acceptable. fold (verifier_options limits).
  destruct (Z.eqb_spec (zlen bytes) 0) as [E|E].
  { split; [done|]. intros (g & ? & _). lia. }
  unfold check_limit. destruct (Z.ltb_spec (max_model_bytes limits) (zlen bytes)).
  { split; [done|]. intros (g & ? & _). lia. }
  destruct (Z.ltb_spec (zlen bytes) 8); simpl.
  { split; [done|]. intros (g & ? & _). lia. }
  destruct (has_identifier bytes); simpl.
  2: { split; [done|]. naive_solver. }
  destruct (root (verifier_options limits) bytes) as [g|] eqn:Hg; simpl.
  2: { split; [done|]. naive_solver. }
  pose proof (stable_version_spec (wg_version g)) as Hv.
  destruct (_ && _ && _ && _); simpl.
  2: { split; [done|]. intros (g' & (_ & _ & [= <-] & H' & _) & _). apply Hv in H'. done. }
  destruct (Exact_graph alloc bytes limits Hlim Hbytes g (Hverified _ _ Hg)) as [_ HE].
  set (s0 := {| vs_stats := Stats_default; vs_reservations := 0 |}).
  assert (fits limits (vs_stats s0)) as Hs0.
  { split; [|apply stats_nonneg_zero]. destruct Hlim as [H' _]. exact H'. }
  destruct (validate_graph alloc bytes limits g s0) as [[[] s']|e] eqn:Hr; simpl.
  - apply HE in Hr as (Hwf & _ & Hin & Hres & ->); [|done]. simpl.
    rewrite stats_add_0_l in *. split.
    + intros [= <-]. exists g. split; [|done]. split_and!; try done. by apply Hv.
    + intros (g' & (_ & _ & [= <-] & _) & ->). done.
  - split; [done|]. intros (g' & (_ & _ & [= <-] & _ & Hwf & Hin & Hres) & _). exfalso.
    assert (validate_graph alloc bytes limits g s0 =
      Ok (tt, {| vs_stats := graph_stats g; vs_reservations := graph_reservations g |})) as Hok.
    { apply HE; [done|]. simpl. rewrite stats_add_0_l. done. }
    rewrite Hok in Hr. done.
Qed.

(** ** The views of an accepted model *)

Lemma accepted_wf m : parse_with_limits has_identifier root alloc bytes limits = Ok m ->
  graph_wf bytes limits (mo_graph m) /\ graph_typed (mo_graph m).
Proof. intros (g & (_ & _ & Hg & _ & Hwf & _) & ->)%parse_iff. split; [done|]. by eapply Hverified. Qed.
End Parsing.

Lemma named_Some limits o : named limits o -> is_Some o.
Proof. destruct o; [done|intros []]. Qed.

Lemma shape_values_total limits s : shape_wf limits s -> shape_typed s ->
  exists r, shape_values s = Some r /\
    match r with Some vs => zlen vs = ws_rank s | None => items (ws_data s) = [] /\ ws_rank s <> 0 end.
Proof.
  intros (Hr & Hd) (Hr' & _ & _). unfold shape_values, Shape_values, Shape_rank, Shape_data.
  destruct (Z.eqb_spec (zlen (items (ws_data s))) 0) as [E|E]; simpl.
  - destruct (Z.eqb_spec (ws_rank s) 0) as [E0|E0]; simpl.
    + rewrite E0. simpl. exists (Some []). done.
    + exists None. split; [done|]. split; [by apply zlen_0|done].
  - destruct Hd as [Hd|Hd]; [apply zlen_0 in Hd; lia|].
    destruct (ShapeValues_total (items (ws_data s)) (ws_rank s) 0 (Z.to_nat (ws_rank s)))
      as (vs & Hvs & Hl); [lia|done|lia|].
    rewrite Hvs. simpl. exists (Some vs). split; [done|]. lia.
Qed.

(** A readable operator: its attribute view exists and is that of its opcode. *)
Definition operator_readable (o : WireOperator) : Prop :=
  exists a, Operator_attributes o = Some a /\ attributes_op a = Operator_op o.

Definition shape_readable (s : WireShape) : Prop :=
  is_Some (Shape_name s) /\
  exists r, shape_values s = Some r /\
    match r with Some vs => zlen vs = Shape_rank s | None => Shape_data s = [] end.

Definition block_readable (b : WireBlock) : Prop :=
  is_Some (BasicBlock_name b) /\
  Forall (fun t => is_Some (Tensor_name t)) (items (wb_tensors b)) /\
  Forall shape_readable (items (wb_shapes b)) /\
  Forall operator_readable (items (wb_operators b)).

Lemma operator_wf_readable limits syms o :
  operator_wf limits syms o -> union_ok o -> operator_readable o.
Proof.
  intros (_ & Ht & [a Ha] & _) Hu. apply from_wire_total; try done. by rewrite Ha.
Qed.

Lemma block_wf_readable bytes limits b : named limits (wb_name b) ->
  block_wf bytes limits b -> block_typed b -> block_readable b.
Proof.
  intros Hn (Ht & Hs & _ & _ & _ & Ho & _) (_ & _ & _ & Hst & Hot).
  split; [by eapply named_Some|]. split; [|split].
  - eapply Forall_impl; [exact Ht|]. intros t [? _]. by eapply named_Some.
  - apply Forall_forall. intros s Hin. rewrite Forall_forall in Hs, Hst.
    destruct (Hs s Hin) as [? Hsw]. split; [by eapply named_Some|].
    destruct (shape_values_total limits s Hsw (Hst s Hin)) as (r & Hr & Hm). exists r.
    split; [done|]. destruct r; naive_solver.
  - apply Forall_forall. intros o Hin. rewrite Forall_forall in Ho, Hot.
    eapply operator_wf_readable; [by apply Ho|]. by apply Hot.
Qed.

Definition model_readable (m : Model) : Prop :=
  Forall (fun r => is_Some (Region_name r) /\ Forall block_readable (items (wr_blocks r)))
    (items (wg_regions (mo_graph m))).

Lemma graph_wf_readable bytes limits g : graph_wf bytes limits g -> graph_typed g ->
  Forall (fun r => is_Some (Region_name r) /\ Forall block_readable (items (wr_blocks r)))
    (items (wg_regions g)).
Proof.
  intros (Hr & _) Ht. apply Forall_forall. intros r Hin.
  unfold graph_typed in Ht. rewrite Forall_forall in Hr, Ht.
  destruct (Hr r Hin) as [Hn (Hb & _)]. specialize (Ht r Hin).
  split; [by eapply named_Some|]. apply Forall_forall. intros b Hbin.
  rewrite Forall_forall in Hb, Ht. destruct (Hb b Hbin) as [Hbn Hbw].
  eapply block_wf_readable; [done|done|by apply Ht].
Qed.

(** ** Theorems *)

(** C23: parsing accepts exactly the stable well-formed graphs within the
    limits: under the verifier's guarantees [parse_with_limits] succeeds if
    and only if the buffer has its size and identifier, the graph is version
    1.0.0, every name is present, short and unique, every reference resolves,
    every tensor, shape and operator is well-formed, no non-variable symbol
    has two producers, all counts are within the limits and memory suffices;
    the model then carries the exact counts. *)
Theorem parse_accepts_exactly has_identifier root alloc bytes limits m :
  limits_typed limits -> zlen bytes <= USIZE_MAX ->
  (forall opts g, root opts bytes = Some g -> graph_typed g) ->
  parse_with_limits has_identifier root alloc bytes limits = Ok m <->
  exists g, acceptable has_identifier root alloc bytes limits g /\
    m = {| mo_graph := g; mo_bytes := bytes; mo_version := TOSA_1_0; mo_stats := graph_stats g |}.
Proof. intros Hlim Hb Hv. by apply parse_iff. Qed.

(** C24: no accessor of an accepted model panics: every [expect] on a region,
    block, tensor or shape name succeeds, every operator's attribute view
    exists and is the one of its opcode, and the values of a shape are exactly
    its rank many, read within its data. *)
Theorem views_never_panic has_identifier root alloc bytes limits m :
  limits_typed limits -> zlen bytes <= USIZE_MAX ->
  (forall opts g, root opts bytes = Some g -> graph_typed g) ->
  parse_with_limits has_identifier root alloc bytes limits = Ok m -> model_readable m.
Proof.
  intros Hlim Hb Hv Hp. unfold model_readable.
  destruct (accepted_wf _ _ _ _ _ Hlim Hb Hv _ Hp) as [Hwf Ht].
  exact (graph_wf_readable _ _ _ Hwf Ht).
Qed.

Module ParseDemo.
(** [%main(a) { b = IDENTITY(a); return b }] with a constant shape [s]. *)
Definition demo_tensor (n : str) : WireTensor :=
  {| wt_name := Some n; wt_shape := Some [2; 3]; wt_type := DType.INT8; wt_data := None;
     wt_variable := false; wt_is_unranked := false; wt_variable_name := None;
     wt_offset := 0; wt_size := 0 |}.

Definition demo_operator : WireOperator :=
  {| wo_op := Op.IDENTITY; wo_attribute_type := Op.IDENTITY;
     wo_attribute := Some (OtherAttribute Op.IDENTITY);
     wo_inputs := Some [[97]]; wo_outputs := Some [[98]]; wo_location := None |}.

Definition demo_shape : WireShape :=
  {| ws_name := Some [115]; ws_rank := 1; ws_data := Some [6; 0; 0; 0; 0; 0; 0; 0] |}.

Definition demo_block : WireBlock :=
  {| wb_name := Some [109]; wb_operators := Some [demo_operator];
     wb_tensors := Some [demo_tensor [98]; demo_tensor [97]]; wb_shapes := Some [demo_shape];
     wb_inputs := Some [[97]]; wb_outputs := Some [[98]] |}.

Definition demo_graph : WireGraph :=
  {| wg_version := {| wv_major := 1; wv_minor := 0; wv_patch := 0; wv_draft := false |};
     wg_regions := Some [{| wr_name := Some [109]; wr_blocks := Some [demo_block] |}] |}.

Definition demo_bytes : list Z := replicate 16 84.
Definition demo_identifier (bytes : list Z) : bool := bool_decide (nth 4 bytes 0 = 84).
Definition demo_root (o : VerifierOptions) (bytes : list Z) : option WireGraph := Some demo_graph.

Definition demo_model : Model :=
  {| mo_graph := demo_graph; mo_bytes := demo_bytes; mo_version := TOSA_1_0;
     mo_stats := graph_stats demo_graph |}.

Lemma demo_typed opts g : demo_root opts demo_bytes = Some g -> graph_typed g.
Proof.
  intros [= <-]. unfold graph_typed, block_typed, tensor_typed, shape_typed, union_ok, zlen.
  repeat constructor; simpl; try lia; try done.
  unfold fielded_tags. rewrite !not_elem_of_cons. unfold Op.IDENTITY.
  split_and!; try lia. apply not_elem_of_nil.
Qed.

Lemma demo_limits : limits_typed Limits_default.
Proof. unfold limits_typed, within. simpl. lia. Qed.

Lemma parse_demo_runs :
  parse_with_limits demo_identifier demo_root (fun _ => true) demo_bytes Limits_default = Ok demo_model.
Proof. vm_compute. reflexivity. Qed.

Lemma parse_accepts_exactly_witness :
  exists g, acceptable demo_identifier demo_root (fun _ => true) demo_bytes Limits_default g.
Proof.
  destruct (proj1 (parse_accepts_exactly demo_identifier demo_root (fun _ => true) demo_bytes
    Limits_default demo_model demo_limits ltac:(vm_compute; discriminate) demo_typed) parse_demo_runs)
    as (g & Hg & _). exists g. exact Hg.
Defined.

Lemma views_never_panic_witness : model_readable demo_model.
Proof.
  exact (views_never_panic demo_identifier demo_root (fun _ => true) demo_bytes Limits_default demo_model
    demo_limits ltac:(vm_compute; discriminate) demo_typed parse_demo_runs).
Defined.
End ParseDemo.
