(* ===== verification/TosaSemantic.v ===== *)
(** * Semantic validation: operands

    crates/virtio-accel-tosa/src/semantic.rs, first part: the error values, the
    operand kinds, tensor encodings, level limits, ranks and compile-time
    constants.  A function of the source that can panic (an [expect], an
    [unwrap], an index, [unreachable!]) returns an [option] whose [None] is
    the panic; validation functions return [sem], an optional [result]. *)

From Stdlib Require Import ZArith Lia.
From stdpp Require Import prelude list sorting.
From S2P Require Import Prelude TosaTypes TosaNumeric TosaArtifact TosaWire TosaValidate TosaView.

Inductive OperandRole := Input | Output.

Inductive SemanticErrorKind :=
  | GraphIoMustBeTensor
  | InvalidArity (op inputs outputs : Z)
  | TensorListLimit (op actual limit : Z)
  | ExpectedTensor (op : Z) (role : OperandRole) (index : nat)
  | ExpectedShape (op : Z) (role : OperandRole) (index : nat)
  | InvalidRank (op : Z) (role : OperandRole) (index : nat) (rank : option Z) (minimum maximum : Z)
  | UnsupportedTypeProfile (op : Z)
  | InvalidAttribute (op : Z)
  | InvalidShape (op : Z)
  | ConstantRequired (op : Z) (input : nat)
  | InvalidConstantData (op : Z) (operand : nat)
  | InvalidTensorData
  | TensorSizeLimit
  | ShapeValueLimit
  | InvalidVariable
  | DisconnectedSymbol
  | GraphInputProduced
  | DataflowCycle
  | UnknownControlFlowRegion (op : Z)
  | ControlFlowSignature (op : Z)
  | ControlFlowCycle
  | ControlFlowNestingLimit (actual limit : Z).

Inductive SemanticError :=
  | InvalidTarget (e : TargetError)
  | SemAllocationFailed
  | Graph (region block : nat) (operator : option nat) (kind : SemanticErrorKind).

(** A computation that may panic or fail. *)
Abbreviation sem A := (option (result A SemanticErrorKind)).

Notation "'let!' x ':=' m 'in' k" :=
  (match m with None => None | Some (Err err__) => Some (Err err__) | Some (Ok x) => k end)
  (at level 10, x pattern, m at level 100, k at level 200,
   format "'[v' 'let!'  x  ':='  m  'in' '/' k ']'") : rust_scope.

(** [&&] and [||] on operands that may panic. *)
Definition pand (a b : option bool) : option bool := match a with Some true => b | r => r end.
Definition por (a b : option bool) : option bool := match a with Some false => b | r => r end.
Infix "&&!" := pand (at level 40, left associativity) : rust_scope.
Infix "||!" := por (at level 50, left associativity) : rust_scope.

(** [iter().all(..)] with a body that may panic. *)
Fixpoint pall {A} (f : A -> option bool) (xs : list A) : option bool :=
  match xs with [] => Some true | x :: xs => f x &&! pall f xs end.

Inductive Symbol := STensor (t : WireTensor) | SShape (s : WireShape).

(** [tensor] and [shape]: [unreachable!] on the other kind. *)
Definition tensor (s : Symbol) : option WireTensor := match s with STensor t => Some t | SShape _ => None end.
Definition shape (s : Symbol) : option WireShape := match s with SShape s => Some s | STensor _ => None end.

(** [tensor(operands[index])] *)
Definition tensor_at (operands : list Symbol) (index : nat) : option WireTensor :=
  operands !! index ≫= tensor.
Definition shape_at (operands : list Symbol) (index : nat) : option WireShape :=
  operands !! index ≫= shape.

Definition validate_tensor_list_limit (op inputs outputs : Z) (limits : LevelLimits)
    : result unit SemanticErrorKind :=
  let check (actual : Z) :=
    if max_tensor_list_size limits <? actual
    then Err (TensorListLimit op actual (max_tensor_list_size limits)) else Ok tt in
  match op with
  | 55 => check inputs
  | 69 => check (Z.max inputs outputs)
  | 70 => check (Z.max (Z.max 0 (inputs - 1)) outputs)
  | 71 => check (Z.max inputs outputs)
  | _ => Ok tt
  end.

(** The inputs that are shapes. *)
Definition shape_inputs (op : Z) : list nat :=
  match op with
  | 56 | 57 | 60 => [1%nat]
  | 59 => [1%nat; 2%nat]
  | 64 => [1%nat; 2%nat; 3%nat]
  | _ => []
  end.

Fixpoint check_kinds (op : Z) (role : OperandRole) (wants_shape : nat -> bool) (index : nat)
    (operands : list Symbol) : result unit SemanticErrorKind :=
  match operands with
  | [] => Ok tt
  | operand :: operands =>
      match wants_shape index, operand with
      | true, SShape _ | false, STensor _ => check_kinds op role wants_shape (S index) operands
      | true, _ => Err (ExpectedShape op role index)
      | false, _ => Err (ExpectedTensor op role index)
      end
  end.

Definition validate_operand_kinds (op : Z) (inputs outputs : list Symbol)
    : result unit SemanticErrorKind :=
  let? _ := check_kinds op Input (fun index => bool_decide (index ∈ shape_inputs op)) 0 inputs in
  check_kinds op Output (fun _ => op =? Op.CONST_SHAPE) 0 outputs.

(** ** Tensor data *)

(** [tensor_data]: the slice of external data panics out of range. *)
Definition tensor_data (bytes : list Z) (t : WireTensor) : option (list Z) :=
  match Tensor_external_data_range t with
  | Some (start, len) =>
      if zlen bytes <? start + len then None else Some (slice start len bytes)
  | None => Some (Tensor_data t)
  end.

Definition dtype_width (dtype : Z) : option Z :=
  if in_range 1 3 dtype || in_range 11 12 dtype then Some 1
  else if (dtype =? 4) || (dtype =? 8) || (dtype =? 9) then Some 2
  else if (dtype =? 5) || (dtype =? 7) then Some 4
  else if (dtype =? 6) || (dtype =? 10) then Some 8
  else None.

Definition dtype_element_bytes (dtype : Z) : option Z :=
  if dtype =? DType.INT48 then Some 6 else dtype_width dtype.

(** The running product of the dimensions in a machine width. *)
Definition product_checked (max : Z) (cast : Z -> Z) (dimensions : list Z) : option Z :=
  fold_left (fun count dimension => c ← count; checked_mul max c (cast dimension)) dimensions (Some 1).

(** [data.chunks_exact(8)], with [fuel] the length. *)
Fixpoint chunks_exact_8 (fuel : nat) (data : list Z) : list (list Z) :=
  match fuel with
  | O => []
  | S fuel =>
      if zlen data <? 8 then [] else take 8 data :: chunks_exact_8 fuel (drop 8 data)
  end.

Definition valid_values (dtype elements : Z) (data : list Z) : bool :=
  if dtype =? DType.BOOL then forallb (fun v => v <=? 1) data
  else if dtype =? DType.INT4 then
    forallb (fun i => negb (bool_decide (unpack_int4 data (Z.of_nat i) = Some (-8))))
      (seq 0 (Z.to_nat elements))
  else if dtype =? DType.INT48 then
    forallb (fun chunk =>
      let value := i64_from_le_bytes chunk in
      (- Z.shiftl 1 47 <=? value) && (value <? Z.shiftl 1 47)) (chunks_exact_8 (length data) data)
  else true.

Definition validate_tensor_encoding (bytes : list Z) (t : WireTensor) : sem unit :=
  match Tensor_rank t with
  | None => Some (Ok tt)
  | Some _ =>
      match product_checked USIZE_MAX (as_unsigned 64) (Tensor_dimensions t) with
      | None => Some (Err InvalidTensorData)
      | Some elements =>
          data ← tensor_data bytes t;
          if zlen data =? 0 then Some (Ok tt) else
          let required :=
            if Tensor_dtype t =? DType.INT4 then
              n ← checked_add USIZE_MAX elements 1; Some (n / 2)
            else
              w ← dtype_width (Tensor_dtype t); checked_mul USIZE_MAX elements w in
          match required with
          | None => Some (Err InvalidTensorData)
          | Some required =>
              if negb (zlen data =? required) then Some (Err InvalidTensorData)
              else if negb (valid_values (Tensor_dtype t) elements data)
              then Some (Err InvalidTensorData)
              else Some (Ok tt)
          end
      end
  end.

Definition tensor_within_level (t : WireTensor) (limits : LevelLimits) : bool :=
  match Tensor_rank t with
  | None => true
  | Some _ =>
      match product_checked U128_MAX (as_unsigned 128) (Tensor_dimensions t) with
      | None => false
      | Some elements =>
          match w ← dtype_element_bytes (Tensor_dtype t); checked_mul U128_MAX elements w with
          | None => false
          | Some bytes => bytes <=? Z.shiftl 1 (max_log2_size limits) - 1
          end
      end
  end.

(** The values of a shape; the outer [option] is the panic of the iterator. *)
Definition shape_within_level (s : WireShape) (limits : LevelLimits) : option bool :=
  values ← shape_values s;
  match values with
  | None => Some true
  | Some values =>
      let magnitude := Z.shiftl 1 (max_log2_size limits) in
      Some (forallb (fun value => (- magnitude <=? value) && (value <? magnitude)) values)
  end.

(** ** Ranks *)

Definition symbol_rank (s : Symbol) : option Z :=
  match s with STensor t => Tensor_rank t | SShape s => Some (Shape_rank s) end.

Definition require_rank (op : Z) (role : OperandRole) (index : nat) (operand : Symbol)
    (minimum maximum : Z) : result unit SemanticErrorKind :=
  let rank := symbol_rank operand in
  match rank with
  | Some r => if (minimum <=? r) && (r <=? maximum) then Ok tt
              else Err (InvalidRank op role index rank minimum maximum)
  | None => Err (InvalidRank op role index rank minimum maximum)
  end.

(** The first pass: every tensor is ranked and within the level's rank. *)
Fixpoint check_max_rank (op : Z) (role : OperandRole) (maximum : Z) (index : nat)
    (operands : list Symbol) : result unit SemanticErrorKind :=
  match operands with
  | [] => Ok tt
  | SShape _ :: operands => check_max_rank op role maximum (S index) operands
  | STensor value :: operands =>
      let rank := Tensor_rank value in
      match rank with
      | Some r =>
          if maximum <? r then Err (InvalidRank op role index rank 0 maximum)
          else check_max_rank op role maximum (S index) operands
      | None => Err (InvalidRank op role index rank 0 maximum)
      end
  end.

(** The exact ranks an operator requires of its operands. *)
Definition expected_ranks (op : Z) : list (option Z) * list (option Z) :=
  match op with
  | 1 => ([None], [None])
  | 2 => ([Some 4; Some 1; Some 1], [Some 4])
  | 3 | 5 | 10 => ([Some 4; Some 4; Some 1; Some 1; Some 1], [Some 4])
  | 4 => ([Some 5; Some 5; Some 1; Some 1; Some 1], [Some 5])
  | 6 => ([Some 3; Some 3], [Some 3; Some 3])
  | 7 => ([Some 3; Some 3; Some 1; Some 1], [Some 3])
  | 8 => ([Some 4], [Some 4])
  | 9 => ([Some 3], [Some 3; Some 3])
  | 28 => ([None; None; Some 1], [None])
  | 31 => ([None; Some 1], [None])
  | 41 => ([None; Some 1; Some 1], [None])
  | 49 | 50 | 51 | 52 | 53 | 54 => ([None], [None])
  | 55 => ([], [None])
  | 56 => ([None; None; Some 1], [None])
  | 57 => ([None; None], [None])
  | 58 => ([None], [None])
  | 59 => ([None; None; None], [None])
  | 60 => ([None; None], [None])
  | 61 => ([None], [None])
  | 62 => ([Some 3; Some 2], [Some 3])
  | 63 => ([Some 3; Some 2; Some 3], [Some 3])
  | 64 => ([Some 4; None; None; None], [Some 4])
  | 66 => ([None; Some 1; Some 1; Some 1; Some 1], [None])
  | _ => ([], [])
  end.

(** The loop over the table: [operands[index]] panics out of range. *)
Fixpoint check_expected (op : Z) (role : OperandRole) (index : nat) (expected : list (option Z))
    (operands : list Symbol) : sem unit :=
  match expected with
  | [] => Some (Ok tt)
  | None :: expected => check_expected op role (S index) expected operands
  | Some rank :: expected =>
      operand ← operands !! index;
      let! _ := Some (require_rank op role index operand rank rank) in
      check_expected op role (S index) expected operands
  end.

Definition minimum_rank (op : Z) : Z :=
  if (op =? 1) || in_range 49 56 op || in_range 58 61 op then 1 else 0.

Fixpoint check_min_rank (op : Z) (role : OperandRole) (minimum maximum : Z) (index : nat)
    (operands : list Symbol) : result unit SemanticErrorKind :=
  match operands with
  | [] => Ok tt
  | SShape _ :: operands => check_min_rank op role minimum maximum (S index) operands
  | (STensor _ as operand) :: operands =>
      let? _ := require_rank op role index operand minimum maximum in
      check_min_rank op role minimum maximum (S index) operands
  end.

Definition validate_ranks (op : Z) (inputs outputs : list Symbol) (limits : LevelLimits) : sem unit :=
  let! _ := Some (check_max_rank op Input (max_rank limits) 0 inputs) in
  let! _ := Some (check_max_rank op Output (max_rank limits) 0 outputs) in
  let (input_ranks, output_ranks) := expected_ranks op in
  let! _ := check_expected op Input 0 input_ranks inputs in
  let! _ := check_expected op Output 0 output_ranks outputs in
  if negb (minimum_rank op =? 0) then
    let! _ := Some (check_min_rank op Input (minimum_rank op) (max_rank limits) 0 inputs) in
    Some (check_min_rank op Output (minimum_rank op) (max_rank limits) 0 outputs)
  else Some (Ok tt).
