(* ===== verification/TosaTypeProfile.v ===== *)
(** * Semantic validation: data types against profiles

    crates/virtio-accel-tosa/src/semantic.rs: which data types each operator
    accepts under the profiles and extensions of a target. *)

From Stdlib Require Import ZArith Lia.
From stdpp Require Import prelude list.
From S2P Require Import Prelude TosaTypes TosaArtifact TosaWire TosaView TosaSemantic.

Import DType.

(** [matches!(d, A | B | ..)] *)
Definition one_of (d : Z) (ds : list Z) : bool := existsb (Z.eqb d) ds.

Definition has_profile (t : Target) (profile : Z) : bool := ProfileSet.intersects (tgt_profiles t) profile.
Definition has_any_profile (t : Target) : bool := ProfileSet.intersects (tgt_profiles t) ProfileSet.ALL.
Definition has_ext (t : Target) (extension : Z) : bool :=
  ExtensionSet.contains (tgt_extensions t) extension.

(** A [match] over data types: the first row that lists the type decides. *)
Definition rows (d : Z) (table : list (list Z * bool)) (otherwise : bool) : bool :=
  match list_find (fun row => one_of d (fst row) = true) table with
  | Some (_, (_, r)) => r
  | None => otherwise
  end.

(** The same over tuples of types: each column lists the admitted types. *)
Definition tuple_rows (ds : list Z) (table : list (list (list Z) * bool)) : bool :=
  match list_find (fun row => bool_decide (Forall2 (fun d col => one_of d col = true) ds (fst row))) table with
  | Some (_, (_, r)) => r
  | None => false
  end.

Section Target.
Context (target : Target).
Let integer := has_profile target ProfileSet.INTEGER.
Let floating := has_profile target ProfileSet.FLOATING_POINT.
Let any := has_any_profile target.
Let int16 := has_ext target ExtensionSet.INT16.
Let int4 := has_ext target ExtensionSet.INT4.
Let bf16 := has_ext target ExtensionSet.BF16.
Let fp8e4m3 := has_ext target ExtensionSet.FP8E4M3.
Let fp8e5m2 := has_ext target ExtensionSet.FP8E5M2.

Definition supports_argmax (d : Z) : bool :=
  rows d [([INT8], integer); ([INT16], int16); ([FP8E4M3], fp8e4m3); ([FP8E5M2], fp8e5m2);
          ([FP16; FP32], floating); ([BF16], bf16)] false.

Definition supports_pool (d acc : Z) : bool :=
  tuple_rows [d; acc]
    [([[INT8]; [INT32]], integer); ([[INT16]; [INT32]], int16); ([[FP8E4M3]; [FP16]], fp8e4m3);
     ([[FP8E5M2]; [FP16]], fp8e5m2); ([[FP16]; [FP16; FP32]], floating); ([[BF16]; [FP32]], bf16);
     ([[FP32]; [FP32]], floating)].

Definition supports_pool_value (d : Z) : bool :=
  rows d [([INT8], integer); ([INT16], int16); ([FP8E4M3], fp8e4m3); ([FP8E5M2], fp8e5m2);
          ([FP16; FP32], floating); ([BF16], bf16)] false.

Definition supports_conv (input weight output acc : Z) : bool :=
  tuple_rows [input; weight; output; acc]
    [([[INT8]; [INT8]; [INT32]; [INT32]], integer);
     ([[INT8]; [INT4]; [INT32]; [INT32]], int4);
     ([[INT16]; [INT8]; [INT48]; [INT48]], int16);
     ([[FP8E4M3]; [FP8E4M3]; [FP16]; [FP16]], fp8e4m3);
     ([[FP8E5M2]; [FP8E5M2]; [FP16]; [FP16]], fp8e5m2);
     ([[FP16]; [FP16]; [FP16]; [FP16; FP32]], floating);
     ([[BF16]; [BF16]; [BF16]; [FP32]], bf16);
     ([[FP32]; [FP32]; [FP32]; [FP32]], floating)].

Definition supports_matmul (input output : Z) : bool :=
  tuple_rows [input; output]
    [([[INT8]; [INT32]], integer); ([[INT16]; [INT48]], int16); ([[FP8E4M3]; [FP16]], fp8e4m3);
     ([[FP8E5M2]; [FP16]], fp8e5m2); ([[FP16]; [FP16; FP32]], floating); ([[BF16]; [FP32]], bf16);
     ([[FP32]; [FP32]], floating)].

Definition supports_float (d : Z) : bool := rows d [([FP16; FP32], floating); ([BF16], bf16)] false.

Definition supports_clamp (d : Z) : bool :=
  rows d [([INT8], integer); ([INT16], int16)] (supports_float d).

Definition supports_add_sub (d : Z) : bool := ((d =? INT32) && any) || supports_float d.

Definition supports_integer_bits (d : Z) : bool := one_of d [INT8; INT16; INT32] && integer.

Definition supports_base_integer (d : Z) (either_profile : bool) : bool :=
  one_of d [INT8; INT16; INT32] && (if either_profile then any else integer).

Definition supports_ordered (d : Z) : bool := ((d =? INT32) && integer) || supports_float d.

Definition supports_mul (input output : Z) : bool :=
  tuple_rows [input; output]
    [([[INT8; INT16]; [INT32]], integer); ([[INT32]; [INT32]], any); ([[FP16]; [FP16]], floating);
     ([[FP32]; [FP32]], floating); ([[BF16]; [BF16]], bf16)].

Definition supports_negate (d : Z) : bool :=
  (one_of d [INT8; INT16; INT32] && integer) || supports_float d.

Definition supports_select (d : Z) : bool :=
  rows d [([BOOL], any); ([INT8; INT16; INT32], integer)] (supports_float d).

Definition supports_reduce_minmax (d : Z) : bool :=
  (one_of d [INT8; INT16; INT32] && integer) || supports_float d.

Definition supports_reduce_sum (d : Z) : bool := ((d =? INT32) && integer) || supports_float d.

Definition supports_concat (d : Z) : bool :=
  rows d [([BOOL], any); ([INT8; INT32], integer); ([INT16], int16); ([FP8E4M3], fp8e4m3);
          ([FP8E5M2], fp8e5m2)] (supports_float d).

Definition supports_data_movement (d : Z) : bool :=
  rows d [([BOOL], any); ([INT8; INT16; INT32], integer); ([FP8E4M3], fp8e4m3);
          ([FP8E5M2], fp8e5m2)] (supports_float d).

Definition supports_gather (d : Z) : bool :=
  rows d [([INT8; INT16; INT32], integer); ([FP8E4M3], fp8e4m3); ([FP8E5M2], fp8e5m2)]
    (supports_float d).

Definition supports_resize (input output : Z) : bool :=
  tuple_rows [input; output]
    [([[INT8]; [INT8; INT32]], integer); ([[INT16]; [INT16; INT48]], int16);
     ([[FP16]; [FP16]], floating); ([[FP32]; [FP32]], floating); ([[BF16]; [BF16]], bf16)].

Definition supports_cast (input output : Z) : bool :=
  if input =? output then false else
  let is_integer d := one_of d [BOOL; INT8; INT16; INT32] in
  if is_integer input && is_integer output then integer else
  tuple_rows [input; output]
    [([[INT8; INT16; INT32]; [FP16; FP32]], floating);
     ([[FP16; FP32]; [INT8; INT16; INT32]], floating);
     ([[FP16]; [FP32]], floating); ([[FP32]; [FP16]], floating);
     ([[INT8; INT16; INT32]; [BF16]], bf16); ([[BF16]; [INT8; INT16; INT32]], bf16);
     ([[BF16]; [FP8E4M3; FP8E5M2; FP32]], bf16); ([[FP32]; [BF16]], bf16);
     ([[FP8E4M3]; [FP16; BF16; FP32]], fp8e4m3); ([[FP16; FP32]; [FP8E4M3]], fp8e4m3);
     ([[FP8E5M2]; [FP16; BF16; FP32]], fp8e5m2); ([[FP16; FP32]; [FP8E5M2]], fp8e5m2)].

Definition supports_rescale (input output : Z) : bool :=
  if negb (one_of output [INT8; INT16; INT32]) then false else
  rows input [([INT8; INT16; INT32], integer); ([INT48], int16)] false.

Definition supports_constant (d : Z) : bool :=
  rows d [([BOOL; INT8; INT16; INT32], any); ([INT4], int4); ([INT48], int16); ([FP8E4M3], fp8e4m3);
          ([FP8E5M2], fp8e5m2); ([FP16; FP32], floating); ([BF16], bf16)] false.

Definition supports_variable (d : Z) : bool :=
  rows d [([INT8], integer); ([FP16; FP32], floating)] false.

(** [conv_acc_type]: [unreachable!] on the other attributes. *)
Definition conv_acc_type (a : OpAttributes) : option Z :=
  match a with
  | AConv2d _ _ _ _ acc | AConv3d _ _ _ _ acc | ADepthwiseConv2d _ _ _ _ acc
  | ATransposeConv2d _ _ _ acc => Some acc
  | _ => None
  end.

Definition tensor_types_equal (inputs outputs : list Symbol) : bool :=
  let operands := omap (fun s => Tensor_dtype <$> tensor s) (inputs ++ outputs) in
  match operands with
  | [] => true
  | first :: rest => forallb (fun d => d =? first) rest
  end.

(** [all(|operand| supports_constant(tensor(operand).dtype()))] *)
Definition all_constant (operands : list Symbol) : option bool :=
  pall (fun s => t ← tensor s; Some (supports_constant (Tensor_dtype t))) operands.

Section Operator.
Context (attributes : OpAttributes) (inputs outputs : list Symbol).
Definition in_dtype (k : nat) : option Z := Tensor_dtype <$> tensor_at inputs k.
Definition out_dtype (k : nat) : option Z := Tensor_dtype <$> tensor_at outputs k.

(** [i(a) == i(b)] and friends: both sides are read, or the code panics. *)
Definition peq (a b : option Z) : option bool := x ← a; y ← b; Some (x =? y).
Definition pis (a : option Z) (f : Z -> bool) : option bool := x ← a; Some (f x).
Definition pis2 (a b : option Z) (f : Z -> Z -> bool) : option bool := x ← a; y ← b; Some (f x y).

Let i := in_dtype.
Let o := out_dtype.
Let same : option bool := Some (tensor_types_equal inputs outputs).

Definition type_profile_ok (op : Z) : option bool :=
  match op with
  | 1 => pis (o 0%nat) (Z.eqb INT32) &&! pis (i 0%nat) supports_argmax
  | 2 =>
      acc ← match attributes with AAvgPool2d _ _ _ acc => Some acc | _ => None end;
      peq (i 0%nat) (i 1%nat) &&! peq (i 0%nat) (i 2%nat) &&! peq (i 0%nat) (o 0%nat) &&!
      pis (i 0%nat) (fun d => supports_pool d acc)
  | 3 | 4 | 5 | 10 =>
      acc ← conv_acc_type attributes;
      peq (i 3%nat) (i 0%nat) &&! peq (i 4%nat) (i 1%nat) &&! peq (i 2%nat) (o 0%nat) &&!
      (x ← i 0%nat; y ← i 1%nat; z ← o 0%nat; Some (supports_conv x y z acc))
  | 6 => same &&! pis (i 0%nat) (Z.eqb FP32) &&! Some (has_ext target ExtensionSet.FFT)
  | 7 => peq (i 0%nat) (i 1%nat) &&! peq (i 2%nat) (i 0%nat) &&! peq (i 3%nat) (i 1%nat) &&!
         pis2 (i 0%nat) (o 0%nat) supports_matmul
  | 8 => same &&! pis (i 0%nat) supports_pool_value
  | 9 => same &&! pis (i 0%nat) (Z.eqb FP32) &&! Some (has_ext target ExtensionSet.FFT)
  | 11 => same &&! pis (i 0%nat) supports_clamp
  | 12 | 13 | 14 | 34 | 36 | 37 | 38 | 39 | 42 | 43 | 44 => same &&! pis (i 0%nat) supports_float
  | 15 | 30 => same &&! pis (i 0%nat) supports_add_sub
  | 16 | 17 | 18 | 19 | 33 => same &&! pis (i 0%nat) supports_integer_bits
  | 20 => same &&! pis (i 0%nat) (Z.eqb INT32) &&! Some any
  | 21 | 24 | 25 | 40 => same &&! pis (i 0%nat) (Z.eqb BOOL) &&! Some any
  | 22 | 23 => same &&! pis (i 0%nat) (fun d => supports_base_integer d true)
  | 26 | 27 | 32 => same &&! pis (i 0%nat) supports_ordered
  | 28 => peq (i 0%nat) (i 1%nat) &&! pis (i 2%nat) (Z.eqb INT8) &&! pis2 (i 0%nat) (o 0%nat) supports_mul
  | 29 => same &&! pis (i 0%nat) supports_float
  | 31 =>
      (pis (i 0%nat) (Z.eqb INT8) &&! pis (i 1%nat) (Z.eqb INT8) &&! pis (o 0%nat) (Z.eqb INT8) &&!
       Some integer) ||!
      (pis (i 0%nat) (Z.eqb INT16) &&! pis (i 1%nat) (Z.eqb INT16) &&! pis (o 0%nat) (Z.eqb INT32) &&!
       Some int16)
  | 35 => same &&! pis (i 0%nat) (Z.eqb INT32) &&! Some integer
  | 41 => peq (i 0%nat) (i 1%nat) &&! peq (i 0%nat) (i 2%nat) &&! peq (i 0%nat) (o 0%nat) &&!
          pis (i 0%nat) supports_negate
  | 45 => pis (i 0%nat) (Z.eqb BOOL) &&! peq (i 1%nat) (i 2%nat) &&! peq (i 1%nat) (o 0%nat) &&!
          pis (i 1%nat) supports_select
  | 46 | 47 | 48 =>
      peq (i 0%nat) (i 1%nat) &&! pis (o 0%nat) (Z.eqb BOOL) &&! pis (i 0%nat) supports_ordered
  | 49 | 50 => same &&! pis (i 0%nat) (Z.eqb BOOL) &&! Some any
  | 51 | 52 => same &&! pis (i 0%nat) supports_reduce_minmax
  | 53 => same &&! pis (i 0%nat) supports_float
  | 54 => same &&! pis (i 0%nat) supports_reduce_sum
  | 55 => same &&! pis (i 0%nat) supports_concat
  | 56 | 57 | 58 | 59 | 60 | 61 => same &&! pis (i 0%nat) supports_data_movement
  | 62 => pis (i 1%nat) (Z.eqb INT32) &&! peq (i 0%nat) (o 0%nat) &&! pis (i 0%nat) supports_gather
  | 63 => pis (i 1%nat) (Z.eqb INT32) &&! peq (i 0%nat) (i 2%nat) &&! peq (i 0%nat) (o 0%nat) &&!
          pis (i 0%nat) supports_gather
  | 64 => pis2 (i 0%nat) (o 0%nat) supports_resize
  | 65 => pis2 (i 0%nat) (o 0%nat) supports_cast
  | 66 =>
      scale32 ← match attributes with ARescale scale32 _ _ _ _ => Some scale32 | _ => None end;
      pis (i 1%nat) (Z.eqb (if scale32 : bool then INT32 else INT16)) &&! pis (i 2%nat) (Z.eqb INT8) &&!
      peq (i 3%nat) (i 0%nat) &&! peq (i 4%nat) (o 0%nat) &&! pis2 (i 0%nat) (o 0%nat) supports_rescale
  | 67 => pis (o 0%nat) supports_constant
  | 68 => same &&! pis (i 0%nat) supports_constant
  | 69 => all_constant (inputs ++ outputs)
  | 70 => pis (i 0%nat) (Z.eqb BOOL) &&! Some (has_ext target ExtensionSet.CONTROL_FLOW) &&!
          all_constant (drop 1 inputs ++ outputs)
  | 71 => Some (has_ext target ExtensionSet.CONTROL_FLOW) &&! all_constant (inputs ++ outputs)
  | 72 => Some (has_ext target ExtensionSet.VARIABLE)
  | 73 => Some (has_ext target ExtensionSet.VARIABLE) &&! pis (i 0%nat) supports_variable
  | 74 => Some (has_ext target ExtensionSet.VARIABLE) &&! pis (o 0%nat) supports_variable
  | 75 => Some any
  | _ => Some false
  end.

Definition validate_type_profile (op : Z) : sem unit :=
  ok ← type_profile_ok op;
  Some (if ok : bool then Ok tt else Err (UnsupportedTypeProfile op)).
End Operator.
End Target.
