(* ===== verification/TosaAttrCheck.v ===== *)
(** * Semantic validation: attributes and compile-time constants

    crates/virtio-accel-tosa/src/semantic.rs: [validate_attributes],
    [validate_ctc_inputs] and the scalar readers they use. *)

From Stdlib Require Import ZArith Lia SpecFloat.
From stdpp Require Import prelude list.
From S2P Require Import Prelude TosaTypes TosaNumeric TosaArtifact TosaWire TosaView TosaSemantic.

(** ** Attribute values *)

Definition valid_axis (axis rank : Z) : bool := (0 <=? axis) && (axis <? rank).

Definition list_exact (values : I32List) (length : Z) : bool := I32List_len values =? length.

Definition list_positive_bounded (values : I32List) (length maximum : Z) : bool :=
  list_exact values length && forallb (fun v => (1 <=? v) && (v <=? maximum)) (items values).

Definition list_nonnegative_bounded (values : I32List) (length maximum : Z) : bool :=
  list_exact values length && forallb (fun v => (0 <=? v) && (v <=? maximum)) (items values).

(** [pad.get(k).is_some_and(|value| value < kernel.get(j).unwrap_or(0))] *)
Definition pad_below (kernel pad : I32List) (k j : Z) : bool :=
  match I32List_get pad k with
  | Some value => value <? default 0 (I32List_get kernel j)
  | None => false
  end.

Definition pool_padding_valid (kernel pad : I32List) : bool :=
  pad_below kernel pad 0 0 && pad_below kernel pad 1 0 && pad_below kernel pad 2 1 &&
  pad_below kernel pad 3 1.

(** The loop of [valid_permutation] over the indices. *)
Definition valid_permutation (perms : I32List) (rank : Z) : bool :=
  if negb (I32List_len perms =? rank) then false else
  forallb (fun index =>
    match I32List_get perms (Z.of_nat index) with
    | None => false
    | Some value =>
        valid_axis value rank &&
        negb (existsb (fun prior => bool_decide (I32List_get perms (Z.of_nat prior) = Some value))
                (seq 0 index))
    end) (seq 0 (Z.to_nat rank)).

Definition valid_nan_mode (mode : Z) : bool :=
  (mode =? NanPropagationMode.PROPAGATE) || (mode =? NanPropagationMode.IGNORE).
Definition valid_resize_mode (mode : Z) : bool :=
  (mode =? ResizeMode.NEAREST) || (mode =? ResizeMode.BILINEAR).
Definition valid_rounding_mode (mode : Z) : bool :=
  (mode =? RoundingMode.SINGLE_ROUND) || (mode =? RoundingMode.INEXACT_ROUND) ||
  (mode =? RoundingMode.DOUBLE_ROUND).

(** ** Scalars *)

Definition f32_is_nan (bits : Z) : bool := match f32_decode bits with S754_nan => true | _ => false end.

(** [a <= b] on [f32] *)
Definition f32_le (a b : Z) : bool := SFleb (f32_decode a) (f32_decode b).

(** [u32::leading_zeros] *)
Definition leading_zeros_32 (x : Z) : Z := if x =? 0 then 32 else 31 - Z.log2 x.

Definition f16_to_f32 (bits : Z) : Z :=
  let sign := Z.shiftl (Z.land bits 0x8000) 16 in
  let exponent := Z.land (Z.shiftr bits 10) 0x1f in
  let fraction := Z.land bits 0x03ff in
  if exponent =? 0 then
    if fraction =? 0 then sign else
    let shift := leading_zeros_32 fraction - 21 in
    let normalized := Z.shiftl fraction shift in
    Z.lor (Z.lor sign (Z.shiftl (127 - 15 - shift + 1) 23)) (Z.shiftl (Z.land normalized 0x03ff) 13)
  else if exponent =? 0x1f then Z.lor (Z.lor sign 0x7f800000) (Z.shiftl fraction 13)
  else Z.lor (Z.lor sign (Z.shiftl (exponent + 127 - 15) 23)) (Z.shiftl fraction 13).

Definition ordered_floats (min max : Z) : bool :=
  negb (f32_is_nan min) && negb (f32_is_nan max) && f32_le min max.

Definition scalar_bytes_valid (dtype : Z) (minimum maximum : list Z) : bool :=
  match dtype_width dtype with
  | None => false
  | Some width =>
      if negb (zlen minimum =? width) || negb (zlen maximum =? width) then false
      else if dtype =? DType.INT8 then as_signed 8 (le_value minimum) <=? as_signed 8 (le_value maximum)
      else if dtype =? DType.INT16 then as_signed 16 (le_value minimum) <=? as_signed 16 (le_value maximum)
      else if dtype =? DType.FP16 then
        ordered_floats (f16_to_f32 (le_value minimum)) (f16_to_f32 (le_value maximum))
      else if dtype =? DType.BF16 then
        ordered_floats (Z.shiftl (le_value minimum) 16) (Z.shiftl (le_value maximum) 16)
      else if dtype =? DType.FP32 then ordered_floats (le_value minimum) (le_value maximum)
      else false
  end.

Definition nonempty_name (o : option str) : bool :=
  match o with Some n => negb (zlen n =? 0) | None => false end.

(** ** [validate_attributes] *)

(** [tensor(inputs[index]).rank().expect(..)] *)
Definition input_rank (inputs : list Symbol) (index : nat) : option Z :=
  t ← tensor_at inputs index; Tensor_rank t.

Definition rescale_ok (target : Target) (inputs : list Symbol) (input output : Z)
    (scale32 : bool) (rounding_mode : Z) (per_channel input_unsigned output_unsigned : bool)
    : option bool :=
  let wide := (input =? DType.INT32) || (input =? DType.INT48) in
  Some (valid_rounding_mode rounding_mode &&
        (negb (rounding_mode =? RoundingMode.DOUBLE_ROUND) ||
         ExtensionSet.contains (tgt_extensions target) ExtensionSet.DOUBLE_ROUND) &&
        (negb (rounding_mode =? RoundingMode.INEXACT_ROUND) ||
         ExtensionSet.contains (tgt_extensions target) ExtensionSet.INEXACT_ROUND) &&
        negb (scale32 && (input =? DType.INT48)) &&
        (scale32 || negb (rounding_mode =? RoundingMode.DOUBLE_ROUND)) &&
        negb (input_unsigned && output_unsigned) &&
        negb ((output =? DType.INT32) && input_unsigned) &&
        negb (wide && input_unsigned) &&
        negb (wide && output_unsigned) &&
        negb ((output =? DType.INT32) && output_unsigned)) &&!
  (Some (negb per_channel) ||! (r ← input_rank inputs 0; Some (1 <=? r))).

Definition attributes_ok (op : Z) (attributes : OpAttributes) (inputs outputs : list Symbol)
    (target : Target) : option bool :=
  let limits := level_limits (tgt_level target) in
  let axis_ok (axis : Z) : option bool := r ← input_rank inputs 0; Some (valid_axis axis r) in
  let pool_ok (kernel stride pad : I32List) :=
    list_positive_bounded kernel 2 (max_kernel limits) &&
    list_positive_bounded stride 2 (max_stride limits) &&
    list_nonnegative_bounded pad 4 (max_kernel limits) && pool_padding_valid kernel pad in
  match attributes with
  | AEmpty attribute_op => Some (attribute_op =? op)
  | AArgMax axis nan_mode => axis_ok axis &&! Some (valid_nan_mode nan_mode)
  | AAvgPool2d kernel stride pad _ => Some (pool_ok kernel stride pad)
  | AMaxPool2d kernel stride pad nan_mode => Some (pool_ok kernel stride pad && valid_nan_mode nan_mode)
  | AConv2d pad stride dilation _ _ | ADepthwiseConv2d pad stride dilation _ _ =>
      Some (list_nonnegative_bounded pad 4 (max_kernel limits) &&
            list_positive_bounded stride 2 (max_stride limits) &&
            list_positive_bounded dilation 2 (max_stride limits))
  | AConv3d pad stride dilation _ _ =>
      Some (list_nonnegative_bounded pad 6 (max_kernel limits) &&
            list_positive_bounded stride 3 (max_stride limits) &&
            list_positive_bounded dilation 3 (max_stride limits))
  | AFft2d _ _ | ARfft2d _ => Some true
  | ATransposeConv2d out_pad stride _ _ =>
      Some (list_exact out_pad 4 && forallb (fun v => v <=? max_kernel limits) (items out_pad) &&
            list_positive_bounded stride 2 (max_stride limits))
  | AClamp min_val max_val nan_mode =>
      Some (valid_nan_mode nan_mode) &&!
      (t ← tensor_at inputs 0; Some (scalar_bytes_valid (Tensor_dtype t) min_val max_val))
  | AArithmeticRightShift _ => Some true
  | AMaximum nan_mode | AMinimum nan_mode => Some (valid_nan_mode nan_mode)
  | AReduceAll axis | AReduceAny axis | AReduceProduct axis | AReduceSum axis | AConcat axis
  | AReverse axis => axis_ok axis
  | AReduceMax axis nan_mode | AReduceMin axis nan_mode => axis_ok axis &&! Some (valid_nan_mode nan_mode)
  | ATranspose perms => r ← input_rank inputs 0; Some (valid_permutation perms r)
  | AResize mode => Some (valid_resize_mode mode)
  | ARescale scale32 rounding_mode per_channel input_unsigned output_unsigned =>
      input ← tensor_at inputs 0;
      output ← tensor_at outputs 0;
      rescale_ok target inputs (Tensor_dtype input) (Tensor_dtype output) scale32 rounding_mode
        per_channel input_unsigned output_unsigned
  | ACustom operator_name domain_name _ => Some (nonempty_name operator_name && nonempty_name domain_name)
  | ACondIf then_graph else_graph => Some (nonempty_name then_graph && nonempty_name else_graph)
  | AWhileLoop cond_graph body_graph => Some (nonempty_name cond_graph && nonempty_name body_graph)
  end.

Definition validate_attributes (op : Z) (attributes : OpAttributes) (inputs outputs : list Symbol)
    (target : Target) : sem unit :=
  valid ← attributes_ok op attributes inputs outputs target;
  Some (if valid : bool then Ok tt else Err (InvalidAttribute op)).

(** ** Constants *)

(** [data.get(start..start + n)] *)
Definition get_slice (data : list Z) (start n : Z) : option (list Z) :=
  if start + n <=? zlen data then Some (slice start n data) else None.

(** [constant_integer]; the outer [option] is the panic of [tensor_data]. *)
Definition constant_integer (bytes : list Z) (value : WireTensor) (index : Z) : option (option Z) :=
  data ← tensor_data bytes value;
  Some (
    width ← dtype_width (Tensor_dtype value);
    start ← checked_mul USIZE_MAX index width;
    let dtype := Tensor_dtype value in
    if dtype =? DType.INT4 then unpack_int4 data index
    else if dtype =? DType.INT8 then (fun b => as_signed 8 b) <$> data !! Z.to_nat start
    else if dtype =? DType.INT16 then (fun bs => as_signed 16 (le_value bs)) <$> get_slice data start 2
    else if dtype =? DType.INT32 then (fun bs => as_signed 32 (le_value bs)) <$> get_slice data start 4
    else if dtype =? DType.INT48 then i64_from_le_bytes <$> get_slice data start 8
    else None).

Definition constant_is_zero (bytes : list Z) (value : WireTensor) (index : Z) : option bool :=
  data ← tensor_data bytes value;
  match width ← dtype_width (Tensor_dtype value); checked_mul USIZE_MAX index width with
  | None => Some false
  | Some start =>
      let dtype := Tensor_dtype value in
      if (dtype =? DType.INT4) || (dtype =? DType.INT8) || (dtype =? DType.INT16) ||
         (dtype =? DType.INT32) || (dtype =? DType.INT48)
      then c ← constant_integer bytes value index; Some (bool_decide (c = Some 0))
      else if (dtype =? DType.FP8E4M3) || (dtype =? DType.FP8E5M2)
      then Some (match data !! Z.to_nat start with Some b => Z.land b 0x7f =? 0 | None => false end)
      else if (dtype =? DType.FP16) || (dtype =? DType.BF16)
      then Some (match get_slice data start 2 with Some bs => Z.land (le_value bs) 0x7fff =? 0 | None => false end)
      else if dtype =? DType.FP32
      then Some (match get_slice data start 4 with
                 | Some bs => Z.land (le_value bs) 0x7fffffff =? 0 | None => false end)
      else Some false
  end.

(** The inputs that must be compile-time constants, and those that are zero
    points. *)
Definition ctc_required (op : Z) : list nat :=
  match op with
  | 2 => [1; 2]%nat | 3 | 4 | 5 | 10 => [3; 4]%nat | 7 => [2; 3]%nat | 28 => [2]%nat
  | 31 => [1]%nat | 41 => [1; 2]%nat | 56 => [1; 2]%nat | 57 => [1]%nat | 59 => [1; 2]%nat
  | 60 => [1]%nat | 64 => [1; 2; 3]%nat | 66 => [1; 2; 3; 4]%nat | _ => []
  end.

Definition zero_points (op : Z) : list nat :=
  match op with
  | 2 => [1; 2]%nat | 3 | 4 | 5 | 10 => [3; 4]%nat | 7 => [2; 3]%nat | 41 => [1; 2]%nat
  | 56 => [2]%nat | _ => []
  end.

Section Ctc.
Context (bytes : list Z) (op : Z) (operator : WireOperator) (attributes : OpAttributes).
Context (inputs : list Symbol) (constants : list str) (dynamic : bool).

(** Whether the operand carries data. *)
Definition operand_present (s : Symbol) : option bool :=
  match s with
  | STensor value => data ← tensor_data bytes value; Some (negb (zlen data =? 0))
  | SShape value => Some (match Shape_values value with Some _ => true | None => false end)
  end.

Fixpoint check_required (required : list nat) : sem unit :=
  match required with
  | [] => Some (Ok tt)
  | index :: required =>
      let connected_to_constant :=
        match items (wo_inputs operator) !! index with
        | Some n => is_ok (binary_search constants n)
        | None => false
        end in
      operand ← inputs !! index;
      present ← operand_present operand;
      if (negb connected_to_constant || negb present) && negb dynamic
      then Some (Err (ConstantRequired op index))
      else check_required required
  end.

Definition check_zero_point (index : nat) (unsigned : bool) : option bool :=
  value ← tensor_at inputs index;
  data ← tensor_data bytes value;
  if zlen data =? 0 then Some dynamic else
  if Tensor_dtype value =? DType.INT8 then Some true else
  if (Tensor_dtype value =? DType.INT16) && unsigned &&
     match get_slice data 0 2 with
     | Some bs => (le_value bs =? 0) || (le_value bs =? 32768)
     | None => false
     end
  then Some true
  else constant_is_zero bytes value 0.

Fixpoint any_bad_zero_point (indices : list nat) : option bool :=
  match indices with
  | [] => Some false
  | index :: indices =>
      ok ← check_zero_point index false;
      if negb ok then Some true else any_bad_zero_point indices
  end.

(** [None] lets the caller continue, [Some r] is the early return. *)
Definition check_mul : sem (option (result unit SemanticErrorKind)) :=
  if negb (op =? Op.MUL) then Some (Ok None) else
  t ← tensor_at inputs 2;
  c ← constant_integer bytes t 0;
  match c with
  | None => Some (Ok (Some (if dynamic then Ok tt else Err (ConstantRequired op 2))))
  | Some shift =>
      if negb (in_range 0 63 shift) then Some (Err (InvalidConstantData op 2)) else
      t0 ← tensor_at inputs 0;
      if negb (Tensor_dtype t0 =? DType.INT32) && negb (shift =? 0)
      then Some (Err (InvalidConstantData op 2)) else Some (Ok None)
  end.

(** [dimension]: [expect] within the rank. *)
Definition dimension (t : WireTensor) (index : nat) : option Z := Tensor_dimensions t !! index.

(** The loop over the channels of a scale or shift tensor. *)
Fixpoint check_channels (value : WireTensor) (operand : nat) (good : Z -> bool) (indices : list nat)
    : sem unit :=
  match indices with
  | [] => Some (Ok tt)
  | index :: indices =>
      c ← constant_integer bytes value (Z.of_nat index);
      if match c with Some v => good v | None => false end
      then check_channels value operand good indices
      else Some (Err (InvalidConstantData op operand))
  end.

Definition check_scale (operand : nat) (good : Z -> bool) (channels : Z) : sem unit :=
  value ← tensor_at inputs operand;
  data ← tensor_data bytes value;
  if zlen data =? 0 then Some (Ok tt)
  else check_channels value operand good (seq 0 (Z.to_nat channels)).

Definition check_width (operand : nat) (channels : Z) : sem unit :=
  value ← tensor_at inputs operand;
  d ← dimension value 0;
  if negb (as_unsigned 64 d =? channels) then Some (Err (InvalidConstantData op operand))
  else Some (Ok tt).

Definition check_rescale : sem unit :=
  if negb (op =? Op.RESCALE) then Some (Ok tt) else
  match attributes with
  | ARescale _ _ per_channel input_unsigned output_unsigned =>
      a ← check_zero_point 3 input_unsigned;
      bad ← (if negb a then Some true else b ← check_zero_point 4 output_unsigned; Some (negb b));
      if bad : bool then Some (Err (InvalidConstantData op 3)) else
      input ← tensor_at inputs 0;
      channels ←
        (if per_channel : bool then
           rank ← Tensor_rank input;
           if rank =? 0 then None else
           d ← dimension input (Z.to_nat (rank - 1)); Some (as_unsigned 64 d)
         else Some 1);
      let! _ := check_width 1 channels in
      let! _ := check_width 2 channels in
      let! _ := check_scale 1 (fun v => 0 <=? v) channels in
      check_scale 2 (fun v => in_range 2 62 v) channels
  | _ => None
  end.

Definition validate_ctc_inputs : sem unit :=
  let! _ := check_required (ctc_required op) in
  bad ← any_bad_zero_point (zero_points op);
  if bad : bool then Some (Err (InvalidConstantData op (default 0%nat (head (zero_points op))))) else
  let! early := check_mul in
  match early with
  | Some r => Some r
  | None => check_rescale
  end.
End Ctc.
