(* ===== verification/TosaShapes.v ===== *)
(** * Semantic validation: shape rules

    crates/virtio-accel-tosa/src/semantic.rs: the static shape relation of
    every operator.  [None] is a panic, as in [TosaSemantic].  The unchecked
    [i64] arithmetic of the padding, slicing and tiling rules wraps, as it
    does in a release build ([i64_wrap]). *)

From Stdlib Require Import ZArith Lia.
From stdpp Require Import prelude list.
From S2P Require Import Prelude TosaTypes TosaNumeric TosaArtifact TosaWire TosaValidate TosaView TosaSemantic TosaAttrCheck.

Definition i64_wrap (v : Z) : Z := as_signed 64 v.

(** [list.get(k).unwrap()] *)
Definition list_at (l : I32List) (k : Z) : option Z := I32List_get l k.

Definition dimensions_equal (t : WireTensor) (expected : list Z) : bool :=
  bool_decide (Tensor_rank t = Some (zlen expected)) && bool_decide (Tensor_dimensions t = expected).

Definition same_shape (left_ right_ : WireTensor) : bool :=
  bool_decide (Tensor_rank left_ = Tensor_rank right_) &&
  bool_decide (Tensor_dimensions left_ = Tensor_dimensions right_).

(** [dimension(a, i) == dimension(b, j)] *)
Definition same_dimension (a : WireTensor) (i : nat) (b : WireTensor) (j : nat) : option bool :=
  x ← dimension a i; y ← dimension b j; Some (x =? y).

Definition same_prefix (left_ right_ : WireTensor) (length : nat) : option bool :=
  pall (fun index => same_dimension left_ index right_ index) (seq 0 length).

Definition scalar_shape (t : WireTensor) : bool := dimensions_equal t [1].

(** The dimensions but the one at [axis]. *)
Definition dims_without_axis (dims : list Z) (axis : Z) : list Z :=
  omap (fun p : nat * Z => if negb (Z.of_nat (fst p) =? axis) then Some (snd p) else None)
    (imap pair dims).

(** [rank - 1] underflows only at rank zero. *)
Definition shape_without_axis (input output : WireTensor) (axis : Z) : option bool :=
  expected ← match Tensor_rank input with
             | None => Some None
             | Some rank => if rank =? 0 then None else Some (Some (rank - 1))
             end;
  Some (bool_decide (Tensor_rank output = expected) &&
        bool_decide (dims_without_axis (Tensor_dimensions input) axis = Tensor_dimensions output)).

Definition checked_window_output (input before after kernel stride : Z) : option Z :=
  let numerator := input + before + after - kernel in
  if (0 <=? numerator) && (Z.rem numerator stride =? 0)
  then i32_try_from (Z.quot numerator stride + 1) else None.

(** One spatial window: the outer [option] is the panic of the unwraps. *)
Definition window (input : WireTensor) (axis : nat) (pad : I32List) (k : Z) (kernel : Z)
    (stride : I32List) (j : Z) : option (option Z) :=
  d ← dimension input axis;
  before ← list_at pad k;
  after ← list_at pad (k + 1);
  s ← list_at stride j;
  Some (checked_window_output d before after kernel s).

Definition pool_shape (input output : WireTensor) (kernel stride pad : I32List) : option bool :=
  k0 ← list_at kernel 0;
  height ← window input 1 pad 0 k0 stride 0;
  match height with
  | None => Some false
  | Some height =>
      k1 ← list_at kernel 1;
      width ← window input 2 pad 2 k1 stride 1;
      match width with
      | None => Some false
      | Some width =>
          n ← dimension input 0;
          c ← dimension input 3;
          Some (dimensions_equal output [n; height; width; c])
      end
  end.

Definition effective_kernel (size dilation : Z) : option Z :=
  a ← i64_checked_add size (-1);
  b ← i64_checked_mul a dilation;
  i64_checked_add b 1.

Definition kernel_within_level (weight : WireTensor) (indexes : list nat) (limits : LevelLimits)
    : option bool :=
  pall (fun index => value ← dimension weight index; Some (value <=? max_kernel limits)) indexes.

Definition dilated_kernel_within_level (weight : WireTensor) (indexes : list nat) (dilation : I32List)
    (limits : LevelLimits) : option bool :=
  pall (fun p : nat * nat =>
    d ← dimension weight (snd p);
    x ← list_at dilation (Z.of_nat (fst p));
    Some (d * x <=? max_kernel limits)) (imap pair indexes).

(** A dilated window: [effective_kernel(..).and_then(checked_window_output)]. *)
Definition dilated_window (input : WireTensor) (axis : nat) (pad : I32List) (k size : Z)
    (dilation stride : I32List) (j : Z) : option (option Z) :=
  x ← list_at dilation j;
  match effective_kernel size x with
  | None => Some None
  | Some kernel => window input axis pad k kernel stride j
  end.

(** [bias is 1 or the output channels] *)
Definition bias_matches (bias : WireTensor) (output_channels : Z) : option bool :=
  b ← dimension bias 0; Some ((b =? 1) || (b =? output_channels)).

Definition conv2d_channels (op : Z) (weight : WireTensor) : option (option (Z * Z * Z * Z)) :=
  if op =? Op.DEPTHWISE_CONV2D then
    channels ← dimension weight 2;
    multiplier ← dimension weight 3;
    match i32_try_from (channels * multiplier) with
    | None => Some None
    | Some output_channels =>
        h ← dimension weight 0; w ← dimension weight 1;
        Some (Some (h, w, channels, output_channels))
    end
  else
    h ← dimension weight 1; w ← dimension weight 2; c ← dimension weight 3; n ← dimension weight 0;
    Some (Some (h, w, c, n)).

Definition conv2d_shape (op : Z) (input weight bias output : WireTensor)
    (pad stride dilation : I32List) (target : Target) : option bool :=
  let limits := level_limits (tgt_level target) in
  too_large ←
    ((a ← dilated_kernel_within_level weight [0; 1]%nat dilation limits;
      Some (negb a && (op =? Op.DEPTHWISE_CONV2D))) ||!
     (b ← dilated_kernel_within_level weight [1; 2]%nat dilation limits;
      Some (negb b && (op =? Op.CONV2D))));
  if too_large : bool then Some false else
  geometry ← conv2d_channels op weight;
  match geometry with
  | None => Some false
  | Some (kernel_h, kernel_w, channels, output_channels) =>
      height ← dilated_window input 1 pad 0 kernel_h dilation stride 0;
      match height with
      | None => Some false
      | Some height =>
          width ← dilated_window input 2 pad 2 kernel_w dilation stride 1;
          match width with
          | None => Some false
          | Some width =>
              c ← dimension input 3;
              Some (c =? channels) &&! bias_matches bias output_channels &&!
              (n ← dimension input 0; Some (dimensions_equal output [n; height; width; output_channels]))
          end
      end
  end.

(** The three spatial dimensions of [conv3d_shape]. *)
Fixpoint conv3d_spatial (input weight : WireTensor) (pad stride dilation : I32List) (indices : list nat)
    : option (option (list Z)) :=
  match indices with
  | [] => Some (Some [])
  | index :: indices =>
      size ← dimension weight (index + 1);
      value ← dilated_window input (index + 1) pad (Z.of_nat index * 2) size dilation stride
                (Z.of_nat index);
      match value with
      | None => Some None
      | Some v =>
          rest ← conv3d_spatial input weight pad stride dilation indices;
          Some (r ← rest; Some (v :: r))
      end
  end.

Definition conv3d_shape (input weight bias output : WireTensor) (pad stride dilation : I32List)
    (target : Target) : option bool :=
  fits ← dilated_kernel_within_level weight [1; 2; 3]%nat dilation (level_limits (tgt_level target));
  if negb fits then Some false else
  spatial ← conv3d_spatial input weight pad stride dilation [0; 1; 2]%nat;
  match spatial with
  | None => Some false
  | Some spatial =>
      channels ← dimension weight 4;
      output_channels ← dimension weight 0;
      c ← dimension input 4;
      Some (c =? channels) &&! bias_matches bias output_channels &&!
      (n ← dimension input 0; Some (dimensions_equal output ([n] ++ spatial ++ [output_channels])))
  end.

(** [value.ilog2()] panics at zero. *)
Definition ilog2 (v : Z) : option Z := if v =? 0 then None else Some (Z.log2 v).

Definition fft_shape (input : WireTensor) (limits : LevelLimits) : option bool :=
  h ← dimension input 1;
  w ← dimension input 2;
  pall (fun value =>
    let value := as_unsigned 32 value in
    Some ((value <=? as_unsigned 32 (max_kernel limits)) && is_power_of_two value) &&!
    (l ← ilog2 value; Some (l <=? max_log2_size limits))) [h; w].

Definition transpose_extent (size stride before after kernel : Z) : option Z :=
  a ← i64_checked_mul (size - 1) stride;
  b ← i64_checked_add a before;
  c ← i64_checked_add b after;
  d ← i64_checked_add c kernel;
  i32_try_from d.

Definition transpose_conv2d_shape (input weight bias output : WireTensor) (out_pad stride : I32List)
    (target : Target) : option bool :=
  fits ← kernel_within_level weight [1; 2]%nat (level_limits (tgt_level target));
  if negb fits then Some false else
  kernel_h ← dimension weight 1;
  kernel_w ← dimension weight 2;
  p0 ← list_at out_pad 0; p1 ← list_at out_pad 1; p2 ← list_at out_pad 2; p3 ← list_at out_pad 3;
  if (p0 <=? - kernel_h) || (p1 <=? - kernel_h) || (p2 <=? - kernel_w) || (p3 <=? - kernel_w)
  then Some false else
  h ← dimension input 1; s0 ← list_at stride 0;
  match transpose_extent h s0 p0 p1 kernel_h with
  | None => Some false
  | Some height =>
      w ← dimension input 2; s1 ← list_at stride 1;
      match transpose_extent w s1 p2 p3 kernel_w with
      | None => Some false
      | Some width =>
          output_channels ← dimension weight 0;
          same_dimension input 3 weight 3 &&! bias_matches bias output_channels &&!
          (n ← dimension input 0; Some (dimensions_equal output [n; height; width; output_channels]))
      end
  end.

(** One output axis of [broadcast_shape]: the expected extent, or a mismatch. *)
Fixpoint broadcast_axis (inputs : list WireTensor) (output_axis output_rank expected : Z)
    : option (option Z) :=
  match inputs with
  | [] => Some (Some expected)
  | input :: inputs =>
      input_rank ← Tensor_rank input;
      if output_rank <=? output_axis + input_rank then
        let input_axis := output_axis + input_rank - output_rank in
        value ← dimension input (Z.to_nat input_axis);
        if negb (value =? 1) && negb (expected =? 1) && negb (value =? expected) then Some None
        else broadcast_axis inputs output_axis output_rank (Z.max expected value)
      else broadcast_axis inputs output_axis output_rank expected
  end.

Definition broadcast_shape (inputs : list WireTensor) (output : WireTensor) : option bool :=
  output_rank ← Tensor_rank output;
  fits ← pall (fun input => r ← Tensor_rank input; Some (r <=? output_rank)) inputs;
  if negb fits then Some false else
  pall (fun output_axis =>
    output_dimension ← dimension output output_axis;
    expected ← broadcast_axis inputs (Z.of_nat output_axis) output_rank 1;
    Some (match expected with None => false | Some e => output_dimension =? e end))
    (seq 0 (Z.to_nat output_rank)).

Definition reduction_axis (a : OpAttributes) : option Z :=
  match a with
  | AReduceAll axis | AReduceAny axis | AReduceMax axis _ | AReduceMin axis _ | AReduceProduct axis
  | AReduceSum axis => Some axis
  | _ => None
  end.

Definition reduced_shape (input output : WireTensor) (axis : Z) : option bool :=
  Some (bool_decide (Tensor_rank input = Tensor_rank output)) &&!
  pall (fun p : nat * Z =>
    d ← dimension output (fst p);
    Some (d =? if Z.of_nat (fst p) =? axis then 1 else snd p)) (imap pair (Tensor_dimensions input)).

(** One operand of [concat_shape]: its extent along the axis is added. *)
Fixpoint concat_operand (value output : WireTensor) (axis : Z) (indices : list nat) (axis_size : Z)
    : option (option Z) :=
  match indices with
  | [] => Some (Some axis_size)
  | index :: indices =>
      if Z.of_nat index =? axis then
        d ← dimension value index;
        concat_operand value output axis indices (axis_size + d)
      else
        same ← same_dimension value index output index;
        if negb same then Some None else concat_operand value output axis indices axis_size
  end.

Fixpoint concat_loop (inputs : list Symbol) (output : WireTensor) (rank axis axis_size : Z)
    : option (option Z) :=
  match inputs with
  | [] => Some (Some axis_size)
  | operand :: inputs =>
      value ← tensor operand;
      if negb (bool_decide (Tensor_rank value = Some rank)) then Some None else
      r ← concat_operand value output axis (seq 0 (Z.to_nat rank)) axis_size;
      match r with
      | None => Some None
      | Some axis_size => concat_loop inputs output rank axis axis_size
      end
  end.

Definition concat_shape (inputs : list Symbol) (output : WireTensor) (axis : Z) : option bool :=
  rank ← Tensor_rank output;
  total ← concat_loop inputs output rank axis 0;
  match total with
  | None => Some false
  | Some axis_size => d ← dimension output (Z.to_nat axis); Some (d =? axis_size)
  end.

(** [shape_value]: the value at an index, when the shape is constant. *)
Definition shape_value (s : WireShape) (index : nat) : option (option Z) :=
  values ← shape_values s;
  Some (vs ← values; vs !! index).

Definition has_values (s : WireShape) : bool :=
  match Shape_values s with Some _ => true | None => false end.

Definition pad_shape (input : WireTensor) (padding : WireShape) (pad output : WireTensor)
    (dynamic : bool) : option bool :=
  rank ← Tensor_rank input;
  if negb (Shape_rank padding =? rank * 2) || negb (scalar_shape pad) ||
     negb (bool_decide (Tensor_rank output = Some rank)) then Some false else
  if negb (has_values padding) then Some dynamic else
  pall (fun index =>
    before ← shape_value padding (index * 2);
    after ← shape_value padding (index * 2 + 1);
    match before, after with
    | Some before, Some after =>
        if (0 <=? before) && (0 <=? after) then
          out ← dimension output index;
          d ← dimension input index;
          Some (out =? i64_wrap (i64_wrap (d + before) + after))
        else Some false
    | _, _ => Some false
    end) (seq 0 (Z.to_nat rank)).

Definition tensor_elements (t : WireTensor) : option Z :=
  product_checked U64_MAX (as_unsigned 64) (Tensor_dimensions t).

Definition reshape_shape (input : WireTensor) (new_shape : WireShape) (output : WireTensor)
    (dynamic : bool) : option bool :=
  rank ← Tensor_rank output;
  if negb (Shape_rank new_shape =? rank) then Some false else
  if negb (bool_decide (tensor_elements input = tensor_elements output)) then Some false else
  if has_values new_shape then
    pall (fun index =>
      v ← shape_value new_shape index;
      d ← dimension output index;
      Some (bool_decide (v = Some d))) (seq 0 (Z.to_nat rank))
  else Some dynamic.

Definition slice_shape (input : WireTensor) (start size : WireShape) (output : WireTensor)
    (dynamic : bool) : option bool :=
  rank ← Tensor_rank input;
  if negb (Shape_rank start =? rank) || negb (Shape_rank size =? rank) ||
     negb (bool_decide (Tensor_rank output = Some rank)) then Some false else
  if negb (has_values start) || negb (has_values size) then Some dynamic else
  pall (fun index =>
    s ← shape_value start index;
    n ← shape_value size index;
    match s, n with
    | Some s, Some n =>
        if (0 <=? s) && (0 <? n) then
          d ← dimension input index;
          if i64_wrap (s + n) <=? d then
            out ← dimension output index; Some (n =? out)
          else Some false
        else Some false
    | _, _ => Some false
    end) (seq 0 (Z.to_nat rank)).

Definition tile_shape (input : WireTensor) (multiples : WireShape) (output : WireTensor)
    (dynamic : bool) : option bool :=
  rank ← Tensor_rank input;
  if negb (Shape_rank multiples =? rank) || negb (bool_decide (Tensor_rank output = Some rank))
  then Some false else
  if negb (has_values multiples) then Some dynamic else
  pall (fun index =>
    m ← shape_value multiples index;
    match m with
    | None => Some false
    | Some multiple =>
        if 1 <=? multiple then
          d ← dimension input index;
          out ← dimension output index;
          Some (i64_wrap (d * multiple) =? out)
        else Some false
    end) (seq 0 (Z.to_nat rank)).

(** [perms.get(index).unwrap() as usize] *)
Definition transpose_shape (input output : WireTensor) (perms : I32List) : option bool :=
  if negb (bool_decide (Tensor_rank input = Tensor_rank output)) then Some false else
  rank ← Tensor_rank output;
  pall (fun index =>
    p ← list_at perms (Z.of_nat index);
    same_dimension input (Z.to_nat (as_unsigned 64 p)) output index) (seq 0 (Z.to_nat rank)).

(** The spatial extents a resize may have. *)
Definition resize_extents (input output : WireTensor) : option (list Z) :=
  a ← dimension input 1; b ← dimension input 2; c ← dimension output 1; d ← dimension output 2;
  Some [a; b; c; d].

Definition resize_shape (input : WireTensor) (scale offset border : WireShape) (output : WireTensor)
    (limits : LevelLimits) (dynamic : bool) : option bool :=
  if negb (Shape_rank scale =? 4) || negb (Shape_rank offset =? 2) || negb (Shape_rank border =? 2)
  then Some false else
  if negb (has_values scale) || negb (has_values offset) || negb (has_values border) then
    Some dynamic &&! same_dimension input 0 output 0 &&! same_dimension input 3 output 3 &&!
    (es ← resize_extents input output; Some (forallb (fun v => v <? 16384) es))
  else
  yn ← shape_value scale 0; yd ← shape_value scale 1; xn ← shape_value scale 2; xd ← shape_value scale 3;
  oy ← shape_value offset 0; ox ← shape_value offset 1;
  by_ ← shape_value border 0; bx ← shape_value border 1;
  match yn, yd, xn, xd, oy, ox, by_, bx with
  | Some yn, Some yd, Some xn, Some xd, Some oy, Some ox, Some by_, Some bx =>
      es ← resize_extents input output;
      if (yn <=? 0) || (yd <=? 0) || (xn <=? 0) || (xd <=? 0) || (2048 <? yn) || (2048 <? xn) ||
         (max_scale limits * yd <? yn) || (max_scale limits * xd <? xn) ||
         (16 * yn <=? yd) || (16 * xn <=? xd) ||
         negb ((- yn <=? oy) && (oy <? 16 * yn)) || negb ((- xn <=? ox) && (ox <? 16 * xn)) ||
         negb ((-16 * yn <=? by_) && (by_ <? yn)) || negb ((-16 * xn <=? bx) && (bx <? xn)) ||
         existsb (fun v => 16384 <=? v) es
      then Some false else
      h ← dimension input 1; w ← dimension input 2;
      let height_numerator := (h - 1) * yn - oy + by_ in
      let width_numerator := (w - 1) * xn - ox + bx in
      if negb (Z.rem height_numerator yd =? 0) || negb (Z.rem width_numerator xd =? 0) then Some false else
      n ← dimension input 0; c ← dimension input 3;
      Some (dimensions_equal output
              [n; default 0 (i32_try_from (Z.quot height_numerator yd + 1));
               default 0 (i32_try_from (Z.quot width_numerator xd + 1)); c])
  | _, _, _, _, _, _, _, _ => Some false
  end.
