(* ===== verification/TosaFlow.v ===== *)
(** * Semantic validation: operators, blocks and the graph

    crates/virtio-accel-tosa/src/semantic.rs: region signatures,
    [validate_shapes], [validate_operator], the data-flow check, the nesting of
    control flow, [validate_block] and [validate_semantics].  [alloc n] tells
    whether the [n]-th reservation of a call succeeds. *)

From Stdlib Require Import ZArith Lia.
From stdpp Require Import prelude list sorting.
From S2P Require Import Prelude TosaTypes TosaNumeric TosaArtifact TosaWire TosaValidate TosaView TosaSemantic TosaTypeProfile TosaAttrCheck TosaShapes.

(** ** Regions as control-flow targets *)

(** [iter.find(|x| x.name() == name)]; a missing name panics. *)
Fixpoint pfind {A} (name_of : A -> option str) (name : str) (xs : list A) : option (option A) :=
  match xs with
  | [] => Some None
  | x :: xs =>
      n ← name_of x;
      if bool_decide (n = name) then Some (Some x) else pfind name_of name xs
  end.

Definition model_regions (m : Model) : list WireRegion := items (wg_regions (mo_graph m)).

Definition control_region_exists (region_names : list str) (name : option str) : bool :=
  match name with Some n => is_ok (binary_search region_names n) | None => false end.

Definition region_block (m : Model) (name : str) : option (option WireBlock) :=
  region ← pfind Region_name name (model_regions m);
  match region with
  | None => Some None
  | Some region =>
      match items (wr_blocks region) with
      | [] => Some None
      | first :: rest =>
          n ← BasicBlock_name first;
          if bool_decide (n = name) then Some (Some first) else
          found ← pfind BasicBlock_name name rest;
          Some (match found with Some b => Some b | None => Some first end)
      end
  end.

Definition block_tensor (b : WireBlock) (name : str) : option (option WireTensor) :=
  pfind Tensor_name name (items (wb_tensors b)).

Definition signature_matches (b : WireBlock) (operands : list Symbol) (inputs : bool) : option bool :=
  let names := items (if inputs then wb_inputs b else wb_outputs b) in
  if negb (zlen names =? zlen operands) then Some false else
  pall (fun p : str * Symbol =>
    value ← block_tensor b (fst p);
    match value with
    | None => Some false
    | Some value =>
        expected ← tensor (snd p);
        Some ((Tensor_dtype value =? Tensor_dtype expected) && same_shape value expected)
    end) (zip names operands).

Definition region_matches (m : Model) (name : str) (inputs outputs : list Symbol) : option bool :=
  b ← region_block m name;
  match b with
  | None => Some false
  | Some b => signature_matches b inputs true &&! signature_matches b outputs false
  end.

Definition condition_region_matches (m : Model) (name : str) (inputs : list Symbol) : option bool :=
  b ← region_block m name;
  match b with
  | None => Some false
  | Some b =>
      matches ← signature_matches b inputs true;
      if negb matches || negb (zlen (items (wb_outputs b)) =? 1) then Some false else
      match items (wb_outputs b) with
      | [] => Some false
      | name :: _ =>
          condition ← block_tensor b name;
          Some (match condition with
                | None => false
                | Some c => (Tensor_dtype c =? DType.BOOL) && bool_decide (tensor_elements c = Some 1)
                end)
      end
  end.

Definition tensor_lists_same (inputs outputs : list Symbol) : option bool :=
  if negb (zlen inputs =? zlen outputs) then Some false else
  pall (fun p : Symbol * Symbol =>
    input ← tensor (fst p);
    output ← tensor (snd p);
    Some ((Tensor_dtype input =? Tensor_dtype output) && same_shape input output)) (zip inputs outputs).

(** ** [validate_shapes] *)

Section Shapes.
Context (m : Model) (op : Z) (attributes : OpAttributes) (inputs outputs : list Symbol).
Context (target : Target) (region_names : list str).
Let i := tensor_at inputs.
Let o := tensor_at outputs.
Let dynamic := ExtensionSet.contains (tgt_extensions target) ExtensionSet.DYNAMIC.
Let limits := level_limits (tgt_level target).

(** [f(i(a), ..)] with every operand read first. *)
Definition on1 (a : option WireTensor) (f : WireTensor -> option bool) : option bool := x ← a; f x.
Definition on2 (a b : option WireTensor) (f : WireTensor -> WireTensor -> option bool) : option bool :=
  x ← a; y ← b; f x y.

Definition scalar_at (a : option WireTensor) : option bool := x ← a; Some (scalar_shape x).
Definition same_at (a b : option WireTensor) : option bool := x ← a; y ← b; Some (same_shape x y).
Definition broadcast2 : option bool := x ← i 0%nat; y ← i 1%nat; z ← o 0%nat; broadcast_shape [x; y] z.

Definition matmul_shape : option bool :=
  a ← i 0%nat; b ← i 1%nat;
  same_dimension a 0 b 0 &&! same_dimension a 2 b 1 &&!
  (c ← o 0%nat; n ← dimension a 0; h ← dimension a 1; w ← dimension b 2;
   Some (dimensions_equal c [n; h; w])) &&! scalar_at (i 2%nat) &&! scalar_at (i 3%nat).

Definition rfft_shape : option bool :=
  a ← i 0%nat; x ← o 0%nat; y ← o 1%nat;
  same_prefix a x 2 &&! Some (same_shape x y) &&!
  (p ← dimension x 2; q ← dimension a 2; Some (p =? Z.quot q 2 + 1)) &&! fft_shape a limits.

Definition gather_shape : option bool :=
  v ← i 0%nat; ix ← i 1%nat; z ← o 0%nat;
  (n ← dimension v 0; w ← dimension ix 1; c ← dimension v 2; Some (dimensions_equal z [n; w; c])) &&!
  same_dimension v 0 ix 0.

Definition scatter_shape : option bool :=
  v ← i 0%nat; ix ← i 1%nat;
  same_at (i 0%nat) (o 0%nat) &&! same_dimension v 0 ix 0 &&!
  (x ← i 2%nat; n ← dimension ix 0; w ← dimension ix 1; c ← dimension v 2;
   Some (dimensions_equal x [n; w; c])).

Definition conv_operands (f : WireTensor -> WireTensor -> WireTensor -> WireTensor -> option bool)
    : option bool :=
  (x ← i 0%nat; w ← i 1%nat; b ← i 2%nat; y ← o 0%nat; f x w b y) &&! scalar_at (i 3%nat) &&!
  scalar_at (i 4%nat).

Definition cond_if_ok : option bool :=
  match attributes with
  | ACondIf then_graph else_graph =>
      c ← i 0%nat;
      Some (bool_decide (tensor_elements c = Some 1)) &&!
      Some (control_region_exists region_names then_graph) &&!
      Some (control_region_exists region_names else_graph) &&!
      (t ← then_graph; region_matches m t (drop 1 inputs) outputs) &&!
      (e ← else_graph; region_matches m e (drop 1 inputs) outputs)
  | _ => None
  end.

Definition while_loop_ok : option bool :=
  match attributes with
  | AWhileLoop cond_graph body_graph =>
      Some (control_region_exists region_names cond_graph) &&!
      Some (control_region_exists region_names body_graph) &&!
      tensor_lists_same inputs outputs &&!
      (c ← cond_graph; condition_region_matches m c inputs) &&!
      (b ← body_graph; region_matches m b inputs outputs)
  | _ => None
  end.

Definition shapes_ok : option bool :=
  match op with
  | 1 => match attributes with
         | AArgMax axis _ => on2 (i 0%nat) (o 0%nat) (fun x y => shape_without_axis x y axis)
         | _ => None end
  | 2 => match attributes with
         | AAvgPool2d kernel stride pad _ =>
             on2 (i 0%nat) (o 0%nat) (fun x y => pool_shape x y kernel stride pad) &&!
             scalar_at (i 1%nat) &&! scalar_at (i 2%nat)
         | _ => None end
  | 3 | 5 => match attributes with
         | AConv2d pad stride dilation _ _ | ADepthwiseConv2d pad stride dilation _ _ =>
             conv_operands (fun x w b y => conv2d_shape op x w b y pad stride dilation target)
         | _ => None end
  | 4 => match attributes with
         | AConv3d pad stride dilation _ _ =>
             conv_operands (fun x w b y => conv3d_shape x w b y pad stride dilation target)
         | _ => None end
  | 6 => same_at (i 0%nat) (i 1%nat) &&! same_at (i 0%nat) (o 0%nat) &&! same_at (i 0%nat) (o 1%nat) &&!
         on1 (i 0%nat) (fun x => fft_shape x limits)
  | 7 => matmul_shape
  | 8 => match attributes with
         | AMaxPool2d kernel stride pad _ =>
             on2 (i 0%nat) (o 0%nat) (fun x y => pool_shape x y kernel stride pad)
         | _ => None end
  | 9 => rfft_shape
  | 10 => match attributes with
         | ATransposeConv2d out_pad stride _ _ =>
             conv_operands (fun x w b y => transpose_conv2d_shape x w b y out_pad stride target)
         | _ => None end
  | 11 | 12 | 13 | 14 | 32 | 33 | 34 | 35 | 36 | 37 | 38 | 39 | 40 | 41 | 42 | 43 | 44 | 58 | 65 | 66
  | 68 => same_at (i 0%nat) (o 0%nat)
  | 15 | 16 | 17 | 18 | 19 | 20 | 21 | 22 | 23 | 24 | 25 | 26 | 27 | 29 | 30 => broadcast2
  | 28 => broadcast2 &&! scalar_at (i 2%nat)
  | 31 => same_at (i 0%nat) (o 0%nat) &&!
          (x ← i 0%nat; t ← i 1%nat; d ← dimension t 0;
           Some (d =? if Tensor_dtype x =? DType.INT8 then 256 else 513))
  | 45 => x ← i 0%nat; y ← i 1%nat; z ← i 2%nat; w ← o 0%nat; broadcast_shape [x; y; z] w
  | 46 | 47 | 48 => broadcast2
  | 49 | 50 | 51 | 52 | 53 | 54 =>
      axis ← reduction_axis attributes;
      on2 (i 0%nat) (o 0%nat) (fun x y => reduced_shape x y axis)
  | 55 => match attributes with
          | AConcat axis => on1 (o 0%nat) (fun y => concat_shape inputs y axis)
          | _ => None end
  | 56 => x ← i 0%nat; s ← shape_at inputs 1; p ← i 2%nat; y ← o 0%nat; pad_shape x s p y dynamic
  | 57 => x ← i 0%nat; s ← shape_at inputs 1; y ← o 0%nat; reshape_shape x s y dynamic
  | 59 => x ← i 0%nat; s ← shape_at inputs 1; z ← shape_at inputs 2; y ← o 0%nat;
          slice_shape x s z y dynamic
  | 60 => x ← i 0%nat; s ← shape_at inputs 1; y ← o 0%nat; tile_shape x s y dynamic
  | 61 => match attributes with
          | ATranspose perms => on2 (i 0%nat) (o 0%nat) (fun x y => transpose_shape x y perms)
          | _ => None end
  | 62 => gather_shape
  | 63 => scatter_shape
  | 64 => x ← i 0%nat; s ← shape_at inputs 1; f ← shape_at inputs 2; b ← shape_at inputs 3; y ← o 0%nat;
          resize_shape x s f b y limits dynamic
  | 67 => y ← o 0%nat; data ← tensor_data (mo_bytes m) y; Some (negb (zlen data =? 0))
  | 69 => Some true
  | 70 => cond_if_ok
  | 71 => while_loop_ok
  | 72 => Some true
  | 73 => on1 (i 0%nat) (fun x => Some (Tensor_is_variable x && bool_decide (is_Some (Tensor_variable_name x))))
  | 74 => on1 (o 0%nat) (fun x => Some (Tensor_is_variable x && bool_decide (is_Some (Tensor_variable_name x))))
  | 75 => s ← shape_at outputs 0; Some (has_values s)
  | _ => Some false
  end.

(** Which error a failed check is: the two control-flow operators have their
    own. *)
Definition shapes_error : SemanticErrorKind :=
  let control_flow := (op =? Op.COND_IF) || (op =? Op.WHILE_LOOP) in
  let unknown :=
    match attributes with
    | ACondIf a b | AWhileLoop a b =>
        negb (control_region_exists region_names a) || negb (control_region_exists region_names b)
    | _ => false
    end in
  if control_flow && unknown then UnknownControlFlowRegion op
  else if control_flow then ControlFlowSignature op
  else InvalidShape op.

Definition validate_shapes : sem unit :=
  valid ← shapes_ok;
  Some (if valid : bool then Ok tt else Err shapes_error).
End Shapes.

(** ** [validate_operator] *)

Definition semantic_operator (m : Model) (operator : WireOperator) (inputs outputs : list Symbol)
    (target : Target) (region_names constants : list str) : sem unit :=
  let op := Operator_op operator in
  let limits := level_limits (tgt_level target) in
  arity ← arity op;
  if negb (Arity_accepts arity (zlen inputs) (zlen outputs))
  then Some (Err (InvalidArity op (zlen inputs) (zlen outputs))) else
  let! _ := Some (validate_tensor_list_limit op (zlen inputs) (zlen outputs) limits) in
  let! _ := Some (validate_operand_kinds op inputs outputs) in
  let! _ := validate_ranks op inputs outputs limits in
  attributes ← Operator_attributes operator;
  let! _ := validate_type_profile target attributes inputs outputs op in
  let! _ := validate_attributes op attributes inputs outputs target in
  let! _ := validate_ctc_inputs (mo_bytes m) op operator attributes inputs constants
              (ExtensionSet.contains (tgt_extensions target) ExtensionSet.DYNAMIC) in
  validate_shapes m op attributes inputs outputs target region_names.

(** * Semantic validation: data flow, control flow and the whole graph

    crates/virtio-accel-tosa/src/semantic.rs: [validate_dataflow],
    [validate_control_flow_nesting], [validate_block] and
    [validate_semantics].  Whether a reservation succeeds is given by [alloc]
    on the site of the reservation: the region, block and operator indices
    and the position within the function. *)

(** A call that may panic or return a located error. *)
Abbreviation checked A := (option (result A SemanticError)).

(** ** Symbols *)

(** Tables sorted by name: equal names do not occur, so the unstable sort has
    one answer. *)
Definition by_name {A} (a b : str * A) : Prop := str_le a.1 b.1.
#[global] Instance by_name_dec {A} : RelDecision (by_name (A := A)).
Proof. intros a b. unfold by_name. apply _. Defined.

Definition sort_by_name {A} (l : list (str * A)) : list (str * A) := merge_sort by_name l.

(** [table.binary_search_by_key(&name, ..).ok().map(|index| table[index].1)] *)
Definition search_by_name {A} (table : list (str * A)) (name : str) : option A :=
  match binary_search (fst <$> table) name with
  | Ok index => snd <$> table !! index
  | Err _ => None
  end.

(** [resolve]: the [expect] panics when the name is missing. *)
Definition resolve (symbols : list (str * Symbol)) (name : str) : option Symbol :=
  search_by_name symbols name.

(** [iter.map(resolve).collect()] *)
Fixpoint resolve_all (symbols : list (str * Symbol)) (names : list str) : option (list Symbol) :=
  match names with
  | [] => Some []
  | n :: names => s ← resolve symbols n; ss ← resolve_all symbols names; Some (s :: ss)
  end.

(** Names of tables, each behind an [expect]. *)
Fixpoint collect_names {A} (name_of : A -> option str) (xs : list A) : option (list str) :=
  match xs with
  | [] => Some []
  | x :: xs => n ← name_of x; ns ← collect_names name_of xs; Some (n :: ns)
  end.

(** ** [validate_dataflow] *)

Section Dataflow.
Context (alloc : nat -> bool) (symbols : list (str * Symbol)) (region block_index : nat).

Definition located (kind : SemanticErrorKind) : SemanticError := Graph region block_index None kind.

(** A symbol that is a variable tensor. *)
Definition is_variable_symbol (s : Symbol) : bool :=
  match s with STensor t => Tensor_is_variable t | SShape _ => false end.

(** The outputs of one operator. *)
Fixpoint collect_outputs (sources : list str) (operator_index : nat) (outputs : list str)
    (producers : list (str * nat)) : checked (list (str * nat)) :=
  match outputs with
  | [] => Some (Ok producers)
  | name :: outputs =>
      s ← resolve symbols name;
      if is_variable_symbol s then collect_outputs sources operator_index outputs producers
      else if is_ok (binary_search sources name) then Some (Err (located GraphInputProduced))
      else collect_outputs sources operator_index outputs (producers ++ [(name, operator_index)])
  end.

Fixpoint collect_producers (sources : list str) (operators : list WireOperator) (operator_index : nat)
    (edge_capacity : Z) (producers : list (str * nat)) : checked (list (str * nat)) :=
  match operators with
  | [] => Some (Ok producers)
  | operator :: operators =>
      match checked_add USIZE_MAX edge_capacity (zlen (items (wo_inputs operator))) with
      | None => Some (Err SemAllocationFailed)
      | Some edge_capacity =>
          let! producers := collect_outputs sources operator_index (items (wo_outputs operator)) producers in
          collect_producers sources operators (S operator_index) edge_capacity producers
      end
  end.

(** The inputs of one consumer: edges and indegrees grow together. *)
Fixpoint collect_inputs (sources : list str) (producers : list (str * nat)) (consumer : nat)
    (inputs : list str) (edges : list (nat * nat)) (indegrees : list Z)
    : checked (list (nat * nat) * list Z) :=
  match inputs with
  | [] => Some (Ok (edges, indegrees))
  | name :: inputs =>
      if is_ok (binary_search sources name)
      then collect_inputs sources producers consumer inputs edges indegrees
      else
        match search_by_name producers name with
        | None => Some (Err (located DisconnectedSymbol))
        | Some producer =>
            d ← indegrees !! consumer;
            match checked_add USIZE_MAX d 1 with
            | None => Some (Err SemAllocationFailed)
            | Some d =>
                collect_inputs sources producers consumer inputs (edges ++ [(producer, consumer)])
                  (<[consumer := d]> indegrees)
            end
        end
  end.

Fixpoint collect_edges (sources : list str) (producers : list (str * nat))
    (operators : list WireOperator) (consumer : nat) (edges : list (nat * nat)) (indegrees : list Z)
    : checked (list (nat * nat) * list Z) :=
  match operators with
  | [] => Some (Ok (edges, indegrees))
  | operator :: operators =>
      let! (edges, indegrees) :=
        collect_inputs sources producers consumer (items (wo_inputs operator)) edges indegrees in
      collect_edges sources producers operators (S consumer) edges indegrees
  end.

Definition outputs_connected (sources : list str) (producers : list (str * nat)) (outputs : list str)
    : bool :=
  forallb (fun name =>
    is_ok (binary_search sources name) || is_ok (binary_search (fst <$> producers) name)) outputs.

(** [edges.sort_unstable()] on pairs of indices. *)
Definition edge_le (a b : nat * nat) : Prop := (a.1 < b.1)%nat \/ (a.1 = b.1 /\ (a.2 <= b.2)%nat).
#[global] Instance edge_le_dec : RelDecision edge_le.
Proof. intros a b. unfold edge_le. apply _. Defined.
Definition sort_edges (edges : list (nat * nat)) : list (nat * nat) := merge_sort edge_le edges.

(** [slice.partition_point(pred)] on a partitioned slice. *)
Fixpoint partition_point {A} (pred : A -> bool) (l : list A) : nat :=
  match l with
  | x :: l => if pred x then S (partition_point pred l) else O
  | [] => O
  end.

(** The edges out of one producer: [edges[start..end]]. *)
Definition edges_of (edges : list (nat * nat)) (producer : nat) : list (nat * nat) :=
  let start := partition_point (fun e => (e.1 <? producer)%nat) edges in
  let end_ := partition_point (fun e => (e.1 <=? producer)%nat) edges in
  take (end_ - start) (drop start edges).

(** One retired producer: [indegrees[consumer] -= 1], a panic below zero. *)
Fixpoint retire (edges : list (nat * nat)) (indegrees : list Z) (ready : list nat)
    : option (list Z * list nat) :=
  match edges with
  | [] => Some (indegrees, ready)
  | (_, consumer) :: edges =>
      d ← indegrees !! consumer;
      if d =? 0 then None else
      let indegrees := <[consumer := d - 1]> indegrees in
      let ready := if d - 1 =? 0 then ready ++ [consumer] else ready in
      retire edges indegrees ready
  end.

(** The [while cursor < ready.len()] loop; every operator becomes ready at
    most once, so their number is enough fuel. *)
Fixpoint schedule (fuel : nat) (edges : list (nat * nat)) (indegrees : list Z) (ready : list nat)
    (cursor : nat) : option nat :=
  match fuel with
  | O => Some cursor
  | S fuel =>
      match ready !! cursor with
      | None => Some cursor
      | Some producer =>
          r ← retire (edges_of edges producer) indegrees ready;
          schedule fuel edges r.1 r.2 (S cursor)
      end
  end.

(** The same loop of [topological_order], which keeps the list. *)
Fixpoint ready_order (fuel : nat) (edges : list (nat * nat)) (indegrees : list Z) (ready : list nat)
    (cursor : nat) : option (list nat) :=
  match fuel with
  | O => Some ready
  | S fuel =>
      match ready !! cursor with
      | None => Some ready
      | Some producer =>
          r ← retire (edges_of edges producer) indegrees ready;
          ready_order fuel edges r.1 r.2 (S cursor)
      end
  end.

(** The operators without pending inputs, in order. *)
Definition initially_ready (indegrees : list Z) : list nat :=
  omap (fun p : nat * Z => if p.2 =? 0 then Some p.1 else None) (imap pair indegrees).

Definition validate_dataflow (block : WireBlock) : checked unit :=
  let operators := items (wb_operators block) in
  let operator_count := length operators in
  match checked_add USIZE_MAX (zlen (items (wb_inputs block))) (zlen (items (wb_tensors block))) with
  | None => Some (Err SemAllocationFailed)
  | Some _ =>
      if negb (alloc 0%nat) then Some (Err SemAllocationFailed) else
      variable_names ←
        collect_names Tensor_name
          (filter (fun t => Tensor_is_variable t = true) (items (wb_tensors block)));
      let sources := sort_names (items (wb_inputs block) ++ variable_names) in
      if negb (alloc 1%nat) then Some (Err SemAllocationFailed) else
      let! producers := collect_producers sources operators 0 0 [] in
      let producers := sort_by_name producers in
      if negb (alloc 2%nat) then Some (Err SemAllocationFailed) else
      if negb (alloc 3%nat) then Some (Err SemAllocationFailed) else
      let! (edges, indegrees) :=
        collect_edges sources producers operators 0 [] (replicate operator_count 0) in
      if negb (outputs_connected sources producers (items (wb_outputs block)))
      then Some (Err (located DisconnectedSymbol)) else
      let edges := sort_edges edges in
      if negb (alloc 4%nat) then Some (Err SemAllocationFailed) else
      cursor ← schedule operator_count edges indegrees (initially_ready indegrees) 0;
      if bool_decide (cursor = operator_count) then Some (Ok tt)
      else Some (Err (located DataflowCycle))
  end.
End Dataflow.

(** ** [validate_control_flow_nesting] *)

(** The regions an attribute view names. *)
Definition child_names (a : OpAttributes) : list (option str) :=
  match a with
  | ACondIf then_graph else_graph => [then_graph; else_graph]
  | AWhileLoop cond_graph body_graph => [cond_graph; body_graph]
  | _ => []
  end.

(** Colours (0 white, 1 on the path, 2 done) and depths of the regions. *)
Record DfsState := { df_states : list Z; df_depths : list Z }.

Section Nesting.
Context (m : Model) (region_names : list str) (limit : Z).

(** One call's loops, with the recursive call as [visit]. *)
Section Loops.
Context (visit : nat -> DfsState -> sem (Z * DfsState)).

Fixpoint visit_children (children : list (option str)) (maximum : Z) (st : DfsState)
    : sem (Z * DfsState) :=
  match children with
  | [] => Some (Ok (maximum, st))
  | None :: children => visit_children children maximum st
  | Some child :: children =>
      match binary_search region_names child with
      | Err _ => visit_children children maximum st
      | Ok child_index =>
          let! (child_depth, st) := visit child_index st in
          visit_children children (Z.max maximum (saturating_add USIZE_MAX child_depth 1)) st
      end
  end.

Fixpoint visit_operators (operators : list WireOperator) (maximum : Z) (st : DfsState)
    : sem (Z * DfsState) :=
  match operators with
  | [] => Some (Ok (maximum, st))
  | operator :: operators =>
      attributes ← Operator_attributes operator;
      let! (maximum, st) := visit_children (child_names attributes) maximum st in
      visit_operators operators maximum st
  end.

Fixpoint visit_blocks (blocks : list WireBlock) (maximum : Z) (st : DfsState)
    : sem (Z * DfsState) :=
  match blocks with
  | [] => Some (Ok (maximum, st))
  | block :: blocks =>
      let! (maximum, st) := visit_operators (items (wb_operators block)) maximum st in
      visit_blocks blocks maximum st
  end.
End Loops.

(** [control_flow_depth]: the path is never longer than the limit plus one,
    which bounds the recursion. *)
Fixpoint control_flow_depth (fuel : nat) (index : nat) (path_depth : Z) (st : DfsState)
    : sem (Z * DfsState) :=
  match fuel with
  | O => None
  | S fuel =>
      if limit <? path_depth then Some (Err (ControlFlowNestingLimit path_depth limit)) else
      state ← df_states st !! index;
      if state =? 1 then Some (Err ControlFlowCycle) else
      if state =? 2 then d ← df_depths st !! index; Some (Ok (d, st)) else
      let st := {| df_states := <[index := 1]> (df_states st); df_depths := df_depths st |} in
      name ← region_names !! index;
      region ← pfind Region_name name (model_regions m);
      let! (maximum, st) :=
        match region with
        | Some region =>
            visit_blocks (fun i st => control_flow_depth fuel i (path_depth + 1) st)
              (items (wr_blocks region)) 0 st
        | None => Some (Ok (0, st))
        end in
      Some (Ok (maximum, {| df_states := <[index := 2]> (df_states st);
                            df_depths := <[index := maximum]> (df_depths st) |}))
  end.

Definition nesting_fuel : nat := S (S (Z.to_nat limit)).

Fixpoint nesting_loop (indices : list nat) (st : DfsState) : checked unit :=
  match indices with
  | [] => Some (Ok tt)
  | index :: indices =>
      r ← control_flow_depth nesting_fuel index 0 st;
      match r with
      | Err kind => Some (Err (Graph index 0 None kind))
      | Ok (depth, st) =>
          if limit <? depth
          then Some (Err (Graph index 0 None (ControlFlowNestingLimit depth limit)))
          else nesting_loop indices st
      end
  end.

Definition validate_control_flow_nesting (alloc : nat -> bool) : checked unit :=
  if negb (alloc 0%nat) || negb (alloc 1%nat) then Some (Err SemAllocationFailed) else
  let n := length region_names in
  nesting_loop (seq 0 n) {| df_states := replicate n 0; df_depths := replicate n 0 |}.
End Nesting.

(** ** Blocks and the graph *)

Section Semantics.
Context (alloc : list nat -> bool) (m : Model) (target : Target).
Let limits := level_limits (tgt_level target).

(** A tensor declares a variable with the extension and a name, or neither. *)
Definition variable_invalid (t : WireTensor) : bool :=
  (Tensor_is_variable t &&
   (negb (ExtensionSet.contains (tgt_extensions target) ExtensionSet.VARIABLE) ||
    negb (nonempty_name (Tensor_variable_name t)))) ||
  (negb (Tensor_is_variable t) && nonempty_name (Tensor_variable_name t)).

Fixpoint tensor_symbols (region block : nat) (tensors : list WireTensor) (symbols : list (str * Symbol))
    : checked (list (str * Symbol)) :=
  match tensors with
  | [] => Some (Ok symbols)
  | t :: tensors =>
      r ← validate_tensor_encoding (mo_bytes m) t;
      match r with
      | Err kind => Some (Err (Graph region block None kind))
      | Ok _ =>
          if negb (tensor_within_level t limits) then Some (Err (Graph region block None TensorSizeLimit))
          else if variable_invalid t then Some (Err (Graph region block None InvalidVariable))
          else n ← Tensor_name t; tensor_symbols region block tensors (symbols ++ [(n, STensor t)])
      end
  end.

Fixpoint shape_symbols (region block : nat) (shapes : list WireShape) (symbols : list (str * Symbol))
    : checked (list (str * Symbol)) :=
  match shapes with
  | [] => Some (Ok symbols)
  | s :: shapes =>
      ok ← shape_within_level s limits;
      if negb ok then Some (Err (Graph region block None ShapeValueLimit))
      else n ← Shape_name s; shape_symbols region block shapes (symbols ++ [(n, SShape s)])
  end.

Definition is_constant_op (o : WireOperator) : bool :=
  (Operator_op o =? Op.CONST) || (Operator_op o =? Op.CONST_SHAPE).

(** The names the constant operators write. *)
Definition constant_names (operators : list WireOperator) : list str :=
  filter (fun o => is_constant_op o = true) operators ≫= (fun o => items (wo_outputs o)).

Definition constant_count (operators : list WireOperator) : option Z :=
  fold_left (fun count o => c ← count; checked_add USIZE_MAX c (zlen (items (wo_outputs o))))
    (filter (fun o => is_constant_op o = true) operators) (Some 0).

Fixpoint graph_io_tensors (symbols : list (str * Symbol)) (names : list str) : option bool :=
  match names with
  | [] => Some true
  | n :: names =>
      s ← resolve symbols n;
      match s with STensor _ => graph_io_tensors symbols names | SShape _ => Some false end
  end.

Fixpoint operators_loop (region block : nat) (symbols : list (str * Symbol))
    (region_names constants : list str) (operators : list WireOperator) (operator_index : nat)
    : checked unit :=
  match operators with
  | [] => Some (Ok tt)
  | operator :: operators =>
      if negb (alloc [region; block; operator_index; 0]%nat) ||
         negb (alloc [region; block; operator_index; 1]%nat)
      then Some (Err SemAllocationFailed) else
      inputs ← resolve_all symbols (items (wo_inputs operator));
      outputs ← resolve_all symbols (items (wo_outputs operator));
      r ← semantic_operator m operator inputs outputs target region_names constants;
      match r with
      | Err kind => Some (Err (Graph region block (Some operator_index) kind))
      | Ok _ => operators_loop region block symbols region_names constants operators (S operator_index)
      end
  end.

Definition semantic_block (region_names : list str) (region block_index : nat) (block : WireBlock)
    : checked unit :=
  if negb (alloc [region; block_index; 0]%nat) then Some (Err SemAllocationFailed) else
  let! symbols := tensor_symbols region block_index (items (wb_tensors block)) [] in
  let! symbols := shape_symbols region block_index (items (wb_shapes block)) symbols in
  let symbols := sort_by_name symbols in
  let operators := items (wb_operators block) in
  match constant_count operators with
  | None => Some (Err SemAllocationFailed)
  | Some _ =>
      if negb (alloc [region; block_index; 1]%nat) then Some (Err SemAllocationFailed) else
      let constants := sort_names (constant_names operators) in
      io ← graph_io_tensors symbols (items (wb_inputs block) ++ items (wb_outputs block));
      if negb io then Some (Err (Graph region block_index None GraphIoMustBeTensor)) else
      let! _ := validate_dataflow (fun k => alloc [region; block_index; 2; k]%nat) symbols region
                  block_index block in
      operators_loop region block_index symbols region_names constants operators 0
  end.

Fixpoint blocks_loop (region_names : list str) (region : nat) (blocks : list WireBlock) (block_index : nat)
    : checked unit :=
  match blocks with
  | [] => Some (Ok tt)
  | block :: blocks =>
      let! _ := semantic_block region_names region block_index block in
      blocks_loop region_names region blocks (S block_index)
  end.

Fixpoint regions_loop (region_names : list str) (regions : list WireRegion) (region : nat) : checked unit :=
  match regions with
  | [] => Some (Ok tt)
  | r :: regions =>
      let! _ := blocks_loop region_names region (items (wr_blocks r)) 0 in
      regions_loop region_names regions (S region)
  end.

Definition validate_semantics : checked unit :=
  match Target_validate target with
  | Err e => Some (Err (InvalidTarget e))
  | Ok target' =>
      if negb (bool_decide (tgt_version target' = mo_version m))
      then Some (Err (InvalidTarget (TargetVersionMismatch (tgt_version target') (mo_version m)))) else
      if negb (alloc []) then Some (Err SemAllocationFailed) else
      names ← collect_names Region_name (model_regions m);
      let region_names := sort_names names in
      let! _ := validate_control_flow_nesting m region_names (max_nesting limits)
                  (fun k => alloc [k]) in
      regions_loop region_names (model_regions m) 0
  end.
End Semantics.
