(* ===== verification/TosaDataflow.v ===== *)
(** * The data-flow check decides whether a schedule exists

    [schedule] counts the operators that become ready.  The theorem: it
    reaches all of them exactly when the operators can be ordered so that
    every producer comes before its consumers, and it never underflows an
    indegree. *)

From Stdlib Require Import ZArith Lia.
From stdpp Require Import prelude list sorting.
From S2P Require Import Prelude TosaTypes TosaWire TosaValidate TosaGraph TosaView TosaSemantic TosaFlow.

Section Schedule.
Context (n : nat) (edges : list (nat * nat)).
(** Both ends of an edge are operators. *)
Hypothesis Hedges : Forall (fun e => (e.1 < n)%nat /\ (e.2 < n)%nat) edges.

(** How many edges of a list enter [c]. *)
Definition entering (es : list (nat * nat)) (c : nat) : Z :=
  zlen (filter (fun e => e.2 = c) es).

(** The edges whose producer is not yet retired. *)
Definition pending (done : list nat) : list (nat * nat) := filter (fun e => e.1 ∉ done) edges.

(** ** The edges out of a producer *)

#[local] Instance edge_le_total : Total edge_le.
Proof. intros a b. unfold edge_le. lia. Qed.
#[local] Instance edge_le_trans : Transitive edge_le.
Proof. intros a b c. unfold edge_le. lia. Qed.

Lemma sort_edges_perm : sort_edges edges ≡ₚ edges.
Proof. apply merge_sort_Permutation. Qed.

Lemma filter_none {A} (P : A -> Prop) `{!forall x, Decision (P x)} l :
  Forall (fun x => ~ P x) l -> filter P l = [].
Proof. induction 1; [done|]. rewrite filter_cons, decide_False; done. Qed.

(** On a slice sorted by the key the two partition points delimit the key. *)
Lemma edges_of_sorted l p : StronglySorted edge_le l -> edges_of l p = filter (fun e => e.1 = p) l.
Proof.
  intros Hs. unfold edges_of.
  induction Hs as [|e l Hs IH Hall]; [done|]. simpl partition_point. rewrite filter_cons.
  destruct (Nat.ltb_spec e.1 p) as [Hlt|Hge].
  - rewrite (proj2 (Nat.leb_le e.1 p)) by lia. rewrite decide_False by lia. simpl. exact IH.
  - destruct (Nat.leb_spec e.1 p) as [Hle|Hgt].
    + rewrite decide_True by lia. simpl. f_equal. rewrite <- IH.
      assert (partition_point (fun e => (e.1 <? p)%nat) l = 0%nat) as ->; [|by rewrite Nat.sub_0_r].
      destruct l as [|y l]; [done|]. simpl. apply Forall_cons in Hall as [Hy _].
      rewrite (proj2 (Nat.ltb_ge y.1 p)); [done|]. unfold edge_le in Hy. lia.
    + rewrite decide_False by lia. simpl. symmetry.
      apply filter_none. eapply Forall_impl; [exact Hall|]. unfold edge_le. simpl. lia.
Qed.

Lemma edges_of_filter p : edges_of (sort_edges edges) p ≡ₚ filter (fun e => e.1 = p) edges.
Proof.
  rewrite edges_of_sorted; [by rewrite sort_edges_perm|]. apply StronglySorted_merge_sort; apply _.
Qed.

(** ** Counting *)

Lemma entering_perm l k c : l ≡ₚ k -> entering l c = entering k c.
Proof. intros H. unfold entering, zlen. by rewrite H. Qed.

Lemma entering_cons p x l c : entering ((p, x) :: l) c = (if decide (x = c) then 1 else 0) + entering l c.
Proof. unfold entering, zlen. rewrite filter_cons. simpl. case_decide; simpl; lia. Qed.

Lemma entering_nonneg l c : 0 <= entering l c.
Proof. apply zlen_nonneg. Qed.

Lemma entering_zero l c : entering l c = 0 <-> forall e, e ∈ l -> e.2 <> c.
Proof.
  unfold entering, zlen. split.
  - intros H e He Hc. assert (e ∈ filter (fun e => e.2 = c) l) as Hin by (by apply list_elem_of_filter).
    destruct (filter _ l); [by apply elem_of_nil in Hin|simpl in H; lia].
  - intros H. destruct (filter (fun e => e.2 = c) l) as [|e k] eqn:E; [done|exfalso].
    assert (e ∈ filter (fun e => e.2 = c) l) as [Hc Hin]%list_elem_of_filter by (rewrite E; by left).
    by apply (H e).
Qed.

(** Retiring [p] takes exactly its edges out of the pending ones. *)
Lemma pending_retire done p : p ∉ done ->
  pending done ≡ₚ filter (fun e => e.1 = p) edges ++ pending (done ++ [p]).
Proof.
  intros Hp. unfold pending. clear Hedges. induction edges as [|e es IH]; [done|].
  rewrite !filter_cons. destruct (decide (e.1 ∉ done)) as [Hn|Hn], (decide (e.1 = p)) as [E|E].
  - rewrite decide_False.
    + simpl. by rewrite IH.
    + intros H. apply H, elem_of_app. right. apply list_elem_of_singleton. done.
  - rewrite decide_True.
    + rewrite IH. by rewrite Permutation_middle.
    + rewrite elem_of_app, list_elem_of_singleton. tauto.
  - exfalso. apply Hn. by rewrite E.
  - rewrite decide_False; [done|]. rewrite elem_of_app, list_elem_of_singleton. tauto.
Qed.

(** ** The state of the loop *)

(** [rem] are the edges not yet consumed: indegrees count them, and the ready
    list holds exactly the operators without one, each once. *)
Record counted_by (rem : list (nat * nat)) (indegrees : list Z) (ready : list nat) : Prop := {
  cb_length : length indegrees = n;
  cb_count : forall c, (c < n)%nat -> indegrees !! c = Some (entering rem c);
  cb_nodup : NoDup ready;
  cb_ready : forall c, c ∈ ready <-> (c < n)%nat /\ entering rem c = 0;
}.

(** Every ready operator has its producers before it. *)
Definition ordered (ready : list nat) : Prop :=
  forall i c, ready !! i = Some c -> forall p, (p, c) ∈ edges -> exists j, (j < i)%nat /\ ready !! j = Some p.

(** One edge consumed. *)
Lemma consume_edge p x rem indegrees ready (done : list nat) :
  (x < n)%nat -> counted_by ((p, x) :: rem) indegrees ready -> ordered ready ->
  (forall e, e ∈ edges -> e.1 ∉ done -> e ∈ rem) -> (forall q, q ∈ done -> q ∈ ready) ->
  exists d, indegrees !! x = Some d /\ d <> 0 /\
    let ready' := if d - 1 =? 0 then ready ++ [x] else ready in
    counted_by rem (<[x := d - 1]> indegrees) ready' /\ ordered ready' /\
    (forall q, q ∈ done -> q ∈ ready').
Proof.
  intros Hx [Hlen Hcount Hnd Hready] Hord Hrem Hdone.
  pose proof (entering_nonneg rem x). exists (entering ((p, x) :: rem) x).
  rewrite entering_cons, decide_True by done.
  split; [by rewrite Hcount, entering_cons, decide_True|]. split; [lia|].
  assert (x ∉ ready) as Hnot.
  { intros Hin. apply Hready in Hin as [_ Hin]. rewrite entering_cons, decide_True in Hin by done. lia. }
  replace (1 + entering rem x - 1) with (entering rem x) by lia.
  assert (forall c, (c < n)%nat -> <[x := entering rem x]> indegrees !! c = Some (entering rem c)) as Hcount'.
  { intros c Hc. destruct (decide (x = c)) as [<-|Hne].
    - rewrite list_lookup_insert_eq by lia. done.
    - rewrite list_lookup_insert_ne by done. rewrite Hcount by done.
      rewrite entering_cons, decide_False by done. done. }
  destruct (Z.eqb_spec (entering rem x) 0) as [E|E]; simpl.
  - split; [|split].
    + constructor; [by rewrite length_insert|done| |].
      * apply NoDup_app. split; [done|]. split; [|apply NoDup_singleton].
        intros c Hc ->%list_elem_of_singleton. done.
      * intros c. rewrite elem_of_app, list_elem_of_singleton, Hready, entering_cons.
        destruct (decide (x = c)) as [<-|Hne]; [|naive_solver lia].
        split; [naive_solver lia|]. intros _. by right.
    + intros i c Hi q Hq. apply lookup_app_Some in Hi as [Hi|[Hi Hi']].
      * destruct (Hord i c Hi q Hq) as (j & Hj & Hjq). exists j. split; [done|].
        by apply lookup_app_l_Some.
      * apply list_lookup_singleton_Some in Hi' as [Hi' <-].
        destruct (decide (q ∈ done)) as [Hqd|Hqd].
        -- apply Hdone in Hqd. apply list_elem_of_lookup in Hqd as [j Hj].
           exists j. split; [|by apply lookup_app_l_Some]. apply lookup_lt_Some in Hj. lia.
        -- exfalso. pose proof (proj1 (entering_zero rem x) E (q, x) (Hrem _ Hq Hqd)) as Hf. done.
    + intros q Hq. apply elem_of_app. left. auto.
  - split; [|done]. constructor; [by rewrite length_insert|done|done|].
    intros c. rewrite Hready, entering_cons. destruct (decide (x = c)) as [<-|]; naive_solver lia.
Qed.

(** All edges of one producer consumed. *)
Lemma retire_spec es rem indegrees ready (done : list nat) :
  Forall (fun e => (e.2 < n)%nat) es -> counted_by (es ++ rem) indegrees ready -> ordered ready ->
  (forall e, e ∈ edges -> e.1 ∉ done -> e ∈ rem) -> (forall q, q ∈ done -> q ∈ ready) ->
  exists indegrees' ready', retire es indegrees ready = Some (indegrees', ready') /\
    counted_by rem indegrees' ready' /\ ordered ready' /\ ready `prefix_of` ready'.
Proof.
  intros Hes. revert indegrees ready. induction Hes as [|[p x] es Hx Hes IH];
    intros indegrees ready Hc Ho Hrem Hdone; simpl.
  { exists indegrees, ready. done. }
  destruct (consume_edge p x (es ++ rem) indegrees ready done Hx Hc Ho) as (d & Hd & Hd0 & Hc' & Ho' & Hdone').
  { intros e He Hn. apply elem_of_app. right. auto. }
  { done. }
  rewrite Hd. simpl. rewrite (proj2 (Z.eqb_neq d 0) Hd0).
  destruct (IH _ _ Hc' Ho' Hrem Hdone') as (i' & r' & -> & Hc'' & Ho'' & Hpre).
  exists i', r'. split; [done|]. split; [done|]. split; [done|].
  etrans; [|exact Hpre]. case_match; [by apply prefix_app_r|done].
Qed.

Lemma ready_bound rem indegrees ready : counted_by rem indegrees ready -> (length ready <= n)%nat.
Proof.
  intros [_ _ Hnd Hready]. rewrite <- (length_seq n 0).
  apply submseteq_length, NoDup_submseteq; [done|]. intros c Hc. apply Hready in Hc as [Hc _].
  apply elem_of_seq. lia.
Qed.

(** ** The loop *)

(** What the loop returns: all ready operators were retired. *)
Lemma schedule_spec fuel indegrees ready cursor :
  counted_by (pending (take cursor ready)) indegrees ready -> ordered ready ->
  (cursor <= length ready)%nat -> (n - cursor <= fuel)%nat ->
  exists final indegrees', schedule fuel (sort_edges edges) indegrees ready cursor = Some (length final) /\
    ready_order fuel (sort_edges edges) indegrees ready cursor = Some final /\
    counted_by (pending final) indegrees' final /\ ordered final.
Proof.
  revert indegrees ready cursor. induction fuel as [|fuel IH]; intros indegrees ready cursor Hc Ho Hle Hf.
  - pose proof (ready_bound _ _ _ Hc). exists ready, indegrees. simpl.
    assert (cursor = length ready) as -> by lia. by rewrite take_ge in Hc by lia.
  - simpl. destruct (ready !! cursor) as [p|] eqn:Hp; cycle 1.
    { apply lookup_ge_None in Hp. assert (cursor = length ready) as -> by lia.
      exists ready, indegrees. by rewrite take_ge in Hc by lia. }
    set (done := take cursor ready) in *.
    assert (p ∉ done) as Hpd.
    { intros Hin. apply list_elem_of_lookup in Hin as [j Hj]. unfold done in Hj.
      apply lookup_take_Some in Hj as [Hj Hlt]. destruct Hc as [_ _ Hnd _].
      pose proof (NoDup_lookup _ _ _ _ Hnd Hj Hp). lia. }
    assert (take (S cursor) ready = done ++ [p]) as Htake by (by apply take_S_r).
    destruct (retire_spec (edges_of (sort_edges edges) p) (pending (done ++ [p])) indegrees ready
      (done ++ [p])) as (i' & r' & Hr & Hc' & Ho' & Hpre); try done.
    + rewrite edges_of_filter. apply Forall_forall. intros e [_ He]%list_elem_of_filter.
      rewrite Forall_forall in Hedges. by apply Hedges.
    + destruct Hc as [H1 H2 H3 H4].
      assert (forall c, entering (edges_of (sort_edges edges) p ++ pending (done ++ [p])) c =
                        entering (pending done) c) as Heq.
      { intros c. apply entering_perm. rewrite edges_of_filter. symmetry. by apply pending_retire. }
      constructor; try done.
      * intros c Hcn. rewrite Heq. auto.
      * intros c. rewrite Heq. auto.
    + intros e He Hn. unfold pending. by apply list_elem_of_filter.
    + intros q Hq. rewrite <- Htake in Hq. apply elem_of_take in Hq as (j & Hj & _).
      by eapply list_elem_of_lookup_2.
    + rewrite Hr. simpl. destruct Hpre as [k ->].
      apply IH; [|done| |lia].
      * rewrite take_app_le by (apply lookup_lt_Some in Hp; lia). by rewrite Htake.
      * rewrite length_app. apply lookup_lt_Some in Hp. lia.
Qed.

(** ** The decision *)

(** An order of all operators that puts producers before consumers. *)
Definition is_schedule (order : list nat) : Prop :=
  order ≡ₚ seq 0 n /\
  forall p c, (p, c) ∈ edges ->
    exists i j, order !! i = Some p /\ order !! j = Some c /\ (i < j)%nat.

Definition schedulable : Prop := exists order, is_schedule order.

Lemma elem_of_ready indegrees c : c ∈ initially_ready indegrees <-> indegrees !! c = Some 0.
Proof.
  unfold initially_ready. rewrite list_elem_of_omap. split.
  - intros ([k d] & Hin & Hd). apply list_elem_of_lookup in Hin as [j Hj].
    rewrite list_lookup_imap in Hj. destruct (indegrees !! j) eqn:E; [|done]. simpl in *.
    injection Hj as <- <-. destruct (Z.eqb_spec z 0); naive_solver.
  - intros Hc. exists (c, 0). split; [|done]. apply list_elem_of_lookup. exists c.
    by rewrite list_lookup_imap, Hc.
Qed.

Lemma ready_nodup_from (l : list Z) (k : nat) :
  let r := omap (fun p : nat * Z => if p.2 =? 0 then Some p.1 else None)
             (imap (fun i d => (k + i, d)%nat) l) in
  NoDup r /\ Forall (fun c => (k <= c)%nat) r.
Proof.
  revert k. induction l as [|d l IH]; intros k; simpl; [split; constructor|].
  destruct (IH (S k)) as [H1 H2].
  assert (imap ((fun i d => (k + i, d)%nat) ∘ S) l = imap (fun i d => (S k + i, d)%nat) l) as ->.
  { apply imap_ext. intros i x _. simpl. f_equal. lia. }
  destruct (d =? 0); simpl.
  - split; [constructor; [|done]|constructor; [lia|]].
    + intros Hin. rewrite Forall_forall in H2. specialize (H2 _ Hin). lia.
    + eapply Forall_impl; [exact H2|]. simpl. lia.
  - split; [done|]. eapply Forall_impl; [exact H2|]. simpl. lia.
Qed.

Lemma ready_nodup indegrees : NoDup (initially_ready indegrees).
Proof. exact (proj1 (ready_nodup_from indegrees 0)). Qed.

Lemma pending_nil : pending [] = edges.
Proof.
  unfold pending. clear Hedges. induction edges as [|e es IH]; [done|].
  rewrite filter_cons, decide_True by apply not_elem_of_nil. by rewrite IH.
Qed.

Lemma initial_counted indegrees :
  length indegrees = n -> (forall c, (c < n)%nat -> indegrees !! c = Some (entering edges c)) ->
  counted_by (pending []) indegrees (initially_ready indegrees) /\ ordered (initially_ready indegrees).
Proof.
  intros Hlen Hcount. rewrite pending_nil.
  assert (forall c, c ∈ initially_ready indegrees <-> (c < n)%nat /\ entering edges c = 0) as Hready.
  { intros c. rewrite elem_of_ready. split.
    - intros Hc. pose proof (lookup_lt_Some _ _ _ Hc). rewrite Hcount in Hc by lia. naive_solver lia.
    - intros [Hc E]. by rewrite Hcount, E. }
  split; [constructor; [done|done|apply ready_nodup|done]|].
  intros i c Hi p Hp. exfalso. apply list_elem_of_lookup_2, Hready in Hi as [_ Hi].
  by apply (proj1 (entering_zero edges c) Hi (p, c) Hp).
Qed.

(** The loop never underflows, terminates within its fuel, and retires every
    operator exactly when a schedule exists. *)
Lemma schedule_decides indegrees :
  length indegrees = n -> (forall c, (c < n)%nat -> indegrees !! c = Some (entering edges c)) ->
  exists final, schedule n (sort_edges edges) indegrees (initially_ready indegrees) 0 = Some (length final) /\
    ready_order n (sort_edges edges) indegrees (initially_ready indegrees) 0 = Some final /\
    (length final = n <-> schedulable) /\ (length final = n -> is_schedule final).
Proof.
  intros Hlen Hcount. destruct (initial_counted indegrees Hlen Hcount) as [Hc Ho].
  destruct (schedule_spec n indegrees (initially_ready indegrees) 0) as (final & ind' & Hs & Hro & Hf & Hof);
    [by rewrite take_0|done|lia|lia|].
  exists final. split; [done|]. split; [done|]. pose proof Hf as [_ _ Hnd Hready].
  assert (length final = n -> is_schedule final) as Hfinal; [|split; [split|done]].
  - intros Hk.
    assert (final ≡ₚ seq 0 n) as Hperm.
    { apply submseteq_length_Permutation; [|rewrite length_seq; lia].
      apply NoDup_submseteq; [done|]. intros y Hy. apply Hready in Hy as [Hy _]. apply elem_of_seq. lia. }
    split; [done|]. intros p c Hpc. rewrite Forall_forall in Hedges.
    destruct (Hedges _ Hpc) as [_ Hcn]. simpl in Hcn.
    assert (c ∈ final) as Hcf by (rewrite Hperm; apply elem_of_seq; lia).
    apply list_elem_of_lookup in Hcf as [j Hj]. destruct (Hof j c Hj p Hpc) as (i & Hij & Hi). eauto.
  - intros Hk. exists final. by apply Hfinal.
  - intros (order & Hperm & Hord).
    assert (forall k x, order !! k = Some x -> x ∈ final) as Hall.
    { intros k. induction k as [k IH] using lt_wf_ind. intros x Hx.
      apply Hready. assert (x < n)%nat as Hxn.
      { apply list_elem_of_lookup_2 in Hx. rewrite Hperm in Hx. apply elem_of_seq in Hx. lia. }
      split; [done|]. apply entering_zero. intros [p c] He Hcx. simpl in Hcx. subst c.
      apply list_elem_of_filter in He as [Hpf He]. simpl in Hpf.
      destruct (Hord p x He) as (i & j & Hi & Hj & Hij). apply Hpf.
      assert (j = k) as ->.
      { apply (NoDup_lookup order j k x); [|done|done]. rewrite Hperm. apply NoDup_seq. }
      by apply (IH i Hij). }
    apply Nat.le_antisymm; [by eapply ready_bound|].
    rewrite <- (length_seq n 0), <- Hperm. apply submseteq_length, NoDup_submseteq.
    + rewrite Hperm. apply NoDup_seq.
    + intros x Hx. apply list_elem_of_lookup in Hx as [k Hk]. by eapply Hall.
Qed.
End Schedule.

(** * Data flow of a block

    [validate_dataflow] in terms of the block: which operator produces which
    symbol, which symbols come from outside, and whether the operators can be
    scheduled. *)

(** ** Tables sorted by name *)

Section Tables.
Context {A : Type}.
Implicit Types (table : list (str * A)).

#[local] Instance by_name_total : Total (by_name (A := A)).
Proof. intros a b. unfold by_name. apply (total str_le). Qed.
#[local] Instance by_name_trans : Transitive (by_name (A := A)).
Proof. intros a b c. unfold by_name. apply (transitivity (R := str_le)). Qed.

Lemma sort_by_name_perm table : sort_by_name table ≡ₚ table.
Proof. apply merge_sort_Permutation. Qed.

Lemma sort_by_name_sorted table : StronglySorted str_le (fst <$> sort_by_name table).
Proof.
  pose proof (StronglySorted_merge_sort by_name table) as H. fold (sort_by_name table) in H.
  induction H as [|x l Hs IH Hall]; [constructor|]. rewrite fmap_cons. constructor; [done|].
  apply Forall_fmap. eapply Forall_impl; [exact Hall|]. done.
Qed.

(** An index the search returns holds the target. *)
Lemma binary_search_lookup names target i : binary_search names target = Ok i -> names !! i = Some target.
Proof.
  unfold binary_search. destruct names as [|n names]; [done|]. set (ns := n :: names).
  set (b := search_window _ _ _ _ _).
  assert (b < length ns)%nat as Hb by (apply search_window_lt; simpl; lia).
  destruct (str_compare (nth b ns []) target) eqn:E; try done. intros [= <-].
  apply str_compare_eq in E. rewrite <- E.
  destruct (lookup_lt_is_Some_2 ns b Hb) as [x Hx]. by rewrite (nth_lookup_Some _ _ _ _ Hx).
Qed.

Lemma search_by_name_member table name :
  StronglySorted str_le (fst <$> table) ->
  match search_by_name table name with
  | Some v => (name, v) ∈ table
  | None => name ∉ (fst <$> table)
  end.
Proof.
  intros Hs. unfold search_by_name. pose proof (binary_search_member _ name Hs) as Hm.
  destruct (binary_search (fst <$> table) name) as [i|e] eqn:E; simpl in *.
  - apply binary_search_lookup in E. rewrite list_lookup_fmap in E.
    destruct (table !! i) as [[k v]|] eqn:Ht; [|done]. simpl in *. injection E as ->.
    by eapply list_elem_of_lookup_2.
  - symmetry in Hm. by apply bool_decide_eq_false in Hm.
Qed.

(** In a table without duplicate names the search is the lookup. *)
Lemma search_by_name_unique table name v :
  StronglySorted str_le (fst <$> table) -> NoDup (fst <$> table) ->
  search_by_name table name = Some v <-> (name, v) ∈ table.
Proof.
  intros Hs Hnd. pose proof (search_by_name_member table name Hs) as H.
  destruct (search_by_name table name) as [w|].
  - split; [by intros [= <-]|]. intros Hv. f_equal.
    apply list_elem_of_lookup in H as [i Hi]. apply list_elem_of_lookup in Hv as [j Hj].
    assert (i = j) as ->; [|congruence].
    apply (NoDup_lookup (fst <$> table) i j name); [done|by rewrite list_lookup_fmap, Hi|
      by rewrite list_lookup_fmap, Hj].
  - split; [done|]. intros Hv. exfalso. apply H. apply list_elem_of_fmap. exists (name, v). done.
Qed.
End Tables.

(** ** The symbol table of a block *)

Definition block_symbols (b : WireBlock) : list (str * Symbol) :=
  ((fun t => (the_name (wt_name t), STensor t)) <$> items (wb_tensors b)) ++
  ((fun s => (the_name (ws_name s), SShape s)) <$> items (wb_shapes b)).

Lemma block_symbols_names b : fst <$> block_symbols b = symbols b.
Proof.
  unfold block_symbols, symbols, tensor_names, shape_names.
  by rewrite fmap_app, <- !list_fmap_compose.
Qed.

Section Block.
Context (b : WireBlock).
Hypothesis Hnd : NoDup (symbols b).

Abbreviation table := (sort_by_name (block_symbols b)).

Lemma table_names_nodup : NoDup (fst <$> table).
Proof. rewrite sort_by_name_perm, block_symbols_names. exact Hnd. Qed.

Lemma resolve_spec name s : resolve table name = Some s <-> (name, s) ∈ block_symbols b.
Proof.
  unfold resolve. rewrite search_by_name_unique; [by rewrite sort_by_name_perm| |].
  - apply sort_by_name_sorted.
  - apply table_names_nodup.
Qed.

Lemma resolve_total name : name ∈ symbols b -> exists s, resolve table name = Some s.
Proof.
  rewrite <- block_symbols_names. intros ([n s] & -> & Hin)%list_elem_of_fmap.
  exists s. by apply resolve_spec.
Qed.

(** A symbol is a variable exactly when its name is one of the variables'. *)
Lemma variable_symbol name s : resolve table name = Some s ->
  is_variable_symbol s = true <-> name ∈ variables b.
Proof.
  intros Hs. unfold variables. rewrite list_elem_of_fmap. split.
  - intros Hv. destruct s as [t|]; [|done]. exists t. apply resolve_spec in Hs.
    unfold block_symbols in Hs. apply elem_of_app in Hs as [Hs|Hs];
      apply list_elem_of_fmap in Hs as (t' & E & Hin); simplify_eq.
    split; [done|]. by apply list_elem_of_filter.
  - intros (t & -> & [Hv Hin]%list_elem_of_filter).
    assert (resolve table (the_name (wt_name t)) = Some (STensor t)) as E.
    { apply resolve_spec, elem_of_app. left. apply list_elem_of_fmap. eauto. }
    rewrite E in Hs. by injection Hs as <-.
Qed.
End Block.

(** ** Producers, consumers and sources *)

Definition operators (b : WireBlock) : list WireOperator := items (wb_operators b).

(** Symbols that come from outside the operators. *)
Definition sources (b : WireBlock) : list str := items (wb_inputs b) ++ variables b.

(** Operator [p] writes the symbol [n], which is no variable. *)
Definition produces (b : WireBlock) (p : nat) (n : str) : Prop :=
  exists o, operators b !! p = Some o /\ n ∈ items (wo_outputs o) /\ n ∉ variables b.

Definition consumes (b : WireBlock) (c : nat) (n : str) : Prop :=
  exists o, operators b !! c = Some o /\ n ∈ items (wo_inputs o).

(** Operator [c] waits for operator [p]. *)
Definition depends (b : WireBlock) (p c : nat) : Prop :=
  exists n, consumes b c n /\ (n ∉ sources b) /\ produces b p n.

Definition connected (b : WireBlock) (n : str) : Prop := n ∈ sources b \/ exists p, produces b p n.

Record dataflow_wf (b : WireBlock) : Prop := {
  dw_inputs_kept : forall p n, produces b p n -> n ∉ sources b;
  dw_connected : forall c n, consumes b c n -> connected b n;
  dw_outputs : Forall (connected b) (items (wb_outputs b));
  dw_order : exists order, order ≡ₚ seq 0 (length (operators b)) /\
    forall p c, depends b p c ->
      exists i j, order !! i = Some p /\ order !! j = Some c /\ (i < j)%nat;
}.

(** The (name, operator) pairs of a run of operators. *)
Definition outputs_at (b : WireBlock) (p : nat) (outs : list str) : list (str * nat) :=
  (fun n => (n, p)) <$> filter (fun n => n ∉ variables b) outs.

Fixpoint producers_from (b : WireBlock) (p : nat) (os : list WireOperator) : list (str * nat) :=
  match os with
  | [] => []
  | o :: os => outputs_at b p (items (wo_outputs o)) ++ producers_from b (S p) os
  end.

Lemma elem_of_producers b p os n k :
  (n, k) ∈ producers_from b p os <->
  exists j o, k = (p + j)%nat /\ os !! j = Some o /\ n ∈ items (wo_outputs o) /\ n ∉ variables b.
Proof.
  revert p. induction os as [|o os IH]; intros p; simpl.
  - split; [intros []%elem_of_nil|]. by intros (j & o & _ & ? & _).
  - rewrite elem_of_app, IH. unfold outputs_at. rewrite list_elem_of_fmap. split.
    + intros [(m & [= -> ->] & [? ?]%list_elem_of_filter)|(j & o' & -> & Hj & ?)].
      * exists 0%nat, o. split; [lia|]. done.
      * exists (S j), o'. split; [lia|]. done.
    + intros ([|j] & o' & -> & Hj & Hin & Hv); simpl in Hj.
      * injection Hj as <-. left. exists n. split; [f_equal; lia|]. by apply list_elem_of_filter.
      * right. exists j, o'. split; [lia|]. done.
Qed.

Lemma producers_spec b p n : (n, p) ∈ producers_from b 0 (operators b) <-> produces b p n.
Proof. rewrite elem_of_producers. unfold produces. naive_solver. Qed.

Lemma producers_names b p os :
  fst <$> producers_from b p os = filter (fun n => n ∉ variables b) (os ≫= (fun o => items (wo_outputs o))).
Proof.
  revert p. induction os as [|o os IH]; intros p; [done|]. simpl.
  rewrite fmap_app, IH, filter_app. f_equal. unfold outputs_at. rewrite <- list_fmap_compose.
  apply list_fmap_id.
Qed.

Section Collect.
Context (b : WireBlock) (region block_index : nat).
Hypothesis Hnd : NoDup (symbols b).
Abbreviation table := (sort_by_name (block_symbols b)).
Context (srcs : list str).
Hypothesis Hsrcs : StronglySorted str_le srcs.
Hypothesis Hsources : forall n, n ∈ srcs <-> n ∈ sources b.

Lemma in_sources n : is_ok (binary_search srcs n) = bool_decide (n ∈ sources b).
Proof.
  rewrite binary_search_member by done. apply bool_decide_ext. apply Hsources.
Qed.

(** An output that overwrites a source. *)
Definition clobbers (n : str) : Prop := (n ∉ variables b) /\ n ∈ sources b.

Lemma collect_outputs_spec p outs prods : Forall (fun n => n ∈ symbols b) outs ->
  (Forall (fun n => ~ clobbers n) outs /\
   collect_outputs table region block_index srcs p outs prods = Some (Ok (prods ++ outputs_at b p outs))) \/
  (Exists clobbers outs /\
   collect_outputs table region block_index srcs p outs prods =
     Some (Err (located region block_index GraphInputProduced))).
Proof.
  intros Ho. revert prods. induction Ho as [|n outs Hn Ho IH]; intros prods; simpl.
  { left. split; [constructor|]. unfold outputs_at. simpl. by rewrite app_nil_r. }
  destruct (resolve_total b Hnd n Hn) as [s Hs]. rewrite Hs. simpl.
  pose proof (variable_symbol b Hnd n s Hs) as Hv.
  unfold outputs_at. rewrite filter_cons, Forall_cons, Exists_cons. unfold clobbers at 1 3.
  destruct (is_variable_symbol s).
  - assert (n ∈ variables b) as Hin by tauto. rewrite decide_False by tauto.
    destruct (IH prods) as [[H1 H2]|[H1 H2]]; [left|right]; (split; [tauto|exact H2]).
  - assert (n ∉ variables b) as Hin by (intros H; apply Hv in H; done).
    rewrite in_sources. destruct (bool_decide_reflect (n ∈ sources b)) as [Hsrc|Hsrc].
    + right. split; [tauto|done].
    + rewrite decide_True by done. rewrite fmap_cons.
      destruct (IH (prods ++ [(n, p)])) as [[H1 H2]|[H1 H2]].
      * left. split; [tauto|]. rewrite H2. unfold outputs_at. by rewrite <- app_assoc.
      * right. split; [tauto|done].
Qed.

Lemma collect_producers_spec os p cap prods :
  Forall (fun o => Forall (fun n => n ∈ symbols b) (items (wo_outputs o))) os ->
  0 <= cap -> cap + sum_by (fun o => zlen (items (wo_inputs o))) os <= USIZE_MAX ->
  (Forall (fun o => Forall (fun n => ~ clobbers n) (items (wo_outputs o))) os /\
   collect_producers table region block_index srcs os p cap prods =
     Some (Ok (prods ++ producers_from b p os))) \/
  (Exists (fun o => Exists clobbers (items (wo_outputs o))) os /\
   collect_producers table region block_index srcs os p cap prods =
     Some (Err (located region block_index GraphInputProduced))).
Proof.
  intros Ho. revert p cap prods. induction Ho as [|o os Hn Ho IH]; intros p cap prods Hc Hs; simpl.
  { left. split; [constructor|]. by rewrite app_nil_r. }
  simpl in Hs. pose proof (zlen_nonneg (items (wo_inputs o))).
  pose proof (sum_by_nonneg (fun o => zlen (items (wo_inputs o))) os ltac:(intros; apply zlen_nonneg)).
  unfold checked_add. rewrite (proj2 (Z.leb_le _ _)) by lia. rewrite Forall_cons, Exists_cons.
  destruct (collect_outputs_spec p (items (wo_outputs o)) prods Hn) as [[H1 H2]|[H1 H2]]; rewrite H2.
  - destruct (IH (S p) (cap + zlen (items (wo_inputs o))) (prods ++ outputs_at b p (items (wo_outputs o))))
      as [[H3 H4]|[H3 H4]]; [lia|lia|left|right]; (split; [tauto|]); rewrite H4; [by rewrite <- app_assoc|done].
  - right. split; [tauto|done].
Qed.

(** *** Edges *)

Context (prods : list (str * nat)).
Hypothesis Hprods : StronglySorted str_le (fst <$> prods).
Hypothesis Hunique : NoDup (fst <$> prods).
Hypothesis Hproduced : forall n p, (n, p) ∈ prods <-> produces b p n.

Lemma producer_lookup n p : search_by_name prods n = Some p <-> produces b p n.
Proof. by rewrite search_by_name_unique. Qed.

(** The edges into one consumer. *)
Definition edges_into (c : nat) (ins : list str) : list (nat * nat) :=
  omap (fun n => if decide (n ∈ sources b) then None else (fun p => (p, c)) <$> search_by_name prods n) ins.

Lemma edges_into_source c n ins : n ∈ sources b -> edges_into c (n :: ins) = edges_into c ins.
Proof. intros H. unfold edges_into. simpl. by rewrite (decide_True (P := n ∈ sources b)). Qed.

Lemma edges_into_edge c n ins p : (n ∉ sources b) -> search_by_name prods n = Some p ->
  edges_into c (n :: ins) = (p, c) :: edges_into c ins.
Proof. intros H Hp. unfold edges_into. simpl. by rewrite (decide_False (P := n ∈ sources b)), Hp. Qed.

Fixpoint edges_from (c : nat) (os : list WireOperator) : list (nat * nat) :=
  match os with
  | [] => []
  | o :: os => edges_into c (items (wo_inputs o)) ++ edges_from (S c) os
  end.

Definition indegrees_count (edges : list (nat * nat)) (indegrees : list Z) : Prop :=
  length indegrees = length (operators b) /\
  forall c, (c < length (operators b))%nat -> indegrees !! c = Some (entering edges c).

Lemma entering_snoc edges p x c :
  entering (edges ++ [(p, x)]) c = entering edges c + (if decide (x = c) then 1 else 0).
Proof.
  rewrite (entering_perm _ ((p, x) :: edges) c), entering_cons; [lia|].
  by rewrite Permutation_app_comm.
Qed.

Lemma entering_le edges c : entering edges c <= zlen edges.
Proof. unfold entering, zlen. pose proof (length_filter (fun e => e.2 = c) edges). lia. Qed.

(** One more edge into [c]. *)
Lemma indegrees_count_snoc edges indegrees p c : (c < length (operators b))%nat ->
  indegrees_count edges indegrees ->
  indegrees_count (edges ++ [(p, c)]) (<[c := entering edges c + 1]> indegrees).
Proof.
  intros Hc [Hlen Hcount]. split; [by rewrite length_insert|]. intros x Hx. rewrite entering_snoc.
  destruct (decide (c = x)) as [<-|Hne].
  - rewrite list_lookup_insert_eq by lia. done.
  - rewrite list_lookup_insert_ne by done. rewrite Hcount by done. f_equal. lia.
Qed.

Lemma collect_inputs_spec c ins edges indegrees : (c < length (operators b))%nat ->
  indegrees_count edges indegrees -> zlen edges + zlen ins <= USIZE_MAX ->
  (Forall (connected b) ins /\ exists indegrees',
     collect_inputs region block_index srcs prods c ins edges indegrees =
       Some (Ok (edges ++ edges_into c ins, indegrees')) /\
     indegrees_count (edges ++ edges_into c ins) indegrees') \/
  (~ Forall (connected b) ins /\
   collect_inputs region block_index srcs prods c ins edges indegrees =
     Some (Err (located region block_index DisconnectedSymbol))).
Proof.
  intros Hc. revert edges indegrees. induction ins as [|n ins IH]; intros edges indegrees Hi Hb;
    cbn [collect_inputs].
  { left. split; [constructor|]. exists indegrees. change (edges_into c []) with (@nil (nat * nat)).
    by rewrite app_nil_r. }
  rewrite in_sources, Forall_cons. unfold zlen in Hb. simpl in Hb.
  destruct (bool_decide_reflect (n ∈ sources b)) as [Hs|Hs].
  { destruct (IH edges indegrees Hi ltac:(unfold zlen; lia)) as [[H1 H2]|[H1 H2]]; [left|right];
      (split; [unfold connected at 1; tauto|]); [by rewrite edges_into_source|done]. }
  destruct (search_by_name prods n) as [p|] eqn:Hp; cycle 1.
  { right. split; [|done]. intros [[?|[p Hpn]] _]; [done|].
    apply producer_lookup in Hpn. congruence. }
  assert (connected b n) as Hn by (right; exists p; by apply producer_lookup).
  destruct Hi as [Hlen Hcount]. rewrite (Hcount c Hc). cbn [mbind option_bind].
  pose proof (entering_nonneg edges c). pose proof (entering_le edges c). unfold zlen in *.
  unfold checked_add. rewrite (proj2 (Z.leb_le _ _)) by lia.
  destruct (IH (edges ++ [(p, c)]) (<[c := entering edges c + 1]> indegrees)) as [[H1 H2]|[H1 H2]].
  - by apply indegrees_count_snoc.
  - rewrite length_app. simpl. lia.
  - left. split; [tauto|]. destruct H2 as (i' & H2 & H3). exists i'.
    rewrite (edges_into_edge c n ins p Hs Hp). by rewrite <- app_assoc in H2, H3.
  - right. split; [tauto|done].
Qed.

Lemma zlen_edges_into c ins : zlen (edges_into c ins) <= zlen ins.
Proof.
  induction ins as [|n ins IH]; [done|]. unfold zlen in *.
  destruct (decide (n ∈ sources b)) as [Hs|Hs]; [rewrite edges_into_source by done; simpl; lia|].
  destruct (search_by_name prods n) as [p|] eqn:Hp.
  - rewrite (edges_into_edge c n ins p) by done. simpl. lia.
  - enough (edges_into c (n :: ins) = edges_into c ins) as -> by (simpl; lia).
    unfold edges_into. simpl. by rewrite (decide_False (P := n ∈ sources b)), Hp.
Qed.

Lemma collect_edges_spec os c edges indegrees : (c + length os = length (operators b))%nat ->
  indegrees_count edges indegrees ->
  zlen edges + sum_by (fun o => zlen (items (wo_inputs o))) os <= USIZE_MAX ->
  (Forall (fun o => Forall (connected b) (items (wo_inputs o))) os /\ exists indegrees',
     collect_edges region block_index srcs prods os c edges indegrees =
       Some (Ok (edges ++ edges_from c os, indegrees')) /\
     indegrees_count (edges ++ edges_from c os) indegrees') \/
  (~ Forall (fun o => Forall (connected b) (items (wo_inputs o))) os /\
   collect_edges region block_index srcs prods os c edges indegrees =
     Some (Err (located region block_index DisconnectedSymbol))).
Proof.
  revert c edges indegrees. induction os as [|o os IH]; intros c edges indegrees Hc Hi Hb; simpl.
  { left. split; [constructor|]. exists indegrees. by rewrite app_nil_r. }
  simpl in Hc, Hb. rewrite Forall_cons.
  pose proof (sum_by_nonneg (fun o => zlen (items (wo_inputs o))) os ltac:(intros; apply zlen_nonneg)).
  destruct (collect_inputs_spec c (items (wo_inputs o)) edges indegrees ltac:(lia) Hi ltac:(lia))
    as [[H1 (i' & H2 & H3)]|[H1 H2]]; rewrite H2.
  - pose proof (zlen_edges_into c (items (wo_inputs o))).
    destruct (IH (S c) (edges ++ edges_into c (items (wo_inputs o))) i') as [[H4 H5]|[H4 H5]].
    + lia.
    + done.
    + rewrite zlen_app. lia.
    + left. split; [tauto|]. destruct H5 as (i'' & H5 & H6). exists i''. by rewrite <- app_assoc in H5, H6.
    + right. split; [tauto|done].
  - right. split; [tauto|done].
Qed.

Lemma elem_of_edges_into c ins p x : (p, x) ∈ edges_into c ins <->
  x = c /\ exists n, n ∈ ins /\ (n ∉ sources b) /\ produces b p n.
Proof.
  unfold edges_into. rewrite list_elem_of_omap. split.
  - intros (n & Hn & E). case_decide as Hs; [done|].
    destruct (search_by_name prods n) as [q|] eqn:Hq; [|done]. simpl in E. injection E as <- <-.
    split; [done|]. exists n. split; [done|]. split; [done|]. by apply producer_lookup.
  - intros (-> & n & Hn & Hs & Hp). exists n. split; [done|]. rewrite decide_False by done.
    apply producer_lookup in Hp. by rewrite Hp.
Qed.

Lemma elem_of_edges_from c os p x : (p, x) ∈ edges_from c os <->
  exists j o n, x = (c + j)%nat /\ os !! j = Some o /\ n ∈ items (wo_inputs o) /\ (n ∉ sources b) /\
    produces b p n.
Proof.
  revert c. induction os as [|o os IH]; intros c; simpl.
  - split; [intros []%elem_of_nil|]. by intros (j & o & n & _ & ? & _).
  - rewrite elem_of_app, IH, elem_of_edges_into. split.
    + intros [(-> & n & ?)|(j & o' & n & -> & ?)].
      * exists 0%nat, o, n. split; [lia|]. done.
      * exists (S j), o', n. split; [lia|]. done.
    + intros ([|j] & o' & n & -> & Hj & ?); simpl in Hj.
      * injection Hj as <-. left. split; [lia|]. eauto.
      * right. exists j, o', n. split; [lia|]. done.
Qed.

(** The edges are exactly the dependencies. *)
Lemma edges_depends p c : (p, c) ∈ edges_from 0 (operators b) <-> depends b p c.
Proof. rewrite elem_of_edges_from. unfold depends, consumes. naive_solver. Qed.
End Collect.

(** ** The whole check *)

Lemma collect_names_spec {A} (name_of : A -> option str) xs :
  Forall (fun x => is_Some (name_of x)) xs ->
  collect_names name_of xs = Some ((fun x => the_name (name_of x)) <$> xs).
Proof.
  induction 1 as [|x xs [n Hn] Hxs IH]; [done|]. rewrite fmap_cons. cbn [collect_names]. rewrite IH, Hn. done.
Qed.

Lemma outputs_connected_spec b srcs prods outs :
  StronglySorted str_le srcs -> (forall n, n ∈ srcs <-> n ∈ sources b) ->
  StronglySorted str_le (fst <$> prods) -> (forall n p, (n, p) ∈ prods <-> produces b p n) ->
  outputs_connected srcs prods outs = true <-> Forall (connected b) outs.
Proof.
  intros Hs Hsrc Hp Hprod.
  assert (forall n, is_ok (binary_search srcs n) || is_ok (binary_search (fst <$> prods) n) = true <->
                    connected b n) as Hone.
  { intros n. rewrite !binary_search_member by done. rewrite orb_true_iff, !bool_decide_eq_true.
    unfold connected. rewrite Hsrc, list_elem_of_fmap. split.
    - intros [?|([m p] & -> & Hin)]; [by left|]. right. exists p. by apply Hprod.
    - intros [?|(p & Hpn)]; [by left|]. right. exists (n, p). split; [done|]. by apply Hprod. }
  unfold outputs_connected. rewrite forallb_forall, Forall_forall.
  split; intros H n Hn; apply Hone, H; by apply list_elem_of_In.
Qed.

(** What the structural checks and the limits give. *)
Record dataflow_ready (b : WireBlock) : Prop := {
  dr_symbols : NoDup (symbols b);
  dr_named : Forall (fun t => is_Some (wt_name t)) (items (wb_tensors b));
  dr_outputs : Forall (fun o => Forall (fun n => n ∈ symbols b) (items (wo_outputs o))) (operators b);
  dr_producers : NoDup (filter (fun n => n ∉ variables b) (written b));
  dr_size : zlen (items (wb_inputs b)) + zlen (items (wb_tensors b)) <= USIZE_MAX /\
    sum_by (fun o => zlen (items (wo_inputs o))) (operators b) <= USIZE_MAX;
}.

Section Check.
Context (b : WireBlock) (region block_index : nat).
Hypothesis Hready : dataflow_ready b.

Abbreviation srcs := (sort_names (items (wb_inputs b) ++ variables b)).
Abbreviation prods := (sort_by_name (producers_from b 0 (operators b))).

Lemma srcs_spec n : n ∈ srcs <-> n ∈ sources b.
Proof. apply elem_of_sort_names. Qed.

Lemma prods_unique : NoDup (fst <$> prods).
Proof. rewrite sort_by_name_perm, producers_names. exact (dr_producers b Hready). Qed.

Lemma prods_spec n p : (n, p) ∈ prods <-> produces b p n.
Proof. rewrite sort_by_name_perm. apply producers_spec. Qed.

Abbreviation edges := (edges_from b prods 0 (operators b)).

Lemma edges_spec p c : (p, c) ∈ edges <-> depends b p c.
Proof.
  apply (edges_depends b srcs srcs_spec prods); [apply sort_by_name_sorted|apply prods_unique|apply prods_spec].
Qed.

Lemma edges_bounded : Forall (fun e => (e.1 < length (operators b))%nat /\ (e.2 < length (operators b))%nat) edges.
Proof.
  apply Forall_forall. intros [p c] (n & (oc & Hc & _) & _ & (op & Hp & _))%edges_spec. simpl.
  apply lookup_lt_Some in Hc, Hp. done.
Qed.

Lemma no_clobbers :
  Forall (fun o => Forall (fun n => ~ clobbers b n) (items (wo_outputs o))) (operators b) <->
  forall p n, produces b p n -> n ∉ sources b.
Proof.
  rewrite Forall_forall. split.
  - intros H p n (o & Hp & Hn & Hv) Hs. apply list_elem_of_lookup_2 in Hp. specialize (H o Hp).
    rewrite Forall_forall in H. by apply (H n Hn).
  - intros H o Ho. apply Forall_forall. intros n Hn [Hv Hs].
    apply list_elem_of_lookup in Ho as [p Hp]. apply (H p n); [|done]. exists o. done.
Qed.

Lemma inputs_connected :
  Forall (fun o => Forall (connected b) (items (wo_inputs o))) (operators b) <->
  forall c n, consumes b c n -> connected b n.
Proof.
  rewrite Forall_forall. split.
  - intros H c n (o & Hc & Hn). apply list_elem_of_lookup_2 in Hc. specialize (H o Hc).
    rewrite Forall_forall in H. by apply H.
  - intros H o Ho. apply Forall_forall. intros n Hn. apply list_elem_of_lookup in Ho as [c Hc].
    apply (H c n). exists o. done.
Qed.

(** The check never panics and accepts exactly the schedulable blocks. *)
Lemma validate_dataflow_exact alloc : (forall k, (k < 5)%nat -> alloc k = true) ->
  exists r, validate_dataflow alloc (sort_by_name (block_symbols b)) region block_index b = Some r /\
    (r = Ok tt <-> dataflow_wf b).
Proof.
  intros Ha. pose proof Hready as [Hnd Hnamed Houts Hprod [Hsz1 Hsz2]]. unfold validate_dataflow.
  change (items (wb_operators b)) with (operators b).
  unfold checked_add. rewrite (proj2 (Z.leb_le _ _)) by done. rewrite !Ha by lia.
  assert (collect_names Tensor_name (filter (fun t => Tensor_is_variable t = true) (items (wb_tensors b))) =
          Some (variables b)) as ->.
  { rewrite collect_names_spec; [done|]. apply Forall_forall. intros t [_ Ht]%list_elem_of_filter.
    rewrite Forall_forall in Hnamed. by apply Hnamed. }
  cbn [negb mbind option_bind]. cbv iota.
  assert (0 <= sum_by (fun o => zlen (items (wo_inputs o))) (operators b))
    by (apply sum_by_nonneg; intros; apply zlen_nonneg).
  destruct (collect_producers_spec b region block_index Hnd srcs (sort_names_sorted _) srcs_spec
    (operators b) 0 0 [] Houts ltac:(lia) ltac:(lia)) as [[H1 ->]|[H1 ->]]; cycle 1.
  { eexists. split; [done|]. split; [done|]. intros [Hk _ _ _]. exfalso.
    apply (proj2 no_clobbers) in Hk. apply Exists_exists in H1 as (o & Ho & H1).
    apply Exists_exists in H1 as (n & Hn & H1). rewrite Forall_forall in Hk.
    specialize (Hk o Ho). rewrite Forall_forall in Hk. by apply (Hk n Hn). }
  pose proof (proj1 no_clobbers H1) as Hkept. rewrite app_nil_l.
  destruct (collect_edges_spec b region block_index srcs (sort_names_sorted _) srcs_spec prods
    (sort_by_name_sorted _) prods_unique prods_spec (operators b) 0 []
    (replicate (length (operators b)) 0)) as [[H2 (ind & -> & Hlen & Hcount)]|[H2 ->]].
  - lia.
  - split; [by rewrite length_replicate|]. intros c Hc. by rewrite lookup_replicate_2.
  - done.
  - pose proof (proj1 inputs_connected H2) as Hcon. rewrite app_nil_l in *.
    pose proof (outputs_connected_spec b srcs prods (items (wb_outputs b)) (sort_names_sorted _) srcs_spec
      (sort_by_name_sorted _) prods_spec) as Hout.
    destruct (outputs_connected srcs prods (items (wb_outputs b))) eqn:Eo; cycle 1.
    { eexists. split; [done|]. split; [done|]. intros [_ _ Ho _]. apply Hout in Ho. congruence. }
    cbn [negb]. cbv iota.
    destruct (schedule_decides (length (operators b)) edges edges_bounded ind Hlen Hcount) as (final & Hk & _ & Hdec & _).
    rewrite Hk. cbn [mbind option_bind].
    assert (schedulable (length (operators b)) edges <->
            exists order, order ≡ₚ seq 0 (length (operators b)) /\
              forall p c, depends b p c -> exists i j, order !! i = Some p /\ order !! j = Some c /\ (i < j)%nat)
      as Hsch by (unfold schedulable, is_schedule; by setoid_rewrite edges_spec).
    destruct (bool_decide_reflect (length final = length (operators b))) as [E|E].
    + eexists. split; [done|]. split; [|done]. intros _. constructor; try done; [by apply Hout|].
      by apply Hsch, Hdec.
    + eexists. split; [done|]. split; [done|]. intros [_ _ _ Hord]. exfalso. by apply E, Hdec, Hsch.
  - eexists. split; [done|]. split; [done|]. intros [_ Hcon _ _]. exfalso. apply H2. by apply (proj2 inputs_connected).
Qed.
End Check.
