(* ===== verification/TosaNesting.v ===== *)
(** * Control-flow nesting

    [control_flow_depth] is a depth-first search over the regions that
    [COND_IF] and [WHILE_LOOP] name.  The theorem: the check passes exactly
    when no chain of calls between regions is longer than the limit; a cycle
    has chains of every length. *)

From Stdlib Require Import ZArith Lia.
From stdpp Require Import prelude list sorting.
From S2P Require Import Prelude TosaTypes TosaArtifact TosaWire TosaValidate TosaGraph TosaView TosaSemantic TosaFlow TosaDataflow.

(** ** Chains in a finite graph *)

Section Chains.
Context (kids : nat -> list nat).

(** A chain of [k] calls starts at [i]. *)
Fixpoint deep (k : nat) (i : nat) : Prop :=
  match k with
  | O => True
  | S k => exists j, j ∈ kids i /\ deep k j
  end.

(** A chain of [k] calls leads from [i] to [j]. *)
Fixpoint path (k : nat) (i j : nat) : Prop :=
  match k with
  | O => i = j
  | S k => exists x, x ∈ kids i /\ path k x j
  end.

Lemma deep_mono k l i : (l <= k)%nat -> deep k i -> deep l i.
Proof.
  revert l i. induction k as [|k IH]; intros [|l] i Hl; simpl; try done; [lia|].
  intros (j & Hj & Hd). exists j. split; [done|]. apply IH; [lia|done].
Qed.

Lemma path_deep k l i j : path k i j -> deep l j -> deep (k + l) i.
Proof.
  revert i. induction k as [|k IH]; intros i; simpl; [by intros ->|].
  intros (x & Hx & Hp) Hd. eauto.
Qed.

Lemma path_snoc k i j x : path k i j -> x ∈ kids j -> path (S k) i x.
Proof.
  revert i. induction k as [|k IH]; intros i; simpl.
  - intros -> Hx. exists x. done.
  - intros (y & Hy & Hp) Hx. exists y. split; [done|]. by apply IH.
Qed.

(** A cycle has chains of every length. *)
Lemma cycle_deep k i l : path (S k) i i -> deep l i.
Proof.
  intros Hc. enough (forall n, deep (n * S k) i) as H.
  { apply (deep_mono (l * S k)); [nia|]. apply H. }
  intros n. induction n as [|n IH]; [done|]. simpl Nat.mul. by apply (path_deep (S k) (n * S k) i i).
Qed.

(** The longest chain from [i] has exactly [d] calls. *)
Definition height (i d : nat) : Prop := deep d i /\ ~ deep (S d) i.
End Chains.

(** ** The search on a list of children *)

Section Search.
Context (limit : Z) (n : nat) (kids : nat -> list nat).
Hypothesis Hlimit : 0 <= limit.
Hypothesis Hn : Z.of_nat n < USIZE_MAX.
Hypothesis Hkids : forall i j, (i < n)%nat -> j ∈ kids i -> (j < n)%nat.

(** The loops of one call, with the children in one list. *)
Fixpoint visit_list (visit : nat -> DfsState -> sem (Z * DfsState)) (js : list nat) (maximum : Z)
    (st : DfsState) : sem (Z * DfsState) :=
  match js with
  | [] => Some (Ok (maximum, st))
  | j :: js =>
      let! (child_depth, st) := visit j st in
      visit_list visit js (Z.max maximum (saturating_add USIZE_MAX child_depth 1)) st
  end.

Fixpoint search (fuel : nat) (index : nat) (path_depth : Z) (st : DfsState) : sem (Z * DfsState) :=
  match fuel with
  | O => None
  | S fuel =>
      if limit <? path_depth then Some (Err (ControlFlowNestingLimit path_depth limit)) else
      state ← df_states st !! index;
      if state =? 1 then Some (Err ControlFlowCycle) else
      if state =? 2 then d ← df_depths st !! index; Some (Ok (d, st)) else
      if negb (index <? n)%nat then None else
      let st := {| df_states := <[index := 1]> (df_states st); df_depths := df_depths st |} in
      let! (maximum, st) := visit_list (fun i st => search fuel i (path_depth + 1) st) (kids index) 0 st in
      Some (Ok (maximum, {| df_states := <[index := 2]> (df_states st);
                            df_depths := <[index := maximum]> (df_depths st) |}))
  end.

Definition black (st : DfsState) : Z := sum_by (fun x => if x =? 2 then 1 else 0) (df_states st).

(** Finished regions carry their height, which is below the number of finished
    regions. *)
Record dfs_ok (st : DfsState) : Prop := {
  do_states : length (df_states st) = n;
  do_depths : length (df_depths st) = n;
  do_done : forall i, df_states st !! i = Some 2 ->
    exists d, df_depths st !! i = Some (Z.of_nat d) /\ height kids i d /\ Z.of_nat d < black st;
}.

(** The regions on the current path are kept. *)
Definition same_path (st st' : DfsState) : Prop :=
  forall g, df_states st' !! g = Some 1 <-> df_states st !! g = Some 1.

Lemma visit_list_app f js ks maximum st :
  visit_list f (js ++ ks) maximum st = let! (maximum, st) := visit_list f js maximum st in visit_list f ks maximum st.
Proof.
  revert maximum st. induction js as [|j js IH]; intros maximum st; [done|]. cbn [visit_list app].
  destruct (f j st) as [[[d st']|e]|]; cbn; [apply IH|done|done].
Qed.

Lemma visit_list_ext f g js maximum st : (forall j st, f j st = g j st) ->
  visit_list f js maximum st = visit_list g js maximum st.
Proof.
  intros H. revert maximum st. induction js as [|j js IH]; intros maximum st; [done|]. cbn [visit_list].
  rewrite H. destruct (g j st) as [[[d st']|e]|]; cbn; [apply IH|done|done].
Qed.

Lemma black_le st : dfs_ok st -> black st <= Z.of_nat n.
Proof.
  intros Hok. rewrite <- (do_states st Hok). unfold black, sum_by. generalize (df_states st) as l.
  intros l. induction l as [|x l IH]; simpl; [lia|]. destruct (x =? 2); lia.
Qed.

Lemma black_nonneg st : 0 <= black st.
Proof. apply sum_by_nonneg. intros x. destruct (x =? 2); lia. Qed.

Lemma black_insert st i x y : df_states st !! i = Some x ->
  sum_by (fun x => if x =? 2 then 1 else 0) (<[i := y]> (df_states st)) =
  black st - (if x =? 2 then 1 else 0) + (if y =? 2 then 1 else 0).
Proof. intros H. unfold black. by rewrite (sum_by_insert _ _ _ x y H). Qed.

(** What a call guarantees. *)
Definition outcome (index : nat) (st : DfsState) (r : sem (Z * DfsState)) : Prop :=
  match r with
  | Some (Ok (d, st')) =>
      exists h, d = Z.of_nat h /\ height kids index h /\ dfs_ok st' /\ same_path st st' /\
        d < black st' /\ black st <= black st'
  | Some (Err _) => exists i, (i < n)%nat /\ deep kids (S (Z.to_nat limit)) i
  | None => False
  end.

(** The call at [j] keeps its promise whenever the regions on the path lead to
    [j]. *)
Definition visits (f : nat -> DfsState -> sem (Z * DfsState)) (j : nat) : Prop :=
  forall st, dfs_ok st -> (forall g, df_states st !! g = Some 1 -> exists k, path kids (S k) g j) ->
  outcome j st (f j st).

(** What the loop over the children guarantees. *)
Definition list_outcome (js : list nat) (h0 : nat) (st : DfsState) (r : sem (Z * DfsState)) : Prop :=
  match r with
  | Some (Ok (d, st')) =>
      exists h, d = Z.of_nat h /\ (h0 <= h)%nat /\ (forall j, j ∈ js -> ~ deep kids h j) /\
        (h = h0 \/ exists j l, j ∈ js /\ h = S l /\ deep kids l j) /\
        dfs_ok st' /\ same_path st st' /\ Z.of_nat h <= Z.max (Z.of_nat h0) (black st') /\
        black st <= black st'
  | Some (Err _) => exists i, (i < n)%nat /\ deep kids (S (Z.to_nat limit)) i
  | None => False
  end.

Lemma visit_list_outcome f index js h0 st :
  (forall j, j ∈ js -> j ∈ kids index /\ visits f j) -> dfs_ok st ->
  (forall g, df_states st !! g = Some 1 -> exists k, path kids k g index) ->
  list_outcome js h0 st (visit_list f js (Z.of_nat h0) st).
Proof.
  revert h0 st. induction js as [|j js IH]; intros h0 st Hjs Hok Hgray; cbn [visit_list].
  { exists h0. repeat apply conj; [done|lia|set_solver|by left|done|by intros g|lia|lia]. }
  destruct (Hjs j) as [Hj Hv]; [set_solver|].
  specialize (Hv st Hok). assert (outcome j st (f j st)) as Hout.
  { apply Hv. intros g Hg. destruct (Hgray g Hg) as [k Hk]. exists k. by eapply path_snoc. }
  destruct (f j st) as [[[d st1]|e]|]; cbn in Hout |- *; [|done|done].
  destruct Hout as (h & -> & [Hd Hnd] & Hok1 & Hsame & Hb & Hmono).
  pose proof (black_le st1 Hok1) as Hle.
  assert (Z.max (Z.of_nat h0) (saturating_add USIZE_MAX (Z.of_nat h) 1) = Z.of_nat (Nat.max h0 (S h))) as ->
    by (unfold saturating_add; lia).
  specialize (IH (Nat.max h0 (S h)) st1). unfold list_outcome in IH |- *.
  destruct (visit_list f js _ st1) as [[[d2 st2]|e]|]; (destruct IH as [h2 IH] || destruct IH).
  all: try (intros; apply Hjs; set_solver); try done.
  all: try (intros g Hg; apply Hgray, Hsame, Hg).
  - destruct IH as (-> & Hle2 & Hnone & Hsome & Hok2 & Hsame2 & Hb2 & Hmono2).
    exists h2. split; [done|]. split; [lia|]. split.
    { intros x [->|Hx]%elem_of_cons; [|by apply Hnone]. intros Hx. apply Hnd.
      eapply deep_mono; [|exact Hx]. lia. }
    split.
    { destruct Hsome as [->|(x & l & Hx & -> & Hl)]; [|right; exists x, l; set_solver].
      destruct (decide (S h <= h0)%nat); [left; lia|]. right. exists j, h. split; [set_solver|]. split; [lia|done]. }
    split; [done|]. split; [|split; lia].
    intros g. rewrite (Hsame2 g). apply Hsame.
  - by exists h2.
Qed.

(** Marking a region as on the path. *)
Lemma dfs_ok_enter st index x : dfs_ok st -> df_states st !! index = Some x -> x <> 2 ->
  dfs_ok {| df_states := <[index := 1]> (df_states st); df_depths := df_depths st |} /\
  black {| df_states := <[index := 1]> (df_states st); df_depths := df_depths st |} = black st.
Proof.
  intros Hok Hx Hne.
  assert (black {| df_states := <[index := 1]> (df_states st); df_depths := df_depths st |} = black st) as Hb.
  { unfold black at 1. cbn [df_states]. rewrite (black_insert st index x 1 Hx).
    destruct (Z.eqb_spec x 2); [done|]. simpl. lia. }
  split; [|done]. destruct Hok as [H1 H2 H3]. split; cbn [df_states df_depths]; [by rewrite length_insert|done|].
  intros i Hi. destruct (decide (i = index)) as [->|Hi'].
  { rewrite list_lookup_insert_eq in Hi by (by eapply lookup_lt_Some). done. }
  rewrite list_lookup_insert_ne in Hi by done. rewrite Hb. by apply H3.
Qed.

(** Finishing a region whose height is known. *)
Lemma dfs_ok_leave st index h : dfs_ok st -> df_states st !! index = Some 1 -> height kids index h ->
  Z.of_nat h <= black st ->
  let st' := {| df_states := <[index := 2]> (df_states st);
                df_depths := <[index := Z.of_nat h]> (df_depths st) |} in
  dfs_ok st' /\ black st' = black st + 1.
Proof.
  intros Hok Hx Hh Hle st'.
  assert (black st' = black st + 1) as Hb.
  { unfold black at 1, st'. cbn [df_states]. rewrite (black_insert st index 1 2 Hx). simpl. lia. }
  split; [|done]. pose proof (lookup_lt_Some _ _ _ Hx) as Hlt. destruct Hok as [H1 H2 H3].
  split; unfold st'; cbn [df_states df_depths]; [by rewrite length_insert..|].
  intros i Hi. destruct (decide (i = index)) as [->|Hi'].
  { exists h. rewrite list_lookup_insert_eq by lia. fold st'. split; [done|]. split; [done|]. lia. }
  rewrite list_lookup_insert_ne in Hi by done. destruct (H3 i Hi) as (d & Hd & Hhd & Hb').
  exists d. rewrite list_lookup_insert_ne by done. fold st'. split; [done|]. split; [done|]. lia.
Qed.

Lemma height_of_children index h :
  (forall j, j ∈ kids index -> ~ deep kids h j) ->
  (h = O \/ exists j l, j ∈ kids index /\ h = S l /\ deep kids l j) -> height kids index h.
Proof.
  intros Hnone Hsome. split.
  - destruct Hsome as [->|(j & l & Hj & -> & Hl)]; [done|]. by exists j.
  - intros (j & Hj & Hd). by eapply Hnone.
Qed.

Lemma search_outcome fuel : forall index path_depth st,
  (index < n)%nat -> dfs_ok st -> 0 <= path_depth ->
  (S (Z.to_nat limit) < fuel + Z.to_nat path_depth)%nat ->
  (exists r, (r < n)%nat /\ path kids (Z.to_nat path_depth) r index) ->
  (forall g, df_states st !! g = Some 1 -> exists k, path kids (S k) g index) ->
  (path_depth <= limit + 1) ->
  outcome index st (search fuel index path_depth st).
Proof.
  induction fuel as [|fuel IH]; intros index pd st Hi Hok Hpd Hfuel Hroot Hgray Hmax; [lia|].
  cbn [search]. destruct (Z.ltb_spec limit pd) as [Hl|Hl].
  { destruct Hroot as (r & Hr & Hp). exists r. split; [done|].
    apply (deep_mono _ (Z.to_nat pd + 0)); [lia|]. by eapply path_deep. }
  destruct (lookup_lt_is_Some_2 (df_states st) index) as [x Hx]; [rewrite (do_states st Hok); lia|].
  rewrite Hx. cbn [mbind option_bind].
  destruct (Z.eqb_spec x 1) as [->|Hx1].
  { exists index. split; [done|]. destruct (Hgray index Hx) as [k Hk]. by eapply cycle_deep. }
  destruct (Z.eqb_spec x 2) as [->|Hx2].
  { destruct (do_done st Hok index Hx) as (d & Hd & Hh & Hb). rewrite Hd. simpl.
    exists d. split; [done|]. split; [done|]. split; [done|]. split; [by intros g|lia]. }
  rewrite (proj2 (Nat.ltb_lt index n) Hi). cbn [negb]. cbv iota.
  destruct (dfs_ok_enter st index x Hok Hx Hx2) as [Hok1 Hb1].
  set (st1 := {| df_states := <[index := 1]> (df_states st); df_depths := df_depths st |}) in *.
  assert (forall g, df_states st1 !! g = Some 1 <-> g = index \/ df_states st !! g = Some 1) as Hg1.
  { intros g. unfold st1. cbn [df_states]. destruct (decide (g = index)) as [->|Hne].
    - rewrite list_lookup_insert_eq by (by eapply lookup_lt_Some). naive_solver.
    - rewrite list_lookup_insert_ne by done. naive_solver. }
  pose proof (visit_list_outcome (fun i st => search fuel i (pd + 1) st) index (kids index) 0 st1) as Hlist.
  change (Z.of_nat 0) with 0 in Hlist.
  assert (list_outcome (kids index) 0 st1
    (visit_list (fun i st => search fuel i (pd + 1) st) (kids index) 0 st1)) as Ho.
  { apply Hlist; [|done|].
    - intros j Hj. split; [done|]. intros st2 Hok2 Hg2. apply IH; try done; [by eapply Hkids|lia|lia| |lia].
      destruct Hroot as (r & Hr & Hp). exists r. split; [done|].
      replace (Z.to_nat (pd + 1)) with (S (Z.to_nat pd)) by lia. by eapply path_snoc.
    - intros g [->|Hg]%Hg1; [by exists O|]. destruct (Hgray g Hg) as [k Hk]. by exists (S k). }
  clear Hlist. destruct (visit_list _ _ _ st1) as [[[d st2]|e]|]; simpl in Ho |- *; [|done|done].
  destruct Ho as (h & -> & _ & Hnone & Hsome & Hok2 & Hsame & Hb2 & Hmono).
  assert (height kids index h) as Hh by (apply height_of_children; naive_solver).
  assert (df_states st2 !! index = Some 1) as Hgi by (apply Hsame, Hg1; by left).
  pose proof (black_nonneg st2) as Hnn.
  destruct (dfs_ok_leave st2 index h Hok2 Hgi Hh) as [Hok3 Hb3]; [lia|].
  exists h. split; [done|]. split; [done|]. split; [done|]. split; [|lia].
  intros g. cbn [df_states]. destruct (decide (g = index)) as [->|Hne].
  - rewrite list_lookup_insert_eq by (by eapply lookup_lt_Some). naive_solver.
  - rewrite list_lookup_insert_ne by done. rewrite (Hsame g), (Hg1 g). naive_solver.
Qed.
End Search.

(** ** The regions of a model *)

Lemma omap_unique {A B} (f : A -> option B) l x y b : NoDup (omap f l) -> x ∈ l -> y ∈ l ->
  f x = Some b -> f y = Some b -> x = y.
Proof.
  intros Hnd Hx Hy Hfx Hfy. apply elem_of_Permutation in Hx as [k Hk]. rewrite Hk in Hnd, Hy.
  cbn [omap list_omap] in Hnd. rewrite Hfx in Hnd. apply NoDup_cons in Hnd as [Hn _].
  apply elem_of_cons in Hy as [->|Hy]; [done|]. exfalso. apply Hn, list_elem_of_omap. by exists y.
Qed.

(** The regions a region's operators name, in order. *)
Definition operator_calls (o : WireOperator) : list str :=
  match Operator_attributes o with Some a => omap id (child_names a) | None => [] end.

Definition block_calls (b : WireBlock) : list str := items (wb_operators b) ≫= operator_calls.
Definition region_calls (r : WireRegion) : list str := items (wr_blocks r) ≫= block_calls.

Definition names_of_regions (m : Model) : list str := omap Region_name (model_regions m).

(** Region [a] holds a [COND_IF] or [WHILE_LOOP] that runs region [b]. *)
Definition calls (m : Model) (a b : str) : Prop :=
  exists r, r ∈ model_regions m /\ Region_name r = Some a /\ b ∈ region_calls r /\ b ∈ names_of_regions m.

(** A chain of [k] nested control-flow calls starts at region [a]. *)
Fixpoint nested (m : Model) (k : nat) (a : str) : Prop :=
  match k with
  | O => True
  | S k => exists b, calls m a b /\ nested m k b
  end.

Section Regions.
Context (m : Model) (region_names : list str) (limit : Z).
Hypothesis Hread : model_readable m.
Hypothesis Hnodup : NoDup (names_of_regions m).
Hypothesis Hnames : region_names ≡ₚ names_of_regions m.
Hypothesis Hsorted : StronglySorted str_le region_names.
Hypothesis Hsize : zlen region_names < USIZE_MAX.
Hypothesis Hlimit : 0 <= limit.

Abbreviation region_index b := (match binary_search region_names b with Ok j => Some j | Err _ => None end).

Definition region_kids (i : nat) : list nat :=
  match region_names !! i with
  | Some name =>
      match List.find (fun r => bool_decide (Region_name r = Some name)) (model_regions m) with
      | Some r => omap (fun b => region_index b) (region_calls r)
      | None => []
      end
  | None => []
  end.

Lemma pfind_regions name rs : Forall (fun r => is_Some (Region_name r)) rs ->
  pfind Region_name name rs = Some (List.find (fun r => bool_decide (Region_name r = Some name)) rs).
Proof.
  induction 1 as [|r rs [x Hr] _ IH]; [done|]. cbn [pfind List.find]. rewrite Hr. cbn [mbind option_bind].
  rewrite IH. destruct (bool_decide_reflect (x = name)) as [->|E].
  - by rewrite bool_decide_true by done.
  - rewrite bool_decide_false by congruence. done.
Qed.

Lemma visit_children_list f cs maximum st :
  visit_children region_names f cs maximum st =
  visit_list f (omap (fun b => region_index b) (omap id cs)) maximum st.
Proof.
  revert maximum st. induction cs as [|[b|] cs IH]; intros maximum st; [done| |by apply IH].
  cbn [visit_children omap list_omap id]. destruct (binary_search region_names b) as [j|j]; [|apply IH].
  cbn [visit_list]. destruct (f j st) as [[[d st']|e]|]; cbn; [apply IH|done|done].
Qed.

Lemma visit_operators_list f os maximum st : Forall operator_readable os ->
  visit_operators region_names f os maximum st =
  visit_list f (omap (fun b => region_index b) (os ≫= operator_calls)) maximum st.
Proof.
  intros H. revert maximum st. induction H as [|o os (a & Ha & _) _ IH]; intros maximum st; [done|].
  cbn [visit_operators]. rewrite bind_cons, omap_app, visit_list_app. unfold operator_calls at 1.
  rewrite Ha. cbn [mbind option_bind]. rewrite visit_children_list.
  destruct (visit_list f _ maximum st) as [[[d st']|e]|]; cbn; [apply IH|done|done].
Qed.

Lemma visit_blocks_list f bs maximum st : Forall block_readable bs ->
  visit_blocks region_names f bs maximum st =
  visit_list f (omap (fun b => region_index b) (bs ≫= block_calls)) maximum st.
Proof.
  intros H. revert maximum st. induction H as [|b bs (_ & _ & _ & Hb) _ IH]; intros maximum st; [done|].
  cbn [visit_blocks]. rewrite bind_cons, omap_app, visit_list_app, visit_operators_list by done.
  unfold block_calls at 1. destruct (visit_list f _ maximum st) as [[[d st']|e]|]; cbn; [apply IH|done|done].
Qed.

Lemma regions_readable : Forall (fun r => is_Some (Region_name r)) (model_regions m).
Proof. eapply Forall_impl; [exact Hread|]. by intros r [H _]. Qed.

Lemma region_index_spec b j : region_index b = Some j <-> region_names !! j = Some b.
Proof.
  split.
  - destruct (binary_search region_names b) as [k|] eqn:E; [|done]. intros [= ->]. by apply binary_search_lookup.
  - intros Hj. pose proof (binary_search_member region_names b Hsorted) as Hm.
    rewrite bool_decide_true in Hm by (by eapply list_elem_of_lookup_2).
    destruct (binary_search region_names b) as [k|] eqn:E; [|done]. f_equal.
    apply binary_search_lookup in E. eapply NoDup_lookup; [|done|done]. by rewrite Hnames.
Qed.

(** The region of a name. *)
Lemma find_region i name : region_names !! i = Some name ->
  exists r, List.find (fun r => bool_decide (Region_name r = Some name)) (model_regions m) = Some r /\
    r ∈ model_regions m /\ Region_name r = Some name.
Proof.
  intros Hi. assert (name ∈ names_of_regions m) as Hin.
  { rewrite <- Hnames. by eapply list_elem_of_lookup_2. }
  apply list_elem_of_omap in Hin as (r & Hr & Hname).
  destruct (List.find _ _) as [r'|] eqn:E.
  - apply List.find_some in E as [H1 H2%bool_decide_eq_true]. exists r'. by rewrite list_elem_of_In.
  - exfalso. apply list_elem_of_In in Hr. pose proof (List.find_none _ _ E r Hr) as Hn. simpl in Hn.
    by apply bool_decide_eq_false in Hn.
Qed.

Lemma control_flow_depth_search fuel : forall index path_depth st,
  control_flow_depth m region_names limit fuel index path_depth st =
  search limit (length region_names) region_kids fuel index path_depth st.
Proof.
  induction fuel as [|fuel IH]; intros index pd st; [done|]. cbn [control_flow_depth search].
  destruct (limit <? pd); [done|]. destruct (df_states st !! index) as [x|]; [|done].
  cbn [mbind option_bind]. destruct (x =? 1); [done|]. destruct (x =? 2); [done|].
  destruct (region_names !! index) as [name|] eqn:Ei; cycle 1.
  { rewrite (proj2 (Nat.ltb_ge _ _)) by (by apply lookup_ge_None). done. }
  rewrite (proj2 (Nat.ltb_lt _ _)) by (by eapply lookup_lt_Some). cbn [negb mbind option_bind]. cbv iota.
  rewrite pfind_regions by apply regions_readable. cbn [mbind option_bind].
  destruct (find_region index name Ei) as (r & Hf & Hr & _). rewrite Hf.
  rewrite visit_blocks_list by (eapply (proj1 (Forall_forall _ _)) in Hread; [apply Hread|done]).
  assert (region_kids index = omap (fun b => region_index b) (region_calls r)) as ->
    by (unfold region_kids; by rewrite Ei, Hf).
  by rewrite (visit_list_ext _ _ _ _ _ (fun j st => IH j (pd + 1) st)).
Qed.

Lemma region_kids_spec i a j b : region_names !! i = Some a -> region_names !! j = Some b ->
  j ∈ region_kids i <-> calls m a b.
Proof.
  intros Hi Hj. destruct (find_region i a Hi) as (r & Hf & Hr & Hra). unfold region_kids. rewrite Hi, Hf.
  rewrite list_elem_of_omap. split.
  - intros (b' & Hb & Hb'%region_index_spec). assert (b' = b) as -> by congruence.
    exists r. repeat split; try done. rewrite <- Hnames. by eapply list_elem_of_lookup_2.
  - intros (r' & Hr' & Hra' & Hb & _). exists b. split; [|by apply region_index_spec].
    enough (r = r') as -> by done. by eapply (omap_unique Region_name (model_regions m)).
Qed.

Lemma region_kids_bounded i j : (i < length region_names)%nat -> j ∈ region_kids i -> (j < length region_names)%nat.
Proof.
  intros _. unfold region_kids. destruct (region_names !! i) as [a|]; [|set_solver].
  destruct (List.find _ _) as [r|]; [|set_solver].
  intros (b & _ & Hb%region_index_spec)%list_elem_of_omap. by eapply lookup_lt_Some.
Qed.

(** Chains of indices are chains of names. *)
Lemma deep_nested k : forall i a, region_names !! i = Some a -> deep region_kids k i <-> nested m k a.
Proof.
  induction k as [|k IH]; intros i a Hi; [done|]. cbn [deep nested]. split.
  - intros (j & Hj & Hd). assert (j < length region_names)%nat as [b Hb]%lookup_lt_is_Some.
    { apply (region_kids_bounded i); [by eapply lookup_lt_Some|done]. }
    exists b. split; [by apply (region_kids_spec i a j b)|]. by apply (IH j b).
  - intros (b & Hc & Hd). assert (b ∈ region_names) as [j Hj]%list_elem_of_lookup.
    { destruct Hc as (r & _ & _ & _ & Hb). by rewrite Hnames. }
    exists j. split; [by apply (region_kids_spec i a j b)|]. by apply (IH j b).
Qed.

Let n := length region_names.

Lemma nesting_loop_spec ids st : Forall (fun i => (i < n)%nat) ids -> dfs_ok n region_kids st ->
  (forall g, df_states st !! g <> Some 1) ->
  exists r, nesting_loop m region_names limit ids st = Some r /\
    ((r = Ok tt /\ forall i, i ∈ ids -> ~ deep region_kids (S (Z.to_nat limit)) i) \/
     (r <> Ok tt /\ exists i, (i < n)%nat /\ deep region_kids (S (Z.to_nat limit)) i)).
Proof.
  intros Hids. revert st. induction Hids as [|i ids Hi _ IH]; intros st Hok Hg; cbn [nesting_loop].
  { eexists. split; [done|]. left. split; [done|set_solver]. }
  rewrite control_flow_depth_search.
  assert (outcome limit n region_kids i st (search limit n region_kids (nesting_fuel limit) i 0 st)) as Ho.
  { apply search_outcome; try done; [apply region_kids_bounded|unfold nesting_fuel; lia|by exists i| |lia].
    by intros g ?%Hg. }
  fold n.
  destruct (search _ _ _ _ _ _ _) as [[[d st']|e]|]; cbn [outcome] in Ho; cbn [mbind option_bind]; [| |done].
  - destruct Ho as (h & -> & [Hd Hnd] & Hok' & Hsame & _ & _).
    destruct (Z.ltb_spec limit (Z.of_nat h)) as [Hl|Hl].
    { eexists. split; [done|]. right. split; [done|]. exists i. split; [done|].
      eapply deep_mono; [|exact Hd]. lia. }
    destruct (IH st' Hok') as (r & Hr & Hcase); [by intros g ?%Hsame%Hg|].
    exists r. split; [done|]. destruct Hcase as [[-> Hall]|?]; [left|by right]. split; [done|].
    intros x [->|Hx]%elem_of_cons; [|by apply Hall]. intros Hx. apply Hnd.
    eapply deep_mono; [|exact Hx]. lia.
  - eexists. split; [done|]. by right.
Qed.

Lemma initial_ok : dfs_ok n region_kids {| df_states := replicate n 0; df_depths := replicate n 0 |}.
Proof.
  split; cbn [df_states df_depths]; [by rewrite length_replicate..|].
  intros i [[=] _]%lookup_replicate_1.
Qed.

Lemma nesting_exact alloc : alloc 0%nat = true -> alloc 1%nat = true ->
  exists r, validate_control_flow_nesting m region_names limit alloc = Some r /\
    (r = Ok tt <-> forall a, a ∈ names_of_regions m -> ~ nested m (S (Z.to_nat limit)) a).
Proof.
  intros H0 H1. unfold validate_control_flow_nesting. rewrite H0, H1. cbn [negb orb]. cbv iota. fold n.
  destruct (nesting_loop_spec (seq 0 n) {| df_states := replicate n 0; df_depths := replicate n 0 |})
    as (r & -> & Hr).
  - apply Forall_forall. intros i Hi%elem_of_seq. lia.
  - apply initial_ok.
  - intros g. cbn [df_states]. intros [[=] _]%lookup_replicate_1.
  - exists r. split; [done|]. destruct Hr as [[-> Hall]|[Hne (i & Hi & Hd)]].
    + split; [|done]. intros _ a Ha Hn. rewrite <- Hnames in Ha. apply list_elem_of_lookup in Ha as [i Hi].
      apply (Hall i); [apply elem_of_seq; apply lookup_lt_Some in Hi; lia|]. by apply (deep_nested _ i a).
    + split; [done|]. intros Hall. exfalso. apply lookup_lt_is_Some_2 in Hi as [a Ha].
      apply (Hall a); [rewrite <- Hnames; by eapply list_elem_of_lookup_2|]. by apply (deep_nested _ i a).
Qed.
End Regions.

(** * Data flow and control flow of accepted models

    The theorems that tie the scheduling and nesting checks of semantic.rs to
    the well-formedness that parsing establishes, with concrete graphs. *)

(** A block that parsing accepts is ready for the scheduling check. *)
Lemma block_wf_ready bytes limits b : block_wf bytes limits b ->
  zlen (items (wb_inputs b)) + zlen (items (wb_tensors b)) <= USIZE_MAX ->
  sum_by (fun o => zlen (items (wo_inputs o))) (operators b) <= USIZE_MAX ->
  dataflow_ready b.
Proof.
  intros (Ht & _ & Hnd & _ & _ & Hops & Hw) H1 H2. constructor; try done.
  - eapply Forall_impl; [exact Ht|]. intros t [Hn _]. by eapply named_Some.
  - eapply Forall_impl; [exact Hops|]. intros o (_ & _ & _ & _ & Ho).
    eapply Forall_impl; [exact Ho|]. by intros n [_ Hn].
Qed.

(** The names that [validate_semantics] collects. *)
Lemma region_names_collected m : model_readable m ->
  collect_names Region_name (model_regions m) = Some (names_of_regions m).
Proof.
  unfold model_readable, names_of_regions. fold (model_regions m). generalize (model_regions m) as rs.
  induction 1 as [|r rs [[n Hn] _] _ IH]; [done|]. cbn [collect_names omap list_omap]. rewrite Hn, IH. done.
Qed.

Lemma names_of_regions_nodup bytes limits m : graph_wf bytes limits (mo_graph m) -> NoDup (names_of_regions m).
Proof.
  intros [Hr Hnd]. enough (names_of_regions m = (fun r => the_name (wr_name r)) <$> items (wg_regions (mo_graph m)))
    as -> by done.
  unfold names_of_regions, model_regions, Region_name. clear Hnd.
  induction Hr as [|r rs [Hn _] _ IH]; [done|]. rewrite fmap_cons, <- IH. cbn [omap list_omap].
  by destruct (named_Some _ _ Hn) as [n ->].
Qed.

(** C25: on every block that parsing accepts, the scheduling check returns
    (it never panics) and accepts exactly the blocks whose operators can be
    put in an order in which every operator follows the operators it reads,
    where no operator writes a block input and every consumed symbol and every
    block output is a block input, a variable or written by an operator.  A
    variable may be written; it orders nothing. *)
Theorem dataflow_accepts_exactly bytes limits b alloc region block_index :
  block_wf bytes limits b ->
  zlen (items (wb_inputs b)) + zlen (items (wb_tensors b)) <= USIZE_MAX ->
  sum_by (fun o => zlen (items (wo_inputs o))) (operators b) <= USIZE_MAX ->
  (forall k, (k < 5)%nat -> alloc k = true) ->
  exists r, validate_dataflow alloc (sort_by_name (block_symbols b)) region block_index b = Some r /\
    (r = Ok tt <-> dataflow_wf b).
Proof. intros Hb H1 H2 Ha. apply validate_dataflow_exact; [by eapply block_wf_ready|done]. Qed.

(** C26: on every accepted model the nesting check returns and accepts
    exactly the models in which no chain of nested [COND_IF] and [WHILE_LOOP]
    regions is longer than the level's limit; in particular no region runs
    itself, directly or through others. *)
Theorem nesting_accepts_exactly bytes limits m limit alloc :
  graph_wf bytes limits (mo_graph m) -> graph_typed (mo_graph m) ->
  zlen (names_of_regions m) < USIZE_MAX -> 0 <= limit ->
  alloc 0%nat = true -> alloc 1%nat = true ->
  exists r, validate_control_flow_nesting m (sort_names (names_of_regions m)) limit alloc = Some r /\
    (r = Ok tt <-> forall a, a ∈ names_of_regions m -> ~ nested m (S (Z.to_nat limit)) a).
Proof.
  intros Hwf Ht Hsz Hl H0 H1. apply nesting_exact; try done.
  - by eapply graph_wf_readable.
  - by eapply names_of_regions_nodup.
  - apply sort_names_perm.
  - apply sort_names_sorted.
  - unfold zlen in *. by rewrite sort_names_perm.
Qed.

Module FlowDemo.
Import ParseDemo.

(** [%b(a) { b = COND_IF(a) then %t else %t }] beside the region [%a]. *)
Definition branch (t : str) : WireOperator :=
  {| wo_op := Op.COND_IF; wo_attribute_type := Op.COND_IF;
     wo_attribute := Some (CondIfAttribute (Some t) (Some t));
     wo_inputs := Some [[97]]; wo_outputs := Some [[98]]; wo_location := None |}.

Definition branch_graph (t : str) : WireGraph :=
  {| wg_version := {| wv_major := 1; wv_minor := 0; wv_patch := 0; wv_draft := false |};
     wg_regions := Some
       [{| wr_name := Some [98];
           wr_blocks := Some [{| wb_name := Some [98]; wb_operators := Some [branch t];
             wb_tensors := Some [demo_tensor [98]; demo_tensor [97]]; wb_shapes := None;
             wb_inputs := Some [[97]]; wb_outputs := Some [[98]] |}] |};
        {| wr_name := Some [97]; wr_blocks := Some [demo_block] |}] |}.

Definition branch_model (t : str) : Model :=
  {| mo_graph := branch_graph t; mo_bytes := demo_bytes; mo_version := TOSA_1_0;
     mo_stats := graph_stats (branch_graph t) |}.

Lemma branch_typed t : graph_typed (branch_graph t).
Proof.
  unfold graph_typed, block_typed, tensor_typed, shape_typed, union_ok, zlen.
  repeat constructor; simpl; try lia; try done.
  unfold fielded_tags. rewrite !not_elem_of_cons. unfold Op.IDENTITY.
  split_and!; try lia. apply not_elem_of_nil.
Qed.

Lemma branch_parses t :
  parse_with_limits demo_identifier (fun _ _ => Some (branch_graph t)) (fun _ => true) demo_bytes
    Limits_default = Ok (branch_model t).
Proof. vm_compute. reflexivity. Qed.

Lemma branch_wf t : graph_wf demo_bytes Limits_default (branch_graph t).
Proof.
  refine (proj1 (accepted_wf demo_identifier _ _ demo_bytes Limits_default demo_limits _ _ (branch_model t)
    (branch_parses t))); [vm_compute; discriminate|]. intros opts g [= <-]. apply branch_typed.
Qed.

Lemma demo_block_wf : block_wf demo_bytes Limits_default demo_block.
Proof.
  destruct (branch_wf [97]) as [Hr _].
  pose proof (proj1 (Forall_forall _ _) Hr {| wr_name := Some [97]; wr_blocks := Some [demo_block] |}) as H.
  destruct H as (_ & Hb & _); [simpl; set_solver|]. simpl in Hb. inversion Hb as [|? ? [_ H] _]. exact H.
Qed.

(** The block of the demonstration model is schedulable. *)
Lemma dataflow_accepts_exactly_witness : dataflow_wf demo_block.
Proof.
  destruct (dataflow_accepts_exactly demo_bytes Limits_default demo_block (fun _ => true) 0 0 demo_block_wf
    ltac:(vm_compute; discriminate) ltac:(vm_compute; discriminate) ltac:(done)) as (r & Hr & Hiff).
  apply Hiff. vm_compute in Hr. by injection Hr.
Defined.

(** One branch fits the 8K level, so no seven calls are nested. *)
Lemma nesting_accepts_exactly_witness :
  [98] ∈ names_of_regions (branch_model [97]) /\ ~ nested (branch_model [97]) 7 [98].
Proof.
  assert ([98] ∈ names_of_regions (branch_model [97])) as Hin by (vm_compute; by left).
  split; [exact Hin|].
  destruct (nesting_accepts_exactly demo_bytes Limits_default (branch_model [97])
    (max_nesting (level_limits Level8K)) (fun _ => true) (branch_wf [97]) (branch_typed [97])
    ltac:(vm_compute; reflexivity) ltac:(vm_compute; discriminate) eq_refl eq_refl) as (r & Hr & Hiff).
  change 7%nat with (S (Z.to_nat (max_nesting (level_limits Level8K)))). apply Hiff; [|exact Hin].
  vm_compute in Hr. by injection Hr.
Defined.

(** The location of a nesting error is the position of the region in the
    sorted list of names, not its position in the model: here region 0, [%b],
    runs itself, region 1, [%a], has no control flow, and the error names
    region 1. *)
Theorem nesting_error_misplaced :
  model_regions (branch_model [98]) !! 1%nat =
    Some {| wr_name := Some [97]; wr_blocks := Some [demo_block] |} /\
  calls (branch_model [98]) [98] [98] /\
  validate_control_flow_nesting (branch_model [98]) (sort_names (names_of_regions (branch_model [98])))
    (max_nesting (level_limits Level8K)) (fun _ => true) = Some (Err (Graph 1 0 None ControlFlowCycle)).
Proof.
  split; [reflexivity|]. split; [|vm_compute; reflexivity].
  eexists. split; [by left|]. split; [reflexivity|]. split; vm_compute; by left.
Qed.
End FlowDemo.
