(* ===== verification/TosaShapeProps.v ===== *)
(** * Shape rules

    What the shape rules of semantic.rs accept: slicing, padding and tiling
    are exact when the values of the shapes are within the 8K level, and wrap
    around at the unbounded level; broadcasting, windows and permutations are
    exact. *)

From Stdlib Require Import ZArith Lia.
From stdpp Require Import prelude list sorting.
From S2P Require Import Prelude TosaTypes TosaNumeric TosaArtifact TosaWire TosaValidate TosaGraph TosaView TosaSemantic TosaAttrCheck TosaShapes TosaFlow.

(** ** Reading tensors and shapes *)

(** A ranked tensor with these dimensions, as parsing accepts it. *)
Definition ranked (t : WireTensor) (dims : list Z) : Prop :=
  wt_is_unranked t = false /\ wt_shape t = Some dims /\ Forall (fun d => 1 <= d <= I32_MAX) dims.

(** A constant shape with these values, each within the 8K level. *)
Definition constant_8k (s : WireShape) (values : list Z) : Prop :=
  shape_values s = Some (Some values) /\ Shape_rank s = zlen values /\
  shape_within_level s (level_limits Level8K) = Some true.

(** [x] at [i]; every use is within the list. *)
Abbreviation at_ l i := (nth i l 0).

Lemma at_lookup (l : list Z) i : (i < length l)%nat -> l !! i = Some (at_ l i).
Proof. intros H. rewrite nth_lookup. by destruct (lookup_lt_is_Some_2 l i H) as [x ->]. Qed.

Lemma ranked_rank t dims : ranked t dims -> Tensor_rank t = Some (zlen dims).
Proof. intros (H1 & H2 & _). unfold Tensor_rank. by rewrite H1, H2. Qed.

Lemma ranked_dimension t dims i : ranked t dims -> (i < length dims)%nat ->
  dimension t i = Some (at_ dims i) /\ 1 <= at_ dims i <= I32_MAX.
Proof.
  intros (_ & H2 & Hd) Hi. unfold dimension, Tensor_dimensions, items. rewrite H2. simpl.
  rewrite (at_lookup dims i Hi). split; [done|]. rewrite Forall_lookup in Hd. by apply (Hd i), at_lookup.
Qed.

Lemma constant_values s vs : constant_8k s vs -> has_values s = true.
Proof.
  intros (Hv & _). unfold has_values. unfold shape_values in Hv. by destruct (Shape_values s).
Qed.

Lemma constant_at s vs i : constant_8k s vs -> (i < length vs)%nat ->
  shape_value s i = Some (Some (at_ vs i)) /\ - 2 ^ 31 <= at_ vs i < 2 ^ 31.
Proof.
  intros (Hv & _ & Hl) Hi. unfold shape_value, shape_within_level in *. rewrite Hv in *. simpl in Hl |- *.
  rewrite (at_lookup vs i Hi). split; [done|]. injection Hl as Hl. rewrite forallb_forall in Hl.
  specialize (Hl (at_ vs i) (nth_In vs 0 Hi)). change (Z.shiftl 1 31) with (2 ^ 31) in Hl. lia.
Qed.

Lemma i64_wrap_small v : - 2 ^ 63 <= v < 2 ^ 63 -> i64_wrap v = v.
Proof. intros H. unfold i64_wrap, as_signed. simpl (64 - 1). rewrite Z.mod_small; lia. Qed.

(** An all-quantified loop over the axes. *)
Lemma pall_seq f n (P : nat -> Prop) :
  (forall i, (i < n)%nat -> exists b, f i = Some b /\ (b = true <-> P i)) ->
  exists b, pall f (seq 0 n) = Some b /\ (b = true <-> forall i, (i < n)%nat -> P i).
Proof.
  intros H. enough (forall k, (k <= n)%nat -> exists b, pall f (seq k (n - k)) = Some b /\
    (b = true <-> forall i, (k <= i < n)%nat -> P i)) as Hk.
  { destruct (Hk O) as (b & Hb & Hi); [lia|]. rewrite Nat.sub_0_r in Hb. exists b. split; [done|].
    rewrite Hi. split; intros G i ?; apply G; lia. }
  intros k Hle. remember (n - k)%nat as m eqn:E. revert k Hle E.
  induction m as [|m IH]; intros k Hle E.
  { exists true. split; [done|]. split; [|done]. intros _ i ?. lia. }
  cbn [seq pall]. destruct (H k) as (b & -> & Hb); [lia|]. destruct (IH (S k)) as (c & Hc & Hi); [lia|lia|].
  exists (b && c). rewrite Hc. split; [by destruct b|]. rewrite andb_true_iff, Hb, Hi. split.
  - intros [H1 H2] i Hki. destruct (decide (i = k)) as [->|]; [done|]. apply H2. lia.
  - intros G. split; [apply G; lia|]. intros i ?. apply G. lia.
Qed.

Lemma pall_axes f (dims : list Z) (P : nat -> Prop) (Q : Prop) :
  (Q <-> forall i, (i < length dims)%nat -> P i) ->
  (forall i, (i < length dims)%nat -> exists b, f i = Some b /\ (b = true <-> P i)) ->
  exists b, pall f (seq 0 (Z.to_nat (zlen dims))) = Some b /\ (b = true <-> Q).
Proof.
  intros HQ H. unfold zlen. rewrite Nat2Z.id. destruct (pall_seq f (length dims) P H) as (b & Hb & Hi).
  exists b. split; [done|]. by rewrite HQ.
Qed.

(** Comparisons that decide a relation on integers. *)
Ltac zcmp_cases :=
  repeat match goal with
  | |- context [?a <=? ?b] => destruct (Z.leb_spec a b)
  | |- context [?a <? ?b] => destruct (Z.ltb_spec a b)
  | |- context [?a =? ?b] => destruct (Z.eqb_spec a b)
  end; cbn [andb]; eexists; (split; [reflexivity|]); split; done || lia.

(** ** Slicing, padding and tiling *)

(** The reference relations on lists of extents. *)
Definition sliced (dims start size out : list Z) : Prop :=
  length start = length dims /\ length size = length dims /\ length out = length dims /\
  forall i, (i < length dims)%nat ->
    0 <= at_ start i /\ 0 < at_ size i /\ at_ start i + at_ size i <= at_ dims i /\ at_ out i = at_ size i.

Definition padded (dims padding out : list Z) : Prop :=
  length padding = (2 * length dims)%nat /\ length out = length dims /\
  forall i, (i < length dims)%nat ->
    0 <= at_ padding (2 * i) /\ 0 <= at_ padding (2 * i + 1) /\
    at_ out i = at_ padding (2 * i) + at_ dims i + at_ padding (2 * i + 1).

Definition tiled (dims multiples out : list Z) : Prop :=
  length multiples = length dims /\ length out = length dims /\
  forall i, (i < length dims)%nat -> 1 <= at_ multiples i /\ at_ out i = at_ dims i * at_ multiples i.

(** A guard that fails only where the relation does. *)
Lemma guarded (c : bool) (r : option bool) (P : Prop) : (P -> c = false) ->
  (c = false -> exists b, r = Some b /\ (b = true <-> P)) ->
  exists b, (if c then Some false else r) = Some b /\ (b = true <-> P).
Proof. intros Hc Hr. destruct c; [exists false; split; [done|]; split; [done|by intros ?%Hc]|by apply Hr]. Qed.

Ltac rank_checks H :=
  rewrite ?orb_false_iff, ?negb_false_iff, ?Z.eqb_eq, ?bool_decide_eq_true in H;
  unfold zlen in H.

Ltac ranks_agree :=
  rewrite ?orb_false_iff, ?negb_false_iff, ?Z.eqb_eq, ?bool_decide_eq_true; unfold zlen;
  repeat split; try f_equal; lia.

Lemma slice_shape_exact input start size output dims ss ns outs dynamic :
  ranked input dims -> constant_8k start ss -> constant_8k size ns -> ranked output outs ->
  exists b, slice_shape input start size output dynamic = Some b /\ (b = true <-> sliced dims ss ns outs).
Proof.
  intros Hin Hs Hn Ho. unfold slice_shape. rewrite (ranked_rank _ _ Hin), (ranked_rank _ _ Ho). cbn [mbind option_bind].
  rewrite (proj1 (proj2 Hs)), (proj1 (proj2 Hn)).
  apply guarded; [intros (? & ? & ? & _); ranks_agree|]. intros E. rank_checks E.
  destruct E as [[E1 E2] [= E3]].
  rewrite (constant_values start ss), (constant_values size ns) by done. cbn [negb orb]. cbv iota.
  apply (pall_axes _ dims (fun i => 0 <= at_ ss i /\ 0 < at_ ns i /\ at_ ss i + at_ ns i <= at_ dims i /\
    at_ outs i = at_ ns i)); [unfold sliced; naive_solver lia|].
  intros i Hi. destruct (constant_at start ss i Hs) as [-> ?]; [lia|].
  destruct (constant_at size ns i Hn) as [-> ?]; [lia|].
  destruct (ranked_dimension input dims i Hin Hi) as [-> ?].
  destruct (ranked_dimension output outs i Ho) as [-> ?]; [lia|]. cbn [mbind option_bind].
  rewrite i64_wrap_small by (lia).
  zcmp_cases.
Qed.

Lemma ranked_scalar pad : ranked pad [1] -> scalar_shape pad = true.
Proof.
  intros Hpad. unfold scalar_shape, dimensions_equal. rewrite (ranked_rank _ _ Hpad). destruct Hpad as (_ & Hp2 & _).
  unfold Tensor_dimensions, items. by rewrite Hp2.
Qed.

Lemma pad_shape_exact input padding pad output dims ps outs dynamic :
  ranked input dims -> constant_8k padding ps -> ranked pad [1] -> ranked output outs ->
  exists b, pad_shape input padding pad output dynamic = Some b /\ (b = true <-> padded dims ps outs).
Proof.
  intros Hin Hp Hpad Ho. unfold pad_shape. rewrite (ranked_rank _ _ Hin), (ranked_rank _ _ Ho). cbn [mbind option_bind].
  rewrite (ranked_scalar pad Hpad), (proj1 (proj2 Hp)).
  apply guarded; [intros (? & ? & _); ranks_agree|]. intros E. rank_checks E. destruct E as [[E1 _] [= E2]].
  rewrite (constant_values padding ps) by done. cbn [negb]. cbv iota.
  apply (pall_axes _ dims (fun i => 0 <= at_ ps (2 * i) /\ 0 <= at_ ps (2 * i + 1) /\
    at_ outs i = at_ ps (2 * i) + at_ dims i + at_ ps (2 * i + 1))); [unfold padded; naive_solver lia|].
  intros i Hi. rewrite (Nat.mul_comm i 2).
  destruct (constant_at padding ps (2 * i) Hp) as [-> ?]; [lia|].
  destruct (constant_at padding ps (2 * i + 1) Hp) as [-> ?]; [lia|].
  destruct (ranked_dimension input dims i Hin Hi) as [-> ?].
  destruct (ranked_dimension output outs i Ho) as [-> ?]; [lia|]. cbn [mbind option_bind].
  rewrite !i64_wrap_small by (rewrite ?i64_wrap_small; lia).
  zcmp_cases.
Qed.

Lemma tile_shape_exact input multiples output dims ms outs dynamic :
  ranked input dims -> constant_8k multiples ms -> ranked output outs ->
  exists b, tile_shape input multiples output dynamic = Some b /\ (b = true <-> tiled dims ms outs).
Proof.
  intros Hin Hm Ho. unfold tile_shape. rewrite (ranked_rank _ _ Hin), (ranked_rank _ _ Ho). cbn [mbind option_bind].
  rewrite (proj1 (proj2 Hm)).
  apply guarded; [intros (? & ? & _); ranks_agree|]. intros E. rank_checks E. destruct E as [E1 [= E2]].
  rewrite (constant_values multiples ms) by done. cbn [negb]. cbv iota.
  apply (pall_axes _ dims (fun i => 1 <= at_ ms i /\ at_ outs i = at_ dims i * at_ ms i));
    [unfold tiled; naive_solver lia|].
  intros i Hi. destruct (constant_at multiples ms i Hm) as [-> ?]; [lia|].
  destruct (ranked_dimension input dims i Hin Hi) as [-> ?].
  destruct (ranked_dimension output outs i Ho) as [-> ?]; [lia|]. cbn [mbind option_bind].
  rewrite i64_wrap_small by (nia).
  zcmp_cases.
Qed.

(** C29: with constant shapes whose values are within the 8K level, the
    SLICE, PAD and TILE rules return and accept exactly the outputs of the
    operators over the integers: a window inside the input, the input with
    both paddings, and the repeated input. *)
Theorem static_shapes_exact input output pad a b dims outs avalues bvalues dynamic :
  ranked input dims -> ranked output outs -> ranked pad [1] ->
  constant_8k a avalues -> constant_8k b bvalues ->
  (exists r, slice_shape input a b output dynamic = Some r /\ (r = true <-> sliced dims avalues bvalues outs)) /\
  (exists r, pad_shape input a pad output dynamic = Some r /\ (r = true <-> padded dims avalues outs)) /\
  (exists r, tile_shape input a output dynamic = Some r /\ (r = true <-> tiled dims avalues outs)).
Proof.
  intros Hi Ho Hp Ha Hb. split; [|split].
  - by apply slice_shape_exact.
  - by apply pad_shape_exact.
  - by apply tile_shape_exact.
Qed.

(** ** Wrap-around at the unbounded level *)

(** A constant shape with these values, of any size. *)
Definition constant_i64 (s : WireShape) (values : list Z) : Prop :=
  shape_values s = Some (Some values) /\ Shape_rank s = zlen values /\
  Forall (fun v => - 2 ^ 63 <= v < 2 ^ 63) values.

Lemma constant_i64_values s vs : constant_i64 s vs -> has_values s = true.
Proof. intros (Hv & _). unfold has_values. unfold shape_values in Hv. by destruct (Shape_values s). Qed.

Lemma constant_i64_at s vs i : constant_i64 s vs -> (i < length vs)%nat ->
  shape_value s i = Some (Some (at_ vs i)) /\ - 2 ^ 63 <= at_ vs i < 2 ^ 63.
Proof.
  intros (Hv & _ & Hl) Hi. unfold shape_value. rewrite Hv. simpl. rewrite (at_lookup vs i Hi). split; [done|].
  rewrite Forall_lookup in Hl. by apply (Hl i), at_lookup.
Qed.

(** The relations with sums and products up to [2^64]. *)
Definition sliced_wrapping (dims start size out : list Z) : Prop :=
  length start = length dims /\ length size = length dims /\ length out = length dims /\
  forall i, (i < length dims)%nat ->
    0 <= at_ start i /\ 0 < at_ size i /\ at_ out i = at_ size i /\
    (at_ start i + at_ size i <= at_ dims i \/ 2 ^ 63 <= at_ start i + at_ size i).

Definition padded_wrapping (dims padding out : list Z) : Prop :=
  length padding = (2 * length dims)%nat /\ length out = length dims /\
  forall i, (i < length dims)%nat ->
    0 <= at_ padding (2 * i) /\ 0 <= at_ padding (2 * i + 1) /\
    exists k, at_ padding (2 * i) + at_ dims i + at_ padding (2 * i + 1) = at_ out i + k * 2 ^ 64.

Definition tiled_wrapping (dims multiples out : list Z) : Prop :=
  length multiples = length dims /\ length out = length dims /\
  forall i, (i < length dims)%nat -> 1 <= at_ multiples i /\
    exists k, at_ dims i * at_ multiples i = at_ out i + k * 2 ^ 64.

Lemma i64_wrap_mod v : exists k, v = i64_wrap v + k * 2 ^ 64.
Proof.
  unfold i64_wrap, as_signed. change (64 - 1) with 63. exists ((v + 2 ^ 63) / 2 ^ 64).
  rewrite Z.mod_eq by lia. ring.
Qed.

Lemma i64_wrap_range v : - 2 ^ 63 <= i64_wrap v < 2 ^ 63.
Proof.
  unfold i64_wrap, as_signed. change (64 - 1) with 63. pose proof (Z.mod_pos_bound (v + 2 ^ 63) (2 ^ 64) ltac:(lia)). lia.
Qed.

Lemma i64_wrap_eq v out : - 2 ^ 63 <= out < 2 ^ 63 -> (i64_wrap v = out <-> exists k, v = out + k * 2 ^ 64).
Proof.
  intros Ho. split; [intros <-; apply i64_wrap_mod|]. intros [k ->].
  destruct (i64_wrap_mod (out + k * 2 ^ 64)) as [j Hj]. pose proof (i64_wrap_range (out + k * 2 ^ 64)). lia.
Qed.

Lemma slice_shape_wraps input start size output dims ss ns outs dynamic :
  ranked input dims -> constant_i64 start ss -> constant_i64 size ns -> ranked output outs ->
  exists b, slice_shape input start size output dynamic = Some b /\ (b = true <-> sliced_wrapping dims ss ns outs).
Proof.
  intros Hin Hs Hn Ho. unfold slice_shape. rewrite (ranked_rank _ _ Hin), (ranked_rank _ _ Ho). cbn [mbind option_bind].
  rewrite (proj1 (proj2 Hs)), (proj1 (proj2 Hn)).
  apply guarded; [intros (? & ? & ? & _); ranks_agree|]. intros E. rank_checks E.
  destruct E as [[E1 E2] [= E3]].
  rewrite (constant_i64_values start ss), (constant_i64_values size ns) by done. cbn [negb orb]. cbv iota.
  apply (pall_axes _ dims (fun i => 0 <= at_ ss i /\ 0 < at_ ns i /\ at_ outs i = at_ ns i /\
    (at_ ss i + at_ ns i <= at_ dims i \/ 2 ^ 63 <= at_ ss i + at_ ns i))); [unfold sliced_wrapping; naive_solver lia|].
  intros i Hi. destruct (constant_i64_at start ss i Hs) as [-> ?]; [lia|].
  destruct (constant_i64_at size ns i Hn) as [-> ?]; [lia|].
  destruct (ranked_dimension input dims i Hin Hi) as [-> ?].
  destruct (ranked_dimension output outs i Ho) as [-> ?]; [lia|]. cbn [mbind option_bind].
  assert (0 <= at_ ss i -> 0 < at_ ns i -> i64_wrap (at_ ss i + at_ ns i) <= at_ dims i <->
    at_ ss i + at_ ns i <= at_ dims i \/ 2 ^ 63 <= at_ ss i + at_ ns i) as Hw.
  { intros. destruct (i64_wrap_mod (at_ ss i + at_ ns i)) as [k Hk]. pose proof (i64_wrap_range (at_ ss i + at_ ns i)). lia. }
  zcmp_cases.
Qed.

Lemma pad_shape_wraps input padding pad output dims ps outs dynamic :
  ranked input dims -> constant_i64 padding ps -> ranked pad [1] -> ranked output outs ->
  exists b, pad_shape input padding pad output dynamic = Some b /\ (b = true <-> padded_wrapping dims ps outs).
Proof.
  intros Hin Hp Hpad Ho. unfold pad_shape. rewrite (ranked_rank _ _ Hin), (ranked_rank _ _ Ho). cbn [mbind option_bind].
  rewrite (ranked_scalar pad Hpad), (proj1 (proj2 Hp)).
  apply guarded; [intros (? & ? & _); ranks_agree|]. intros E. rank_checks E. destruct E as [[E1 _] [= E2]].
  rewrite (constant_i64_values padding ps) by done. cbn [negb]. cbv iota.
  apply (pall_axes _ dims (fun i => 0 <= at_ ps (2 * i) /\ 0 <= at_ ps (2 * i + 1) /\
    exists k, at_ ps (2 * i) + at_ dims i + at_ ps (2 * i + 1) = at_ outs i + k * 2 ^ 64));
    [unfold padded_wrapping; naive_solver lia|].
  intros i Hi. rewrite (Nat.mul_comm i 2).
  destruct (constant_i64_at padding ps (2 * i) Hp) as [-> ?]; [lia|].
  destruct (constant_i64_at padding ps (2 * i + 1) Hp) as [-> ?]; [lia|].
  destruct (ranked_dimension input dims i Hin Hi) as [-> ?].
  destruct (ranked_dimension output outs i Ho) as [-> ?]; [lia|]. cbn [mbind option_bind].
  assert (at_ outs i = i64_wrap (i64_wrap (at_ dims i + at_ ps (2 * i)) + at_ ps (2 * i + 1)) <->
    exists k, at_ ps (2 * i) + at_ dims i + at_ ps (2 * i + 1) = at_ outs i + k * 2 ^ 64) as Hw.
  { destruct (i64_wrap_mod (at_ dims i + at_ ps (2 * i))) as [j Hj]. rewrite (eq_comm (at_ outs i)), i64_wrap_eq by lia.
    split; intros [k Hk]; [exists (k + j)|exists (k - j)]; lia. }
  destruct (Z.leb_spec 0 (at_ ps (2 * i))); cbn [andb]; [|eexists; split; [reflexivity|]; split; [done|lia]].
  destruct (Z.leb_spec 0 (at_ ps (2 * i + 1))); cbn [andb]; [|eexists; split; [reflexivity|]; split; [done|lia]].
  eexists. split; [reflexivity|]. rewrite Z.eqb_eq, Hw. naive_solver.
Qed.

Lemma tile_shape_wraps input multiples output dims ms outs dynamic :
  ranked input dims -> constant_i64 multiples ms -> ranked output outs ->
  exists b, tile_shape input multiples output dynamic = Some b /\ (b = true <-> tiled_wrapping dims ms outs).
Proof.
  intros Hin Hm Ho. unfold tile_shape. rewrite (ranked_rank _ _ Hin), (ranked_rank _ _ Ho). cbn [mbind option_bind].
  rewrite (proj1 (proj2 Hm)).
  apply guarded; [intros (? & ? & _); ranks_agree|]. intros E. rank_checks E. destruct E as [E1 [= E2]].
  rewrite (constant_i64_values multiples ms) by done. cbn [negb]. cbv iota.
  apply (pall_axes _ dims (fun i => 1 <= at_ ms i /\ exists k, at_ dims i * at_ ms i = at_ outs i + k * 2 ^ 64));
    [unfold tiled_wrapping; naive_solver lia|].
  intros i Hi. destruct (constant_i64_at multiples ms i Hm) as [-> ?]; [lia|].
  destruct (ranked_dimension input dims i Hin Hi) as [-> ?].
  destruct (ranked_dimension output outs i Ho) as [-> ?]; [lia|]. cbn [mbind option_bind].
  destruct (Z.leb_spec 1 (at_ ms i)); [|eexists; split; [reflexivity|]; split; [done|lia]].
  eexists. split; [reflexivity|]. rewrite Z.eqb_eq, i64_wrap_eq by lia. naive_solver.
Qed.

(** C30: without the bound of a level the SLICE, PAD and TILE rules decide the
    operators only up to wrap-around in 64 bits: for every 64-bit value of the
    constant shapes they return and accept exactly the outputs that are right
    modulo [2^64], and a slice whose end exceeds [i64::MAX] always passes for
    one inside the input. *)
Theorem unbounded_shapes_wrap input output pad a b dims outs avalues bvalues dynamic :
  ranked input dims -> ranked output outs -> ranked pad [1] ->
  constant_i64 a avalues -> constant_i64 b bvalues ->
  (exists r, slice_shape input a b output dynamic = Some r /\ (r = true <-> sliced_wrapping dims avalues bvalues outs)) /\
  (exists r, pad_shape input a pad output dynamic = Some r /\ (r = true <-> padded_wrapping dims avalues outs)) /\
  (exists r, tile_shape input a output dynamic = Some r /\ (r = true <-> tiled_wrapping dims avalues outs)).
Proof.
  intros Hi Ho Hp Ha Hb. split; [|split].
  - by apply slice_shape_wraps.
  - by apply pad_shape_wraps.
  - by apply tile_shape_wraps.
Qed.

Module WrapDemo.
Definition vector (n : str) (d : Z) : WireTensor :=
  {| wt_name := Some n; wt_shape := Some [d]; wt_type := DType.INT8; wt_data := None;
     wt_variable := false; wt_is_unranked := false; wt_variable_name := None;
     wt_offset := 0; wt_size := 0 |}.

Definition constant (n : str) (data : list Z) : WireShape :=
  {| ws_name := Some n; ws_rank := 1; ws_data := Some data |}.

Definition plain (op : Z) (inputs outputs : list str) : WireOperator :=
  {| wo_op := op; wo_attribute_type := op; wo_attribute := Some (OtherAttribute op);
     wo_inputs := Some inputs; wo_outputs := Some outputs; wo_location := None |}.

(** [b = SLICE(a, start = [i64::MAX], size = [1])] on three elements [a]. *)
Definition slice_block : WireBlock :=
  {| wb_name := Some [109];
     wb_operators := Some [plain Op.CONST_SHAPE [] [[115]]; plain Op.CONST_SHAPE [] [[122]];
                           plain Op.SLICE [[97]; [115]; [122]] [[98]]];
     wb_tensors := Some [vector [97] 3; vector [98] 1];
     wb_shapes := Some [constant [115] [255; 255; 255; 255; 255; 255; 255; 127];
                        constant [122] [1; 0; 0; 0; 0; 0; 0; 0]];
     wb_inputs := Some [[97]]; wb_outputs := Some [[98]] |}.

Definition one_block (b : WireBlock) : WireGraph :=
  {| wg_version := {| wv_major := 1; wv_minor := 0; wv_patch := 0; wv_draft := false |};
     wg_regions := Some [{| wr_name := Some [109]; wr_blocks := Some [b] |}] |}.

Definition model_of (b : WireBlock) : Model :=
  {| mo_graph := one_block b; mo_bytes := ParseDemo.demo_bytes; mo_version := TOSA_1_0;
     mo_stats := graph_stats (one_block b) |}.

Definition integer_target (l : Level) : Target :=
  {| tgt_version := TOSA_1_0; tgt_profiles := ProfileSet.INTEGER; tgt_level := l; tgt_extensions := 0 |}.

Lemma vector_ranked n d : 1 <= d <= I32_MAX -> ranked (vector n d) [d].
Proof. intros H. repeat split. by apply Forall_singleton. Qed.

Lemma static_shapes_exact_witness : sliced [3] [1] [2] [2].
Proof.
  destruct (static_shapes_exact (vector [97] 3) (vector [98] 2) (vector [99] 1)
    (constant [115] [1; 0; 0; 0; 0; 0; 0; 0]) (constant [122] [2; 0; 0; 0; 0; 0; 0; 0]) [3] [2] [1] [2] false
    (vector_ranked [97] 3 ltac:(lia)) (vector_ranked [98] 2 ltac:(lia)) (vector_ranked [99] 1 ltac:(lia))
    (conj eq_refl (conj eq_refl eq_refl)) (conj eq_refl (conj eq_refl eq_refl))) as ((r & Hr & Hiff) & _ & _).
  apply Hiff. vm_compute in Hr. by injection Hr.
Defined.

(** [b = TILE(a, [2^62 + 1])] on four elements [a], again four elements. *)
Definition tile_block : WireBlock :=
  {| wb_name := Some [109];
     wb_operators := Some [plain Op.CONST_SHAPE [] [[115]]; plain Op.TILE [[97]; [115]] [[98]]];
     wb_tensors := Some [vector [97] 4; vector [98] 4];
     wb_shapes := Some [constant [115] [1; 0; 0; 0; 0; 0; 0; 64]];
     wb_inputs := Some [[97]]; wb_outputs := Some [[98]] |}.

(** The whole validation accepts at the unbounded level a slice that starts at
    [i64::MAX] in three elements and a tiling of four elements by [2^62 + 1]
    that has four elements; at the 8K level both are rejected for their
    values. *)
Lemma unbounded_models_wrap :
  validate_semantics (fun _ => true) (model_of slice_block) (integer_target Unbounded) = Some (Ok tt) /\
  validate_semantics (fun _ => true) (model_of tile_block) (integer_target Unbounded) = Some (Ok tt) /\
  (forall b, b ∈ [slice_block; tile_block] ->
     validate_semantics (fun _ => true) (model_of b) (integer_target Level8K) =
       Some (Err (Graph 0 0 None ShapeValueLimit)) /\
     parse_with_limits ParseDemo.demo_identifier (fun _ _ => Some (one_block b)) (fun _ => true)
       ParseDemo.demo_bytes Limits_default = Ok (model_of b)).
Proof.
  split; [vm_compute; reflexivity|]. split; [vm_compute; reflexivity|].
  intros b [->|[->|[]%elem_of_nil]%elem_of_cons]%elem_of_cons; split; vm_compute; reflexivity.
Qed.

(** The slice from [i64::MAX] is accepted and is no slice. *)
Lemma unbounded_shapes_wrap_witness :
  slice_shape (vector [97] 3) (constant [115] [255; 255; 255; 255; 255; 255; 255; 127])
    (constant [122] [1; 0; 0; 0; 0; 0; 0; 0]) (vector [98] 1) false = Some true /\
  ~ sliced [3] [I64_MAX] [1] [1].
Proof.
  split.
  - destruct (unbounded_shapes_wrap (vector [97] 3) (vector [98] 1) (vector [112] 1)
      (constant [115] [255; 255; 255; 255; 255; 255; 255; 127]) (constant [122] [1; 0; 0; 0; 0; 0; 0; 0])
      [3] [1] [I64_MAX] [1] false (vector_ranked [97] 3 ltac:(lia)) (vector_ranked [98] 1 ltac:(lia)) (vector_ranked [112] 1 ltac:(lia)))
      as ((r & Hr & Hiff) & _).
    + split; [vm_compute; reflexivity|]. split; [reflexivity|]. repeat constructor; vm_compute; congruence.
    + split; [vm_compute; reflexivity|]. split; [reflexivity|]. repeat constructor; vm_compute; congruence.
    + rewrite Hr, (proj2 Hiff); [reflexivity|]. split_and!; try done. intros [|i] Hi; [|simpl in Hi; lia].
      cbn [nth]. split_and!; [vm_compute; congruence..|right; vm_compute; congruence].
  - intros (_ & _ & _ & H). specialize (H O ltac:(simpl; lia)). simpl in H. lia.
Defined.
End WrapDemo.

(** * Broadcasting, windows and permutations

    The remaining shape rules of semantic.rs against reference relations on
    lists of extents. *)

(** ** Broadcasting *)

(** The extent of an operand on an output axis, the last axes aligned. *)
Definition aligned (dims : list Z) (rank axis : nat) : option Z :=
  if decide (rank <= axis + length dims)%nat then dims !! (axis + length dims - rank)%nat else None.

(** Every operand has extent one or the output's on each axis it has, and an
    extent other than one comes from an operand. *)
Definition broadcasts (inputs : list (list Z)) (out : list Z) : Prop :=
  Forall (fun dims => (length dims <= length out)%nat) inputs /\
  forall i, (i < length out)%nat ->
    (forall dims v, dims ∈ inputs -> aligned dims (length out) i = Some v -> v = 1 \/ v = at_ out i) /\
    (at_ out i = 1 \/ exists dims, dims ∈ inputs /\ aligned dims (length out) i = Some (at_ out i)).

(** One axis, from the extent found so far. *)
Lemma broadcast_axis_spec inputs dimss rank axis expected out : Forall2 ranked inputs dimss ->
  Forall (fun dims => (length dims <= rank)%nat) dimss -> (axis < rank)%nat -> 1 <= expected -> 1 <= out ->
  exists r, broadcast_axis inputs (Z.of_nat axis) (Z.of_nat rank) expected = Some r /\
    (r = Some out <->
     (expected = 1 \/ expected = out) /\
     (forall dims v, dims ∈ dimss -> aligned dims rank axis = Some v -> v = 1 \/ v = out) /\
     (out = 1 \/ expected = out \/ exists dims, dims ∈ dimss /\ aligned dims rank axis = Some out)).
Proof.
  intros Hin Hrank Hax. revert expected Hrank.
  induction Hin as [|input dims inputs dimss Hi _ IH]; intros expected Hrank He Ho.
  { exists (Some expected). split; [done|]. set_solver by lia. }
  apply Forall_cons in Hrank as [Hd Hrank]. cbn [broadcast_axis]. rewrite (ranked_rank _ _ Hi). cbn [mbind option_bind].
  unfold zlen. destruct (Z.leb_spec (Z.of_nat rank) (Z.of_nat axis + Z.of_nat (length dims))) as [Hle|Hlt].
  - assert (axis + length dims - rank < length dims)%nat as Hlt by lia.
    replace (Z.to_nat _) with (axis + length dims - rank)%nat by lia.
    destruct (ranked_dimension input dims _ Hi Hlt) as [-> Hv]. cbn [mbind option_bind].
    assert (aligned dims rank axis = Some (at_ dims (axis + length dims - rank))) as Ha.
    { unfold aligned. rewrite decide_True by lia. by apply at_lookup. }
    set (v := at_ dims (axis + length dims - rank)) in *.
    destruct (negb (v =? 1) && negb (expected =? 1) && negb (v =? expected)) eqn:E.
    + exists None. split; [done|]. split; [done|]. intros (H1 & H2 & _).
      destruct (H2 dims v) as [H|H]; [by left|done| |]; lia.
    + destruct (IH (Z.max expected v) Hrank) as (r & -> & Hr); [lia|done|].
      exists r. split; [done|]. rewrite Hr. split.
      * intros (H1 & H2 & H3). split; [lia|]. split.
        { intros x w [->|Hx]%elem_of_cons Hw; [|by eapply H2]. rewrite Ha in Hw. injection Hw as <-. lia. }
        destruct H3 as [H3|[H3|(x & Hx & Hxo)]]; [by left| |right; right; exists x; by split; [right|]].
        destruct (decide (expected = out)); [by right; left|]. right. right. exists dims.
        split; [by left|]. rewrite Ha. f_equal. lia.
      * intros (H1 & H2 & H3). pose proof (H2 dims v ltac:(by left) Ha) as H4. split; [lia|]. split.
        { intros x w Hx Hw. apply (H2 x w); [by right|done]. }
        destruct H3 as [H3|[H3|(x & [->|Hx]%elem_of_cons & Hxo)]]; [by left|right; left; lia| |].
        { right. left. rewrite Ha in Hxo. injection Hxo as Hxo. lia. }
        right. right. by exists x.
  - destruct (IH expected Hrank He Ho) as (r & -> & Hr). exists r. split; [done|]. rewrite Hr.
    assert (aligned dims rank axis = None) as Ha by (unfold aligned; rewrite decide_False by lia; done).
    split; intros (H1 & H2 & H3); (split; [done|]); split.
    + intros x w [->|Hx]%elem_of_cons Hw; [congruence|by eapply H2].
    + destruct H3 as [H3|[H3|(x & Hx & Hxo)]]; eauto 6 using list_elem_of_further.
    + intros x w Hx. apply H2. by right.
    + destruct H3 as [H3|[H3|(x & [->|Hx]%elem_of_cons & Hxo)]]; eauto 6. congruence.
Qed.

Lemma ranks_fit inputs dimss (n : nat) : Forall2 ranked inputs dimss ->
  exists b, pall (fun input => r ← Tensor_rank input; Some (r <=? Z.of_nat n)) inputs = Some b /\
    (b = true <-> Forall (fun dims => (length dims <= n)%nat) dimss).
Proof.
  induction 1 as [|input dims inputs dimss Hi _ (b & Hb & IH)]; [by exists true|]. cbn [pall].
  rewrite (ranked_rank _ _ Hi), Hb. cbn [mbind option_bind]. unfold zlen.
  destruct (Z.leb_spec (Z.of_nat (length dims)) (Z.of_nat n)); cbn [pand].
  - exists b. split; [done|]. rewrite Forall_cons, IH. intuition lia.
  - exists false. split; [done|]. rewrite Forall_cons. split; [done|]. lia.
Qed.

(** The broadcasting rule returns and accepts exactly the outputs to
    which every operand broadcasts: last axes aligned, an extent of one
    stretched, and no extent that no operand has. *)
Theorem broadcast_exact inputs dimss output out :
  Forall2 ranked inputs dimss -> ranked output out ->
  exists b, broadcast_shape inputs output = Some b /\ (b = true <-> broadcasts dimss out).
Proof.
  intros Hin Ho. unfold broadcast_shape. rewrite (ranked_rank _ _ Ho). cbn [mbind option_bind].
  destruct (ranks_fit inputs dimss (length out) Hin) as (fits & Hb & Hfits). fold (zlen out) in Hb. rewrite Hb. cbn [mbind option_bind].
  apply guarded; [intros [H _]; by rewrite (proj2 Hfits)|]. intros E%negb_false_iff%Hfits.
  apply (pall_axes _ out (fun i =>
    (forall dims v, dims ∈ dimss -> aligned dims (length out) i = Some v -> v = 1 \/ v = at_ out i) /\
    (at_ out i = 1 \/ exists dims, dims ∈ dimss /\ aligned dims (length out) i = Some (at_ out i)))).
  { unfold broadcasts. naive_solver. }
  intros i Hi. destruct (ranked_dimension output out i Ho Hi) as [-> Hd]. cbn [mbind option_bind].
  destruct (broadcast_axis_spec inputs dimss (length out) i 1 (at_ out i) Hin E Hi) as (r & Hr & Hiff); [lia|lia|].
  unfold zlen. rewrite Hr. cbn [mbind option_bind]. eexists. split; [done|].
  transitivity (r = Some (at_ out i)).
  - destruct r as [e|]; [|done]. rewrite Z.eqb_eq. naive_solver.
  - rewrite Hiff. split; [intros (_ & H2 & H3)|intros (H2 & H3)]; (split_and!; [by auto..|]); naive_solver.
Qed.

(** ** Windows *)

(** A window rule accepts an extent exactly when windows of the given
    kernel, one every stride, tile the padded input; the extent is their
    number. *)
Theorem window_output_exact input before after kernel stride n : 0 < stride ->
  checked_window_output input before after kernel stride = Some n <->
  1 <= n <= I32_MAX /\ (n - 1) * stride + kernel = before + input + after.
Proof.
  intros Hs. unfold checked_window_output. cbv zeta. set (m := input + before + after - kernel).
  destruct (Z.leb_spec 0 m) as [Hm|Hm]; cbn [andb]; [|split; [done|unfold m in *; nia]].
  rewrite Z.rem_mod_nonneg, Z.quot_div_nonneg by lia.
  pose proof (Z.div_mod m stride ltac:(lia)) as Hdm. pose proof (Z.mod_pos_bound m stride Hs) as Hb.
  destruct (Z.eqb_spec (m mod stride) 0) as [Hz|Hz].
  - unfold i32_try_from. assert (0 <= m / stride) by (apply Z.div_pos; lia).
    transitivity (m / stride + 1 = n /\ n <= I32_MAX).
    + unfold in_range. destruct (_ && _) eqn:E; (split; [|intros [<- ?]]); try (intros [=]); subst; try lia; done.
    + rewrite Hz in Hdm. split.
      * intros [<- ?]. split; [lia|]. unfold m in *. nia.
      * intros [? E]. split; [|lia]. assert (m = (n - 1) * stride) as -> by (unfold m; lia).
        rewrite Z.div_mul by lia. lia.
  - split; [done|]. intros [? E]. exfalso. apply Hz.
    assert (m = (n - 1) * stride) as -> by (unfold m; lia). by apply Z_mod_mult.
Qed.

(** ** Permutations *)

Definition axes (n : nat) : list Z := Z.of_nat <$> seq 0 n.

Lemma elem_of_axes v n : v ∈ axes n <-> 0 <= v < Z.of_nat n.
Proof.
  unfold axes. rewrite list_elem_of_fmap. split.
  - intros (k & -> & Hk%elem_of_seq). lia.
  - intros Hv. exists (Z.to_nat v). rewrite elem_of_seq. lia.
Qed.

Lemma axes_nodup n : NoDup (axes n).
Proof. apply NoDup_fmap_2; [apply _|apply NoDup_seq]. Qed.

(** A list of axes without repetition, as long as there are axes. *)
Lemma permutation_axes l n : l ≡ₚ axes n <->
  length l = n /\ Forall (fun v => 0 <= v < Z.of_nat n) l /\ NoDup l.
Proof.
  split.
  - intros H. split_and!.
    + rewrite H. unfold axes. by rewrite length_fmap, length_seq.
    + rewrite H. apply Forall_forall. intros v. by rewrite elem_of_axes.
    + rewrite H. apply axes_nodup.
  - intros (Hl & Hr & Hnd). apply submseteq_length_Permutation.
    + apply NoDup_submseteq; [done|]. intros v Hv. apply elem_of_axes. rewrite Forall_forall in Hr. by apply Hr.
    + unfold axes. rewrite length_fmap, length_seq. lia.
Qed.

Lemma I32List_at l (i : nat) : I32List_get (Some l) (Z.of_nat i) = l !! i.
Proof.
  unfold I32List_get. cbn [mbind option_bind]. unfold zlen. rewrite Nat2Z.id.
  destruct (Z.ltb_spec (Z.of_nat i) (Z.of_nat (length l))) as [H|H]; [done|].
  symmetry. apply lookup_ge_None. lia.
Qed.

Lemma valid_permutation_spec l n : valid_permutation (Some l) (Z.of_nat n) = true <-> l ≡ₚ axes n.
Proof.
  rewrite permutation_axes. unfold valid_permutation, I32List_len, zlen.
  destruct (Z.eqb_spec (Z.of_nat (length l)) (Z.of_nat n)) as [E|E]; cbn [negb]; [|split; [done|lia]].
  apply Nat2Z.inj in E. subst n. rewrite Nat2Z.id, forallb_forall. setoid_rewrite I32List_at.
  setoid_rewrite <- list_elem_of_In. setoid_rewrite elem_of_seq. split.
  - intros H. split; [done|]. split.
    + apply Forall_lookup. intros i v Hv. specialize (H i). rewrite Hv in H.
      apply lookup_lt_Some in Hv. specialize (H ltac:(lia)). unfold valid_axis in H. lia.
    + apply NoDup_alt. enough (forall i j v, (i < j)%nat -> l !! i = Some v -> l !! j = Some v -> False) as Hlt.
      { intros i j v Hi Hj. destruct (Nat.lt_trichotomy i j) as [?|[?|?]]; [exfalso|done|exfalso]; eauto. }
      intros i j v Hij Hi Hj. specialize (H j). rewrite Hj in H. apply lookup_lt_Some in Hj as Hjl.
      specialize (H ltac:(lia)). apply andb_true_iff in H as [_ H%negb_true_iff].
      assert (existsb (fun prior => bool_decide (I32List_get (Some l) (Z.of_nat prior) = Some v)) (seq 0 j) = true)
        as He; [|congruence].
      apply existsb_exists. exists i. split; [apply list_elem_of_In, elem_of_seq; lia|].
      apply bool_decide_eq_true. by rewrite I32List_at.
  - intros (_ & Hr & Hnd) i Hi. destruct (lookup_lt_is_Some_2 l i) as [v Hv]; [lia|]. rewrite Hv.
    apply andb_true_iff. split.
    + rewrite Forall_lookup in Hr. specialize (Hr i v Hv). unfold valid_axis. lia.
    + apply negb_true_iff, not_true_iff_false. rewrite existsb_exists. intros (j & Hj & He%bool_decide_eq_true).
      apply list_elem_of_In, elem_of_seq in Hj. rewrite I32List_at in He.
      pose proof (NoDup_lookup _ _ _ _ Hnd Hv He). lia.
Qed.

(** [out] lists the extents of [dims] in the order of [perms]. *)
Definition transposed (dims perms out : list Z) : Prop :=
  length out = length dims /\
  forall i, (i < length dims)%nat -> at_ out i = at_ dims (Z.to_nat (at_ perms i)).

(** TRANSPOSE accepts exactly the permutations of the input's axes, and
    with one of them its shape rule never reads outside the dimensions and
    accepts exactly the permuted extents. *)
Theorem transpose_exact input output perms dims out : ranked input dims -> ranked output out ->
  zlen dims <= U32_MAX ->
  (valid_permutation (Some perms) (zlen dims) = true <-> perms ≡ₚ axes (length dims)) /\
  (perms ≡ₚ axes (length dims) ->
   exists b, transpose_shape input output (Some perms) = Some b /\ (b = true <-> transposed dims perms out)).
Proof.
  intros Hi Ho Hd. split; [apply valid_permutation_spec|]. intros (Hl & Hr & _)%permutation_axes.
  unfold transpose_shape. rewrite (ranked_rank _ _ Hi), (ranked_rank _ _ Ho). cbn [mbind option_bind].
  apply guarded; [intros (? & _); ranks_agree|]. intros E. rank_checks E. injection E as E.
  apply (pall_axes _ out (fun i => at_ out i = at_ dims (Z.to_nat (at_ perms i)))).
  { unfold transposed. replace (length dims) with (length out) by lia. naive_solver. }
  intros i Hi'. unfold list_at, same_dimension. rewrite I32List_at, (at_lookup perms i) by lia.
  cbn [mbind option_bind]. rewrite Forall_lookup in Hr. specialize (Hr i _ (at_lookup perms i ltac:(lia))).
  unfold as_unsigned. rewrite Z.mod_small by (unfold zlen in Hd; lia).
  destruct (ranked_dimension input dims (Z.to_nat (at_ perms i)) Hi) as [-> _]; [lia|].
  destruct (ranked_dimension output out i Ho Hi') as [-> _]. cbn [mbind option_bind].
  eexists. split; [done|]. rewrite Z.eqb_eq. naive_solver.
Qed.

Module RulesDemo.
Definition matrix (n : str) (dims : list Z) : WireTensor :=
  {| wt_name := Some n; wt_shape := Some dims; wt_type := DType.INT8; wt_data := None;
     wt_variable := false; wt_is_unranked := false; wt_variable_name := None;
     wt_offset := 0; wt_size := 0 |}.

Lemma matrix_ranked n dims : Forall (fun d => 1 <= d <= I32_MAX) dims -> ranked (matrix n dims) dims.
Proof. by repeat split. Qed.

Lemma broadcast_exact_witness : broadcasts [[3; 1]; [4]] [3; 4].
Proof.
  destruct (broadcast_exact [matrix [97] [3; 1]; matrix [98] [4]] [[3; 1]; [4]] (matrix [99] [3; 4]) [3; 4])
    as (b & Hb & Hiff).
  - repeat constructor; lia.
  - apply matrix_ranked. repeat constructor; lia.
  - apply Hiff. vm_compute in Hb. by injection Hb.
Defined.

Lemma window_output_exact_witness : 1 <= 4 <= I32_MAX /\ (4 - 1) * 2 + 3 = 1 + 7 + 1.
Proof. apply (window_output_exact 7 1 1 3 2 4); [lia|]. vm_compute. reflexivity. Defined.

Lemma transpose_exact_witness : transposed [2; 3; 5] [2; 0; 1] [5; 2; 3].
Proof.
  destruct (transpose_exact (matrix [97] [2; 3; 5]) (matrix [98] [5; 2; 3]) [2; 0; 1] [2; 3; 5] [5; 2; 3])
    as [Hp Ht].
  - apply matrix_ranked. repeat constructor; lia.
  - apply matrix_ranked. repeat constructor; lia.
  - vm_compute. discriminate.
  - destruct (Ht (proj1 Hp eq_refl)) as (b & Hb & Hiff). apply Hiff. vm_compute in Hb. by injection Hb.
Defined.
End RulesDemo.
