(* ===== verification/TosaAnalysis.v ===== *)
(** * The lowering plan

    crates/virtio-accel-tosa/src/analysis.rs: the indexed plan of a validated
    model.  A table index that is out of range or an [expect] on a missing
    symbol is a panic ([None]); whether a reservation succeeds is given by
    [alloc] on the site of the reservation (the block or operator and the
    position within the function). *)

From Stdlib Require Import ZArith Lia.
From stdpp Require Import prelude list sorting.
From S2P Require Import Prelude TosaTypes TosaNumeric TosaArtifact TosaWire TosaValidate TosaView TosaSemantic TosaFlow.

Inductive AnalysisError :=
  | Semantic (e : SemanticError)
  | AnalysisAllocationFailed
  | TooManyObjects.

(** A computation that may panic or fail. *)
Abbreviation plan A := (option (result A AnalysisError)).

(** [$name::from_usize] *)
Definition from_usize (value : nat) : result nat AnalysisError :=
  if Z.of_nat value <=? U32_MAX then Ok value else Err TooManyObjects.

(** [u32::try_from(..).map_err(|_| TooManyObjects)] *)
Definition position_u32 (value : nat) : result Z AnalysisError :=
  if Z.of_nat value <=? U32_MAX then Ok (Z.of_nat value) else Err TooManyObjects.

Record AnalysisSpan := { span_start : nat; span_len : nat }.

Definition AnalysisSpan_default : AnalysisSpan := {| span_start := 0; span_len := 0 |}.

Definition AnalysisSpan_new (start len : nat) : result AnalysisSpan AnalysisError :=
  let? start := from_usize start in
  let? len := from_usize len in
  Ok {| span_start := start; span_len := len |}.

(** [&table[span.range()]] *)
Definition span_slice {A} (s : AnalysisSpan) (table : list A) : option (list A) :=
  if (span_start s + span_len s <=? length table)%nat
  then Some (take (span_len s) (drop (span_start s) table)) else None.

Record AnalysisOptions := { max_folded_constant_bytes : Z }.
Definition AnalysisOptions_default : AnalysisOptions := {| max_folded_constant_bytes := 1024 * 1024 |}.

Inductive AnalyzedValueKind := KTensor (t : WireTensor) | KShape (s : WireShape).

Inductive ConstantState := NonConstant | Serialized | Foldable.
#[global] Instance ConstantState_eq_dec : EqDecision ConstantState.
Proof. solve_decision. Defined.

Record AnalyzedValue := {
  av_id : nat;
  av_block : nat;
  av_name : str;
  av_kind : AnalyzedValueKind;
  av_producer : option nat;
  av_constant : ConstantState;
  av_byte_size : option Z;
  av_consumers : Z;
  av_first_use : option Z;
  av_last_use : option Z;
}.

Inductive RuntimeCondition :=
  | DynamicCompileTimeInput (operator input_index value : nat) (required_error_check : bool)
  | ShiftInRange (operator value : nat) (maximum : Z)
  | NonZero (operator value : nat)
  | Int32MultiplyInRange (operator left_ right_ shift : nat)
  | PowDomain (operator base exponent : nat)
  | IndicesInRange (operator indices : nat) (upper_bound : Z)
  | ScatterIndicesUnique (operator indices : nat)
  | VariableState (operator value : nat)
  | CustomCondition (operator : nat) (domain name : str).

Definition error_detection_required (c : RuntimeCondition) : bool :=
  match c with DynamicCompileTimeInput _ _ _ true => true | _ => false end.

(** [OptimizationHints] *)
Module Hints.
Definition NONE : Z := 0.
Definition DEAD : Z := Z.shiftl 1 0.
Definition ALIAS_INPUT_ZERO : Z := Z.shiftl 1 1.
Definition FOLD_CONSTANT : Z := Z.shiftl 1 2.
Definition COMPOSE_RESHAPE : Z := Z.shiftl 1 3.
Definition COMPOSE_TRANSPOSE : Z := Z.shiftl 1 4.
Definition CUSTOM : Z := Z.shiftl 1 5.
Definition CONTROL_FLOW : Z := Z.shiftl 1 6.
Definition contains (a b : Z) : bool := Z.land a b =? b.
Definition with_hint (a b : Z) : Z := Z.lor a b.
End Hints.

Record AnalyzedOperator := {
  ao_id : nat;
  ao_block : nat;
  ao_source_index : Z;
  ao_execution_index : Z;
  ao_op : Z;
  ao_source : WireOperator;
  ao_inputs : AnalysisSpan;
  ao_outputs : AnalysisSpan;
  ao_conditions : AnalysisSpan;
  ao_hints : Z;
}.

Record AnalyzedBlock := {
  ab_id : nat;
  ab_region : nat;
  ab_name : str;
  ab_values : AnalysisSpan;
  ab_operators : AnalysisSpan;
  ab_inputs : AnalysisSpan;
  ab_outputs : AnalysisSpan;
  ab_execution_order : AnalysisSpan;
}.

Record AnalyzedRegion := { ar_id : nat; ar_name : str; ar_blocks : AnalysisSpan }.

Record TosaAnalysis := {
  ta_target : Target;
  ta_model_bytes : list Z;
  ta_regions : list AnalyzedRegion;
  ta_blocks : list AnalyzedBlock;
  ta_values : list AnalyzedValue;
  ta_operators : list AnalyzedOperator;
  ta_operands : list nat;
  ta_block_io : list nat;
  ta_execution_order : list nat;
  ta_conditions : list RuntimeCondition;
}.

(** ** Field updates *)

Definition set_regions (l : list AnalyzedRegion) (a : TosaAnalysis) : TosaAnalysis :=
  {| ta_target := ta_target a; ta_model_bytes := ta_model_bytes a; ta_regions := l; ta_blocks := ta_blocks a;
     ta_values := ta_values a; ta_operators := ta_operators a; ta_operands := ta_operands a;
     ta_block_io := ta_block_io a; ta_execution_order := ta_execution_order a; ta_conditions := ta_conditions a |}.
Definition set_blocks (l : list AnalyzedBlock) (a : TosaAnalysis) : TosaAnalysis :=
  {| ta_target := ta_target a; ta_model_bytes := ta_model_bytes a; ta_regions := ta_regions a; ta_blocks := l;
     ta_values := ta_values a; ta_operators := ta_operators a; ta_operands := ta_operands a;
     ta_block_io := ta_block_io a; ta_execution_order := ta_execution_order a; ta_conditions := ta_conditions a |}.
Definition set_values (l : list AnalyzedValue) (a : TosaAnalysis) : TosaAnalysis :=
  {| ta_target := ta_target a; ta_model_bytes := ta_model_bytes a; ta_regions := ta_regions a; ta_blocks := ta_blocks a;
     ta_values := l; ta_operators := ta_operators a; ta_operands := ta_operands a;
     ta_block_io := ta_block_io a; ta_execution_order := ta_execution_order a; ta_conditions := ta_conditions a |}.
Definition set_operators (l : list AnalyzedOperator) (a : TosaAnalysis) : TosaAnalysis :=
  {| ta_target := ta_target a; ta_model_bytes := ta_model_bytes a; ta_regions := ta_regions a; ta_blocks := ta_blocks a;
     ta_values := ta_values a; ta_operators := l; ta_operands := ta_operands a;
     ta_block_io := ta_block_io a; ta_execution_order := ta_execution_order a; ta_conditions := ta_conditions a |}.
Definition set_operands (l : list nat) (a : TosaAnalysis) : TosaAnalysis :=
  {| ta_target := ta_target a; ta_model_bytes := ta_model_bytes a; ta_regions := ta_regions a; ta_blocks := ta_blocks a;
     ta_values := ta_values a; ta_operators := ta_operators a; ta_operands := l;
     ta_block_io := ta_block_io a; ta_execution_order := ta_execution_order a; ta_conditions := ta_conditions a |}.
Definition set_block_io (l : list nat) (a : TosaAnalysis) : TosaAnalysis :=
  {| ta_target := ta_target a; ta_model_bytes := ta_model_bytes a; ta_regions := ta_regions a; ta_blocks := ta_blocks a;
     ta_values := ta_values a; ta_operators := ta_operators a; ta_operands := ta_operands a;
     ta_block_io := l; ta_execution_order := ta_execution_order a; ta_conditions := ta_conditions a |}.
Definition set_execution_order (l : list nat) (a : TosaAnalysis) : TosaAnalysis :=
  {| ta_target := ta_target a; ta_model_bytes := ta_model_bytes a; ta_regions := ta_regions a; ta_blocks := ta_blocks a;
     ta_values := ta_values a; ta_operators := ta_operators a; ta_operands := ta_operands a;
     ta_block_io := ta_block_io a; ta_execution_order := l; ta_conditions := ta_conditions a |}.
Definition set_conditions (l : list RuntimeCondition) (a : TosaAnalysis) : TosaAnalysis :=
  {| ta_target := ta_target a; ta_model_bytes := ta_model_bytes a; ta_regions := ta_regions a; ta_blocks := ta_blocks a;
     ta_values := ta_values a; ta_operators := ta_operators a; ta_operands := ta_operands a;
     ta_block_io := ta_block_io a; ta_execution_order := ta_execution_order a; ta_conditions := l |}.

Definition value_with_producer (p : option nat) (v : AnalyzedValue) : AnalyzedValue :=
  {| av_id := av_id v; av_block := av_block v; av_name := av_name v; av_kind := av_kind v; av_producer := p;
     av_constant := av_constant v; av_byte_size := av_byte_size v; av_consumers := av_consumers v;
     av_first_use := av_first_use v; av_last_use := av_last_use v |}.
Definition value_with_constant (c : ConstantState) (v : AnalyzedValue) : AnalyzedValue :=
  {| av_id := av_id v; av_block := av_block v; av_name := av_name v; av_kind := av_kind v;
     av_producer := av_producer v; av_constant := c; av_byte_size := av_byte_size v;
     av_consumers := av_consumers v; av_first_use := av_first_use v; av_last_use := av_last_use v |}.
Definition value_with_use (consumers : Z) (first last : option Z) (v : AnalyzedValue) : AnalyzedValue :=
  {| av_id := av_id v; av_block := av_block v; av_name := av_name v; av_kind := av_kind v;
     av_producer := av_producer v; av_constant := av_constant v; av_byte_size := av_byte_size v;
     av_consumers := consumers; av_first_use := first; av_last_use := last |}.

Definition operator_with_conditions (s : AnalysisSpan) (o : AnalyzedOperator) : AnalyzedOperator :=
  {| ao_id := ao_id o; ao_block := ao_block o; ao_source_index := ao_source_index o;
     ao_execution_index := ao_execution_index o; ao_op := ao_op o; ao_source := ao_source o;
     ao_inputs := ao_inputs o; ao_outputs := ao_outputs o; ao_conditions := s; ao_hints := ao_hints o |}.
Definition operator_with_position (p : Z) (o : AnalyzedOperator) : AnalyzedOperator :=
  {| ao_id := ao_id o; ao_block := ao_block o; ao_source_index := ao_source_index o;
     ao_execution_index := p; ao_op := ao_op o; ao_source := ao_source o;
     ao_inputs := ao_inputs o; ao_outputs := ao_outputs o; ao_conditions := ao_conditions o;
     ao_hints := ao_hints o |}.
Definition operator_with_hints (h : Z) (o : AnalyzedOperator) : AnalyzedOperator :=
  {| ao_id := ao_id o; ao_block := ao_block o; ao_source_index := ao_source_index o;
     ao_execution_index := ao_execution_index o; ao_op := ao_op o; ao_source := ao_source o;
     ao_inputs := ao_inputs o; ao_outputs := ao_outputs o; ao_conditions := ao_conditions o;
     ao_hints := h |}.

(** [table[index] = f(table[index])], a panic out of range *)
Definition update_at {A} (f : A -> A) (index : nat) (table : list A) : option (list A) :=
  x ← table !! index; Some (<[index := f x]> table).

(** ** Values and operators *)

Definition is_variable_value (v : AnalyzedValue) : bool :=
  match av_kind v with KTensor t => Tensor_is_variable t | KShape _ => false end.

Definition tensor_byte_size (t : WireTensor) : option Z :=
  _ ← Tensor_rank t;
  elements ← fold_left (fun count d => c ← count; if d <? 0 then None else checked_mul U64_MAX c d)
               (Tensor_dimensions t) (Some 1);
  let dtype := Tensor_dtype t in
  if dtype =? DType.INT4 then n ← checked_add U64_MAX elements 1; Some (n / 2) else
  bytes ← (if (dtype =? DType.BOOL) || (dtype =? DType.INT8) || (dtype =? DType.FP8E4M3) ||
              (dtype =? DType.FP8E5M2) then Some 1
           else if (dtype =? DType.INT16) || (dtype =? DType.FP16) || (dtype =? DType.BF16) then Some 2
           else if (dtype =? DType.INT32) || (dtype =? DType.FP32) then Some 4
           else if dtype =? DType.INT48 then Some 6 else None);
  checked_mul U64_MAX elements bytes.

Definition foldable_operator (op : Z) : bool :=
  existsb (Z.eqb op) [Op.IDENTITY; Op.RESHAPE; Op.TRANSPOSE; Op.REVERSE; Op.SLICE; Op.TILE; Op.CONCAT].

Definition has_side_effects (op : Z) : bool :=
  existsb (Z.eqb op) [Op.CUSTOM; Op.COND_IF; Op.WHILE_LOOP; Op.VARIABLE; Op.VARIABLE_READ; Op.VARIABLE_WRITE].

Definition ctc_inputs (op : Z) : list nat :=
  match op with
  | 2 => [1; 2]%nat | 3 | 4 | 5 | 10 => [3; 4]%nat | 7 => [2; 3]%nat | 28 => [2]%nat
  | 31 => [1]%nat | 41 => [1; 2]%nat | 56 => [1; 2]%nat | 57 => [1]%nat | 59 => [1; 2]%nat
  | 60 => [1]%nat | 64 => [1; 2; 3]%nat | 66 => [1; 2; 3; 4]%nat | _ => []
  end.

Definition dynamic_ctc_requires_error (op : Z) (input_index : nat) : bool :=
  match op with
  | 2 | 3 | 4 | 5 | 7 | 10 | 41 | 56 | 57 | 59 | 60 | 64 => true
  | 66 => (3 <=? input_index)%nat
  | _ => false
  end.

(** ** Runtime conditions *)

Section Conditions.
Context (alloc : nat -> bool) (target : Target) (operator : nat) (op : Z) (attributes : OpAttributes).
Context (inputs outputs : list nat) (values : list AnalyzedValue).

(** [conditions.try_reserve(1)] and [push]; the site is how many this operator
    has pushed. *)
Definition push_condition (c : RuntimeCondition) (pushed : list RuntimeCondition)
    : result (list RuntimeCondition) AnalysisError :=
  if alloc (length pushed) then Ok (pushed ++ [c]) else Err AnalysisAllocationFailed.

Fixpoint dynamic_conditions (indices : list nat) (pushed : list RuntimeCondition)
    : plan (list RuntimeCondition) :=
  match indices with
  | [] => Some (Ok pushed)
  | input_index :: indices =>
      value ← inputs !! input_index;
      v ← values !! value;
      if bool_decide (av_constant v <> Serialized) then
        let! pushed := Some (push_condition
          (DynamicCompileTimeInput operator input_index value (dynamic_ctc_requires_error op input_index))
          pushed) in
        dynamic_conditions indices pushed
      else dynamic_conditions indices pushed
  end.

(** The kind of the value behind an input. *)
Definition input_kind (index : nat) : option AnalyzedValueKind :=
  value ← inputs !! index; v ← values !! value; Some (av_kind v).

Definition kind_dtype_is (k : AnalyzedValueKind) (dtype : Z) : bool :=
  match k with KTensor t => Tensor_dtype t =? dtype | KShape _ => false end.

Definition operator_conditions (pushed : list RuntimeCondition) : plan (list RuntimeCondition) :=
  if (op =? Op.ARITHMETIC_RIGHT_SHIFT) || (op =? Op.LOGICAL_LEFT_SHIFT) || (op =? Op.LOGICAL_RIGHT_SHIFT) then
    kind ← input_kind 0;
    let maximum := if kind_dtype_is kind DType.INT32 then 31
                   else if kind_dtype_is kind DType.INT16 then 15 else 7 in
    value ← inputs !! 1%nat;
    Some (push_condition (ShiftInRange operator value maximum) pushed)
  else if op =? Op.INTDIV then
    value ← inputs !! 1%nat; Some (push_condition (NonZero operator value) pushed)
  else if op =? Op.MUL then
    kind ← input_kind 0;
    if kind_dtype_is kind DType.INT32 then
      l ← inputs !! 0%nat; r ← inputs !! 1%nat; s ← inputs !! 2%nat;
      Some (push_condition (Int32MultiplyInRange operator l r s) pushed)
    else Some (Ok pushed)
  else if op =? Op.POW then
    b ← inputs !! 0%nat; e ← inputs !! 1%nat; Some (push_condition (PowDomain operator b e) pushed)
  else if (op =? Op.GATHER) || (op =? Op.SCATTER) then
    kind ← input_kind 0;
    match kind with
    | KShape _ => None
    | KTensor data =>
        let upper_bound := as_unsigned 64 (default 0 (Tensor_dimensions data !! 1%nat)) in
        indices ← inputs !! 1%nat;
        let! pushed := Some (push_condition (IndicesInRange operator indices upper_bound) pushed) in
        if op =? Op.SCATTER then Some (push_condition (ScatterIndicesUnique operator indices) pushed)
        else Some (Ok pushed)
    end
  else if op =? Op.VARIABLE_WRITE then
    value ← inputs !! 0%nat; Some (push_condition (VariableState operator value) pushed)
  else if op =? Op.VARIABLE_READ then
    match outputs with
    | value :: _ => Some (push_condition (VariableState operator value) pushed)
    | [] => Some (Ok pushed)
    end
  else if op =? Op.CUSTOM then
    match attributes with
    | ACustom operator_name domain_name _ =>
        Some (push_condition (CustomCondition operator (default [] domain_name) (default [] operator_name)) pushed)
    | _ => None
    end
  else Some (Ok pushed).

(** [add_conditions]: what one operator adds. *)
Definition add_conditions : plan (list RuntimeCondition) :=
  let! pushed :=
    if ExtensionSet.contains (tgt_extensions target) ExtensionSet.DYNAMIC
    then dynamic_conditions (ctc_inputs op) [] else Some (Ok []) in
  operator_conditions pushed.
End Conditions.

(** ** [topological_order] *)

Section Topological.
Context (alloc : nat -> bool) (operator_start : nat) (values : list AnalyzedValue) (operands : list nat).

(** The inputs of one consumer. *)
Fixpoint consumer_edges (consumer : nat) (inputs : list nat) (edges : list (nat * nat)) (indegrees : list Z)
    : plan (list (nat * nat) * list Z) :=
  match inputs with
  | [] => Some (Ok (edges, indegrees))
  | value :: inputs =>
      v ← values !! value;
      match av_producer v with
      | None => consumer_edges consumer inputs edges indegrees
      | Some producer =>
          if (producer <? operator_start)%nat then Some (Err TooManyObjects) else
          let edges := edges ++ [((producer - operator_start)%nat, consumer)] in
          d ← indegrees !! consumer;
          match checked_add USIZE_MAX d 1 with
          | None => Some (Err TooManyObjects)
          | Some d => consumer_edges consumer inputs edges (<[consumer := d]> indegrees)
          end
      end
  end.

Fixpoint all_edges (spans : list AnalysisSpan) (consumer : nat) (edges : list (nat * nat)) (indegrees : list Z)
    : plan (list (nat * nat) * list Z) :=
  match spans with
  | [] => Some (Ok (edges, indegrees))
  | span :: spans =>
      inputs ← span_slice span operands;
      let! (edges, indegrees) := consumer_edges consumer inputs edges indegrees in
      all_edges spans (S consumer) edges indegrees
  end.

Definition edge_count (spans : list AnalysisSpan) : option Z :=
  fold_left (fun count span => c ← count; checked_add USIZE_MAX c (Z.of_nat (span_len span))) spans (Some 0).

Definition topological_order (spans : list AnalysisSpan) (operator_count : nat) : plan (list nat) :=
  if negb (alloc 0%nat) then Some (Err AnalysisAllocationFailed) else
  match edge_count spans with
  | None => Some (Err TooManyObjects)
  | Some _ =>
      if negb (alloc 1%nat) then Some (Err AnalysisAllocationFailed) else
      let! (edges, indegrees) := all_edges spans 0 [] (replicate operator_count 0) in
      if negb (alloc 2%nat) then Some (Err AnalysisAllocationFailed) else
      order ← ready_order operator_count (sort_edges edges) indegrees (initially_ready indegrees) 0;
      if bool_decide (length order = operator_count) then Some (Ok order) else Some (Err TooManyObjects)
  end.
End Topological.

(** * Building the lowering plan

    crates/virtio-accel-tosa/src/analysis.rs: [Builder] and
    [TosaAnalysis::build_with_options].  Every step takes the plan so far and
    returns the plan after it. *)

(** ** Values of a block *)

Definition new_value (id block : nat) (name : str) (kind : AnalyzedValueKind) (byte_size : option Z)
    : AnalyzedValue :=
  {| av_id := id; av_block := block; av_name := name; av_kind := kind; av_producer := None;
     av_constant := NonConstant; av_byte_size := byte_size; av_consumers := 0; av_first_use := None;
     av_last_use := None |}.

Fixpoint push_tensors (block : nat) (tensors : list WireTensor) (a : TosaAnalysis) (symbols : list (str * nat))
    : plan (TosaAnalysis * list (str * nat)) :=
  match tensors with
  | [] => Some (Ok (a, symbols))
  | t :: tensors =>
      let! id := Some (from_usize (length (ta_values a))) in
      name ← Tensor_name t;
      let a := set_values (ta_values a ++ [new_value id block name (KTensor t) (tensor_byte_size t)]) a in
      push_tensors block tensors a (symbols ++ [(name, id)])
  end.

Fixpoint push_shapes (block : nat) (shapes : list WireShape) (a : TosaAnalysis) (symbols : list (str * nat))
    : plan (TosaAnalysis * list (str * nat)) :=
  match shapes with
  | [] => Some (Ok (a, symbols))
  | s :: shapes =>
      let! id := Some (from_usize (length (ta_values a))) in
      name ← Shape_name s;
      let a := set_values (ta_values a ++ [new_value id block name (KShape s) (Some (Shape_rank s * 8))]) a in
      push_shapes block shapes a (symbols ++ [(name, id)])
  end.

(** [self.analysis.block_io.push(resolve(&symbols, name))] *)
Fixpoint push_block_io (symbols : list (str * nat)) (names : list str) (a : TosaAnalysis) : option TosaAnalysis :=
  match names with
  | [] => Some a
  | name :: names =>
      value ← search_by_name symbols name;
      push_block_io symbols names (set_block_io (ta_block_io a ++ [value]) a)
  end.

(** ** Operators of a block *)

Fixpoint push_inputs (symbols : list (str * nat)) (names : list str) (a : TosaAnalysis) : option TosaAnalysis :=
  match names with
  | [] => Some a
  | name :: names =>
      value ← search_by_name symbols name;
      push_inputs symbols names (set_operands (ta_operands a ++ [value]) a)
  end.

Fixpoint push_outputs (symbols : list (str * nat)) (id : nat) (names : list str) (a : TosaAnalysis)
    : option TosaAnalysis :=
  match names with
  | [] => Some a
  | name :: names =>
      value ← search_by_name symbols name;
      let a := set_operands (ta_operands a ++ [value]) a in
      v ← ta_values a !! value;
      let a := if is_variable_value v then a
               else set_values (<[value := value_with_producer (Some id) v]> (ta_values a)) a in
      push_outputs symbols id names a
  end.

(** [values[value].constant = state] for every listed value *)
Fixpoint mark_constants (state : ConstantState) (ids : list nat) (values : list AnalyzedValue)
    : option (list AnalyzedValue) :=
  match ids with
  | [] => Some values
  | id :: ids =>
      values ← update_at (value_with_constant state) id values;
      mark_constants state ids values
  end.

Definition push_operator (symbols : list (str * nat)) (block source_index : nat) (operator : WireOperator)
    (a : TosaAnalysis) : plan (TosaAnalysis * AnalysisSpan) :=
  let! id := Some (from_usize (length (ta_operators a))) in
  let inputs_start := length (ta_operands a) in
  a ← push_inputs symbols (items (wo_inputs operator)) a;
  let! inputs := Some (AnalysisSpan_new inputs_start (length (ta_operands a) - inputs_start)) in
  let outputs_start := length (ta_operands a) in
  a ← push_outputs symbols id (items (wo_outputs operator)) a;
  let! outputs := Some (AnalysisSpan_new outputs_start (length (ta_operands a) - outputs_start)) in
  a ← (if is_constant_op operator then
         ids ← span_slice outputs (ta_operands a);
         values ← mark_constants Serialized ids (ta_values a);
         Some (set_values values a)
       else Some a);
  let! source := Some (position_u32 source_index) in
  Some (Ok (set_operators (ta_operators a ++
    [{| ao_id := id; ao_block := block; ao_source_index := source; ao_execution_index := 0;
        ao_op := Operator_op operator; ao_source := operator; ao_inputs := inputs; ao_outputs := outputs;
        ao_conditions := AnalysisSpan_default; ao_hints := Hints.NONE |}]) a, inputs)).

Fixpoint push_operators (symbols : list (str * nat)) (block : nat) (operators : list WireOperator)
    (source_index : nat) (a : TosaAnalysis) (local_inputs : list AnalysisSpan)
    : plan (TosaAnalysis * list AnalysisSpan) :=
  match operators with
  | [] => Some (Ok (a, local_inputs))
  | operator :: operators =>
      let! (a, inputs) := push_operator symbols block source_index operator a in
      push_operators symbols block operators (S source_index) a (local_inputs ++ [inputs])
  end.

Section Building.
Context (alloc : list nat -> bool) (m : Model) (target : Target) (options : AnalysisOptions).

Fixpoint push_conditions (operators : list WireOperator) (operator_index : nat) (a : TosaAnalysis)
    : plan TosaAnalysis :=
  match operators with
  | [] => Some (Ok a)
  | operator :: operators =>
      analyzed ← ta_operators a !! operator_index;
      let condition_start := length (ta_conditions a) in
      attributes ← Operator_attributes operator;
      inputs ← span_slice (ao_inputs analyzed) (ta_operands a);
      outputs ← span_slice (ao_outputs analyzed) (ta_operands a);
      let! added := add_conditions (fun k => alloc [operator_index; k; 0]%nat) target (ao_id analyzed)
                      (ao_op analyzed) attributes inputs outputs (ta_values a) in
      let a := set_conditions (ta_conditions a ++ added) a in
      let! span := Some (AnalysisSpan_new condition_start (length (ta_conditions a) - condition_start)) in
      operators' ← update_at (operator_with_conditions span) operator_index (ta_operators a);
      push_conditions operators (S operator_index) (set_operators operators' a)
  end.

(** ** The execution pass *)

(** One read of a value at an execution position. *)
Fixpoint record_uses (position : nat) (ids : list nat) (values : list AnalyzedValue)
    : plan (list AnalyzedValue) :=
  match ids with
  | [] => Some (Ok values)
  | id :: ids =>
      v ← values !! id;
      match checked_add U32_MAX (av_consumers v) 1 with
      | None => Some (Err TooManyObjects)
      | Some consumers =>
          let! position' := Some (position_u32 position) in
          let first := match av_first_use v with Some f => Some f | None => Some position' end in
          record_uses position ids (<[id := value_with_use consumers first (Some position') v]> values)
      end
  end.

(** [values.iter().all(|value| values[value].constant != NonConstant)] *)
Definition all_constants (ids : list nat) (values : list AnalyzedValue) : option bool :=
  pall (fun id => v ← values !! id; Some (bool_decide (av_constant v <> NonConstant))) ids.

(** The bytes of the outputs; the inner [None] is an unknown or overflowing
    total. *)
Fixpoint total_bytes (ids : list nat) (values : list AnalyzedValue) (total : Z) : option (option Z) :=
  match ids with
  | [] => Some (Some total)
  | id :: ids =>
      v ← values !! id;
      match size ← av_byte_size v; checked_add U64_MAX total size with
      | None => Some None
      | Some total => total_bytes ids values total
      end
  end.

Definition propagate_constants (operator_index : nat) (a : TosaAnalysis) : option TosaAnalysis :=
  operator ← ta_operators a !! operator_index;
  if negb (foldable_operator (ao_op operator)) then Some a else
  inputs ← span_slice (ao_inputs operator) (ta_operands a);
  constant ← all_constants inputs (ta_values a);
  if negb constant then Some a else
  outputs ← span_slice (ao_outputs operator) (ta_operands a);
  total ← total_bytes outputs (ta_values a) 0;
  match total with
  | Some bytes =>
      if bytes <=? max_folded_constant_bytes options then
        operators ← update_at (fun o => operator_with_hints (Hints.with_hint (ao_hints o) Hints.FOLD_CONSTANT) o)
                      operator_index (ta_operators a);
        values ← mark_constants Foldable outputs (ta_values a);
        Some (set_values values (set_operators operators a))
      else Some a
  | None => Some a
  end.

Fixpoint execute_order (operator_start : nat) (order : list nat) (position : nat) (a : TosaAnalysis)
    : plan TosaAnalysis :=
  match order with
  | [] => Some (Ok a)
  | local_index :: order =>
      let operator_index := (operator_start + local_index)%nat in
      operator ← ta_operators a !! operator_index;
      let! position' := Some (position_u32 position) in
      operators ← update_at (operator_with_position position') operator_index (ta_operators a);
      let a := set_execution_order (ta_execution_order a ++ [ao_id operator]) (set_operators operators a) in
      inputs ← span_slice (ao_inputs operator) (ta_operands a);
      let! values := record_uses position inputs (ta_values a) in
      a ← propagate_constants operator_index (set_values values a);
      execute_order operator_start order (S position) a
  end.

(** Block outputs stay live to the end. *)
Fixpoint extend_outputs (block_end : Z) (ids : list nat) (values : list AnalyzedValue)
    : option (list AnalyzedValue) :=
  match ids with
  | [] => Some values
  | id :: ids =>
      values ← update_at (fun v => value_with_use (av_consumers v) (av_first_use v) (Some block_end) v) id values;
      extend_outputs block_end ids values
  end.

(** ** Liveness and hints *)

(** [live[producer.index() - operator_start] = true] *)
Definition mark_producer (operator_start : nat) (values : list AnalyzedValue) (live : list bool) (id : nat)
    : option (list bool) :=
  v ← values !! id;
  match av_producer v with
  | None => Some live
  | Some producer =>
      if (producer <? operator_start)%nat then None else
      update_at (fun _ => true) (producer - operator_start) live
  end.

Fixpoint mark_producers (operator_start : nat) (values : list AnalyzedValue) (ids : list nat) (live : list bool)
    : option (list bool) :=
  match ids with
  | [] => Some live
  | id :: ids => live ← mark_producer operator_start values live id; mark_producers operator_start values ids live
  end.

Fixpoint mark_effects (operator_start : nat) (operators : list AnalyzedOperator) (order : list nat)
    (live : list bool) : option (list bool) :=
  match order with
  | [] => Some live
  | local_index :: order =>
      operator ← operators !! (operator_start + local_index)%nat;
      live ← (if has_side_effects (ao_op operator) then update_at (fun _ => true) local_index live else Some live);
      mark_effects operator_start operators order live
  end.

(** The walk over the reversed order. *)
Fixpoint mark_dead (operator_start : nat) (order : list nat) (live : list bool) (a : TosaAnalysis)
    : option TosaAnalysis :=
  match order with
  | [] => Some a
  | local_index :: order =>
      let operator_index := (operator_start + local_index)%nat in
      alive ← live !! local_index;
      if alive : bool then
        operator ← ta_operators a !! operator_index;
        inputs ← span_slice (ao_inputs operator) (ta_operands a);
        live ← mark_producers operator_start (ta_values a) inputs live;
        mark_dead operator_start order live a
      else
        operators ← update_at (fun o => operator_with_hints (Hints.with_hint (ao_hints o) Hints.DEAD) o)
                      operator_index (ta_operators a);
        mark_dead operator_start order live (set_operators operators a)
  end.

(** The remaining hints of one operator. *)
Definition composed_hints (operator : AnalyzedOperator) (inputs : list nat) (a : TosaAnalysis) (hints : Z)
    : option Z :=
  match inputs with
  | [] => Some hints
  | input :: _ =>
      v ← ta_values a !! input;
      if negb (av_consumers v =? 1) then Some hints else
      match av_producer v with
      | None => Some hints
      | Some producer =>
          p ← ta_operators a !! producer;
          let hints := if (ao_op operator =? Op.RESHAPE) && (ao_op p =? Op.RESHAPE)
                       then Hints.with_hint hints Hints.COMPOSE_RESHAPE else hints in
          Some (if (ao_op operator =? Op.TRANSPOSE) && (ao_op p =? Op.TRANSPOSE)
                then Hints.with_hint hints Hints.COMPOSE_TRANSPOSE else hints)
      end
  end.

Definition operator_hints (operator : AnalyzedOperator) (a : TosaAnalysis) : option Z :=
  let hints := ao_hints operator in
  let hints := if (ao_op operator =? Op.IDENTITY) || (ao_op operator =? Op.RESHAPE)
               then Hints.with_hint hints Hints.ALIAS_INPUT_ZERO else hints in
  let hints := if ao_op operator =? Op.CUSTOM then Hints.with_hint hints Hints.CUSTOM else hints in
  let hints := if (ao_op operator =? Op.COND_IF) || (ao_op operator =? Op.WHILE_LOOP)
               then Hints.with_hint hints Hints.CONTROL_FLOW else hints in
  inputs ← span_slice (ao_inputs operator) (ta_operands a);
  composed_hints operator inputs a hints.

Fixpoint add_hints (operator_start : nat) (order : list nat) (a : TosaAnalysis) : option TosaAnalysis :=
  match order with
  | [] => Some a
  | local_index :: order =>
      let operator_index := (operator_start + local_index)%nat in
      operator ← ta_operators a !! operator_index;
      hints ← operator_hints operator a;
      add_hints operator_start order
        (set_operators (<[operator_index := operator_with_hints hints operator]> (ta_operators a)) a)
  end.

Definition mark_live_and_hints (block operator_start : nat) (order : list nat) (block_outputs : list nat)
    (a : TosaAnalysis) : plan TosaAnalysis :=
  if negb (alloc [block; 7]%nat) then Some (Err AnalysisAllocationFailed) else
  live ← mark_producers operator_start (ta_values a) block_outputs (replicate (length order) false);
  live ← mark_effects operator_start (ta_operators a) order live;
  a ← mark_dead operator_start (rev order) live a;
  a ← add_hints operator_start order a;
  Some (Ok a).

(** ** [build_block] *)

Definition build_block (region_id : nat) (block : WireBlock) (a : TosaAnalysis) : plan TosaAnalysis :=
  let! block_id := Some (from_usize (length (ta_blocks a))) in
  let value_start := length (ta_values a) in
  let operator_start := length (ta_operators a) in
  if negb (alloc [block_id; 0]%nat) then Some (Err AnalysisAllocationFailed) else
  let! (a, symbols) := push_tensors block_id (items (wb_tensors block)) a [] in
  let! (a, symbols) := push_shapes block_id (items (wb_shapes block)) a symbols in
  let symbols := sort_by_name symbols in
  let input_start := length (ta_block_io a) in
  a ← push_block_io symbols (items (wb_inputs block)) a;
  let! input_span := Some (AnalysisSpan_new input_start (length (ta_block_io a) - input_start)) in
  let output_start := length (ta_block_io a) in
  a ← push_block_io symbols (items (wb_outputs block)) a;
  let! output_span := Some (AnalysisSpan_new output_start (length (ta_block_io a) - output_start)) in
  let operators := items (wb_operators block) in
  let local_operator_count := length operators in
  if negb (alloc [block_id; 1]%nat) || negb (alloc [block_id; 2]%nat)
  then Some (Err AnalysisAllocationFailed) else
  let! (a, local_inputs) := push_operators symbols block_id operators 0 a [] in
  let! a := push_conditions operators operator_start a in
  let! order := topological_order (fun k => alloc [block_id; (3 + k)%nat]) operator_start (ta_values a)
                  (ta_operands a) local_inputs local_operator_count in
  let execution_start := length (ta_execution_order a) in
  let! a := execute_order operator_start order 0 a in
  let! block_end := Some (position_u32 local_operator_count) in
  output_values ← span_slice output_span (ta_block_io a);
  values ← extend_outputs block_end output_values (ta_values a);
  let a := set_values values a in
  if negb (alloc [block_id; 6]%nat) then Some (Err AnalysisAllocationFailed) else
  let! a := mark_live_and_hints block_id operator_start order output_values a in
  name ← BasicBlock_name block;
  let! values_span := Some (AnalysisSpan_new value_start (length (ta_values a) - value_start)) in
  let! operators_span := Some (AnalysisSpan_new operator_start (length (ta_operators a) - operator_start)) in
  let! order_span := Some (AnalysisSpan_new execution_start (length (ta_execution_order a) - execution_start)) in
  Some (Ok (set_blocks (ta_blocks a ++
    [{| ab_id := block_id; ab_region := region_id; ab_name := name; ab_values := values_span;
        ab_operators := operators_span; ab_inputs := input_span; ab_outputs := output_span;
        ab_execution_order := order_span |}]) a)).

Fixpoint build_blocks (region_id : nat) (blocks : list WireBlock) (a : TosaAnalysis) : plan TosaAnalysis :=
  match blocks with
  | [] => Some (Ok a)
  | block :: blocks => let! a := build_block region_id block a in build_blocks region_id blocks a
  end.

Fixpoint build_regions (regions : list WireRegion) (a : TosaAnalysis) : plan TosaAnalysis :=
  match regions with
  | [] => Some (Ok a)
  | region :: regions =>
      let! region_id := Some (from_usize (length (ta_regions a))) in
      let block_start := length (ta_blocks a) in
      let! a := build_blocks region_id (items (wr_blocks region)) a in
      name ← Region_name region;
      let! span := Some (AnalysisSpan_new block_start (length (ta_blocks a) - block_start)) in
      build_regions regions
        (set_regions (ta_regions a ++ [{| ar_id := region_id; ar_name := name; ar_blocks := span |}]) a)
  end.

Definition Builder_new : TosaAnalysis :=
  {| ta_target := target; ta_model_bytes := mo_bytes m; ta_regions := []; ta_blocks := []; ta_values := [];
     ta_operators := []; ta_operands := []; ta_block_io := []; ta_execution_order := []; ta_conditions := [] |}.

(** [Builder::build]: the sum of the counts is checked by the parser's limits. *)
Definition Builder_build : plan TosaAnalysis :=
  if negb (forallb (fun k => alloc [k]) (seq 0 7)) then Some (Err AnalysisAllocationFailed) else
  build_regions (model_regions m) Builder_new.

(** [TosaAnalysis::build_with_options] *)
Definition build_with_options (semantic_alloc : list nat -> bool) : plan TosaAnalysis :=
  r ← validate_semantics semantic_alloc m target;
  match r with
  | Err e => Some (Err (Semantic e))
  | Ok _ => Builder_build
  end.
End Building.

Definition build (alloc semantic_alloc : list nat -> bool) (m : Model) (target : Target) : plan TosaAnalysis :=
  build_with_options alloc m target AnalysisOptions_default semantic_alloc.

(** ** Reading a plan *)

Definition analysis_value (a : TosaAnalysis) (id : nat) : option AnalyzedValue := ta_values a !! id.
Definition analysis_operator (a : TosaAnalysis) (id : nat) : option AnalyzedOperator := ta_operators a !! id.

Definition operator_inputs (a : TosaAnalysis) (id : nat) : option (list nat) :=
  o ← analysis_operator a id; span_slice (ao_inputs o) (ta_operands a).
Definition operator_outputs (a : TosaAnalysis) (id : nat) : option (list nat) :=
  o ← analysis_operator a id; span_slice (ao_outputs o) (ta_operands a).
Definition conditions_of (a : TosaAnalysis) (id : nat) : option (list RuntimeCondition) :=
  o ← analysis_operator a id; span_slice (ao_conditions o) (ta_conditions a).

Definition block_values_of (a : TosaAnalysis) (id : nat) : option (list AnalyzedValue) :=
  ab ← ta_blocks a !! id; span_slice (ab_values ab) (ta_values a).
Definition block_operators (a : TosaAnalysis) (id : nat) : option (list AnalyzedOperator) :=
  ab ← ta_blocks a !! id; span_slice (ab_operators ab) (ta_operators a).
Definition block_inputs (a : TosaAnalysis) (id : nat) : option (list nat) :=
  ab ← ta_blocks a !! id; span_slice (ab_inputs ab) (ta_block_io a).
Definition block_outputs (a : TosaAnalysis) (id : nat) : option (list nat) :=
  ab ← ta_blocks a !! id; span_slice (ab_outputs ab) (ta_block_io a).
Definition execution_order (a : TosaAnalysis) (id : nat) : option (list nat) :=
  ab ← ta_blocks a !! id; span_slice (ab_execution_order ab) (ta_execution_order a).
Definition region_blocks (a : TosaAnalysis) (id : nat) : option (list AnalyzedBlock) :=
  ar ← ta_regions a !! id; span_slice (ar_blocks ar) (ta_blocks a).

(** [serialized_constant]; the outer [option] is the panic of the index. *)
Definition serialized_constant (a : TosaAnalysis) (id : nat) : option (option (list Z)) :=
  value ← analysis_value a id;
  if negb (bool_decide (av_constant value = Serialized)) then Some None else
  match av_kind value with
  | KTensor tensor =>
      if negb (zlen (Tensor_data tensor) =? 0) then Some (Some (Tensor_data tensor)) else
      Some (range ← Tensor_external_data_range tensor;
            end_ ← checked_add USIZE_MAX range.1 range.2;
            if end_ <=? zlen (ta_model_bytes a) then Some (slice range.1 range.2 (ta_model_bytes a)) else None)
  | KShape shape => Some (Some (Shape_data shape))
  end.
