(* ===== verification/TosaPlanOrder.v ===== *)
(** * The values and operators of a planned block

    What [push_tensors], [push_shapes], [push_operators] and
    [push_conditions] leave in the plan: every symbol of the block has a value
    in its slot, with the operator that produces it, and every operator has
    spans that resolve its operands. *)

From Stdlib Require Import ZArith Lia.
From stdpp Require Import prelude list sorting.
From S2P Require Import Prelude TosaTypes TosaNumeric TosaArtifact TosaWire TosaValidate TosaGraph TosaView TosaSemantic TosaFlow TosaDataflow TosaAnalysis.

(** ** Spans *)

Lemma span_new_ok start len : Z.of_nat start <= U32_MAX -> Z.of_nat len <= U32_MAX ->
  AnalysisSpan_new start len = Ok {| span_start := start; span_len := len |}.
Proof.
  intros H1 H2. unfold AnalysisSpan_new, from_usize.
  rewrite !(proj2 (Z.leb_le _ _)) by done. done.
Qed.

Lemma from_usize_ok n : Z.of_nat n <= U32_MAX -> from_usize n = Ok n.
Proof. intros H. unfold from_usize. by rewrite (proj2 (Z.leb_le _ _)). Qed.

Lemma position_ok n : Z.of_nat n <= U32_MAX -> position_u32 n = Ok (Z.of_nat n).
Proof. intros H. unfold position_u32. by rewrite (proj2 (Z.leb_le _ _)). Qed.

Lemma span_slice_app {A} s (l k x : list A) : span_slice s l = Some x -> span_slice s (l ++ k) = Some x.
Proof.
  unfold span_slice. destruct (Nat.leb_spec (span_start s + span_len s) (length l)) as [H|H]; [|done].
  intros [= <-]. rewrite (proj2 (Nat.leb_le _ _)) by (rewrite length_app; lia). f_equal.
  rewrite drop_app_le by lia. rewrite take_app_le; [done|]. rewrite length_drop. lia.
Qed.

(** The span of what was just appended. *)
Lemma span_slice_new {A} (l k : list A) :
  span_slice {| span_start := length l; span_len := length k |} (l ++ k) = Some k.
Proof.
  unfold span_slice. cbn [span_start span_len]. rewrite (proj2 (Nat.leb_le _ _)) by (rewrite length_app; lia).
  by rewrite drop_app_length, take_ge.
Qed.

(** ** Numbered names *)

Fixpoint number (k : nat) (names : list str) : list (str * nat) :=
  match names with
  | [] => []
  | n :: names => (n, k) :: number (S k) names
  end.

Lemma fst_number k names : fst <$> number k names = names.
Proof. revert k. induction names as [|n names IH]; intros k; [done|]. cbn [number]. by rewrite fmap_cons, IH. Qed.

Lemma elem_of_number k names n id : (n, id) ∈ number k names <-> exists i, names !! i = Some n /\ id = (k + i)%nat.
Proof.
  revert k. induction names as [|x names IH]; intros k; cbn [number].
  - split; [by intros ?%elem_of_nil|]. by intros (i & Hi & _).
  - rewrite elem_of_cons, IH. split.
    + intros [[= -> ->]|(i & Hi & ->)]; [exists O|exists (S i)]; (split; [done|lia]).
    + intros ([|i] & Hi & ->); simpl in Hi; [left; simplify_eq; f_equal; lia|].
      right. exists i. split; [done|lia].
Qed.

Lemma number_app k xs ys : number k (xs ++ ys) = number k xs ++ number (k + length xs) ys.
Proof.
  revert k. induction xs as [|x xs IH]; intros k; cbn [number app length]; [by rewrite Nat.add_0_r|].
  rewrite IH. do 2 f_equal. f_equal. lia.
Qed.

(** ** Values of tensors and shapes *)

Fixpoint tensor_values (block k : nat) (ts : list WireTensor) : list AnalyzedValue :=
  match ts with
  | [] => []
  | t :: ts => new_value k block (the_name (wt_name t)) (KTensor t) (tensor_byte_size t) :: tensor_values block (S k) ts
  end.

Fixpoint shape_values_of (block k : nat) (ss : list WireShape) : list AnalyzedValue :=
  match ss with
  | [] => []
  | s :: ss => new_value k block (the_name (ws_name s)) (KShape s) (Some (Shape_rank s * 8)) :: shape_values_of block (S k) ss
  end.

Lemma length_tensor_values block k ts : length (tensor_values block k ts) = length ts.
Proof. revert k. induction ts as [|t ts IH]; intros k; simpl; [done|]. by rewrite IH. Qed.
Lemma length_shape_values block k ss : length (shape_values_of block k ss) = length ss.
Proof. revert k. induction ss as [|s ss IH]; intros k; simpl; [done|]. by rewrite IH. Qed.

Lemma tensor_values_at block k ts i t : ts !! i = Some t ->
  tensor_values block k ts !! i = Some (new_value (k + i) block (the_name (wt_name t)) (KTensor t) (tensor_byte_size t)).
Proof.
  revert k i. induction ts as [|x ts IH]; intros k [|i] Hi; simpl in *; simplify_eq; [by rewrite Nat.add_0_r|].
  rewrite (IH (S k) i Hi). do 2 f_equal. lia.
Qed.

Lemma shape_values_at block k ss i s : ss !! i = Some s ->
  shape_values_of block k ss !! i =
    Some (new_value (k + i) block (the_name (ws_name s)) (KShape s) (Some (Shape_rank s * 8))).
Proof.
  revert k i. induction ss as [|x ss IH]; intros k [|i] Hi; simpl in *; simplify_eq; [by rewrite Nat.add_0_r|].
  rewrite (IH (S k) i Hi). do 2 f_equal. lia.
Qed.

Lemma push_tensors_spec block ts a syms : Forall (fun t => is_Some (wt_name t)) ts ->
  Z.of_nat (length (ta_values a) + length ts) <= U32_MAX ->
  push_tensors block ts a syms =
    Some (Ok (set_values (ta_values a ++ tensor_values block (length (ta_values a)) ts) a,
              syms ++ number (length (ta_values a)) ((fun t => the_name (wt_name t)) <$> ts))).
Proof.
  intros Hn. revert a syms. induction Hn as [|t ts [n Hn] _ IH]; intros a syms Hs.
  { simpl. rewrite !app_nil_r. by destruct a. }
  cbn [push_tensors length] in *. rewrite from_usize_ok by lia. unfold Tensor_name. rewrite Hn. cbn [mbind option_bind].
  rewrite IH; cbn [ta_values set_values]; rewrite length_app; simpl; [|lia].
  rewrite Hn, <- !app_assoc. cbn [app]. replace (length (ta_values a) + 1)%nat with (S (length (ta_values a))) by lia. done.
Qed.

Lemma push_shapes_spec block ss a syms : Forall (fun s => is_Some (ws_name s)) ss ->
  Z.of_nat (length (ta_values a) + length ss) <= U32_MAX ->
  push_shapes block ss a syms =
    Some (Ok (set_values (ta_values a ++ shape_values_of block (length (ta_values a)) ss) a,
              syms ++ number (length (ta_values a)) ((fun s => the_name (ws_name s)) <$> ss))).
Proof.
  intros Hn. revert a syms. induction Hn as [|s ss [n Hn] _ IH]; intros a syms Hs.
  { simpl. rewrite !app_nil_r. by destruct a. }
  cbn [push_shapes length] in *. rewrite from_usize_ok by lia. unfold Shape_name. rewrite Hn. cbn [mbind option_bind].
  rewrite IH; cbn [ta_values set_values]; rewrite length_app; simpl; [|lia].
  rewrite Hn, <- !app_assoc. cbn [app]. replace (length (ta_values a) + 1)%nat with (S (length (ta_values a))) by lia. done.
Qed.

(** ** Slots of a block *)

Section Slots.
Context (b : WireBlock) (base ostart : nat).
Hypothesis Hnd : NoDup (symbols b).

Abbreviation table := (sort_by_name (number base (symbols b))).

Lemma table_spec n id : search_by_name table n = Some id <-> exists i, symbols b !! i = Some n /\ id = (base + i)%nat.
Proof.
  rewrite search_by_name_unique; [by rewrite sort_by_name_perm, elem_of_number|apply sort_by_name_sorted|].
  by rewrite sort_by_name_perm, fst_number.
Qed.

Definition slot (n : str) : nat := default O (search_by_name table n).

Lemma slot_spec n : n ∈ symbols b ->
  search_by_name table n = Some (slot n) /\ (base <= slot n < base + length (symbols b))%nat.
Proof.
  intros [i Hi]%list_elem_of_lookup. unfold slot.
  assert (search_by_name table n = Some (base + i)%nat) as -> by (apply table_spec; eauto).
  apply lookup_lt_Some in Hi. simpl. split; [done|lia].
Qed.

Lemma slot_at i n : symbols b !! i = Some n -> slot n = (base + i)%nat.
Proof. intros Hi. unfold slot. by rewrite (proj2 (table_spec n (base + i)%nat) (ex_intro _ i (conj Hi eq_refl))). Qed.

Lemma slot_inj m n : m ∈ symbols b -> n ∈ symbols b -> slot m = slot n -> m = n.
Proof.
  intros [i Hi]%list_elem_of_lookup [j Hj]%list_elem_of_lookup. rewrite (slot_at i m Hi), (slot_at j n Hj).
  intros E. assert (i = j) as -> by lia. congruence.
Qed.

(** Every symbol has a value in its slot, which satisfies [P]. *)
Definition values_are (P : str -> AnalyzedValue -> Prop) (vs : list AnalyzedValue) : Prop :=
  length vs = (base + length (symbols b))%nat /\
  forall n, n ∈ symbols b -> exists v, vs !! slot n = Some v /\ P n v.

Lemma values_are_impl P Q vs : (forall n v, P n v -> Q n v) -> values_are P vs -> values_are Q vs.
Proof. intros H [Hl Hv]. split; [done|]. intros n Hn. destruct (Hv n Hn) as (v & ? & ?). eauto. Qed.

Lemma values_are_insert P (Q : str -> AnalyzedValue -> Prop) vs n w : values_are P vs -> n ∈ symbols b ->
  Q n w -> (forall m v, m <> n -> P m v -> Q m v) -> values_are Q (<[slot n := w]> vs).
Proof.
  intros [Hl Hv] Hn Hw Hother. split; [by rewrite length_insert|]. intros m Hm.
  destruct (decide (m = n)) as [->|Hne].
  - exists w. rewrite list_lookup_insert_eq; [done|]. destruct (slot_spec n Hn). lia.
  - destruct (Hv m Hm) as (v & Hvm & HP). exists v. rewrite list_lookup_insert_ne; [eauto|].
    intros E. apply Hne. by apply slot_inj.
Qed.

(** Marking constants changes nothing else. *)
Lemma mark_constants_are P st names vs : (forall n v, P n v -> P n (value_with_constant st v)) ->
  Forall (fun n => n ∈ symbols b) names -> values_are P vs ->
  exists vs', mark_constants st (slot <$> names) vs = Some vs' /\ values_are P vs'.
Proof.
  intros HP Hn. revert vs. induction Hn as [|n names Hn _ IH]; intros vs Hvs; [by exists vs|].
  rewrite fmap_cons. cbn [mark_constants]. unfold update_at.
  destruct (proj2 Hvs n Hn) as (v & Hv & Hpv). rewrite Hv. cbn [mbind option_bind].
  apply IH. eapply values_are_insert; [exact Hvs|done|by apply HP|done].
Qed.

Lemma push_inputs_spec names a : Forall (fun n => n ∈ symbols b) names ->
  push_inputs table names a = Some (set_operands (ta_operands a ++ (slot <$> names)) a).
Proof.
  intros Hn. revert a. induction Hn as [|n names Hn _ IH]; intros a; [simpl; rewrite app_nil_r; by destruct a|].
  cbn [push_inputs]. rewrite (proj1 (slot_spec n Hn)). cbn [mbind option_bind]. rewrite IH. cbn [ta_operands set_operands].
  by rewrite <- app_assoc.
Qed.

Lemma push_block_io_spec names a : Forall (fun n => n ∈ symbols b) names ->
  push_block_io table names a = Some (set_block_io (ta_block_io a ++ (slot <$> names)) a).
Proof.
  intros Hn. revert a. induction Hn as [|n names Hn _ IH]; intros a; [simpl; rewrite app_nil_r; by destruct a|].
  cbn [push_block_io]. rewrite (proj1 (slot_spec n Hn)). cbn [mbind option_bind]. rewrite IH. cbn [ta_block_io set_block_io].
  by rewrite <- app_assoc.
Qed.

(** ** Producers *)

Hypothesis Hprod : NoDup (filter (fun n => n ∉ variables b) (written b)).

Lemma produces_unique n p q : produces b p n -> produces b q n -> p = q.
Proof.
  rewrite <- !producers_spec. intros Hp Hq.
  assert (NoDup (fst <$> producers_from b 0 (operators b))) as Hu by (by rewrite producers_names).
  apply list_elem_of_lookup in Hp as [i Hi]. apply list_elem_of_lookup in Hq as [j Hj].
  assert (i = j) as ->; [|congruence].
  apply (NoDup_lookup _ i j n Hu); by rewrite list_lookup_fmap, ?Hi, ?Hj.
Qed.

(** The symbol a value stands for. *)
Definition kind_symbol (k : AnalyzedValueKind) : Symbol :=
  match k with KTensor t => STensor t | KShape s => SShape s end.

(** A value of the symbol, not yet read, with the variables told apart. *)
Definition fresh (n : str) (v : AnalyzedValue) : Prop :=
  (n, kind_symbol (av_kind v)) ∈ block_symbols b /\
  is_variable_value v = bool_decide (n ∈ variables b) /\ av_consumers v = 0 /\ av_first_use v = None /\
  av_last_use v = None /\ av_name v = n.

(** The producers among the first [p] operators and, of the next one, the
    outputs [outs]. *)
Definition produced_by (p : nat) (outs : list str) (n : str) (v : AnalyzedValue) : Prop :=
  fresh n v /\ forall q, av_producer v = Some q <->
    (exists j, (j < p)%nat /\ q = (ostart + j)%nat /\ produces b j n) \/
    (q = (ostart + p)%nat /\ n ∈ outs /\ n ∉ variables b).

Lemma push_outputs_spec p o done names a : operators b !! p = Some o ->
  items (wo_outputs o) = done ++ names -> Forall (fun n => n ∈ symbols b) names ->
  values_are (produced_by p done) (ta_values a) ->
  exists vs', push_outputs table (ostart + p) names a =
      Some (set_values vs' (set_operands (ta_operands a ++ (slot <$> names)) a)) /\
    values_are (produced_by p (done ++ names)) vs'.
Proof.
  intros Hp Ho Hn. revert done a Ho. induction Hn as [|n names Hn _ IH]; intros done a Ho Hvs.
  { exists (ta_values a). simpl. rewrite !app_nil_r. by destruct a. }
  cbn [push_outputs]. rewrite (proj1 (slot_spec n Hn)). cbn [mbind option_bind]. cbn [ta_values set_operands].
  destruct (proj2 Hvs n Hn) as (v & Hv & (Hkind & Hvar & Hu) & Hpr). rewrite Hv. cbn [mbind option_bind]. rewrite Hvar.
  assert (forall vs, values_are (produced_by p (done ++ [n])) vs ->
    exists vs', push_outputs table (ostart + p) names
      (set_values vs (set_operands (ta_operands a ++ [slot n]) a)) =
      Some (set_values vs' (set_operands (ta_operands a ++ (slot <$> n :: names)) a)) /\
    values_are (produced_by p (done ++ n :: names)) vs') as Hrest.
  { intros vs Hvs'. destruct (IH (done ++ [n]) (set_values vs (set_operands (ta_operands a ++ [slot n]) a)))
      as (vs' & -> & Hr); [by rewrite <- app_assoc|done|].
    exists vs'. split; [|by rewrite <- app_assoc in Hr]. cbn [ta_operands set_values set_operands].
    rewrite <- app_assoc. done. }
  destruct (bool_decide_reflect (n ∈ variables b)) as [Hvn|Hvn].
  - destruct (Hrest (ta_values a)) as (vs' & Hr & Hvs').
    { eapply values_are_impl; [|exact Hvs]. intros m w (Hf & Hq). split; [done|]. intros q. rewrite Hq, elem_of_app, list_elem_of_singleton.
      naive_solver. }
    exists vs'. split; [|done]. rewrite <- Hr. done.
  - apply Hrest. eapply values_are_insert; [exact Hvs|done| |].
    + split; [split; [done|split; [by rewrite (bool_decide_false _ Hvn)|done]]|]. intros q. cbn [av_producer value_with_producer]. rewrite elem_of_app, list_elem_of_singleton.
      assert (produces b p n) as Hpn.
      { exists o. split; [done|]. split; [|done]. rewrite Ho. apply elem_of_app. right. by left. }
      split; [intros [= <-]; by right; auto|]. intros [(j & Hj & -> & Hjn)|(-> & _)]; [|done].
      pose proof (produces_unique n j p Hjn Hpn). lia.
    + intros m w Hne (Hf & Hq). split; [done|]. intros q. rewrite Hq, elem_of_app, list_elem_of_singleton. naive_solver.
Qed.

(** All outputs of an operator move it among the first ones. *)
Lemma produced_by_S p o n v : operators b !! p = Some o ->
  produced_by p (items (wo_outputs o)) n v -> produced_by (S p) [] n v.
Proof.
  intros Ho (Hf & Hq). split; [done|]. intros q. rewrite Hq. split.
  - intros [(j & Hj & -> & Hjn)|(-> & Hn & Hv)]; left; [exists j|exists p]; repeat split; try done; try lia.
    by exists o.
  - intros [(j & Hj & -> & Hjn)|(_ & []%elem_of_nil & _)].
    destruct (decide (j = p)) as [->|]; [right|left; exists j; repeat split; try done; lia].
    destruct Hjn as (o' & Ho' & Hn & Hv). simplify_eq. done.
Qed.

(** ** Operators *)

(** An operator in the plan: its spans resolve its operands. *)
Definition planned (operands : list nat) (j : nat) (o : WireOperator) (ao : AnalyzedOperator) : Prop :=
  ao_id ao = (ostart + j)%nat /\ ao_op ao = wo_op o /\
  span_slice (ao_inputs ao) operands = Some (slot <$> items (wo_inputs o)) /\
  span_slice (ao_outputs ao) operands = Some (slot <$> items (wo_outputs o)).

(** The first [p] operators of the block are planned and not marked dead. *)
Definition operators_are (p : nat) (a : TosaAnalysis) : Prop :=
  length (ta_operators a) = (ostart + p)%nat /\
  forall j o, (j < p)%nat -> operators b !! j = Some o ->
    exists ao, ta_operators a !! (ostart + j)%nat = Some ao /\ planned (ta_operands a) j o ao /\
      Z.testbit (ao_hints ao) 0 = false.

Lemma planned_app operands more j o ao : planned operands j o ao -> planned (operands ++ more) j o ao.
Proof. intros (H1 & H2 & H3 & H4). split_and!; try done; by apply span_slice_app. Qed.

(** What the passes over the operators leave alone. *)
Definition same_frame (a a' : TosaAnalysis) : Prop :=
  ta_block_io a' = ta_block_io a /\ ta_execution_order a' = ta_execution_order a /\ ta_blocks a' = ta_blocks a.

Definition op_edges (o : WireOperator) : nat := (length (items (wo_inputs o)) + length (items (wo_outputs o)))%nat.

Definition refs_resolve (o : WireOperator) : Prop :=
  Forall (fun n => n ∈ symbols b) (items (wo_inputs o)) /\ Forall (fun n => n ∈ symbols b) (items (wo_outputs o)).

Lemma produced_by_constant p outs st n v : produced_by p outs n v -> produced_by p outs n (value_with_constant st v).
Proof. done. Qed.

(** The operator as it is first pushed. *)
Definition new_operator (block p : nat) (o : WireOperator) (inputs outputs : AnalysisSpan) : AnalyzedOperator :=
  {| ao_id := (ostart + p)%nat; ao_block := block; ao_source_index := Z.of_nat p; ao_execution_index := 0;
     ao_op := Operator_op o; ao_source := o; ao_inputs := inputs; ao_outputs := outputs;
     ao_conditions := AnalysisSpan_default; ao_hints := Hints.NONE |}.

Lemma push_operator_spec block p o a : operators b !! p = Some o -> refs_resolve o ->
  values_are (produced_by p []) (ta_values a) -> operators_are p a ->
  Z.of_nat (ostart + p) <= U32_MAX -> Z.of_nat (length (ta_operands a) + op_edges o) <= U32_MAX ->
  exists a' ao, push_operator table block p o a = Some (Ok (a', ao_inputs ao)) /\
    ta_operators a' = ta_operators a ++ [ao] /\ length (ta_operands a') = (length (ta_operands a) + op_edges o)%nat /\
    values_are (produced_by (S p) []) (ta_values a') /\ operators_are (S p) a' /\ same_frame a a'.
Proof.
  intros Ho [Hin Hout] Hvs Hops Hp He. unfold push_operator. pose proof (proj1 Hops) as Hlen. rewrite Hlen.
  rewrite from_usize_ok by done. rewrite push_inputs_spec by done. cbn [mbind option_bind ta_operands set_operands].
  rewrite length_app, length_fmap. unfold op_edges in He.
  replace (length (ta_operands a) + length (items (wo_inputs o)) - length (ta_operands a))%nat
    with (length (items (wo_inputs o))) by lia.
  rewrite span_new_ok by lia.
  set (a1 := set_operands (ta_operands a ++ (slot <$> items (wo_inputs o))) a).
  destruct (push_outputs_spec p o [] (items (wo_outputs o)) a1 Ho) as (vs & -> & Hvs1); [done|done|done|].
  cbn [mbind option_bind ta_operands set_operands set_values a1].
  rewrite !length_app, !length_fmap.
  replace (length (ta_operands a) + length (items (wo_inputs o)) + length (items (wo_outputs o)) -
           (length (ta_operands a) + length (items (wo_inputs o))))%nat
    with (length (items (wo_outputs o))) by lia.
  rewrite span_new_ok by lia.
  set (k1 := ta_operands a ++ (slot <$> items (wo_inputs o))).
  set (outs := slot <$> items (wo_outputs o)).
  assert (span_slice {| span_start := (length (ta_operands a) + length (items (wo_inputs o)))%nat;
            span_len := length (items (wo_outputs o)) |} (k1 ++ outs) = Some outs) as Hos.
  { replace (length (ta_operands a) + length (items (wo_inputs o)))%nat with (length k1)
      by (unfold k1; by rewrite length_app, length_fmap).
    replace (length (items (wo_outputs o))) with (length outs) by (unfold outs; by rewrite length_fmap).
    apply span_slice_new. }
  assert (span_slice {| span_start := length (ta_operands a); span_len := length (items (wo_inputs o)) |} (k1 ++ outs) =
          Some (slot <$> items (wo_inputs o))) as His.
  { apply span_slice_app. unfold k1.
    replace (length (items (wo_inputs o))) with (length (slot <$> items (wo_inputs o))) by (by rewrite length_fmap).
    apply span_slice_new. }
  set (ins_span := {| span_start := length (ta_operands a); span_len := length (items (wo_inputs o)) |}) in *.
  set (outs_span := {| span_start := (length (ta_operands a) + length (items (wo_inputs o)))%nat;
                       span_len := length (items (wo_outputs o)) |}) in *.
  rewrite position_ok by lia. set (ao := new_operator block p o ins_span outs_span).
  assert (forall vs2, values_are (produced_by p (items (wo_outputs o))) vs2 ->
    let a' := set_operators (ta_operators a ++ [ao]) (set_values vs2 (set_operands (k1 ++ outs) a)) in
    ta_operators a' = ta_operators a ++ [ao] /\ length (ta_operands a') = (length (ta_operands a) + op_edges o)%nat /\
    values_are (produced_by (S p) []) (ta_values a') /\ operators_are (S p) a' /\ same_frame a a') as Hend.
  { intros vs2 Hvs2. cbn [ta_operators ta_operands ta_values set_operators set_values set_operands].
    split; [done|]. split.
    { unfold k1, outs, op_edges. rewrite !length_app, !length_fmap. lia. }
    split; [eapply values_are_impl; [|exact Hvs2]; intros n v; by apply produced_by_S|]. split; [|done].
    split; cbn [ta_operators ta_operands set_operators set_values set_operands]; [rewrite length_app; simpl; lia|].
    intros j o' Hj Ho'. destruct (decide (j = p)) as [->|Hne].
    - eexists. rewrite lookup_app_r by lia. rewrite Hlen, Nat.sub_diag. split; [reflexivity|]. simplify_eq. done.
    - destruct (proj2 Hops j o' ltac:(lia) Ho') as (ao' & Hao & Hpl & Hh). exists ao'.
      rewrite lookup_app_l by lia. split; [done|]. split; [|done]. unfold k1. rewrite <- app_assoc. by apply planned_app. }
  destruct (is_constant_op o).
  - cbn [ta_operands set_values set_operands ta_values]. rewrite Hos. cbn [mbind option_bind].
    destruct (mark_constants_are (produced_by p (items (wo_outputs o))) Serialized (items (wo_outputs o)) vs)
      as (vs2 & Hm & Hvs2); [done|done|done|].
    fold outs in Hm. rewrite Hm. cbn [mbind option_bind].
    eexists _, ao. split; [reflexivity|]. exact (Hend vs2 Hvs2).
  - cbn [mbind option_bind]. eexists _, ao. split; [reflexivity|]. exact (Hend vs Hvs1).
Qed.

Lemma same_frame_trans a1 a2 a3 : same_frame a1 a2 -> same_frame a2 a3 -> same_frame a1 a3.
Proof. unfold same_frame. intros (? & ? & ?) (? & ? & ?). split_and!; congruence. Qed.

Lemma push_operators_spec block os p a spans : drop p (operators b) = os -> (p + length os = length (operators b))%nat ->
  Forall refs_resolve (operators b) -> values_are (produced_by p []) (ta_values a) -> operators_are p a ->
  spans = ao_inputs <$> drop ostart (ta_operators a) ->
  Z.of_nat (ostart + length (operators b)) <= U32_MAX ->
  Z.of_nat (length (ta_operands a) + sum_list (op_edges <$> os)) <= U32_MAX ->
  exists a', push_operators table block os p a spans = Some (Ok (a', ao_inputs <$> drop ostart (ta_operators a'))) /\
    values_are (produced_by (length (operators b)) []) (ta_values a') /\
    operators_are (length (operators b)) a' /\ same_frame a a'.
Proof.
  revert p a spans. induction os as [|o os IH]; intros p a spans Hd Hlen Hrefs Hvs Hops -> Hsz He.
  { simpl in Hlen. exists a. simpl. replace (length (operators b)) with p by lia. done. }
  assert (operators b !! p = Some o) as Ho.
  { rewrite <- (Nat.add_0_r p), <- lookup_drop, Hd. done. }
  cbn [push_operators length] in *. rewrite fmap_cons in He. cbn [sum_list sum_list_with id] in He.
  destruct (push_operator_spec block p o a Ho) as (a1 & ao & -> & Hao & Hk & Hvs1 & Hops1 & Hf1); try done.
  - rewrite Forall_forall in Hrefs. apply Hrefs. by eapply list_elem_of_lookup_2.
  - lia.
  - lia.
  - destruct (IH (S p) a1 ((ao_inputs <$> drop ostart (ta_operators a)) ++ [ao_inputs ao])) as (a2 & Ha2 & Hr); try done.
    + rewrite <- Nat.add_1_r, <- drop_drop, Hd. done.
    + lia.
    + rewrite Hao, drop_app_le by (rewrite (proj1 Hops); lia). by rewrite fmap_app.
    + rewrite Hk. lia.
    + exists a2. split; [exact Ha2|]. destruct Hr as (H1 & H2 & H3). split; [done|]. split; [done|].
      exact (same_frame_trans a a1 a2 Hf1 H3).
Qed.
End Slots.

(** * Conditions, order and uses of a planned block

    [push_conditions] never panics on an operator that validation accepted,
    [topological_order] returns a schedule of the block, and the execution
    pass records where every value is read. *)

(** ** Runtime conditions *)

(** How many inputs the conditions of an operator read. *)
Definition needed_inputs (op : Z) : Z :=
  Z.max (foldr (fun i m => Z.max (Z.of_nat (S i)) m) 0 (ctc_inputs op))
    (if existsb (Z.eqb op) [Op.ARITHMETIC_RIGHT_SHIFT; Op.LOGICAL_LEFT_SHIFT; Op.LOGICAL_RIGHT_SHIFT; Op.INTDIV;
                            Op.POW; Op.GATHER; Op.SCATTER] then 2
     else if op =? Op.MUL then 3 else if op =? Op.VARIABLE_WRITE then 1 else 0).

(** Every operator has at least the inputs its conditions read. *)
Lemma needed_inputs_arity op r : arity op = Some r -> needed_inputs op <= min_inputs r.
Proof.
  intros Hr. assert (1 <= op <= 75) as Hop.
  { assert (Op.is_tosa_1_0 op = true) as H by (apply arity_defined; eauto).
    unfold Op.is_tosa_1_0, Op.ARGMAX, Op.CONST_SHAPE in H. lia. }
  enough (match arity op with Some r => needed_inputs op <=? min_inputs r | None => true end = true) as H.
  { rewrite Hr in H. by apply Z.leb_le. }
  clear r Hr. revert op Hop.
  apply (forall_range (fun op => match arity op with Some r => needed_inputs op <=? min_inputs r | None => true end = true)).
  vm_compute. reflexivity.
Qed.

Lemma ctc_inputs_needed op i : i ∈ ctc_inputs op -> Z.of_nat i < needed_inputs op.
Proof.
  unfold needed_inputs. intros Hi.
  enough (Z.of_nat i < foldr (fun i m => Z.max (Z.of_nat (S i)) m) 0 (ctc_inputs op)) by lia.
  induction (ctc_inputs op) as [|k l IH]; [by apply elem_of_nil in Hi|]. cbn [foldr].
  apply elem_of_cons in Hi as [->|Hi]; [lia|]. specialize (IH Hi). lia.
Qed.

(** The conditions of one operator. *)
Section Conditions.
Context (alloc : nat -> bool) (target : Target) (operator : nat) (op : Z) (attributes : OpAttributes).
Context (inputs outputs : list nat) (values : list AnalyzedValue).
Hypothesis Halloc : forall k, alloc k = true.
Hypothesis Hneeded : needed_inputs op <= zlen inputs.
Hypothesis Hvalues : forall id, id ∈ inputs -> is_Some (values !! id).
Hypothesis Hcustom : op = Op.CUSTOM -> exists n d i, attributes = ACustom n d i.
Hypothesis Hgather : op = Op.GATHER \/ op = Op.SCATTER ->
  exists id v t, inputs !! 0%nat = Some id /\ values !! id = Some v /\ av_kind v = KTensor t.

Lemma push_condition_ok c pushed : push_condition alloc c pushed = Ok (pushed ++ [c]).
Proof. unfold push_condition. by rewrite Halloc. Qed.

(** A step that adds at most [k] conditions and never fails. *)
Definition adds (k : nat) (pushed : list RuntimeCondition) (r : plan (list RuntimeCondition)) : Prop :=
  exists added, r = Some (Ok added) /\ (length added <= length pushed + k)%nat.

Lemma adds_none k pushed : adds k pushed (Some (Ok pushed)).
Proof. exists pushed. split; [done|lia]. Qed.

Lemma adds_one k c pushed : adds (S k) pushed (Some (push_condition alloc c pushed)).
Proof. rewrite push_condition_ok. eexists. split; [done|]. rewrite length_app. simpl. lia. Qed.

Lemma input_at i : Z.of_nat i < needed_inputs op -> exists id v, inputs !! i = Some id /\ values !! id = Some v.
Proof.
  intros Hi. destruct (lookup_lt_is_Some_2 inputs i) as [id Hid]; [unfold zlen in Hneeded; lia|].
  destruct (Hvalues id) as [v Hv]; [by eapply list_elem_of_lookup_2|]. eauto.
Qed.

Lemma dynamic_conditions_ok indices pushed : (forall i, i ∈ indices -> Z.of_nat i < needed_inputs op) ->
  adds (length indices) pushed (dynamic_conditions alloc operator op inputs values indices pushed).
Proof.
  revert pushed. induction indices as [|i indices IH]; intros pushed Hi; cbn [dynamic_conditions].
  { apply adds_none. }
  destruct (input_at i) as (id & v & -> & Hv); [apply Hi; by left|]. cbn [mbind option_bind]. rewrite Hv.
  cbn [mbind option_bind]. rewrite push_condition_ok.
  case_bool_decide; (edestruct IH as (added & -> & Hl); [intros j Hj; apply Hi; by right|]);
    exists added; (split; [done|]); rewrite ?length_app in Hl; simpl in *; lia.
Qed.

Ltac resolve_inputs H :=
  repeat match goal with
  | |- context [inputs !! ?i] =>
      let id := fresh "id" in let v := fresh "v" in let Hi := fresh "Hi" in let Hv := fresh "Hv" in
      destruct (input_at i) as (id & v & Hi & Hv); [rewrite H; vm_compute; reflexivity|]; rewrite Hi;
      cbn [mbind option_bind]; try (rewrite Hv; cbn [mbind option_bind])
  end.

Lemma operator_conditions_ok pushed :
  adds 2 pushed (operator_conditions alloc operator op attributes inputs outputs values pushed).
Proof.
  unfold operator_conditions, input_kind.
  destruct ((op =? Op.ARITHMETIC_RIGHT_SHIFT) || (op =? Op.LOGICAL_LEFT_SHIFT) || (op =? Op.LOGICAL_RIGHT_SHIFT)) eqn:Es.
  { assert (op = Op.ARITHMETIC_RIGHT_SHIFT \/ op = Op.LOGICAL_LEFT_SHIFT \/ op = Op.LOGICAL_RIGHT_SHIFT) as H by lia.
    clear Es. destruct H as [H|[H|H]]; resolve_inputs H; apply adds_one. }
  destruct (Z.eqb_spec op Op.INTDIV) as [H|_]; [resolve_inputs H; apply adds_one|].
  destruct (Z.eqb_spec op Op.MUL) as [H|_].
  { resolve_inputs H. case_match; [apply adds_one|apply adds_none]. }
  destruct (Z.eqb_spec op Op.POW) as [H|_]; [resolve_inputs H; apply adds_one|].
  destruct ((op =? Op.GATHER) || (op =? Op.SCATTER)) eqn:Eg.
  { assert (op = Op.GATHER \/ op = Op.SCATTER) as H by lia. destruct (Hgather H) as (id & v & t & Hid & Hv & Ht).
    rewrite Hid. cbn [mbind option_bind]. rewrite Hv. cbn [mbind option_bind]. rewrite Ht. cbn [mbind option_bind].
    destruct (input_at 1) as (id1 & v1 & -> & _); [destruct H as [-> | ->]; vm_compute; reflexivity|].
    cbn [mbind option_bind]. rewrite push_condition_ok.
    case_match; [rewrite push_condition_ok|]; eexists; (split; [done|]); rewrite ?length_app; simpl; lia. }
  destruct (Z.eqb_spec op Op.VARIABLE_WRITE) as [H|_]; [resolve_inputs H; apply adds_one|].
  destruct (op =? Op.VARIABLE_READ).
  { destruct outputs; [apply adds_none|apply adds_one]. }
  destruct (Z.eqb_spec op Op.CUSTOM) as [H|_]; [|apply adds_none].
  destruct (Hcustom H) as (n & d & i & E). rewrite E. apply adds_one.
Qed.

Lemma add_conditions_ok : adds 6 [] (add_conditions alloc target operator op attributes inputs outputs values).
Proof.
  unfold add_conditions. assert (length (ctc_inputs op) <= 4)%nat by (unfold ctc_inputs; repeat case_match; simpl; lia).
  destruct (ExtensionSet.contains _ _).
  - destruct (dynamic_conditions_ok (ctc_inputs op) []) as (p & -> & Hp); [apply ctc_inputs_needed|].
    destruct (operator_conditions_ok p) as (q & -> & Hq). exists q. split; [done|]. simpl in *. lia.
  - destruct (operator_conditions_ok []) as (q & -> & Hq). exists q. split; [done|]. simpl in *. lia.
Qed.
End Conditions.

Lemma custom_view o a : Operator_attributes o = Some a -> wo_op o = Op.CUSTOM -> exists n d i, a = ACustom n d i.
Proof.
  unfold Operator_attributes, from_wire. intros H E. rewrite E in H. unfold Op.CUSTOM in H.
  destruct (attribute_as o 69) as [[]|]; try done. injection H as <-. eauto.
Qed.

(** ** The pass over all operators *)

Section Order.
Context (b : WireBlock) (base ostart : nat).
Hypothesis Hnd : NoDup (symbols b).
Abbreviation slot := (slot b base).
Abbreviation values_are := (values_are b base).
Abbreviation operators_are := (operators_are b base ostart).
Abbreviation produced_by := (produced_by b ostart).
Abbreviation count := (length (operators b)).

(** What the condition pass relies on: readable attributes, the inputs of the
    arity, and a tensor as the data of a gather. *)
Definition condition_ready (o : WireOperator) : Prop :=
  is_Some (Operator_attributes o) /\ needed_inputs (wo_op o) <= zlen (items (wo_inputs o)) /\
  (wo_op o = Op.GATHER \/ wo_op o = Op.SCATTER ->
   exists n t, items (wo_inputs o) !! 0%nat = Some n /\ (n, STensor t) ∈ block_symbols b).

(** The plan after the operators were pushed. *)
Record pushed (a : TosaAnalysis) : Prop := {
  pu_values : values_are (produced_by count []) (ta_values a);
  pu_operators : operators_are count a;
}.

Lemma operators_are_update p a j f a' : operators_are p a ->
  (forall ao, ao_id (f ao) = ao_id ao /\ ao_op (f ao) = ao_op ao /\ ao_inputs (f ao) = ao_inputs ao /\
     ao_outputs (f ao) = ao_outputs ao /\ Z.testbit (ao_hints (f ao)) 0 = Z.testbit (ao_hints ao) 0) ->
  (j < p)%nat -> ta_operands a' = ta_operands a -> update_at f (ostart + j) (ta_operators a) = Some (ta_operators a') ->
  operators_are p a'.
Proof.
  intros [Hl Ho] Hf Hj Hk Hu. unfold update_at in Hu.
  destruct (ta_operators a !! (ostart + j)%nat) as [ao|] eqn:E; [|done]. injection Hu as Hu.
  split; [rewrite <- Hu, length_insert; done|]. intros i o Hi Hoi. rewrite <- Hu, Hk.
  destruct (Ho i o Hi Hoi) as (aoi & Hai & (H1 & H2 & H3 & H4) & Hh).
  destruct (decide (i = j)) as [->|Hne].
  - rewrite list_lookup_insert_eq by (apply lookup_lt_Some in E; lia). exists (f ao). split; [done|].
    assert (aoi = ao) as -> by congruence. destruct (Hf ao) as (F1 & F2 & F3 & F4 & F5).
    unfold planned. rewrite F1, F2, F3, F4, F5. done.
  - rewrite list_lookup_insert_ne by lia. exists aoi. done.
Qed.

(** The value in the slot of an input. *)
Lemma symbol_kind n v t : produced_by count [] n v -> (n, STensor t) ∈ block_symbols b -> av_kind v = KTensor t.
Proof.
  intros ((Hk & _) & _) Ht. assert (NoDup (fst <$> block_symbols b)) as Hu by (by rewrite block_symbols_names).
  apply list_elem_of_lookup in Hk as [i Hi]. apply list_elem_of_lookup in Ht as [k Ht].
  assert (i = k) as <-; [|rewrite Hi in Ht; unfold kind_symbol in Ht; destruct (av_kind v); congruence].
  apply (NoDup_lookup _ i k n Hu); by rewrite list_lookup_fmap, ?Hi, ?Ht.
Qed.

Lemma push_conditions_spec alloc target os j a : (forall s, alloc s = true) -> drop j (operators b) = os ->
  (j + length os = count)%nat -> Forall condition_ready (operators b) -> Forall (refs_resolve b) (operators b) ->
  pushed a -> Z.of_nat (length (ta_conditions a) + 6 * length os) <= U32_MAX ->
  exists a', push_conditions alloc target os (ostart + j) a = Some (Ok a') /\ pushed a' /\ same_frame a a' /\
    ta_operands a' = ta_operands a /\ ta_values a' = ta_values a /\
    (ao_inputs <$> ta_operators a') = (ao_inputs <$> ta_operators a).
Proof.
  intros Halloc. revert j a. induction os as [|o os IH]; intros j a Hd Hlen Hready Hrefs [Hvs Hops] Hsz.
  { exists a. done. }
  assert (operators b !! j = Some o) as Ho.
  { rewrite <- (Nat.add_0_r j), <- lookup_drop, Hd. done. }
  cbn [push_conditions length] in *. destruct (proj2 Hops j o ltac:(lia) Ho) as (ao & Hao & (Hid & Hop & Hin & Hout) & _).
  rewrite Hao. cbn [mbind option_bind].
  pose proof (list_elem_of_lookup_2 _ _ _ Ho) as Hoin. rewrite Forall_forall in Hready, Hrefs.
  destruct (Hready o Hoin) as ([at_ Hat] & Hneed & Hg). destruct (Hrefs o Hoin) as [Hri Hro].
  rewrite Hat. cbn [mbind option_bind]. rewrite Hin. cbn [mbind option_bind]. rewrite Hout. cbn [mbind option_bind].
  destruct (add_conditions_ok (fun k => alloc [(ostart + j)%nat; k; 0%nat]) target (ao_id ao) (ao_op ao) at_
    (slot <$> items (wo_inputs o)) (slot <$> items (wo_outputs o)) (ta_values a)) as (added & -> & Hadd).
  - intros k. apply Halloc.
  - rewrite Hop. unfold zlen in *. by rewrite length_fmap.
  - intros id (n & -> & Hn)%list_elem_of_fmap. rewrite Forall_forall in Hri.
    destruct (proj2 Hvs n (Hri n Hn)) as (v & Hv & _). eauto.
  - rewrite Hop. by apply custom_view.
  - rewrite Hop. intros Hgs. destruct (Hg Hgs) as (n & t & Hn & Ht).
    assert (n ∈ symbols b) as Hns.
    { rewrite Forall_forall in Hri. apply Hri. by eapply list_elem_of_lookup_2. }
    destruct (proj2 Hvs n Hns) as (v & Hv & Hp). exists (slot n), v, t.
    rewrite list_lookup_fmap, Hn. split; [done|]. split; [done|]. by apply (symbol_kind n).
  - cbn [ta_conditions set_conditions]. rewrite length_app.
    replace (length (ta_conditions a) + length added - length (ta_conditions a))%nat with (length added) by lia.
    simpl length in Hadd. rewrite span_new_ok by lia. cbn [ta_operators set_conditions].
    unfold update_at. rewrite Hao. cbn [mbind option_bind].
    set (span := {| span_start := _; span_len := _ |}).
    set (a1 := set_operators _ _).
    assert (pushed a1) as Hp1.
    { split; [done|]. eapply (operators_are_update _ a j (operator_with_conditions span)); try done; [lia|].
      unfold update_at. by rewrite Hao. }
    rewrite <- Nat.add_succ_r.
    destruct (IH (S j) a1) as (a2 & H1 & H2 & H3 & H4 & H5 & H6).
    + rewrite <- Nat.add_1_r, <- drop_drop, Hd. done.
    + lia.
    + by apply Forall_forall.
    + by apply Forall_forall.
    + done.
    + unfold a1. cbn [ta_conditions set_operators set_conditions]. rewrite length_app. lia.
    + exists a2. split; [done|]. split; [done|]. split; [done|]. split; [done|]. split; [done|].
      rewrite H6. unfold a1. cbn [ta_operators set_operators]. rewrite list_fmap_insert. apply list_insert_id.
      by rewrite list_lookup_fmap, Hao.
Qed.

(** ** The order *)

Hypothesis Hready : dataflow_ready b.
Hypothesis Hkept : forall p n, produces b p n -> n ∉ sources b.
Hypothesis Hrefs : Forall (refs_resolve b) (operators b).

Abbreviation prods := (sort_by_name (producers_from b 0 (operators b))).
Abbreviation edges_into := (edges_into b prods).
Abbreviation edges_from := (edges_from b prods).

Lemma producer_of n v : produced_by count [] n v -> av_producer v = (fun p => (ostart + p)%nat) <$> search_by_name prods n.
Proof.
  intros (_ & Hp).
  assert (forall q, av_producer v = Some q <-> exists j, q = (ostart + j)%nat /\ produces b j n) as Hq.
  { intros q. rewrite Hp. split.
    - intros [(j & _ & ? & ?)|(_ & []%elem_of_nil & _)]. eauto.
    - intros (j & -> & Hj). left. exists j. split; [|done]. destruct Hj as (o & Ho & _). by apply lookup_lt_Some in Ho. }
  pose proof (producer_lookup b prods (sort_by_name_sorted _) (prods_unique b Hready) (prods_spec b)) as Hl.
  destruct (search_by_name prods n) as [p|] eqn:E; simpl.
  - apply Hq. exists p. split; [done|]. by apply Hl.
  - destruct (av_producer v) as [q|] eqn:Eq; [|done]. destruct (proj1 (Hq q) eq_refl) as (j & _ & Hj).
    apply Hl in Hj. congruence.
Qed.

Lemma edges_into_cons c n ins :
  edges_into c (n :: ins) = match search_by_name prods n with Some p => [(p, c)] | None => [] end ++ edges_into c ins.
Proof.
  unfold TosaDataflow.edges_into. cbn [omap list_omap].
  destruct (search_by_name prods n) as [p|] eqn:E; [|by case_decide].
  apply (producer_lookup b prods (sort_by_name_sorted _) (prods_unique b Hready) (prods_spec b)) in E.
  by rewrite decide_False by (by eapply Hkept).
Qed.

Lemma consumer_edges_spec vs c ins edges ind : values_are (produced_by count []) vs ->
  Forall (fun n => n ∈ symbols b) ins -> (c < count)%nat -> indegrees_count b edges ind ->
  zlen edges + zlen ins <= USIZE_MAX ->
  exists ind', consumer_edges ostart vs c (slot <$> ins) edges ind = Some (Ok (edges ++ edges_into c ins, ind')) /\
    indegrees_count b (edges ++ edges_into c ins) ind'.
Proof.
  intros Hvs Hin Hc. revert edges ind. induction Hin as [|n ins Hn _ IH]; intros edges ind Hi Hb.
  { exists ind. simpl. by rewrite app_nil_r. }
  rewrite fmap_cons. cbn [consumer_edges]. destruct (proj2 Hvs n Hn) as (v & Hv & Hp). rewrite Hv. cbn [mbind option_bind].
  rewrite (producer_of n v Hp), edges_into_cons. unfold zlen in Hb. cbn [length] in Hb.
  destruct (search_by_name prods n) as [p|] eqn:E; cbn [fmap option_fmap option_map].
  - rewrite (proj2 (Nat.ltb_ge _ _)) by lia. replace (ostart + p - ostart)%nat with p by lia.
    destruct Hi as [Hl Hcount]. rewrite (Hcount c Hc). cbn [mbind option_bind].
    pose proof (entering_le edges c). unfold zlen in *. unfold checked_add.
    rewrite (proj2 (Z.leb_le _ _)) by lia.
    destruct (IH (edges ++ [(p, c)]) (<[c := entering edges c + 1]> ind)) as (ind' & -> & Hi').
    + by apply indegrees_count_snoc.
    + rewrite length_app. simpl. lia.
    + exists ind'. rewrite <- !app_assoc in Hi' |- *. done.
  - apply IH; [done|]. unfold zlen. lia.
Qed.

Abbreviation slices operands := (fun s o => span_slice s operands = Some (slot <$> items (wo_inputs o))).

Lemma all_edges_spec vs operands spans os c edges ind : values_are (produced_by count []) vs ->
  Forall2 (slices operands) spans os -> Forall (refs_resolve b) os -> (c + length os = count)%nat ->
  indegrees_count b edges ind -> zlen edges + sum_by (fun o => zlen (items (wo_inputs o))) os <= USIZE_MAX ->
  exists ind', all_edges ostart vs operands spans c edges ind = Some (Ok (edges ++ edges_from c os, ind')) /\
    indegrees_count b (edges ++ edges_from c os) ind'.
Proof.
  intros Hvs Hs. revert c edges ind. induction Hs as [|s o spans os Hso _ IH]; intros c edges ind Hr Hc Hi Hb.
  { exists ind. simpl. by rewrite app_nil_r. }
  apply Forall_cons in Hr as [[Hr _] Hrs]. cbn [all_edges TosaDataflow.edges_from length] in *. change (sum_by ?f (o :: os)) with (f o + sum_by f os) in Hb. cbn beta in Hb.
  rewrite Hso. cbn [mbind option_bind].
  pose proof (sum_by_nonneg (fun o => zlen (items (wo_inputs o))) os ltac:(intros; apply zlen_nonneg)).
  destruct (consumer_edges_spec vs c (items (wo_inputs o)) edges ind Hvs Hr) as (i1 & -> & Hi1); [lia|done|lia|].
  pose proof (zlen_edges_into b prods c (items (wo_inputs o))).
  destruct (IH (S c) (edges ++ edges_into c (items (wo_inputs o))) i1) as (i2 & -> & Hi2);
    [done|lia|done|rewrite zlen_app; lia|].
  exists i2. by rewrite <- !app_assoc in Hi2 |- *.
Qed.

Lemma edge_count_spec operands spans os : Forall2 (slices operands) spans os ->
  sum_by (fun o => zlen (items (wo_inputs o))) os <= USIZE_MAX -> is_Some (edge_count spans).
Proof.
  unfold edge_count. intros Hs.
  enough (forall k, 0 <= k -> k + sum_by (fun o => zlen (items (wo_inputs o))) os <= USIZE_MAX ->
    is_Some (fold_left (fun count span => c ← count; checked_add USIZE_MAX c (Z.of_nat (span_len span))) spans (Some k)))
    as H by (intros ?; apply H; lia).
  induction Hs as [|s o spans os Hso _ IH]; intros k Hk Hb; [by eexists|]. cbn [fold_left] in *. change (sum_by ?f (o :: os)) with (f o + sum_by f os) in Hb. cbn beta in Hb.
  pose proof (sum_by_nonneg (fun o => zlen (items (wo_inputs o))) os ltac:(intros; apply zlen_nonneg)).
  assert (Z.of_nat (span_len s) = zlen (items (wo_inputs o))) as Hl.
  { unfold span_slice in Hso. destruct (Nat.leb_spec (span_start s + span_len s) (length operands)); [|done].
    injection Hso as Hso. apply (f_equal length) in Hso. rewrite length_take, length_drop, length_fmap in Hso.
    unfold zlen. lia. }
  cbn [mbind option_bind]. unfold checked_add. rewrite Hl, (proj2 (Z.leb_le _ _)) by lia.
  apply IH; lia.
Qed.

(** The order of a block that the data-flow check accepts is a schedule. *)
Definition plan_order (order : list nat) : Prop :=
  order ≡ₚ seq 0 count /\
  forall p c, depends b p c -> exists i j, order !! i = Some p /\ order !! j = Some c /\ (i < j)%nat.

Lemma pushed_slices a : pushed a ->
  Forall2 (slices (ta_operands a)) (ao_inputs <$> drop ostart (ta_operators a)) (operators b).
Proof.
  intros [_ [Hl Ho]]. apply Forall2_same_length_lookup. split.
  { rewrite length_fmap, length_drop, Hl. lia. }
  intros i s o Hs Hoi. rewrite list_lookup_fmap, lookup_drop in Hs.
  destruct (Ho i o (lookup_lt_Some _ _ _ Hoi) Hoi) as (ao & Hao & (_ & _ & Hin & _) & _).
  rewrite Hao in Hs. injection Hs as <-. done.
Qed.

Lemma topological_order_spec alloc a : (forall k, alloc k = true) -> pushed a ->
  (exists order, plan_order order) ->
  exists order, topological_order alloc ostart (ta_values a) (ta_operands a)
      (ao_inputs <$> drop ostart (ta_operators a)) count = Some (Ok order) /\ plan_order order.
Proof.
  intros Halloc Hpu Hex. pose proof (dr_size b Hready) as [_ Hsz]. pose proof (pushed_slices a Hpu) as Hsl.
  unfold topological_order. rewrite !Halloc. cbn [negb].
  destruct (edge_count_spec _ _ _ Hsl Hsz) as [k ->].
  destruct (all_edges_spec (ta_values a) (ta_operands a) _ (operators b) 0 [] (replicate count 0) (pu_values a Hpu) Hsl Hrefs)
    as (ind & -> & Hlen & Hcount); [lia| |done|].
  { split; [by rewrite length_replicate|]. intros c Hc. by rewrite lookup_replicate_2. }
  rewrite app_nil_l in *. pose proof (edges_spec b Hready) as He.
  destruct (schedule_decides count (edges_from 0 (operators b)) (edges_bounded b Hready) ind Hlen Hcount)
    as (final & _ & -> & Hdec & Hfinal).
  cbn [mbind option_bind].
  assert (length final = count) as Hk.
  { apply Hdec. destruct Hex as (order & Hp & Ho). exists order. split; [done|]. intros p c Hpc. apply Ho. by apply He. }
  rewrite bool_decide_true by done. exists final. split; [done|]. destruct (Hfinal Hk) as [H1 H2].
  split; [done|]. intros p c Hpc. apply H2. by apply He.
Qed.
End Order.
