(* ===== verification/TosaPlanLive.v ===== *)
(** * Uses of the values of a planned block

    The execution pass: it numbers the operators in execution order, and
    every value learns how often it is read, and where first and last. *)

From Stdlib Require Import ZArith Lia.
From stdpp Require Import prelude list sorting.
From S2P Require Import Prelude TosaTypes TosaNumeric TosaArtifact TosaWire TosaValidate TosaGraph TosaView TosaSemantic TosaFlow TosaDataflow TosaAnalysis TosaPlanOrder.

(** ** Reads *)

Definition inputs_of (b : WireBlock) (j : nat) : list str :=
  match operators b !! j with Some o => items (wo_inputs o) | None => [] end.

(** How often [n] occurs. *)
Definition occurrences (n : str) (names : list str) : nat := length (filter (fun m => m = n) names).

(** The positions of an order at which [n] is read, once per read. *)
Definition reads (b : WireBlock) (n : str) (order : list nat) : list nat :=
  concat (imap (fun i j => replicate (occurrences n (inputs_of b j)) i) order).

Lemma reads_snoc b n order j :
  reads b n (order ++ [j]) = reads b n order ++ replicate (occurrences n (inputs_of b j)) (length order).
Proof. unfold reads. rewrite imap_app, concat_app. simpl. by rewrite Nat.add_0_r, app_nil_r. Qed.

Lemma occurrences_le n names : (occurrences n names <= length names)%nat.
Proof. apply length_filter. Qed.

Lemma length_reads b n order : (length (reads b n order) <= sum_list ((fun j => length (inputs_of b j)) <$> order))%nat.
Proof.
  induction order as [|j order IH] using rev_ind; [done|].
  rewrite reads_snoc, fmap_app, sum_list_with_app, length_app, length_replicate.
  pose proof (occurrences_le n (inputs_of b j)). simpl. lia.
Qed.

Section Use.
Context (b : WireBlock) (base ostart : nat).
Hypothesis Hnd : NoDup (symbols b).
Abbreviation slot := (slot b base).
Abbreviation values_are := (values_are b base).
Abbreviation operators_are := (operators_are b base ostart).
Abbreviation count := (length (operators b)).

(** The value of the symbol [n], with its producer. *)
Definition bound (n : str) (v : AnalyzedValue) : Prop :=
  (n, kind_symbol (av_kind v)) ∈ block_symbols b /\ av_name v = n /\
  forall q, av_producer v = Some q <-> exists j, q = (ostart + j)%nat /\ produces b j n.

(** A value read at the positions [rs]. *)
Definition used (rs : list nat) (v : AnalyzedValue) : Prop :=
  av_consumers v = zlen rs /\ av_first_use v = Z.of_nat <$> head rs /\ av_last_use v = Z.of_nat <$> last rs.

Lemma produced_bound n v : produced_by b ostart count [] n v -> bound n v /\ used [] v.
Proof.
  intros ((Hk & Hv & Hc & Hf & Hl & Hn) & Hp). split; [|done]. split; [done|]. split; [done|].
  intros q. rewrite Hp. split.
  - intros [(j & _ & ? & ?)|(_ & []%elem_of_nil & _)]. eauto.
  - intros (j & -> & Hj). left. exists j. split; [|done]. destruct Hj as (o & Ho & _). by apply lookup_lt_Some in Ho.
Qed.

Lemma used_snoc rs v p : used rs v ->
  used (rs ++ [p]) (value_with_use (av_consumers v + 1)
    (match av_first_use v with Some f => Some f | None => Some (Z.of_nat p) end) (Some (Z.of_nat p)) v).
Proof.
  intros (Hc & Hf & Hl). unfold used. cbn [av_consumers av_first_use av_last_use value_with_use].
  rewrite Hc, Hf, last_snoc, zlen_app. split; [done|]. split; [|done]. by destruct rs.
Qed.

Lemma record_uses_spec p ins vs (R : str -> list nat) : Z.of_nat p <= U32_MAX ->
  Forall (fun n => n ∈ symbols b) ins -> (forall n, zlen (R n) + zlen ins <= U32_MAX) ->
  values_are (fun n v => bound n v /\ used (R n) v) vs ->
  exists vs', record_uses p (slot <$> ins) vs = Some (Ok vs') /\
    values_are (fun n v => bound n v /\ used (R n ++ replicate (occurrences n ins) p) v) vs'.
Proof.
  intros Hp Hin. revert vs R. induction Hin as [|n ins Hn _ IH]; intros vs R HR Hvs.
  { exists vs. split; [done|]. eapply values_are_impl; [|exact Hvs]. intros n v [H1 H2]. by rewrite app_nil_r. }
  rewrite fmap_cons. cbn [record_uses]. destruct (proj2 Hvs n Hn) as (v & Hv & Hb & Hu). rewrite Hv. cbn [mbind option_bind].
  assert (av_consumers v = zlen (R n)) as Hc by apply Hu. pose proof (HR n) as HRn. unfold zlen in HRn. cbn [length] in HRn.
  unfold checked_add. rewrite (proj2 (Z.leb_le _ _)) by (unfold zlen in *; lia). rewrite position_ok by done.
  destruct (IH (<[slot n := value_with_use (av_consumers v + 1)
      (match av_first_use v with Some f => Some f | None => Some (Z.of_nat p) end) (Some (Z.of_nat p)) v]> vs)
    (fun m => R m ++ (if decide (n = m) then [p] else []))) as (vs' & -> & Hvs').
  - intros m. rewrite zlen_app. specialize (HR m). unfold zlen in *. simpl in HR. case_decide; simpl; lia.
  - eapply values_are_insert; [done|exact Hvs|done| |].
    + split; [done|]. rewrite decide_True by done. by apply used_snoc.
    + intros m w Hne [H1 H2]. split; [done|]. rewrite decide_False by done. by rewrite app_nil_r.
  - exists vs'. split; [done|]. eapply values_are_impl; [|exact Hvs']. intros m w [H1 H2]. split; [done|].
    rewrite <- app_assoc in H2. unfold occurrences in *. rewrite filter_cons. by destruct (decide (n = m)).
Qed.

(** ** Constant propagation *)

Lemma all_constants_total P ins vs : Forall (fun n => n ∈ symbols b) ins -> values_are P vs ->
  is_Some (all_constants (slot <$> ins) vs).
Proof.
  intros Hin Hvs. unfold all_constants. induction Hin as [|n ins Hn _ IH]; [by eexists|].
  rewrite fmap_cons. cbn [pall]. destruct (proj2 Hvs n Hn) as (v & -> & _). cbn [mbind option_bind].
  by case_bool_decide.
Qed.

Lemma total_bytes_total P outs vs k : Forall (fun n => n ∈ symbols b) outs -> values_are P vs ->
  is_Some (total_bytes (slot <$> outs) vs k).
Proof.
  intros Hout Hvs. revert k. induction Hout as [|n outs Hn _ IH]; intros k; [by eexists|].
  rewrite fmap_cons. cbn [total_bytes]. destruct (proj2 Hvs n Hn) as (v & -> & _). cbn [mbind option_bind].
  case_match; [apply IH|by eexists].
Qed.

(** Hints other than [DEAD] leave its bit alone. *)
Lemma with_hint_bit0 h k : Z.testbit k 0 = false -> Z.testbit (Hints.with_hint h k) 0 = Z.testbit h 0.
Proof. intros Hk. unfold Hints.with_hint. by rewrite Z.lor_spec, Hk, orb_false_r. Qed.

Lemma propagate_constants_spec options P j o a : (forall n v st, P n v -> P n (value_with_constant st v)) ->
  operators b !! j = Some o -> refs_resolve b o -> values_are P (ta_values a) -> operators_are count a ->
  exists a', propagate_constants options (ostart + j) a = Some a' /\ values_are P (ta_values a') /\
    operators_are count a' /\ ta_operands a' = ta_operands a /\ same_frame a a' /\
    (ao_execution_index <$> ta_operators a') = (ao_execution_index <$> ta_operators a).
Proof.
  intros HP Ho [Hri Hro] Hvs Hops. pose proof (lookup_lt_Some _ _ _ Ho) as Hj. unfold propagate_constants.
  destruct (proj2 Hops j o Hj Ho) as (ao & Hao & (Hid & Hop & Hin & Hout) & _). rewrite Hao. cbn [mbind option_bind].
  destruct (foldable_operator (ao_op ao)); cbn [negb]; [|by exists a]. rewrite Hin. cbn [mbind option_bind].
  destruct (all_constants_total P (items (wo_inputs o)) (ta_values a) Hri Hvs) as [c ->]. cbn [mbind option_bind].
  destruct c; cbn [negb]; [|by exists a]. rewrite Hout. cbn [mbind option_bind].
  destruct (total_bytes_total P (items (wo_outputs o)) (ta_values a) 0 Hro Hvs) as [t ->]. cbn [mbind option_bind].
  destruct t as [bytes|]; [|by exists a]. destruct (bytes <=? max_folded_constant_bytes options); [|by exists a].
  unfold update_at at 1. rewrite Hao. cbn [mbind option_bind].
  destruct (mark_constants_are b base Hnd P Foldable (items (wo_outputs o)) (ta_values a)) as (vs' & -> & Hvs'); [auto|done|done|].
  cbn [mbind option_bind]. eexists. split; [reflexivity|]. split; [exact Hvs'|]. split; [|split; [done|split; [done|]]].
  - eapply (operators_are_update b base ostart _ a j
      (fun o => operator_with_hints (Hints.with_hint (ao_hints o) Hints.FOLD_CONSTANT) o)); try done.
    + intros ao'. split_and!; try done. by apply with_hint_bit0.
    + unfold update_at. by rewrite Hao.
  - cbn [ta_operators set_values set_operators]. rewrite list_fmap_insert. apply list_insert_id.
    by rewrite list_lookup_fmap, Hao.
Qed.

(** ** The execution pass *)

(** The plan after the operators [done] ran, where [before] was the execution
    order of the earlier blocks. *)
Record executed (before done : list nat) (a : TosaAnalysis) : Prop := {
  ex_values : values_are (fun n v => bound n v /\ used (reads b n done) v) (ta_values a);
  ex_operators : operators_are count a;
  ex_positions : forall i j, done !! i = Some j ->
    (ao_execution_index <$> ta_operators a) !! (ostart + j)%nat = Some (Z.of_nat i);
  ex_order : ta_execution_order a = before ++ ((fun j => (ostart + j)%nat) <$> done);
}.

Definition order_reads (order : list nat) : nat := sum_list ((fun j => length (inputs_of b j)) <$> order).

Lemma order_reads_middle xs j ys :
  order_reads (xs ++ j :: ys) = (order_reads xs + length (inputs_of b j) + order_reads ys)%nat.
Proof. unfold order_reads. rewrite fmap_app, fmap_cons, sum_list_with_app. cbn [sum_list_with id]. lia. Qed.

Lemma execute_order_spec options before done rest a : NoDup (done ++ rest) ->
  Forall (fun j => (j < count)%nat) (done ++ rest) -> Forall (refs_resolve b) (operators b) ->
  Z.of_nat (length (done ++ rest)) <= U32_MAX -> Z.of_nat (order_reads (done ++ rest)) <= U32_MAX ->
  executed before done a ->
  exists a', execute_order options ostart rest (length done) a = Some (Ok a') /\ executed before (done ++ rest) a' /\
    ta_block_io a' = ta_block_io a /\ ta_blocks a' = ta_blocks a /\ ta_operands a' = ta_operands a.
Proof.
  revert done a. induction rest as [|j rest IH]; intros done a Hu Hr Hrefs Hlen Hsz Hex.
  { exists a. rewrite app_nil_r. done. }
  destruct Hex as [Hvs Hops Hpos Hord]. cbn [execute_order].
  assert (j < count)%nat as Hj.
  { rewrite Forall_forall in Hr. apply Hr, elem_of_app. right. by left. }
  destruct (lookup_lt_is_Some_2 (operators b) j Hj) as [o Ho].
  destruct (proj2 Hops j o Hj Ho) as (ao & Hao & (Hid & Hop & Hin & Hout) & Hh). rewrite Hao. cbn [mbind option_bind].
  assert (refs_resolve b o) as Hro by (rewrite Forall_forall in Hrefs; apply Hrefs; by eapply list_elem_of_lookup_2).
  rewrite length_app in Hlen. cbn [length] in Hlen. rewrite position_ok by lia.
  unfold update_at. rewrite Hao. cbn [mbind option_bind].
  set (a1 := set_execution_order _ _).
  assert (operators_are count a1) as Hops1.
  { eapply (operators_are_update b base ostart _ a j (operator_with_position (Z.of_nat (length done)))); try done.
    unfold update_at. by rewrite Hao. }
  change (ta_operands a1) with (ta_operands a). rewrite Hin. cbn [mbind option_bind]. change (ta_values a1) with (ta_values a).
  assert (inputs_of b j = items (wo_inputs o)) as Hio by (unfold inputs_of; by rewrite Ho).
  destruct (record_uses_spec (length done) (items (wo_inputs o)) (ta_values a) (fun n => reads b n done))
    as (vs & -> & Hvs1); [lia|apply Hro| |done|].
  { intros n. pose proof (length_reads b n done) as H.
    rewrite order_reads_middle, Hio in Hsz. fold (order_reads done) in H. unfold zlen. lia. }
  destruct (propagate_constants_spec options (fun n v => bound n v /\ used (reads b n done ++
      replicate (occurrences n (items (wo_inputs o))) (length done)) v) j o (set_values vs a1))
    as (a2 & -> & Hvs2 & Hops2 & Hk2 & (Hf1 & Hf2 & Hf3) & Hx2); try done.
  cbn [mbind option_bind]. rewrite <- (Nat.add_1_r (length done)).
  change (length done + 1)%nat with (length done + length [j])%nat. rewrite <- length_app.
  destruct (IH (done ++ [j]) a2) as (a3 & -> & H3 & Hf4 & Hf5 & Hf6); rewrite <- ?app_assoc; try done.
  { rewrite length_app. simpl. lia. }
  { constructor; [|done| |].
    - eapply values_are_impl; [|exact Hvs2]. intros n v [H1 H2]. split; [done|]. by rewrite reads_snoc, Hio.
    - intros i k Hik. rewrite Hx2. unfold a1. cbn [ta_operators set_values set_execution_order set_operators].
      rewrite list_fmap_insert. apply lookup_app_Some in Hik as [Hik|[Hle Hik]].
      + rewrite list_lookup_insert_ne; [by apply Hpos|]. intros E. apply NoDup_app in Hu as (_ & Hu & _).
        apply (Hu k); [by eapply list_elem_of_lookup_2|]. assert (k = j) as -> by lia. by left.
      + apply list_lookup_singleton_Some in Hik as [Hi ->].
        rewrite list_lookup_insert_eq; [f_equal; simpl; lia|]. rewrite length_fmap. by apply lookup_lt_Some in Hao.
    - rewrite Hf2. unfold a1. cbn [ta_execution_order set_values set_execution_order set_operators].
      rewrite Hord, Hid, fmap_app, <- app_assoc. done. }
  exists a3. rewrite <- app_assoc in H3. split; [done|]. split; [done|].
  split; [exact (eq_trans Hf4 Hf1)|]. split; [exact (eq_trans Hf5 Hf3)|exact (eq_trans Hf6 Hk2)].
Qed.

(** ** Block outputs *)

(** A value read at [rs] that lives to [last] when it is one of [outs]. *)
Definition lives (last_position : Z) (outs : list str) (rs : list nat) (n : str) (v : AnalyzedValue) : Prop :=
  av_consumers v = zlen rs /\ av_first_use v = Z.of_nat <$> head rs /\
  av_last_use v = if decide (n ∈ outs) then Some last_position else Z.of_nat <$> last rs.

Lemma extend_outputs_spec e names outs vs (R : str -> list nat) : Forall (fun n => n ∈ symbols b) names ->
  values_are (fun n v => bound n v /\ lives e outs (R n) n v) vs ->
  exists vs', extend_outputs e (slot <$> names) vs = Some vs' /\
    values_are (fun n v => bound n v /\ lives e (outs ++ names) (R n) n v) vs'.
Proof.
  intros Hn. revert outs vs. induction Hn as [|n names Hn _ IH]; intros outs vs Hvs.
  { exists vs. by rewrite app_nil_r. }
  rewrite fmap_cons. cbn [extend_outputs]. unfold update_at.
  destruct (proj2 Hvs n Hn) as (v & Hv & Hb & Hc & Hf & Hl). rewrite Hv. cbn [mbind option_bind].
  destruct (IH (outs ++ [n]) (<[slot n := value_with_use (av_consumers v) (av_first_use v) (Some e) v]> vs)) as (vs' & -> & Hvs').
  - eapply values_are_insert; [done|exact Hvs|done| |].
    + split; [done|]. split; [done|]. split; [done|]. rewrite decide_True; [done|]. apply elem_of_app. right. by left.
    + intros m w Hne (H1 & H2 & H3 & H4). split; [done|]. split; [done|]. split; [done|]. rewrite H4.
      rewrite (decide_ext (m ∈ outs) (m ∈ outs ++ [n])); [done|]. rewrite elem_of_app, list_elem_of_singleton. naive_solver.
  - exists vs'. split; [done|]. by rewrite <- app_assoc in Hvs'.
Qed.
End Use.

(** * Liveness of a planned block

    The walk over the reversed order marks exactly the operators that nothing
    needs: no block output, no side effect and no needed operator depends on
    them. *)

Definition side_effect (b : WireBlock) (j : nat) : Prop :=
  exists o, operators b !! j = Some o /\ has_side_effects (wo_op o) = true.

(** The operators whose work reaches a block output or a side effect. *)
Inductive needed (b : WireBlock) : nat -> Prop :=
  | needed_output j n : produces b j n -> n ∈ items (wb_outputs b) -> needed b j
  | needed_effect j : side_effect b j -> needed b j
  | needed_input j c n : needed b c -> consumes b c n -> produces b j n -> needed b j.

Section Live.
Context (b : WireBlock) (base ostart : nat).
Hypothesis Hnd : NoDup (symbols b).
Abbreviation slot := (slot b base).
Abbreviation values_are := (values_are b base).
Abbreviation count := (length (operators b)).
Abbreviation bound := (bound b ostart).

(** The operators of the block, planned, where [DEAD] is on those of [D]. *)
Definition hinted (D : nat -> Prop) (a : TosaAnalysis) : Prop :=
  length (ta_operators a) = (ostart + count)%nat /\
  forall j o, operators b !! j = Some o ->
    exists ao, ta_operators a !! (ostart + j)%nat = Some ao /\ planned b base ostart (ta_operands a) j o ao /\
      (Z.testbit (ao_hints ao) 0 = true <-> D j).

Lemma operators_hinted a : operators_are b base ostart count a -> hinted (fun _ => False) a.
Proof.
  intros [Hl Ho]. split; [done|]. intros j o Hj. destruct (Ho j o (lookup_lt_Some _ _ _ Hj) Hj) as (ao & Hao & Hp & Hh).
  exists ao. rewrite Hh. done.
Qed.

(** A change of hints of one operator. *)
Lemma hinted_update (D E : nat -> Prop) a j o h ao : hinted D a -> operators b !! j = Some o ->
  ta_operators a !! (ostart + j)%nat = Some ao -> (Z.testbit h 0 = true <-> E j) ->
  (forall k, k <> j -> D k <-> E k) ->
  hinted E (set_operators (<[(ostart + j)%nat := operator_with_hints h ao]> (ta_operators a)) a).
Proof.
  intros [Hl Ho] Hj Hao Hh HE. split; cbn [ta_operators set_operators]; [by rewrite length_insert|].
  intros k o' Hk. destruct (Ho k o' Hk) as (ak & Hak & Hpl & Hd). destruct (decide (k = j)) as [->|Hne].
  - rewrite list_lookup_insert_eq by (by apply lookup_lt_Some in Hao). eexists. split; [done|].
    rewrite Hao in Hak. injection Hak as <-. done.
  - rewrite list_lookup_insert_ne by lia. exists ak. split; [done|]. split; [done|]. rewrite Hd. by apply HE.
Qed.

(** ** Marking *)

Definition live_is (L : nat -> Prop) (live : list bool) : Prop :=
  length live = count /\ forall j, (j < count)%nat -> exists x, live !! j = Some x /\ (x = true <-> L j).

Lemma live_is_impl (L M : nat -> Prop) live : (forall j, L j <-> M j) -> live_is L live -> live_is M live.
Proof.
  intros H [Hl Hj]. split; [done|]. intros j Hc. destruct (Hj j Hc) as (x & Hx & Hi). exists x. by rewrite <- H.
Qed.

Lemma live_is_mark L live j : live_is L live -> (j < count)%nat ->
  exists live', update_at (fun _ => true) j live = Some live' /\ live_is (fun k => L k \/ k = j) live'.
Proof.
  intros [Hl Hj] Hc. unfold update_at. destruct (Hj j Hc) as (x & -> & _). cbn [mbind option_bind].
  eexists. split; [reflexivity|]. split; [by rewrite length_insert|]. intros k Hk.
  destruct (decide (k = j)) as [->|Hne].
  - exists true. rewrite list_lookup_insert_eq by lia. split; [done|]. split; [by right|done].
  - destruct (Hj k Hk) as (y & Hy & Hi). exists y. rewrite list_lookup_insert_ne by done. split; [done|].
    rewrite Hi. split; [by left|]. by intros [?|?].
Qed.

Lemma mark_producers_spec (P : str -> AnalyzedValue -> Prop) vs L names live :
  (forall n v, P n v -> bound n v) -> values_are P vs -> Forall (fun n => n ∈ symbols b) names -> live_is L live ->
  exists live', mark_producers ostart vs (slot <$> names) live = Some live' /\
    live_is (fun j => L j \/ exists n, n ∈ names /\ produces b j n) live'.
Proof.
  intros HP Hvs Hn. revert L live. induction Hn as [|n names Hn _ IH]; intros L live Hl.
  { exists live. split; [done|]. eapply live_is_impl; [|exact Hl]. intros j. split; [by left|].
    intros [?|(n & []%elem_of_nil & _)]. done. }
  rewrite fmap_cons. cbn [mark_producers]. unfold mark_producer.
  destruct (proj2 Hvs n Hn) as (v & Hv & Hb). rewrite Hv. cbn [mbind option_bind]. apply HP in Hb as (_ & _ & Hb).
  destruct (av_producer v) as [q|].
  - destruct (proj1 (Hb q) eq_refl) as (j & -> & Hj). rewrite (proj2 (Nat.ltb_ge _ _)) by lia.
    replace (ostart + j - ostart)%nat with j by lia.
    assert (j < count)%nat as Hjc by (destruct Hj as (o & Ho & _); by apply lookup_lt_Some in Ho).
    destruct (live_is_mark L live j Hl Hjc) as (l1 & -> & Hl1). cbn [mbind option_bind].
    destruct (IH _ _ Hl1) as (l2 & -> & Hl2). exists l2. split; [done|]. eapply live_is_impl; [|exact Hl2].
    intros k. setoid_rewrite elem_of_cons. split.
    + intros [[? | ->]|(m & ? & ?)]; [by left|right; exists n; auto|right; exists m; auto].
    + intros [?|(m & [->|Hm] & Hk)]; [by do 2 left| |right; eauto]. left. right.
      assert (Some (ostart + j)%nat = Some (ostart + k)%nat) as E.
      { apply Hb. by exists k. }
      injection E as E. lia.
  - cbn [mbind option_bind]. destruct (IH _ _ Hl) as (l2 & -> & Hl2). exists l2. split; [done|].
    eapply live_is_impl; [|exact Hl2]. intros k. setoid_rewrite elem_of_cons. split.
    + intros [?|(m & ? & ?)]; [by left|right; exists m; auto].
    + intros [?|(m & [->|Hm] & Hk)]; [by left| |right; eauto].
      assert (None = Some (ostart + k)%nat) as E by (apply Hb; by exists k). done.
Qed.

Lemma mark_effects_spec D a L order live : hinted D a -> Forall (fun j => (j < count)%nat) order -> live_is L live ->
  exists live', mark_effects ostart (ta_operators a) order live = Some live' /\
    live_is (fun j => L j \/ (j ∈ order /\ side_effect b j)) live'.
Proof.
  intros [_ Ho] Hr. revert L live. induction Hr as [|j order Hj _ IH]; intros L live Hl.
  { exists live. split; [done|]. eapply live_is_impl; [|exact Hl]. intros j. split; [by left|].
    intros [?|([]%elem_of_nil & _)]. done. }
  cbn [mark_effects]. destruct (lookup_lt_is_Some_2 (operators b) j Hj) as [o Hoj].
  destruct (Ho j o Hoj) as (ao & -> & (_ & Hop & _) & _). cbn [mbind option_bind]. rewrite Hop.
  destruct (has_side_effects (wo_op o)) eqn:He.
  - destruct (live_is_mark L live j Hl Hj) as (l1 & -> & Hl1). cbn [mbind option_bind].
    destruct (IH _ _ Hl1) as (l2 & -> & Hl2). exists l2. split; [done|]. eapply live_is_impl; [|exact Hl2].
    intros k. rewrite elem_of_cons. split; [|tauto].
    intros [[? | ->]|[? ?]]; [by left| |tauto]. right. split; [by left|]. by exists o.
  - cbn [mbind option_bind]. destruct (IH _ _ Hl) as (l2 & -> & Hl2). exists l2. split; [done|].
    eapply live_is_impl; [|exact Hl2]. intros k. rewrite elem_of_cons. split; [tauto|].
    intros [?|[[->|?] Hs]]; [by left| |tauto]. destruct Hs as (o' & Ho' & He'). simplify_eq. congruence.
Qed.

(** ** The walk over the reversed order *)

Hypothesis Hkept : forall p n, produces b p n -> n ∉ sources b.
Hypothesis Hrefs : Forall (refs_resolve b) (operators b).

(** What is known to be live once the operators [ds] were visited. *)
Definition live_after (ds : list nat) (j : nat) : Prop :=
  (exists n, produces b j n /\ n ∈ items (wb_outputs b)) \/ side_effect b j \/
  exists c n, c ∈ ds /\ needed b c /\ consumes b c n /\ produces b j n.

(** All consumers of the next operator were visited: it is live if needed. *)
Lemma live_after_needed rest ds c : plan_order b ((rest ++ [c]) ++ ds) -> live_after ds c <-> needed b c.
Proof.
  intros [Hperm Hord]. split.
  - intros [(n & Hp & Hn)|[He|(k & n & _ & Hk & Hc & Hp)]];
      [by eapply needed_output|by apply needed_effect|by eapply needed_input].
  - intros Hneed. destruct Hneed as [j n Hp Hn|j He|j k n Hk Hc Hp]; [left; eauto|right; by left|].
    right. right. exists k, n. split; [|done].
    destruct (Hord j k) as (x & y & Hx & Hy & Hlt); [exists n; split; [done|]; split; [by eapply Hkept|done]|].
    assert (NoDup ((rest ++ [j]) ++ ds)) as Hu by (rewrite Hperm; apply NoDup_seq).
    assert (((rest ++ [j]) ++ ds) !! length rest = Some j) as Hat.
    { rewrite lookup_app_l by (rewrite length_app; simpl; lia). by apply list_lookup_middle. }
    pose proof (NoDup_lookup _ _ _ _ Hu Hx Hat) as ->.
    rewrite lookup_app_r in Hy by (rewrite length_app; simpl; lia). by eapply list_elem_of_lookup_2.
Qed.

(** What the passes over the hints leave alone. *)
Definition same_but_hints (a a' : TosaAnalysis) : Prop :=
  ta_operands a' = ta_operands a /\ ta_values a' = ta_values a /\ ta_block_io a' = ta_block_io a /\
  ta_execution_order a' = ta_execution_order a /\ ta_blocks a' = ta_blocks a /\
  ao_execution_index <$> ta_operators a' = ao_execution_index <$> ta_operators a.

Lemma same_but_hints_trans a1 a2 a3 : same_but_hints a1 a2 -> same_but_hints a2 a3 -> same_but_hints a1 a3.
Proof. unfold same_but_hints. intros (?&?&?&?&?&?) (?&?&?&?&?&?). split_and!; congruence. Qed.

Lemma set_hints_same a i ao h : ta_operators a !! i = Some ao ->
  same_but_hints a (set_operators (<[i := operator_with_hints h ao]> (ta_operators a)) a).
Proof.
  intros Hi. unfold same_but_hints. cbn [ta_operands ta_values ta_block_io ta_execution_order ta_blocks ta_operators set_operators].
  split_and!; try done. rewrite list_fmap_insert. apply list_insert_id. by rewrite list_lookup_fmap, Hi.
Qed.

Lemma mark_dead_spec (P : str -> AnalyzedValue -> Prop) rest ds live a : (forall n v, P n v -> bound n v) ->
  plan_order b (rest ++ ds) -> values_are P (ta_values a) -> live_is (live_after ds) live ->
  hinted (fun j => j ∈ ds /\ ~ needed b j) a ->
  exists a', mark_dead ostart (rev rest) live a = Some a' /\
    hinted (fun j => j ∈ rest ++ ds /\ ~ needed b j) a' /\ same_but_hints a a'.
Proof.
  intros HP. revert ds live a. induction rest as [|c rest IH] using rev_ind; intros ds live a Hord Hvs Hl Hh.
  { by exists a. }
  rewrite rev_unit. cbn [mark_dead].
  assert (c < count)%nat as Hc.
  { destruct Hord as [Hperm _]. assert (c ∈ (rest ++ [c]) ++ ds) as Hin.
    { apply elem_of_app. left. apply elem_of_app. right. by left. }
    rewrite Hperm in Hin. apply elem_of_seq in Hin. lia. }
  destruct (lookup_lt_is_Some_2 (operators b) c Hc) as [o Ho].
  destruct (proj2 Hl c Hc) as (x & Hx & Hlive). rewrite Hx. cbn [mbind option_bind].
  rewrite (live_after_needed rest ds c Hord) in Hlive.
  destruct (proj2 Hh c o Ho) as (ao & Hao & (Hid & Hop & Hin & Hout) & Hbit).
  assert (c ∉ ds) as Hcds.
  { destruct Hord as [Hperm _]. assert (NoDup ((rest ++ [c]) ++ ds)) as Hu by (rewrite Hperm; apply NoDup_seq).
    apply NoDup_app in Hu as (_ & Hu & _). apply Hu, elem_of_app. right. by left. }
  rewrite <- app_assoc in Hord |- *. cbn [app] in Hord |- *. destruct x.
  - rewrite Hao. cbn [mbind option_bind]. rewrite Hin. cbn [mbind option_bind].
    assert (Forall (fun n => n ∈ symbols b) (items (wo_inputs o))) as Hri.
    { rewrite Forall_forall in Hrefs. by apply (Hrefs o), list_elem_of_lookup_2 with c. }
    destruct (mark_producers_spec P (ta_values a) _ (items (wo_inputs o)) live HP Hvs Hri Hl) as (l1 & -> & Hl1).
    cbn [mbind option_bind]. apply (IH (c :: ds) l1 a Hord Hvs).
    + eapply live_is_impl; [|exact Hl1]. intros j. unfold live_after. setoid_rewrite elem_of_cons. split.
      * intros [[?|[?|(k & n & ? & ?)]]|(n & Hn & Hp)]; [by left|right; by left|right; right; exists k, n; auto|].
        right. right. exists c, n. split; [by left|]. split; [by apply Hlive|]. split; [by exists o|done].
      * intros [?|[?|(k & n & [->|Hk] & Hnk & Hc' & Hp)]]; [by do 2 left|left; right; by left| |left; right; right; by exists k, n].
        right. destruct Hc' as (o' & Ho' & Hn). simplify_eq. eauto.
    + destruct Hh as [Hlen Hh]. split; [done|]. intros j o' Hj. destruct (Hh j o' Hj) as (aj & Haj & Hpl & Hb).
      exists aj. split; [done|]. split; [done|]. rewrite Hb, elem_of_cons. split; [tauto|].
      intros [[->|?] Hn]; [|done]. exfalso. apply Hn. by apply Hlive.
  - unfold update_at. rewrite Hao. cbn [mbind option_bind].
    destruct (IH (c :: ds) live (set_operators (<[(ostart + c)%nat :=
      operator_with_hints (Hints.with_hint (ao_hints ao) Hints.DEAD) ao]> (ta_operators a)) a)) as (a' & -> & Hh' & Hs'); try done.
    + eapply live_is_impl; [|exact Hl]. intros j. unfold live_after. setoid_rewrite elem_of_cons. split.
      * intros [?|[?|(k & n & ? & ?)]]; [by left|right; by left|right; right; exists k, n; auto].
      * intros [?|[?|(k & n & [->|Hk] & Hnk & Hc' & Hp)]]; [by left|right; by left| |right; right; by exists k, n].
        apply Hlive in Hnk. done.
    + eapply hinted_update; [exact Hh|done|done| |].
      * unfold Hints.with_hint. rewrite Z.lor_spec, orb_true_iff. split; [|by right].
        intros _. split; [by left|]. intros Hn. by apply Hlive in Hn.
      * intros k Hk. rewrite elem_of_cons. naive_solver.
    + exists a'. split; [done|]. split; [done|]. eapply same_but_hints_trans; [|exact Hs']. by apply set_hints_same.
Qed.

(** ** The other hints *)

Lemma composed_hints_spec ao inputs a h : (forall id, id ∈ inputs -> exists v, ta_values a !! id = Some v /\
    forall p, av_producer v = Some p -> is_Some (ta_operators a !! p)) ->
  exists h', composed_hints ao inputs a h = Some h' /\ Z.testbit h' 0 = Z.testbit h 0.
Proof.
  intros Hin. unfold composed_hints. destruct inputs as [|i inputs]; [eauto|].
  destruct (Hin i) as (v & -> & Hp); [by left|]. cbn [mbind option_bind].
  destruct (av_consumers v =? 1); cbn [negb]; [|eauto]. destruct (av_producer v) as [p|]; [|eauto].
  destruct (Hp p eq_refl) as [op ->]. cbn [mbind option_bind]. eexists. split; [reflexivity|].
  repeat case_match; rewrite ?with_hint_bit0 by reflexivity; done.
Qed.

Lemma add_hints_spec (P : str -> AnalyzedValue -> Prop) D order a : (forall n v, P n v -> bound n v) ->
  Forall (fun j => (j < count)%nat) order -> values_are P (ta_values a) -> hinted D a ->
  exists a', add_hints ostart order a = Some a' /\ hinted D a' /\ same_but_hints a a'.
Proof.
  intros HP Hr. revert a. induction Hr as [|c order Hc _ IH]; intros a Hvs Hh; [by exists a|].
  cbn [add_hints]. destruct (lookup_lt_is_Some_2 (operators b) c Hc) as [o Ho].
  destruct (proj2 Hh c o Ho) as (ao & Hao & (Hid & Hop & Hin & Hout) & Hbit). rewrite Hao. cbn [mbind option_bind].
  assert (Forall (fun n => n ∈ symbols b) (items (wo_inputs o))) as Hri.
  { rewrite Forall_forall in Hrefs. by apply (Hrefs o), list_elem_of_lookup_2 with c. }
  assert (exists h, operator_hints ao a = Some h /\ Z.testbit h 0 = Z.testbit (ao_hints ao) 0) as (h & -> & Hh0).
  { unfold operator_hints. rewrite Hin. cbn [mbind option_bind].
    edestruct composed_hints_spec as (h & -> & Hb); cycle 1.
    - exists h. split; [done|]. rewrite Hb. repeat case_match; rewrite ?with_hint_bit0 by reflexivity; done.
    - intros id (n & -> & Hn)%list_elem_of_fmap. rewrite Forall_forall in Hri.
      destruct (proj2 Hvs n (Hri n Hn)) as (v & Hv & Hpv). exists v. split; [done|]. intros p Hp.
      apply HP in Hpv as (_ & _ & Hpv). apply Hpv in Hp as (j & -> & Hj). destruct Hj as (oj & Hoj & _).
      destruct (proj2 Hh j oj Hoj) as (aj & -> & _). eauto. }
  cbn [mbind option_bind]. pose proof (set_hints_same a _ ao h Hao) as Hs.
  destruct (IH (set_operators (<[(ostart + c)%nat := operator_with_hints h ao]> (ta_operators a)) a)) as (a' & -> & Hh' & Hs').
  - done.
  - eapply hinted_update; [exact Hh|done|done|by rewrite Hh0|done].
  - exists a'. split; [done|]. split; [done|]. by eapply same_but_hints_trans.
Qed.

Lemma mark_live_and_hints_spec (P : str -> AnalyzedValue -> Prop) alloc block order a :
  (forall s, alloc s = true) -> (forall n v, P n v -> bound n v) -> plan_order b order -> values_are P (ta_values a) ->
  Forall (fun n => n ∈ symbols b) (items (wb_outputs b)) -> hinted (fun _ => False) a ->
  exists a', mark_live_and_hints alloc block ostart order (slot <$> items (wb_outputs b)) a = Some (Ok a') /\
    hinted (fun j => ~ needed b j) a' /\ same_but_hints a a'.
Proof.
  intros Ha HP Hord Hvs Hout Hh. unfold mark_live_and_hints. rewrite Ha. cbn [negb]. pose proof Hord as [Hperm _].
  assert (Forall (fun j => (j < count)%nat) order) as Hr.
  { rewrite Hperm. apply Forall_forall. intros j Hj%elem_of_seq. lia. }
  assert (length order = count) as Hlen by (rewrite Hperm; apply length_seq).
  destruct (mark_producers_spec P (ta_values a) (fun _ => False) (items (wb_outputs b)) (replicate (length order) false) HP Hvs Hout)
    as (l1 & -> & Hl1).
  { split; [by rewrite length_replicate|]. intros j Hj. exists false. split; [by rewrite lookup_replicate_2 by lia|done]. }
  cbn [mbind option_bind]. destruct (mark_effects_spec _ a _ order l1 Hh Hr Hl1) as (l2 & -> & Hl2). cbn [mbind option_bind].
  destruct (mark_dead_spec P order [] l2 a HP) as (a1 & -> & Hh1 & Hs1).
  - by rewrite app_nil_r.
  - done.
  - destruct Hl2 as [H1 H2]. split; [done|]. intros j Hj. destruct (H2 j Hj) as (x & Hx & Hi). exists x. split; [done|].
    rewrite Hi. unfold live_after. assert (j ∈ order) as Hin by (rewrite Hperm; apply elem_of_seq; lia).
    setoid_rewrite elem_of_nil. naive_solver.
  - destruct Hh as [H1 H2]. split; [done|]. intros j o Hj. destruct (H2 j o Hj) as (ao & ? & ? & Hb). exists ao.
    setoid_rewrite elem_of_nil. naive_solver.
  - cbn [mbind option_bind]. pose proof Hs1 as (Hk & Hv & _).
    destruct (add_hints_spec P _ order a1 HP Hr ltac:(by rewrite Hv) Hh1) as (a2 & -> & Hh2 & Hs2). cbn [mbind option_bind].
    exists a2. split; [done|]. split; [|by eapply same_but_hints_trans].
    destruct Hh2 as [H1 H2]. split; [done|]. intros j o Hj. destruct (H2 j o Hj) as (ao & ? & ? & Hb). exists ao.
    split; [done|]. split; [done|]. rewrite Hb, app_nil_r. split; [tauto|]. intros Hn. split; [|done].
    rewrite Hperm. apply elem_of_seq. apply lookup_lt_Some in Hj. lia.
Qed.
End Live.
