(* ===== verification/TosaPlanProps.v ===== *)
(** * The plan of a block

    [build_block] on a block of a model that parsing and semantic validation
    accept: the plan orders the operators, links every value to its producer and its
    reads, and marks the dead operators. *)

From Stdlib Require Import ZArith Lia.
From stdpp Require Import prelude list sorting.
From S2P Require Import Prelude TosaTypes TosaNumeric TosaArtifact TosaWire TosaValidate TosaGraph TosaView TosaSemantic TosaFlow TosaDataflow TosaNesting TosaShapeProps TosaAnalysis TosaPlanOrder TosaPlanLive.

Lemma contains_dead h : Hints.contains h Hints.DEAD = Z.testbit h 0.
Proof.
  unfold Hints.contains, Hints.DEAD. change (Z.shiftl 1 0) with (Z.ones 1). rewrite Z.land_ones by lia.
  rewrite Z.bit0_odd, Zmod_odd. by destruct (Z.odd h).
Qed.

(** ** The values before any operator *)

Section Initial.
Context (b : WireBlock) (block ostart : nat) (before : list AnalyzedValue).
Hypothesis Hnd : NoDup (symbols b).
Abbreviation base := (length before).

Definition block_values : list AnalyzedValue :=
  before ++ tensor_values block base (items (wb_tensors b)) ++
  shape_values_of block (base + length (items (wb_tensors b))) (items (wb_shapes b)).

Lemma fresh_new n k id size : (n, kind_symbol k) ∈ block_symbols b ->
  produced_by b ostart 0 [] n (new_value id block n k size).
Proof.
  intros Hin. split.
  - split; [done|]. split; [|done].
    apply (resolve_spec b Hnd) in Hin. pose proof (variable_symbol b Hnd n (kind_symbol k) Hin) as Hv.
    unfold is_variable_value, new_value. cbn [av_kind]. destruct k as [t|s]; cbn [kind_symbol is_variable_symbol] in Hv.
    + case_bool_decide as Hb; [by apply Hv|]. destruct (Tensor_is_variable t); [|done]. exfalso. by apply Hb, Hv.
    + case_bool_decide as Hb; [by apply Hv in Hb|done].
  - intros q. split; [done|]. intros [(j & ? & _)|(_ & []%elem_of_nil & _)]. lia.
Qed.

Lemma initial_values : values_are b base (produced_by b ostart 0 []) block_values.
Proof.
  unfold block_values. split.
  { rewrite !length_app, length_tensor_values, length_shape_values. unfold symbols, tensor_names, shape_names.
    by rewrite length_app, !length_fmap. }
  intros n [i Hi]%list_elem_of_lookup. rewrite (slot_at b base Hnd i n Hi), lookup_app_r by lia.
  replace (base + i - base)%nat with i by lia. unfold symbols, tensor_names, shape_names in Hi.
  apply lookup_app_Some in Hi as [Hi|[Hle Hi]]; rewrite list_lookup_fmap in Hi.
  - destruct (items (wb_tensors b) !! i) as [t|] eqn:Ht; [|done]. injection Hi as <-.
    eexists. rewrite lookup_app_l by (rewrite length_tensor_values; by apply lookup_lt_Some in Ht).
    rewrite (tensor_values_at _ _ _ _ _ Ht). split; [done|]. apply fresh_new, elem_of_app. left.
    apply list_elem_of_fmap. exists t. split; [done|]. by eapply list_elem_of_lookup_2.
  - rewrite length_fmap in Hle, Hi. destruct (items (wb_shapes b) !! (i - length (items (wb_tensors b)))%nat) as [s|] eqn:Hs; [|done].
    injection Hi as <-. eexists. rewrite lookup_app_r by (by rewrite length_tensor_values).
    rewrite length_tensor_values, (shape_values_at _ _ _ _ _ Hs). split; [done|]. apply fresh_new, elem_of_app. right.
    apply list_elem_of_fmap. exists s. split; [done|]. by eapply list_elem_of_lookup_2.
Qed.
End Initial.

(** ** The contract *)

(** The tables stay within the 32-bit indexes of the plan. *)
Record plan_fits (b : WireBlock) (a : TosaAnalysis) : Prop := {
  pf_blocks : Z.of_nat (length (ta_blocks a)) <= U32_MAX;
  pf_values : Z.of_nat (length (ta_values a) + length (symbols b)) <= U32_MAX;
  pf_block_io : Z.of_nat (length (ta_block_io a) + length (items (wb_inputs b)) + length (items (wb_outputs b))) <= U32_MAX;
  pf_operators : Z.of_nat (length (ta_operators a) + length (operators b)) <= U32_MAX;
  pf_operands : Z.of_nat (length (ta_operands a) + sum_list (op_edges <$> operators b)) <= U32_MAX;
  pf_conditions : Z.of_nat (length (ta_conditions a) + 6 * length (operators b)) <= U32_MAX;
  pf_order : Z.of_nat (length (ta_execution_order a) + length (operators b)) <= U32_MAX;
}.

(** [a'] is [a] with the plan of [b], which runs in the order [order]. *)
Record block_planned (b : WireBlock) (a : TosaAnalysis) (order : list nat) (a' : TosaAnalysis) : Prop := {
  bp_schedule : plan_order b order;
  bp_order : execution_order a' (length (ta_blocks a)) = Some ((fun j => (length (ta_operators a) + j)%nat) <$> order);
  bp_inputs : block_inputs a' (length (ta_blocks a)) = Some (slot b (length (ta_values a)) <$> items (wb_inputs b));
  bp_outputs : block_outputs a' (length (ta_blocks a)) = Some (slot b (length (ta_values a)) <$> items (wb_outputs b));
  bp_operator : forall i j, order !! i = Some j -> exists o ao,
    operators b !! j = Some o /\ analysis_operator a' (length (ta_operators a) + j) = Some ao /\
    ao_op ao = wo_op o /\ ao_execution_index ao = Z.of_nat i /\
    operator_inputs a' (length (ta_operators a) + j) = Some (slot b (length (ta_values a)) <$> items (wo_inputs o)) /\
    operator_outputs a' (length (ta_operators a) + j) = Some (slot b (length (ta_values a)) <$> items (wo_outputs o)) /\
    (Hints.contains (ao_hints ao) Hints.DEAD = true <-> ~ needed b j);
  bp_value : forall n, n ∈ symbols b -> exists v,
    analysis_value a' (slot b (length (ta_values a)) n) = Some v /\ bound b (length (ta_operators a)) n v /\
    av_consumers v = zlen (reads b n order) /\ av_first_use v = Z.of_nat <$> head (reads b n order) /\
    av_last_use v = if decide (n ∈ items (wb_outputs b)) then Some (Z.of_nat (length (operators b)))
                    else Z.of_nat <$> last (reads b n order);
}.

(** ** The proof *)

Lemma sum_inputs_le (os : list WireOperator) :
  sum_by (fun o => zlen (items (wo_inputs o))) os <= Z.of_nat (sum_list (op_edges <$> os)).
Proof.
  induction os as [|o os IH]; [done|]. rewrite fmap_cons. change (sum_list (?x :: ?l)) with (x + sum_list l)%nat.
  change (sum_by ?f (o :: os)) with (f o + sum_by f os). cbn beta. unfold op_edges at 1. unfold zlen at 1. lia.
Qed.

Lemma order_reads_perm b order : order ≡ₚ seq 0 (length (operators b)) ->
  Z.of_nat (order_reads b order) <= Z.of_nat (sum_list (op_edges <$> operators b)).
Proof.
  intros Hp. unfold order_reads. rewrite Hp.
  assert (((fun j => length (inputs_of b j)) <$> seq 0 (length (operators b))) =
          (fun o => length (items (wo_inputs o))) <$> operators b) as ->.
  { apply list_eq. intros i. rewrite !list_lookup_fmap. destruct (operators b !! i) as [o|] eqn:E.
    - rewrite lookup_seq_lt by (by apply lookup_lt_Some in E). simpl. unfold inputs_of. by rewrite E.
    - rewrite lookup_seq_ge by (by apply lookup_ge_None in E). done. }
  clear Hp. induction (operators b) as [|o os IH]; [done|]. rewrite !fmap_cons.
  do 2 change (sum_list (?x :: ?l)) with (x + sum_list l)%nat. unfold op_edges at 1. lia.
Qed.

(** Pushing operators leaves the conditions alone. *)
Lemma push_inputs_conditions table names a a' : push_inputs table names a = Some a' -> ta_conditions a' = ta_conditions a.
Proof.
  revert a. induction names as [|n names IH]; intros a; cbn [push_inputs]; [by intros [= <-]|].
  destruct (search_by_name table n); [|done]. cbn [mbind option_bind]. intros H. by rewrite (IH _ H).
Qed.

Lemma push_outputs_conditions table id names a a' : push_outputs table id names a = Some a' ->
  ta_conditions a' = ta_conditions a.
Proof.
  revert a. induction names as [|n names IH]; intros a; cbn [push_outputs]; [by intros [= <-]|].
  destruct (search_by_name table n) as [k|]; [|done]. cbn [mbind option_bind].
  destruct (ta_values _ !! k); [|done]. cbn [mbind option_bind]. intros H. rewrite (IH _ H). by case_match.
Qed.

Lemma push_operator_conditions table block i o a a' s : push_operator table block i o a = Some (Ok (a', s)) ->
  ta_conditions a' = ta_conditions a.
Proof.
  unfold push_operator. destruct (from_usize _) as [id|]; [|done].
  destruct (push_inputs _ _ _) as [a1|] eqn:E1; [|done]. cbn [mbind option_bind].
  destruct (AnalysisSpan_new _ _) as [s1|]; [|done]. destruct (push_outputs _ _ _ _) as [a2|] eqn:E2; [|done]. cbn [mbind option_bind].
  destruct (AnalysisSpan_new _ _) as [s2|]; [|done]. intros H.
  assert (exists a3, ta_conditions a3 = ta_conditions a2 /\ ta_conditions a' = ta_conditions a3) as (a3 & H3 & ->).
  { destruct (is_constant_op o).
    - destruct (span_slice _ _); [|done]. cbn [mbind option_bind] in H. destruct (mark_constants _ _ _); [|done].
      cbn [mbind option_bind] in H. destruct (position_u32 i); [|done]. injection H as <- _. eexists. split; [|done]. done.
    - cbn [mbind option_bind] in H. destruct (position_u32 i); [|done]. injection H as <- _. by eexists. }
  by rewrite H3, (push_outputs_conditions _ _ _ _ _ E2), (push_inputs_conditions _ _ _ _ E1).
Qed.

Lemma push_operators_conditions table block os i a spans a' spans' :
  push_operators table block os i a spans = Some (Ok (a', spans')) -> ta_conditions a' = ta_conditions a.
Proof.
  revert i a spans. induction os as [|o os IH]; intros i a spans; cbn [push_operators]; [by intros [= <- _]|].
  destruct (push_operator table block i o a) as [[[a1 s]|]|] eqn:E; try done. intros H.
  by rewrite (IH _ _ _ H), (push_operator_conditions _ _ _ _ _ _ _ E).
Qed.

Section Build.
Context (alloc : list nat -> bool) (target : Target) (options : AnalysisOptions) (region : nat).
Context (bytes : list Z) (limits : Limits) (b : WireBlock) (a : TosaAnalysis).
Hypothesis Halloc : forall s, alloc s = true.
Hypothesis Hname : named limits (wb_name b).
Hypothesis Hwf : block_wf bytes limits b.
Hypothesis Hflow : dataflow_wf b.
Hypothesis Hconditions : Forall (condition_ready b) (operators b).
Hypothesis Hfits : plan_fits b a.

Abbreviation base := (length (ta_values a)).
Abbreviation ostart := (length (ta_operators a)).
Abbreviation table := (sort_by_name (number base (symbols b))).

Lemma block_symbols_nodup : NoDup (symbols b).
Proof. by destruct Hwf as (_ & _ & ? & _). Qed.

Lemma refs_symbols refs : refs_wf limits (symbols b) refs -> Forall (fun n => n ∈ symbols b) (items refs).
Proof. intros H. eapply Forall_impl; [exact H|]. by intros n [_ Hn]. Qed.

Lemma block_refs : Forall (refs_resolve b) (operators b).
Proof.
  destruct Hwf as (_ & _ & _ & _ & _ & Ho & _). eapply Forall_impl; [exact Ho|].
  intros o (_ & _ & _ & Hi & Hu). split; by apply refs_symbols.
Qed.

Lemma block_dataflow_ready : dataflow_ready b.
Proof.
  destruct Hfits as [_ Hv Hio _ Hk _ _]. eapply block_wf_ready; [exact Hwf| |].
  - unfold symbols, tensor_names in Hv. rewrite length_app, length_fmap in Hv. unfold zlen. lia.
  - pose proof (sum_inputs_le (operators b)). lia.
Qed.

(** The symbols of the block and its interface. *)
Lemma push_symbols_spec block_id :
  exists a1, push_tensors block_id (items (wb_tensors b)) a [] = Some (Ok (a1, number base (tensor_names b))) /\
    push_shapes block_id (items (wb_shapes b)) a1 (number base (tensor_names b)) =
      Some (Ok (set_values (block_values b block_id (ta_values a)) a, number base (symbols b))).
Proof.
  destruct Hwf as (Ht & Hs & _). destruct Hfits as [_ Hv _ _ _ _ _].
  unfold symbols, tensor_names, shape_names in *. rewrite length_app, !length_fmap in Hv.
  eexists. rewrite push_tensors_spec; cycle 1.
  { eapply Forall_impl; [exact Ht|]. intros t [Hn _]. by eapply named_Some. }
  { lia. }
  split; [reflexivity|]. rewrite push_shapes_spec; cbn [ta_values set_values]; rewrite ?length_app, ?length_tensor_values; cycle 1.
  { eapply Forall_impl; [exact Hs|]. intros s [Hn _]. by eapply named_Some. }
  { lia. }
  unfold block_values. by rewrite number_app, length_fmap, app_assoc.
Qed.

Abbreviation slots names := (slot b base <$> names).

(** The plan once its interface and operators are pushed. *)
Lemma push_block_spec block_id : let a1 := set_values (block_values b block_id (ta_values a)) a in
  let a2 := set_block_io ((ta_block_io a ++ slots (items (wb_inputs b))) ++ slots (items (wb_outputs b))) a1 in
  exists a3 a4, push_operators table block_id (operators b) 0 a2 [] =
      Some (Ok (a3, ao_inputs <$> drop ostart (ta_operators a3))) /\
    push_conditions alloc target (operators b) ostart a3 = Some (Ok a4) /\ pushed b base ostart a4 /\
    ao_inputs <$> drop ostart (ta_operators a3) = ao_inputs <$> drop ostart (ta_operators a4) /\
    same_frame a2 a4.
Proof.
  intros a1 a2. pose proof block_symbols_nodup as Hnd. pose proof Hwf as (_ & _ & _ & _ & _ & _ & Hprod).
  destruct Hfits as [_ _ _ Ho Hk Hc _].
  destruct (push_operators_spec b base ostart Hnd Hprod block_id (operators b) 0 a2 []) as (a3 & H3 & Hv3 & Ho3 & Hf3).
  - by rewrite drop_0.
  - lia.
  - exact block_refs.
  - apply initial_values. exact Hnd.
  - split; [simpl; lia|]. intros j o Hj. lia.
  - unfold a2, a1. cbn [ta_operators set_block_io set_values]. by rewrite drop_all.
  - done.
  - exact Hk.
  - assert (ta_conditions a3 = ta_conditions a) as Hc3 by (by rewrite (push_operators_conditions _ _ _ _ _ _ _ _ H3)).
    destruct (push_conditions_spec b base ostart Hnd alloc target (operators b) 0 a3 Halloc) as (a4 & H4 & Hp4 & Hf4 & _ & _ & Hi4).
    + by rewrite drop_0.
    + lia.
    + done.
    + exact block_refs.
    + by constructor.
    + by rewrite Hc3.
    + exists a3, a4. split; [done|]. rewrite Nat.add_0_r in H4. split; [done|]. split; [done|]. split.
      * by rewrite !fmap_drop, Hi4.
      * exact (same_frame_trans a2 a3 a4 Hf3 Hf4).
Qed.

(** The execution pass and the hints, from the pushed plan. *)
Lemma finish_block_spec block_id a4 outs_span : pushed b base ostart a4 ->
  ta_execution_order a4 = ta_execution_order a ->
  span_slice outs_span (ta_block_io a4) = Some (slots (items (wb_outputs b))) ->
  exists order a5 vs a7, plan_order b order /\
    topological_order (fun k => alloc [block_id; (3 + k)%nat]) ostart (ta_values a4) (ta_operands a4)
      (ao_inputs <$> drop ostart (ta_operators a4)) (length (operators b)) = Some (Ok order) /\
    execute_order options ostart order 0 a4 = Some (Ok a5) /\
    span_slice outs_span (ta_block_io a5) = Some (slots (items (wb_outputs b))) /\
    extend_outputs (Z.of_nat (length (operators b))) (slots (items (wb_outputs b))) (ta_values a5) = Some vs /\
    mark_live_and_hints alloc block_id ostart order (slots (items (wb_outputs b))) (set_values vs a5) = Some (Ok a7) /\
    values_are b base (fun n v => bound b ostart n v /\
      lives (Z.of_nat (length (operators b))) (items (wb_outputs b)) (reads b n order) n v) (ta_values a7) /\
    hinted b base ostart (fun j => ~ needed b j) a7 /\
    (forall i j, order !! i = Some j -> (ao_execution_index <$> ta_operators a7) !! (ostart + j)%nat = Some (Z.of_nat i)) /\
    ta_execution_order a7 = ta_execution_order a ++ ((fun j => (ostart + j)%nat) <$> order) /\
    ta_block_io a7 = ta_block_io a4 /\ ta_blocks a7 = ta_blocks a4.
Proof.
  intros Hp Hx Hsl. pose proof block_symbols_nodup as Hnd. destruct Hflow as [Hkept _ _ Hsched].
  destruct Hfits as [_ _ _ Ho Hk _ _]. pose proof Hwf as (_ & _ & _ & _ & Hout & _). apply refs_symbols in Hout.
  destruct (topological_order_spec b base ostart block_dataflow_ready Hkept block_refs
    (fun k => alloc [block_id; (3 + k)%nat]) a4) as (order & Htop & Hord); [intros k; apply Halloc|done|done|].
  pose proof Hord as [Hperm _]. pose proof (order_reads_perm b order Hperm) as Hr.
  destruct (execute_order_spec b base ostart Hnd options (ta_execution_order a) [] order a4) as (a5 & H5 & Hex & Hf1 & Hf2 & Hf3).
  - rewrite app_nil_l, Hperm. apply NoDup_seq.
  - rewrite app_nil_l, Hperm. apply Forall_forall. intros j Hj%elem_of_seq. lia.
  - exact block_refs.
  - rewrite app_nil_l, Hperm, length_seq. lia.
  - rewrite app_nil_l. lia.
  - constructor; [|apply Hp|done|by rewrite app_nil_r].
    eapply values_are_impl; [|apply Hp]. intros n v Hn. by apply produced_bound.
  - rewrite app_nil_l in Hex. destruct Hex as [Hv5 Ho5 Hpos5 Hx5].
    destruct (extend_outputs_spec b base ostart Hnd (Z.of_nat (length (operators b))) (items (wb_outputs b)) [] (ta_values a5)
      (fun n => reads b n order)) as (vs & Hvs & Hv6); [done| |].
    { eapply values_are_impl; [|exact Hv5]. intros n v [? (? & ? & ?)]. split; [done|]. split; [done|]. split; [done|].
      by rewrite decide_False by apply not_elem_of_nil. }
    rewrite app_nil_l in Hv6.
    destruct (mark_live_and_hints_spec b base ostart Hkept block_refs _ alloc block_id order
      (set_values vs a5) Halloc (fun n v H => proj1 H) Hord Hv6 Hout) as (a7 & H7 & Hh7 & Hs7).
    { exact (operators_hinted b base ostart _ Ho5). }
    destruct Hs7 as (S1 & S2 & S3 & S4 & S5 & S6).
    exists order, a5, vs, a7. rewrite Hf1, S2, S3, S4, S5, S6.
    split_and!; done.
Qed.

(** The whole block. *)
Lemma build_block_spec : exists a' order, build_block alloc target options region b a = Some (Ok a') /\
  block_planned b a order a'.
Proof.
  pose proof block_symbols_nodup as Hnd. pose proof Hfits as [Hb Hv Hio Ho Hk Hc Hx].
  pose proof Hwf as (_ & _ & _ & Hin & Hout & _). apply refs_symbols in Hin, Hout.
  destruct (push_symbols_spec (length (ta_blocks a))) as (a1 & Ha1 & Ha2).
  destruct (push_block_spec (length (ta_blocks a))) as (a3 & a4 & H3 & H4 & Hp4 & Hspans & (Hf1 & Hf2 & Hf3)).
  cbn [ta_block_io ta_execution_order ta_blocks set_block_io set_values] in Hf1, Hf2, Hf3.
  set (io := ta_block_io a) in *. set (ins := slots (items (wb_inputs b))) in *. set (outs := slots (items (wb_outputs b))) in *.
  assert (length ins = length (items (wb_inputs b))) as Hli by apply length_fmap.
  assert (length outs = length (items (wb_outputs b))) as Hlo by apply length_fmap.
  set (ins_span := {| span_start := length io; span_len := length ins |}).
  set (outs_span := {| span_start := (length io + length ins)%nat; span_len := length outs |}).
  assert (span_slice outs_span (ta_block_io a4) = Some outs) as Hso by (unfold outs_span; rewrite Hf1, <- length_app; apply span_slice_new).
  destruct (finish_block_spec (length (ta_blocks a)) a4 outs_span Hp4 Hf2 Hso)
    as (order & a5 & vs & a7 & Hord & Htop & H5 & Hso5 & Hext & Hlive & Hv7 & Hh7 & Hpos & Hx7 & Hio7 & Hb7).
  destruct (named_Some _ _ Hname) as [bn Hbn]. pose proof Hord as [Hperm _].
  assert (length order = length (operators b)) as Hlord by (rewrite Hperm; apply length_seq).
  assert (length (ta_execution_order a4) = length (ta_execution_order a)) as Hx4 by (by rewrite Hf2).
  eexists _, order. split.
  { unfold build_block. rewrite from_usize_ok by done. rewrite !Halloc. cbn [negb orb]. rewrite Ha1, Ha2.
    rewrite push_block_io_spec by done. cbn [mbind option_bind]. cbn [ta_block_io set_block_io set_values].
    fold io ins. rewrite length_app. replace (length io + length ins - length io)%nat with (length ins) by lia.
    rewrite span_new_ok by lia. rewrite push_block_io_spec by done. cbn [mbind option_bind].
    cbn [ta_block_io set_block_io set_values]. fold outs. rewrite !length_app.
    replace (length io + length ins + length outs - (length io + length ins))%nat with (length outs) by lia.
    rewrite span_new_ok by lia. fold outs_span ins_span.
    change (items (wb_operators b)) with (operators b).
    match goal with |- context [push_operators _ _ _ _ ?x _] => change x with
      (set_block_io ((io ++ ins) ++ outs) (set_values (block_values b (length (ta_blocks a)) (ta_values a)) a)) end.
    rewrite H3, H4, Hspans, Htop, H5, position_ok by lia. rewrite Hso5. cbn [mbind option_bind]. rewrite Hext. cbn [mbind option_bind].
    rewrite Hlive. unfold BasicBlock_name. rewrite Hbn. cbn [mbind option_bind].
    rewrite (proj1 Hv7), (proj1 Hh7), Hx4, Hx7, length_app, length_fmap.
    rewrite !span_new_ok by lia. reflexivity. }
  assert (forall ab, ta_blocks (set_blocks (ta_blocks a7 ++ [ab]) a7) !! length (ta_blocks a) = Some ab) as Hlast.
  { intros ab. cbn [ta_blocks set_blocks]. rewrite Hb7, Hf3. by apply list_lookup_middle. }
  constructor.
  - done.
  - unfold execution_order. rewrite Hlast. cbn [mbind option_bind ta_execution_order set_blocks ab_execution_order]. rewrite Hx7.
    replace (length (ta_execution_order a) + length order - length (ta_execution_order a))%nat
      with (length ((fun j => (ostart + j)%nat) <$> order)) by (rewrite length_fmap; lia).
    apply span_slice_new.
  - unfold block_inputs. rewrite Hlast. cbn [mbind option_bind ta_block_io set_blocks ab_inputs]. rewrite Hio7, Hf1.
    apply span_slice_app, span_slice_new.
  - unfold block_outputs. rewrite Hlast. cbn [mbind option_bind ta_block_io set_blocks ab_outputs]. by rewrite Hio7.
  - intros i j Hij. pose proof (Hpos i j Hij) as Hij'.
    assert (j < length (operators b))%nat as Hj.
    { apply list_elem_of_lookup_2 in Hij. rewrite Hperm in Hij. apply elem_of_seq in Hij. lia. }
    destruct (lookup_lt_is_Some_2 (operators b) j Hj) as [o Hoj].
    destruct (proj2 Hh7 j o Hoj) as (ao & Hao & (_ & Hop & Hi & Hu) & Hbit). exists o, ao.
    rewrite list_lookup_fmap, Hao in Hij'. injection Hij' as Hij'. rewrite contains_dead.
    unfold operator_inputs, operator_outputs, analysis_operator. cbn [ta_operators ta_operands set_blocks]. rewrite Hao. done.
  - intros n Hn. destruct (proj2 Hv7 n Hn) as (v & Hvn & Hbound & Hl). exists v. done.
Qed.
End Build.

(** ** What semantic validation gives *)

Section Accepted.
Context (alloc : list nat -> bool) (m : Model) (target : Target).

Lemma tensor_symbols_ok region block tensors acc symbols :
  Forall (fun t => is_Some (Tensor_name t)) tensors ->
  tensor_symbols m target region block tensors acc = Some (Ok symbols) ->
  symbols = acc ++ ((fun t => (the_name (wt_name t), STensor t)) <$> tensors).
Proof.
  revert acc. induction tensors as [|t tensors IH]; intros acc; cbn [tensor_symbols].
  { intros _ [= <-]. by rewrite app_nil_r. }
  intros [[n Hn] Ht]%Forall_cons. destruct (validate_tensor_encoding _ _) as [[]|]; cbn [mbind option_bind]; [|done..].
  destruct (negb _); [done|]. destruct (variable_invalid _ _); [done|]. rewrite Hn. cbn [mbind option_bind].
  intros Hs. rewrite (IH _ Ht Hs), <- app_assoc. unfold Tensor_name in Hn. by rewrite fmap_cons, Hn.
Qed.

Lemma shape_symbols_ok region block shapes acc symbols :
  Forall (fun s => is_Some (Shape_name s)) shapes ->
  shape_symbols target region block shapes acc = Some (Ok symbols) ->
  symbols = acc ++ ((fun s => (the_name (ws_name s), SShape s)) <$> shapes).
Proof.
  revert acc. induction shapes as [|s shapes IH]; intros acc; cbn [shape_symbols].
  { intros _ [= <-]. by rewrite app_nil_r. }
  intros [[n Hn] Ht]%Forall_cons. destruct (shape_within_level _ _) as [[]|]; cbn [mbind option_bind negb]; [|done..].
  rewrite Hn. cbn [mbind option_bind].
  intros Hs. rewrite (IH _ Ht Hs), <- app_assoc. unfold Shape_name in Hn. by rewrite fmap_cons, Hn.
Qed.

Lemma operators_loop_ok region block symbols names constants os k :
  operators_loop alloc m target region block symbols names constants os k = Some (Ok tt) ->
  Forall (fun o => exists inputs outputs, resolve_all symbols (items (wo_inputs o)) = Some inputs /\
    semantic_operator m o inputs outputs target names constants = Some (Ok tt)) os.
Proof.
  revert k. induction os as [|o os IH]; intros k; cbn [operators_loop]; [constructor|].
  destruct (_ || _); [done|]. destruct (resolve_all _ (items (wo_inputs o))) as [inputs|] eqn:Hi; [|done].
  destruct (resolve_all _ (items (wo_outputs o))) as [outputs|]; [|done]. cbn [mbind option_bind].
  destruct (semantic_operator _ _ _ _ _ _ _) as [[[]|]|] eqn:Ho; cbn [mbind option_bind]; [|done..]. intros Hs.
  constructor; [by exists inputs, outputs|by eapply IH].
Qed.

Lemma resolve_all_lookup symbols names ss i n : resolve_all symbols names = Some ss -> names !! i = Some n ->
  exists s, ss !! i = Some s /\ resolve symbols n = Some s.
Proof.
  revert ss i. induction names as [|x names IH]; intros ss i; cbn [resolve_all]; [done|].
  destruct (resolve symbols x) as [s|] eqn:Hx; [|done]. cbn [mbind option_bind].
  destruct (resolve_all symbols names) as [rest|]; [|done]. cbn [mbind option_bind]. intros [= <-].
  destruct i as [|i]; [intros [= <-]; by exists s|]. intros Hi. by apply (IH rest).
Qed.

Lemma resolve_all_length symbols names ss : resolve_all symbols names = Some ss -> length ss = length names.
Proof.
  revert ss. induction names as [|x names IH]; intros ss; cbn [resolve_all]; [by intros [= <-]|].
  destruct (resolve symbols x); [|done]. cbn [mbind option_bind].
  destruct (resolve_all symbols names) as [rest|]; [|done]. cbn [mbind option_bind]. intros [= <-].
  simpl. by rewrite (IH rest).
Qed.

(** An operator that passes the semantic check has the operands and attributes
    the plan reads. *)
Lemma semantic_operator_ready b names constants o inputs outputs : NoDup (symbols b) ->
  resolve_all (sort_by_name (block_symbols b)) (items (wo_inputs o)) = Some inputs ->
  semantic_operator m o inputs outputs target names constants = Some (Ok tt) -> condition_ready b o.
Proof.
  intros Hnd Hi. unfold semantic_operator, Operator_op. destruct (arity (wo_op o)) as [r|] eqn:Hr; [|done].
  cbn [mbind option_bind]. destruct (Arity_accepts r _ _) eqn:Ha; [|done]. cbn [negb].
  destruct (validate_tensor_list_limit _ _ _ _) as [[]|]; [|done].
  destruct (validate_operand_kinds _ _ _) as [[]|] eqn:Hk; [|done].
  destruct (validate_ranks _ _ _ _) as [[[]|]|]; [|done..].
  destruct (Operator_attributes o) as [attributes|] eqn:Hat; [|done]. intros _.
  assert (Hn : needed_inputs (wo_op o) <= zlen (items (wo_inputs o))).
  { pose proof (needed_inputs_arity _ _ Hr). unfold Arity_accepts in Ha. repeat (apply andb_true_iff in Ha as [Ha ?]).
    apply Z.leb_le in Ha. unfold zlen in *. rewrite (resolve_all_length _ _ _ Hi) in Ha. lia. }
  split; [by rewrite Hat|]. split; [done|]. intros Hop.
  destruct (items (wo_inputs o)) as [|n rest] eqn:Hin.
  { exfalso. assert (1 <= needed_inputs (wo_op o)) by (destruct Hop as [->| ->]; vm_compute; discriminate).
    change (zlen (@nil str)) with 0 in Hn. lia. }
  destruct (resolve_all_lookup _ _ _ 0%nat n Hi eq_refl) as (s & Hs & Hres).
  unfold validate_operand_kinds in Hk. destruct inputs as [|s' inputs']; [done|]. injection Hs as ->.
  exists n. destruct s as [t|sh].
  - exists t. split; [done|]. by apply (resolve_spec b Hnd).
  - exfalso. cbn [check_kinds] in Hk. rewrite bool_decide_false in Hk; [done|].
    destruct Hop as [->| ->]; vm_compute; set_solver.
Qed.

(** A check that passes passes also when no reservation fails. *)
Lemma validate_dataflow_reserved f symbols region k b :
  validate_dataflow f symbols region k b = Some (Ok tt) ->
  validate_dataflow (fun _ => true) symbols region k b = Some (Ok tt).
Proof.
  unfold validate_dataflow. destruct (checked_add _ _ _); [|done]. cbn [negb].
  destruct (f 0%nat); [|done]. destruct (collect_names _ _); [|done]. cbn [mbind option_bind negb].
  destruct (f 1%nat); [|done]. destruct (collect_producers _ _ _ _ _ _ _ _) as [[]|]; [|done..]. cbn [negb].
  destruct (f 2%nat); [|done]. destruct (f 3%nat); [|done]. cbn [negb].
  destruct (collect_edges _ _ _ _ _ _ _ _) as [[[]|]|]; [|done..]. destruct (negb _); [done|]. by destruct (f 4%nat).
Qed.

Lemma semantic_block_accepted bytes limits names region k b : block_wf bytes limits b ->
  zlen (items (wb_inputs b)) + zlen (items (wb_tensors b)) <= USIZE_MAX ->
  sum_by (fun o => zlen (items (wo_inputs o))) (operators b) <= USIZE_MAX ->
  semantic_block alloc m target names region k b = Some (Ok tt) ->
  dataflow_wf b /\ Forall (condition_ready b) (operators b).
Proof.
  intros Hwf H1 H2. pose proof Hwf as (Ht & Hsh & Hnd & _). unfold semantic_block. destruct (negb _); [done|].
  destruct (tensor_symbols _ _ _ _ _ _) as [[s1|]|] eqn:Hs1; [|done..].
  destruct (shape_symbols _ _ _ _ _) as [[s2|]|] eqn:Hs2; [|done..].
  apply tensor_symbols_ok in Hs1 as ->; [|eapply Forall_impl; [exact Ht|]; intros t [Hn _]; by eapply named_Some].
  apply shape_symbols_ok in Hs2 as ->; [|eapply Forall_impl; [exact Hsh|]; intros t [Hn _]; by eapply named_Some].
  change (([] ++ _) ++ _) with (block_symbols b). destruct (constant_count _); [|done]. destruct (negb _); [done|].
  destruct (graph_io_tensors _ _) as [[]|]; cbn [mbind option_bind negb]; [|done..].
  destruct (validate_dataflow _ _ _ _ _) as [[[]|]|] eqn:Hd; [|done..]. intros Ho. split.
  - apply validate_dataflow_reserved in Hd.
    destruct (validate_dataflow_exact b region k (block_wf_ready _ _ _ Hwf H1 H2) (fun _ => true) ltac:(done)) as (r & Hr & Hiff).
    apply Hiff. rewrite Hd in Hr. by injection Hr.
  - apply operators_loop_ok in Ho. eapply Forall_impl; [exact Ho|]. intros o (inputs & outputs & Hi & Hso).
    by eapply semantic_operator_ready.
Qed.

Lemma blocks_loop_ok names region blocks k b : blocks_loop alloc m target names region blocks k = Some (Ok tt) ->
  b ∈ blocks -> exists k, semantic_block alloc m target names region k b = Some (Ok tt).
Proof.
  revert k. induction blocks as [|x blocks IH]; intros k; cbn [blocks_loop]; [by intros _ ?%elem_of_nil|].
  destruct (semantic_block _ _ _ _ _ _ x) as [[[]|]|] eqn:Hx; [|done..]. intros Hb [->|Hin]%elem_of_cons; [by exists k|].
  by eapply IH.
Qed.

Lemma validate_semantics_block r b : validate_semantics alloc m target = Some (Ok tt) ->
  r ∈ model_regions m -> b ∈ items (wr_blocks r) ->
  exists names region k, semantic_block alloc m target names region k b = Some (Ok tt).
Proof.
  unfold validate_semantics. destruct (Target_validate target); [|done]. destruct (negb _); [done|].
  destruct (negb _); [done|]. destruct (collect_names _ _) as [names|]; [|done]. cbn [mbind option_bind].
  destruct (validate_control_flow_nesting _ _ _ _) as [[[]|]|]; [|done..]. generalize 0%nat as i.
  induction (model_regions m) as [|x regions IH]; intros i; cbn [regions_loop]; [by intros _ ?%elem_of_nil|].
  destruct (blocks_loop _ _ _ _ _ _ _) as [[[]|]|] eqn:Hx; [|done..]. intros Hrest [->|Hin]%elem_of_cons Hb.
  - destruct (blocks_loop_ok _ _ _ _ _ Hx Hb) as [k Hk]. by exists (sort_names names), i, k.
  - by eapply IH.
Qed.
End Accepted.

(** The blocks of a parsed model are well formed. *)
Lemma parsed_block has_identifier root palloc bytes limits m r b :
  limits_typed limits -> zlen bytes <= USIZE_MAX ->
  (forall opts g, root opts bytes = Some g -> graph_typed g) ->
  parse_with_limits has_identifier root palloc bytes limits = Ok m ->
  r ∈ model_regions m -> b ∈ items (wr_blocks r) -> named limits (wb_name b) /\ block_wf bytes limits b.
Proof.
  intros Hl Hb Hv Hp Hr Hin. destruct (accepted_wf _ _ _ _ _ Hl Hb Hv _ Hp) as [[Hrs _] _].
  rewrite Forall_forall in Hrs. destruct (Hrs r Hr) as [_ [Hbs _]]. rewrite Forall_forall in Hbs. by apply Hbs.
Qed.

(** ** Plans of accepted models *)

Lemma variables_symbols b n : n ∈ variables b -> n ∈ symbols b.
Proof.
  unfold variables, symbols. intros (t & -> & Ht)%list_elem_of_fmap. apply list_elem_of_filter in Ht as [_ Ht].
  apply elem_of_app. left. apply list_elem_of_fmap. by exists t.
Qed.

Section Planned.
(** A model [m] that parsing and semantic validation accept, a block [b] of it,
    and a plan [a] so far that has room for it; no reservation fails. *)
Context (has_identifier : list Z -> bool) (root : VerifierOptions -> list Z -> option WireGraph) (palloc : nat -> bool).
Context (bytes : list Z) (limits : Limits) (m : Model) (salloc : list nat -> bool) (target : Target).
Context (r : WireRegion) (b : WireBlock) (alloc : list nat -> bool) (options : AnalysisOptions) (region : nat) (a : TosaAnalysis).
Hypothesis Hlimits : limits_typed limits.
Hypothesis Hbytes : zlen bytes <= USIZE_MAX.
Hypothesis Hverified : forall opts g, root opts bytes = Some g -> graph_typed g.
Hypothesis Hparsed : parse_with_limits has_identifier root palloc bytes limits = Ok m.
Hypothesis Hsemantic : validate_semantics salloc m target = Some (Ok tt).
Hypothesis Hregion : r ∈ model_regions m.
Hypothesis Hblock : b ∈ items (wr_blocks r).
Hypothesis Halloc : forall s, alloc s = true.
Hypothesis Hfits : plan_fits b a.

Lemma accepted_block_planned :
  exists a' order, build_block alloc target options region b a = Some (Ok a') /\ block_planned b a order a'.
Proof.
  destruct (parsed_block _ _ _ _ _ _ _ _ Hlimits Hbytes Hverified Hparsed Hregion Hblock) as [Hn Hwf].
  destruct (validate_semantics_block _ _ _ _ _ Hsemantic Hregion Hblock) as (names & i & k & Hsb).
  pose proof (pf_values _ _ Hfits). pose proof (pf_block_io _ _ Hfits). pose proof (pf_operands _ _ Hfits).
  pose proof (sum_inputs_le (operators b)).
  assert (length (items (wb_tensors b)) <= length (symbols b))%nat.
  { unfold symbols, tensor_names, shape_names. rewrite length_app, !length_fmap. lia. }
  destruct (semantic_block_accepted _ _ _ _ _ _ _ _ _ Hwf ltac:(unfold zlen; lia) ltac:(lia) Hsb) as [Hd Hc].
  by eapply build_block_spec.
Qed.


(** C28: variables have no producer in the plan of an accepted block, so an
    operator without a side effect that writes variables only is marked dead,
    also when a VARIABLE_WRITE or a block output reads what it writes. *)
Theorem variable_producers_dead j o :
  operators b !! j = Some o -> has_side_effects (wo_op o) = false ->
  Forall (fun n => n ∈ variables b) (items (wo_outputs o)) ->
  exists a' ao, build_block alloc target options region b a = Some (Ok a') /\
    analysis_operator a' (length (ta_operators a) + j) = Some ao /\ ao_op ao = wo_op o /\
    Hints.contains (ao_hints ao) Hints.DEAD = true /\
    forall n, n ∈ items (wo_outputs o) -> exists v,
      analysis_value a' (slot b (length (ta_values a)) n) = Some v /\ av_name v = n /\ av_producer v = None.
Proof.
  intros Ho He Hv. destruct accepted_block_planned as (a' & order & Ha' & [[Hperm _] _ _ _ Hop Hval]).
  assert (Hnone : forall k n, n ∈ items (wo_outputs o) -> ~ produces b k n).
  { intros k n Hn (_ & _ & _ & Hnv). rewrite Forall_forall in Hv. by apply Hnv, Hv. }
  assert (Hj : j ∈ order) by (rewrite Hperm; apply elem_of_seq; apply lookup_lt_Some in Ho; lia).
  apply list_elem_of_lookup in Hj as [i Hi]. destruct (Hop i j Hi) as (o' & ao & Ho' & Hao & Heq & _ & _ & _ & Hdead).
  rewrite Ho in Ho'. injection Ho' as <-. exists a', ao. split_and!; [done..| |].
  - apply Hdead. intros Hneed.
    destruct Hneed as [j n (o' & Ho' & Hn & Hnv) _|j (o' & Ho' & Hs)|j c n _ _ (o' & Ho' & Hn & Hnv)];
      rewrite Ho in Ho'; injection Ho' as <-; [|congruence|];
      rewrite Forall_forall in Hv; by apply Hnv, Hv.
  - intros n Hn. destruct (Hval n) as (v & Hvn & (_ & Hname & Hprod) & _).
    { rewrite Forall_forall in Hv. by eapply variables_symbols, Hv. }
    exists v. split_and!; [done..|]. destruct (av_producer v) as [q|] eqn:Hq; [|done].
    destruct (proj1 (Hprod q) eq_refl) as (k & _ & Hk). by destruct (Hnone k n Hn).
Qed.
End Planned.

Module PlanDemo.
Import ParseDemo WrapDemo.




(** The root that verification returns is typed. *)
Lemma one_block_verified b : graph_typed (one_block b) ->
  forall (opts : VerifierOptions) g, (fun _ _ => Some (one_block b)) opts demo_bytes = Some g -> graph_typed g.
Proof. by intros H opts g [= <-]. Qed.


(** [c = CONST; v = IDENTITY(c); VARIABLE_WRITE(v); b = IDENTITY(v); return b]
    with the variable [v]. *)
Definition stored (n : str) (variable : bool) : WireTensor :=
  {| wt_name := Some n; wt_shape := Some [3]; wt_type := DType.INT8; wt_data := Some [1; 2; 3];
     wt_variable := variable; wt_is_unranked := false; wt_variable_name := if variable then Some n else None;
     wt_offset := 0; wt_size := 0 |}.

Definition store_block : WireBlock :=
  {| wb_name := Some [109];
     wb_operators := Some [plain Op.CONST [] [[99]]; plain Op.IDENTITY [[99]] [[118]];
                           plain Op.VARIABLE_WRITE [[118]] []; plain Op.IDENTITY [[118]] [[98]]];
     wb_tensors := Some [vector [97] 3; vector [98] 3; stored [99] false; stored [118] true];
     wb_shapes := None; wb_inputs := Some [[97]]; wb_outputs := Some [[98]] |}.

Definition variable_target : Target :=
  {| tgt_version := TOSA_1_0; tgt_profiles := ProfileSet.INTEGER; tgt_level := Level8K;
     tgt_extensions := ExtensionSet.VARIABLE |}.

Lemma store_block_typed : graph_typed (one_block store_block).
Proof.
  unfold graph_typed, block_typed, tensor_typed, shape_typed, union_ok, zlen.
  repeat constructor; simpl; try lia; try done;
    unfold fielded_tags; rewrite !not_elem_of_cons; unfold Op.IDENTITY, Op.CONST, Op.VARIABLE_WRITE; split_and!; try lia;
    apply not_elem_of_nil.
Qed.

Definition store_start : TosaAnalysis := Builder_new (model_of store_block) variable_target.

(** Operator 1 computes the variable [v] that operator 2 writes, and is marked
    dead in the plan. *)
Lemma variable_producers_dead_witness :
  consumes store_block 2 [118] /\
  exists a' ao, build_block (fun _ => true) variable_target AnalysisOptions_default 0 store_block store_start = Some (Ok a') /\
    analysis_operator a' 1 = Some ao /\ Hints.contains (ao_hints ao) Hints.DEAD = true.
Proof.
  split; [eexists; split; [reflexivity|simpl; set_solver]|].
  destruct (variable_producers_dead demo_identifier (fun _ _ => Some (one_block store_block)) (fun _ => true) demo_bytes
    Limits_default (model_of store_block) (fun _ => true) variable_target
    {| wr_name := Some [109]; wr_blocks := Some [store_block] |} store_block (fun _ => true)
    AnalysisOptions_default 0 store_start demo_limits ltac:(vm_compute; discriminate)
    (one_block_verified store_block store_block_typed) ltac:(vm_compute; reflexivity) ltac:(vm_compute; reflexivity)
    ltac:(simpl; set_solver) ltac:(simpl; set_solver) (fun _ => eq_refl) ltac:(constructor; vm_compute; discriminate)
    1 (plain Op.IDENTITY [[99]] [[118]]) eq_refl eq_refl ltac:(repeat constructor)) as (a' & ao & H1 & H2 & _ & H3 & _).
  exists a', ao. split; [exact H1|]. split; [exact H2|exact H3].
Defined.

(** The whole plan of [store_block]: the write and the read of [v] run before
    the operator that computes it. *)
Lemma variable_writes_unordered :
  exists a, build (fun _ => true) (fun _ => true) (model_of store_block) variable_target = Some (Ok a) /\
    ta_execution_order a = [0; 2; 3; 1]%nat.
Proof. eexists. split; [vm_compute; reflexivity|reflexivity]. Qed.
End PlanDemo.
