(* ===== verification/TosaRuntime.v ===== *)
(** * Dynamic compile-time inputs

    crates/virtio-accel-tosa/src/runtime.rs: the values a host supplies for
    the inputs that the plan left dynamic are decoded and checked before an
    operator is specialised to them.  An index out of range is a panic
    ([None]). *)

From Stdlib Require Import ZArith Lia.
From stdpp Require Import prelude list sorting.
From S2P Require Import Prelude TosaTypes TosaNumeric TosaArtifact TosaWire TosaValidate TosaView TosaSemantic TosaAttrCheck TosaShapes TosaFlow TosaDataflow TosaShapeProps TosaAnalysis TosaPlanOrder.

Record RuntimeValue := { rv_value : nat; rv_bytes : list Z }.

Inductive RuntimeErrorKind := ValuesOutOfOrder | MissingValue | InvalidEncoding | RequiredConditionFailed.

Record RuntimeError := { re_operator : option nat; re_value : option nat; re_kind : RuntimeErrorKind }.

Record RuntimeValidation := { unpredictable : bool }.
Definition RuntimeValidation_default : RuntimeValidation := {| unpredictable := false |}.

Inductive ConditionResult := CondValid | CondUnpredictable.

(** A computation that may panic or fail. *)
Abbreviation runtime A := (option (result A RuntimeError)).

(** ** Values *)

(** The key of a value for the search by name: names of one element are
    ordered as their elements. *)
Definition value_key (id : nat) : str := [Z.of_nat id].

(** [lookup] *)
Definition runtime_lookup (values : list RuntimeValue) (value : nat) : option (list Z) :=
  search_by_name ((fun v => (value_key (rv_value v), rv_bytes v)) <$> values) (value_key value).

(** [values.windows(2).any(|pair| pair[0].value >= pair[1].value)] *)
Fixpoint out_of_order (values : list RuntimeValue) : bool :=
  match values with
  | a :: ((b :: _) as rest) => (rv_value b <=? rv_value a)%nat || out_of_order rest
  | _ => false
  end.

Definition data_for (a : TosaAnalysis) (values : list RuntimeValue) (value : nat) : option (option (list Z)) :=
  constant ← serialized_constant a value;
  Some (match constant with Some bytes => Some bytes | None => runtime_lookup values value end).

Definition tensor_dtype (a : TosaAnalysis) (value : nat) : option Z :=
  v ← analysis_value a value;
  Some (match av_kind v with KTensor t => Tensor_dtype t | KShape _ => DType.SHAPE end).

Definition tensor_rank (a : TosaAnalysis) (value : nat) : option (option Z) :=
  v ← analysis_value a value;
  Some (match av_kind v with KTensor t => Tensor_rank t | KShape _ => None end).

Definition tensor_dimension (a : TosaAnalysis) (value : nat) (index : Z) : option (option Z) :=
  v ← analysis_value a value;
  Some (match av_kind v with KTensor t => Tensor_dimension t index | KShape _ => None end).

(** [try_fold] with [usize::try_from] and [checked_mul] *)
Definition elements_of (t : WireTensor) : option Z :=
  _ ← Tensor_rank t;
  fold_left (fun count d => c ← count; if d <? 0 then None else checked_mul USIZE_MAX c d)
    (Tensor_dimensions t) (Some 1).

(** [tensor_elements] *)
Definition value_elements (a : TosaAnalysis) (value : nat) : option (option Z) :=
  v ← analysis_value a value;
  Some (match av_kind v with KTensor t => elements_of t | KShape s => Some (Shape_rank s) end).

(** ** Decoding *)

Definition integer_width (dtype : Z) : option Z :=
  if (dtype =? DType.INT4) || (dtype =? DType.INT8) then Some 1
  else if dtype =? DType.INT16 then Some 2
  else if dtype =? DType.INT32 then Some 4
  else if dtype =? DType.INT48 then Some 8 else None.

Definition integer_at (dtype : Z) (bytes : list Z) (index : Z) : option Z :=
  width ← integer_width dtype;
  start ← checked_mul USIZE_MAX index width;
  if dtype =? DType.INT4 then unpack_int4 bytes index
  else if dtype =? DType.INT8 then (fun b => as_signed 8 b) <$> bytes !! Z.to_nat start
  else if dtype =? DType.INT16 then (fun bs => as_signed 16 (le_value bs)) <$> get_slice bytes start 2
  else if dtype =? DType.INT32 then (fun bs => as_signed 32 (le_value bs)) <$> get_slice bytes start 4
  else if dtype =? DType.INT48 then i64_from_le_bytes <$> get_slice bytes start 8
  else None.

(** [shape_at] *)
Definition shape_word (bytes : list Z) (index : Z) : option Z :=
  start ← checked_mul USIZE_MAX index 8;
  i64_from_le_bytes <$> get_slice bytes start 8.

Definition integer_value (a : TosaAnalysis) (value : nat) (bytes : list Z) (index : Z) : option (option Z) :=
  dtype ← tensor_dtype a value; Some (integer_at dtype bytes index).

Definition value_is_zero (dtype : Z) (bytes : list Z) (index : Z) : bool :=
  if (dtype =? DType.INT4) || (dtype =? DType.INT8) || (dtype =? DType.INT16) || (dtype =? DType.INT32) ||
     (dtype =? DType.INT48)
  then bool_decide (integer_at dtype bytes index = Some 0)
  else if (dtype =? DType.FP8E4M3) || (dtype =? DType.FP8E5M2)
  then match bytes !! Z.to_nat index with Some b => Z.land b 0x7f =? 0 | None => false end
  else if (dtype =? DType.FP16) || (dtype =? DType.BF16)
  then match get_slice bytes (index * 2) 2 with Some bs => Z.land (le_value bs) 0x7fff =? 0 | None => false end
  else if dtype =? DType.FP32
  then match get_slice bytes (index * 4) 4 with Some bs => Z.land (le_value bs) 0x7fffffff =? 0 | None => false end
  else false.

Definition zero_point_valid (a : TosaAnalysis) (value : nat) (bytes : list Z) (unsigned : bool) : option bool :=
  dtype ← tensor_dtype a value;
  Some ((dtype =? DType.INT8) ||
        ((dtype =? DType.INT16) && unsigned &&
         match get_slice bytes 0 2 with
         | Some bs => (le_value bs =? 0) || (le_value bs =? 32768)
         | None => false
         end) ||
        value_is_zero dtype bytes 0).

(** How many bytes the elements take. *)
Definition expected_bytes (dtype elements : Z) : option Z :=
  if dtype =? DType.INT4 then Some ((elements + 1) / 2)
  else if (dtype =? DType.BOOL) || (dtype =? DType.INT8) || (dtype =? DType.FP8E4M3) || (dtype =? DType.FP8E5M2)
  then Some elements
  else if (dtype =? DType.INT16) || (dtype =? DType.FP16) || (dtype =? DType.BF16)
  then Some (Z.min USIZE_MAX (elements * 2))
  else if (dtype =? DType.INT32) || (dtype =? DType.FP32) then Some (Z.min USIZE_MAX (elements * 4))
  else if (dtype =? DType.INT48) || (dtype =? DType.SHAPE) then Some (Z.min USIZE_MAX (elements * 8))
  else None.

(** The values that are admitted. *)
Definition values_admitted (limits : LevelLimits) (dtype elements : Z) (bytes : list Z) : bool :=
  let indices := seq 0 (Z.to_nat elements) in
  if dtype =? DType.BOOL then forallb (fun b => b <=? 1) bytes
  else if dtype =? DType.INT4
  then forallb (fun index => negb (bool_decide (unpack_int4 bytes (Z.of_nat index) = Some (-8)))) indices
  else if dtype =? DType.INT48
  then forallb (fun index => match integer_at dtype bytes (Z.of_nat index) with
                             | Some v => (- Z.shiftl 1 47 <=? v) && (v <? Z.shiftl 1 47)
                             | None => false end) indices
  else if dtype =? DType.SHAPE
  then let magnitude := Z.shiftl 1 (max_log2_size limits) in
       forallb (fun index => match shape_word bytes (Z.of_nat index) with
                             | Some v => (- magnitude <=? v) && (v <? magnitude)
                             | None => false end) indices
  else true.

Definition valid_encoding (a : TosaAnalysis) (value : nat) (bytes : list Z) : option bool :=
  analyzed ← analysis_value a value;
  let r := match av_kind analyzed with
           | KTensor t => elements ← elements_of t; Some (Tensor_dtype t, elements)
           | KShape s => Some (DType.SHAPE, Shape_rank s)
           end in
  match r with
  | None => Some false
  | Some (dtype, elements) =>
      match expected_bytes dtype elements with
      | None => Some false
      | Some expected =>
          if negb (zlen bytes =? expected) then Some false
          else Some (values_admitted (level_limits (tgt_level (ta_target a))) dtype elements bytes)
      end
  end.

(** [i64::try_from] of an [i128] *)
Definition i64_try_from (v : Z) : option Z := if in_range I64_MIN I64_MAX v then Some v else None.

(** ** Shape conditions *)

Section Shapes.
Context (a : TosaAnalysis) (operator : nat) (inputs : list nat).

(** [analysis.operator_outputs(operator)[0]] *)
Definition first_output : option nat :=
  outputs ← operator_outputs a operator; outputs !! 0%nat.

(** The loop over the axes of the PAD, SLICE and TILE checks: the extents of the
    input and the output at each axis are tested. *)
Definition axes_valid (test : Z -> Z -> Z -> bool) : option bool :=
  output ← first_output;
  input ← inputs !! 0%nat;
  rank ← tensor_rank a input;
  match rank with
  | None => Some false
  | Some rank =>
      output_rank ← tensor_rank a output;
      if negb (bool_decide (output_rank = Some rank)) then Some false else
      pall (fun index =>
        d ← tensor_dimension a input (Z.of_nat index);
        o ← tensor_dimension a output (Z.of_nat index);
        Some (match d, o with Some d, Some o => test (Z.of_nat index) d o | _, _ => false end))
        (seq 0 (Z.to_nat rank))
  end.

Definition pad_valid (padding : list Z) : option bool :=
  axes_valid (fun index input output =>
    match shape_word padding (index * 2), shape_word padding (index * 2 + 1) with
    | Some before, Some after => (0 <=? before) && (0 <=? after) && (input + before + after =? output)
    | _, _ => false
    end).

Definition slice_valid (starts sizes : list Z) : option bool :=
  axes_valid (fun index input output =>
    match shape_word starts index, shape_word sizes index with
    | Some start, Some size => (0 <=? start) && (0 <? size) && (start + size <=? input) && (size =? output)
    | _, _ => false
    end).

Definition tile_valid (multiples : list Z) : option bool :=
  axes_valid (fun index input output =>
    match shape_word multiples index with
    | Some multiple => (1 <=? multiple) && (input * multiple =? output)
    | None => false
    end).

Definition reshape_valid (shape : list Z) : option bool :=
  output ← first_output;
  rank ← tensor_rank a output;
  matches ←
    match rank with
    | None => Some false
    | Some rank =>
        pall (fun index =>
          d ← tensor_dimension a output (Z.of_nat index);
          Some (match d with
                | Some d => bool_decide (shape_word shape (Z.of_nat index) = Some d)
                | None => false end)) (seq 0 (Z.to_nat rank))
    end;
  if negb matches then Some false else
  input ← inputs !! 0%nat;
  elements ← value_elements a input;
  output_elements ← value_elements a output;
  Some (bool_decide (elements = output_elements)).

(** [dimensions4]; the inner [None] is another rank. *)
Definition dimensions4 (value : nat) : option (option (Z * Z * Z * Z)) :=
  rank ← tensor_rank a value;
  if negb (bool_decide (rank = Some 4)) then Some None else
  d0 ← tensor_dimension a value 0; d1 ← tensor_dimension a value 1;
  d2 ← tensor_dimension a value 2; d3 ← tensor_dimension a value 3;
  d0 ← d0; d1 ← d1; d2 ← d2; d3 ← d3;
  Some (Some (d0, d1, d2, d3)).

Definition resize_valid (scale offset border : list Z) (limits : LevelLimits) : option bool :=
  i0 ← inputs !! 0%nat;
  input ← dimensions4 i0;
  match input with
  | None => Some false
  | Some (in0, in1, in2, in3) =>
      o0 ← first_output;
      output ← dimensions4 o0;
      match output with
      | None => Some false
      | Some (out0, out1, out2, out3) =>
          Some (match shape_word scale 0, shape_word scale 1, shape_word scale 2, shape_word scale 3,
                      shape_word offset 0, shape_word offset 1, shape_word border 0, shape_word border 1 with
                | Some yn, Some yd, Some xn, Some xd, Some oy, Some ox, Some by_, Some bx =>
                    if (yn <=? 0) || (yd <=? 0) || (xn <=? 0) || (xd <=? 0) || (2048 <? yn) || (2048 <? xn) ||
                       (max_scale limits * yd <? yn) || (max_scale limits * xd <? xn) ||
                       (16 * yn <=? yd) || (16 * xn <=? xd) ||
                       negb ((- yn <=? oy) && (oy <? 16 * yn)) || negb ((- xn <=? ox) && (ox <? 16 * xn)) ||
                       negb ((-16 * yn <=? by_) && (by_ <? yn)) || negb ((-16 * xn <=? bx) && (bx <? xn)) ||
                       existsb (fun v => 16384 <=? v) [in1; in2; out1; out2]
                    then false else
                    let height_numerator := (in1 - 1) * yn - oy + by_ in
                    let width_numerator := (in2 - 1) * xn - ox + bx in
                    (Z.rem height_numerator yd =? 0) && (Z.rem width_numerator xd =? 0) &&
                    (out0 =? in0) &&
                    (out1 =? default I64_MIN (i64_try_from (Z.quot height_numerator yd + 1))) &&
                    (out2 =? default I64_MIN (i64_try_from (Z.quot width_numerator xd + 1))) &&
                    (out3 =? in3)
                | _, _, _, _, _, _, _, _ => false
                end)
      end
  end.
End Shapes.

(** ** [check_operator] *)

Section Check.
Context (a : TosaAnalysis) (values : list RuntimeValue) (operator : nat).

Definition fail (value : nat) : RuntimeError :=
  {| re_operator := Some operator; re_value := Some value; re_kind := RequiredConditionFailed |}.
Definition missing (value : nat) : RuntimeError :=
  {| re_operator := Some operator; re_value := Some value; re_kind := MissingValue |}.

(** [data(index)] *)
Definition input_data (inputs : list nat) (index : nat) : runtime (list Z) :=
  value ← inputs !! index;
  data ← data_for a values value;
  Some (match data with Some bytes => Ok bytes | None => Err (missing value) end).

(** One zero point: [inputs[index]] and its data. *)
Definition check_zero (inputs : list nat) (index : nat) (unsigned : bool) : runtime unit :=
  value ← inputs !! index;
  let! bytes := input_data inputs index in
  valid ← zero_point_valid a value bytes unsigned;
  Some (if valid : bool then Ok tt else Err (fail value)).

Fixpoint check_zeros (inputs : list nat) (indices : list nat) : runtime ConditionResult :=
  match indices with
  | [] => Some (Ok CondValid)
  | index :: indices => let! _ := check_zero inputs index false in check_zeros inputs indices
  end.

(** A required condition on the input at [index]. *)
Definition require (inputs : list nat) (index : nat) (valid : option bool) : runtime ConditionResult :=
  valid ← valid;
  value ← inputs !! index;
  Some (if valid : bool then Ok CondValid else Err (fail value)).

Definition advisory (valid : bool) : ConditionResult := if valid then CondValid else CondUnpredictable.

Definition check_multiply (inputs : list nat) : runtime ConditionResult :=
  shift_value ← inputs !! 2%nat;
  let! bytes := input_data inputs 2 in
  shift ← integer_value a shift_value bytes 0;
  input ← inputs !! 0%nat;
  dtype ← tensor_dtype a input;
  Some (Ok (advisory (match shift with
                      | Some shift => in_range 0 63 shift && ((dtype =? DType.INT32) || (shift =? 0))
                      | None => false end))).

Definition check_rescaling (inputs : list nat) (attributes : OpAttributes) : runtime ConditionResult :=
  match attributes with
  | ARescale _ _ _ input_unsigned output_unsigned =>
      let! _ := check_zero inputs 3 input_unsigned in
      let! _ := check_zero inputs 4 output_unsigned in
      let! multipliers := input_data inputs 1 in
      let! shifts := input_data inputs 2 in
      multiplier ← inputs !! 1%nat;
      shift ← inputs !! 2%nat;
      count ← value_elements a multiplier;
      good ← pall (fun index =>
        m ← integer_value a multiplier multipliers (Z.of_nat index);
        if negb (match m with Some m => 0 <=? m | None => false end) then Some false else
        s ← integer_value a shift shifts (Z.of_nat index);
        Some (match s with Some s => in_range 2 62 s | None => false end)) (seq 0 (Z.to_nat (default 0 count)));
      Some (Ok (advisory good))
  | _ => None
  end.

Definition check_operator : runtime ConditionResult :=
  plan ← analysis_operator a operator;
  inputs ← operator_inputs a operator;
  let op := ao_op plan in
  if op =? Op.AVG_POOL2D then check_zeros inputs [1; 2]%nat
  else if (op =? Op.CONV2D) || (op =? Op.CONV3D) || (op =? Op.DEPTHWISE_CONV2D) || (op =? Op.TRANSPOSE_CONV2D)
  then check_zeros inputs [3; 4]%nat
  else if op =? Op.MATMUL then check_zeros inputs [2; 3]%nat
  else if op =? Op.MUL then check_multiply inputs
  else if op =? Op.TABLE then Some (Ok CondValid)
  else if op =? Op.NEGATE then check_zeros inputs [1; 2]%nat
  else if op =? Op.PAD then
    let! _ := check_zero inputs 2 false in
    let! padding := input_data inputs 1 in
    require inputs 1 (pad_valid a operator inputs padding)
  else if op =? Op.RESHAPE then
    let! shape := input_data inputs 1 in
    require inputs 1 (reshape_valid a operator inputs shape)
  else if op =? Op.SLICE then
    let! starts := input_data inputs 1 in
    let! sizes := input_data inputs 2 in
    require inputs 1 (slice_valid a operator inputs starts sizes)
  else if op =? Op.TILE then
    let! multiples := input_data inputs 1 in
    require inputs 1 (tile_valid a operator inputs multiples)
  else if op =? Op.RESIZE then
    let! scale := input_data inputs 1 in
    let! offset := input_data inputs 2 in
    let! border := input_data inputs 3 in
    require inputs 1 (resize_valid a operator inputs scale offset border (level_limits (tgt_level (ta_target a))))
  else if op =? Op.RESCALE then
    attributes ← Operator_attributes (ao_source plan);
    check_rescaling inputs attributes
  else Some (Ok CondValid).

(** The encodings of the dynamic inputs of one operator. *)
Fixpoint check_encodings (conditions : list RuntimeCondition) : runtime unit :=
  match conditions with
  | [] => Some (Ok tt)
  | DynamicCompileTimeInput _ _ value _ :: conditions =>
      match runtime_lookup values value with
      | None => Some (Err (missing value))
      | Some bytes =>
          valid ← valid_encoding a value bytes;
          if valid : bool then check_encodings conditions
          else Some (Err {| re_operator := Some operator; re_value := Some value; re_kind := InvalidEncoding |})
      end
  | _ :: conditions => check_encodings conditions
  end.
End Check.

(** ** [validate_runtime_values] *)

Definition is_dynamic (c : RuntimeCondition) : bool :=
  match c with DynamicCompileTimeInput _ _ _ _ => true | _ => false end.

Fixpoint validate_operators (a : TosaAnalysis) (values : list RuntimeValue) (operators : list AnalyzedOperator)
    (validation : RuntimeValidation) : runtime RuntimeValidation :=
  match operators with
  | [] => Some (Ok validation)
  | operator :: operators =>
      conditions ← conditions_of a (ao_id operator);
      if negb (existsb is_dynamic conditions) then validate_operators a values operators validation else
      let! _ := check_encodings a values (ao_id operator) conditions in
      let! r := check_operator a values (ao_id operator) in
      validate_operators a values operators
        (match r with CondValid => validation | CondUnpredictable => {| unpredictable := true |} end)
  end.

Definition validate_runtime_values (a : TosaAnalysis) (values : list RuntimeValue) : runtime RuntimeValidation :=
  if out_of_order values
  then Some (Err {| re_operator := None; re_value := None; re_kind := ValuesOutOfOrder |})
  else validate_operators a values (ta_operators a) RuntimeValidation_default.

(** * Dynamic shapes are checked exactly

    The checks of runtime.rs on the SLICE, PAD and TILE operators whose shapes
    arrive at run time: they decide the operators over the integers, for every
    64-bit value, and the search for a supplied value finds it. *)

(** ** Supplied values *)

Lemma str_le_keys (i j : nat) : (i <= j)%nat -> str_le (value_key i) (value_key j).
Proof.
  intros H. unfold str_le, value_key. simpl. destruct (Z.compare_spec (Z.of_nat i) (Z.of_nat j)); try done. lia.
Qed.

Lemma keys_sorted values : out_of_order values = false ->
  StronglySorted str_le (fst <$> ((fun v => (value_key (rv_value v), rv_bytes v)) <$> values)) /\
  NoDup (fst <$> ((fun v => (value_key (rv_value v), rv_bytes v)) <$> values)).
Proof.
  intros Ho. rewrite <- list_fmap_compose.
  assert (StronglySorted (fun a b => (rv_value a < rv_value b)%nat) values) as Hs.
  { apply Sorted_StronglySorted; [intros a b c; lia|]. induction values as [|a [|b values] IH]; [constructor|repeat constructor|].
    cbn [out_of_order] in Ho. apply orb_false_iff in Ho as [Ho Hr]. apply Nat.leb_gt in Ho.
    constructor; [by apply IH|by constructor]. }
  clear Ho. induction Hs as [|a values _ [IH1 IH2] Ha]; [split; constructor|]. rewrite fmap_cons. split.
  - constructor; [done|]. apply Forall_fmap. eapply Forall_impl; [exact Ha|]. intros b Hb. apply str_le_keys. simpl in Hb. lia.
  - constructor; [|done]. intros (b & E & Hb)%list_elem_of_fmap. rewrite Forall_forall in Ha. specialize (Ha b Hb).
    cbn in E. injection E as E. lia.
Qed.

(** The search finds exactly the supplied bytes. *)
Lemma runtime_lookup_exact values id bytes : out_of_order values = false ->
  runtime_lookup values id = Some bytes <-> {| rv_value := id; rv_bytes := bytes |} ∈ values.
Proof.
  intros Ho. destruct (keys_sorted values Ho) as [Hs Hn]. unfold runtime_lookup.
  rewrite search_by_name_unique by done. rewrite list_elem_of_fmap. split.
  - intros ([i bs] & E & Hin). cbn in E. injection E as E1 E2. assert (id = i) as -> by lia. by subst bs.
  - intros Hin. eexists. split; [|exact Hin]. done.
Qed.

(** ** Shapes *)

Section Exact.
Context (a : TosaAnalysis).

(** A value of the plan that is a tensor with these dimensions. *)
Definition tensor_value (id : nat) (dims : list Z) : Prop :=
  exists v t, analysis_value a id = Some v /\ av_kind v = KTensor t /\ ranked t dims.

(** Bytes that hold these 64-bit words. *)
Definition decoded (bytes words : list Z) : Prop :=
  forall i, (i < length words)%nat -> shape_word bytes (Z.of_nat i) = Some (at_ words i).

Lemma tensor_value_rank id dims : tensor_value id dims -> tensor_rank a id = Some (Some (zlen dims)).
Proof. intros (v & t & Hv & Hk & Ht). unfold tensor_rank. rewrite Hv. cbn [mbind option_bind]. by rewrite Hk, (ranked_rank t dims). Qed.

Lemma tensor_value_dimension id dims i : tensor_value id dims -> (i < length dims)%nat ->
  tensor_dimension a id (Z.of_nat i) = Some (Some (at_ dims i)).
Proof.
  intros (v & t & Hv & Hk & H1 & H2 & _) Hi. unfold tensor_dimension. rewrite Hv. cbn [mbind option_bind].
  rewrite Hk. unfold Tensor_dimension. rewrite H1, H2. cbn [mbind option_bind negb].
  rewrite (proj2 (Z.ltb_lt _ _)) by (unfold zlen; lia). by rewrite Nat2Z.id, (at_lookup dims i Hi).
Qed.

Section Operator.
Context (values : list RuntimeValue) (operator : nat) (ao : AnalyzedOperator).
Context (x y : nat) (dims outs : list Z) (inputs rest : list nat).
Hypothesis Hoperator : analysis_operator a operator = Some ao.
Hypothesis Hinputs : operator_inputs a operator = Some inputs.
Hypothesis Houtputs : operator_outputs a operator = Some (y :: rest).
Hypothesis Hfirst : inputs !! 0%nat = Some x.
Hypothesis Hx : tensor_value x dims.
Hypothesis Hy : tensor_value y outs.

Lemma axes_valid_exact test : exists r, axes_valid a operator inputs test = Some r /\
  (r = true <-> length outs = length dims /\
     forall i, (i < length dims)%nat -> test (Z.of_nat i) (at_ dims i) (at_ outs i) = true).
Proof.
  unfold axes_valid, first_output. rewrite Houtputs. cbn [mbind option_bind lookup list_lookup]. rewrite Hfirst. cbn [mbind option_bind].
  rewrite (tensor_value_rank x dims Hx). cbn [mbind option_bind]. rewrite (tensor_value_rank y outs Hy). cbn [mbind option_bind].
  apply guarded.
  { intros [Hl _]. rewrite bool_decide_true; [done|]. unfold zlen. by rewrite Hl. }
  intros E. apply negb_false_iff, bool_decide_eq_true in E. injection E as E. unfold zlen in E.
  apply (pall_axes _ dims (fun i => test (Z.of_nat i) (at_ dims i) (at_ outs i) = true)).
  { split; [by intros [_ ?]|]. intros H. split; [lia|done]. }
  intros i Hi. rewrite (tensor_value_dimension x dims i Hx Hi). cbn [mbind option_bind].
  rewrite (tensor_value_dimension y outs i Hy ltac:(lia)). cbn [mbind option_bind]. eauto.
Qed.

Lemma slice_valid_exact sb nb ss ns : decoded sb ss -> decoded nb ns -> length ss = length dims -> length ns = length dims ->
  exists r, slice_valid a operator inputs sb nb = Some r /\ (r = true <-> sliced dims ss ns outs).
Proof.
  intros Hs Hn Hls Hln. unfold slice_valid. edestruct axes_valid_exact as (r & -> & Hr). exists r. split; [done|].
  rewrite Hr. unfold sliced. split.
  - intros [Hl H]. split_and!; try done. intros i Hi. specialize (H i Hi). rewrite Hs, Hn in H by lia. lia.
  - intros (_ & _ & Hl & H). split; [done|]. intros i Hi. specialize (H i Hi). rewrite Hs, Hn by lia. lia.
Qed.

Lemma pad_valid_exact pb ps : decoded pb ps -> length ps = (2 * length dims)%nat ->
  exists r, pad_valid a operator inputs pb = Some r /\ (r = true <-> padded dims ps outs).
Proof.
  intros Hp Hlp. unfold pad_valid. edestruct axes_valid_exact as (r & -> & Hr). exists r. split; [done|].
  assert (forall i, (i < length dims)%nat -> shape_word pb (Z.of_nat i * 2) = Some (at_ ps (2 * i)) /\
                    shape_word pb (Z.of_nat i * 2 + 1) = Some (at_ ps (2 * i + 1))) as Hw.
  { intros i Hi. rewrite <- !Hp by lia. split; f_equal; lia. }
  rewrite Hr. unfold padded. split.
  - intros [Hl H]. split_and!; try done. intros i Hi. specialize (H i Hi). destruct (Hw i Hi) as [W1 W2].
    rewrite W1, W2 in H. lia.
  - intros (_ & Hl & H). split; [done|]. intros i Hi. specialize (H i Hi). destruct (Hw i Hi) as [W1 W2].
    rewrite W1, W2. lia.
Qed.

Lemma tile_valid_exact mb ms : decoded mb ms -> length ms = length dims ->
  exists r, tile_valid a operator inputs mb = Some r /\ (r = true <-> tiled dims ms outs).
Proof.
  intros Hm Hlm. unfold tile_valid. edestruct axes_valid_exact as (r & -> & Hr). exists r. split; [done|].
  rewrite Hr. unfold tiled. split.
  - intros [Hl H]. split_and!; try done. intros i Hi. specialize (H i Hi). rewrite Hm in H by lia. nia.
  - intros (_ & Hl & H). split; [done|]. intros i Hi. specialize (H i Hi). rewrite Hm by lia. lia.
Qed.
End Operator.
End Exact.

(** ** [check_operator] *)

(** An operator of the plan with its first tensor and its first output. *)
Definition shape_call (a : TosaAnalysis) (operator : nat) (op : Z) (inputs : list nat) (dims outs : list Z) : Prop :=
  exists ao x y rest, analysis_operator a operator = Some ao /\ ao_op ao = op /\
    operator_inputs a operator = Some inputs /\ operator_outputs a operator = Some (y :: rest) /\
    inputs !! 0%nat = Some x /\ tensor_value a x dims /\ tensor_value a y outs.

(** A result that is valid exactly when [P] holds, and the error [e] otherwise. *)
Definition decides (r : option (result ConditionResult RuntimeError)) (P : Prop) (e : RuntimeError) : Prop :=
  (r = Some (Ok CondValid) <-> P) /\ (r = Some (Ok CondValid) \/ r = Some (Err e)).

Lemma require_decides operator inputs index value (check : option bool) r P :
  inputs !! index = Some value -> check = Some r -> (r = true <-> P) ->
  decides (require operator inputs index check) P (fail operator value).
Proof.
  intros Hi -> Hr. unfold require. cbn [mbind option_bind]. rewrite Hi. cbn [mbind option_bind].
  destruct r; split; [tauto|by left| |by right]. split; [done|]. intros HP. by apply Hr in HP.
Qed.

Lemma input_data_ok a values operator inputs index value bytes : inputs !! index = Some value ->
  data_for a values value = Some (Some bytes) -> input_data a values operator inputs index = Some (Ok bytes).
Proof. intros Hi Hd. unfold input_data. rewrite Hi. cbn [mbind option_bind]. by rewrite Hd. Qed.

(** The branch of one opcode. *)
Ltac select_operator Ho Hop Hin :=
  unfold check_operator; rewrite Ho; cbn [mbind option_bind]; rewrite Hin; cbn [mbind option_bind]; rewrite Hop;
  unfold Op.AVG_POOL2D, Op.CONV2D, Op.CONV3D, Op.DEPTHWISE_CONV2D, Op.TRANSPOSE_CONV2D, Op.MATMUL, Op.MUL, Op.TABLE,
    Op.NEGATE, Op.PAD, Op.RESHAPE, Op.SLICE, Op.TILE;
  cbn [Z.eqb Pos.eqb orb].

(** C31: The check of a SLICE, TILE or PAD operator whose shapes are supplied
    at run time, or of a mix of supplied and constant ones, never panics and
    accepts exactly the slices, tilings and paddings over the integers,
    whatever the 64-bit values are (for PAD, with a valid pad constant);
    otherwise it names the shape operand in the error.  No value bound is
    needed, in contrast to the static rules. *)
Theorem dynamic_shapes_exact a values operator x s z dims outs sb zb ss zs :
  data_for a values s = Some (Some sb) -> data_for a values z = Some (Some zb) ->
  decoded sb ss -> decoded zb zs ->
  (shape_call a operator Op.SLICE [x; s; z] dims outs -> length ss = length dims -> length zs = length dims ->
   decides (check_operator a values operator) (sliced dims ss zs outs) (fail operator s)) /\
  (shape_call a operator Op.TILE [x; s] dims outs -> length ss = length dims ->
   decides (check_operator a values operator) (tiled dims ss outs) (fail operator s)) /\
  (shape_call a operator Op.PAD [x; s; z] dims outs -> length ss = (2 * length dims)%nat ->
   zero_point_valid a z zb false = Some true ->
   decides (check_operator a values operator) (padded dims ss outs) (fail operator s)).
Proof.
  intros Hs Hz Hds Hdz. split; [|split].
  - intros (ao & x' & y & rest & Ho & Hop & Hin & Hout & Hx & Htx & Hty) Hls Hlz. select_operator Ho Hop Hin.
    rewrite !(input_data_ok a values operator [x; s; z] 1 s sb), (input_data_ok a values operator [x; s; z] 2 z zb) by done.
    destruct (slice_valid_exact a operator x' y dims outs [x; s; z] rest Hout Hx Htx Hty sb zb ss zs Hds Hdz Hls Hlz)
      as (r & Hr & Hiff). by eapply require_decides.
  - intros (ao & x' & y & rest & Ho & Hop & Hin & Hout & Hx & Htx & Hty) Hls. select_operator Ho Hop Hin.
    rewrite !(input_data_ok a values operator [x; s] 1 s sb) by done.
    destruct (tile_valid_exact a operator x' y dims outs [x; s] rest Hout Hx Htx Hty sb ss Hds Hls)
      as (r & Hr & Hiff). by eapply require_decides.
  - intros (ao & x' & y & rest & Ho & Hop & Hin & Hout & Hx & Htx & Hty) Hls Hzp. select_operator Ho Hop Hin.
    unfold check_zero. cbn [lookup list_lookup mbind option_bind].
    rewrite !(input_data_ok a values operator [x; s; z] 1 s sb), (input_data_ok a values operator [x; s; z] 2 z zb) by done.
    rewrite Hzp. cbn [mbind option_bind].
    destruct (pad_valid_exact a operator x' y dims outs [x; s; z] rest Hout Hx Htx Hty sb ss Hds Hls)
      as (r & Hr & Hiff). by eapply require_decides.
Qed.

(** ** Accepted values *)

Lemma check_encodings_ok a values operator conditions : out_of_order values = false ->
  check_encodings a values operator conditions = Some (Ok tt) ->
  forall op i id e, DynamicCompileTimeInput op i id e ∈ conditions ->
  exists bytes, {| rv_value := id; rv_bytes := bytes |} ∈ values /\ valid_encoding a id bytes = Some true.
Proof.
  intros Ho. induction conditions as [|c conditions IH]; intros Hc op i id e Hin; [by apply elem_of_nil in Hin|].
  destruct c; cbn [check_encodings] in Hc; try (apply elem_of_cons in Hin as [?|Hin]; [done|by eapply IH]).
  destruct (runtime_lookup values value) as [bytes|] eqn:El; [|done].
  destruct (valid_encoding a value bytes) as [[]|] eqn:Ev; cbn [mbind option_bind] in Hc; try done.
  apply elem_of_cons in Hin as [E|Hin]; [|by eapply IH]. injection E as <- <- <- <-.
  exists bytes. split; [by apply runtime_lookup_exact|done].
Qed.

(** What acceptance says of one operator. *)
Definition operator_accepted (a : TosaAnalysis) (values : list RuntimeValue) (r : RuntimeValidation)
    (o : AnalyzedOperator) : Prop :=
  exists conditions, conditions_of a (ao_id o) = Some conditions /\
    (forall op i id e, DynamicCompileTimeInput op i id e ∈ conditions ->
     exists bytes, {| rv_value := id; rv_bytes := bytes |} ∈ values /\ valid_encoding a id bytes = Some true) /\
    (existsb is_dynamic conditions = true -> exists c, check_operator a values (ao_id o) = Some (Ok c) /\
       (c = CondUnpredictable -> unpredictable r = true)).

Lemma validate_operators_monotone a values os r0 r : validate_operators a values os r0 = Some (Ok r) ->
  unpredictable r0 = true -> unpredictable r = true.
Proof.
  revert r0. induction os as [|o os IH]; intros r0; cbn [validate_operators]; [by intros [= ->]|].
  destruct (conditions_of a (ao_id o)) as [cs|]; [|done]. cbn [mbind option_bind].
  destruct (existsb is_dynamic cs); cbn [negb]; [|apply IH].
  destruct (check_encodings _ _ _ _) as [[u|]|]; try done. destruct (check_operator _ _ _) as [[c|]|]; try done.
  intros H Hu. apply (IH _ H). by destruct c.
Qed.

Lemma not_dynamic conditions op i id e : existsb is_dynamic conditions = false ->
  DynamicCompileTimeInput op i id e ∈ conditions -> False.
Proof.
  intros Hn Hin. assert (existsb is_dynamic conditions = true) as H; [|congruence].
  apply existsb_exists. eexists. split; [by apply list_elem_of_In|done].
Qed.

Lemma validate_operators_accepted a values os r0 r : out_of_order values = false ->
  validate_operators a values os r0 = Some (Ok r) -> Forall (operator_accepted a values r) os.
Proof.
  intros Ho. revert r0. induction os as [|o os IH]; intros r0; cbn [validate_operators]; [constructor|].
  destruct (conditions_of a (ao_id o)) as [cs|] eqn:Ec; [|done]. cbn [mbind option_bind].
  destruct (existsb is_dynamic cs) eqn:Ed; cbn [negb].
  - destruct (check_encodings _ _ _ _) as [[[]|]|] eqn:Ee; try done.
    destruct (check_operator _ _ _) as [[c|]|] eqn:Ek; try done. intros H. constructor; [|by eapply IH].
    exists cs. split; [done|]. split; [by eapply check_encodings_ok|]. intros _. exists c. split; [done|].
    intros ->. by eapply validate_operators_monotone.
  - intros H. constructor; [|by eapply IH]. exists cs. split; [done|]. split; [|by rewrite Ed].
    intros op i id e Hin. destruct (not_dynamic cs op i id e Ed Hin).
Qed.

(** When the supplied values are accepted, every dynamic input of every
    operator has a value among them whose bytes are an admitted encoding of its
    type and extents, every operator with dynamic inputs passed its check, and
    the result says so when one of the checks was only advisory and failed. *)
Theorem accepted_values_checked a values r :
  validate_runtime_values a values = Some (Ok r) -> Forall (operator_accepted a values r) (ta_operators a).
Proof.
  unfold validate_runtime_values. destruct (out_of_order values) eqn:Ho; [done|]. by apply validate_operators_accepted.
Qed.

Module RuntimeDemo.
Import WrapDemo.

(** The plan of the slice that the static rule of the unbounded level accepts. *)
Definition slice_plan : TosaAnalysis :=
  match build (fun _ => true) (fun _ => true) (model_of slice_block) (integer_target Unbounded) with
  | Some (Ok a) => a
  | _ => Builder_new (model_of slice_block) (integer_target Unbounded)
  end.

Lemma one_word bytes v : shape_word bytes 0 = Some v -> decoded bytes [v].
Proof. intros H i Hi. assert (i = 0%nat) as -> by (simpl in Hi; lia). done. Qed.

(** The check of the runtime values rejects it. *)
Lemma dynamic_shapes_exact_witness :
  check_operator slice_plan [] 2 = Some (Err (fail 2 2)) /\ ~ sliced [3] [2 ^ 63 - 1] [1] [1].
Proof.
  destruct (dynamic_shapes_exact slice_plan [] 2 0 2 3 [3] [1] [255; 255; 255; 255; 255; 255; 255; 127]
    [1; 0; 0; 0; 0; 0; 0; 0] [2 ^ 63 - 1] [1]) as (H & _ & _).
  - vm_compute. reflexivity.
  - vm_compute. reflexivity.
  - apply one_word. vm_compute. reflexivity.
  - apply one_word. vm_compute. reflexivity.
  - assert (check_operator slice_plan [] 2 = Some (Err (fail 2 2))) as E by (vm_compute; reflexivity).
    split; [exact E|]. intros Hs. destruct H as [[_ H] _]; [| | |specialize (H Hs); congruence].
    + eexists _, 0%nat, 1%nat, []. split; [vm_compute; reflexivity|]. split; [reflexivity|].
      split; [vm_compute; reflexivity|]. split; [vm_compute; reflexivity|]. split; [reflexivity|].
      split; eexists _, _; (split; [vm_compute; reflexivity|]); (split; [reflexivity|]);
        repeat constructor; simpl; lia.
    + reflexivity.
    + reflexivity.
Defined.

(** [b = MUL(a, a, shift)] with the shift supplied at run time. *)
Definition multiply_block : WireBlock :=
  {| wb_name := Some [109]; wb_operators := Some [plain Op.MUL [[97]; [97]; [115]] [[98]]];
     wb_tensors := Some [{| wt_name := Some [97]; wt_shape := Some [3]; wt_type := DType.INT32; wt_data := None;
                            wt_variable := false; wt_is_unranked := false; wt_variable_name := None;
                            wt_offset := 0; wt_size := 0 |};
                         {| wt_name := Some [98]; wt_shape := Some [3]; wt_type := DType.INT32; wt_data := None;
                            wt_variable := false; wt_is_unranked := false; wt_variable_name := None;
                            wt_offset := 0; wt_size := 0 |}; vector [115] 1];
     wb_shapes := None; wb_inputs := Some [[97]; [115]]; wb_outputs := Some [[98]] |}.

Definition dynamic_target : Target :=
  {| tgt_version := TOSA_1_0; tgt_profiles := ProfileSet.INTEGER; tgt_level := Level8K;
     tgt_extensions := ExtensionSet.DYNAMIC |}.

Definition multiply_plan : TosaAnalysis :=
  match build (fun _ => true) (fun _ => true) (model_of multiply_block) dynamic_target with
  | Some (Ok a) => a
  | _ => Builder_new (model_of multiply_block) dynamic_target
  end.

(** A shift by five places is accepted. *)
Lemma accepted_values_checked_witness :
  zlen (ta_operators multiply_plan) = 1 /\
  Forall (operator_accepted multiply_plan [{| rv_value := 2; rv_bytes := [5] |}] {| unpredictable := false |})
    (ta_operators multiply_plan).
Proof. split; [vm_compute; reflexivity|]. apply accepted_values_checked. vm_compute. reflexivity. Defined.
End RuntimeDemo.
