(* ===== verification/TosaCapability.v ===== *)
(** * Capability descriptors of TOSA providers

    crates/virtio-accel-tosa/src/capability.rs: flag sets, admitted dtypes and
    operators, and the two queries of a descriptor.  A query finds the first
    entry, and a role query needs every role bit. *)

From Stdlib Require Import ZArith Lia.
From stdpp Require Import prelude list.
From S2P Require Import Prelude TosaTypes TosaArtifact.

(** The macro [flags]: sets of bits of the width [8] or [16]. *)
Module Flags.
Definition NONE : Z := 0.
Definition union (self other : Z) : Z := Z.lor self other.
Definition contains (self other : Z) : bool := Z.land self other =? other.
Definition bits (self : Z) : Z := self.
End Flags.

Module ValueRoles.
Definition INPUT : Z := Z.shiftl 1 0.
Definition OUTPUT : Z := Z.shiftl 1 1.
Definition CONSTANT : Z := Z.shiftl 1 2.
Definition INTERMEDIATE : Z := Z.shiftl 1 3.
Definition ALL : Z := Z.lor (Z.lor (Z.lor INPUT OUTPUT) CONSTANT) INTERMEDIATE.
End ValueRoles.

Module DTypeConstraints.
Definition PARAMETER_ONLY : Z := Z.shiftl 1 0.
End DTypeConstraints.

Module OperatorConstraints.
Definition PROPAGATING_NAN : Z := Z.shiftl 1 0.
Definition ZERO_PADDING : Z := Z.shiftl 1 1.
Definition CONSTANT_PARAMETERS : Z := Z.shiftl 1 2.
Definition ZERO_ZERO_POINTS : Z := Z.shiftl 1 3.
Definition ZERO_SHIFT : Z := Z.shiftl 1 4.
End OperatorConstraints.

Record DTypeCapability := { dc_dtype : Z; dc_roles : Z; dc_constraints : Z }.

Definition DTypeCapability_new (dtype roles : Z) : DTypeCapability :=
  {| dc_dtype := dtype; dc_roles := roles; dc_constraints := Flags.NONE |}.

Definition DTypeCapability_constrained (dtype roles constraints : Z) : DTypeCapability :=
  {| dc_dtype := dtype; dc_roles := roles; dc_constraints := constraints |}.

Record OperatorCapability := { oc_op : Z; oc_constraints : Z }.

Definition OperatorCapability_new (op : Z) : OperatorCapability := {| oc_op := op; oc_constraints := Flags.NONE |}.

Definition OperatorCapability_constrained (op constraints : Z) : OperatorCapability :=
  {| oc_op := op; oc_constraints := constraints |}.

Inductive RuntimeConditionSupport := ConditionsNone | AdvisoryOnly.

Record GraphCapabilities := {
  gc_max_regions : Z;
  gc_max_blocks : Z;
  gc_dynamic_shapes : bool;
  gc_runtime_conditions : RuntimeConditionSupport;
}.

Record CapabilityDescriptor := {
  cd_target : Target;
  cd_dtypes : list DTypeCapability;
  cd_operators : list OperatorCapability;
  cd_graph : GraphCapabilities;
}.

(** The [while] loop over a table, from the first entry on. *)
Fixpoint first_entry {A} (key : A -> Z) (wanted : Z) (table : list A) : option A :=
  match table with
  | [] => None
  | capability :: table => if key capability =? wanted then Some capability else first_entry key wanted table
  end.

Definition descriptor_dtype (self : CapabilityDescriptor) (dtype : Z) : option DTypeCapability :=
  first_entry dc_dtype dtype (cd_dtypes self).

Definition supports_dtype (self : CapabilityDescriptor) (dtype role : Z) : bool :=
  match descriptor_dtype self dtype with
  | Some capability => Flags.contains (dc_roles capability) role
  | None => false
  end.

Definition descriptor_operator (self : CapabilityDescriptor) (op : Z) : option OperatorCapability :=
  first_entry oc_op op (cd_operators self).

Definition supports_operator (self : CapabilityDescriptor) (op : Z) : bool := bool_decide (is_Some (descriptor_operator self op)).

(** The trait [TosaCapabilityProvider]. *)
Class TosaCapabilityProvider (P : Type) := tosa_capabilities : P -> list CapabilityDescriptor.

(** ** Properties *)

Lemma contains_bits self other : Flags.contains self other = true <-> forall i, 0 <= i -> Z.testbit other i = true -> Z.testbit self i = true.
Proof.
  unfold Flags.contains. rewrite Z.eqb_eq. split.
  - intros E i _ Hi. rewrite <- E, Z.land_spec in Hi. by apply andb_prop in Hi as [? _].
  - intros H. apply Z.bits_inj'. intros i Hi. rewrite Z.land_spec. destruct (Z.testbit other i) eqn:E; [|by rewrite andb_false_r].
    by rewrite (H i Hi E).
Qed.

Lemma union_contains self a b : Flags.contains self (Flags.union a b) = Flags.contains self a && Flags.contains self b.
Proof.
  apply eq_true_iff_eq. rewrite andb_true_iff, !contains_bits. unfold Flags.union. setoid_rewrite Z.lor_spec.
  setoid_rewrite orb_true_iff. naive_solver.
Qed.

Lemma first_entry_spec {A} (key : A -> Z) wanted table c : first_entry key wanted table = Some c <->
  exists before after, table = before ++ c :: after /\ key c = wanted /\ Forall (fun c' => key c' <> wanted) before.
Proof.
  induction table as [|x table IH]; cbn [first_entry]; [split; [done|intros ([] & ? & ? & _); done]|].
  destruct (Z.eqb_spec (key x) wanted) as [E|E].
  - split; [intros [= <-]; exists [], table; by split_and!|]. intros ([|y before] & after & [= -> ->] & Hk & Hf); [done|].
    by apply Forall_cons in Hf as [? _].
  - rewrite IH. split; intros (before & after & Ht & Hk & Hf).
    + exists (x :: before), after. rewrite Ht. by repeat constructor.
    + destruct before as [|y before]; simplify_eq/=. apply Forall_cons in Hf as [_ Hf]. by exists before, after.
Qed.

(** A positive role query names every role: of a set of roles each one is supported. *)
Lemma supports_roles d dtype a b : supports_dtype d dtype (Flags.union a b) = supports_dtype d dtype a && supports_dtype d dtype b.
Proof. unfold supports_dtype. case_match; [apply union_contains|done]. Qed.
