(* ===== verification/BackendArtifact.v ===== *)
(** * UTF-8 validation

    [core::str::from_utf8] and [String::from_utf8] on byte strings: the table
    of well-formed byte sequences of the Unicode standard. *)

From Stdlib Require Import ZArith Lia.
From stdpp Require Import prelude list.
From S2P Require Import Prelude Core TosaNumeric.

(** A continuation byte. *)
Definition continuation (b : Z) : bool := in_range 0x80 0xbf b.

Fixpoint utf8 (bytes : list Z) : bool :=
  match bytes with
  | [] => true
  | b0 :: rest0 =>
      if in_range 0 0x7f b0 then utf8 rest0 else
      match rest0 with
      | [] => false
      | b1 :: rest1 =>
          if in_range 0xc2 0xdf b0 then continuation b1 && utf8 rest1 else
          match rest1 with
          | [] => false
          | b2 :: rest2 =>
              if in_range 0xe0 0xef b0 then
                in_range (if b0 =? 0xe0 then 0xa0 else 0x80) (if b0 =? 0xed then 0x9f else 0xbf) b1 &&
                continuation b2 && utf8 rest2
              else
              match rest2 with
              | [] => false
              | b3 :: rest3 =>
                  in_range 0xf0 0xf4 b0 &&
                  in_range (if b0 =? 0xf0 then 0x90 else 0x80) (if b0 =? 0xf4 then 0x8f else 0xbf) b1 &&
                  continuation b2 && continuation b3 && utf8 rest3
              end
          end
      end
  end.

(** ASCII strings are valid; surrogates, overlong forms and truncated
    sequences are not. *)
Lemma utf8_ascii bytes : Forall (fun b => 0 <= b <= 0x7f) bytes -> utf8 bytes = true.
Proof.
  induction 1 as [|b bytes Hb _ IH]; [done|]. cbn [utf8]. unfold in_range.
  rewrite (proj2 (Z.leb_le 0 b)), (proj2 (Z.leb_le b 0x7f)) by lia. done.
Qed.

Example utf8_examples : utf8 [0xe2; 0x82; 0xac] = true /\ utf8 [0xed; 0xa0; 0x80] = false /\
  utf8 [0xc0; 0x80] = false /\ utf8 [0xf0; 0x9f; 0x98] = false.
Proof. done. Qed.

(** * The precompiled XDNA container

    crates/virtio-accel-xdna/src/artifact.rs: [encode] and
    [PrecompiledArtifact::parse].  Parsing accepts exactly the encodings of
    well-formed parts, and returns these parts. *)

Definition XDNA_PRECOMPILED_FORMAT : Z := 0x58444e50.
Definition MAGIC : list Z := [0x58; 0x44; 0x4e; 0x50].
Definition VERSION : Z := 2.
Definition HEADER_LEN : Z := 4 + 4 + 4 + 4 + 4 + 8 + 8.

Record PrecompiledArtifact := {
  pa_xclbin : list Z;
  pa_insts : list Z;
  pa_entry : list Z;
  pa_inputs : Z;
  pa_outputs : Z;
  pa_slot_bytes : list Z;
}.

(** [u32_at] and [u64_at] *)
Definition u32_at (bytes : list Z) (offset : Z) : Z := le_value (slice offset 4 bytes).
Definition u64_at (bytes : list Z) (offset : Z) : Z := le_value (slice offset 8 bytes).

(** The loop over the slots. *)
Fixpoint parse_slots (bytes : list Z) (indices : list nat) (slot_bytes : list Z) : result (list Z) BackendError :=
  match indices with
  | [] => Ok slot_bytes
  | index :: indices =>
      let size := u64_at bytes (HEADER_LEN + Z.of_nat index * 8) in
      if size =? 0 then Err BeInvalidArgument else parse_slots bytes indices (slot_bytes ++ [size])
  end.

(** [PrecompiledArtifact::parse] *)
Definition parse_container (bytes : list Z) : result PrecompiledArtifact BackendError :=
  if (zlen bytes <? HEADER_LEN) || negb (bool_decide (slice 0 4 bytes = MAGIC)) then Err BeInvalidArgument else
  if negb (u32_at bytes 4 =? VERSION) then Err BeIncompatible else
  let inputs := u32_at bytes 8 in
  let outputs := u32_at bytes 12 in
  let entry_len := u32_at bytes 16 in
  let? xclbin_len := ok_or (try_from USIZE_MAX (u64_at bytes 20)) BeInvalidArgument in
  let? insts_len := ok_or (try_from USIZE_MAX (u64_at bytes 28)) BeInvalidArgument in
  if (inputs =? 0) || (outputs =? 0) then Err BeInvalidArgument else
  match checked_add USIZE_MAX inputs outputs with
  | None => Err BeInvalidArgument
  | Some total =>
      if negb (total <=? 256) then Err BeInvalidArgument else
      if negb (insts_len mod 4 =? 0) || (insts_len =? 0) || (xclbin_len =? 0) then Err BeInvalidArgument else
      let? sizes_end := ok_or (checked_add USIZE_MAX HEADER_LEN (total * 8)) BeInvalidArgument in
      let? entry_end := ok_or (checked_add USIZE_MAX sizes_end entry_len) BeInvalidArgument in
      let? xclbin_end := ok_or (checked_add USIZE_MAX entry_end xclbin_len) BeInvalidArgument in
      let? insts_end := ok_or (checked_add USIZE_MAX xclbin_end insts_len) BeInvalidArgument in
      if negb (insts_end =? zlen bytes) then Err BeInvalidArgument else
      let? slot_bytes := parse_slots bytes (seq 0 (Z.to_nat total)) [] in
      let entry := slice sizes_end entry_len bytes in
      if negb (utf8 entry) then Err BeInvalidArgument else
      if bool_decide (entry = []) || bool_decide (0 ∈ entry) then Err BeInvalidArgument else
      Ok {| pa_xclbin := slice entry_end xclbin_len bytes; pa_insts := slice xclbin_end insts_len bytes;
            pa_entry := entry; pa_inputs := inputs; pa_outputs := outputs; pa_slot_bytes := slot_bytes |}
  end.

(** [encode]; a length is cast to the width of its field. *)
Definition encode_container (entry : list Z) (input_bytes output_bytes : list Z) (xclbin insts : list Z) : list Z :=
  MAGIC ++ le_bytes 4 VERSION ++ le_bytes 4 (zlen input_bytes) ++ le_bytes 4 (zlen output_bytes) ++
  le_bytes 4 (zlen entry) ++ le_bytes 8 (zlen xclbin) ++ le_bytes 8 (zlen insts) ++
  concat (le_bytes 8 <$> input_bytes ++ output_bytes) ++ entry ++ xclbin ++ insts.

(** ** Reading an encoding *)

Lemma try_from_ok max v : v <= max -> try_from max v = Some v.
Proof. intros H. unfold try_from. by rewrite (proj2 (Z.leb_le _ _)). Qed.

Lemma checked_add_ok max a b : a + b <= max -> checked_add max a b = Some (a + b).
Proof. intros H. by apply checked_add_Some. Qed.

Lemma slice_at {A} (pre x post : list A) off n : off = zlen pre -> n = zlen x -> slice off n (pre ++ x ++ post) = x.
Proof.
  intros -> ->. rewrite slice_app_r by lia. rewrite Z.sub_diag. apply slice_prefix.
Qed.

Lemma slice_end {A} (pre x : list A) off n : off = zlen pre -> n = zlen x -> slice off n (pre ++ x) = x.
Proof. intros H1 H2. rewrite <- (app_nil_r x) at 1. by apply slice_at. Qed.

Lemma zlen_le_bytes n v : zlen (le_bytes n v) = Z.of_nat n.
Proof. unfold zlen. by rewrite length_le_bytes. Qed.

Lemma zlen_words n ws : zlen (concat (le_bytes n <$> ws)) = Z.of_nat n * zlen ws.
Proof.
  unfold zlen. induction ws as [|w ws IH]; [simpl; lia|]. rewrite fmap_cons. cbn [concat length].
  rewrite length_app, length_le_bytes. lia.
Qed.

(** The [i]-th word of a table of words. *)
Lemma slice_words pre ws post i w : ws !! i = Some w ->
  slice (zlen pre + Z.of_nat i * 8) 8 (pre ++ concat (le_bytes 8 <$> ws) ++ post) = le_bytes 8 w.
Proof.
  intros Hi. pose proof (take_drop_middle ws i w Hi) as E. rewrite <- E, fmap_app, fmap_cons, concat_app.
  cbn [concat]. rewrite <- !app_assoc, (app_assoc pre).
  apply slice_at; [|by rewrite zlen_le_bytes]. rewrite zlen_app, zlen_words. unfold zlen.
  rewrite length_take. apply lookup_lt_Some in Hi. lia.
Qed.

Lemma parse_slots_spec bytes indices acc :
  parse_slots bytes indices acc =
    if forallb (fun i => negb (u64_at bytes (HEADER_LEN + Z.of_nat i * 8) =? 0)) indices
    then Ok (acc ++ ((fun i => u64_at bytes (HEADER_LEN + Z.of_nat i * 8)) <$> indices)) else Err BeInvalidArgument.
Proof.
  revert acc. induction indices as [|i indices IH]; intros acc; cbn [parse_slots forallb].
  { simpl. by rewrite app_nil_r. }
  destruct (u64_at bytes _ =? 0) eqn:E; [done|]. cbn [negb andb]. rewrite IH, <- app_assoc. done.
Qed.

(** ** Exactness *)

(** Parts that a container can hold. *)
Record container_wf (entry input_bytes output_bytes xclbin insts : list Z) : Prop := {
  cw_inputs : input_bytes <> [];
  cw_outputs : output_bytes <> [];
  cw_slots : zlen input_bytes + zlen output_bytes <= 256;
  cw_sizes : Forall (fun s => 0 < s <= U64_MAX) (input_bytes ++ output_bytes);
  cw_entry : entry <> [] /\ utf8 entry = true /\ (0 ∉ entry) /\ zlen entry <= U32_MAX;
  cw_xclbin : xclbin <> [];
  cw_insts : insts <> [] /\ zlen insts mod 4 = 0;
  cw_total : zlen (encode_container entry input_bytes output_bytes xclbin insts) <= USIZE_MAX;
}.

Definition container_of (entry input_bytes output_bytes xclbin insts : list Z) : PrecompiledArtifact :=
  {| pa_xclbin := xclbin; pa_insts := insts; pa_entry := entry; pa_inputs := zlen input_bytes;
     pa_outputs := zlen output_bytes; pa_slot_bytes := input_bytes ++ output_bytes |}.

Lemma zlen_encode entry ib ob xclbin insts :
  zlen (encode_container entry ib ob xclbin insts) =
    HEADER_LEN + (zlen ib + zlen ob) * 8 + zlen entry + zlen xclbin + zlen insts.
Proof.
  unfold encode_container, HEADER_LEN. rewrite !zlen_app, !zlen_le_bytes, zlen_words, zlen_app.
  change (zlen MAGIC) with 4. lia.
Qed.

Section Encoded.
Context (entry ib ob xclbin insts : list Z).
Abbreviation encoding := (encode_container entry ib ob xclbin insts).
Abbreviation sizes := (concat (le_bytes 8 <$> ib ++ ob)).

Lemma encoded_header : slice 0 4 encoding = MAGIC /\ slice 4 4 encoding = le_bytes 4 VERSION /\
  slice 8 4 encoding = le_bytes 4 (zlen ib) /\ slice 12 4 encoding = le_bytes 4 (zlen ob) /\
  slice 16 4 encoding = le_bytes 4 (zlen entry) /\ slice 20 8 encoding = le_bytes 8 (zlen xclbin) /\
  slice 28 8 encoding = le_bytes 8 (zlen insts).
Proof.
  set (tail := sizes ++ entry ++ xclbin ++ insts).
  set (f1 := le_bytes 4 VERSION). set (f2 := le_bytes 4 (zlen ib)). set (f3 := le_bytes 4 (zlen ob)).
  set (f4 := le_bytes 4 (zlen entry)). set (f5 := le_bytes 8 (zlen xclbin)). set (f6 := le_bytes 8 (zlen insts)).
  change encoding with (MAGIC ++ f1 ++ f2 ++ f3 ++ f4 ++ f5 ++ f6 ++ tail).
  split_and!.
  - apply (slice_at [] MAGIC); done.
  - apply (slice_at MAGIC f1); done.
  - rewrite (app_assoc MAGIC). apply (slice_at _ f2); done.
  - rewrite (app_assoc MAGIC), (app_assoc _ f2). apply (slice_at _ f3); done.
  - rewrite (app_assoc MAGIC), (app_assoc _ f2), (app_assoc _ f3). apply (slice_at _ f4); done.
  - rewrite (app_assoc MAGIC), (app_assoc _ f2), (app_assoc _ f3), (app_assoc _ f4). apply (slice_at _ f5); done.
  - rewrite (app_assoc MAGIC), (app_assoc _ f2), (app_assoc _ f3), (app_assoc _ f4), (app_assoc _ f5).
    apply (slice_at _ f6); done.
Qed.

(** The header as one string. *)
Definition header : list Z :=
  MAGIC ++ le_bytes 4 VERSION ++ le_bytes 4 (zlen ib) ++ le_bytes 4 (zlen ob) ++ le_bytes 4 (zlen entry) ++
  le_bytes 8 (zlen xclbin) ++ le_bytes 8 (zlen insts).

Lemma zlen_container_header : zlen header = HEADER_LEN.
Proof. unfold header. rewrite !zlen_app, !zlen_le_bytes. reflexivity. Qed.

Lemma encoded_split : encoding = header ++ sizes ++ entry ++ xclbin ++ insts.
Proof. unfold encode_container, header. by rewrite <- !app_assoc. Qed.

Lemma encoded_tail : let total := (zlen ib + zlen ob) * 8 in
  slice (HEADER_LEN + total) (zlen entry) encoding = entry /\
  slice (HEADER_LEN + total + zlen entry) (zlen xclbin) encoding = xclbin /\
  slice (HEADER_LEN + total + zlen entry + zlen xclbin) (zlen insts) encoding = insts.
Proof.
  intros total. rewrite encoded_split. assert (zlen sizes = total) as Hs by (rewrite zlen_words, zlen_app; unfold total; lia).
  split_and!.
  - rewrite (app_assoc header). apply slice_at; [|done]. by rewrite zlen_app, zlen_container_header, Hs.
  - rewrite (app_assoc header), (app_assoc _ entry). apply slice_at; [|done]. by rewrite !zlen_app, zlen_container_header, Hs.
  - rewrite (app_assoc header), (app_assoc _ entry), (app_assoc _ xclbin).
    apply slice_end; [|done]. by rewrite !zlen_app, zlen_container_header, Hs.
Qed.

Lemma encoded_slots : Forall (fun s => 0 < s <= U64_MAX) (ib ++ ob) ->
  parse_slots encoding (seq 0 (Z.to_nat (zlen ib + zlen ob))) [] = Ok (ib ++ ob).
Proof.
  intros Hs. rewrite Forall_forall in Hs.
  assert (forall i w, (ib ++ ob) !! i = Some w -> u64_at encoding (HEADER_LEN + Z.of_nat i * 8) = w /\ 0 < w) as Hw.
  { intros i w Hi. pose proof (Hs w ltac:(by eapply list_elem_of_lookup_2)).
    unfold u64_at. rewrite encoded_split, <- zlen_container_header, (slice_words _ _ _ i w Hi), le_value_bytes; [lia|simpl; lia]. }
  assert (Z.to_nat (zlen ib + zlen ob) = length (ib ++ ob)) as -> by (unfold zlen; rewrite length_app; lia).
  rewrite parse_slots_spec. rewrite (proj2 (forallb_forall _ _)).
  - f_equal. rewrite app_nil_l. apply list_eq. intros i. rewrite list_lookup_fmap.
    destruct ((ib ++ ob) !! i) as [w|] eqn:E.
    + rewrite lookup_seq_lt by (by apply lookup_lt_Some in E). simpl. f_equal. by apply Hw.
    + rewrite lookup_seq_ge by (by apply lookup_ge_None in E). done.
  - intros i Hi%in_seq. destruct (lookup_lt_is_Some_2 (ib ++ ob) i) as [w Hi']; [lia|].
    destruct (Hw i w Hi') as [-> ?]. apply negb_true_iff, Z.eqb_neq. lia.
Qed.

(** What was encoded is read back. *)
Lemma parse_encoded : container_wf entry ib ob xclbin insts ->
  parse_container encoding = Ok (container_of entry ib ob xclbin insts).
Proof.
  intros [Hi Ho Hslots Hsizes (He & Hu & H0 & Hel) Hx (Hn & Hm) Htotal].
  destruct encoded_header as (E0 & E1 & E2 & E3 & E4 & E5 & E6). destruct encoded_tail as (T1 & T2 & T3).
  rewrite zlen_encode in Htotal. assert (HEADER_LEN = 36) as HL by reflexivity.
  pose proof (zlen_nonneg ib). pose proof (zlen_nonneg ob). pose proof (zlen_nonneg xclbin). pose proof (zlen_nonneg insts).
  pose proof (zlen_nonneg entry).
  assert (zlen ib <> 0) by (by intros ?%zlen_0). assert (zlen ob <> 0) by (by intros ?%zlen_0).
  assert (zlen xclbin <> 0) by (by intros ?%zlen_0). assert (zlen insts <> 0) by (by intros ?%zlen_0).
  unfold parse_container, u32_at, u64_at. rewrite E0, E1, E2, E3, E4, E5, E6.
  rewrite !le_value_bytes by (unfold VERSION; simpl; lia). rewrite zlen_encode, bool_decide_true by done.
  rewrite (proj2 (Z.ltb_ge _ _)) by lia. cbn [orb negb]. change (VERSION =? VERSION) with true. cbn [negb].
  rewrite !try_from_ok by lia. cbn [ok_or].
  rewrite (proj2 (Z.eqb_neq (zlen ib) 0)), (proj2 (Z.eqb_neq (zlen ob) 0)) by done. cbn [orb].
  rewrite checked_add_ok by lia. rewrite (proj2 (Z.leb_le _ 256)) by done. cbn [negb].
  rewrite Hm, (proj2 (Z.eqb_neq (zlen insts) 0)), (proj2 (Z.eqb_neq (zlen xclbin) 0)) by done. cbn [Z.eqb negb orb].
  rewrite !checked_add_ok by lia. cbn [ok_or]. rewrite !checked_add_ok by lia. cbn [ok_or].
  rewrite !checked_add_ok by lia. cbn [ok_or]. rewrite !checked_add_ok by lia. cbn [ok_or].
  rewrite Z.eqb_refl. cbn [negb]. rewrite encoded_slots, T1, T2, T3 by done. rewrite Hu. cbn [negb].
  by rewrite !bool_decide_false by done.
Qed.
End Encoded.

(** ** Every accepted container is an encoding *)

Lemma le_slice n off bytes : is_bytes bytes -> 0 <= off -> off + Z.of_nat n <= zlen bytes ->
  le_bytes n (le_value (slice off (Z.of_nat n) bytes)) = slice off (Z.of_nat n) bytes.
Proof.
  intros Hb Ho Hl. rewrite <- (le_bytes_value (slice off (Z.of_nat n) bytes)) at 2 by (by apply is_bytes_slice).
  f_equal. pose proof (zlen_slice off (Z.of_nat n) bytes ltac:(lia) ltac:(lia) Hl) as H. unfold zlen in H. lia.
Qed.

Lemma le_slice_bound n off bytes : is_bytes bytes -> 0 <= off -> off + Z.of_nat n <= zlen bytes ->
  0 <= le_value (slice off (Z.of_nat n) bytes) < 256 ^ Z.of_nat n.
Proof.
  intros Hb Ho Hl. pose proof (le_value_bound _ (is_bytes_slice off (Z.of_nat n) bytes Hb)) as H.
  pose proof (zlen_slice off (Z.of_nat n) bytes ltac:(lia) ltac:(lia) Hl) as Hz. unfold zlen in Hz.
  by assert (length (slice off (Z.of_nat n) bytes) = n) as E by lia; rewrite E in H.
Qed.

(** The words of a table. *)
Lemma words_of_slice bytes off k : is_bytes bytes -> 0 <= off -> off + Z.of_nat k * 8 <= zlen bytes ->
  concat (le_bytes 8 <$> ((fun i => u64_at bytes (off + Z.of_nat i * 8)) <$> seq 0 k)) = slice off (Z.of_nat k * 8) bytes.
Proof.
  intros Hb Ho. induction k as [|k IH]; intros Hl; [done|].
  rewrite seq_S, !fmap_app, concat_app, IH by lia. cbn [fmap list_fmap concat]. rewrite app_nil_r, Nat.add_0_l.
  unfold u64_at. rewrite (le_slice 8) by (done || lia). change (Z.of_nat 8) with 8.
  rewrite slice_app by lia. f_equal. lia.
Qed.

Lemma container_split (bytes : list Z) n e x k : zlen bytes = HEADER_LEN + n + e + x + k -> 0 <= n -> 0 <= e -> 0 <= x -> 0 <= k ->
  bytes = slice 0 4 bytes ++ slice 4 4 bytes ++ slice 8 4 bytes ++ slice 12 4 bytes ++ slice 16 4 bytes ++
    slice 20 8 bytes ++ slice 28 8 bytes ++ slice HEADER_LEN n bytes ++ slice (HEADER_LEN + n) e bytes ++
    slice (HEADER_LEN + n + e) x bytes ++ slice (HEADER_LEN + n + e + x) k bytes.
Proof.
  intros Hz Hn He Hx Hk. unfold HEADER_LEN in *. rewrite <- (slice_all bytes) at 1. rewrite Hz.
  assert (forall off m r, 0 <= off -> 0 <= m -> 0 <= r -> slice off (m + r) bytes = slice off m bytes ++ slice (off + m) r bytes)
    as cut by (intros; by rewrite slice_app).
  replace (4 + 4 + 4 + 4 + 4 + 8 + 8 + n + e + x + k) with (4 + (4 + (4 + (4 + (4 + (8 + (8 + (n + (e + (x + k)))))))))) by lia.
  rewrite !cut by lia. reflexivity.
Qed.

(** The fields of an accepted container. *)
Section Accepted.
Context (bytes : list Z).
Hypothesis Hb : is_bytes bytes.
Abbreviation I := (u32_at bytes 8).
Abbreviation O := (u32_at bytes 12).
Abbreviation E := (u32_at bytes 16).
Abbreviation X := (u64_at bytes 20).
Abbreviation N := (u64_at bytes 28).
Abbreviation slots := ((fun i => u64_at bytes (HEADER_LEN + Z.of_nat i * 8)) <$> seq 0 (Z.to_nat (I + O))).
Abbreviation entry := (slice (HEADER_LEN + (I + O) * 8) E bytes).
Abbreviation xclbin := (slice (HEADER_LEN + (I + O) * 8 + E) X bytes).
Abbreviation insts := (slice (HEADER_LEN + (I + O) * 8 + E + X) N bytes).

Lemma header_bounds : HEADER_LEN <= zlen bytes ->
  0 <= I <= U32_MAX /\ 0 <= O <= U32_MAX /\ 0 <= E <= U32_MAX /\ 0 <= X <= U64_MAX /\ 0 <= N <= U64_MAX.
Proof.
  unfold HEADER_LEN, u32_at, u64_at. intros Hl.
  pose proof (le_slice_bound 4 8 bytes Hb ltac:(lia) ltac:(lia)). pose proof (le_slice_bound 4 12 bytes Hb ltac:(lia) ltac:(lia)).
  pose proof (le_slice_bound 4 16 bytes Hb ltac:(lia) ltac:(lia)). pose proof (le_slice_bound 8 20 bytes Hb ltac:(lia) ltac:(lia)).
  pose proof (le_slice_bound 8 28 bytes Hb ltac:(lia) ltac:(lia)).
  change (Z.of_nat 4) with 4 in *. change (Z.of_nat 8) with 8 in *. change (256 ^ 4) with 4294967296 in *.
  change (256 ^ 8) with 18446744073709551616 in *. lia.
Qed.

Lemma le_u32 off : 0 <= off -> off + 4 <= zlen bytes -> le_bytes 4 (u32_at bytes off) = slice off 4 bytes.
Proof. intros. by apply (le_slice 4). Qed.

Lemma le_u64 off : 0 <= off -> off + 8 <= zlen bytes -> le_bytes 8 (u64_at bytes off) = slice off 8 bytes.
Proof. intros. by apply (le_slice 8). Qed.

Lemma accepted_fields a : parse_container bytes = Ok a ->
  HEADER_LEN <= zlen bytes /\ slice 0 4 bytes = MAGIC /\ u32_at bytes 4 = VERSION /\ I <> 0 /\ O <> 0 /\ I + O <= 256 /\
  N mod 4 = 0 /\ N <> 0 /\ X <> 0 /\ HEADER_LEN + (I + O) * 8 + E + X + N = zlen bytes /\
  Forall (fun s => s <> 0) slots /\ utf8 entry = true /\ entry <> [] /\ (0 ∉ entry) /\
  a = {| pa_xclbin := xclbin; pa_insts := insts; pa_entry := entry; pa_inputs := I; pa_outputs := O; pa_slot_bytes := slots |}.
Proof.
  unfold parse_container. destruct (Z.ltb_spec (zlen bytes) HEADER_LEN) as [|Hlen]; [done|]. cbn [orb].
  destruct (bool_decide_reflect (slice 0 4 bytes = MAGIC)) as [Hmagic|]; [|done]. cbn [negb].
  destruct (Z.eqb_spec (u32_at bytes 4) VERSION) as [Hversion|]; [|done]. cbn [negb].
  destruct (header_bounds Hlen) as (HI & HO & HE & HX & HN). assert (HEADER_LEN = 36) as HL by reflexivity.
  rewrite !try_from_ok by lia. cbn [ok_or].
  destruct (Z.eqb_spec I 0) as [|HI0]; [done|]. destruct (Z.eqb_spec O 0) as [|HO0]; [done|]. cbn [orb].
  rewrite checked_add_ok by lia. destruct (Z.leb_spec (I + O) 256) as [Ht|]; [|done]. cbn [negb].
  destruct (Z.eqb_spec (N mod 4) 0) as [Hm|]; [|done]. destruct (Z.eqb_spec N 0) as [|HN0]; [done|].
  destruct (Z.eqb_spec X 0) as [|HX0]; [done|]. cbn [negb orb]. rewrite checked_add_ok by lia. cbn [ok_or].
  rewrite checked_add_ok by lia. cbn [ok_or].
  destruct (checked_add USIZE_MAX (HEADER_LEN + (I + O) * 8 + E) X) as [xe|] eqn:Exe; [|done]. cbn [ok_or].
  apply checked_add_Some in Exe as [-> _].
  destruct (checked_add USIZE_MAX (HEADER_LEN + (I + O) * 8 + E + X) N) as [ne|] eqn:Ene; [|done]. cbn [ok_or].
  apply checked_add_Some in Ene as [-> _].
  destruct (Z.eqb_spec (HEADER_LEN + (I + O) * 8 + E + X + N) (zlen bytes)) as [Hz|]; [|done]. cbn [negb].
  rewrite parse_slots_spec. destruct (forallb _ _) eqn:Ef; [|done]. rewrite app_nil_l.
  destruct (utf8 entry) eqn:Eu; [|done]. cbn [negb].
  destruct (bool_decide_reflect (entry = [])) as [|He]; [done|].
  destruct (bool_decide_reflect (0 ∈ entry)) as [|H0]; [done|]. cbn [orb]. intros [= <-].
  split_and!; try done. apply Forall_fmap, Forall_forall. intros i Hi. rewrite forallb_forall in Ef.
  apply list_elem_of_In in Hi. specialize (Ef i Hi). simpl. by destruct (Z.eqb_spec (u64_at bytes (HEADER_LEN + Z.of_nat i * 8)) 0).
Qed.

Lemma slots_bounded : HEADER_LEN + (I + O) * 8 <= zlen bytes -> 0 <= I + O -> Forall (fun s => s <> 0) slots ->
  Forall (fun s => 0 < s <= U64_MAX) slots.
Proof.
  intros Hl Hp Hs. apply Forall_fmap, Forall_forall. rewrite Forall_fmap, Forall_forall in Hs. intros i Hi. specialize (Hs i Hi).
  simpl in *. apply elem_of_seq in Hi. unfold HEADER_LEN in *.
  pose proof (le_slice_bound 8 (36 + Z.of_nat i * 8) bytes Hb ltac:(lia) ltac:(lia)) as H.
  change (Z.of_nat 8) with 8 in H. change (256 ^ 8) with 18446744073709551616 in H. unfold u64_at in *.
  change (4 + 4 + 4 + 4 + 4 + 8 + 8) with 36 in *. lia.
Qed.

Lemma accepted_encoding a : zlen bytes <= USIZE_MAX -> parse_container bytes = Ok a ->
  exists entry ib ob xclbin insts, container_wf entry ib ob xclbin insts /\
    bytes = encode_container entry ib ob xclbin insts /\ a = container_of entry ib ob xclbin insts.
Proof.
  intros Hfit (Hlen & Hmagic & Hversion & HI0 & HO0 & Ht & Hm & HN0 & HX0 & Hz & Hs & Hu & He & H0 & ->)%accepted_fields.
  destruct (header_bounds Hlen) as (HI & HO & HE & HX & HN). assert (HEADER_LEN = 36) as HL by reflexivity.
  pose proof (slots_bounded ltac:(lia) ltac:(lia) Hs) as Hsizes.
  assert (zlen slots = I + O) as Hslots by (unfold zlen; rewrite length_fmap, length_seq; lia).
  set (ib := take (Z.to_nat I) slots). set (ob := drop (Z.to_nat I) slots).
  assert (zlen ib = I) as Hib by (unfold ib, zlen in *; rewrite length_take; lia).
  assert (zlen ob = O) as Hob by (unfold ob, zlen in *; rewrite length_drop; lia).
  assert (ib ++ ob = slots) as Hio by apply take_drop.
  assert (zlen entry = E) as Hze by (apply zlen_slice; lia). assert (zlen xclbin = X) as Hzx by (apply zlen_slice; lia).
  assert (zlen insts = N) as Hzn by (apply zlen_slice; lia).
  assert (bytes = encode_container entry ib ob xclbin insts) as Henc.
  { unfold encode_container. rewrite Hib, Hob, Hze, Hzx, Hzn, Hio, <- Hmagic, <- Hversion. rewrite !le_u32, !le_u64 by lia.
    rewrite words_of_slice by (done || lia). replace (Z.of_nat (Z.to_nat (I + O)) * 8) with ((I + O) * 8) by lia.
    apply container_split; lia. }
  exists entry, ib, ob, xclbin, insts. split; [|split; [exact Henc|]].
  - constructor.
    + intros E0. rewrite E0 in Hib. unfold zlen in Hib. simpl in Hib. lia.
    + intros E0. rewrite E0 in Hob. unfold zlen in Hob. simpl in Hob. lia.
    + lia.
    + by rewrite Hio.
    + split_and!; try done. lia.
    + intros E0. rewrite E0 in Hzx. unfold zlen in Hzx. simpl in Hzx. lia.
    + split; [|by rewrite Hzn]. intros E0. rewrite E0 in Hzn. unfold zlen in Hzn. simpl in Hzn. lia.
    + by rewrite <- Henc.
  - unfold container_of. by rewrite Hib, Hob, Hio.
Qed.
End Accepted.

(** C34: Parsing a precompiled container accepts exactly the encodings of
    well-formed parts (at least one input and one output, at most 256 slots of
    nonzero size, a nonempty UTF-8 entry name without NUL, nonempty binaries,
    an instruction stream of whole words) and returns these parts; no other
    byte string, truncated, padded or otherwise, is accepted. *)
Theorem container_parse_exact bytes a : is_bytes bytes -> zlen bytes <= USIZE_MAX ->
  parse_container bytes = Ok a <->
  exists entry ib ob xclbin insts, container_wf entry ib ob xclbin insts /\
    bytes = encode_container entry ib ob xclbin insts /\ a = container_of entry ib ob xclbin insts.
Proof.
  intros Hb Hfit. split; [by apply accepted_encoding|].
  intros (entry & ib & ob & xclbin & insts & Hwf & -> & ->). by apply parse_encoded.
Qed.

Lemma container_parse_exact_witness : exists a,
  parse_container (encode_container [65; 73; 69] [128; 64] [256] [171; 172] [17; 0; 0; 0]) = Ok a /\
  pa_slot_bytes a = [128; 64; 256].
Proof.
  exists (container_of [65; 73; 69] [128; 64] [256] [171; 172] [17; 0; 0; 0]). split; [|reflexivity].
  apply (container_parse_exact _ (container_of [65; 73; 69] [128; 64] [256] [171; 172] [17; 0; 0; 0])).
  - repeat (constructor; [vm_compute; split; discriminate|]). constructor.
  - vm_compute. discriminate.
  - exists [65; 73; 69], [128; 64], [256], [171; 172], [17; 0; 0; 0]. split; [|done].
    constructor; try done.
    + repeat (constructor; [lia|]). constructor.
    + split_and!; try done. rewrite !not_elem_of_cons. split_and!; try done. apply not_elem_of_nil.
Defined.

(** * The Core ML path artifact

    crates/virtio-accel-coreml/src/artifact.rs: the builder [CoreMlArtifact]
    and [decode].  Decoding accepts exactly the encodings of artifacts that the
    builder can build. *)

Module CoreMl.
Definition MAGIC : list Z := [0x43; 0x4d; 0x4c; 0x50].
Definition VERSION_MAJOR : Z := 1.
Definition VERSION_MINOR : Z := 0.
Definition HEADER_BYTES : Z := 16.
Definition ENTRY_HEADER_BYTES : Z := 8.
Definition MAX_ARTIFACT_BYTES : Z := 64 * 1024.
Definition MAX_MODEL_PATH_BYTES : Z := 4 * 1024.
Definition MAX_FEATURE_NAME_BYTES : Z := 1024.
Definition MAX_MAPPINGS : Z := 256.
Definition U16_MAX : Z := 65535.

Inductive FeatureRole := FeatureInput | FeatureOutput.
#[global] Instance FeatureRole_eq_dec : EqDecision FeatureRole.
Proof. solve_decision. Defined.

Definition role_byte (r : FeatureRole) : Z := match r with FeatureInput => 1 | FeatureOutput => 2 end.

Inductive DecodeError := DecodeInvalid | DecodeOutOfBounds | DecodeResourceLimit.

Definition FeatureRole_from_wire (value : Z) : result FeatureRole DecodeError :=
  if value =? 1 then Ok FeatureInput else if value =? 2 then Ok FeatureOutput else Err DecodeInvalid.

Inductive ArtifactBuildError :=
  | EmptyModelPath | ModelPathTooLong | EmptyFeatureName | FeatureNameTooLong | DuplicateFeature | EmptyMappings
  | TooManyMappings | ArtifactTooLarge.

Record FeatureMapping := { fm_slot : Z; fm_role : FeatureRole; fm_name : list Z }.

(** [CoreMlArtifact] and [DecodedArtifact] have the same fields. *)
Record CoreMlArtifact := { cm_model_path : list Z; cm_mappings : list FeatureMapping }.

(** ** Building *)

Definition CoreMlArtifact_new (model_path : list Z) : result CoreMlArtifact ArtifactBuildError :=
  if zlen model_path =? 0 then Err EmptyModelPath else
  if (MAX_MODEL_PATH_BYTES <? zlen model_path) || (U16_MAX <? zlen model_path) then Err ModelPathTooLong
  else Ok {| cm_model_path := model_path; cm_mappings := [] |}.

Definition map_feature (self : CoreMlArtifact) (slot : Z) (role : FeatureRole) (name : list Z)
    : result CoreMlArtifact ArtifactBuildError :=
  if zlen name =? 0 then Err EmptyFeatureName else
  if (MAX_FEATURE_NAME_BYTES <? zlen name) || (U16_MAX <? zlen name) then Err FeatureNameTooLong else
  if existsb (fun m => bool_decide (fm_role m = role) && bool_decide (fm_name m = name)) (cm_mappings self)
  then Err DuplicateFeature else
  if zlen (cm_mappings self) =? MAX_MAPPINGS then Err TooManyMappings else
  Ok {| cm_model_path := cm_model_path self;
        cm_mappings := cm_mappings self ++ [{| fm_slot := slot; fm_role := role; fm_name := name |}] |}.

Definition map_input (self : CoreMlArtifact) (slot : Z) (name : list Z) := map_feature self slot FeatureInput name.
Definition map_output (self : CoreMlArtifact) (slot : Z) (name : list Z) := map_feature self slot FeatureOutput name.

Definition encode_mapping (m : FeatureMapping) : list Z :=
  le_bytes 4 (fm_slot m) ++ [role_byte (fm_role m)] ++ [0] ++ le_bytes 2 (zlen (fm_name m)) ++ fm_name m.

Definition encode (self : CoreMlArtifact) : result (list Z) ArtifactBuildError :=
  if zlen (cm_mappings self) =? 0 then Err EmptyMappings else
  if (MAX_MAPPINGS <? zlen (cm_mappings self)) || (U16_MAX <? zlen (cm_mappings self)) then Err TooManyMappings else
  let bytes := MAGIC ++ [VERSION_MAJOR] ++ [VERSION_MINOR] ++ le_bytes 2 0 ++ le_bytes 2 (zlen (cm_model_path self)) ++
               le_bytes 2 (zlen (cm_mappings self)) ++ le_bytes 4 0 ++ cm_model_path self ++
               concat (encode_mapping <$> cm_mappings self) in
  if MAX_ARTIFACT_BYTES <? zlen bytes then Err ArtifactTooLarge else Ok bytes.

(** ** Decoding *)

(** A read of [n] bytes at [cursor]. *)
Definition read_exact_at (source : ByteSource) (cursor n : Z) : result (list Z) DecodeError :=
  match src_read_at source cursor n with Ok bytes => Ok bytes | Err _ => Err DecodeOutOfBounds end.

(** One entry; [features] are the role bytes and names read so far. *)
Definition decode_entry (source : ByteSource) (cursor : Z) (features : list (Z * list Z))
    : result (FeatureMapping * Z) DecodeError :=
  let? entry := read_exact_at source cursor ENTRY_HEADER_BYTES in
  let cursor := cursor + ENTRY_HEADER_BYTES in
  if negb (nth 5 entry 0 =? 0) then Err DecodeInvalid else
  let slot := le_value (slice 0 4 entry) in
  let? role := FeatureRole_from_wire (nth 4 entry 0) in
  let name_len := le_value [nth 6 entry 0; nth 7 entry 0] in
  if (name_len =? 0) || (MAX_FEATURE_NAME_BYTES <? name_len) then Err DecodeInvalid else
  let? name := read_exact_at source cursor name_len in
  let cursor := cursor + name_len in
  if negb (utf8 name) then Err DecodeInvalid else
  if bool_decide ((role_byte role, name) ∈ features) then Err DecodeInvalid else
  Ok ({| fm_slot := slot; fm_role := role; fm_name := name |}, cursor).

Fixpoint decode_entries (source : ByteSource) (count : nat) (cursor : Z) (features : list (Z * list Z))
    (mappings : list FeatureMapping) : result (list FeatureMapping * Z) DecodeError :=
  match count with
  | O => Ok (mappings, cursor)
  | S count =>
      let? (m, cursor) := decode_entry source cursor features in
      decode_entries source count cursor ((role_byte (fm_role m), fm_name m) :: features) (mappings ++ [m])
  end.

(** [alloc] says whether the reservation succeeds. *)
Definition decode (alloc : bool) (source : ByteSource) : result CoreMlArtifact DecodeError :=
  if MAX_ARTIFACT_BYTES <? src_len source then Err DecodeResourceLimit else
  if src_len source <? HEADER_BYTES then Err DecodeInvalid else
  let? header := read_exact_at source 0 HEADER_BYTES in
  if negb (bool_decide (slice 0 4 header = MAGIC)) || negb (nth 4 header 0 =? VERSION_MAJOR) ||
     negb (nth 5 header 0 =? VERSION_MINOR) || negb (bool_decide (slice 6 2 header = [0; 0])) ||
     negb (bool_decide (slice 12 4 header = [0; 0; 0; 0]))
  then Err DecodeInvalid else
  let path_len := le_value [nth 8 header 0; nth 9 header 0] in
  let mapping_count := le_value [nth 10 header 0; nth 11 header 0] in
  if (path_len =? 0) || (MAX_MODEL_PATH_BYTES <? path_len) || (MAX_MAPPINGS <? mapping_count) then Err DecodeInvalid else
  let? path := read_exact_at source HEADER_BYTES path_len in
  let cursor := HEADER_BYTES + path_len in
  if negb (utf8 path) then Err DecodeInvalid else
  if negb alloc then Err DecodeResourceLimit else
  let? (mappings, cursor) := decode_entries source (Z.to_nat mapping_count) cursor [] [] in
  if negb (cursor =? src_len source) || bool_decide (length mappings = O) then Err DecodeInvalid else
  Ok {| cm_model_path := path; cm_mappings := mappings |}.

(** ** Well-formed artifacts *)

Record mapping_wf (m : FeatureMapping) : Prop := {
  mw_slot : 0 <= fm_slot m <= U32_MAX;
  mw_name : fm_name m <> [] /\ zlen (fm_name m) <= MAX_FEATURE_NAME_BYTES /\ is_bytes (fm_name m) /\ utf8 (fm_name m) = true;
}.

Definition feature (m : FeatureMapping) : Z * list Z := (role_byte (fm_role m), fm_name m).

Record artifact_wf (a : CoreMlArtifact) : Prop := {
  aw_path : cm_model_path a <> [] /\ zlen (cm_model_path a) <= MAX_MODEL_PATH_BYTES /\ is_bytes (cm_model_path a) /\
    utf8 (cm_model_path a) = true;
  aw_mappings : Forall mapping_wf (cm_mappings a);
  aw_unique : NoDup (feature <$> cm_mappings a);
}.

(** A byte port over [content] that refuses to read beyond it. *)
Definition bounded_source (s : ByteSource) (content : list Z) : Prop :=
  source_of s content /\
  forall offset n, 0 <= offset -> 0 <= n -> zlen content < offset + n -> exists e, src_read_at s offset n = Err e.

Lemma slice_source_bounded bs : is_bytes bs -> zlen bs <= U64_MAX -> bounded_source (slice_source bs) bs.
Proof.
  intros Hb Hl. split; [by apply slice_source_of|]. intros offset n Ho Hn Hlt. simpl. unfold try_from, checked_add.
  destruct (Z.leb_spec offset USIZE_MAX); [|by eexists]. cbn [ok_or].
  destruct (Z.leb_spec (offset + n) USIZE_MAX); [|by eexists].
  rewrite (proj2 (Z.leb_gt _ _)) by lia. by eexists.
Qed.

Lemma role_byte_inj r r' : role_byte r = role_byte r' -> r = r'.
Proof. by destruct r, r'. Qed.

Lemma FeatureRole_from_wire_exact v r : FeatureRole_from_wire v = Ok r <-> v = role_byte r.
Proof.
  unfold FeatureRole_from_wire. destruct (Z.eqb_spec v 1); [|destruct (Z.eqb_spec v 2)]; destruct r; simpl; split; intros;
    simplify_eq; try done; lia.
Qed.

(** Builders build well-formed artifacts. *)
Lemma new_wf path a : is_bytes path -> utf8 path = true -> CoreMlArtifact_new path = Ok a -> artifact_wf a.
Proof.
  unfold CoreMlArtifact_new. intros Hb Hu. destruct (Z.eqb_spec (zlen path) 0) as [|Hz]; [done|].
  destruct (Z.ltb_spec MAX_MODEL_PATH_BYTES (zlen path)); [done|]. cbn [orb]. case_match; [done|]. intros [= <-].
  constructor; cbn [cm_model_path cm_mappings]; [|constructor|constructor].
  split_and!; try done. intros ->. by apply Hz.
Qed.

Lemma map_feature_wf a slot role name a' : artifact_wf a -> 0 <= slot <= U32_MAX -> is_bytes name -> utf8 name = true ->
  map_feature a slot role name = Ok a' -> artifact_wf a'.
Proof.
  unfold map_feature. intros [Hp Hm Hu] Hs Hb Hut. destruct (Z.eqb_spec (zlen name) 0) as [|Hz]; [done|].
  destruct (Z.ltb_spec MAX_FEATURE_NAME_BYTES (zlen name)) as [|Hl]; [done|]. cbn [orb]. case_match; [done|].
  destruct (existsb _ _) eqn:Ee; [done|]. case_match; [done|]. intros [= <-].
  constructor; cbn [cm_model_path cm_mappings]; [done| |].
  - apply Forall_app. split; [done|]. constructor; [|constructor]. constructor; cbn [fm_slot fm_name]; [done|].
    split_and!; try done. intros ->. by apply Hz.
  - rewrite fmap_app. apply NoDup_app. split; [done|]. split; [|apply NoDup_singleton].
    intros f (m & -> & Hin)%list_elem_of_fmap E%list_elem_of_singleton. unfold feature in E. cbn [fm_role fm_name] in E.
    injection E as E1 E2. apply role_byte_inj in E1. assert (existsb (fun m => bool_decide (fm_role m = role) &&
      bool_decide (fm_name m = name)) (cm_mappings a) = true) as Ht; [|congruence].
    apply existsb_exists. exists m. split; [by apply list_elem_of_In|]. by rewrite !bool_decide_true.
Qed.

(** ** One entry *)

Lemma zlen_encode_mapping m : zlen (encode_mapping m) = ENTRY_HEADER_BYTES + zlen (fm_name m).
Proof. unfold encode_mapping. rewrite !zlen_app, !zlen_le_bytes. unfold ENTRY_HEADER_BYTES, zlen. simpl length. lia. Qed.

Section Reading.
Context (s : ByteSource) (content : list Z).
Hypothesis Hsource : bounded_source s content.

Lemma read_exact_at_iff cursor n bs : 0 <= cursor -> 0 <= n ->
  read_exact_at s cursor n = Ok bs <-> cursor + n <= zlen content /\ bs = slice cursor n content.
Proof.
  intros Hc Hn. unfold read_exact_at. destruct Hsource as [Hs Hout].
  destruct (Z.leb_spec (cursor + n) (zlen content)) as [Hle|Hgt].
  - rewrite (so_read _ _ Hs) by done. naive_solver.
  - destruct (Hout cursor n Hc Hn Hgt) as [e ->]. split; [done|]. lia.
Qed.

(** Eight bytes with a name behind them are an encoded entry. *)
Lemma eight_bytes (l : list Z) : length l = 8%nat ->
  l = slice 0 4 l ++ [nth 4 l 0] ++ [nth 5 l 0] ++ [nth 6 l 0; nth 7 l 0].
Proof. intros H. do 8 (destruct l as [|? l]; [done|]). by destruct l. Qed.

Definition entry_header (m : FeatureMapping) : list Z :=
  le_bytes 4 (fm_slot m) ++ [role_byte (fm_role m)] ++ [0] ++ le_bytes 2 (zlen (fm_name m)).

Lemma encode_mapping_split m : encode_mapping m = entry_header m ++ fm_name m.
Proof. unfold encode_mapping, entry_header. by rewrite <- !app_assoc. Qed.

Lemma is_bytes_nth l i : is_bytes l -> is_u8 (nth i l 0).
Proof.
  intros Hb. destruct (decide (i < length l)%nat) as [Hi|Hi]; [|rewrite nth_overflow by lia; done].
  unfold is_bytes in Hb. rewrite Forall_forall in Hb. apply Hb, list_elem_of_In, nth_In, Hi.
Qed.

(** The fields of an entry header determine it, and are determined by it. *)
Lemma entry_header_fields entry m : is_bytes entry -> length entry = 8%nat ->
  fm_slot m = le_value (slice 0 4 entry) -> nth 4 entry 0 = role_byte (fm_role m) -> nth 5 entry 0 = 0 ->
  zlen (fm_name m) = le_value [nth 6 entry 0; nth 7 entry 0] -> entry_header m = entry /\ 0 <= fm_slot m <= U32_MAX.
Proof.
  intros Hb Hl Hs Hr H5 Hn. pose proof (eight_bytes entry Hl) as E. rewrite H5 in E. unfold entry_header. rewrite Hs, Hn, <- Hr.
  assert (is_bytes [nth 6 entry 0; nth 7 entry 0]) as Hbn.
  { constructor; [by apply is_bytes_nth|]. constructor; [by apply is_bytes_nth|constructor]. }
  pose proof (le_bytes_value _ Hbn) as E2. cbn [length] in E2. rewrite E2.
  pose proof (le_slice 4 0 entry Hb ltac:(lia) ltac:(unfold zlen; lia)) as E1. change (Z.of_nat 4) with 4 in E1. rewrite E1.
  split; [done|]. pose proof (le_slice_bound 4 0 entry Hb ltac:(lia) ltac:(unfold zlen; lia)) as Hbd.
  change (Z.of_nat 4) with 4 in Hbd. change (256 ^ 4) with 4294967296 in Hbd. lia.
Qed.

Lemma entry_header_read m : mapping_wf m -> let entry := entry_header m in
  le_value (slice 0 4 entry) = fm_slot m /\ nth 4 entry 0 = role_byte (fm_role m) /\ nth 5 entry 0 = 0 /\
  le_value [nth 6 entry 0; nth 7 entry 0] = zlen (fm_name m).
Proof.
  intros [Hs (Hne & Hlen & _)] entry. pose proof (zlen_nonneg (fm_name m)). unfold MAX_FEATURE_NAME_BYTES in Hlen.
  assert (slice 0 4 entry = le_bytes 4 (fm_slot m)) as ->.
  { unfold entry, entry_header. apply (slice_at [] (le_bytes 4 (fm_slot m))); [done|by rewrite zlen_le_bytes]. }
  split; [apply le_value_bytes; simpl; lia|]. split; [done|]. split; [done|].
  change [nth 6 entry 0; nth 7 entry 0] with (le_bytes 2 (zlen (fm_name m))). apply le_value_bytes. simpl. lia.
Qed.

(** An entry that was read. *)
Lemma read_entry cursor m : 0 <= cursor -> cursor + zlen (encode_mapping m) <= zlen content ->
  slice cursor (zlen (encode_mapping m)) content = encode_mapping m <->
  slice cursor ENTRY_HEADER_BYTES content = entry_header m /\
  slice (cursor + ENTRY_HEADER_BYTES) (zlen (fm_name m)) content = fm_name m.
Proof.
  intros Hc Hl. pose proof (zlen_nonneg (fm_name m)). rewrite zlen_encode_mapping in *. unfold ENTRY_HEADER_BYTES in *.
  rewrite <- slice_app, encode_mapping_split by lia. split; [|by intros [-> ->]].
  intros E. apply app_inj_1 in E; [done|].
  pose proof (zlen_slice cursor 8 content ltac:(lia) ltac:(lia) ltac:(lia)) as Hz. unfold zlen in Hz.
  unfold entry_header. rewrite !length_app, !length_le_bytes. simpl. lia.
Qed.

Lemma decode_entry_exact cursor features m cursor' : 0 <= cursor ->
  decode_entry s cursor features = Ok (m, cursor') <->
  mapping_wf m /\ (feature m ∉ features) /\ cursor' = cursor + zlen (encode_mapping m) /\ cursor' <= zlen content /\
  slice cursor (zlen (encode_mapping m)) content = encode_mapping m.
Proof.
  intros Hc. pose proof (so_bytes _ _ (proj1 Hsource)) as Hb. unfold decode_entry. split.
  - destruct (read_exact_at s cursor ENTRY_HEADER_BYTES) as [entry|] eqn:E1; [|done].
    apply read_exact_at_iff in E1 as [Hl ->]; [|done|done]. unfold ENTRY_HEADER_BYTES in *.
    assert (is_bytes (slice cursor 8 content)) as Hbe by (by apply is_bytes_slice).
    pose proof (zlen_slice cursor 8 content Hc ltac:(lia) Hl) as Hze.
    assert (length (slice cursor 8 content) = 8%nat) as Hle by (unfold zlen in Hze; lia).
    destruct (Z.eqb_spec (nth 5 (slice cursor 8 content) 0) 0) as [H5|]; [|done]. cbn [negb].
    destruct (FeatureRole_from_wire _) as [role|] eqn:E2; [|done]. apply FeatureRole_from_wire_exact in E2.
    set (n := le_value [nth 6 (slice cursor 8 content) 0; nth 7 (slice cursor 8 content) 0]).
    assert (0 <= n) as Hn0.
    { pose proof (is_bytes_nth (slice cursor 8 content) 6 Hbe). pose proof (is_bytes_nth (slice cursor 8 content) 7 Hbe).
      unfold n. simpl. lia. }
    destruct (Z.eqb_spec n 0) as [|Hn]; [done|]. destruct (Z.ltb_spec MAX_FEATURE_NAME_BYTES n) as [|Hnm]; [done|]. cbn [orb].
    destruct (read_exact_at s (cursor + 8) n) as [name|] eqn:E3; [|done].
    apply read_exact_at_iff in E3 as [Hl3 ->]; [|lia|done]. destruct (utf8 _) eqn:Eu; [|done]. cbn [negb].
    destruct (bool_decide_reflect ((role_byte role, slice (cursor + 8) n content) ∈ features)) as [|Hf]; [done|].
    intros [= <- <-]. set (m := {| fm_slot := _; fm_role := role; fm_name := _ |}).
    assert (zlen (fm_name m) = n) as Hzn by (apply zlen_slice; lia).
    destruct (entry_header_fields (slice cursor 8 content) m Hbe Hle eq_refl E2 H5 Hzn) as [Hh Hs].
    rewrite zlen_encode_mapping, Hzn. unfold ENTRY_HEADER_BYTES. split; [constructor; [done|]|].
    { split_and!; try done; [|lia|by apply is_bytes_slice]. intros E0. rewrite E0 in Hzn. unfold zlen in Hzn. simpl in Hzn. lia. }
    split; [done|]. split; [lia|]. split; [lia|]. rewrite <- slice_app, encode_mapping_split, Hh by lia. done.
  - intros (Hw & Hf & -> & Hle & Hsl). pose proof Hw as [_ (Hne & Hlen & _ & Hu)]. pose proof (zlen_nonneg (fm_name m)).
    apply read_entry in Hsl as [Hs1 Hs2]; [|done|done]. rewrite zlen_encode_mapping in Hle.
    rewrite (proj2 (read_exact_at_iff cursor ENTRY_HEADER_BYTES (entry_header m) Hc ltac:(done))) by (split; [lia|done]).
    destruct (entry_header_read m Hw) as (R1 & R2 & R3 & R4). rewrite R1, R2, R3, R4. cbn [Z.eqb negb].
    rewrite (proj2 (FeatureRole_from_wire_exact _ (fm_role m)) eq_refl).
    assert (zlen (fm_name m) <> 0) as Hz by (by intros ?%zlen_0).
    rewrite (proj2 (Z.eqb_neq _ _) Hz), (proj2 (Z.ltb_ge _ _)) by lia. cbn [orb].
    rewrite (proj2 (read_exact_at_iff (cursor + ENTRY_HEADER_BYTES) (zlen (fm_name m)) (fm_name m) ltac:(unfold ENTRY_HEADER_BYTES; lia) ltac:(lia)))
      by (split; [lia|done]).
    rewrite Hu. cbn [negb]. rewrite bool_decide_false by done. rewrite zlen_encode_mapping. destruct m. do 2 f_equal. lia.
Qed.

(** ** All entries *)

Abbreviation entries ms := (concat (encode_mapping <$> ms)).

Lemma entries_cons m ms : entries (m :: ms) = encode_mapping m ++ entries ms.
Proof. done. Qed.

(** Entries that were read from [cursor] on. *)
Record entries_at (cursor : Z) (features : list (Z * list Z)) (ms : list FeatureMapping) : Prop := {
  ea_wf : Forall mapping_wf ms;
  ea_unique : NoDup (feature <$> ms);
  ea_fresh : forall f, f ∈ feature <$> ms -> f ∉ features;
  ea_fits : cursor + zlen (entries ms) <= zlen content;
  ea_bytes : slice cursor (zlen (entries ms)) content = entries ms;
}.

Lemma entries_at_cons cursor features m ms : 0 <= cursor ->
  entries_at cursor features (m :: ms) <->
  (mapping_wf m /\ (feature m ∉ features) /\ cursor + zlen (encode_mapping m) <= zlen content /\
   slice cursor (zlen (encode_mapping m)) content = encode_mapping m) /\
  entries_at (cursor + zlen (encode_mapping m)) (feature m :: features) ms.
Proof.
  intros Hc. pose proof (zlen_nonneg (encode_mapping m)). pose proof (zlen_nonneg (entries ms)). split.
  - intros [Hw Hu Hf Hl Hb]. apply Forall_cons in Hw as [Hw Hws]. rewrite fmap_cons in Hu. apply NoDup_cons in Hu as [Hm Hu].
    rewrite entries_cons, zlen_app in Hl, Hb. rewrite <- slice_app in Hb by lia.
    pose proof (zlen_slice cursor (zlen (encode_mapping m)) content ltac:(lia) ltac:(lia) ltac:(lia)) as Hz.
    apply app_inj_1 in Hb as [Hb1 Hb2]; [|by apply Nat2Z.inj].
    split; [split_and!; try done; [apply Hf; by left|lia]|].
    constructor; try done; [|lia]. intros f Hin. apply not_elem_of_cons. split; [by intros ->|]. apply Hf. by right.
  - intros [(Hw & Hf & Hl & Hb) [Hws Hu Hfs Hl2 Hb2]]. constructor; rewrite ?entries_cons, ?fmap_cons.
    + by constructor.
    + apply NoDup_cons. split; [|done]. intros Hin. apply (Hfs _ Hin). by left.
    + intros f [->|Hin]%elem_of_cons; [done|]. intros H1. apply (Hfs _ Hin). by right.
    + rewrite zlen_app. lia.
    + rewrite zlen_app, <- slice_app, Hb, Hb2 by lia. done.
Qed.

Lemma decode_entries_exact count cursor features acc res cursor' : 0 <= cursor -> cursor <= zlen content ->
  decode_entries s count cursor features acc = Ok (res, cursor') <->
  exists ms, res = acc ++ ms /\ length ms = count /\ cursor' = cursor + zlen (entries ms) /\ entries_at cursor features ms.
Proof.
  revert cursor features acc. induction count as [|count IH]; intros cursor features acc Hc Hl; cbn [decode_entries].
  - split.
    + intros [= <- <-]. exists []. split; [by rewrite app_nil_r|]. split; [done|]. split; [unfold zlen; simpl; lia|].
      constructor; [constructor|constructor|by intros f []%elem_of_nil|unfold zlen in *; simpl; lia|done].
    + intros (ms & -> & ->%length_zero_iff_nil & -> & _). rewrite app_nil_r. do 2 f_equal. unfold zlen. simpl. lia.
  - split.
    + destruct (decode_entry s cursor features) as [[m c1]|] eqn:E; [|done].
      apply decode_entry_exact in E as (Hw & Hf & -> & Hle & Hb); [|done]. pose proof (zlen_nonneg (encode_mapping m)).
      intros (ms & -> & Hlen & -> & Hat)%IH; [|lia|done]. exists (m :: ms). rewrite entries_cons, zlen_app.
      split; [by rewrite <- app_assoc|]. split; [simpl; lia|]. split; [lia|]. by apply entries_at_cons.
    + intros (ms & -> & Hlen & -> & Hat). destruct ms as [|m ms]; [done|]. apply entries_at_cons in Hat as [(Hw & Hf & Hle & Hb) Hat]; [|done].
      rewrite (proj2 (decode_entry_exact cursor features m (cursor + zlen (encode_mapping m)) Hc)) by done.
      pose proof (zlen_nonneg (encode_mapping m)). apply IH; [lia|done|]. exists ms. rewrite entries_cons, zlen_app.
      split; [by rewrite <- app_assoc|]. split; [simpl in Hlen; lia|]. split; [lia|done].
Qed.

(** ** The whole artifact *)

Definition header_of (a : CoreMlArtifact) : list Z :=
  MAGIC ++ [VERSION_MAJOR] ++ [VERSION_MINOR] ++ le_bytes 2 0 ++ le_bytes 2 (zlen (cm_model_path a)) ++
  le_bytes 2 (zlen (cm_mappings a)) ++ le_bytes 4 0.

Lemma encode_split a : MAGIC ++ [VERSION_MAJOR] ++ [VERSION_MINOR] ++ le_bytes 2 0 ++ le_bytes 2 (zlen (cm_model_path a)) ++
  le_bytes 2 (zlen (cm_mappings a)) ++ le_bytes 4 0 ++ cm_model_path a ++ entries (cm_mappings a) =
  header_of a ++ cm_model_path a ++ entries (cm_mappings a).
Proof. unfold header_of. by rewrite <- !app_assoc. Qed.

Lemma length_header_of a : length (header_of a) = 16%nat.
Proof. unfold header_of. by rewrite !length_app, !length_le_bytes. Qed.

Lemma sixteen_bytes (l : list Z) : length l = 16%nat ->
  l = slice 0 4 l ++ [nth 4 l 0] ++ [nth 5 l 0] ++ slice 6 2 l ++ [nth 8 l 0; nth 9 l 0] ++ [nth 10 l 0; nth 11 l 0] ++ slice 12 4 l.
Proof. intros H. do 16 (destruct l as [|? l]; [done|]). by destruct l. Qed.

(** The header test, for the two counts that it holds. *)
Definition header_test (header : list Z) : bool :=
  negb (bool_decide (slice 0 4 header = MAGIC)) || negb (nth 4 header 0 =? VERSION_MAJOR) ||
  negb (nth 5 header 0 =? VERSION_MINOR) || negb (bool_decide (slice 6 2 header = [0; 0])) ||
  negb (bool_decide (slice 12 4 header = [0; 0; 0; 0])).

Lemma header_exact header a : is_bytes header -> length header = 16%nat ->
  zlen (cm_model_path a) <= U16_MAX -> zlen (cm_mappings a) <= U16_MAX ->
  header = header_of a <-> header_test header = false /\
    le_value [nth 8 header 0; nth 9 header 0] = zlen (cm_model_path a) /\
    le_value [nth 10 header 0; nth 11 header 0] = zlen (cm_mappings a).
Proof.
  intros Hb Hl Hp Hm. pose proof (zlen_nonneg (cm_model_path a)). pose proof (zlen_nonneg (cm_mappings a)). unfold U16_MAX in *. split.
  - intros ->. split; [|split].
    + done.
    + change [nth 8 (header_of a) 0; nth 9 (header_of a) 0] with (le_bytes 2 (zlen (cm_model_path a))). apply le_value_bytes. simpl. lia.
    + change [nth 10 (header_of a) 0; nth 11 (header_of a) 0] with (le_bytes 2 (zlen (cm_mappings a))). apply le_value_bytes. simpl. lia.
  - unfold header_test. intros (Ht & H8 & H10).
    destruct (bool_decide_reflect (slice 0 4 header = MAGIC)) as [T1|]; [|done].
    destruct (Z.eqb_spec (nth 4 header 0) VERSION_MAJOR) as [T2|]; [|done].
    destruct (Z.eqb_spec (nth 5 header 0) VERSION_MINOR) as [T3|]; [|done].
    destruct (bool_decide_reflect (slice 6 2 header = [0; 0])) as [T4|]; [|done].
    destruct (bool_decide_reflect (slice 12 4 header = [0; 0; 0; 0])) as [T5|]; [|done].
    assert (forall i j, le_bytes 2 (le_value [nth i header 0; nth j header 0]) = [nth i header 0; nth j header 0]) as Hle.
    { intros i j. apply (le_bytes_value [nth i header 0; nth j header 0]).
      constructor; [by apply is_bytes_nth|]. constructor; [by apply is_bytes_nth|constructor]. }
    unfold header_of. rewrite <- H8, <- H10, !Hle. rewrite (sixteen_bytes header Hl) at 1. rewrite T1, T2, T3, T4, T5. done.
Qed.

Lemma encode_exact a bytes : encode a = Ok bytes <->
  1 <= zlen (cm_mappings a) <= MAX_MAPPINGS /\ bytes = header_of a ++ cm_model_path a ++ entries (cm_mappings a) /\
  zlen bytes <= MAX_ARTIFACT_BYTES.
Proof.
  unfold encode. rewrite encode_split. pose proof (zlen_nonneg (cm_mappings a)). unfold MAX_MAPPINGS, U16_MAX.
  destruct (Z.eqb_spec (zlen (cm_mappings a)) 0); [split; [done|lia]|].
  destruct (Z.ltb_spec 256 (zlen (cm_mappings a))); [split; [done|lia]|]. cbn [orb].
  rewrite (proj2 (Z.ltb_ge 65535 _)) by lia. destruct (Z.ltb_spec MAX_ARTIFACT_BYTES
    (zlen (header_of a ++ cm_model_path a ++ entries (cm_mappings a)))) as [Hlt|Hge]; split.
  - done.
  - intros (_ & -> & ?). lia.
  - intros [= <-]. split; [lia|done].
  - by intros (_ & -> & _).
Qed.

(** An artifact that was read is the one that was encoded. *)
Lemma content_split a : zlen (cm_model_path a) <= MAX_MODEL_PATH_BYTES -> 1 <= zlen (cm_mappings a) <= MAX_MAPPINGS ->
  zlen content <= MAX_ARTIFACT_BYTES ->
  content = header_of a ++ cm_model_path a ++ entries (cm_mappings a) <->
  HEADER_BYTES + zlen (cm_model_path a) + zlen (entries (cm_mappings a)) = zlen content /\
  slice 0 HEADER_BYTES content = header_of a /\ slice HEADER_BYTES (zlen (cm_model_path a)) content = cm_model_path a /\
  slice (HEADER_BYTES + zlen (cm_model_path a)) (zlen (entries (cm_mappings a))) content = entries (cm_mappings a).
Proof.
  intros Hp Hm Hl. pose proof (zlen_nonneg (cm_model_path a)). pose proof (zlen_nonneg (entries (cm_mappings a))).
  assert (zlen (header_of a) = HEADER_BYTES) as Hh by (unfold zlen; by rewrite length_header_of).
  assert (HEADER_BYTES = 16) as HB by reflexivity. split.
  - intros ->. rewrite !zlen_app, Hh. split; [lia|]. split; [|split].
    + apply (slice_at [] (header_of a)); done.
    + by apply slice_at.
    + rewrite app_assoc. apply slice_end; [by rewrite zlen_app, Hh|done].
  - intros (Hz & H1 & H2 & H3). rewrite <- H1. set (p := zlen (cm_model_path a)) in *. rewrite <- H2, <- H3 at 1.
    rewrite slice_app by lia. pose proof (slice_app 0 HEADER_BYTES (p + zlen (entries (cm_mappings a))) content) as E.
    rewrite Z.add_0_l in E. rewrite E by lia. rewrite <- (slice_all content) at 1. f_equal. lia.
Qed.

(** Whatever decodes is an encoding. *)
Lemma decoded_is_encoding a : decode true s = Ok a -> artifact_wf a /\ encode a = Ok content.
Proof.
  pose proof (proj1 Hsource) as Hs. pose proof (so_bytes _ _ Hs) as Hb.
  unfold decode. rewrite (so_len _ _ Hs). assert (HEADER_BYTES = 16) as HB by reflexivity.
  { destruct (Z.ltb_spec MAX_ARTIFACT_BYTES (zlen content)) as [|Hmax]; [done|].
    destruct (Z.ltb_spec (zlen content) HEADER_BYTES) as [|Hmin]; [done|].
    destruct (read_exact_at s 0 HEADER_BYTES) as [header|] eqn:E1; [|done]. apply read_exact_at_iff in E1 as [_ Eh]; [|lia|lia].
    assert (is_bytes header) as Hbh by (rewrite Eh; by apply is_bytes_slice).
    assert (length header = 16%nat) as Hlh.
    { apply Nat2Z.inj. rewrite Eh. exact (zlen_slice 0 16 content ltac:(lia) ltac:(lia) ltac:(lia)). }
    fold (header_test header). destruct (header_test header) eqn:Et; [done|].
    set (p := le_value [nth 8 header 0; nth 9 header 0]). set (k := le_value [nth 10 header 0; nth 11 header 0]).
    assert (0 <= p /\ 0 <= k) as [Hp0 Hk0].
    { pose proof (is_bytes_nth header 8 Hbh). pose proof (is_bytes_nth header 9 Hbh). pose proof (is_bytes_nth header 10 Hbh).
      pose proof (is_bytes_nth header 11 Hbh). unfold p, k. simpl. lia. }
    destruct (Z.eqb_spec p 0) as [|Hp]; [done|]. destruct (Z.ltb_spec MAX_MODEL_PATH_BYTES p) as [|Hpm]; [done|].
    destruct (Z.ltb_spec MAX_MAPPINGS k) as [|Hkm]; [done|]. cbn [orb].
    destruct (read_exact_at s HEADER_BYTES p) as [path|] eqn:E2; [|done]. apply read_exact_at_iff in E2 as [Hl2 Ep]; [|lia|lia].
    destruct (utf8 path) eqn:Eu; [|done]. cbn [negb].
    destruct (decode_entries s (Z.to_nat k) (HEADER_BYTES + p) [] []) as [[ms cursor]|] eqn:E3; [|done].
    apply decode_entries_exact in E3 as (ms' & -> & Hlen & -> & [Hw Hu _ Hf Hbm]); [|lia|lia]. rewrite app_nil_l.
    destruct (Z.eqb_spec (HEADER_BYTES + p + zlen (entries ms')) (zlen content)) as [Hend|]; [|done]. cbn [negb orb].
    destruct (bool_decide_reflect (length ms' = 0%nat)) as [|Hne]; [done|]. intros [= <-].
    assert (zlen path = p) as Hzp by (rewrite Ep; apply zlen_slice; lia). assert (zlen ms' = k) as Hzk by (unfold zlen; lia).
    split.
    + constructor; cbn [cm_model_path cm_mappings]; try done. split_and!; try done; [|lia|rewrite Ep; by apply is_bytes_slice].
      intros E0. rewrite E0 in Hzp. unfold zlen in Hzp. simpl in Hzp. lia.
    + unfold MAX_MAPPINGS, MAX_MODEL_PATH_BYTES in *. apply encode_exact. cbn [cm_model_path cm_mappings]. unfold MAX_MAPPINGS. split; [unfold zlen in *; lia|]. split; [|done].
      apply (content_split {| cm_model_path := path; cm_mappings := ms' |}); cbn [cm_model_path cm_mappings];
        unfold MAX_MAPPINGS, MAX_MODEL_PATH_BYTES; rewrite ?Hzp, ?Hzk; [lia|unfold zlen in *; lia|done|].
      split; [done|]. split; [|split; [by rewrite <- Ep|done]]. rewrite <- Eh.
      apply header_exact; cbn [cm_model_path cm_mappings]; unfold U16_MAX; rewrite ?Hzp, ?Hzk; try done; lia. }
Qed.

(** Every encoding decodes. *)
Lemma encoding_decodes a : artifact_wf a -> encode a = Ok content -> decode true s = Ok a.
Proof.
  intros [(Hpn & Hpl & Hpb & Hpu) Hm Hu] (Hk & Hc & Hmax)%encode_exact.
  pose proof (proj1 Hsource) as Hs. pose proof (so_bytes _ _ Hs) as Hb. assert (HEADER_BYTES = 16) as HB by reflexivity.
  apply content_split in Hc as (Hz & H1 & H2 & H3); [|done|done|done].
  pose proof (zlen_nonneg (cm_model_path a)). pose proof (zlen_nonneg (entries (cm_mappings a))).
  assert (zlen (cm_model_path a) <> 0) as Hpz by (by intros ?%zlen_0).
  unfold MAX_MAPPINGS, MAX_MODEL_PATH_BYTES in *.
  assert (is_bytes (header_of a)) as Hbh by (rewrite <- H1; by apply is_bytes_slice).
  destruct (proj1 (header_exact (header_of a) a Hbh (length_header_of a) ltac:(unfold U16_MAX; lia) ltac:(unfold U16_MAX; lia)) eq_refl)
    as (Ht & H8 & H10).
  unfold decode. rewrite (so_len _ _ Hs), (proj2 (Z.ltb_ge _ _)) by done. rewrite (proj2 (Z.ltb_ge _ HEADER_BYTES)) by lia.
  rewrite (proj2 (read_exact_at_iff 0 HEADER_BYTES (header_of a) ltac:(lia) ltac:(lia))) by (split; [lia|done]).
  fold (header_test (header_of a)). rewrite Ht, H8, H10, (proj2 (Z.eqb_neq _ _) Hpz). unfold MAX_MAPPINGS, MAX_MODEL_PATH_BYTES.
  rewrite !(proj2 (Z.ltb_ge _ _)) by lia. cbn [orb].
  rewrite (proj2 (read_exact_at_iff HEADER_BYTES (zlen (cm_model_path a)) (cm_model_path a) ltac:(lia) ltac:(lia))) by (split; [lia|done]).
  rewrite Hpu. cbn [negb].
  rewrite (proj2 (decode_entries_exact (Z.to_nat (zlen (cm_mappings a))) (HEADER_BYTES + zlen (cm_model_path a)) [] []
    (cm_mappings a) (HEADER_BYTES + zlen (cm_model_path a) + zlen (entries (cm_mappings a))) ltac:(lia) ltac:(lia))).
  - rewrite Hz, Z.eqb_refl, bool_decide_false by (unfold zlen in Hk; lia). by destruct a.
  - exists (cm_mappings a). split; [done|]. split; [unfold zlen; lia|]. split; [done|].
    constructor; try done; [|lia]. intros f _. apply not_elem_of_nil.
Qed.
End Reading.
End CoreMl.

(** C37: Decoding a Core ML artifact, whatever byte port holds it, accepts
    exactly the encodings of artifacts with a nonempty UTF-8 path within the
    limit, one to 256 mappings with valid names, no role with the same feature
    twice, and at most 64 KiB in all, and returns the encoded artifact. *)
Theorem coreml_decode_exact s content a : CoreMl.bounded_source s content ->
  CoreMl.decode true s = Ok a <-> CoreMl.artifact_wf a /\ CoreMl.encode a = Ok content.
Proof.
  intros Hs. split; [by apply CoreMl.decoded_is_encoding|]. intros [Hw He]. by apply (CoreMl.encoding_decodes s content Hs).
Qed.

(** The artifact of the crate's own test, built through the builder. *)
Definition demo_artifact : CoreMl.CoreMlArtifact :=
  {| CoreMl.cm_model_path := [109; 46; 109; 108];
     CoreMl.cm_mappings := [{| CoreMl.fm_slot := 7; CoreMl.fm_role := CoreMl.FeatureInput; CoreMl.fm_name := [120] |};
                            {| CoreMl.fm_slot := 7; CoreMl.fm_role := CoreMl.FeatureOutput; CoreMl.fm_name := [121] |}] |}.

Lemma coreml_decode_exact_witness :
  (let? a := CoreMl.CoreMlArtifact_new [109; 46; 109; 108] in
   let? a := CoreMl.map_input a 7 [120] in CoreMl.map_output a 7 [121]) = Ok demo_artifact /\
  exists content, CoreMl.encode demo_artifact = Ok content /\ CoreMl.decode true (slice_source content) = Ok demo_artifact.
Proof.
  split; [reflexivity|].
  eexists. split; [vm_compute; reflexivity|]. eapply coreml_decode_exact.
  - apply CoreMl.slice_source_bounded; [|vm_compute; discriminate].
    repeat (constructor; [vm_compute; split; discriminate|]). constructor.
  - split; [|vm_compute; reflexivity]. constructor; cbn.
    + split_and!; [done|vm_compute; discriminate| |done]. repeat (constructor; [vm_compute; split; discriminate|]). constructor.
    + repeat constructor; cbn; done.
    + repeat (apply NoDup_cons; split; [apply (bool_decide_unpack _); vm_compute; exact I|]). constructor.
Defined.
