(* ===== verification/VulkanShader.v ===== *)
(** * Kernels of the Vulkan backend: selection and specialization payloads

    crates/virtio-accel-vulkan/src/shader.rs, the part that runs on the host:
    operand storages, kernel variants, the specialization words of a dispatch,
    workgroup counts and binary16 conversion.  What the assembled kernels address
    is in VulkanAccess; what they compute is not modelled. *)

From Stdlib Require Import ZArith Lia.
From stdpp Require Import prelude list.
From S2P Require Import Prelude TosaNumeric TosaSpecialize TosaSemantic TosaAttrCheck.

Definition MAX_RANK : nat := 6.

(** ** Variants *)

Inductive Fp8Format := E4M3 | E5M2.

Inductive Storage := StWord | StByte | StQuarter (format : Fp8Format) | StHalf.

#[global] Instance Fp8Format_eq_dec : EqDecision Fp8Format.
Proof. solve_decision. Defined.
#[global] Instance Storage_eq_dec : EqDecision Storage.
Proof. solve_decision. Defined.

Definition lanes (s : Storage) : Z :=
  match s with StWord => 1 | StHalf => 2 | StByte | StQuarter _ => 4 end.

Inductive NanMode := NanPropagate | NanIgnore.

Inductive ElementwiseOp :=
  | EAbs | ECeil | ECos | EErf | EExp | EFloor | ELog | ENegate | EReciprocal | ERsqrt | ESin | ESigmoid | ETanh
  | EClamp (nan_mode : NanMode)
  | EAdd | ESub | EMul | EPow
  | EMaximum (nan_mode : NanMode) | EMinimum (nan_mode : NanMode)
  | EEqual | EGreater | EGreaterEqual | ELogicalAnd | ELogicalOr | ELogicalXor | ELogicalNot | ESelect | ECopyBytes.

(** [ElementwiseOp::inputs] *)
Definition lane_inputs (op : ElementwiseOp) : list Storage :=
  match op with
  | EAbs | ECeil | ECos | EErf | EExp | EFloor | ELog | ENegate | EReciprocal | ERsqrt | ESin | ESigmoid | ETanh
  | EClamp _ => [StWord]
  | EAdd | ESub | EMul | EPow | EMaximum _ | EMinimum _ | EEqual | EGreater | EGreaterEqual => [StWord; StWord]
  | ELogicalAnd | ELogicalOr | ELogicalXor => [StByte; StByte]
  | ELogicalNot | ECopyBytes => [StByte]
  | ESelect => [StByte; StWord; StWord]
  end.

(** [ElementwiseOp::output] *)
Definition lane_output (op : ElementwiseOp) : Storage :=
  match op with
  | EEqual | EGreater | EGreaterEqual | ELogicalAnd | ELogicalOr | ELogicalXor | ELogicalNot | ECopyBytes => StByte
  | _ => StWord
  end.

Definition extra_spec_constants (op : ElementwiseOp) : Z := match op with EClamp _ => 2 | _ => 0 end.

Inductive ReduceOp := RSum | RProduct | RMax (nan_mode : NanMode) | RMin (nan_mode : NanMode) | RArgMax (nan_mode : NanMode).

Inductive KernelKey :=
  | KeyNvfp4Matmul (buffers : Z) (cooperative subgroup : bool)
  | KeyElementwise (op : ElementwiseOp) (float : Storage) (broadcast : bool) (workgroup buffers : Z)
  | KeyReduce (op : ReduceOp) (float : Storage) (workgroup buffers : Z)
  | KeyMatmul (input output : Storage) (tile buffers : Z)
  | KeyMatmulStream (rhs output : Storage) (buffers : Z)
  | KeyMaxPool (nan_mode : NanMode) (float : Storage) (workgroup buffers : Z)
  | KeyCast (input output : Storage) (workgroup buffers : Z)
  | KeyMove (storage : Storage) (contiguous : bool) (workgroup buffers : Z).

Definition spec_constant_count (key : KernelKey) : Z :=
  match key with
  | KeyElementwise op _ broadcast _ _ =>
      let inputs := zlen (lane_inputs op) in
      let base := 1 + 2 * inputs + 2 in
      let shape := if broadcast then Z.of_nat MAX_RANK * (1 + inputs) else 0 in
      base + shape + extra_spec_constants op
  | KeyReduce _ _ _ _ => 2 + 2 + 3
  | KeyMatmul _ _ _ _ | KeyMatmulStream _ _ _ => 3 * 2 + 4
  | KeyNvfp4Matmul _ _ _ => 15 * 2 + 5
  | KeyMaxPool _ _ _ _ => 2 + 2 + 12
  | KeyMove _ contiguous _ _ => if contiguous then 2 + 2 + 1 else 2 + 2 + 1 + Z.of_nat MAX_RANK * 3 + 2
  | KeyCast _ _ _ _ => 2 + 2 + 1
  end.

(** ** Specialization payloads *)

Record Operand := { op_buffer : Z; op_base : Z }.

(** [Operand::push] *)
Definition operand_words (o : Operand) : list Z := [op_buffer o; op_base o].

(** An array [[u32; MAX_RANK]] is a list of six words. *)
Record ElementwiseSpec := {
  es_count : Z;
  es_inputs : list Operand;
  es_output : Operand;
  es_dims : list Z;
  es_strides : list (list Z);
  es_clamp : option (Z * Z);
}.

Definition ElementwiseSpec_words (self : ElementwiseSpec) (broadcast : bool) : list Z :=
  [es_count self] ++ concat (operand_words <$> es_inputs self) ++ operand_words (es_output self) ++
  (if broadcast then es_dims self ++ concat (es_strides self) else []) ++
  match es_clamp self with Some (lo, hi) => [lo; hi] | None => [] end.

Definition reduce_spec (input output : Operand) (outer axis inner : Z) : list Z :=
  operand_words input ++ operand_words output ++ [outer; axis; inner].

Definition matmul_spec (lhs rhs output : Operand) (m n k batch : Z) : list Z :=
  operand_words lhs ++ operand_words rhs ++ operand_words output ++ [m; n; k; batch].

Record Nvfp4MatmulSpec := {
  ns_activation : Operand;
  ns_packed : list Operand;
  ns_block_scales : list Operand;
  ns_tensor_scale : Operand;
  ns_output : Operand;
  ns_m : Z;
  ns_n : Z;
  ns_k : Z;
  ns_epilogue : Z;
  ns_weight_mode : Z;
}.

(** Six operands, the last one repeated; the index is a panic on an empty list. *)
Definition six_operands (os : list Operand) : option (list Z) :=
  @concat Z <$> mapM (fun index => operand_words <$> os !! (index `min` (length os - 1))%nat) (seq 0 6).

(** The [assert!] is a panic. *)
Definition Nvfp4MatmulSpec_words (self : Nvfp4MatmulSpec) : option (list Z) :=
  if negb (0 <? zlen (ns_packed self)) || negb (zlen (ns_packed self) <=? 6) ||
     negb (zlen (ns_packed self) =? zlen (ns_block_scales self)) then None else
  packed ← six_operands (ns_packed self);
  scales ← six_operands (ns_block_scales self);
  Some (operand_words (ns_activation self) ++ packed ++ scales ++ operand_words (ns_tensor_scale self) ++
        operand_words (ns_output self) ++
        [ns_m self; ns_n self; ns_k self; ns_epilogue self; ns_weight_mode self]).

Record PoolGeometry := {
  pg_batch : Z; pg_height : Z; pg_width : Z; pg_channels : Z; pg_out_height : Z; pg_out_width : Z;
  pg_kernel : Z * Z; pg_stride : Z * Z; pg_pad_top : Z; pg_pad_left : Z;
}.

Definition max_pool_spec (input output : Operand) (g : PoolGeometry) : list Z :=
  operand_words input ++ operand_words output ++
  [pg_batch g; pg_height g; pg_width g; pg_channels g; pg_out_height g; pg_out_width g;
   (pg_kernel g).1; (pg_kernel g).2; (pg_stride g).1; (pg_stride g).2; pg_pad_top g; pg_pad_left g].

Record MoveGeometry := {
  mg_count : Z;
  mg_dims : list Z;
  mg_in_strides : list Z;
  mg_in_offset : Z;
  mg_out_strides : list Z;
  mg_out_offset : Z;
}.

Definition move_spec (input output : Operand) (g : MoveGeometry) (contiguous : bool) : list Z :=
  operand_words input ++ operand_words output ++ [mg_count g] ++
  (if contiguous then []
   else mg_dims g ++ mg_in_strides g ++ [mg_in_offset g] ++ mg_out_strides g ++ [mg_out_offset g]).

(** ** Workgroups *)

Definition linear_workgroups (count workgroup limit : Z) : Z :=
  let needed := div_ceil count workgroup in
  if needed =? 0 then 1 else if limit <? needed then limit else needed.

Definition MATMUL_MICRO : Z := 4.
Definition STREAM_ROWS : Z := 8.
Definition STREAM_COLUMNS : Z := 16.
Definition STREAM_WORKGROUP : Z := 64.

Definition stream_matmul_shared_bytes : Z := STREAM_WORKGROUP * STREAM_ROWS * 4 * 4.

Definition stream_matmul_workgroups (n batch : Z) : Z * Z * Z := (div_ceil n STREAM_COLUMNS, 1, batch).

(** Products of [u32] wrap, as in a release build. *)
Definition mul32 (a b : Z) : Z := as_unsigned 32 (a * b).

Definition matmul_block (tile : Z) : Z := mul32 tile MATMUL_MICRO.

Record MatmulGeometry := { mm_tile_x : Z; mm_tile_y : Z; mm_micro_m : Z; mm_micro_n : Z; mm_depth : Z }.

Definition MatmulGeometry_wide (tile : Z) : MatmulGeometry :=
  {| mm_tile_x := tile; mm_tile_y := tile; mm_micro_m := MATMUL_MICRO; mm_micro_n := MATMUL_MICRO; mm_depth := tile |}.

Definition invocations (g : MatmulGeometry) : Z := mul32 (mm_tile_x g) (mm_tile_y g).
Definition block_m (g : MatmulGeometry) : Z := mul32 (mm_tile_y g) (mm_micro_m g).
Definition block_n (g : MatmulGeometry) : Z := mul32 (mm_tile_x g) (mm_micro_n g).
Definition MatmulGeometry_local_size (g : MatmulGeometry) : Z * Z * Z := (mm_tile_x g, mm_tile_y g, 1).

Definition shared_bytes (g : MatmulGeometry) : Z :=
  mul32 (mul32 (as_unsigned 32 (block_m g + block_n g)) (mm_depth g)) 4.

Definition matmul_shared_bytes (tile : Z) : Z :=
  let wide := shared_bytes (MatmulGeometry_wide tile) in
  if stream_matmul_shared_bytes <? wide then wide else stream_matmul_shared_bytes.

Definition matmul_workgroups (m n batch tile : Z) : Z * Z * Z :=
  let block := matmul_block tile in
  (div_ceil n block, div_ceil m block, batch).

(** [KernelKey::local_size] *)
Definition local_size (key : KernelKey) : Z * Z * Z :=
  match key with
  | KeyElementwise _ _ _ workgroup _ | KeyReduce _ _ workgroup _ | KeyMaxPool _ _ workgroup _
  | KeyMove _ _ workgroup _ | KeyCast _ _ workgroup _ => (workgroup, 1, 1)
  | KeyMatmul _ _ tile _ => MatmulGeometry_local_size (MatmulGeometry_wide tile)
  | KeyMatmulStream _ _ _ => (STREAM_WORKGROUP, 1, 1)
  | KeyNvfp4Matmul _ false false => (STREAM_WORKGROUP, 1, 1)
  | KeyNvfp4Matmul _ true _ => (32, 1, 1)
  | KeyNvfp4Matmul _ false true => (32, 1, 1)
  end.

(** ** Binary16 *)

(** [shader::f16_to_f32], on bit patterns; [1.0 / 16_777_216.0] is [2^-24]. *)
Definition shader_f16_to_f32 (bits : Z) : Z :=
  let sign := Z.shiftl (Z.land bits 0x8000) 16 in
  let exponent := Z.land (Z.shiftr bits 10) 0x1f in
  let mantissa := Z.land bits 0x3ff in
  let converted :=
    if exponent =? 0 then f32_mul (f32_of_u32 mantissa) 0x33800000
    else if exponent =? 31 then Z.lor 0x7f800000 (Z.shiftl mantissa 13)
    else Z.lor (Z.shiftl (exponent + 112) 23) (Z.shiftl mantissa 13) in
  Z.lor converted sign.

(** The backend and the TOSA crate convert binary16 alike. *)
Lemma shader_f16_agrees bits : is_u16 bits -> shader_f16_to_f32 bits = f16_to_f32 bits.
Proof.
  intros Hb. set (bytes := Z.of_nat <$> seq 0 256).
  assert (forallb (fun h => forallb (fun l => shader_f16_to_f32 (h * 256 + l) =? f16_to_f32 (h * 256 + l)) bytes) bytes = true) as H
    by (vm_compute; reflexivity).
  assert (forall x, 0 <= x < 256 -> In x bytes) as Hin.
  { intros x Hx. apply list_elem_of_In, list_elem_of_fmap. exists (Z.to_nat x). rewrite elem_of_seq. lia. }
  rewrite forallb_forall in H. specialize (H (bits / 256)). rewrite forallb_forall in H. specialize (fun h => H h (bits mod 256)).
  rewrite Z.mul_comm, <- Z_div_mod_eq_full in H. apply Z.eqb_eq, H; apply Hin; [|apply Z.mod_pos_bound; lia].
  split; [apply Z.div_pos; lia|apply Z.div_lt_upper_bound; lia].
Qed.
