(* ===== verification/VulkanLower.v ===== *)
(** * Lowering of TOSA graphs to Vulkan dispatches

    crates/virtio-accel-vulkan/src/lower.rs: the advertised targets and
    capabilities, and the lowering of an analyzed graph into slots, an arena
    and a list of kernel dispatches with barriers.  An index out of range, a
    missing map entry that is indexed and [pad_leading] of a long list are
    panics ([None]).  The borrowed fields of the source's [Lowering] (analysis,
    capability, boundary, order) are a [LoweringGraph]; the fields it mutates
    are the record [Lowering].  Sums of arena offsets are plain: they stay
    below [2^35], because [allocate_region_written_at] refuses an end above
    four times [u32::MAX]. *)

From Stdlib Require Import ZArith Lia SpecFloat.
From stdpp Require Import prelude list sorting gmap.
From S2P Require Import Prelude TosaTypes TosaArtifact TosaNumeric TosaSpecialize TosaWire TosaValidate TosaView TosaSemantic TosaAttrCheck TosaFlow TosaAnalysis TosaCapability VulkanShader.

(** ** Targets and capabilities *)

Definition VULKAN_TOSA_TARGET : Target :=
  {| tgt_version := TOSA_1_0; tgt_profiles := ProfileSet.FLOATING_POINT; tgt_level := Level8K;
     tgt_extensions := ExtensionSet.NONE |}.

Definition VULKAN_TOSA_FP8_TARGET : Target :=
  {| tgt_version := TOSA_1_0; tgt_profiles := ProfileSet.FLOATING_POINT; tgt_level := Level8K;
     tgt_extensions := ExtensionSet.union (ExtensionSet.union ExtensionSet.NONE ExtensionSet.FP8E4M3) ExtensionSet.FP8E5M2 |}.

Definition VULKAN_TOSA_INTEGER_TARGET : Target :=
  {| tgt_version := TOSA_1_0; tgt_profiles := ProfileSet.INTEGER; tgt_level := Level8K;
     tgt_extensions := ExtensionSet.NONE |}.

Definition FLOAT_DTYPES : list DTypeCapability :=
  [DTypeCapability_new DType.FP32 ValueRoles.ALL; DTypeCapability_new DType.BOOL ValueRoles.ALL;
   DTypeCapability_new DType.INT32 ValueRoles.ALL;
   DTypeCapability_constrained DType.INT8 ValueRoles.CONSTANT DTypeConstraints.PARAMETER_ONLY].

Definition FLOAT16_DTYPES : list DTypeCapability :=
  [DTypeCapability_new DType.FP32 ValueRoles.ALL; DTypeCapability_new DType.FP16 ValueRoles.ALL;
   DTypeCapability_new DType.BOOL ValueRoles.ALL; DTypeCapability_new DType.INT32 ValueRoles.ALL;
   DTypeCapability_constrained DType.INT8 ValueRoles.CONSTANT DTypeConstraints.PARAMETER_ONLY].

Definition FLOAT_OPERATORS : list OperatorCapability :=
  [OperatorCapability_new Op.ARGMAX; OperatorCapability_constrained Op.MATMUL OperatorConstraints.ZERO_ZERO_POINTS;
   OperatorCapability_new Op.MAX_POOL2D; OperatorCapability_new Op.CLAMP; OperatorCapability_new Op.ERF;
   OperatorCapability_new Op.SIGMOID; OperatorCapability_new Op.TANH; OperatorCapability_new Op.ADD;
   OperatorCapability_new Op.LOGICAL_AND; OperatorCapability_new Op.LOGICAL_OR; OperatorCapability_new Op.LOGICAL_XOR;
   OperatorCapability_new Op.MAXIMUM; OperatorCapability_new Op.MINIMUM;
   OperatorCapability_constrained Op.MUL OperatorConstraints.ZERO_SHIFT;
   OperatorCapability_new Op.POW; OperatorCapability_new Op.SUB; OperatorCapability_new Op.ABS;
   OperatorCapability_new Op.CEIL; OperatorCapability_new Op.COS; OperatorCapability_new Op.EXP;
   OperatorCapability_new Op.FLOOR; OperatorCapability_new Op.LOG; OperatorCapability_new Op.LOGICAL_NOT;
   OperatorCapability_constrained Op.NEGATE OperatorConstraints.ZERO_ZERO_POINTS;
   OperatorCapability_new Op.RECIPROCAL; OperatorCapability_new Op.RSQRT; OperatorCapability_new Op.SIN;
   OperatorCapability_new Op.SELECT; OperatorCapability_new Op.EQUAL; OperatorCapability_new Op.GREATER;
   OperatorCapability_new Op.GREATER_EQUAL; OperatorCapability_new Op.REDUCE_MAX; OperatorCapability_new Op.REDUCE_MIN;
   OperatorCapability_new Op.REDUCE_PRODUCT; OperatorCapability_new Op.REDUCE_SUM; OperatorCapability_new Op.CONCAT;
   OperatorCapability_constrained Op.RESHAPE OperatorConstraints.CONSTANT_PARAMETERS;
   OperatorCapability_new Op.REVERSE; OperatorCapability_new Op.TRANSPOSE; OperatorCapability_new Op.CONST;
   OperatorCapability_new Op.CONST_SHAPE; OperatorCapability_new Op.IDENTITY].

Definition FLOAT8_DTYPES : list DTypeCapability :=
  [DTypeCapability_new DType.FP8E4M3 ValueRoles.ALL; DTypeCapability_new DType.FP8E5M2 ValueRoles.ALL;
   DTypeCapability_new DType.FP16 ValueRoles.ALL; DTypeCapability_new DType.INT32 ValueRoles.ALL].

Definition FLOAT8_OPERATORS : list OperatorCapability :=
  [OperatorCapability_constrained Op.MATMUL OperatorConstraints.ZERO_ZERO_POINTS; OperatorCapability_new Op.CONCAT;
   OperatorCapability_constrained Op.RESHAPE OperatorConstraints.CONSTANT_PARAMETERS;
   OperatorCapability_new Op.REVERSE; OperatorCapability_new Op.TRANSPOSE; OperatorCapability_new Op.CONST;
   OperatorCapability_new Op.CONST_SHAPE; OperatorCapability_new Op.IDENTITY; OperatorCapability_new Op.CAST;
   OperatorCapability_new Op.MAX_POOL2D; OperatorCapability_new Op.ARGMAX].

Definition static_graph : GraphCapabilities :=
  {| gc_max_regions := 1; gc_max_blocks := 1; gc_dynamic_shapes := false; gc_runtime_conditions := ConditionsNone |}.

Definition VULKAN_TOSA_CAPABILITY : CapabilityDescriptor :=
  {| cd_target := VULKAN_TOSA_TARGET; cd_dtypes := FLOAT_DTYPES; cd_operators := FLOAT_OPERATORS; cd_graph := static_graph |}.
Definition VULKAN_TOSA_FP16_CAPABILITY : CapabilityDescriptor :=
  {| cd_target := VULKAN_TOSA_TARGET; cd_dtypes := FLOAT16_DTYPES; cd_operators := FLOAT_OPERATORS; cd_graph := static_graph |}.
Definition VULKAN_TOSA_FP8_CAPABILITY : CapabilityDescriptor :=
  {| cd_target := VULKAN_TOSA_FP8_TARGET; cd_dtypes := FLOAT8_DTYPES; cd_operators := FLOAT8_OPERATORS; cd_graph := static_graph |}.

Definition supports_tosa_operator (op : Z) : bool := supports_operator VULKAN_TOSA_CAPABILITY op.

Definition supports_tosa_dtype (dtype : Z) : bool :=
  supports_dtype VULKAN_TOSA_FP16_CAPABILITY dtype ValueRoles.INPUT ||
  supports_dtype VULKAN_TOSA_FP16_CAPABILITY dtype ValueRoles.OUTPUT ||
  supports_dtype VULKAN_TOSA_FP8_CAPABILITY dtype ValueRoles.INPUT ||
  supports_dtype VULKAN_TOSA_FP8_CAPABILITY dtype ValueRoles.OUTPUT.

Inductive LoweringError :=
  | LowerParse (e : Error)
  | LowerAnalysis (e : AnalysisError)
  | UnsupportedTarget
  | UnsupportedGraph
  | UnsupportedType (dtype : Z)
  | UnsupportedOperator (op : Z)
  | LowerResourceLimit.

(** A step that may panic or refuse the graph. *)
Abbreviation lower A := (option (result A LoweringError)).

(** ** Plans *)

Definition ARENA_ALIGNMENT : Z := 256.

Inductive KernelSpec :=
  | KNvfp4Matmul (cooperative : bool)
  | KElementwise (op : ElementwiseOp) (float : Storage) (broadcast : bool)
  | KReduce (op : ReduceOp) (float : Storage)
  | KMatmul (input output : Storage)
  | KMatmulStream (rhs output : Storage)
  | KCast (input output : Storage)
  | KMaxPool (nan_mode : NanMode) (float : Storage)
  | KMove (storage : Storage) (contiguous : bool).

Inductive Work :=
  | WLinear (count : Z)
  | WMatmul (m n batch : Z)
  | WMatmulStream (n batch : Z)
  | WNvfp4Matmul (m n : Z).

Record DispatchPlan := { dp_kernel : KernelSpec; dp_spec : list Z; dp_work : Work; dp_barrier_before : bool }.

Inductive SlotRole := RoleInput | RoleOutput.

Record SlotPlan := { sp_slot : Z; sp_role : SlotRole; sp_byte_len : Z; sp_storage : Storage }.

Record ConstantPlan := { cp_offset : Z; cp_bytes : list Z }.

Record ProgramPlan := {
  pp_slots : list SlotPlan;
  pp_arena_bytes : Z;
  pp_constants : list ConstantPlan;
  pp_dispatches : list DispatchPlan;
}.

Definition arena_buffer_index (self : ProgramPlan) : Z := as_unsigned 32 (zlen (pp_slots self)).

Definition buffer_count (self : ProgramPlan) : Z :=
  as_unsigned 32 (zlen (pp_slots self)) + (if pp_arena_bytes self =? 0 then 0 else 1).

(** ** Tensors *)

Record TensorShape := { ts_dtype : Z; ts_dims : list Z; ts_elements : Z }.
#[global] Instance TensorShape_eq_dec : EqDecision TensorShape.
Proof. solve_decision. Defined.

Definition storage_of (dtype : Z) : Storage :=
  if dtype =? DType.BOOL then StByte
  else if dtype =? DType.FP8E4M3 then StQuarter E4M3
  else if dtype =? DType.FP8E5M2 then StQuarter E5M2
  else if dtype =? DType.FP16 then StHalf else StWord.

Definition scalar_bytes (dtype : Z) : Z :=
  if (dtype =? DType.BOOL) || (dtype =? DType.FP8E4M3) || (dtype =? DType.FP8E5M2) then 1
  else if dtype =? DType.FP16 then 2 else 4.

Definition ts_storage (self : TensorShape) : Storage := storage_of (ts_dtype self).
Definition ts_byte_len (self : TensorShape) : Z := ts_elements self * scalar_bytes (ts_dtype self).
Definition ts_rank (self : TensorShape) : nat := length (ts_dims self).

(** The strides, and the wrapping product of all extents. *)
Fixpoint strides_acc (dims : list Z) : list Z * Z :=
  match dims with
  | [] => ([], 1)
  | d :: dims => let '(strides, acc) := strides_acc dims in (acc :: strides, mul32 acc d)
  end.
Definition ts_strides (self : TensorShape) : list Z := (strides_acc (ts_dims self)).1.

Definition pad_leading (values : list Z) (fill : Z) : option (list Z) :=
  if (length values <=? MAX_RANK)%nat then Some (replicate (MAX_RANK - length values) fill ++ values) else None.

Definition padded_dims (self : TensorShape) : option (list Z) := pad_leading (ts_dims self) 1.

(** ** The state *)

Inductive Location := LSlot (slot : Z) | LRegion (index : nat).
#[global] Instance Location_eq_dec : EqDecision Location.
Proof. solve_decision. Defined.

Inductive MemKey := MSlot (slot : Z) | MArena (offset end_ : Z).

Definition overlaps (self other : MemKey) : bool :=
  match self, other with
  | MSlot a, MSlot b => a =? b
  | MArena offset end_, MArena other_offset other_end => (offset <? other_end) && (other_offset <? end_)
  | _, _ => false
  end.

Record Region := { rg_offset : Z; rg_bytes : Z; rg_live_end : Z }.

Record LoweringGraph := {
  lg_analysis : TosaAnalysis;
  lg_capability : CapabilityDescriptor;
  lg_inputs : list nat;
  lg_outputs : list nat;
  lg_order : list nat;
}.

Record Lowering := {
  lw_shapes : gmap nat TensorShape;
  lw_locations : gmap nat Location;
  lw_last_use : gmap nat Z;
  lw_regions : list Region;
  lw_arena_bytes : Z;
  lw_constants : list ConstantPlan;
  lw_dispatches : list DispatchPlan;
  lw_slots : list SlotPlan;
  lw_written : list (MemKey * nat);
  lw_read : list MemKey;
  lw_position : Z;
}.

Definition set_shapes (x : gmap nat TensorShape) (l : Lowering) : Lowering :=
  {| lw_shapes := x; lw_locations := lw_locations l; lw_last_use := lw_last_use l; lw_regions := lw_regions l;
     lw_arena_bytes := lw_arena_bytes l; lw_constants := lw_constants l; lw_dispatches := lw_dispatches l;
     lw_slots := lw_slots l; lw_written := lw_written l; lw_read := lw_read l; lw_position := lw_position l |}.
Definition set_locations (x : gmap nat Location) (l : Lowering) : Lowering :=
  {| lw_shapes := lw_shapes l; lw_locations := x; lw_last_use := lw_last_use l; lw_regions := lw_regions l;
     lw_arena_bytes := lw_arena_bytes l; lw_constants := lw_constants l; lw_dispatches := lw_dispatches l;
     lw_slots := lw_slots l; lw_written := lw_written l; lw_read := lw_read l; lw_position := lw_position l |}.
Definition set_last_use (x : gmap nat Z) (l : Lowering) : Lowering :=
  {| lw_shapes := lw_shapes l; lw_locations := lw_locations l; lw_last_use := x; lw_regions := lw_regions l;
     lw_arena_bytes := lw_arena_bytes l; lw_constants := lw_constants l; lw_dispatches := lw_dispatches l;
     lw_slots := lw_slots l; lw_written := lw_written l; lw_read := lw_read l; lw_position := lw_position l |}.
Definition lw_set_regions (x : list Region) (bytes : Z) (l : Lowering) : Lowering :=
  {| lw_shapes := lw_shapes l; lw_locations := lw_locations l; lw_last_use := lw_last_use l; lw_regions := x;
     lw_arena_bytes := bytes; lw_constants := lw_constants l; lw_dispatches := lw_dispatches l;
     lw_slots := lw_slots l; lw_written := lw_written l; lw_read := lw_read l; lw_position := lw_position l |}.
Definition set_constants (x : list ConstantPlan) (l : Lowering) : Lowering :=
  {| lw_shapes := lw_shapes l; lw_locations := lw_locations l; lw_last_use := lw_last_use l; lw_regions := lw_regions l;
     lw_arena_bytes := lw_arena_bytes l; lw_constants := x; lw_dispatches := lw_dispatches l;
     lw_slots := lw_slots l; lw_written := lw_written l; lw_read := lw_read l; lw_position := lw_position l |}.
Definition set_dispatches (x : list DispatchPlan) (written : list (MemKey * nat)) (read : list MemKey) (l : Lowering) : Lowering :=
  {| lw_shapes := lw_shapes l; lw_locations := lw_locations l; lw_last_use := lw_last_use l; lw_regions := lw_regions l;
     lw_arena_bytes := lw_arena_bytes l; lw_constants := lw_constants l; lw_dispatches := x;
     lw_slots := lw_slots l; lw_written := written; lw_read := read; lw_position := lw_position l |}.
Definition lw_set_slots (x : list SlotPlan) (l : Lowering) : Lowering :=
  {| lw_shapes := lw_shapes l; lw_locations := lw_locations l; lw_last_use := lw_last_use l; lw_regions := lw_regions l;
     lw_arena_bytes := lw_arena_bytes l; lw_constants := lw_constants l; lw_dispatches := lw_dispatches l;
     lw_slots := x; lw_written := lw_written l; lw_read := lw_read l; lw_position := lw_position l |}.
Definition set_position (x : Z) (l : Lowering) : Lowering :=
  {| lw_shapes := lw_shapes l; lw_locations := lw_locations l; lw_last_use := lw_last_use l; lw_regions := lw_regions l;
     lw_arena_bytes := lw_arena_bytes l; lw_constants := lw_constants l; lw_dispatches := lw_dispatches l;
     lw_slots := lw_slots l; lw_written := lw_written l; lw_read := lw_read l; lw_position := x |}.

Definition nan_mode_of (mode : Z) : result NanMode LoweringError :=
  if mode =? NanPropagationMode.PROPAGATE then Ok NanPropagate
  else if mode =? NanPropagationMode.IGNORE then Ok NanIgnore
  else Err UnsupportedGraph.

(** [usize::try_from(axis).ok().filter(|axis| *axis < rank)] *)
Definition axis_of (axis : Z) (rank : nat) : option nat :=
  if (0 <=? axis) && (axis <? Z.of_nat rank) then Some (Z.to_nat axis) else None.

Section Lower.
Context (g : LoweringGraph).
Abbreviation analysis := (lg_analysis g).

(** Producers of constants and dead operators emit nothing. *)
Definition skipped (operator : AnalyzedOperator) : bool :=
  (ao_op operator =? Op.CONST) || (ao_op operator =? Op.CONST_SHAPE) || Hints.contains (ao_hints operator) Hints.DEAD.

(** ** Shapes *)

(** The extents and the product of a static shape. *)
Fixpoint static_dims (dimensions : list Z) (dims : list Z) (elements : Z) : result (list Z * Z) LoweringError :=
  match dimensions with
  | [] => Ok (dims, elements)
  | dimension :: dimensions =>
      if 0 <? dimension then
        match checked_mul U64_MAX elements dimension with
        | None => Err LowerResourceLimit
        | Some elements => static_dims dimensions (dims ++ [dimension]) elements
        end
      else Err UnsupportedGraph
  end.

Definition admitted_dtype (dtype : Z) : bool :=
  (dtype =? DType.FP32) || (dtype =? DType.FP16) || (dtype =? DType.BOOL) || (dtype =? DType.INT32) ||
  (dtype =? DType.FP8E4M3) || (dtype =? DType.FP8E5M2).

(** What [shape] computes on a miss. *)
Definition fresh_shape (value : nat) : lower TensorShape :=
  v ← analysis_value analysis value;
  match av_kind v with
  | KShape _ => Some (Err UnsupportedGraph)
  | KTensor tensor =>
      let dtype := Tensor_dtype tensor in
      if negb (admitted_dtype dtype) then Some (Err (UnsupportedType dtype)) else
      let! rank := Some (ok_or (Tensor_rank tensor) UnsupportedGraph) in
      if Z.of_nat MAX_RANK <? rank then Some (Err UnsupportedGraph) else
      let! (dims, elements) := Some (static_dims (Tensor_dimensions tensor) [] 1) in
      let! elements := Some (ok_or (try_from U32_MAX elements) LowerResourceLimit) in
      Some (Ok {| ts_dtype := dtype; ts_dims := dims; ts_elements := elements |})
  end.

(** [Lowering::shape] *)
Definition shape_of (value : nat) (l : Lowering) : lower (TensorShape * Lowering) :=
  match lw_shapes l !! value with
  | Some s => Some (Ok (s, l))
  | None =>
      let! s := fresh_shape value in
      Some (Ok (s, set_shapes (<[value := s]> (lw_shapes l)) l))
  end.

Definition float_shape (value : nat) (l : Lowering) : lower (TensorShape * Lowering) :=
  let! (s, l) := shape_of value l in
  if negb ((ts_dtype s =? DType.FP32) || (ts_dtype s =? DType.FP16)) then Some (Err (UnsupportedType (ts_dtype s)))
  else Some (Ok (s, l)).

Definition convertible (dtype : Z) : bool :=
  (dtype =? DType.FP32) || (dtype =? DType.FP16) || (dtype =? DType.FP8E4M3) || (dtype =? DType.FP8E5M2).

Definition convertible_float_shape (value : nat) (l : Lowering) : lower (TensorShape * Lowering) :=
  let! (s, l) := shape_of value l in
  if negb (convertible (ts_dtype s)) then Some (Err (UnsupportedType (ts_dtype s))) else Some (Ok (s, l)).

Definition typed_shape (value : nat) (dtype : Z) (l : Lowering) : lower (TensorShape * Lowering) :=
  let! (s, l) := shape_of value l in
  if negb (ts_dtype s =? dtype) then Some (Err (UnsupportedType (ts_dtype s))) else Some (Ok (s, l)).

(** ** The arena *)

Definition region_end (r : Region) : Z := rg_offset r + rg_bytes r.

(** The lowest candidate free of every overlapping region. *)
Definition first_fit (overlapping : list Region) (bytes : Z) : option Z :=
  let candidates := merge_sort Z.le (0 :: (region_end <$> overlapping)) in
  find (fun candidate =>
    let end_ := candidate + bytes in
    forallb (fun region => (end_ <=? rg_offset region) || (region_end region <=? candidate)) overlapping) candidates.

Definition allocate_region_written_at (bytes live_end written_at : Z) (l : Lowering) : lower (nat * Lowering) :=
  let bytes := div_ceil (Z.max bytes 1) ARENA_ALIGNMENT * ARENA_ALIGNMENT in
  let overlapping := base.filter (fun region => written_at <= rg_live_end region) (lw_regions l) in
  let! offset := Some (ok_or (first_fit overlapping bytes) LowerResourceLimit) in
  let! end_ := Some (ok_or (checked_add U64_MAX offset bytes) LowerResourceLimit) in
  if U32_MAX <? end_ / 4 then Some (Err LowerResourceLimit) else
  Some (Ok (length (lw_regions l),
            lw_set_regions (lw_regions l ++ [{| rg_offset := offset; rg_bytes := bytes; rg_live_end := live_end |}])
              (Z.max (lw_arena_bytes l) end_) l)).

Definition allocate_region (bytes live_end : Z) (l : Lowering) : lower (nat * Lowering) :=
  allocate_region_written_at bytes live_end (lw_position l) l.

Definition value_last_use (value : nat) (l : Lowering) : Z := default (lw_position l) (lw_last_use l !! value).

Definition insert_location (value : nat) (location : Location) (l : Lowering) : Lowering :=
  set_locations (<[value := location]> (lw_locations l)) l.

Definition input_location (value : nat) (l : Lowering) : lower (Location * Lowering) :=
  match lw_locations l !! value with
  | Some location => Some (Ok (location, l))
  | None =>
      let! (s, l) := shape_of value l in
      constant ← serialized_constant analysis value;
      let! bytes := Some (ok_or constant UnsupportedGraph) in
      if negb (zlen bytes =? ts_byte_len s) then Some (Err UnsupportedGraph) else
      let! (index, l) := allocate_region_written_at (ts_byte_len s) U32_MAX 0 l in
      region ← lw_regions l !! index;
      let l := set_constants (lw_constants l ++ [{| cp_offset := rg_offset region; cp_bytes := bytes |}]) l in
      Some (Ok (LRegion index, insert_location value (LRegion index) l))
  end.

Definition output_location (value : nat) (l : Lowering) : lower (Location * Lowering) :=
  match lw_locations l !! value with
  | Some location => Some (Ok (location, l))
  | None =>
      let! (s, l) := shape_of value l in
      let live_end := value_last_use value l in
      let! (index, l) := allocate_region (ts_byte_len s) live_end l in
      Some (Ok (LRegion index, insert_location value (LRegion index) l))
  end.

(** [Lowering::operand] *)
Definition operand_at (l : Lowering) (location : Location) : option Operand :=
  match location with
  | LSlot slot => Some {| op_buffer := slot; op_base := 0 |}
  | LRegion index =>
      region ← lw_regions l !! index;
      Some {| op_buffer := as_unsigned 32 (zlen (lw_slots l)); op_base := as_unsigned 32 (rg_offset region / 4) |}
  end.

Definition mem_key (l : Lowering) (location : Location) : option MemKey :=
  match location with
  | LSlot slot => Some (MSlot slot)
  | LRegion index => region ← lw_regions l !! index; Some (MArena (rg_offset region) (region_end region))
  end.

(** [Lowering::dispatch] *)
Definition record_dispatch (kernel : KernelSpec) (spec : list Z) (work : Work) (reads : list Location)
    (writes : Location) (written_value : nat) (l : Lowering) : option Lowering :=
  reads ← mapM (mem_key l) reads;
  writes ← mem_key l writes;
  let raw := existsb (fun read => existsb (fun w => overlaps w.1 read) (lw_written l)) reads in
  let war := existsb (fun read => overlaps read writes) (lw_read l) in
  let waw := existsb (fun w => overlaps w.1 writes && negb (w.2 =? written_value)%nat) (lw_written l) in
  let barrier_before := raw || war || waw in
  let written := if barrier_before then [] else lw_written l in
  let read := if barrier_before then [] else lw_read l in
  Some (set_dispatches
    (lw_dispatches l ++ [{| dp_kernel := kernel; dp_spec := spec; dp_work := work; dp_barrier_before := barrier_before |}])
    (written ++ [(writes, written_value)]) (read ++ reads) l).

(** ** Data movement *)

Definition extend_region (index : nat) (live_end : Z) (l : Lowering) : option Lowering :=
  region ← lw_regions l !! index;
  Some (lw_set_regions (<[index := {| rg_offset := rg_offset region; rg_bytes := rg_bytes region;
          rg_live_end := Z.max (rg_live_end region) live_end |}]> (lw_regions l)) (lw_arena_bytes l) l).

Definition lower_copy (inputs : list nat) (output : nat) (expected_inputs : nat) (l : Lowering) : lower Lowering :=
  if negb (length inputs =? expected_inputs)%nat then Some (Err UnsupportedGraph) else
  input ← inputs !! 0%nat;
  let! (source, l) := shape_of input l in
  let! (target, l) := shape_of output l in
  if negb (ts_dtype source =? ts_dtype target) || negb (ts_elements source =? ts_elements target)
  then Some (Err UnsupportedGraph) else
  let! (from, l) := input_location input l in
  if bool_decide (lw_locations l !! output = None) then
    l ← (match from with
         | LRegion region => extend_region region (value_last_use output l) l
         | LSlot _ => Some l
         end);
    Some (Ok (insert_location output from l))
  else
    let! (to, l) := output_location output l in
    if bool_decide (to = from) then Some (Ok l) else
    let storage := ts_storage source in
    dims ← padded_dims source;
    in_strides ← pad_leading (ts_strides source) 0;
    let geometry := {| mg_count := ts_elements source; mg_dims := dims; mg_in_strides := in_strides; mg_in_offset := 0;
                       mg_out_strides := in_strides; mg_out_offset := 0 |} in
    from_operand ← operand_at l from;
    to_operand ← operand_at l to;
    l ← record_dispatch (KMove storage true) (move_spec from_operand to_operand geometry true)
          (WLinear (div_ceil (ts_elements source) (lanes storage))) [from] to output l;
    Some (Ok l).

Definition lower_reshape (inputs : list nat) (output : nat) (l : Lowering) : lower Lowering :=
  match inputs with
  | [source; shape] =>
      v ← analysis_value analysis shape;
      match av_kind v with
      | KTensor _ => Some (Err UnsupportedGraph)
      | KShape s =>
          values ← shape_values s;
          let! declared := Some (ok_or values UnsupportedGraph) in
          let! (target, l) := shape_of output l in
          if negb (length declared =? ts_rank target)%nat ||
             existsb (fun p => negb (p.1 =? p.2)) (zip declared (ts_dims target))
          then Some (Err UnsupportedGraph) else
          lower_copy [source] output 1 l
      end
  | _ => Some (Err UnsupportedGraph)
  end.

Definition lower_move (input output : nat) (storage : Storage) (geometry : MoveGeometry) (l : Lowering) : lower Lowering :=
  let! (from, l) := input_location input l in
  let! (to, l) := output_location output l in
  from_operand ← operand_at l from;
  to_operand ← operand_at l to;
  l ← record_dispatch (KMove storage false) (move_spec from_operand to_operand geometry false)
        (WLinear (mg_count geometry)) [from] to output l;
  Some (Ok l).

(** The loop over the permutation, with the axes seen so far. *)
Fixpoint perms_match (rank : nat) (source target : list Z) (perms : list nat) (d : nat) (seen : list bool) : lower unit :=
  match perms with
  | [] => Some (Ok tt)
  | perm :: perms =>
      if (rank <=? perm)%nat then Some (Err UnsupportedGraph) else
      s ← seen !! perm;
      if s : bool then Some (Err UnsupportedGraph) else
      t ← target !! d;
      e ← source !! perm;
      if negb (t =? e) then Some (Err UnsupportedGraph) else
      perms_match rank source target perms (S d) (<[perm := true]> seen)
  end.

Definition usize_list (l : I32List) : result (list nat) LoweringError :=
  if forallb (fun v => 0 <=? v) (items l) then Ok (Z.to_nat <$> items l) else Err UnsupportedGraph.

Definition lower_transpose (operator : AnalyzedOperator) (inputs : list nat) (output : nat) (l : Lowering) : lower Lowering :=
  match inputs with
  | [input] =>
      attributes ← Operator_attributes (ao_source operator);
      match attributes with
      | ATranspose perms =>
          let! (source, l) := shape_of input l in
          let! (target, l) := shape_of output l in
          let! perms := Some (usize_list perms) in
          if negb (length perms =? ts_rank source)%nat || negb (ts_rank target =? ts_rank source)%nat ||
             negb (ts_dtype source =? ts_dtype target)
          then Some (Err UnsupportedGraph) else
          let! _ := perms_match (length perms) (ts_dims source) (ts_dims target) perms 0 (replicate (length perms) false) in
          in_strides ← mapM (fun perm => ts_strides source !! perm) perms;
          dims ← padded_dims target;
          in_strides ← pad_leading in_strides 0;
          out_strides ← pad_leading (ts_strides target) 0;
          lower_move input output (ts_storage source)
            {| mg_count := ts_elements target; mg_dims := dims; mg_in_strides := in_strides; mg_in_offset := 0;
               mg_out_strides := out_strides; mg_out_offset := 0 |} l
      | _ => Some (Err UnsupportedGraph)
      end
  | _ => Some (Err UnsupportedGraph)
  end.

Definition lower_reverse (operator : AnalyzedOperator) (inputs : list nat) (output : nat) (l : Lowering) : lower Lowering :=
  match inputs with
  | [input] =>
      attributes ← Operator_attributes (ao_source operator);
      match attributes with
      | AReverse axis =>
          let! (source, l) := shape_of input l in
          let! (target, l) := shape_of output l in
          if bool_decide (source <> target) then Some (Err UnsupportedGraph) else
          let! axis := Some (ok_or (axis_of axis (ts_rank source)) UnsupportedGraph) in
          let strides := ts_strides source in
          stride ← strides !! axis;
          extent ← ts_dims source !! axis;
          dims ← padded_dims source;
          in_strides ← pad_leading (<[axis := as_unsigned 32 (- stride)]> strides) 0;
          out_strides ← pad_leading strides 0;
          lower_move input output (ts_storage source)
            {| mg_count := ts_elements source; mg_dims := dims; mg_in_strides := in_strides;
               mg_in_offset := mul32 (extent - 1) stride; mg_out_strides := out_strides; mg_out_offset := 0 |} l
      | _ => Some (Err UnsupportedGraph)
      end
  | _ => Some (Err UnsupportedGraph)
  end.

(** The sources of a concatenation, with the sum of their extents. *)
Fixpoint concat_sources (inputs : list nat) (target : TensorShape) (axis : nat) (total : Z) (sources : list TensorShape)
    (l : Lowering) : lower (Z * list TensorShape * Lowering) :=
  match inputs with
  | [] => Some (Ok (total, sources, l))
  | input :: inputs =>
      let! (source, l) := shape_of input l in
      if negb (ts_dtype source =? ts_dtype target) || negb (ts_rank source =? ts_rank target)%nat ||
         existsb (fun p => negb (p.1 =? axis)%nat && negb (p.2.1 =? p.2.2))
           (zip (seq 0 (ts_rank source)) (zip (ts_dims source) (ts_dims target)))
      then Some (Err UnsupportedGraph) else
      extent ← ts_dims source !! axis;
      concat_sources inputs target axis (total + extent) (sources ++ [source]) l
  end.

(** One copy per source, at increasing offsets along the axis. *)
Fixpoint concat_segments (pairs : list (nat * TensorShape)) (axis : nat) (to : Location) (output : nat)
    (out_strides : list Z) (offset : Z) (l : Lowering) : lower Lowering :=
  match pairs with
  | [] => Some (Ok l)
  | (input, source) :: pairs =>
      stride ← out_strides !! axis;
      extent ← ts_dims source !! axis;
      dims ← padded_dims source;
      in_strides ← pad_leading (ts_strides source) 0;
      padded_out ← pad_leading out_strides 0;
      let geometry := {| mg_count := ts_elements source; mg_dims := dims; mg_in_strides := in_strides; mg_in_offset := 0;
                         mg_out_strides := padded_out; mg_out_offset := mul32 offset stride |} in
      let! (from, l) := input_location input l in
      from_operand ← operand_at l from;
      to_operand ← operand_at l to;
      l ← record_dispatch (KMove (ts_storage source) false) (move_spec from_operand to_operand geometry false)
            (WLinear (ts_elements source)) [from] to output l;
      concat_segments pairs axis to output out_strides (as_unsigned 32 (offset + extent)) l
  end.

Definition lower_concat (operator : AnalyzedOperator) (inputs : list nat) (output : nat) (l : Lowering) : lower Lowering :=
  if bool_decide (inputs = []) then Some (Err UnsupportedGraph) else
  attributes ← Operator_attributes (ao_source operator);
  match attributes with
  | AConcat axis =>
      let! (target, l) := shape_of output l in
      let! axis := Some (ok_or (axis_of axis (ts_rank target)) UnsupportedGraph) in
      let! (total_sources, l) := concat_sources inputs target axis 0 [] l in
      extent ← ts_dims target !! axis;
      if negb (total_sources.1 =? extent) then Some (Err UnsupportedGraph) else
      let! (to, l) := output_location output l in
      concat_segments (zip inputs total_sources.2) axis to output (ts_strides target) 0 l
  | _ => Some (Err UnsupportedGraph)
  end.

(** A geometry of which a contiguous kernel reads only the count. *)
Definition contiguous_geometry (count : Z) (dims strides : list Z) : MoveGeometry :=
  {| mg_count := count; mg_dims := dims; mg_in_strides := strides; mg_in_offset := 0; mg_out_strides := strides;
     mg_out_offset := 0 |}.

Definition lower_cast (inputs : list nat) (output : nat) (l : Lowering) : lower Lowering :=
  match inputs with
  | [input] =>
      let! (source, l) := shape_of input l in
      let! (destination, l) := shape_of output l in
      if bool_decide (ts_dims source <> ts_dims destination) then Some (Err UnsupportedGraph) else
      if negb (convertible (ts_dtype source)) then Some (Err (UnsupportedType (ts_dtype source))) else
      if negb (convertible (ts_dtype destination)) then Some (Err (UnsupportedType (ts_dtype destination))) else
      let! (from, l) := input_location input l in
      let! (to, l) := output_location output l in
      strides ← pad_leading (ts_strides source) 0;
      dims ← padded_dims source;
      from_operand ← operand_at l from;
      to_operand ← operand_at l to;
      l ← record_dispatch (KCast (ts_storage source) (ts_storage destination))
            (move_spec from_operand to_operand (contiguous_geometry (ts_elements source) dims strides) true)
            (WLinear (div_ceil (ts_elements source) (lanes (ts_storage destination)))) [from] to output l;
      Some (Ok l)
  | _ => Some (Err UnsupportedGraph)
  end.

(** ** Operators that compute *)

(** [bytes.chunks_exact(n).all(..)] on little-endian words *)
Definition chunks_zero (n : nat) (mask : Z) (bytes : list Z) : bool :=
  forallb (fun i => Z.land (le_value (slice (Z.of_nat (i * n)) (Z.of_nat n) bytes)) mask =? 0)
    (seq 0 (length bytes / n)).

Definition all_zero (dtype : Z) (bytes : list Z) : bool :=
  if dtype =? DType.FP32 then (zlen bytes mod 4 =? 0) && chunks_zero 4 0x7fffffff bytes
  else if dtype =? DType.FP16 then (zlen bytes mod 2 =? 0) && chunks_zero 2 0x7fff bytes
  else if (dtype =? DType.FP8E4M3) || (dtype =? DType.FP8E5M2) then forallb (fun b => Z.land b 0x7f =? 0) bytes
  else forallb (fun b => b =? 0) bytes.

Definition require_zero_constant (value : nat) (dtype : Z) : lower unit :=
  v ← analysis_value analysis value;
  match av_kind v with
  | KShape _ => Some (Err UnsupportedGraph)
  | KTensor tensor =>
      if negb (Tensor_dtype tensor =? dtype) then Some (Err UnsupportedGraph) else
      constant ← serialized_constant analysis value;
      let! bytes := Some (ok_or constant UnsupportedGraph) in
      if (zlen bytes =? 0) || negb (all_zero dtype bytes) then Some (Err UnsupportedGraph) else Some (Ok tt)
  end.

(** The binary32 copy of a narrow left operand, for the streaming kernel. *)
Definition widen_lhs (input : Storage) (from_lhs : Location) (batch m k : Z) (output : nat) (l : Lowering)
    : lower (Location * Lowering) :=
  if bool_decide (input = StWord) then Some (Ok (from_lhs, l)) else
  let! count := Some (ok_or (rows ← checked_mul U32_MAX batch m; checked_mul U32_MAX rows k) LowerResourceLimit) in
  let! (index, l) := allocate_region (count * 4) (lw_position l) l in
  let widened := LRegion index in
  let ones := replicate MAX_RANK 1 in
  let zeros := replicate MAX_RANK 0 in
  from_operand ← operand_at l from_lhs;
  to_operand ← operand_at l widened;
  l ← record_dispatch (KCast input StWord) (move_spec from_operand to_operand (contiguous_geometry count ones zeros) true)
        (WLinear count) [from_lhs] widened output l;
  Some (Ok (widened, l)).

Definition matmul_dtype (dtype : Z) : Z :=
  if (dtype =? DType.FP8E4M3) || (dtype =? DType.FP8E5M2) then DType.FP16 else dtype.

Definition lower_matmul (inputs : list nat) (output : nat) (l : Lowering) : lower Lowering :=
  match inputs with
  | [lhs; rhs; lhs_zp; rhs_zp] =>
      let! (lhs_shape, l) := convertible_float_shape lhs l in
      let! (rhs_shape, l) := typed_shape rhs (ts_dtype lhs_shape) l in
      let! (out_shape, l) := typed_shape output (matmul_dtype (ts_dtype lhs_shape)) l in
      let! _ := require_zero_constant lhs_zp (ts_dtype lhs_shape) in
      let! _ := require_zero_constant rhs_zp (ts_dtype lhs_shape) in
      match ts_dims lhs_shape, ts_dims rhs_shape, ts_dims out_shape with
      | [batch; m; k], [batch_r; k_r; n], [batch_o; m_o; n_o] =>
          if negb (batch =? batch_r) || negb (batch =? batch_o) || negb (k =? k_r) || negb (m =? m_o) || negb (n =? n_o)
          then Some (Err UnsupportedGraph) else
          let! (from_lhs, l) := input_location lhs l in
          let! (from_rhs, l) := input_location rhs l in
          let! (to, l) := output_location output l in
          let input := ts_storage lhs_shape in
          let output_storage := ts_storage out_shape in
          if m <=? STREAM_ROWS then
            let! (lhs_words, l) := widen_lhs input from_lhs batch m k output l in
            lhs_operand ← operand_at l lhs_words;
            rhs_operand ← operand_at l from_rhs;
            to_operand ← operand_at l to;
            l ← record_dispatch (KMatmulStream input output_storage)
                  (matmul_spec lhs_operand rhs_operand to_operand m n k batch) (WMatmulStream n batch)
                  [lhs_words; from_rhs] to output l;
            Some (Ok l)
          else
            lhs_operand ← operand_at l from_lhs;
            rhs_operand ← operand_at l from_rhs;
            to_operand ← operand_at l to;
            l ← record_dispatch (KMatmul input output_storage)
                  (matmul_spec lhs_operand rhs_operand to_operand m n k batch) (WMatmul m n batch)
                  [from_lhs; from_rhs] to output l;
            Some (Ok l)
      | _, _, _ => Some (Err UnsupportedGraph)
      end
  | _ => Some (Err UnsupportedGraph)
  end.

(** The closure [attribute] of [lower_max_pool]. *)
Definition u32_attribute (l : I32List) (len : nat) : result (list Z) LoweringError :=
  if negb (forallb (fun v => 0 <=? v) (items l)) then Err UnsupportedGraph else
  if negb (length (items l) =? len)%nat then Err UnsupportedGraph else Ok (items l).

Definition output_extent (input pad_a pad_b kernel stride : Z) : option Z :=
  let padded := input + pad_a + pad_b in
  if padded <? kernel then None else
  let span := padded - kernel in
  if negb (span mod stride =? 0) then None else try_from U32_MAX (span / stride + 1).

Definition lower_max_pool (operator : AnalyzedOperator) (inputs : list nat) (output : nat) (l : Lowering) : lower Lowering :=
  match inputs with
  | [input] =>
      attributes ← Operator_attributes (ao_source operator);
      match attributes with
      | AMaxPool2d kernel stride pad nan_mode =>
          let! nan_mode := Some (nan_mode_of nan_mode) in
          let! (source, l) := convertible_float_shape input l in
          let! (target, l) := typed_shape output (ts_dtype source) l in
          match ts_dims source, ts_dims target with
          | [batch; height; width; channels], [batch_o; out_height; out_width; channels_o] =>
              let! kernel := Some (u32_attribute kernel 2) in
              let! stride := Some (u32_attribute stride 2) in
              let! pad := Some (u32_attribute pad 4) in
              match kernel, stride, pad with
              | [kernel0; kernel1], [stride0; stride1], [pad_top; pad_bottom; pad_left; pad_right] =>
                  if (kernel0 =? 0) || (kernel1 =? 0) || (stride0 =? 0) || (stride1 =? 0)
                  then Some (Err UnsupportedGraph) else
                  if (kernel0 <=? pad_top) || (kernel0 <=? pad_bottom) || (kernel1 <=? pad_left) || (kernel1 <=? pad_right)
                  then Some (Err UnsupportedGraph) else
                  let! expected_height :=
                    Some (ok_or (output_extent height pad_top pad_bottom kernel0 stride0) UnsupportedGraph) in
                  let! expected_width :=
                    Some (ok_or (output_extent width pad_left pad_right kernel1 stride1) UnsupportedGraph) in
                  if negb (batch =? batch_o) || negb (channels =? channels_o) ||
                     negb (expected_height =? out_height) || negb (expected_width =? out_width)
                  then Some (Err UnsupportedGraph) else
                  let last_row := (out_height - 1) * stride0 + kernel0 in
                  let last_col := (out_width - 1) * stride1 + kernel1 in
                  if (U32_MAX <? last_row) || (U32_MAX <? last_col) then Some (Err LowerResourceLimit) else
                  let geometry := {| pg_batch := batch; pg_height := height; pg_width := width; pg_channels := channels;
                                     pg_out_height := out_height; pg_out_width := out_width;
                                     pg_kernel := (kernel0, kernel1); pg_stride := (stride0, stride1);
                                     pg_pad_top := pad_top; pg_pad_left := pad_left |} in
                  let! (from, l) := input_location input l in
                  let! (to, l) := output_location output l in
                  from_operand ← operand_at l from;
                  to_operand ← operand_at l to;
                  l ← record_dispatch (KMaxPool nan_mode (ts_storage source)) (max_pool_spec from_operand to_operand geometry)
                        (WLinear (ts_elements target)) [from] to output l;
                  Some (Ok l)
              | _, _, _ => Some (Err UnsupportedGraph)
              end
          | _, _ => Some (Err UnsupportedGraph)
          end
      | _ => Some (Err UnsupportedGraph)
      end
  | _ => Some (Err UnsupportedGraph)
  end.

(** The axis, the kernel and whether the result is an index. *)
Definition reduction (attributes : OpAttributes) : result (Z * ReduceOp * bool) LoweringError :=
  match attributes with
  | AArgMax axis nan_mode => let? mode := nan_mode_of nan_mode in Ok (axis, RArgMax mode, true)
  | AReduceMax axis nan_mode => let? mode := nan_mode_of nan_mode in Ok (axis, RMax mode, false)
  | AReduceMin axis nan_mode => let? mode := nan_mode_of nan_mode in Ok (axis, RMin mode, false)
  | AReduceProduct axis => Ok (axis, RProduct, false)
  | AReduceSum axis => Ok (axis, RSum, false)
  | _ => Err UnsupportedGraph
  end.

(** [iter().product::<u32>()] *)
Definition product32 (dims : list Z) : Z := fold_left mul32 dims 1.

Definition lower_reduce (operator : AnalyzedOperator) (inputs : list nat) (output : nat) (l : Lowering) : lower Lowering :=
  match inputs with
  | [input] =>
      attributes ← Operator_attributes (ao_source operator);
      let! (axis_op, argmax) := Some (reduction attributes) in
      let! (source, l) := (if argmax : bool then convertible_float_shape input l else float_shape input l) in
      let! (target, l) := typed_shape output (if argmax : bool then DType.INT32 else ts_dtype source) l in
      let! axis := Some (ok_or (axis_of axis_op.1 (ts_rank source)) UnsupportedGraph) in
      let expected := if argmax : bool then delete axis (ts_dims source) else <[axis := 1]> (ts_dims source) in
      if bool_decide (ts_dims target <> expected) then Some (Err UnsupportedGraph) else
      let outer := product32 (take axis (ts_dims source)) in
      let inner := product32 (drop (S axis) (ts_dims source)) in
      let! (from, l) := input_location input l in
      let! (to, l) := output_location output l in
      from_operand ← operand_at l from;
      to_operand ← operand_at l to;
      extent ← ts_dims source !! axis;
      l ← record_dispatch (KReduce axis_op.2 (ts_storage source)) (reduce_spec from_operand to_operand outer extent inner)
            (WLinear (ts_elements target)) [from] to output l;
      Some (Ok l)
  | _ => Some (Err UnsupportedGraph)
  end.

(** ** Elementwise operators *)

(** A [CLAMP] bound as binary32 bits. *)
Definition clamp_bound (bytes : list Z) : result Z LoweringError :=
  let? value :=
    if zlen bytes =? 4 then Ok (le_value bytes)
    else if zlen bytes =? 2 then Ok (shader_f16_to_f32 (le_value bytes))
    else Err UnsupportedGraph in
  if f32_is_nan value then Err UnsupportedGraph else Ok value.

(** [a < b] on [f32] *)
Definition f32_lt (a b : Z) : bool := SFltb (f32_decode a) (f32_decode b).

(** Operators whose inputs are the tensors of the lane. *)
Definition simple_lane (op : Z) : option ElementwiseOp :=
  if op =? Op.ABS then Some EAbs else if op =? Op.CEIL then Some ECeil else if op =? Op.COS then Some ECos
  else if op =? Op.ERF then Some EErf else if op =? Op.EXP then Some EExp else if op =? Op.FLOOR then Some EFloor
  else if op =? Op.LOG then Some ELog else if op =? Op.RECIPROCAL then Some EReciprocal
  else if op =? Op.RSQRT then Some ERsqrt else if op =? Op.SIN then Some ESin else if op =? Op.SIGMOID then Some ESigmoid
  else if op =? Op.TANH then Some ETanh else if op =? Op.ADD then Some EAdd else if op =? Op.SUB then Some ESub
  else if op =? Op.POW then Some EPow else if op =? Op.EQUAL then Some EEqual else if op =? Op.GREATER then Some EGreater
  else if op =? Op.GREATER_EQUAL then Some EGreaterEqual else if op =? Op.LOGICAL_AND then Some ELogicalAnd
  else if op =? Op.LOGICAL_OR then Some ELogicalOr else if op =? Op.LOGICAL_XOR then Some ELogicalXor
  else if op =? Op.LOGICAL_NOT then Some ELogicalNot else if op =? Op.SELECT then Some ESelect else None.

(** The lane, its tensors and the clamp bounds. *)
Definition elementwise_lane (op : Z) (attributes : OpAttributes) (inputs : list nat) (l : Lowering)
    : lower (ElementwiseOp * list nat * option (Z * Z) * Lowering) :=
  match simple_lane op with
  | Some lane => Some (Ok (lane, inputs, None, l))
  | None =>
      if op =? Op.NEGATE then
        match inputs with
        | [value; input_zp; output_zp] =>
            let! (s, l) := shape_of value l in
            let! _ := require_zero_constant input_zp (ts_dtype s) in
            let! _ := require_zero_constant output_zp (ts_dtype s) in
            Some (Ok (ENegate, [value], None, l))
        | _ => Some (Err UnsupportedGraph)
        end
      else if op =? Op.CLAMP then
        match attributes with
        | AClamp min_val max_val nan_mode =>
            let! lo := Some (clamp_bound min_val) in
            let! hi := Some (clamp_bound max_val) in
            if f32_lt hi lo then Some (Err UnsupportedGraph) else
            let! mode := Some (nan_mode_of nan_mode) in
            Some (Ok (EClamp mode, inputs, Some (lo, hi), l))
        | _ => Some (Err UnsupportedGraph)
        end
      else if op =? Op.MUL then
        match inputs with
        | [lhs; rhs; shift] =>
            let! _ := require_zero_constant shift DType.INT8 in
            Some (Ok (EMul, [lhs; rhs], None, l))
        | _ => Some (Err UnsupportedGraph)
        end
      else if op =? Op.MAXIMUM then
        match attributes with
        | AMaximum nan_mode => let! mode := Some (nan_mode_of nan_mode) in Some (Ok (EMaximum mode, inputs, None, l))
        | _ => Some (Err UnsupportedGraph)
        end
      else if op =? Op.MINIMUM then
        match attributes with
        | AMinimum nan_mode => let! mode := Some (nan_mode_of nan_mode) in Some (Ok (EMinimum mode, inputs, None, l))
        | _ => Some (Err UnsupportedGraph)
        end
      else Some (Err (UnsupportedOperator op))
  end.

(** The closure [unify]: the float type of the lanes so far. *)
Definition unify (dtype : Z) (float_dtype : option Z) : result (option Z) LoweringError :=
  if negb ((dtype =? DType.FP32) || (dtype =? DType.FP16)) then Err (UnsupportedType dtype) else
  match float_dtype with
  | Some existing => if negb (existing =? dtype) then Err UnsupportedGraph else Ok (Some dtype)
  | None => Ok (Some dtype)
  end.

Definition lane_dtype (storage : Storage) (dtype : Z) (float_dtype : option Z) : result (option Z) LoweringError :=
  match storage with
  | StWord => unify dtype float_dtype
  | StByte => if negb (dtype =? DType.BOOL) then Err (UnsupportedType dtype) else Ok float_dtype
  | _ => Ok float_dtype
  end.

(** Every extent is the target's or one. *)
Definition broadcastable (dims target : list Z) : bool :=
  forallb (fun p => (p.1 =? p.2) || (p.1 =? 1)) (zip dims target).

Fixpoint elementwise_shapes (pairs : list (nat * Storage)) (target : TensorShape) (float_dtype : option Z)
    (shapes : list TensorShape) (l : Lowering) : lower (option Z * list TensorShape * Lowering) :=
  match pairs with
  | [] => Some (Ok (float_dtype, shapes, l))
  | (input, storage) :: pairs =>
      let! (s, l) := shape_of input l in
      let! float_dtype := Some (lane_dtype storage (ts_dtype s) float_dtype) in
      if negb (ts_rank s =? ts_rank target)%nat || negb (broadcastable (ts_dims s) (ts_dims target))
      then Some (Err UnsupportedGraph) else
      elementwise_shapes pairs target float_dtype (shapes ++ [s]) l
  end.

(** The stride is zero along a broadcast axis. *)
Definition broadcast_stride (p : Z * (Z * Z)) : Z :=
  let '(stride, (dim, out)) := p in if (dim =? 1) && negb (out =? 1) then 0 else stride.

Definition broadcast_strides (s target : TensorShape) : option (list Z) :=
  pad_leading (broadcast_stride <$> zip (ts_strides s) (zip (ts_dims s) (ts_dims target))) 0.

Fixpoint input_operands (inputs : list nat) (reads : list Location) (operands : list Operand) (l : Lowering)
    : lower (list Location * list Operand * Lowering) :=
  match inputs with
  | [] => Some (Ok (reads, operands, l))
  | input :: inputs =>
      let! (location, l) := input_location input l in
      operand ← operand_at l location;
      input_operands inputs (reads ++ [location]) (operands ++ [operand]) l
  end.

Definition emit_elementwise (lane : ElementwiseOp) (inputs : list nat) (output : nat) (clamp : option (Z * Z))
    (l : Lowering) : lower Lowering :=
  if negb (length inputs =? length (lane_inputs lane))%nat then Some (Err UnsupportedGraph) else
  let! (target, l) := shape_of output l in
  let! (dtype_shapes, l) := elementwise_shapes (zip inputs (lane_inputs lane)) target None [] l in
  let! float_dtype := Some (lane_dtype (lane_output lane) (ts_dtype target) dtype_shapes.1) in
  let float := storage_of (default DType.FP32 float_dtype) in
  let broadcast := existsb (fun s => bool_decide (ts_dims s <> ts_dims target)) dtype_shapes.2 in
  strides ← mapM (fun s => broadcast_strides s target) dtype_shapes.2;
  let! (reads_operands, l) := input_operands inputs [] [] l in
  let! (to, l) := output_location output l in
  to_operand ← operand_at l to;
  dims ← padded_dims target;
  let spec := {| es_count := ts_elements target; es_inputs := reads_operands.2; es_output := to_operand; es_dims := dims;
                 es_strides := strides; es_clamp := clamp |} in
  l ← record_dispatch (KElementwise lane float broadcast) (ElementwiseSpec_words spec broadcast)
        (WLinear (ts_elements target)) reads_operands.1 to output l;
  Some (Ok l).

Definition lower_elementwise (operator : AnalyzedOperator) (inputs : list nat) (output : nat) (l : Lowering) : lower Lowering :=
  attributes ← Operator_attributes (ao_source operator);
  let! (lane_clamp, l) := elementwise_lane (ao_op operator) attributes inputs l in
  emit_elementwise lane_clamp.1.1 lane_clamp.1.2 output lane_clamp.2 l.

(** ** The whole graph *)

Definition lower_operator (operator : AnalyzedOperator) (inputs : list nat) (output : nat) (l : Lowering) : lower Lowering :=
  let op := ao_op operator in
  if op =? Op.IDENTITY then lower_copy inputs output 1 l
  else if op =? Op.RESHAPE then lower_reshape inputs output l
  else if op =? Op.TRANSPOSE then lower_transpose operator inputs output l
  else if op =? Op.REVERSE then lower_reverse operator inputs output l
  else if op =? Op.CONCAT then lower_concat operator inputs output l
  else if op =? Op.CAST then lower_cast inputs output l
  else if op =? Op.MATMUL then lower_matmul inputs output l
  else if op =? Op.MAX_POOL2D then lower_max_pool operator inputs output l
  else if (op =? Op.ARGMAX) || (op =? Op.REDUCE_MAX) || (op =? Op.REDUCE_MIN) || (op =? Op.REDUCE_PRODUCT) ||
          (op =? Op.REDUCE_SUM) then lower_reduce operator inputs output l
  else lower_elementwise operator inputs output l.

(** The boundary slots, from [index] on. *)
Fixpoint bind_slots (values : list nat) (index : nat) (l : Lowering) : lower Lowering :=
  match values with
  | [] => Some (Ok l)
  | value :: values =>
      let slot := as_unsigned 32 (Z.of_nat index) in
      let! (s, l) := shape_of value l in
      let role := if (index <? length (lg_inputs g))%nat then RoleInput else RoleOutput in
      let l := lw_set_slots (lw_slots l ++ [{| sp_slot := slot; sp_role := role; sp_byte_len := ts_byte_len s;
                                              sp_storage := ts_storage s |}]) l in
      bind_slots values (S index) (insert_location value (LSlot slot) l)
  end.

(** The reads of one operator. *)
Definition note_uses (position : Z) (ids : list nat) (st : gmap nat Z * gmap nat Z) : gmap nat Z * gmap nat Z :=
  fold_left (fun st id => (<[id := position]> st.1, <[id := as_unsigned 32 (default 0 (st.2 !! id) + 1)]> st.2)) ids st.

(** The last live reader of every value and the number of its readers. *)
Fixpoint live_uses (order : list nat) (position : nat) (st : gmap nat Z * gmap nat Z) : option (gmap nat Z * gmap nat Z) :=
  match order with
  | [] => Some st
  | id :: order =>
      operator ← analysis_operator analysis id;
      if skipped operator then live_uses order (S position) st else
      inputs ← operator_inputs analysis id;
      live_uses order (S position) (note_uses (as_unsigned 32 (Z.of_nat position)) inputs st)
  end.

Definition alias_output (consumers : gmap nat Z) (output : nat) (l : Lowering) : lower Lowering :=
  v ← analysis_value analysis output;
  match av_producer v with
  | None => Some (Ok l)
  | Some producer =>
      operator ← analysis_operator analysis producer;
      if skipped operator || negb ((ao_op operator =? Op.IDENTITY) || (ao_op operator =? Op.RESHAPE)) then Some (Ok l) else
      inputs ← operator_inputs analysis producer;
      match inputs with
      | [] => Some (Ok l)
      | source :: _ =>
          if bool_decide (is_Some (lw_locations l !! source)) then Some (Ok l) else
          constant ← serialized_constant analysis source;
          if bool_decide (is_Some constant) || bool_decide (consumers !! source <> Some 1) then Some (Ok l) else
          let! (from, l) := shape_of source l in
          let! (to, l) := shape_of output l in
          if negb (ts_dtype from =? ts_dtype to) || negb (ts_elements from =? ts_elements to) then Some (Ok l) else
          slot ← lw_locations l !! output;
          Some (Ok (insert_location source slot l))
      end
  end.

Fixpoint alias_outputs (consumers : gmap nat Z) (outputs : list nat) (l : Lowering) : lower Lowering :=
  match outputs with
  | [] => Some (Ok l)
  | output :: outputs => let! l := alias_output consumers output l in alias_outputs consumers outputs l
  end.

Fixpoint lower_operators (order : list nat) (position : nat) (l : Lowering) : lower Lowering :=
  match order with
  | [] => Some (Ok l)
  | id :: order =>
      let l := set_position (as_unsigned 32 (Z.of_nat position)) l in
      operator ← analysis_operator analysis id;
      if skipped operator then lower_operators order (S position) l else
      if negb (supports_operator (lg_capability g) (ao_op operator)) then Some (Err (UnsupportedOperator (ao_op operator))) else
      inputs ← operator_inputs analysis id;
      outputs ← operator_outputs analysis id;
      match outputs with
      | [output] =>
          constant ← serialized_constant analysis output;
          if bool_decide (is_Some constant) then Some (Err UnsupportedGraph) else
          let! l := lower_operator operator inputs output l in
          lower_operators order (S position) l
      | _ => Some (Err UnsupportedGraph)
      end
  end.

Fixpoint outputs_produced (outputs : list nat) : lower unit :=
  match outputs with
  | [] => Some (Ok tt)
  | output :: outputs =>
      v ← analysis_value analysis output;
      if bool_decide (av_producer v = None) then Some (Err UnsupportedGraph) else outputs_produced outputs
  end.

Definition Lowering_empty : Lowering :=
  {| lw_shapes := ∅; lw_locations := ∅; lw_last_use := ∅; lw_regions := []; lw_arena_bytes := 0; lw_constants := [];
     lw_dispatches := []; lw_slots := []; lw_written := []; lw_read := []; lw_position := 0 |}.

(** [Lowering::run] *)
Definition run : lower ProgramPlan :=
  let! l := bind_slots (lg_inputs g ++ lg_outputs g) 0 Lowering_empty in
  uses ← live_uses (lg_order g) 0 (lw_last_use l, ∅);
  let l := set_last_use uses.1 l in
  let! l := alias_outputs uses.2 (lg_outputs g) l in
  let! l := lower_operators (lg_order g) 0 l in
  let! _ := outputs_produced (lg_outputs g) in
  Some (Ok {| pp_slots := lw_slots l; pp_arena_bytes := lw_arena_bytes l; pp_constants := lw_constants l;
              pp_dispatches := lw_dispatches l |}).
End Lower.

(** [matches!(condition, RuntimeCondition::PowDomain { .. })] *)
Definition is_pow_domain (c : RuntimeCondition) : bool := match c with PowDomain _ _ _ => true | _ => false end.

(** Two neighbours are equal. *)
Fixpoint adjacent_equal (ids : list nat) : bool :=
  match ids with
  | a :: (b :: _) as rest => (a =? b)%nat || adjacent_equal rest
  | _ => false
  end.

(** An output that is a serialized constant. *)
Definition constant_output (a : TosaAnalysis) (outputs : list nat) : option bool :=
  negb <$> pall (fun output => constant ← serialized_constant a output; Some (bool_decide (constant = None))) outputs.

(** [Lowering::new] *)
Definition Lowering_new (a : TosaAnalysis) (capability : CapabilityDescriptor) : lower LoweringGraph :=
  if negb (length (ta_regions a) =? 1)%nat || negb (length (ta_blocks a) =? 1)%nat then Some (Err UnsupportedGraph) else
  if existsb (fun c => negb (is_pow_domain c)) (ta_conditions a) then Some (Err UnsupportedGraph) else
  block ← ta_blocks a !! 0%nat;
  inputs ← block_inputs a (ab_id block);
  outputs ← block_outputs a (ab_id block);
  order ← execution_order a (ab_id block);
  if bool_decide (inputs = []) || bool_decide (outputs = []) || existsb (fun input => bool_decide (input ∈ outputs)) inputs
  then Some (Err UnsupportedGraph) else
  constant ← constant_output a outputs;
  if constant : bool then Some (Err UnsupportedGraph) else
  if adjacent_equal (merge_sort Nat.le (inputs ++ outputs)) then Some (Err UnsupportedGraph) else
  if U32_MAX <? zlen inputs + zlen outputs then Some (Err LowerResourceLimit) else
  Some (Ok {| lg_analysis := a; lg_capability := capability; lg_inputs := inputs; lg_outputs := outputs; lg_order := order |}).

(** [Lowering::new(..)?.run()] *)
Definition lower_analysis (a : TosaAnalysis) (capability : CapabilityDescriptor) : lower ProgramPlan :=
  let! g := Lowering_new a capability in run g.

Section Artifact.
Context (has_identifier : list Z -> bool) (root : VerifierOptions -> list Z -> option WireGraph).
Context (parse_alloc : nat -> bool) (alloc semantic_alloc : list nat -> bool).

Definition lower_tosa (bytes : list Z) (target : Target) : lower ProgramPlan :=
  if bool_decide (target <> VULKAN_TOSA_TARGET) && bool_decide (target <> VULKAN_TOSA_FP8_TARGET)
  then Some (Err UnsupportedTarget) else
  match parse_with_limits has_identifier root parse_alloc bytes Limits_default with
  | Err e => Some (Err (LowerParse e))
  | Ok model =>
      r ← build alloc semantic_alloc model target;
      match r with
      | Err e => Some (Err (LowerAnalysis e))
      | Ok analysis =>
          lower_analysis analysis
            (if bool_decide (target = VULKAN_TOSA_FP8_TARGET) then VULKAN_TOSA_FP8_CAPABILITY else VULKAN_TOSA_CAPABILITY)
      end
  end.
End Artifact.
