(* ===== verification/VulkanAccess.v ===== *)
(** * What the Vulkan kernels address

    [kernel_access] states, for a kernel variant and its specialization words,
    which elements of which operands the assembled kernel loads and stores
    (crates/virtio-accel-vulkan/src/shader.rs, [assemble_elementwise],
    [assemble_reduce], [assemble_matmul], [assemble_matmul_stream],
    [assemble_max_pool], [assemble_contiguous_lanes] and [assemble_move]).  An
    assembled kernel runs its loop body for every index of its iteration space,
    whatever the workgroups; the index arithmetic is that of the kernels, in 32
    bits, and the values that are loaded and stored are left out.  The rest of
    the file is the arithmetic of row-major indices. *)

From Stdlib Require Import ZArith Lia.
From stdpp Require Import prelude list.
From S2P Require Import Prelude TosaNumeric TosaSpecialize VulkanShader VulkanLower.

Abbreviation w32 x := (as_unsigned 32 x).

(** Bytes of one element. *)
Definition width (st : Storage) : Z := 4 / lanes st.

(** [strided_indices]: the index of iteration [i] under [strides], the last
    dimension fastest; on reversed lists. *)
Fixpoint strided_rev (dims strides : list Z) (remainder acc : Z) : Z :=
  match dims, strides with
  | d :: dims, s :: strides => strided_rev dims strides (remainder / d) (w32 (acc + w32 ((remainder mod d) * s)))
  | _, _ => acc
  end.
Definition strided_index (dims strides : list Z) (i : Z) : Z := strided_rev (rev dims) (rev strides) i 0.

(** The [k]-th operand of a payload that starts with operands. *)
Definition spec_operand (spec : list Z) (at_ : nat) : Operand :=
  {| op_buffer := nth at_ spec 0; op_base := nth (S at_) spec 0 |}.

(** The storage of a lane of an elementwise kernel. *)
Definition resolve (float st : Storage) : Storage := match st with StWord => float | other => other end.

(** The iterations of a contiguous kernel: one per element, or one per word of
    the destination. *)
Definition contiguous_words (output : Storage) (count : Z) : Z :=
  if lanes output =? 1 then count else w32 (count + (lanes output - 1)) / lanes output.

(** An iteration loads all lanes of its destination word; it stores those below the count. *)
Definition contiguous_access (input output : Storage) (spec : list Z) (write : bool) (o : Operand) (st : Storage) (e : Z) : Prop :=
  let count := nth 4 spec 0 in
  exists w lane, 0 <= w < contiguous_words output count /\ 0 <= lane < lanes output /\ e = w32 (w32 (w * lanes output) + lane) /\
  if write then o = spec_operand spec 2 /\ st = output /\ e < count
  else o = spec_operand spec 0 /\ st = input.

Definition move_access (storage : Storage) (spec : list Z) (write : bool) (o : Operand) (st : Storage) (e : Z) : Prop :=
  exists i, 0 <= i < nth 4 spec 0 /\ st = storage /\
  let dims := take 6 (drop 5 spec) in
  if write then o = spec_operand spec 2 /\ e = w32 (strided_index dims (take 6 (drop 18 spec)) i + nth 24 spec 0)
  else o = spec_operand spec 0 /\ e = w32 (strided_index dims (take 6 (drop 11 spec)) i + nth 17 spec 0).

Definition elementwise_access (op : ElementwiseOp) (float : Storage) (broadcast : bool) (spec : list Z) (write : bool)
    (o : Operand) (st : Storage) (e : Z) : Prop :=
  let inputs := length (lane_inputs op) in
  exists i, 0 <= i < nth 0 spec 0 /\
  if write then o = spec_operand spec (1 + 2 * inputs) /\ st = resolve float (lane_output op) /\ e = i
  else exists k lane, lane_inputs op !! k = Some lane /\ o = spec_operand spec (1 + 2 * k) /\ st = resolve float lane /\
    e = if broadcast then
          let shape := drop (3 + 2 * inputs) spec in
          strided_index (take 6 shape) (take 6 (drop (6 * (1 + k)) shape)) i
        else i.

Definition reduce_access (op : ReduceOp) (float : Storage) (spec : list Z) (write : bool) (o : Operand) (st : Storage) (e : Z) : Prop :=
  let outer := nth 4 spec 0 in let axis := nth 5 spec 0 in let inner := nth 6 spec 0 in
  exists i, 0 <= i < w32 (outer * inner) /\
  if write then o = spec_operand spec 2 /\ st = (match op with RArgMax _ => StWord | _ => float end) /\ e = i
  else o = spec_operand spec 0 /\ st = float /\
    exists a, 0 <= a < axis /\
      e = w32 (w32 (w32 (w32 (i / inner * axis) * inner) + i mod inner) + w32 (a * inner)).

(** An element out of range is replaced by element zero. *)
Definition matmul_access (lhs rhs output : Storage) (spec : list Z) (write : bool) (o : Operand) (st : Storage) (e : Z) : Prop :=
  let m := nth 6 spec 0 in let n := nth 7 spec 0 in let k := nth 8 spec 0 in let batch := nth 9 spec 0 in
  exists z row col kk, 0 <= z < batch /\
  if write then o = spec_operand spec 4 /\ st = output /\ 0 <= row < m /\ 0 <= col < n /\
    e = w32 (w32 (w32 (w32 (z * m) * n) + w32 (row * n)) + col)
  else
    (o = spec_operand spec 0 /\ st = lhs /\
      (e = 0 \/ 0 <= row < m /\ 0 <= kk < k /\ e = w32 (w32 (w32 (row * k) + w32 (w32 (z * m) * k)) + kk))) \/
    (o = spec_operand spec 2 /\ st = rhs /\
      (e = 0 \/ 0 <= kk < k /\ 0 <= col < n /\ e = w32 (w32 (w32 (kk * n) + w32 (w32 (z * k) * n)) + col))).

(** The left operand is binary32; only columns out of range are replaced. *)
Definition matmul_stream_access (rhs output : Storage) (spec : list Z) (write : bool) (o : Operand) (st : Storage) (e : Z) : Prop :=
  let m := nth 6 spec 0 in let n := nth 7 spec 0 in let k := nth 8 spec 0 in let batch := nth 9 spec 0 in
  exists z row col kk, 0 <= z < batch /\
  if write then o = spec_operand spec 4 /\ st = output /\ 0 <= row < m /\ 0 <= col < n /\
    e = w32 (w32 (w32 (row * n) + w32 (w32 (z * m) * n)) + col)
  else
    (o = spec_operand spec 0 /\ st = StWord /\
      0 <= row < m /\ 0 <= kk < k /\ e = w32 (w32 (w32 (w32 (z * m) * k) + w32 (row * k)) + kk)) \/
    (o = spec_operand spec 2 /\ st = rhs /\
      (e = 0 \/ 0 <= kk < k /\ 0 <= col < n /\ e = w32 (w32 (kk * n) + w32 (w32 (w32 (z * k) * n) + col)))).

Definition max_pool_access (float : Storage) (spec : list Z) (write : bool) (o : Operand) (st : Storage) (e : Z) : Prop :=
  let batch := nth 4 spec 0 in let height := nth 5 spec 0 in let width := nth 6 spec 0 in
  let channels := nth 7 spec 0 in let out_height := nth 8 spec 0 in let out_width := nth 9 spec 0 in
  exists i, 0 <= i < w32 (w32 (w32 (batch * out_height) * out_width) * channels) /\ st = float /\
  if write then o = spec_operand spec 2 /\ e = i
  else o = spec_operand spec 0 /\
    let t := i / channels in
    let nb := t / out_width / out_height in
    exists kh kw, 0 <= kh < nth 10 spec 0 /\ 0 <= kw < nth 11 spec 0 /\
      let padded_row := w32 (w32 (t / out_width mod out_height * nth 12 spec 0) + kh) in
      let padded_col := w32 (w32 (t mod out_width * nth 13 spec 0) + kw) in
      let ih := w32 (padded_row - nth 14 spec 0) in
      let iw := w32 (padded_col - nth 15 spec 0) in
      let cell := w32 (w32 (w32 (w32 (nb * height) + ih) * width) + iw) in
      e = 0 \/
      nth 14 spec 0 <= padded_row /\ ih < height /\ nth 15 spec 0 <= padded_col /\ iw < width /\
      e = w32 (w32 (cell * channels) + i mod channels).

(** The loads ([write = false]) and stores of a kernel: element [e] of operand
    [o] stored as [st].  The NVFP4 kernels are stated with their lowering. *)
Definition kernel_access (kernel : KernelSpec) (spec : list Z) (write : bool) (o : Operand) (st : Storage) (e : Z) : Prop :=
  match kernel with
  | KElementwise op float broadcast => elementwise_access op float broadcast spec write o st e
  | KReduce op float => reduce_access op float spec write o st e
  | KMatmul input output => matmul_access input input output spec write o st e
  | KMatmulStream rhs output => matmul_stream_access rhs output spec write o st e
  | KCast input output => contiguous_access input output spec write o st e
  | KMaxPool _ float => max_pool_access float spec write o st e
  | KMove storage true => contiguous_access storage storage spec write o st e
  | KMove storage false => move_access storage spec write o st e
  | KNvfp4Matmul _ => False
  end.

(** ** Row-major indices *)

Fixpoint extent_product (dims : list Z) : Z := match dims with [] => 1 | d :: dims => d * extent_product dims end.

Fixpoint dot (cs strides : list Z) : Z :=
  match cs, strides with c :: cs, s :: strides => c * s + dot cs strides | _, _ => 0 end.

(** The coordinates of an index. *)
Fixpoint unravel (dims : list Z) (i : Z) : list Z :=
  match dims with [] => [] | d :: dims => (i / extent_product dims) mod d :: unravel dims i end.

(** The exact row-major strides. *)
Fixpoint row_major (dims : list Z) : list Z :=
  match dims with [] => [] | d :: dims => extent_product dims :: row_major dims end.

Abbreviation positive dims := (Forall (fun d => 0 < d) dims).

Lemma w32_small x : is_u32 x -> w32 x = x.
Proof. intros H. unfold as_unsigned. apply Z.mod_small. lia. Qed.

Lemma w32_range x : is_u32 (w32 x).
Proof. unfold as_unsigned. pose proof (Z.mod_pos_bound x (2 ^ 32)). lia. Qed.

Lemma w32_add_l a b : w32 (w32 a + b) = w32 (a + b).
Proof. unfold as_unsigned. by rewrite Zplus_mod_idemp_l. Qed.
Lemma w32_add_r a b : w32 (a + w32 b) = w32 (a + b).
Proof. unfold as_unsigned. by rewrite Zplus_mod_idemp_r. Qed.
Lemma w32_sub_l a b : w32 (w32 a - b) = w32 (a - b).
Proof. unfold as_unsigned. by rewrite Zminus_mod_idemp_l. Qed.
Lemma w32_mul_l a b : w32 (w32 a * b) = w32 (a * b).
Proof. unfold as_unsigned. by rewrite Zmult_mod_idemp_l. Qed.
Lemma w32_mul_r a b : w32 (a * w32 b) = w32 (a * b).
Proof. unfold as_unsigned. by rewrite Zmult_mod_idemp_r. Qed.
Lemma w32_add_ll a b c : w32 (w32 a + b + c) = w32 (a + b + c).
Proof. by rewrite <- !Z.add_assoc, w32_add_l. Qed.
Lemma w32_mul_ll a b c : w32 (w32 a * b * c) = w32 (a * b * c).
Proof. by rewrite <- !Z.mul_assoc, w32_mul_l. Qed.

Create Rewrite HintDb w32.
#[export] Hint Rewrite w32_mul_ll w32_add_ll w32_add_l w32_add_r w32_sub_l w32_mul_l w32_mul_r : w32.

Lemma extent_product_pos dims : positive dims -> 0 < extent_product dims.
Proof. induction 1; cbn [extent_product]; [lia|nia]. Qed.

Lemma length_unravel dims i : length (unravel dims i) = length dims.
Proof. induction dims; cbn [unravel length]; congruence. Qed.

Lemma length_row_major dims : length (row_major dims) = length dims.
Proof. induction dims; cbn [row_major length]; congruence. Qed.

Lemma unravel_range dims i : positive dims -> Forall2 (fun c d => 0 <= c < d) (unravel dims i) dims.
Proof. induction 1; cbn [unravel]; constructor; [by apply Z.mod_pos_bound|done]. Qed.

Lemma extent_product_app a b : extent_product (a ++ b) = extent_product a * extent_product b.
Proof. induction a; cbn [extent_product app]; [lia|]. rewrite IHa. lia. Qed.

Lemma dot_app a b s t : length a = length s -> dot (a ++ b) (s ++ t) = dot a s + dot b t.
Proof.
  revert s. induction a as [|x a IH]; intros [|y s] H; try done. cbn [dot app]. rewrite IH by (simpl in H; lia). lia.
Qed.

Lemma dot_replicate_0 n cs : dot cs (replicate n 0) = 0.
Proof. revert cs. induction n; intros [|c cs]; cbn [dot replicate]; try done. rewrite IHn. lia. Qed.

Lemma unravel_app a b i : positive a -> positive b -> unravel (a ++ b) i = unravel a (i / extent_product b) ++ unravel b i.
Proof.
  intros Ha Hb. pose proof (extent_product_pos b Hb). induction Ha as [|d a Hd Ha IH]; cbn [unravel app]; [done|].
  pose proof (extent_product_pos a Ha). rewrite IH, extent_product_app. f_equal. rewrite Z.mul_comm, Z.div_div by lia. done.
Qed.

(** The kernel's loop computes the inner product of coordinates and strides. *)
Lemma strided_rev_spec dims strides i acc : positive dims -> length dims = length strides ->
  strided_rev (rev dims) (rev strides) i acc = if bool_decide (dims = []) then acc else w32 (acc + dot (unravel dims i) strides).
Proof.
  revert strides i acc. induction dims as [|d dims IH] using rev_ind; intros strides i acc Hp Hl.
  - destruct strides; done.
  - destruct strides as [|s strides _] using rev_ind; [rewrite length_app in Hl; simpl in Hl; lia|].
    rewrite !length_app in Hl. simpl in Hl. apply Forall_app in Hp as [Hp Hd]. rewrite !rev_unit. cbn [strided_rev].
    rewrite IH by (done || lia). rewrite (bool_decide_false (dims ++ [d] = [])) by (by destruct dims).
    rewrite unravel_app by done. cbn [extent_product unravel]. rewrite !Z.mul_1_r, Z.div_1_r.
    rewrite dot_app by (rewrite length_unravel; lia). cbn [dot].
    case_bool_decide as E; [subst; destruct strides; [|simpl in Hl; lia]; cbn [unravel dot]|]; autorewrite with w32; f_equal; lia.
Qed.

Lemma strided_index_spec dims strides i : positive dims -> length dims = length strides ->
  strided_index dims strides i = w32 (dot (unravel dims i) strides).
Proof.
  intros Hp Hl. unfold strided_index. rewrite strided_rev_spec by done. case_bool_decide as E; [|done].
  subst. by destruct strides.
Qed.

(** Leading ones with stride zero change nothing. *)
Lemma strided_index_padded n dims strides i : positive dims -> length dims = length strides ->
  strided_index (replicate n 1 ++ dims) (replicate n 0 ++ strides) i = w32 (dot (unravel dims i) strides).
Proof.
  intros Hp Hl. rewrite strided_index_spec.
  - rewrite unravel_app by (done || by apply Forall_replicate). rewrite dot_app by (by rewrite length_unravel, !length_replicate).
    by rewrite dot_replicate_0.
  - apply Forall_app. split; [by apply Forall_replicate|done].
  - rewrite !length_app, !length_replicate. lia.
Qed.

(** A sum of products within the row-major maximum is an index. *)
Lemma dot_row_major_max dims : dot ((fun d => d - 1) <$> dims) (row_major dims) = extent_product dims - 1.
Proof. induction dims as [|d dims IH]; [done|]. rewrite fmap_cons. cbn [dot row_major extent_product]. rewrite IH. lia. Qed.

Lemma dot_bound cs strides ds ss : Forall2 (fun p q => 0 <= p.1 * p.2 <= q.1 * q.2) (zip cs strides) (zip ds ss) ->
  length cs = length strides -> length ds = length ss -> 0 <= dot cs strides <= dot ds ss.
Proof.
  revert strides ds ss. induction cs as [|c cs IH]; intros [|s strides] [|d ds] [|t ss] H Hl1 Hl2; cbn [zip zip_with dot length] in *;
    try discriminate; try (by inversion H); try lia.
  apply Forall2_cons in H as [Hh H]. pose proof (IH strides ds ss H ltac:(lia) ltac:(lia)). simpl in Hh. lia.
Qed.

(** The strides that the lowering computes are exact when the product fits. *)
Lemma strides_acc_spec dims : positive dims -> extent_product dims <= U32_MAX ->
  strides_acc dims = (row_major dims, extent_product dims).
Proof.
  induction 1 as [|d dims Hd Hp IH]; cbn [extent_product strides_acc row_major]; [done|]. intros Hm.
  pose proof (extent_product_pos dims Hp). rewrite IH by nia. unfold mul32. rewrite w32_small by nia. f_equal. lia.
Qed.
