(* ===== verification/VulkanGeometry.v ===== *)
(** * The geometry of Vulkan dispatches

    For every kind of dispatch that lower.rs emits: under the conditions it
    checks, each element that the kernel addresses is an element of its
    tensor. *)

From Stdlib Require Import ZArith Lia.
From stdpp Require Import prelude list.
From S2P Require Import Prelude TosaTypes TosaNumeric TosaSpecialize VulkanShader VulkanLower VulkanAccess.

(** ** Shapes *)

Record shape_wf (s : TensorShape) : Prop := {
  sw_positive : positive (ts_dims s);
  sw_elements : ts_elements s = extent_product (ts_dims s);
  sw_fits : ts_elements s <= U32_MAX;
}.

Lemma shape_elements_pos s : shape_wf s -> 1 <= ts_elements s.
Proof. intros [Hp He _]. rewrite He. pose proof (extent_product_pos _ Hp). lia. Qed.

Lemma shape_u32 s : shape_wf s -> is_u32 (ts_elements s).
Proof. intros H. pose proof (shape_elements_pos s H). pose proof (sw_fits s H). lia. Qed.

Lemma shape_strides s : shape_wf s -> ts_strides s = row_major (ts_dims s).
Proof. intros [Hp He Hf]. unfold ts_strides. rewrite strides_acc_spec; [done|done|lia]. Qed.

Lemma lanes_pos st : 1 <= lanes st.
Proof. destruct st; simpl; lia. Qed.

Lemma width_pos st : 1 <= width st.
Proof. destruct st; vm_compute; discriminate. Qed.

Lemma width_lanes st : width st * lanes st = 4.
Proof. by destruct st. Qed.

(** [scalar_bytes] is the width of the storage. *)
Lemma scalar_width dtype : scalar_bytes dtype = width (storage_of dtype).
Proof.
  unfold scalar_bytes, storage_of.
  destruct (dtype =? DType.BOOL), (dtype =? DType.FP8E4M3), (dtype =? DType.FP8E5M2), (dtype =? DType.FP16); done.
Qed.

Lemma byte_len_width s : ts_byte_len s = ts_elements s * width (ts_storage s).
Proof. unfold ts_byte_len, ts_storage. by rewrite scalar_width. Qed.

(** ** Tensors of a dispatch *)

Record TensorUse := { tu_operand : Operand; tu_storage : Storage; tu_elements : Z }.

Definition tensor_use (o : Operand) (s : TensorShape) : TensorUse :=
  {| tu_operand := o; tu_storage := ts_storage s; tu_elements := ts_elements s |}.

(** How many elements of a source of [n] elements a kernel may load: contiguous
    kernels load whole groups of destination lanes. *)
Definition load_limit (kernel : KernelSpec) (n : Z) : Z :=
  match kernel with
  | KCast _ output => div_ceil n (lanes output) * lanes output
  | KMove st true => div_ceil n (lanes st) * lanes st
  | _ => n
  end.

(** Every access is to an element of one of the tensors. *)
Definition fits (kernel : KernelSpec) (spec : list Z) (reads : list TensorUse) (write : TensorUse) : Prop :=
  forall w o st e, kernel_access kernel spec w o st e ->
  if w then o = tu_operand write /\ st = tu_storage write /\ 0 <= e < tu_elements write
  else exists r, r ∈ reads /\ o = tu_operand r /\ st = tu_storage r /\ 0 <= e < load_limit kernel (tu_elements r).

Lemma operand_eta o : {| op_buffer := op_buffer o; op_base := op_base o |} = o.
Proof. by destruct o. Qed.

(** ** Contiguous kernels *)

Lemma contiguous_words_bound output n : is_u32 n -> 0 <= contiguous_words output n <= div_ceil n (lanes output).
Proof.
  intros Hn. unfold contiguous_words. pose proof (lanes_pos output) as Hl. destruct (Z.eqb_spec (lanes output) 1) as [->|Hne].
  { unfold div_ceil. rewrite Z.div_1_r, Z.mod_1_r. simpl. lia. }
  pose proof (w32_range (n + (lanes output - 1))) as Hr. split; [apply Z.div_pos; lia|].
  assert (w32 (n + (lanes output - 1)) <= n + (lanes output - 1)) as Hle by (apply Z.mod_le; lia).
  transitivity ((n + (lanes output - 1)) / lanes output); [by apply Z.div_le_mono; lia|].
  unfold div_ceil. pose proof (Z_div_mod_eq_full n (lanes output)) as E. pose proof (Z.mod_pos_bound n (lanes output)).
  apply Z.lt_succ_r, Z.div_lt_upper_bound; [lia|]. destruct (Z.eqb_spec (n mod lanes output) 0); nia.
Qed.

Lemma contiguous_index output n w lane : is_u32 n -> 0 <= w < contiguous_words output n -> 0 <= lane < lanes output ->
  0 <= w32 (w32 (w * lanes output) + lane) < div_ceil n (lanes output) * lanes output.
Proof.
  intros Hn Hw Hlane. pose proof (contiguous_words_bound output n Hn) as Hb. rewrite w32_add_l. split; [apply w32_range|].
  apply Z.le_lt_trans with (w * lanes output + lane); [apply Z.mod_le; nia|]. nia.
Qed.

Lemma contiguous_fits input output from to g n kernel :
  mg_count g = n -> is_u32 n -> (forall w o st e, kernel_access kernel (move_spec from to g true) w o st e <->
    contiguous_access input output (move_spec from to g true) w o st e) ->
  load_limit kernel n = div_ceil n (lanes output) * lanes output ->
  fits kernel (move_spec from to g true) [{| tu_operand := from; tu_storage := input; tu_elements := n |}]
    {| tu_operand := to; tu_storage := output; tu_elements := n |}.
Proof.
  intros <- Hn Ha Hl w o st e H. apply Ha in H. unfold contiguous_access, move_spec, spec_operand in H. cbn in H.
  rewrite !operand_eta in H. destruct H as (i & lane & Hi & Hlane & E & H).
  pose proof (contiguous_index output (mg_count g) i lane Hn Hi Hlane) as Hr. rewrite <- E in Hr.
  destruct w; [naive_solver lia|]. destruct H as [-> ->]. eexists. split; [by left|]. cbn [tu_operand tu_storage tu_elements].
  by rewrite Hl.
Qed.

Lemma cast_fits input output from to g n : mg_count g = n -> is_u32 n ->
  fits (KCast input output) (move_spec from to g true) [{| tu_operand := from; tu_storage := input; tu_elements := n |}]
    {| tu_operand := to; tu_storage := output; tu_elements := n |}.
Proof. intros H Hn. by apply (contiguous_fits input output). Qed.

Lemma copy_fits st from to g n : mg_count g = n -> is_u32 n ->
  fits (KMove st true) (move_spec from to g true) [{| tu_operand := from; tu_storage := st; tu_elements := n |}]
    {| tu_operand := to; tu_storage := st; tu_elements := n |}.
Proof. intros H Hn. by apply (contiguous_fits st st). Qed.

(** ** Strided copies *)

Lemma pad_leading_inv values fill padded : pad_leading values fill = Some padded ->
  padded = replicate (MAX_RANK - length values) fill ++ values /\ length padded = MAX_RANK.
Proof.
  unfold pad_leading. destruct (Nat.leb_spec (length values) MAX_RANK); [|done]. intros [= <-].
  split; [done|]. rewrite length_app, length_replicate. lia.
Qed.

Lemma padded_index s dims strides padded_strides i : positive (ts_dims s) -> padded_dims s = Some dims ->
  pad_leading strides 0 = Some padded_strides -> length strides = length (ts_dims s) ->
  strided_index dims padded_strides i = w32 (dot (unravel (ts_dims s) i) strides).
Proof.
  intros Hp [-> _]%pad_leading_inv [-> _]%pad_leading_inv Hl. rewrite Hl. by apply strided_index_padded.
Qed.

(** The words of a strided copy. *)
Lemma move_words from to g : length (mg_dims g) = 6%nat -> length (mg_in_strides g) = 6%nat -> length (mg_out_strides g) = 6%nat ->
  let spec := move_spec from to g false in
  nth 4 spec 0 = mg_count g /\ spec_operand spec 0 = from /\ spec_operand spec 2 = to /\
  take 6 (drop 5 spec) = mg_dims g /\ take 6 (drop 11 spec) = mg_in_strides g /\ nth 17 spec 0 = mg_in_offset g /\
  take 6 (drop 18 spec) = mg_out_strides g /\ nth 24 spec 0 = mg_out_offset g.
Proof.
  intros Hd Hi Ho spec. set (tail := mg_in_offset g :: mg_out_strides g ++ [mg_out_offset g]).
  assert (drop 5 spec = mg_dims g ++ mg_in_strides g ++ tail) as E5 by done.
  assert (drop 11 spec = mg_in_strides g ++ tail) as E11.
  { change 11%nat with (5 + 6)%nat. rewrite <- drop_drop, E5. by apply drop_app_length'. }
  assert (drop 17 spec = tail) as E17.
  { change 17%nat with (11 + 6)%nat. rewrite <- drop_drop, E11. by apply drop_app_length'. }
  assert (drop 18 spec = mg_out_strides g ++ [mg_out_offset g]) as E18.
  { change 18%nat with (17 + 1)%nat. rewrite <- drop_drop, E17. done. }
  assert (drop 24 spec = [mg_out_offset g]) as E24.
  { change 24%nat with (18 + 6)%nat. rewrite <- drop_drop, E18. by apply drop_app_length'. }
  assert (forall n x t, drop n spec = x :: t -> nth n spec 0 = x) as Hnth.
  { intros n x t E. rewrite <- (Nat.add_0_r n), <- nth_skipn. change (skipn n spec) with (drop n spec). by rewrite E. }
  split; [done|]. split; [by destruct from|]. split; [by destruct to|]. rewrite E5, E11, E18.
  rewrite !take_app_length' by done. split; [done|]. split; [done|]. split; [by eapply Hnth|]. split; [done|]. by eapply Hnth.
Qed.

Lemma move_fits st from to g n_in n_out :
  length (mg_dims g) = MAX_RANK -> length (mg_in_strides g) = MAX_RANK -> length (mg_out_strides g) = MAX_RANK ->
  (forall i, 0 <= i < mg_count g ->
     0 <= w32 (strided_index (mg_dims g) (mg_in_strides g) i + mg_in_offset g) < n_in /\
     0 <= w32 (strided_index (mg_dims g) (mg_out_strides g) i + mg_out_offset g) < n_out) ->
  fits (KMove st false) (move_spec from to g false) [{| tu_operand := from; tu_storage := st; tu_elements := n_in |}]
    {| tu_operand := to; tu_storage := st; tu_elements := n_out |}.
Proof.
  intros Hd Hi Ho H w o s e Ha. destruct (move_words from to g Hd Hi Ho) as (E1 & E2 & E3 & E4 & E5 & E6 & E7 & E8).
  cbn [kernel_access] in Ha. unfold move_access in Ha. cbv zeta in *. set (spec := move_spec from to g false) in *. clearbody spec.
  destruct Ha as (i & Hr & -> & Ha). rewrite E1 in Hr. rewrite E2, E3, E4, E5, E6, E7, E8 in Ha.
  destruct (H i Hr) as [H1 H2]. destruct w; destruct Ha as [-> ->]; [done|]. eexists. split; [by left|]. done.
Qed.

(** Coordinates within the extents index the tensor. *)
Lemma dot_in_range cs dims : positive dims -> Forall2 (fun c d => 0 <= c < d) cs dims ->
  0 <= dot cs (row_major dims) < extent_product dims.
Proof.
  intros Hp Hc. assert (0 <= dot cs (row_major dims) <= dot ((fun d => d - 1) <$> dims) (row_major dims)) as H.
  { apply dot_bound; rewrite ?length_fmap, ?length_row_major; [|by eapply Forall2_length|done].
    induction Hc as [|c d cs dims H Hc IH]; [constructor|]. inversion Hp; subst. cbn [row_major]. rewrite fmap_cons. cbn [zip zip_with].
    constructor; [|by apply IH]. pose proof (extent_product_pos dims ltac:(done)). simpl. nia. }
  rewrite dot_row_major_max in H. lia.
Qed.

Lemma unravel_add dims i k : positive dims -> unravel dims (i + k * extent_product dims) = unravel dims i.
Proof.
  intros Hp. revert k. induction Hp as [|d dims Hd Hp IH]; intros k; cbn [unravel extent_product]; [done|].
  pose proof (extent_product_pos dims Hp). rewrite Z.mul_assoc, IH, Z.div_add by lia. by rewrite Z.mod_add by lia.
Qed.

(** The index of an iteration over the tensor itself is the iteration. *)
Lemma unravel_dot dims i : positive dims -> 0 <= i < extent_product dims -> dot (unravel dims i) (row_major dims) = i.
Proof.
  intros Hp. revert i. induction Hp as [|d dims Hd Hp IH]; intros i Hi; cbn [unravel row_major dot extent_product] in *; [lia|].
  pose proof (extent_product_pos dims Hp) as He. set (e := extent_product dims) in *.
  pose proof (Z_div_mod_eq_full i e) as E. 
  assert (unravel dims i = unravel dims (i mod e)) as ->.
  { rewrite <- (unravel_add dims (i mod e) (i / e) Hp). f_equal. fold e. lia. }
  rewrite IH by (by apply Z.mod_pos_bound).
  rewrite (Z.mod_small (i / e)) by (split; [apply Z.div_pos; lia|apply Z.div_lt_upper_bound; nia]). lia.
Qed.

(** Replacing one coordinate. *)
Lemma dot_insert a cs ss c s c' : cs !! a = Some c -> ss !! a = Some s -> dot (<[a := c']> cs) ss = dot cs ss + (c' - c) * s.
Proof.
  revert cs ss. induction a as [|a IH]; intros [|x cs] [|y ss] Hc Hs; try done.
  - simpl in Hc, Hs. simplify_eq. simpl. lia.
  - simpl in Hc, Hs. change (<[S a := c']> (x :: cs)) with (x :: <[a := c']> cs). cbn [dot]. rewrite (IH cs ss) by done. lia.
Qed.

Lemma dot_insert_r a cs ss c s s' : cs !! a = Some c -> ss !! a = Some s -> dot cs (<[a := s']> ss) = dot cs ss + c * (s' - s).
Proof.
  revert cs ss. induction a as [|a IH]; intros [|x cs] [|y ss] Hc Hs; try done.
  - simpl in Hc, Hs. simplify_eq. simpl. lia.
  - simpl in Hc, Hs. change (<[S a := s']> (y :: ss)) with (y :: <[a := s']> ss). cbn [dot]. rewrite (IH cs ss) by done. lia.
Qed.

Lemma row_major_lookup dims a d : dims !! a = Some d -> exists s, row_major dims !! a = Some s.
Proof. intros H. apply lookup_lt_is_Some. rewrite length_row_major. by eapply lookup_lt_Some. Qed.

(** A coordinate moved within the extent still indexes the tensor. *)
Lemma moved_in_range dims cs a c c' s d : positive dims -> Forall2 (fun c d => 0 <= c < d) (<[a := 0]> cs) dims ->
  cs !! a = Some c -> row_major dims !! a = Some s -> dims !! a = Some d -> 0 <= c' < d ->
  0 <= dot cs (row_major dims) + (c' - c) * s < extent_product dims.
Proof.
  intros Hp Hc Ha Hs Hd Hr. rewrite <- (dot_insert a cs (row_major dims) c s c') by done. apply dot_in_range; [done|].
  rewrite <- (list_insert_insert_eq cs a c' 0). rewrite <- (list_insert_id dims a d) by done. by apply Forall2_insert.
Qed.

Lemma unravel_coordinate dims a d i : positive dims -> dims !! a = Some d -> exists c, unravel dims i !! a = Some c /\ 0 <= c < d.
Proof.
  intros Hp Hd. pose proof (unravel_range dims i Hp) as H. destruct (Forall2_lookup_r _ _ _ a d H Hd) as (c & Hc & Hr). eauto.
Qed.

(** REVERSE: the mirrored coordinate, with the negated stride of the axis. *)
Lemma reversed_in_range dims a s d i : positive dims -> extent_product dims <= U32_MAX ->
  row_major dims !! a = Some s -> dims !! a = Some d ->
  0 <= w32 (w32 (dot (unravel dims i) (<[a := w32 (- s)]> (row_major dims))) + mul32 (d - 1) s) < extent_product dims.
Proof.
  intros Hp Hm Hs Hd. destruct (unravel_coordinate dims a d i Hp Hd) as (c & Hc & Hr).
  rewrite (dot_insert_r a _ _ c s) by done. unfold mul32. autorewrite with w32.
  assert (0 <= dot (unravel dims i) (row_major dims) + (d - 1 - c - c) * s < extent_product dims) as H.
  { apply (moved_in_range dims (unravel dims i) a c (d - 1 - c) s d); try done; [|lia].
    rewrite <- (list_insert_id dims a d) at 2 by done. apply Forall2_insert; [by apply unravel_range|lia]. }
  set (D := dot (unravel dims i) (row_major dims)) in *.
  assert (w32 (D + c * (w32 (- s) - s) + (d - 1) * s) = w32 (D + (d - 1 - c - c) * s)) as ->.
  { unfold as_unsigned. set (q := (- s) / 2 ^ 32). pose proof (Z_div_mod_eq_full (- s) (2 ^ 32)) as E. fold q in E.
    replace (D + c * ((- s) mod 2 ^ 32 - s) + (d - 1) * s) with (D + (d - 1 - c - c) * s + (- c * q) * 2 ^ 32) by nia.
    by rewrite Z.mod_add. }
  rewrite w32_small by lia. done.
Qed.

(** CONCAT: a segment of extent [e] placed at [offset] along the axis. *)
Lemma segment_in_range dims a d e offset s i : positive dims -> extent_product dims <= U32_MAX ->
  row_major dims !! a = Some s -> dims !! a = Some d -> 0 < e -> 0 <= offset -> offset + e <= d ->
  0 <= w32 (w32 (dot (unravel (<[a := e]> dims) i) (row_major dims)) + mul32 offset s) < extent_product dims.
Proof.
  intros Hp Hm Hs Hd He Ho Hle. unfold mul32. autorewrite with w32.
  assert (positive (<[a := e]> dims)) as Hp' by (by apply Forall_insert).
  assert (<[a := e]> dims !! a = Some e) as Hd'. { apply list_lookup_insert_eq. by eapply lookup_lt_Some. }
  destruct (unravel_coordinate _ a e i Hp' Hd') as (c & Hc & Hr).
  assert (0 <= dot (unravel (<[a := e]> dims) i) (row_major dims) + (c + offset - c) * s < extent_product dims) as H.
  { apply (moved_in_range dims (unravel (<[a := e]> dims) i) a c (c + offset) s d); try done; [|lia].
    rewrite <- (list_insert_id dims a d) at 2 by done. rewrite <- (list_insert_insert_eq dims a d e).
    apply Forall2_insert; [by apply unravel_range|lia]. }
  replace (c + offset - c) with offset in H by lia. rewrite w32_small by lia. done.
Qed.

(** ** Permutations *)

Definition zsum (l : list Z) : Z := foldr Z.add 0 l.

Lemma zsum_permutation l k : l ≡ₚ k -> zsum l = zsum k.
Proof. induction 1; unfold zsum in *; simpl; lia. Qed.

Lemma dot_fmap {A} (f g : A -> Z) l : dot (f <$> l) (g <$> l) = zsum ((fun x => f x * g x) <$> l).
Proof. induction l as [|x l IH]; [done|]. rewrite !fmap_cons. cbn [dot]. rewrite IH. done. Qed.

Lemma total_lookup_seq (xs : list Z) : (fun p => xs !!! p) <$> seq 0 (length xs) = xs.
Proof.
  apply list_eq. intros i. rewrite list_lookup_fmap. destruct (decide (i < length xs)%nat) as [H|H].
  - rewrite lookup_seq_lt by done. simpl. symmetry. by apply list_lookup_lookup_total_lt.
  - rewrite lookup_seq_ge by lia. simpl. symmetry. apply lookup_ge_None. lia.
Qed.

Lemma dot_permuted perms xs ss : perms ≡ₚ seq 0 (length xs) -> length xs = length ss ->
  dot ((fun p => xs !!! p) <$> perms) ((fun p => ss !!! p) <$> perms) = dot xs ss.
Proof.
  intros Hp Hl. rewrite dot_fmap. rewrite (zsum_permutation _ ((fun p => xs !!! p * ss !!! p) <$> seq 0 (length xs))).
  - rewrite <- dot_fmap, total_lookup_seq. by rewrite Hl, total_lookup_seq.
  - by rewrite Hp.
Qed.

(** What the check of a permutation establishes. *)
Lemma perms_match_spec rank source target perms d seen : length seen = rank ->
  perms_match rank source target perms d seen = Some (Ok tt) ->
  NoDup perms /\ Forall (fun p => seen !! p = Some false) perms /\
  forall k p, perms !! k = Some p -> exists t, target !! (d + k)%nat = Some t /\ source !! p = Some t.
Proof.
  revert d seen. induction perms as [|perm perms IH]; intros d seen Hl H.
  { split; [constructor|]. split; [constructor|done]. }
  cbn [perms_match] in H. destruct (Nat.leb_spec rank perm); [done|]. destruct (seen !! perm) as [[]|] eqn:Es; try done.
  destruct (target !! d) as [t|] eqn:Et; [|done]. destruct (source !! perm) as [e|] eqn:Ee; [|done]. simpl in H.
  destruct (Z.eqb_spec t e) as [->|]; [|by simpl in H]. simpl in H.
  apply IH in H as (Hn & Hf & Hm); [|by rewrite length_insert].
  assert (forall p, p ∈ perms -> p <> perm /\ seen !! p = Some false) as Hp.
  { intros p Hp. rewrite Forall_forall in Hf. specialize (Hf p Hp). destruct (decide (p = perm)) as [->|].
    - rewrite list_lookup_insert_eq in Hf by lia. done.
    - by rewrite list_lookup_insert_ne in Hf. }
  split; [constructor; [intros Hin; by apply (Hp perm)|done]|]. split.
  - constructor; [done|]. apply Forall_forall. intros p Hin. by apply Hp.
  - intros [|k] p Hk; simpl in Hk; simplify_eq; [exists e; by rewrite Nat.add_0_r|]. rewrite Nat.add_succ_r. by apply (Hm k).
Qed.

Lemma nodup_below_permutation (l : list nat) n : NoDup l -> Forall (fun p => (p < n)%nat) l -> length l = n -> l ≡ₚ seq 0 n.
Proof.
  intros Hn Hf Hl. apply submseteq_length_Permutation; [|rewrite length_seq; lia].
  apply NoDup_submseteq; [done|]. intros x Hx. apply elem_of_seq. rewrite Forall_forall in Hf. specialize (Hf x Hx). lia.
Qed.

Lemma row_major_nonneg dims p : positive dims -> (p < length dims)%nat -> 0 <= row_major dims !!! p.
Proof.
  intros Hp. revert p. induction Hp as [|d dims Hd Hp IH]; intros p Hl; simpl in Hl; [lia|].
  pose proof (extent_product_pos dims Hp). destruct p; simpl; [lia|]. apply IH. lia.
Qed.

(** TRANSPOSE: permuted strides over the permuted extents. *)
Lemma permuted_in_range perms dims target strides i : positive dims -> positive target -> perms ≡ₚ seq 0 (length dims) ->
  target = (fun p => dims !!! p) <$> perms -> strides = (fun p => row_major dims !!! p) <$> perms ->
  0 <= dot (unravel target i) strides < extent_product dims.
Proof.
  intros Hp Ht Hperm -> ->. set (max := (fun d => d - 1) <$> dims).
  assert (forall p, p ∈ perms -> (p < length dims)%nat) as Hlt. { intros p. rewrite Hperm, elem_of_seq. lia. }
  assert (dot ((fun p => max !!! p) <$> perms) ((fun p => row_major dims !!! p) <$> perms) = extent_product dims - 1) as Hm.
  { rewrite <- dot_row_major_max. apply dot_permuted; unfold max; rewrite length_fmap, ?length_row_major; done. }
  enough (0 <= dot (unravel ((fun p => dims !!! p) <$> perms) i) ((fun p => row_major dims !!! p) <$> perms) <=
          dot ((fun p => max !!! p) <$> perms) ((fun p => row_major dims !!! p) <$> perms)) by lia.
  apply dot_bound; rewrite ?length_unravel, ?length_fmap; try done.
  pose proof (unravel_range _ i Ht) as Hr. clear Hm Hperm Ht. revert Hr Hlt. generalize (unravel ((fun p => dims !!! p) <$> perms) i).
  induction perms as [|p perms IH]; intros cs Hr Hlt; inversion Hr as [|c d cs' ds' Hc Hr']; subst; [constructor|].
  rewrite !fmap_cons. cbn [zip zip_with]. constructor.
  - simpl. unfold max. assert (p < length dims)%nat as Hp' by (apply Hlt; by left).
    rewrite (list_lookup_total_fmap (fun d => d - 1) dims p) by done.
    assert (0 <= row_major dims !!! p) by (by apply row_major_nonneg). nia.
  - apply IH; [done|]. intros q Hq. apply Hlt. by right.
Qed.

(** One more level of a row-major index. *)
Lemma flat_index a b n c : 0 <= a < b -> 0 <= c < n -> 0 <= a * n + c < b * n.
Proof. intros Ha Hc. pose proof (Z.mul_le_mono_nonneg_r (a + 1) b n). nia. Qed.

(** ** Reductions *)

Lemma product32_exact dims acc : positive dims -> 0 < acc -> acc * extent_product dims <= U32_MAX ->
  fold_left mul32 dims acc = acc * extent_product dims.
Proof.
  intros Hp. revert acc. induction Hp as [|d dims Hd Hp IH]; intros acc Ha Hm; cbn [fold_left extent_product] in *; [lia|].
  pose proof (extent_product_pos dims Hp). unfold mul32 at 2. rewrite w32_small by nia. rewrite IH; nia.
Qed.

Lemma positive_take_drop dims a : positive dims -> positive (take a dims) /\ positive (drop a dims).
Proof. intros H. split; [by apply Forall_take|by apply Forall_drop]. Qed.

Lemma extent_product_split dims a d : dims !! a = Some d ->
  extent_product dims = extent_product (take a dims) * d * extent_product (drop (S a) dims).
Proof.
  intros H. rewrite <- (take_drop_middle dims a d H) at 1. rewrite extent_product_app. cbn [extent_product]. lia.
Qed.

(** The two products around the axis. *)
Lemma reduce_products dims a d : positive dims -> extent_product dims <= U32_MAX -> dims !! a = Some d ->
  0 < d /\ 0 < extent_product (take a dims) /\ 0 < extent_product (drop (S a) dims) /\
  product32 (take a dims) = extent_product (take a dims) /\ product32 (drop (S a) dims) = extent_product (drop (S a) dims).
Proof.
  intros Hp Hm Hd. destruct (positive_take_drop dims a Hp) as [Ht _]. destruct (positive_take_drop dims (S a) Hp) as [_ Hr].
  pose proof (extent_product_pos _ Ht). pose proof (extent_product_pos _ Hr). pose proof (extent_product_split dims a d Hd) as E.
  assert (0 < d) by (rewrite Forall_lookup in Hp; by eapply Hp). unfold product32. rewrite !product32_exact by (done || nia). lia.
Qed.

Lemma reduce_index outer axis inner i a : 0 < outer -> 0 < axis -> 0 < inner -> outer * axis * inner <= U32_MAX ->
  0 <= i < outer * inner -> 0 <= a < axis ->
  0 <= w32 (w32 (w32 (w32 (i / inner * axis) * inner) + i mod inner) + w32 (a * inner)) < outer * axis * inner.
Proof.
  intros Ho Ha Hi Hm Hr Hx. autorewrite with w32. pose proof (Z.mod_pos_bound i inner Hi). pose proof (Z_div_mod_eq_full i inner).
  assert (0 <= i / inner < outer) as Hq by (split; [apply Z.div_pos; lia|apply Z.div_lt_upper_bound; lia]).
  set (q := i / inner) in *. set (r := i mod inner) in *.
  assert (q * axis * inner + r + a * inner = (q * axis + a) * inner + r) as -> by ring. clearbody q r.
  assert (0 <= (q * axis + a) * inner + r < outer * axis * inner) by (by repeat apply flat_index).
  by rewrite w32_small by lia.
Qed.

Lemma reduce_fits op float from to outer axis inner : 0 < outer -> 0 < axis -> 0 < inner -> outer * axis * inner <= U32_MAX ->
  fits (KReduce op float) (reduce_spec from to outer axis inner)
    [{| tu_operand := from; tu_storage := float; tu_elements := outer * axis * inner |}]
    {| tu_operand := to; tu_storage := match op with RArgMax _ => StWord | _ => float end; tu_elements := outer * inner |}.
Proof.
  intros Ho Ha Hi Hm w o st e H. cbn [kernel_access] in H. unfold reduce_access, reduce_spec, spec_operand in H. cbn in H.
  rewrite !operand_eta in H. destruct H as (i & Hr & H). assert (outer * inner <= outer * axis * inner) by nia.
  rewrite w32_small in Hr by nia. destruct w; [by destruct H as (-> & -> & ->)|].
  destruct H as (-> & -> & a & Hx & ->). eexists. split; [by left|]. cbn [tu_operand tu_storage tu_elements load_limit].
  split; [done|]. split; [done|]. by apply reduce_index.
Qed.

(** ** Products of matrices *)

Lemma matrix_index batch rows cols z row col : 0 <= z < batch -> 0 <= row < rows -> 0 <= col < cols ->
  batch * rows * cols <= U32_MAX ->
  0 <= w32 (w32 (w32 (w32 (z * rows) * cols) + w32 (row * cols)) + col) < batch * rows * cols.
Proof.
  intros Hz Hr Hc Hm. autorewrite with w32.
  assert (z * rows * cols + row * cols + col = (z * rows + row) * cols + col) as -> by ring.
  assert (0 <= (z * rows + row) * cols + col < batch * rows * cols) by (by repeat apply flat_index).
  by rewrite w32_small by lia.
Qed.

Lemma matmul_fits kernel lhs rhs output l r to m n k batch :
  (forall spec w o st e, kernel_access kernel spec w o st e -> matmul_access lhs rhs output spec w o st e) ->
  (forall x, load_limit kernel x = x) ->
  0 < batch -> 0 < m -> 0 < n -> 0 < k ->
  batch * m * k <= U32_MAX -> batch * k * n <= U32_MAX -> batch * m * n <= U32_MAX ->
  fits kernel (matmul_spec l r to m n k batch)
    [{| tu_operand := l; tu_storage := lhs; tu_elements := batch * m * k |};
     {| tu_operand := r; tu_storage := rhs; tu_elements := batch * k * n |}]
    {| tu_operand := to; tu_storage := output; tu_elements := batch * m * n |}.
Proof.
  intros Hk Hlim Hb H0 H1 H2 Hml Hmr Hmo w o st e H. apply Hk in H. unfold matmul_access, matmul_spec, spec_operand in H. cbn in H.
  rewrite !operand_eta in H. destruct H as (z & row & col & kk & Hz & H). destruct w.
  - destruct H as (-> & -> & Hr & Hc & ->). cbn [tu_operand tu_storage tu_elements]. split; [done|]. split; [done|]. by apply matrix_index.
  - destruct H as [(-> & -> & H)|(-> & -> & H)]; eexists; (split; [by repeat constructor|]); rewrite Hlim;
      cbn [tu_operand tu_storage tu_elements]; (split; [done|]); (split; [done|]);
      (destruct H as [-> | (Hr & Hc & ->)]; [nia|]); rewrite (Z.add_comm (w32 (_ * _)) (w32 (w32 _ * _))); by apply matrix_index.
Qed.

(** The streaming kernel touches what the tiled one may touch. *)
Lemma stream_access rhs output spec w o st e : kernel_access (KMatmulStream rhs output) spec w o st e -> matmul_access StWord rhs output spec w o st e.
Proof.
  cbn [kernel_access]. unfold matmul_stream_access, matmul_access. intros (z & row & col & kk & Hz & H). exists z, row, col, kk. split; [done|].
  destruct w; [destruct H as (-> & -> & Hr & Hc & ->); by rewrite (Z.add_comm (w32 (row * _)))|].
  destruct H as [(-> & -> & Hr & Hc & ->)|(-> & -> & [-> | (Hr & Hc & ->)])]; [left|by right; auto|right];
    (split; [done|]); (split; [done|]); right; (split; [done|]); (split; [done|]).
  - by rewrite (Z.add_comm (w32 (row * _))).
  - by rewrite w32_add_r, (w32_add_l (_ + _)), Z.add_assoc.
Qed.

(** ** Pooling *)

Lemma pool_index batch height width channels oh ow i ih iw : 0 < channels -> 0 < oh -> 0 < ow ->
  0 <= i < batch * oh * ow * channels -> 0 <= ih < height -> 0 <= iw < width -> batch * height * width * channels <= U32_MAX ->
  0 <= w32 (w32 (w32 (w32 (w32 (w32 (i / channels / ow / oh * height) + ih) * width) + iw) * channels) + i mod channels)
    < batch * height * width * channels.
Proof.
  intros Hc Hoh How Hi Hh Hw Hm. rewrite (w32_add_l (_ * height)), (w32_mul_l _ width), (w32_add_l (_ * width)), (w32_mul_l _ channels), w32_add_l. pose proof (Z.mod_pos_bound i channels Hc) as Hr. set (r := i mod channels) in *.
  assert (0 <= i / channels / ow / oh < batch) as Hb.
  { rewrite !Z.div_div by lia. split; [apply Z.div_pos; nia|]. apply Z.div_lt_upper_bound; nia. }
  set (b := i / channels / ow / oh) in *. clearbody b r.
  assert (0 <= ((b * height + ih) * width + iw) * channels + r < batch * height * width * channels) by (by repeat apply flat_index).
  by rewrite w32_small by lia.
Qed.

Lemma max_pool_fits mode float from to g :
  0 < pg_batch g -> 0 < pg_height g -> 0 < pg_width g -> 0 < pg_channels g -> 0 < pg_out_height g -> 0 < pg_out_width g ->
  pg_batch g * pg_height g * pg_width g * pg_channels g <= U32_MAX ->
  pg_batch g * pg_out_height g * pg_out_width g * pg_channels g <= U32_MAX ->
  fits (KMaxPool mode float) (max_pool_spec from to g)
    [{| tu_operand := from; tu_storage := float; tu_elements := pg_batch g * pg_height g * pg_width g * pg_channels g |}]
    {| tu_operand := to; tu_storage := float; tu_elements := pg_batch g * pg_out_height g * pg_out_width g * pg_channels g |}.
Proof.
  intros H0 H1 H2 H3 H4 H5 Hmi Hmo w o st e H. cbn [kernel_access] in H. unfold max_pool_access, max_pool_spec, spec_operand in H.
  cbn in H. rewrite !operand_eta in H. destruct H as (i & Hi & -> & H). autorewrite with w32 in Hi.
  assert (0 < pg_batch g * pg_out_height g * pg_out_width g * pg_channels g) by (by repeat apply Z.mul_pos_pos).
  assert (0 < pg_batch g * pg_height g * pg_width g * pg_channels g) by (by repeat apply Z.mul_pos_pos).
  rewrite w32_small in Hi by lia. destruct w; [by destruct H as (-> & ->)|]. destruct H as (-> & kh & kw & Hkh & Hkw & H). eexists. split; [by left|].
  cbn [tu_operand tu_storage tu_elements load_limit]. split; [done|]. split; [done|].
  destruct H as [-> | (_ & Hh & _ & Hw & ->)]; [lia|].
  apply (pool_index _ _ _ _ (pg_out_height g) (pg_out_width g)); try done; (split; [apply w32_range|done]).
Qed.

(** ** Elementwise kernels *)

(** An operand that broadcasts to the target: zero strides along its axes of extent one. *)
Lemma broadcast_dot dims target cs : positive dims -> Forall2 (fun c d => 0 <= c < d) cs target -> length dims = length target ->
  broadcastable dims target = true ->
  0 <= dot cs (broadcast_stride <$> zip (row_major dims) (zip dims target)) < extent_product dims.
Proof.
  intros Hp. revert target cs. induction Hp as [|d dims Hd Hp IH]; intros [|t target] cs Hc Hl Hb; try done;
    inversion Hc as [|c ? cs' ? Hr Hc']; subst; [simpl; lia|].
  unfold broadcastable in Hb. cbn [zip zip_with forallb] in Hb. apply andb_true_iff in Hb as [Hdt Hb]. simpl in Hl.
  specialize (IH target cs' Hc' ltac:(lia) Hb). cbn [row_major zip zip_with extent_product]. rewrite fmap_cons. cbn [dot broadcast_stride].
  pose proof (extent_product_pos dims Hp). simpl in Hdt. apply orb_true_iff in Hdt as [->%Z.eqb_eq | ->%Z.eqb_eq].
  - destruct (t =? 1) eqn:E; simpl; nia.
  - destruct (Z.eqb_spec t 1); simpl; nia.
Qed.

Lemma broadcast_in_range s target i : shape_wf s -> shape_wf target -> ts_rank s = ts_rank target ->
  broadcastable (ts_dims s) (ts_dims target) = true ->
  0 <= w32 (dot (unravel (ts_dims target) i) (broadcast_stride <$> zip (ts_strides s) (zip (ts_dims s) (ts_dims target)))) < ts_elements s.
Proof.
  intros Hs Ht Hr Hb. rewrite shape_strides by done. destruct Hs as [Hp He Hf]. rewrite He in *.
  pose proof (broadcast_dot (ts_dims s) (ts_dims target) (unravel (ts_dims target) i) Hp) as H.
  specialize (H (unravel_range _ i (sw_positive target Ht)) Hr Hb). by rewrite w32_small by lia.
Qed.

(** One input of an elementwise dispatch: its tensor, its storage and its
    padded strides. *)
Record lane_fits (target : TensorShape) (dims : list Z) (float : Storage) (broadcast : bool) (s : TensorShape) (lane : Storage)
    (strides : list Z) : Prop := {
  lf_storage : ts_storage s = resolve float lane;
  lf_elements : broadcast = false -> ts_elements s = ts_elements target;
  lf_strides : length strides = MAX_RANK;
  lf_index : forall i, 0 <= strided_index dims strides i < ts_elements s;
}.

Lemma broadcast_strides_fit s target dims strides : shape_wf s -> shape_wf target -> ts_rank s = ts_rank target ->
  broadcastable (ts_dims s) (ts_dims target) = true -> padded_dims target = Some dims -> broadcast_strides s target = Some strides ->
  length strides = MAX_RANK /\ forall i, 0 <= strided_index dims strides i < ts_elements s.
Proof.
  intros Hs Ht Hr Hb Hd Hst. split; [by apply pad_leading_inv in Hst as [_ ?]|]. intros i.
  unfold broadcast_strides in Hst. rewrite (padded_index target dims _ strides i (sw_positive _ Ht) Hd Hst).
  - by apply broadcast_in_range.
  - rewrite length_fmap, !length_zip, shape_strides, length_row_major by done. unfold ts_rank in Hr. lia.
Qed.

(** The words of the payload. *)
Lemma operands_at ops rest k o : ops !! k = Some o -> spec_operand (concat (operand_words <$> ops) ++ rest) (2 * k) = o.
Proof.
  revert ops. induction k as [|k IH]; intros [|x ops] H; try done.
  - simpl in H. simplify_eq. by destruct o.
  - replace (2 * S k)%nat with (S (S (2 * k))) by lia. apply (IH ops H).
Qed.

Lemma drop_operands ops rest : drop (2 * length ops) (concat (operand_words <$> ops) ++ rest) = rest.
Proof.
  induction ops as [|x ops IH]; [done|]. cbn [length]. replace (2 * S (length ops))%nat with (S (S (2 * length ops))) by lia. apply IH.
Qed.

Lemma blocks_at n (sts : list (list Z)) rest k st : Forall (fun s => length s = n) sts -> sts !! k = Some st ->
  take n (drop (n * k) (concat sts ++ rest)) = st.
Proof.
  intros H. revert k. induction H as [|s sts Hs H IH]; intros [|k] E; try done; simpl in E.
  - simplify_eq. rewrite Nat.mul_0_r. cbn [drop concat]. rewrite <- app_assoc. by apply take_app_length'.
  - cbn [concat]. rewrite <- app_assoc, Nat.mul_succ_r, Nat.add_comm, <- drop_drop, drop_app_length' by done. by apply IH.
Qed.

Lemma elementwise_words es : length (es_dims es) = MAX_RANK -> Forall (fun s => length s = MAX_RANK) (es_strides es) ->
  let n := length (es_inputs es) in let spec := ElementwiseSpec_words es true in
  (forall k st, es_strides es !! k = Some st ->
     take 6 (drop (3 + 2 * n) spec) = es_dims es /\ take 6 (drop (6 * (1 + k)) (drop (3 + 2 * n) spec)) = st).
Proof.
  intros Hd Hs n spec k st Hk.
  assert (drop (3 + 2 * n) spec = (es_dims es ++ concat (es_strides es)) ++ match es_clamp es with Some (lo, hi) => [lo; hi] | None => [] end) as ->.
  { unfold spec, n, ElementwiseSpec_words. replace (3 + 2 * length (es_inputs es))%nat with (1 + (2 * length (es_inputs es) + 2))%nat by lia.
    rewrite <- (drop_drop _ _ 1), <- drop_drop. cbn [app drop]. by rewrite drop_0, drop_operands. }
  rewrite <- app_assoc. split; [by apply take_app_length'|].
  replace (6 * (1 + k))%nat with (6 + 6 * k)%nat by lia. rewrite <- drop_drop, drop_app_length' by done. by apply blocks_at.
Qed.

Lemma elementwise_operands es broadcast :
  let spec := ElementwiseSpec_words es broadcast in
  nth 0 spec 0 = es_count es /\ spec_operand spec (1 + 2 * length (es_inputs es)) = es_output es /\
  forall k o, es_inputs es !! k = Some o -> spec_operand spec (1 + 2 * k) = o.
Proof.
  cbv zeta. split; [done|]. split.
  - unfold ElementwiseSpec_words. set (rest := (if broadcast then _ else _) ++ _). clearbody rest.
    change (spec_operand (concat (operand_words <$> es_inputs es) ++ operand_words (es_output es) ++ rest) (2 * length (es_inputs es)) = es_output es).
    replace (concat (operand_words <$> es_inputs es) ++ operand_words (es_output es) ++ rest)
      with (concat (operand_words <$> (es_inputs es ++ [es_output es])) ++ rest)
      by (by rewrite fmap_app, concat_app, <- app_assoc).
    apply operands_at. by apply list_lookup_middle.
  - intros k o Hk. by apply (operands_at (es_inputs es)).
Qed.

Lemma elementwise_fits op float broadcast es target shapes :
  es_count es = ts_elements target -> length (es_dims es) = MAX_RANK ->
  length (es_inputs es) = length (lane_inputs op) -> ts_storage target = resolve float (lane_output op) ->
  length (es_strides es) = length shapes ->
  Forall3 (lane_fits target (es_dims es) float broadcast) shapes (lane_inputs op) (es_strides es) ->
  fits (KElementwise op float broadcast) (ElementwiseSpec_words es broadcast) (zip_with tensor_use (es_inputs es) shapes)
    (tensor_use (es_output es) target).
Proof.
  intros Hc Hd Hi Ho Hl H3 w o st e H. destruct (elementwise_operands es broadcast) as (E0 & Eo & Ei).
  cbn [kernel_access] in H. unfold elementwise_access in H. cbv zeta in H. rewrite <- Hi, E0, Eo, Hc in H.
  destruct H as (i & Hr & H). destruct w; [by destruct H as (-> & -> & ->)|].
  destruct H as (k & lane & Hk & -> & -> & ->).
  destruct (Forall3_lookup_m _ _ _ _ k lane H3 Hk) as (s & strides & Hs & Hst & [F1 F2 F3 F4]).
  assert (is_Some (es_inputs es !! k)) as [x Hx] by (apply lookup_lt_is_Some; rewrite Hi; by eapply lookup_lt_Some).
  exists (tensor_use x s). split; [apply list_elem_of_lookup; exists k; rewrite lookup_zip_with; by simplify_option_eq|].
  rewrite (Ei k x Hx). cbn [tensor_use tu_operand tu_storage tu_elements load_limit]. split; [done|]. split; [done|].
  destruct broadcast; [|by rewrite F2].
  destruct (elementwise_words es Hd) with (k := k) (st := strides) as [-> ->]; [|done|apply F4].
  apply Forall_lookup. intros j y Hy. destruct (Forall3_lookup_r _ _ _ _ j y H3 Hy) as (? & ? & _ & _ & F). apply F.
Qed.
