(* ===== verification/VulkanMemory.v ===== *)
(** * Memory of Vulkan programs

    Where the values of a graph live while lower.rs builds its plan, and which
    words its dispatches touch: the invariant of the lowering state, kept by
    every function that the lowering of an operator calls. *)

From Stdlib Require Import ZArith Lia.
From stdpp Require Import prelude list sorting gmap.
From S2P Require Import Prelude TosaTypes TosaNumeric TosaSpecialize TosaView TosaAnalysis VulkanShader VulkanLower VulkanAccess VulkanGeometry.

(** ** Words *)

(** A word of storage: the descriptor and the index of the word in it. *)
Definition word_of (o : Operand) (st : Storage) (e : Z) : Z * Z := (op_buffer o, op_base o + e / lanes st).

(** The words behind a descriptor: a slot's bytes rounded up to words, or the
    arena, which follows the slots. *)
Definition descriptor_words (slots : list SlotPlan) (arena : Z) (buffer : Z) : Z :=
  match slots !! Z.to_nat buffer with
  | Some slot => div_ceil (sp_byte_len slot) 4
  | None => if buffer =? zlen slots then arena / 4 else 0
  end.

Definition in_descriptor (slots : list SlotPlan) (arena : Z) (word : Z * Z) : Prop :=
  0 <= word.1 /\ 0 <= word.2 < descriptor_words slots arena word.1.

(** The word lies in the memory that a key names; the arena is buffer [n]. *)
Definition in_key (n : Z) (k : MemKey) (word : Z * Z) : Prop :=
  match k with
  | MSlot slot => word.1 = slot /\ slot < n
  | MArena offset end_ => word.1 = n /\ offset <= 4 * word.2 < end_
  end.

(** A cast to a type with more lanes in a word. *)
Definition narrowing (kernel : KernelSpec) : bool :=
  match kernel with KCast input output => lanes input <? lanes output | _ => false end.

Lemma div_ceil_bounds n b : 0 < b -> n <= div_ceil n b * b < n + b.
Proof.
  intros Hb. unfold div_ceil. pose proof (Z_div_mod_eq_full n b). pose proof (Z.mod_pos_bound n b Hb).
  destruct (Z.eqb_spec (n mod b) 0); nia.
Qed.

(** Four times the word of an element is at most its byte offset. *)
Lemma word_bytes st e : 0 <= e -> 0 <= 4 * (e / lanes st) <= e * width st.
Proof.
  intros He. pose proof (lanes_pos st). pose proof (width_lanes st) as Hw. pose proof (Z_div_mod_eq_full e (lanes st)).
  pose proof (Z.mod_pos_bound e (lanes st)). pose proof (Z.div_pos e (lanes st)). pose proof (width_pos st). nia.
Qed.

(** Loads of whole groups of [m] lanes, into a tensor of [n] elements. *)
Lemma group_words st m n e : 0 < m -> 0 <= e < div_ceil n m * m -> (lanes st mod m = 0 -> 4 * (e / lanes st) < n * width st) /\
  (forall bytes, n * width st <= bytes -> bytes mod (m * width st) = 0 -> 4 * (e / lanes st) < bytes).
Proof.
  intros Hm He. pose proof (lanes_pos st). pose proof (width_pos st). pose proof (width_lanes st) as Hw.
  pose proof (div_ceil_bounds n m Hm) as Hc. pose proof (word_bytes st e ltac:(lia)) as Hb. split.
  - intros Hd. set (x := e / lanes st) in *. enough (x * lanes st < n) as Hx.
    { replace (4 * x) with (x * lanes st * width st) by (rewrite <- Hw; ring). nia. }
    pose proof (Z_div_mod_eq_full (lanes st) m) as El. rewrite Hd, Z.add_0_r in El.
    assert (0 < lanes st / m) as Hq by nia. set (q := lanes st / m) in *.
    assert (x * q < div_ceil n m) as Hlt.
    { apply Z.mul_lt_mono_pos_r with m; [done|]. pose proof (Z.mul_div_le e (lanes st)). fold x in H1.
      replace (x * q * m) with (lanes st * x) by (rewrite El at 1; ring). lia. }
    assert ((x * q + 1) * m <= div_ceil n m * m) by nia. rewrite El. nia.
  - intros bytes Hn Hd. pose proof (Z_div_mod_eq_full bytes (m * width st)) as Ek. rewrite Hd, Z.add_0_r in Ek.
    set (k := bytes / (m * width st)) in *. set (wd := width st) in *. set (c := div_ceil n m) in *.
    assert (c <= k) as Hk. { apply Z.lt_succ_r, (Z.mul_lt_mono_pos_r m); [done|]. assert (n <= m * k) by nia. nia. }
    assert (e + 1 <= k * m) by nia. pose proof (Z.mul_le_mono_nonneg_r (e + 1) (k * m) wd). lia.
Qed.

Lemma load_words kernel spec o st n e : kernel_access kernel spec false o st e -> 0 <= e < load_limit kernel n ->
  (narrowing kernel = false -> 4 * (e / lanes st) < n * width st) /\
  (forall bytes, n * width st <= bytes -> bytes mod 256 = 0 -> 4 * (e / lanes st) < bytes).
Proof.
  assert (forall st m n e, 0 <= e < div_ceil n m * m -> (m = 1 \/ m = 2 \/ m = 4) ->
    (m <= lanes st -> 4 * (e / lanes st) < n * width st) /\
    (forall bytes, n * width st <= bytes -> bytes mod 256 = 0 -> 4 * (e / lanes st) < bytes)) as Hg.
  { clear. intros st m n e He Hm. destruct (group_words st m n e ltac:(lia) He) as [H1 H2]. split.
    - intros Hl. apply H1. destruct Hm as [-> |[-> | ->]], st; simpl in *; done || lia.
    - intros bytes Hb Hd. apply H2; [done|]. pose proof (width_pos st). apply Z.mod_divide; [lia|].
      apply Z.divide_trans with 256; [|by apply Z.mod_divide]. apply Z.mod_divide; [lia|].
      destruct Hm as [-> |[-> | ->]], st; done. }
  assert (forall st, lanes st = 1 \/ lanes st = 2 \/ lanes st = 4) as Hlanes by (intros []; simpl; lia).
  intros Ha He. destruct kernel as [| | | | |input output| |storage []]; cbn [load_limit narrowing] in *;
    try (destruct (Hg st 1 n e) as [H1 H2]; [unfold div_ceil; rewrite Z.div_1_r, Z.mod_1_r; simpl; lia|lia|];
         split; [intros _; apply H1; apply lanes_pos|done]).
  - destruct Ha as (? & ? & _ & _ & _ & _ & ->). destruct (Hg input (lanes output) n e He (Hlanes _)) as [H1 H2]. split; [|done].
    intros Hl%Z.ltb_ge. by apply H1.
  - destruct Ha as (? & ? & _ & _ & _ & _ & ->). destruct (Hg storage (lanes storage) n e He (Hlanes _)) as [H1 H2]. split; [|done].
    intros _. by apply H1.
Qed.

(** ** What a dispatch touches *)

(** The keys under which a dispatch was recorded. *)
Record logged := { log_reads : list MemKey; log_write : MemKey }.

(** Every word that the dispatch touches lies under its keys, and every word but
    those a narrowing cast loads from a slot lies behind its descriptor. *)
Definition dispatch_ok (slots : list SlotPlan) (arena : Z) (d : DispatchPlan) (log : logged) : Prop :=
  forall w o st e, kernel_access (dp_kernel d) (dp_spec d) w o st e ->
  (exists k, (if w then k = log_write log else k ∈ log_reads log) /\ in_key (zlen slots) k (word_of o st e)) /\
  (w = true \/ narrowing (dp_kernel d) = false \/ op_buffer o = zlen slots -> in_descriptor slots arena (word_of o st e)).

Lemma dispatch_ok_mono slots arena arena' d log : arena <= arena' -> dispatch_ok slots arena d log -> dispatch_ok slots arena' d log.
Proof.
  intros Ha H w o st e Hk. destruct (H w o st e Hk) as [H1 H2]. split; [done|]. intros Hw. destruct (H2 Hw) as [Hb Hr].
  split; [done|]. unfold descriptor_words in *. destruct (slots !! _); [done|]. destruct (_ =? _); [|lia].
  pose proof (Z.div_le_mono arena arena' 4). lia.
Qed.

(** A dispatch that loads what the other stores. *)
Definition conflict (a b : logged) : bool :=
  existsb (fun read => overlaps (log_write a) read) (log_reads b) || existsb (fun read => overlaps read (log_write b)) (log_reads a).

(** No barrier after dispatch [i] up to dispatch [j]. *)
Definition unordered (ds : list DispatchPlan) (i j : nat) : Prop :=
  forall m d, (i < m <= j)%nat -> ds !! m = Some d -> dp_barrier_before d = false.

(** Conflicting dispatches are separated by a barrier; [pre] and [suf] are
    the dispatches before and since the last one, whose keys the state holds. *)
Record ordered (ds : list DispatchPlan) (log : list logged) (written : list (MemKey * nat)) (read : list MemKey) : Prop := {
  ord_split : exists pre suf, log = pre ++ suf /\ written.*1 = log_write <$> suf /\ read = concat (log_reads <$> suf) /\
    (pre = [] \/ exists d, ds !! length pre = Some d /\ dp_barrier_before d = true);
  ord_pairs : forall i j a b, (i < j)%nat -> log !! i = Some a -> log !! j = Some b -> unordered ds i j -> conflict a b = false;
}.

Lemma existsb_false {A} (f : A -> bool) l : existsb f l = false <-> forall x, x ∈ l -> f x = false.
Proof.
  rewrite <- not_true_iff_false, existsb_exists. split.
  - intros H x Hx. apply not_true_iff_false. intros E. apply H. exists x. by rewrite <- list_elem_of_In.
  - intros H (x & Hx & E). rewrite <- list_elem_of_In in Hx. by rewrite H in E.
Qed.

Lemma unordered_app ds d i j : (j < length ds)%nat -> unordered (ds ++ [d]) i j -> unordered ds i j.
Proof. intros Hj H m x Hm Hx. apply (H m); [done|]. by apply lookup_app_l_Some. Qed.

Lemma ordered_push ds log written read kernel spec work reads write value : length ds = length log -> ordered ds log written read ->
  let raw := existsb (fun read => existsb (fun w => overlaps w.1 read) written) reads in
  let war := existsb (fun read => overlaps read write) read in
  let waw := existsb (fun w => overlaps w.1 write && negb (w.2 =? value)%nat) written in
  let barrier := raw || war || waw in
  ordered (ds ++ [{| dp_kernel := kernel; dp_spec := spec; dp_work := work; dp_barrier_before := barrier |}])
    (log ++ [{| log_reads := reads; log_write := write |}])
    ((if barrier then [] else written) ++ [(write, value)]) ((if barrier then [] else read) ++ reads).
Proof.
  intros Hl [(pre & suf & E & Ew & Er & Hb) Hp] raw war waw barrier. set (d := {| dp_barrier_before := barrier |}).
  set (new := {| log_reads := reads; log_write := write |}). split.
  - destruct barrier eqn:Eb.
    + exists log, [new]. split; [done|]. split; [done|]. split; [simpl; by rewrite app_nil_r|].
      right. exists d. split; [|done]. rewrite <- Hl. by apply list_lookup_middle.
    + exists pre, (suf ++ [new]). split; [by rewrite E, app_assoc|]. split; [by rewrite !fmap_app, Ew|].
      split; [rewrite fmap_app, concat_app, Er; simpl; by rewrite app_nil_r|].
      destruct Hb as [|(x & Hx & Hb)]; [by left|]. right. exists x. split; [by apply lookup_app_l_Some|done].
  - intros i j a b Hij Ha Hb' Hu. assert (j < length (log ++ [new]))%nat as Hjl by (by eapply lookup_lt_Some).
    rewrite length_app in Hjl. simpl in Hjl.
    assert (i < length log)%nat as Hi by lia. rewrite lookup_app_l in Ha by done.
    destruct (decide (j < length log)%nat) as [Hj|Hj].
    { rewrite lookup_app_l in Hb' by done. apply (Hp i j); try done. apply (unordered_app ds d); [lia|done]. }
    assert (j = length log) as -> by lia. rewrite list_lookup_middle in Hb' by done. injection Hb' as <-.
    assert (barrier = false) as Eb. { apply (Hu (length log) d); [lia|]. rewrite <- Hl. by apply list_lookup_middle. }
    assert (a ∈ suf) as Hin.
    { destruct (decide (i < length pre)%nat) as [Hip|Hip].
      - destruct Hb as [-> |(x & Hx & Hb)]; [simpl in Hip; lia|].
        assert (dp_barrier_before x = false); [|congruence]. apply (Hu (length pre) x); [rewrite E, length_app; lia|]. by apply lookup_app_l_Some.
      - rewrite E, lookup_app_r in Ha by lia. by eapply list_elem_of_lookup_2. }
    unfold barrier in Eb. apply orb_false_iff in Eb as [[Hraw Hwar]%orb_false_iff _]. unfold conflict. apply orb_false_iff. split.
    + apply existsb_false. intros r Hr. pose proof (proj1 (existsb_false _ _) Hraw r Hr) as Hraw'. cbv beta in Hraw'.
      assert (log_write a ∈ written.*1) as (w & Hw & Hin')%list_elem_of_fmap by (rewrite Ew; apply list_elem_of_fmap; eauto).
      rewrite Hw. by apply (proj1 (existsb_false _ _) Hraw' w).
    + apply existsb_false. intros r Hr. apply (proj1 (existsb_false _ _) Hwar r). rewrite Er. apply list_elem_of_In, in_concat.
      exists (log_reads a). split; apply list_elem_of_In; [apply list_elem_of_fmap; eauto|done].
Qed.

(** ** The invariant *)

Lemma static_dims_spec dimensions dims elements dims' elements' : static_dims dimensions dims elements = Ok (dims', elements') ->
  dims' = dims ++ dimensions /\ positive dimensions /\ elements' = elements * extent_product dimensions.
Proof.
  revert dims elements. induction dimensions as [|d ds IH]; intros dims elements H; cbn [static_dims extent_product] in *.
  { simplify_eq. by rewrite app_nil_r, Z.mul_1_r. }
  destruct (Z.ltb_spec 0 d); [|done]. unfold checked_mul in H. destruct (Z.leb_spec (elements * d) U64_MAX); [|done].
  apply IH in H as (-> & Hp & ->). rewrite <- app_assoc. split; [done|]. split; [by constructor|]. lia.
Qed.

Section Invariant.
Context (g : LoweringGraph).

Lemma fresh_shape_wf v s : fresh_shape g v = Some (Ok s) -> shape_wf s.
Proof.
  unfold fresh_shape. destruct (analysis_value _ v) as [a|]; [|done]. simpl. destruct (av_kind a) as [t|]; [|done].
  destruct (admitted_dtype _); [|done]. simpl. destruct (Tensor_rank t) as [rank|]; [|done]. simpl. destruct (_ <? rank); [done|].
  destruct (static_dims _ _ _) as [[dims elements]|] eqn:E; [|done]. apply static_dims_spec in E as (-> & Hp & ->).
  unfold try_from. destruct (Z.leb_spec (1 * extent_product (Tensor_dimensions t)) U32_MAX); [|done]. simpl. intros [= <-].
  split; [done|simpl; lia|simpl; lia].
Qed.

(** The memory of a location holds [bytes] bytes. *)
Definition holds (l : Lowering) (location : Location) (bytes : Z) : Prop :=
  match location with
  | LSlot slot => 0 <= slot /\ exists s, lw_slots l !! Z.to_nat slot = Some s /\ bytes <= sp_byte_len s
  | LRegion index => exists r, lw_regions l !! index = Some r /\ bytes <= rg_bytes r
  end.

Record region_ok (arena : Z) (r : Region) : Prop := {
  ro_offset : 0 <= rg_offset r;
  ro_aligned : rg_offset r mod 256 = 0;
  ro_size : 0 <= rg_bytes r;
  ro_bytes : rg_bytes r mod 256 = 0;
  ro_end : region_end r <= arena;
}.

(** The upload of a constant stays inside the arena. *)
Definition constant_ok (arena : Z) (c : ConstantPlan) : Prop := 0 <= cp_offset c /\ cp_offset c + zlen (cp_bytes c) <= arena.

Record lowering_ok (l : Lowering) : Prop := {
  lo_shapes : forall v s, lw_shapes l !! v = Some s -> fresh_shape g v = Some (Ok s);
  lo_locations : forall v loc, lw_locations l !! v = Some loc -> exists s, fresh_shape g v = Some (Ok s) /\ holds l loc (ts_byte_len s);
  lo_regions : Forall (region_ok (lw_arena_bytes l)) (lw_regions l);
  lo_arena : 0 <= lw_arena_bytes l < 4 * (U32_MAX + 1) /\ lw_arena_bytes l mod 4 = 0;
  lo_slots : zlen (lw_slots l) <= U32_MAX;
  lo_log : exists log, Forall2 (dispatch_ok (lw_slots l) (lw_arena_bytes l)) (lw_dispatches l) log /\
    ordered (lw_dispatches l) log (lw_written l) (lw_read l);
  lo_constants : Forall (constant_ok (lw_arena_bytes l)) (lw_constants l);
}.

(** Slots stay, regions keep their place. *)
Record extends (l l' : Lowering) : Prop := {
  ex_slots : lw_slots l' = lw_slots l;
  ex_regions : forall i r, lw_regions l !! i = Some r ->
    exists r', lw_regions l' !! i = Some r' /\ rg_offset r' = rg_offset r /\ rg_bytes r' = rg_bytes r;
}.

#[global] Instance extends_preorder : PreOrder extends.
Proof.
  split.
  - intros l. split; [done|]. eauto.
  - intros l1 l2 l3 [S1 R1] [S2 R2]. split; [congruence|]. intros i r Hr. destruct (R1 i r Hr) as (r' & Hr' & ? & ?).
    destruct (R2 i r' Hr') as (r'' & Hr'' & ? & ?). exists r''. split; [done|]. split; congruence.
Qed.

Lemma holds_extends l l' loc b : extends l l' -> holds l loc b -> holds l' loc b.
Proof.
  intros [S R]. destruct loc as [slot|index]; simpl; [by rewrite S|]. intros (r & Hr & Hb). destruct (R index r Hr) as (r' & Hr' & _ & E).
  exists r'. split; [done|]. by rewrite E.
Qed.

(** The step keeps the invariant. *)
Definition keeps (l l' : Lowering) : Prop := lowering_ok l' /\ extends l l'.

Lemma keeps_trans l l' l'' : keeps l l' -> keeps l' l'' -> keeps l l''.
Proof. intros [_ E1] [H E2]. split; [done|]. by etrans. Qed.

Lemma keeps_refl l : lowering_ok l -> keeps l l.
Proof. intros H. by split. Qed.

(** ** Shapes and allocation *)

Lemma shape_of_keeps v l s l' : lowering_ok l -> shape_of g v l = Some (Ok (s, l')) -> keeps l l' /\ fresh_shape g v = Some (Ok s).
Proof.
  intros Hok. unfold shape_of. destruct (lw_shapes l !! v) as [x|] eqn:E.
  { intros [= <- <-]. split; [by apply keeps_refl|]. by eapply lo_shapes. }
  destruct (fresh_shape g v) as [[x|]|] eqn:F; [|done..]. intros [= <- <-]. split; [|done]. destruct Hok. split; [|by split; eauto].
  split; try done. simpl. intros u y. rewrite lookup_insert_Some. intros [[<- <-] | [_ ?]]; [done|eauto].
Qed.

Lemma float_shape_keeps v l s l' : lowering_ok l -> float_shape g v l = Some (Ok (s, l')) -> keeps l l' /\ fresh_shape g v = Some (Ok s).
Proof.
  intros Hok. unfold float_shape. destruct (shape_of g v l) as [[[x l1]|]|] eqn:E; [|done..]. destruct (negb _); [done|].
  intros [= <- <-]. by apply shape_of_keeps.
Qed.

Lemma convertible_float_shape_keeps v l s l' : lowering_ok l -> convertible_float_shape g v l = Some (Ok (s, l')) ->
  keeps l l' /\ fresh_shape g v = Some (Ok s).
Proof.
  intros Hok. unfold convertible_float_shape. destruct (shape_of g v l) as [[[x l1]|]|] eqn:E; [|done..]. destruct (negb _); [done|].
  intros [= <- <-]. by apply shape_of_keeps.
Qed.

Lemma typed_shape_keeps v dtype l s l' : lowering_ok l -> typed_shape g v dtype l = Some (Ok (s, l')) ->
  keeps l l' /\ fresh_shape g v = Some (Ok s) /\ ts_dtype s = dtype.
Proof.
  intros Hok. unfold typed_shape. destruct (shape_of g v l) as [[[x l1]|]|] eqn:E; [|done..].
  destruct (Z.eqb_spec (ts_dtype x) dtype); [|done]. intros [= <- <-]. apply shape_of_keeps in E; [|done]. by destruct E.
Qed.

Lemma first_fit_spec regions bytes offset arena : Forall (region_ok arena) regions ->
  first_fit regions bytes = Some offset -> 0 <= offset /\ offset mod 256 = 0.
Proof.
  intros Hr H. unfold first_fit in H. apply find_some in H as [H _]. apply list_elem_of_In in H.
  rewrite merge_sort_Permutation in H. apply elem_of_cons in H as [-> | H]; [done|].
  apply list_elem_of_fmap in H as (r & -> & Hin). rewrite Forall_forall in Hr. destruct (Hr r Hin) as [H0 H1 Hb H2 H3].
  unfold region_end in *. split; [lia|]. by rewrite Z.add_mod, H1, H2 by done.
Qed.

Lemma round_up bytes : let size := div_ceil (Z.max bytes 1) ARENA_ALIGNMENT * ARENA_ALIGNMENT in
  bytes <= size /\ 0 <= size /\ size mod 256 = 0.
Proof.
  cbv zeta. pose proof (div_ceil_bounds (Z.max bytes 1) ARENA_ALIGNMENT ltac:(done)). split; [lia|]. split; [lia|]. by apply Z.mod_mul.
Qed.

Lemma multiple_of_4 x : x mod 256 = 0 -> x mod 4 = 0.
Proof. intros H. apply Z.mod_divide; [done|]. apply Z.divide_trans with 256; [by exists 64|by apply Z.mod_divide]. Qed.

(** A new region at the end keeps everything. *)
Lemma push_region_keeps l r arena : lowering_ok l -> region_ok arena r -> lw_arena_bytes l <= arena < 4 * (U32_MAX + 1) -> arena mod 4 = 0 ->
  keeps l (lw_set_regions (lw_regions l ++ [r]) arena l).
Proof.
  intros [H1 H2 H3 [H4 H4'] H5 (log & H6 & H7) H8] Hr Ha Ha4.
  assert (extends l (lw_set_regions (lw_regions l ++ [r]) arena l)) as He.
  { split; [done|]. intros i x Hx. exists x. split; [by apply lookup_app_l_Some|done]. }
  split; [|done]. split; try done.
  - intros v loc Hv. destruct (H2 v loc Hv) as (s & Hs & Hh). exists s. split; [done|]. by eapply holds_extends.
  - apply Forall_app. split; [|by constructor]. eapply Forall_impl; [done|]. intros x [X1 X2 X3 X4 X5]. split; try done. simpl. lia.
  - simpl. lia.
  - exists log. split; [|done]. eapply Forall2_impl; [done|]. intros d x. apply dispatch_ok_mono. simpl. lia.
  - eapply Forall_impl; [done|]. unfold constant_ok. simpl. intros c Hc. lia.
Qed.

Lemma allocate_keeps bytes live_end written_at l index l' : lowering_ok l ->
  allocate_region_written_at bytes live_end written_at l = Some (Ok (index, l')) -> keeps l l' /\ holds l' (LRegion index) bytes.
Proof.
  intros Hok. unfold allocate_region_written_at. destruct (round_up bytes) as (Hs1 & Hs2 & Hs3).
  set (size := div_ceil _ _ * _) in *.
  destruct (first_fit _ size) as [offset|] eqn:Ef; [|done]. unfold checked_add. simpl.
  destruct (offset + size <=? U64_MAX); [|done]. simpl. destruct (Z.ltb_spec U32_MAX ((offset + size) / 4)) as [|Hle]; [done|].
  intros [= <- <-]. apply (first_fit_spec _ _ _ (lw_arena_bytes l)) in Ef as [Ho Ho256]; [|apply Forall_forall; intros x [_ Hx]%list_elem_of_filter; by apply (proj1 (Forall_forall _ _) (lo_regions l Hok))].
  assert ((offset + size) mod 256 = 0) as He by (by rewrite Z.add_mod, Ho256, Hs3).
  assert (offset + size < 4 * (U32_MAX + 1)) by (pose proof (Z_div_mod_eq_full (offset + size) 4); pose proof (Z.mod_pos_bound (offset + size) 4); lia).
  pose proof (lo_arena l Hok) as [Ha Ha4]. split.
  - apply push_region_keeps; [done| |lia|].
    + split; simpl; try done. unfold region_end. simpl. lia.
    + destruct (Z.max_spec (lw_arena_bytes l) (offset + size)) as [[_ ->]|[_ ->]]; [by apply multiple_of_4|done].
  - eexists. split; [by apply list_lookup_middle|done].
Qed.

(** ** Locations *)

Lemma insert_location_keeps l v loc s : lowering_ok l -> fresh_shape g v = Some (Ok s) -> holds l loc (ts_byte_len s) ->
  keeps l (insert_location v loc l).
Proof.
  intros [H1 H2 H3 H4 H5 H6 H7] Hs Hh. split; [|by split; eauto]. split; try done. simpl. intros u y. rewrite lookup_insert_Some.
  intros [[<- <-] | [_ Hu]]; [by exists s|]. apply (H2 u y Hu).
Qed.

Lemma set_constants_keeps l c : lowering_ok l -> constant_ok (lw_arena_bytes l) c -> keeps l (set_constants (lw_constants l ++ [c]) l).
Proof. intros [H1 H2 H3 H4 H5 H6 H7] Hc. split; [|by split; eauto]. split; try done. apply Forall_app. by split; [|constructor]. Qed.

Lemma location_holds l v loc s : lowering_ok l -> lw_locations l !! v = Some loc -> fresh_shape g v = Some (Ok s) -> holds l loc (ts_byte_len s).
Proof. intros H Hl Hs. destruct (lo_locations l H v loc Hl) as (s' & Hs' & Hh). congruence. Qed.

Lemma input_location_keeps v l loc l' : lowering_ok l -> input_location g v l = Some (Ok (loc, l')) ->
  keeps l l' /\ forall s, fresh_shape g v = Some (Ok s) -> holds l' loc (ts_byte_len s).
Proof.
  intros Hok. unfold input_location. destruct (lw_locations l !! v) as [x|] eqn:E.
  { intros [= <- <-]. split; [by apply keeps_refl|]. intros s Hs. by eapply location_holds. }
  destruct (shape_of g v l) as [[[s l1]|]|] eqn:Es; [|done..]. apply shape_of_keeps in Es as [K1 Hs]; [|done].
  destruct (serialized_constant _ v) as [c|]; [|done]. simpl. destruct c as [bytes|]; [|done]. simpl.
  destruct (Z.eqb_spec (zlen bytes) (ts_byte_len s)) as [Hb|]; [|done]. simpl.
  destruct (allocate_region_written_at _ _ _ l1) as [[[index l2]|]|] eqn:Ea; [|done..]. apply allocate_keeps in Ea as [K2 Hh]; [|apply K1].
  destruct (lw_regions l2 !! index) as [r|] eqn:Er; [|done]. simpl. intros [= <- <-]. set (cs := lw_constants l2 ++ _).
  assert (keeps l2 (set_constants cs l2)) as K3.
  { apply set_constants_keeps; [apply K2|]. destruct Hh as (r' & Hr' & Hle). rewrite Er in Hr'. injection Hr' as <-.
    destruct (proj1 (Forall_lookup _ _) (lo_regions l2 (proj1 K2)) index r Er) as [R1 _ _ _ R5]. unfold constant_ok, region_end in *. simpl. lia. }
  assert (keeps (set_constants cs l2) (insert_location v (LRegion index) (set_constants cs l2))) as K4.
  { apply insert_location_keeps with s; [apply K3|done|]. by eapply holds_extends; [apply K3|]. }
  split; [by eapply keeps_trans, keeps_trans, keeps_trans|].
  intros s' Hs'. rewrite Hs in Hs'. injection Hs' as <-. eapply holds_extends; [apply (keeps_trans _ _ _ K3 K4)|done].
Qed.

Lemma output_location_keeps v l loc l' : lowering_ok l -> output_location g v l = Some (Ok (loc, l')) ->
  keeps l l' /\ forall s, fresh_shape g v = Some (Ok s) -> holds l' loc (ts_byte_len s).
Proof.
  intros Hok. unfold output_location. destruct (lw_locations l !! v) as [x|] eqn:E.
  { intros [= <- <-]. split; [by apply keeps_refl|]. intros s Hs. by eapply location_holds. }
  destruct (shape_of g v l) as [[[s l1]|]|] eqn:Es; [|done..]. apply shape_of_keeps in Es as [K1 Hs]; [|done].
  unfold allocate_region. destruct (allocate_region_written_at _ _ _ l1) as [[[index l2]|]|] eqn:Ea; [|done..].
  apply allocate_keeps in Ea as [K2 Hh]; [|apply K1]. intros [= <- <-].
  assert (keeps l2 (insert_location v (LRegion index) l2)) as K3 by (apply insert_location_keeps with s; [apply K2|done..]).
  split; [by eapply keeps_trans, keeps_trans|].
  intros s' Hs'. rewrite Hs in Hs'. injection Hs' as <-. eapply holds_extends; [apply K3|done].
Qed.

(** ** Dispatches *)

(** The tensor at a location. *)
Definition placed (l : Lowering) (loc : Location) (u : TensorUse) : Prop :=
  operand_at l loc = Some (tu_operand u) /\ holds l loc (tu_elements u * width (tu_storage u)).

(** A word of a placed tensor. *)
Lemma placed_word l loc u k x : lowering_ok l -> placed l loc u -> mem_key l loc = Some k -> 0 <= x ->
  (forall bytes, tu_elements u * width (tu_storage u) <= bytes -> bytes mod 256 = 0 -> 4 * x < bytes) ->
  in_key (zlen (lw_slots l)) k (op_buffer (tu_operand u), op_base (tu_operand u) + x) /\
  (4 * x < tu_elements u * width (tu_storage u) \/ op_buffer (tu_operand u) = zlen (lw_slots l) ->
   in_descriptor (lw_slots l) (lw_arena_bytes l) (op_buffer (tu_operand u), op_base (tu_operand u) + x)).
Proof.
  intros Hok [Ho Hh] Hk Hx H256. destruct loc as [slot|index]; simpl in *.
  - injection Ho as Ho. rewrite <- Ho. injection Hk as <-. destruct Hh as (Hs & s & Hl & Hb). simpl. apply lookup_lt_Some in Hl as Hlt. split.
    + unfold zlen. lia.
    + intros [Hw|Hw]; simpl in Hw; [|unfold zlen in Hw; lia]. split; [done|]. unfold descriptor_words. simpl. rewrite Hl. pose proof (div_ceil_bounds (sp_byte_len s) 4 ltac:(lia)). lia.
  - destruct Hh as (r & Hr & Hb). rewrite Hr in Ho, Hk. simpl in Ho, Hk. injection Ho as Ho. rewrite <- Ho. injection Hk as <-.
    destruct (proj1 (Forall_lookup _ _) (lo_regions l Hok) index r Hr) as [R1 R2 R3 R4 R5]. unfold region_end in *.
    pose proof (lo_arena l Hok) as [Ha Ha4]. pose proof (lo_slots l Hok). specialize (H256 _ Hb R4).
    apply multiple_of_4 in R2. pose proof (Z_div_mod_eq_full (rg_offset r) 4). simpl.
    rewrite !w32_small by (unfold zlen in *; lia). split; [lia|]. intros Hw. split; simpl; [unfold zlen; lia|].
    unfold descriptor_words. assert (lw_slots l !! Z.to_nat (zlen (lw_slots l)) = None) as ->.
    { apply lookup_ge_None. unfold zlen. lia. }
    rewrite Z.eqb_refl. pose proof (Z_div_mod_eq_full (lw_arena_bytes l) 4). lia.
Qed.

Lemma recorded_ok l kernel spec work barrier reads writes uses u keys key : lowering_ok l -> Forall2 (placed l) reads uses -> placed l writes u ->
  fits kernel spec uses u -> mapM (mem_key l) reads = Some keys -> mem_key l writes = Some key ->
  dispatch_ok (lw_slots l) (lw_arena_bytes l)
    {| dp_kernel := kernel; dp_spec := spec; dp_work := work; dp_barrier_before := barrier |} {| log_reads := keys; log_write := key |}.
Proof.
  intros Hok Hr Hw Hf Hkeys Hkey w o st e Ha. pose proof (Hf w o st e Ha) as H. simpl in *. destruct w.
  - destruct H as (-> & -> & He). pose proof (word_bytes (tu_storage u) e ltac:(lia)) as Hb. pose proof (width_pos (tu_storage u)).
    assert (4 * (e / lanes (tu_storage u)) < tu_elements u * width (tu_storage u)) as Hlt by nia.
    destruct (placed_word l writes u key (e / lanes (tu_storage u)) Hok Hw Hkey) as [H1 H2]; [lia|lia|].
    split; [by exists key|]. intros _. apply H2. by left.
  - destruct H as (r & Hin & -> & -> & He). apply list_elem_of_lookup in Hin as (i & Hi).
    destruct (Forall2_lookup_r _ _ _ i r Hr Hi) as (loc & Hloc & Hp).
    apply mapM_Some in Hkeys. destruct (Forall2_lookup_l _ _ _ i loc Hkeys Hloc) as (k & Hk & Hm).
    destruct (load_words kernel spec _ _ (tu_elements r) e Ha He) as [L1 L2].
    pose proof (word_bytes (tu_storage r) e ltac:(lia)) as Hb.
    destruct (placed_word l loc r k (e / lanes (tu_storage r)) Hok Hp Hm) as [H1 H2]; [lia|done|].
    split; [exists k; split; [by eapply list_elem_of_lookup_2|done]|]. intros [|[Hn|Hn]]; [done| |by apply H2; right]. apply H2. left. apply L1, Hn.
Qed.

Lemma record_keeps l kernel spec work reads uses writes u value l' : lowering_ok l -> Forall2 (placed l) reads uses -> placed l writes u ->
  fits kernel spec uses u -> record_dispatch kernel spec work reads writes value l = Some l' -> keeps l l'.
Proof.
  intros Hok Hr Hw Hf. unfold record_dispatch. destruct (mapM (mem_key l) reads) as [keys|] eqn:Ek; [|done]. simpl.
  destruct (mem_key l writes) as [key|] eqn:Ew; [|done]. simpl. intros [= <-]. split; [|by split; eauto].
  set (barrier := _ || _). pose proof (recorded_ok l kernel spec work barrier reads writes uses u keys key Hok Hr Hw Hf Ek Ew) as Hd.
  destruct Hok as [H1 H2 H3 H4 H5 (log & H6 & H7) H8]. split; try done. exists (log ++ [{| log_reads := keys; log_write := key |}]). split.
  - apply Forall2_app; [done|]. by constructor.
  - apply ordered_push; [|done]. by eapply Forall2_length.
Qed.
End Invariant.
