(* ===== verification/VulkanKeeps.v ===== *)
(** * Every lowering function keeps the memory invariant

    For each function of lower.rs that changes the lowering state: its accepted
    results keep [lowering_ok], because the dispatch it records stays within the
    tensors it names. *)

From Stdlib Require Import ZArith Lia.
From stdpp Require Import prelude list sorting gmap.
From S2P Require Import Prelude TosaTypes TosaNumeric TosaSpecialize TosaView TosaAttrCheck TosaAnalysis TosaCapability VulkanShader VulkanLower VulkanAccess VulkanGeometry VulkanMemory.

Section Keeps.
Context (g : LoweringGraph).

Lemma placed_tensor l loc o s : operand_at l loc = Some o -> holds l loc (ts_byte_len s) -> placed l loc (tensor_use o s).
Proof. intros Ho Hh. split; [done|]. simpl. by rewrite <- byte_len_width. Qed.

Lemma same_bytes (a b : TensorShape) : ts_dtype a = ts_dtype b -> ts_elements a = ts_elements b -> ts_byte_len a = ts_byte_len b.
Proof. intros Hd He. unfold ts_byte_len. by rewrite Hd, He. Qed.

(** ** Automation: follow the state through a lowering function *)

Ltac carry K :=
  match type of K with
  | keeps _ ?l ?l' =>
      repeat match goal with H : holds l ?loc ?b |- _ => apply (holds_extends l l' loc b (proj2 K)) in H end;
      let Hok := fresh "Hok" in pose proof (proj1 K) as Hok
  end.

Ltac follow_step :=
  match goal with
  | Hok : lowering_ok g ?l, E : shape_of g ?v ?l = Some (Ok (?s, ?l')) |- _ =>
      let K := fresh "K" in let F := fresh "F" in apply (shape_of_keeps g v l s l' Hok) in E as [K F]; carry K
  | Hok : lowering_ok g ?l, E : float_shape g ?v ?l = Some (Ok (?s, ?l')) |- _ =>
      let K := fresh "K" in let F := fresh "F" in apply (float_shape_keeps g v l s l' Hok) in E as [K F]; carry K
  | Hok : lowering_ok g ?l, E : convertible_float_shape g ?v ?l = Some (Ok (?s, ?l')) |- _ =>
      let K := fresh "K" in let F := fresh "F" in apply (convertible_float_shape_keeps g v l s l' Hok) in E as [K F]; carry K
  | Hok : lowering_ok g ?l, E : typed_shape g ?v ?t ?l = Some (Ok (?s, ?l')) |- _ =>
      let K := fresh "K" in let F := fresh "F" in let T := fresh "T" in
      apply (typed_shape_keeps g v t l s l' Hok) in E as (K & F & T); carry K
  | Hok : lowering_ok g ?l, E : input_location g ?v ?l = Some (Ok (?loc, ?l')), F : fresh_shape g ?v = Some (Ok ?s) |- _ =>
      let K := fresh "K" in let H := fresh "Hold" in
      apply (input_location_keeps g v l loc l' Hok) in E as [K H]; specialize (H s F); carry K
  | Hok : lowering_ok g ?l, E : output_location g ?v ?l = Some (Ok (?loc, ?l')), F : fresh_shape g ?v = Some (Ok ?s) |- _ =>
      let K := fresh "K" in let H := fresh "Hold" in
      apply (output_location_keeps g v l loc l' Hok) in E as [K H]; specialize (H s F); carry K
  end.

Ltac chain := repeat first [assumption | eapply keeps_trans; [eassumption|]].

(** Split the code of [H] into its successful path. *)
Ltac path H :=
  repeat (match type of H with
          | match ?m with _ => _ end = _ => destruct m eqn:?; try discriminate H
          | ?m ≫= _ = _ => let x := fresh "x" in let E := fresh "E" in apply bind_Some in H as (x & E & H)
          | Some (Ok _) = Some (Ok _) => injection H as H; try subst
          end; cbn [ok_or fst snd] in *).

Ltac follow H :=
  path H; bool_to_prop;
  repeat match goal with
         | E : (_ =? _)%nat = true |- _ => apply Nat.eqb_eq in E
         | E : bool_decide _ = true |- _ => apply bool_decide_eq_true in E
         | E : bool_decide _ = false |- _ => apply bool_decide_eq_false in E
         | u : unit |- _ => destruct u
         end;
  repeat follow_step.

Lemma extend_region_keeps index live_end l l' : lowering_ok g l -> extend_region index live_end l = Some l' -> keeps g l l'.
Proof.
  intros [H1 H2 H3 H4 H5 H6 H7]. unfold extend_region. destruct (lw_regions l !! index) as [r|] eqn:E; [|done]. simpl. intros [= <-].
  set (r' := {| rg_live_end := _ |}). assert (extends l (lw_set_regions (<[index := r']> (lw_regions l)) (lw_arena_bytes l) l)) as X.
  { split; [done|]. intros i x Hx. simpl. destruct (decide (i = index)) as [-> |].
    - exists r'. rewrite list_lookup_insert_eq by (by eapply lookup_lt_Some). simplify_eq. done.
    - exists x. by rewrite list_lookup_insert_ne. }
  split; [|done]. split; try done.
  - intros v loc Hv. destruct (H2 v loc Hv) as (s & Hs & Hh). exists s. split; [done|]. by eapply holds_extends.
  - simpl. apply Forall_insert; [done|]. destruct (proj1 (Forall_lookup _ _) H3 index r E). by split.
Qed.

(** The dispatch at the end of a path, with the tensors it reads and writes. *)
Ltac recorded uses target :=
  chain;
  match goal with
  | E : record_dispatch _ _ _ _ _ _ ?l = Some ?l' |- keeps g ?l ?l' =>
      refine (record_keeps g l _ _ _ _ uses _ target _ l' _ _ _ _ E); clear E;
      [assumption|repeat first [apply Forall2_nil_2 | apply Forall2_cons_2; [first [by apply placed_tensor | by split]|]]|by apply placed_tensor|]
  end.

Lemma fits_target kernel spec uses o s s' : ts_dtype s = ts_dtype s' -> ts_elements s = ts_elements s' ->
  fits kernel spec uses (tensor_use o s) -> fits kernel spec uses (tensor_use o s').
Proof. intros Hd He. unfold tensor_use, ts_storage. by rewrite Hd, He. Qed.

Lemma lower_copy_keeps inputs output n l l' : lowering_ok g l -> lower_copy g inputs output n l = Some (Ok l') -> keeps g l l'.
Proof.
  intros Hok H. unfold lower_copy in H. follow H.
  - assert (keeps g l3 x0) as K2. { destruct l2; [injection E0 as <-; by apply keeps_refl|by eapply extend_region_keeps]. }
    carry K2. chain. apply insert_location_keeps with t0; [done..|]. by rewrite <- (same_bytes t t0).
  - by chain.
  - recorded [tensor_use x2 t] (tensor_use x3 t0). apply (fits_target _ _ _ _ t); [done..|]. apply copy_fits; [done|]. by eapply shape_u32, fresh_shape_wf.
Qed.

Lemma lower_reshape_keeps inputs output l l' : lowering_ok g l -> lower_reshape g inputs output l = Some (Ok l') -> keeps g l l'.
Proof.
  intros Hok H. unfold lower_reshape in H. follow H. chain. by eapply lower_copy_keeps.
Qed.

(** ** Strided copies *)

Lemma lower_move_keeps input output storage geometry s t l l' : lowering_ok g l ->
  fresh_shape g input = Some (Ok s) -> fresh_shape g output = Some (Ok t) ->
  (forall from to, fits (KMove storage false) (move_spec from to geometry false) [tensor_use from s] (tensor_use to t)) ->
  lower_move g input output storage geometry l = Some (Ok l') -> keeps g l l'.
Proof.
  intros Hok Hs Ht Hf H. unfold lower_move in H. follow H. recorded [tensor_use x s] (tensor_use x0 t). apply Hf.
Qed.

(** Iterations over a whole tensor visit its own elements. *)
Lemma own_index s dims strides i : shape_wf s -> padded_dims s = Some dims -> pad_leading (ts_strides s) 0 = Some strides ->
  0 <= i < ts_elements s -> w32 (strided_index dims strides i + 0) = i.
Proof.
  intros Hs Hd Hst Hi. rewrite (padded_index s dims _ strides i (sw_positive _ Hs) Hd Hst).
  - rewrite shape_strides by done. destruct Hs as [Hp He Hf]. rewrite He in *.
    rewrite Z.add_0_r, unravel_dot, !w32_small by (done || rewrite ?w32_small by lia; lia). done.
  - rewrite shape_strides, length_row_major by done. done.
Qed.

Lemma total_lookup_mapM (xs : list Z) perms ys : mapM (fun p => xs !! p) perms = Some ys -> ys = (fun p => xs !!! p) <$> perms.
Proof.
  intros H%mapM_Some. induction H as [|p y perms ys Hy H IH]; [done|]. rewrite fmap_cons, <- IH. f_equal.
  symmetry. by apply list_lookup_total_correct.
Qed.

Lemma permuted_target (source target : list Z) (perms : list nat) : length target = length perms ->
  (forall k p, perms !! k = Some p -> exists t, target !! k = Some t /\ source !! p = Some t) ->
  target = (fun p => source !!! p) <$> perms.
Proof.
  intros Hl H. apply list_eq. intros k. rewrite list_lookup_fmap. destruct (perms !! k) as [p|] eqn:E.
  - destruct (H k p E) as (t & Ht & Hs). rewrite Ht. simpl. f_equal. symmetry. by apply list_lookup_total_correct.
  - apply lookup_ge_None in E. apply lookup_ge_None. lia.
Qed.

Lemma transpose_fits source target perms ins dims in_strides out_strides from to : shape_wf source -> shape_wf target ->
  length perms = ts_rank source -> ts_rank target = ts_rank source -> ts_dtype source = ts_dtype target ->
  perms_match (length perms) (ts_dims source) (ts_dims target) perms 0 (replicate (length perms) false) = Some (Ok tt) ->
  mapM (fun perm => ts_strides source !! perm) perms = Some ins -> padded_dims target = Some dims ->
  pad_leading ins 0 = Some in_strides -> pad_leading (ts_strides target) 0 = Some out_strides ->
  fits (KMove (ts_storage source) false) (move_spec from to
    {| mg_count := ts_elements target; mg_dims := dims; mg_in_strides := in_strides; mg_in_offset := 0;
       mg_out_strides := out_strides; mg_out_offset := 0 |} false) [tensor_use from source] (tensor_use to target).
Proof.
  intros Hs Ht Hl Hr Hd Hm Hins Hdims Hpi Hpo. pose proof (pad_leading_inv _ _ _ Hdims) as [_ L1].
  pose proof (pad_leading_inv _ _ _ Hpi) as [_ L2]. pose proof (pad_leading_inv _ _ _ Hpo) as [_ L3].
  replace (tensor_use to target) with {| tu_operand := to; tu_storage := ts_storage source; tu_elements := ts_elements target |}
    by (unfold tensor_use, ts_storage; by rewrite Hd).
  apply move_fits; [done..|]. cbn [mg_count mg_dims mg_in_strides mg_in_offset mg_out_strides mg_out_offset]. intros i Hi. split; cycle 1.
  { rewrite (own_index target) by done. lia. }
  apply perms_match_spec in Hm as (Hnd & Hf & Hm); [|by rewrite length_replicate].
  assert (perms ≡ₚ seq 0 (length (ts_dims source))) as Hperm.
  { apply nodup_below_permutation; [done| |done]. eapply Forall_impl; [exact Hf|]. intros p Hp%lookup_replicate. unfold ts_rank in Hl. lia. }
  apply total_lookup_mapM in Hins. rewrite shape_strides in Hins by done.
  rewrite (padded_index target dims ins in_strides i (sw_positive _ Ht) Hdims Hpi).
  2: { rewrite Hins, length_fmap. unfold ts_rank in *. lia. }
  pose proof (permuted_in_range perms (ts_dims source) (ts_dims target) ins i (sw_positive _ Hs) (sw_positive _ Ht) Hperm) as H.
  assert (ts_dims target = (fun p => ts_dims source !!! p) <$> perms) as Et by (apply permuted_target; [unfold ts_rank in *; lia|done]).
  specialize (H Et Hins). destruct Hs as [_ He Hle]. rewrite Z.add_0_r, !w32_small by (rewrite ?w32_small by lia; lia). lia.
Qed.

Lemma lower_transpose_keeps operator inputs output l l' : lowering_ok g l ->
  lower_transpose g operator inputs output l = Some (Ok l') -> keeps g l l'.
Proof.
  intros Hok H. unfold lower_transpose in H. follow H. chain.
  eapply (lower_move_keeps n output _ _ t t0); try done. intros from to. eapply transpose_fits; try done; by eapply fresh_shape_wf.
Qed.

(** The negated stride walks the axis backwards. *)
Lemma reverse_fits s axis stride extent dims in_strides out_strides from to : shape_wf s ->
  ts_strides s !! axis = Some stride -> ts_dims s !! axis = Some extent -> padded_dims s = Some dims ->
  pad_leading (<[axis := as_unsigned 32 (- stride)]> (ts_strides s)) 0 = Some in_strides ->
  pad_leading (ts_strides s) 0 = Some out_strides ->
  fits (KMove (ts_storage s) false) (move_spec from to
    {| mg_count := ts_elements s; mg_dims := dims; mg_in_strides := in_strides; mg_in_offset := mul32 (extent - 1) stride;
       mg_out_strides := out_strides; mg_out_offset := 0 |} false) [tensor_use from s] (tensor_use to s).
Proof.
  intros Hs Hst Hex Hd Hpi Hpo. pose proof (pad_leading_inv _ _ _ Hd) as [_ L1].
  pose proof (pad_leading_inv _ _ _ Hpi) as [_ L2]. pose proof (pad_leading_inv _ _ _ Hpo) as [_ L3].
  apply move_fits; [done..|]. cbn [mg_count mg_dims mg_in_strides mg_in_offset mg_out_strides mg_out_offset]. intros i Hi. split; cycle 1.
  { rewrite (own_index s) by done. lia. }
  rewrite (padded_index s dims _ in_strides i (sw_positive _ Hs) Hd Hpi).
  2: { by rewrite length_insert, shape_strides, length_row_major. }
  rewrite shape_strides in * by done. destruct Hs as [Hp He Hle]. rewrite He in *. by apply reversed_in_range.
Qed.

Lemma lower_reverse_keeps operator inputs output l l' : lowering_ok g l ->
  lower_reverse g operator inputs output l = Some (Ok l') -> keeps g l l'.
Proof.
  intros Hok H. unfold lower_reverse in H. follow H. assert (t = t0) as <- by (by destruct (decide (t = t0))). chain.
  eapply (lower_move_keeps n output _ _ t t); try done. intros from to. eapply reverse_fits; try done. by eapply fresh_shape_wf.
Qed.

(** ** Concatenation *)


(** A source of a concatenation: the target but for the extent of the axis. *)
Record segment (target : TensorShape) (axis : nat) (s : TensorShape) (extent : Z) : Prop := {
  sg_wf : shape_wf s;
  sg_dtype : ts_dtype s = ts_dtype target;
  sg_extent : ts_dims s !! axis = Some extent;
  sg_dims : ts_dims s = <[axis := extent]> (ts_dims target);
}.

Lemma segment_dims (dims target : list Z) axis extent : length dims = length target -> dims !! axis = Some extent ->
  existsb (fun p => negb (p.1 =? axis)%nat && negb (p.2.1 =? p.2.2)) (zip (seq 0 (length dims)) (zip dims target)) = false ->
  dims = <[axis := extent]> target.
Proof.
  intros Hl Ha H. apply list_eq. intros i. destruct (decide (i = axis)) as [-> |Hne].
  { rewrite list_lookup_insert_eq; [done|]. rewrite <- Hl. by eapply lookup_lt_Some. }
  rewrite list_lookup_insert_ne by done. destruct (decide (i < length dims)%nat) as [Hlt|]; [|rewrite !lookup_ge_None_2 by lia; done].
  destruct (lookup_lt_is_Some_2 dims i Hlt) as [x Hx]. destruct (lookup_lt_is_Some_2 target i ltac:(lia)) as [y Hy].
  assert ((i, (x, y)) ∈ zip (seq 0 (length dims)) (zip dims target)) as Hin.
  { apply list_elem_of_lookup. exists i. rewrite !lookup_zip_with, lookup_seq_lt, Hx, Hy by done. done. }
  pose proof (proj1 (existsb_false _ _) H _ Hin) as E. simpl in E. destruct (Nat.eqb_spec i axis); [done|].
  destruct (Z.eqb_spec x y); [congruence|done].
Qed.

Lemma concat_sources_spec inputs target axis total sources l total' sources' l' : lowering_ok g l ->
  concat_sources g inputs target axis total sources l = Some (Ok (total', sources', l')) ->
  keeps g l l' /\ exists ss es, sources' = sources ++ ss /\ total' = total + zsum es /\
    Forall2 (segment target axis) ss es /\ Forall2 (fun v s => fresh_shape g v = Some (Ok s)) inputs ss.
Proof.
  revert total sources l. induction inputs as [|v inputs IH]; intros total sources l Hok H; cbn [concat_sources] in H.
  { injection H as <- <- <-. split; [by apply keeps_refl|]. exists [], []. rewrite app_nil_r. split; [done|].
    split; [unfold zsum; simpl; lia|]. by split. }
  destruct (shape_of g v l) as [[[s l1]|]|] eqn:Es; [|done..]. apply shape_of_keeps in Es as [K Hs]; [|done].
  destruct (_ || _) eqn:Ec; [done|]. apply orb_false_iff in Ec as [[Ed%negb_false_iff Er%negb_false_iff]%orb_false_iff Ee].
  apply Z.eqb_eq in Ed. apply Nat.eqb_eq in Er. apply bind_Some in H as (e & He & H).
  apply IH in H as (K' & ss & es & -> & -> & Hss & Hf); [|apply K]. split; [by eapply keeps_trans|].
  exists (s :: ss), (e :: es). rewrite <- app_assoc. split; [done|]. split; [unfold zsum; simpl; lia|].
  split; constructor; try done. split; [by eapply fresh_shape_wf|done|done|]. by apply segment_dims.
Qed.

Lemma segment_fits target axis s extent offset stride d dims in_strides padded_out from to : shape_wf target -> segment target axis s extent ->
  ts_dims target !! axis = Some d -> ts_strides target !! axis = Some stride -> 0 <= offset -> offset + extent <= d ->
  padded_dims s = Some dims -> pad_leading (ts_strides s) 0 = Some in_strides -> pad_leading (ts_strides target) 0 = Some padded_out ->
  fits (KMove (ts_storage s) false) (move_spec from to
    {| mg_count := ts_elements s; mg_dims := dims; mg_in_strides := in_strides; mg_in_offset := 0;
       mg_out_strides := padded_out; mg_out_offset := mul32 offset stride |} false) [tensor_use from s] (tensor_use to target).
Proof.
  intros Ht [Hs Hd He Hdims] Hax Hst Ho Hle Hpd Hpi Hpo. pose proof (pad_leading_inv _ _ _ Hpd) as [_ L1].
  pose proof (pad_leading_inv _ _ _ Hpi) as [_ L2]. pose proof (pad_leading_inv _ _ _ Hpo) as [_ L3].
  replace (tensor_use to target) with {| tu_operand := to; tu_storage := ts_storage s; tu_elements := ts_elements target |}
    by (unfold tensor_use, ts_storage; by rewrite Hd).
  apply move_fits; [done..|]. cbn [mg_count mg_dims mg_in_strides mg_in_offset mg_out_strides mg_out_offset]. intros i Hi. split.
  { rewrite (own_index s) by done. lia. }
  assert (0 < extent) as Hpos by (pose proof (sw_positive _ Hs) as Hp; rewrite Forall_lookup in Hp; by eapply Hp).
  rewrite (padded_index s dims _ padded_out i (sw_positive _ Hs) Hpd Hpo).
  2: { by rewrite shape_strides, length_row_major, Hdims, length_insert. }
  rewrite shape_strides in * by done. destruct Ht as [Hp Hte Htf]. rewrite Hte, Hdims in *. by apply (segment_in_range _ _ d).
Qed.

(** Every extent of a tensor is at most its number of elements. *)
Lemma extent_bound s a d : shape_wf s -> ts_dims s !! a = Some d -> 0 < d <= U32_MAX.
Proof.
  intros [Hp He Hf] Hd. rewrite He in Hf. destruct (reduce_products _ a d Hp Hf Hd) as (H0 & H1 & H2 & _).
  rewrite (extent_product_split _ a d Hd) in Hf. nia.
Qed.

Lemma concat_segments_keeps inputs ss es target axis to output offset d l l' : lowering_ok g l -> shape_wf target ->
  Forall2 (segment target axis) ss es -> Forall2 (fun v s => fresh_shape g v = Some (Ok s)) inputs ss ->
  holds l to (ts_byte_len target) -> ts_dims target !! axis = Some d -> 0 <= offset -> offset + zsum es <= d ->
  concat_segments g (zip inputs ss) axis to output (ts_strides target) offset l = Some (Ok l') -> keeps g l l'.
Proof.
  intros Hok Ht Hss. revert inputs offset l Hok. induction Hss as [|s e ss es Hs Hss IH]; intros inputs offset l Hok Hf Hh Hd Ho Hle H.
  { apply Forall2_nil_inv_r in Hf as ->. injection H as <-. by apply keeps_refl. }
  inversion Hf as [|v ? inputs' ? Hv Hf']; subst. cbn [zip zip_with concat_segments] in H. path H.
  rename x into stride, x0 into e', x1 into dims, x2 into in_strides, x3 into padded_out.
  assert (e' = e) as -> by (pose proof (sg_extent _ _ _ _ Hs); congruence).
  assert (0 < e /\ 0 <= zsum es) as [Hpos Hrest].
  { split; [by eapply extent_bound; [apply Hs|]|]. clear -Hss. induction Hss as [|x y ? ? Hx]; unfold zsum in *; simpl; [lia|].
    pose proof (extent_bound _ _ _ (sg_wf _ _ _ _ Hx) (sg_extent _ _ _ _ Hx)). lia. }
  change (zsum (e :: es)) with (e + zsum es) in Hle. pose proof (extent_bound _ _ _ Ht Hd). repeat follow_step.
  assert (keeps g l1 x6) as K'.
  { recorded [tensor_use x4 s] (tensor_use x5 target). eapply segment_fits; try done. lia. }
  carry K'. chain. rewrite w32_small in H by lia. apply (IH inputs' (offset + e) x6); try done; lia.
Qed.

Lemma lower_concat_keeps operator inputs output l l' : lowering_ok g l -> lower_concat g operator inputs output l = Some (Ok l') -> keeps g l l'.
Proof.
  intros Hok H. unfold lower_concat in H. follow H. destruct p as [total sources].
  destruct (concat_sources_spec _ _ _ _ _ _ _ _ _ Hok0 Heqo1) as (K1 & ss & es & Es & Et & Hss & Hf). simpl in *. subst. carry K1.
  repeat follow_step. chain. eapply (concat_segments_keeps inputs ss es t a0 l2 output 0 (0 + zsum es)); try done.
  by eapply fresh_shape_wf.
Qed.

(** ** Casts *)

Lemma same_dims_elements s t : shape_wf s -> shape_wf t -> ts_dims s = ts_dims t -> ts_elements s = ts_elements t.
Proof. intros [_ -> _] [_ -> _] E. by rewrite E. Qed.

Lemma lower_cast_keeps inputs output l l' : lowering_ok g l -> lower_cast g inputs output l = Some (Ok l') -> keeps g l l'.
Proof.
  intros Hok H. unfold lower_cast in H. follow H. assert (ts_dims t = ts_dims t0) as Ed by (by destruct (decide (ts_dims t = ts_dims t0))).
  recorded [tensor_use x1 t] (tensor_use x2 t0). unfold tensor_use.
  rewrite <- (same_dims_elements t t0); [|by eapply fresh_shape_wf..|done]. apply cast_fits; [done|]. by eapply shape_u32, fresh_shape_wf.
Qed.

(** ** Reductions *)

Lemma reduction_output attributes axis op argmax : reduction attributes = Ok (axis, op, argmax) ->
  match op with RArgMax _ => argmax = true | _ => argmax = false end.
Proof.
  unfold reduction. intros H. destruct attributes; try discriminate H;
    try (destruct (nan_mode_of _); [|discriminate H]); by injection H as <- <- <-.
Qed.

Lemma reduced_elements s t axis d (argmax : bool) : shape_wf s -> shape_wf t -> ts_dims s !! axis = Some d ->
  ts_dims t = (if argmax then delete axis (ts_dims s) else <[axis := 1]> (ts_dims s)) ->
  ts_elements t = extent_product (take axis (ts_dims s)) * extent_product (drop (S axis) (ts_dims s)).
Proof.
  intros Hs Ht Hd E. rewrite (sw_elements t Ht), E. destruct argmax.
  - by rewrite delete_take_drop, extent_product_app.
  - rewrite insert_take_drop by (by eapply lookup_lt_Some). rewrite extent_product_app. cbn [extent_product]. lia.
Qed.

Lemma reduce_tensors_fit op (argmax : bool) s t axis d from to : shape_wf s -> shape_wf t -> ts_dims s !! axis = Some d ->
  match op with RArgMax _ => argmax = true | _ => argmax = false end ->
  ts_dtype t = (if argmax then DType.INT32 else ts_dtype s) ->
  ts_dims t = (if argmax then delete axis (ts_dims s) else <[axis := 1]> (ts_dims s)) ->
  fits (KReduce op (ts_storage s)) (reduce_spec from to (product32 (take axis (ts_dims s))) d (product32 (drop (S axis) (ts_dims s))))
    [tensor_use from s] (tensor_use to t).
Proof.
  intros Hs Ht Hd Hop Hty Hdims. pose proof (reduced_elements s t axis d argmax Hs Ht Hd Hdims) as Et.
  pose proof (sw_fits s Hs) as Hf. rewrite (sw_elements s Hs) in Hf.
  destruct (reduce_products _ axis d (sw_positive s Hs) Hf Hd) as (H0 & H1 & H2 & -> & ->).
  pose proof (extent_product_split _ axis d Hd) as Es. rewrite Es in Hf.
  pose proof (reduce_fits op (ts_storage s) from to _ d _ H1 H0 H2 Hf) as H.
  unfold tensor_use. rewrite (sw_elements s Hs), Es, Et.
  replace (ts_storage t) with (match op with RArgMax _ => StWord | _ => ts_storage s end); [done|].
  unfold ts_storage. rewrite Hty. by destruct op; subst.
Qed.

Lemma lower_reduce_keeps operator inputs output l l' : lowering_ok g l -> lower_reduce g operator inputs output l = Some (Ok l') -> keeps g l l'.
Proof.
  intros Hok H. unfold lower_reduce in H. follow H. destruct p as [axis op]. apply reduction_output in Heqr. simpl in *.
  assert (keeps g l l1 /\ fresh_shape g n = Some (Ok t)) as [K F].
  { destruct b; [by apply convertible_float_shape_keeps|by apply float_shape_keeps]. }
  carry K. repeat follow_step. recorded [tensor_use x0 t] (tensor_use x1 t0).
  apply (reduce_tensors_fit op b); try done; [by eapply fresh_shape_wf..|]. by destruct (decide (ts_dims t0 = if b then delete a2 (ts_dims t) else <[a2 := 1]> (ts_dims t))).
Qed.

(** ** Pooling *)

Lemma pool_tensors_fit mode s t geometry from to : shape_wf s -> shape_wf t -> ts_dtype t = ts_dtype s ->
  ts_dims s = [pg_batch geometry; pg_height geometry; pg_width geometry; pg_channels geometry] ->
  ts_dims t = [pg_batch geometry; pg_out_height geometry; pg_out_width geometry; pg_channels geometry] ->
  fits (KMaxPool mode (ts_storage s)) (max_pool_spec from to geometry) [tensor_use from s] (tensor_use to t).
Proof.
  intros [Hp He Hf] [Hp' He' Hf'] Hty Es Et. rewrite Es in *. rewrite Et in *. cbn [extent_product] in *.
  repeat match goal with H : Forall _ (_ :: _) |- _ => apply Forall_cons in H as [? H] end.
  unfold tensor_use, ts_storage. rewrite Hty, He, He'. rewrite !Z.mul_1_r, !Z.mul_assoc in *. by apply max_pool_fits; try lia.
Qed.

Lemma lower_max_pool_keeps operator inputs output l l' : lowering_ok g l -> lower_max_pool g operator inputs output l = Some (Ok l') -> keeps g l l'.
Proof.
  intros Hok H. unfold lower_max_pool in H. follow H. subst. recorded [tensor_use x0 t] (tensor_use x1 t0).
  apply pool_tensors_fit; try done; by eapply fresh_shape_wf.
Qed.

(** ** Products of matrices *)

Lemma matmul_tensors_fit kernel lhs rhs out lhs_st batch m n k l r to :
  (forall spec w o st e, kernel_access kernel spec w o st e -> matmul_access lhs_st (ts_storage rhs) (ts_storage out) spec w o st e) ->
  (forall x, load_limit kernel x = x) -> shape_wf lhs -> shape_wf rhs -> shape_wf out ->
  ts_dims lhs = [batch; m; k] -> ts_dims rhs = [batch; k; n] -> ts_dims out = [batch; m; n] ->
  fits kernel (matmul_spec l r to m n k batch)
    [{| tu_operand := l; tu_storage := lhs_st; tu_elements := ts_elements lhs |}; tensor_use r rhs] (tensor_use to out).
Proof.
  intros Hk Hlim [Hp He Hf] [Hp' He' Hf'] [Hp'' He'' Hf''] El Er Eo. rewrite El in *. rewrite Er in *. rewrite Eo in *. cbn [extent_product] in *.
  repeat match goal with H : Forall _ (_ :: _) |- _ => apply Forall_cons in H as [? H] end.
  unfold tensor_use. rewrite He, He', He''. rewrite !Z.mul_1_r, !Z.mul_assoc in *. by apply (matmul_fits _ lhs_st (ts_storage rhs) (ts_storage out)); try lia.
Qed.

(** The copy that the streaming kernel reads. *)
Lemma widen_lhs_keeps input from_lhs lhs batch m k output l loc l' : lowering_ok g l -> shape_wf lhs -> ts_dims lhs = [batch; m; k] ->
  ts_storage lhs = input -> holds l from_lhs (ts_byte_len lhs) ->
  widen_lhs input from_lhs batch m k output l = Some (Ok (loc, l')) ->
  keeps g l l' /\ holds l' loc (ts_elements lhs * width StWord).
Proof.
  intros Hok Hwf Ed Est Hh. unfold widen_lhs. rewrite byte_len_width, Est in Hh. case_bool_decide as Ew.
  { intros [= <- <-]. split; [by apply keeps_refl|]. by rewrite Ew in Hh. }
  assert (ts_elements lhs = batch * m * k) as En by (rewrite (sw_elements _ Hwf), Ed; cbn [extent_product]; lia).
  unfold checked_mul. destruct (_ <=? U32_MAX); [|done]. cbn [mbind option_bind]. destruct (_ <=? U32_MAX); [|done]. cbn [ok_or].
  rewrite <- En. unfold allocate_region. destruct (allocate_region_written_at _ _ _ l) as [[[index l1]|]|] eqn:Ea; [|done..].
  apply (allocate_keeps g) in Ea as [K Hx]; [|done]. carry K. intros H. path H.
  change 4 with (width StWord) in Hx.
  assert (keeps g l1 l') as K'.
  { refine (record_keeps g l1 _ _ _ _ [{| tu_operand := x; tu_storage := ts_storage lhs; tu_elements := ts_elements lhs |}] _
      {| tu_operand := x0; tu_storage := StWord; tu_elements := ts_elements lhs |} _ l' Hok0 _ _ _ E1).
    - by repeat constructor.
    - by split.
    - apply cast_fits; [done|]. by apply shape_u32. }
  carry K'. split; [by chain|done].
Qed.

Lemma lower_matmul_keeps inputs output l l' : lowering_ok g l -> lower_matmul g inputs output l = Some (Ok l') -> keeps g l l'.
Proof.
  intros Hok H. unfold lower_matmul in H. follow H; subst.
  - destruct (widen_lhs_keeps _ _ t _ _ _ _ _ _ _ Hok5 (fresh_shape_wf g _ _ F) Heql7 eq_refl Hold Heqo7) as [K5 Hw]. carry K5.
    recorded [{| tu_operand := x; tu_storage := StWord; tu_elements := ts_elements t |}; tensor_use x0 t0] (tensor_use x1 t1).
    apply matmul_tensors_fit; try done; [|by eapply fresh_shape_wf..]. intros spec w o st e. unfold ts_storage. rewrite T. apply stream_access.
  - recorded [tensor_use x t; tensor_use x0 t0] (tensor_use x1 t1).
    apply matmul_tensors_fit; try done; [|by eapply fresh_shape_wf..]. intros spec w o st e. unfold ts_storage. by rewrite T.
Qed.

(** ** Elementwise operators *)

Lemma placed_extends l l' loc u : extends l l' -> placed l loc u -> placed l' loc u.
Proof.
  intros X [Ho Hh]. split; [|by eapply holds_extends]. destruct loc as [slot|index]; simpl in *; [done|].
  destruct (lw_regions l !! index) as [r|] eqn:E; [|done]. destruct (ex_regions _ _ X index r E) as (r' & -> & Eo & _).
  simpl in *. by rewrite (ex_slots _ _ X), Eo.
Qed.

(** What the type check of a lane leaves: the float type, or a boolean. *)
Definition lane_typed (float_dtype : option Z) (storage : Storage) (dtype : Z) : Prop :=
  match storage with StWord => float_dtype = Some dtype | StByte => dtype = DType.BOOL | _ => False end.

Lemma lane_dtype_spec storage dtype fd fd' : storage = StWord \/ storage = StByte -> lane_dtype storage dtype fd = Ok fd' ->
  (forall x, fd = Some x -> fd' = Some x) /\ lane_typed fd' storage dtype.
Proof.
  intros [-> | ->]; simpl.
  - unfold unify. destruct (negb _); [done|]. destruct fd as [x|].
    + destruct (Z.eqb_spec x dtype); [|done]. simpl. intros [= <-]. split; [|done]. congruence.
    + by intros [= <-].
  - destruct (Z.eqb_spec dtype DType.BOOL); [|done]. by intros [= <-].
Qed.

Lemma lane_typed_mono fd fd' storage dtype : (forall x, fd = Some x -> fd' = Some x) -> lane_typed fd storage dtype -> lane_typed fd' storage dtype.
Proof. destruct storage; simpl; eauto. Qed.

Lemma lane_typed_storage fd storage s : lane_typed fd storage (ts_dtype s) -> ts_storage s = resolve (storage_of (default DType.FP32 fd)) storage.
Proof. destruct storage; simpl; intros H; try done; [by rewrite H|]. unfold ts_storage. by rewrite H. Qed.

(** An operand of the target's rank that broadcasts to it. *)
Definition operand_shape (target : TensorShape) (fd : option Z) (p : nat * Storage) (s : TensorShape) : Prop :=
  fresh_shape g p.1 = Some (Ok s) /\ ts_rank s = ts_rank target /\ broadcastable (ts_dims s) (ts_dims target) = true /\ lane_typed fd p.2 (ts_dtype s).

Lemma elementwise_shapes_spec pairs target fd shapes l fd' shapes' l' : lowering_ok g l -> Forall (fun p => p.2 = StWord \/ p.2 = StByte) pairs ->
  elementwise_shapes g pairs target fd shapes l = Some (Ok (fd', shapes', l')) ->
  keeps g l l' /\ (forall x, fd = Some x -> fd' = Some x) /\ exists ss, shapes' = shapes ++ ss /\ Forall2 (operand_shape target fd') pairs ss.
Proof.
  intros Hok Hp. revert fd shapes l Hok. induction Hp as [|[v st] pairs Hst Hp IH]; intros fd shapes l Hok H; cbn [elementwise_shapes] in H.
  { injection H as <- <- <-. split; [by apply keeps_refl|]. split; [done|]. exists []. by rewrite app_nil_r. }
  destruct (shape_of g v l) as [[[s l1]|]|] eqn:Es; [|done..]. apply shape_of_keeps in Es as [K Hs]; [|done].
  destruct (lane_dtype st (ts_dtype s) fd) as [fd1|] eqn:El; [|done]. apply lane_dtype_spec in El as [M1 T1]; [|done].
  destruct (_ || _) eqn:Ec; [done|]. apply orb_false_iff in Ec as [Er%negb_false_iff%Nat.eqb_eq Eb%negb_false_iff].
  apply IH in H as (K' & M & ss & -> & Hss); [|apply K]. split; [by eapply keeps_trans|]. split; [by eauto|].
  exists (s :: ss). rewrite <- app_assoc. split; [done|]. constructor; [|done]. split; [done|]. split; [done|]. split; [done|].
  by eapply lane_typed_mono.
Qed.

Lemma input_operands_spec inputs ss reads operands l reads' operands' l' : lowering_ok g l ->
  Forall2 (fun v s => fresh_shape g v = Some (Ok s)) inputs ss -> input_operands g inputs reads operands l = Some (Ok (reads', operands', l')) ->
  keeps g l l' /\ exists rs os, reads' = reads ++ rs /\ operands' = operands ++ os /\ length os = length ss /\
    Forall2 (placed l') rs (zip_with tensor_use os ss).
Proof.
  intros Hok Hs. revert reads operands l Hok. induction Hs as [|v s inputs ss Hv Hs IH]; intros reads operands l Hok H; cbn [input_operands] in H.
  { injection H as <- <- <-. split; [by apply keeps_refl|]. exists [], []. by rewrite !app_nil_r. }
  destruct (input_location g v l) as [[[loc l1]|]|] eqn:E; [|done..]. apply input_location_keeps in E as [K Hh]; [|done].
  specialize (Hh s Hv). apply bind_Some in H as (o & Ho & H). apply IH in H as (K' & rs & os & -> & -> & Hl & Hf); [|apply K].
  split; [by eapply keeps_trans|]. exists (loc :: rs), (o :: os). rewrite <- !app_assoc. split; [done|]. split; [done|].
  split; [simpl; lia|]. constructor; [|done]. eapply placed_extends; [apply K'|]. by apply placed_tensor.
Qed.

Lemma lanes_fit target fd dims (broadcast : bool) inputs lanes ss strides : shape_wf target -> padded_dims target = Some dims ->
  length inputs = length lanes -> Forall2 (operand_shape target fd) (zip inputs lanes) ss ->
  mapM (fun s => broadcast_strides s target) ss = Some strides -> (broadcast = false -> Forall (fun s => ts_dims s = ts_dims target) ss) ->
  Forall3 (lane_fits target dims (storage_of (default DType.FP32 fd)) broadcast) ss lanes strides.
Proof.
  intros Ht Hd Hl Hss Hst%mapM_Some Hb. revert inputs lanes ss strides Hl Hss Hst Hb.
  induction inputs as [|v inputs IH]; intros [|lane lanes] ss strides Hl Hss Hst Hb; try done; cbn [zip zip_with] in Hss;
    inversion Hss as [|? s ? ss' (Hs & Hr & Hbr & Hty) Hss']; subst; inversion Hst as [|? st ? strides' Hs1 Hst']; subst; constructor.
  - destruct (broadcast_strides_fit s target dims st (fresh_shape_wf g _ _ Hs) Ht Hr Hbr Hd Hs1) as [L1 L2].
    split; [by apply lane_typed_storage| |done|done]. intros E. apply same_dims_elements; [by eapply fresh_shape_wf|done|].
    specialize (Hb E). by inversion Hb.
  - apply (IH lanes ss' strides'); [simpl in Hl; lia|done..|]. intros E. specialize (Hb E). by inversion Hb.
Qed.

Lemma lane_inputs_storage lane : Forall (fun st => st = StWord \/ st = StByte) (lane_inputs lane).
Proof. apply Forall_forall. intros st Hst. destruct lane; simpl in Hst; set_solver. Qed.

Lemma lane_output_storage lane : lane_output lane = StWord \/ lane_output lane = StByte.
Proof. destruct lane; auto. Qed.

Lemma zip_storage {A} (xs : list A) (sts : list Storage) P : Forall P sts -> Forall (fun p => P p.2) (zip xs sts).
Proof. intros H. revert xs. induction H; intros [|y xs]; constructor; auto. Qed.

Lemma operand_shapes_fresh target fd inputs lanes ss : length inputs = length lanes -> Forall2 (operand_shape target fd) (zip inputs lanes) ss ->
  Forall2 (fun v s => fresh_shape g v = Some (Ok s)) inputs ss /\ length ss = length lanes.
Proof.
  revert lanes ss. induction inputs as [|v inputs IH]; intros [|lane lanes] ss Hl H; try done; cbn [zip zip_with] in H;
    inversion H as [|? s ? ss' (Hs & _) H']; subst; [done|]. destruct (IH lanes ss') as [H1 H2]; [simpl in Hl; lia|done|].
  split; [by constructor|]. simpl. lia.
Qed.

Lemma emit_elementwise_keeps lane inputs output clamp l l' : lowering_ok g l ->
  emit_elementwise g lane inputs output clamp l = Some (Ok l') -> keeps g l l'.
Proof.
  intros Hok H. unfold emit_elementwise in H. follow H. destruct p as [fd ss]. destruct p0 as [reads operands]. simpl in *.
  destruct (elementwise_shapes_spec _ _ _ _ _ _ _ _ Hok0 (zip_storage _ _ _ (lane_inputs_storage lane)) Heqo0) as (K1 & _ & ss' & -> & Hss).
  apply lane_dtype_spec in Heqr2 as [M T]; [|apply lane_output_storage]. carry K1. simpl in *. set (broadcast := existsb _ ss') in *.
  assert (Forall2 (operand_shape t a1) (zip inputs (lane_inputs lane)) ss') as Hss1.
  { eapply Forall2_impl; [exact Hss|]. intros p s (S1 & S2 & S3 & S4). split; [done|]. split; [done|]. split; [done|]. by eapply lane_typed_mono. }
  destruct (operand_shapes_fresh _ _ _ _ _ Heqb Hss1) as [Hfresh Hlen].
  destruct (input_operands_spec _ _ _ _ _ _ _ _ Hok1 Hfresh Heqo1) as (K2 & rs & os & -> & -> & Hlo & Hpl). carry K2. simpl in *.
  repeat follow_step. chain.
  assert (Forall3 (lane_fits t x1 (storage_of (default DType.FP32 a1)) broadcast) ss' (lane_inputs lane) x) as H3.
  { apply (lanes_fit t a1 x1 broadcast inputs); try done; [by eapply fresh_shape_wf|]. intros Eb. apply Forall_forall. intros s Hs.
    pose proof (proj1 (existsb_false _ _) Eb s Hs) as D. simpl in D. apply bool_decide_eq_false in D. by destruct (decide (ts_dims s = ts_dims t)). }
  assert (keeps g l4 l') as K4.
  { refine (record_keeps g l4 _ _ _ _ (zip_with tensor_use os ss') _ (tensor_use x0 t) _ l' _ _ _ _ E2); [done| |by apply placed_tensor|].
    - eapply Forall2_impl; [exact Hpl|]. intros loc u. apply placed_extends. match goal with X : keeps g l2 l4 |- _ => apply X end.
    - apply (elementwise_fits lane _ _ {| es_inputs := os; es_output := x0 |}); cbn; try done; [| |by apply lane_typed_storage|].
      + by apply pad_leading_inv in E1 as [_ ?].
      + lia.
      + symmetry. by apply length_mapM in E. }
  by chain.
Qed.

Lemma elementwise_lane_keeps op attributes inputs l lane tensors clamp l' : lowering_ok g l ->
  elementwise_lane g op attributes inputs l = Some (Ok (lane, tensors, clamp, l')) -> keeps g l l'.
Proof.
  intros Hok H. unfold elementwise_lane in H. follow H; (by apply keeps_refl) || (by chain).
Qed.

Lemma lower_elementwise_keeps operator inputs output l l' : lowering_ok g l ->
  lower_elementwise g operator inputs output l = Some (Ok l') -> keeps g l l'.
Proof.
  intros Hok H. unfold lower_elementwise in H. follow H. destruct p as [[lane tensors] clamp]. simpl in *.
  apply elementwise_lane_keeps in Heqo; [|done]. eapply keeps_trans; [done|]. eapply emit_elementwise_keeps; [apply Heqo|done].
Qed.
End Keeps.
