(* ===== verification/VulkanProps.v ===== *)
(** * Vulkan lowering: theorems

    Whole graphs: the slots of the boundary, the aliases of copied outputs, the
    operators in order, and what holds of every plan that
    crates/virtio-accel-vulkan/src/lower.rs returns. *)

From Stdlib Require Import ZArith Lia.
From stdpp Require Import prelude list sorting gmap.
From S2P Require Import Prelude TosaTypes TosaArtifact TosaNumeric TosaSpecialize TosaWire TosaValidate TosaView TosaShapeProps TosaAnalysis TosaCapability VulkanShader VulkanLower VulkanAccess VulkanGeometry VulkanMemory VulkanKeeps.

Section Run.
Context (g : LoweringGraph).

Lemma lower_operator_keeps operator inputs output l l' : lowering_ok g l ->
  lower_operator g operator inputs output l = Some (Ok l') -> keeps g l l'.
Proof.
  intros Hok. unfold lower_operator.
  repeat match goal with |- (if ?b then _ else _) = _ -> _ => destruct b end; intros H.
  - by eapply lower_copy_keeps.
  - by eapply lower_reshape_keeps.
  - by eapply lower_transpose_keeps.
  - by eapply lower_reverse_keeps.
  - by eapply lower_concat_keeps.
  - by eapply lower_cast_keeps.
  - by eapply lower_matmul_keeps.
  - by eapply lower_max_pool_keeps.
  - by eapply lower_reduce_keeps.
  - by eapply lower_elementwise_keeps.
Qed.

Lemma set_position_keeps l x : lowering_ok g l -> keeps g l (set_position x l).
Proof. intros [H1 H2 H3 H4 H5 H6 H7]. split; [by split|by split; eauto]. Qed.

Lemma set_last_use_keeps l x : lowering_ok g l -> keeps g l (set_last_use x l).
Proof. intros [H1 H2 H3 H4 H5 H6 H7]. split; [by split|by split; eauto]. Qed.

Lemma lower_operators_keeps order position l l' : lowering_ok g l -> lower_operators g order position l = Some (Ok l') -> keeps g l l'.
Proof.
  revert position l. induction order as [|id order IH]; intros position l Hok H; cbn [lower_operators] in H.
  { injection H as <-. by apply keeps_refl. }
  set (l1 := set_position _ l) in H. assert (keeps g l l1) as K by (by apply set_position_keeps).
  apply bind_Some in H as (operator & _ & H). destruct (skipped operator).
  { eapply keeps_trans; [exact K|]. eapply IH; [apply K|exact H]. }
  destruct (negb _); [done|]. apply bind_Some in H as (inputs & _ & H). apply bind_Some in H as (outputs & _ & H).
  destruct outputs as [|output [|]]; try done. apply bind_Some in H as (constant & _ & H). destruct (bool_decide _); [done|].
  destruct (lower_operator _ _ _ _ l1) as [[l2|]|] eqn:E; [|done..]. apply lower_operator_keeps in E; [|apply K].
  eapply keeps_trans; [exact K|]. eapply keeps_trans; [exact E|]. eapply IH; [apply E|exact H].
Qed.

Lemma alias_output_keeps consumers output l l' : lowering_ok g l -> alias_output g consumers output l = Some (Ok l') -> keeps g l l'.
Proof.
  intros Hok H. unfold alias_output in H. apply bind_Some in H as (v & _ & H). destruct (av_producer v) as [producer|].
  2: { injection H as <-. by apply keeps_refl. }
  apply bind_Some in H as (operator & _ & H). destruct (_ || _); [injection H as <-; by apply keeps_refl|].
  apply bind_Some in H as (inputs & _ & H). destruct inputs as [|source inputs]; [injection H as <-; by apply keeps_refl|].
  destruct (bool_decide _); [injection H as <-; by apply keeps_refl|]. apply bind_Some in H as (constant & _ & H).
  destruct (_ || _); [injection H as <-; by apply keeps_refl|].
  destruct (shape_of g source l) as [[[from l1]|]|] eqn:E1; [|done..]. apply shape_of_keeps in E1 as [K1 F1]; [|done].
  destruct (shape_of g output l1) as [[[to l2]|]|] eqn:E2; [|done..]. apply shape_of_keeps in E2 as [K2 F2]; [|apply K1].
  pose proof (keeps_trans g _ _ _ K1 K2) as K. destruct (_ || _) eqn:Ec; [by injection H as <-|].
  apply orb_false_iff in Ec as [Ed%negb_false_iff%Z.eqb_eq Ee%negb_false_iff%Z.eqb_eq].
  apply bind_Some in H as (slot & Hs & H). injection H as <-. eapply keeps_trans; [exact K|].
  apply (insert_location_keeps g l2 source slot from); [apply K|done|]. rewrite (same_bytes from to) by done.
  eapply location_holds; [apply K|done..].
Qed.

Lemma alias_outputs_keeps consumers outputs l l' : lowering_ok g l -> alias_outputs g consumers outputs l = Some (Ok l') -> keeps g l l'.
Proof.
  revert l. induction outputs as [|output outputs IH]; intros l Hok H; cbn [alias_outputs] in H.
  { injection H as <-. by apply keeps_refl. }
  destruct (alias_output g consumers output l) as [[l1|]|] eqn:E; [|done..]. apply alias_output_keeps in E; [|done].
  eapply keeps_trans; [exact E|]. eapply IH; [apply E|done].
Qed.

(** ** The boundary *)

Lemma Lowering_empty_ok : lowering_ok g Lowering_empty.
Proof.
  split; simpl; try done; try (intros v ? H; by rewrite lookup_empty in H).
  exists []. split; [done|]. split; [exists [], []; auto|done].
Qed.

(** Binding a slot before the first dispatch. *)
Lemma push_slot_ok l v s role : lowering_ok g l -> lw_dispatches l = [] -> zlen (lw_slots l) < U32_MAX -> fresh_shape g v = Some (Ok s) ->
  lowering_ok g (insert_location v (LSlot (zlen (lw_slots l)))
    (lw_set_slots (lw_slots l ++ [{| sp_slot := zlen (lw_slots l); sp_role := role; sp_byte_len := ts_byte_len s; sp_storage := ts_storage s |}]) l)).
Proof.
  intros [H1 H2 H3 H4 H5 (log & H6 & H7) H8] Hd Hu Hs. rewrite Hd in *. apply Forall2_nil_inv_l in H6 as ->. split; try done.
  - simpl. intros u loc. rewrite lookup_insert_Some. intros [[<- <-] | [_ Hu']].
    + exists s. split; [done|]. split; [unfold zlen; lia|]. eexists. simpl.
      split; [unfold zlen; rewrite Nat2Z.id; by apply list_lookup_middle|simpl; lia].
    + destruct (H2 u loc Hu') as (s' & Hs' & Hh). exists s'. split; [done|]. destruct loc as [slot|index]; simpl in *; [|done].
      destruct Hh as (H0 & x & Hx & Hb). split; [done|]. exists x. split; [by apply lookup_app_l_Some|done].
  - simpl. unfold zlen in *. rewrite length_app. simpl. lia.
  - exists []. simpl. rewrite Hd. split; [done|]. destruct H7 as [H7 H7']. split; [done|]. done.
Qed.

Lemma bind_slots_ok values index l l' : lowering_ok g l -> lw_dispatches l = [] -> length (lw_slots l) = index ->
  zlen (lw_slots l) + zlen values <= U32_MAX -> bind_slots g values index l = Some (Ok l') -> lowering_ok g l'.
Proof.
  revert index l. induction values as [|v values IH]; intros index l Hok Hd Hl Hm H; cbn [bind_slots] in H; [by injection H as <-|].
  destruct (shape_of g v l) as [[[s l1]|]|] eqn:E; [|done..].
  assert (lw_dispatches l1 = []) as Hd1.
  { unfold shape_of in E. destruct (lw_shapes l !! v); [by injection E as <- <-|]. destruct (fresh_shape g v) as [[|]|]; [|done..]. by injection E as <- <-. }
  apply shape_of_keeps in E as [K F]; [|done]. pose proof (ex_slots _ _ (proj2 K)) as Es.
  assert (as_unsigned 32 (Z.of_nat index) = zlen (lw_slots l1)) as Ei.
  { rewrite Es, <- Hl. apply w32_small. unfold zlen in *. simpl in Hm. lia. }
  rewrite Ei in H. eapply IH; [| | | |exact H].
  - apply push_slot_ok; [apply K|done|rewrite Es; unfold zlen in *; simpl in Hm; lia|done].
  - done.
  - simpl. rewrite length_app, Es. simpl. lia.
  - simpl. unfold zlen in *. rewrite length_app, Es. simpl in *. lia.
Qed.

Lemma run_ok plan : zlen (lg_inputs g) + zlen (lg_outputs g) <= U32_MAX -> run g = Some (Ok plan) ->
  zlen (pp_slots plan) <= U32_MAX /\ Forall (constant_ok (pp_arena_bytes plan)) (pp_constants plan) /\ exists log, Forall2 (dispatch_ok (pp_slots plan) (pp_arena_bytes plan)) (pp_dispatches plan) log /\
    exists written read, ordered (pp_dispatches plan) log written read.
Proof.
  intros Hm H. unfold run in H. destruct (bind_slots g _ 0 _) as [[l1|]|] eqn:E1; [|done..].
  apply bind_slots_ok in E1; [|apply Lowering_empty_ok|done|done|unfold zlen in *; rewrite length_app; simpl; lia].
  apply bind_Some in H as (uses & _ & H). pose proof (set_last_use_keeps l1 uses.1 E1) as K2.
  destruct (alias_outputs g _ _ _) as [[l3|]|] eqn:E3; [|done..]. apply alias_outputs_keeps in E3; [|apply K2].
  destruct (lower_operators g _ _ l3) as [[l4|]|] eqn:E4; [|done..]. apply lower_operators_keeps in E4; [|apply E3].
  destruct (outputs_produced g _) as [[|]|]; [|done..]. injection H as <-. destruct E4 as [[_ _ _ _ H5 (log & H6 & H7) H8] _]. simpl.
  split; [done|]. split; [done|]. exists log. eauto.
Qed.
End Run.

Lemma lower_analysis_ok a capability plan : lower_analysis a capability = Some (Ok plan) ->
  zlen (pp_slots plan) <= U32_MAX /\ Forall (constant_ok (pp_arena_bytes plan)) (pp_constants plan) /\ exists log, Forall2 (dispatch_ok (pp_slots plan) (pp_arena_bytes plan)) (pp_dispatches plan) log /\
    exists written read, ordered (pp_dispatches plan) log written read.
Proof.
  intros H. unfold lower_analysis in H. destruct (Lowering_new a capability) as [[g|]|] eqn:E; [|done..].
  apply (run_ok g); [|done]. unfold Lowering_new in E.
  repeat (match type of E with
    | (if ?b then _ else _) = _ => destruct b eqn:?; [try discriminate E|]
    | ?m ≫= _ = _ => apply bind_Some in E as (? & ? & E)
    end; try discriminate E).
  injection E as <-. bool_to_prop. simpl. lia.
Qed.

(** Keys that contain a common word overlap. *)
Lemma in_key_overlaps n a b word : in_key n a word -> in_key n b word -> overlaps a b = true.
Proof.
  destruct a as [s|o e], b as [s'|o' e']; simpl; intros H1 H2; lia.
Qed.

(** [lower_tosa] lowers an analysis. *)
Lemma lower_tosa_analysis has_identifier root parse_alloc alloc semantic_alloc bytes target plan :
  lower_tosa has_identifier root parse_alloc alloc semantic_alloc bytes target = Some (Ok plan) ->
  exists a capability, lower_analysis a capability = Some (Ok plan).
Proof.
  unfold lower_tosa. intros H. destruct (_ && _); [done|]. destruct (parse_with_limits _ _ _ _ _) as [model|]; [|done].
  apply bind_Some in H as ([a|] & _ & H); [|done]. eauto.
Qed.

(** ** Properties *)

Section Lowered.
Context (has_identifier : list Z -> bool) (root : VerifierOptions -> list Z -> option WireGraph).
Context (parse_alloc : nat -> bool) (alloc semantic_alloc : list nat -> bool).
Context (bytes : list Z) (target : Target) (plan : ProgramPlan).
Hypothesis Hplan : lower_tosa has_identifier root parse_alloc alloc semantic_alloc bytes target = Some (Ok plan).

(** C21: lower.rs, with the addresses of the kernels in shader.rs and the
    descriptors of native.rs.  In every plan the lowering accepts, each word that
    a dispatch stores, and each word it loads, lies behind the descriptor it names:
    within the slot's bytes rounded up to words, or within the arena.  The loads
    of a slot by a cast to a narrower type are the exception.  The upload of every
    constant lies within the arena, too. *)
Theorem dispatches_in_bounds :
  Forall (constant_ok (pp_arena_bytes plan)) (pp_constants plan) /\
  forall d w o st e, d ∈ pp_dispatches plan -> kernel_access (dp_kernel d) (dp_spec d) w o st e ->
  w = true \/ narrowing (dp_kernel d) = false \/ op_buffer o = arena_buffer_index plan ->
  in_descriptor (pp_slots plan) (pp_arena_bytes plan) (word_of o st e).
Proof.
  destruct (lower_tosa_analysis _ _ _ _ _ _ _ _ Hplan) as (a & capability & Ha').
  destruct (lower_analysis_ok _ _ _ Ha') as (Hm & Hcs & log & Hf & _). split; [done|]. intros d w o st e Hd Ha Hc.
  apply list_elem_of_lookup in Hd as (i & Hi). destruct (Forall2_lookup_l _ _ _ i d Hf Hi) as (x & _ & Hok).
  destruct (Hok w o st e Ha) as [_ H]. apply H. unfold arena_buffer_index in Hc. rewrite w32_small in Hc by (unfold zlen in *; lia). done.
Qed.

(** C22: [Lowering::dispatch] of lower.rs.  When two dispatches of a plan touch the
    same word, one loading and the other storing it, a barrier lies between them:
    the later dispatch sees what the earlier one stored and never overwrites what
    it still reads. *)
Theorem conflicts_have_barriers :
  forall i j di dj w oi sti ei oj stj ej, (i < j)%nat -> pp_dispatches plan !! i = Some di -> pp_dispatches plan !! j = Some dj ->
  kernel_access (dp_kernel di) (dp_spec di) w oi sti ei -> kernel_access (dp_kernel dj) (dp_spec dj) (negb w) oj stj ej ->
  word_of oi sti ei = word_of oj stj ej ->
  exists m d, (i < m <= j)%nat /\ pp_dispatches plan !! m = Some d /\ dp_barrier_before d = true.
Proof.
  intros i j di dj w oi sti ei oj stj ej Hij Hi Hj Hai Haj Hw. destruct (lower_tosa_analysis _ _ _ _ _ _ _ _ Hplan) as (a & capability & Ha').
  destruct (lower_analysis_ok _ _ _ Ha') as (_ & _ & log & Hf & wr & rd & [_ Hp]).
  destruct (Forall2_lookup_l _ _ _ i di Hf Hi) as (a1 & La & Ha). destruct (Forall2_lookup_l _ _ _ j dj Hf Hj) as (b1 & Lb & Hb).
  destruct (proj1 (Ha _ _ _ _ Hai)) as (k & Hk & Ik). destruct (proj1 (Hb _ _ _ _ Haj)) as (k' & Hk' & Ik'). rewrite Hw in Ik.
  destruct (decide (Forall (fun d => dp_barrier_before d = false) (take (j - i) (drop (S i) (pp_dispatches plan))))) as [Hall|Hex].
  - assert (conflict a1 b1 = false) as Hc.
    { apply (Hp i j); try done. intros m d Hm Hd. rewrite Forall_lookup in Hall. apply (Hall (m - S i)%nat).
      rewrite lookup_take_lt, lookup_drop by lia. by replace (S i + (m - S i))%nat with m by lia. }
    unfold conflict in Hc. apply orb_false_iff in Hc as [Hraw Hwar]. destruct w; simpl in *; subst.
    + pose proof (proj1 (existsb_false _ _) Hraw k' Hk') as X. simpl in X. by rewrite (in_key_overlaps _ _ _ _ Ik Ik') in X.
    + pose proof (proj1 (existsb_false _ _) Hwar k Hk) as X. simpl in X. by rewrite (in_key_overlaps _ _ _ _ Ik Ik') in X.
  - apply not_Forall_Exists in Hex; [|apply _]. apply Exists_exists in Hex as (d & Hin & Hd).
    apply list_elem_of_lookup in Hin as (x & Hx). apply lookup_take_Some in Hx as [Hx Hlt]. rewrite lookup_drop in Hx.
    exists (S i + x)%nat, d. split; [lia|]. split; [done|]. by apply not_false_is_true.
Qed.
End Lowered.

(** ** Examples *)

Module VulkanDemo.
Import ParseDemo WrapDemo.

Definition tensor (name : str) (dtype : Z) (shape : list Z) : WireTensor :=
  {| wt_name := Some name; wt_shape := Some shape; wt_type := dtype; wt_data := None; wt_variable := false;
     wt_is_unranked := false; wt_variable_name := None; wt_offset := 0; wt_size := 0 |}.

(** One input [a], one output [b]. *)
Definition block (operators : list WireOperator) (tensors : list WireTensor) : WireBlock :=
  {| wb_name := Some [109]; wb_operators := Some operators; wb_tensors := Some tensors; wb_shapes := None;
     wb_inputs := Some [[97]]; wb_outputs := Some [[98]] |}.

(** [t = EXP(a); b = ABS(t)] on six FP32 elements. *)
Definition chain : WireBlock :=
  block [plain Op.EXP [[97]] [[116]]; plain Op.ABS [[116]] [[98]]]
    [tensor [97] DType.FP32 [2; 3]; tensor [116] DType.FP32 [2; 3]; tensor [98] DType.FP32 [2; 3]].

(** [b = CAST(a)] from five FP16 elements to FP8. *)
Definition narrow : WireBlock :=
  block [plain Op.CAST [[97]] [[98]]] [tensor [97] DType.FP16 [5]; tensor [98] DType.FP8E4M3 [5]].

Abbreviation lowered b target :=
  (lower_tosa demo_identifier (fun _ _ => Some (one_block b)) (fun _ => true) (fun _ => true) (fun _ => true) demo_bytes target).

Definition chain_plan : ProgramPlan :=
  {| pp_slots := [{| sp_slot := 0; sp_role := RoleInput; sp_byte_len := 24; sp_storage := StWord |};
                  {| sp_slot := 1; sp_role := RoleOutput; sp_byte_len := 24; sp_storage := StWord |}];
     pp_arena_bytes := 256; pp_constants := [];
     pp_dispatches := [{| dp_kernel := KElementwise EExp StWord false; dp_spec := [6; 0; 0; 2; 0];
                          dp_work := WLinear 6; dp_barrier_before := false |};
                       {| dp_kernel := KElementwise EAbs StWord false; dp_spec := [6; 2; 0; 1; 0];
                          dp_work := WLinear 6; dp_barrier_before := true |}] |}.

Lemma chain_lowered : lowered chain VULKAN_TOSA_TARGET = Some (Ok chain_plan).
Proof. vm_compute. reflexivity. Qed.

(** The last element of [t] is stored by the first dispatch and loaded by the second. *)
Lemma chain_store : kernel_access (KElementwise EExp StWord false) [6; 0; 0; 2; 0] true {| op_buffer := 2; op_base := 0 |} StWord 5.
Proof. exists 5. split; [vm_compute; split; [discriminate|reflexivity]|]. split; [reflexivity|split; reflexivity]. Qed.

Lemma chain_load : kernel_access (KElementwise EAbs StWord false) [6; 2; 0; 1; 0] false {| op_buffer := 2; op_base := 0 |} StWord 5.
Proof.
  exists 5. split; [vm_compute; split; [discriminate|reflexivity]|]. exists 0%nat, StWord. split; [reflexivity|].
  split; [reflexivity|]. split; reflexivity.
Qed.

Lemma dispatches_in_bounds_witness :
  in_descriptor (pp_slots chain_plan) (pp_arena_bytes chain_plan) (word_of {| op_buffer := 2; op_base := 0 |} StWord 5).
Proof.
  exact (proj2 (dispatches_in_bounds demo_identifier (fun _ _ => Some (one_block chain)) (fun _ => true) (fun _ => true) (fun _ => true)
    demo_bytes VULKAN_TOSA_TARGET chain_plan chain_lowered) _ true _ _ _ (list_elem_of_here _ _) chain_store (or_introl eq_refl)).
Defined.

Lemma conflicts_have_barriers_witness :
  exists m d, (0 < m <= 1)%nat /\ pp_dispatches chain_plan !! m = Some d /\ dp_barrier_before d = true.
Proof.
  exact (conflicts_have_barriers demo_identifier (fun _ _ => Some (one_block chain)) (fun _ => true) (fun _ => true) (fun _ => true)
    demo_bytes VULKAN_TOSA_TARGET chain_plan chain_lowered 0 1 _ _ true _ _ _ _ _ _ ltac:(lia) eq_refl eq_refl chain_store chain_load eq_refl).
Defined.

Definition narrow_plan : ProgramPlan :=
  {| pp_slots := [{| sp_slot := 0; sp_role := RoleInput; sp_byte_len := 10; sp_storage := StHalf |};
                  {| sp_slot := 1; sp_role := RoleOutput; sp_byte_len := 5; sp_storage := StQuarter E4M3 |}];
     pp_arena_bytes := 0; pp_constants := [];
     pp_dispatches := [{| dp_kernel := KCast StHalf (StQuarter E4M3); dp_spec := [0; 0; 1; 0; 5];
                          dp_work := WLinear 2; dp_barrier_before := false |}] |}.

(** [assemble_contiguous_lanes] of shader.rs under the plans of lower.rs.  A cast
    to a narrower type loads whole groups of destination lanes: the accepted plan of
    a cast from five FP16 elements to FP8 loads the fourth word of a slot whose
    descriptor has three. *)
Lemma narrowing_cast_overreads :
  lowered narrow VULKAN_TOSA_FP8_TARGET = Some (Ok narrow_plan) /\
  exists d o st e, d ∈ pp_dispatches narrow_plan /\ kernel_access (dp_kernel d) (dp_spec d) false o st e /\
    word_of o st e = (0, 3) /\ descriptor_words (pp_slots narrow_plan) (pp_arena_bytes narrow_plan) 0 = 3.
Proof.
  split; [vm_compute; reflexivity|]. eexists _, {| op_buffer := 0; op_base := 0 |}, StHalf, 6. split; [by left|].
  split; [|by vm_compute]. exists 1, 2. split; [vm_compute; split; [discriminate|reflexivity]|].
  split; [vm_compute; split; [discriminate|reflexivity]|]. split; [reflexivity|]. split; reflexivity.
Qed.
End VulkanDemo.
